(* ===== verification/_CoqProject ===== *)
-Q . S2P
Prelude.v
CString.v
Ring.v
State.v
Spinlock.v
Sched.v
SchedSmp.v
Sleeplock.v
Kalloc.v
Vm.v
PageTable.v
VmWalk.v
VmSpec.v
VmOps.v
VmFree.v
VmCopy.v
VmProps.v
Bio.v
BioList.v
BioSpec.v
Block.v
Log.v
LogSpec.v
LogCrash.v
LogTx.v
Copy.v
UserMem.v
EitherCopy.v
Fs.v
FsCodec.v
FsAlloc.v
FsInode.v
FsFile.v
FsProps.v
FsTrunc.v
FsTable.v
FsDir.v
FsDirProps.v
FsPath.v
FsNamex.v
Mkfs.v
MkfsSpec.v
MkfsProps.v
Uart.v
Printf.v
PrintSpec.v
UartSpec.v
Console.v
ConsoleSpec.v
Pipe.v
PipeSpec.v
File.v
Proc.v
ProcMem.v
ProcTable.v
ProcFork.v
ProcWait.v
Exec.v
Syscall.v
SyscallSpec.v
Sysfile.v
Virtio.v
VirtioSpec.v
VirtioRw.v
Trap.v
Umalloc.v
UmallocSpec.v
Ulib.v
Uprogs.v
UprogSpec.v
Grind.v
Grep.v
Sh.v
ShSpec.v
ShProps.v
ShRun.v
Riscv.v
Asm.v
Boot.v
Usys.v
