(* ===== verification/Prelude.v ===== *)
(** * xv6 for RISC-V: a verification library

    A shallow embedding of xv6, the teaching kernel under [src/], with the
    theorems that make its parts correct.  The C code is translated function by
    function into executable Rocq definitions that keep the names of the
    source; a C integer is a [Z] with the conversions of its width written out.

    ** The program and how its parts are modelled

    The kernel is a monolithic program.  Its global variables are the record
    [State.kst]: the tables [proc[]], [bcache.buf[]], [itable.inode[]] and
    [ftable.file[]], the log, the pipes, the console, the serial port, the disk
    and the memory of the machine, byte by byte.  A kernel function is a
    program of the monad [K := M kst] of this file.  Running it gives a result
    and a state, a [panic], or a [Yield]: the call of [swtch] inside [sched], with
    the state at that point and the rest of the thread as a function from the state
    in which it is resumed.  [wp] is total correctness over that monad: no panic,
    and enough fuel.

    - Strings: [CString] ([kernel/string.c]); [Ring] holds the circular
      buffers shared by pipes, console and serial port.
    - Locks: [Spinlock] ([kernel/spinlock.c] on several harts, as atomic
      actions), [Sched] (the same locks as one kernel thread sees them;
      [sched], [yield], [sleep], [wakeup], [kill], [scheduler] of
      [kernel/proc.c]), [SchedSmp] (the second view is sound for the first),
      [Sleeplock] ([kernel/sleeplock.c]).
    - Memory: [Kalloc] ([kernel/kalloc.c]); [Vm] ([kernel/vm.c]), with
      [PageTable] (page tables as trees), [VmWalk], [VmSpec], [VmOps],
      [VmFree], [VmCopy] and [VmProps] (specifications and proofs).
    - Disk: [Virtio], [VirtioSpec], [VirtioRw] ([kernel/virtio_disk.c], for any
      device that meets the class [VirtioDevice]); [Bio], [BioList], [BioSpec]
      ([kernel/bio.c]); [Block] (fields of a block); [Log], [LogSpec], [LogCrash], [LogTx]
      ([kernel/log.c]).
    - Files: [Fs] ([kernel/fs.c]); [FsCodec], [FsAlloc], [FsInode], [FsFile],
      [FsProps], [FsTrunc], [FsTable], [FsDir], [FsDirProps], [FsPath], [FsNamex] (its layers,
      bottom up); [Mkfs], [MkfsSpec], [MkfsProps] ([mkfs/mkfs.c]); [File] ([kernel/file.c], [pipealloc]).
    - Copies between the kernel and a process: [Copy] ([either_copyin],
      [either_copyout]), [UserMem], [EitherCopy].
    - Devices: [Uart], [UartSpec] ([kernel/uart.c]); [Console], [ConsoleSpec]
      ([kernel/console.c]); [Printf], [PrintSpec] ([kernel/printf.c]).
    - Pipes: [Pipe], [PipeSpec] ([kernel/pipe.c]).
    - Processes: [Proc] ([kernel/proc.c]), [ProcMem] (the page table of a process),
      [ProcTable] (the table as a whole), [ProcFork] ([fork]), [ProcWait] ([wait]); [Exec] ([kernel/exec.c]).
    - System calls and traps: [Syscall] ([kernel/syscall.c],
      [kernel/sysproc.c]), [SyscallSpec] (arguments), [Sysfile] ([kernel/sysfile.c]), [Trap]
      ([kernel/trap.c], the dispatch of [syscall], [kernel/main.c]).
    - Machine level: [Riscv] (a hart: registers, control registers, address
      translation, the instructions used), [Asm] (the code of [kernel/entry.S],
      [kernel/swtch.S], [kernel/trampoline.S], [kernel/kernelvec.S]; traps from user
      mode, thread switches, interrupts in the kernel), [Boot]
      ([kernel/start.c], [kernel/plic.c], the timer), [Usys] ([user/usys.S],
      [user/initcode.S], the bytes [initcode] of [kernel/proc.c]).
    - User programs: [Umalloc], [UmallocSpec] ([user/umalloc.c]), [Grind] (the random numbers
      of [user/grind.c]), [Ulib] ([user/ulib.c] and the system calls as an
      interface, the class [Env]), [Uprogs], [UprogSpec] ([printf], [cat],
      [wc], [echo], parts of [ls], [find] and [xargs]), [Grep] ([user/grep.c]),
      [Sh], [ShSpec], [ShProps], [ShRun] ([user/sh.c]).

    ** What the theorems show

    - Crash safety: a transaction that crashes at any disk write is, after
      recovery, there completely or not at all, and recovery may itself crash
      and be run again ([LogTx]).  The driver, the device and the interrupt together
      do the one-block transfer [disk_rw] the cache is modelled with ([VirtioRw]).
    - Files: [bmap], [readi], [writei] and [itrunc] against the bytes of a
      file, with every other file and the bitmap kept; directories as
      finite lists of names; an inode has one entry in the table
      ([FsProps], [FsTrunc], [FsDirProps], [FsAlloc]).  A path is resolved as a walk over
      the directories on the disk, and every reference taken on the way is given
      back ([FsNamex]).  The image [mkfs] makes satisfies the invariants the kernel
      starts from, and holds the files it was given ([MkfsProps]).
    - Memory: no page is lost, shared or leaked by [uvmalloc], [uvmdealloc],
      [uvmcopy], [uvmfree]; copies between the kernel and a user touch the user's own
      mapped pages only ([VmProps]).  [fork] makes a copy
      of the process or fails without a trace, and keeps the process
      table and the counts of open files consistent ([ProcFork]); [wait] gives every
      page of a dead child back ([ProcWait]).  What system calls take from user
      registers and memory is in range, whatever the program does ([SyscallSpec]).
    - Entering and leaving the kernel: a trap saves all registers of the user
      program and returning restores them, over the page table of any
      process of the table, and an interrupt in the kernel and a switch of
      threads bring a thread back as it was ([Asm]); a hart gets from reset to [main] with its
      clock running, and every tick keeps it running ([Boot]); the
      stubs reach the handlers of their names and [initcode] runs [exec] of "/init" ([Usys]).
    - Concurrency: mutual exclusion of spinlocks for any interleaving of harts,
      no lost wakeup between [sleep] and [wakeup], a woken thread is resumed,
      with the interrupt flags it had ([Spinlock], [Sched], [SchedSmp]).
    - Pipes, console and serial port refine bounded queues and a line editor
      ([PipeSpec], [ConsoleSpec], [UartSpec]); numbers are printed so that they
      read back ([PrintSpec]).
    - User programs: [malloc] gives out blocks that no one else has and [free]
      takes them back, over a heap that is a row of blocks ([UmallocSpec]); the shell's parser accepts its grammar and nothing
      else, and returns the tree of the line; running the tree gives every
      command its files and pipes; [grep] prints the matching lines, with a
      matcher equivalent to the language of the expression; [cat] and [wc]
      for every way the reads may cut the input.

    ** Fuel and bounds

    Loops whose bound is in the source run that number of rounds
    ([mfor], [mfind]).  A loop with no such bound takes fuel from
    the data it works on: the size of the copy in [copyin] and [copyout], the
    length of the string for the string routines, the number of bytes for
    [readi] and [writei] (each round moves at least one), the length of the line for
    the shell's parser, the levels of a page table for [freewalk], the length of the path for [namex],
    the data left for [iappend] of mkfs, the headers below the break for [malloc] and [free].  [NoFuel] is
    a result of its own and [wp] excludes it, so each specification proves that its
    fuel is enough.  The loops that wait ([sleep] in a [while]) are resumed from
    the state the other threads leave; their specifications quantify over it.

    ** Not modelled

    - Code that only initialises a lock or pokes device or control registers:
      [uartinit], [consoleinit], [kvminithart], [trapinithart], and the CSR accessors of [riscv.h] other
      than those of [start]; in the model of the C code the registers
      the handlers decide on are fields of [k_hart], [swtch] is the [Yield] of the
      monad, and a handler of [Trap] starts where the code of [Asm] jumps to.
      That the C compiler keeps the stack pointer and the stack of its caller is the
      hypothesis [c_returns] of [Asm].  [ramdisk.c] is not linked into the kernel.
    - What the compiler does with registers and stack: [start] of [Boot] leaves
      any values in the registers it does not set.
    - Running out of memory in the shell: [malloc] of [Sh] succeeds.
    - Caches and the memory model of the hardware: the harts of [Spinlock]
      interleave sequentially consistent actions.
    - Test programs ([usertests.c], [forktest.c], [stressfs.c],
      [pingpong.c], [zombie.c] and the driver of [grind.c]): they exercise the
      kernel and promise nothing to other code.
    - What a program under [src/user] gets from the kernel is a parameter (the class
      [Env]) with the laws [reads] and [writes] as hypotheses; each theorem that
      assumes them is also applied to a concrete instance. *)

From stdpp Require Export strings numbers base gmap list.
From stdpp Require Import options.
#[local] Open Scope Z_scope.

(** ** Fixed-width integers

    A C integer of width [w] is a [Z]; every operation that can leave the
    range is followed by the conversion the C type performs. *)

Definition u8 (z : Z) : Z := z mod 2 ^ 8.
Definition u16 (z : Z) : Z := z mod 2 ^ 16.
Definition u32 (z : Z) : Z := z mod 2 ^ 32.
Definition u64 (z : Z) : Z := z mod 2 ^ 64.
Definition i8 (z : Z) : Z := (z + 2 ^ 7) mod 2 ^ 8 - 2 ^ 7.
Definition i16 (z : Z) : Z := (z + 2 ^ 15) mod 2 ^ 16 - 2 ^ 15.
Definition i32 (z : Z) : Z := (z + 2 ^ 31) mod 2 ^ 32 - 2 ^ 31.

Lemma u8_range z : 0 ≤ u8 z < 256.
Proof. apply Z.mod_pos_bound. lia. Qed.
Lemma u32_range z : 0 ≤ u32 z < 2 ^ 32.
Proof. apply Z.mod_pos_bound. lia. Qed.
Lemma u64_range z : 0 ≤ u64 z < 2 ^ 64.
Proof. apply Z.mod_pos_bound. lia. Qed.
Lemma u8_id z : 0 ≤ z < 256 → u8 z = z.
Proof. apply Z.mod_small. Qed.
Lemma u16_id z : 0 ≤ z < 2 ^ 16 → u16 z = z.
Proof. apply Z.mod_small. Qed.
Lemma u32_id z : 0 ≤ z < 2 ^ 32 → u32 z = z.
Proof. apply Z.mod_small. Qed.
Lemma u64_id z : 0 ≤ z < 2 ^ 64 → u64 z = z.
Proof. apply Z.mod_small. Qed.
Lemma i32_id z : - 2 ^ 31 ≤ z < 2 ^ 31 → i32 z = z.
Proof. intros. unfold i32. rewrite Z.mod_small; lia. Qed.
Lemma u8_u8 z : u8 (u8 z) = u8 z.
Proof. apply u8_id, u8_range. Qed.
Lemma u32_u32 z : u32 (u32 z) = u32 z.
Proof. apply u32_id, u32_range. Qed.

(** ** Little-endian encodings *)

Fixpoint le_bytes (n : nat) (z : Z) : list Z :=
  match n with
  | O => []
  | S n => z mod 256 :: le_bytes n (z / 256)
  end.

Fixpoint le_val (l : list Z) : Z :=
  match l with
  | [] => 0
  | b :: l => b + 256 * le_val l
  end.

Definition is_byte (b : Z) : Prop := 0 ≤ b < 256.

Lemma length_le_bytes n z : length (le_bytes n z) = n.
Proof. revert z; induction n; intros; simpl; auto. Qed.

Lemma le_bytes_is_byte n z : Forall is_byte (le_bytes n z).
Proof.
  revert z; induction n; intros; simpl; constructor; auto.
  apply Z.mod_pos_bound. lia.
Qed.

Lemma le_val_bytes n z : le_val (le_bytes n z) = z mod 256 ^ Z.of_nat n.
Proof.
  revert z; induction n as [|n IH]; intros z; simpl.
  - by rewrite Z.mod_1_r.
  - rewrite IH.
    replace (256 ^ Z.of_nat (S n)) with (256 * 256 ^ Z.of_nat n).
    2:{ rewrite Nat2Z.inj_succ, Z.pow_succ_r; lia. }
    rewrite Z.rem_mul_r by lia. lia.
Qed.

Lemma le_val_bytes_id n z :
  0 ≤ z < 256 ^ Z.of_nat n → le_val (le_bytes n z) = z.
Proof. intros. rewrite le_val_bytes. by apply Z.mod_small. Qed.

Lemma le_val_range l :
  Forall is_byte l → 0 ≤ le_val l < 256 ^ Z.of_nat (length l).
Proof.
  induction 1 as [|b l Hb Hl IH]; simpl; [lia|].
  rewrite Nat2Z.inj_succ, Z.pow_succ_r by lia. unfold is_byte in Hb. lia.
Qed.

Lemma le_bytes_val l :
  Forall is_byte l → le_bytes (length l) (le_val l) = l.
Proof.
  induction 1 as [|b l Hb Hl IH]; simpl; [done|]. unfold is_byte in Hb.
  rewrite (Z.mul_comm 256), Z.mod_add, Z.mod_small by lia.
  rewrite Z.div_add, Z.div_small, Z.add_0_l by lia. by rewrite IH.
Qed.

(** ** Sums over lists *)

Lemma sum_insert {A} (g : A → nat) (l : list A) i x y :
  l !! i = Some x → (sum_list_with g (<[i := y]> l) + g x = sum_list_with g l + g y)%nat.
Proof.
  revert i; induction l as [|z l IH]; intros [|i] H; simpl in *; [done|done|simplify_eq; lia|].
  specialize (IH i H). lia.
Qed.
Lemma sum_lookup {A} (g : A → nat) (l : list A) i x : l !! i = Some x → (g x ≤ sum_list_with g l)%nat.
Proof.
  revert i; induction l as [|z l IH]; intros [|i] H; simpl in *; [done|done|simplify_eq; lia|].
  specialize (IH i H). lia.
Qed.

(** ** The kernel-thread monad

    A computation of one kernel thread over a state [S] returns a value, calls
    [panic], gives up the CPU inside [swtch] (with the rest of the thread as a
    function of the state found on resumption), or has run out of the fuel of
    one of its loops. *)

Inductive res (S A : Type) : Type :=
| Ok (a : A) (s : S)
| Panic (msg : string)
| Yield (s : S) (k : S → res S A)
| NoFuel.
Arguments Ok {_ _} _ _.
Arguments Panic {_ _} _.
Arguments Yield {_ _} _ _.
Arguments NoFuel {_ _}.

Definition M (S A : Type) : Type := S → res S A.

Fixpoint res_bind {S A B} (f : A → M S B) (r : res S A) : res S B :=
  match r with
  | Ok a s => f a s
  | Panic msg => Panic msg
  | Yield s k => Yield s (λ s', res_bind f (k s'))
  | NoFuel => NoFuel
  end.

#[export] Instance M_ret {S} : MRet (M S) := λ A a s, Ok a s.
#[export] Instance M_bind {S} : MBind (M S) := λ A B f m s, res_bind f (m s).

Definition panic {S A} (msg : string) : M S A := λ _, Panic msg.
Definition gets {S A} (f : S → A) : M S A := λ s, Ok (f s) s.
Definition modify {S} (f : S → S) : M S unit := λ s, Ok () (f s).
Definition swtch_away {S} : M S unit := λ s, Yield s (λ s', Ok () s').
Definition when {S} (b : bool) (m : M S unit) : M S unit :=
  if b then m else mret ().
Definition assert_panic {S} (b : bool) (msg : string) : M S unit :=
  if b then mret () else panic msg.

(** [mfor n i body] is [for(; n iterations; i++) body(i)]. *)
Fixpoint mfor {S} (n : nat) (i : Z) (body : Z → M S unit) : M S unit :=
  match n with
  | O => mret ()
  | Datatypes.S n => body i;; mfor n (i + 1) body
  end.

(** [mfind n i body] is the same loop with an early [return]: the first
    iteration that gives [Some v] ends it. *)
Fixpoint mfind {S A} (n : nat) (i : Z) (body : Z → M S (option A))
  : M S (option A) :=
  match n with
  | O => mret None
  | Datatypes.S n =>
      r ← body i;
      match r with
      | Some v => mret (Some v)
      | None => mfind n (i + 1) body
      end
  end.

(** [mloop fuel x body] iterates [body] from the loop state [x]: [inl x']
    continues with [x'], [inr v] leaves the loop with [v]. *)
Fixpoint mloop {S X A} (fuel : nat) (body : X → M S (X + A)) (x : X)
  : M S A :=
  match fuel with
  | O => λ _, NoFuel
  | Datatypes.S fuel =>
      r ← body x;
      match r with
      | inl x' => mloop fuel body x'
      | inr v => mret v
      end
  end.

(** ** Total correctness

    [wp m Q s]: run from [s], [m] returns without a panic, without giving up
    the CPU and within its fuel, and its result satisfies [Q]. *)

Definition wp {S A} (m : M S A) (Q : A → S → Prop) (s : S) : Prop :=
  match m s with Ok a s' => Q a s' | _ => False end.

Section wp.
Context {S : Type}.
Implicit Types s : S.

Lemma wp_Ok {A} (m : M S A) Q s a s' : m s = Ok a s' → Q a s' → wp m Q s.
Proof. unfold wp. by intros ->. Qed.

Lemma wp_inv {A} (m : M S A) Q s :
  wp m Q s → ∃ a s', m s = Ok a s' ∧ Q a s'.
Proof. unfold wp. destruct (m s); naive_solver. Qed.

Lemma wp_ret {A} (a : A) (Q : A → S → Prop) s : Q a s → wp (mret a) Q s.
Proof. done. Qed.

Lemma wp_bind {A B} (m : M S A) (f : A → M S B) Q s :
  wp m (λ a, wp (f a) Q) s → wp (m ≫= f) Q s.
Proof. unfold wp, mbind, M_bind. by destruct (m s). Qed.

Lemma wp_mono {A} (m : M S A) (Q Q' : A → S → Prop) s :
  wp m Q s → (∀ a s', Q a s' → Q' a s') → wp m Q' s.
Proof. unfold wp. destruct (m s); naive_solver. Qed.

Lemma wp_gets {A} (f : S → A) (Q : A → S → Prop) s :
  Q (f s) s → wp (gets f) Q s.
Proof. done. Qed.

Lemma wp_modify (f : S → S) (Q : unit → S → Prop) s :
  Q () (f s) → wp (modify f) Q s.
Proof. done. Qed.

Lemma wp_when (b : bool) (m : M S unit) (Q : unit → S → Prop) s :
  (b = true → wp m Q s) → (b = false → Q () s) → wp (when b m) Q s.
Proof. destruct b; naive_solver. Qed.

Lemma wp_assert_panic (b : bool) msg (Q : unit → S → Prop) s :
  b = true → Q () s → wp (assert_panic b msg) Q s.
Proof. by intros ->. Qed.

(** The loop rule of [mfor]: an invariant indexed by the iteration. *)
Lemma wp_mfor (n : nat) (i : Z) (body : Z → M S unit) (I : Z → S → Prop)
    (Q : unit → S → Prop) s :
  I i s →
  (∀ j s', i ≤ j < i + Z.of_nat n → I j s' →
    wp (body j) (λ _, I (j + 1)) s') →
  (∀ s', I (i + Z.of_nat n) s' → Q () s') →
  wp (mfor n i body) Q s.
Proof.
  revert i s; induction n as [|n IH]; intros i s HI Hbody HQ; simpl.
  - apply wp_ret, HQ. by rewrite Z.add_0_r.
  - apply wp_bind. eapply wp_mono; [apply Hbody; [lia|done]|].
    intros [] s' HI'. simpl. apply IH.
    + done.
    + intros j s'' ? ?. apply Hbody; [lia|done].
    + intros s'' HI''. apply HQ.
      by replace (i + Z.of_nat (Datatypes.S n))
        with (i + 1 + Z.of_nat n) by lia.
Qed.

(** The loop rule of [mfind]: the invariant holds while no iteration has
    returned. *)
Lemma wp_mfind {A} (n : nat) (i : Z) (body : Z → M S (option A))
    (I : Z → S → Prop) (Q : option A → S → Prop) s :
  I i s →
  (∀ j s', i ≤ j < i + Z.of_nat n → I j s' →
    wp (body j) (λ r s'',
      match r with Some v => Q (Some v) s'' | None => I (j + 1) s'' end) s') →
  (∀ s', I (i + Z.of_nat n) s' → Q None s') →
  wp (mfind n i body) Q s.
Proof.
  revert i s; induction n as [|n IH]; intros i s HI Hbody HQ; simpl.
  - apply wp_ret, HQ. by rewrite Z.add_0_r.
  - apply wp_bind. eapply wp_mono; [apply Hbody; [lia|done]|].
    intros [v|] s' HI'; simpl; [by apply wp_ret|]. apply IH.
    + done.
    + intros j s'' ? ?. apply Hbody; [lia|done].
    + intros s'' HI''. apply HQ.
      by replace (i + Z.of_nat (Datatypes.S n))
        with (i + 1 + Z.of_nat n) by lia.
Qed.

(** The loop rule of [mloop]: a measure below the fuel decreases. *)
Lemma wp_mloop {X A} (fuel : nat) (body : X → M S (X + A)) (x : X)
    (μ : X → nat) (I : X → S → Prop) (Q : A → S → Prop) s :
  (μ x < fuel)%nat →
  I x s →
  (∀ y s', I y s' →
    wp (body y) (λ r s'',
      match r with
      | inl y' => I y' s'' ∧ (μ y' < μ y)%nat
      | inr v => Q v s''
      end) s') →
  wp (mloop fuel body x) Q s.
Proof.
  revert x s; induction fuel as [|fuel IH]; intros x s Hμ HI Hbody; [lia|].
  simpl. apply wp_bind. eapply wp_mono; [by apply Hbody|].
  intros [y|v] s' H; simpl; [|by apply wp_ret].
  destruct H as [HI' Hlt]. apply IH; [lia|done|done].
Qed.

Lemma bind_Ok {A B} (m : M S A) (f : A → M S B) s a s' :
  m s = Ok a s' → (m ≫= f) s = f a s'.
Proof. unfold mbind, M_bind. by intros ->. Qed.

Lemma bind_gets {A B} (f : S → A) (g : A → M S B) s :
  (gets f ≫= g) s = g (f s) s.
Proof. done. Qed.
Lemma bind_modify {B} (f : S → S) (g : unit → M S B) s :
  (modify f ≫= g) s = g () (f s).
Proof. done. Qed.
Lemma bind_ret {A B} (a : A) (g : A → M S B) s : (mret a ≫= g) s = g a s.
Proof. done. Qed.
Lemma ret_Ok {A} (a : A) s : (mret a : M S A) s = Ok a s.
Proof. done. Qed.
Lemma bind_yields {A B} (m : M S A) (f : A → M S B) s s1 k :
  m s = Yield s1 k → (m ≫= f) s = Yield s1 (λ s2, res_bind f (k s2)).
Proof. unfold mbind, M_bind. by intros ->. Qed.

(** One iteration of [mloop]. *)
Lemma mloop_done {X A} n (body : X → M S (X + A)) x s v s' :
  body x s = Ok (inr v) s' → mloop (Datatypes.S n) body x s = Ok v s'.
Proof. intros E. cbn [mloop]. by rewrite (bind_Ok _ _ _ _ _ E). Qed.
Lemma mloop_next {X A} n (body : X → M S (X + A)) x s y s' :
  body x s = Ok (inl y) s' →
  mloop (Datatypes.S n) body x s = mloop n body y s'.
Proof. intros E. cbn [mloop]. by rewrite (bind_Ok _ _ _ _ _ E). Qed.
Lemma mloop_yields {X A} n (body : X → M S (X + A)) x s s1 k :
  body x s = Yield s1 k →
  mloop (Datatypes.S n) body x s =
    Yield s1 (λ s2, res_bind (λ r, match r with
      | inl y => mloop n body y | inr v => mret v end) (k s2)).
Proof. intros E. cbn [mloop]. by rewrite (bind_yields _ _ _ _ _ E). Qed.

Lemma bind_Panic {A B} (m : M S A) (f : A → M S B) s msg :
  m s = Panic msg → (m ≫= f) s = Panic msg.
Proof. unfold mbind, M_bind. by intros ->. Qed.
End wp.

(** Evaluate the leading primitives of a computation applied to a state. *)
Ltac mstep := rewrite ?bind_gets, ?bind_modify, ?bind_ret, ?ret_Ok.

Ltac msteps :=
  repeat first [rewrite bind_gets | rewrite bind_modify | rewrite bind_ret | rewrite ret_Ok].

(** Peel the leading primitive of a [wp] goal. *)
Ltac wp_step :=
  first
    [ apply wp_bind
    | apply wp_ret
    | apply wp_gets
    | apply wp_modify ]; simpl.
Ltac wp_steps := repeat wp_step.
(** Use a specification of the leading call. *)
Tactic Notation "wp_use" uconstr(H) := eapply wp_mono; [eapply H|]; simpl.
