(* ===== verification/CString.v ===== *)
(** * Byte memory and the kernel's string library

    [kernel/string.c] over a byte-addressed memory.  A [char] is unsigned on
    RISC-V, so every stored byte is in [0, 256).  Pointers are [Z] addresses;
    the routines that the source runs on [uint] counts take the count as a
    [Z] and iterate [Z.to_nat] of it. *)

From stdpp Require Import options.
From S2P Require Import Prelude.
#[local] Open Scope Z_scope.

(** Memory is a finite map; an address never written reads as 0. *)
Abbreviation mem := (gmap Z Z).
Definition rd (m : mem) (a : Z) : Z := default 0 (m !! a).
Definition wr (a b : Z) (m : mem) : mem := <[a := u8 b]> m.

(** ** Operations *)

(** The loop of [memset]: [i] counts up to [n]. *)
Fixpoint memset_loop (m : mem) (cdst : Z) (c : Z) (n : nat) : mem :=
  match n with
  | O => m
  | S n => memset_loop (wr cdst c m) (cdst + 1) c n
  end.
Definition memset (m : mem) (dst c n : Z) : mem :=
  memset_loop m dst c (Z.to_nat n).

Fixpoint memcmp_loop (m : mem) (s1 s2 : Z) (n : nat) : Z :=
  match n with
  | O => 0
  | S n => if rd m s1 =? rd m s2 then memcmp_loop m (s1 + 1) (s2 + 1) n
           else rd m s1 - rd m s2
  end.
Definition memcmp (m : mem) (v1 v2 n : Z) : Z :=
  memcmp_loop m v1 v2 (Z.to_nat n).

(** The upward loop: store through [d], load through [s], advance both. *)
Fixpoint copy_fwd (m : mem) (d s : Z) (n : nat) : mem :=
  match n with
  | O => m
  | S n => copy_fwd (wr d (rd m s) m) (d + 1) (s + 1) n
  end.
(** The downward loop: both pointers are decremented before the access. *)
Fixpoint copy_bwd (m : mem) (d s : Z) (n : nat) : mem :=
  match n with
  | O => m
  | S n => copy_bwd (wr (d - 1) (rd m (s - 1)) m) (d - 1) (s - 1) n
  end.
Definition memmove (m : mem) (dst src n : Z) : mem :=
  if n =? 0 then m
  else if (src <? dst) && (dst <? src + n)
  then copy_bwd m (dst + n) (src + n) (Z.to_nat n)
  else copy_fwd m dst src (Z.to_nat n).
Definition memcpy (m : mem) (dst src n : Z) : mem := memmove m dst src n.

Fixpoint strncmp_loop (m : mem) (p q : Z) (n : nat) : Z :=
  match n with
  | O => 0
  | S n =>
      if negb (rd m p =? 0) && (rd m p =? rd m q)
      then strncmp_loop m (p + 1) (q + 1) n
      else rd m p - rd m q
  end.
Definition strncmp (m : mem) (p q n : Z) : Z :=
  strncmp_loop m p q (Z.to_nat n).

(** The two loops of [strncpy]: copy up to and including the NUL, then pad. *)
Fixpoint strncpy_pad (m : mem) (s : Z) (n : nat) : mem :=
  match n with
  | O => m
  | S n => strncpy_pad (wr s 0 m) (s + 1) n
  end.
Fixpoint strncpy_loop (m : mem) (s t : Z) (n : nat) : mem :=
  match n with
  | O => m
  | S n =>
      let c := rd m t in
      let m := wr s c m in
      if c =? 0 then strncpy_pad m (s + 1) n
      else strncpy_loop m (s + 1) (t + 1) n
  end.
Definition strncpy (m : mem) (s t n : Z) : mem :=
  strncpy_loop m s t (Z.to_nat n).

(** The loop of [safestrcpy] and the final store of a NUL at [s]; [n] is the
    count after the first decrement. *)
Fixpoint safestrcpy_loop (m : mem) (s t : Z) (n : nat) : mem :=
  match n with
  | O => wr s 0 m
  | S n =>
      let c := rd m t in
      let m := wr s c m in
      if c =? 0 then wr (s + 1) 0 m
      else safestrcpy_loop m (s + 1) (t + 1) n
  end.
Definition safestrcpy (m : mem) (s t n : Z) : mem :=
  if n <=? 0 then m else safestrcpy_loop m s t (Z.to_nat (n - 1)).

(** [strlen]: the fuel [S (size m)] is enough because only [size m] addresses
    can hold a byte other than 0 (lemma [strlen_total]). *)
Fixpoint strlen_loop (fuel : nat) (m : mem) (s n : Z) : option Z :=
  match fuel with
  | O => None
  | S fuel => if rd m (s + n) =? 0 then Some n
              else strlen_loop fuel m s (n + 1)
  end.
Definition strlen (m : mem) (s : Z) : Z :=
  default 0 (strlen_loop (S (size m)) m s 0).

(** Reading and writing runs of bytes. *)
Fixpoint rd_bytes (m : mem) (a : Z) (n : nat) : list Z :=
  match n with
  | O => []
  | S n => rd m a :: rd_bytes m (a + 1) n
  end.
Fixpoint wr_bytes (m : mem) (a : Z) (l : list Z) : mem :=
  match l with
  | [] => m
  | b :: l => wr_bytes (wr a b m) (a + 1) l
  end.

(** A 64-bit little-endian load and store, as the compiler emits them for a
    [uint64] access. *)
Definition load64 (m : mem) (a : Z) : Z := le_val (rd_bytes m a 8).
Definition store64 (m : mem) (a v : Z) : mem := wr_bytes m a (le_bytes 8 v).

(** The bytes of the string at [p], up to its NUL and at most [n]. *)
Fixpoint cstrn (m : mem) (p : Z) (n : nat) : list Z :=
  match n with
  | O => []
  | S n => if rd m p =? 0 then [] else rd m p :: cstrn m (p + 1) n
  end.

(** Every byte of the memory is in range. *)
Definition mem_ok (m : mem) : Prop := ∀ a, 0 ≤ rd m a < 256.

(** ** Reads after writes *)

Lemma rd_wr m a b x : rd (wr a b m) x = if decide (x = a) then u8 b else rd m x.
Proof.
  unfold rd, wr. case_decide as H; [subst; by rewrite lookup_insert_eq|].
  by rewrite lookup_insert_ne.
Qed.
Lemma rd_wr_eq m a b : rd (wr a b m) a = u8 b.
Proof. rewrite rd_wr. by case_decide. Qed.
Lemma rd_wr_ne m a b x : x ≠ a → rd (wr a b m) x = rd m x.
Proof. intros. rewrite rd_wr. by case_decide. Qed.
Lemma rd_empty a : rd ∅ a = 0.
Proof. unfold rd. by rewrite lookup_empty. Qed.

Lemma mem_ok_empty : mem_ok ∅.
Proof. intros a. rewrite rd_empty. lia. Qed.
Lemma mem_ok_wr m a b : mem_ok m → mem_ok (wr a b m).
Proof.
  intros H x. rewrite rd_wr. case_decide; [apply u8_range|apply H].
Qed.

Lemma rd_memset_loop m d c n a :
  rd (memset_loop m d c n) a =
  if decide (d ≤ a < d + Z.of_nat n) then u8 c else rd m a.
Proof.
  revert m d; induction n as [|n IH]; intros m d; simpl.
  - case_decide; [lia|done].
  - rewrite IH, rd_wr. repeat case_decide; try done; lia.
Qed.
Lemma rd_memset m d c n a :
  0 ≤ n →
  rd (memset m d c n) a = if decide (d ≤ a < d + n) then u8 c else rd m a.
Proof.
  intros. unfold memset. rewrite rd_memset_loop, Z2Nat.id by done. done.
Qed.
Lemma mem_ok_memset m d c n : mem_ok m → mem_ok (memset m d c n).
Proof.
  intros H a. unfold memset. rewrite rd_memset_loop.
  case_decide; [apply u8_range|apply H].
Qed.

Lemma length_rd_bytes m a n : length (rd_bytes m a n) = n.
Proof. revert a; induction n; intros; simpl; auto. Qed.
Lemma rd_bytes_ok m a n : mem_ok m → Forall is_byte (rd_bytes m a n).
Proof.
  intros H. revert a; induction n; intros; simpl; constructor; auto.
  apply H.
Qed.
Lemma lookup_rd_bytes m a n (i : nat) :
  (i < n)%nat → rd_bytes m a n !! i = Some (rd m (a + Z.of_nat i)).
Proof.
  revert a i; induction n as [|n IH]; intros a i Hi; [lia|].
  destruct i; simpl; [by rewrite Z.add_0_r|].
  rewrite IH by lia. do 2 f_equal. lia.
Qed.
Lemma rd_bytes_ext m m' a n :
  (∀ x, a ≤ x < a + Z.of_nat n → rd m x = rd m' x) →
  rd_bytes m a n = rd_bytes m' a n.
Proof.
  revert a; induction n as [|n IH]; intros a H; simpl; [done|].
  f_equal; [apply H; lia|]. apply IH. intros. apply H. lia.
Qed.
Lemma rd_bytes_app m a n k :
  rd_bytes m a (n + k) = rd_bytes m a n ++ rd_bytes m (a + Z.of_nat n) k.
Proof.
  revert a; induction n as [|n IH]; intros a; simpl; [by rewrite Z.add_0_r|].
  rewrite IH. by replace (a + 1 + Z.of_nat n) with (a + Z.of_nat (S n)) by lia.
Qed.

Lemma rd_wr_bytes m a l x :
  rd (wr_bytes m a l) x =
  if decide (a ≤ x < a + Z.of_nat (length l))
  then u8 (default 0 (l !! Z.to_nat (x - a))) else rd m x.
Proof.
  revert m a; induction l as [|b l IH]; intros m a; simpl.
  { case_decide; [lia|done]. }
  rewrite IH, rd_wr. repeat case_decide; try lia; subst; simpl.
  - replace (Z.to_nat (x - a)) with (S (Z.to_nat (x - (a + 1)))) by lia. done.
  - by replace (Z.to_nat (a - a)) with O by lia.
Qed.
Lemma rd_wr_bytes_out m a l x :
  ¬ (a ≤ x < a + Z.of_nat (length l)) → rd (wr_bytes m a l) x = rd m x.
Proof. intros. rewrite rd_wr_bytes. by case_decide. Qed.
Lemma mem_ok_wr_bytes m a l : mem_ok m → mem_ok (wr_bytes m a l).
Proof.
  revert m a; induction l; intros; simpl; auto using mem_ok_wr.
Qed.
Lemma rd_bytes_wr_bytes m a l :
  Forall is_byte l → rd_bytes (wr_bytes m a l) a (length l) = l.
Proof.
  intros Hl. apply list_eq. intros i.
  destruct (decide (i < length l)%nat) as [Hi|Hi].
  - rewrite lookup_rd_bytes by done. rewrite rd_wr_bytes.
    case_decide; [|lia].
    replace (Z.to_nat (a + Z.of_nat i - a)) with i by lia.
    destruct (lookup_lt_is_Some_2 _ _ Hi) as [b Hb]. rewrite Hb. simpl.
    f_equal. apply u8_id. eapply Forall_lookup_1 in Hl; [|done]. done.
  - rewrite !lookup_ge_None_2; [done|lia|rewrite length_rd_bytes; lia].
Qed.
Lemma rd_bytes_wr_bytes_out m a l b n :
  b + Z.of_nat n ≤ a ∨ a + Z.of_nat (length l) ≤ b →
  rd_bytes (wr_bytes m a l) b n = rd_bytes m b n.
Proof. intros H. apply rd_bytes_ext. intros. apply rd_wr_bytes_out. lia. Qed.

Lemma load64_range m a : mem_ok m → 0 ≤ load64 m a < 2 ^ 64.
Proof.
  intros H. pose proof (le_val_range _ (rd_bytes_ok m a 8 H)) as Hr.
  by rewrite length_rd_bytes in Hr.
Qed.
Lemma load64_store64 m a v :
  0 ≤ v < 2 ^ 64 → load64 (store64 m a v) a = v.
Proof.
  intros. unfold load64, store64.
  pose proof (rd_bytes_wr_bytes m a _ (le_bytes_is_byte 8 v)) as E.
  rewrite length_le_bytes in E. rewrite E. by apply le_val_bytes_id.
Qed.
Lemma load64_store64_ne m a v b :
  b + 8 ≤ a ∨ a + 8 ≤ b → load64 (store64 m a v) b = load64 m b.
Proof.
  intros. unfold load64, store64. f_equal. apply rd_bytes_wr_bytes_out.
  rewrite length_le_bytes. lia.
Qed.
Lemma rd_store64_out m a v x :
  ¬ (a ≤ x < a + 8) → rd (store64 m a v) x = rd m x.
Proof.
  intros. unfold store64. apply rd_wr_bytes_out. by rewrite length_le_bytes.
Qed.
Lemma mem_ok_store64 m a v : mem_ok m → mem_ok (store64 m a v).
Proof. apply mem_ok_wr_bytes. Qed.
Lemma load64_ext m m' a :
  (∀ x, a ≤ x < a + 8 → rd m x = rd m' x) → load64 m a = load64 m' a.
Proof. intros. unfold load64. f_equal. by apply rd_bytes_ext. Qed.
Lemma load64_zero m a :
  (∀ x, a ≤ x < a + 8 → rd m x = 0) → load64 m a = 0.
Proof.
  intros H. unfold load64. rewrite (rd_bytes_ext m ∅).
  - simpl. by rewrite !rd_empty.
  - intros. rewrite rd_empty. by apply H.
Qed.

(** ** [memmove] *)

(** Going up is right when the destination does not start inside the source
    above it. *)
Lemma rd_copy_fwd n m d s a :
  mem_ok m → (d ≤ s ∨ s + Z.of_nat n ≤ d) →
  rd (copy_fwd m d s n) a =
  if decide (d ≤ a < d + Z.of_nat n) then rd m (s + (a - d)) else rd m a.
Proof.
  revert m d s; induction n as [|n IH]; intros m d s Hm Hds; simpl.
  { case_decide; [lia|done]. }
  rewrite IH; [|by apply mem_ok_wr|lia].
  rewrite !rd_wr.
  repeat case_decide; subst; try lia; try done.
  - f_equal. lia.
  - rewrite u8_id by apply Hm. f_equal. lia.
Qed.

(** Going down is right when the source starts below the destination. *)
Lemma rd_copy_bwd n m d s a :
  mem_ok m → s ≤ d →
  rd (copy_bwd m d s n) a =
  if decide (d - Z.of_nat n ≤ a < d) then rd m (s - (d - a)) else rd m a.
Proof.
  revert m d s; induction n as [|n IH]; intros m d s Hm Hds; simpl.
  { case_decide; [lia|done]. }
  rewrite IH; [|by apply mem_ok_wr|lia].
  rewrite !rd_wr.
  repeat case_decide; subst; try lia; try done.
  - f_equal. lia.
  - rewrite u8_id by apply Hm. f_equal. lia.
Qed.

Lemma rd_memmove m dst src n a :
  mem_ok m → 0 ≤ n →
  rd (memmove m dst src n) a =
  if decide (dst ≤ a < dst + n) then rd m (src + (a - dst)) else rd m a.
Proof.
  intros Hm Hn. unfold memmove.
  destruct (Z.eqb_spec n 0) as [->|Hn0]; [case_decide; [lia|done]|].
  destruct (Z.ltb_spec src dst), (Z.ltb_spec dst (src + n)); simpl.
  - rewrite rd_copy_bwd, Z2Nat.id by (done || lia).
    repeat case_decide; try lia; f_equal; lia.
  - rewrite rd_copy_fwd, Z2Nat.id by (done || lia). done.
  - rewrite rd_copy_fwd, Z2Nat.id by (done || lia). done.
  - rewrite rd_copy_fwd, Z2Nat.id by (done || lia). done.
Qed.
Lemma mem_ok_memmove m d s n : mem_ok m → 0 ≤ n → mem_ok (memmove m d s n).
Proof.
  intros Hm Hn a. rewrite rd_memmove by done. case_decide; apply Hm.
Qed.

(** ** String comparison and copying *)

Lemma strncmp_loop_zero n m p q :
  mem_ok m → strncmp_loop m p q n = 0 ↔ cstrn m p n = cstrn m q n.
Proof.
  intros Hm. revert p q; induction n as [|n IH]; intros p q; simpl; [done|].
  pose proof (Hm p). pose proof (Hm q).
  destruct (Z.eqb_spec (rd m p) 0) as [Hp|Hp]; simpl.
  - destruct (Z.eqb_spec (rd m q) 0); split; intros; try done; lia.
  - destruct (Z.eqb_spec (rd m p) (rd m q)) as [He|He].
    + rewrite IH. destruct (Z.eqb_spec (rd m q) 0); [lia|].
      rewrite He. split; [by intros ->|congruence].
    + destruct (Z.eqb_spec (rd m q) 0); split; intros; try lia; congruence.
Qed.

Lemma cstrn_ext m m' p n :
  (∀ x, p ≤ x < p + Z.of_nat n → rd m x = rd m' x) →
  cstrn m p n = cstrn m' p n.
Proof.
  revert p; induction n as [|n IH]; intros p H; simpl; [done|].
  rewrite (H p) by lia. rewrite (IH (p + 1)); [done|]. intros. apply H. lia.
Qed.

Lemma rd_strncpy_pad m s n a :
  rd (strncpy_pad m s n) a =
  if decide (s ≤ a < s + Z.of_nat n) then 0 else rd m a.
Proof.
  revert m s; induction n as [|n IH]; intros m s; simpl.
  - case_decide; [lia|done].
  - rewrite IH, rd_wr. repeat case_decide; try done; lia.
Qed.

(** [strncpy] writes the string, pads with NULs and touches nothing else. *)
Lemma rd_strncpy_loop n m s t a :
  mem_ok m → (s + Z.of_nat n ≤ t ∨ t + Z.of_nat n ≤ s) →
  rd (strncpy_loop m s t n) a =
  if decide (s ≤ a < s + Z.of_nat n)
  then default 0 (cstrn m t n !! Z.to_nat (a - s)) else rd m a.
Proof.
  revert m s t; induction n as [|n IH]; intros m s t Hm Hd; simpl.
  { case_decide; [lia|done]. }
  destruct (Z.eqb_spec (rd m t) 0) as [H0|H0].
  - rewrite rd_strncpy_pad, rd_wr. rewrite H0, lookup_nil. simpl.
    repeat case_decide; try done; lia.
  - rewrite IH; [|by apply mem_ok_wr|lia]. rewrite rd_wr.
    rewrite (cstrn_ext (wr s (rd m t) m) m).
    2:{ intros. apply rd_wr_ne. lia. }
    repeat case_decide; subst; try lia; try done.
    + replace (Z.to_nat (a - s)) with (S (Z.to_nat (a - (s + 1)))) by lia. done.
    + replace (Z.to_nat (s - s)) with O by lia. simpl. by apply u8_id.
Qed.

Lemma cstrn_lookup m p n k :
  (k < n)%nat → (∀ j, (j < k)%nat → rd m (p + Z.of_nat j) ≠ 0) →
  rd m (p + Z.of_nat k) = 0 → length (cstrn m p n) = k.
Proof.
  revert p n; induction k as [|k IH]; intros p n Hk Hne H0;
    (destruct n; [lia|]); simpl.
  - rewrite Z.add_0_r in H0. by rewrite H0.
  - destruct (Z.eqb_spec (rd m p) 0) as [E|E].
    { exfalso. apply (Hne O); [lia|]. by rewrite Z.add_0_r. }
    simpl. f_equal. apply IH; [lia| |].
    + intros j Hj. replace (p + 1 + Z.of_nat j) with (p + Z.of_nat (S j)) by lia.
      apply Hne. lia.
    + rewrite <- H0. f_equal. lia.
Qed.

Lemma cstrn_of_bytes m p n l :
  (∀ a, p ≤ a < p + Z.of_nat n → rd m a = default 0 (l !! Z.to_nat (a - p))) →
  Forall (λ b, b ≠ 0) l → (length l ≤ n)%nat → cstrn m p n = l.
Proof.
  revert p l; induction n as [|n IH]; intros p l Hrd Hnz Hlen; simpl.
  { by destruct l; [|simpl in Hlen; lia]. }
  rewrite (Hrd p) by lia. replace (Z.to_nat (p - p)) with O by lia.
  destruct l as [|b l]; simpl; [done|].
  inversion Hnz; subst. destruct (Z.eqb_spec b 0); [done|]. f_equal.
  apply IH; [|done|simpl in Hlen; lia].
  intros a Ha. rewrite Hrd by lia.
  by replace (Z.to_nat (a - p)) with (S (Z.to_nat (a - (p + 1)))) by lia.
Qed.
Lemma cstrn_nz m p n : Forall (λ b, b ≠ 0) (cstrn m p n).
Proof.
  revert p; induction n; intros; simpl; [constructor|].
  destruct (Z.eqb_spec (rd m p) 0); constructor; auto.
Qed.
Lemma length_cstrn m p n : (length (cstrn m p n) ≤ n)%nat.
Proof.
  revert p; induction n as [|n IH]; intros; simpl; [lia|].
  destruct (_ =? _); simpl; [lia|]. specialize (IH (p + 1)). lia.
Qed.

Lemma cstrn_strncpy m s t n :
  mem_ok m → 0 ≤ n → (s + n ≤ t ∨ t + n ≤ s) →
  cstrn (strncpy m s t n) s (Z.to_nat n) = cstrn m t (Z.to_nat n).
Proof.
  intros Hm Hn Hd. apply cstrn_of_bytes.
  - intros a Ha. unfold strncpy. rewrite rd_strncpy_loop by (done || lia).
    by case_decide.
  - apply cstrn_nz.
  - apply length_cstrn.
Qed.

(** ** [safestrcpy] *)

Lemma rd_safestrcpy_loop_end n m s t :
  ∃ k, (k ≤ n)%nat ∧ rd (safestrcpy_loop m s t n) (s + Z.of_nat k) = 0.
Proof.
  revert m s t; induction n as [|n IH]; intros m s t; simpl.
  - exists O. by rewrite Z.add_0_r, rd_wr_eq.
  - destruct (Z.eqb_spec (rd m t) 0) as [E|E].
    + exists 1%nat. split; [lia|]. change (Z.of_nat 1) with 1.
      by rewrite rd_wr_eq.
    + destruct (IH (wr s (rd m t) m) (s + 1) (t + 1)) as (k & Hk & H).
      exists (S k). split; [lia|]. rewrite <- H. f_equal. lia.
Qed.
Lemma rd_safestrcpy_loop_out n m s t a :
  a < s ∨ s + Z.of_nat n < a → rd (safestrcpy_loop m s t n) a = rd m a.
Proof.
  revert m s t; induction n as [|n IH]; intros m s t Ha; simpl.
  - apply rd_wr_ne. lia.
  - destruct (_ =? _); [rewrite !rd_wr_ne by lia; done|].
    rewrite IH by lia. apply rd_wr_ne. lia.
Qed.

(** ** [strlen] *)

Lemma strlen_loop_stops fuel m s n :
  (∃ k, (k < fuel)%nat ∧ rd m (s + n + Z.of_nat k) = 0) →
  ∃ k, (k < fuel)%nat ∧ strlen_loop fuel m s n = Some (n + Z.of_nat k) ∧
    rd m (s + n + Z.of_nat k) = 0 ∧
    (∀ j, (j < k)%nat → rd m (s + n + Z.of_nat j) ≠ 0).
Proof.
  revert n; induction fuel as [|fuel IH]; intros n (k & Hk & H0); [lia|].
  simpl. destruct (Z.eqb_spec (rd m (s + n)) 0) as [E|E].
  - exists O. rewrite !Z.add_0_r. repeat split; [lia|done|lia].
  - destruct k as [|k]; [by rewrite Z.add_0_r in H0|].
    destruct (IH (n + 1)) as (k' & Hk' & -> & H0' & Hne).
    { exists k. split; [lia|]. rewrite <- H0. f_equal. lia. }
    exists (S k'). repeat split; [lia|f_equal; lia| |].
    + rewrite <- H0'. f_equal. lia.
    + intros [|j] Hj; [by rewrite Z.add_0_r|].
      replace (s + n + Z.of_nat (S j)) with (s + (n + 1) + Z.of_nat j) by lia.
      apply Hne. lia.
Qed.

(** Some byte among the first [S (size m)] is a NUL. *)
Lemma mem_has_nul m s : ∃ k, (k < S (size m))%nat ∧ rd m (s + Z.of_nat k) = 0.
Proof.
  destruct (decide (Forall (λ k, rd m (s + Z.of_nat k) ≠ 0)
    (seq 0 (S (size m))))) as [Hall|Hex].
  - exfalso.
    set (X := list_to_set ((λ k, s + Z.of_nat k) <$> seq 0 (S (size m))) : gset Z).
    assert (X ⊆ dom m) as Hsub.
    { intros a. unfold X. rewrite elem_of_list_to_set, list_elem_of_fmap.
      intros (k & -> & Hk). rewrite Forall_forall in Hall.
      specialize (Hall k Hk). unfold rd in Hall.
      destruct (m !! (s + Z.of_nat k)) eqn:E; [|done].
      by apply elem_of_dom_2 in E. }
    apply subseteq_size in Hsub. rewrite size_dom in Hsub.
    unfold X in Hsub. rewrite size_list_to_set in Hsub.
    + rewrite length_fmap, length_seq in Hsub. lia.
    + apply NoDup_fmap_2; [|apply NoDup_seq]. intros ???. lia.
  - apply not_Forall_Exists in Hex; [|intros; apply _].
    apply Exists_exists in Hex as (k & Hk%elem_of_seq & H0).
    exists k. split; [lia|]. by apply dec_stable.
Qed.

(** ** Properties *)

(** [memmove] copies the [n] bytes that the source held before the call
    to the destination, whatever the overlap of the two ranges, and changes
    no other byte. *)
Theorem memmove_spec m dst src n :
  mem_ok m → 0 ≤ n →
  rd_bytes (memmove m dst src n) dst (Z.to_nat n) =
    rd_bytes m src (Z.to_nat n) ∧
  (∀ a, ¬ (dst ≤ a < dst + n) → rd (memmove m dst src n) a = rd m a).
Proof.
  intros Hm Hn. split.
  - apply list_eq. intros i.
    destruct (decide (i < Z.to_nat n)%nat) as [Hi|Hi].
    + rewrite !lookup_rd_bytes by done. rewrite rd_memmove by done.
      case_decide; [|lia]. do 2 f_equal. lia.
    + rewrite !lookup_ge_None_2; rewrite ?length_rd_bytes; [done|lia..].
  - intros a Ha. rewrite rd_memmove by done. by case_decide.
Qed.
Lemma memmove_spec_witness :
  rd_bytes (memmove (wr_bytes ∅ 10 [1;2;3;4;5]) 12 10 4) 12 4 = [1;2;3;4].
Proof.
  assert (mem_ok (wr_bytes ∅ 10 [1;2;3;4;5])) as Hm
    by apply mem_ok_wr_bytes, mem_ok_empty.
  destruct (memmove_spec (wr_bytes ∅ 10 [1;2;3;4;5]) 12 10 4 Hm ltac:(lia))
    as [E _].
  exact E.
Defined.

(** [strlen] always ends, and returns the index of the first NUL. *)
Theorem strlen_spec m s :
  0 ≤ strlen m s ∧ rd m (s + strlen m s) = 0 ∧
  ∀ j, 0 ≤ j < strlen m s → rd m (s + j) ≠ 0.
Proof.
  destruct (strlen_loop_stops (S (size m)) m s 0) as (k & _ & E & H0 & Hne).
  { destruct (mem_has_nul m s) as (k & Hk & H0). exists k.
    by rewrite Z.add_0_r. }
  unfold strlen. rewrite E. simpl. rewrite Z.add_0_r in *.
  split; [lia|]. split; [done|]. intros j Hj.
  rewrite <- (Z2Nat.id j) by lia. apply Hne. lia.
Qed.

(** Copying a name with [strncpy] into a separate [n]-byte field and
    comparing with [strncmp] over [n] bytes answers "equal": this is the
    round trip [dirlink] and [dirlookup] rely on for directory entries; and
    [strncmp] answers "equal" exactly when the strings agree up to the NUL
    or [n]. *)
Theorem strncpy_strncmp m s t n :
  mem_ok m → 0 ≤ n → (s + n ≤ t ∨ t + n ≤ s) →
  strncmp (strncpy m s t n) s t n = 0 ∧
  (∀ p q, strncmp m p q n = 0 ↔ cstrn m p (Z.to_nat n) = cstrn m q (Z.to_nat n)).
Proof.
  intros Hm Hn Hd. split; [|intros; by apply strncmp_loop_zero].
  unfold strncmp. apply strncmp_loop_zero.
  { intros a. unfold strncpy. rewrite rd_strncpy_loop by (done || lia).
    case_decide; [|apply Hm].
    destruct (cstrn m t _ !! _) eqn:E; simpl; [|lia].
    clear Hd H. revert E. generalize (Z.to_nat (a - s)) as i.
    generalize (Z.to_nat n) as k. intros k i. revert t i.
    induction k as [|k IH]; intros t i; simpl; [by rewrite lookup_nil|].
    destruct (_ =? _); [by rewrite lookup_nil|].
    destruct i; simpl; [intros [= <-]; apply Hm|]. apply IH. }
  rewrite cstrn_strncpy by done. symmetry. apply cstrn_ext.
  intros x Hx. unfold strncpy. rewrite rd_strncpy_loop by (done || lia).
  case_decide; [lia|done].
Qed.
Lemma strncpy_strncmp_witness :
  strncmp (strncpy (wr_bytes ∅ 100 [97;98;99]) 200 100 14) 200 100 14 = 0.
Proof.
  assert (mem_ok (wr_bytes ∅ 100 [97;98;99])) as Hm
    by apply mem_ok_wr_bytes, mem_ok_empty.
  exact (proj1 (strncpy_strncmp (wr_bytes ∅ 100 [97;98;99]) 200 100 14 Hm
    ltac:(lia) ltac:(lia))).
Defined.

(** ** Strings in memory *)

(** The NUL-terminated string at [p]. *)
Fixpoint str_at (m : mem) (p : Z) (l : list Z) : Prop :=
  match l with
  | [] => rd m p = 0
  | b :: l => rd m p = b ∧ b ≠ 0 ∧ str_at m (p + 1) l
  end.

Lemma str_at_nz m p l i : str_at m p l → (i < length l)%nat → rd m (p + Z.of_nat i) ≠ 0.
Proof.
  revert p i. induction l as [|b l IH]; intros p i H Hi; simpl in *; [lia|].
  destruct H as (<- & H2 & H3). destruct i as [|i]; [by rewrite Z.add_0_r|].
  replace (p + Z.of_nat (S i)) with (p + 1 + Z.of_nat i) by lia. apply IH; [done|lia].
Qed.
Lemma str_at_size m p l : str_at m p l → (length l ≤ size m)%nat.
Proof.
  intros H. destruct (mem_has_nul m p) as (k & Hk & Hz).
  destruct (decide (k < length l)%nat) as [Hlt|]; [|lia]. by destruct (str_at_nz m p l k H Hlt).
Qed.
(** The second byte of a nonempty string. *)
Lemma str_at_second m p b l : str_at m p (b :: l) → rd m (p + 1) = default 0 (head l).
Proof. intros (_ & _ & H). by destruct l; destruct H. Qed.

(** A string as bytes of the memory. *)
Lemma str_at_bytes m p l :
  str_at m p l ↔ rd_bytes m p (length l) = l ∧ Forall (λ b, b ≠ 0) l ∧ rd m (p + Z.of_nat (length l)) = 0.
Proof.
  revert p. induction l as [|b l IH]; intros p; simpl.
  - rewrite Z.add_0_r. naive_solver.
  - rewrite IH, Forall_cons.
    replace (p + Z.of_nat (S (length l))) with (p + 1 + Z.of_nat (length l)) by lia.
    change (rd_bytes m p (S (length l))) with (rd m p :: rd_bytes m (p + 1) (length l)).
    split; [intros (-> & ? & -> & ? & ?)|intros ([= -> ->] & [? ?] & ?)]; done.
Qed.
Lemma str_at_app m p w l : str_at m p (w ++ l) →
  rd_bytes m p (length w) = w ∧ str_at m (p + Z.of_nat (length w)) l.
Proof.
  revert p. induction w as [|b w IH]; intros p Hs; [by rewrite Z.add_0_r|].
  destruct Hs as (H1 & H2 & H3). destruct (IH _ H3) as [E1 E2].
  cbn [length rd_bytes]. replace (p + Z.of_nat (S (length w))) with (p + 1 + Z.of_nat (length w)) by lia.
  split; [congruence|done].
Qed.
Lemma str_at_ext m m' p l :
  (∀ a, p ≤ a ≤ p + Z.of_nat (length l) → rd m' a = rd m a) → str_at m p l → str_at m' p l.
Proof.
  revert p. induction l as [|b l IH]; intros p He H; simpl in *.
  - rewrite He; [done|lia].
  - destruct H as (H1 & H2 & H3). rewrite He by lia. split; [done|]. split; [done|].
    apply IH; [|done]. intros a Ha. apply He. lia.
Qed.

(** Client files reason with the lemmas above. *)
#[global] Opaque memset memmove store64 load64 wr_bytes rd_bytes.
#[global] Arguments memset : simpl never.
#[global] Arguments memmove : simpl never.
#[global] Arguments store64 : simpl never.
#[global] Arguments load64 : simpl never.
