(* ===== verification/Ring.v ===== *)
(** * Circular buffers

    The pipes, the console's input and the UART's output keep a queue of bytes in
    an array of [N] cells, from index [r] on, all indices taken modulo [N].
    [ring N data r q] says that the array [data] holds the queue [q]; the three
    components state their invariants with it. *)

From stdpp Require Import options.
From S2P Require Import Prelude.
#[local] Open Scope Z_scope.

Definition cell (N i : Z) : nat := Z.to_nat (i mod N).

Record ring (N : Z) (data : list Z) (r : Z) (q : list Z) : Prop := {
  ring_size : Z.of_nat (length data) = N;
  ring_cap : Z.of_nat (length q) ≤ N;
  ring_cells i : 0 ≤ i < Z.of_nat (length q) →
    data !! cell N (r + i) = q !! Z.to_nat i;
}.

Section ring.
Context (N : Z) (HN : 0 < N).

Lemma cell_lt (data : list Z) i : Z.of_nat (length data) = N → (cell N i < length data)%nat.
Proof using HN. intros H. unfold cell. pose proof (Z.mod_pos_bound i N HN). lia. Qed.
Lemma cell_inj r i j : cell N (r + i) = cell N (r + j) → 0 ≤ i < N → 0 ≤ j < N → i = j.
Proof using HN.
  unfold cell. intros H Hi Hj. pose proof (Z.mod_pos_bound (r + i) N HN).
  pose proof (Z.mod_pos_bound (r + j) N HN).
  assert ((r + i) mod N = (r + j) mod N) as E by lia.
  rewrite (Z.mod_eq (r + i)), (Z.mod_eq (r + j)) in E by lia.
  assert (i - j = N * ((r + i) / N - (r + j) / N)) as D by lia.
  assert ((r + i) / N - (r + j) / N = 0) as D0 by nia. lia.
Qed.
Lemma cell_mod i j : i mod N = j mod N → cell N i = cell N j.
Proof using HN. unfold cell. by intros ->. Qed.

Lemma ring_nil (data : list Z) r : Z.of_nat (length data) = N → ring N data r [].
Proof using HN. split; [done|simpl; lia|]. intros i. simpl. lia. Qed.

Lemma ring_start data r r' q : r mod N = r' mod N → ring N data r q → ring N data r' q.
Proof using HN.
  intros E [H1 H2 H3]. split; [done..|]. intros i Hi. rewrite <- H3 by done. f_equal.
  apply cell_mod. rewrite <- (Z.add_mod_idemp_l r'), <- E by lia. by apply Z.add_mod_idemp_l; lia.
Qed.

Lemma ring_put data r q w c :
  ring N data r q → Z.of_nat (length q) < N → w mod N = (r + Z.of_nat (length q)) mod N →
  ring N (<[cell N w := c]> data) r (q ++ [c]).
Proof using HN.
  intros [H1 H2 H3] Hlt Hw. rewrite (cell_mod _ _ Hw). split.
  - by rewrite length_insert.
  - rewrite length_app. simpl. lia.
  - intros i. rewrite length_app. simpl. intros Hi.
    destruct (decide (i = Z.of_nat (length q))) as [->|Hne].
    + rewrite list_lookup_insert_eq by (by apply cell_lt).
      by rewrite Nat2Z.id, lookup_app_r, Nat.sub_diag by lia.
    + rewrite list_lookup_insert_ne.
      * rewrite H3, lookup_app_l by lia. done.
      * intros E. apply cell_inj in E; lia.
Qed.

Lemma ring_head data r c q : ring N data r (c :: q) → data !! cell N r = Some c.
Proof using HN.
  intros [H1 H2 H3]. specialize (H3 0). rewrite Z.add_0_r in H3. apply H3. simpl. lia.
Qed.
Lemma ring_tail data r c q : ring N data r (c :: q) → ring N data (r + 1) q.
Proof using HN.
  intros [H1 H2 H3]. simpl in H2. split; [done|lia|]. intros i Hi.
  rewrite <- Z.add_assoc, H3 by (simpl; lia). by rewrite Z2Nat.inj_add by lia.
Qed.

(** Giving up the last byte. *)
Lemma ring_unput data r q c : ring N data r (q ++ [c]) → ring N data r q.
Proof using HN.
  intros [H1 H2 H3]. rewrite length_app in *. simpl in *. split; [done|lia|].
  intros i Hi. rewrite H3, lookup_app_l by lia. done.
Qed.
Lemma ring_last data r q c :
  ring N data r (q ++ [c]) → data !! cell N (r + Z.of_nat (length q)) = Some c.
Proof using HN.
  intros [H1 H2 H3]. rewrite H3 by (rewrite length_app; simpl; lia).
  by rewrite Nat2Z.id, lookup_app_r, Nat.sub_diag by lia.
Qed.
End ring.

(** Counters of width 32 wrap at a multiple of the size. *)
Lemma u32_mod N z : 0 < N → (N | 2 ^ 32) → u32 z mod N = z mod N.
Proof.
  intros HN [k Hk]. unfold u32. symmetry. rewrite (Z.mod_eq z (2 ^ 32)) by lia.
  replace (z - 2 ^ 32 * (z / 2 ^ 32)) with (z + (- k * (z / 2 ^ 32)) * N) by (rewrite Hk; lia).
  by rewrite Z.mod_add by lia.
Qed.
