(* ===== verification/State.v ===== *)
(** * Kernel data

    The structures of the kernel's header files, and the record of its global
    variables.  Pointers to elements of the static tables ([proc[]],
    [bcache.buf[]], [itable.inode[]], [ftable.file[]]) are indices; pointers
    into pages from [kalloc] are physical addresses. *)

From stdpp Require Import options.
From S2P Require Import Prelude CString.
#[local] Open Scope Z_scope.

(** ** Constants (param.h, fs.h, stat.h, fcntl.h, riscv.h, memlayout.h) *)

Definition NPROC : nat := 64.
Definition NOFILE : nat := 16.
Definition NFILE : nat := 100.
Definition NINODE : nat := 50.
Definition NDEV : Z := 10.
Definition ROOTDEV : Z := 1.
Definition MAXARG : nat := 32.
Definition MAXOPBLOCKS : Z := 10.
Definition LOGSIZE : Z := MAXOPBLOCKS * 3.
Definition NBUF : nat := 30.
Definition FSSIZE : Z := 1000.
Definition MAXPATH : Z := 128.

Definition ROOTINO : Z := 1.
Definition BSIZE : Z := 1024.
Definition FSMAGIC : Z := 0x10203040.
Definition NDIRECT : Z := 12.
Definition NINDIRECT : Z := BSIZE / 4.
Definition MAXFILE : Z := NDIRECT + NINDIRECT.
Definition sizeof_dinode : Z := 64.
Definition IPB : Z := BSIZE / sizeof_dinode.
Definition BPB : Z := BSIZE * 8.
Definition DIRSIZ : Z := 14.
Definition sizeof_dirent : Z := 16.

Definition T_DIR : Z := 1.
Definition T_FILE : Z := 2.
Definition T_DEVICE : Z := 3.

Definition O_RDONLY : Z := 0x000.
Definition O_WRONLY : Z := 0x001.
Definition O_RDWR : Z := 0x002.
Definition O_CREATE : Z := 0x200.
Definition O_TRUNC : Z := 0x400.

Definition PGSIZE : Z := 4096.
Definition PGSHIFT : Z := 12.
Definition PGROUNDUP (sz : Z) : Z :=
  Z.land (u64 (sz + PGSIZE - 1)) (u64 (Z.lnot (PGSIZE - 1))).
Definition PGROUNDDOWN (a : Z) : Z := Z.land a (u64 (Z.lnot (PGSIZE - 1))).
Definition PTE_V : Z := Z.shiftl 1 0.
Definition PTE_R : Z := Z.shiftl 1 1.
Definition PTE_W : Z := Z.shiftl 1 2.
Definition PTE_X : Z := Z.shiftl 1 3.
Definition PTE_U : Z := Z.shiftl 1 4.
Definition PA2PTE (pa : Z) : Z := u64 (Z.shiftl (Z.shiftr pa 12) 10).
Definition PTE2PA (pte : Z) : Z := u64 (Z.shiftl (Z.shiftr pte 10) 12).
Definition PTE_FLAGS (pte : Z) : Z := Z.land pte 0x3FF.
Definition PXMASK : Z := 0x1FF.
Definition PXSHIFT (level : Z) : Z := PGSHIFT + 9 * level.
Definition PX (level va : Z) : Z := Z.land (Z.shiftr va (PXSHIFT level)) PXMASK.
Definition MAXVA : Z := Z.shiftl 1 (9 + 9 + 9 + 12 - 1).

Definition KERNBASE : Z := 0x80000000.
Definition PHYSTOP : Z := KERNBASE + 128 * 1024 * 1024.
Definition TRAMPOLINE : Z := MAXVA - PGSIZE.
Definition KSTACK (p : Z) : Z := TRAMPOLINE - (p + 1) * 2 * PGSIZE.
Definition TRAPFRAME : Z := TRAMPOLINE - PGSIZE.

(** ** Identities of locks and of sleep channels *)

(** The sleep-locks of the kernel: [b->lock] and [ip->lock]. *)
Inductive slid := SL_buf (i : nat) | SL_inode (i : nat).

(** The spinlocks of the kernel. *)
Inductive lockid :=
| LK_kmem | LK_pid | LK_wait | LK_proc (i : nat) | LK_bcache | LK_sl (l : slid)
| LK_log | LK_itable | LK_ftable | LK_pipe (pi : Z) | LK_cons | LK_uart_tx
| LK_ticks | LK_vdisk | LK_pr.

(** The addresses the kernel sleeps on. *)
Inductive chan :=
| Ch_log | Ch_sl (l : slid) | Ch_proc (i : nat) | Ch_pipe_nread (pi : Z)
| Ch_pipe_nwrite (pi : Z) | Ch_ticks | Ch_cons_r | Ch_uart_tx_r
| Ch_disk_free | Ch_buf (i : nat).

#[export] Instance slid_eq_dec : EqDecision slid.
Proof. solve_decision. Defined.
#[export] Instance lockid_eq_dec : EqDecision lockid.
Proof. solve_decision. Defined.
#[export] Instance chan_eq_dec : EqDecision chan.
Proof. solve_decision. Defined.

(** [enum procstate] (proc.h). *)
Inductive procstate := UNUSED | USED | SLEEPING | RUNNABLE | RUNNING | ZOMBIE.
#[export] Instance procstate_eq_dec : EqDecision procstate.
Proof. solve_decision. Defined.

(** The [type] of a [struct file] (file.h). *)
Inductive ftype := FD_NONE | FD_PIPE | FD_INODE | FD_DEVICE.
#[export] Instance ftype_eq_dec : EqDecision ftype.
Proof. solve_decision. Defined.

(** What a descriptor of the disk's queue points to: a request header, the
    data of a buffer or a status byte. *)
Inductive vaddr := VA_null | VA_req (i : Z) | VA_data (b : nat) | VA_status (i : Z).
#[export] Instance vaddr_eq_dec : EqDecision vaddr.
Proof. solve_decision. Defined.

(** ** Structures *)

(** [struct sleeplock] (sleeplock.h).  Its inner spinlock is [LK_sl] of the
    lock's identity; the debugging name is left out. *)
Record sleeplock := Sleeplock {
  sl_locked : bool;
  sl_pid : Z;
}.
Definition set_sl_locked (v : bool) (x : sleeplock) : sleeplock := {|
  sl_locked := v; sl_pid := sl_pid x |}.
Definition set_sl_pid (v : Z) (x : sleeplock) : sleeplock := {| sl_locked :=
  sl_locked x; sl_pid := v |}.

(** [struct context] (proc.h): [ra], [sp] and the twelve callee-saved
    registers. *)
Record context := Context {
  ctx_ra : Z;
  ctx_sp : Z;
  ctx_s : list Z;
}.

(** [struct proc] (proc.h).  [p_parent] is an index into [proc[]], [p_ofile]
    holds indices into [ftable.file[]], [p_cwd] one into [itable.inode[]];
    [None] is the null pointer.  [p->lock] is [LK_proc] of the index. *)
Record proc := Proc {
  p_state : procstate;
  p_chan : option chan;
  p_killed : Z;
  p_xstate : Z;
  p_pid : Z;
  p_parent : option nat;
  p_kstack : Z;
  p_sz : Z;
  p_pagetable : Z;
  p_trapframe : Z;
  p_context : context;
  p_ofile : list (option nat);
  p_cwd : option nat;
  p_name : list Z;
}.
Definition set_p_state (v : procstate) (x : proc) : proc := {| p_state := v;
  p_chan := p_chan x; p_killed := p_killed x; p_xstate := p_xstate x; p_pid :=
  p_pid x; p_parent := p_parent x; p_kstack := p_kstack x; p_sz := p_sz x;
  p_pagetable := p_pagetable x; p_trapframe := p_trapframe x; p_context :=
  p_context x; p_ofile := p_ofile x; p_cwd := p_cwd x; p_name := p_name x |}.
Definition set_p_chan (v : option chan) (x : proc) : proc := {| p_state :=
  p_state x; p_chan := v; p_killed := p_killed x; p_xstate := p_xstate x;
  p_pid := p_pid x; p_parent := p_parent x; p_kstack := p_kstack x; p_sz :=
  p_sz x; p_pagetable := p_pagetable x; p_trapframe := p_trapframe x;
  p_context := p_context x; p_ofile := p_ofile x; p_cwd := p_cwd x; p_name :=
  p_name x |}.
Definition set_p_killed (v : Z) (x : proc) : proc := {| p_state := p_state x;
  p_chan := p_chan x; p_killed := v; p_xstate := p_xstate x; p_pid := p_pid x;
  p_parent := p_parent x; p_kstack := p_kstack x; p_sz := p_sz x; p_pagetable
  := p_pagetable x; p_trapframe := p_trapframe x; p_context := p_context x;
  p_ofile := p_ofile x; p_cwd := p_cwd x; p_name := p_name x |}.
Definition set_p_xstate (v : Z) (x : proc) : proc := {| p_state := p_state x;
  p_chan := p_chan x; p_killed := p_killed x; p_xstate := v; p_pid := p_pid x;
  p_parent := p_parent x; p_kstack := p_kstack x; p_sz := p_sz x; p_pagetable
  := p_pagetable x; p_trapframe := p_trapframe x; p_context := p_context x;
  p_ofile := p_ofile x; p_cwd := p_cwd x; p_name := p_name x |}.
Definition set_p_pid (v : Z) (x : proc) : proc := {| p_state := p_state x;
  p_chan := p_chan x; p_killed := p_killed x; p_xstate := p_xstate x; p_pid :=
  v; p_parent := p_parent x; p_kstack := p_kstack x; p_sz := p_sz x;
  p_pagetable := p_pagetable x; p_trapframe := p_trapframe x; p_context :=
  p_context x; p_ofile := p_ofile x; p_cwd := p_cwd x; p_name := p_name x |}.
Definition set_p_parent (v : option nat) (x : proc) : proc := {| p_state :=
  p_state x; p_chan := p_chan x; p_killed := p_killed x; p_xstate := p_xstate
  x; p_pid := p_pid x; p_parent := v; p_kstack := p_kstack x; p_sz := p_sz x;
  p_pagetable := p_pagetable x; p_trapframe := p_trapframe x; p_context :=
  p_context x; p_ofile := p_ofile x; p_cwd := p_cwd x; p_name := p_name x |}.
Definition set_p_kstack (v : Z) (x : proc) : proc := {| p_state := p_state x;
  p_chan := p_chan x; p_killed := p_killed x; p_xstate := p_xstate x; p_pid :=
  p_pid x; p_parent := p_parent x; p_kstack := v; p_sz := p_sz x; p_pagetable
  := p_pagetable x; p_trapframe := p_trapframe x; p_context := p_context x;
  p_ofile := p_ofile x; p_cwd := p_cwd x; p_name := p_name x |}.
Definition set_p_sz (v : Z) (x : proc) : proc := {| p_state := p_state x;
  p_chan := p_chan x; p_killed := p_killed x; p_xstate := p_xstate x; p_pid :=
  p_pid x; p_parent := p_parent x; p_kstack := p_kstack x; p_sz := v;
  p_pagetable := p_pagetable x; p_trapframe := p_trapframe x; p_context :=
  p_context x; p_ofile := p_ofile x; p_cwd := p_cwd x; p_name := p_name x |}.
Definition set_p_pagetable (v : Z) (x : proc) : proc := {| p_state := p_state
  x; p_chan := p_chan x; p_killed := p_killed x; p_xstate := p_xstate x; p_pid
  := p_pid x; p_parent := p_parent x; p_kstack := p_kstack x; p_sz := p_sz x;
  p_pagetable := v; p_trapframe := p_trapframe x; p_context := p_context x;
  p_ofile := p_ofile x; p_cwd := p_cwd x; p_name := p_name x |}.
Definition set_p_trapframe (v : Z) (x : proc) : proc := {| p_state := p_state
  x; p_chan := p_chan x; p_killed := p_killed x; p_xstate := p_xstate x; p_pid
  := p_pid x; p_parent := p_parent x; p_kstack := p_kstack x; p_sz := p_sz x;
  p_pagetable := p_pagetable x; p_trapframe := v; p_context := p_context x;
  p_ofile := p_ofile x; p_cwd := p_cwd x; p_name := p_name x |}.
Definition set_p_context (v : context) (x : proc) : proc := {| p_state :=
  p_state x; p_chan := p_chan x; p_killed := p_killed x; p_xstate := p_xstate
  x; p_pid := p_pid x; p_parent := p_parent x; p_kstack := p_kstack x; p_sz :=
  p_sz x; p_pagetable := p_pagetable x; p_trapframe := p_trapframe x;
  p_context := v; p_ofile := p_ofile x; p_cwd := p_cwd x; p_name := p_name x
  |}.
Definition set_p_ofile (v : list (option nat)) (x : proc) : proc := {| p_state
  := p_state x; p_chan := p_chan x; p_killed := p_killed x; p_xstate :=
  p_xstate x; p_pid := p_pid x; p_parent := p_parent x; p_kstack := p_kstack
  x; p_sz := p_sz x; p_pagetable := p_pagetable x; p_trapframe := p_trapframe
  x; p_context := p_context x; p_ofile := v; p_cwd := p_cwd x; p_name :=
  p_name x |}.
Definition set_p_cwd (v : option nat) (x : proc) : proc := {| p_state :=
  p_state x; p_chan := p_chan x; p_killed := p_killed x; p_xstate := p_xstate
  x; p_pid := p_pid x; p_parent := p_parent x; p_kstack := p_kstack x; p_sz :=
  p_sz x; p_pagetable := p_pagetable x; p_trapframe := p_trapframe x;
  p_context := p_context x; p_ofile := p_ofile x; p_cwd := v; p_name := p_name
  x |}.
Definition set_p_name (v : list Z) (x : proc) : proc := {| p_state := p_state
  x; p_chan := p_chan x; p_killed := p_killed x; p_xstate := p_xstate x; p_pid
  := p_pid x; p_parent := p_parent x; p_kstack := p_kstack x; p_sz := p_sz x;
  p_pagetable := p_pagetable x; p_trapframe := p_trapframe x; p_context :=
  p_context x; p_ofile := p_ofile x; p_cwd := p_cwd x; p_name := v |}.

(** [struct buf] (buf.h).  [b_prev] and [b_next] are indices into
    [bcache.buf[]]; the index [NBUF] is [bcache.head]. *)
Record buf := Buf {
  b_valid : bool;
  b_disk : bool;
  b_dev : Z;
  b_blockno : Z;
  b_lock : sleeplock;
  b_refcnt : Z;
  b_prev : nat;
  b_next : nat;
  b_data : list Z;
}.
Definition set_b_valid (v : bool) (x : buf) : buf := {| b_valid := v; b_disk
  := b_disk x; b_dev := b_dev x; b_blockno := b_blockno x; b_lock := b_lock x;
  b_refcnt := b_refcnt x; b_prev := b_prev x; b_next := b_next x; b_data :=
  b_data x |}.
Definition set_b_disk (v : bool) (x : buf) : buf := {| b_valid := b_valid x;
  b_disk := v; b_dev := b_dev x; b_blockno := b_blockno x; b_lock := b_lock x;
  b_refcnt := b_refcnt x; b_prev := b_prev x; b_next := b_next x; b_data :=
  b_data x |}.
Definition set_b_dev (v : Z) (x : buf) : buf := {| b_valid := b_valid x;
  b_disk := b_disk x; b_dev := v; b_blockno := b_blockno x; b_lock := b_lock
  x; b_refcnt := b_refcnt x; b_prev := b_prev x; b_next := b_next x; b_data :=
  b_data x |}.
Definition set_b_blockno (v : Z) (x : buf) : buf := {| b_valid := b_valid x;
  b_disk := b_disk x; b_dev := b_dev x; b_blockno := v; b_lock := b_lock x;
  b_refcnt := b_refcnt x; b_prev := b_prev x; b_next := b_next x; b_data :=
  b_data x |}.
Definition set_b_lock (v : sleeplock) (x : buf) : buf := {| b_valid := b_valid
  x; b_disk := b_disk x; b_dev := b_dev x; b_blockno := b_blockno x; b_lock :=
  v; b_refcnt := b_refcnt x; b_prev := b_prev x; b_next := b_next x; b_data :=
  b_data x |}.
Definition set_b_refcnt (v : Z) (x : buf) : buf := {| b_valid := b_valid x;
  b_disk := b_disk x; b_dev := b_dev x; b_blockno := b_blockno x; b_lock :=
  b_lock x; b_refcnt := v; b_prev := b_prev x; b_next := b_next x; b_data :=
  b_data x |}.
Definition set_b_prev (v : nat) (x : buf) : buf := {| b_valid := b_valid x;
  b_disk := b_disk x; b_dev := b_dev x; b_blockno := b_blockno x; b_lock :=
  b_lock x; b_refcnt := b_refcnt x; b_prev := v; b_next := b_next x; b_data :=
  b_data x |}.
Definition set_b_next (v : nat) (x : buf) : buf := {| b_valid := b_valid x;
  b_disk := b_disk x; b_dev := b_dev x; b_blockno := b_blockno x; b_lock :=
  b_lock x; b_refcnt := b_refcnt x; b_prev := b_prev x; b_next := v; b_data :=
  b_data x |}.
Definition set_b_data (v : list Z) (x : buf) : buf := {| b_valid := b_valid x;
  b_disk := b_disk x; b_dev := b_dev x; b_blockno := b_blockno x; b_lock :=
  b_lock x; b_refcnt := b_refcnt x; b_prev := b_prev x; b_next := b_next x;
  b_data := v |}.

(** [struct log] with its [struct logheader lh] (log.c). *)
Record log := Log {
  lg_start : Z;
  lg_size : Z;
  lg_outstanding : Z;
  lg_committing : Z;
  lg_dev : Z;
  lh_n : Z;
  lh_block : list Z;
}.
Definition set_lg_start (v : Z) (x : log) : log := {| lg_start := v; lg_size
  := lg_size x; lg_outstanding := lg_outstanding x; lg_committing :=
  lg_committing x; lg_dev := lg_dev x; lh_n := lh_n x; lh_block := lh_block x
  |}.
Definition set_lg_size (v : Z) (x : log) : log := {| lg_start := lg_start x;
  lg_size := v; lg_outstanding := lg_outstanding x; lg_committing :=
  lg_committing x; lg_dev := lg_dev x; lh_n := lh_n x; lh_block := lh_block x
  |}.
Definition set_lg_outstanding (v : Z) (x : log) : log := {| lg_start :=
  lg_start x; lg_size := lg_size x; lg_outstanding := v; lg_committing :=
  lg_committing x; lg_dev := lg_dev x; lh_n := lh_n x; lh_block := lh_block x
  |}.
Definition set_lg_committing (v : Z) (x : log) : log := {| lg_start :=
  lg_start x; lg_size := lg_size x; lg_outstanding := lg_outstanding x;
  lg_committing := v; lg_dev := lg_dev x; lh_n := lh_n x; lh_block := lh_block
  x |}.
Definition set_lg_dev (v : Z) (x : log) : log := {| lg_start := lg_start x;
  lg_size := lg_size x; lg_outstanding := lg_outstanding x; lg_committing :=
  lg_committing x; lg_dev := v; lh_n := lh_n x; lh_block := lh_block x |}.
Definition set_lh_n (v : Z) (x : log) : log := {| lg_start := lg_start x;
  lg_size := lg_size x; lg_outstanding := lg_outstanding x; lg_committing :=
  lg_committing x; lg_dev := lg_dev x; lh_n := v; lh_block := lh_block x |}.
Definition set_lh_block (v : list Z) (x : log) : log := {| lg_start :=
  lg_start x; lg_size := lg_size x; lg_outstanding := lg_outstanding x;
  lg_committing := lg_committing x; lg_dev := lg_dev x; lh_n := lh_n x;
  lh_block := v |}.

(** [struct superblock] (fs.h). *)
Record superblock := Superblock {
  sb_magic : Z;
  sb_size : Z;
  sb_nblocks : Z;
  sb_ninodes : Z;
  sb_nlog : Z;
  sb_logstart : Z;
  sb_inodestart : Z;
  sb_bmapstart : Z;
}.

(** [struct dinode] (fs.h). *)
Record dinode := Dinode {
  d_type : Z;
  d_major : Z;
  d_minor : Z;
  d_nlink : Z;
  d_size : Z;
  d_addrs : list Z;
}.

(** [struct inode] (file.h). *)
Record inode := Inode {
  i_dev : Z;
  i_inum : Z;
  i_ref : Z;
  i_lock : sleeplock;
  i_valid : bool;
  i_type : Z;
  i_major : Z;
  i_minor : Z;
  i_nlink : Z;
  i_size : Z;
  i_addrs : list Z;
}.
Definition set_i_dev (v : Z) (x : inode) : inode := {| i_dev := v; i_inum :=
  i_inum x; i_ref := i_ref x; i_lock := i_lock x; i_valid := i_valid x; i_type
  := i_type x; i_major := i_major x; i_minor := i_minor x; i_nlink := i_nlink
  x; i_size := i_size x; i_addrs := i_addrs x |}.
Definition set_i_inum (v : Z) (x : inode) : inode := {| i_dev := i_dev x;
  i_inum := v; i_ref := i_ref x; i_lock := i_lock x; i_valid := i_valid x;
  i_type := i_type x; i_major := i_major x; i_minor := i_minor x; i_nlink :=
  i_nlink x; i_size := i_size x; i_addrs := i_addrs x |}.
Definition set_i_ref (v : Z) (x : inode) : inode := {| i_dev := i_dev x;
  i_inum := i_inum x; i_ref := v; i_lock := i_lock x; i_valid := i_valid x;
  i_type := i_type x; i_major := i_major x; i_minor := i_minor x; i_nlink :=
  i_nlink x; i_size := i_size x; i_addrs := i_addrs x |}.
Definition set_i_lock (v : sleeplock) (x : inode) : inode := {| i_dev := i_dev
  x; i_inum := i_inum x; i_ref := i_ref x; i_lock := v; i_valid := i_valid x;
  i_type := i_type x; i_major := i_major x; i_minor := i_minor x; i_nlink :=
  i_nlink x; i_size := i_size x; i_addrs := i_addrs x |}.
Definition set_i_valid (v : bool) (x : inode) : inode := {| i_dev := i_dev x;
  i_inum := i_inum x; i_ref := i_ref x; i_lock := i_lock x; i_valid := v;
  i_type := i_type x; i_major := i_major x; i_minor := i_minor x; i_nlink :=
  i_nlink x; i_size := i_size x; i_addrs := i_addrs x |}.
Definition set_i_type (v : Z) (x : inode) : inode := {| i_dev := i_dev x;
  i_inum := i_inum x; i_ref := i_ref x; i_lock := i_lock x; i_valid := i_valid
  x; i_type := v; i_major := i_major x; i_minor := i_minor x; i_nlink :=
  i_nlink x; i_size := i_size x; i_addrs := i_addrs x |}.
Definition set_i_major (v : Z) (x : inode) : inode := {| i_dev := i_dev x;
  i_inum := i_inum x; i_ref := i_ref x; i_lock := i_lock x; i_valid := i_valid
  x; i_type := i_type x; i_major := v; i_minor := i_minor x; i_nlink :=
  i_nlink x; i_size := i_size x; i_addrs := i_addrs x |}.
Definition set_i_minor (v : Z) (x : inode) : inode := {| i_dev := i_dev x;
  i_inum := i_inum x; i_ref := i_ref x; i_lock := i_lock x; i_valid := i_valid
  x; i_type := i_type x; i_major := i_major x; i_minor := v; i_nlink :=
  i_nlink x; i_size := i_size x; i_addrs := i_addrs x |}.
Definition set_i_nlink (v : Z) (x : inode) : inode := {| i_dev := i_dev x;
  i_inum := i_inum x; i_ref := i_ref x; i_lock := i_lock x; i_valid := i_valid
  x; i_type := i_type x; i_major := i_major x; i_minor := i_minor x; i_nlink
  := v; i_size := i_size x; i_addrs := i_addrs x |}.
Definition set_i_size (v : Z) (x : inode) : inode := {| i_dev := i_dev x;
  i_inum := i_inum x; i_ref := i_ref x; i_lock := i_lock x; i_valid := i_valid
  x; i_type := i_type x; i_major := i_major x; i_minor := i_minor x; i_nlink
  := i_nlink x; i_size := v; i_addrs := i_addrs x |}.
Definition set_i_addrs (v : list Z) (x : inode) : inode := {| i_dev := i_dev
  x; i_inum := i_inum x; i_ref := i_ref x; i_lock := i_lock x; i_valid :=
  i_valid x; i_type := i_type x; i_major := i_major x; i_minor := i_minor x;
  i_nlink := i_nlink x; i_size := i_size x; i_addrs := v |}.

(** [struct file] (file.h). *)
Record file := File {
  f_type : ftype;
  f_ref : Z;
  f_readable : bool;
  f_writable : bool;
  f_pipe : Z;
  f_ip : option nat;
  f_off : Z;
  f_major : Z;
}.
Definition set_f_type (v : ftype) (x : file) : file := {| f_type := v; f_ref
  := f_ref x; f_readable := f_readable x; f_writable := f_writable x; f_pipe
  := f_pipe x; f_ip := f_ip x; f_off := f_off x; f_major := f_major x |}.
Definition set_f_ref (v : Z) (x : file) : file := {| f_type := f_type x; f_ref
  := v; f_readable := f_readable x; f_writable := f_writable x; f_pipe :=
  f_pipe x; f_ip := f_ip x; f_off := f_off x; f_major := f_major x |}.
Definition set_f_readable (v : bool) (x : file) : file := {| f_type := f_type
  x; f_ref := f_ref x; f_readable := v; f_writable := f_writable x; f_pipe :=
  f_pipe x; f_ip := f_ip x; f_off := f_off x; f_major := f_major x |}.
Definition set_f_writable (v : bool) (x : file) : file := {| f_type := f_type
  x; f_ref := f_ref x; f_readable := f_readable x; f_writable := v; f_pipe :=
  f_pipe x; f_ip := f_ip x; f_off := f_off x; f_major := f_major x |}.
Definition set_f_pipe (v : Z) (x : file) : file := {| f_type := f_type x;
  f_ref := f_ref x; f_readable := f_readable x; f_writable := f_writable x;
  f_pipe := v; f_ip := f_ip x; f_off := f_off x; f_major := f_major x |}.
Definition set_f_ip (v : option nat) (x : file) : file := {| f_type := f_type
  x; f_ref := f_ref x; f_readable := f_readable x; f_writable := f_writable x;
  f_pipe := f_pipe x; f_ip := v; f_off := f_off x; f_major := f_major x |}.
Definition set_f_off (v : Z) (x : file) : file := {| f_type := f_type x; f_ref
  := f_ref x; f_readable := f_readable x; f_writable := f_writable x; f_pipe
  := f_pipe x; f_ip := f_ip x; f_off := v; f_major := f_major x |}.
Definition set_f_major (v : Z) (x : file) : file := {| f_type := f_type x;
  f_ref := f_ref x; f_readable := f_readable x; f_writable := f_writable x;
  f_pipe := f_pipe x; f_ip := f_ip x; f_off := f_off x; f_major := v |}.

(** [struct pipe] (pipe.c); [pi->lock] is [LK_pipe] of its address. *)
Record pipe := Pipe {
  pi_data : list Z;
  pi_nread : Z;
  pi_nwrite : Z;
  pi_readopen : bool;
  pi_writeopen : bool;
}.
Definition set_pi_data (v : list Z) (x : pipe) : pipe := {| pi_data := v;
  pi_nread := pi_nread x; pi_nwrite := pi_nwrite x; pi_readopen := pi_readopen
  x; pi_writeopen := pi_writeopen x |}.
Definition set_pi_nread (v : Z) (x : pipe) : pipe := {| pi_data := pi_data x;
  pi_nread := v; pi_nwrite := pi_nwrite x; pi_readopen := pi_readopen x;
  pi_writeopen := pi_writeopen x |}.
Definition set_pi_nwrite (v : Z) (x : pipe) : pipe := {| pi_data := pi_data x;
  pi_nread := pi_nread x; pi_nwrite := v; pi_readopen := pi_readopen x;
  pi_writeopen := pi_writeopen x |}.
Definition set_pi_readopen (v : bool) (x : pipe) : pipe := {| pi_data :=
  pi_data x; pi_nread := pi_nread x; pi_nwrite := pi_nwrite x; pi_readopen :=
  v; pi_writeopen := pi_writeopen x |}.
Definition set_pi_writeopen (v : bool) (x : pipe) : pipe := {| pi_data :=
  pi_data x; pi_nread := pi_nread x; pi_nwrite := pi_nwrite x; pi_readopen :=
  pi_readopen x; pi_writeopen := v |}.

(** The console input buffer [cons] (console.c). *)
Record console := Console {
  c_buf : list Z;
  c_r : Z;
  c_w : Z;
  c_e : Z;
}.
Definition set_c_buf (v : list Z) (x : console) : console := {| c_buf := v;
  c_r := c_r x; c_w := c_w x; c_e := c_e x |}.
Definition set_c_r (v : Z) (x : console) : console := {| c_buf := c_buf x; c_r
  := v; c_w := c_w x; c_e := c_e x |}.
Definition set_c_w (v : Z) (x : console) : console := {| c_buf := c_buf x; c_r
  := c_r x; c_w := v; c_e := c_e x |}.
Definition set_c_e (v : Z) (x : console) : console := {| c_buf := c_buf x; c_r
  := c_r x; c_w := c_w x; c_e := v |}.

(** The UART: the driver's transmit ring (uart.c), the bytes written to
    [THR] so far (oldest first), the bytes waiting in [RHR], and the answers
    the device gives to the successive polls of [LSR_TX_IDLE] (idle once the
    list is exhausted). *)
Record uart := Uart {
  u_tx_buf : list Z;
  u_tx_w : Z;
  u_tx_r : Z;
  u_sent : list Z;
  u_rx : list Z;
  u_idle : list bool;
}.
Definition set_u_tx_buf (v : list Z) (x : uart) : uart := {| u_tx_buf := v;
  u_tx_w := u_tx_w x; u_tx_r := u_tx_r x; u_sent := u_sent x; u_rx := u_rx x;
  u_idle := u_idle x |}.
Definition set_u_tx_w (v : Z) (x : uart) : uart := {| u_tx_buf := u_tx_buf x;
  u_tx_w := v; u_tx_r := u_tx_r x; u_sent := u_sent x; u_rx := u_rx x; u_idle
  := u_idle x |}.
Definition set_u_tx_r (v : Z) (x : uart) : uart := {| u_tx_buf := u_tx_buf x;
  u_tx_w := u_tx_w x; u_tx_r := v; u_sent := u_sent x; u_rx := u_rx x; u_idle
  := u_idle x |}.
Definition set_u_sent (v : list Z) (x : uart) : uart := {| u_tx_buf :=
  u_tx_buf x; u_tx_w := u_tx_w x; u_tx_r := u_tx_r x; u_sent := v; u_rx :=
  u_rx x; u_idle := u_idle x |}.
Definition set_u_rx (v : list Z) (x : uart) : uart := {| u_tx_buf := u_tx_buf
  x; u_tx_w := u_tx_w x; u_tx_r := u_tx_r x; u_sent := u_sent x; u_rx := v;
  u_idle := u_idle x |}.
Definition set_u_idle (v : list bool) (x : uart) : uart := {| u_tx_buf :=
  u_tx_buf x; u_tx_w := u_tx_w x; u_tx_r := u_tx_r x; u_sent := u_sent x; u_rx
  := u_rx x; u_idle := v |}.

(** The supervisor registers of the hart the kernel thread runs on (riscv.h). *)
Record hart := Hart {
  h_sstatus : Z;
  h_scause : Z;
  h_sepc : Z;
  h_stval : Z;
  h_stvec : Z;
  h_satp : Z;
  h_sip : Z;
  h_tp : Z;
}.
Definition set_h_sstatus (v : Z) (x : hart) : hart := {| h_sstatus := v;
  h_scause := h_scause x; h_sepc := h_sepc x; h_stval := h_stval x; h_stvec :=
  h_stvec x; h_satp := h_satp x; h_sip := h_sip x; h_tp := h_tp x |}.
Definition set_h_scause (v : Z) (x : hart) : hart := {| h_sstatus := h_sstatus
  x; h_scause := v; h_sepc := h_sepc x; h_stval := h_stval x; h_stvec :=
  h_stvec x; h_satp := h_satp x; h_sip := h_sip x; h_tp := h_tp x |}.
Definition set_h_sepc (v : Z) (x : hart) : hart := {| h_sstatus := h_sstatus
  x; h_scause := h_scause x; h_sepc := v; h_stval := h_stval x; h_stvec :=
  h_stvec x; h_satp := h_satp x; h_sip := h_sip x; h_tp := h_tp x |}.
Definition set_h_stval (v : Z) (x : hart) : hart := {| h_sstatus := h_sstatus
  x; h_scause := h_scause x; h_sepc := h_sepc x; h_stval := v; h_stvec :=
  h_stvec x; h_satp := h_satp x; h_sip := h_sip x; h_tp := h_tp x |}.
Definition set_h_stvec (v : Z) (x : hart) : hart := {| h_sstatus := h_sstatus
  x; h_scause := h_scause x; h_sepc := h_sepc x; h_stval := h_stval x; h_stvec
  := v; h_satp := h_satp x; h_sip := h_sip x; h_tp := h_tp x |}.
Definition set_h_satp (v : Z) (x : hart) : hart := {| h_sstatus := h_sstatus
  x; h_scause := h_scause x; h_sepc := h_sepc x; h_stval := h_stval x; h_stvec
  := h_stvec x; h_satp := v; h_sip := h_sip x; h_tp := h_tp x |}.
Definition set_h_sip (v : Z) (x : hart) : hart := {| h_sstatus := h_sstatus x;
  h_scause := h_scause x; h_sepc := h_sepc x; h_stval := h_stval x; h_stvec :=
  h_stvec x; h_satp := h_satp x; h_sip := v; h_tp := h_tp x |}.
Definition set_h_tp (v : Z) (x : hart) : hart := {| h_sstatus := h_sstatus x;
  h_scause := h_scause x; h_sepc := h_sepc x; h_stval := h_stval x; h_stvec :=
  h_stvec x; h_satp := h_satp x; h_sip := h_sip x; h_tp := v |}.

(** [struct virtq_desc] (virtio.h). *)
Record vdesc := Vdesc {
  vd_addr : vaddr;
  vd_len : Z;
  vd_flags : Z;
  vd_next : Z;
}.
Definition set_vd_addr (v : vaddr) (x : vdesc) : vdesc := {| vd_addr := v;
  vd_len := vd_len x; vd_flags := vd_flags x; vd_next := vd_next x |}.
Definition set_vd_len (v : Z) (x : vdesc) : vdesc := {| vd_addr := vd_addr x;
  vd_len := v; vd_flags := vd_flags x; vd_next := vd_next x |}.
Definition set_vd_flags (v : Z) (x : vdesc) : vdesc := {| vd_addr := vd_addr
  x; vd_len := vd_len x; vd_flags := v; vd_next := vd_next x |}.
Definition set_vd_next (v : Z) (x : vdesc) : vdesc := {| vd_addr := vd_addr x;
  vd_len := vd_len x; vd_flags := vd_flags x; vd_next := v |}.

(** [struct virtio_blk_req] (virtio.h). *)
Record vreq := Vreq {
  rq_type : Z;
  rq_reserved : Z;
  rq_sector : Z;
}.

(** [struct disk] (virtio_disk.c) with the rings it shares with the device:
    [v_used_ring] holds the [id] of each element of [used->ring] and
    [v_used_dev] is [used->idx]; [v_mmio] is the control registers. *)
Record vdisk := Vdisk {
  v_mmio : gmap Z Z;
  v_desc : list vdesc;
  v_avail_ring : list Z;
  v_avail_idx : Z;
  v_used_ring : list Z;
  v_used_dev : Z;
  v_free : list bool;
  v_used_idx : Z;
  v_info_b : list (option nat);
  v_status : list Z;
  v_ops : list vreq;
}.
Definition set_v_mmio (v : gmap Z Z) (x : vdisk) : vdisk := {| v_mmio := v;
  v_desc := v_desc x; v_avail_ring := v_avail_ring x; v_avail_idx :=
  v_avail_idx x; v_used_ring := v_used_ring x; v_used_dev := v_used_dev x;
  v_free := v_free x; v_used_idx := v_used_idx x; v_info_b := v_info_b x;
  v_status := v_status x; v_ops := v_ops x |}.
Definition set_v_desc (v : list vdesc) (x : vdisk) : vdisk := {| v_mmio :=
  v_mmio x; v_desc := v; v_avail_ring := v_avail_ring x; v_avail_idx :=
  v_avail_idx x; v_used_ring := v_used_ring x; v_used_dev := v_used_dev x;
  v_free := v_free x; v_used_idx := v_used_idx x; v_info_b := v_info_b x;
  v_status := v_status x; v_ops := v_ops x |}.
Definition set_v_avail_ring (v : list Z) (x : vdisk) : vdisk := {| v_mmio :=
  v_mmio x; v_desc := v_desc x; v_avail_ring := v; v_avail_idx := v_avail_idx
  x; v_used_ring := v_used_ring x; v_used_dev := v_used_dev x; v_free :=
  v_free x; v_used_idx := v_used_idx x; v_info_b := v_info_b x; v_status :=
  v_status x; v_ops := v_ops x |}.
Definition set_v_avail_idx (v : Z) (x : vdisk) : vdisk := {| v_mmio := v_mmio
  x; v_desc := v_desc x; v_avail_ring := v_avail_ring x; v_avail_idx := v;
  v_used_ring := v_used_ring x; v_used_dev := v_used_dev x; v_free := v_free
  x; v_used_idx := v_used_idx x; v_info_b := v_info_b x; v_status := v_status
  x; v_ops := v_ops x |}.
Definition set_v_used_ring (v : list Z) (x : vdisk) : vdisk := {| v_mmio :=
  v_mmio x; v_desc := v_desc x; v_avail_ring := v_avail_ring x; v_avail_idx :=
  v_avail_idx x; v_used_ring := v; v_used_dev := v_used_dev x; v_free :=
  v_free x; v_used_idx := v_used_idx x; v_info_b := v_info_b x; v_status :=
  v_status x; v_ops := v_ops x |}.
Definition set_v_used_dev (v : Z) (x : vdisk) : vdisk := {| v_mmio := v_mmio
  x; v_desc := v_desc x; v_avail_ring := v_avail_ring x; v_avail_idx :=
  v_avail_idx x; v_used_ring := v_used_ring x; v_used_dev := v; v_free :=
  v_free x; v_used_idx := v_used_idx x; v_info_b := v_info_b x; v_status :=
  v_status x; v_ops := v_ops x |}.
Definition set_v_free (v : list bool) (x : vdisk) : vdisk := {| v_mmio :=
  v_mmio x; v_desc := v_desc x; v_avail_ring := v_avail_ring x; v_avail_idx :=
  v_avail_idx x; v_used_ring := v_used_ring x; v_used_dev := v_used_dev x;
  v_free := v; v_used_idx := v_used_idx x; v_info_b := v_info_b x; v_status :=
  v_status x; v_ops := v_ops x |}.
Definition set_v_used_idx (v : Z) (x : vdisk) : vdisk := {| v_mmio := v_mmio
  x; v_desc := v_desc x; v_avail_ring := v_avail_ring x; v_avail_idx :=
  v_avail_idx x; v_used_ring := v_used_ring x; v_used_dev := v_used_dev x;
  v_free := v_free x; v_used_idx := v; v_info_b := v_info_b x; v_status :=
  v_status x; v_ops := v_ops x |}.
Definition set_v_info_b (v : list (option nat)) (x : vdisk) : vdisk := {|
  v_mmio := v_mmio x; v_desc := v_desc x; v_avail_ring := v_avail_ring x;
  v_avail_idx := v_avail_idx x; v_used_ring := v_used_ring x; v_used_dev :=
  v_used_dev x; v_free := v_free x; v_used_idx := v_used_idx x; v_info_b := v;
  v_status := v_status x; v_ops := v_ops x |}.
Definition set_v_status (v : list Z) (x : vdisk) : vdisk := {| v_mmio :=
  v_mmio x; v_desc := v_desc x; v_avail_ring := v_avail_ring x; v_avail_idx :=
  v_avail_idx x; v_used_ring := v_used_ring x; v_used_dev := v_used_dev x;
  v_free := v_free x; v_used_idx := v_used_idx x; v_info_b := v_info_b x;
  v_status := v; v_ops := v_ops x |}.
Definition set_v_ops (v : list vreq) (x : vdisk) : vdisk := {| v_mmio :=
  v_mmio x; v_desc := v_desc x; v_avail_ring := v_avail_ring x; v_avail_idx :=
  v_avail_idx x; v_used_ring := v_used_ring x; v_used_dev := v_used_dev x;
  v_free := v_free x; v_used_idx := v_used_idx x; v_info_b := v_info_b x;
  v_status := v_status x; v_ops := v |}.

(** Link-time addresses (kernel.ld, trampoline.S): fixed when the kernel is
    linked, and a parameter of the model. *)
Record layout := Layout {
  ly_end : Z;
  ly_etext : Z;
  ly_trampoline : Z;
  ly_uservec : Z;
  ly_userret : Z;
  ly_forkret : Z;
  ly_usertrap : Z;
  ly_kernelvec : Z;
}.

(** The kernel's global state. *)
Record kst := Kst {
  k_ly : layout;
  k_held : list lockid;
  k_cur : option nat;
  k_procs : list proc;
  k_nextpid : Z;
  k_initproc : option nat;
  k_mem : mem;
  k_freelist : Z;
  k_kpgtbl : Z;
  k_bufs : list buf;
  k_disk : gmap Z (list Z);
  k_hist : list (Z * list Z);
  k_log : log;
  k_sb : superblock;
  k_itable : list inode;
  k_ftable : list file;
  k_pipes : gmap Z pipe;
  k_cons : console;
  k_uart : uart;
  k_ticks : Z;
  k_first : bool;
  k_hart : hart;
  k_irqs : list Z;
  k_vd : vdisk;
}.
Definition set_k_ly (v : layout) (x : kst) : kst := {| k_ly := v; k_held :=
  k_held x; k_cur := k_cur x; k_procs := k_procs x; k_nextpid := k_nextpid x;
  k_initproc := k_initproc x; k_mem := k_mem x; k_freelist := k_freelist x;
  k_kpgtbl := k_kpgtbl x; k_bufs := k_bufs x; k_disk := k_disk x; k_hist :=
  k_hist x; k_log := k_log x; k_sb := k_sb x; k_itable := k_itable x; k_ftable
  := k_ftable x; k_pipes := k_pipes x; k_cons := k_cons x; k_uart := k_uart x;
  k_ticks := k_ticks x; k_first := k_first x; k_hart := k_hart x; k_irqs :=
  k_irqs x; k_vd := k_vd x |}.
Definition set_k_held (v : list lockid) (x : kst) : kst := {| k_ly := k_ly x;
  k_held := v; k_cur := k_cur x; k_procs := k_procs x; k_nextpid := k_nextpid
  x; k_initproc := k_initproc x; k_mem := k_mem x; k_freelist := k_freelist x;
  k_kpgtbl := k_kpgtbl x; k_bufs := k_bufs x; k_disk := k_disk x; k_hist :=
  k_hist x; k_log := k_log x; k_sb := k_sb x; k_itable := k_itable x; k_ftable
  := k_ftable x; k_pipes := k_pipes x; k_cons := k_cons x; k_uart := k_uart x;
  k_ticks := k_ticks x; k_first := k_first x; k_hart := k_hart x; k_irqs :=
  k_irqs x; k_vd := k_vd x |}.
Definition set_k_cur (v : option nat) (x : kst) : kst := {| k_ly := k_ly x;
  k_held := k_held x; k_cur := v; k_procs := k_procs x; k_nextpid := k_nextpid
  x; k_initproc := k_initproc x; k_mem := k_mem x; k_freelist := k_freelist x;
  k_kpgtbl := k_kpgtbl x; k_bufs := k_bufs x; k_disk := k_disk x; k_hist :=
  k_hist x; k_log := k_log x; k_sb := k_sb x; k_itable := k_itable x; k_ftable
  := k_ftable x; k_pipes := k_pipes x; k_cons := k_cons x; k_uart := k_uart x;
  k_ticks := k_ticks x; k_first := k_first x; k_hart := k_hart x; k_irqs :=
  k_irqs x; k_vd := k_vd x |}.
Definition set_k_procs (v : list proc) (x : kst) : kst := {| k_ly := k_ly x;
  k_held := k_held x; k_cur := k_cur x; k_procs := v; k_nextpid := k_nextpid
  x; k_initproc := k_initproc x; k_mem := k_mem x; k_freelist := k_freelist x;
  k_kpgtbl := k_kpgtbl x; k_bufs := k_bufs x; k_disk := k_disk x; k_hist :=
  k_hist x; k_log := k_log x; k_sb := k_sb x; k_itable := k_itable x; k_ftable
  := k_ftable x; k_pipes := k_pipes x; k_cons := k_cons x; k_uart := k_uart x;
  k_ticks := k_ticks x; k_first := k_first x; k_hart := k_hart x; k_irqs :=
  k_irqs x; k_vd := k_vd x |}.
Definition set_k_nextpid (v : Z) (x : kst) : kst := {| k_ly := k_ly x; k_held
  := k_held x; k_cur := k_cur x; k_procs := k_procs x; k_nextpid := v;
  k_initproc := k_initproc x; k_mem := k_mem x; k_freelist := k_freelist x;
  k_kpgtbl := k_kpgtbl x; k_bufs := k_bufs x; k_disk := k_disk x; k_hist :=
  k_hist x; k_log := k_log x; k_sb := k_sb x; k_itable := k_itable x; k_ftable
  := k_ftable x; k_pipes := k_pipes x; k_cons := k_cons x; k_uart := k_uart x;
  k_ticks := k_ticks x; k_first := k_first x; k_hart := k_hart x; k_irqs :=
  k_irqs x; k_vd := k_vd x |}.
Definition set_k_initproc (v : option nat) (x : kst) : kst := {| k_ly := k_ly
  x; k_held := k_held x; k_cur := k_cur x; k_procs := k_procs x; k_nextpid :=
  k_nextpid x; k_initproc := v; k_mem := k_mem x; k_freelist := k_freelist x;
  k_kpgtbl := k_kpgtbl x; k_bufs := k_bufs x; k_disk := k_disk x; k_hist :=
  k_hist x; k_log := k_log x; k_sb := k_sb x; k_itable := k_itable x; k_ftable
  := k_ftable x; k_pipes := k_pipes x; k_cons := k_cons x; k_uart := k_uart x;
  k_ticks := k_ticks x; k_first := k_first x; k_hart := k_hart x; k_irqs :=
  k_irqs x; k_vd := k_vd x |}.
Definition set_k_mem (v : mem) (x : kst) : kst := {| k_ly := k_ly x; k_held :=
  k_held x; k_cur := k_cur x; k_procs := k_procs x; k_nextpid := k_nextpid x;
  k_initproc := k_initproc x; k_mem := v; k_freelist := k_freelist x; k_kpgtbl
  := k_kpgtbl x; k_bufs := k_bufs x; k_disk := k_disk x; k_hist := k_hist x;
  k_log := k_log x; k_sb := k_sb x; k_itable := k_itable x; k_ftable :=
  k_ftable x; k_pipes := k_pipes x; k_cons := k_cons x; k_uart := k_uart x;
  k_ticks := k_ticks x; k_first := k_first x; k_hart := k_hart x; k_irqs :=
  k_irqs x; k_vd := k_vd x |}.
Definition set_k_freelist (v : Z) (x : kst) : kst := {| k_ly := k_ly x; k_held
  := k_held x; k_cur := k_cur x; k_procs := k_procs x; k_nextpid := k_nextpid
  x; k_initproc := k_initproc x; k_mem := k_mem x; k_freelist := v; k_kpgtbl
  := k_kpgtbl x; k_bufs := k_bufs x; k_disk := k_disk x; k_hist := k_hist x;
  k_log := k_log x; k_sb := k_sb x; k_itable := k_itable x; k_ftable :=
  k_ftable x; k_pipes := k_pipes x; k_cons := k_cons x; k_uart := k_uart x;
  k_ticks := k_ticks x; k_first := k_first x; k_hart := k_hart x; k_irqs :=
  k_irqs x; k_vd := k_vd x |}.
Definition set_k_kpgtbl (v : Z) (x : kst) : kst := {| k_ly := k_ly x; k_held
  := k_held x; k_cur := k_cur x; k_procs := k_procs x; k_nextpid := k_nextpid
  x; k_initproc := k_initproc x; k_mem := k_mem x; k_freelist := k_freelist x;
  k_kpgtbl := v; k_bufs := k_bufs x; k_disk := k_disk x; k_hist := k_hist x;
  k_log := k_log x; k_sb := k_sb x; k_itable := k_itable x; k_ftable :=
  k_ftable x; k_pipes := k_pipes x; k_cons := k_cons x; k_uart := k_uart x;
  k_ticks := k_ticks x; k_first := k_first x; k_hart := k_hart x; k_irqs :=
  k_irqs x; k_vd := k_vd x |}.
Definition set_k_bufs (v : list buf) (x : kst) : kst := {| k_ly := k_ly x;
  k_held := k_held x; k_cur := k_cur x; k_procs := k_procs x; k_nextpid :=
  k_nextpid x; k_initproc := k_initproc x; k_mem := k_mem x; k_freelist :=
  k_freelist x; k_kpgtbl := k_kpgtbl x; k_bufs := v; k_disk := k_disk x;
  k_hist := k_hist x; k_log := k_log x; k_sb := k_sb x; k_itable := k_itable
  x; k_ftable := k_ftable x; k_pipes := k_pipes x; k_cons := k_cons x; k_uart
  := k_uart x; k_ticks := k_ticks x; k_first := k_first x; k_hart := k_hart x;
  k_irqs := k_irqs x; k_vd := k_vd x |}.
Definition set_k_disk (v : gmap Z (list Z)) (x : kst) : kst := {| k_ly := k_ly
  x; k_held := k_held x; k_cur := k_cur x; k_procs := k_procs x; k_nextpid :=
  k_nextpid x; k_initproc := k_initproc x; k_mem := k_mem x; k_freelist :=
  k_freelist x; k_kpgtbl := k_kpgtbl x; k_bufs := k_bufs x; k_disk := v;
  k_hist := k_hist x; k_log := k_log x; k_sb := k_sb x; k_itable := k_itable
  x; k_ftable := k_ftable x; k_pipes := k_pipes x; k_cons := k_cons x; k_uart
  := k_uart x; k_ticks := k_ticks x; k_first := k_first x; k_hart := k_hart x;
  k_irqs := k_irqs x; k_vd := k_vd x |}.
Definition set_k_hist (v : list (Z * list Z)) (x : kst) : kst := {| k_ly :=
  k_ly x; k_held := k_held x; k_cur := k_cur x; k_procs := k_procs x;
  k_nextpid := k_nextpid x; k_initproc := k_initproc x; k_mem := k_mem x;
  k_freelist := k_freelist x; k_kpgtbl := k_kpgtbl x; k_bufs := k_bufs x;
  k_disk := k_disk x; k_hist := v; k_log := k_log x; k_sb := k_sb x; k_itable
  := k_itable x; k_ftable := k_ftable x; k_pipes := k_pipes x; k_cons :=
  k_cons x; k_uart := k_uart x; k_ticks := k_ticks x; k_first := k_first x;
  k_hart := k_hart x; k_irqs := k_irqs x; k_vd := k_vd x |}.
Definition set_k_log (v : log) (x : kst) : kst := {| k_ly := k_ly x; k_held :=
  k_held x; k_cur := k_cur x; k_procs := k_procs x; k_nextpid := k_nextpid x;
  k_initproc := k_initproc x; k_mem := k_mem x; k_freelist := k_freelist x;
  k_kpgtbl := k_kpgtbl x; k_bufs := k_bufs x; k_disk := k_disk x; k_hist :=
  k_hist x; k_log := v; k_sb := k_sb x; k_itable := k_itable x; k_ftable :=
  k_ftable x; k_pipes := k_pipes x; k_cons := k_cons x; k_uart := k_uart x;
  k_ticks := k_ticks x; k_first := k_first x; k_hart := k_hart x; k_irqs :=
  k_irqs x; k_vd := k_vd x |}.
Definition set_k_sb (v : superblock) (x : kst) : kst := {| k_ly := k_ly x;
  k_held := k_held x; k_cur := k_cur x; k_procs := k_procs x; k_nextpid :=
  k_nextpid x; k_initproc := k_initproc x; k_mem := k_mem x; k_freelist :=
  k_freelist x; k_kpgtbl := k_kpgtbl x; k_bufs := k_bufs x; k_disk := k_disk
  x; k_hist := k_hist x; k_log := k_log x; k_sb := v; k_itable := k_itable x;
  k_ftable := k_ftable x; k_pipes := k_pipes x; k_cons := k_cons x; k_uart :=
  k_uart x; k_ticks := k_ticks x; k_first := k_first x; k_hart := k_hart x;
  k_irqs := k_irqs x; k_vd := k_vd x |}.
Definition set_k_itable (v : list inode) (x : kst) : kst := {| k_ly := k_ly x;
  k_held := k_held x; k_cur := k_cur x; k_procs := k_procs x; k_nextpid :=
  k_nextpid x; k_initproc := k_initproc x; k_mem := k_mem x; k_freelist :=
  k_freelist x; k_kpgtbl := k_kpgtbl x; k_bufs := k_bufs x; k_disk := k_disk
  x; k_hist := k_hist x; k_log := k_log x; k_sb := k_sb x; k_itable := v;
  k_ftable := k_ftable x; k_pipes := k_pipes x; k_cons := k_cons x; k_uart :=
  k_uart x; k_ticks := k_ticks x; k_first := k_first x; k_hart := k_hart x;
  k_irqs := k_irqs x; k_vd := k_vd x |}.
Definition set_k_ftable (v : list file) (x : kst) : kst := {| k_ly := k_ly x;
  k_held := k_held x; k_cur := k_cur x; k_procs := k_procs x; k_nextpid :=
  k_nextpid x; k_initproc := k_initproc x; k_mem := k_mem x; k_freelist :=
  k_freelist x; k_kpgtbl := k_kpgtbl x; k_bufs := k_bufs x; k_disk := k_disk
  x; k_hist := k_hist x; k_log := k_log x; k_sb := k_sb x; k_itable :=
  k_itable x; k_ftable := v; k_pipes := k_pipes x; k_cons := k_cons x; k_uart
  := k_uart x; k_ticks := k_ticks x; k_first := k_first x; k_hart := k_hart x;
  k_irqs := k_irqs x; k_vd := k_vd x |}.
Definition set_k_pipes (v : gmap Z pipe) (x : kst) : kst := {| k_ly := k_ly x;
  k_held := k_held x; k_cur := k_cur x; k_procs := k_procs x; k_nextpid :=
  k_nextpid x; k_initproc := k_initproc x; k_mem := k_mem x; k_freelist :=
  k_freelist x; k_kpgtbl := k_kpgtbl x; k_bufs := k_bufs x; k_disk := k_disk
  x; k_hist := k_hist x; k_log := k_log x; k_sb := k_sb x; k_itable :=
  k_itable x; k_ftable := k_ftable x; k_pipes := v; k_cons := k_cons x; k_uart
  := k_uart x; k_ticks := k_ticks x; k_first := k_first x; k_hart := k_hart x;
  k_irqs := k_irqs x; k_vd := k_vd x |}.
Definition set_k_cons (v : console) (x : kst) : kst := {| k_ly := k_ly x;
  k_held := k_held x; k_cur := k_cur x; k_procs := k_procs x; k_nextpid :=
  k_nextpid x; k_initproc := k_initproc x; k_mem := k_mem x; k_freelist :=
  k_freelist x; k_kpgtbl := k_kpgtbl x; k_bufs := k_bufs x; k_disk := k_disk
  x; k_hist := k_hist x; k_log := k_log x; k_sb := k_sb x; k_itable :=
  k_itable x; k_ftable := k_ftable x; k_pipes := k_pipes x; k_cons := v;
  k_uart := k_uart x; k_ticks := k_ticks x; k_first := k_first x; k_hart :=
  k_hart x; k_irqs := k_irqs x; k_vd := k_vd x |}.
Definition set_k_uart (v : uart) (x : kst) : kst := {| k_ly := k_ly x; k_held
  := k_held x; k_cur := k_cur x; k_procs := k_procs x; k_nextpid := k_nextpid
  x; k_initproc := k_initproc x; k_mem := k_mem x; k_freelist := k_freelist x;
  k_kpgtbl := k_kpgtbl x; k_bufs := k_bufs x; k_disk := k_disk x; k_hist :=
  k_hist x; k_log := k_log x; k_sb := k_sb x; k_itable := k_itable x; k_ftable
  := k_ftable x; k_pipes := k_pipes x; k_cons := k_cons x; k_uart := v;
  k_ticks := k_ticks x; k_first := k_first x; k_hart := k_hart x; k_irqs :=
  k_irqs x; k_vd := k_vd x |}.
Definition set_k_ticks (v : Z) (x : kst) : kst := {| k_ly := k_ly x; k_held :=
  k_held x; k_cur := k_cur x; k_procs := k_procs x; k_nextpid := k_nextpid x;
  k_initproc := k_initproc x; k_mem := k_mem x; k_freelist := k_freelist x;
  k_kpgtbl := k_kpgtbl x; k_bufs := k_bufs x; k_disk := k_disk x; k_hist :=
  k_hist x; k_log := k_log x; k_sb := k_sb x; k_itable := k_itable x; k_ftable
  := k_ftable x; k_pipes := k_pipes x; k_cons := k_cons x; k_uart := k_uart x;
  k_ticks := v; k_first := k_first x; k_hart := k_hart x; k_irqs := k_irqs x;
  k_vd := k_vd x |}.
Definition set_k_first (v : bool) (x : kst) : kst := {| k_ly := k_ly x; k_held
  := k_held x; k_cur := k_cur x; k_procs := k_procs x; k_nextpid := k_nextpid
  x; k_initproc := k_initproc x; k_mem := k_mem x; k_freelist := k_freelist x;
  k_kpgtbl := k_kpgtbl x; k_bufs := k_bufs x; k_disk := k_disk x; k_hist :=
  k_hist x; k_log := k_log x; k_sb := k_sb x; k_itable := k_itable x; k_ftable
  := k_ftable x; k_pipes := k_pipes x; k_cons := k_cons x; k_uart := k_uart x;
  k_ticks := k_ticks x; k_first := v; k_hart := k_hart x; k_irqs := k_irqs x;
  k_vd := k_vd x |}.
Definition set_k_hart (v : hart) (x : kst) : kst := {| k_ly := k_ly x; k_held
  := k_held x; k_cur := k_cur x; k_procs := k_procs x; k_nextpid := k_nextpid
  x; k_initproc := k_initproc x; k_mem := k_mem x; k_freelist := k_freelist x;
  k_kpgtbl := k_kpgtbl x; k_bufs := k_bufs x; k_disk := k_disk x; k_hist :=
  k_hist x; k_log := k_log x; k_sb := k_sb x; k_itable := k_itable x; k_ftable
  := k_ftable x; k_pipes := k_pipes x; k_cons := k_cons x; k_uart := k_uart x;
  k_ticks := k_ticks x; k_first := k_first x; k_hart := v; k_irqs := k_irqs x;
  k_vd := k_vd x |}.
Definition set_k_irqs (v : list Z) (x : kst) : kst := {| k_ly := k_ly x;
  k_held := k_held x; k_cur := k_cur x; k_procs := k_procs x; k_nextpid :=
  k_nextpid x; k_initproc := k_initproc x; k_mem := k_mem x; k_freelist :=
  k_freelist x; k_kpgtbl := k_kpgtbl x; k_bufs := k_bufs x; k_disk := k_disk
  x; k_hist := k_hist x; k_log := k_log x; k_sb := k_sb x; k_itable :=
  k_itable x; k_ftable := k_ftable x; k_pipes := k_pipes x; k_cons := k_cons
  x; k_uart := k_uart x; k_ticks := k_ticks x; k_first := k_first x; k_hart :=
  k_hart x; k_irqs := v; k_vd := k_vd x |}.
Definition set_k_vd (v : vdisk) (x : kst) : kst := {| k_ly := k_ly x; k_held
  := k_held x; k_cur := k_cur x; k_procs := k_procs x; k_nextpid := k_nextpid
  x; k_initproc := k_initproc x; k_mem := k_mem x; k_freelist := k_freelist x;
  k_kpgtbl := k_kpgtbl x; k_bufs := k_bufs x; k_disk := k_disk x; k_hist :=
  k_hist x; k_log := k_log x; k_sb := k_sb x; k_itable := k_itable x; k_ftable
  := k_ftable x; k_pipes := k_pipes x; k_cons := k_cons x; k_uart := k_uart x;
  k_ticks := k_ticks x; k_first := k_first x; k_hart := k_hart x; k_irqs :=
  k_irqs x; k_vd := v |}.

(** ** Values of zero-initialised memory *)

Definition sleeplock0 : sleeplock := Sleeplock false 0.
Definition context0 : context := Context 0 0 (replicate 12 0).
Definition proc0 : proc :=
  Proc UNUSED None 0 0 0 None 0 0 0 0 context0 (replicate NOFILE None) None
    (replicate 16 0).
Definition buf0 : buf :=
  Buf false false 0 0 sleeplock0 0 0 0 (replicate (Z.to_nat BSIZE) 0).
Definition log0 : log := Log 0 0 0 0 0 0 (replicate (Z.to_nat LOGSIZE) 0).
Definition superblock0 : superblock := Superblock 0 0 0 0 0 0 0 0.
Definition dinode0 : dinode :=
  Dinode 0 0 0 0 0 (replicate (Z.to_nat (NDIRECT + 1)) 0).
Definition inode0 : inode :=
  Inode 0 0 0 sleeplock0 false 0 0 0 0 0 (replicate (Z.to_nat (NDIRECT + 1)) 0).
Definition file0 : file := File FD_NONE 0 false false 0 None 0 0.
Definition pipe0 : pipe := Pipe (replicate 512 0) 0 0 false false.
Definition console0 : console := Console (replicate 128 0) 0 0 0.
Definition uart0 : uart := Uart (replicate 32 0) 0 0 [] [] [].
Definition hart0 : hart := Hart 0 0 0 0 0 0 0 0.
Definition NUM : Z := 8.
Definition vdesc0 : vdesc := Vdesc VA_null 0 0 0.
Definition vreq0 : vreq := Vreq 0 0 0.
Definition vdisk0 : vdisk :=
  Vdisk ∅ (replicate (Z.to_nat NUM) vdesc0) (replicate (Z.to_nat NUM) 0) 0
    (replicate (Z.to_nat NUM) 0) 0 (replicate (Z.to_nat NUM) false) 0
    (replicate (Z.to_nat NUM) None) (replicate (Z.to_nat NUM) 0) (replicate (Z.to_nat NUM) vreq0).
(** Any link with the kernel's text and data below 0x80022000. *)
Definition layout0 : layout :=
  Layout 0x80021d60 0x80008000 0x80007000 0x80007000 0x80007090 0x80001a00
    0x80002a00 0x80005a00.
(** The kernel's data segment at boot. *)
Definition kst0 : kst :=
  Kst layout0 [] None (replicate NPROC proc0) 1 None ∅ 0 0
    (replicate (S NBUF) buf0) ∅ [] log0 superblock0 (replicate NINODE inode0)
    (replicate NFILE file0) ∅ console0 uart0 0 true hart0 [] vdisk0.

(** ** Access to the tables *)

Definition proc_of (s : kst) (i : nat) : proc := default proc0 (k_procs s !! i).
Definition buf_of (s : kst) (i : nat) : buf := default buf0 (k_bufs s !! i).
Definition inode_of (s : kst) (i : nat) : inode :=
  default inode0 (k_itable s !! i).
Definition file_of (s : kst) (i : nat) : file :=
  default file0 (k_ftable s !! i).
Definition pipe_of (s : kst) (pi : Z) : pipe := default pipe0 (k_pipes s !! pi).

Definition upd_proc (i : nat) (f : proc → proc) (s : kst) : kst :=
  set_k_procs (alter f i (k_procs s)) s.
Definition upd_buf (i : nat) (f : buf → buf) (s : kst) : kst :=
  set_k_bufs (alter f i (k_bufs s)) s.
Definition upd_inode (i : nat) (f : inode → inode) (s : kst) : kst :=
  set_k_itable (alter f i (k_itable s)) s.
Definition upd_file (i : nat) (f : file → file) (s : kst) : kst :=
  set_k_ftable (alter f i (k_ftable s)) s.
Definition upd_pipe (pi : Z) (f : pipe → pipe) (s : kst) : kst :=
  set_k_pipes (<[pi := f (pipe_of s pi)]> (k_pipes s)) s.

(** A kernel computation. *)
Abbreviation K := (M kst).

Lemma proc_of_upd i j f s :
  (j < length (k_procs s))%nat →
  proc_of (upd_proc i f s) j = if decide (i = j) then f (proc_of s j) else proc_of s j.
Proof.
  intros Hj. unfold proc_of, upd_proc. simpl. destruct (lookup_lt_is_Some_2 _ _ Hj) as [p Hp].
  case_decide as H.
  - subst. rewrite list_lookup_alter_eq, Hp. done.
  - rewrite list_lookup_alter_ne by done. done.
Qed.

(** ** The locks a thread holds *)

(** The list without the innermost entry for [lk]. *)
Fixpoint remove_lock (lk : lockid) (l : list lockid) : list lockid :=
  match l with
  | [] => []
  | x :: l => if decide (x = lk) then l else x :: remove_lock lk l
  end.

Lemma elem_of_remove_lock lk x l :
  NoDup l → x ∈ remove_lock lk l ↔ x ∈ l ∧ x ≠ lk.
Proof.
  induction 1 as [|y l Hy Hl IH]; simpl; [set_solver|].
  case_decide; subst; set_solver.
Qed.
Lemma NoDup_remove_lock lk l : NoDup l → NoDup (remove_lock lk l).
Proof.
  induction 1 as [|y l Hy Hl IH]; simpl; [constructor|].
  case_decide; [done|]. constructor; [|done].
  rewrite elem_of_remove_lock by done. tauto.
Qed.
Lemma length_remove_lock lk l :
  lk ∈ l → Z.of_nat (length (remove_lock lk l)) = Z.of_nat (length l) - 1.
Proof.
  induction l as [|y l IH]; [set_solver|]. simpl. case_decide; [lia|].
  intros [->|H']%elem_of_cons; [done|]. simpl. specialize (IH H'). lia.
Qed.
Lemma remove_lock_cons lk l : remove_lock lk (lk :: l) = l.
Proof. simpl. by case_decide. Qed.
#[global] Arguments remove_lock : simpl never.

(** ** Equality of kernel states

    [kst_eq] proves that two updates of one state agree, leaving the fields
    on which they differ syntactically. *)
Ltac kst_unfold :=
  cbv beta delta [
    upd_proc upd_buf upd_inode upd_file upd_pipe set_k_ly set_k_held set_k_cur
    set_k_procs set_k_nextpid set_k_initproc set_k_mem set_k_freelist set_k_kpgtbl
    set_k_bufs set_k_disk set_k_hist set_k_log set_k_sb set_k_itable
    set_k_ftable set_k_pipes set_k_cons set_k_uart set_k_ticks set_k_first set_k_hart set_k_irqs
    set_k_vd];
  cbn [
    k_ly k_held k_cur k_procs k_nextpid k_initproc k_mem k_freelist k_kpgtbl k_bufs k_disk
    k_hist k_log k_sb k_itable k_ftable k_pipes k_cons k_uart k_ticks k_first k_hart k_irqs k_vd].
Ltac kst_eq :=
  kst_unfold;
  try match goal with
  | |- _ = ?s => is_var s; destruct s; cbn
  | |- ?s = _ => is_var s; destruct s; cbn
  end; f_equal.
