(* ===== verification/Spinlock.v ===== *)
(** * Spinlocks and interrupt nesting

    [kernel/spinlock.c] on several harts.  The registers of a hart that the
    code uses ([sstatus.SIE] and [struct cpu]) and the lock words form the
    machine state; [acquire] and [release] are given both as the sequential C
    functions and, for the interleaving of harts, as the atomic actions they
    are made of, with [locked] tested and set by one atomic swap. *)

From stdpp Require Import options.
From S2P Require Import Prelude CString State.
#[local] Open Scope Z_scope.

(** [struct spinlock] (spinlock.h); [lk_cpu] is the index of the [cpu]. *)
Record spinlock := Spinlock { lk_locked : Z; lk_name : string; lk_cpu : option nat }.
(** The fields of [struct cpu] (proc.h) used here, with the hart's
    [sstatus.SIE] bit. *)
Record cpu := Cpu { c_noff : Z; c_intena : bool; c_sie : bool }.
Record sst := Sst { s_cpu : nat → cpu; s_lock : lockid → spinlock }.

Definition upd {A B} `{EqDecision A} (f : A → B) (a : A) (b : B) : A → B :=
  λ x, if decide (x = a) then b else f x.
Definition set_cpu (h : nat) (c : cpu) (s : sst) : sst :=
  Sst (upd (s_cpu s) h c) (s_lock s).
Definition set_lock (lk : lockid) (l : spinlock) (s : sst) : sst :=
  Sst (s_cpu s) (upd (s_lock s) lk l).

(** ** Operations: [h] is the hart that runs the code *)

Definition intr_get (h : nat) : M sst bool := gets (λ s, c_sie (s_cpu s h)).
Definition intr_write (h : nat) (b : bool) : M sst unit :=
  modify (λ s, let c := s_cpu s h in
    set_cpu h (Cpu (c_noff c) (c_intena c) b) s).
Definition intr_on (h : nat) : M sst unit := intr_write h true.
Definition intr_off (h : nat) : M sst unit := intr_write h false.

Definition initlock (lk : lockid) (name : string) : M sst unit :=
  modify (set_lock lk (Spinlock 0 name None)).

Definition push_off (h : nat) : M sst unit :=
  old ← intr_get h;
  intr_off h;;
  modify (λ s, let c := s_cpu s h in
    let c := if c_noff c =? 0 then Cpu (c_noff c) old (c_sie c) else c in
    set_cpu h (Cpu (i32 (c_noff c + 1)) (c_intena c) (c_sie c)) s).

Definition pop_off (h : nat) : M sst unit :=
  on ← intr_get h;
  if on : bool then panic "pop_off - interruptible" else
  noff ← gets (λ s, c_noff (s_cpu s h));
  if noff <? 1 then panic "pop_off" else
  modify (λ s, let c := s_cpu s h in
    set_cpu h (Cpu (i32 (c_noff c - 1)) (c_intena c) (c_sie c)) s);;
  c ← gets (λ s, s_cpu s h);
  if (c_noff c =? 0) && c_intena c then intr_on h else mret ().

Definition holding (h : nat) (lk : lockid) : M sst bool :=
  gets (λ s, let l := s_lock s lk in
    negb (lk_locked l =? 0) && bool_decide (lk_cpu l = Some h)).

(** [__sync_lock_test_and_set(&lk->locked, 1)]: the old value. *)
Definition test_and_set (lk : lockid) : M sst Z :=
  old ← gets (λ s, lk_locked (s_lock s lk));
  modify (λ s, let l := s_lock s lk in
    set_lock lk (Spinlock 1 (lk_name l) (lk_cpu l)) s);;
  mret old.

Definition set_lk_cpu (lk : lockid) (c : option nat) : M sst unit :=
  modify (λ s, let l := s_lock s lk in
    set_lock lk (Spinlock (lk_locked l) (lk_name l) c) s).

(** The part of [acquire] before the spin loop. *)
Definition acquire_start (h : nat) (lk : lockid) : M sst unit :=
  push_off h;;
  b ← holding h lk;
  if b : bool then panic "acquire" else mret ().

(** [acquire]; the spin loop has the given fuel. *)
Definition acquire (fuel : nat) (h : nat) (lk : lockid) : M sst unit :=
  acquire_start h lk;;
  mloop fuel (λ _ : unit,
    old ← test_and_set lk;
    mret (if old =? 0 then inr () else inl ())) ();;
  set_lk_cpu lk (Some h).

(** The part of [release] before the lock word is cleared. *)
Definition release_start (h : nat) (lk : lockid) : M sst unit :=
  b ← holding h lk;
  if negb b then panic "release" else set_lk_cpu lk None.

(** [__sync_lock_release(&lk->locked)] *)
Definition lock_clear (lk : lockid) : M sst unit :=
  modify (λ s, let l := s_lock s lk in
    set_lock lk (Spinlock 0 (lk_name l) (lk_cpu l)) s).

Definition release (h : nat) (lk : lockid) : M sst unit :=
  release_start h lk;; lock_clear lk;; pop_off h.

(** ** Interleaving

    Each hart is outside the lock code or at one of its atomic actions; the
    list is the locks it is inside of, innermost first. *)

Inductive pc :=
| Run                      (** outside [acquire] and [release] *)
| Spinning (lk : lockid)   (** in the loop of [acquire] *)
| Got (lk : lockid)        (** swapped in the 1, [lk->cpu] not yet written *)
| Clearing (lk : lockid)   (** in [release], before the lock word is cleared *)
| Popping.                 (** in [release], before [pop_off] *)

Record hart := Hart { h_pc : pc; h_in : list lockid }.
Record config := Config { cf_m : sst; cf_h : nat → hart }.

Definition at_pc (cf : config) (h : nat) (p : pc) (l : list lockid) : Prop :=
  cf_h cf h = Hart p l.
Definition goto (cf : config) (m : sst) (h : nat) (p : pc) (l : list lockid) : config :=
  Config m (upd (cf_h cf) h (Hart p l)).

(** One atomic action of hart [h].  A hart may call [acquire] on any lock and
    [release] on any lock it is inside of; an action that panics is no step.
    The bound on the nesting keeps [noff] within its C type; the kernel never
    holds more than a handful of locks. *)
Inductive hstep (h : nat) : config → config → Prop :=
| step_acquire cf m lk l :
    at_pc cf h Run l → Z.of_nat (length l) < 2 ^ 30 →
    acquire_start h lk (cf_m cf) = Ok () m →
    hstep h cf (goto cf m h (Spinning lk) l)
| step_swap cf m lk l old :
    at_pc cf h (Spinning lk) l → test_and_set lk (cf_m cf) = Ok old m →
    hstep h cf (goto cf m h (if old =? 0 then Got lk else Spinning lk) l)
| step_got cf m lk l :
    at_pc cf h (Got lk) l → set_lk_cpu lk (Some h) (cf_m cf) = Ok () m →
    hstep h cf (goto cf m h Run (lk :: l))
| step_release cf m lk l :
    at_pc cf h Run l → lk ∈ l → release_start h lk (cf_m cf) = Ok () m →
    hstep h cf (goto cf m h (Clearing lk) (remove_lock lk l))
| step_clear cf m lk l :
    at_pc cf h (Clearing lk) l → lock_clear lk (cf_m cf) = Ok () m →
    hstep h cf (goto cf m h Popping l)
| step_pop cf m l :
    at_pc cf h Popping l → pop_off h (cf_m cf) = Ok () m →
    hstep h cf (goto cf m h Run l).

Definition step (cf cf' : config) : Prop := ∃ h, hstep h cf cf'.

(** Boot: no lock taken, every hart outside the lock code. *)
Definition boot (cf : config) : Prop :=
  (∀ lk, lk_locked (s_lock (cf_m cf) lk) = 0 ∧ lk_cpu (s_lock (cf_m cf) lk) = None) ∧
  (∀ h, cf_h cf h = Hart Run [] ∧ c_noff (s_cpu (cf_m cf) h) = 0).

(** Hart [h] owns the lock word of [lk]. *)
Definition owns (h : hart) (lk : lockid) : Prop :=
  lk ∈ h_in h ∨ h_pc h = Got lk ∨ h_pc h = Clearing lk.
(** The number of [push_off]s of the hart not yet undone. *)
Definition depth (h : hart) : Z :=
  Z.of_nat (length (h_in h)) + match h_pc h with Run => 0 | _ => 1 end.

(** ** The invariant of the interleaving *)

Record lock_inv (cf : config) : Prop := {
  li_owned : ∀ h lk, owns (cf_h cf h) lk → lk_locked (s_lock (cf_m cf) lk) = 1;
  li_excl : ∀ h1 h2 lk, owns (cf_h cf h1) lk → owns (cf_h cf h2) lk → h1 = h2;
  li_busy : ∀ lk, lk_locked (s_lock (cf_m cf) lk) ≠ 0 → ∃ h, owns (cf_h cf h) lk;
  li_cpu : ∀ h lk, lk_cpu (s_lock (cf_m cf) lk) = Some h ↔ lk ∈ h_in (cf_h cf h);
  li_nodup : ∀ h, NoDup (h_in (cf_h cf h));
  li_fresh : ∀ h lk, h_pc (cf_h cf h) = Got lk ∨ h_pc (cf_h cf h) = Clearing lk →
    lk ∉ h_in (cf_h cf h);
  li_noff : ∀ h, c_noff (s_cpu (cf_m cf) h) = depth (cf_h cf h);
  li_sie : ∀ h, 0 < depth (cf_h cf h) → c_sie (s_cpu (cf_m cf) h) = false;
  li_bound : ∀ h, depth (cf_h cf h) ≤ 2 ^ 30;
}.

Lemma upd_eq {A B} `{EqDecision A} (f : A → B) a b : upd f a b a = b.
Proof. unfold upd. by case_decide. Qed.
Lemma upd_ne {A B} `{EqDecision A} (f : A → B) a b x : x ≠ a → upd f a b x = f x.
Proof. unfold upd. by case_decide. Qed.

(** What the actions do to the machine. *)
Lemma acquire_start_Ok h lk m m' :
  acquire_start h lk m = Ok () m' →
  lk_locked (s_lock m lk) = 0 ∨ lk_cpu (s_lock m lk) ≠ Some h.
Proof.
  unfold acquire_start, push_off, holding, mbind, M_bind, gets; simpl.
  destruct (Z.eqb_spec (lk_locked (s_lock m lk)) 0); [by left|].
  simpl. case_bool_decide; [done|by right].
Qed.
Lemma acquire_start_state h lk m m' :
  acquire_start h lk m = Ok () m' →
  s_lock m' = s_lock m ∧
  (∀ k, k ≠ h → s_cpu m' k = s_cpu m k) ∧
  c_noff (s_cpu m' h) = i32 (c_noff (s_cpu m h) + 1) ∧
  c_sie (s_cpu m' h) = false.
Proof.
  unfold acquire_start, push_off, holding, mbind, M_bind, gets; simpl.
  destruct (_ && _); [done|]. intros [= <-]. simpl. rewrite !upd_eq. simpl.
  split; [done|]. split.
  - intros k Hk. by rewrite !upd_ne by done.
  - destruct (_ =? _); done.
Qed.
Lemma release_start_Ok h lk m m' :
  release_start h lk m = Ok () m' →
  s_cpu m' = s_cpu m ∧ s_lock m' = upd (s_lock m) lk
    (Spinlock (lk_locked (s_lock m lk)) (lk_name (s_lock m lk)) None).
Proof.
  unfold release_start, holding, mbind, M_bind, gets; simpl.
  destruct (_ && _); simpl; [|done]. by intros [= <-].
Qed.
Lemma pop_off_Ok h m :
  c_sie (s_cpu m h) = false → 1 ≤ c_noff (s_cpu m h) →
  c_noff (s_cpu m h) ≤ 2 ^ 30 →
  ∃ m', pop_off h m = Ok () m' ∧ s_lock m' = s_lock m ∧
    (∀ k, k ≠ h → s_cpu m' k = s_cpu m k) ∧
    c_noff (s_cpu m' h) = c_noff (s_cpu m h) - 1 ∧
    c_intena (s_cpu m' h) = c_intena (s_cpu m h) ∧
    c_sie (s_cpu m' h) =
      ((c_noff (s_cpu m h) =? 1) && c_intena (s_cpu m h)).
Proof.
  intros Hs H1 H2. unfold pop_off, mbind, M_bind, gets, intr_get; simpl.
  rewrite Hs. destruct (Z.ltb_spec (c_noff (s_cpu m h)) 1); [lia|]. simpl.
  rewrite upd_eq. simpl. rewrite i32_id by lia.
  replace (c_noff (s_cpu m h) - 1 =? 0) with (c_noff (s_cpu m h) =? 1) by lia.
  destruct (_ && _) eqn:E; simpl.
  - eexists; split; [done|]. simpl. rewrite !upd_eq. simpl. repeat split.
    intros k Hk. by rewrite !upd_ne.
  - eexists; split; [done|]. simpl. rewrite !upd_eq. simpl. repeat split; try done.
    intros k Hk. by rewrite !upd_ne.
Qed.

Lemma owns_Run lk l : owns (Hart Run l) lk ↔ lk ∈ l.
Proof. unfold owns. simpl. naive_solver. Qed.

(** A step moves one hart [h] and concerns one lock [lk]: either nothing about
    [lk] changes, or no other hart owns [lk] before the step and afterwards the
    lock word and [lk->cpu] say what [h] is to [lk]. *)
Lemma lock_inv_update cf m' h p' l' lk :
  lock_inv cf →
  (∀ x, x ≠ lk → s_lock m' x = s_lock (cf_m cf) x) →
  (∀ k, k ≠ h → s_cpu m' k = s_cpu (cf_m cf) k) →
  (∀ x, x ≠ lk → (owns (Hart p' l') x ↔ owns (cf_h cf h) x)) →
  (∀ x, x ≠ lk → (x ∈ l' ↔ x ∈ h_in (cf_h cf h))) →
  (s_lock m' lk = s_lock (cf_m cf) lk ∧
     (owns (Hart p' l') lk ↔ owns (cf_h cf h) lk) ∧
     (lk ∈ l' ↔ lk ∈ h_in (cf_h cf h)) ∨
   (∀ k, k ≠ h → ¬ owns (cf_h cf k) lk) ∧
     (owns (Hart p' l') lk → lk_locked (s_lock m' lk) = 1) ∧
     (lk_locked (s_lock m' lk) ≠ 0 → owns (Hart p' l') lk) ∧
     (lk_cpu (s_lock m' lk) = if decide (lk ∈ l') then Some h else None)) →
  NoDup l' → (∀ x, p' = Got x ∨ p' = Clearing x → x ∉ l') →
  c_noff (s_cpu m' h) = depth (Hart p' l') →
  (0 < depth (Hart p' l') → c_sie (s_cpu m' h) = false) →
  depth (Hart p' l') ≤ 2 ^ 30 →
  lock_inv (goto cf m' h p' l').
Proof.
  intros [I1 I2 I3 I4 I5 I9 I6 I7 I8] Hlk Hcpu Hown Hin Hcase Hnd Hfr Hnoff Hsie Hb.
  assert (∀ k x, k ≠ h → owns (cf_h cf k) x → ¬ owns (Hart p' l') x) as Hex.
  { intros k x Hk Hx Hx'. destruct (decide (x = lk)) as [->|Hne].
    - destruct Hcase as [(_ & E & _)|(E & _)]; [|by eapply E].
      apply Hk. eapply I2; [done|]. by apply E.
    - apply Hk. eapply I2; [done|]. by apply Hown. }
  split; simpl.
  - intros k x. destruct (decide (k = h)) as [->|Hk].
    + rewrite upd_eq. destruct (decide (x = lk)) as [->|Hne].
      * destruct Hcase as [(-> & E & _)|(_ & E & _)]; [|done].
        intros ?. eapply I1. by apply E.
      * rewrite Hlk by done. intros ?. eapply I1. by apply Hown.
    + rewrite upd_ne by done. intros Hx. destruct (decide (x = lk)) as [->|Hne].
      * destruct Hcase as [(-> & _)|(E & _)]; [by eapply I1|]. by apply E in Hx.
      * rewrite Hlk by done. by eapply I1.
  - intros k1 k2 x. destruct (decide (k1 = h)) as [->|H1], (decide (k2 = h)) as [->|H2];
      rewrite ?upd_eq, ?upd_ne by done; [done| | |by apply I2].
    + intros A B. by eapply Hex in B.
    + intros A B. by eapply Hex in A.
  - intros x Hx. destruct (decide (x = lk)) as [->|Hne].
    + destruct Hcase as [(E & E' & _)|(_ & _ & E & _)].
      * rewrite E in Hx. destruct (I3 _ Hx) as [k Hk]. exists k.
        destruct (decide (k = h)) as [->|?].
        { rewrite upd_eq. by apply E'. } by rewrite upd_ne.
      * exists h. rewrite upd_eq. auto.
    + rewrite Hlk in Hx by done. destruct (I3 _ Hx) as [k Hk]. exists k.
      destruct (decide (k = h)) as [->|?].
      { rewrite upd_eq. by apply Hown. } by rewrite upd_ne.
  - intros k x. destruct (decide (x = lk)) as [->|Hne].
    + destruct Hcase as [(-> & _ & E)|(Eo & _ & _ & ->)].
      * rewrite I4. destruct (decide (k = h)) as [->|?];
          rewrite ?upd_eq, ?upd_ne by done; [by rewrite E|done].
      * destruct (decide (k = h)) as [->|?]; rewrite ?upd_eq, ?upd_ne by done; simpl.
        { by case_decide. }
        split; [case_decide; congruence|]. intros ?. exfalso.
        apply (Eo k); [done|]. by left.
    + rewrite Hlk, I4 by done. destruct (decide (k = h)) as [->|?];
        rewrite ?upd_eq, ?upd_ne by done; [by rewrite Hin|done].
  - intros k. destruct (decide (k = h)) as [->|?]; by rewrite ?upd_eq, ?upd_ne by done.
  - intros k x. destruct (decide (k = h)) as [->|?]; rewrite ?upd_eq, ?upd_ne by done;
      [apply Hfr|apply I9].
  - intros k. destruct (decide (k = h)) as [->|?]; rewrite ?upd_eq, ?upd_ne by done;
      [done|]. rewrite Hcpu by done. apply I6.
  - intros k. destruct (decide (k = h)) as [->|?]; rewrite ?upd_eq, ?upd_ne by done;
      [done|]. rewrite Hcpu by done. apply I7.
  - intros k. destruct (decide (k = h)) as [->|?]; by rewrite ?upd_eq, ?upd_ne by done.
Qed.

Lemma lock_inv_boot cf : boot cf → lock_inv cf.
Proof.
  intros [Hl Hh]. split.
  - intros h lk. rewrite (proj1 (Hh h)), owns_Run. set_solver.
  - intros h1 h2 lk. rewrite (proj1 (Hh h1)), owns_Run. set_solver.
  - intros lk. by rewrite (proj1 (Hl lk)).
  - intros h lk. rewrite (proj2 (Hl lk)), (proj1 (Hh h)). set_solver.
  - intros h. rewrite (proj1 (Hh h)). constructor.
  - intros h lk. rewrite (proj1 (Hh h)). simpl. by intros [].
  - intros h. by rewrite (proj1 (Hh h)), (proj2 (Hh h)).
  - intros h. rewrite (proj1 (Hh h)). unfold depth. simpl. lia.
  - intros h. rewrite (proj1 (Hh h)). unfold depth. simpl. lia.
Qed.

Lemma lock_inv_step cf cf' : lock_inv cf → step cf cf' → lock_inv cf'.
Proof.
  intros I [h Hs]. destruct Hs as
    [cf m lk l Hpc Hlen Hst|cf m lk l old Hpc Hst|cf m lk l Hpc Hst
    |cf m lk l Hpc Hin Hst|cf m lk l Hpc Hst|cf m l Hpc Hst]; unfold at_pc in Hpc.
  all: pose proof (li_noff _ I h) as Hn; pose proof (li_sie _ I h) as Hsie;
    pose proof (li_bound _ I h) as Hb; pose proof (li_nodup _ I h) as Hnd;
    pose proof (li_fresh _ I h) as Hfr;
    rewrite Hpc in Hn, Hsie, Hb, Hnd, Hfr; unfold depth in Hn, Hsie, Hb; simpl in *.
  - apply acquire_start_state in Hst as (E1 & E2 & E3 & E4).
    eapply (lock_inv_update _ _ _ _ _ lk I); try done.
    + intros. by rewrite E1.
    + intros x _. rewrite Hpc. unfold owns. simpl. naive_solver.
    + intros x _. by rewrite Hpc.
    + left. rewrite E1, Hpc. unfold owns. simpl. naive_solver.
    + by intros x [].
    + rewrite E3, Hn, i32_id by lia. unfold depth. simpl. lia.
    + unfold depth. simpl. lia.
  - injection Hst as <- <-.
    assert (lk_locked (s_lock (cf_m cf) lk) = 0 ∨ lk_locked (s_lock (cf_m cf) lk) = 1) as Hv.
    { destruct (decide (lk_locked (s_lock (cf_m cf) lk) = 0)); [by left|right].
      destruct (li_busy _ I lk) as [k Hk]; [done|]. by eapply li_owned. }
    eapply (lock_inv_update _ _ _ _ _ lk I); try done; simpl.
    + intros. by rewrite upd_ne.
    + intros x Hx. rewrite Hpc. unfold owns. simpl.
      destruct (_ =? 0); naive_solver.
    + intros x _. by rewrite Hpc.
    + destruct Hv as [Hv|Hv]; rewrite Hv; simpl.
      * right. rewrite upd_eq. simpl. repeat split; [|by intros; right; left|].
        { intros k _ Hk. eapply li_owned in Hk; [|done]. lia. }
        assert (lk ∉ l) as Hni.
        { intros Hl. assert (owns (cf_h cf h) lk) as Ho by (rewrite Hpc; by left).
          eapply li_owned in Ho; [|done]. lia. }
        rewrite decide_False by done.
        destruct (lk_cpu _) as [k|] eqn:E; [|done].
        apply (li_cpu _ I) in E. assert (owns (cf_h cf k) lk) as Ho by by left.
        eapply li_owned in Ho; [|done]. lia.
      * left. rewrite upd_eq, Hpc. split; [|unfold owns; simpl; naive_solver].
        rewrite <- Hv. by destruct (s_lock (cf_m cf) lk).
    + intros x. destruct (_ =? 0) eqn:E; intros [[= <-]|]; try done.
      intros Hl. assert (owns (cf_h cf h) lk) as Ho by (rewrite Hpc; by left).
      eapply li_owned in Ho; [|done]. lia.
    + rewrite Hn. unfold depth. simpl. by destruct (_ =? 0).
    + intros _. apply Hsie. lia.
    + unfold depth. simpl. destruct (_ =? 0); simpl; lia.
  - injection Hst as <-.
    assert (owns (cf_h cf h) lk) as Ho by (rewrite Hpc; right; by left).
    assert (lk ∉ l) as Hni by (apply Hfr; by left).
    eapply (lock_inv_update _ _ _ _ _ lk I); try done; simpl.
    + intros. by rewrite upd_ne.
    + intros x Hx. rewrite Hpc, owns_Run. unfold owns. simpl. set_solver.
    + intros x Hx. rewrite Hpc. set_solver.
    + right. rewrite upd_eq. simpl. repeat split.
      * intros k Hk Hk'. apply Hk. by eapply li_excl.
      * intros _. by eapply li_owned.
      * intros _. apply owns_Run. set_solver.
      * by rewrite decide_True by set_solver.
    + by constructor.
    + by intros x [].
    + rewrite Hn. unfold depth. simpl. lia.
    + intros _. apply Hsie. lia.
    + unfold depth. simpl. lia.
  - apply release_start_Ok in Hst as [E1 E2].
    assert (owns (cf_h cf h) lk) as Ho by (rewrite Hpc; by left).
    assert (1 ≤ Z.of_nat (length l)) by (destruct l; [set_solver|simpl; lia]).
    eapply (lock_inv_update _ _ _ _ _ lk I); try done; simpl.
    + intros. by rewrite E2, upd_ne.
    + intros. by rewrite E1.
    + intros x Hx. rewrite Hpc. unfold owns. simpl.
      rewrite elem_of_remove_lock by done. naive_solver.
    + intros x Hx. rewrite Hpc. simpl. rewrite elem_of_remove_lock by done. tauto.
    + right. rewrite E2, upd_eq. simpl. repeat split.
      * intros k Hk Hk'. apply Hk. by eapply li_excl.
      * intros _. by eapply li_owned.
      * intros _. by right; right.
      * rewrite decide_False; [done|]. rewrite elem_of_remove_lock by done. tauto.
    + by apply NoDup_remove_lock.
    + intros x [|[= <-]]; [done|]. rewrite elem_of_remove_lock by done. tauto.
    + rewrite E1, Hn. unfold depth. simpl. rewrite length_remove_lock by done. lia.
    + intros _. rewrite E1. apply Hsie. lia.
    + unfold depth. simpl. rewrite length_remove_lock by done. lia.
  - injection Hst as <-.
    assert (owns (cf_h cf h) lk) as Ho by (rewrite Hpc; by right; right).
    eapply (lock_inv_update _ _ _ _ _ lk I); try done; simpl.
    + intros. by rewrite upd_ne.
    + intros x Hx. rewrite Hpc. unfold owns. simpl. naive_solver.
    + intros x _. by rewrite Hpc.
    + right. rewrite upd_eq. simpl.
      assert (lk ∉ l) as Hni by (apply Hfr; by right).
      repeat split; try done.
      * intros k Hk Hk'. apply Hk. by eapply li_excl.
      * unfold owns. simpl. naive_solver.
      * rewrite decide_False by done.
        destruct (lk_cpu _) as [k|] eqn:E; [|done]. apply (li_cpu _ I) in E.
        assert (k = h) as -> by (eapply li_excl; [done| |done]; by left).
        by rewrite Hpc in E.
    + by intros x [].
  - destruct (pop_off_Ok h (cf_m cf)) as (m' & E & E1 & E2 & E3 & E4 & E5);
      [apply Hsie; lia|lia|lia|].
    rewrite Hst in E. injection E as <-.
    eapply (lock_inv_update _ _ _ _ _ LK_kmem I); try done; simpl.
    + intros. by rewrite E1.
    + intros x _. rewrite Hpc. unfold owns. simpl. naive_solver.
    + intros x _. by rewrite Hpc.
    + left. rewrite E1, Hpc. unfold owns. simpl. naive_solver.
    + by intros x [].
    + rewrite E3, Hn. unfold depth. simpl. lia.
    + unfold depth. simpl. intros ?. rewrite E5, Hn.
      destruct (Z.eqb_spec (Z.of_nat (length l) + 1) 1); [lia|done].
    + unfold depth. simpl. lia.
Qed.

Lemma lock_inv_reachable cf0 cf : boot cf0 → rtc step cf0 cf → lock_inv cf.
Proof.
  intros H0 Hr. apply lock_inv_boot in H0.
  induction Hr; eauto using lock_inv_step.
Qed.

(** The next action of a hart does not panic, except for a second [acquire]
    of a lock it is inside of. *)
Lemma no_panic_step cf h :
  lock_inv cf →
  match h_pc (cf_h cf h) with
  | Run => ∀ lk, (lk ∉ h_in (cf_h cf h) →
        ∃ m, acquire_start h lk (cf_m cf) = Ok () m) ∧
      (lk ∈ h_in (cf_h cf h) → ∃ m, release_start h lk (cf_m cf) = Ok () m)
  | Popping => ∃ m, pop_off h (cf_m cf) = Ok () m
  | _ => True
  end.
Proof.
  intros I. destruct (h_pc (cf_h cf h)) eqn:Hpc; try done.
  - intros lk. split; intros Hlk.
    + unfold acquire_start, push_off, holding, mbind, M_bind, gets; simpl.
      rewrite bool_decide_false by (by rewrite (li_cpu _ I)).
      rewrite andb_false_r. eauto.
    + unfold release_start, holding, mbind, M_bind, gets; simpl.
      rewrite bool_decide_true by (by rewrite (li_cpu _ I)).
      rewrite (li_owned _ I h) by (by left). simpl. eauto.
  - destruct (pop_off_Ok h (cf_m cf)) as (m & E & _); [| | |by eauto].
    + apply (li_sie _ I). unfold depth. rewrite Hpc. lia.
    + rewrite (li_noff _ I). unfold depth. rewrite Hpc. lia.
    + rewrite (li_noff _ I). apply (li_bound _ I).
Qed.

(** ** Properties *)

(** C26. Mutual exclusion: in every interleaving of harts that acquire and
    release spinlocks from boot, at most one hart is inside a given lock; that
    hart is the one recorded in [lk->cpu], it runs with interrupts off, and
    its next action on the locks does not panic. *)
Theorem spinlock_mutual_exclusion cf0 cf :
  boot cf0 → rtc step cf0 cf →
  (∀ h1 h2 lk, lk ∈ h_in (cf_h cf h1) → lk ∈ h_in (cf_h cf h2) → h1 = h2) ∧
  (∀ h lk, lk ∈ h_in (cf_h cf h) →
    lk_locked (s_lock (cf_m cf) lk) = 1 ∧ lk_cpu (s_lock (cf_m cf) lk) = Some h ∧
    c_sie (s_cpu (cf_m cf) h) = false) ∧
  (∀ h, match h_pc (cf_h cf h) with
    | Run => ∀ lk, (lk ∉ h_in (cf_h cf h) →
          ∃ m, acquire_start h lk (cf_m cf) = Ok () m) ∧
        (lk ∈ h_in (cf_h cf h) → ∃ m, release_start h lk (cf_m cf) = Ok () m)
    | Popping => ∃ m, pop_off h (cf_m cf) = Ok () m
    | _ => True
    end).
Proof.
  intros H0 Hr. pose proof (lock_inv_reachable _ _ H0 Hr) as I. split; [|split].
  - intros h1 h2 lk H1 H2. eapply (li_excl _ I); by left.
  - intros h lk Hlk. split; [apply (li_owned _ I h); by left|]. split.
    + by apply (li_cpu _ I).
    + apply (li_sie _ I). unfold depth.
      destruct (h_in (cf_h cf h)); [set_solver|]. simpl. destruct (h_pc _); lia.
  - intros h. by apply no_panic_step.
Qed.

Definition boot_config : config :=
  Config (Sst (λ _, Cpu 0 false true) (λ _, Spinlock 0 "" None)) (λ _, Hart Run []).
(** Two harts after hart 0 took [kmem.lock] and while hart 1 spins on it. *)
Definition contended : config :=
  let cf := boot_config in
  let m1 := match acquire_start 0 LK_kmem (cf_m cf) with Ok _ m => m | _ => cf_m cf end in
  let cf1 := goto cf m1 0 (Spinning LK_kmem) [] in
  let m2 := match test_and_set LK_kmem m1 with Ok _ m => m | _ => m1 end in
  let cf2 := goto cf1 m2 0 (Got LK_kmem) [] in
  let m3 := match set_lk_cpu LK_kmem (Some O) m2 with Ok _ m => m | _ => m2 end in
  let cf3 := goto cf2 m3 0 Run [LK_kmem] in
  let m4 := match acquire_start 1 LK_kmem m3 with Ok _ m => m | _ => m3 end in
  goto cf3 m4 1 (Spinning LK_kmem) [].
Lemma spinlock_mutual_exclusion_witness :
  LK_kmem ∈ h_in (cf_h contended 0) ∧
  c_sie (s_cpu (cf_m contended) 0) = false.
Proof.
  assert (boot boot_config) as Hb by (split; intros; done).
  assert (rtc step boot_config contended) as Hr.
  { unfold contended.
    eapply rtc_l; [exists 0%nat; by eapply (step_acquire 0 _ _ LK_kmem)|].
    eapply rtc_l; [exists 0%nat; by eapply (step_swap 0 _ _ LK_kmem)|].
    eapply rtc_l; [exists 0%nat; by eapply (step_got 0 _ _ LK_kmem)|].
    eapply rtc_l; [exists 1%nat; by eapply (step_acquire 1 _ _ LK_kmem)|].
    apply rtc_refl. }
  assert (LK_kmem ∈ h_in (cf_h contended 0)) as Hin by (by apply list_elem_of_here).
  split; [exact Hin|].
  exact (proj2 (proj2 (proj1 (proj2
    (spinlock_mutual_exclusion _ _ Hb Hr)) 0%nat LK_kmem Hin))).
Defined.

(** [n] nested calls. *)
Fixpoint repeat_m {S} (n : nat) (m : M S unit) : M S unit :=
  match n with O => mret () | Datatypes.S n => m;; repeat_m n m end.

Lemma push_off_Ok h m :
  0 ≤ c_noff (s_cpu m h) < 2 ^ 30 →
  ∃ m', push_off h m = Ok () m' ∧ s_lock m' = s_lock m ∧
    (∀ k, k ≠ h → s_cpu m' k = s_cpu m k) ∧
    c_noff (s_cpu m' h) = c_noff (s_cpu m h) + 1 ∧
    c_sie (s_cpu m' h) = false ∧
    c_intena (s_cpu m' h) =
      if c_noff (s_cpu m h) =? 0 then c_sie (s_cpu m h) else c_intena (s_cpu m h).
Proof.
  intros Hn. unfold push_off, mbind, M_bind, gets; simpl. eexists. split; [done|].
  simpl. rewrite !upd_eq. simpl. split; [done|]. split.
  - intros k Hk. by rewrite !upd_ne.
  - destruct (Z.eqb_spec (c_noff (s_cpu m h)) 0); simpl; rewrite i32_id by lia; done.
Qed.

Lemma push_off_n n h m :
  0 ≤ c_noff (s_cpu m h) → c_noff (s_cpu m h) + Z.of_nat n ≤ 2 ^ 30 →
  ∃ m', repeat_m n (push_off h) m = Ok () m' ∧ s_lock m' = s_lock m ∧
    (∀ k, k ≠ h → s_cpu m' k = s_cpu m k) ∧
    c_noff (s_cpu m' h) = c_noff (s_cpu m h) + Z.of_nat n ∧
    c_sie (s_cpu m' h) = (if decide (n = O) then c_sie (s_cpu m h) else false) ∧
    c_intena (s_cpu m' h) =
      if (c_noff (s_cpu m h) =? 0) && negb (n =? 0)%nat
      then c_sie (s_cpu m h) else c_intena (s_cpu m h).
Proof.
  revert m; induction n as [|n IH]; intros m Hn Hb; simpl.
  { eexists; split; [done|]. rewrite andb_false_r. repeat split; try done; lia. }
  destruct (push_off_Ok h m) as (m1 & E & E1 & E2 & E3 & E4 & E5); [lia|].
  rewrite (bind_Ok _ _ _ _ _ E).
  destruct (IH m1) as (m2 & F & F1 & F2 & F3 & F4 & F5); [lia|lia|].
  exists m2. split; [done|]. split; [congruence|]. split.
  { intros k Hk. by rewrite F2, E2. }
  split; [lia|]. rewrite F4, F5, E3, E4, E5, andb_true_r.
  split; [by case_decide|].
  destruct (Z.eqb_spec (c_noff (s_cpu m h) + 1) 0); [lia|done].
Qed.

Lemma pop_off_n n h m :
  c_sie (s_cpu m h) = false → Z.of_nat (S n) ≤ c_noff (s_cpu m h) ≤ 2 ^ 30 →
  ∃ m', repeat_m (S n) (pop_off h) m = Ok () m' ∧ s_lock m' = s_lock m ∧
    (∀ k, k ≠ h → s_cpu m' k = s_cpu m k) ∧
    c_noff (s_cpu m' h) = c_noff (s_cpu m h) - Z.of_nat (S n) ∧
    c_sie (s_cpu m' h) =
      ((c_noff (s_cpu m h) =? Z.of_nat (S n)) && c_intena (s_cpu m h)).
Proof.
  revert m; induction n as [|n IH]; intros m Hs Hn.
  - destruct (pop_off_Ok h m) as (m1 & E & E1 & E2 & E3 & E4 & E5); [done|lia|lia|].
    simpl. rewrite (bind_Ok _ _ _ _ _ E). eexists. repeat split; eauto.
  - destruct (pop_off_Ok h m) as (m1 & E & E1 & E2 & E3 & E4 & E5); [done|lia|lia|].
    change (repeat_m (S (S n)) (pop_off h)) with
      (pop_off h;; repeat_m (S n) (pop_off h)). rewrite (bind_Ok _ _ _ _ _ E).
    destruct (IH m1) as (m2 & F & F1 & F2 & F3 & F4).
    { rewrite E5. destruct (Z.eqb_spec (c_noff (s_cpu m h)) 1); [lia|done]. }
    { lia. }
    exists m2. split; [done|]. split; [congruence|]. split.
    { intros k Hk. by rewrite F2, E2. }
    split; [lia|]. rewrite F4, E3, E4. f_equal.
    destruct (Z.eqb_spec (c_noff (s_cpu m h) - 1) (Z.of_nat (S n))),
      (Z.eqb_spec (c_noff (s_cpu m h)) (Z.of_nat (S (S n)))); lia || done.
Qed.

(** [push_off] and [pop_off] nest: [n] calls of [push_off] turn interrupts
    off, and [n] matching calls of [pop_off] restore the interrupt-enable bit
    and the depth the hart had before, without touching another hart or a
    lock. *)
Theorem push_pop_nest n h m :
  0 ≤ c_noff (s_cpu m h) → c_noff (s_cpu m h) + Z.of_nat n ≤ 2 ^ 30 →
  (0 < c_noff (s_cpu m h) → c_sie (s_cpu m h) = false) →
  ∃ m1 m2, repeat_m n (push_off h) m = Ok () m1 ∧
    (n ≠ O → c_sie (s_cpu m1 h) = false) ∧
    repeat_m n (pop_off h) m1 = Ok () m2 ∧
    c_sie (s_cpu m2 h) = c_sie (s_cpu m h) ∧
    c_noff (s_cpu m2 h) = c_noff (s_cpu m h) ∧
    (∀ k, k ≠ h → s_cpu m2 k = s_cpu m k) ∧ s_lock m2 = s_lock m.
Proof.
  intros Hn Hb Hs.
  destruct (push_off_n n h m) as (m1 & E & E1 & E2 & E3 & E4 & E5); [done|done|].
  exists m1. destruct n as [|n].
  { exists m1. repeat split; try done; lia. }
  destruct (pop_off_n n h m1) as (m2 & F & F1 & F2 & F3 & F4); [done|lia|].
  exists m2. split; [done|]. split; [done|]. split; [done|]. split.
  - rewrite F4, E3, E5. simpl. rewrite andb_true_r.
    destruct (Z.eqb_spec (c_noff (s_cpu m h)) 0) as [->|].
    + by rewrite Z.add_0_l, Z.eqb_refl.
    + rewrite Hs by lia.
      destruct (Z.eqb_spec (c_noff (s_cpu m h) + Z.of_nat (S n)) (Z.of_nat (S n)));
        [lia|done].
  - split; [lia|]. split; [|congruence]. intros k Hk. by rewrite F2, E2.
Qed.
Lemma push_pop_nest_witness :
  ∃ m1 m2, repeat_m 3 (push_off 0) (cf_m boot_config) = Ok () m1 ∧
    repeat_m 3 (pop_off 0) m1 = Ok () m2 ∧ c_sie (s_cpu m2 0) = true.
Proof.
  destruct (push_pop_nest 3 0 (cf_m boot_config) ltac:(simpl; lia)
    ltac:(simpl; lia) ltac:(simpl; lia)) as (m1 & m2 & E1 & _ & E2 & E3 & _).
  exists m1, m2. split; [exact E1|]. split; [exact E2|exact E3].
Defined.
