(* ===== verification/Sched.v ===== *)
(** * Locks as the kernel uses them, and sleeping and waking

    The kernel thread's view of [kernel/spinlock.c] (the list of spinlocks the
    running thread holds) and the scheduling half of [kernel/proc.c]: [sched],
    [yield], [sleep], [wakeup], [kill] and one turn of [scheduler].  A thread
    that calls [swtch] becomes a [Yield]: its saved [context] is the function
    from the state on resumption to the rest of the thread. *)

From stdpp Require Import options.
From S2P Require Import Prelude CString State Spinlock.
#[local] Open Scope Z_scope.

(** ** Spinlocks *)

(** [acquire] and [release] seen by one kernel thread: [k_held] lists the
    locks it holds, innermost first, so that [mycpu()->noff] is its length.
    [hart_refines] below relates them to the code on the machine's words. *)
Definition holding (lk : lockid) : K bool :=
  gets (λ s, bool_decide (lk ∈ k_held s)).
Definition acquire (lk : lockid) : K unit :=
  b ← holding lk;
  if b : bool then panic "acquire"
  else modify (λ s, set_k_held (lk :: k_held s) s).
Definition release (lk : lockid) : K unit :=
  b ← holding lk;
  if negb b then panic "release"
  else modify (λ s, set_k_held (remove_lock lk (k_held s)) s).

(** ** The current process *)

(** [myproc()], which is null in the boot thread and in [scheduler]. *)
Definition myproc : K (option nat) := gets k_cur.
(** [myproc()] about to be dereferenced: a null pointer faults, and
    [kerneltrap] panics. *)
Definition curproc : K nat :=
  c ← myproc;
  match c with Some i => mret i | None => panic "kerneltrap" end.

(** ** Scheduling *)

(** [sched], but for the interrupt flags of the hart: its last check, that
    interrupts are off, follows from that of the lock, and it keeps [intena]
    across [swtch]; [sched_refines] (SchedSmp) relates it to the code with them. *)
Definition sched : K unit :=
  p ← curproc;
  h ← holding (LK_proc p);
  if negb h then panic "sched p->lock" else
  noff ← gets (λ s, length (k_held s));
  if negb (noff =? 1)%nat then panic "sched locks" else
  st ← gets (λ s, p_state (proc_of s p));
  if decide (st = RUNNING) then panic "sched running" else
  swtch_away.

Definition yield : K unit :=
  p ← curproc;
  acquire (LK_proc p);;
  modify (upd_proc p (set_p_state RUNNABLE));;
  sched;;
  release (LK_proc p).

Definition sleep (ch : chan) (lk : lockid) : K unit :=
  p ← curproc;
  acquire (LK_proc p);;
  release lk;;
  modify (upd_proc p (set_p_chan (Some ch)));;
  modify (upd_proc p (set_p_state SLEEPING));;
  sched;;
  modify (upd_proc p (set_p_chan None));;
  release (LK_proc p);;
  acquire lk.

(** The body of the loop of [wakeup] for [proc[i]]. *)
Definition wakeup_one (ch : option chan) (i : nat) : K unit :=
  cur ← myproc;
  if decide (cur = Some i) then mret () else
  acquire (LK_proc i);;
  p ← gets (λ s, proc_of s i);
  when (bool_decide (p_state p = SLEEPING) && bool_decide (p_chan p = ch))
    (modify (upd_proc i (set_p_state RUNNABLE)));;
  release (LK_proc i).
Definition wakeup (ch : option chan) : K unit :=
  mfor NPROC 0 (λ i, wakeup_one ch (Z.to_nat i)).

Definition kill (pid : Z) : K Z :=
  r ← mfind NPROC 0 (λ i,
    let i := Z.to_nat i in
    acquire (LK_proc i);;
    p ← gets (λ s, proc_of s i);
    if p_pid p =? pid then
      modify (upd_proc i (set_p_killed 1));;
      when (bool_decide (p_state p = SLEEPING))
        (modify (upd_proc i (set_p_state RUNNABLE)));;
      release (LK_proc i);;
      mret (Some 0)
    else
      release (LK_proc i);;
      mret None);
  mret (default (-1) r).

(** ** [scheduler]

    The suspended kernel threads, by process index: what [swtch] finds in
    [p->context]. *)

Definition thread : Type := kst → res kst unit.
Abbreviation threads := (gmap nat thread).

(** One iteration of the inner loop of [scheduler] for [proc[i]].  [swtch]
    runs the thread until it switches back; a thread that returns has left the
    kernel for user space with the process still [RUNNING], which ends the
    turn. *)
Definition scheduler_turn (i : nat) (s : kst) (ts : threads)
  : option (kst * threads) :=
  match acquire (LK_proc i) s with
  | Ok _ s =>
      if decide (p_state (proc_of s i) = RUNNABLE) then
        let s := set_k_cur (Some i) (upd_proc i (set_p_state RUNNING) s) in
        match ts !! i with
        | Some k =>
            match k s with
            | Yield s k' =>
                match release (LK_proc i) (set_k_cur None s) with
                | Ok _ s => Some (s, <[i := k']> ts)
                | _ => None
                end
            | Ok _ s => Some (s, delete i ts)
            | _ => None
            end
        | None => None
        end
      else
        match release (LK_proc i) s with
        | Ok _ s => Some (s, ts)
        | _ => None
        end
  | _ => None
  end.

(** ** Reasoning *)

Lemma acquire_Ok lk s :
  lk ∉ k_held s → acquire lk s = Ok () (set_k_held (lk :: k_held s) s).
Proof.
  intros H. unfold acquire, holding, mbind, M_bind, gets. simpl.
  by rewrite bool_decide_false.
Qed.
Lemma acquire_panic lk s : lk ∈ k_held s → acquire lk s = Panic "acquire".
Proof.
  intros H. unfold acquire, holding, mbind, M_bind, gets. simpl.
  by rewrite bool_decide_true.
Qed.
Lemma release_Ok lk s :
  lk ∈ k_held s →
  release lk s = Ok () (set_k_held (remove_lock lk (k_held s)) s).
Proof.
  intros H. unfold release, holding, mbind, M_bind, gets. simpl.
  by rewrite bool_decide_true.
Qed.
Lemma bind_acquire {A} lk (f : unit → K A) s :
  lk ∉ k_held s → (acquire lk ≫= f) s = f () (set_k_held (lk :: k_held s) s).
Proof. intros. by apply bind_Ok, acquire_Ok. Qed.
Lemma release_top lk l s :
  k_held s = lk :: l → release lk s = Ok () (set_k_held l s).
Proof.
  intros E. rewrite release_Ok by (rewrite E; set_solver).
  by rewrite E, remove_lock_cons.
Qed.
Lemma bind_release {A} lk l (f : unit → K A) s :
  k_held s = lk :: l → (release lk ≫= f) s = f () (set_k_held l s).
Proof. intros. by apply bind_Ok, release_top. Qed.
Lemma wp_acquire lk Q s :
  lk ∉ k_held s → Q () (set_k_held (lk :: k_held s) s) → wp (acquire lk) Q s.
Proof. intros. by eapply wp_Ok; [apply acquire_Ok|]. Qed.
Lemma wp_release lk l Q s :
  k_held s = lk :: l → Q () (set_k_held l s) → wp (release lk) Q s.
Proof.
  intros E H. by eapply wp_Ok; [apply release_top|].
Qed.
Lemma set_k_held_same s : set_k_held (k_held s) s = s.
Proof. by destruct s. Qed.
Lemma set_k_procs_same s : set_k_procs (k_procs s) s = s.
Proof. by destruct s. Qed.

(** A computation bracketed by [acquire] and [release] of one lock. *)
Lemma wp_locked {A} lk (m : K A) (Q : A → kst → Prop) s :
  lk ∉ k_held s →
  wp m (λ a s', k_held s' = lk :: k_held s ∧ Q a (set_k_held (k_held s) s'))
    (set_k_held (lk :: k_held s) s) →
  wp (acquire lk;; a ← m; release lk;; mret a) Q s.
Proof.
  intros Hlk H. apply wp_bind, wp_acquire; [done|].
  apply wp_bind. eapply wp_mono; [exact H|]. simpl. intros a s' [E HQ].
  apply wp_bind. by eapply wp_release.
Qed.

(** ** [wakeup] and [kill] on the process table *)

(** What [wakeup ch] does to [proc[i]]. *)
Definition wake_proc (cur : option nat) (ch : option chan) (i : nat) (p : proc) : proc :=
  if decide (cur ≠ Some i ∧ p_state p = SLEEPING ∧ p_chan p = ch)
  then set_p_state RUNNABLE p else p.

(** No process lock is held. *)
Definition no_plock (s : kst) : Prop := ∀ i, LK_proc i ∉ k_held s.

Lemma wakeup_one_spec ch i s :
  LK_proc i ∉ k_held s →
  wakeup_one ch i s =
    Ok () (set_k_procs (alter (wake_proc (k_cur s) ch i) i (k_procs s)) s).
Proof.
  intros H. unfold wakeup_one, myproc. mstep.
  destruct (decide (k_cur s = Some i)) as [E|E].
  - mstep. f_equal. rewrite list_alter_id; [by destruct s|].
    intros p. unfold wake_proc. rewrite decide_False; [done|]. tauto.
  - rewrite (bind_Ok _ _ _ _ _ (acquire_Ok _ _ H)).
    mstep. set (p := proc_of _ i).
    assert (p = proc_of s i) as Ep by done.
    unfold when.
    destruct (bool_decide (p_state p = SLEEPING) && bool_decide (p_chan p = ch)) eqn:Eb.
    + apply andb_true_iff in Eb as [E1%bool_decide_eq_true E2%bool_decide_eq_true].
      unfold mbind, M_bind, modify; simpl.
      rewrite release_Ok by set_solver. simpl. rewrite remove_lock_cons.
      f_equal. kst_eq.
      apply list_eq. intros j. destruct (decide (i = j)) as [->|Hne].
      * rewrite !list_lookup_alter_eq. subst p. unfold proc_of in *. simpl in *.
        destruct (k_procs s !! j) as [q|] eqn:Eq; [|done].
        simpl in *. f_equal.
        unfold wake_proc. by rewrite decide_True.
      * by rewrite !list_lookup_alter_ne by done.
    + unfold mbind, M_bind, mret, M_ret; simpl.
      rewrite release_Ok by set_solver. simpl. rewrite remove_lock_cons.
      f_equal. kst_eq. symmetry.
      apply list_eq. intros j. destruct (decide (i = j)) as [->|Hne].
      * rewrite !list_lookup_alter_eq. subst p. unfold proc_of in *. simpl in *.
        destruct (k_procs s !! j) as [q|] eqn:Eq; [|done].
        simpl in *. f_equal.
        unfold wake_proc. rewrite decide_False; [done|].
        intros (_ & E1 & E2). by rewrite !bool_decide_true in Eb by done.
      * by rewrite !list_lookup_alter_ne by done.
Qed.

(** A loop over [proc[]] whose body maps entry [i]. *)
Lemma mfor_procs (n : nat) (f : nat → proc → proc) (body : nat → K unit) (i0 : nat) s
    (P : kst → Prop) :
  (∀ l s', P s' → P (set_k_procs l s')) → P s →
  (∀ i s', P s' → body i s' = Ok () (set_k_procs (alter (f i) i (k_procs s')) s')) →
  mfor n (Z.of_nat i0) (λ i, body (Z.to_nat i)) s =
    Ok () (set_k_procs
      (imap (λ i p, if decide (i0 ≤ i < i0 + n)%nat then f i p else p) (k_procs s)) s).
Proof.
  intros HP. revert i0 s. induction n as [|n IH]; intros i0 s Hs Hbody.
  - simpl. mstep. f_equal. kst_eq.
    apply list_eq. intros j. rewrite list_lookup_imap.
    destruct (_ !! j); simpl; [|done]. rewrite decide_False by lia. done.
  - cbn [mfor]. rewrite Nat2Z.id. rewrite (bind_Ok _ _ _ _ _ (Hbody i0 s Hs)).
    replace (Z.of_nat i0 + 1) with (Z.of_nat (S i0)) by lia.
    rewrite IH by auto. f_equal. kst_eq.
    apply list_eq. intros j. rewrite !list_lookup_imap. simpl.
    destruct (decide (i0 = j)) as [->|Hne].
    + rewrite list_lookup_alter_eq. destruct (_ !! j); simpl; [|done].
      rewrite decide_False, decide_True by lia. done.
    + rewrite list_lookup_alter_ne by done. destruct (_ !! j); simpl; [|done].
      f_equal. repeat case_decide; try done; lia.
Qed.

Lemma wakeup_eq ch s :
  no_plock s → length (k_procs s) = NPROC →
  wakeup ch s = Ok () (set_k_procs (imap (wake_proc (k_cur s) ch) (k_procs s)) s).
Proof.
  intros H Hlen. unfold wakeup. change 0 with (Z.of_nat 0).
  rewrite (mfor_procs NPROC (wake_proc (k_cur s) ch) (wakeup_one ch) 0 s
    (λ s', no_plock s' ∧ k_cur s' = k_cur s)).
  - f_equal. f_equal. apply list_eq. intros j. rewrite !list_lookup_imap.
    destruct (_ !! j) eqn:E; simpl; [|done]. apply lookup_lt_Some in E.
    rewrite decide_True by lia. done.
  - by intros l s' [].
  - done.
  - intros i s' [Hs <-]. apply wakeup_one_spec. apply Hs.
Qed.

(** The state after [wakeup ch]. *)
Definition woken (ch : option chan) (s : kst) : kst :=
  set_k_procs (imap (wake_proc (k_cur s) ch) (k_procs s)) s.
Lemma bind_wakeup {A} ch (f : unit → K A) s :
  no_plock s → length (k_procs s) = NPROC → (wakeup ch ≫= f) s = f () (woken ch s).
Proof. intros. by apply bind_Ok, wakeup_eq. Qed.

(** What [kill] does to its victim. *)
Definition kill_proc (p : proc) : proc :=
  let p' := set_p_killed 1 p in
  if decide (p_state p = SLEEPING) then set_p_state RUNNABLE p' else p'.

Lemma alter_ext_lookup {A} (f g : A → A) i (l : list A) x :
  l !! i = Some x → f x = g x → alter f i l = alter g i l.
Proof.
  intros Hx Hfg. apply list_alter_ext; [|done].
  intros y Hy. by simplify_eq.
Qed.

Lemma kill_find n i0 pid s :
  no_plock s → (i0 + n = length (k_procs s))%nat →
  (∀ j p, (j < i0)%nat → k_procs s !! j = Some p → p_pid p ≠ pid) →
  mfind n (Z.of_nat i0) (λ i,
    let i := Z.to_nat i in
    acquire (LK_proc i);;
    p ← gets (λ s, proc_of s i);
    if p_pid p =? pid then
      modify (upd_proc i (set_p_killed 1));;
      when (bool_decide (p_state p = SLEEPING))
        (modify (upd_proc i (set_p_state RUNNABLE)));;
      release (LK_proc i);;
      mret (Some 0)
    else
      release (LK_proc i);;
      mret None) s =
  match list_find (λ p, p_pid p = pid) (k_procs s) with
  | Some (i, _) => Ok (Some 0) (upd_proc i kill_proc s)
  | None => Ok None s
  end.
Proof.
  intros Hp. revert i0. induction n as [|n IH]; intros i0 Hlen Hno.
  - cbn [mfind]. destruct (list_find _ _) as [[i p]|] eqn:E; [|done].
    apply list_find_Some in E as (E1 & E2 & _).
    exfalso. eapply (Hno i p); [|done|done].
    apply lookup_lt_Some in E1. lia.
  - cbn [mfind]. rewrite Nat2Z.id.
    destruct (lookup_lt_is_Some_2 (k_procs s) i0) as [p Ep]; [lia|].
    assert (proc_of s i0 = p) as Eq by (unfold proc_of; by rewrite Ep).
    unfold mbind at 1, M_bind at 1. cbv zeta.
    rewrite (bind_Ok _ _ _ _ _ (acquire_Ok _ _ (Hp i0))). mstep.
    change (proc_of (set_k_held _ s) i0) with (proc_of s i0). rewrite Eq.
    destruct (Z.eqb_spec (p_pid p) pid) as [Hpid|Hpid].
    + replace (list_find _ _) with (Some (i0, p)).
      2:{ symmetry. apply list_find_Some. split; [done|]. split; [done|].
          intros j y Hj Hy Hy'. by eapply (Hno j y). }
      mstep. unfold when. assert (∀ s1, k_held s1 = LK_proc i0 :: k_held s →
        (release (LK_proc i0);; mret (Some 0)) s1 = Ok (Some 0) (set_k_held (k_held s) s1)) as Hr.
      { intros s1 E1. by rewrite (bind_release _ (k_held s)). }
      case_bool_decide as Hst; mstep; rewrite Hr by done; cbn [res_bind]; mstep; f_equal;
        kst_eq; rewrite ?list_alter_alter_eq; eapply alter_ext_lookup; try done; simpl;
        unfold kill_proc; case_decide; done.
    + rewrite (bind_release _ (k_held s)) by done. mstep. cbn [res_bind].
      replace (set_k_held _ (set_k_held _ s)) with s by (by kst_eq).
      replace (Z.of_nat i0 + 1) with (Z.of_nat (S i0)) by lia. apply IH; [lia|].
      intros j q Hj Hq. destruct (decide (j = i0)) as [->|]; [congruence|].
      eapply Hno; [|done]. lia.
Qed.

Lemma kill_eq pid s :
  no_plock s → length (k_procs s) = NPROC →
  kill pid s =
  match list_find (λ p, p_pid p = pid) (k_procs s) with
  | Some (i, _) => Ok 0 (upd_proc i kill_proc s)
  | None => Ok (-1) s
  end.
Proof.
  intros Hp Hlen. unfold kill. unfold mbind at 1, M_bind at 1. change 0 with (Z.of_nat 0) at 1.
  rewrite kill_find; [|done|done|lia].
  by destruct (list_find _ _) as [[]|].
Qed.

(** ** [sleep] *)

(** The state in which a thread that called [sleep ch lk] is switched away. *)
Definition asleep (p : nat) (ch : chan) (s : kst) : kst :=
  set_k_held [LK_proc p]
    (upd_proc p (set_p_state SLEEPING ∘ set_p_chan (Some ch)) s).
(** The state in which it returns, when resumed in [s]. *)
Definition awoken (p : nat) (lk : lockid) (s : kst) : kst :=
  set_k_held [lk] (upd_proc p (set_p_chan None) s).

Lemma curproc_Ok p s : k_cur s = Some p → curproc s = Ok p s.
Proof. intros E. unfold curproc, myproc. mstep. by rewrite E. Qed.
Lemma bind_curproc {A} p (f : nat → K A) s :
  k_cur s = Some p → (curproc ≫= f) s = f p s.
Proof. intros. by apply bind_Ok, curproc_Ok. Qed.

Lemma sched_yields p s :
  k_cur s = Some p → k_held s = [LK_proc p] → p_state (proc_of s p) ≠ RUNNING →
  sched s = Yield s (λ s', Ok () s').
Proof.
  intros Hc Hh Hst. unfold sched. rewrite (bind_curproc p) by done.
  unfold holding. mstep. rewrite Hh, bool_decide_true by set_solver.
  cbn [negb]. mstep. rewrite Hh. cbn [length Nat.eqb negb]. mstep.
  by rewrite decide_False.
Qed.

Lemma sleep_yields ch lk p s :
  k_cur s = Some p → (p < length (k_procs s))%nat → k_held s = [lk] →
  lk ≠ LK_proc p →
  ∃ k, sleep ch lk s = Yield (asleep p ch s) k ∧
    ∀ s', k_held s' = [LK_proc p] → k s' = Ok () (awoken p lk s').
Proof.
  intros Hc Hp Hh Hne. unfold sleep. rewrite (bind_curproc p) by done.
  rewrite bind_acquire by (rewrite Hh; set_solver).
  rewrite (bind_Ok _ _ _ () (set_k_held [LK_proc p] s)).
  2:{ rewrite release_Ok by (simpl; rewrite Hh; set_solver). f_equal. simpl.
      rewrite Hh. unfold remove_lock.
      rewrite decide_False, decide_True by congruence. by kst_eq. }
  mstep.
  replace (upd_proc p (set_p_state SLEEPING) _) with (asleep p ch s).
  2:{ unfold asleep. kst_eq. by rewrite list_alter_alter_eq. }
  eexists. split.
  { apply bind_yields, (sched_yields p); [done|done|].
    unfold asleep, proc_of; simpl. rewrite list_lookup_alter_eq.
    destruct (lookup_lt_is_Some_2 _ _ Hp) as [q ->]. done. }
  intros s' Hs'. cbn [res_bind]. mstep.
  rewrite (bind_release _ []) by done.
  rewrite acquire_Ok by (simpl; set_solver). f_equal.
Qed.

(** ** Properties *)

(** [wakeup ch] makes exactly the processes that sleep on [ch], other than
    the caller, [RUNNABLE]; nothing else of the kernel state changes.  It
    needs the caller to hold no process lock. *)
Theorem wakeup_exact ch s :
  no_plock s → length (k_procs s) = NPROC →
  wakeup ch s = Ok () (set_k_procs (imap (λ i p,
    if decide (k_cur s ≠ Some i ∧ p_state p = SLEEPING ∧ p_chan p = ch)
    then set_p_state RUNNABLE p else p) (k_procs s)) s).
Proof. intros. by rewrite wakeup_eq. Qed.
Definition sleeper (ch : chan) : proc :=
  set_p_state SLEEPING (set_p_chan (Some ch) proc0).
Definition two_sleepers : kst :=
  set_k_procs (<[0%nat := sleeper Ch_log]> (<[1%nat := sleeper Ch_ticks]> (k_procs kst0))) kst0.
Lemma wakeup_exact_witness :
  ∃ s, wakeup (Some Ch_log) two_sleepers = Ok () s ∧
    p_state (proc_of s 0) = RUNNABLE ∧ p_state (proc_of s 1) = SLEEPING.
Proof.
  assert (no_plock two_sleepers) as H by (intros i Hi; set_solver).
  pose proof (wakeup_exact (Some Ch_log) two_sleepers H eq_refl) as E.
  eexists. split; [exact E|]. split; reflexivity.
Defined.

(** [kill] marks the first process with the given pid as killed, wakes it
    if it sleeps and returns 0; when no process has the pid it returns -1 and
    changes nothing. *)
Theorem kill_spec pid s :
  no_plock s → length (k_procs s) = NPROC →
  match list_find (λ p, p_pid p = pid) (k_procs s) with
  | Some (i, p) => ∃ s', kill pid s = Ok 0 s' ∧ k_held s' = k_held s ∧
      p_killed (proc_of s' i) = 1 ∧ p_state (proc_of s' i) ≠ SLEEPING ∧
      (p_state p ≠ SLEEPING → p_state (proc_of s' i) = p_state p) ∧
      (∀ j, j ≠ i → proc_of s' j = proc_of s j)
  | None => kill pid s = Ok (-1) s
  end.
Proof.
  intros Hp Hlen. rewrite kill_eq by done.
  destruct (list_find _ _) as [[i p]|] eqn:E; [|done].
  apply list_find_Some in E as (Ep & Epid & _).
  eexists. split; [done|]. split; [done|].
  unfold proc_of, upd_proc; simpl. rewrite list_lookup_alter_eq, Ep. simpl.
  unfold kill_proc. repeat split.
  - by case_decide.
  - by case_decide.
  - intros. by case_decide.
  - intros j Hj. by rewrite list_lookup_alter_ne.
Qed.
Lemma kill_spec_witness :
  ∃ s, kill 0 two_sleepers = Ok 0 s ∧ p_state (proc_of s 0) ≠ SLEEPING.
Proof.
  assert (no_plock two_sleepers) as H by (intros i Hi; set_solver).
  destruct (kill_spec 0 two_sleepers H eq_refl) as (s' & E & _ & _ & E2 & _).
  exists s'. split; [exact E|exact E2].
Defined.

(** C27. A thread that sleeps on [ch] under [lk] gives up the CPU with [lk]
    released and its process [SLEEPING] on [ch]; once another process has
    called [wakeup ch] it is [RUNNABLE], and the next turn of the scheduler
    resumes it: [sleep] returns with [lk] held again and [chan] cleared. *)
Theorem sleep_wakeup_resume p q ch lk s s2 ts :
  k_cur s = Some p → (p < length (k_procs s))%nat → k_held s = [lk] →
  (∀ i, lk ≠ LK_proc i) →
  (* the waker, in a state where [p] is still asleep *)
  k_cur s2 = Some q → q ≠ p → no_plock s2 → length (k_procs s2) = NPROC →
  p_state (proc_of s2 p) = SLEEPING → p_chan (proc_of s2 p) = Some ch →
  ∃ s1 k, sleep ch lk s = Yield s1 k ∧
    p_state (proc_of s1 p) = SLEEPING ∧ p_chan (proc_of s1 p) = Some ch ∧
    lk ∉ k_held s1 ∧
  ∃ s3, wakeup (Some ch) s2 = Ok () s3 ∧ p_state (proc_of s3 p) = RUNNABLE ∧
  ∃ s4, scheduler_turn p (set_k_cur None (set_k_held [] s3)) (<[p := k]> ts)
        = Some (s4, delete p ts) ∧
    k_held s4 = [lk] ∧ k_cur s4 = Some p ∧
    p_state (proc_of s4 p) = RUNNING ∧ p_chan (proc_of s4 p) = None.
Proof.
  intros Hc Hp Hh Hlk Hq Hqp Hpl Hlen Hst Hch.
  destruct (sleep_yields ch lk p s) as (k & Hy & Hk); [done..|].
  eexists _, k. split; [done|].
  destruct (lookup_lt_is_Some_2 _ _ Hp) as [pr Hpr].
  assert (is_Some (k_procs s2 !! p)) as [p2 Hp2].
  { destruct (k_procs s2 !! p) eqn:E; [eauto|]. unfold proc_of in Hst.
    by rewrite E in Hst. }
  unfold proc_of in Hst, Hch. rewrite Hp2 in Hst, Hch. simpl in Hst, Hch.
  unfold asleep at 1 2 3, proc_of at 1 2; simpl.
  rewrite list_lookup_alter_eq, Hpr. simpl.
  split; [done|]. split; [done|].
  split; [rewrite list_elem_of_singleton; apply Hlk|].
  rewrite wakeup_eq by done. eexists. split; [done|].
  assert (proc_of (set_k_procs (imap (wake_proc (k_cur s2) (Some ch)) (k_procs s2)) s2) p
    = set_p_state RUNNABLE p2) as E3.
  { unfold proc_of; simpl. rewrite list_lookup_imap, Hp2. simpl.
    unfold wake_proc. rewrite decide_True; [done|]. split; [congruence|done]. }
  split; [by rewrite E3|].
  set (s3 := set_k_procs _ s2) in *.
  unfold scheduler_turn. rewrite acquire_Ok by (simpl; set_solver).
  simpl k_held. change (proc_of (set_k_held _ _) p) with (proc_of s3 p).
  rewrite E3, decide_True by done. rewrite lookup_insert_eq.
  rewrite Hk by done. eexists. split; [by rewrite delete_insert_eq|].
  assert (k_procs s3 !! p = Some (set_p_state RUNNABLE p2)) as E4.
  { unfold proc_of in E3. destruct (k_procs s3 !! p) eqn:E; simpl in E3; [congruence|].
    exfalso. assert (is_Some (k_procs s3 !! p)) as [? ?].
    { apply lookup_lt_is_Some. unfold s3; simpl. rewrite length_imap.
      by apply lookup_lt_Some in Hp2. }
    congruence. }
  clearbody s3. unfold awoken, proc_of; simpl.
  by rewrite !list_lookup_alter_eq, E4.
Qed.
Definition running_with (lk : lockid) (i : nat) (s : kst) : kst :=
  set_k_held [lk] (set_k_cur (Some i) (upd_proc i (set_p_state RUNNING) s)).
Lemma sleep_wakeup_resume_witness :
  ∃ s1 k, sleep Ch_ticks LK_ticks (running_with LK_ticks 3 kst0) = Yield s1 k ∧
    p_state (proc_of s1 3) = SLEEPING.
Proof.
  set (s2 := set_k_held [LK_ticks] (set_k_cur (Some 5%nat)
    (set_k_procs (<[3%nat := sleeper Ch_ticks]> (k_procs kst0)) kst0))).
  destruct (sleep_wakeup_resume 3 5 Ch_ticks LK_ticks
    (running_with LK_ticks 3 kst0) s2 ∅) as (s1 & k & E1 & E2 & _).
  - reflexivity.
  - apply Nat.ltb_lt. reflexivity.
  - reflexivity.
  - discriminate.
  - reflexivity.
  - discriminate.
  - intros i Hi. unfold s2 in Hi. simpl in Hi. set_solver.
  - reflexivity.
  - reflexivity.
  - reflexivity.
  - exists s1, k. split; [exact E1|exact E2].
Defined.
