(* ===== verification/Sleeplock.v ===== *)
(** * Sleep-locks

    [kernel/sleeplock.c].  The sleep-locks of the kernel are fields of the
    buffers and of the in-memory inodes; [slid] names them. *)

From stdpp Require Import options.
From S2P Require Import Prelude CString State Sched.
#[local] Open Scope Z_scope.

Definition sl_of (l : slid) (s : kst) : sleeplock :=
  match l with
  | SL_buf i => b_lock (buf_of s i)
  | SL_inode i => i_lock (inode_of s i)
  end.
Definition upd_sl (l : slid) (v : sleeplock) (s : kst) : kst :=
  match l with
  | SL_buf i => upd_buf i (set_b_lock v) s
  | SL_inode i => upd_inode i (set_i_lock v) s
  end.
(** The table entry that holds the lock exists. *)
Definition sl_in (l : slid) (s : kst) : Prop :=
  match l with
  | SL_buf i => (i < length (k_bufs s))%nat
  | SL_inode i => (i < length (k_itable s))%nat
  end.

(** The number of times a thread may be woken in one sleep loop and find its
    condition still false; a run that exceeds it ends in [NoFuel], about which
    no theorem says that the call returned. *)
Definition WAKEUPS : nat := 64.

Definition initsleeplock (l : slid) : K unit :=
  modify (upd_sl l (Sleeplock false 0)).

Definition acquiresleep (l : slid) : K unit :=
  acquire (LK_sl l);;
  mloop WAKEUPS (λ _ : unit,
    b ← gets (λ s, sl_locked (sl_of l s));
    if b : bool then sleep (Ch_sl l) (LK_sl l);; mret (inl ())
    else mret (inr ())) ();;
  p ← curproc;
  pid ← gets (λ s, p_pid (proc_of s p));
  modify (upd_sl l (Sleeplock true pid));;
  release (LK_sl l).

Definition releasesleep (l : slid) : K unit :=
  acquire (LK_sl l);;
  modify (upd_sl l (Sleeplock false 0));;
  wakeup (Some (Ch_sl l));;
  release (LK_sl l).

Definition holdingsleep (l : slid) : K bool :=
  acquire (LK_sl l);;
  p ← curproc;
  r ← gets (λ s, sl_locked (sl_of l s) && (sl_pid (sl_of l s) =? p_pid (proc_of s p)));
  release (LK_sl l);;
  mret r.

(** ** Specifications *)

(** The situation of a system call between its critical sections: process [p]
    runs and holds no spinlock. *)
Record running (p : nat) (s : kst) : Prop := {
  run_cur : k_cur s = Some p;
  run_held : k_held s = [];
  run_procs : length (k_procs s) = NPROC;
  run_p : (p < NPROC)%nat;
}.
(** The same holding the spinlocks [l], none of them a process lock or the
    inner lock of a sleep-lock. *)
Record running_in (l : list lockid) (p : nat) (s : kst) : Prop := {
  ri_cur : k_cur s = Some p;
  ri_held : k_held s = l;
  ri_procs : length (k_procs s) = NPROC;
  ri_p : (p < NPROC)%nat;
  ri_plock : ∀ i, LK_proc i ∉ l;
  ri_sl : ∀ i, LK_sl i ∉ l;
}.

Lemma sl_of_upd l v s : sl_in l s → sl_of l (upd_sl l v s) = v.
Proof.
  destruct l as [i|i]; simpl; intros Hi; unfold buf_of, inode_of, upd_buf, upd_inode; simpl;
    rewrite list_lookup_alter_eq; by destruct (lookup_lt_is_Some_2 _ _ Hi) as [? ->].
Qed.

Lemma k_held_upd_sl l v s : k_held (upd_sl l v s) = k_held s.
Proof. by destruct l. Qed.
Lemma k_cur_upd_sl l v s : k_cur (upd_sl l v s) = k_cur s.
Proof. by destruct l. Qed.
Lemma k_procs_upd_sl l v s : k_procs (upd_sl l v s) = k_procs s.
Proof. by destruct l. Qed.
Lemma sl_of_set_held l h s : sl_of l (set_k_held h s) = sl_of l s.
Proof. by destruct l. Qed.
Lemma upd_sl_set_held l v h s :
  upd_sl l v (set_k_held h s) = set_k_held h (upd_sl l v s).
Proof. by destruct l. Qed.
Lemma k_procs_set_held h s : k_procs (set_k_held h s) = k_procs s.
Proof. done. Qed.
Lemma k_cur_set_held h s : k_cur (set_k_held h s) = k_cur s.
Proof. done. Qed.
Lemma k_held_set_held h s : k_held (set_k_held h s) = h.
Proof. done. Qed.
#[export] Hint Rewrite k_procs_set_held k_cur_set_held k_held_set_held : kst.
#[export] Hint Rewrite k_held_upd_sl k_cur_upd_sl k_procs_upd_sl sl_of_set_held
  upd_sl_set_held : kst.

Lemma set_k_held_twice h h' s : set_k_held h (set_k_held h' s) = set_k_held h s.
Proof. done. Qed.
Lemma set_k_held_id h s : k_held s = h → set_k_held h s = s.
Proof. intros <-. apply set_k_held_same. Qed.

(** Taking a free sleep-lock. *)
Lemma acquiresleep_free l held p s :
  running_in held p s → sl_locked (sl_of l s) = false →
  acquiresleep l s = Ok () (upd_sl l (Sleeplock true (p_pid (proc_of s p))) s).
Proof.
  intros [Hc Hh Hl Hp H1 H2] Hf. unfold acquiresleep.
  rewrite bind_acquire by (rewrite Hh; apply H2).
  rewrite (bind_Ok _ _ _ () (set_k_held (LK_sl l :: k_held s) s)).
  2:{ apply mloop_done. mstep. by rewrite sl_of_set_held, Hf. }
  rewrite (bind_curproc p) by done. mstep.
  rewrite (release_top _ (k_held s)) by (by autorewrite with kst).
  f_equal. rewrite upd_sl_set_held, set_k_held_twice.
  apply set_k_held_id. by autorewrite with kst.
Qed.

(** A taken sleep-lock makes the caller sleep, with the lock as it was; once
    resumed with the lock free, it takes it. *)
Lemma acquiresleep_taken l p s :
  running p s → sl_locked (sl_of l s) = true →
  ∃ k, acquiresleep l s = Yield (asleep p (Ch_sl l) s) k ∧
  ∀ s2, k_held s2 = [LK_proc p] → k_cur s2 = Some p →
    sl_locked (sl_of l s2) = false →
    k s2 = Ok () (upd_sl l (Sleeplock true (p_pid (proc_of (upd_proc p (set_p_chan None) s2) p)))
             (set_k_held [] (upd_proc p (set_p_chan None) s2))).
Proof.
  intros [Hc Hh Hl Hp] Hf. unfold acquiresleep.
  rewrite bind_acquire by (rewrite Hh; set_solver). rewrite Hh.
  set (s1 := set_k_held [LK_sl l] s).
  destruct (sleep_yields (Ch_sl l) (LK_sl l) p s1) as (k & Hy & Hk);
    [done|simpl; lia|done|done|].
  change WAKEUPS with (S (S 62)). generalize 62%nat as n. intros n.
  eexists. split.
  { apply bind_yields, mloop_yields. rewrite bind_gets. unfold s1 at 1.
    rewrite sl_of_set_held, Hf. apply bind_yields. exact Hy. }
  intros s2 H2 Hc2 Hf2. cbv beta. rewrite (Hk s2 H2). cbn [res_bind].
  rewrite ret_Ok. cbn [res_bind].
  rewrite (mloop_done _ _ _ _ () (awoken p (LK_sl l) s2)).
  2:{ mstep. replace (sl_of l (awoken p (LK_sl l) s2)) with (sl_of l s2)
        by (by destruct l). by rewrite Hf2. }
  cbn [res_bind]. rewrite (bind_curproc p) by done. mstep.
  rewrite (release_top _ []) by (autorewrite with kst; done).
  unfold awoken. f_equal. by destruct l.
Qed.

(** [wakeup] finds no sleeper on the lock's channel. *)
Definition nobody_on (ch : chan) (s : kst) : Prop :=
  ∀ i p, k_procs s !! i = Some p → k_cur s ≠ Some i →
    ¬ (p_state p = SLEEPING ∧ p_chan p = Some ch).

Lemma releasesleep_Ok l held p s :
  running_in held p s →
  releasesleep l s = Ok () (woken (Some (Ch_sl l)) (upd_sl l (Sleeplock false 0) s)).
Proof.
  intros [Hc Hh Hl Hp H1 H2]. unfold releasesleep.
  rewrite bind_acquire by (rewrite Hh; apply H2). mstep.
  rewrite bind_wakeup.
  2:{ intros i. autorewrite with kst. simpl. rewrite Hh. specialize (H1 i). set_solver. }
  2:{ by autorewrite with kst. }
  rewrite (release_top _ (k_held s)) by (simpl; by autorewrite with kst).
  f_equal. unfold woken. rewrite !upd_sl_set_held.
  destruct l; by kst_eq.
Qed.

Lemma holdingsleep_Ok l held p s :
  running_in held p s →
  holdingsleep l s =
    Ok (sl_locked (sl_of l s) && (sl_pid (sl_of l s) =? p_pid (proc_of s p))) s.
Proof.
  intros [Hc Hh Hl Hp H1 H2]. unfold holdingsleep.
  rewrite bind_acquire by (rewrite Hh; apply H2).
  rewrite (bind_curproc p) by done. mstep.
  rewrite (bind_release _ (k_held s)) by done. mstep.
  rewrite set_k_held_twice, set_k_held_same. by rewrite sl_of_set_held.
Qed.

(** ** Properties *)

(** [acquiresleep] on a free sleep-lock takes it for the calling process
    without giving up the CPU; on a taken one it gives up the CPU with the
    lock untouched and its inner spinlock released, and takes the lock when it
    is resumed after the holder's [releasesleep]. *)
Theorem acquiresleep_spec l p s :
  running p s →
  (sl_locked (sl_of l s) = false →
     acquiresleep l s = Ok () (upd_sl l (Sleeplock true (p_pid (proc_of s p))) s)) ∧
  (sl_locked (sl_of l s) = true →
     ∃ s1 k, acquiresleep l s = Yield s1 k ∧
       sl_of l s1 = sl_of l s ∧ k_held s1 = [LK_proc p] ∧
       (∀ s2, k_held s2 = [LK_proc p] → k_cur s2 = Some p → sl_in l s2 →
          sl_locked (sl_of l s2) = false →
          ∃ s3, k s2 = Ok () s3 ∧ k_held s3 = [] ∧ sl_locked (sl_of l s3) = true)).
Proof.
  intros Hr. pose proof Hr as [Hc Hh Hl Hp]. split.
  - intros Hf. apply (acquiresleep_free l []); [|done].
    split; try done; intros i; set_solver.
  - intros Ht. destruct (acquiresleep_taken l p s Hr Ht) as (k & E & Hk).
    eexists _, k. split; [exact E|]. split; [by destruct l|]. split; [done|].
    intros s2 H1 H2 H3 H4. rewrite (Hk s2) by done. eexists. split; [done|].
    split; [by autorewrite with kst|].
    rewrite sl_of_upd; [done|]. by destruct l.
Qed.
Definition running0 : kst :=
  set_k_cur (Some 2%nat) (upd_proc 2 (set_p_state RUNNING ∘ set_p_pid 7) kst0).
Lemma acquiresleep_spec_witness :
  ∃ s, acquiresleep (SL_buf 4) running0 = Ok () s ∧
    sl_of (SL_buf 4) s = Sleeplock true 7.
Proof.
  assert (running 2 running0) as Hr by (split; [done..|apply Nat.ltb_lt; done]).
  eexists. split; [exact (proj1 (acquiresleep_spec (SL_buf 4) 2 running0 Hr) eq_refl)|].
  reflexivity.
Defined.
