(* ===== verification/Kalloc.v ===== *)
(** * The physical page allocator

    [kernel/kalloc.c].  A free page holds, in its first eight bytes, the
    address of the next free page ([struct run]); [kmem.freelist] is
    [k_freelist]. *)

From stdpp Require Import options.
From S2P Require Import Prelude CString State Sched.
#[local] Open Scope Z_scope.

(** ** Operations *)

Definition kfree (pa : Z) : K unit :=
  e ← gets (λ s, ly_end (k_ly s));
  if negb (pa mod PGSIZE =? 0) || (pa <? e) || (PHYSTOP <=? pa) then panic "kfree" else
  (* Fill with junk to catch dangling refs. *)
  modify (λ s, set_k_mem (memset (k_mem s) pa 1 PGSIZE) s);;
  acquire LK_kmem;;
  (* r->next = kmem.freelist; kmem.freelist = r; *)
  modify (λ s, set_k_mem (store64 (k_mem s) pa (k_freelist s)) s);;
  modify (set_k_freelist pa);;
  release LK_kmem.

Definition kalloc : K Z :=
  acquire LK_kmem;;
  r ← gets k_freelist;
  when (negb (r =? 0)) (modify (λ s, set_k_freelist (load64 (k_mem s) r) s));;
  release LK_kmem;;
  when (negb (r =? 0)) (modify (λ s, set_k_mem (memset (k_mem s) r 5 PGSIZE) s));;
  mret r.

(** The loop [for(; p + PGSIZE <= pa_end; p += PGSIZE) kfree(p)] makes
    [(pa_end - p) / PGSIZE] iterations. *)
Fixpoint freerange_loop (n : nat) (p : Z) : K unit :=
  match n with
  | O => mret ()
  | S n => kfree p;; freerange_loop n (p + PGSIZE)
  end.
Definition freerange (pa_start pa_end : Z) : K unit :=
  let p := PGROUNDUP pa_start in
  freerange_loop (Z.to_nat ((pa_end - p) / PGSIZE)) p.
Definition kinit : K unit :=
  e ← gets (λ s, ly_end (k_ly s));
  freerange e PHYSTOP.

(** ** The invariant *)

(** A page the allocator may own. *)
Definition page_ok (e p : Z) : Prop :=
  p mod PGSIZE = 0 ∧ e ≤ p < PHYSTOP ∧ KERNBASE ≤ e.
(** Bytes of a page. *)
Definition in_page (p a : Z) : Prop := p ≤ a < p + PGSIZE.

(** The free list starting at [h] consists of the pages [l]. *)
Fixpoint flist (m : mem) (h : Z) (l : list Z) : Prop :=
  match l with
  | [] => h = 0
  | p :: l => h = p ∧ flist m (load64 m p) l
  end.

(** The allocator is well formed and its free pages are [l]. *)
Record kmem_inv (s : kst) (l : list Z) : Prop := {
  km_list : flist (k_mem s) (k_freelist s) l;
  km_nodup : NoDup l;
  km_pages : Forall (page_ok (ly_end (k_ly s))) l;
  km_mem : mem_ok (k_mem s);
}.

Lemma page_ok_range e p : page_ok e p → 0 < p < 2 ^ 64 ∧ p + PGSIZE ≤ PHYSTOP.
Proof.
  intros (H1 & H2 & H3). unfold PHYSTOP, KERNBASE, PGSIZE in *.
  apply Z.mod_divide in H1 as [k Hk]; [|lia]. lia.
Qed.

Lemma pages_disjoint p q a :
  p mod PGSIZE = 0 → q mod PGSIZE = 0 → p ≠ q → in_page p a → ¬ in_page q a.
Proof.
  unfold in_page, PGSIZE. intros Hp Hq Hne H1 H2.
  apply Z.mod_divide in Hp as [k Hk]; [|lia].
  apply Z.mod_divide in Hq as [j Hj]; [|lia]. lia.
Qed.

(** Only the first words of the free pages matter. *)
Lemma flist_frame m m' h l :
  (∀ p a, p ∈ l → in_page p a → rd m a = rd m' a) → flist m h l → flist m' h l.
Proof.
  revert h; induction l as [|p l IH]; intros h Heq; simpl; [done|].
  intros [-> Hl]. split; [done|].
  rewrite <- (load64_ext m m').
  - apply IH; [|done]. intros q a Hq. apply Heq. set_solver.
  - intros x Hx. apply (Heq p); [set_solver|]. unfold in_page, PGSIZE. lia.
Qed.

Lemma flist_store m p v h l :
  p mod PGSIZE = 0 → Forall (λ q, q mod PGSIZE = 0) l → p ∉ l →
  (∀ a, ¬ in_page p a → rd v a = rd m a) →
  flist m h l → flist v h l.
Proof.
  intros Hp Hl Hni Hv. apply flist_frame. intros q a Hq Ha. symmetry. apply Hv.
  rewrite Forall_forall in Hl. apply (pages_disjoint q p); try done; [by apply Hl|].

  by intros ->.
Qed.

Lemma kmem_aligned s l : kmem_inv s l → Forall (λ q, q mod PGSIZE = 0) l.
Proof.
  intros H. eapply Forall_impl; [apply (km_pages _ _ H)|]. by intros q (? & _).
Qed.

(** ** Specifications *)

(** The state after [kalloc] took page [p]. *)
Definition kalloc_post (p : Z) (s : kst) : kst :=
  set_k_mem (memset (k_mem s) p 5 PGSIZE)
    (set_k_freelist (load64 (k_mem s) p) s).
Definition kfree_post (p : Z) (s : kst) : kst :=
  set_k_freelist p
    (set_k_mem (store64 (memset (k_mem s) p 1 PGSIZE) p (k_freelist s)) s).

Lemma kalloc_none s :
  LK_kmem ∉ k_held s → k_freelist s = 0 → kalloc s = Ok 0 s.
Proof.
  intros Hh Hf. unfold kalloc. rewrite bind_acquire by done. mstep.
  simpl k_freelist. rewrite Hf. cbn [negb Z.eqb when]. mstep.
  rewrite (bind_release _ (k_held s)) by done. mstep. f_equal. by kst_eq.
Qed.

Lemma kalloc_some s p :
  LK_kmem ∉ k_held s → k_freelist s = p → p ≠ 0 →
  kalloc s = Ok p (kalloc_post p s).
Proof.
  intros Hh <- Hp. unfold kalloc. rewrite bind_acquire by done. mstep.
  simpl k_freelist. rewrite (proj2 (Z.eqb_neq _ _) Hp). cbn [negb when]. mstep.
  rewrite (bind_release _ (k_held s)) by done. mstep. f_equal.
Qed.

Lemma kalloc_inv s p l :
  kmem_inv s (p :: l) → kmem_inv (kalloc_post p s) l ∧ p ∉ l ∧
    page_ok (ly_end (k_ly s)) p ∧ p ≠ 0 ∧
    (∀ a, ¬ in_page p a → rd (k_mem (kalloc_post p s)) a = rd (k_mem s) a).
Proof.
  intros H. pose proof H as [[Hf Hl] Hnd Hpg Hm].
  apply NoDup_cons in Hnd as [Hni Hnd]. apply Forall_cons in Hpg as [Hp Hpg].
  assert (∀ a, ¬ in_page p a → rd (memset (k_mem s) p 5 PGSIZE) a = rd (k_mem s) a) as Hfr.
  { intros a Ha. rewrite rd_memset by (unfold PGSIZE; lia).
    rewrite decide_False; [done|]. apply Ha. }
  split; [|split; [done|split; [done|split]]].
  - split; [|exact Hnd|exact Hpg|by apply mem_ok_memset].
    apply (flist_store (k_mem s) p); [apply Hp| |exact Hni|exact Hfr|exact Hl].
    apply kmem_aligned in H. by apply Forall_cons in H as [_ ?].
  - apply page_ok_range in Hp. lia.
  - exact Hfr.
Qed.

Lemma kfree_Ok s p :
  LK_kmem ∉ k_held s → page_ok (ly_end (k_ly s)) p → kfree p s = Ok () (kfree_post p s).
Proof.
  intros Hh (Hp1 & Hp2 & Hp3). unfold kfree. mstep. rewrite Hp1. cbn [Z.eqb negb orb].
  destruct (Z.ltb_spec p (ly_end (k_ly s))); [lia|].
  destruct (Z.leb_spec PHYSTOP p); [lia|]. cbn [orb]. mstep.
  rewrite bind_acquire by done. mstep.
  rewrite (release_top _ (k_held s)) by done. f_equal.
Qed.

Lemma kfree_bad s p :
  p mod PGSIZE ≠ 0 ∨ p < ly_end (k_ly s) ∨ PHYSTOP ≤ p → kfree p s = Panic "kfree".
Proof.
  intros H. unfold kfree. mstep.
  destruct (Z.eqb_spec (p mod PGSIZE) 0), (Z.ltb_spec p (ly_end (k_ly s))),
    (Z.leb_spec PHYSTOP p); simpl; try done. lia.
Qed.

Lemma kfree_frame s p a :
  ¬ in_page p a → rd (k_mem (kfree_post p s)) a = rd (k_mem s) a.
Proof.
  intros Ha. unfold kfree_post; simpl. rewrite rd_store64_out.
  - rewrite rd_memset by (unfold PGSIZE; lia). by rewrite decide_False.
  - unfold in_page, PGSIZE in Ha. lia.
Qed.

Lemma flist_head_range m h l e :
  flist m h l → Forall (page_ok e) l → 0 ≤ h < 2 ^ 64.
Proof.
  destruct l as [|p l]; simpl; [lia|]. intros [-> _] Hl.
  apply Forall_cons in Hl as [Hp _]. apply page_ok_range in Hp. lia.
Qed.

Lemma kfree_inv s p l :
  kmem_inv s l → page_ok (ly_end (k_ly s)) p → p ∉ l →
  kmem_inv (kfree_post p s) (p :: l).
Proof.
  intros H Hp Hni. pose proof H as [Hl Hnd Hpg Hm]. split; simpl.
  - split; [done|]. rewrite load64_store64 by (by eapply flist_head_range).
    apply (flist_store (k_mem s) p);
      [apply Hp|by eapply kmem_aligned|exact Hni|exact (kfree_frame s p)|exact Hl].
  - by constructor.
  - by constructor.
  - by apply mem_ok_store64, mem_ok_memset.
Qed.

(** ** Boot *)

(** [n] pages from [p] up, the highest first. *)
Fixpoint pages_from (n : nat) (p : Z) (acc : list Z) : list Z :=
  match n with
  | O => acc
  | S n => pages_from n (p + PGSIZE) (p :: acc)
  end.

Lemma elem_of_pages_from n p acc q :
  q ∈ pages_from n p acc ↔
  q ∈ acc ∨ ∃ i : nat, (i < n)%nat ∧ q = p + Z.of_nat i * PGSIZE.
Proof.
  revert p acc; induction n as [|n IH]; intros p acc; simpl.
  - naive_solver lia.
  - rewrite IH, elem_of_cons. split.
    + intros [[->|?]|(i & Hi & ->)]; [right; exists O; lia|by left|].
      right. exists (S i). lia.
    + intros [?|(i & Hi & ->)]; [by left; right|].
      destruct i; [left; left; lia|right; exists i; lia].
Qed.

Lemma freerange_loop_inv n p s l :
  LK_kmem ∉ k_held s → kmem_inv s l →
  p mod PGSIZE = 0 → ly_end (k_ly s) ≤ p → KERNBASE ≤ ly_end (k_ly s) →
  p + Z.of_nat n * PGSIZE ≤ PHYSTOP →
  (∀ q, q ∈ l → q < p) →
  wp (freerange_loop n p) (λ _ s',
    kmem_inv s' (pages_from n p l) ∧ k_held s' = k_held s ∧ k_ly s' = k_ly s) s.
Proof.
  revert p s l; induction n as [|n IH]; intros p s l Hh HI Hp1 Hp2 Hk Hend Hlt; simpl.
  - by apply wp_ret.
  - assert (page_ok (ly_end (k_ly s)) p) as Hpo.
    { split; [done|]. unfold PGSIZE in *. lia. }
    apply wp_bind. eapply wp_Ok; [by apply kfree_Ok|].
    eapply wp_mono; [apply (IH (p + PGSIZE) _ (p :: l))|].
    + done.
    + apply kfree_inv; try done. intros Hin. specialize (Hlt _ Hin). lia.
    + rewrite <- Zplus_mod_idemp_l, Hp1. done.
    + simpl. unfold PGSIZE in *. lia.
    + done.
    + lia.
    + intros q [->|Hq]%elem_of_cons; unfold PGSIZE; [lia|]. specialize (Hlt _ Hq). lia.
    + simpl. auto.
Qed.

Lemma land_not_mask x :
  0 ≤ x < 2 ^ 64 → Z.land x (u64 (Z.lnot (PGSIZE - 1))) = x - x mod PGSIZE.
Proof.
  intros Hx. unfold PGSIZE.
  replace (u64 (Z.lnot (4096 - 1))) with (Z.shiftl (Z.ones 52) 12) by reflexivity.
  replace (x - x mod 4096) with (Z.shiftl (Z.shiftr x 12) 12).
  2:{ rewrite Z.shiftl_mul_pow2, Z.shiftr_div_pow2 by lia.
      change (2 ^ 12) with 4096. pose proof (Z.div_mod x 4096). lia. }
  apply Z.bits_inj'. intros n Hn. rewrite Z.land_spec.
  destruct (decide (n < 12)).
  - rewrite !Z.shiftl_spec_low by lia. by rewrite andb_false_r.
  - rewrite !Z.shiftl_spec, Z.shiftr_spec by lia. replace (n - 12 + 12) with n by lia.
    destruct (decide (n < 64)).
    + rewrite Z.ones_spec_low by lia. by rewrite andb_true_r.
    + rewrite Z.ones_spec_high by lia. rewrite andb_false_r.
      symmetry. apply Z.bits_above_log2; [lia|].
      destruct (decide (x = 0)) as [->|]; [simpl; lia|].
      apply Z.log2_lt_pow2; [lia|].
      assert (2 ^ 64 ≤ 2 ^ n) by (apply Z.pow_le_mono_r; lia). lia.
Qed.
Lemma PGROUNDDOWN_eq x : 0 ≤ x < 2 ^ 64 → PGROUNDDOWN x = x - x mod PGSIZE.
Proof. apply land_not_mask. Qed.
Lemma PGROUNDUP_eq x :
  0 ≤ x < 2 ^ 64 - PGSIZE →
  PGROUNDUP x = (x + PGSIZE - 1) - (x + PGSIZE - 1) mod PGSIZE.
Proof.
  intros Hx. unfold PGROUNDUP. unfold PGSIZE in *.
  rewrite (u64_id (x + 4096 - 1)) by lia. apply land_not_mask. lia.
Qed.
Lemma PGROUNDUP_bounds x :
  0 ≤ x < 2 ^ 64 - PGSIZE →
  PGROUNDUP x mod PGSIZE = 0 ∧ x ≤ PGROUNDUP x < x + PGSIZE.
Proof.
  intros Hx. rewrite PGROUNDUP_eq by done. unfold PGSIZE in *.
  pose proof (Z.mod_pos_bound (x + 4096 - 1) 4096).
  split; [|lia]. rewrite Zminus_mod_idemp_r.
  rewrite Z.sub_diag. done.
Qed.

(** ** Properties *)

(** [kalloc] takes the head of the free list: the page it returns is a valid,
    aligned page that is no longer free, is filled with 5s, and no byte
    outside it changes; with no free page it returns 0 and changes nothing. *)
Theorem kalloc_spec s l :
  kmem_inv s l → LK_kmem ∉ k_held s →
  match l with
  | [] => kalloc s = Ok 0 s
  | p :: l' => ∃ s', kalloc s = Ok p s' ∧ kmem_inv s' l' ∧ p ∉ l' ∧ p ≠ 0 ∧
      page_ok (ly_end (k_ly s)) p ∧ k_held s' = k_held s ∧
      (∀ a, in_page p a → rd (k_mem s') a = 5) ∧
      (∀ a, ¬ in_page p a → rd (k_mem s') a = rd (k_mem s) a)
  end.
Proof.
  intros HI Hh. destruct l as [|p l].
  - apply kalloc_none; [done|]. apply (km_list _ _ HI).
  - pose proof (kalloc_inv _ _ _ HI) as (H1 & H2 & H3 & H4 & H5).
    eexists. split; [apply kalloc_some; try done; apply (km_list _ _ HI)|].
    split; [done|]. split; [done|]. split; [done|]. split; [done|].
    split; [done|]. split; [|done].
    intros a Ha. simpl. rewrite rd_memset by (unfold PGSIZE; lia).
    by rewrite decide_True.
Qed.

(** [kfree] of a valid page that is not free puts it at the head of the free
    list and keeps the allocator well formed; an unaligned address or one
    outside the allocator's memory panics. *)
Theorem kfree_spec s l p :
  kmem_inv s l → LK_kmem ∉ k_held s → p ∉ l → KERNBASE ≤ ly_end (k_ly s) →
  if decide (p mod PGSIZE = 0 ∧ ly_end (k_ly s) ≤ p < PHYSTOP)
  then ∃ s', kfree p s = Ok () s' ∧ kmem_inv s' (p :: l) ∧ k_held s' = k_held s ∧
      (∀ a, ¬ in_page p a → rd (k_mem s') a = rd (k_mem s) a)
  else kfree p s = Panic "kfree".
Proof.
  intros HI Hh Hni Hk. case_decide as Hp.
  - assert (page_ok (ly_end (k_ly s)) p) as Hpo by (split; [apply Hp|split; [apply Hp|done]]).
    eexists. split; [by apply kfree_Ok|]. split; [by apply kfree_inv|].
    split; [done|]. intros a Ha. by apply kfree_frame.
  - apply kfree_bad. lia.
Qed.

Lemma kmem_inv_boot s : k_mem s = ∅ → k_freelist s = 0 → kmem_inv s [].
Proof.
  intros Hm Hf. split; simpl; [done|constructor|constructor|].
  rewrite Hm. apply mem_ok_empty.
Qed.

(** After [kinit] the allocator is well formed and owns exactly the whole
    pages between the end of the kernel and [PHYSTOP]. *)
Theorem kinit_spec s :
  k_mem s = ∅ → k_freelist s = 0 → LK_kmem ∉ k_held s →
  KERNBASE ≤ ly_end (k_ly s) ≤ PHYSTOP - PGSIZE →
  ∃ s' l, kinit s = Ok () s' ∧ kmem_inv s' l ∧ k_held s' = k_held s ∧
    ∀ p, p ∈ l ↔ p mod PGSIZE = 0 ∧ ly_end (k_ly s) ≤ p ∧ p + PGSIZE ≤ PHYSTOP.
Proof.
  intros Hm Hf Hh Hk. unfold kinit. mstep. unfold freerange.
  assert (0 ≤ ly_end (k_ly s) < 2 ^ 64 - PGSIZE) as He.
  { unfold PHYSTOP, KERNBASE, PGSIZE in *. lia. }
  pose proof (PGROUNDUP_bounds _ He) as [Hal Hb].
  set (p0 := PGROUNDUP (ly_end (k_ly s))) in *.
  set (n := Z.to_nat ((PHYSTOP - p0) / PGSIZE)).
  assert (Z.of_nat n = (PHYSTOP - p0) / PGSIZE) as Hn.
  { unfold n. rewrite Z2Nat.id; [done|]. apply Z.div_pos; unfold PGSIZE in *; lia. }
  assert ((PHYSTOP - p0) mod PGSIZE = 0) as Hd.
  { rewrite <- Zminus_mod_idemp_r, Hal. reflexivity. }
  assert (PHYSTOP - p0 = PGSIZE * Z.of_nat n) as Hn'.
  { rewrite Hn. pose proof (Z.div_mod (PHYSTOP - p0) PGSIZE). unfold PGSIZE in *. lia. }
  destruct (wp_inv _ _ _ (freerange_loop_inv n p0 s [] Hh (kmem_inv_boot s Hm Hf)
    Hal ltac:(lia) ltac:(lia) ltac:(lia) ltac:(set_solver)))
    as ([] & s' & E & HI & Hh' & _).
  exists s', (pages_from n p0 []). split; [done|]. split; [done|]. split; [done|].
  intros p. rewrite elem_of_pages_from. unfold PGSIZE in *. split.
  - intros [?|(i & Hi & ->)]; [set_solver|].
    split; [rewrite Z.mod_add by lia; done|]. lia.
  - intros (H1 & H2 & H3). right.
    apply Z.mod_divide in H1 as [k Hk1]; [|lia].
    apply Z.mod_divide in Hal as [j Hj]; [|lia].
    exists (Z.to_nat (k - j)). lia.
Qed.
Lemma kinit_spec_witness :
  ∃ s' l, kinit kst0 = Ok () s' ∧ kmem_inv s' l ∧ 0x80022000 ∈ l.
Proof.
  destruct (kinit_spec kst0 eq_refl eq_refl ltac:(simpl; set_solver)
    ltac:(split; apply Z.leb_le; reflexivity)) as (s' & l & E & HI & _ & Hl).
  exists s', l. split; [exact E|]. split; [exact HI|].
  apply Hl. split; [reflexivity|]. split; apply Z.leb_le; reflexivity.
Defined.

(** Two free pages. *)
Definition kst_two_pages : kst :=
  set_k_freelist 0x80022000
    (set_k_mem (store64 (store64 ∅ 0x80022000 0x80023000) 0x80023000 0) kst0).
Lemma kst_two_pages_inv : kmem_inv kst_two_pages [0x80022000; 0x80023000].
Proof.
  split.
  - vm_compute. done.
  - repeat constructor; set_solver.
  - repeat constructor; vm_compute; done.
  - apply mem_ok_store64, mem_ok_store64, mem_ok_empty.
Qed.
Lemma kalloc_spec_witness :
  ∃ s', kalloc kst_two_pages = Ok 0x80022000 s' ∧ kmem_inv s' [0x80023000].
Proof.
  destruct (kalloc_spec _ _ kst_two_pages_inv ltac:(simpl; set_solver))
    as (s' & E & HI & _).
  exists s'. split; [exact E|exact HI].
Defined.
Lemma kfree_spec_witness :
  ∃ s', kfree 0x80024000 kst_two_pages = Ok () s' ∧
    kmem_inv s' [0x80024000; 0x80022000; 0x80023000].
Proof.
  pose proof (kfree_spec _ _ 0x80024000 kst_two_pages_inv ltac:(simpl; set_solver)
    ltac:(set_solver) ltac:(apply Z.leb_le; reflexivity)) as H.
  rewrite decide_True in H
    by (split; [reflexivity|split; [apply Z.leb_le|apply Z.ltb_lt]; reflexivity]).
  destruct H as (s' & E & HI & _). exists s'. split; [exact E|exact HI].
Defined.
