(* ===== verification/Vm.v ===== *)
(** * Virtual memory: operations

    [kernel/vm.c].  Page tables live in the kernel's memory: a page-table
    page is 512 little-endian 64-bit entries.  A [pagetable_t] and a [pte_t *]
    are physical addresses; 0 is the null pointer. *)

From stdpp Require Import options.
From S2P Require Import Prelude CString State Sched Kalloc.
#[local] Open Scope Z_scope.

Definition UART0 : Z := 0x10000000.
Definition VIRTIO0 : Z := 0x10001000.
Definition PLIC : Z := 0x0c000000.

(** [*pte] and [*pte = v]. *)
Definition ld64 (a : Z) : K Z := gets (λ s, load64 (k_mem s) a).
Definition st64 (a v : Z) : K unit := modify (λ s, set_k_mem (store64 (k_mem s) a v) s).
Definition kmemset (a c n : Z) : K unit :=
  modify (λ s, set_k_mem (memset (k_mem s) a c n) s).
Definition kmemmove (d a n : Z) : K unit :=
  modify (λ s, set_k_mem (memmove (k_mem s) d a n) s).

Definition has (f pte : Z) : bool := negb (Z.land pte f =? 0).

(** ** walk *)

(** The loop of [walk] from [level] down to 1, then [&pagetable[PX(0, va)]]. *)
Fixpoint walk_loop (level : nat) (pagetable va : Z) (alloc : bool) : K Z :=
  match level with
  | O => mret (pagetable + 8 * PX 0 va)
  | S l =>
    let pte := pagetable + 8 * PX (Z.of_nat level) va in
    v ← ld64 pte;
    if has PTE_V v then walk_loop l (PTE2PA v) va alloc
    else if negb alloc then mret 0
    else
      pt ← kalloc;
      if pt =? 0 then mret 0
      else
        kmemset pt 0 PGSIZE;;
        st64 pte (Z.lor (PA2PTE pt) PTE_V);;
        walk_loop l pt va alloc
  end.
Definition walk (pagetable va : Z) (alloc : bool) : K Z :=
  if MAXVA <=? va then panic "walk" else walk_loop 2 pagetable va alloc.

Definition walkaddr (pagetable va : Z) : K Z :=
  if MAXVA <=? va then mret 0 else
  pte ← walk pagetable va false;
  if pte =? 0 then mret 0 else
  v ← ld64 pte;
  if negb (has PTE_V v) then mret 0
  else if negb (has PTE_U v) then mret 0
  else mret (PTE2PA v).

(** ** mappages and uvmunmap *)

(** [for(;;)] of [mappages].  It stops at [last], or panics in [walk] when [a]
    passes [MAXVA]; [mappages] gives it one unit of fuel per page. *)
Fixpoint mappages_loop (fuel : nat) (pagetable a last pa perm : Z) : K Z :=
  match fuel with
  | O => λ _, NoFuel
  | S fuel =>
    pte ← walk pagetable a true;
    if pte =? 0 then mret (-1) else
    v ← ld64 pte;
    if has PTE_V v then panic "mappages: remap" else
    st64 pte (Z.lor (Z.lor (PA2PTE pa) perm) PTE_V);;
    if a =? last then mret 0
    else mappages_loop fuel pagetable (u64 (a + PGSIZE)) last (u64 (pa + PGSIZE)) perm
  end.
Definition mappages (pagetable va size pa perm : Z) : K Z :=
  if size =? 0 then panic "mappages: size" else
  let a := PGROUNDDOWN va in
  let last := PGROUNDDOWN (u64 (va + size - 1)) in
  let fuel := S (Z.to_nat (Z.min (u64 (last - a) / PGSIZE) (MAXVA / PGSIZE))) in
  mappages_loop fuel pagetable a last pa perm.

Definition kvmmap (kpgtbl va pa sz perm : Z) : K unit :=
  r ← mappages kpgtbl va sz pa perm;
  if negb (r =? 0) then panic "kvmmap" else mret ().

Fixpoint uvmunmap_loop (n : nat) (pagetable a : Z) (do_free : bool) : K unit :=
  match n with
  | O => mret ()
  | S n =>
    pte ← walk pagetable a false;
    if pte =? 0 then panic "uvmunmap: walk" else
    v ← ld64 pte;
    if negb (has PTE_V v) then panic "uvmunmap: not mapped" else
    if PTE_FLAGS v =? PTE_V then panic "uvmunmap: not a leaf" else
    when do_free (kfree (PTE2PA v));;
    st64 pte 0;;
    uvmunmap_loop n pagetable (a + PGSIZE) do_free
  end.
(** [va] is aligned, so [a < va + npages*PGSIZE] (computed modulo 2^64) lets
    the loop run once per page between the two. *)
Definition uvmunmap (pagetable va npages : Z) (do_free : bool) : K unit :=
  if negb (va mod PGSIZE =? 0) then panic "uvmunmap: not aligned" else
  let last := u64 (va + u64 (npages * PGSIZE)) in
  uvmunmap_loop (Z.to_nat ((last - va) / PGSIZE)) pagetable va do_free.

Definition uvmcreate : K Z :=
  pagetable ← kalloc;
  if pagetable =? 0 then mret 0 else
  kmemset pagetable 0 PGSIZE;;
  mret pagetable.

(** [src] is the bytes of [initcode]. *)
Definition uvminit (pagetable : Z) (src : list Z) : K unit :=
  let sz := Z.of_nat (length src) in
  if PGSIZE <=? sz then panic "inituvm: more than a page" else
  mem ← kalloc;
  kmemset mem 0 PGSIZE;;
  mappages pagetable 0 PGSIZE mem
    (Z.lor (Z.lor (Z.lor PTE_W PTE_R) PTE_X) PTE_U);;
  modify (λ s, set_k_mem (wr_bytes (k_mem s) mem src) s).

(** ** Growing, shrinking, freeing and copying an address space *)

Definition uvmdealloc (pagetable oldsz newsz : Z) : K Z :=
  if oldsz <=? newsz then mret oldsz else
  when (PGROUNDUP newsz <? PGROUNDUP oldsz)
    (let npages := i32 (u64 (PGROUNDUP oldsz - PGROUNDUP newsz) / PGSIZE) in
     uvmunmap pagetable (PGROUNDUP newsz) (u64 npages) true);;
  mret newsz.

(** Pages from [a] up to [newsz]: the iterations of
    [for(a = oldsz; a < newsz; a += PGSIZE)]. *)
Definition npages_to (a newsz : Z) : nat :=
  Z.to_nat ((newsz - a + PGSIZE - 1) / PGSIZE).

Fixpoint uvmalloc_loop (n : nat) (pagetable a oldsz newsz : Z) : K Z :=
  match n with
  | O => mret newsz
  | S n =>
    mem ← kalloc;
    if mem =? 0 then uvmdealloc pagetable a oldsz;; mret 0 else
    kmemset mem 0 PGSIZE;;
    r ← mappages pagetable a PGSIZE mem
          (Z.lor (Z.lor (Z.lor PTE_W PTE_X) PTE_R) PTE_U);
    if negb (r =? 0) then
      kfree mem;; uvmdealloc pagetable a oldsz;; mret 0
    else uvmalloc_loop n pagetable (a + PGSIZE) oldsz newsz
  end.
Definition uvmalloc (pagetable oldsz newsz : Z) : K Z :=
  if newsz <? oldsz then mret oldsz else
  let oldsz := PGROUNDUP oldsz in
  uvmalloc_loop (npages_to oldsz newsz) pagetable oldsz oldsz newsz.

(** [freewalk]; [fuel] bounds the depth of the recursion (3 for Sv39). *)
Fixpoint freewalk (fuel : nat) (pagetable : Z) : K unit :=
  match fuel with
  | O => λ _, NoFuel
  | S fuel =>
    mfor 512 0 (λ i,
      let a := pagetable + 8 * i in
      pte ← ld64 a;
      if has PTE_V pte && (Z.land pte (Z.lor (Z.lor PTE_R PTE_W) PTE_X) =? 0) then
        freewalk fuel (PTE2PA pte);;
        st64 a 0
      else if has PTE_V pte then panic "freewalk: leaf"
      else mret ());;
    kfree pagetable
  end.

Definition uvmfree (pagetable sz : Z) : K unit :=
  when (0 <? sz) (uvmunmap pagetable 0 (PGROUNDUP sz / PGSIZE) true);;
  freewalk 3 pagetable.

Fixpoint uvmcopy_loop (n : nat) (old new i : Z) : K Z :=
  match n with
  | O => mret 0
  | S n =>
    pte ← walk old i false;
    if pte =? 0 then panic "uvmcopy: pte should exist" else
    v ← ld64 pte;
    if negb (has PTE_V v) then panic "uvmcopy: page not present" else
    let pa := PTE2PA v in
    let flags := PTE_FLAGS v in
    mem ← kalloc;
    if mem =? 0 then uvmunmap new 0 (i / PGSIZE) true;; mret (-1) else
    kmemmove mem pa PGSIZE;;
    r ← mappages new i PGSIZE mem flags;
    if negb (r =? 0) then
      kfree mem;; uvmunmap new 0 (i / PGSIZE) true;; mret (-1)
    else uvmcopy_loop n old new (i + PGSIZE)
  end.
Definition uvmcopy (old new sz : Z) : K Z := uvmcopy_loop (npages_to 0 sz) old new 0.

Definition uvmclear (pagetable va : Z) : K unit :=
  pte ← walk pagetable va false;
  if pte =? 0 then panic "uvmclear" else
  v ← ld64 pte;
  st64 pte (Z.land v (u64 (Z.lnot PTE_U))).

(** ** Copying between user and kernel memory *)

(** Iterations a copy of [len] bytes can take: it stops at the first page
    beyond [MAXVA] at the latest. *)
Definition copy_fuel (len : Z) : nat :=
  S (S (S (Z.to_nat (Z.min (len / PGSIZE) (MAXVA / PGSIZE))))).

Fixpoint copyout_loop (fuel : nat) (pagetable dstva src len : Z) : K Z :=
  match fuel with
  | O => λ _, NoFuel
  | S fuel =>
    if len <=? 0 then mret 0 else
    let va0 := PGROUNDDOWN dstva in
    pa0 ← walkaddr pagetable va0;
    if pa0 =? 0 then mret (-1) else
    let n := Z.min (PGSIZE - (dstva - va0)) len in
    kmemmove (pa0 + (dstva - va0)) src n;;
    copyout_loop fuel pagetable (u64 (va0 + PGSIZE)) (src + n) (len - n)
  end.
Definition copyout (pagetable dstva src len : Z) : K Z :=
  copyout_loop (copy_fuel len) pagetable dstva src len.

Fixpoint copyin_loop (fuel : nat) (pagetable dst srcva len : Z) : K Z :=
  match fuel with
  | O => λ _, NoFuel
  | S fuel =>
    if len <=? 0 then mret 0 else
    let va0 := PGROUNDDOWN srcva in
    pa0 ← walkaddr pagetable va0;
    if pa0 =? 0 then mret (-1) else
    let n := Z.min (PGSIZE - (srcva - va0)) len in
    kmemmove dst (pa0 + (srcva - va0)) n;;
    copyin_loop fuel pagetable (dst + n) (u64 (va0 + PGSIZE)) (len - n)
  end.
Definition copyin (pagetable dst srcva len : Z) : K Z :=
  copyin_loop (copy_fuel len) pagetable dst srcva len.

(** The inner loop of [copyinstr]: copies up to [n] bytes; [true] when it
    met the terminator. *)
Fixpoint copyinstr_page (n : nat) (dst p : Z) : K bool :=
  match n with
  | O => mret false
  | S n =>
    c ← gets (λ s, rd (k_mem s) p);
    if c =? 0 then modify (λ s, set_k_mem (wr dst 0 (k_mem s)) s);; mret true
    else
      modify (λ s, set_k_mem (wr dst c (k_mem s)) s);;
      copyinstr_page n (dst + 1) (p + 1)
  end.
Fixpoint copyinstr_loop (fuel : nat) (pagetable dst srcva max : Z) : K Z :=
  match fuel with
  | O => λ _, NoFuel
  | S fuel =>
    if max <=? 0 then mret (-1) else
    let va0 := PGROUNDDOWN srcva in
    pa0 ← walkaddr pagetable va0;
    if pa0 =? 0 then mret (-1) else
    let n := Z.min (PGSIZE - (srcva - va0)) max in
    got_null ← copyinstr_page (Z.to_nat n) dst (pa0 + (srcva - va0));
    if got_null : bool then mret 0
    else copyinstr_loop fuel pagetable (dst + n) (u64 (va0 + PGSIZE)) (max - n)
  end.
Definition copyinstr (pagetable dst srcva max : Z) : K Z :=
  copyinstr_loop (copy_fuel max) pagetable dst srcva max.

(** ** The kernel's page table *)

(** [proc_mapstacks] of [kernel/proc.c]. *)
Definition proc_mapstacks (kpgtbl : Z) : K unit :=
  mfor NPROC 0 (λ i,
    pa ← kalloc;
    if pa =? 0 then panic "kalloc" else
    kvmmap kpgtbl (KSTACK i) pa PGSIZE (Z.lor PTE_R PTE_W)).

Definition kvmmake : K Z :=
  ly ← gets k_ly;
  kpgtbl ← kalloc;
  kmemset kpgtbl 0 PGSIZE;;
  kvmmap kpgtbl UART0 UART0 PGSIZE (Z.lor PTE_R PTE_W);;
  kvmmap kpgtbl VIRTIO0 VIRTIO0 PGSIZE (Z.lor PTE_R PTE_W);;
  kvmmap kpgtbl PLIC PLIC 0x400000 (Z.lor PTE_R PTE_W);;
  kvmmap kpgtbl KERNBASE KERNBASE (ly_etext ly - KERNBASE) (Z.lor PTE_R PTE_X);;
  kvmmap kpgtbl (ly_etext ly) (ly_etext ly) (PHYSTOP - ly_etext ly) (Z.lor PTE_R PTE_W);;
  kvmmap kpgtbl TRAMPOLINE (ly_trampoline ly) PGSIZE (Z.lor PTE_R PTE_X);;
  proc_mapstacks kpgtbl;;
  mret kpgtbl.
Definition kvminit : K unit :=
  kpgtbl ← kvmmake;
  modify (set_k_kpgtbl kpgtbl).
