(* ===== verification/PageTable.v ===== *)
(** * Page tables as trees

    The tree of pages a three-level page table reaches through valid
    entries, addressed by paths of indices: the root is [[]], a level-1 table
    [[i]], a level-0 table [[i;j]] and a mapped page [[i;j;k]].  [as_wf] says
    that an address space owns each of its pages once and shares none with
    the allocator's free list. *)

From stdpp Require Import options.
From S2P Require Import Prelude CString State Kalloc Vm.
#[local] Open Scope Z_scope.

(** ** Page-table entries *)

Definition pte_mk (pa perm : Z) : Z := Z.lor (Z.lor (PA2PTE pa) perm) PTE_V.

Lemma has_V_testbit v : has PTE_V v = Z.testbit v 0.
Proof.
  unfold has. change PTE_V with (Z.ones 1). rewrite Z.land_ones by lia.
  change (2 ^ 1) with 2. rewrite <- Z.bit0_mod. by destruct (Z.testbit v 0).
Qed.

Lemma shiftr_small x n : 0 ≤ n → 0 ≤ x < 2 ^ n → Z.shiftr x n = 0.
Proof. intros. rewrite Z.shiftr_div_pow2 by done. by apply Z.div_small. Qed.

Lemma lor_range n a b :
  0 ≤ n → 0 ≤ a < 2 ^ n → 0 ≤ b < 2 ^ n → 0 ≤ Z.lor a b < 2 ^ n.
Proof.
  intros Hn Ha Hb. assert (0 ≤ Z.lor a b) as H by (apply Z.lor_nonneg; lia).
  split; [done|]. assert (Z.shiftr (Z.lor a b) n = 0) as E.
  { rewrite Z.shiftr_lor, !shiftr_small by done. done. }
  rewrite Z.shiftr_div_pow2 in E by done. apply Z.div_small_iff in E; lia.
Qed.

Lemma PA2PTE_eq k : 0 ≤ k < 2 ^ 44 → PA2PTE (k * PGSIZE) = Z.shiftl k 10.
Proof.
  intros Hk. unfold PA2PTE, PGSIZE.
  rewrite Z.shiftr_div_pow2 by lia. change (2 ^ 12) with 4096.
  rewrite Z.div_mul by lia. apply u64_id.
  rewrite Z.shiftl_mul_pow2 by lia. lia.
Qed.

Lemma pte_mk_spec pa perm :
  pa mod PGSIZE = 0 → 0 ≤ pa < 2 ^ 56 → 0 ≤ perm < 1024 →
  0 ≤ pte_mk pa perm < 2 ^ 64 ∧ has PTE_V (pte_mk pa perm) = true ∧
  PTE2PA (pte_mk pa perm) = pa ∧ PTE_FLAGS (pte_mk pa perm) = Z.lor perm PTE_V.
Proof.
  intros Hal Hpa Hperm.
  apply Z.mod_divide in Hal as [k ->]; [|unfold PGSIZE; lia].
  assert (0 ≤ k < 2 ^ 44) as Hk by (unfold PGSIZE in Hpa; lia).
  unfold pte_mk. rewrite PA2PTE_eq by done. rewrite <- Z.lor_assoc.
  set (f := Z.lor perm PTE_V).
  assert (0 ≤ f < 2 ^ 10) as Hf.
  { apply lor_range; [lia|done|change PTE_V with 1; lia]. }
  assert (Z.shiftr (Z.lor (Z.shiftl k 10) f) 10 = k) as Hsr.
  { rewrite Z.shiftr_lor, Z.shiftr_shiftl_l, (shiftr_small f) by lia.
    rewrite Z.lor_0_r. apply Z.shiftl_0_r. }
  assert (0 ≤ Z.lor (Z.shiftl k 10) f) as Hnn.
  { apply Z.lor_nonneg. rewrite Z.shiftl_nonneg. lia. }
  split; [split; [done|]|split; [|split]].
  - rewrite Z.shiftr_div_pow2 in Hsr by lia.
    pose proof (Z.div_mod (Z.lor (Z.shiftl k 10) f) (2 ^ 10)).
    pose proof (Z.mod_pos_bound (Z.lor (Z.shiftl k 10) f) (2 ^ 10)). lia.
  - rewrite has_V_testbit, Z.lor_spec. unfold f, PTE_V. rewrite Z.lor_spec.
    simpl. by rewrite !orb_true_r.
  - unfold PTE2PA. rewrite Hsr, u64_id; rewrite Z.shiftl_mul_pow2 by lia;
      unfold PGSIZE; lia.
  - unfold PTE_FLAGS. change 0x3FF with (Z.ones 10).
    rewrite Z.land_lor_distr_l, !Z.land_ones by lia.
    rewrite Z.shiftl_mul_pow2, Z.mod_mul by lia.
    rewrite Z.mod_small by done. by rewrite Z.lor_0_l.
Qed.

Lemma PTE2PA_aligned v : PTE2PA v mod PGSIZE = 0.
Proof.
  unfold PTE2PA, PGSIZE, u64. rewrite Z.shiftl_mul_pow2 by lia.
  change (2 ^ 64) with (2 ^ 52 * 2 ^ 12).
  rewrite Z.mul_mod_distr_r by lia. change (2 ^ 12) with 4096. apply Z.mod_mul. lia.
Qed.

(** Permission bits are those of the flags. *)
Lemma land_flags v f : Z.land f (Z.ones 10) = f → Z.land v f = Z.land (PTE_FLAGS v) f.
Proof.
  intros Hf. unfold PTE_FLAGS. change 0x3FF with (Z.ones 10).
  rewrite <- Z.land_assoc, (Z.land_comm (Z.ones 10)), Hf. done.
Qed.

(** ** Paths *)

Definition idx (i : Z) : Prop := 0 ≤ i < 512.
Definition va_path (va : Z) : list Z := [PX 2 va; PX 1 va; PX 0 va].

Lemma PX_eq l va : 0 ≤ l → PX l va = va / 2 ^ (12 + 9 * l) mod 512.
Proof.
  intros. unfold PX, PXSHIFT, PGSHIFT, PXMASK. rewrite Z.shiftr_div_pow2 by lia.
  change 0x1FF with (Z.ones 9). by rewrite Z.land_ones by lia.
Qed.
Lemma PX_idx l va : 0 ≤ l → idx (PX l va).
Proof. intros. rewrite PX_eq by done. apply Z.mod_pos_bound. lia. Qed.
Lemma va_path_idx va : Forall idx (va_path va).
Proof. repeat constructor; apply PX_idx; lia. Qed.
Lemma va_path_length va : length (va_path va) = 3%nat.
Proof. done. Qed.

Lemma va_decompose va :
  0 ≤ va < MAXVA →
  va / PGSIZE = PX 2 va * 2 ^ 18 + PX 1 va * 2 ^ 9 + PX 0 va ∧ PX 2 va < 256.
Proof.
  intros Hva. change MAXVA with (2 ^ 38) in Hva. rewrite !PX_eq by lia. unfold PGSIZE.
  change (2 ^ (12 + 9 * 0)) with 4096. change (2 ^ (12 + 9 * 1)) with (4096 * 512).
  change (2 ^ (12 + 9 * 2)) with (4096 * 512 * 512).
  rewrite <- !Z.div_div by lia. set (x := va / 4096).
  assert (0 ≤ x < 2 ^ 26) as Hx.
  { split; [apply Z.div_pos; lia|]. apply Z.div_lt_upper_bound; lia. }
  set (y := x / 512). assert (0 ≤ y < 2 ^ 17) as Hy.
  { split; [apply Z.div_pos; lia|]. apply Z.div_lt_upper_bound; lia. }
  assert (0 ≤ y / 512 < 256) as Hz.
  { split; [apply Z.div_pos; lia|]. apply Z.div_lt_upper_bound; lia. }
  pose proof (Z.div_mod x 512). pose proof (Z.div_mod y 512).
  rewrite (Z.mod_small (y / 512)) by lia. lia.
Qed.

(** Addresses of different pages below [MAXVA] have different paths. *)
Lemma va_path_inj va va' :
  0 ≤ va < MAXVA → 0 ≤ va' < MAXVA → va_path va = va_path va' →
  va / PGSIZE = va' / PGSIZE.
Proof.
  intros H H' [= E2 E1 E0]. apply va_decompose in H as [-> _], H' as [-> _].
  by rewrite E2, E1, E0.
Qed.

(** ** The tree *)

Fixpoint node (m : mem) (pt : Z) (path : list Z) : option Z :=
  match path with
  | [] => Some pt
  | i :: path =>
    let e := load64 m (pt + 8 * i) in
    if has PTE_V e then node m (PTE2PA e) path else None
  end.
(** The valid entry [i] of the table at [path]. *)
Definition ent (m : mem) (root : Z) (path : list Z) (i : Z) : option Z :=
  pt ← node m root path;
  let e := load64 m (pt + 8 * i) in
  if has PTE_V e then Some e else None.
(** The leaf entry that translates [va]. *)
Definition pte_of (m : mem) (root va : Z) : option Z :=
  ent m root [PX 2 va; PX 1 va] (PX 0 va).

Lemma node_app m r p q : node m r (p ++ q) = node m r p ≫= λ t, node m t q.
Proof.
  revert r; induction p as [|i p IH]; intros r; simpl; [done|].
  destruct (has PTE_V _); [apply IH|done].
Qed.
Lemma node_snoc m r p i : node m r (p ++ [i]) = PTE2PA <$> ent m r p i.
Proof.
  rewrite node_app. unfold ent. destruct (node m r p) as [t|]; [|done]. simpl.
  by destruct (has PTE_V _).
Qed.
Lemma node_va_path m r va : node m r (va_path va) = PTE2PA <$> pte_of m r va.
Proof. apply (node_snoc m r [PX 2 va; PX 1 va] (PX 0 va)). Qed.

(** The mapped pages an address space owns, by their paths.  A process owns
    all of them but the two at the top that [proc_pagetable] makes, the
    trapframe and the trampoline; the kernel's page table owns none. *)
Class LeafOwner := leaf_owned : list Z → Prop.
Definition tf_path : list Z := [255; 511; 510].
Definition tramp_path : list Z := [255; 511; 511].
Definition user_leaves : LeafOwner := λ p, p ≠ tf_path ∧ p ≠ tramp_path.
Definition no_leaves : LeafOwner := λ _, False.

Definition table_path (p : list Z) : Prop := Forall idx p ∧ (length p ≤ 2)%nat.
Definition owned_path `{LeafOwner} (p : list Z) : Prop :=
  Forall idx p ∧ (length p ≤ 3)%nat ∧ (length p = 3%nat → leaf_owned p).

Lemma table_owned `{LeafOwner} p : table_path p → owned_path p.
Proof. intros [H1 H2]. repeat split; try done; lia. Qed.
Lemma table_path_va va : table_path [PX 2 va; PX 1 va].
Proof. split; [repeat constructor; apply PX_idx; lia|simpl; lia]. Qed.
#[export] Hint Resolve table_owned table_path_va : core.

Lemma owned_va_path va : 0 ≤ va < TRAPFRAME → owned_path (H := user_leaves) (va_path va).
Proof.
  intros Hva. split; [apply va_path_idx|]. split; [simpl; lia|]. intros _.
  assert (0 ≤ va < MAXVA) as Hm by (unfold TRAPFRAME, TRAMPOLINE, PGSIZE in Hva; lia).
  pose proof (va_decompose va Hm) as [E _].
  assert (va / PGSIZE < 2 ^ 26 - 2) as Hlt.
  { apply Z.div_lt_upper_bound; [unfold PGSIZE; lia|].
    change TRAPFRAME with (PGSIZE * (2 ^ 26 - 2)) in Hva. lia. }
  split; intros [= E2 E1 E0]; rewrite E2, E1, E0 in E; lia.
Qed.

Section tree.
Context `{LO : LeafOwner}.

Record as_wf (e : Z) (m : mem) (root : Z) (l : list Z) : Prop := {
  as_own p q : owned_path p → node m root p = Some q → page_ok e q ∧ q ∉ l;
  as_inj p p' q : owned_path p → owned_path p' →
    node m root p = Some q → node m root p' = Some q → p = p';
  as_dir p i v : (length p < 2)%nat → Forall idx (p ++ [i]) →
    ent m root p i = Some v → PTE_FLAGS v = PTE_V;
  as_leaf p i v : length p = 2%nat → Forall idx (p ++ [i]) →
    ent m root p i = Some v → Z.land v (Z.lor (Z.lor PTE_R PTE_W) PTE_X) ≠ 0;
}.

(** The table pages, and all the pages, of an address space. *)
Definition tabs (m : mem) (root q : Z) : Prop :=
  ∃ p, table_path p ∧ node m root p = Some q.
Definition owns (m : mem) (root q : Z) : Prop :=
  ∃ p, owned_path p ∧ node m root p = Some q.

Lemma tabs_owns m root q : tabs m root q → owns m root q.
Proof. intros (p & Hp & E). exists p. auto. Qed.
Lemma owns_ok e m root l q : as_wf e m root l → owns m root q → page_ok e q ∧ q ∉ l.
Proof. intros H (p & Hp & E). by apply (as_own _ _ _ _ H p). Qed.

(** [m'] agrees with [m] outside the pages of [P]. *)
Definition same_but (P : Z → Prop) (m m' : mem) : Prop :=
  ∀ a, (∀ q, P q → ¬ in_page q a) → rd m' a = rd m a.

Lemma same_but_refl P m : same_but P m m.
Proof. by intros a _. Qed.
Lemma same_but_trans P m1 m2 m3 : same_but P m1 m2 → same_but P m2 m3 → same_but P m1 m3.
Proof. intros H1 H2 a Ha. rewrite H2 by done. by apply H1. Qed.
Lemma same_but_mono (P Q : Z → Prop) m m' :
  (∀ q, P q → Q q) → same_but P m m' → same_but Q m m'.
Proof. intros HPQ H a Ha. apply H. auto. Qed.
(** A page apart from [P] keeps its bytes. *)
Lemma same_but_page P m m' p a :
  same_but P m m' → (∀ q, P q → q mod PGSIZE = 0 ∧ p ≠ q) → p mod PGSIZE = 0 →
  in_page p a → rd m' a = rd m a.
Proof.
  intros H HP Hp Ha. apply H. intros q Hq. destruct (HP q Hq).
  by apply (pages_disjoint p q).
Qed.

Lemma in_page_entry pt i a :
  idx i → pt + 8 * i ≤ a < pt + 8 * i + 8 → in_page pt a.
Proof. unfold idx, in_page, PGSIZE. lia. Qed.

(** Only the entries on the path matter. *)
Lemma node_frame m m' root p :
  (∀ p1 i r pt, p = p1 ++ i :: r → node m root p1 = Some pt →
     load64 m' (pt + 8 * i) = load64 m (pt + 8 * i)) →
  node m' root p = node m root p.
Proof.
  revert root; induction p as [|i p IH]; intros root H; simpl; [done|].
  rewrite (H [] i p root eq_refl eq_refl).
  destruct (has PTE_V _) eqn:E; [|done]. apply IH.
  intros p1 j r pt -> Hn. apply (H (i :: p1) j r pt); [done|]. simpl. by rewrite E.
Qed.

Definition aligned (q : Z) : Prop := q mod PGSIZE = 0.

(** [m'] has the same bytes in the tables of [root]. *)
Definition same_tabs (m m' : mem) (root : Z) : Prop :=
  ∀ q a, tabs m root q → in_page q a → rd m' a = rd m a.

(** Changes outside the tables leave the tree alone. *)
Lemma node_tabs m m' root p :
  same_tabs m m' root → Forall idx p → (length p ≤ 3)%nat → node m' root p = node m root p.
Proof.
  intros Hs Hi Hl. apply node_frame. intros p1 i r pt -> Hn.
  apply Forall_app in Hi as [Hi1 [Hi2 _]%Forall_cons]. rewrite length_app in Hl. simpl in Hl.
  apply load64_ext. intros x Hx. apply (Hs pt); [|by apply (in_page_entry pt i)].
  exists p1. split; [split; [done|lia]|done].
Qed.
Lemma ent_tabs m m' root p i :
  same_tabs m m' root → table_path p → idx i → ent m' root p i = ent m root p i.
Proof.
  intros Hs [Hp Hl] Hi. unfold ent. rewrite (node_tabs m) by (done || lia).
  destruct (node m root p) as [pt|] eqn:Hn; [|done]. simpl.
  rewrite (load64_ext m' m); [done|]. intros x Hx.
  apply (Hs pt); [|by apply (in_page_entry pt i)]. by exists p.
Qed.
Lemma pte_of_tabs m m' root va : same_tabs m m' root → pte_of m' root va = pte_of m root va.
Proof. intros Hs. apply ent_tabs; [done|auto|apply PX_idx; lia]. Qed.

(** An address space survives changes outside its tables. *)
Lemma as_wf_tabs e m m' root l l' :
  as_wf e m root l → same_tabs m m' root →
  (∀ q, q ∈ l' → q ∈ l ∨ ¬ owns m root q) → as_wf e m' root l'.
Proof.
  intros Hwf Hs Hl.
  assert (∀ p, owned_path p → node m' root p = node m root p) as HN.
  { intros p (? & ? & _). by apply node_tabs. }
  assert (∀ p i, (length p ≤ 2)%nat → Forall idx (p ++ [i]) →
    ent m' root p i = ent m root p i) as HE.
  { intros p i Hlen [? [? _]%Forall_cons]%Forall_app. by apply ent_tabs. }
  split.
  - intros p q Hp. rewrite HN by done. intros E.
    destruct (as_own _ _ _ _ Hwf p q Hp E) as [Hok Hni]. split; [done|].
    intros Hq. destruct (Hl q Hq); [done|]. destruct H. by exists p.
  - intros p p' q Hp Hp'. rewrite !HN by done. by apply (as_inj _ _ _ _ Hwf).
  - intros p i v Hp Hi. rewrite HE by (done || lia). by apply (as_dir _ _ _ _ Hwf).
  - intros p i v Hp Hi. rewrite HE by (done || lia). by apply (as_leaf _ _ _ _ Hwf).
Qed.

(** Changes to whole pages that are not tables. *)
Lemma same_but_tabs e m m' root l P :
  as_wf e m root l → same_but P m m' → (∀ q, P q → aligned q ∧ ¬ tabs m root q) →
  same_tabs m m' root.
Proof.
  intros Hwf Hs HP q a Ht Ha. apply (same_but_page P _ _ q); try done.
  - intros x Hx. destruct (HP x Hx). split; [done|]. by intros ->.
  - by apply (owns_ok _ _ _ _ _ Hwf (tabs_owns _ _ _ Ht)).
Qed.
Lemma node_same_but e m m' root l P p :
  as_wf e m root l → same_but P m m' → (∀ q, P q → aligned q ∧ ¬ tabs m root q) →
  Forall idx p → (length p ≤ 3)%nat → node m' root p = node m root p.
Proof. intros Hwf Hs HP. apply node_tabs. by eapply same_but_tabs. Qed.
Lemma ent_same_but e m m' root l P p i :
  as_wf e m root l → same_but P m m' → (∀ q, P q → aligned q ∧ ¬ tabs m root q) →
  table_path p → idx i → ent m' root p i = ent m root p i.
Proof. intros Hwf Hs HP. apply ent_tabs. by eapply same_but_tabs. Qed.
Lemma as_wf_same_but e m m' root l l' P :
  as_wf e m root l → same_but P m m' → (∀ q, P q → aligned q ∧ ¬ tabs m root q) →
  (∀ q, q ∈ l' → q ∈ l ∨ ¬ owns m root q) → as_wf e m' root l'.
Proof. intros Hwf Hs HP. apply as_wf_tabs; [done|]. by eapply same_but_tabs. Qed.

(** ** Writing an entry *)

Section store.
Context (e : Z) (m : mem) (root : Z) (l : list Z) (p : list Z) (i pt v : Z).
Context (Hwf : as_wf e m root l) (Hp : table_path p) (Hi : idx i).
Context (Hpt : node m root p = Some pt) (Hv : 0 ≤ v < 2 ^ 64).
Let m' : mem := store64 m (pt + 8 * i) v.

(** An entry other than the one written. *)
Lemma load_entry_other p1 pt1 j :
  table_path p1 → idx j → node m root p1 = Some pt1 → (p1, j) ≠ (p, i) →
  load64 m' (pt1 + 8 * j) = load64 m (pt1 + 8 * j).
Proof using Hwf Hp Hi Hpt.
  intros Hp1 Hj Hn Hne. apply load64_store64_ne.
  destruct (decide (p1 = p)) as [->|Hpp].
  - rewrite Hn in Hpt. simplify_eq. assert (j ≠ i) by congruence.
    unfold idx in *. lia.
  - assert (pt1 ≠ pt) as Hd.
    { intros ->. apply Hpp. by apply (as_inj _ _ _ _ Hwf p1 p pt); auto. }
    assert (aligned pt1 ∧ aligned pt) as [Ha1 Ha2].
    { split; [apply (as_own _ _ _ _ Hwf p1 pt1)|apply (as_own _ _ _ _ Hwf p pt)]; auto. }
    unfold aligned, PGSIZE, idx in *.
    apply Z.mod_divide in Ha1 as [k1 ?]; [|lia].
    apply Z.mod_divide in Ha2 as [k2 ?]; [|lia]. lia.
Qed.

(** Paths that do not go through the entry are unchanged. *)
Lemma node_store_other p1 :
  Forall idx p1 → (length p1 ≤ 3)%nat → (∀ r, p1 ≠ p ++ i :: r) →
  node m' root p1 = node m root p1.
Proof using Hwf Hp Hi Hpt.
  intros Hi1 Hl1 Hne. apply node_frame. intros p2 j r pt2 -> Hn.
  apply Forall_app in Hi1 as [Hi1 [Hj _]%Forall_cons].
  rewrite length_app in Hl1. simpl in Hl1.
  apply (load_entry_other p2); try done; [split; [done|lia]|].
  intros [= -> ->]. by apply (Hne r).
Qed.
Lemma node_store_through r :
  node m' root (p ++ i :: r) = if has PTE_V v then node m' (PTE2PA v) r else None.
Proof using Hwf Hp Hi Hpt Hv.
  rewrite node_app, node_store_other.
  - rewrite Hpt. simpl. unfold m'. by rewrite load64_store64.
  - apply Hp.
  - destruct Hp; lia.
  - intros r' E. apply (f_equal length) in E. rewrite length_app in E. simpl in E. lia.
Qed.
Lemma ent_store_other p1 j :
  table_path p1 → idx j → (∀ r, p1 ≠ p ++ i :: r) → (p1, j) ≠ (p, i) →
  ent m' root p1 j = ent m root p1 j.
Proof using Hwf Hp Hi Hpt.
  intros Hp1 Hj Hne Hne2. unfold ent.
  rewrite node_store_other by (done || destruct Hp1; (done || lia)).
  destruct (node m root p1) as [pt1|] eqn:E; [|done]. simpl.
  by rewrite (load_entry_other p1).
Qed.
Lemma ent_store_eq : ent m' root p i = if has PTE_V v then Some v else None.
Proof using Hwf Hp Hi Hpt Hv.
  unfold ent. rewrite node_store_other, Hpt.
  - simpl. unfold m'. by rewrite load64_store64.
  - apply Hp.
  - destruct Hp; lia.
  - intros r' E. apply (f_equal length) in E. rewrite length_app in E. simpl in E. lia.
Qed.
Lemma store_same_but : same_but (eq pt) m m'.
Proof using Hi.
  intros a Ha. unfold m'. apply rd_store64_out. intros Hx.
  apply (Ha pt eq_refl). by apply (in_page_entry pt i).
Qed.
End store.

(** A page of zeros, as a table, reaches nothing. *)
Lemma node_zero_page m q i r :
  idx i → (∀ a, in_page q a → rd m a = 0) → node m q (i :: r) = None.
Proof.
  intros Hi Hz. simpl. rewrite load64_zero; [done|].
  intros a Ha. apply Hz. by apply (in_page_entry q i).
Qed.
Lemma app_snoc_inj {A} (p p' : list A) i r :
  length p' = S (length p) → p' = p ++ i :: r → p' = p ++ [i].
Proof.
  intros Hl ->. rewrite length_app in Hl. simpl in Hl.
  destruct r; [done|simpl in Hl; lia].
Qed.

Lemma through_dec (p p1 : list Z) i :
  (∃ r, p1 = p ++ i :: r) ∨ (∀ r, p1 ≠ p ++ i :: r).
Proof.
  destruct (decide (p ++ [i] `prefix_of` p1)) as [[r ->]|Hn]; [left|right].
  - exists r. by rewrite <- app_assoc.
  - intros r ->. apply Hn. exists r. by rewrite <- app_assoc.
Qed.

(** *** A new table below the entry [i] of the table at [p] *)
Section new_table.
Context (e : Z) (m : mem) (root : Z) (q : Z) (l : list Z) (p : list Z) (i pt : Z).
Context (Hwf : as_wf e m root (q :: l)) (Hp : Forall idx p) (Hlen : (length p < 2)%nat).
Context (Hi : idx i) (Hpt : node m root p = Some pt) (Hnone : ent m root p i = None).
Context (Hq : page_ok e q) (Hql : q ∉ l) (Hz : ∀ a, in_page q a → rd m a = 0).
Let m' : mem := store64 m (pt + 8 * i) (pte_mk q 0).

Lemma new_table_path : table_path p.
Proof using All. split; [done|lia]. Qed.
Lemma new_table_pte :
  0 ≤ pte_mk q 0 < 2 ^ 64 ∧ has PTE_V (pte_mk q 0) = true ∧
  PTE2PA (pte_mk q 0) = q ∧ PTE_FLAGS (pte_mk q 0) = PTE_V.
Proof using All.
  clear - Hq. destruct (page_ok_range _ _ Hq). apply pte_mk_spec; [apply Hq| |lia].
  destruct Hq as (_ & H1 & _). unfold PHYSTOP, KERNBASE in H1. lia.
Qed.
Lemma new_table_zero a : in_page q a → rd m' a = 0.
Proof using All.
  intros Ha. rewrite <- (Hz a Ha).
  apply (same_but_page (eq pt) m m' q); try done.
  - by apply store_same_but.
  - intros x <-. destruct (as_own _ _ _ _ Hwf p pt) as [[? _] Hni];
      [auto using new_table_path|done|]. split; [done|]. set_solver.
  - apply Hq.
Qed.

(** The tree gains exactly the node [p ++ [i]]. *)
Lemma new_table_node p1 :
  Forall idx p1 → (length p1 ≤ 3)%nat →
  node m' root p1 = if decide (p1 = p ++ [i]) then Some q else node m root p1.
Proof using All.
  intros Hi1 Hl1. destruct new_table_pte as (Hv1 & Hv2 & Hv3 & _).
  case_decide as Hd.
  - subst p1. unfold m'. rewrite (node_store_through e m root (q :: l) p i pt) by
      (done || apply new_table_path). rewrite Hv2, Hv3. done.
  - destruct (through_dec p p1 i) as [[r ->]|Hne].
    + unfold m'. rewrite (node_store_through e m root (q :: l) p i pt) by
        (done || apply new_table_path). rewrite Hv2, Hv3. fold m'.
      destruct r as [|j r]; [done|].
      apply Forall_app in Hi1 as [_ [_ [Hj _]%Forall_cons]%Forall_cons].
      rewrite node_zero_page by (done || apply new_table_zero).
      change (i :: j :: r) with ([i] ++ j :: r). rewrite app_assoc, node_app.
      by rewrite node_snoc, Hnone.
    + apply (node_store_other e m root (q :: l) p i pt); try done; apply new_table_path.
Qed.
(** No leaf changes. *)
Lemma new_table_ent p1 j :
  table_path p1 → idx j → (p1, j) ≠ (p, i) → ent m' root p1 j = ent m root p1 j.
Proof using All.
  intros [Hi1 Hl1] Hj Hne. destruct (decide (p1 = p ++ [i])) as [->|Hd].
  - unfold ent at 1. rewrite new_table_node by (done || lia).
    rewrite decide_True by done. simpl. rewrite load64_zero; [|].
    + change (has PTE_V 0) with false. unfold ent. by rewrite node_snoc, Hnone.
    + intros a Ha. apply new_table_zero. by apply (in_page_entry q j).
  - destruct (through_dec p p1 i) as [[r ->]|Hnr].
    + destruct r as [|k r]; [done|]. unfold ent.
      rewrite new_table_node by (done || lia). rewrite decide_False by done.
      change (i :: k :: r) with ([i] ++ k :: r). rewrite app_assoc, node_app.
      by rewrite node_snoc, Hnone.
    + apply (ent_store_other e m root (q :: l) p i pt); try done.
      apply new_table_path.
Qed.

Lemma new_table_owned : owned_path (p ++ [i]).
Proof using All.
  apply table_owned. split; [apply Forall_app; auto|]. rewrite length_app. simpl. lia.
Qed.
Lemma new_table_fresh p1 : owned_path p1 → node m root p1 ≠ Some q.
Proof using All.
  intros Hp1 E. destruct (as_own _ _ _ _ Hwf p1 q Hp1 E) as [_ Hn]. set_solver.
Qed.
Lemma new_table_wf : as_wf e m' root l.
Proof using All.
  split.
  - intros p1 x Hp1. rewrite new_table_node by apply Hp1.
    case_decide; [by intros [= <-]|]. intros E.
    destruct (as_own _ _ _ _ Hwf p1 x Hp1 E). set_solver.
  - intros p1 p2 x Hp1 Hp2. rewrite !new_table_node by (apply Hp1 || apply Hp2).
    repeat case_decide; subst; try done.
    + intros [= <-] E. by apply new_table_fresh in E.
    + intros E [= <-]. by apply new_table_fresh in E.
    + by apply (as_inj _ _ _ _ Hwf).
  - intros p1 j v Hl Hf. destruct (decide ((p1, j) = (p, i))) as [[= -> ->]|Hne].
    + unfold m'. rewrite (ent_store_eq e m root (q :: l)) by
        (done || apply new_table_pte || apply new_table_path).
      destruct new_table_pte as (_ & -> & _ & Hfl). by intros [= <-].
    + apply Forall_app in Hf as Hf'. destruct Hf' as [Hf1 [Hf2 _]%Forall_cons].
      rewrite new_table_ent by (done || (split; (done || lia))).
      by apply (as_dir _ _ _ _ Hwf).
  - intros p1 j v Hl Hf. apply Forall_app in Hf as Hf'.
    destruct Hf' as [Hf1 [Hf2 _]%Forall_cons].
    rewrite new_table_ent; [by apply (as_leaf _ _ _ _ Hwf)|split; [done|lia]|done|].
    intros [= -> ->]. lia.
Qed.
Lemma new_table_owns x : owns m' root x ↔ owns m root x ∨ x = q.
Proof using All.
  split.
  - intros (p1 & Hp1 & E). rewrite new_table_node in E by apply Hp1.
    case_decide; [right; congruence|left; by exists p1].
  - intros [(p1 & Hp1 & E)| ->].
    + exists p1. split; [done|]. rewrite new_table_node by apply Hp1.
      case_decide; [|done]. subst. by rewrite node_snoc, Hnone in E.
    + exists (p ++ [i]). split; [apply new_table_owned|].
      rewrite new_table_node by apply new_table_owned. by rewrite decide_True.
Qed.
End new_table.

(** *** A leaf entry [i] of the level-0 table at [p] *)
Section leaf.
Context (e : Z) (m : mem) (root : Z) (l : list Z) (p : list Z) (i pt v : Z).
Context (Hwf : as_wf e m root l) (Hp : Forall idx p) (Hlen : length p = 2%nat).
Context (Hi : idx i) (Hpt : node m root p = Some pt) (Hv : 0 ≤ v < 2 ^ 64).
Let m' : mem := store64 m (pt + 8 * i) v.

Lemma leaf_table_path : table_path p.
Proof using All. split; [done|lia]. Qed.
Lemma leaf_node p1 :
  Forall idx p1 → (length p1 ≤ 3)%nat →
  node m' root p1 =
    if decide (p1 = p ++ [i]) then if has PTE_V v then Some (PTE2PA v) else None
    else node m root p1.
Proof using All.
  intros Hi1 Hl1. case_decide as Hd.
  - subst p1. unfold m'. by rewrite (node_store_through e m root l p i pt) by
      (done || apply leaf_table_path).
  - apply (node_store_other e m root l p i pt); try done; [apply leaf_table_path|].
    intros r ->. apply Hd. apply (app_snoc_inj p _ i r); [|done].
    rewrite length_app in *. simpl in *. lia.
Qed.
Lemma leaf_ent p1 j :
  table_path p1 → idx j →
  ent m' root p1 j =
    if decide ((p1, j) = (p, i)) then if has PTE_V v then Some v else None
    else ent m root p1 j.
Proof using All.
  intros [Hi1 Hl1] Hj. case_decide as Hd.
  - injection Hd as -> ->.
    apply (ent_store_eq e m root l); try done.
  - apply (ent_store_other e m root l p i pt); try done; [apply leaf_table_path|].
    intros r ->. rewrite length_app in Hl1. simpl in Hl1. lia.
Qed.

Lemma leaf_tabs x : tabs m' root x ↔ tabs m root x.
Proof using All.
  split; intros (p1 & Hp1 & E); exists p1; (split; [done|]).
  all: rewrite leaf_node in * by (destruct Hp1; (done || lia)).
  all: rewrite decide_False in *; try done.
  all: intros ->; destruct Hp1 as [_ Hl]; rewrite length_app in Hl; simpl in Hl; lia.
Qed.
Lemma leaf_owns_map x :
  ent m root p i = None → has PTE_V v = true →
  owns m' root x ↔ owns m root x ∨ (owned_path (p ++ [i]) ∧ x = PTE2PA v).
Proof using All.
  intros Hn HV. split.
  - intros (p1 & Hp1 & E). rewrite leaf_node, HV in E by apply Hp1. case_decide.
    + subst. right. split; [done|congruence].
    + left. by exists p1.
  - intros [(p1 & Hp1 & E)|[Hp1 ->]].
    + exists p1. split; [done|]. rewrite leaf_node by apply Hp1.
      rewrite decide_False; [done|]. intros ->. by rewrite node_snoc, Hn in E.
    + exists (p ++ [i]). split; [done|]. rewrite leaf_node by apply Hp1.
      by rewrite decide_True, HV.
Qed.
Lemma leaf_owns_unmap x y :
  has PTE_V v = false → owned_path (p ++ [i]) → node m root (p ++ [i]) = Some y →
  owns m' root x ↔ owns m root x ∧ x ≠ y.
Proof using All.
  intros HV Hop Hy. split.
  - intros (p1 & Hp1 & E). rewrite leaf_node, HV in E by apply Hp1. case_decide; [done|].
    split; [by exists p1|]. intros ->. by apply H, (as_inj _ _ _ _ Hwf _ _ y).
  - intros [(p1 & Hp1 & E) Hne]. exists p1. split; [done|].
    rewrite leaf_node by apply Hp1. rewrite decide_False; [done|]. congruence.
Qed.

Context (Hrwx : has PTE_V v = true → Z.land v (Z.lor (Z.lor PTE_R PTE_W) PTE_X) ≠ 0).
Context (Hown : owned_path (p ++ [i]) → has PTE_V v = true →
  page_ok e (PTE2PA v) ∧ PTE2PA v ∉ l ∧
  ∀ p1, owned_path p1 → p1 ≠ p ++ [i] → node m root p1 ≠ Some (PTE2PA v)).

Lemma leaf_wf : as_wf e m' root l.
Proof using All.
  split.
  - intros p1 x Hp1. rewrite leaf_node by apply Hp1. case_decide.
    + subst. destruct (has PTE_V v); [|done]. intros [= <-].
      split; by apply Hown.
    + by apply (as_own _ _ _ _ Hwf).
  - intros p1 p2 x Hp1 Hp2. rewrite !leaf_node by (apply Hp1 || apply Hp2).
    repeat case_decide; subst; try done.
    + destruct (has PTE_V v) eqn:E; [|done]. intros [= <-] E2.
      by apply Hown in E2.
    + destruct (has PTE_V v) eqn:E; [|done]. intros E2 [= <-].
      by apply Hown in E2.
    + by apply (as_inj _ _ _ _ Hwf).
  - intros p1 j v' Hl Hf. apply Forall_app in Hf as Hf'.
    destruct Hf' as [Hf1 [Hf2 _]%Forall_cons].
    rewrite leaf_ent; [|split; [done|lia]|done].
    rewrite decide_False; [by apply (as_dir _ _ _ _ Hwf)|].
    intros [= -> ->]. lia.
  - intros p1 j v' Hl Hf. apply Forall_app in Hf as Hf'.
    destruct Hf' as [Hf1 [Hf2 _]%Forall_cons].
    rewrite leaf_ent; [|split; [done|lia]|done]. case_decide.
    + destruct (has PTE_V v); [|done]. intros [= <-]. by apply Hrwx.
    + by apply (as_leaf _ _ _ _ Hwf).
Qed.
End leaf.

(** The same entry, addressed by the virtual address it translates. *)
Lemma leaf_pte_of e m root l va pt v va' :
  as_wf e m root l → node m root [PX 2 va; PX 1 va] = Some pt → 0 ≤ v < 2 ^ 64 →
  0 ≤ va < MAXVA → 0 ≤ va' < MAXVA →
  pte_of (store64 m (pt + 8 * PX 0 va) v) root va' =
    if decide (va' / PGSIZE = va / PGSIZE) then if has PTE_V v then Some v else None
    else pte_of m root va'.
Proof.
  intros Hwf Hpt Hv Hva Hva'. unfold pte_of.
  rewrite (leaf_ent e m root l [PX 2 va; PX 1 va]); try done; try (apply PX_idx; lia); try apply table_path_va.
  case_decide as H1; case_decide as H2; try done.
  - exfalso. apply H2. apply va_path_inj; try done. unfold va_path. congruence.
  - exfalso. apply H1. apply va_decompose in Hva as [E1 B1], Hva' as [E2 B2].
    pose proof (PX_idx 0 va). pose proof (PX_idx 1 va). pose proof (PX_idx 2 va).
    pose proof (PX_idx 0 va'). pose proof (PX_idx 1 va'). pose proof (PX_idx 2 va').
    unfold idx in *. assert (PX 2 va' = PX 2 va ∧ PX 1 va' = PX 1 va ∧ PX 0 va' = PX 0 va)
      as (-> & -> & ->) by lia. done.
Qed.
End tree.
