(* ===== verification/VmWalk.v ===== *)
(** * [walk] and [mappages] on the page-table tree *)

From stdpp Require Import options.
From S2P Require Import Prelude CString State Sched Kalloc Vm PageTable.
#[local] Open Scope Z_scope.

(** ** Invariants and frames *)

(** Only memory and the free list differ. *)
Definition vm_rest (s s' : kst) : Prop :=
  s' = set_k_mem (k_mem s') (set_k_freelist (k_freelist s') s).
Lemma vm_rest_refl s : vm_rest s s.
Proof. unfold vm_rest. by destruct s. Qed.
Lemma vm_rest_trans s1 s2 s3 : vm_rest s1 s2 → vm_rest s2 s3 → vm_rest s1 s3.
Proof. unfold vm_rest. intros H1 H2. rewrite H2, H1. done. Qed.
Lemma vm_rest_mem m s : vm_rest s (set_k_mem m s).
Proof. unfold vm_rest. by destruct s. Qed.
Lemma vm_rest_kalloc q s : vm_rest s (kalloc_post q s).
Proof. done. Qed.
Lemma vm_rest_kfree q s : vm_rest s (kfree_post q s).
Proof. done. Qed.
Lemma vm_rest_ly s s' : vm_rest s s' → k_ly s' = k_ly s.
Proof. intros H. rewrite H. done. Qed.
Lemma vm_rest_held s s' : vm_rest s s' → k_held s' = k_held s.
Proof. intros H. rewrite H. done. Qed.

Lemma kmem_inv_mem s l m P :
  kmem_inv s l → same_but P (k_mem s) m → (∀ q, P q → aligned q ∧ q ∉ l) → mem_ok m →
  kmem_inv (set_k_mem m s) l.
Proof.
  intros HI Hs HP Hm. pose proof HI as [H1 H2 H3 H4]. split; simpl; try done.
  apply (flist_frame (k_mem s)); [|done]. intros p a Hp Ha. symmetry.
  apply (same_but_page P _ _ p); try done.
  - intros q Hq. destruct (HP q Hq). split; [done|]. by intros ->.
  - apply kmem_aligned in HI. rewrite Forall_forall in HI. by apply HI.
Qed.

Lemma memset_same_but m p c : same_but (eq p) m (memset m p c PGSIZE).
Proof.
  intros a Ha. rewrite rd_memset by (unfold PGSIZE; lia).
  rewrite decide_False; [done|]. by apply Ha.
Qed.
Lemma rd_memset_page m p c a : in_page p a → rd (memset m p c PGSIZE) a = u8 c.
Proof.
  intros Ha. rewrite rd_memset by (unfold PGSIZE; lia). by rewrite decide_True.
Qed.

(** ** Evaluation of the primitive accesses *)

Lemma bind_ld64 {A} a (f : Z → K A) s : mbind f (ld64 a) s = f (load64 (k_mem s) a) s.
Proof. done. Qed.
Lemma bind_st64 {A} a v (f : unit → K A) s :
  mbind f (st64 a v) s = f () (set_k_mem (store64 (k_mem s) a v) s).
Proof. done. Qed.
Lemma bind_kmemset {A} a c n (f : unit → K A) s :
  mbind f (kmemset a c n) s = f () (set_k_mem (memset (k_mem s) a c n) s).
Proof. done. Qed.
Lemma bind_kmemmove {A} d a n (f : unit → K A) s :
  mbind f (kmemmove d a n) s = f () (set_k_mem (memmove (k_mem s) d a n) s).
Proof. done. Qed.
Ltac vstep := rewrite ?bind_ld64, ?bind_st64, ?bind_kmemset, ?bind_kmemmove; mstep.

Section walk.
Context `{LO : LeafOwner}.

(** The allocator's free pages are [l] and the address space [root] is well
    formed beside them. *)
Record vm_inv (s : kst) (root : Z) (l : list Z) : Prop := {
  vi_kmem : kmem_inv s l;
  vi_as : as_wf (ly_end (k_ly s)) (k_mem s) root l;
  vi_held : LK_kmem ∉ k_held s;
}.

(** ** walk without allocation *)

Definition walk_result (m : mem) (root va : Z) : Z :=
  match node m root [PX 2 va; PX 1 va] with
  | Some pt => pt + 8 * PX 0 va
  | None => 0
  end.

Lemma walk_noalloc root va s :
  va < MAXVA → walk root va false s = Ok (walk_result (k_mem s) root va) s.
Proof.
  intros Hva. unfold walk. destruct (Z.leb_spec MAXVA va); [lia|].
  unfold walk_result. cbn [walk_loop node]. change (Z.of_nat 2) with 2.
  change (Z.of_nat 1) with 1. vstep.
  destruct (has PTE_V _); [|done]. vstep.
  by destruct (has PTE_V _).
Qed.

Lemma pte_of_walk m root va v :
  pte_of m root va = Some v →
  ∃ pt, node m root [PX 2 va; PX 1 va] = Some pt ∧
    walk_result m root va = pt + 8 * PX 0 va ∧ load64 m (pt + 8 * PX 0 va) = v ∧
    has PTE_V v = true.
Proof.
  unfold pte_of, ent, walk_result. destruct (node _ _ _) as [pt|]; [|done]. simpl.
  destruct (has PTE_V _) eqn:E; [|done]. intros [= <-]. eauto.
Qed.

(** ** walk with allocation *)

(** [s'] has a larger tree of tables below [root] and the same leaves. *)
Record grow (root : Z) (s : kst) (l : list Z) (s' : kst) (l' : list Z) : Prop := {
  g_rest : vm_rest s s';
  g_inv : vm_inv s' root l';
  g_pages q : (q ∈ l' ∨ owns (k_mem s') root q) ↔ (q ∈ l ∨ owns (k_mem s) root q);
  g_sub : l' ⊆ l;
  g_tabs q : tabs (k_mem s') root q → tabs (k_mem s) root q ∨ q ∈ l;
  g_node p q : Forall idx p → (length p ≤ 3)%nat →
    node (k_mem s) root p = Some q → node (k_mem s') root p = Some q;
  g_ent p i : length p = 2%nat → Forall idx (p ++ [i]) →
    ent (k_mem s') root p i = ent (k_mem s) root p i;
  g_same : same_but (λ q, q ∈ l ∨ tabs (k_mem s) root q) (k_mem s) (k_mem s');
}.

Lemma grow_refl root s l : vm_inv s root l → grow root s l s l.
Proof.
  intros H. split; try done; [apply vm_rest_refl|by left].
Qed.
Lemma grow_trans root s1 l1 s2 l2 s3 l3 :
  grow root s1 l1 s2 l2 → grow root s2 l2 s3 l3 → grow root s1 l1 s3 l3.
Proof.
  intros H1 H2. split.
  - eapply vm_rest_trans; [apply H1|apply H2].
  - apply H2.
  - intros q. rewrite (g_pages _ _ _ _ _ H2). apply (g_pages _ _ _ _ _ H1).
  - etrans; [apply (g_sub _ _ _ _ _ H2)|apply (g_sub _ _ _ _ _ H1)].
  - intros q [Hq|Hq]%(g_tabs _ _ _ _ _ H2).
    + by apply (g_tabs _ _ _ _ _ H1).
    + right. by apply (g_sub _ _ _ _ _ H1).
  - intros p q Hp Hl E. apply (g_node _ _ _ _ _ H2); try done.
    by apply (g_node _ _ _ _ _ H1).
  - intros p i Hp Hl. rewrite (g_ent _ _ _ _ _ H2) by done. by apply H1.
  - eapply same_but_trans; [apply H1|].
    eapply same_but_mono; [|apply (g_same _ _ _ _ _ H2)].
    intros q [Hq|Hq]; [left; by apply (g_sub _ _ _ _ _ H1)|].
    apply (g_tabs _ _ _ _ _ H1) in Hq. tauto.
Qed.

(** Taking a page off the free list and clearing it. *)
Lemma take_page s root q l c :
  vm_inv s root (q :: l) →
  let s' := set_k_mem (memset (k_mem (kalloc_post q s)) q c PGSIZE) (kalloc_post q s) in
  kmem_inv s' l ∧ as_wf (ly_end (k_ly s)) (k_mem s') root (q :: l) ∧
  page_ok (ly_end (k_ly s)) q ∧ q ∉ l ∧ same_but (eq q) (k_mem s) (k_mem s') ∧
  q ≠ 0 ∧ (∀ a, in_page q a → rd (k_mem s') a = u8 c).
Proof.
  intros [HI Has Hh] s'.
  pose proof (kalloc_inv _ _ _ HI) as (H1 & H2 & H3 & H4 & H5).
  assert (same_but (eq q) (k_mem s) (k_mem s')) as Hs.
  { eapply same_but_trans; [apply memset_same_but|apply memset_same_but]. }
  assert (aligned q) as Hal by apply H3.
  split; [|split; [|split; [done|split; [done|split; [done|split; [done|]]]]]].
  - apply (kmem_inv_mem _ _ _ (eq q) H1).
    + apply memset_same_but.
    + by intros ? <-.
    + apply mem_ok_memset, H1.
  - eapply (as_wf_same_but _ _ _ _ _ _ (eq q) Has); [exact Hs| |by left].
    intros ? <-. split; [done|]. intros Ht%tabs_owns.
    destruct (owns_ok _ _ _ _ _ Has Ht). set_solver.
  - intros a Ha. by apply rd_memset_page.
Qed.

(** Hanging a cleared page below an invalid directory entry. *)
Lemma grow_new_table root s q l p pt i :
  vm_inv s root (q :: l) → Forall idx p → (length p < 2)%nat → idx i →
  node (k_mem s) root p = Some pt → ent (k_mem s) root p i = None →
  let s1 := set_k_mem (memset (k_mem (kalloc_post q s)) q 0 PGSIZE) (kalloc_post q s) in
  let s2 := set_k_mem (store64 (k_mem s1) (pt + 8 * i) (pte_mk q 0)) s1 in
  grow root s (q :: l) s2 l ∧ node (k_mem s2) root (p ++ [i]) = Some q.
Proof.
  intros Hinv Hp Hlen Hi Hpt Hnone s1 s2. pose proof Hinv as [HI Has Hh].
  pose proof (take_page s root q l 0 Hinv) as (H1 & H2 & H3 & H4 & H5 & H6 & H7).
  assert (vm_rest s s1) as Hrest by (eapply vm_rest_trans; [apply vm_rest_kalloc|apply vm_rest_mem]).
  subst s2. fold s1 in H1, H2, H5, H7. clearbody s1.
  assert (¬ tabs (k_mem s) root q) as Hnt.
  { intros Ht%tabs_owns. destruct (owns_ok _ _ _ _ _ Has Ht). set_solver. }
  assert (∀ x, q = x → aligned x ∧ ¬ tabs (k_mem s) root x) as HP.
  { intros x <-. split; [apply H3|done]. }
  assert (∀ p1, Forall idx p1 → (length p1 ≤ 3)%nat →
    node (k_mem s1) root p1 = node (k_mem s) root p1) as HN.
  { intros p1 ??. by apply (node_same_but _ _ _ _ _ (eq q) p1 Has H5 HP). }
  assert (∀ p1 j, table_path p1 → idx j →
    ent (k_mem s1) root p1 j = ent (k_mem s) root p1 j) as HE.
  { intros p1 j ??. by apply (ent_same_but _ _ _ _ _ (eq q) p1 j Has H5 HP). }
  assert (node (k_mem s1) root p = Some pt) as Hpt1 by (rewrite HN; (done || lia)).
  assert (table_path p) as Htp by (split; [done|lia]).
  assert (ent (k_mem s1) root p i = None) as Hnone1 by (by rewrite HE).
  assert (tabs (k_mem s) root pt) as Htab by (by exists p).
  pose proof (new_table_node _ _ _ _ _ _ _ _ H2 Hp Hlen Hi Hpt1 Hnone1 H3 H4 H7) as HN2.
  pose proof (new_table_ent _ _ _ _ _ _ _ _ H2 Hp Hlen Hi Hpt1 Hnone1 H3 H4 H7) as HE2.
  pose proof (new_table_owns _ _ _ _ _ _ _ _ H2 Hp Hlen Hi Hpt1 Hnone1 H3 H4 H7) as HO2.
  pose proof (new_table_wf _ _ _ _ _ _ _ _ H2 Hp Hlen Hi Hpt1 Hnone1 H3 H4 H7) as HW2.
  assert (∀ x, owns (k_mem s1) root x ↔ owns (k_mem s) root x) as HO.
  { intros x. split; intros (p1 & Hp1 & E); exists p1; (split; [done|]);
      [rewrite <- HN|rewrite HN]; try done; apply Hp1. }
  split; [split|].
  - eapply vm_rest_trans; [exact Hrest|apply vm_rest_mem].
  - split; [| |simpl; by rewrite (vm_rest_held _ _ Hrest)].
    2:{ simpl. rewrite (vm_rest_ly _ _ Hrest). exact HW2. }
    apply (kmem_inv_mem s1 l _ (eq pt)); [exact H1|by apply store_same_but| |].
    + intros x <-. destruct (owns_ok _ _ _ _ _ Has (tabs_owns _ _ _ Htab)) as [[??] ?].
      set_solver.
    + apply mem_ok_store64, H1.
  - intros x. simpl. rewrite HO2, HO. set_solver.
  - set_solver.
  - intros x (p1 & Hp1 & E). simpl in E. rewrite HN2 in E by (destruct Hp1; (done || lia)).
    case_decide; [right; simplify_eq; set_solver|]. left. exists p1. split; [done|].
    rewrite <- HN; [done|apply Hp1|destruct Hp1; lia].
  - intros p1 x Hi1 Hl1 E. simpl. rewrite HN2 by done. rewrite HN by done.
    case_decide; [|done]. subst. by rewrite node_snoc, Hnone in E.
  - intros p1 j Hl1 Hi1. simpl. apply Forall_app in Hi1 as [Hi1 [Hj _]%Forall_cons].
    rewrite HE2; [apply HE; [split; [done|lia]|done]|split; [done|lia]|done|].
    intros [= -> ->]. lia.
  - eapply same_but_trans.
    + eapply same_but_mono; [|exact H5]. intros x <-. left. set_solver.
    + eapply same_but_mono; [|by apply (store_same_but _ i pt)]. intros x <-. by right.
  - simpl. rewrite HN2; [by rewrite decide_True|apply Forall_app; auto|].
    rewrite length_app. simpl. lia.
Qed.

Lemma walk_child root s l p pt lv va :
  vm_inv s root l → Forall idx p → (length p < 2)%nat → node (k_mem s) root p = Some pt →
  let i := PX (Z.of_nat (S lv)) va in
  (∃ pt' s' l', walk_loop (S lv) pt va true s = walk_loop lv pt' va true s' ∧
     grow root s l s' l' ∧ node (k_mem s') root (p ++ [i]) = Some pt') ∨
  (walk_loop (S lv) pt va true s = Ok 0 s ∧ l = []).
Proof.
  intros Hinv Hp Hlen Hpt i. assert (idx i) as Hi by (apply PX_idx; lia).
  pose proof Hinv as [HI Has Hh]. cbn [walk_loop]. fold i. vstep.
  destruct (has PTE_V _) eqn:Hv; [left|].
  { eexists _, s, l. split; [done|]. split; [by apply grow_refl|].
    rewrite node_snoc. unfold ent. rewrite Hpt. simpl. by rewrite Hv. }
  cbn [negb]. destruct l as [|q l]; [right|left].
  { split; [|done]. erewrite bind_Ok by (apply kalloc_none; [done|apply HI]). done. }
  assert (ent (k_mem s) root p i = None) as Hnone.
  { unfold ent. rewrite Hpt. simpl. by rewrite Hv. }
  pose proof (grow_new_table root s q l p pt i Hinv Hp Hlen Hi Hpt Hnone) as [H1 H2].
  pose proof (kalloc_inv _ _ _ HI) as (_ & _ & _ & Hq0 & _).
  erewrite bind_Ok by (apply kalloc_some; [done|apply HI|done]).
  rewrite (proj2 (Z.eqb_neq _ _) Hq0). vstep.
  eexists q, _, l. split; [done|]. unfold pte_mk in H1, H2. rewrite Z.lor_0_r in H1, H2.
  by split.
Qed.

Lemma walk_alloc root va s l :
  vm_inv s root l → va < MAXVA →
  ∃ a s' l', walk root va true s = Ok a s' ∧ grow root s l s' l' ∧
    ((a = 0 ∧ l' = []) ∨
     ∃ pt, node (k_mem s') root [PX 2 va; PX 1 va] = Some pt ∧ a = pt + 8 * PX 0 va).
Proof.
  intros Hinv Hva. unfold walk. destruct (Z.leb_spec MAXVA va); [lia|].
  destruct (walk_child root s l [] root 1 va Hinv ltac:(constructor) ltac:(simpl; lia) eq_refl)
    as [(pt1 & s1 & l1 & -> & Hg1 & Hn1)|[-> ->]].
  2:{ exists 0, s, []. split; [done|]. split; [by apply grow_refl|]. by left. }
  destruct (walk_child root s1 l1 [PX 2 va] pt1 0 va (g_inv _ _ _ _ _ Hg1)
    ltac:(repeat constructor; apply PX_idx; lia) ltac:(simpl; lia) Hn1)
    as [(pt2 & s2 & l2 & -> & Hg2 & Hn2)|[-> ->]].
  - eexists _, s2, l2. split; [done|]. split; [by eapply grow_trans|].
    right. exists pt2. split; [|done]. exact Hn2.
  - exists 0, s1, []. split; [done|]. split; [done|]. by left.
Qed.

(** ** mappages *)

(** The first [k] pages of a mapping of [a..] to [pa..] are in place. *)
Record mapped (root a pa perm k : Z) (s : kst) (l : list Z) (s' : kst) (l' : list Z)
    : Prop := {
  mp_rest : vm_rest s s';
  mp_inv : vm_inv s' root l';
  mp_pages q : (q ∈ l' ∨ owns (k_mem s') root q) ↔
    (q ∈ l ∨ owns (k_mem s) root q ∨
     ∃ i, 0 ≤ i < k ∧ owned_path (va_path (a + i * PGSIZE)) ∧ q = pa + i * PGSIZE);
  mp_sub : l' ⊆ l;
  mp_tabs q : tabs (k_mem s') root q → tabs (k_mem s) root q ∨ q ∈ l;
  mp_pte va : 0 ≤ va < MAXVA → pte_of (k_mem s') root va =
    if decide (a ≤ va < a + k * PGSIZE)
    then Some (pte_mk (pa + (va / PGSIZE * PGSIZE - a)) perm)
    else pte_of (k_mem s) root va;
  mp_ent p i : length p = 2%nat → Forall idx (p ++ [i]) →
    (∀ j, 0 ≤ j < k → p ++ [i] ≠ va_path (a + j * PGSIZE)) →
    ent (k_mem s') root p i = ent (k_mem s) root p i;
  mp_same : same_but (λ q, q ∈ l ∨ tabs (k_mem s) root q) (k_mem s) (k_mem s');
}.

Lemma grow_pte_of root s l s' l' va :
  grow root s l s' l' → pte_of (k_mem s') root va = pte_of (k_mem s) root va.
Proof.
  intros H. apply (g_ent _ _ _ _ _ H); [done|].
  apply (va_path_idx va).
Qed.

Lemma mapped_0 root a pa perm s l : vm_inv s root l → mapped root a pa perm 0 s l s l.
Proof.
  intros H. split; try done; [apply vm_rest_refl| |by left|].
  - intros q. split; [tauto|]. intros [?|[?|(i & ? & _)]]; [by left|by right|lia].
  - intros va Hva. rewrite decide_False; [done|lia].
Qed.
Lemma mapped_grow root a pa perm k s l s1 l1 s2 l2 :
  mapped root a pa perm k s l s1 l1 → grow root s1 l1 s2 l2 →
  mapped root a pa perm k s l s2 l2.
Proof.
  intros H1 H2. split.
  - eapply vm_rest_trans; [apply H1|apply H2].
  - apply H2.
  - intros q. rewrite (g_pages _ _ _ _ _ H2). apply (mp_pages _ _ _ _ _ _ _ _ _ H1).
  - etrans; [apply (g_sub _ _ _ _ _ H2)|apply (mp_sub _ _ _ _ _ _ _ _ _ H1)].
  - intros q [Hq|Hq]%(g_tabs _ _ _ _ _ H2).
    + by apply (mp_tabs _ _ _ _ _ _ _ _ _ H1).
    + right. by apply (mp_sub _ _ _ _ _ _ _ _ _ H1).
  - intros va Hva. rewrite (grow_pte_of _ _ _ _ _ _ H2).
    by apply (mp_pte _ _ _ _ _ _ _ _ _ H1).
  - intros p i Hp Hi Hne. rewrite (g_ent _ _ _ _ _ H2) by done.
    by apply (mp_ent _ _ _ _ _ _ _ _ _ H1).
  - eapply same_but_trans; [apply H1|].
    eapply same_but_mono; [|apply (g_same _ _ _ _ _ H2)].
    intros q [Hq|Hq]; [left; by apply (mp_sub _ _ _ _ _ _ _ _ _ H1)|].
    apply (mp_tabs _ _ _ _ _ _ _ _ _ H1) in Hq. tauto.
Qed.

(** The pages a mapping needs: well formed, and fresh where the address space
    owns the leaf. *)
Record map_ok (s : kst) (l : list Z) (root a pa perm n : Z) : Prop := {
  mo_n : 1 ≤ n;
  mo_a : aligned a ∧ 0 ≤ a ∧ a + n * PGSIZE ≤ MAXVA;
  mo_pa : aligned pa ∧ 0 ≤ pa ∧ pa + n * PGSIZE ≤ 2 ^ 56;
  mo_perm : 0 ≤ perm < 1024 ∧ Z.land perm (Z.lor (Z.lor PTE_R PTE_W) PTE_X) ≠ 0;
  mo_free i : 0 ≤ i < n → pte_of (k_mem s) root (a + i * PGSIZE) = None;
  mo_fresh i : 0 ≤ i < n → owned_path (va_path (a + i * PGSIZE)) →
    page_ok (ly_end (k_ly s)) (pa + i * PGSIZE) ∧
    ¬ (pa + i * PGSIZE ∈ l ∨ owns (k_mem s) root (pa + i * PGSIZE));
}.

Lemma aligned_mul a k : aligned a → aligned (a + k * PGSIZE).
Proof. intros H. unfold aligned. rewrite Z.mod_add by (unfold PGSIZE; lia). done. Qed.
Lemma aligned_div a k : aligned a → (a + k * PGSIZE) / PGSIZE * PGSIZE = a + k * PGSIZE.
Proof.
  intros H. pose proof (aligned_mul a k H) as H'. unfold aligned in H'.
  pose proof (Z.div_mod (a + k * PGSIZE) PGSIZE). unfold PGSIZE in *. lia.
Qed.

Lemma land_rwx_pte_mk pa perm :
  aligned pa → 0 ≤ pa < 2 ^ 56 → 0 ≤ perm < 1024 →
  Z.land (pte_mk pa perm) (Z.lor (Z.lor PTE_R PTE_W) PTE_X) =
  Z.land perm (Z.lor (Z.lor PTE_R PTE_W) PTE_X).
Proof.
  intros H1 H2 H3. destruct (pte_mk_spec pa perm H1 H2 H3) as (_ & _ & _ & Hf).
  rewrite land_flags, Hf by reflexivity. rewrite Z.land_lor_distr_l.
  change (Z.land PTE_V _) with 0. apply Z.lor_0_r.
Qed.

Lemma mapped_snoc root a pa perm n k s l s1 l1 pt :
  map_ok s l root a pa perm n → 0 ≤ k < n → mapped root a pa perm k s l s1 l1 →
  node (k_mem s1) root [PX 2 (a + k * PGSIZE); PX 1 (a + k * PGSIZE)] = Some pt →
  mapped root a pa perm (k + 1) s l
    (set_k_mem (store64 (k_mem s1) (pt + 8 * PX 0 (a + k * PGSIZE))
       (pte_mk (pa + k * PGSIZE) perm)) s1) l1.
Proof.
  intros Hok Hk Hm Hn. pose proof Hok as [_ Ha Hpa [Hperm Hrwx] Hfree Hfresh].
  pose proof Hm as [M1 M2 M3 M4 M5 M6 M7 M8]. set (va := a + k * PGSIZE) in *.
  assert (0 ≤ va < MAXVA) as Hva by (unfold va, PGSIZE in *; lia).
  assert (aligned (pa + k * PGSIZE)) as Hal by (apply aligned_mul, Hpa).
  assert (0 ≤ pa + k * PGSIZE < 2 ^ 56) as Hr by (unfold PGSIZE in *; lia).
  destruct (pte_mk_spec _ perm Hal Hr Hperm) as (V1 & V2 & V3 & V4).
  set (v := pte_mk (pa + k * PGSIZE) perm) in *.
  assert (ent (k_mem s1) root [PX 2 va; PX 1 va] (PX 0 va) = None) as Hnone.
  { change (pte_of (k_mem s1) root va = None). rewrite M6 by done.
    rewrite decide_False by (unfold va, PGSIZE; lia). by apply Hfree. }
  pose proof M2 as [N1 N2 N3].
  assert (Forall idx [PX 2 va; PX 1 va]) as Hpi by apply (table_path_va va).
  assert (idx (PX 0 va)) as Hi0 by (apply PX_idx; lia).
  assert (tabs (k_mem s1) root pt) as Hpt by (by eexists).
  assert (owned_path ([PX 2 va; PX 1 va] ++ [PX 0 va]) →
    page_ok (ly_end (k_ly s1)) (PTE2PA v) ∧ PTE2PA v ∉ l1 ∧ ¬ owns (k_mem s1) root (PTE2PA v))
    as Hown.
  { rewrite V3. intros Ho. destruct (Hfresh k Hk Ho) as [F1 F2].
    rewrite (vm_rest_ly _ _ M1). split; [done|].
    assert (¬ (pa + k * PGSIZE ∈ l1 ∨ owns (k_mem s1) root (pa + k * PGSIZE))) as F3.
    { rewrite M3. intros [?|[?|(i & Hi & _ & E)]]; [by apply F2; left|by apply F2; right|].
      unfold PGSIZE in E. lia. }
    tauto. }
  split.
  - eapply vm_rest_trans; [exact M1|apply vm_rest_mem].
  - split; [| |done].
    + apply (kmem_inv_mem s1 l1 _ (eq pt)); [done|by apply store_same_but| |].
      * intros x <-. destruct (owns_ok _ _ _ _ _ N2 (tabs_owns _ _ _ Hpt)) as [[??] ?]. done.
      * apply mem_ok_store64, N1.
    + apply (leaf_wf (ly_end (k_ly s1)) (k_mem s1) root l1 [PX 2 va; PX 1 va] (PX 0 va) pt);
        try done.
      * intros _. unfold v. by rewrite land_rwx_pte_mk.
      * intros Ho _. destruct (Hown Ho) as (? & ? & HO). split; [done|]. split; [done|].
        intros p1 Hp1 _ E. apply HO. by exists p1.
  - intros q. simpl.
    rewrite (leaf_owns_map (ly_end (k_ly s1)) _ root l1 [PX 2 va; PX 1 va] (PX 0 va)) by done.
    rewrite V3. rewrite (or_assoc (q ∈ l1)). rewrite M3. split.
    + intros [[?|[?|(i & ? & ?)]]|[? ->]]; [by left|right; by left| |].
      * right; right. exists i. split; [lia|done].
      * right; right. exists k. split; [lia|done].
    + intros [?|[?|(i & Hi & ? & ?)]]; [left; by left|left; right; by left|].
      destruct (decide (i = k)) as [->|]; [by right|].
      left; right; right. exists i. split; [lia|done].
  - done.
  - intros q. simpl. rewrite (leaf_tabs (ly_end (k_ly s1)) _ root l1) by done. apply M5.
  - intros va' Hva'. simpl. rewrite (leaf_pte_of (ly_end (k_ly s1)) _ root l1) by done.
    rewrite V2. rewrite M6 by done.
    assert (va' / PGSIZE = va / PGSIZE ↔ va ≤ va' < va + PGSIZE) as Hdiv.
    { pose proof (aligned_div a k (proj1 Ha)) as Hd. fold va in Hd.
      pose proof (Z.div_mod va' PGSIZE). pose proof (Z.mod_pos_bound va' PGSIZE).
      unfold PGSIZE in *. lia. }
    repeat case_decide; try (unfold va, PGSIZE in *; lia); try done.
    f_equal. unfold v. f_equal. rewrite H. unfold va. rewrite aligned_div by apply Ha. lia.
  - intros p i Hp Hi Hne. simpl. apply Forall_app in Hi as Hi'.
    destruct Hi' as [Hi1 [Hi2 _]%Forall_cons].
    rewrite (leaf_ent (ly_end (k_ly s1)) _ root l1 [PX 2 va; PX 1 va]);
      try done; [|split; [done|lia]].
    rewrite decide_False; [apply M7; try done|].
    + intros j Hj. apply Hne. lia.
    + intros [= -> ->]. by apply (Hne k); [lia|].
  - eapply same_but_trans; [exact M8|].
    eapply same_but_mono; [|by apply (store_same_but _ (PX 0 va) pt)]. intros x <-.
    destruct (M5 _ Hpt); [by right|by left].
Qed.

Lemma mappages_loop_S fuel pagetable a last pa perm s :
  mappages_loop (S fuel) pagetable a last pa perm s =
  (pte ← walk pagetable a true;
   if pte =? 0 then mret (-1) else
   v ← ld64 pte;
   if has PTE_V v then panic "mappages: remap" else
   st64 pte (pte_mk pa perm);;
   if a =? last then mret 0
   else mappages_loop fuel pagetable (u64 (a + PGSIZE)) last (u64 (pa + PGSIZE)) perm) s.
Proof. done. Qed.

Lemma mappages_loop_spec root a pa perm n k j s l s1 l1 :
  map_ok s l root a pa perm n → mapped root a pa perm k s l s1 l1 →
  0 ≤ k → k + Z.of_nat (S j) = n →
  ∃ r s' l' k', mappages_loop (S j) root (a + k * PGSIZE) (a + (n - 1) * PGSIZE)
      (pa + k * PGSIZE) perm s1 = Ok r s' ∧ mapped root a pa perm k' s l s' l' ∧
    ((r = 0 ∧ k' = n) ∨ (r = -1 ∧ k ≤ k' < n ∧ l' = [])).
Proof.
  revert k s1 l1; induction j as [|j IH]; intros k s1 l1 Hok Hm Hk Hn.
  all: pose proof Hok as [_ Ha Hpa Hperm _ _].
  all: set (va := a + k * PGSIZE).
  all: assert (0 ≤ va < MAXVA) as Hva by (unfold va, PGSIZE in *; lia).
  all: destruct (walk_alloc root va s1 l1 (mp_inv _ _ _ _ _ _ _ _ _ Hm) ltac:(lia))
    as (w & s2 & l2 & E & Hg & Hw).
  all: rewrite mappages_loop_S; fold va; erewrite bind_Ok by exact E.
  all: pose proof (mapped_grow _ _ _ _ _ _ _ _ _ _ _ Hm Hg) as Hm2.
  all: destruct Hw as [[-> ->]|(pt & Hpt & ->)];
    [exists (-1), s2, [], k; split; [done|]; split; [done|]; right; split_and!; (done || lia)|].
  all: assert (pt + 8 * PX 0 va ≠ 0) as Hnz by
    (pose proof (PX_idx 0 va ltac:(lia)) as Hi0; unfold idx in Hi0;
     destruct (as_own _ _ _ _ (vi_as _ _ _ (mp_inv _ _ _ _ _ _ _ _ _ Hm2)) _ pt
       (table_owned _ (table_path_va va)) Hpt) as [Hpg _];
     apply page_ok_range in Hpg; lia).
  all: rewrite (proj2 (Z.eqb_neq _ _) Hnz); vstep.
  all: assert (has PTE_V (load64 (k_mem s2) (pt + 8 * PX 0 va)) = false) as Hf by
    (pose proof (mp_pte _ _ _ _ _ _ _ _ _ Hm2 va Hva) as Hp;
     rewrite decide_False in Hp by (unfold va; lia);
     pose proof (mo_free _ _ _ _ _ _ _ Hok k ltac:(lia)) as Hp0; fold va in Hp0; rewrite Hp0 in Hp;
     unfold pte_of, ent in Hp; rewrite Hpt in Hp; simpl in Hp;
     destruct (has PTE_V _); done).
  all: rewrite Hf; vstep.
  all: pose proof (mapped_snoc root a pa perm n k _ _ _ _ _ Hok ltac:(lia) Hm2 Hpt) as Hm3;
    fold va in Hm3.
  - replace (a + (n - 1) * PGSIZE) with va by (unfold va; lia). rewrite Z.eqb_refl.
    eexists 0, _, l2, (k + 1). split; [done|]. split; [exact Hm3|]. left. lia.
  - destruct (Z.eqb_spec va (a + (n - 1) * PGSIZE)) as [?|_];
      [unfold va, PGSIZE in *; lia|].
    rewrite !u64_id by (assert (MAXVA = 2 ^ 38) as HM by reflexivity; unfold PGSIZE in *; lia).
    replace (va + PGSIZE) with (a + (k + 1) * PGSIZE) by (unfold va; lia).
    replace (pa + k * PGSIZE + PGSIZE) with (pa + (k + 1) * PGSIZE) by lia.
    destruct (IH (k + 1) _ _ Hok Hm3 ltac:(lia) ltac:(lia)) as (r & s' & l' & k' & E' & Hm' & Hr).
    exists r, s', l', k'. split; [exact E'|]. split; [done|]. destruct Hr as [?|(? & ? & ?)]; [by left|right; split_and!; (done || lia)].
Qed.

Lemma PGROUNDDOWN_in a o : aligned a → 0 ≤ a → 0 ≤ o < PGSIZE → a + o < 2 ^ 64 → PGROUNDDOWN (a + o) = a.
Proof.
  intros Ha H0 Ho Hlt. rewrite PGROUNDDOWN_eq by lia.
  rewrite <- Zplus_mod_idemp_l. unfold aligned in Ha. rewrite Ha, Z.add_0_l, Z.mod_small by lia. lia.
Qed.

(** A mapping of [n] whole pages: all of them, or a prefix when memory for
    the tables runs out. *)
Lemma mappages_spec root a pa perm n s l :
  vm_inv s root l → map_ok s l root a pa perm n →
  ∃ r s' l' k, mappages root a (n * PGSIZE) pa perm s = Ok r s' ∧
    mapped root a pa perm k s l s' l' ∧
    ((r = 0 ∧ k = n) ∨ (r = -1 ∧ 0 ≤ k < n ∧ l' = [])).
Proof.
  intros Hinv Hok. pose proof Hok as [Hn (Ha1 & Ha2 & Ha3) Hpa Hperm _ _].
  assert (MAXVA = 2 ^ 38) as HM by reflexivity.
  unfold mappages. destruct (Z.eqb_spec (n * PGSIZE) 0); [unfold PGSIZE in *; lia|].
  replace (PGROUNDDOWN a) with a.
  2:{ rewrite <- (Z.add_0_r a) at 2. rewrite PGROUNDDOWN_in; unfold PGSIZE in *; (done || lia). }
  replace (PGROUNDDOWN (u64 (a + n * PGSIZE - 1))) with (a + (n - 1) * PGSIZE).
  2:{ rewrite u64_id by (unfold PGSIZE in *; lia).
      replace (a + n * PGSIZE - 1) with ((a + (n - 1) * PGSIZE) + (PGSIZE - 1)) by lia.
      rewrite PGROUNDDOWN_in; try (unfold PGSIZE in *; lia). by apply aligned_mul. }
  replace (u64 (a + (n - 1) * PGSIZE - a) / PGSIZE) with (n - 1).
  2:{ rewrite u64_id by (unfold PGSIZE in *; lia).
      replace (a + (n - 1) * PGSIZE - a) with ((n - 1) * PGSIZE) by lia.
      rewrite Z.div_mul; unfold PGSIZE; lia. }
  rewrite Z.min_l.
  2:{ apply Z.div_le_lower_bound; unfold PGSIZE in *; lia. }
  destruct (mappages_loop_spec root a pa perm n 0 (Z.to_nat (n - 1)) s l s l Hok
    (mapped_0 _ _ _ _ _ _ Hinv) ltac:(lia) ltac:(lia)) as (r & s' & l' & k & E & Hm & Hr).
  replace (a + 0 * PGSIZE) with a in E by lia. replace (pa + 0 * PGSIZE) with pa in E by lia.
  exists r, s', l', k. auto.
Qed.
End walk.
