(* ===== verification/VmSpec.v ===== *)
(** * Address spaces: growing, shrinking, copying and freeing

    Each step of [vm.c] moves pages between three places: the allocator's
    free list [l], the pages [X] the running function holds in a local
    variable, and the address space.  [upd] says that a run of steps loses
    and duplicates no page, and which mappings it may have changed. *)

From stdpp Require Import options.
From S2P Require Import Prelude CString State Sched Kalloc Vm PageTable VmWalk.
#[local] Open Scope Z_scope.
#[local] Existing Instance user_leaves.

(** The byte at a virtual address. *)
Definition uaddr (m : mem) (root va : Z) : option Z :=
  (λ v, PTE2PA v + va mod PGSIZE) <$> pte_of m root va.
Definition ubyte (m : mem) (root va : Z) : option Z := rd m <$> uaddr m root va.

Record vmx (s : kst) (root : Z) (l X : list Z) : Prop := {
  vx_kmem : kmem_inv s l;
  vx_as : as_wf (ly_end (k_ly s)) (k_mem s) root (l ++ X);
  vx_nodup : NoDup (l ++ X);
  vx_ok : Forall (page_ok (ly_end (k_ly s))) X;
  vx_held : LK_kmem ∉ k_held s;
}.

Record upd (root : Z) (s : kst) (l X : list Z) (s' : kst) (l' X' : list Z)
    (D : list Z → Prop) : Prop := {
  u_rest : vm_rest s s';
  u_inv : vmx s' root l' X';
  u_pages q : (q ∈ l' ++ X' ∨ owns (k_mem s') root q) ↔
              (q ∈ l ++ X ∨ owns (k_mem s) root q);
  u_ent p i : length p = 2%nat → Forall idx (p ++ [i]) → ¬ D (p ++ [i]) →
    ent (k_mem s') root p i = ent (k_mem s) root p i;
  u_bytes p q a : length p = 3%nat → owned_path p → ¬ D p →
    node (k_mem s) root p = Some q → in_page q a → rd (k_mem s') a = rd (k_mem s) a;
  u_same : same_but (λ q, q ∈ l ++ X ∨ owns (k_mem s) root q) (k_mem s) (k_mem s');
}.
Definition nowhere (p : list Z) : Prop := False.
Lemma not_nowhere p : ¬ nowhere p.
Proof. intros []. Qed.
#[export] Hint Resolve not_nowhere : core.
(** The paths of the pages from [a] to [b]. *)
Definition va_of (p : list Z) : Z :=
  match p with
  | [i; j; k] => i * 2 ^ 30 + j * 2 ^ 21 + k * 2 ^ 12
  | _ => 0
  end.
Definition range (a b : Z) (p : list Z) : Prop := a ≤ va_of p < b.

Lemma va_of_path va : 0 ≤ va < MAXVA → va_of (va_path va) = va / PGSIZE * PGSIZE.
Proof.
  intros Hva. destruct (va_decompose va Hva) as [-> _]. simpl. unfold PGSIZE. lia.
Qed.
Lemma range_one va p :
  aligned va → 0 ≤ va < MAXVA → va_path va = p → range va (va + PGSIZE) p.
Proof.
  intros Hal Hva <-. unfold range. rewrite va_of_path by done.
  pose proof (aligned_div va 0 Hal) as Hd. rewrite Z.mul_0_l, Z.add_0_r in Hd.
  unfold PGSIZE in *. lia.
Qed.

Lemma split3 (p : list Z) : length p = 3%nat → ∃ p1 i, p = p1 ++ [i] ∧ length p1 = 2%nat.
Proof.
  intros Hl. destruct p as [|x [|y [|z []]]]; try done. by exists [x; y], z.
Qed.

Lemma upd_refl root s l X : vmx s root l X → upd root s l X s l X nowhere.
Proof. intros H. split; try done. apply vm_rest_refl. Qed.
Lemma upd_mono root s l X s' l' X' (D D' : list Z → Prop) :
  (∀ p, D p → D' p) → upd root s l X s' l' X' D → upd root s l X s' l' X' D'.
Proof.
  intros HD [U1 U2 U3 U4 U5 U6]. split; try done.
  - intros p i ???. apply U4; try done. auto.
  - intros p q a ????. apply (U5 p q a); try done. auto.
Qed.
Lemma upd_node root s l X s' l' X' D p :
  upd root s l X s' l' X' D → length p = 3%nat → Forall idx p → ¬ D p →
  node (k_mem s') root p = node (k_mem s) root p.
Proof.
  intros HU Hl Hi Hn. destruct (split3 p Hl) as (p1 & i & -> & Hl1).
  rewrite !node_snoc. by rewrite (u_ent _ _ _ _ _ _ _ _ HU).
Qed.
Lemma upd_trans root s1 l1 X1 s2 l2 X2 s3 l3 X3 D :
  upd root s1 l1 X1 s2 l2 X2 D → upd root s2 l2 X2 s3 l3 X3 D →
  upd root s1 l1 X1 s3 l3 X3 D.
Proof.
  intros H1 H2. split.
  - eapply vm_rest_trans; [apply H1|apply H2].
  - apply H2.
  - intros q. rewrite (u_pages _ _ _ _ _ _ _ _ H2). apply (u_pages _ _ _ _ _ _ _ _ H1).
  - intros p i ???. rewrite (u_ent _ _ _ _ _ _ _ _ H2) by done. by apply H1.
  - intros p q a ?? HD E Ha. rewrite (u_bytes _ _ _ _ _ _ _ _ H2 p q) by
      (try done; rewrite (upd_node _ _ _ _ _ _ _ _ _ H1); try done; by destruct H0).
    by apply (u_bytes _ _ _ _ _ _ _ _ H1 p q).
  - eapply same_but_trans; [apply H1|].
    eapply same_but_mono; [|apply (u_same _ _ _ _ _ _ _ _ H2)].
    intros q. apply (u_pages _ _ _ _ _ _ _ _ H1).
Qed.

Lemma vmx_vm_inv s root l X : vmx s root l X → vm_inv s root l.
Proof.
  intros [H1 H2 H3 H4 H5]. split; try done.
  eapply as_wf_same_but; [done|by apply (same_but_refl (λ _, False))|done|].
  intros q Hq. left. set_solver.
Qed.
Lemma vmx_limbo s root l X q :
  vmx s root l X → q ∈ X → q ∉ l ∧ ¬ owns (k_mem s) root q ∧ page_ok (ly_end (k_ly s)) q.
Proof.
  intros [H1 H2 H3 H4 H5] Hq. apply NoDup_app in H3 as (_ & Hd & _).
  split; [intros Hl; by apply (Hd q)|]. split.
  - intros Ho. destruct (owns_ok _ _ _ _ _ H2 Ho). set_solver.
  - rewrite Forall_forall in H4. by apply H4.
Qed.

(** *** Steps on pages in a local variable *)

Lemma upd_kalloc root s q l X :
  vmx s root (q :: l) X → upd root s (q :: l) X (kalloc_post q s) l (q :: X) nowhere.
Proof.
  intros [H1 H2 H3 H4 H5]. pose proof (kalloc_inv _ _ _ H1) as (K1 & K2 & K3 & K4 & K5).
  assert (same_but (eq q) (k_mem s) (k_mem (kalloc_post q s))) as Hs.
  { apply memset_same_but. }
  assert (∀ x, q = x → aligned x ∧ ¬ tabs (k_mem s) root x) as HP.
  { intros x <-. split; [apply K3|]. intros Ht%tabs_owns.
    destruct (owns_ok _ _ _ _ _ H2 Ht). set_solver. }
  assert (∀ p, owned_path p → node (k_mem (kalloc_post q s)) root p = node (k_mem s) root p)
    as HN.
  { intros p (?&?&_). by apply (node_same_but _ _ _ _ _ _ p H2 Hs HP). }
  split.
  - apply vm_rest_kalloc.
  - split; [done| | |by constructor|done].
    + eapply (as_wf_same_but _ _ _ _ _ _ _ H2 Hs HP). intros x Hx. left. set_solver.
    + eapply NoDup_Permutation_proper; [|exact H3]. symmetry. apply Permutation_middle.
  - intros x. assert (owns (k_mem (kalloc_post q s)) root x ↔ owns (k_mem s) root x) as ->.
    { split; intros (p & Hp & E); exists p; (split; [done|]); by rewrite HN in *. }
    set_solver.
  - intros p i Hl Hi _. apply Forall_app in Hi as [Hi1 [Hi2 _]%Forall_cons].
    apply (ent_same_but _ _ _ _ _ _ p i H2 Hs HP); [split; [done|lia]|done].
  - intros p x a Hl Hp _ E Ha. apply Hs. intros y <-.
    destruct (as_own _ _ _ _ H2 p x Hp E) as [Hok Hni].
    apply (pages_disjoint x q); try done; [apply Hok|apply K3|]. set_solver.
  - eapply same_but_mono; [|exact Hs]. intros x <-. left. set_solver.
Qed.

(** Writing the bytes of such a page. *)
Lemma upd_write root s l X q m :
  vmx s root l X → q ∈ X → same_but (eq q) (k_mem s) m → mem_ok m →
  upd root s l X (set_k_mem m s) l X nowhere.
Proof.
  intros Hv Hq Hs Hm. destruct (vmx_limbo _ _ _ _ _ Hv Hq) as (Q1 & Q2 & Q3).
  destruct Hv as [H1 H2 H3 H4 H5].
  assert (∀ x, q = x → aligned x ∧ ¬ tabs (k_mem s) root x) as HP.
  { intros x <-. split; [apply Q3|]. by intros Ht%tabs_owns. }
  assert (∀ p, owned_path p → node m root p = node (k_mem s) root p) as HN.
  { intros p (?&?&_). by apply (node_same_but _ _ _ _ _ _ p H2 Hs HP). }
  split.
  - apply vm_rest_mem.
  - split; try done.
    + apply (kmem_inv_mem _ _ _ (eq q)); try done. intros x <-. split; [apply Q3|done].
    + eapply (as_wf_same_but _ _ _ _ _ _ _ H2 Hs HP). intros x Hx. by left.
  - intros x. simpl. assert (owns m root x ↔ owns (k_mem s) root x) as ->; [|done].
    split; intros (p & Hp & E); exists p; (split; [done|]); by rewrite HN in *.
  - intros p i Hl Hi _. apply Forall_app in Hi as [Hi1 [Hi2 _]%Forall_cons].
    apply (ent_same_but _ _ _ _ _ _ p i H2 Hs HP); [split; [done|lia]|done].
  - intros p x a Hl Hp _ E Ha. apply Hs. intros y <-.
    destruct (as_own _ _ _ _ H2 p x Hp E) as [Hok Hni].
    apply (pages_disjoint x q); try done; [apply Hok|apply Q3|]. set_solver.
  - eapply same_but_mono; [|exact Hs]. intros x <-. left. set_solver.
Qed.

Lemma kfree_same_but q s : same_but (eq q) (k_mem s) (k_mem (kfree_post q s)).
Proof. intros a Ha. apply kfree_frame. by apply Ha. Qed.

Lemma upd_kfree root s l q X :
  vmx s root l (q :: X) → upd root s l (q :: X) (kfree_post q s) (q :: l) X nowhere.
Proof.
  intros Hv. destruct (vmx_limbo _ _ _ _ q Hv ltac:(set_solver)) as (Q1 & Q2 & Q3).
  pose proof (vm_rest_kfree q s) as Hrest. pose proof (kfree_same_but q s) as Hs.
  pose proof (kfree_inv s q l (vx_kmem _ _ _ _ Hv) Q3 Q1) as HI.
  generalize dependent (kfree_post q s). intros s' Hrest Hs HI.
  pose proof (upd_write root s l (q :: X) q _ Hv ltac:(set_solver) Hs (km_mem _ _ HI))
    as [U1 U2 U3 U4 U5 U6].
  destruct U2 as [V1 V2 V3 V4 V5]. apply Forall_cons in V4 as [_ V4].
  assert (l ++ q :: X ≡ₚ (q :: l) ++ X) as HP by (symmetry; apply Permutation_middle).
  split; [exact Hrest| | |exact U4|exact U5|exact U6].
  - simpl in V5. rewrite <- (vm_rest_held _ _ Hrest) in V5. split; [exact HI| | | |exact V5].
    + rewrite (vm_rest_ly _ _ Hrest).
      eapply as_wf_same_but; [exact V2|by apply (same_but_refl (λ _, False))|done|].
      intros x Hx. left. by rewrite HP.
    + by rewrite <- HP.
    + by rewrite (vm_rest_ly _ _ Hrest).
  - intros x. rewrite <- HP. apply U3.
Qed.

(** *** Mapping one page *)

(** A leaf page is neither free nor a table. *)
Lemma leaf_not_table e m root l p q x :
  as_wf e m root l → length p = 3%nat → owned_path p → node m root p = Some q →
  tabs m root x → x ≠ q.
Proof.
  intros Hwf Hl Hp E (p1 & Hp1 & E1) ->.
  assert (p = p1) as -> by (apply (as_inj _ _ _ _ Hwf _ _ q); auto).
  destruct Hp1. lia.
Qed.

Lemma sub_list_nodup (l l' X : list Z) :
  NoDup l' → l' ⊆ l → NoDup (l ++ X) → NoDup (l' ++ X).
Proof.
  intros Hl Hs (_ & Hd & HX)%NoDup_app. apply NoDup_app. split; [done|]. split; [|done].
  intros x Hx. apply Hd. by apply Hs.
Qed.

(** The tables of [m'] come from those of [m] and from [l]. *)
Lemma same_but_leaf_bytes e m m' root (l L : list Z) p q a :
  as_wf e m root L → l ⊆ L → same_but (λ q, q ∈ l ∨ tabs m root q) m m' →
  Forall (λ q, aligned q) l → length p = 3%nat → owned_path p →
  node m root p = Some q → in_page q a → rd m' a = rd m a.
Proof.
  intros Hwf Hl Hs Hal Hlen Hp E Ha. destruct (as_own _ _ _ _ Hwf p q Hp E) as [Hok Hni].
  apply (same_but_page _ _ _ q a Hs); [|apply Hok|done].
  intros x [Hx|Hx].
  - split; [rewrite Forall_forall in Hal; by apply Hal|]. intros ->. by apply Hni, Hl.
  - split; [apply (owns_ok _ _ _ _ _ Hwf (tabs_owns _ _ _ Hx))|].
    intros <-. by eapply (leaf_not_table _ _ _ _ p q q).
Qed.

Lemma upd_mapped_none root s l X a pa perm s' l' :
  vmx s root l X → mapped root a pa perm 0 s l s' l' → upd root s l X s' l' X nowhere.
Proof.
  intros Hv [M1 M2 M3 M4 M5 M6 M7 M8]. pose proof Hv as [H1 H2 H3 H4 H5].
  assert (∀ q, q ∈ l' ∨ owns (k_mem s') root q ↔ q ∈ l ∨ owns (k_mem s) root q) as Hpg.
  { intros q. rewrite M3. split; [intros [?|[?|(i & ? & _)]]; [tauto|tauto|lia]|tauto]. }
  assert (same_but (λ q, q ∈ l ++ X ∨ owns (k_mem s) root q) (k_mem s) (k_mem s')) as Hs.
  { eapply same_but_mono; [|exact M8]. intros q [?|?%tabs_owns]; [left; set_solver|by right]. }
  split; try done.
  - destruct M2 as [N1 N2 N3]. split; try done.
    + eapply as_wf_same_but; [exact N2|by apply (same_but_refl (λ _, False))|done|].
      intros q [?|Hq]%elem_of_app; [by left|right]. intros Ho.
      destruct (vmx_limbo _ _ _ _ _ Hv Hq) as (? & ? & _).
      destruct (proj1 (Hpg q) (or_intror Ho)); done.
    + apply (sub_list_nodup l); [apply N1|done|done].
    + by rewrite (vm_rest_ly _ _ M1).
  - intros q. specialize (Hpg q). rewrite !elem_of_app; tauto.
  - intros p i Hl Hi _. apply M7; try done. intros; lia.
  - intros p q b Hl Hp _ E Hb. eapply (same_but_leaf_bytes _ _ _ root l (l ++ X) p q b);
      try done; [set_solver|]. by eapply kmem_aligned.
Qed.

Lemma va_path_page va : va_path va = [PX 2 va; PX 1 va] ++ [PX 0 va].
Proof. done. Qed.

Lemma upd_mapped_one root s l q X va perm s' l' :
  vmx s root l (q :: X) → aligned va → 0 ≤ va < TRAPFRAME →
  mapped root va q perm 1 s l s' l' → pte_of (k_mem s) root va = None →
  upd root s l (q :: X) s' l' X (range va (va + PGSIZE)).
Proof.
  intros Hv Hal Hva [M1 M2 M3 M4 M5 M6 M7 M8] Hnone. pose proof Hv as [H1 H2 H3 H4 H5].
  assert (owned_path (va_path va)) as Ho by (by apply owned_va_path).
  assert (∀ x, x ∈ l' ∨ owns (k_mem s') root x ↔
    x ∈ l ∨ owns (k_mem s) root x ∨ x = q) as Hpg.
  { intros x. rewrite M3. split.
    - intros [?|[?|(i & ? & ? & ->)]]; [tauto|tauto|]. right; right. assert (i = 0) as -> by lia. lia.
    - intros [?|[?| ->]]; [tauto|tauto|]. right; right. exists 0.
      replace (va + 0 * PGSIZE) with va by lia. split; [lia|]. split; [done|lia]. }
  assert (same_but (λ x, x ∈ l ++ q :: X ∨ owns (k_mem s) root x) (k_mem s) (k_mem s')) as Hs.
  { eapply same_but_mono; [|exact M8]. intros x [?|?%tabs_owns]; [left; set_solver|by right]. }
  split; try done.
  - destruct M2 as [N1 N2 N3]. split; try done.
    + eapply as_wf_same_but; [exact N2|by apply (same_but_refl (λ _, False))|done|].
      intros x [?|Hx]%elem_of_app; [by left|right]. intros Hox.
      destruct (vmx_limbo _ _ _ _ x Hv ltac:(set_solver)) as (? & ? & _).
      destruct (proj1 (Hpg x) (or_intror Hox)) as [?|[?| ->]]; [done|done|].
      apply NoDup_app in H3 as (_ & _ & H3). by apply NoDup_cons in H3 as [? _].
    + apply (sub_list_nodup l); [apply N1|done|]. apply NoDup_app in H3 as (? & Hd & H3).
      apply NoDup_cons in H3 as [? ?]. apply NoDup_app. split; [done|]. split; [|done].
      intros x Hx. specialize (Hd x Hx). set_solver.
    + rewrite (vm_rest_ly _ _ M1). by apply Forall_cons in H4 as [_ ?].
  - intros x. specialize (Hpg x). rewrite !elem_of_app, elem_of_cons; tauto.
  - intros p i Hl Hi Hn. apply M7; try done. intros j Hj E. apply Hn. apply range_one; [done| |].
    + assert (TRAPFRAME < MAXVA) by done. lia.
    + rewrite E. f_equal. assert (j = 0) as -> by lia. lia.
  - intros p x b Hl Hp _ E Hb.
    eapply (same_but_leaf_bytes _ _ _ root l (l ++ q :: X) p x b); try done; [set_solver|].
    by eapply kmem_aligned.
Qed.

Lemma mappages_page root s l q X va perm :
  vmx s root l (q :: X) → aligned va → 0 ≤ va < TRAPFRAME →
  pte_of (k_mem s) root va = None → 0 ≤ perm < 1024 →
  Z.land perm (Z.lor (Z.lor PTE_R PTE_W) PTE_X) ≠ 0 →
  ∃ r s' l', mappages root va PGSIZE q perm s = Ok r s' ∧
    ((r = 0 ∧ upd root s l (q :: X) s' l' X (range va (va + PGSIZE)) ∧
      pte_of (k_mem s') root va = Some (pte_mk q perm) ∧
      ∀ a, in_page q a → rd (k_mem s') a = rd (k_mem s) a) ∨
     (r = -1 ∧ upd root s l (q :: X) s' l' (q :: X) nowhere)).
Proof.
  intros Hv Hal Hva Hnone Hperm Hrwx.
  destruct (vmx_limbo _ _ _ _ q Hv ltac:(set_solver)) as (Q1 & Q2 & Q3).
  pose proof (page_ok_range _ _ Q3) as [Q4 Q5].
  assert (MAXVA = 2 ^ 38 ∧ TRAPFRAME = 2 ^ 38 - 8192) as [HM HT] by done.
  assert (map_ok s l root va q perm 1) as Hok.
  { split; try done; try lia.
    - split; [done|]. unfold PGSIZE. apply Z.mod_divide in Hal as [j Hj]; [|by compute].
      unfold PGSIZE in Hj. lia.
    - split; [apply Q3|]. unfold PHYSTOP, KERNBASE, PGSIZE in *. lia.
    - intros i Hi. replace (va + i * PGSIZE) with va by (assert (i = 0) as -> by lia; lia). done.
    - intros i Hi _. replace (q + i * PGSIZE) with q by (assert (i = 0) as -> by lia; lia). split; [done|]. tauto. }
  destruct (mappages_spec root va q perm 1 s l (vmx_vm_inv _ _ _ _ Hv) Hok)
    as (r & s' & l' & k & E & Hm & Hr). rewrite Z.mul_1_l in E.
  exists r, s', l'. split; [done|]. destruct Hr as [[-> ->]|(-> & Hk & ->)].
  - left. split; [done|]. split; [by apply (upd_mapped_one root s l q X va perm)|].
    pose proof Hm as [M1 M2 M3 M4 M5 M6 M7 M8]. split.
    + rewrite M6 by lia. rewrite decide_True by (unfold PGSIZE; lia). f_equal. f_equal.
      pose proof (aligned_div va 0 Hal) as Hd. rewrite Z.mul_0_l, Z.add_0_r in Hd. lia.
    + intros a Ha. apply (same_but_page _ _ _ q a M8); [|apply Q3|done].
      intros x [Hx|Hx].
      * split; [|by intros ->].
        pose proof (kmem_aligned _ _ (vx_kmem _ _ _ _ Hv)) as Hla.
        rewrite Forall_forall in Hla. by apply Hla.
      * apply tabs_owns in Hx. split; [|by intros ->].
        apply (owns_ok _ _ _ _ _ (vx_as _ _ _ _ Hv) Hx).
  - right. split; [done|]. assert (k = 0) as -> by lia. by eapply upd_mapped_none.
Qed.

(** *** Unmapping one page *)

Lemma upd_unmap root s l X va v s1 :
  let q := PTE2PA v in
  vmx s root l X → 0 ≤ va < TRAPFRAME → pte_of (k_mem s) root va = Some v →
  vm_rest s s1 → kmem_inv s1 (q :: l) → same_but (eq q) (k_mem s) (k_mem s1) →
  let s2 := set_k_mem (store64 (k_mem s1) (walk_result (k_mem s) root va) 0) s1 in
  upd root s l X s2 (q :: l) X (eq (va_path va)) ∧ pte_of (k_mem s2) root va = None ∧
  load64 (k_mem s1) (walk_result (k_mem s) root va) = v.
Proof.
  intros q Hv Hva Hpte Hrest HI Hs. pose proof Hv as [H1 H2 H3 H4 H5].
  destruct (pte_of_walk _ _ _ _ Hpte) as (pt & Hpt & -> & Hld & HV). intros s2.
  assert (owned_path (va_path va)) as Ho by (by apply owned_va_path).
  assert (node (k_mem s) root (va_path va) = Some q) as Hq by (by rewrite node_va_path, Hpte).
  destruct (as_own _ _ _ _ H2 _ _ Ho Hq) as [Hok Hni].
  assert (tabs (k_mem s) root pt) as Ht by (exists [PX 2 va; PX 1 va]; auto).
  assert (pt ≠ q) as Hne by (by eapply (leaf_not_table _ _ _ _ (va_path va))).
  destruct (owns_ok _ _ _ _ _ H2 (tabs_owns _ _ _ Ht)) as [Hpok Hpni].
  assert (∀ x, q = x → aligned x ∧ ¬ tabs (k_mem s) root x) as HP.
  { intros x <-. split; [apply Hok|]. intros Hx.
    by apply (leaf_not_table _ _ _ _ (va_path va) q q H2). }
  assert (∀ p, Forall idx p → (length p ≤ 3)%nat →
    node (k_mem s1) root p = node (k_mem s) root p) as HN.
  { intros p ??. by apply (node_same_but _ _ _ _ _ _ p H2 Hs HP). }
  assert (∀ p i, table_path p → idx i →
    ent (k_mem s1) root p i = ent (k_mem s) root p i) as HE.
  { intros p i ??. by apply (ent_same_but _ _ _ _ _ _ p i H2 Hs HP). }
  assert (as_wf (ly_end (k_ly s)) (k_mem s1) root (l ++ X)) as HA.
  { eapply (as_wf_same_but _ _ _ _ _ _ _ H2 Hs HP). by left. }
  assert (∀ x, owns (k_mem s1) root x ↔ owns (k_mem s) root x) as HO.
  { intros x. split; intros (p & Hp & E); exists p; (split; [done|]);
      rewrite HN in *; (done || apply Hp). }
  assert (Forall idx [PX 2 va; PX 1 va]) as Hpi by apply (table_path_va va).
  assert (idx (PX 0 va)) as Hi0 by (apply PX_idx; lia).
  assert (node (k_mem s1) root [PX 2 va; PX 1 va] = Some pt) as Hpt1.
  { rewrite HN; [done|done|simpl; lia]. }
  assert (0 ≤ 0 < 2 ^ 64) as H0 by lia.
  pose proof (leaf_wf _ _ _ _ [PX 2 va; PX 1 va] (PX 0 va) pt 0 HA Hpi eq_refl Hi0 Hpt1 H0
    ltac:(done) ltac:(done)) as HW.
  assert (∀ x, owns (k_mem s2) root x ↔ owns (k_mem s1) root x ∧ x ≠ q) as HO2.
  { intros x. apply (leaf_owns_unmap (ly_end (k_ly s)) (k_mem s1) root (l ++ X) [PX 2 va; PX 1 va] (PX 0 va) pt 0); try done.
    change (node (k_mem s1) root (va_path va) = Some q). rewrite HN; [done| |simpl; lia].
    apply va_path_idx. }
  assert (same_but (λ x, x = q ∨ x = pt) (k_mem s) (k_mem s2)) as Hs2.
  { eapply same_but_trans.
    - eapply same_but_mono; [|exact Hs]. intros x <-. by left.
    - eapply same_but_mono; [|by apply (store_same_but _ (PX 0 va) pt)]. intros x <-. by right. }
  split; [split|split].
  - eapply vm_rest_trans; [exact Hrest|apply vm_rest_mem].
  - split; simpl; rewrite ?(vm_rest_ly _ _ Hrest), ?(vm_rest_held _ _ Hrest); try done.
    + apply (kmem_inv_mem s1 _ _ (eq pt)); [done|by apply store_same_but| |].
      * intros x <-. split; [apply Hpok|]. set_solver.
      * apply mem_ok_store64, HI.
    + eapply as_wf_same_but; [exact HW|by apply (same_but_refl (λ _, False))|done|].
      intros x [->|Hx]%elem_of_cons; [right; intros Hx; apply HO2 in Hx; tauto|by left].
    + constructor; done.
  - intros x. rewrite HO2, HO. split.
    + intros [[->|?]%elem_of_cons|[??]]; [right; by exists (va_path va)|by left|by right].
    + intros [?|?]; [left; set_solver|]. destruct (decide (x = q)) as [->|];
        [left; set_solver|by right].
  - intros p i Hl Hi Hne'. simpl. apply Forall_app in Hi as Hi'.
    destruct Hi' as [Hi1 [Hi2 _]%Forall_cons].
    rewrite (leaf_ent (ly_end (k_ly s)) _ root (l ++ X) [PX 2 va; PX 1 va]);
      try done; [|split; [done|lia]].
    rewrite decide_False; [apply HE; [split; [done|lia]|done]|].
    intros [= -> ->]. by apply Hne'.
  - intros p x a Hl Hp Hd E Ha. destruct (as_own _ _ _ _ H2 p x Hp E) as [Hok' _].
    apply (same_but_page _ _ _ x a Hs2); [|apply Hok'|done].
    intros y [->| ->]; (split; [(apply Hok || apply Hpok)|]).
    + intros ->. apply Hd. by apply (as_inj _ _ _ _ H2 _ _ q).
    + intros ->. by apply (leaf_not_table _ _ _ _ p pt pt H2).
  - eapply same_but_mono; [|exact Hs2]. intros x [->| ->]; right.
    + by exists (va_path va).
    + by apply tabs_owns.
  - simpl. rewrite (leaf_pte_of (ly_end (k_ly s)) _ root (l ++ X)); try done;
      try (assert (TRAPFRAME < MAXVA) by done; lia). by rewrite decide_True.
  - rewrite <- Hld. apply load64_ext. intros a Ha.
    apply (same_but_page _ _ _ pt a Hs); [|apply Hpok|by apply (in_page_entry pt (PX 0 va))].
    intros x <-. split; [apply Hok|done].
Qed.

(** *** Ranges of addresses *)

Lemma range_va_path a b va :
  aligned a → aligned b → 0 ≤ va < MAXVA → range a b (va_path va) ↔ a ≤ va < b.
Proof.
  intros Ha Hb Hva. unfold range. rewrite va_of_path by done. unfold aligned, PGSIZE in *.
  apply Z.mod_divide in Ha as [i ->]; [|lia]. apply Z.mod_divide in Hb as [j ->]; [|lia].
  pose proof (Z.div_mod va 4096). pose proof (Z.mod_pos_bound va 4096). lia.
Qed.
Lemma range_sub a b a' b' p : a' ≤ a → b ≤ b' → range a b p → range a' b' p.
Proof. unfold range. lia. Qed.

Lemma upd_pte_of root s l X s' l' X' D va :
  upd root s l X s' l' X' D → ¬ D (va_path va) →
  pte_of (k_mem s') root va = pte_of (k_mem s) root va.
Proof. intros HU HD. apply (u_ent _ _ _ _ _ _ _ _ HU); [done|apply (va_path_idx va)|done]. Qed.

Lemma in_page_off q va : in_page q (q + va mod PGSIZE).
Proof. pose proof (Z.mod_pos_bound va PGSIZE). unfold in_page, PGSIZE in *. lia. Qed.

Lemma upd_ubyte root s l X s' l' X' D va :
  upd root s l X s' l' X' D → 0 ≤ va < TRAPFRAME → ¬ D (va_path va) →
  ubyte (k_mem s') root va = ubyte (k_mem s) root va.
Proof.
  intros HU Hva HD. unfold ubyte, uaddr. rewrite (upd_pte_of _ _ _ _ _ _ _ _ _ HU HD).
  destruct (pte_of (k_mem s) root va) as [v|] eqn:E; [|done]. simpl. f_equal.
  apply (u_bytes _ _ _ _ _ _ _ _ HU (va_path va) (PTE2PA v)); try done.
  - by apply owned_va_path.
  - by rewrite node_va_path, E.
  - apply in_page_off.
Qed.

(** ** uvmunmap *)

Lemma leaf_flags s root l X va v :
  vmx s root l X → pte_of (k_mem s) root va = Some v → PTE_FLAGS v ≠ PTE_V.
Proof.
  intros Hv Hp E.
  apply (as_leaf _ _ _ _ (vx_as _ _ _ _ Hv) [PX 2 va; PX 1 va] (PX 0 va) v); try done.
  - apply (va_path_idx va).
  - by rewrite land_flags, E.
Qed.

Lemma walk_result_pos s root l X va v :
  vmx s root l X → pte_of (k_mem s) root va = Some v → walk_result (k_mem s) root va ≠ 0.
Proof.
  intros Hv Hp. destruct (pte_of_walk _ _ _ _ Hp) as (pt & Hpt & -> & _).
  destruct (as_own _ _ _ _ (vx_as _ _ _ _ Hv) [PX 2 va; PX 1 va] pt) as [Hok _]; auto.
  apply page_ok_range in Hok. pose proof (PX_idx 0 va ltac:(lia)) as Hi. unfold idx in Hi. lia.
Qed.

Lemma uvmunmap_loop_spec n : ∀ root s l X a,
  vmx s root l X → aligned a → 0 ≤ a → a + Z.of_nat n * PGSIZE ≤ TRAPFRAME →
  (∀ i, 0 ≤ i < Z.of_nat n → is_Some (pte_of (k_mem s) root (a + i * PGSIZE))) →
  ∃ s' l', uvmunmap_loop n root a true s = Ok () s' ∧
    upd root s l X s' l' X (range a (a + Z.of_nat n * PGSIZE)) ∧
    ∀ i, 0 ≤ i < Z.of_nat n → pte_of (k_mem s') root (a + i * PGSIZE) = None.
Proof.
  assert (TRAPFRAME < MAXVA) as HT by done.
  induction n as [|n IH]; intros root s l X a Hv Hal Ha Hend Hsome.
  { exists s, l. split; [done|]. split; [|lia]. eapply upd_mono; [|by apply upd_refl]. done. }
  destruct (Hsome 0 ltac:(lia)) as [v Hp]. rewrite Z.mul_0_l, Z.add_0_r in Hp.
  assert (0 ≤ a < TRAPFRAME) as Hr by (unfold PGSIZE in *; lia).
  destruct (as_own _ _ _ _ (vx_as _ _ _ _ Hv) (va_path a) (PTE2PA v)) as [Hok Hni].
  { by apply owned_va_path. } { by rewrite node_va_path, Hp. }
  destruct (upd_unmap root s l X a v (kfree_post (PTE2PA v) s) Hv Hr Hp
    (vm_rest_kfree _ _) (kfree_inv _ _ _ (vx_kmem _ _ _ _ Hv) Hok ltac:(set_solver))
    (kfree_same_but _ _)) as (HU & Hnone & Hld).
  cbn [uvmunmap_loop]. erewrite bind_Ok by (apply walk_noalloc; lia).
  rewrite (proj2 (Z.eqb_neq _ _) (walk_result_pos _ _ _ _ _ _ Hv Hp)). vstep.
  destruct (pte_of_walk _ _ _ _ Hp) as (pt & Hpt & Ew & Hl & HV). rewrite Ew in *.
  rewrite Hl, HV. cbn [negb].
  rewrite (proj2 (Z.eqb_neq _ _) (leaf_flags _ _ _ _ _ _ Hv Hp)). cbn [when].
  erewrite bind_Ok by (apply kfree_Ok; [apply Hv|exact Hok]). vstep.
  generalize dependent (set_k_mem (store64 (k_mem (kfree_post (PTE2PA v) s)) (pt + 8 * PX 0 a) 0)
    (kfree_post (PTE2PA v) s)). intros s2 HU Hnone.
  destruct (IH root s2 (PTE2PA v :: l) X (a + PGSIZE)) as (s' & l' & E & HU2 & Hn2).
  - apply HU.
  - rewrite <- (Z.mul_1_l PGSIZE). by apply aligned_mul.
  - unfold PGSIZE; lia.
  - unfold PGSIZE in *; lia.
  - intros i Hi. rewrite (upd_pte_of _ _ _ _ _ _ _ _ _ HU).
    + replace (a + PGSIZE + i * PGSIZE) with (a + (i + 1) * PGSIZE) by lia. apply Hsome. lia.
    + intros Eq. apply va_path_inj in Eq; [|lia|unfold PGSIZE in *; lia].
      pose proof (aligned_div a 0 Hal) as D0. pose proof (aligned_div a (i + 1) Hal) as D1.
      replace (a + PGSIZE + i * PGSIZE) with (a + (i + 1) * PGSIZE) in Eq by lia.
      rewrite Z.mul_0_l, Z.add_0_r in D0. unfold PGSIZE in *. lia.
  - exists s', l'. split; [done|]. split.
    + eapply upd_trans.
      * eapply upd_mono; [|exact HU]. intros p Hd. apply range_one in Hd; [|done|lia].
        eapply range_sub; [| |exact Hd]; unfold PGSIZE; lia.
      * eapply upd_mono; [|exact HU2]. intros p. apply range_sub; unfold PGSIZE; lia.
    + intros i Hi. destruct (decide (i = 0)) as [->|].
      * rewrite Z.mul_0_l, Z.add_0_r. rewrite (upd_pte_of _ _ _ _ _ _ _ _ _ HU2); [done|].
        rewrite range_va_path; [unfold PGSIZE; lia| | |unfold PGSIZE in *; lia].
        -- rewrite <- (Z.mul_1_l PGSIZE). by apply aligned_mul.
        -- replace (a + PGSIZE + Z.of_nat n * PGSIZE) with (a + (Z.of_nat n + 1) * PGSIZE) by lia.
           by apply aligned_mul.
      * replace (a + i * PGSIZE) with (a + PGSIZE + (i - 1) * PGSIZE) by lia. apply Hn2. lia.
Qed.
