(* ===== verification/VmOps.v ===== *)
(** * [uvmdealloc], [uvmalloc], [uvmcopy] *)

From stdpp Require Import options.
From S2P Require Import Prelude CString State Sched Kalloc Vm PageTable VmWalk VmSpec.
#[local] Open Scope Z_scope.
#[local] Existing Instance user_leaves.

Lemma TRAPFRAME_val : TRAPFRAME = 2 ^ 38 - 8192.
Proof. done. Qed.
Lemma MAXVA_val : MAXVA = 2 ^ 38.
Proof. done. Qed.

Lemma aligned_0 : aligned 0.
Proof. done. Qed.
Lemma aligned_PGROUNDUP x : 0 ≤ x < 2 ^ 63 → aligned (PGROUNDUP x).
Proof. intros. apply PGROUNDUP_bounds. unfold PGSIZE. lia. Qed.
Lemma PGROUNDUP_le x b : 0 ≤ x ≤ b → aligned b → b < 2 ^ 63 → x ≤ PGROUNDUP x ≤ b.
Proof.
  intros Hx Hb Hlt. destruct (PGROUNDUP_bounds x) as [H1 H2]; [unfold PGSIZE; lia|].
  apply Z.mod_divide in H1 as [i Hi]; [|by compute].
  apply Z.mod_divide in Hb as [j Hj]; [|by compute].
  unfold PGSIZE in *. lia.
Qed.
Lemma PGROUNDUP_aligned x : aligned x → 0 ≤ x < 2 ^ 63 → PGROUNDUP x = x.
Proof.
  intros Hal Hx. pose proof (PGROUNDUP_le x x ltac:(lia) Hal ltac:(lia)). lia.
Qed.
Lemma aligned_TRAPFRAME : aligned TRAPFRAME.
Proof. done. Qed.
#[export] Hint Resolve aligned_0 aligned_TRAPFRAME aligned_mul : core.

(** The pages between two aligned addresses. *)
Lemma pages_between a b :
  aligned a → aligned b → a ≤ b → b = a + (b - a) / PGSIZE * PGSIZE ∧ 0 ≤ (b - a) / PGSIZE.
Proof.
  intros Ha Hb Hle. apply Z.mod_divide in Ha as [i ->]; [|by compute].
  apply Z.mod_divide in Hb as [j ->]; [|by compute].
  rewrite <- Z.mul_sub_distr_r, Z.div_mul by by compute. unfold PGSIZE in *. lia.
Qed.

(** ** uvmunmap and uvmdealloc *)

Lemma uvmunmap_spec root s l X a n :
  vmx s root l X → aligned a → 0 ≤ a → 0 ≤ n → a + n * PGSIZE ≤ TRAPFRAME →
  (∀ i, 0 ≤ i < n → is_Some (pte_of (k_mem s) root (a + i * PGSIZE))) →
  ∃ s' l', uvmunmap root a n true s = Ok () s' ∧
    upd root s l X s' l' X (range a (a + n * PGSIZE)) ∧
    ∀ i, 0 ≤ i < n → pte_of (k_mem s') root (a + i * PGSIZE) = None.
Proof.
  intros Hv Hal Ha Hn Hend Hsome. pose proof TRAPFRAME_val as HT. unfold uvmunmap.
  replace (a mod PGSIZE =? 0) with true by (symmetry; by apply Z.eqb_eq). cbn [negb].
  rewrite (u64_id (n * PGSIZE)), u64_id by (unfold PGSIZE in *; lia).
  replace ((a + n * PGSIZE - a) / PGSIZE) with n.
  2:{ replace (a + n * PGSIZE - a) with (n * PGSIZE) by lia. by rewrite Z.div_mul. }
  pose proof (uvmunmap_loop_spec (Z.to_nat n) root s l X a Hv Hal Ha) as H.
  rewrite Z2Nat.id in H by done. apply H; [lia|done].
Qed.

(** [is_Some] of every page in a range. *)
Definition all_mapped (m : mem) (root a b : Z) : Prop :=
  ∀ va, a ≤ va < b → is_Some (pte_of m root va).
Definition none_mapped (m : mem) (root a b : Z) : Prop :=
  ∀ va, a ≤ va < b → pte_of m root va = None.

Lemma pte_of_page m root va va' :
  0 ≤ va < MAXVA → 0 ≤ va' < MAXVA → va / PGSIZE = va' / PGSIZE →
  pte_of m root va = pte_of m root va'.
Proof.
  intros H H' E. unfold pte_of.
  apply va_decompose in H as [E1 B1], H' as [E2 B2].
  pose proof (PX_idx 0 va). pose proof (PX_idx 1 va). pose proof (PX_idx 2 va).
  pose proof (PX_idx 0 va'). pose proof (PX_idx 1 va'). pose proof (PX_idx 2 va').
  unfold idx in *. assert (PX 2 va = PX 2 va' ∧ PX 1 va = PX 1 va' ∧ PX 0 va = PX 0 va')
    as (-> & -> & ->) by lia. done.
Qed.
Lemma pages_none m root a n :
  aligned a → 0 ≤ a → a + n * PGSIZE ≤ MAXVA →
  (∀ i, 0 ≤ i < n → pte_of m root (a + i * PGSIZE) = None) →
  none_mapped m root a (a + n * PGSIZE).
Proof.
  intros Hal Ha Hend H va Hva.
  pose proof (aligned_div a 0 Hal) as Hd. rewrite Z.mul_0_l, Z.add_0_r in Hd.
  pose proof (Z.div_mod va PGSIZE). pose proof (Z.mod_pos_bound va PGSIZE).
  rewrite (pte_of_page _ _ va (a + (va / PGSIZE - a / PGSIZE) * PGSIZE)).
  - apply H. unfold PGSIZE in *. lia.
  - lia.
  - unfold PGSIZE in *. lia.
  - rewrite Z.div_add by by compute. lia.
Qed.

Lemma uvmdealloc_noop root s oldsz newsz :
  oldsz ≤ newsz → uvmdealloc root oldsz newsz s = Ok oldsz s.
Proof. intros H. unfold uvmdealloc. destruct (Z.leb_spec oldsz newsz); [done|lia]. Qed.

Lemma uvmdealloc_shrink root s l X oldsz newsz :
  vmx s root l X → 0 ≤ newsz < oldsz → oldsz ≤ TRAPFRAME →
  all_mapped (k_mem s) root (PGROUNDUP newsz) (PGROUNDUP oldsz) →
  ∃ s' l', uvmdealloc root oldsz newsz s = Ok newsz s' ∧
    upd root s l X s' l' X (range (PGROUNDUP newsz) (PGROUNDUP oldsz)) ∧
    none_mapped (k_mem s') root (PGROUNDUP newsz) (PGROUNDUP oldsz).
Proof.
  intros Hv Hnew Hold Hall. pose proof TRAPFRAME_val as HT. unfold uvmdealloc.
  destruct (Z.leb_spec oldsz newsz); [lia|].
  pose proof (PGROUNDUP_le oldsz TRAPFRAME ltac:(lia) aligned_TRAPFRAME ltac:(lia)) as Ho.
  pose proof (PGROUNDUP_le newsz (PGROUNDUP oldsz) ltac:(lia)
    (aligned_PGROUNDUP oldsz ltac:(lia)) ltac:(lia)) as Hn.
  assert (aligned (PGROUNDUP newsz) ∧ aligned (PGROUNDUP oldsz)) as [An Ao]
    by (split; apply aligned_PGROUNDUP; lia).
  set (a := PGROUNDUP newsz) in *. set (b := PGROUNDUP oldsz) in *.
  destruct (pages_between a b An Ao ltac:(lia)) as [Hb Hn0].
  destruct (Z.ltb_spec a b) as [Hlt|Hge]; cbn [when].
  - set (n := (b - a) / PGSIZE) in *.
    rewrite (u64_id (b - a)) by lia. fold n.
    rewrite i32_id, u64_id by (unfold PGSIZE in *; lia).
    destruct (uvmunmap_spec root s l X a n Hv An ltac:(lia) ltac:(lia) ltac:(lia))
      as (s' & l' & E & HU & Hno).
    { intros i Hi. apply Hall. unfold PGSIZE in *. lia. }
    exists s', l'. split; [by erewrite bind_Ok|]. rewrite <- Hb in HU. split; [done|].
    rewrite Hb. apply pages_none; try done; [lia|]. rewrite MAXVA_val. lia.
  - mstep. exists s, l. split; [done|]. split; [|intros va ?; lia].
    eapply upd_mono; [|by apply upd_refl]. done.
Qed.

(** ** uvmalloc *)

Lemma va_path_of p :
  Forall idx p → length p = 3%nat → va_path (va_of p) = p ∧ va_of p mod PGSIZE = 0.
Proof.
  intros Hi Hl. destruct p as [|i [|j [|k []]]]; try done.
  apply Forall_cons in Hi as [Hi Hi']. apply Forall_cons in Hi' as [Hj Hi'].
  apply Forall_cons in Hi' as [Hk _]. unfold idx in *. simpl.
  set (x := i * 2 ^ 18 + j * 2 ^ 9 + k).
  replace (i * 2 ^ 30 + j * 2 ^ 21 + k * 2 ^ 12) with (x * 4096) by (unfold x; lia).
  split; [|unfold PGSIZE; by apply Z.mod_mul].
  unfold va_path. rewrite !PX_eq by lia.
  change (2 ^ (12 + 9 * 2)) with (4096 * 2 ^ 18). change (2 ^ (12 + 9 * 1)) with (4096 * 2 ^ 9).
  change (2 ^ (12 + 9 * 0)) with (4096 * 1). rewrite <- !Z.div_div by lia.
  rewrite Z.div_mul by lia. rewrite Z.div_1_r. unfold x.
  f_equal; [|f_equal; [|f_equal]].
  - replace (i * 2 ^ 18 + j * 2 ^ 9 + k) with (i * 2 ^ 18 + (j * 2 ^ 9 + k)) by lia.
    rewrite Z.div_add_l by lia. rewrite (Z.div_small (_ + _)) by lia.
    rewrite Z.mod_small; lia.
  - replace (i * 2 ^ 18 + j * 2 ^ 9 + k) with ((i * 512 + j) * 2 ^ 9 + k) by lia.
    rewrite Z.div_add_l by lia. rewrite (Z.div_small k) by lia.
    replace (i * 512 + j + 0) with (j + i * 512) by lia.
    rewrite Z.mod_add by lia. apply Z.mod_small. lia.
  - replace (i * 2 ^ 18 + j * 2 ^ 9 + k) with (k + (i * 512 + j) * 512) by lia.
    rewrite Z.mod_add by lia. apply Z.mod_small. lia.
Qed.

(** Unmapped before and after: nothing changed. *)
Lemma upd_none root s l X s' l' X' a b :
  upd root s l X s' l' X' (range a b) →
  none_mapped (k_mem s) root a b → none_mapped (k_mem s') root a b →
  upd root s l X s' l' X' nowhere.
Proof.
  intros HU H1 H2. pose proof HU as [U1 U2 U3 U4 U5 U6].
  assert (∀ p i, length p = 2%nat → Forall idx (p ++ [i]) → range a b (p ++ [i]) →
    ent (k_mem s) root p i = None ∧ ent (k_mem s') root p i = None) as Hr.
  { intros p i Hl Hi Hr. destruct (va_path_of (p ++ [i])) as [E _]; [done|
      rewrite length_app; simpl; lia|].
    specialize (H1 _ Hr). specialize (H2 _ Hr). unfold pte_of in H1, H2.
    rewrite va_path_page in E. apply app_inj_tail in E as [E1 E2].
    by rewrite E1, E2 in H1, H2. }
  split; try done.
  - intros p i Hl Hi _. destruct (decide (a ≤ va_of (p ++ [i]) < b)) as [Hd|Hd].
    + destruct (Hr p i Hl Hi Hd) as [-> ->]. done.
    + by apply U4.
  - intros p q x Hl Hp _ E. destruct (decide (a ≤ va_of p < b)) as [Hd|Hd].
    + destruct (split3 p Hl) as (p1 & i & -> & Hl1). rewrite node_snoc in E.
      destruct (Hr p1 i Hl1 (proj1 Hp) Hd) as [E' _]. by rewrite E' in E.
    + by apply (U5 p).
Qed.

(** Fresh, zeroed, writable pages from [a] to [b]. *)
Definition zeroed (m : mem) (root a b : Z) : Prop :=
  ∀ va, a ≤ va < b → ubyte m root va = Some 0 ∧
    ∃ v, pte_of m root va = Some v ∧ PTE_FLAGS v = 0x1F.

Lemma zeroed_upd root s l X s' l' X' D a b :
  upd root s l X s' l' X' D → 0 ≤ a → b ≤ TRAPFRAME →
  (∀ va, a ≤ va < b → ¬ D (va_path va)) →
  zeroed (k_mem s) root a b → zeroed (k_mem s') root a b.
Proof.
  intros HU Ha Hb HD Hz va Hva. rewrite (upd_ubyte _ _ _ _ _ _ _ _ _ HU) by (auto; lia).
  rewrite (upd_pte_of _ _ _ _ _ _ _ _ _ HU) by auto. by apply Hz.
Qed.

Lemma zeroed_page s root q va :
  aligned va → 0 ≤ va < TRAPFRAME → page_ok (ly_end (k_ly s)) q →
  pte_of (k_mem s) root va = Some (pte_mk q (Z.lor (Z.lor (Z.lor PTE_W PTE_X) PTE_R) PTE_U)) →
  (∀ a, in_page q a → rd (k_mem s) a = 0) →
  zeroed (k_mem s) root va (va + PGSIZE).
Proof.
  intros Hal Hva Hok Hp Hz va' Hva'. pose proof TRAPFRAME_val as HT. pose proof MAXVA_val as HM.
  pose proof (aligned_div va 0 Hal) as Hd. rewrite Z.mul_0_l, Z.add_0_r in Hd.
  assert (va' / PGSIZE = va / PGSIZE) as Hq.
  { pose proof (Z.div_mod va' PGSIZE). pose proof (Z.mod_pos_bound va' PGSIZE).
    unfold PGSIZE in *. lia. }
  assert (va + PGSIZE ≤ TRAPFRAME) as Hend.
  { pose proof aligned_TRAPFRAME as Ht. apply Z.mod_divide in Ht as [j Hj]; [|by compute].
    apply Z.mod_divide in Hal as [i Hi]; [|by compute]. unfold PGSIZE in *. lia. }
  assert (pte_of (k_mem s) root va' = pte_of (k_mem s) root va) as E
    by (apply pte_of_page; [lia|lia|done]).
  destruct (page_ok_range _ _ Hok) as [R1 R2].
  destruct (pte_mk_spec q (Z.lor (Z.lor (Z.lor PTE_W PTE_X) PTE_R) PTE_U)) as (_ & _ & V3 & V4);
    [apply Hok|unfold PHYSTOP, KERNBASE, PGSIZE in *; lia|by compute|].
  unfold ubyte, uaddr. rewrite E, Hp. simpl. rewrite V3. split.
  - f_equal. apply Hz. apply in_page_off.
  - eexists. split; [done|]. rewrite V4. done.
Qed.

(** One iteration: it gives up with nothing changed, or adds a zeroed page. *)
Lemma uvmalloc_step n root a oldsz newsz s l X :
  vmx s root l X → aligned a → 0 ≤ a < TRAPFRAME → pte_of (k_mem s) root a = None →
  ∃ s' l',
    (uvmalloc_loop (S n) root a oldsz newsz s = (uvmdealloc root a oldsz;; mret 0) s' ∧
     upd root s l X s' l' X nowhere) ∨
    (uvmalloc_loop (S n) root a oldsz newsz s =
       uvmalloc_loop n root (a + PGSIZE) oldsz newsz s' ∧
     upd root s l X s' l' X (range a (a + PGSIZE)) ∧
     zeroed (k_mem s') root a (a + PGSIZE)).
Proof.
  intros Hv Hal Ha Hnone. destruct l as [|q l].
  { exists s, []. left. split; [|by apply upd_refl]. cbn [uvmalloc_loop].
    erewrite bind_Ok by (apply kalloc_none; [apply Hv|apply (vx_kmem _ _ _ _ Hv)]). done. }
  cbn [uvmalloc_loop].
  pose proof (kalloc_inv _ _ _ (vx_kmem _ _ _ _ Hv)) as (_ & _ & _ & Hq0 & _).
  erewrite bind_Ok by (apply kalloc_some; [apply Hv|apply (vx_kmem _ _ _ _ Hv)|done]).
  rewrite (proj2 (Z.eqb_neq _ _) Hq0).
  pose proof (upd_kalloc _ _ _ _ _ Hv) as HU1.
  generalize dependent (kalloc_post q s). intros s1 HU1. vstep.
  pose proof (upd_write root s1 l (q :: X) q (memset (k_mem s1) q 0 PGSIZE)
    (u_inv _ _ _ _ _ _ _ _ HU1) ltac:(set_solver) (memset_same_but _ _ _)
    (mem_ok_memset _ _ _ _ (km_mem _ _ (vx_kmem _ _ _ _ (u_inv _ _ _ _ _ _ _ _ HU1))))) as HU2.
  assert (∀ x, in_page q x → rd (k_mem (set_k_mem (memset (k_mem s1) q 0 PGSIZE) s1)) x = 0) as Hz.
  { intros x Hx. by apply (rd_memset_page (k_mem s1) q 0). }
  generalize dependent (set_k_mem (memset (k_mem s1) q 0 PGSIZE) s1). intros s2 HU2 Hz.
  pose proof (upd_trans _ _ _ _ _ _ _ _ _ _ _ HU1 HU2) as HU.
  assert (pte_of (k_mem s2) root a = None) as Hn2 by (by rewrite (upd_pte_of _ _ _ _ _ _ _ _ _ HU) by auto).
  pose proof (u_inv _ _ _ _ _ _ _ _ HU) as Hv2.
  destruct (mappages_page root s2 l q X a
    (Z.lor (Z.lor (Z.lor PTE_W PTE_X) PTE_R) PTE_U) Hv2 Hal Ha Hn2
    ltac:(by compute) ltac:(by compute))
    as (r & s3 & l3 & E & [(-> & HU3 & Hp & Hb)|[-> HU3]]).
  - erewrite bind_Ok by exact E. cbn [negb Z.eqb]. exists s3, l3. right. split; [done|].
    split.
    + eapply upd_trans; [|exact HU3]. eapply upd_mono; [|exact HU]. done.
    + destruct (vmx_limbo _ _ _ _ q Hv2 ltac:(set_solver)) as (_ & _ & Hok).
      rewrite <- (vm_rest_ly _ _ (u_rest _ _ _ _ _ _ _ _ HU3)) in Hok.
      apply (zeroed_page s3 root q a); try done. intros x Hx. rewrite Hb by done. by apply Hz.
  - erewrite bind_Ok by exact E. cbn [negb Z.eqb].
    pose proof (u_inv _ _ _ _ _ _ _ _ HU3) as Hv3.
    destruct (vmx_limbo _ _ _ _ q Hv3 ltac:(set_solver)) as (_ & _ & Hok).
    change (negb (-1 =? 0)) with true. cbn match.
    erewrite bind_Ok by (apply kfree_Ok; [apply Hv3|exact Hok]).
    exists (kfree_post q s3), (q :: l3). left. split; [done|].
    eapply upd_trans; [exact HU|]. eapply upd_trans; [exact HU3|]. by apply upd_kfree.
Qed.

(** What [uvmalloc] achieves from [a] to [b], all of it or nothing. *)
Record allocated (root a b : Z) (s : kst) (l X : list Z) (s' : kst) (l' : list Z) : Prop := {
  al_upd : upd root s l X s' l' X (range a b);
  al_zero : zeroed (k_mem s') root a b;
}.

Lemma none_mapped_upd root s l X s' l' X' D a b :
  upd root s l X s' l' X' D → (∀ va, a ≤ va < b → ¬ D (va_path va)) →
  none_mapped (k_mem s) root a b → none_mapped (k_mem s') root a b.
Proof.
  intros HU HD Hn va Hva. rewrite (upd_pte_of _ _ _ _ _ _ _ _ _ HU) by auto. by apply Hn.
Qed.

Lemma uvmalloc_rollback root a k s0 l0 X s l :
  aligned a → 0 ≤ a → 0 ≤ k → a + k * PGSIZE ≤ TRAPFRAME →
  none_mapped (k_mem s0) root a (a + k * PGSIZE) →
  allocated root a (a + k * PGSIZE) s0 l0 X s l →
  ∃ s' l', (uvmdealloc root (a + k * PGSIZE) a;; mret 0) s = Ok 0 s' ∧
    upd root s0 l0 X s' l' X nowhere.
Proof.
  intros Hal Ha Hk Hend Hnone [HU Hz]. pose proof TRAPFRAME_val as HT.
  destruct (decide (k = 0)) as [->|Hk0].
  { exists s, l. rewrite Z.mul_0_l, Z.add_0_r in *.
    erewrite bind_Ok by (apply uvmdealloc_noop; lia). split; [done|].
    eapply upd_none; [exact HU| |]; intros va ?; lia. }
  assert (PGROUNDUP a = a ∧ PGROUNDUP (a + k * PGSIZE) = a + k * PGSIZE) as [Ea Eb].
  { split; apply PGROUNDUP_aligned; auto; unfold PGSIZE in *; lia. }
  destruct (uvmdealloc_shrink root s l X (a + k * PGSIZE) a) as (s' & l' & E & HU' & Hn).
  - apply HU.
  - unfold PGSIZE; lia.
  - lia.
  - rewrite Ea, Eb. intros va Hva. destruct (Hz va Hva) as [_ (v & -> & _)]. done.
  - rewrite Ea, Eb in HU', Hn. exists s', l'. erewrite bind_Ok by exact E. split; [done|].
    eapply upd_none; [by eapply upd_trans|done|done].
Qed.

Lemma uvmalloc_loop_spec n : ∀ root a k newsz s0 l0 X s l,
  aligned a → 0 ≤ a → 0 ≤ k → a + (k + Z.of_nat n) * PGSIZE ≤ TRAPFRAME →
  none_mapped (k_mem s0) root a (a + (k + Z.of_nat n) * PGSIZE) →
  allocated root a (a + k * PGSIZE) s0 l0 X s l →
  ∃ r s' l', uvmalloc_loop n root (a + k * PGSIZE) a newsz s = Ok r s' ∧
    ((r = newsz ∧ allocated root a (a + (k + Z.of_nat n) * PGSIZE) s0 l0 X s' l') ∨
     (r = 0 ∧ upd root s0 l0 X s' l' X nowhere)).
Proof.
  pose proof TRAPFRAME_val as HT. pose proof MAXVA_val as HM.
  induction n as [|n IH]; intros root a k newsz s0 l0 X s l Hal Ha Hk Hend Hnone Hall.
  { exists newsz, s, l. split; [done|]. left. rewrite Z.add_0_r. done. }
  pose proof Hall as [HU Hz].
  destruct (uvmalloc_step n root (a + k * PGSIZE) a newsz s l X) as (s1 & l1 & Hst).
  - apply HU.
  - auto.
  - unfold PGSIZE in *; lia.
  - rewrite (upd_pte_of _ _ _ _ _ _ _ _ _ HU).
    + apply Hnone. unfold PGSIZE; lia.
    + rewrite range_va_path; [lia|auto|auto|unfold PGSIZE in *; lia].
  - destruct Hst as [[E HU1]|(E & HU1 & Hz1)].
    + destruct (uvmalloc_rollback root a k s0 l0 X s1 l1) as (s' & l' & E' & HU');
        try done; try (unfold PGSIZE in *; lia).
      * intros va Hva. apply Hnone. unfold PGSIZE in *; lia.
      * split.
        -- eapply upd_trans; [exact HU|]. eapply upd_mono; [|exact HU1]. done.
        -- eapply zeroed_upd; [exact HU1|lia| |by intros|done]. unfold PGSIZE in *. lia.
      * exists 0, s', l'. rewrite E. split; [done|]. by right.
    + replace (a + k * PGSIZE + PGSIZE) with (a + (k + 1) * PGSIZE) in * by lia.
      destruct (IH root a (k + 1) newsz s0 l0 X s1 l1) as (r & s' & l' & E' & Hr).
      * done.
      * done.
      * lia.
      * unfold PGSIZE in *; lia.
      * intros va Hva. apply Hnone. unfold PGSIZE in *; lia.
      * split.
        -- eapply upd_trans.
           ++ eapply upd_mono; [|exact HU]. intros p. apply range_sub; unfold PGSIZE; lia.
           ++ eapply upd_mono; [|exact HU1]. intros p. apply range_sub; unfold PGSIZE; lia.
        -- intros va Hva. destruct (decide (va < a + k * PGSIZE)).
           ++ apply (zeroed_upd _ _ _ _ _ _ _ _ a (a + k * PGSIZE) HU1); try lia; try done.
              { unfold PGSIZE in *. lia. }
              intros va' Hva'.
              rewrite range_va_path; [unfold PGSIZE in *; lia|auto|auto|unfold PGSIZE in *; lia].
           ++ apply Hz1. lia.
      * exists r, s', l'. rewrite E, E'. split; [done|].
        replace (k + Z.of_nat (S n)) with (k + 1 + Z.of_nat n) by lia. done.
Qed.

Lemma npages_to_spec a b :
  aligned a → 0 ≤ a → 0 ≤ b < 2 ^ 62 → a ≤ PGROUNDUP b →
  a + Z.of_nat (npages_to a b) * PGSIZE = PGROUNDUP b.
Proof.
  intros Hal Ha Hb Hle. unfold npages_to.
  destruct (PGROUNDUP_bounds b) as [H1 H2]; [unfold PGSIZE; lia|].
  apply Z.mod_divide in H1 as [j Hj]; [|by compute].
  apply Z.mod_divide in Hal as [i ->]; [|by compute]. rewrite Hj in *.
  assert ((b - i * PGSIZE + PGSIZE - 1) / PGSIZE = j - i) as ->.
  { symmetry. apply (Z.div_unique _ _ _ (b - i * PGSIZE + PGSIZE - 1 - (j - i) * PGSIZE));
      unfold PGSIZE in *; lia. }
  rewrite Z2Nat.id; unfold PGSIZE in *; lia.
Qed.

Lemma allocated_refl root a s l X : vmx s root l X → allocated root a a s l X s l.
Proof.
  intros Hv. split; [|intros va ?; lia]. eapply upd_mono; [|by apply upd_refl]. done.
Qed.

Lemma uvmalloc_grow root s l X oldsz newsz :
  vmx s root l X → 0 ≤ oldsz ≤ newsz → newsz ≤ TRAPFRAME →
  none_mapped (k_mem s) root (PGROUNDUP oldsz) (PGROUNDUP newsz) →
  ∃ r s' l', uvmalloc root oldsz newsz s = Ok r s' ∧
    ((r = newsz ∧ allocated root (PGROUNDUP oldsz) (PGROUNDUP newsz) s l X s' l') ∨
     (r = 0 ∧ upd root s l X s' l' X nowhere)).
Proof.
  intros Hv Hsz Hend Hnone. pose proof TRAPFRAME_val as HT. unfold uvmalloc.
  destruct (Z.ltb_spec newsz oldsz); [lia|].
  assert (aligned (PGROUNDUP oldsz) ∧ aligned (PGROUNDUP newsz)) as [Ao An]
    by (split; apply aligned_PGROUNDUP; lia).
  pose proof (PGROUNDUP_le newsz TRAPFRAME ltac:(lia) aligned_TRAPFRAME ltac:(lia)) as Hn.
  pose proof (PGROUNDUP_le oldsz (PGROUNDUP newsz) ltac:(lia) An ltac:(lia)) as Ho.
  pose proof (npages_to_spec (PGROUNDUP oldsz) newsz Ao ltac:(lia) ltac:(lia) ltac:(lia)) as E.
  pose proof (uvmalloc_loop_spec (npages_to (PGROUNDUP oldsz) newsz) root (PGROUNDUP oldsz) 0
    newsz s l X s l Ao ltac:(lia) ltac:(lia)) as HL.
  rewrite Z.add_0_l, Z.mul_0_l, Z.add_0_r, E in HL.
  apply HL; [lia|done|by apply allocated_refl].
Qed.

(** ** uvmcopy *)

(** The address space [r0] shares nothing with [root] and its spare pages. *)
Definition apart (m : mem) (r0 : Z) (L : list Z) (root : Z) : Prop :=
  ∀ q, owns m r0 q → ¬ (q ∈ L ∨ owns m root q).

Record kept (r0 : Z) (m m' : mem) : Prop := {
  kp_node p : owned_path p → node m' r0 p = node m r0 p;
  kp_ent p i : table_path p → idx i → ent m' r0 p i = ent m r0 p i;
  kp_bytes q a : owns m r0 q → in_page q a → rd m' a = rd m a;
}.

Lemma kept_trans r0 m1 m2 m3 : kept r0 m1 m2 → kept r0 m2 m3 → kept r0 m1 m3.
Proof.
  intros [A1 A2 A3] [B1 B2 B3]. split.
  - intros p Hp. rewrite B1 by done. auto.
  - intros p i Hp Hi. rewrite B2 by done. auto.
  - intros q a Ho Ha. assert (owns m2 r0 q) as Ho2.
    { destruct Ho as (p & Hp & E). exists p. split; [done|]. by rewrite A1. }
    rewrite (B3 q) by done. by apply (A3 q).
Qed.
Lemma kept_pte_of r0 m m' va : kept r0 m m' → pte_of m' r0 va = pte_of m r0 va.
Proof. intros H. apply (kp_ent _ _ _ H); [auto|apply PX_idx; lia]. Qed.
Lemma kept_ubyte r0 m m' va :
  kept r0 m m' → 0 ≤ va < TRAPFRAME → ubyte m' r0 va = ubyte m r0 va.
Proof.
  intros H Hva. unfold ubyte, uaddr. rewrite (kept_pte_of _ _ _ _ H).
  destruct (pte_of m r0 va) as [v|] eqn:E; [|done]. simpl. f_equal.
  apply (kp_bytes _ _ _ H (PTE2PA v)); [|apply in_page_off].
  exists (va_path va). split; [by apply owned_va_path|]. by rewrite node_va_path, E.
Qed.

Lemma vmx_aligned s root l X q :
  vmx s root l X → q ∈ l ++ X ∨ owns (k_mem s) root q → aligned q.
Proof.
  intros [H1 H2 H3 H4 H5] [[Hq|Hq]%elem_of_app|Hq].
  - apply kmem_aligned in H1. rewrite Forall_forall in H1. by apply H1.
  - rewrite Forall_forall in H4. by apply H4.
  - by apply (owns_ok _ _ _ _ _ H2 Hq).
Qed.

Lemma upd_kept e root s l X s' l' X' D r0 :
  vmx s root l X → upd root s l X s' l' X' D →
  as_wf e (k_mem s) r0 [] → apart (k_mem s) r0 (l ++ X) root →
  as_wf e (k_mem s') r0 [] ∧ apart (k_mem s') r0 (l' ++ X') root ∧
  kept r0 (k_mem s) (k_mem s').
Proof.
  intros Hv HU Hwf Hap. pose proof (u_same _ _ _ _ _ _ _ _ HU) as Hs.
  assert (∀ q, q ∈ l ++ X ∨ owns (k_mem s) root q → aligned q ∧ ¬ tabs (k_mem s) r0 q) as HP.
  { intros q Hq. split; [by eapply vmx_aligned|]. intros Ht%tabs_owns. by apply (Hap q). }
  assert (∀ p, owned_path p → node (k_mem s') r0 p = node (k_mem s) r0 p) as HN.
  { intros p (?&?&_). by apply (node_same_but _ _ _ _ _ _ p Hwf Hs HP). }
  assert (∀ q, owns (k_mem s') r0 q ↔ owns (k_mem s) r0 q) as HO.
  { intros q. split; intros (p & Hp & E); exists p; (split; [done|]); by rewrite HN in *. }
  split; [|split].
  - eapply (as_wf_same_but _ _ _ _ _ _ _ Hwf Hs HP). intros q Hq. by left.
  - intros q Hq%HO. rewrite (u_pages _ _ _ _ _ _ _ _ HU). by apply Hap.
  - split; [done| |].
    + intros p i Hp Hi. by apply (ent_same_but _ _ _ _ _ _ p i Hwf Hs HP).
    + intros q a Hq Ha. apply (same_but_page _ _ _ q a Hs); [| |done].
      * intros x Hx. split; [by apply HP|]. intros ->. by apply (Hap x).
      * by apply (owns_ok _ _ _ _ _ Hwf Hq).
Qed.

(** The pages of [new] from 0 to [b] have the bytes and the permissions those
    of [old] have in [m0]. *)
Definition same_mem (m0 : mem) (old : Z) (m : mem) (new b : Z) : Prop :=
  ∀ va, 0 ≤ va < b → ubyte m new va = ubyte m0 old va ∧
    PTE_FLAGS <$> pte_of m new va = PTE_FLAGS <$> pte_of m0 old va.

Lemma same_mem_upd m0 old root s l X s' l' X' D b :
  upd root s l X s' l' X' D → b ≤ TRAPFRAME → (∀ va, 0 ≤ va < b → ¬ D (va_path va)) →
  same_mem m0 old (k_mem s) root b → same_mem m0 old (k_mem s') root b.
Proof.
  intros HU Hb HD H va Hva. rewrite (upd_ubyte _ _ _ _ _ _ _ _ _ HU) by (auto; lia).
  rewrite (upd_pte_of _ _ _ _ _ _ _ _ _ HU) by auto. by apply H.
Qed.

Lemma PTE_FLAGS_range v : 0 ≤ PTE_FLAGS v < 1024.
Proof.
  unfold PTE_FLAGS. change 0x3FF with (Z.ones 10). rewrite Z.land_ones by lia.
  apply Z.mod_pos_bound. lia.
Qed.

Lemma same_mem_page m0 old s new q va v :
  aligned va → 0 ≤ va < TRAPFRAME → page_ok (ly_end (k_ly s)) q →
  pte_of m0 old va = Some v → Z.land (PTE_FLAGS v) PTE_V = PTE_V →
  pte_of (k_mem s) new va = Some (pte_mk q (PTE_FLAGS v)) →
  (∀ o, 0 ≤ o < PGSIZE → rd (k_mem s) (q + o) = rd m0 (PTE2PA v + o)) →
  ∀ va', va ≤ va' < va + PGSIZE → ubyte (k_mem s) new va' = ubyte m0 old va' ∧
    PTE_FLAGS <$> pte_of (k_mem s) new va' = PTE_FLAGS <$> pte_of m0 old va'.
Proof.
  intros Hal Hva Hok Hp0 HV Hp Hz va' Hva'. pose proof TRAPFRAME_val as HT.
  pose proof MAXVA_val as HM.
  pose proof (aligned_div va 0 Hal) as Hd. rewrite Z.mul_0_l, Z.add_0_r in Hd.
  assert (va' / PGSIZE = va / PGSIZE) as Hq.
  { pose proof (Z.div_mod va' PGSIZE). pose proof (Z.mod_pos_bound va' PGSIZE).
    unfold PGSIZE in *. lia. }
  assert (0 ≤ va' < MAXVA) as Hr.
  { pose proof aligned_TRAPFRAME as Ht. apply Z.mod_divide in Ht as [j Hj]; [|by compute].
    apply Z.mod_divide in Hal as [i Hi]; [|by compute]. unfold PGSIZE in *. lia. }
  rewrite !(pte_of_page _ _ va' va), Hp, Hp0 by (done || lia).
  unfold ubyte, uaddr. rewrite !(pte_of_page _ _ va' va), Hp, Hp0 by (done || lia). simpl.
  pose proof (PTE_FLAGS_range v) as Hf.
  destruct (page_ok_range _ _ Hok) as [R1 R2].
  destruct (pte_mk_spec q (PTE_FLAGS v)) as (_ & _ & V3 & V4);
    [apply Hok|unfold PHYSTOP, KERNBASE, PGSIZE in *; lia|done|].
  rewrite V3, V4. split.
  - f_equal. apply Hz. apply Z.mod_pos_bound. by compute.
  - f_equal. apply Z.bits_inj'. intros n Hn. rewrite Z.lor_spec.
    apply (f_equal (λ z, Z.testbit z n)) in HV. rewrite Z.land_spec in HV.
    destruct (Z.testbit (PTE_FLAGS v) n), (Z.testbit PTE_V n); done.
Qed.

(** What holds between the iterations: the first [k] pages are copied, and
    [old] is as it was. *)
Record copied (old new : Z) (k : Z) (s0 : kst) (l0 X : list Z) (s : kst) (l : list Z)
    : Prop := {
  cp_upd : upd new s0 l0 X s l X (range 0 (k * PGSIZE));
  cp_same : same_mem (k_mem s0) old (k_mem s) new (k * PGSIZE);
  cp_old : as_wf (ly_end (k_ly s0)) (k_mem s) old [];
  cp_apart : apart (k_mem s) old (l ++ X) new;
  cp_kept : kept old (k_mem s0) (k_mem s);
}.

Lemma memmove_same_but m q a :
  mem_ok m → same_but (eq q) m (memmove m q a PGSIZE).
Proof.
  intros Hm x Hx. rewrite rd_memmove by (done || by compute).
  rewrite decide_False; [done|]. by apply Hx.
Qed.

(** A copied step may be followed by steps that change no mapping. *)
Lemma copied_upd old new k s0 l0 X s l s1 l1 X1 :
  copied old new k s0 l0 X s l → upd new s l X s1 l1 X1 nowhere → 0 ≤ k →
  k * PGSIZE ≤ TRAPFRAME →
  upd new s0 l0 X s1 l1 X1 (range 0 (k * PGSIZE)) ∧
  same_mem (k_mem s0) old (k_mem s1) new (k * PGSIZE) ∧
  as_wf (ly_end (k_ly s0)) (k_mem s1) old [] ∧ apart (k_mem s1) old (l1 ++ X1) new ∧
  kept old (k_mem s0) (k_mem s1).
Proof.
  intros [C1 C2 C3 C4 C5] HU Hk Hend.
  destruct (upd_kept _ _ _ _ _ _ _ _ _ old (u_inv _ _ _ _ _ _ _ _ C1) HU C3 C4)
    as (K1 & K2 & K3).
  split_and!; try done.
  - eapply upd_trans; [exact C1|]. eapply upd_mono; [|exact HU]. done.
  - eapply same_mem_upd; [exact HU|done|auto|done].
  - by eapply kept_trans.
Qed.

Lemma bind_walk_pte {A} e L root s va v (f : Z → K A) :
  as_wf e (k_mem s) root L → 0 ≤ va < MAXVA → pte_of (k_mem s) root va = Some v →
  (pte ← walk root va false; if pte =? 0 then panic "uvmcopy: pte should exist" else
   v ← ld64 pte; f v) s = f v s.
Proof.
  intros Has Hva Hp. destruct (pte_of_walk _ _ _ _ Hp) as (pt & Hpt & Ew & Hl & HV).
  erewrite bind_Ok by (apply walk_noalloc; lia). rewrite Ew.
  destruct (as_own _ _ _ _ Has [PX 2 va; PX 1 va] pt) as [Hok _]; auto.
  apply page_ok_range in Hok. pose proof (PX_idx 0 va ltac:(lia)) as Hi. unfold idx in Hi.
  rewrite (proj2 (Z.eqb_neq _ _)) by lia. vstep. by rewrite Hl.
Qed.

Lemma PTE_FLAGS_V v : has PTE_V v = true → Z.land (PTE_FLAGS v) PTE_V = PTE_V.
Proof.
  intros HV. rewrite <- land_flags by done. rewrite has_V_testbit in HV.
  change PTE_V with (Z.ones 1). rewrite Z.land_ones by lia. change (2 ^ 1) with 2.
  rewrite <- Z.bit0_mod, HV. done.
Qed.
Lemma as_wf_rwx e m root l va v :
  as_wf e m root l → pte_of m root va = Some v →
  Z.land v (Z.lor (Z.lor PTE_R PTE_W) PTE_X) ≠ 0.
Proof.
  intros Hwf Hp. apply (as_leaf _ _ _ _ Hwf [PX 2 va; PX 1 va] (PX 0 va)); try done.
  apply (va_path_idx va).
Qed.

Lemma uvmcopy_step n old new k s0 l0 X s l :
  copied old new k s0 l0 X s l → 0 ≤ k → (k + 1) * PGSIZE ≤ TRAPFRAME →
  is_Some (pte_of (k_mem s0) old (k * PGSIZE)) →
  pte_of (k_mem s) new (k * PGSIZE) = None →
  ∃ s' l',
    (uvmcopy_loop (S n) old new (k * PGSIZE) s =
       (uvmunmap new 0 k true;; mret (-1)) s' ∧ copied old new k s0 l0 X s' l') ∨
    (uvmcopy_loop (S n) old new (k * PGSIZE) s =
       uvmcopy_loop n old new ((k + 1) * PGSIZE) s' ∧ copied old new (k + 1) s0 l0 X s' l').
Proof.
  intros HC Hk Hend [v Hp0] Hnone. pose proof TRAPFRAME_val as HT. pose proof MAXVA_val as HM.
  pose proof HC as [C1 C2 C3 C4 C5]. pose proof (u_inv _ _ _ _ _ _ _ _ C1) as Hv.
  set (va := k * PGSIZE) in *. assert (0 ≤ va < TRAPFRAME) as Hva by (unfold va, PGSIZE in *; lia).
  assert (aligned va) as Hal by (unfold va; rewrite <- (Z.add_0_l (k * PGSIZE)); auto).
  assert (pte_of (k_mem s) old va = Some v) as Hp by (by rewrite (kept_pte_of _ _ _ _ C5)).
  destruct (pte_of_walk _ _ _ _ Hp) as (pt & _ & _ & _ & HV).
  cbn [uvmcopy_loop]. rewrite (bind_walk_pte _ _ old s va v _ C3) by (done || lia).
  rewrite HV. cbn [negb].
  replace (va / PGSIZE) with k by (unfold va; by rewrite Z.div_mul).
  destruct l as [|q l].
  { exists s, []. left. split; [|done].
    erewrite bind_Ok by (apply kalloc_none; [apply Hv|apply (vx_kmem _ _ _ _ Hv)]). done. }
  pose proof (kalloc_inv _ _ _ (vx_kmem _ _ _ _ Hv)) as (_ & _ & _ & Hq0 & _).
  erewrite bind_Ok by (apply kalloc_some; [apply Hv|apply (vx_kmem _ _ _ _ Hv)|done]).
  rewrite (proj2 (Z.eqb_neq _ _) Hq0).
  pose proof (upd_kalloc _ _ _ _ _ Hv) as HU1.
  generalize dependent (kalloc_post q s). intros s1 HU1. vstep.
  pose proof (km_mem _ _ (vx_kmem _ _ _ _ (u_inv _ _ _ _ _ _ _ _ HU1))) as Hm1.
  pose proof (upd_write new s1 l (q :: X) q (memmove (k_mem s1) q (PTE2PA v) PGSIZE)
    (u_inv _ _ _ _ _ _ _ _ HU1) ltac:(set_solver) (memmove_same_but _ _ _ Hm1)
    (mem_ok_memmove _ q (PTE2PA v) PGSIZE Hm1 ltac:(by compute))) as HU2.
  destruct (copied_upd _ _ _ _ _ _ _ _ _ _ _ HC HU1 Hk ltac:(lia)) as (_ & _ & _ & _ & K1).
  assert (∀ o, 0 ≤ o < PGSIZE →
    rd (k_mem (set_k_mem (memmove (k_mem s1) q (PTE2PA v) PGSIZE) s1)) (q + o) =
    rd (k_mem s0) (PTE2PA v + o)) as Hb.
  { intros o Ho. simpl. rewrite rd_memmove by (done || by compute).
    rewrite decide_True by lia. replace (PTE2PA v + (q + o - q)) with (PTE2PA v + o) by lia.
    apply (kp_bytes _ _ _ K1 (PTE2PA v)); [|unfold in_page; lia].
    exists (va_path va). split; [by apply owned_va_path|]. by rewrite node_va_path, Hp0. }
  generalize dependent (set_k_mem (memmove (k_mem s1) q (PTE2PA v) PGSIZE) s1).
  intros s2 HU2 Hb. clear K1 Hm1.
  pose proof (upd_trans _ _ _ _ _ _ _ _ _ _ _ HU1 HU2) as HU.
  destruct (copied_upd _ _ _ _ _ _ _ _ _ _ _ HC HU Hk ltac:(lia)) as (A1 & A2 & A3 & A4 & A5).
  pose proof (u_inv _ _ _ _ _ _ _ _ HU) as Hv2.
  destruct (mappages_page new s2 l q X va (PTE_FLAGS v) Hv2 Hal Hva)
    as (r & s3 & l3 & E & Hr).
  { by rewrite (upd_pte_of _ _ _ _ _ _ _ _ _ HU) by auto. }
  { apply PTE_FLAGS_range. }
  { rewrite <- land_flags by done. exact (as_wf_rwx _ _ _ _ va v C3 Hp). }
  erewrite bind_Ok by exact E. destruct Hr as [(-> & HU3 & Hp3 & Hb3)|[-> HU3]].
  - exists s3, l3. right. cbn [negb Z.eqb]. replace (va + PGSIZE) with ((k + 1) * PGSIZE) in * by (unfold va; lia).
    split; [done|].
    destruct (upd_kept _ _ _ _ _ _ _ _ _ old Hv2 HU3 A3 A4) as (B1 & B2 & B3).
    destruct (vmx_limbo _ _ _ _ q Hv2 ltac:(set_solver)) as (_ & _ & Hok).
    rewrite <- (vm_rest_ly _ _ (u_rest _ _ _ _ _ _ _ _ HU3)) in Hok.
    split; [|intros va' Hva'| | |].
    + eapply upd_trans; [eapply upd_mono; [|exact A1]|eapply upd_mono; [|exact HU3]];
        intros p; apply range_sub; unfold va, PGSIZE; lia.
    + destruct (decide (va' < va)).
      * eapply same_mem_upd; [exact HU3| | |exact A2|lia]; [lia|].
        intros y Hy. rewrite range_va_path; [lia|done| |lia].
        rewrite <- (Z.add_0_l ((k + 1) * PGSIZE)). auto.
      * apply (same_mem_page (k_mem s0) old s3 new q va v); try done.
        -- by apply PTE_FLAGS_V.
        -- intros o Ho. rewrite Hb3 by (unfold in_page; lia). by apply Hb.
        -- unfold va in *. lia.
    + done.
    + done.
    + by eapply kept_trans.
  - change (negb (-1 =? 0)) with true. cbn match.
    destruct (vmx_limbo _ _ _ _ q (u_inv _ _ _ _ _ _ _ _ HU3) ltac:(set_solver)) as (_ & _ & Hok).
    erewrite bind_Ok by (apply kfree_Ok; [apply HU3|exact Hok]).
    exists (kfree_post q s3), (q :: l3). left. split; [done|].
    pose proof (upd_kfree _ _ _ _ _ (u_inv _ _ _ _ _ _ _ _ HU3)) as HU4.
    generalize dependent (kfree_post q s3). intros s4 HU4.
    pose proof (upd_trans _ _ _ _ _ _ _ _ _ _ _ HU (upd_trans _ _ _ _ _ _ _ _ _ _ _ HU3 HU4)) as HU5.
    destruct (copied_upd _ _ _ _ _ _ _ _ _ _ _ HC HU5 Hk ltac:(lia)) as (? & ? & ? & ? & ?).
    by split.
Qed.

Lemma same_mem_mapped m0 old m new b va :
  same_mem m0 old m new b → 0 ≤ va < b → is_Some (pte_of m0 old va) →
  is_Some (pte_of m new va).
Proof.
  intros H Hva [v Hv]. destruct (H va Hva) as [_ E]. rewrite Hv in E.
  destruct (pte_of m new va); [done|simplify_eq].
Qed.

Lemma uvmcopy_loop_spec n : ∀ old new k s0 l0 X s l,
  copied old new k s0 l0 X s l → 0 ≤ k → (k + Z.of_nat n) * PGSIZE ≤ TRAPFRAME →
  all_mapped (k_mem s0) old 0 ((k + Z.of_nat n) * PGSIZE) →
  none_mapped (k_mem s0) new 0 ((k + Z.of_nat n) * PGSIZE) →
  ∃ r s' l', uvmcopy_loop n old new (k * PGSIZE) s = Ok r s' ∧
    ((r = 0 ∧ copied old new (k + Z.of_nat n) s0 l0 X s' l') ∨
     (r = -1 ∧ upd new s0 l0 X s' l' X nowhere)).
Proof.
  pose proof TRAPFRAME_val as HT. pose proof MAXVA_val as HM.
  induction n as [|n IH]; intros old new k s0 l0 X s l HC Hk Hend Hall Hnone.
  { exists 0, s, l. split; [done|]. left. by rewrite Z.add_0_r. }
  assert (aligned (k * PGSIZE)) as Hal by (rewrite <- (Z.add_0_l (k * PGSIZE)); auto).
  destruct (uvmcopy_step n old new k s0 l0 X s l HC Hk) as (s1 & l1 & Hst).
  - unfold PGSIZE in *; lia.
  - apply Hall. unfold PGSIZE; lia.
  - rewrite (upd_pte_of _ _ _ _ _ _ _ _ _ (cp_upd _ _ _ _ _ _ _ _ HC)).
    + apply Hnone. unfold PGSIZE; lia.
    + rewrite range_va_path; [lia|done|done|unfold PGSIZE in *; lia].
  - destruct Hst as [[E HC1]|[E HC1]].
    + pose proof HC1 as [C1 C2 _ _ _].
      destruct (uvmunmap_spec new s1 l1 X 0 k) as (s' & l' & E' & HU & Hn).
      * apply C1.
      * done.
      * done.
      * done.
      * unfold PGSIZE in *; lia.
      * intros i Hi. rewrite Z.add_0_l. eapply same_mem_mapped; [exact C2| |].
        -- unfold PGSIZE; lia.
        -- apply Hall. unfold PGSIZE in *; lia.
      * exists (-1), s', l'. rewrite E. erewrite bind_Ok by exact E'. split; [done|].
        right. split; [done|]. rewrite Z.add_0_l in HU.
        eapply upd_none; [by eapply upd_trans| |].
        -- intros va Hva. apply Hnone. unfold PGSIZE in *; lia.
        -- pose proof (pages_none (k_mem s') new 0 k aligned_0 ltac:(lia)) as Hpn.
           rewrite Z.add_0_l in Hpn. apply Hpn; [unfold PGSIZE in *; lia|done].
    + destruct (IH old new (k + 1) s0 l0 X s1 l1 HC1) as (r & s' & l' & E' & Hr).
      * lia.
      * unfold PGSIZE in *; lia.
      * intros va Hva. apply Hall. unfold PGSIZE in *; lia.
      * intros va Hva. apply Hnone. unfold PGSIZE in *; lia.
      * exists r, s', l'. rewrite E, E'. split; [done|].
        replace (k + Z.of_nat (S n)) with (k + 1 + Z.of_nat n) by lia. done.
Qed.

Lemma uvmcopy_ok old new s l X sz :
  vmx s new l X → as_wf (ly_end (k_ly s)) (k_mem s) old [] →
  apart (k_mem s) old (l ++ X) new → 0 ≤ sz ≤ TRAPFRAME →
  all_mapped (k_mem s) old 0 (PGROUNDUP sz) → none_mapped (k_mem s) new 0 (PGROUNDUP sz) →
  ∃ r s' l', uvmcopy old new sz s = Ok r s' ∧
    ((r = 0 ∧ upd new s l X s' l' X (range 0 (PGROUNDUP sz)) ∧
      same_mem (k_mem s) old (k_mem s') new (PGROUNDUP sz) ∧ kept old (k_mem s) (k_mem s')) ∨
     (r = -1 ∧ upd new s l X s' l' X nowhere)).
Proof.
  intros Hv Hold Hap Hsz Hall Hnone. pose proof TRAPFRAME_val as HT. unfold uvmcopy.
  pose proof (PGROUNDUP_le sz TRAPFRAME ltac:(lia) aligned_TRAPFRAME ltac:(lia)) as Hn.
  pose proof (npages_to_spec 0 sz aligned_0 ltac:(lia) ltac:(lia) ltac:(lia)) as E.
  rewrite Z.add_0_l in E.
  assert (copied old new 0 s l X s l) as HC.
  { split; try done.
    - eapply upd_mono; [|by apply upd_refl]. done.
    - intros va ?. lia. }
  destruct (uvmcopy_loop_spec (npages_to 0 sz) old new 0 s l X s l HC) as (r & s' & l' & E' & Hr).
  - done.
  - rewrite Z.add_0_l, E. lia.
  - by rewrite Z.add_0_l, E.
  - by rewrite Z.add_0_l, E.
  - rewrite Z.add_0_l in Hr. exists r, s', l'. split; [done|].
    destruct Hr as [[-> [C1 C2 _ _ C5]]|?]; [left|by right].
    rewrite E in C1, C2. done.
Qed.
