(* ===== verification/VmFree.v ===== *)
(** * [freewalk] and [uvmfree] *)

From stdpp Require Import options.
From S2P Require Import Prelude CString State Sched Kalloc Vm PageTable VmWalk VmSpec VmOps.
#[local] Open Scope Z_scope.

(** ** Trees of tables with no leaf *)

(** The pages [pt] reaches in at most [d] steps. *)
Definition subpages (d : nat) (m : mem) (pt q : Z) : Prop :=
  ∃ p, Forall idx p ∧ (length p ≤ d)%nat ∧ node m pt p = Some q.

Record sub_ok (d : nat) (e : Z) (m : mem) (pt : Z) (l : list Z) : Prop := {
  so_own q : subpages d m pt q → page_ok e q ∧ q ∉ l;
  so_inj p p' q : Forall idx p → Forall idx p' → (length p ≤ d)%nat → (length p' ≤ d)%nat →
    node m pt p = Some q → node m pt p' = Some q → p = p';
  so_dir p i v : (length p < d)%nat → Forall idx (p ++ [i]) → ent m pt p i = Some v →
    Z.land v (Z.lor (Z.lor PTE_R PTE_W) PTE_X) = 0;
  so_none p i : length p = d → Forall idx (p ++ [i]) → ent m pt p i = None;
}.

(** The subtree below a valid entry. *)
Lemma node_cons m pt i p v :
  ent m pt [] i = Some v → node m pt (i :: p) = node m (PTE2PA v) p.
Proof.
  unfold ent. simpl. destruct (has PTE_V _); [|done]. by intros [= ->].
Qed.
Lemma ent_cons m pt i p j v :
  ent m pt [] i = Some v → ent m pt (i :: p) j = ent m (PTE2PA v) p j.
Proof. intros H. unfold ent at 1. by rewrite (node_cons _ _ _ _ _ H). Qed.

Lemma subpages_cons d m pt i v q :
  idx i → ent m pt [] i = Some v → subpages d m (PTE2PA v) q → subpages (S d) m pt q.
Proof.
  intros Hi He (p & Hp & Hl & E). exists (i :: p). split; [by constructor|].
  split; [simpl; lia|]. by rewrite (node_cons _ _ _ _ _ He).
Qed.
Lemma sub_ok_child d e m pt l i v :
  sub_ok (S d) e m pt l → idx i → ent m pt [] i = Some v → sub_ok d e m (PTE2PA v) l.
Proof.
  intros H Hi He. split.
  - intros q Hq. apply (so_own _ _ _ _ _ H). by eapply subpages_cons.
  - intros p p' q Hp Hp' Hl Hl' E E'.
    assert (i :: p = i :: p') as [= ->]; [|done].
    apply (so_inj _ _ _ _ _ H _ _ q); try by constructor.
    all: try (simpl; lia); by rewrite (node_cons _ _ _ _ _ He).
  - intros p j w Hl Hp E. apply (so_dir _ _ _ _ _ H (i :: p) j); [simpl; lia|by constructor|].
    by rewrite (ent_cons _ _ _ _ _ _ He).
  - intros p j Hl Hp. rewrite <- (ent_cons _ _ _ _ _ _ He).
    apply (so_none _ _ _ _ _ H); [simpl; lia|by constructor].
Qed.

(** Changes outside the tree leave it alone. *)
Section sub_same.
Context (d : nat) (e : Z) (m m' : mem) (pt : Z) (l : list Z) (P : Z → Prop).
Context (Hok : sub_ok d e m pt l) (Hs : same_but P m m').
Context (HP : ∀ q, P q → aligned q ∧ ¬ subpages d m pt q).

Lemma sub_load p t i :
  Forall idx p → (length p ≤ d)%nat → idx i → node m pt p = Some t →
  load64 m' (t + 8 * i) = load64 m (t + 8 * i).
Proof using All.
  intros Hp Hl Hi E. assert (subpages d m pt t) as Ht by (by exists p).
  apply load64_ext. intros a Ha. apply (same_but_page P _ _ t); try done.
  - intros q Hq. destruct (HP q Hq). split; [done|]. by intros ->.
  - by apply (so_own _ _ _ _ _ Hok).
  - by apply (in_page_entry t i).
Qed.
Lemma sub_node p : Forall idx p → (length p ≤ d)%nat → node m' pt p = node m pt p.
Proof using All.
  intros Hp Hl. apply node_frame. intros p1 i r t -> E.
  apply Forall_app in Hp as [Hp1 [Hi _]%Forall_cons]. rewrite length_app in Hl. simpl in Hl.
  apply (sub_load p1); try done. lia.
Qed.
Lemma sub_ent p i :
  Forall idx (p ++ [i]) → (length p ≤ d)%nat → ent m' pt p i = ent m pt p i.
Proof using All.
  intros [Hp [Hi _]%Forall_cons]%Forall_app Hl. unfold ent. rewrite sub_node by done.
  destruct (node m pt p) as [t|] eqn:E; [|done]. simpl. by rewrite (sub_load p).
Qed.
Lemma sub_subpages q : subpages d m' pt q ↔ subpages d m pt q.
Proof using All.
  split; intros (p & Hp & Hl & E); exists p; rewrite sub_node in * by done; done.
Qed.
Lemma sub_ok_same l' :
  (∀ q, q ∈ l' → ¬ subpages d m pt q) → sub_ok d e m' pt l'.
Proof using All.
  intros Hl'. split.
  - intros q Hq%sub_subpages. split; [by apply (so_own _ _ _ _ _ Hok)|].
    intros Hin. by apply (Hl' q).
  - intros p p' q Hp Hp' Hl1 Hl2. rewrite !sub_node by done. by apply (so_inj _ _ _ _ _ Hok).
  - intros p i v Hl1 Hp. rewrite sub_ent by (done || lia). by apply (so_dir _ _ _ _ _ Hok).
  - intros p i Hl1 Hp. rewrite sub_ent by (done || lia). by apply (so_none _ _ _ _ _ Hok).
Qed.
End sub_same.

(** ** freewalk *)

(** The pages below the entries before [i]. *)
Definition freed_before (d : nat) (m : mem) (pt i q : Z) : Prop :=
  ∃ j p, 0 ≤ j < i ∧ Forall idx p ∧ (S (length p) ≤ d)%nat ∧ node m pt (j :: p) = Some q.

Record fw_inv (d : nat) (s0 : kst) (pt : Z) (l0 : list Z) (i : Z) (s : kst) : Prop := {
  fw_rest : vm_rest s0 s;
  fw_list : ∃ l, kmem_inv s l ∧ ∀ q, q ∈ l ↔ q ∈ l0 ∨ freed_before d (k_mem s0) pt i q;
  fw_same : same_but (λ q, q = pt ∨ freed_before d (k_mem s0) pt i q) (k_mem s0) (k_mem s);
  fw_rest_entries j : i ≤ j < 512 →
    load64 (k_mem s) (pt + 8 * j) = load64 (k_mem s0) (pt + 8 * j);
}.

Definition fw_post (d : nat) (s0 : kst) (pt : Z) (l0 : list Z) (s : kst) : Prop :=
  vm_rest s0 s ∧
  (∃ l, kmem_inv s l ∧ ∀ q, q ∈ l ↔ q ∈ l0 ∨ subpages d (k_mem s0) pt q) ∧
  same_but (subpages d (k_mem s0) pt) (k_mem s0) (k_mem s).

Lemma freed_before_sub d m pt i q :
  i ≤ 512 → freed_before d m pt i q → subpages d m pt q.
Proof.
  intros Hi (j & p & Hj & Hp & Hl & E). exists (j :: p). split; [|done].
  constructor; [unfold idx; lia|done].
Qed.
Lemma subpages_split d m pt q :
  subpages d m pt q ↔ q = pt ∨ freed_before d m pt 512 q.
Proof.
  split.
  - intros (p & Hp & Hl & E). destruct p as [|j p]; [left; simpl in E; congruence|right].
    apply Forall_cons in Hp as [Hj Hp]. by exists j, p.
  - intros [->|(j & p & Hj & Hp & Hl & E)].
    + exists []. split; [constructor|]. split; [simpl; lia|done].
    + exists (j :: p). split; [by constructor|]. done.
Qed.
Lemma freed_before_S d m pt i q :
  0 ≤ i →
  freed_before d m pt (i + 1) q ↔ freed_before d m pt i q ∨
    (∃ p, Forall idx p ∧ (S (length p) ≤ d)%nat ∧ node m pt (i :: p) = Some q).
Proof.
  intros Hi. split.
  - intros (j & p & Hj & Hp). destruct (decide (j = i)) as [->|]; [right; by exists p|left].
    exists j, p. split; [lia|done].
  - intros [(j & p & Hj & Hp)|(p & Hp)]; [exists j, p|exists i, p]; (split; [lia|done]).
Qed.

Section freewalk_step.
Context (d : nat) (e : Z) (s0 : kst) (pt : Z) (l0 : list Z).
Context (Hok : sub_ok d e (k_mem s0) pt l0) (He : ly_end (k_ly s0) = e).

Lemma fw_skip i s :
  0 ≤ i → fw_inv d s0 pt l0 i s → has PTE_V (load64 (k_mem s0) (pt + 8 * i)) = false →
  fw_inv d s0 pt l0 (i + 1) s.
Proof using All.
  intros Hi [F1 (l & F2 & F3) F4 F5] HV.
  assert (∀ q, freed_before d (k_mem s0) pt (i + 1) q ↔ freed_before d (k_mem s0) pt i q) as HF.
  { intros q. rewrite freed_before_S by done. split; [|by left].
    intros [?|(p & _ & _ & E)]; [done|]. simpl in E. by rewrite HV in E. }
  split; [done| | |].
  - exists l. split; [done|]. intros q. by rewrite HF.
  - eapply same_but_mono; [|exact F4]. intros q. by rewrite HF.
  - intros j Hj. apply F5. lia.
Qed.

(** What was freed so far is apart from the subtrees to come. *)
Lemma freed_apart i j p q :
  0 ≤ i ≤ j → j < 512 → Forall idx p → (S (length p) ≤ d)%nat →
  node (k_mem s0) pt (j :: p) = Some q →
  q ≠ pt ∧ ¬ freed_before d (k_mem s0) pt i q.
Proof using All.
  intros Hi Hj Hp Hl E. assert (Forall idx (j :: p)) as Hjp.
  { constructor; [unfold idx; lia|done]. }
  split.
  - intros ->. assert (j :: p = []) as [=].
    apply (so_inj _ _ _ _ _ Hok _ _ pt); try done. simpl. lia.
  - intros (j' & p' & Hj' & Hp' & Hl' & E'). assert (j :: p = j' :: p') as [= -> ->]; [|lia].
    apply (so_inj _ _ _ _ _ Hok _ _ q); try done. constructor; [unfold idx; lia|done].
Qed.

Lemma pt_owned : page_ok e pt ∧ pt ∉ l0.
Proof using All.
  apply (so_own _ _ _ _ _ Hok). exists []. split; [constructor|]. split; [simpl; lia|done].
Qed.
Lemma freed_ok i q :
  i ≤ 512 → q = pt ∨ freed_before d (k_mem s0) pt i q → page_ok e q ∧ q ∉ l0.
Proof using All.
  intros Hi [->|Hq]; [apply pt_owned|]. apply (so_own _ _ _ _ _ Hok).
  by eapply freed_before_sub.
Qed.
Lemma pt_not_freed i : i ≤ 512 → ¬ freed_before d (k_mem s0) pt i pt.
Proof using All.
  intros Hi (j & p & Hj & Hp & Hl & E). assert (j :: p = []) as [=].
  apply (so_inj _ _ _ _ _ Hok _ _ pt); try done; [constructor; [unfold idx; lia|done]|].
  simpl. lia.
Qed.
End freewalk_step.

Section freewalk_child.
Context (d : nat) (e : Z) (s0 : kst) (pt : Z) (l0 : list Z) (i : Z) (s : kst) (v : Z).
Context (Hok : sub_ok (S d) e (k_mem s0) pt l0) (He : ly_end (k_ly s0) = e).
Context (Hi : 0 ≤ i < 512) (HF : fw_inv (S d) s0 pt l0 i s).
Context (Hv : ent (k_mem s0) pt [] i = Some v).

Lemma child_tree : sub_ok d e (k_mem s0) (PTE2PA v) l0.
Proof using All. by eapply (sub_ok_child _ _ _ _ _ i). Qed.
Lemma child_node p :
  node (k_mem s0) pt (i :: p) = node (k_mem s0) (PTE2PA v) p.
Proof using All. by apply node_cons. Qed.
Lemma child_apart q :
  q = pt ∨ freed_before (S d) (k_mem s0) pt i q →
  aligned q ∧ ¬ subpages d (k_mem s0) (PTE2PA v) q.
Proof using All.
  intros Hq. split.
  - by apply (freed_ok (S d) e s0 pt l0 Hok He i q ltac:(lia)).
  - intros (p & Hp & Hl & E). rewrite <- child_node in E.
    destruct (freed_apart (S d) e s0 pt l0 Hok He i i p q) as [? ?];
      try done; try lia. by destruct Hq.
Qed.
Lemma child_sub_ok l :
  (∀ q, q ∈ l ↔ q ∈ l0 ∨ freed_before (S d) (k_mem s0) pt i q) →
  sub_ok d e (k_mem s) (PTE2PA v) l.
Proof using All.
  intros Hl. eapply (sub_ok_same d e (k_mem s0) (k_mem s) _ l0);
    [exact child_tree|apply HF|apply child_apart|].
  intros q [Hq|Hq]%Hl Hs.
  - by apply (so_own _ _ _ _ _ child_tree) in Hs as [_ ?].
  - by apply (child_apart q); [right|].
Qed.
Lemma child_subpages q :
  subpages d (k_mem s) (PTE2PA v) q ↔
  ∃ p, Forall idx p ∧ (S (length p) ≤ S d)%nat ∧ node (k_mem s0) pt (i :: p) = Some q.
Proof using All.
  rewrite (sub_subpages d e (k_mem s0) (k_mem s) _ l0 _ child_tree (fw_same _ _ _ _ _ _ HF)
    child_apart).
  split; intros (p & Hp & Hl & E); exists p; (split; [done|]); (split; [lia|]);
    [rewrite child_node|rewrite <- child_node]; done.
Qed.

Lemma fw_child l s1 :
  (∀ q, q ∈ l ↔ q ∈ l0 ∨ freed_before (S d) (k_mem s0) pt i q) →
  fw_post d s (PTE2PA v) l s1 →
  fw_inv (S d) s0 pt l0 (i + 1) (set_k_mem (store64 (k_mem s1) (pt + 8 * i) 0) s1).
Proof using All.
  intros Hl (P1 & (l1 & P2 & P3) & P4). pose proof HF as [F1 _ F4 F5].
  assert (∀ q, freed_before (S d) (k_mem s0) pt (i + 1) q ↔
    freed_before (S d) (k_mem s0) pt i q ∨ subpages d (k_mem s) (PTE2PA v) q) as HF1.
  { intros q. rewrite freed_before_S by lia. by rewrite child_subpages. }
  destruct (pt_owned (S d) e s0 pt l0 Hok He) as [Hpt Hpl].
  assert (∀ q, q ∈ l1 ↔ q ∈ l0 ∨ freed_before (S d) (k_mem s0) pt (i + 1) q) as Hl1.
  { intros q. rewrite P3, Hl, HF1. tauto. }
  assert (∀ q, subpages d (k_mem s) (PTE2PA v) q → aligned q ∧ pt ≠ q) as Hne.
  { intros q Hq. assert (freed_before (S d) (k_mem s0) pt (i + 1) q) as Hf.
    { rewrite HF1. by right. } split.
    - by apply (freed_ok (S d) e s0 pt l0 Hok He (i + 1) q ltac:(lia) (or_intror Hf)).
    - intros <-. by apply (pt_not_freed (S d) e s0 pt l0 Hok He (i + 1) ltac:(lia)). }
  split.
  - eapply vm_rest_trans; [|apply vm_rest_mem]. by eapply vm_rest_trans.
  - exists l1. split; [|done]. apply (kmem_inv_mem s1 l1 _ (eq pt)); [done| | |].
    + by apply store_same_but.
    + intros x <-. split; [apply Hpt|]. rewrite Hl1. intros [?|?]; [done|].
      by apply (pt_not_freed (S d) e s0 pt l0 Hok He (i + 1) ltac:(lia)).
    + apply mem_ok_store64, P2.
  - eapply same_but_trans; [eapply same_but_mono; [|exact F4]|].
    { intros q [?|?]; [by left|right]. rewrite HF1. by left. }
    eapply same_but_trans; [eapply same_but_mono; [|exact P4]|].
    { intros q ?. right. rewrite HF1. by right. }
    eapply same_but_mono; [|by apply (store_same_but _ i pt)]. intros x <-. by left.
  - intros j Hj. simpl. rewrite load64_store64_ne by lia. rewrite <- F5 by lia.
    apply load64_ext. intros a Ha. apply (same_but_page _ _ _ pt a P4); [done|apply Hpt|].
    apply (in_page_entry pt j); [unfold idx; lia|done].
Qed.
End freewalk_child.

Lemma freewalk_spec d : ∀ s pt l,
  kmem_inv s l → LK_kmem ∉ k_held s → sub_ok d (ly_end (k_ly s)) (k_mem s) pt l →
  wp (freewalk (S d) pt) (λ _, fw_post d s pt l) s.
Proof.
  induction d as [d IH] using lt_wf_ind. intros s pt l HI Hh Hok.
  cbn [freewalk]. apply wp_bind.
  apply (wp_mfor _ _ _ (λ i s', fw_inv d s pt l i s')).
  - split; [apply vm_rest_refl| |by apply same_but_refl|done].
    exists l. split; [done|]. intros q. split; [by left|].
    intros [?|(j & p & Hj & _)]; [done|lia].
  - intros i s1 Hi HF. pose proof HF as [F1 (l1 & F2 & F3) F4 F5]. simpl in Hi.
    apply wp_bind, wp_gets. rewrite F5 by lia.
    assert (Forall idx [i]) as Hidx by (repeat constructor; unfold idx; lia).
    destruct (has PTE_V (load64 (k_mem s) (pt + 8 * i))) eqn:HV; cbn [andb].
    2:{ apply wp_ret. by eapply (fw_skip _ _ s pt l Hok eq_refl); [lia|..]. }
    set (v := load64 (k_mem s) (pt + 8 * i)) in *.
    assert (ent (k_mem s) pt [] i = Some v) as Hent.
    { unfold ent. simpl. fold v. by rewrite HV. }
    destruct d as [|d].
    { by rewrite (so_none _ _ _ _ _ Hok [] i eq_refl Hidx) in Hent. }
    rewrite (so_dir _ _ _ _ _ Hok [] i v) by (done || simpl; lia). cbn [Z.eqb].
    apply wp_bind. eapply wp_mono.
    + apply (IH d ltac:(lia) s1 (PTE2PA v) l1 F2).
      * by rewrite (vm_rest_held _ _ F1).
      * rewrite (vm_rest_ly _ _ F1).
        by eapply (child_sub_ok d _ s pt l i s1 v Hok eq_refl ltac:(lia) HF Hent).
    + intros [] s2 HP. apply wp_modify.
      by eapply (fw_child d _ s pt l i s1 v Hok eq_refl ltac:(lia) HF Hent l1).
  - intros s1 [F1 (l1 & F2 & F3) F4 F5]. simpl in *.
    destruct (pt_owned d _ s pt l Hok eq_refl) as [Hpt Hpl].
    assert (pt ∉ l1) as Hni.
    { rewrite F3. intros [?|?]; [done|]. by apply (pt_not_freed d _ s pt l Hok eq_refl 512 ltac:(lia)). }
    rewrite <- (vm_rest_ly _ _ F1) in Hpt.
    eapply wp_Ok; [apply kfree_Ok; [by rewrite (vm_rest_held _ _ F1)|done]|].
    split; [|split].
    + eapply vm_rest_trans; [exact F1|apply vm_rest_kfree].
    + exists (pt :: l1). split; [by apply kfree_inv|]. intros q.
      rewrite elem_of_cons, F3, subpages_split. tauto.
    + eapply same_but_trans; [eapply same_but_mono; [|exact F4]|].
      { intros q. by rewrite subpages_split. }
      eapply same_but_mono; [|apply kfree_same_but]. intros q <-. rewrite subpages_split. by left.
Qed.

(** ** uvmfree *)

#[local] Existing Instance user_leaves.

(** Every leaf of [root] is below [b]. *)
Definition leaves_below (m : mem) (root b : Z) : Prop :=
  ∀ p i, length p = 2%nat → Forall idx (p ++ [i]) → is_Some (ent m root p i) →
    va_of (p ++ [i]) < b.

Lemma va_of_nonneg p : Forall idx p → 0 ≤ va_of p.
Proof.
  intros H. destruct p as [|i [|j [|k []]]]; simpl; try lia.
  apply Forall_cons in H as [H1 H]. apply Forall_cons in H as [H2 H].
  apply Forall_cons in H as [H3 _]. unfold idx in *. lia.
Qed.

(** A space without leaves is a tree of tables. *)
Lemma vmx_sub_ok s root l X :
  vmx s root l X → leaves_below (k_mem s) root 0 →
  sub_ok 2 (ly_end (k_ly s)) (k_mem s) root l.
Proof.
  intros Hv Hlv. pose proof (vx_as _ _ _ _ Hv) as Has.
  assert (∀ p, Forall idx p → (length p ≤ 2)%nat → owned_path p) as Hop.
  { intros p ??. apply table_owned. by split. }
  split.
  - intros q (p & Hp & Hl & E). destruct (as_own _ _ _ _ Has p q) as [? Hni]; [by apply Hop|done|].
    set_solver.
  - intros p p' q Hp Hp' Hl Hl'. apply (as_inj _ _ _ _ Has); by apply Hop.
  - intros p i v Hl Hp E. rewrite land_flags, (as_dir _ _ _ _ Has p i v) by done. done.
  - intros p i Hl Hp. destruct (ent (k_mem s) root p i) eqn:E; [|done].
    specialize (Hlv p i Hl Hp ltac:(by eexists)). pose proof (va_of_nonneg _ Hp). lia.
Qed.

Lemma no_leaf_owns s root l X q :
  vmx s root l X → leaves_below (k_mem s) root 0 →
  owns (k_mem s) root q ↔ subpages 2 (k_mem s) root q.
Proof.
  intros Hv Hlv. split.
  - intros (p & (Hp & Hl & _) & E). exists p. split; [done|]. split; [|done].
    destruct (decide (length p = 3)%nat) as [H3|]; [|lia].
    destruct (split3 p H3) as (p1 & i & -> & Hl1). rewrite node_snoc in E.
    destruct (ent (k_mem s) root p1 i) eqn:E1; [|done].
    specialize (Hlv p1 i Hl1 Hp ltac:(by eexists)). pose proof (va_of_nonneg _ Hp). lia.
  - intros (p & Hp & Hl & E). exists p. split; [|done]. apply table_owned. by split.
Qed.

Lemma uvmfree_ok s root l sz :
  vmx s root l [] → 0 ≤ sz ≤ TRAPFRAME → all_mapped (k_mem s) root 0 (PGROUNDUP sz) →
  leaves_below (k_mem s) root (PGROUNDUP sz) →
  ∃ s' l', uvmfree root sz s = Ok () s' ∧ vm_rest s s' ∧ kmem_inv s' l' ∧
    (∀ q, q ∈ l' ↔ q ∈ l ∨ owns (k_mem s) root q) ∧
    same_but (λ q, q ∈ l ∨ owns (k_mem s) root q) (k_mem s) (k_mem s').
Proof.
  intros Hv Hsz Hall Hlv. pose proof TRAPFRAME_val as HT. pose proof MAXVA_val as HM.
  pose proof (PGROUNDUP_le sz TRAPFRAME ltac:(lia) aligned_TRAPFRAME ltac:(lia)) as Hn.
  assert (∃ s1 l1, when (0 <? sz) (uvmunmap root 0 (PGROUNDUP sz / PGSIZE) true) s = Ok () s1 ∧
    upd root s l [] s1 l1 [] (range 0 (PGROUNDUP sz)) ∧
    none_mapped (k_mem s1) root 0 (PGROUNDUP sz)) as (s1 & l1 & E1 & HU & Hnone).
  { pose proof (aligned_PGROUNDUP sz ltac:(lia)) as Hal.
    destruct (pages_between 0 (PGROUNDUP sz) aligned_0 Hal ltac:(lia)) as [Hb Hn0].
    rewrite Z.sub_0_r, Z.add_0_l in Hb. rewrite Z.sub_0_r in Hn0.
    destruct (Z.ltb_spec 0 sz); cbn [when].
    - destruct (uvmunmap_spec root s l [] 0 (PGROUNDUP sz / PGSIZE) Hv) as (s1 & l1 & E & HU & H0);
        try done.
      + rewrite Z.add_0_l, <- Hb. lia.
      + intros j Hj. rewrite Z.add_0_l. apply Hall. rewrite Hb. unfold PGSIZE in *. lia.
      + exists s1, l1. split; [done|]. rewrite Z.add_0_l, <- Hb in HU. split; [done|].
        rewrite Hb. apply (pages_none (k_mem s1) root 0); try done.
        rewrite Z.add_0_l, <- Hb. lia.
    - exists s, l. split; [done|]. assert (PGROUNDUP sz = 0) as ->.
      { assert (sz = 0) as -> by lia. done. }
      split; [|intros va ?; lia]. eapply upd_mono; [|by apply upd_refl]. done. }
  pose proof (u_inv _ _ _ _ _ _ _ _ HU) as Hv1.
  assert (leaves_below (k_mem s1) root 0) as Hlv1.
  { intros p i Hl Hp Hs. exfalso.
    destruct (decide (range 0 (PGROUNDUP sz) (p ++ [i]))) as [Hr|Hr].
    - destruct (va_path_of (p ++ [i])) as [E _]; [done|rewrite length_app; simpl; lia|].
      specialize (Hnone _ Hr). unfold pte_of in Hnone. rewrite va_path_page in E.
      apply app_inj_tail in E as [Ea Eb]. rewrite Ea, Eb in Hnone. rewrite Hnone in Hs.
      by destruct Hs.
    - rewrite (u_ent _ _ _ _ _ _ _ _ HU) in Hs by done. apply Hr. unfold range.
      pose proof (va_of_nonneg _ Hp). specialize (Hlv p i Hl Hp Hs). lia. }
  destruct (wp_inv _ _ _ (freewalk_spec 2 s1 root l1 (vx_kmem _ _ _ _ Hv1) (vx_held _ _ _ _ Hv1)
    (vmx_sub_ok _ _ _ _ Hv1 Hlv1))) as ([] & s' & E2 & R & (l' & K & HL) & HS).
  exists s', l'. unfold uvmfree. erewrite bind_Ok by exact E1. split; [done|].
  split; [eapply vm_rest_trans; [apply HU|done]|]. split; [done|].
  assert (∀ q, q ∈ l1 ∨ subpages 2 (k_mem s1) root q ↔ q ∈ l ∨ owns (k_mem s) root q) as Hpg.
  { intros q. rewrite <- (no_leaf_owns _ _ _ _ _ Hv1 Hlv1).
    pose proof (u_pages _ _ _ _ _ _ _ _ HU q) as Hq. by rewrite !app_nil_r in Hq. }
  split; [intros q; by rewrite HL|].
  eapply same_but_trans.
  - eapply same_but_mono; [|apply (u_same _ _ _ _ _ _ _ _ HU)]. intros q. by rewrite app_nil_r.
  - eapply same_but_mono; [|exact HS]. intros q Hq. apply Hpg. by right.
Qed.
