(* ===== verification/VmCopy.v ===== *)
(** * Copies between user and kernel memory: [copyout], [copyin], [copyinstr] *)

From stdpp Require Import options.
From S2P Require Import Prelude CString State Sched Kalloc Vm PageTable VmWalk VmSpec VmOps.
#[local] Open Scope Z_scope.
#[local] Existing Instance user_leaves.

(** ** The user's view of memory *)

(** The physical address the hardware gives user code at [va]. *)
Definition utrans (m : mem) (root va : Z) : option Z :=
  if decide (0 ≤ va < MAXVA) then
    match pte_of m root va with
    | Some v => if has PTE_U v then Some (PTE2PA v + va mod PGSIZE) else None
    | None => None
    end
  else None.

(** An address space, and that user code reaches only pages it owns. *)
Record uspace (e : Z) (m : mem) (root : Z) : Prop := {
  us_wf : as_wf e m root [];
  us_top va v : TRAPFRAME ≤ va < MAXVA → pte_of m root va = Some v → has PTE_U v = false;
}.

(** Kernel memory apart from the address space. *)
Definition kernel_range (m : mem) (root a n : Z) : Prop :=
  ∀ x q, a ≤ x < a + n → owns m root q → ¬ in_page q x.

Lemma utrans_owned e m root va a :
  uspace e m root → utrans m root va = Some a →
  0 ≤ va < TRAPFRAME ∧ ∃ v, pte_of m root va = Some v ∧ has PTE_U v = true ∧
    a = PTE2PA v + va mod PGSIZE ∧ page_ok e (PTE2PA v) ∧ owns m root (PTE2PA v).
Proof.
  intros Hu. unfold utrans. case_decide as Hva; [|done].
  destruct (pte_of m root va) as [v|] eqn:E; [|done].
  destruct (has PTE_U v) eqn:HU; [|done]. intros [= <-].
  assert (va < TRAPFRAME) as Hlt.
  { destruct (decide (va < TRAPFRAME)); [done|].
    rewrite (us_top _ _ _ Hu va v) in HU by (done || lia). done. }
  split; [lia|]. exists v. split_and!; try done.
  - apply (as_own _ _ _ _ (us_wf _ _ _ Hu) (va_path va)); [by apply owned_va_path; lia|].
    by rewrite node_va_path, E.
  - exists (va_path va). split; [by apply owned_va_path; lia|]. by rewrite node_va_path, E.
Qed.

(** Different user addresses are different bytes of memory. *)
Lemma utrans_inj e m root va va' a :
  uspace e m root → utrans m root va = Some a → utrans m root va' = Some a → va = va'.
Proof.
  intros Hu H H'. pose proof TRAPFRAME_val as HT. pose proof MAXVA_val as HM.
  destruct (utrans_owned _ _ _ _ _ Hu H) as (Hva & v & E & _ & Ea & Hok & _).
  destruct (utrans_owned _ _ _ _ _ Hu H') as (Hva' & v' & E' & _ & Ea' & Hok' & _).
  assert (PTE2PA v = PTE2PA v') as Hq.
  { destruct (decide (PTE2PA v = PTE2PA v')) as [?|Hne]; [done|exfalso].
    apply (pages_disjoint (PTE2PA v) (PTE2PA v') a); [apply Hok|apply Hok'|done| |].
    - rewrite Ea. apply in_page_off.
    - rewrite Ea'. apply in_page_off. }
  assert (va_path va = va_path va') as Hp.
  { apply (as_inj _ _ _ _ (us_wf _ _ _ Hu) _ _ (PTE2PA v));
      try (apply owned_va_path; lia); rewrite node_va_path; [by rewrite E|by rewrite E', Hq]. }
  apply va_path_inj in Hp; [|lia|lia].
  pose proof (Z.div_mod va PGSIZE). pose proof (Z.div_mod va' PGSIZE).
  unfold PGSIZE in *. lia.
Qed.

(** Writing user pages or kernel memory keeps the address space. *)
Lemma utrans_tabs m m' root va : same_tabs m m' root → utrans m' root va = utrans m root va.
Proof. intros Hs. unfold utrans. by rewrite (pte_of_tabs m m'). Qed.
Lemma uspace_tabs e m m' root : uspace e m root → same_tabs m m' root → uspace e m' root.
Proof.
  intros [H1 H2] Hs. split.
  - eapply as_wf_tabs; [done|done|]. by left.
  - intros va v. rewrite (pte_of_tabs m m') by done. apply H2.
Qed.
Lemma kernel_range_tabs m m' root a n :
  kernel_range m root a n → same_tabs m m' root → kernel_range m' root a n.
Proof.
  intros H Hs x q Hx (p & Hp & E). apply (H x q Hx). exists p. split; [done|].
  rewrite <- (node_tabs m m'); [done|done|apply Hp|apply Hp].
Qed.

(** ** walkaddr *)

Lemma PGROUNDDOWN_split va :
  0 ≤ va < 2 ^ 64 → PGROUNDDOWN va = va - va mod PGSIZE ∧ va - PGROUNDDOWN va = va mod PGSIZE ∧
    0 ≤ PGROUNDDOWN va ≤ va ∧ PGROUNDDOWN va mod PGSIZE = 0 ∧ 0 ≤ va mod PGSIZE < PGSIZE.
Proof.
  intros Hva. rewrite PGROUNDDOWN_eq by done.
  pose proof (Z.mod_pos_bound va PGSIZE ltac:(by compute)).
  pose proof (Z.div_mod va PGSIZE ltac:(by compute)).
  pose proof (Z.div_pos va PGSIZE ltac:(lia) ltac:(by compute)).
  split_and!; try lia.
  - unfold PGSIZE in *. lia.
  - rewrite Zminus_mod_idemp_r, Z.sub_diag. done.
Qed.

(** At the start of a page: [None] is the 0 the code returns. *)
Lemma walkaddr_spec e s root va :
  uspace e (k_mem s) root → 0 ≤ va → va mod PGSIZE = 0 →
  walkaddr root va s = Ok (default 0 (utrans (k_mem s) root va)) s ∧
  (∀ a, utrans (k_mem s) root va = Some a → a ≠ 0).
Proof.
  intros Hu Hva Hal. split.
  2:{ intros a Ha. destruct (utrans_owned _ _ _ _ _ Hu Ha) as (_ & v & _ & _ & -> & Hok & _).
      apply page_ok_range in Hok. rewrite Hal. lia. }
  unfold walkaddr, utrans. destruct (Z.leb_spec MAXVA va).
  { rewrite decide_False by lia. done. }
  rewrite decide_True by lia.
  erewrite bind_Ok by (by apply walk_noalloc).
  destruct (pte_of (k_mem s) root va) as [v|] eqn:E.
  - destruct (pte_of_walk _ _ _ _ E) as (pt & Hpt & Ew & Hl & HV). rewrite Ew.
    destruct (as_own _ _ _ _ (us_wf _ _ _ Hu) [PX 2 va; PX 1 va] pt) as [Hok _]; auto.
    apply page_ok_range in Hok. pose proof (PX_idx 0 va ltac:(lia)) as Hi. unfold idx in Hi.
    rewrite (proj2 (Z.eqb_neq _ _)) by lia. vstep. rewrite Hl, HV. cbn [negb].
    destruct (has PTE_U v); simpl; [|done]. by rewrite Hal, Z.add_0_r.
  - unfold pte_of, ent, walk_result in *.
    destruct (node (k_mem s) root [PX 2 va; PX 1 va]) as [pt|] eqn:Hpt; [|done]. simpl in E.
    destruct (_ =? 0); [done|]. vstep.
    destruct (has PTE_V _); [done|]. done.
Qed.

(** The bytes of a page are consecutive. *)
Lemma utrans_page m root va i a :
  0 ≤ va → va mod PGSIZE = 0 → utrans m root va = Some a → 0 ≤ i < PGSIZE →
  utrans m root (va + i) = Some (a + i).
Proof.
  intros H0 Hal. unfold utrans. case_decide as Hva; [|done]. intros E Hi.
  pose proof MAXVA_val as HM.
  assert (va + i < MAXVA) as Hlt.
  { apply Z.mod_divide in Hal as [j Hj]; [|by compute]. unfold PGSIZE in *. lia. }
  rewrite decide_True by lia.
  assert ((va + i) / PGSIZE = va / PGSIZE ∧ (va + i) mod PGSIZE = i) as [Hd Hm].
  { apply Z.mod_divide in Hal as [j ->]; [|by compute].
    rewrite Z.add_comm, Z.div_add, Z.mod_add, Z.div_mul by by compute.
    rewrite Z.div_small, Z.mod_small by lia. lia. }
  rewrite (pte_of_page _ _ (va + i) va) by (done || lia).
  destruct (pte_of m root va) as [v|]; [|done]. destruct (has PTE_U v); [|done].
  injection E as <-. rewrite Hm, Hal. f_equal. lia.
Qed.
Lemma utrans_page_none m root va i :
  0 ≤ va → va mod PGSIZE = 0 → utrans m root va = None → 0 ≤ i < PGSIZE →
  utrans m root (va + i) = None.
Proof.
  intros H0 Hal. unfold utrans. intros E Hi. pose proof MAXVA_val as HM.
  destruct (decide (0 ≤ va + i < MAXVA)) as [Hva|]; [|done].
  rewrite decide_True in E by lia.
  assert ((va + i) / PGSIZE = va / PGSIZE) as Hd.
  { apply Z.mod_divide in Hal as [j ->]; [|by compute].
    rewrite Z.add_comm, Z.div_add, Z.div_mul by by compute. rewrite Z.div_small by lia. lia. }
  rewrite (pte_of_page _ _ (va + i) va) by (done || lia).
  destruct (pte_of m root va) as [v|]; [|done]. by destruct (has PTE_U v).
Qed.

(** ** Fuel *)

Definition fuel_ok (fuel : nat) (va len : Z) : Prop :=
  (0 < fuel)%nat ∧
  ((va mod PGSIZE + len + PGSIZE - 1) / PGSIZE < Z.of_nat fuel ∨ MAXVA ≤ PGROUNDDOWN va ∨
   (MAXVA - PGROUNDDOWN va) / PGSIZE < Z.of_nat fuel).

Lemma fuel_ok_next fuel va len :
  0 ≤ va < 2 ^ 64 → 0 < len → PGROUNDDOWN va < MAXVA → fuel_ok (S fuel) va len →
  let n := Z.min (PGSIZE - (va - PGROUNDDOWN va)) len in
  fuel_ok fuel (PGROUNDDOWN va + PGSIZE) (len - n).
Proof.
  intros Hva Hlen Hlt [_ Hf] n. pose proof MAXVA_val as HM.
  destruct (PGROUNDDOWN_split va Hva) as (_ & Eo & Hr & Hal & Ho).
  assert (PGROUNDDOWN (PGROUNDDOWN va + PGSIZE) = PGROUNDDOWN va + PGSIZE ∧
    (PGROUNDDOWN va + PGSIZE) mod PGSIZE = 0) as [E1 E2].
  { assert ((PGROUNDDOWN va + PGSIZE) mod PGSIZE = 0) as E.
    { rewrite <- (Z.mul_1_l PGSIZE) at 1. by rewrite Z.mod_add. }
    split; [|done]. rewrite PGROUNDDOWN_eq by (unfold PGSIZE in *; lia). lia. }
  assert ((MAXVA - (PGROUNDDOWN va + PGSIZE)) / PGSIZE = (MAXVA - PGROUNDDOWN va) / PGSIZE - 1) as E3.
  { replace (MAXVA - (PGROUNDDOWN va + PGSIZE)) with (MAXVA - PGROUNDDOWN va + (-1) * PGSIZE) by lia.
    rewrite Z.div_add by by compute. lia. }
  assert (1 ≤ (MAXVA - PGROUNDDOWN va) / PGSIZE) as E4.
  { apply Z.div_le_lower_bound; [by compute|].
    apply Z.mod_divide in Hal as [j Hj]; [|by compute]. rewrite Hj in *. unfold PGSIZE in *. lia. }
  unfold fuel_ok. rewrite E1, E2, E3, Z.add_0_l. unfold n. rewrite Eo in *.
  unfold PGSIZE in *. set (o := va mod 4096) in *.
  assert (1 ≤ (o + len + 4096 - 1) / 4096) by (apply Z.div_le_lower_bound; lia).
  destruct Hf as [Hf|[Hf|Hf]]; [|lia|split; [lia|right; right; lia]].
  split; [lia|]. left.
  destruct (Z.min_spec (4096 - o) len) as [[? ->]|[? ->]].
  - replace (len - (4096 - o) + 4096 - 1) with (o + len + 4096 - 1 + (-1) * 4096) by lia.
    rewrite Z.div_add by lia. lia.
  - rewrite Z.sub_diag. change ((0 + 4096 - 1) / 4096) with 0. lia.
Qed.

Lemma copy_fuel_ok va len : 0 ≤ va < 2 ^ 64 → 0 ≤ len → fuel_ok (copy_fuel len) va len.
Proof.
  intros Hva Hlen. pose proof MAXVA_val as HM.
  destruct (PGROUNDDOWN_split va Hva) as (_ & _ & Hr & _ & Ho).
  unfold fuel_ok, copy_fuel. split; [lia|].
  assert (0 ≤ len / PGSIZE) by (apply Z.div_pos; [lia|by compute]).
  rewrite !Nat2Z.inj_succ, Z2Nat.id by (apply Z.min_glb; [done|by compute]).
  destruct (Z.min_spec (len / PGSIZE) (MAXVA / PGSIZE)) as [[? ->]|[? ->]]; [left|right; right].
  - unfold PGSIZE in *. set (o := va mod 4096) in *.
    pose proof (Z.div_mod len 4096). pose proof (Z.mod_pos_bound len 4096).
    assert ((o + len + 4096 - 1) / 4096 < len / 4096 + 3); [|lia].
    apply Z.div_lt_upper_bound; lia.
  - assert ((MAXVA - PGROUNDDOWN va) / PGSIZE ≤ MAXVA / PGSIZE); [|lia].
    apply Z.div_le_mono; [by compute|lia].
Qed.

(** One page of a copy, as the loops see it. *)
Lemma page_step m root va len :
  0 ≤ va < 2 ^ 64 → 0 < len →
  let va0 := PGROUNDDOWN va in
  let n := Z.min (PGSIZE - (va - va0)) len in
  0 < n ≤ len ∧ va + n ≤ va0 + PGSIZE ∧
  (n < len → va + n = va0 + PGSIZE) ∧
  (utrans m root va0 = None → utrans m root va = None) ∧
  (∀ a, utrans m root va0 = Some a → u64 (va0 + PGSIZE) = va0 + PGSIZE ∧
     va0 < MAXVA ∧ 0 ≤ va0 + PGSIZE < 2 ^ 64 ∧
     ∀ i, 0 ≤ i < n → utrans m root (va + i) = Some (a + (va - va0) + i)).
Proof.
  intros Hva Hlen va0 n. pose proof MAXVA_val as HM.
  destruct (PGROUNDDOWN_split va Hva) as (E0 & Eo & Hr & Hal & Ho). fold va0 in E0, Eo, Hr, Hal.
  split_and!; try (unfold n, PGSIZE in *; lia).
  - intros E. replace va with (va0 + (va - va0)) by lia.
    apply utrans_page_none; try done; lia.
  - intros a Ha. assert (va0 < MAXVA) as Hlt.
    { unfold utrans in Ha. case_decide; [lia|done]. }
    rewrite u64_id by (unfold PGSIZE; lia). split; [done|]. split; [done|].
    split; [unfold PGSIZE; lia|].
    intros i Hi. replace (va + i) with (va0 + (va - va0 + i)) by lia.
    rewrite (utrans_page _ _ _ _ a) by (done || unfold n in *; lia). f_equal. lia.
Qed.

(** ** copyout *)

(** The first [k] bytes at [src] are at the user address [dstva]; nothing else
    changed. *)
Record copied_out (root dstva src k : Z) (m m' : mem) : Prop := {
  co_bytes i : 0 ≤ i < k → ∃ a, utrans m root (dstva + i) = Some a ∧ rd m' a = rd m (src + i);
  co_rest a : (∀ i, 0 ≤ i < k → utrans m root (dstva + i) ≠ Some a) → rd m' a = rd m a;
  co_mem : mem_ok m';
}.

Lemma copied_out_0 root dstva src m : mem_ok m → copied_out root dstva src 0 m m.
Proof. intros Hm. split; try done. intros; lia. Qed.

Lemma user_not_table e m root va a q :
  uspace e m root → utrans m root va = Some a → tabs m root q → ¬ in_page q a.
Proof.
  intros Hu Ha Ht. destruct (utrans_owned _ _ _ _ _ Hu Ha) as (Hva & v & E & _ & -> & Hok & _).
  apply (pages_disjoint (PTE2PA v) q); [apply Hok| | |apply in_page_off].
  - by apply (owns_ok _ _ _ _ _ (us_wf _ _ _ Hu) (tabs_owns _ _ _ Ht)).
  - intros <-. refine (leaf_not_table _ _ _ _ (va_path va) (PTE2PA v) _ (us_wf _ _ _ Hu) _ _ _ Ht eq_refl);
      [done|by apply owned_va_path|by rewrite node_va_path, E].
Qed.
Lemma copied_out_tabs e root dstva src k m m' :
  uspace e m root → copied_out root dstva src k m m' → same_tabs m m' root.
Proof.
  intros Hu [_ C _] q a Ht Ha. apply C. intros i Hi E.
  by eapply (user_not_table _ _ _ _ _ q Hu E).
Qed.

Lemma copied_out_app e root dstva src n k m m1 m2 :
  uspace e m root → 0 ≤ n → kernel_range m root src (n + k) →
  copied_out root dstva src n m m1 →
  copied_out root (dstva + n) (src + n) k m1 m2 → 0 ≤ k →
  copied_out root dstva src (n + k) m m2.
Proof.
  intros Hu Hn Hk H1 H2 Hk0. pose proof (copied_out_tabs _ _ _ _ _ _ _ Hu H1) as Ht.
  assert (∀ va, utrans m1 root va = utrans m root va) as HT by (intros; by apply utrans_tabs).
  split; [| |apply H2].
  - intros i Hi. destruct (decide (i < n)).
    + destruct (co_bytes _ _ _ _ _ _ H1 i ltac:(lia)) as (a & Ha & E). exists a.
      split; [done|]. rewrite (co_rest _ _ _ _ _ _ H2); [done|].
      intros j Hj Ej. rewrite HT in Ej.
      pose proof (utrans_inj _ _ _ _ _ _ Hu Ha Ej). lia.
    + destruct (co_bytes _ _ _ _ _ _ H2 (i - n) ltac:(lia)) as (a & Ha & E). rewrite HT in Ha.
      replace (dstva + n + (i - n)) with (dstva + i) in Ha by lia.
      replace (src + n + (i - n)) with (src + i) in E by lia. exists a. split; [done|].
      rewrite E. apply (co_rest _ _ _ _ _ _ H1). intros j Hj Ej.
      destruct (utrans_owned _ _ _ _ _ Hu Ej) as (_ & v & _ & _ & Ex & _ & Ho).
      apply (Hk (src + i) (PTE2PA v)); [lia|done|]. rewrite Ex. apply in_page_off.
  - intros a Ha. rewrite (co_rest _ _ _ _ _ _ H2).
    + apply (co_rest _ _ _ _ _ _ H1). intros i Hi. apply Ha. lia.
    + intros i Hi. rewrite HT. rewrite <- Z.add_assoc. apply Ha. lia.
Qed.

Lemma copyout_loop_spec fuel : ∀ e s root dstva src len,
  uspace e (k_mem s) root → mem_ok (k_mem s) → 0 ≤ dstva < 2 ^ 64 → 0 ≤ len →
  kernel_range (k_mem s) root src len → fuel_ok fuel dstva len →
  ∃ k m', copyout_loop fuel root dstva src len s =
      Ok (if decide (k = len) then 0 else -1) (set_k_mem m' s) ∧
    0 ≤ k ≤ len ∧ (k < len → utrans (k_mem s) root (dstva + k) = None) ∧
    copied_out root dstva src k (k_mem s) m'.
Proof.
  induction fuel as [|fuel IH]; intros e s root dstva src len Hu Hm Hd Hlen Hk Hf.
  { destruct Hf; lia. }
  cbn [copyout_loop]. destruct (Z.leb_spec len 0) as [Hz|Hpos].
  { assert (len = 0) as -> by lia. exists 0, (k_mem s).
    rewrite decide_True by done. split; [by destruct s|]. split; [lia|]. split; [lia|].
    by apply copied_out_0. }
  destruct (page_step (k_mem s) root dstva len Hd Hpos) as (Hn & Hn2 & Hn3 & Hbad & Hgood).
  destruct (PGROUNDDOWN_split dstva Hd) as (_ & _ & Hr & Hal & _).
  set (va0 := PGROUNDDOWN dstva) in *. set (n := Z.min (PGSIZE - (dstva - va0)) len) in *.
  destruct (walkaddr_spec e s root va0 Hu ltac:(lia) Hal) as [Ew Hnz].
  erewrite bind_Ok by exact Ew.
  destruct (utrans (k_mem s) root va0) as [pa0|] eqn:Et; cbn [default from_option id].
  2:{ exists 0, (k_mem s). rewrite decide_False by lia. split; [by destruct s|].
      split; [lia|]. split; [rewrite Z.add_0_r; auto|]. by apply copied_out_0. }
  destruct (Hgood pa0 eq_refl) as (Hu64 & Hlt & Hva' & Hbytes). clear Hgood.
  rewrite (proj2 (Z.eqb_neq _ _) (Hnz pa0 eq_refl)). vstep. rewrite Hu64.
  set (d := pa0 + (dstva - va0)) in *.
  assert (copied_out root dstva src n (k_mem s) (memmove (k_mem s) d src n)) as Hc.
  { split; [| |apply mem_ok_memmove; (done || lia)].
    - intros i Hi. exists (d + i). split; [by apply Hbytes|].
      rewrite rd_memmove by (done || lia). rewrite decide_True by lia. f_equal. lia.
    - intros a Ha. rewrite rd_memmove by (done || lia). rewrite decide_False; [done|].
      intros Hx. apply (Ha (a - d)); [lia|]. rewrite Hbytes by lia. f_equal. lia. }
  pose proof (copied_out_tabs _ _ _ _ _ _ _ Hu Hc) as Ht.
  set (s1 := set_k_mem (memmove (k_mem s) d src n) s).
  destruct (decide (n = len)) as [Enl|Hnl].
  - destruct fuel as [|fuel']; [destruct Hf as [_ Hf]|].
    { exfalso. pose proof (fuel_ok_next 0 dstva len Hd Hpos ltac:(done)) as [Hx _].
      - split; [lia|done].
      - lia. }
    cbn [copyout_loop]. destruct (Z.leb_spec (len - n) 0); [|lia].
    exists len, (memmove (k_mem s) d src n). rewrite decide_True by done. split; [done|].
    split; [lia|]. split; [lia|]. by rewrite <- Enl at 1.
  - destruct (IH e s1 root (va0 + PGSIZE) (src + n) (len - n)) as (k & m' & E & Hk1 & Hk2 & Hk3).
    + by eapply uspace_tabs.
    + apply Hc.
    + lia.
    + lia.
    + eapply kernel_range_tabs; [|exact Ht]. intros x q Hx. apply Hk. lia.
    + apply (fuel_ok_next fuel dstva len Hd Hpos ltac:(done) Hf).
    + specialize (Hn3 ltac:(lia)). rewrite <- Hn3 in *. exists (n + k), m'. rewrite E.
      split; [f_equal; repeat case_decide; (done || lia)|]. split; [lia|]. split.
      * intros Hlt'. rewrite Z.add_assoc, <- Hk2 by lia. symmetry. by apply utrans_tabs.
      * eapply copied_out_app; try done; try lia. intros x q Hx. apply Hk. lia.
Qed.

Lemma copyout_ok e s root dstva src len :
  uspace e (k_mem s) root → mem_ok (k_mem s) → 0 ≤ dstva < 2 ^ 64 → 0 ≤ len →
  kernel_range (k_mem s) root src len →
  ∃ k m', copyout root dstva src len s =
      Ok (if decide (k = len) then 0 else -1) (set_k_mem m' s) ∧
    0 ≤ k ≤ len ∧ (k < len → utrans (k_mem s) root (dstva + k) = None) ∧
    copied_out root dstva src k (k_mem s) m'.
Proof.
  intros. apply (copyout_loop_spec _ e); try done. by apply copy_fuel_ok.
Qed.

(** ** copyin *)

(** The first [k] user bytes at [srcva] are at [dst]; nothing else changed. *)
Record copied_in (root dst srcva k : Z) (m m' : mem) : Prop := {
  ci_bytes i : 0 ≤ i < k → ∃ a, utrans m root (srcva + i) = Some a ∧ rd m' (dst + i) = rd m a;
  ci_rest a : ¬ (dst ≤ a < dst + k) → rd m' a = rd m a;
  ci_mem : mem_ok m';
}.

Lemma copied_in_0 root dst srcva m : mem_ok m → copied_in root dst srcva 0 m m.
Proof. intros Hm. split; try done. intros; lia. Qed.

Lemma copied_in_tabs root dst srcva k m m' :
  kernel_range m root dst k → copied_in root dst srcva k m m' → same_tabs m m' root.
Proof.
  intros Hk [_ C _] q a Ht Ha. apply C. intros Hx. by apply (Hk a q Hx (tabs_owns _ _ _ Ht)).
Qed.

Lemma copied_in_app e root dst srcva n k m m1 m2 :
  uspace e m root → 0 ≤ n → 0 ≤ k → kernel_range m root dst (n + k) →
  copied_in root dst srcva n m m1 →
  copied_in root (dst + n) (srcva + n) k m1 m2 →
  copied_in root dst srcva (n + k) m m2.
Proof.
  intros Hu Hn Hk0 Hk H1 H2.
  assert (same_tabs m m1 root) as Ht.
  { eapply copied_in_tabs; [|exact H1]. intros x q Hx. apply Hk. lia. }
  assert (∀ va, utrans m1 root va = utrans m root va) as HT by (intros; by apply utrans_tabs).
  split; [| |apply H2].
  - intros i Hi. destruct (decide (i < n)).
    + destruct (ci_bytes _ _ _ _ _ _ H1 i ltac:(lia)) as (a & Ha & E). exists a.
      split; [done|]. rewrite (ci_rest _ _ _ _ _ _ H2) by lia. done.
    + destruct (ci_bytes _ _ _ _ _ _ H2 (i - n) ltac:(lia)) as (a & Ha & E). rewrite HT in Ha.
      replace (srcva + n + (i - n)) with (srcva + i) in Ha by lia.
      replace (dst + n + (i - n)) with (dst + i) in E by lia. exists a. split; [done|].
      rewrite E. apply (ci_rest _ _ _ _ _ _ H1). intros Hx.
      destruct (utrans_owned _ _ _ _ _ Hu Ha) as (_ & v & _ & _ & Ex & _ & Ho).
      apply (Hk a (PTE2PA v)); [lia|done|]. rewrite Ex. apply in_page_off.
  - intros a Ha. rewrite (ci_rest _ _ _ _ _ _ H2) by lia. apply (ci_rest _ _ _ _ _ _ H1). lia.
Qed.

Lemma copied_in_ext root dst srcva k m m' m'' :
  copied_in root dst srcva k m m' → (∀ a, rd m'' a = rd m' a) → copied_in root dst srcva k m m''.
Proof.
  intros [C1 C2 C3] H. split.
  - intros i Hi. destruct (C1 i Hi) as (a & Ha & E). exists a. by rewrite H.
  - intros a Ha. rewrite H. auto.
  - intros a. rewrite H. apply C3.
Qed.

Lemma copyin_loop_spec fuel : ∀ e s root dst srcva len,
  uspace e (k_mem s) root → mem_ok (k_mem s) → 0 ≤ srcva < 2 ^ 64 → 0 ≤ len →
  kernel_range (k_mem s) root dst len → fuel_ok fuel srcva len →
  ∃ k m', copyin_loop fuel root dst srcva len s =
      Ok (if decide (k = len) then 0 else -1) (set_k_mem m' s) ∧
    0 ≤ k ≤ len ∧ (k < len → utrans (k_mem s) root (srcva + k) = None) ∧
    copied_in root dst srcva k (k_mem s) m'.
Proof.
  induction fuel as [|fuel IH]; intros e s root dst srcva len Hu Hm Hd Hlen Hk Hf.
  { destruct Hf; lia. }
  cbn [copyin_loop]. destruct (Z.leb_spec len 0) as [Hz|Hpos].
  { assert (len = 0) as -> by lia. exists 0, (k_mem s).
    rewrite decide_True by done. split; [by destruct s|]. split; [lia|]. split; [lia|].
    by apply copied_in_0. }
  destruct (page_step (k_mem s) root srcva len Hd Hpos) as (Hn & Hn2 & Hn3 & Hbad & Hgood).
  destruct (PGROUNDDOWN_split srcva Hd) as (_ & _ & Hr & Hal & _).
  set (va0 := PGROUNDDOWN srcva) in *. set (n := Z.min (PGSIZE - (srcva - va0)) len) in *.
  destruct (walkaddr_spec e s root va0 Hu ltac:(lia) Hal) as [Ew Hnz].
  erewrite bind_Ok by exact Ew.
  destruct (utrans (k_mem s) root va0) as [pa0|] eqn:Et; cbn [default from_option id].
  2:{ exists 0, (k_mem s). rewrite decide_False by lia. split; [by destruct s|].
      split; [lia|]. split; [rewrite Z.add_0_r; auto|]. by apply copied_in_0. }
  destruct (Hgood pa0 eq_refl) as (Hu64 & Hlt & Hva' & Hbytes). clear Hgood.
  rewrite (proj2 (Z.eqb_neq _ _) (Hnz pa0 eq_refl)). vstep. rewrite Hu64.
  set (d := pa0 + (srcva - va0)) in *.
  assert (copied_in root dst srcva n (k_mem s) (memmove (k_mem s) dst d n)) as Hc.
  { split; [| |apply mem_ok_memmove; (done || lia)].
    - intros i Hi. exists (d + i). split; [by apply Hbytes|].
      rewrite rd_memmove by (done || lia). rewrite decide_True by lia. f_equal. lia.
    - intros a Ha. rewrite rd_memmove by (done || lia). by rewrite decide_False. }
  assert (same_tabs (k_mem s) (memmove (k_mem s) dst d n) root) as Ht.
  { eapply copied_in_tabs; [|exact Hc]. intros x q Hx. apply Hk. lia. }
  set (s1 := set_k_mem (memmove (k_mem s) dst d n) s).
  pose proof (fuel_ok_next fuel srcva len Hd Hpos ltac:(done) Hf) as Hf'.
  fold va0 n in Hf'.
  destruct (IH e s1 root (dst + n) (va0 + PGSIZE) (len - n)) as (k & m' & E & Hk1 & Hk2 & Hk3).
  - by eapply uspace_tabs.
  - apply Hc.
  - lia.
  - lia.
  - eapply kernel_range_tabs; [|exact Ht]. intros x q Hx. apply Hk. lia.
  - done.
  - exists (n + k), m'. rewrite E.
    split; [f_equal; repeat case_decide; (done || lia)|]. split; [lia|]. split.
    + intros Hlt'. rewrite Z.add_assoc, (Hn3 ltac:(lia)), <- Hk2 by lia.
      symmetry. by apply utrans_tabs.
    + destruct (decide (k = 0)) as [->|].
      * rewrite Z.add_0_r. eapply copied_in_ext; [exact Hc|].
        intros a. apply (ci_rest _ _ _ _ _ _ Hk3). lia.
      * rewrite <- (Hn3 ltac:(lia)) in Hk3. eapply copied_in_app; try done; try lia.
        intros x q Hx. apply Hk. lia.
Qed.

Lemma copyin_ok e s root dst srcva len :
  uspace e (k_mem s) root → mem_ok (k_mem s) → 0 ≤ srcva < 2 ^ 64 → 0 ≤ len →
  kernel_range (k_mem s) root dst len →
  ∃ k m', copyin root dst srcva len s =
      Ok (if decide (k = len) then 0 else -1) (set_k_mem m' s) ∧
    0 ≤ k ≤ len ∧ (k < len → utrans (k_mem s) root (srcva + k) = None) ∧
    copied_in root dst srcva k (k_mem s) m'.
Proof.
  intros. apply (copyin_loop_spec _ e); try done. by apply copy_fuel_ok.
Qed.

(** ** copyinstr *)

(** The user bytes before [k] are mapped and are not NUL. *)
Definition no_nul (m : mem) (root srcva k : Z) : Prop :=
  ∀ i, 0 ≤ i < k → ∃ a, utrans m root (srcva + i) = Some a ∧ rd m a ≠ 0.

(** Within one page. *)
Lemma copyinstr_page_spec n : ∀ s dst p,
  mem_ok (k_mem s) → (∀ i, 0 ≤ i < Z.of_nat n → ¬ (dst ≤ p + i < dst + Z.of_nat n)) →
  ∃ b j m', copyinstr_page n dst p s = Ok b (set_k_mem m' s) ∧ mem_ok m' ∧
    (∀ i, 0 ≤ i < j → rd (k_mem s) (p + i) ≠ 0) ∧
    ((b = true ∧ 0 ≤ j < Z.of_nat n ∧ rd (k_mem s) (p + j) = 0 ∧
      ∀ a, rd m' a = if decide (dst ≤ a < dst + (j + 1))
                     then rd (k_mem s) (p + (a - dst)) else rd (k_mem s) a) ∨
     (b = false ∧ j = Z.of_nat n ∧
      ∀ a, rd m' a = if decide (dst ≤ a < dst + j)
                     then rd (k_mem s) (p + (a - dst)) else rd (k_mem s) a)).
Proof.
  induction n as [|n IH]; intros s dst p Hm Hd.
  { exists false, 0, (k_mem s). split; [by destruct s|]. split; [done|]. split; [lia|].
    right. split; [done|]. split; [done|]. intros a. by rewrite decide_False by lia. }
  cbn [copyinstr_page]. mstep. set (c := rd (k_mem s) p).
  assert (0 ≤ c < 256) as Hc by apply Hm.
  destruct (Z.eqb_spec c 0) as [Hz|Hnz]; mstep.
  { exists true, 0, (wr dst 0 (k_mem s)). split; [done|]. split; [by apply mem_ok_wr|].
    split; [lia|]. left. split; [done|]. split; [lia|]. rewrite Z.add_0_r. split; [done|].
    intros a. rewrite rd_wr. repeat case_decide; try lia.
    subst. rewrite Z.sub_diag, Z.add_0_r. fold c. rewrite Hz. done. }
  set (s1 := set_k_mem (wr dst c (k_mem s)) s).
  assert (∀ a, a ≠ dst → rd (k_mem s1) a = rd (k_mem s) a) as Hs1.
  { intros a Ha. apply rd_wr_ne. congruence. }
  assert (rd (k_mem s1) dst = c) as Hs2.
  { unfold s1; simpl. rewrite rd_wr_eq. apply u8_id. lia. }
  destruct (IH s1 (dst + 1) (p + 1)) as (b & j & m' & E & Hm' & Hj & Hcase).
  - by apply mem_ok_wr.
  - intros i Hi. specialize (Hd (i + 1) ltac:(lia)). lia.
  - assert (∀ i, 0 ≤ i < Z.of_nat n → rd (k_mem s1) (p + 1 + i) = rd (k_mem s) (p + (i + 1))) as Hrd.
    { intros i Hi. rewrite Hs1; [f_equal; lia|]. specialize (Hd (i + 1) ltac:(lia)). lia. }
    assert (0 ≤ j ≤ Z.of_nat n) as Hjn by (destruct Hcase as [?|?]; lia).
    exists b, (j + 1), m'. split; [done|]. split; [done|]. split.
    { intros i Hi. destruct (decide (i = 0)) as [->|]; [by rewrite Z.add_0_r|].
      replace i with (i - 1 + 1) by lia. rewrite <- Hrd by lia. apply Hj. lia. }
    destruct Hcase as [(-> & Hj1 & Hj2 & Ha)|(-> & Hj1 & Ha)]; [left|right].
    + split; [done|]. split; [lia|]. rewrite Hrd in Hj2 by lia. split; [done|].
      intros a. rewrite Ha. repeat case_decide; try lia.
      * replace (p + 1 + (a - (dst + 1))) with (p + 1 + (a - dst - 1)) by lia.
        rewrite Hrd by lia. f_equal. lia.
      * assert (a = dst) as -> by lia. rewrite Hs2, Z.sub_diag, Z.add_0_r. done.
      * apply Hs1. lia.
    + split; [done|]. split; [lia|]. intros a. rewrite Ha. repeat case_decide; try lia.
      * replace (p + 1 + (a - (dst + 1))) with (p + 1 + (a - dst - 1)) by lia.
        rewrite Hrd by lia. f_equal. lia.
      * assert (a = dst) as -> by lia. rewrite Hs2, Z.sub_diag, Z.add_0_r. done.
      * apply Hs1. lia.
Qed.

(** What [copyinstr] promises: the string with its terminator, or a prefix of
    non-NUL bytes and a reason. *)
Definition copyinstr_post (m : mem) (root dst srcva max r : Z) (m' : mem) : Prop :=
  (∃ n, 0 ≤ n < max ∧ r = 0 ∧ no_nul m root srcva n ∧
     (∃ a, utrans m root (srcva + n) = Some a ∧ rd m a = 0) ∧
     copied_in root dst srcva (n + 1) m m') ∨
  (∃ k, 0 ≤ k ≤ max ∧ r = -1 ∧ no_nul m root srcva k ∧
     (k = max ∨ utrans m root (srcva + k) = None) ∧
     copied_in root dst srcva k m m').

(** A page of non-NUL bytes, then the rest. *)
Lemma copyinstr_post_app e m root dst srcva n max r m1 m2 :
  uspace e m root → 0 ≤ n < max → mem_ok m → kernel_range m root dst max →
  no_nul m root srcva n → copied_in root dst srcva n m m1 →
  copyinstr_post m1 root (dst + n) (srcva + n) (max - n) r m2 →
  copyinstr_post m root dst srcva max r m2.
Proof.
  intros Hu Hn Hm Hk Hnn Hc HP.
  assert (same_tabs m m1 root) as Ht.
  { eapply copied_in_tabs; [|exact Hc]. intros x q Hx. apply Hk. lia. }
  assert (∀ va, utrans m1 root va = utrans m root va) as HT by (intros; by apply utrans_tabs).
  assert (∀ va a, utrans m root va = Some a → rd m1 a = rd m a) as HB.
  { intros va a Ha. apply (ci_rest _ _ _ _ _ _ Hc). intros Hx.
    destruct (utrans_owned _ _ _ _ _ Hu Ha) as (_ & v & _ & _ & Ex & _ & Ho).
    apply (Hk a (PTE2PA v)); [lia|done|]. rewrite Ex. apply in_page_off. }
  assert (∀ k, 0 ≤ k → no_nul m1 root (srcva + n) k → no_nul m root srcva (n + k)) as HN.
  { intros k Hk0 Hno i Hi. destruct (decide (i < n)); [apply Hnn; lia|].
    destruct (Hno (i - n) ltac:(lia)) as (a & Ha & Hnz). rewrite HT in Ha.
    replace (srcva + n + (i - n)) with (srcva + i) in Ha by lia. exists a. split; [done|].
    by rewrite <- (HB _ _ Ha). }
  destruct HP as [(j & Hj & -> & Hno & (a & Ha & Hz) & Hc2)|(k & Hk1 & -> & Hno & Hend & Hc2)].
  - left. exists (n + j). rewrite HT in Ha. split; [lia|]. split; [done|].
    split; [apply HN; [lia|done]|]. split.
    + exists a. rewrite Z.add_assoc. split; [done|]. by rewrite <- (HB _ _ Ha).
    + rewrite <- Z.add_assoc. eapply copied_in_app; try done; try lia.
      intros x q Hx. apply Hk. lia.
  - right. exists (n + k). split; [lia|]. split; [done|]. split; [apply HN; [lia|done]|]. split.
    + destruct Hend as [->|Hend]; [left; lia|right]. by rewrite Z.add_assoc, <- HT.
    + eapply copied_in_app; try done; try lia. intros x q Hx. apply Hk. lia.
Qed.

Lemma copyinstr_loop_spec fuel : ∀ e s root dst srcva max,
  uspace e (k_mem s) root → mem_ok (k_mem s) → 0 ≤ srcva < 2 ^ 64 → 0 ≤ max →
  kernel_range (k_mem s) root dst max → fuel_ok fuel srcva max →
  ∃ r m', copyinstr_loop fuel root dst srcva max s = Ok r (set_k_mem m' s) ∧
    copyinstr_post (k_mem s) root dst srcva max r m'.
Proof.
  induction fuel as [|fuel IH]; intros e s root dst srcva max Hu Hm Hd Hmax Hk Hf.
  { destruct Hf; lia. }
  cbn [copyinstr_loop]. destruct (Z.leb_spec max 0) as [Hz|Hpos].
  { assert (max = 0) as -> by lia. exists (-1), (k_mem s). split; [by destruct s|].
    right. exists 0. split; [lia|]. split; [done|]. split; [intros ?; lia|]. split; [by left|].
    by apply copied_in_0. }
  destruct (page_step (k_mem s) root srcva max Hd Hpos) as (Hn & Hn2 & Hn3 & Hbad & Hgood).
  destruct (PGROUNDDOWN_split srcva Hd) as (_ & _ & Hr & Hal & _).
  set (va0 := PGROUNDDOWN srcva) in *. set (n := Z.min (PGSIZE - (srcva - va0)) max) in *.
  destruct (walkaddr_spec e s root va0 Hu ltac:(lia) Hal) as [Ew Hnz].
  erewrite bind_Ok by exact Ew.
  destruct (utrans (k_mem s) root va0) as [pa0|] eqn:Et; cbn [default from_option id].
  2:{ exists (-1), (k_mem s). split; [by destruct s|]. right. exists 0.
      split; [lia|]. split; [done|]. split; [intros ?; lia|].
      split; [right; rewrite Z.add_0_r; auto|]. by apply copied_in_0. }
  destruct (Hgood pa0 eq_refl) as (Hu64 & Hlt & Hva' & Hbytes). clear Hgood.
  rewrite (proj2 (Z.eqb_neq _ _) (Hnz pa0 eq_refl)). rewrite Hu64.
  set (d := pa0 + (srcva - va0)) in *.
  assert (∀ i, 0 ≤ i < n → ¬ (dst ≤ d + i < dst + max)) as Hap.
  { intros i Hi Hx. destruct (utrans_owned _ _ _ _ _ Hu (Hbytes i Hi)) as (_ & v & _ & _ & Ex & _ & Ho).
    apply (Hk (d + i) (PTE2PA v)); [done|done|]. rewrite Ex. apply in_page_off. }
  destruct (copyinstr_page_spec (Z.to_nat n) s dst d Hm) as (b & j & m1 & E1 & Hm1 & Hj & Hcase).
  { intros i Hi. rewrite Z2Nat.id in * by lia. specialize (Hap i Hi). lia. }
  rewrite Z2Nat.id in Hcase by lia. erewrite bind_Ok by exact E1.
  destruct Hcase as [(-> & Hj1 & Hj2 & Ha)|(-> & -> & Ha)].
  - exists 0, m1. split; [done|]. left. exists j. split; [lia|]. split; [done|]. split.
    { intros i Hi. exists (d + i). split; [apply Hbytes; lia|]. apply Hj. lia. }
    split; [exists (d + j); split; [apply Hbytes; lia|done]|].
    split; [| |done].
    + intros i Hi. exists (d + i). split; [apply Hbytes; lia|]. rewrite Ha, decide_True by lia.
      f_equal. lia.
    + intros a Hx. by rewrite Ha, decide_False.
  - assert (copied_in root dst srcva n (k_mem s) m1) as Hc.
    { split; [| |done].
      - intros i Hi. exists (d + i). split; [by apply Hbytes|]. rewrite Ha, decide_True by lia.
        f_equal. lia.
      - intros a Hx. by rewrite Ha, decide_False. }
    assert (no_nul (k_mem s) root srcva n) as Hnn.
    { intros i Hi. exists (d + i). split; [by apply Hbytes|]. by apply Hj. }
    assert (same_tabs (k_mem s) m1 root) as Ht.
    { eapply copied_in_tabs; [|exact Hc]. intros x q Hx. apply Hk. lia. }
    destruct (decide (n = max)) as [Enm|Hnm].
    + destruct fuel as [|fuel']; [exfalso|].
      { destruct (fuel_ok_next 0 srcva max Hd Hpos ltac:(done) Hf) as [Hx _]. lia. }
      cbn [copyinstr_loop]. destruct (Z.leb_spec (max - n) 0); [|lia].
      exists (-1), m1. split; [done|]. right. exists n.
      split; [lia|]. split; [done|]. split; [done|]. split; [by left|]. done.
    + destruct (IH e (set_k_mem m1 s) root (dst + n) (va0 + PGSIZE) (max - n)) as (r & m' & E & HP).
      * by eapply uspace_tabs.
      * done.
      * lia.
      * lia.
      * eapply kernel_range_tabs; [|exact Ht]. intros x q Hx. apply Hk. lia.
      * apply (fuel_ok_next fuel srcva max Hd Hpos ltac:(done) Hf).
      * exists r, m'. split; [done|]. rewrite <- (Hn3 ltac:(lia)) in HP.
        apply (copyinstr_post_app e _ _ _ _ n _ _ m1); (done || lia).
Qed.

Lemma copyinstr_ok e s root dst srcva max :
  uspace e (k_mem s) root → mem_ok (k_mem s) → 0 ≤ srcva < 2 ^ 64 → 0 ≤ max →
  kernel_range (k_mem s) root dst max →
  ∃ r m', copyinstr root dst srcva max s = Ok r (set_k_mem m' s) ∧
    copyinstr_post (k_mem s) root dst srcva max r m'.
Proof.
  intros. apply (copyinstr_loop_spec _ e); try done. by apply copy_fuel_ok.
Qed.
