(* ===== verification/VmProps.v ===== *)
(** * What address spaces promise: creation, growth, copying, freeing

    The results of the page-table files put together: an address space made
    by [uvmcreate] is empty, [uvmalloc] and [uvmcopy] are all or nothing,
    [uvmdealloc] undoes [uvmalloc], [uvmfree] gives every page back, and
    [copyout]/[copyin] move bytes through the user's mappings only. *)

From stdpp Require Import options.
From S2P Require Import Prelude CString State Sched Kalloc Vm PageTable VmWalk VmSpec VmOps VmFree VmCopy.
#[local] Open Scope Z_scope.
#[local] Existing Instance user_leaves.

(** ** An empty address space *)

Definition empty_table (m : mem) (root : Z) : Prop :=
  ∀ i, idx i → load64 m (root + 8 * i) = 0.

Lemma empty_node m root p q :
  empty_table m root → Forall idx p → node m root p = Some q → p = [] ∧ q = root.
Proof.
  intros He Hp E. destruct p as [|i p]; simpl in E; [by simplify_eq|].
  apply Forall_cons in Hp as [Hi _]. by rewrite (He i Hi) in E.
Qed.
Lemma empty_ent m root p i :
  empty_table m root → Forall idx (p ++ [i]) → ent m root p i = None.
Proof.
  intros He Hp. pose proof (node_snoc m root p i) as E.
  destruct (ent m root p i) as [v|]; [|done]. simpl in E.
  apply (empty_node _ _ _ _ He Hp) in E as [E _]. by destruct p.
Qed.
Lemma empty_pte m root va : empty_table m root → pte_of m root va = None.
Proof.
  intros He. apply empty_ent; [done|]. apply (va_path_idx va).
Qed.
Lemma empty_owns m root q : empty_table m root → owns m root q ↔ q = root.
Proof.
  intros He. split.
  - intros (p & (Hp & _) & E). by apply (empty_node _ _ _ _ He Hp) in E as [_ ?].
  - intros ->. exists []. split; [|done]. apply table_owned. split; [by constructor|simpl; lia].
Qed.
Lemma empty_as_wf e m root l : empty_table m root → page_ok e root → root ∉ l → as_wf e m root l.
Proof.
  intros He Hok Hni. split.
  - intros p q (Hp & _) E. by apply (empty_node _ _ _ _ He Hp) in E as [_ ->].
  - intros p p' q (Hp & _) (Hp' & _) E E'.
    apply (empty_node _ _ _ _ He Hp) in E as [-> _].
    by apply (empty_node _ _ _ _ He Hp') in E' as [-> _].
  - intros p i v _ Hp E. by rewrite empty_ent in E.
  - intros p i v _ Hp E. by rewrite empty_ent in E.
Qed.

Definition uvmcreate_post (q : Z) (s : kst) : kst :=
  set_k_mem (memset (k_mem (kalloc_post q s)) q 0 PGSIZE) (kalloc_post q s).

Lemma uvmcreate_run s q l :
  kmem_inv s (q :: l) → LK_kmem ∉ k_held s → uvmcreate s = Ok q (uvmcreate_post q s).
Proof.
  intros HI Hh. pose proof (kalloc_inv _ _ _ HI) as (_ & _ & _ & Hnz & _).
  unfold uvmcreate. erewrite bind_Ok by (apply kalloc_some; [done|apply (km_list _ _ HI)|done]).
  rewrite (proj2 (Z.eqb_neq _ _) Hnz). done.
Qed.

Lemma uvmcreate_same q s : same_but (eq q) (k_mem s) (k_mem (uvmcreate_post q s)).
Proof. eapply same_but_trans; [|apply memset_same_but]. apply memset_same_but. Qed.

Section created.
Context (s : kst) (q : Z) (l : list Z).
Context (HI : kmem_inv s (q :: l)) (Hh : LK_kmem ∉ k_held s).

Lemma uvmcreate_empty : empty_table (k_mem (uvmcreate_post q s)) q.
Proof using All.
  pose proof (kalloc_inv _ _ _ HI) as (_ & _ & Hok & _).
  intros i Hi. apply load64_zero. intros x Hx. simpl. rewrite rd_memset_page; [done|].
  by apply (in_page_entry q i).
Qed.

Lemma uvmcreate_vmx : vmx (uvmcreate_post q s) q l [].
Proof using All.
  pose proof (kalloc_inv _ _ _ HI) as (HI' & Hni & Hok & _ & _). split.
  - apply (kmem_inv_mem _ _ _ (eq q)); [exact HI'|apply memset_same_but| |].
    + intros x <-. split; [apply Hok|done].
    + apply mem_ok_memset, HI'.
  - rewrite app_nil_r. apply empty_as_wf; [apply uvmcreate_empty|exact Hok|done].
  - rewrite app_nil_r. apply HI'.
  - constructor.
  - exact Hh.
Qed.

(** Another address space is as it was. *)
Lemma uvmcreate_other old :
  as_wf (ly_end (k_ly s)) (k_mem s) old (q :: l) →
  as_wf (ly_end (k_ly s)) (k_mem (uvmcreate_post q s)) old [] ∧
  (∀ va, pte_of (k_mem (uvmcreate_post q s)) old va = pte_of (k_mem s) old va) ∧
  apart (k_mem (uvmcreate_post q s)) old (l ++ []) q.
Proof using All.
  intros Hw. pose proof (kalloc_inv _ _ _ HI) as (_ & _ & Hok & _).
  pose proof (uvmcreate_same q s) as Hs.
  assert (∀ x, q = x → aligned x ∧ ¬ tabs (k_mem s) old x) as HP.
  { intros x <-. split; [apply Hok|]. intros Ht%tabs_owns.
    destruct (owns_ok _ _ _ _ _ Hw Ht). set_solver. }
  split; [|split].
  - eapply as_wf_same_but; [done|done|done|]. set_solver.
  - intros va. apply (ent_same_but _ _ _ _ _ _ _ _ Hw Hs HP);
      [apply table_path_va|apply PX_idx; lia].
  - rewrite app_nil_r. intros x (p & Hp & E).
    rewrite (node_same_but _ _ _ _ _ _ p Hw Hs HP) in E by apply Hp.
    destruct (as_own _ _ _ _ Hw p x Hp E) as [_ Hx].
    rewrite (empty_owns _ _ _ uvmcreate_empty). set_solver.
Qed.
End created.

Lemma empty_leaves m root b : empty_table m root → leaves_below m root b.
Proof. intros He p i _ Hp Hs. rewrite empty_ent in Hs by done. by destruct Hs. Qed.
Lemma leaves_below_upd root s l X s' l' X' D b :
  upd root s l X s' l' X' D → (∀ p, D p → va_of p < b) →
  leaves_below (k_mem s) root b → leaves_below (k_mem s') root b.
Proof.
  intros HU HD Hl p i Hp Hi Hs. destruct (decide (va_of (p ++ [i]) < b)) as [|Hge]; [done|].
  rewrite (u_ent _ _ _ _ _ _ _ _ HU) in Hs; [by apply Hl|done..|]. intros Hx. by apply Hge, HD.
Qed.
Lemma zeroed_mapped m root a b : zeroed m root a b → all_mapped m root a b.
Proof. intros Hz va Hva. destruct (Hz va Hva) as (_ & v & -> & _). by eexists. Qed.

(** ** Growing and shrinking *)

(** Growing a process ([uvmalloc]) either maps every page of the new
    range to a zeroed page with read, write, execute and user permission and returns the
    new size, or returns 0 having changed no mapping and no byte of a mapped
    page; in both cases no page is lost, shared or invented. *)
Theorem uvmalloc_all_or_nothing root s l oldsz newsz :
  vmx s root l [] → 0 ≤ oldsz ≤ newsz → newsz ≤ TRAPFRAME →
  none_mapped (k_mem s) root (PGROUNDUP oldsz) (PGROUNDUP newsz) →
  ∃ r s' l', uvmalloc root oldsz newsz s = Ok r s' ∧
    ((r = newsz ∧ upd root s l [] s' l' [] (range (PGROUNDUP oldsz) (PGROUNDUP newsz)) ∧
      zeroed (k_mem s') root (PGROUNDUP oldsz) (PGROUNDUP newsz)) ∨
     (r = 0 ∧ upd root s l [] s' l' [] nowhere)).
Proof.
  intros Hv Hsz Hn Hnone.
  destruct (uvmalloc_grow root s l [] oldsz newsz Hv Hsz Hn Hnone)
    as (r & s' & l' & E & H). exists r, s', l'. split; [exact E|].
  destruct H as [[-> [H1 H2]]|H]; [by left|by right].
Qed.

(** [uvmdealloc] undoes [uvmalloc]: after growing from [oldsz] to
    [newsz] and shrinking back, the address space has exactly the mappings
    it had, its bytes are unchanged, and every page is free or owned as before. *)
Theorem uvmalloc_uvmdealloc root s l oldsz newsz s1 :
  vmx s root l [] → 0 ≤ oldsz < newsz → newsz ≤ TRAPFRAME →
  none_mapped (k_mem s) root (PGROUNDUP oldsz) (PGROUNDUP newsz) →
  uvmalloc root oldsz newsz s = Ok newsz s1 →
  ∃ s2 l2, uvmdealloc root newsz oldsz s1 = Ok oldsz s2 ∧ vmx s2 root l2 [] ∧
    (∀ va, 0 ≤ va < MAXVA → pte_of (k_mem s2) root va = pte_of (k_mem s) root va) ∧
    (∀ va, 0 ≤ va < TRAPFRAME → ubyte (k_mem s2) root va = ubyte (k_mem s) root va) ∧
    (∀ q, q ∈ l2 ∨ owns (k_mem s2) root q ↔ q ∈ l ∨ owns (k_mem s) root q).
Proof.
  intros Hv Hsz Hn Hnone E. pose proof TRAPFRAME_val as HT. pose proof MAXVA_val as HM.
  destruct (uvmalloc_grow root s l [] oldsz newsz Hv ltac:(lia) Hn Hnone)
    as (r & s' & l' & E' & H). rewrite E' in E. simplify_eq.
  destruct H as [[_ [HU Hz]]|[? _]]; [|lia].
  destruct (uvmdealloc_shrink root s1 l' [] newsz oldsz) as (s2 & l2 & E2 & HU2 & Hno);
    [apply HU|lia|done|by apply zeroed_mapped|].
  pose proof (upd_trans _ _ _ _ _ _ _ _ _ _ _ HU HU2) as HUU.
  exists s2, l2. split; [exact E2|]. split; [apply HU2|].
  assert (∀ va, 0 ≤ va < MAXVA → ¬ (PGROUNDUP oldsz ≤ va < PGROUNDUP newsz) →
    ¬ range (PGROUNDUP oldsz) (PGROUNDUP newsz) (va_path va)) as Hr.
  { intros va Hva Hn'. rewrite range_va_path; [done|apply aligned_PGROUNDUP; lia..|done]. }
  split; [|split].
  - intros va Hva. destruct (decide (PGROUNDUP oldsz ≤ va < PGROUNDUP newsz)).
    + by rewrite Hno, Hnone by done.
    + apply (upd_pte_of _ _ _ _ _ _ _ _ _ HUU). auto.
  - intros va Hva. destruct (decide (PGROUNDUP oldsz ≤ va < PGROUNDUP newsz)).
    + unfold ubyte, uaddr. by rewrite Hno, Hnone by done.
    + apply (upd_ubyte _ _ _ _ _ _ _ _ _ HUU); [done|]. apply Hr; [lia|done].
  - intros q. pose proof (u_pages _ _ _ _ _ _ _ _ HUU q) as Hq. by rewrite !app_nil_r in Hq.
Qed.

(** ** Copying an address space *)

(** Writing pages an address space does not own leaves it as it was. *)
Lemma space_unchanged e m m' old P :
  as_wf e m old [] → same_but P m m' → (∀ q, P q → aligned q ∧ ¬ owns m old q) →
  ∀ va, 0 ≤ va < TRAPFRAME →
  pte_of m' old va = pte_of m old va ∧ ubyte m' old va = ubyte m old va.
Proof.
  intros Hw Hs HP va Hva.
  assert (pte_of m' old va = pte_of m old va) as E.
  { apply (ent_same_but _ _ _ _ _ _ _ _ Hw Hs); [|apply table_path_va|apply PX_idx; lia].
    intros q Hq. destruct (HP q Hq). split; [done|]. by intros ?%tabs_owns. }
  split; [exact E|]. unfold ubyte, uaddr. rewrite E.
  destruct (pte_of m old va) as [v|] eqn:Ev; [|done]. simpl. f_equal.
  assert (owns m old (PTE2PA v)) as Ho.
  { exists (va_path va). split; [by apply owned_va_path|]. by rewrite node_va_path, Ev. }
  apply (same_but_page P _ _ (PTE2PA v)); [done| | |apply in_page_off].
  - intros q Hq. destruct (HP q Hq). split; [done|]. by intros <-.
  - apply (owns_ok _ _ _ _ _ Hw Ho).
Qed.

(** C8. [uvmcopy], the memory half of [fork], either gives the child a private copy of
    every byte and permission of the parent below [sz], in pages of its own,
    or fails with -1 leaving the child as empty as it was; the parent's
    memory is the same after, and no page is lost or shared. *)
Theorem uvmcopy_isolates old new s l sz :
  vmx s new l [] → as_wf (ly_end (k_ly s)) (k_mem s) old [] →
  apart (k_mem s) old (l ++ []) new → 0 ≤ sz ≤ TRAPFRAME →
  all_mapped (k_mem s) old 0 (PGROUNDUP sz) → none_mapped (k_mem s) new 0 (PGROUNDUP sz) →
  ∃ r s' l', uvmcopy old new sz s = Ok r s' ∧
    ((r = 0 ∧ upd new s l [] s' l' [] (range 0 (PGROUNDUP sz)) ∧
      same_mem (k_mem s) old (k_mem s') new (PGROUNDUP sz)) ∨
     (r = -1 ∧ upd new s l [] s' l' [] nowhere)) ∧
    (∀ q, owns (k_mem s) old q → ¬ owns (k_mem s') new q) ∧
    (∀ va, 0 ≤ va < TRAPFRAME → pte_of (k_mem s') old va = pte_of (k_mem s) old va ∧
      ubyte (k_mem s') old va = ubyte (k_mem s) old va).
Proof.
  intros Hv Hw Hap Hsz Hall Hnone.
  destruct (uvmcopy_ok old new s l [] sz Hv Hw Hap Hsz Hall Hnone) as (r & s' & l' & E & H).
  assert (∃ D, upd new s l [] s' l' [] D) as [D HU].
  { destruct H as [(_ & H & _)|(_ & H)]; by eexists. }
  exists r, s', l'. split; [exact E|]. split.
  { destruct H as [(-> & H & Hs & _)|H]; [by left|by right]. }
  split.
  - intros q Ho Hn. apply (Hap q Ho). apply (u_pages _ _ _ _ _ _ _ _ HU). by right.
  - apply (space_unchanged _ _ _ _ _ Hw (u_same _ _ _ _ _ _ _ _ HU)).
    intros q Hq. split; [|intros Ho; by apply (Hap q Ho)]. destruct Hq as [Hq|Hq].
    + rewrite app_nil_r in Hq. pose proof (kmem_aligned _ _ (vx_kmem _ _ _ _ Hv)) as Ha.
      rewrite Forall_forall in Ha. by apply Ha.
    + apply (owns_ok _ _ _ _ _ (vx_as _ _ _ _ Hv) Hq).
Qed.

(** ** The life of an address space *)

(** C28. Creating an address space, growing it to [sz] and freeing it returns
    every page to the allocator: the free pages at the end are exactly those
    at the start, whether or not there was memory enough to grow. *)
Theorem space_lifecycle s l sz :
  kmem_inv s l → LK_kmem ∉ k_held s → l ≠ [] → 0 ≤ sz ≤ TRAPFRAME →
  ∃ root s1 n s2 s3 l3, uvmcreate s = Ok root s1 ∧ uvmalloc root 0 sz s1 = Ok n s2 ∧
    uvmfree root n s2 = Ok () s3 ∧ kmem_inv s3 l3 ∧ l3 ≡ₚ l.
Proof.
  intros HI Hh Hl Hsz. destruct l as [|q l]; [done|].
  pose proof (uvmcreate_vmx s q l HI Hh) as Hv. pose proof (uvmcreate_empty s q l HI Hh) as He.
  pose proof (uvmcreate_run s q l HI Hh) as Er.
  pose proof (km_nodup _ _ HI) as Hnd. revert Hv He Er.
  generalize (uvmcreate_post q s) as s1. intros s1 Hv He Er.
  pose proof (PGROUNDUP_aligned 0 aligned_0 ltac:(lia)) as HP0.
  destruct (uvmalloc_grow q s1 l [] 0 sz Hv ltac:(lia) ltac:(lia)) as (n & s2 & l2 & E2 & H).
  { intros va _. by apply empty_pte. }
  rewrite HP0 in H.
  assert (0 ≤ n ≤ TRAPFRAME ∧ all_mapped (k_mem s2) q 0 (PGROUNDUP n) ∧
    ∃ D, upd q s1 l [] s2 l2 [] D ∧ ∀ p, D p → va_of p < PGROUNDUP n) as (Hn & Hall & D & HU & HD).
  { destruct H as [[-> [HU Hz]]|[-> HU]].
    - split; [lia|]. split; [by apply zeroed_mapped|]. eexists. split; [done|]. intros p [_ ?]. done.
    - split; [lia|]. rewrite HP0. split; [intros va ?; lia|]. by exists nowhere. }
  destruct (uvmfree_ok s2 q l2 n) as (s3 & l3 & E3 & _ & K3 & HL & _).
  { apply HU. } { done. } { done. }
  { eapply leaves_below_upd; [exact HU|exact HD|by apply empty_leaves]. }
  exists q, s1, n, s2, s3, l3. do 4 (split; [done|]).
  apply NoDup_Permutation; [apply K3|done|]. intros x. rewrite HL.
  pose proof (u_pages _ _ _ _ _ _ _ _ HU x) as Hx. rewrite !app_nil_r in Hx.
  rewrite Hx, (empty_owns _ _ _ He). set_solver.
Qed.

(** ** Moving bytes between the kernel and user space *)

(** C29. What [copyout] puts into user memory, [copyin] reads back, and the
    pair changes no other byte: only user bytes of the range and the destination
    buffer are written. *)
Theorem copyout_copyin e s root va src dst len s1 :
  uspace e (k_mem s) root → mem_ok (k_mem s) → 0 ≤ va < 2 ^ 64 → 0 ≤ len →
  kernel_range (k_mem s) root src len → kernel_range (k_mem s) root dst len →
  copyout root va src len s = Ok 0 s1 →
  ∃ s2, copyin root dst va len s1 = Ok 0 s2 ∧
    (∀ i, 0 ≤ i < len → rd (k_mem s2) (dst + i) = rd (k_mem s) (src + i)) ∧
    (∀ a, (∀ i, 0 ≤ i < len → utrans (k_mem s) root (va + i) ≠ Some a) →
      ¬ (dst ≤ a < dst + len) → rd (k_mem s2) a = rd (k_mem s) a).
Proof.
  intros Hu Hm Hva Hlen Hsrc Hdst E.
  destruct (copyout_ok e s root va src len Hu Hm Hva Hlen Hsrc) as (k & m1 & E1 & Hk & _ & Hc).
  rewrite E in E1. destruct (decide (k = len)) as [->|]; [|done]. injection E1 as ->.
  pose proof (copied_out_tabs _ _ _ _ _ _ _ Hu Hc) as Ht.
  destruct (copyin_ok e (set_k_mem m1 s) root dst va len) as (k & m2 & E2 & Hk2 & Hstop & Hi);
    [by eapply uspace_tabs|apply Hc|done|done|by eapply kernel_range_tabs|].
  simpl in Hstop, Hi.
  assert (k = len) as ->.
  { destruct (decide (k = len)) as [|Hne]; [done|]. exfalso.
    destruct (co_bytes _ _ _ _ _ _ Hc k ltac:(lia)) as (a & Ha & _).
    rewrite (utrans_tabs (k_mem s) m1) in Hstop by done. rewrite Hstop in Ha by lia. done. }
  rewrite decide_True in E2 by done. eexists. split; [exact E2|]. simpl. split.
  - intros i Hi'. destruct (ci_bytes _ _ _ _ _ _ Hi i Hi') as (a & Ha & ->).
    destruct (co_bytes _ _ _ _ _ _ Hc i Hi') as (a' & Ha' & <-).
    rewrite (utrans_tabs (k_mem s) m1), Ha' in Ha by done. by injection Ha as ->.
  - intros a H1 H2. rewrite (ci_rest _ _ _ _ _ _ Hi) by done. by apply (co_rest _ _ _ _ _ _ Hc).
Qed.

(** [copyinstr] returns 0 exactly when a NUL is found within [max]
    bytes of readable user memory, having copied the string and its NUL; it
    returns -1 when the bytes run out or leave the user's memory.  In every case it
    writes at most [max] bytes, all in the destination buffer. *)
Theorem copyinstr_bounded e s root dst srcva max :
  uspace e (k_mem s) root → mem_ok (k_mem s) → 0 ≤ srcva < 2 ^ 64 → 0 ≤ max →
  kernel_range (k_mem s) root dst max →
  ∃ r s', copyinstr root dst srcva max s = Ok r s' ∧
    ((∃ n, 0 ≤ n < max ∧ r = 0 ∧ no_nul (k_mem s) root srcva n ∧
       rd (k_mem s') (dst + n) = 0 ∧
       ∀ i, 0 ≤ i < n → ∃ a, utrans (k_mem s) root (srcva + i) = Some a ∧
         rd (k_mem s') (dst + i) = rd (k_mem s) a) ∨
     (∃ k, 0 ≤ k ≤ max ∧ r = -1 ∧ no_nul (k_mem s) root srcva k ∧
       (k = max ∨ utrans (k_mem s) root (srcva + k) = None))) ∧
    (∀ a, ¬ (dst ≤ a < dst + max) → rd (k_mem s') a = rd (k_mem s) a).
Proof.
  intros Hu Hm Hva Hmax Hk.
  destruct (copyinstr_ok e s root dst srcva max Hu Hm Hva Hmax Hk) as (r & m' & E & HP).
  exists r, (set_k_mem m' s). split; [exact E|]. simpl. destruct HP as
    [(n & Hn & -> & Hnn & (a & Ha & Hz) & Hc)|(k & Hk' & -> & Hnn & Hend & Hc)].
  all: split; [|intros b Hb; apply (ci_rest _ _ _ _ _ _ Hc); lia].
  - left. exists n. do 3 (split; [done|]). split.
    + destruct (ci_bytes _ _ _ _ _ _ Hc n ltac:(lia)) as (a' & Ha' & ->).
      rewrite Ha in Ha'. by injection Ha' as <-.
    + intros i Hi. apply (ci_bytes _ _ _ _ _ _ Hc). lia.
  - right. by exists k.
Qed.

(** The software walk agrees with the hardware's: at a page boundary
    [walkaddr] returns the physical address of the page user code sees
    there, and 0 exactly where user code faults; it changes nothing. *)
Theorem walkaddr_equiv e s root va :
  uspace e (k_mem s) root → 0 ≤ va → va mod PGSIZE = 0 →
  ∃ pa, walkaddr root va s = Ok pa s ∧
    (pa = 0 ↔ utrans (k_mem s) root va = None) ∧
    (pa ≠ 0 → ∀ i, 0 ≤ i < PGSIZE → utrans (k_mem s) root (va + i) = Some (pa + i)).
Proof.
  intros Hu Hva Hal. destruct (walkaddr_spec e s root va Hu Hva Hal) as [E Hnz].
  eexists. split; [exact E|].
  destruct (utrans (k_mem s) root va) as [a|] eqn:Et; simpl.
  2:{ split; [done|]. by intros []. }
  specialize (Hnz a eq_refl). split; [by split|]. intros _ i Hi. revert Et. unfold utrans.
  case_decide as Hm; [|done]. pose proof MAXVA_val as HM.
  assert (va + i < MAXVA) as Hlt.
  { rewrite HM in Hm |- *. unfold PGSIZE in *. apply Z.mod_divide in Hal as [j ->]; lia. }
  rewrite decide_True by lia. assert ((va + i) / PGSIZE = va / PGSIZE) as Hd.
  { unfold PGSIZE in *. apply Z.mod_divide in Hal as [j ->]; [|lia].
    rewrite Z.div_add_l, Z.div_mul, Z.div_small by lia. lia. }
  rewrite (pte_of_page _ _ (va + i) va) by (done || lia).
  destruct (pte_of (k_mem s) root va) as [v|]; [|done]. destruct (has PTE_U v); [|done].
  rewrite Hal. intros [= <-]. f_equal. rewrite Z.add_0_r. f_equal.
  rewrite <- Z.add_mod_idemp_l, Hal by done. by apply Z.mod_small.
Qed.

(** ** A small memory *)

Definition run_st {A} (m : K A) (s : kst) : kst :=
  match m s with Ok _ s' => s' | _ => s end.
Definition run_val {A} (m : K A) (s : kst) : option A :=
  match m s with Ok a _ => Some a | _ => None end.
Lemma run_split {A} (m : K A) s a : run_val m s = Some a → m s = Ok a (run_st m s).
Proof. unfold run_val, run_st. destruct (m s); [by intros [= ->]|done..]. Qed.

Lemma Ok_inj {S A} (a b : A) (s s' : S) : Ok a s = Ok b s' → a = b ∧ s = s'.
Proof. intros H. by inversion H. Qed.

(** Twelve free pages. *)
Definition pool_pages : list Z := (λ i, 0x80022000 + PGSIZE * Z.of_nat i) <$> seq 0 12.
Fixpoint link_pages (m : mem) (l : list Z) : mem :=
  match l with
  | [] => m
  | p :: l => link_pages (store64 m p (default 0 (head l))) l
  end.
Definition pool : kst :=
  set_k_freelist 0x80022000 (set_k_mem (link_pages ∅ pool_pages) kst0).
Lemma mem_ok_link l : ∀ m, mem_ok m → mem_ok (link_pages m l).
Proof. induction l as [|p l IH]; intros m Hm; [done|]. by apply IH, mem_ok_store64. Qed.
Lemma pool_inv : kmem_inv pool pool_pages.
Proof.
  split.
  - vm_compute. repeat split; done.
  - by apply (bool_decide_unpack _).
  - repeat constructor; vm_compute; done.
  - apply mem_ok_link, mem_ok_empty.
Qed.

(** The first page is the root of an address space; then it is grown to
    three bytes more than a page. *)
Definition R0 : Z := 0x80022000.
Definition space0 : kst := uvmcreate_post R0 pool.
Definition space1 : kst := run_st (uvmalloc R0 0 4099) space0.

Lemma space0_vmx : vmx space0 R0 (tail pool_pages) [].
Proof. apply (uvmcreate_vmx pool R0 (tail pool_pages) pool_inv). simpl. set_solver. Qed.
Lemma space0_empty : empty_table (k_mem space0) R0.
Proof. apply (uvmcreate_empty pool R0 (tail pool_pages) pool_inv). simpl. set_solver. Qed.
Lemma space0_none a b : none_mapped (k_mem space0) R0 a b.
Proof. intros va _. apply empty_pte, space0_empty. Qed.
Lemma space1_val : run_val (uvmalloc R0 0 4099) space0 = Some 4099.
Proof. vm_compute. reflexivity. Qed.
Lemma space1_grown : uvmalloc R0 0 4099 space0 = Ok 4099 space1.
Proof. exact (run_split (uvmalloc R0 0 4099) space0 4099 space1_val). Qed.
Lemma space1_vmx :
  ∃ l, vmx space1 R0 l [] ∧ upd R0 space0 (tail pool_pages) [] space1 l [] (range 0 8192) ∧
    zeroed (k_mem space1) R0 0 8192.
Proof.
  destruct (uvmalloc_grow R0 space0 (tail pool_pages) [] 0 4099 space0_vmx)
    as (r & s' & l' & E & H); [lia|by apply Z.leb_le|apply space0_none|].
  rewrite space1_grown in E. apply Ok_inj in E as [<- <-]. exists l'.
  destruct H as [[_ [HU Hz]]|[? _]]; [|done]. split; [apply HU|]. split; [exact HU|exact Hz].
Qed.
Lemma space1_uspace : uspace (ly_end (k_ly space1)) (k_mem space1) R0.
Proof.
  destruct space1_vmx as (l & Hv & HU & _). split.
  - eapply as_wf_same_but; [apply Hv|by apply (same_but_refl (λ _, False))|done|]. set_solver.
  - intros va v Hva. rewrite (upd_pte_of _ _ _ _ _ _ _ _ _ HU).
    + by rewrite (empty_pte _ _ _ space0_empty).
    + rewrite range_va_path; [|done..|].
      * intros [_ ?]. assert (8192 ≤ TRAPFRAME) by (by apply Z.leb_le). lia.
      * assert (0 ≤ TRAPFRAME) by (by apply Z.leb_le). lia.
Qed.
Lemma below_end_kernel s root a n :
  as_wf (ly_end (k_ly s)) (k_mem s) root [] → a + n ≤ ly_end (k_ly s) →
  kernel_range (k_mem s) root a n.
Proof.
  intros Hw Hn x q Hx Ho [Hq _]. destruct (owns_ok _ _ _ _ _ Hw Ho) as [(_ & ? & _) _]. lia.
Qed.

Lemma uvmalloc_all_or_nothing_witness :
  ∃ r s' l', uvmalloc R0 0 4099 space0 = Ok r s' ∧
    ((r = 4099 ∧ upd R0 space0 (tail pool_pages) [] s' l' [] (range 0 8192) ∧
      zeroed (k_mem s') R0 0 8192) ∨
     (r = 0 ∧ upd R0 space0 (tail pool_pages) [] s' l' [] nowhere)).
Proof.
  apply (uvmalloc_all_or_nothing R0 space0 (tail pool_pages) 0 4099 space0_vmx);
    [lia|by apply Z.leb_le|apply space0_none].
Defined.

Lemma uvmalloc_uvmdealloc_witness :
  ∃ s2 l2, uvmdealloc R0 4099 0 space1 = Ok 0 s2 ∧ vmx s2 R0 l2 [].
Proof.
  destruct (uvmalloc_uvmdealloc R0 space0 (tail pool_pages) 0 4099 space1 space0_vmx)
    as (s2 & l2 & E & Hv & _); [lia|by apply Z.leb_le|apply space0_none|exact space1_grown|].
  exists s2, l2. split; [exact E|exact Hv].
Defined.

(** A second, empty, address space beside the first. *)
Definition R1 : Z := 0x80027000.
Definition space2 : kst := uvmcreate_post R1 space1.
Lemma space1_free : ∃ l, vmx space1 R0 (R1 :: l) [] ∧ zeroed (k_mem space1) R0 0 8192.
Proof.
  destruct space1_vmx as (l & Hv & _ & Hz).
  assert (k_freelist space1 = R1) as Hf by (vm_compute; reflexivity).
  pose proof (km_list _ _ (vx_kmem _ _ _ _ Hv)) as Hl. rewrite Hf in Hl.
  destruct l as [|q l]; simpl in Hl; [by apply Z.eqb_eq in Hl|]. destruct Hl as [<- _].
  exists l. split; [exact Hv|exact Hz].
Qed.

Lemma uvmcopy_isolates_witness :
  ∃ r s' l', uvmcopy R0 R1 4099 space2 = Ok r s' ∧
    ((r = 0 ∧ same_mem (k_mem space2) R0 (k_mem s') R1 8192) ∨ r = -1) ∧ vmx s' R1 l' [].
Proof.
  destruct space1_free as (l & Hv & Hz). unfold space2. revert Hv Hz.
  generalize space1 as s1. intros s1 Hv Hz.
  pose proof (vx_kmem _ _ _ _ Hv) as HI. pose proof (vx_held _ _ _ _ Hv) as Hh.
  pose proof (vx_as _ _ _ _ Hv) as Hw. rewrite app_nil_r in Hw.
  destruct (uvmcreate_other s1 R1 l HI Hh R0 Hw) as (H1 & H2 & H3).
  destruct (uvmcopy_isolates R0 R1 (uvmcreate_post R1 s1) l 4099
    (uvmcreate_vmx s1 R1 l HI Hh) H1 H3)
    as (r & s' & l' & E & H & _); [split; by apply Z.leb_le| | |].
  - intros va Hva. change (PGROUNDUP 4099) with 8192 in Hva. rewrite H2.
    by apply (zeroed_mapped _ _ _ _ Hz).
  - intros va _. apply empty_pte, (uvmcreate_empty s1 R1 l HI Hh).
  - exists r, s', l'. split; [exact E|]. destruct H as [(-> & HU & Hs)|(-> & HU)].
    + split; [left; split; [reflexivity|exact Hs]|]. apply HU.
    + split; [right; reflexivity|]. apply HU.
Defined.

Lemma space_lifecycle_witness :
  ∃ root s1 n s2 s3 l3, uvmcreate pool = Ok root s1 ∧ uvmalloc root 0 20000 s1 = Ok n s2 ∧
    uvmfree root n s2 = Ok () s3 ∧ kmem_inv s3 l3 ∧ l3 ≡ₚ pool_pages.
Proof.
  apply (space_lifecycle pool pool_pages 20000 pool_inv);
    [simpl; set_solver|discriminate|split; by apply Z.leb_le].
Defined.

Lemma kernel_range_space1 a n : a + n ≤ KERNBASE + 0x10000 → kernel_range (k_mem space1) R0 a n.
Proof.
  intros H. apply below_end_kernel; [apply space1_uspace|].
  assert (KERNBASE + 0x10000 ≤ ly_end (k_ly space1)) by (vm_compute; discriminate). lia.
Qed.
Lemma space1_mem : mem_ok (k_mem space1).
Proof. destruct space1_vmx as (l & Hv & _). apply Hv. Qed.

(** Copying 100 bytes across the page boundary. *)
Definition space1_out : kst := run_st (copyout R0 4050 KERNBASE 100) space1.
Lemma space1_out_val : run_val (copyout R0 4050 KERNBASE 100) space1 = Some 0.
Proof. vm_compute. reflexivity. Qed.

Lemma copyout_copyin_witness :
  ∃ s2, copyin R0 (KERNBASE + 4096) 4050 100 space1_out = Ok 0 s2 ∧
    ∀ i, 0 ≤ i < 100 → rd (k_mem s2) (KERNBASE + 4096 + i) = rd (k_mem space1) (KERNBASE + i).
Proof.
  destruct (copyout_copyin _ space1 R0 4050 KERNBASE (KERNBASE + 4096) 100 space1_out
    space1_uspace space1_mem) as (s2 & E & H & _);
    [lia|lia|apply kernel_range_space1; by apply Z.leb_le
    |apply kernel_range_space1; by apply Z.leb_le| |].
  - exact (run_split _ _ _ space1_out_val).
  - exists s2. split; [exact E|exact H].
Defined.

Lemma copyinstr_bounded_witness :
  ∃ r s', copyinstr R0 KERNBASE 4050 100 space1 = Ok r s' ∧
    ∀ a, ¬ (KERNBASE ≤ a < KERNBASE + 100) → rd (k_mem s') a = rd (k_mem space1) a.
Proof.
  destruct (copyinstr_bounded _ space1 R0 KERNBASE 4050 100 space1_uspace space1_mem)
    as (r & s' & E & _ & H); [lia|lia|apply kernel_range_space1; by apply Z.leb_le|].
  exists r, s'. split; [exact E|exact H].
Defined.

Lemma walkaddr_equiv_witness :
  ∃ pa, walkaddr R0 4096 space1 = Ok pa space1 ∧
    (pa = 0 ↔ utrans (k_mem space1) R0 4096 = None).
Proof.
  destruct (walkaddr_equiv _ space1 R0 4096 space1_uspace) as (pa & E & H & _);
    [lia|reflexivity|]. exists pa. split; [exact E|exact H].
Defined.

(** Kept folded by the proofs that start from it. *)
#[global] Opaque space1.
