(* ===== verification/Bio.v ===== *)
(** * The buffer cache: operations

    [kernel/bio.c].  [bcache.buf[i]] is entry [i] of [k_bufs] and
    [bcache.head] is entry [NBUF]; [prev] and [next] are entries too.

    [disk_rw] is what [bio.c] relies on of [virtio_disk_rw]
    ([kernel/virtio_disk.c]): the transfer of one whole block, after which the
    caller goes on.  File [Virtio] models the driver, and [VirtioRw] shows that a
    request, the device's work and the interrupt have this effect; the cache
    and what is above it are modelled with [disk_rw] in its place. *)

From stdpp Require Import options.
From S2P Require Import Prelude CString State Sched Sleeplock.
#[local] Open Scope Z_scope.

Definition HEAD : nat := NBUF.
Definition zero_block : list Z := replicate (Z.to_nat BSIZE) 0.
(** The contents of a block of the disk. *)
Definition disk_block (d : gmap Z (list Z)) (n : Z) : list Z := default zero_block (d !! n).

Definition disk_rw (b : nat) (write : bool) : K unit :=
  blockno ← gets (λ s, b_blockno (buf_of s b));
  if write then
    data ← gets (λ s, b_data (buf_of s b));
    modify (λ s, set_k_disk (<[blockno := data]> (k_disk s)) s);;
    modify (λ s, set_k_hist (k_hist s ++ [(blockno, data)]) s)
  else
    data ← gets (λ s, disk_block (k_disk s) blockno);
    modify (upd_buf b (set_b_data data)).

(** [b->next = ...] and the like. *)
Definition set_next (b v : nat) : K unit := modify (upd_buf b (set_b_next v)).
Definition set_prev (b v : nat) : K unit := modify (upd_buf b (set_b_prev v)).
Definition next_of (s : kst) (b : nat) : nat := b_next (buf_of s b).
Definition prev_of (s : kst) (b : nat) : nat := b_prev (buf_of s b).

(** Put [b], which is on no list, after the head. *)
Definition link_front (b : nat) : K unit :=
  n ← gets (λ s, next_of s HEAD);
  set_next b n;;
  set_prev b HEAD;;
  n ← gets (λ s, next_of s HEAD);
  set_prev n b;;
  set_next HEAD b.

Definition binit : K unit :=
  set_prev HEAD HEAD;;
  set_next HEAD HEAD;;
  mfor NBUF 0 (λ i,
    let b := Z.to_nat i in
    n ← gets (λ s, next_of s HEAD);
    set_next b n;;
    set_prev b HEAD;;
    initsleeplock (SL_buf b);;
    n ← gets (λ s, next_of s HEAD);
    set_prev n b;;
    set_next HEAD b).

(** The two searches of [bget], from a buffer on: the list has [NBUF]
    buffers, so [S NBUF] steps reach the head. *)
Definition find_cached (dev blockno : Z) (b0 : nat) : K (option nat) :=
  mloop (S NBUF) (λ b,
    if decide (b = HEAD) then mret (inr None)
    else
      hit ← gets (λ s, (b_dev (buf_of s b) =? dev) && (b_blockno (buf_of s b) =? blockno));
      if hit : bool then mret (inr (Some b))
      else n ← gets (λ s, next_of s b); mret (inl n)) b0.
Definition find_unused (b0 : nat) : K (option nat) :=
  mloop (S NBUF) (λ b,
    if decide (b = HEAD) then mret (inr None)
    else
      free ← gets (λ s, b_refcnt (buf_of s b) =? 0);
      if free : bool then mret (inr (Some b))
      else n ← gets (λ s, prev_of s b); mret (inl n)) b0.

Definition bget (dev blockno : Z) : K nat :=
  acquire LK_bcache;;
  first ← gets (λ s, next_of s HEAD);
  r ← find_cached dev blockno first;
  match r with
  | Some b =>
    modify (upd_buf b (λ x, set_b_refcnt (u32 (b_refcnt x + 1)) x));;
    release LK_bcache;;
    acquiresleep (SL_buf b);;
    mret b
  | None =>
    last ← gets (λ s, prev_of s HEAD);
    r ← find_unused last;
    match r with
    | Some b =>
      modify (upd_buf b (set_b_dev dev));;
      modify (upd_buf b (set_b_blockno blockno));;
      modify (upd_buf b (set_b_valid false));;
      modify (upd_buf b (set_b_refcnt 1));;
      release LK_bcache;;
      acquiresleep (SL_buf b);;
      mret b
    | None => panic "bget: no buffers"
    end
  end.

Definition bread (dev blockno : Z) : K nat :=
  b ← bget dev blockno;
  valid ← gets (λ s, b_valid (buf_of s b));
  when (negb valid)
    (disk_rw b false;; modify (upd_buf b (set_b_valid true)));;
  mret b.

Definition bwrite (b : nat) : K unit :=
  h ← holdingsleep (SL_buf b);
  if negb h then panic "bwrite" else disk_rw b true.

Definition brelse (b : nat) : K unit :=
  h ← holdingsleep (SL_buf b);
  if negb h then panic "brelse" else
  releasesleep (SL_buf b);;
  acquire LK_bcache;;
  modify (upd_buf b (λ x, set_b_refcnt (u32 (b_refcnt x - 1)) x));;
  r ← gets (λ s, b_refcnt (buf_of s b));
  when (r =? 0)
    ((* b->next->prev = b->prev; b->prev->next = b->next; *)
     n ← gets (λ s, next_of s b);
     p ← gets (λ s, prev_of s b);
     set_prev n p;;
     n ← gets (λ s, next_of s b);
     p ← gets (λ s, prev_of s b);
     set_next p n;;
     link_front b);;
  release LK_bcache.

Definition bpin (b : nat) : K unit :=
  acquire LK_bcache;;
  modify (upd_buf b (λ x, set_b_refcnt (u32 (b_refcnt x + 1)) x));;
  release LK_bcache.

Definition bunpin (b : nat) : K unit :=
  acquire LK_bcache;;
  modify (upd_buf b (λ x, set_b_refcnt (u32 (b_refcnt x - 1)) x));;
  release LK_bcache.
