(* ===== verification/BioList.v ===== *)
(** * The list of buffers

    The doubly linked list through [prev] and [next] as a sequence of
    buffers from the most to the least recently used. *)

From stdpp Require Import options.
From S2P Require Import Prelude CString State Sched Sleeplock Bio.
#[local] Open Scope Z_scope.

(** ** Chains of pointers *)

Definition fupd (f : nat → nat) (x v : nat) : nat → nat :=
  λ y, if decide (y = x) then v else f y.

(** Consecutive elements of [l] point to each other. *)
Fixpoint path (nx pv : nat → nat) (l : list nat) : Prop :=
  match l with
  | x :: (y :: _) as l' => nx x = y ∧ pv y = x ∧ path nx pv l'
  | _ => True
  end.

Lemma path_app nx pv A x B :
  path nx pv (A ++ x :: B) ↔ path nx pv (A ++ [x]) ∧ path nx pv (x :: B).
Proof.
  induction A as [|a A IH]; simpl; [tauto|].
  destruct A as [|a' A]; simpl in *; [destruct B; tauto|]. rewrite IH. tauto.
Qed.

Lemma path_frame nx pv nx' pv' l :
  (∀ A x y B, l = A ++ x :: y :: B → nx' x = nx x ∧ pv' y = pv y) →
  path nx pv l → path nx' pv' l.
Proof.
  induction l as [|x [|y l] IH]; intros H; try done. intros (H1 & H2 & H3).
  destruct (H [] x y l eq_refl) as [E1 E2]. simpl. rewrite E1, E2. split; [done|]. split; [done|].
  apply IH; [|done]. intros A a b B E. apply (H (x :: A) a b B). by rewrite E.
Qed.

(** The two ends of a ring meet in [h], which occurs nowhere else. *)
Definition ring (nx pv : nat → nat) (h : nat) (l : list nat) : Prop :=
  NoDup (h :: l) ∧ path nx pv (h :: l ++ [h]).

Lemma app_eq_split {A} (A1 B1 A2 B2 : list A) (x : A) :
  NoDup (A1 ++ x :: B1) → A1 ++ x :: B1 = A2 ++ x :: B2 → A1 = A2 ∧ B1 = B2.
Proof.
  revert A2; induction A1 as [|a A1 IH]; intros [|a2 A2] Hnd E; simpl in *.
  - by injection E as ->.
  - injection E as -> ->. apply NoDup_cons in Hnd as [Hn _]. set_solver.
  - injection E as -> E. apply NoDup_cons in Hnd as [Hn _]. set_solver.
  - injection E as -> E. apply NoDup_cons in Hnd as [_ Hnd].
    destruct (IH A2 Hnd E) as [-> ->]. done.
Qed.

(** In [h :: l ++ [h]], an element followed by another is in [h :: l], and one
    preceded by another is in [l ++ [h]]. *)
Lemma ring_nodup_tail h (l : list nat) : NoDup (h :: l) → NoDup (l ++ [h]).
Proof.
  intros H. eapply NoDup_Permutation_proper; [|exact H].
  by rewrite <- Permutation_cons_append.
Qed.
Lemma ring_pair h (l : list nat) A x y B :
  h :: l ++ [h] = A ++ x :: y :: B →
  ∃ B', h :: l = A ++ x :: B' ∧ ∃ A', l ++ [h] = A' ++ y :: B.
Proof.
  intros E. destruct (exists_last (l := y :: B)) as (B' & z & EB); [done|].
  rewrite EB in E. exists B'. split.
  - change (h :: l ++ [h]) with ((h :: l) ++ [h]) in E.
    change (A ++ x :: B' ++ [z]) with (A ++ (x :: B') ++ [z]) in E. rewrite app_assoc in E.
    by apply app_inj_tail in E as [-> _].
  - rewrite <- EB in E. destruct A as [|a A]; simpl in E; injection E as E0 E1.
    + by exists ([] : list nat).
    + exists (A ++ [x]). by rewrite <- app_assoc.
Qed.

(** Two neighbours of a ring: a node has one successor and one predecessor. *)
Lemma ring_succ (h : nat) (l A : list nat) x y (B A2 : list nat) x2 y2 (B2 : list nat) :
  NoDup (h :: l) → h :: l ++ [h] = A ++ x :: y :: B → h :: l ++ [h] = A2 ++ x2 :: y2 :: B2 →
  x = x2 ∨ y = y2 → A = A2 ∧ x = x2 ∧ y = y2 ∧ B = B2.
Proof.
  intros Hnd E E2 Hor. pose proof (ring_nodup_tail _ _ Hnd) as Hnd'.
  destruct (ring_pair _ _ _ _ _ _ E) as (B' & EB & A' & EA).
  destruct (ring_pair _ _ _ _ _ _ E2) as (B2' & EB2 & A2' & EA2).
  destruct Hor as [->| ->].
  - assert (A = A2) as ->.
    { rewrite EB in EB2, Hnd. by destruct (app_eq_split _ _ _ _ _ Hnd EB2). }
    rewrite E in E2. by simplify_eq.
  - assert (B = B2) as ->.
    { rewrite EA in EA2, Hnd'. by destruct (app_eq_split _ _ _ _ _ Hnd' EA2). }
    rewrite E in E2. replace (A ++ x :: y2 :: B2) with ((A ++ [x]) ++ y2 :: B2) in E2
      by (by rewrite <- app_assoc).
    replace (A2 ++ x2 :: y2 :: B2) with ((A2 ++ [x2]) ++ y2 :: B2) in E2
      by (by rewrite <- app_assoc).
    apply app_inv_tail in E2. by apply app_inj_tail in E2 as [-> ->].
Qed.

(** [b->next->prev = b->prev; b->prev->next = b->next;] *)
Lemma ring_unlink nx pv h l1 b l2 :
  ring nx pv h (l1 ++ b :: l2) →
  let n := nx b in
  let p := pv b in
  ring (fupd nx p n) (fupd pv n p) h (l1 ++ l2).
Proof.
  intros [Hnd Hp] n p. split.
  { apply NoDup_cons in Hnd as [H1 H2]. apply NoDup_app in H2 as (H3 & H4 & H5).
    apply NoDup_cons in H5 as [H5 H6]. apply NoDup_cons. split; [set_solver|].
    apply NoDup_app. split; [done|]. split; [set_solver|done]. }
  destruct (exists_last (l := h :: l1)) as (A & p' & EA); [done|].
  destruct (l2 ++ [h]) as [|n' B] eqn:EB; [by destruct l2|].
  assert (h :: (l1 ++ b :: l2) ++ [h] = A ++ p' :: b :: n' :: B) as E.
  { rewrite <- app_assoc. simpl. rewrite EB.
    change (h :: l1 ++ b :: n' :: B) with ((h :: l1) ++ b :: n' :: B). rewrite EA.
    by rewrite <- app_assoc. }
  assert (h :: (l1 ++ l2) ++ [h] = A ++ p' :: n' :: B) as E'.
  { rewrite <- app_assoc, EB. change (h :: l1 ++ n' :: B) with ((h :: l1) ++ n' :: B).
    rewrite EA. by rewrite <- app_assoc. }
  assert (h :: (l1 ++ b :: l2) ++ [h] = (A ++ [p']) ++ b :: n' :: B) as E2
    by (rewrite E; by rewrite <- app_assoc).
  rewrite E' at 1. rewrite E in Hp.
  apply path_app in Hp as [Hp1 (Hp2 & Hp3 & Hp4 & Hp5 & Hp6)].
  assert (n = n') as -> by done. assert (p = p') as -> by done.
  apply path_app. split; [|split; [|split]].
  - eapply path_frame; [|exact Hp1]. intros A1 x y B1 EP.
    assert (h :: (l1 ++ b :: l2) ++ [h] = A1 ++ x :: y :: (B1 ++ b :: n' :: B)) as E3.
    { rewrite E2, EP. by rewrite <- app_assoc. }
    apply (f_equal length) in EP. rewrite !length_app in EP. simpl in EP.
    unfold fupd. split; rewrite decide_False; try done; intros ->.
    + destruct (ring_succ _ _ _ _ _ _ _ _ _ _ Hnd E E3 ltac:(by left)) as (<- & _). lia.
    + destruct (ring_succ _ _ _ _ _ _ _ _ _ _ Hnd E2 E3 ltac:(by right)) as (<- & _).
      rewrite length_app in EP. simpl in EP. lia.
  - unfold fupd. by rewrite decide_True.
  - unfold fupd. by rewrite decide_True.
  - eapply path_frame; [|exact Hp6]. intros A1 x y B1 EP.
    assert (h :: (l1 ++ b :: l2) ++ [h] = (A ++ p' :: b :: A1) ++ x :: y :: B1) as E3.
    { rewrite E, EP. rewrite <- app_assoc. done. }
    unfold fupd. split; rewrite decide_False; try done; intros ->.
    + destruct (ring_succ _ _ _ _ _ _ _ _ _ _ Hnd E E3 ltac:(by left)) as (Ex & _).
      apply (f_equal length) in Ex. rewrite length_app in Ex. simpl in Ex. lia.
    + destruct (ring_succ _ _ _ _ _ _ _ _ _ _ Hnd E2 E3 ltac:(by right)) as (Ex & _).
      apply (f_equal length) in Ex. rewrite !length_app in Ex. simpl in Ex. lia.
Qed.

(** [b->next = head.next; b->prev = &head; head.next->prev = b; head.next = b;] *)
Lemma ring_link nx pv h b l :
  ring nx pv h l → b ∉ h :: l →
  ring (fupd (fupd nx b (nx h)) h b) (fupd (fupd pv b h) (nx h) b) h (b :: l).
Proof.
  intros [Hnd Hp] Hb. pose proof (ring_nodup_tail _ _ Hnd) as Hnd'.
  split; [apply NoDup_cons in Hnd as [? ?]; repeat (apply NoDup_cons; split); set_solver|].
  destruct (l ++ [h]) as [|n B] eqn:E; [by destruct l|].
  change ((b :: l) ++ [h]) with (b :: l ++ [h]). rewrite E. destruct Hp as (Hp1 & Hp2 & Hp3).
  assert (n ∈ h :: l) as Hn.
  { assert (n ∈ l ++ [h]) by (rewrite E; set_solver). set_solver. }
  assert (h ≠ b ∧ b ≠ n) as [Hhb Hbn] by set_solver.
  rewrite Hp1. unfold fupd. split; [by rewrite decide_True|].
  split; [rewrite (decide_False (P := b = n)) by done; by rewrite decide_True|].
  split; [rewrite (decide_False (P := b = h)) by done; by rewrite decide_True|].
  split; [by rewrite decide_True|].
  eapply path_frame; [|exact Hp3]. intros A x y C EA.
  apply NoDup_cons in Hnd' as [Hn' Hnd''].
  assert (y ∈ B) as HyB.
  { destruct A; simplify_eq/=; set_solver. }
  assert (x ∈ l) as Hxl.
  { assert (∃ D, l = A ++ x :: D) as [D ->]; [|set_solver].
    destruct (exists_last (l := y :: C)) as (D & z & ED); [done|]. rewrite EA, ED in E.
    exists D. change (A ++ x :: D ++ [z]) with (A ++ (x :: D) ++ [z]) in E.
    rewrite app_assoc in E. by apply app_inj_tail in E as [-> _]. }
  apply NoDup_cons in Hnd as [Hhl _]. assert (y ∈ h :: l) as Hyl.
  { assert (y ∈ l ++ [h]) by (rewrite E; set_solver). set_solver. }
  repeat split; repeat case_decide; subst; try done; set_solver.
Qed.

(** ** The buffers *)

(** The order of the buffers, most recently used first. *)
Record lru (bufs : list buf) (order : list nat) : Prop := {
  lru_len : length bufs = S NBUF;
  lru_perm : order ≡ₚ seq 0 NBUF;
  lru_ring : ring (λ i, b_next (default buf0 (bufs !! i))) (λ i, b_prev (default buf0 (bufs !! i)))
    HEAD order;
}.

Lemma buf_of_upd i j f s :
  (j < length (k_bufs s))%nat →
  buf_of (upd_buf i f s) j = if decide (i = j) then f (buf_of s j) else buf_of s j.
Proof.
  intros Hj. unfold buf_of, upd_buf. simpl.
  destruct (lookup_lt_is_Some_2 _ _ Hj) as [b Hb]. case_decide as H.
  - subst. by rewrite list_lookup_alter_eq, Hb.
  - by rewrite list_lookup_alter_ne.
Qed.
Lemma length_upd_buf i f s : length (k_bufs (upd_buf i f s)) = length (k_bufs s).
Proof. apply length_alter. Qed.

Lemma lru_elem bufs order i : lru bufs order → i ∈ order ↔ (i < NBUF)%nat.
Proof.
  intros H. rewrite (lru_perm _ _ H), elem_of_seq. lia.
Qed.
Lemma lru_length bufs order : lru bufs order → length order = NBUF.
Proof. intros H. by rewrite (lru_perm _ _ H), length_seq. Qed.

(** Changing other fields of a buffer. *)
Lemma lru_upd i f s order :
  (∀ b, b_next (f b) = b_next b ∧ b_prev (f b) = b_prev b) →
  lru (k_bufs s) order → lru (k_bufs (upd_buf i f s)) order.
Proof.
  intros Hf [H1 H2 [H3 H4]]. split; [by rewrite length_upd_buf|done|]. split; [done|].
  eapply path_frame; [|exact H4]. intros A x y B _. simpl.
  assert (∀ j, b_next (default buf0 (alter f i (k_bufs s) !! j)) = b_next (default buf0 (k_bufs s !! j)) ∧
    b_prev (default buf0 (alter f i (k_bufs s) !! j)) = b_prev (default buf0 (k_bufs s !! j))) as Hj.
  { intros j. destruct (decide (i = j)) as [->|].
    - rewrite list_lookup_alter_eq. destruct (k_bufs s !! j) as [b|]; simpl; [|done].
      apply Hf.
    - by rewrite list_lookup_alter_ne. }
  split; apply Hj.
Qed.

(** ** Searching *)

Section search.
Context (s : kst).
Let nx : nat → nat := λ i, next_of s i.
Let pv : nat → nat := λ i, prev_of s i.

Lemma find_cached_path dev blockno n l x :
  path nx pv (x :: l ++ [HEAD]) → HEAD ∉ l → (length l < n)%nat →
  mloop n (λ b,
    if decide (b = HEAD) then mret (inr None)
    else
      hit ← gets (λ s, (b_dev (buf_of s b) =? dev) && (b_blockno (buf_of s b) =? blockno));
      if hit : bool then mret (inr (Some b))
      else n ← gets (λ s, next_of s b); mret (inl n)) (nx x) s =
  Ok (List.find (λ b, (b_dev (buf_of s b) =? dev) && (b_blockno (buf_of s b) =? blockno)) l) s.
Proof.
  revert n x; induction l as [|y l IH]; intros n x Hp Hh Hn; destruct n as [|n]; try (simpl in Hn; lia).
  - destruct Hp as [-> _]. apply mloop_done. by rewrite decide_True.
  - destruct Hp as (Hx & _ & Hp). rewrite Hx. simpl List.find.
    destruct (_ && _) eqn:E.
    + apply mloop_done. rewrite decide_False by set_solver. mstep. by rewrite E.
    + erewrite mloop_next.
      * apply (IH n y); [done|set_solver|simpl in Hn; lia].
      * rewrite decide_False by set_solver. mstep. by rewrite E.
Qed.

Lemma find_unused_path n l x :
  path nx pv (HEAD :: l ++ [x]) → HEAD ∉ l → (length l < n)%nat →
  mloop n (λ b,
    if decide (b = HEAD) then mret (inr None)
    else
      free ← gets (λ s, b_refcnt (buf_of s b) =? 0);
      if free : bool then mret (inr (Some b))
      else n ← gets (λ s, prev_of s b); mret (inl n)) (pv x) s =
  Ok (List.find (λ b, b_refcnt (buf_of s b) =? 0) (rev l)) s.
Proof.
  revert n x; induction l as [|y l IH] using rev_ind; intros n x Hp Hh Hn;
    destruct n as [|n]; try (simpl in Hn; lia).
  - destruct Hp as (_ & -> & _). apply mloop_done. by rewrite decide_True.
  - replace (HEAD :: (l ++ [y]) ++ [x]) with ((HEAD :: l) ++ y :: [x]) in Hp
      by (simpl; by rewrite <- app_assoc).
    apply path_app in Hp as [Hp (_ & Hx & _)]. rewrite Hx.
    rewrite rev_app_distr. simpl List.find. destruct (b_refcnt (buf_of s y) =? 0) eqn:E.
    + apply mloop_done. rewrite decide_False by set_solver. mstep. by rewrite E.
    + erewrite mloop_next.
      * apply (IH n y); [done|set_solver|rewrite length_app in Hn; simpl in Hn; lia].
      * rewrite decide_False by set_solver. mstep. by rewrite E.
Qed.
End search.

Definition caches (dev blockno : Z) (s : kst) (b : nat) : bool :=
  (b_dev (buf_of s b) =? dev) && (b_blockno (buf_of s b) =? blockno).
Definition unused (s : kst) (b : nat) : bool := b_refcnt (buf_of s b) =? 0.

Lemma head_not_in bufs order : lru bufs order → HEAD ∉ order.
Proof. intros H. rewrite (lru_elem _ _ _ H). unfold HEAD. lia. Qed.

Lemma find_cached_Ok dev blockno s order :
  lru (k_bufs s) order →
  find_cached dev blockno (next_of s HEAD) s = Ok (List.find (caches dev blockno s) order) s.
Proof.
  intros H. unfold find_cached. apply (find_cached_path s).
  - apply (lru_ring _ _ H).
  - by eapply head_not_in.
  - rewrite (lru_length _ _ H). lia.
Qed.
Lemma find_unused_Ok s order :
  lru (k_bufs s) order →
  find_unused (prev_of s HEAD) s = Ok (List.find (unused s) (rev order)) s.
Proof.
  intros H. unfold find_unused. apply (find_unused_path s).
  - apply (lru_ring _ _ H).
  - by eapply head_not_in.
  - rewrite (lru_length _ _ H). lia.
Qed.

(** ** Moving to the front *)

Definition nxf (s : kst) : nat → nat := λ i, next_of s i.
Definition pvf (s : kst) : nat → nat := λ i, prev_of s i.

Lemma ring_ext nx pv nx' pv' h l :
  (∀ i, i ∈ h :: l → nx' i = nx i ∧ pv' i = pv i) → ring nx pv h l → ring nx' pv' h l.
Proof.
  intros H [H1 H2]. split; [done|]. eapply path_frame; [|exact H2].
  intros A x y B E.
  assert (∀ z, z ∈ h :: l ++ [h] → z ∈ h :: l) as Hz by set_solver.
  split; apply H, Hz; rewrite E; set_solver.
Qed.

(** [set_next] and [set_prev] on the pointer maps. *)
Lemma nxf_set_next b v s i :
  (i < length (k_bufs s))%nat → nxf (upd_buf b (set_b_next v) s) i = fupd (nxf s) b v i.
Proof.
  intros Hi. unfold nxf, next_of, fupd. rewrite buf_of_upd by done.
  repeat case_decide; subst; done.
Qed.
Lemma pvf_set_next b v s i :
  (i < length (k_bufs s))%nat → pvf (upd_buf b (set_b_next v) s) i = pvf s i.
Proof.
  intros Hi. unfold pvf, prev_of. rewrite buf_of_upd by done. by case_decide.
Qed.
Lemma nxf_set_prev b v s i :
  (i < length (k_bufs s))%nat → nxf (upd_buf b (set_b_prev v) s) i = nxf s i.
Proof.
  intros Hi. unfold nxf, next_of. rewrite buf_of_upd by done. by case_decide.
Qed.
Lemma pvf_set_prev b v s i :
  (i < length (k_bufs s))%nat → pvf (upd_buf b (set_b_prev v) s) i = fupd (pvf s) b v i.
Proof.
  intros Hi. unfold pvf, prev_of, fupd. rewrite buf_of_upd by done.
  repeat case_decide; subst; done.
Qed.

(** The six assignments of [brelse]. *)
Definition move_front (b : nat) : K unit :=
  n ← gets (λ s, next_of s b);
  p ← gets (λ s, prev_of s b);
  set_prev n p;;
  n ← gets (λ s, next_of s b);
  p ← gets (λ s, prev_of s b);
  set_next p n;;
  link_front b.

(** Only pointers change. *)
Definition same_buf (b b' : buf) : Prop :=
  b_valid b' = b_valid b ∧ b_disk b' = b_disk b ∧ b_dev b' = b_dev b ∧
  b_blockno b' = b_blockno b ∧ b_lock b' = b_lock b ∧ b_refcnt b' = b_refcnt b ∧
  b_data b' = b_data b.
Definition same_bufs (s s' : kst) : Prop :=
  s' = set_k_bufs (k_bufs s') s ∧ length (k_bufs s') = length (k_bufs s) ∧
  ∀ i, same_buf (buf_of s i) (buf_of s' i).

Lemma same_bufs_refl s : same_bufs s s.
Proof. split; [by destruct s|]. done. Qed.
Lemma same_bufs_trans s1 s2 s3 : same_bufs s1 s2 → same_bufs s2 s3 → same_bufs s1 s3.
Proof.
  intros (A1 & A2 & A3) (B1 & B2 & B3). split; [rewrite B1, A1; done|]. split; [congruence|].
  intros i. specialize (A3 i). specialize (B3 i). unfold same_buf in *. intuition congruence.
Qed.
Lemma same_bufs_ptr i f s :
  (∀ b, same_buf b (f b)) → same_bufs s (upd_buf i f s).
Proof.
  intros Hf. split; [done|]. split; [by rewrite length_upd_buf|]. intros j.
  unfold buf_of, upd_buf. simpl. destruct (decide (i = j)) as [->|].
  - rewrite list_lookup_alter_eq. destruct (k_bufs s !! j); simpl; [apply Hf|done].
  - by rewrite list_lookup_alter_ne.
Qed.

(** The neighbours of [b] in a ring. *)
Lemma ring_neighbours nx pv h l1 b l2 :
  ring nx pv h (l1 ++ b :: l2) →
  nx b ∈ h :: l1 ++ l2 ∧ pv b ∈ h :: l1 ++ l2 ∧ nx b ≠ b ∧ pv b ≠ b.
Proof.
  intros [Hnd Hp]. rewrite <- app_assoc in Hp.
  destruct (exists_last (l := h :: l1)) as (A & p & EA); [done|].
  destruct (l2 ++ [h]) as [|n B] eqn:EB; [by destruct l2|].
  replace (h :: l1 ++ (b :: l2) ++ [h]) with (A ++ p :: b :: n :: B) in Hp.
  2:{ simpl. rewrite EB. change (h :: l1 ++ b :: n :: B) with ((h :: l1) ++ b :: n :: B).
      by rewrite EA, <- app_assoc. }
  apply path_app in Hp as [_ (_ & -> & -> & _)].
  assert (p ∈ h :: l1) as Hp by (rewrite EA; set_solver).
  assert (n ∈ l2 ++ [h]) as Hn by (rewrite EB; set_solver).
  apply NoDup_cons in Hnd as [H1 H2]. apply NoDup_app in H2 as (_ & H3 & H4).
  apply NoDup_cons in H4 as [H4 _]. set_solver.
Qed.

(** A buffer that is not on the list is put at its front. *)
Lemma link_front_Ok b l s :
  ring (nxf s) (pvf s) HEAD l → b ∉ HEAD :: l →
  (∀ i, i ∈ HEAD :: b :: l → (i < length (k_bufs s))%nat) →
  ∃ s', link_front b s = Ok () s' ∧ ring (nxf s') (pvf s') HEAD (b :: l) ∧ same_bufs s s'.
Proof.
  intros HR Hb Hlt. set (n := nxf s HEAD).
  set (s2 := upd_buf b (set_b_prev HEAD) (upd_buf b (set_b_next n) s)).
  assert (length (k_bufs s2) = length (k_bufs s)) as L2 by (unfold s2; by rewrite !length_upd_buf).
  assert (∀ i, (i < length (k_bufs s))%nat →
    nxf s2 i = fupd (nxf s) b n i ∧ pvf s2 i = fupd (pvf s) b HEAD i) as Hs2.
  { intros i Hi. unfold s2. rewrite nxf_set_prev, pvf_set_prev by (rewrite length_upd_buf; lia).
    unfold fupd at 2. rewrite nxf_set_next, pvf_set_next by lia. done. }
  set (s4 := upd_buf HEAD (set_b_next b) (upd_buf n (set_b_prev b) s2)).
  assert (∀ i, (i < length (k_bufs s))%nat →
    nxf s4 i = fupd (fupd (nxf s) b n) HEAD b i ∧ pvf s4 i = fupd (fupd (pvf s) b HEAD) n b i) as Hs4.
  { intros i Hi. unfold s4. rewrite nxf_set_next, pvf_set_next by (rewrite length_upd_buf; lia).
    unfold fupd at 1. rewrite nxf_set_prev, pvf_set_prev by lia.
    destruct (Hs2 i Hi) as [-> E]. unfold fupd at 4. rewrite E. done. }
  exists s4. split; [|split].
  - unfold link_front, set_prev, set_next. msteps. change (next_of s HEAD) with n. fold s2.
    assert (next_of s2 HEAD = n) as ->; [|done].
    change (nxf s2 HEAD = n). destruct (Hs2 HEAD) as [-> _]; [apply Hlt; set_solver|].
    unfold fupd. rewrite decide_False; [done|]. intros <-. set_solver.
  - eapply ring_ext; [|apply (ring_link _ _ _ b _ HR Hb)].
    intros i Hi. apply Hs4, Hlt. set_solver.
  - unfold s4, s2. repeat (eapply same_bufs_trans; [|apply same_bufs_ptr; done]). apply same_bufs_refl.
Qed.

Lemma move_front_Ok b l1 l2 s :
  lru (k_bufs s) (l1 ++ b :: l2) →
  ∃ s', move_front b s = Ok () s' ∧ lru (k_bufs s') (b :: l1 ++ l2) ∧ same_bufs s s'.
Proof.
  intros H. pose proof (lru_ring _ _ H) as HR. pose proof (lru_len _ _ H) as HL.
  change (ring (nxf s) (pvf s) HEAD (l1 ++ b :: l2)) in HR.
  assert (∀ i, i ∈ HEAD :: l1 ++ b :: l2 → (i < length (k_bufs s))%nat) as Hlt.
  { intros i. rewrite elem_of_cons, (lru_elem _ _ _ H), HL. unfold HEAD. lia. }
  destruct (ring_neighbours _ _ _ _ _ _ HR) as (Hn & Hp & Hnb & Hpb).
  set (n := nxf s b) in *. set (p := pvf s b) in *.
  set (s1 := upd_buf n (set_b_prev p) s). set (s2 := upd_buf p (set_b_next n) s1).
  assert (length (k_bufs s1) = length (k_bufs s)) as L1 by apply length_upd_buf.
  assert (length (k_bufs s2) = length (k_bufs s)) as L2 by (rewrite <- L1; apply length_upd_buf).
  assert (ring (nxf s2) (pvf s2) HEAD (l1 ++ l2)) as HR2.
  { eapply ring_ext; [|by apply ring_unlink]. intros i Hi.
    assert (i < length (k_bufs s))%nat by (apply Hlt; set_solver). unfold s2. rewrite nxf_set_next, pvf_set_next by lia. unfold s1.
    unfold fupd at 1. rewrite nxf_set_prev, pvf_set_prev by done. done. }
  pose proof (proj1 HR) as Hnd. apply NoDup_cons in Hnd as [Hh Hnd].
  apply NoDup_app in Hnd as (_ & Hd & Hnd). apply NoDup_cons in Hnd as [Hnb' _].
  destruct (link_front_Ok b (l1 ++ l2) s2 HR2) as (s3 & E3 & HR3 & S3).
  { intros [->|[Hx|Hx]%elem_of_app]%elem_of_cons; [set_solver| |done]. apply (Hd b Hx). set_solver. }
  { intros i Hi. rewrite L2. apply Hlt. set_solver. }
  exists s3. split; [|split].
  - unfold move_front, set_prev, set_next. msteps.
    change (next_of s b) with n. change (prev_of s b) with p. fold s1.
    assert (next_of s1 b = n ∧ prev_of s1 b = p) as [-> ->]; [|exact E3].
    change (nxf s1 b = n ∧ pvf s1 b = p). unfold s1.
    rewrite nxf_set_prev, pvf_set_prev by (apply Hlt; set_solver). unfold fupd.
    by rewrite decide_False.
  - split; [|rewrite <- (lru_perm _ _ H); apply Permutation_middle|done].
    destruct S3 as (_ & -> & _). by rewrite L2.
  - eapply same_bufs_trans; [|exact S3]. unfold s2, s1.
    repeat (eapply same_bufs_trans; [|apply same_bufs_ptr; done]). apply same_bufs_refl.
Qed.

(** ** binit *)

(** The cache after [binit] of zero-initialised memory: the list runs from
    the last buffer to the first. *)
Definition boot_bufs : list buf :=
  map (λ i, set_b_next (match i with O => HEAD | S j => j end)
         (set_b_prev (if decide (i = HEAD) then O else S i) buf0)) (seq 0 (S NBUF)).

Lemma binit_Ok s :
  k_bufs s = replicate (S NBUF) buf0 → binit s = Ok () (set_k_bufs boot_bufs s).
Proof. destruct s. simpl. intros ->. vm_compute. reflexivity. Qed.
Lemma boot_lru : lru boot_bufs (rev (seq 0 NBUF)).
Proof.
  split; [reflexivity|by rewrite <- Permutation_rev|]. split.
  - apply (bool_decide_unpack (NoDup (HEAD :: rev (seq 0 NBUF)))). vm_compute. exact I.
  - vm_compute. repeat split.
Qed.
