(* ===== verification/BioSpec.v ===== *)
(** * The buffer cache as a store of blocks

    [bcache_inv] relates the cache, the blocks a running operation holds
    ([held]), the blocks the log has pinned ([pins]) and the logical contents
    of the disk ([V]): what a reader sees, which is the cached copy of a block
    where there is one. *)

From stdpp Require Import options.
From S2P Require Import Prelude CString State Sched Sleeplock Bio BioList.
#[local] Open Scope Z_scope.

(** ** Evaluation of [bget] *)

Definition incr_ref (b : buf) : buf := set_b_refcnt (u32 (b_refcnt b + 1)) b.
Definition decr_ref (b : buf) : buf := set_b_refcnt (u32 (b_refcnt b - 1)) b.
Definition recycle (dev blockno : Z) (b : buf) : buf :=
  set_b_refcnt 1 (set_b_valid false (set_b_blockno blockno (set_b_dev dev b))).
Definition my_lock (p : nat) (s : kst) : sleeplock := Sleeplock true (p_pid (proc_of s p)).

Lemma running_in_nil p s : running p s → running_in [] p s.
Proof. intros [H1 H2 H3 H4]. split; try done; intros i; set_solver. Qed.

Lemma upd_buf_compose i f g s : upd_buf i f (upd_buf i g s) = upd_buf i (f ∘ g) s.
Proof.
  unfold upd_buf. kst_unfold. f_equal.
  apply list_eq. intros j. destruct (decide (i = j)) as [->|].
  - rewrite !list_lookup_alter_eq. by destruct (k_bufs s !! j).
  - by rewrite !list_lookup_alter_ne.
Qed.

Lemma acquire_buf_lock b p s :
  running p s → sl_locked (b_lock (buf_of s b)) = false →
  acquiresleep (SL_buf b) s = Ok () (upd_buf b (set_b_lock (my_lock p s)) s).
Proof.
  intros Hr Hf. apply (acquiresleep_free (SL_buf b) []); [by apply running_in_nil|done].
Qed.

Lemma bget_hit dev blockno p s order b :
  running p s → lru (k_bufs s) order → List.find (caches dev blockno s) order = Some b →
  sl_locked (b_lock (buf_of s b)) = false →
  bget dev blockno s = Ok b (upd_buf b (set_b_lock (my_lock p s) ∘ incr_ref) s).
Proof.
  intros Hr HL Hf Hl. pose proof Hr as [Hc Hh Hp Hlt]. unfold bget.
  rewrite bind_acquire by (rewrite Hh; set_solver). rewrite Hh. msteps.
  erewrite bind_Ok by (by apply (find_cached_Ok _ _ (set_k_held [LK_bcache] s) order)).
  change (caches dev blockno (set_k_held [LK_bcache] s)) with (caches dev blockno s).
  rewrite Hf. msteps. rewrite (bind_release _ []) by done.
  set (s1 := set_k_held [] _).
  assert (s1 = upd_buf b incr_ref s) as -> by (unfold s1; kst_eq; done).
  erewrite bind_Ok.
  2:{ apply (acquire_buf_lock b p).
      - split; done.
      - unfold buf_of in *. simpl. rewrite list_lookup_alter_eq.
        destruct (k_bufs s !! b); done. }
  msteps. f_equal. apply upd_buf_compose.
Qed.

Lemma bget_miss dev blockno p s order b :
  running p s → lru (k_bufs s) order → List.find (caches dev blockno s) order = None →
  List.find (unused s) (rev order) = Some b → sl_locked (b_lock (buf_of s b)) = false →
  bget dev blockno s = Ok b (upd_buf b (set_b_lock (my_lock p s) ∘ recycle dev blockno) s).
Proof.
  intros Hr HL Hf Hu Hl. pose proof Hr as [Hc Hh Hp Hlt]. unfold bget.
  rewrite bind_acquire by (rewrite Hh; set_solver). rewrite Hh. msteps.
  erewrite bind_Ok by (by apply (find_cached_Ok _ _ (set_k_held [LK_bcache] s) order)).
  change (caches dev blockno (set_k_held [LK_bcache] s)) with (caches dev blockno s).
  rewrite Hf. msteps.
  erewrite bind_Ok by (by apply (find_unused_Ok (set_k_held [LK_bcache] s) order)).
  change (unused (set_k_held [LK_bcache] s)) with (unused s).
  rewrite Hu. msteps. rewrite (bind_release _ []) by done.
  set (s1 := set_k_held [] _).
  assert (s1 = upd_buf b (recycle dev blockno) s) as ->.
  { unfold s1. rewrite !upd_buf_compose. kst_eq. done. }
  erewrite bind_Ok.
  2:{ apply (acquire_buf_lock b p).
      - split; done.
      - unfold buf_of in *. simpl. rewrite list_lookup_alter_eq.
        destruct (k_bufs s !! b); done. }
  msteps. f_equal. apply upd_buf_compose.
Qed.

(** ** The invariant *)

Record bent (pid : Z) (held : gset nat) (pins : gset Z) (V : Z → list Z)
    (D : gmap Z (list Z)) (i : nat) (b : buf) : Prop := {
  be_dev : (b_dev b = ROOTDEV ∧ b_valid b = true) ∨ (b_dev b = 0 ∧ b_valid b = false);
  be_view : b_dev b = ROOTDEV → V (b_blockno b) = b_data b;
  be_held : i ∈ held → b_dev b = ROOTDEV ∧ b_lock b = Sleeplock true pid;
  be_free : i ∉ held → sl_locked (b_lock b) = false;
  be_ref : b_refcnt b = (if decide (i ∈ held) then 1 else 0) +
    (if decide (b_dev b = ROOTDEV ∧ b_blockno b ∈ pins) then 1 else 0);
  be_clean : b_dev b = ROOTDEV → i ∉ held → b_blockno b ∉ pins →
    b_data b = disk_block D (b_blockno b);
  be_data : length (b_data b) = Z.to_nat BSIZE;
}.

(** Buffer [i] caches block [n]. *)
Definition cached (s : kst) (i : nat) (n : Z) : Prop :=
  (i < NBUF)%nat ∧ b_dev (buf_of s i) = ROOTDEV ∧ b_blockno (buf_of s i) = n.

Record bcache_inv (p : nat) (s : kst) (held : gset nat) (pins : gset Z) (V : Z → list Z)
    : Prop := {
  bi_run : running p s;
  bi_lru : ∃ order, lru (k_bufs s) order;
  bi_ent i : (i < NBUF)%nat →
    bent (p_pid (proc_of s p)) held pins V (k_disk s) i (buf_of s i);
  bi_uniq i j n : cached s i n → cached s j n → i = j;
  bi_pins n : n ∈ pins → ∃ i, cached s i n;
  bi_disk n : (∀ i, ¬ cached s i n) → V n = disk_block (k_disk s) n;
  bi_held i : i ∈ held → (i < NBUF)%nat;
  bi_blocks n : length (disk_block (k_disk s) n) = Z.to_nat BSIZE;
}.

Lemma bi_len p s held pins V : bcache_inv p s held pins V → length (k_bufs s) = S NBUF.
Proof. intros H. destruct (bi_lru _ _ _ _ _ H) as [order HL]. apply HL. Qed.

Lemma bi_view p s held pins V i n :
  bcache_inv p s held pins V → cached s i n → V n = b_data (buf_of s i).
Proof.
  intros H (Hi & Hd & <-). by apply (be_view _ _ _ _ _ _ _ (bi_ent _ _ _ _ _ H i Hi)).
Qed.
Lemma cached_dec s n : (∃ i, cached s i n) ∨ (∀ i, ¬ cached s i n).
Proof.
  destruct (decide (Exists (λ i, b_dev (buf_of s i) = ROOTDEV ∧ b_blockno (buf_of s i) = n)
    (seq 0 NBUF))) as [Hx|Hx]; [left|right].
  - apply Exists_exists in Hx as (i & Hi%elem_of_seq & Hd & Hn). exists i. split; [lia|done].
  - intros i (Hi & Hd & Hn). apply Hx, Exists_exists. exists i.
    split; [apply elem_of_seq; lia|done].
Qed.
Lemma bi_length p s held pins V n :
  bcache_inv p s held pins V → length (V n) = Z.to_nat BSIZE.
Proof.
  intros H. destruct (cached_dec s n) as [[i Hc]|Hc].
  - rewrite (bi_view _ _ _ _ _ i n H Hc). destruct Hc as [Hi _].
    apply (be_data _ _ _ _ _ _ _ (bi_ent _ _ _ _ _ H i Hi)).
  - rewrite (bi_disk _ _ _ _ _ H) by done. apply (bi_blocks _ _ _ _ _ H).
Qed.

Lemma bent_same pid held pins V D i x y :
  same_buf x y → bent pid held pins V D i x → bent pid held pins V D i y.
Proof.
  intros (F1 & F2 & F3 & F4 & F5 & F6 & F7) [E1 E2 E3 E4 E5 E6 E7].
  split; rewrite ?F1, ?F3, ?F4, ?F5, ?F6, ?F7; done.
Qed.

(** A change of one buffer, with the rest of the cache as it was. *)
Lemma bcache_change p s s' held held' pins pins' V V' b :
  bcache_inv p s held pins V → running p s' → (∃ order, lru (k_bufs s') order) →
  p_pid (proc_of s' p) = p_pid (proc_of s p) → (b < NBUF)%nat →
  (∀ i, (i < NBUF)%nat → i ≠ b → same_buf (buf_of s i) (buf_of s' i)) →
  (∀ i, i ≠ b → i ∈ held' ↔ i ∈ held) →
  (∀ i n, i ≠ b → cached s i n →
     (n ∈ pins' ↔ n ∈ pins) ∧ V' n = V n ∧
     disk_block (k_disk s') n = disk_block (k_disk s) n) →
  bent (p_pid (proc_of s p)) held' pins' V' (k_disk s') b (buf_of s' b) →
  (∀ i n, i ≠ b → cached s i n → ¬ cached s' b n) →
  (∀ n, n ∈ pins' → ∃ i, cached s' i n) →
  (∀ n, (∀ i, ¬ cached s' i n) → V' n = disk_block (k_disk s') n) →
  (∀ n, length (disk_block (k_disk s') n) = Z.to_nat BSIZE) →
  bcache_inv p s' held' pins' V'.
Proof.
  intros H Hr HL Hpid Hb Hbuf Hheld Hoth Hbent Huniq Hpins Hdisk Hlen.
  assert (∀ i n, i ≠ b → cached s' i n ↔ cached s i n) as Hc.
  { intros i n Hne. unfold cached. split; intros (Hi & Hd & Hn);
      destruct (Hbuf i Hi Hne) as (_ & _ & E1 & E2 & _); split_and!; congruence. }
  split; try done.
  - intros i Hi. rewrite Hpid. destruct (decide (i = b)) as [->|Hne]; [done|].
    apply (bent_same _ _ _ _ _ _ _ _ (Hbuf i Hi Hne)).
    pose proof (bi_ent _ _ _ _ _ H i Hi) as [E1 E2 E3 E4 E5 E6 E7].
    assert (b_dev (buf_of s i) = ROOTDEV → cached s i (b_blockno (buf_of s i))) as Hci.
    { intros Hd. by split. }
    split; try done.
    + intros Hd. destruct (Hoth i _ Hne (Hci Hd)) as (_ & -> & _). auto.
    + rewrite Hheld by done. done.
    + rewrite Hheld by done. done.
    + rewrite E5. f_equal.
      * apply decide_ext. by rewrite Hheld.
      * apply decide_ext. split; intros [Hd Hn]; (split; [done|]); by apply (Hoth i _ Hne (Hci Hd)).
    + rewrite Hheld by done. intros Hd Hni Hnp. destruct (Hoth i _ Hne (Hci Hd)) as (Hpi & _ & ->).
      apply E6; [done|done|]. by rewrite <- Hpi.
  - intros i j n Hci Hcj. destruct (decide (i = b)) as [->|Hi], (decide (j = b)) as [->|Hj]; try done.
    + exfalso. rewrite Hc in Hcj by done. by apply (Huniq j n).
    + exfalso. rewrite Hc in Hci by done. by apply (Huniq i n).
    + rewrite Hc in Hci, Hcj by done. by apply (bi_uniq _ _ _ _ _ H i j n).
  - intros i Hi. destruct (decide (i = b)) as [->|]; [done|]. apply (bi_held _ _ _ _ _ H).
    by rewrite <- Hheld.
Qed.

Definition supd (V : Z → list Z) (n : Z) (d : list Z) : Z → list Z :=
  λ m, if decide (m = n) then d else V m.

(** ** Unused buffers *)

Lemma nodup_size_le {A} `{Countable A} (l : list A) (X : gset A) :
  NoDup l → (∀ x, x ∈ l → x ∈ X) → (length l ≤ size X)%nat.
Proof.
  intros Hnd Hsub. rewrite <- (size_list_to_set (C := gset A)) by done.
  apply subseteq_size. intros x. rewrite elem_of_list_to_set. auto.
Qed.

Lemma refcnt_cases p s held pins V i :
  bcache_inv p s held pins V → (i < NBUF)%nat → unused s i = false →
  i ∈ held ∨ (b_dev (buf_of s i) = ROOTDEV ∧ b_blockno (buf_of s i) ∈ pins).
Proof.
  intros H Hi Hu. pose proof (be_ref _ _ _ _ _ _ _ (bi_ent _ _ _ _ _ H i Hi)) as Hr.
  unfold unused in Hu. apply Z.eqb_neq in Hu. repeat case_decide; (tauto || lia).
Qed.
Lemma unused_free p s held pins V i :
  bcache_inv p s held pins V → (i < NBUF)%nat → unused s i = true →
  i ∉ held ∧ ¬ (b_dev (buf_of s i) = ROOTDEV ∧ b_blockno (buf_of s i) ∈ pins).
Proof.
  intros H Hi Hu. pose proof (be_ref _ _ _ _ _ _ _ (bi_ent _ _ _ _ _ H i Hi)) as Hr.
  unfold unused in Hu. apply Z.eqb_eq in Hu. repeat case_decide; try tauto; lia.
Qed.

Lemma elem_of_find {A} (f : A → bool) l x : List.find f l = Some x → x ∈ l ∧ f x = true.
Proof. intros [H1 H2]%find_some. by rewrite list_elem_of_In. Qed.
Lemma find_none_elem {A} (f : A → bool) l x : List.find f l = None → x ∈ l → f x = false.
Proof. intros H Hx%list_elem_of_In. by apply (find_none f l). Qed.

Lemma find_unused_exists p s held pins V order :
  bcache_inv p s held pins V → lru (k_bufs s) order → (size held + size pins < NBUF)%nat →
  ∃ b, List.find (unused s) (rev order) = Some b ∧ (b < NBUF)%nat ∧ b ∉ held ∧
    ¬ (b_dev (buf_of s b) = ROOTDEV ∧ b_blockno (buf_of s b) ∈ pins).
Proof.
  intros H HL Hsz.
  assert (∀ b, b ∈ rev order ↔ (b < NBUF)%nat) as Hin.
  { intros b. rewrite list_elem_of_In, <- in_rev, <- list_elem_of_In. by apply (lru_elem _ _ _ HL). }
  destruct (List.find (unused s) (rev order)) as [b|] eqn:E.
  { apply elem_of_find in E as [Hb%Hin Hu]. exists b. split; [done|]. split; [done|].
    by apply (unused_free _ _ _ _ _ _ H). }
  exfalso. set (l1 := filter (λ i, i ∈ held) order). set (l2 := filter (λ i, i ∉ held) order).
  assert (∀ i, i ∈ order → i ∈ held ∨ (b_dev (buf_of s i) = ROOTDEV ∧ b_blockno (buf_of s i) ∈ pins)) as Hc.
  { intros i Hi. apply (lru_elem _ _ _ HL) in Hi. apply (refcnt_cases _ _ _ _ _ _ H Hi).
    apply (find_none_elem _ _ _ E). by apply Hin. }
  assert (NoDup order) as Hnd.
  { rewrite (lru_perm _ _ HL). apply NoDup_seq. }
  assert (length l1 ≤ size held)%nat as H1.
  { apply nodup_size_le; [by apply NoDup_filter|]. intros x [? _]%list_elem_of_filter. done. }
  assert (length ((λ i, b_blockno (buf_of s i)) <$> l2) ≤ size pins)%nat as H2.
  { apply nodup_size_le.
    - apply NoDup_fmap_2_strong; [|by apply NoDup_filter].
      intros x y [Hx1 Hx2]%list_elem_of_filter [Hy1 Hy2]%list_elem_of_filter Exy.
      destruct (Hc x Hx2) as [?|[??]]; [done|]. destruct (Hc y Hy2) as [?|[??]]; [done|].
      apply (bi_uniq _ _ _ _ _ H x y (b_blockno (buf_of s x)));
        (split; [by apply (lru_elem _ _ _ HL)|done]).
    - intros n (i & -> & [Hi1 Hi2]%list_elem_of_filter)%list_elem_of_fmap.
      destruct (Hc i Hi2) as [?|[??]]; done. }
  rewrite length_fmap in H2.
  assert (length l1 + length l2 = length order)%nat as H3.
  { unfold l1, l2. clear. induction order as [|x l IH]; [done|]. rewrite !filter_cons.
    repeat case_decide; try tauto; simpl; lia. }
  rewrite (lru_length _ _ HL) in H3. lia.
Qed.

(** ** bread *)

Lemma cached_find p s held pins V order n i :
  bcache_inv p s held pins V → lru (k_bufs s) order → cached s i n →
  List.find (caches ROOTDEV n s) order = Some i.
Proof.
  intros H HL Hc. destruct (List.find (caches ROOTDEV n s) order) as [j|] eqn:E.
  - apply elem_of_find in E as [Hj Hh]. unfold caches in Hh. apply andb_true_iff in Hh as [Hd Hn].
    apply Z.eqb_eq in Hd, Hn. f_equal. apply (bi_uniq _ _ _ _ _ H j i n); [|done].
    split; [by apply (lru_elem _ _ _ HL)|done].
  - destruct Hc as (Hi & Hd & Hn). apply (find_none_elem _ _ i) in E; [|by apply (lru_elem _ _ _ HL)].
    unfold caches in E. rewrite Hd, Hn, !Z.eqb_refl in E. done.
Qed.
Lemma uncached_find s order n :
  lru (k_bufs s) order → (∀ i, ¬ cached s i n) →
  List.find (caches ROOTDEV n s) order = None.
Proof.
  intros HL Hc. destruct (List.find (caches ROOTDEV n s) order) as [j|] eqn:E; [|done].
  exfalso. apply elem_of_find in E as [Hj Hh]. unfold caches in Hh.
  apply andb_true_iff in Hh as [Hd Hn]. apply Z.eqb_eq in Hd, Hn.
  apply (Hc j). split; [by apply (lru_elem _ _ _ HL)|done].
Qed.

(** Only the buffers differ. *)
Definition bufs_only (s s' : kst) : Prop := s' = set_k_bufs (k_bufs s') s.

Lemma running_upd_buf p i f s : running p s → running p (upd_buf i f s).
Proof. by intros [H1 H2 H3 H4]. Qed.
Lemma buf_of_upd_eq i f s :
  (i < length (k_bufs s))%nat → buf_of (upd_buf i f s) i = f (buf_of s i).
Proof. intros. rewrite buf_of_upd by done. by rewrite decide_True. Qed.
Lemma buf_of_upd_ne i j f s : i ≠ j → buf_of (upd_buf i f s) j = buf_of s j.
Proof. intros. unfold buf_of, upd_buf. simpl. by rewrite list_lookup_alter_ne. Qed.

Lemma bread_hit p s held pins V n b :
  bcache_inv p s held pins V → cached s b n → b ∉ held →
  ∃ s', bread ROOTDEV n s = Ok b s' ∧ bcache_inv p s' ({[b]} ∪ held) pins V ∧
    cached s' b n ∧ bufs_only s s' ∧ (∀ i, i ≠ b → buf_of s' i = buf_of s i).
Proof.
  intros H Hc Hni. destruct (bi_lru _ _ _ _ _ H) as [order HL].
  pose proof Hc as (Hb & Hd & Hn). pose proof (bi_ent _ _ _ _ _ H b Hb) as [E1 E2 E3 E4 E5 E6 E7].
  assert (b < length (k_bufs s))%nat as Hlen by (rewrite (bi_len _ _ _ _ _ H); lia).
  set (f := set_b_lock (my_lock p s) ∘ incr_ref).
  assert (buf_of (upd_buf b f s) b = f (buf_of s b)) as Hf by (by apply buf_of_upd_eq).
  exists (upd_buf b f s). split; [|split; [|split; [|split; [done|]]]].
  - unfold bread. erewrite bind_Ok.
    2:{ apply (bget_hit _ _ p _ order); [apply H|done|by eapply cached_find|by apply E4]. }
    mstep. fold f. rewrite Hf. destruct E1 as [[_ Hv]|[Hx _]]; [|rewrite Hd in Hx; done].
    change (b_valid (f (buf_of s b))) with (b_valid (buf_of s b)). rewrite Hv. done.
  - apply (bcache_change p s _ held _ pins _ V _ b H); try done.
    + by apply running_upd_buf, H.
    + exists order. by apply lru_upd.
    + intros i Hi Hne. by rewrite buf_of_upd_ne.
    + set_solver.
    + rewrite Hf. split; simpl; try done.
      * intros Hx. by destruct Hx; apply elem_of_union_l, elem_of_singleton.
      * rewrite E5. rewrite (decide_False (P := b ∈ held)) by done.
        rewrite (decide_True (P := b ∈ {[b]} ∪ held)) by set_solver.
        repeat case_decide; reflexivity.
      * set_solver.
    + intros i m Hne Hci (_ & _ & Hm). rewrite Hf in Hm. simpl in Hm.
      apply Hne, (bi_uniq _ _ _ _ _ H i b m Hci). by split.
    + intros m Hm. destruct (bi_pins _ _ _ _ _ H m Hm) as [i Hci]. exists i.
      destruct (decide (i = b)) as [->|].
      * destruct Hci as (? & ? & ?). split; [done|]. by rewrite Hf.
      * unfold cached. by rewrite buf_of_upd_ne by done.
    + intros m Hm. apply (bi_disk _ _ _ _ _ H). intros i Hci. apply (Hm i).
      destruct (decide (i = b)) as [->|].
      * destruct Hci as (? & ? & ?). split; [done|]. by rewrite Hf.
      * unfold cached. by rewrite buf_of_upd_ne by done.
    + apply (bi_blocks _ _ _ _ _ H).
  - split; [done|]. rewrite Hf. done.
  - intros i Hi. by apply buf_of_upd_ne.
Qed.

Lemma disk_read b s :
  disk_rw b false s =
  Ok () (upd_buf b (set_b_data (disk_block (k_disk s) (b_blockno (buf_of s b)))) s).
Proof. done. Qed.

Lemma bread_miss p s held pins V n :
  bcache_inv p s held pins V → (∀ i, ¬ cached s i n) → (size held + size pins < NBUF)%nat →
  ∃ b s', bread ROOTDEV n s = Ok b s' ∧ bcache_inv p s' ({[b]} ∪ held) pins V ∧
    cached s' b n ∧ b ∉ held ∧ bufs_only s s' ∧ (∀ i, i ≠ b → buf_of s' i = buf_of s i).
Proof.
  intros H Hc Hsz. destruct (bi_lru _ _ _ _ _ H) as [order HL].
  destruct (find_unused_exists _ _ _ _ _ _ H HL Hsz) as (b & Hfind & Hb & Hni & Hnp).
  pose proof (bi_ent _ _ _ _ _ H b Hb) as [E1 E2 E3 E4 E5 E6 E7].
  assert (b < length (k_bufs s))%nat as Hlen by (rewrite (bi_len _ _ _ _ _ H); lia).
  set (f := set_b_lock (my_lock p s) ∘ recycle ROOTDEV n).
  set (g := set_b_valid true ∘ set_b_data (disk_block (k_disk s) n) ∘ f).
  assert (buf_of (upd_buf b g s) b = g (buf_of s b)) as Hg by (by apply buf_of_upd_eq).
  exists b, (upd_buf b g s). split; [|split; [|split; [|split; [done|split; [done|]]]]].
  - unfold bread. erewrite bind_Ok.
    2:{ apply (bget_miss _ _ p _ order); [apply H|done|by apply uncached_find|done|by apply E4]. }
    mstep. fold f. rewrite buf_of_upd_eq by done. simpl b_valid. cbn [negb when].
    erewrite bind_Ok by (erewrite bind_Ok by apply disk_read; reflexivity).
    rewrite buf_of_upd_eq, !upd_buf_compose by done. done.
  - assert (∀ i m, i ≠ b → cached (upd_buf b g s) i m ↔ cached s i m) as Hci.
    { intros i m Hne. unfold cached. by rewrite buf_of_upd_ne by done. }
    apply (bcache_change p s _ held _ pins _ V _ b H); try done.
    + by apply running_upd_buf, H.
    + exists order. by apply lru_upd.
    + intros i Hi Hne. by rewrite buf_of_upd_ne.
    + set_solver.
    + rewrite Hg. split; simpl; try done.
      * by left.
      * intros _. by apply (bi_disk _ _ _ _ _ H).
      * intros Hx. by destruct Hx; apply elem_of_union_l, elem_of_singleton.
      * rewrite (decide_True (P := b ∈ {[b]} ∪ held)) by set_solver.
        rewrite decide_False; [done|]. intros [_ Hp].
        destruct (bi_pins _ _ _ _ _ H n Hp) as [i Hi]. by apply (Hc i).
      * apply (bi_blocks _ _ _ _ _ H).
    + intros i m Hne Hi (_ & _ & Hm). rewrite Hg in Hm. simpl in Hm. subst m. by apply (Hc i).
    + intros m Hm. destruct (bi_pins _ _ _ _ _ H m Hm) as [i Hi]. exists i.
      destruct (decide (i = b)) as [->|]; [|by apply Hci].
      destruct Hi as (_ & Hd & <-). tauto.
    + intros m Hm. destruct (cached_dec s m) as [[i Hi]|Hno]; [|by apply (bi_disk _ _ _ _ _ H)].
      destruct (decide (i = b)) as [->|]; [|by destruct (Hm i); apply Hci].
      destruct Hi as (_ & Hd & <-). rewrite E2 by done. apply E6; [done|done|]. tauto.
    + apply (bi_blocks _ _ _ _ _ H).
  - split; [done|]. rewrite Hg. done.
  - intros i Hi. by apply buf_of_upd_ne.
Qed.

Lemma bread_Ok p s held pins V n :
  bcache_inv p s held pins V → (∀ i, i ∈ held → ¬ cached s i n) →
  (size held + size pins < NBUF)%nat →
  ∃ b s', bread ROOTDEV n s = Ok b s' ∧ bcache_inv p s' ({[b]} ∪ held) pins V ∧
    cached s' b n ∧ b ∉ held ∧ bufs_only s s' ∧ (∀ i, i ≠ b → buf_of s' i = buf_of s i).
Proof.
  intros H Hh Hsz. destruct (cached_dec s n) as [[b Hc]|Hc]; [|by eapply bread_miss].
  assert (b ∉ held) as Hni by (intros Hx; by apply (Hh b)).
  destruct (bread_hit _ _ _ _ _ _ _ H Hc Hni) as (s' & E & H1 & H2 & H3 & H4).
  exists b, s'. done.
Qed.

(** ** Operations on a held buffer *)

(** [bpin] and [bunpin]. *)
Lemma bpin_Ok b s : LK_bcache ∉ k_held s → bpin b s = Ok () (upd_buf b incr_ref s).
Proof.
  intros Hn. unfold bpin. rewrite bind_acquire by done. msteps.
  rewrite (release_top _ (k_held s)) by done. f_equal; by kst_eq.
Qed.
Lemma bunpin_Ok b s : LK_bcache ∉ k_held s → bunpin b s = Ok () (upd_buf b decr_ref s).
Proof.
  intros Hn. unfold bunpin. rewrite bind_acquire by done. msteps.
  rewrite (release_top _ (k_held s)) by done. f_equal; by kst_eq.
Qed.

Section held.
Context (p : nat) (s : kst) (held : gset nat) (pins : gset Z) (V : Z → list Z) (b : nat) (n : Z).
Context (H : bcache_inv p s held pins V) (Hh : b ∈ held) (Hc : cached s b n).

Lemma held_len : (b < length (k_bufs s))%nat.
Proof using All. rewrite (bi_len _ _ _ _ _ H). destruct Hc. lia. Qed.
Lemma held_lock : b_lock (buf_of s b) = my_lock p s.
Proof using All.
  destruct Hc as [Hb _]. apply (be_held _ _ _ _ _ _ _ (bi_ent _ _ _ _ _ H b Hb)). done.
Qed.
Lemma held_view : V n = b_data (buf_of s b).
Proof using All. by apply (bi_view _ _ _ _ _ _ _ H). Qed.

(** An update that keeps the identity of the buffer. *)
Lemma cached_upd f i m :
  (∀ x, b_dev (f x) = b_dev x ∧ b_blockno (f x) = b_blockno x) →
  cached (upd_buf b f s) i m ↔ cached s i m.
Proof using All.
  intros Hf. unfold cached. destruct (decide (i = b)) as [->|].
  - rewrite buf_of_upd_eq by apply held_len. destruct (Hf (buf_of s b)) as [-> ->]. done.
  - by rewrite buf_of_upd_ne by done.
Qed.
Lemma held_other i m : i ≠ b → cached s i m → m ≠ n.
Proof using All.
  intros Hne Hi ->. apply Hne. by apply (bi_uniq _ _ _ _ _ H i b n).
Qed.

(** [b->data] changes. *)
Lemma held_set_data d :
  length d = Z.to_nat BSIZE →
  bcache_inv p (upd_buf b (set_b_data d) s) held pins (supd V n d).
Proof using All.
  intros Hd. pose proof Hc as (Hb & Hdev & Hn).
  pose proof (bi_ent _ _ _ _ _ H b Hb) as [E1 E2 E3 E4 E5 E6 E7].
  apply (bcache_change p s _ held _ pins _ V _ b H); try done.
  - by apply running_upd_buf, H.
  - destruct (bi_lru _ _ _ _ _ H) as [order HL]. exists order. by apply lru_upd.
  - intros i Hi Hne. by rewrite buf_of_upd_ne.
  - intros i m Hne Hi. split; [done|]. split; [|done]. unfold supd.
    rewrite decide_False; [done|]. by apply (held_other i).
  - rewrite buf_of_upd_eq by apply held_len. split; simpl; try done.
    intros _. unfold supd. by rewrite decide_True.
  - intros i m Hne Hi Hm. apply cached_upd in Hm; [|done].
    by apply Hne, (bi_uniq _ _ _ _ _ H i b m).
  - intros m Hm. destruct (bi_pins _ _ _ _ _ H m Hm) as [i Hi]. exists i. by apply cached_upd.
  - intros m Hm. unfold supd. destruct (decide (m = n)) as [->|].
    + destruct (Hm b). by apply cached_upd.
    + apply (bi_disk _ _ _ _ _ H). intros i Hi. apply (Hm i). by apply cached_upd.
  - apply (bi_blocks _ _ _ _ _ H).
Qed.

Lemma holding_held : holdingsleep (SL_buf b) s = Ok true s.
Proof using All.
  rewrite (holdingsleep_Ok (SL_buf b) [] p s) by (apply running_in_nil, H).
  simpl. rewrite held_lock. simpl. by rewrite Z.eqb_refl.
Qed.

Definition written : kst :=
  set_k_hist (k_hist s ++ [(n, b_data (buf_of s b))])
    (set_k_disk (<[n := b_data (buf_of s b)]> (k_disk s)) s).

Lemma bwrite_Ok : bwrite b s = Ok () written.
Proof using All.
  unfold bwrite. erewrite bind_Ok by apply holding_held. cbn [negb]. unfold disk_rw. msteps.
  destruct Hc as (_ & _ & ->). done.
Qed.
Lemma disk_block_insert D m k d :
  disk_block (<[m := d]> D) k = if decide (k = m) then d else disk_block D k.
Proof using.
  unfold disk_block. case_decide.
  - subst. by rewrite lookup_insert_eq.
  - by rewrite lookup_insert_ne.
Qed.
Lemma bwrite_inv : bcache_inv p written held pins V.
Proof using All.
  pose proof Hc as (Hb & Hdev & Hn).
  pose proof (bi_ent _ _ _ _ _ H b Hb) as [E1 E2 E3 E4 E5 E6 E7].
  apply (bcache_change p s _ held _ pins _ V _ b H); try done.
  - destruct (bi_run _ _ _ _ _ H). by split.
  - apply (bi_lru _ _ _ _ _ H).
  - intros i m Hne Hi. split; [done|]. split; [done|]. simpl. rewrite disk_block_insert.
    rewrite decide_False; [done|]. by apply (held_other i).
  - intros i m Hne Hi Hm. by apply Hne, (bi_uniq _ _ _ _ _ H i b m).
  - apply (bi_pins _ _ _ _ _ H).
  - intros m Hm. simpl. rewrite disk_block_insert. destruct (decide (m = n)) as [->|].
    + by destruct (Hm b).
    + by apply (bi_disk _ _ _ _ _ H).
  - intros m. simpl. rewrite disk_block_insert. destruct (decide (m = n)); [exact E7|apply (bi_blocks _ _ _ _ _ H)].
Qed.

(** Changing the pins of block [n], and the count with them. *)
Lemma held_set_pins pins' v :
  (∀ m, m ≠ n → m ∈ pins' ↔ m ∈ pins) →
  v = 1 + (if decide (n ∈ pins') then 1 else 0) →
  bcache_inv p (upd_buf b (set_b_refcnt v) s) held pins' V.
Proof using All.
  intros Hpins Hv. pose proof Hc as (Hb & Hdev & Hn).
  pose proof (bi_ent _ _ _ _ _ H b Hb) as [E1 E2 E3 E4 E5 E6 E7].
  apply (bcache_change p s _ held _ pins _ V _ b H); try done.
  - by apply running_upd_buf, H.
  - destruct (bi_lru _ _ _ _ _ H) as [order HL]. exists order. by apply lru_upd.
  - intros i Hi Hne. by rewrite buf_of_upd_ne.
  - intros i m Hne Hi. split; [|done]. apply Hpins. by apply (held_other i).
  - rewrite buf_of_upd_eq by apply held_len. split; simpl; try done.
    rewrite (decide_True (P := b ∈ held)) by done. rewrite Hv. f_equal.
    apply decide_ext. rewrite Hn. tauto.
  - intros i m Hne Hi Hm. apply cached_upd in Hm; [|done].
    by apply Hne, (bi_uniq _ _ _ _ _ H i b m).
  - intros m Hm. destruct (decide (m = n)) as [->|Hne].
    + exists b. by apply cached_upd.
    + apply Hpins in Hm; [|done]. destruct (bi_pins _ _ _ _ _ H m Hm) as [i Hi]. exists i.
      by apply cached_upd.
  - intros m Hm. apply (bi_disk _ _ _ _ _ H). intros i Hi. apply (Hm i). by apply cached_upd.
  - apply (bi_blocks _ _ _ _ _ H).
Qed.
Lemma held_ref :
  b_refcnt (buf_of s b) = 1 + (if decide (n ∈ pins) then 1 else 0).
Proof using All.
  pose proof Hc as (Hb & Hdev & Hn).
  rewrite (be_ref _ _ _ _ _ _ _ (bi_ent _ _ _ _ _ H b Hb)).
  rewrite (decide_True (P := b ∈ held)) by done. f_equal. apply decide_ext. rewrite Hn. tauto.
Qed.
Lemma upd_buf_const f v :
  f (buf_of s b) = set_b_refcnt v (buf_of s b) → upd_buf b f s = upd_buf b (set_b_refcnt v) s.
Proof using All.
  intros E. unfold upd_buf. f_equal.
  destruct (lookup_lt_is_Some_2 _ _ held_len) as [x Hx].
  eapply alter_ext_lookup; [done|]. unfold buf_of in E. by rewrite Hx in E.
Qed.
Lemma bpin_inv :
  n ∉ pins → bcache_inv p (upd_buf b incr_ref s) held ({[n]} ∪ pins) V.
Proof using All.
  intros Hn. rewrite (upd_buf_const _ 2).
  - apply held_set_pins; [set_solver|]. by rewrite decide_True by set_solver.
  - unfold incr_ref. rewrite held_ref. by rewrite decide_False.
Qed.
Lemma bunpin_inv :
  n ∈ pins → bcache_inv p (upd_buf b decr_ref s) held (pins ∖ {[n]}) V.
Proof using All.
  intros Hn. rewrite (upd_buf_const _ 1).
  - apply held_set_pins; [set_solver|]. by rewrite decide_False by set_solver.
  - unfold decr_ref. rewrite held_ref. by rewrite decide_True.
Qed.
End held.

(** ** brelse *)

(** Other processes may have been woken. *)
Definition procs_rel (s s' : kst) : Prop :=
  length (k_procs s') = length (k_procs s) ∧
  ∀ i, proc_of s' i = proc_of s i ∨
    (k_cur s ≠ Some i ∧ p_state (proc_of s i) = SLEEPING ∧
     proc_of s' i = set_p_state RUNNABLE (proc_of s i)).

(** Only the cache, the disk, the log and the states of sleepers may differ. *)
Record io_frame (s s' : kst) : Prop := {
  io_eq : s' = set_k_procs (k_procs s') (set_k_bufs (k_bufs s') (set_k_disk (k_disk s')
    (set_k_hist (k_hist s') (set_k_log (k_log s') s))));
  io_procs : procs_rel s s';
}.

Lemma procs_rel_refl s : procs_rel s s.
Proof. split; [done|]. by left. Qed.
Lemma io_frame_refl s : io_frame s s.
Proof. split; [by destruct s|apply procs_rel_refl]. Qed.
Lemma io_frame_cur s s' : io_frame s s' → k_cur s' = k_cur s.
Proof. intros [E _]. by rewrite E. Qed.
Lemma io_frame_trans s1 s2 s3 : io_frame s1 s2 → io_frame s2 s3 → io_frame s1 s3.
Proof.
  intros H1 H2. pose proof (io_frame_cur _ _ H1) as Hc.
  destruct H1 as [E1 [L1 P1]], H2 as [E2 [L2 P2]]. split; [rewrite E2, E1; done|].
  split; [congruence|]. intros i. destruct (P2 i) as [->|(C2 & S2 & E)]; [apply P1|].
  rewrite Hc in C2. rewrite E. destruct (P1 i) as [E'|(C1 & S1 & E')]; rewrite E' in S2 |- *.
  - by right.
  - done.
Qed.
Lemma bufs_only_frame s s' : bufs_only s s' → io_frame s s'.
Proof.
  intros E. split; [rewrite E; by destruct s|]. rewrite E. split; [done|]. by left.
Qed.

Lemma woken_rel ch s : procs_rel s (woken ch s).
Proof.
  split; [apply length_imap|]. intros i. unfold proc_of, woken. simpl.
  rewrite list_lookup_imap. destruct (k_procs s !! i) as [q|]; [|by left]. simpl.
  unfold wake_proc. case_decide as Hd; [right|by left]. tauto.
Qed.
Lemma io_frame_proc s s' p : io_frame s s' → k_cur s = Some p → proc_of s' p = proc_of s p.
Proof. intros [_ [_ P]] Hc. destruct (P p) as [?|(? & _)]; done. Qed.
Lemma io_frame_running s s' p : io_frame s s' → running p s → running p s'.
Proof.
  intros Hf [H1 H2 H3 H4]. pose proof Hf as [E [L _]].
  split; [by rewrite (io_frame_cur _ _ Hf)|by rewrite E|congruence|done].
Qed.

(** What [brelse] does to the buffer itself. *)
Definition released : buf → buf := decr_ref ∘ set_b_lock (Sleeplock false 0).

Lemma brelse_inv p s s' held pins V b n :
  bcache_inv p s held pins V → b ∈ held → cached s b n →
  n ∈ pins ∨ V n = disk_block (k_disk s) n →
  io_frame s s' → k_disk s' = k_disk s → (∃ order, lru (k_bufs s') order) →
  (∀ i, i ≠ b → same_buf (buf_of s i) (buf_of s' i)) →
  same_buf (released (buf_of s b)) (buf_of s' b) →
  bcache_inv p s' (held ∖ {[b]}) pins V ∧ (∀ i m, cached s' i m ↔ cached s i m).
Proof.
  intros H Hb Hc Hcl Hf Hd HL Hoth Hsb. pose proof Hc as (Hlt & Hdev & Hn).
  pose proof (held_ref _ _ _ _ _ _ _ H Hb Hc) as Href.
  pose proof (bi_ent _ _ _ _ _ H b Hlt) as [E1 E2 E3 E4 E5 E6 E7].
  assert (∀ i m, cached s' i m ↔ cached s i m) as Hci.
  { intros i m. unfold cached. destruct (decide (i = b)) as [->|Hne].
    - destruct Hsb as (_ & _ & -> & -> & _). done.
    - destruct (Hoth i Hne) as (_ & _ & -> & -> & _). done. }
  split; [|done].
  apply (bcache_change p s _ held _ pins _ V _ b H); try done.
  - eapply io_frame_running; [done|apply H].
  - f_equal. apply (io_frame_proc _ _ _ Hf). apply H.
  - intros i Hi Hne. by apply Hoth.
  - set_solver.
  - intros i m Hne Hi. by rewrite Hd.
  - eapply bent_same; [exact Hsb|]. rewrite Hd. split; simpl; try done.
    + set_solver.
    + rewrite (decide_False (P := b ∈ held ∖ {[b]})) by set_solver. rewrite Href.
      rewrite (decide_ext (b_dev (buf_of s b) = ROOTDEV ∧ b_blockno (buf_of s b) ∈ pins) (n ∈ pins))
        by (rewrite Hn; tauto).
      destruct (decide (n ∈ pins)); reflexivity.
    + intros _ _ Hnp. rewrite Hn in *. rewrite <- E2 by done. by destruct Hcl.
  - intros i m Hne Hi Hm. apply Hci in Hm. by apply Hne, (bi_uniq _ _ _ _ _ H i b m).
  - intros m Hm. destruct (bi_pins _ _ _ _ _ H m Hm) as [i Hi]. exists i. by apply Hci.
  - intros m Hm. rewrite Hd. apply (bi_disk _ _ _ _ _ H). intros i Hi. apply (Hm i). by apply Hci.
  - rewrite Hd. apply (bi_blocks _ _ _ _ _ H).
Qed.

Lemma brelse_Ok p s held pins V b n :
  bcache_inv p s held pins V → b ∈ held → cached s b n →
  n ∈ pins ∨ V n = disk_block (k_disk s) n →
  ∃ s', brelse b s = Ok () s' ∧ bcache_inv p s' (held ∖ {[b]}) pins V ∧ io_frame s s' ∧
    k_disk s' = k_disk s ∧ k_hist s' = k_hist s ∧ k_log s' = k_log s ∧
    (∀ i, i ≠ b → same_buf (buf_of s i) (buf_of s' i)) ∧ (∀ i m, cached s' i m ↔ cached s i m).
Proof.
  intros H Hb Hc Hcl. pose proof (bi_run _ _ _ _ _ H) as Hr. pose proof Hr as [R1 R2 R3 R4].
  pose proof (held_len _ _ _ _ _ _ _ H Hb Hc) as Hlen.
  pose proof Hc as (Hlt & _ & _).
  destruct (bi_lru _ _ _ _ _ H) as [order HL].
  unfold brelse. erewrite bind_Ok by (eapply holding_held; done). cbn [negb].
  erewrite bind_Ok by (apply (releasesleep_Ok (SL_buf b) [] p); by apply running_in_nil).
  set (s1 := woken (Some (Ch_sl (SL_buf b))) (upd_buf b released s)).
  assert (io_frame s s1) as Hf1.
  { split; [by destruct s|apply (woken_rel _ (upd_buf b released s))]. }
  rewrite bind_acquire by (simpl; rewrite R2; set_solver). msteps.
  set (s2 := upd_buf b _ _).
  assert (s2 = set_k_held [LK_bcache] s1) as E2.
  { unfold s2, s1, released. rewrite <- upd_buf_compose. unfold woken. kst_unfold. simpl.
    rewrite R2. done. }
  rewrite E2. clear E2 s2.
  assert (buf_of s1 b = released (buf_of s b)) as Hfb.
  { change (buf_of s1 b) with (buf_of (upd_buf b released s) b). by apply buf_of_upd_eq. }
  assert (∀ i, i ≠ b → buf_of s1 i = buf_of s i) as Hoth.
  { intros i Hi. change (buf_of s1 i) with (buf_of (upd_buf b released s) i). by apply buf_of_upd_ne. }
  assert (lru (k_bufs s1) order) as HL1 by (by apply (lru_upd b released s order)).
  destruct (_ =? 0); cbn [when].
  - assert (b ∈ order) as Hbo by (by apply (lru_elem _ _ _ HL)).
    apply list_elem_of_split in Hbo as (l1 & l2 & ->).
    destruct (move_front_Ok b l1 l2 (set_k_held [LK_bcache] s1) HL1) as (s3 & E3 & HL3 & Hs3).
    erewrite bind_Ok by exact E3. destruct Hs3 as (Eq3 & Len3 & Sb3).
    rewrite (release_top _ []) by (by rewrite Eq3).
    set (s' := set_k_held [] s3). exists s'.
    assert (s' = set_k_bufs (k_bufs s3) s1) as Es'.
    { unfold s'. rewrite Eq3. kst_unfold. simpl. by rewrite R2. }
    assert (io_frame s s') as Hf.
    { eapply io_frame_trans; [exact Hf1|]. apply bufs_only_frame. by rewrite Es'. }
    assert (∀ i, i ≠ b → same_buf (buf_of s i) (buf_of s' i)) as Hsb.
    { intros i Hi. specialize (Sb3 i). change (buf_of s' i) with (buf_of s3 i).
      rewrite <- (Hoth i Hi). exact Sb3. }
    assert (k_disk s' = k_disk s ∧ k_hist s' = k_hist s ∧ k_log s' = k_log s) as (D1 & D2 & D3)
      by (by rewrite Es').
    destruct (brelse_inv p s s' held pins V b n) as [HI Hci]; try done.
    + by exists (b :: l1 ++ l2).
    + specialize (Sb3 b). change (buf_of s' b) with (buf_of s3 b). rewrite <- Hfb. exact Sb3.
  - msteps. rewrite (release_top _ []) by done. exists (set_k_held [] (set_k_held [LK_bcache] s1)).
    rewrite set_k_held_twice, set_k_held_id by (by simpl).
    assert (∀ i, i ≠ b → same_buf (buf_of s i) (buf_of s1 i)) as Hsb.
    { intros i Hi. by rewrite (Hoth i Hi). }
    destruct (brelse_inv p s s1 held pins V b n) as [HI Hci]; try done.
    + by exists order.
    + by rewrite Hfb.
Qed.

(** The set of the one buffer a thread holds. *)
Lemma held_one (b : nat) : b ∈ ({[b]} ∪ ∅ : gset nat).
Proof. set_solver. Qed.
Lemma held_none (b : nat) : ({[b]} ∪ ∅) ∖ {[b]} = (∅ : gset nat).
Proof. set_solver. Qed.
Lemma held_back (b : nat) (held : gset nat) : b ∉ held → ({[b]} ∪ held) ∖ {[b]} = held.
Proof. set_solver. Qed.

(** ** The cache after boot *)

Lemma boot_buf s i : k_bufs s = boot_bufs → (i < NBUF)%nat →
  b_dev (buf_of s i) = 0 ∧ b_valid (buf_of s i) = false ∧ b_lock (buf_of s i) = sleeplock0 ∧
  b_refcnt (buf_of s i) = 0 ∧ b_data (buf_of s i) = zero_block.
Proof.
  intros E Hi. unfold buf_of. rewrite E. unfold boot_bufs.
  rewrite list_lookup_fmap, lookup_seq_lt by lia. done.
Qed.
Lemma boot_cache_inv p s :
  running p s → k_bufs s = boot_bufs →
  (∀ n, length (disk_block (k_disk s) n) = Z.to_nat BSIZE) →
  bcache_inv p s ∅ ∅ (disk_block (k_disk s)).
Proof.
  intros Hr Hb Hd. assert (∀ i n, ¬ cached s i n) as Hc.
  { intros i n (Hi & Hdev & _). destruct (boot_buf s i Hb Hi) as [E _]. by rewrite E in Hdev. }
  split; try done.
  - exists (rev (seq 0 NBUF)). rewrite Hb. apply boot_lru.
  - intros i Hi. destruct (boot_buf s i Hb Hi) as (E1 & E2 & E3 & E4 & E5).
    split; rewrite ?E1, ?E2, ?E3, ?E4, ?E5; try done. by right.
  - intros i j n Hx. by destruct (Hc i n).
Qed.
