(* ===== verification/Block.v ===== *)
(** * Fields inside a block

    The kernel reads and writes C structures inside the 1024 bytes of a
    buffer: little-endian integers at fixed offsets. *)

From stdpp Require Import options.
From S2P Require Import Prelude.
#[local] Open Scope Z_scope.

(** [d] with the bytes from [off] on replaced by [bs]. *)
Definition splice (d : list Z) (off : nat) (bs : list Z) : list Z :=
  take off d ++ bs ++ drop (off + length bs) d.
Definition slice (d : list Z) (off n : nat) : list Z := take n (drop off d).

Definition get8 (d : list Z) (off : nat) : Z := le_val (slice d off 1).
Definition get16 (d : list Z) (off : nat) : Z := le_val (slice d off 2).
Definition get32 (d : list Z) (off : nat) : Z := le_val (slice d off 4).
Definition put8 (d : list Z) (off : nat) (v : Z) : list Z := splice d off (le_bytes 1 v).
Definition put16 (d : list Z) (off : nat) (v : Z) : list Z := splice d off (le_bytes 2 v).
Definition put32 (d : list Z) (off : nat) (v : Z) : list Z := splice d off (le_bytes 4 v).

Lemma length_splice d off bs :
  (off + length bs ≤ length d)%nat → length (splice d off bs) = length d.
Proof.
  intros H. unfold splice. rewrite !length_app, length_take, length_drop. lia.
Qed.

Lemma lookup_splice d off bs i :
  (off + length bs ≤ length d)%nat →
  splice d off bs !! i =
    if decide (off ≤ i < off + length bs)%nat then bs !! (i - off)%nat else d !! i.
Proof.
  intros H. unfold splice. case_decide as Hi.
  - rewrite lookup_app_r by (rewrite length_take; lia). rewrite length_take.
    rewrite lookup_app_l by lia. f_equal. lia.
  - destruct (decide (i < off)%nat).
    + rewrite lookup_app_l by (rewrite length_take; lia). by rewrite lookup_take_lt.
    + rewrite lookup_app_r by (rewrite length_take; lia). rewrite length_take.
      rewrite lookup_app_r by lia. rewrite lookup_drop. f_equal. lia.
Qed.

Lemma slice_ext d d' off n :
  length d = length d' → (∀ i, (off ≤ i < off + n)%nat → d !! i = d' !! i) →
  slice d off n = slice d' off n.
Proof.
  intros Hl H. unfold slice. apply list_eq. intros i.
  destruct (decide (i < n)%nat).
  - rewrite !lookup_take_lt, !lookup_drop by done. apply H. lia.
  - rewrite !lookup_take_ge by lia. done.
Qed.
Lemma slice_splice_eq d off bs :
  (off + length bs ≤ length d)%nat → slice (splice d off bs) off (length bs) = bs.
Proof.
  intros H. unfold slice, splice. rewrite drop_app_length' by (rewrite length_take; lia).
  by rewrite take_app_length.
Qed.
Lemma slice_splice_ne d off bs off' n :
  (off + length bs ≤ length d)%nat → (off' + n ≤ off ∨ off + length bs ≤ off')%nat →
  slice (splice d off bs) off' n = slice d off' n.
Proof.
  intros H Hne. apply slice_ext; [by apply length_splice|].
  intros i Hi. rewrite lookup_splice by done. rewrite decide_False; [done|lia].
Qed.

Lemma length_put32 d off v : (off + 4 ≤ length d)%nat → length (put32 d off v) = length d.
Proof. intros. apply length_splice. by rewrite length_le_bytes. Qed.
Lemma get32_put32 d off v :
  (off + 4 ≤ length d)%nat → get32 (put32 d off v) off = u32 v.
Proof.
  intros H. unfold get32, put32.
  pose proof (slice_splice_eq d off (le_bytes 4 v)) as E. rewrite length_le_bytes in E.
  rewrite E by done. apply le_val_bytes.
Qed.
Lemma get32_put32_ne d off v off' :
  (off + 4 ≤ length d)%nat → (off' + 4 ≤ off ∨ off + 4 ≤ off')%nat →
  get32 (put32 d off v) off' = get32 d off'.
Proof.
  intros H Hne. unfold get32, put32. f_equal. apply slice_splice_ne; by rewrite length_le_bytes.
Qed.
