(* ===== verification/Log.v ===== *)
(** * The log: operations

    [kernel/log.c].  The in-memory header is [lh_n] and [lh_block] of
    [k_log]; the header block on disk holds [n] in its first four bytes and
    [block[i]] at byte [4 + 4*i]. *)

From stdpp Require Import options.
From S2P Require Import Prelude CString State Sched Sleeplock Bio Block.
#[local] Open Scope Z_scope.

Definition upd_log (f : log → log) (s : kst) : kst := set_k_log (f (k_log s)) s.
(** [log.lh.block[i]] *)
Definition lh_blk (s : kst) (i : Z) : Z := default 0 (lh_block (k_log s) !! Z.to_nat i).
Definition set_lh_blk (i v : Z) (l : log) : log :=
  set_lh_block (<[Z.to_nat i := v]> (lh_block l)) l.
(** Offset of [block[i]] in the header block. *)
Definition hb_off (i : Z) : nat := Z.to_nat (4 + 4 * i).
Definition data_of (s : kst) (b : nat) : list Z := b_data (buf_of s b).
Definition set_data (b : nat) (f : list Z → list Z) : K unit :=
  modify (upd_buf b (λ x, set_b_data (f (b_data x)) x)).

(** The body of the loop of [install_trans]. *)
Definition install_one (recovering : bool) (tail : Z) : K unit :=
  dev ← gets (λ s, lg_dev (k_log s));
  start ← gets (λ s, lg_start (k_log s));
  lbuf ← bread dev (start + tail + 1);
  blk ← gets (λ s, lh_blk s tail);
  dbuf ← bread dev blk;
  data ← gets (λ s, data_of s lbuf);
  set_data dbuf (λ _, data);;
  bwrite dbuf;;
  when (negb recovering) (bunpin dbuf);;
  brelse lbuf;;
  brelse dbuf.
Definition install_trans (recovering : bool) : K unit :=
  n ← gets (λ s, lh_n (k_log s));
  mfor (Z.to_nat n) 0 (install_one recovering).

Definition read_head : K unit :=
  dev ← gets (λ s, lg_dev (k_log s));
  start ← gets (λ s, lg_start (k_log s));
  buf ← bread dev start;
  n ← gets (λ s, i32 (get32 (data_of s buf) 0));
  modify (upd_log (set_lh_n n));;
  mfor (Z.to_nat n) 0 (λ i,
    v ← gets (λ s, i32 (get32 (data_of s buf) (hb_off i)));
    modify (upd_log (set_lh_blk i v)));;
  brelse buf.

Definition write_head : K unit :=
  dev ← gets (λ s, lg_dev (k_log s));
  start ← gets (λ s, lg_start (k_log s));
  buf ← bread dev start;
  n ← gets (λ s, lh_n (k_log s));
  set_data buf (λ d, put32 d 0 n);;
  mfor (Z.to_nat n) 0 (λ i,
    v ← gets (λ s, lh_blk s i);
    set_data buf (λ d, put32 d (hb_off i) v));;
  bwrite buf;;
  brelse buf.

Definition recover_from_log : K unit :=
  read_head;;
  install_trans true;;
  modify (upd_log (set_lh_n 0));;
  write_head.

(** [sizeof(struct logheader)] *)
Definition sizeof_logheader : Z := 4 + 4 * LOGSIZE.
Definition initlog (dev : Z) (sb : superblock) : K unit :=
  if BSIZE <=? sizeof_logheader then panic "initlog: too big logheader" else
  modify (upd_log (set_lg_start (i32 (sb_logstart sb))));;
  modify (upd_log (set_lg_size (i32 (sb_nlog sb))));;
  modify (upd_log (set_lg_dev dev));;
  recover_from_log.

(** The body of the loop of [begin_op]. *)
Definition begin_op_try (_ : unit) : K (unit + unit) :=
  lg ← gets k_log;
  if negb (lg_committing lg =? 0) then sleep Ch_log LK_log;; mret (inl ())
  else if LOGSIZE <? lh_n lg + (lg_outstanding lg + 1) * MAXOPBLOCKS then
    sleep Ch_log LK_log;; mret (inl ())
  else
    modify (upd_log (λ l, set_lg_outstanding (lg_outstanding l + 1) l));;
    release LK_log;;
    mret (inr ()).
Definition begin_op : K unit :=
  acquire LK_log;;
  mloop WAKEUPS begin_op_try ().

(** The body of the loop of [write_log]. *)
Definition write_log_one (tail : Z) : K unit :=
  dev ← gets (λ s, lg_dev (k_log s));
  start ← gets (λ s, lg_start (k_log s));
  to ← bread dev (start + tail + 1);
  blk ← gets (λ s, lh_blk s tail);
  from ← bread dev blk;
  data ← gets (λ s, data_of s from);
  set_data to (λ _, data);;
  bwrite to;;
  brelse from;;
  brelse to.
Definition write_log : K unit :=
  n ← gets (λ s, lh_n (k_log s));
  mfor (Z.to_nat n) 0 write_log_one.

Definition commit : K unit :=
  n ← gets (λ s, lh_n (k_log s));
  when (0 <? n)
    (write_log;;
     write_head;;
     install_trans false;;
     modify (upd_log (set_lh_n 0));;
     write_head).

Definition end_op : K unit :=
  acquire LK_log;;
  modify (upd_log (λ l, set_lg_outstanding (lg_outstanding l - 1) l));;
  lg ← gets k_log;
  if negb (lg_committing lg =? 0) then panic "log.committing" else
  do_commit ←
    (if lg_outstanding lg =? 0 then
       modify (upd_log (set_lg_committing 1));; mret true
     else wakeup (Some Ch_log);; mret false);
  release LK_log;;
  when do_commit
    (commit;;
     acquire LK_log;;
     modify (upd_log (set_lg_committing 0));;
     wakeup (Some Ch_log);;
     release LK_log).

(** The position of [blockno] in the header, or [log.lh.n]. *)
Definition log_index (s : kst) (blockno : Z) : Z :=
  let n := Z.to_nat (lh_n (k_log s)) in
  match list_find (λ x, u32 x = blockno) (take n (lh_block (k_log s))) with
  | Some (i, _) => Z.of_nat i
  | None => Z.of_nat n
  end.
Definition log_write (b : nat) : K unit :=
  acquire LK_log;;
  lg ← gets k_log;
  if (LOGSIZE <=? lh_n lg) || (lg_size lg - 1 <=? lh_n lg) then
    panic "too big a transaction"
  else if lg_outstanding lg <? 1 then panic "log_write outside of trans"
  else
    blockno ← gets (λ s, b_blockno (buf_of s b));
    i ← gets (λ s, log_index s blockno);
    modify (upd_log (set_lh_blk i (i32 blockno)));;
    n ← gets (λ s, lh_n (k_log s));
    when (i =? n)
      (bpin b;;
       modify (upd_log (λ l, set_lh_n (lh_n l + 1) l)));;
    release LK_log.
