(* ===== verification/LogSpec.v ===== *)
(** * The log: what each step does to the disk *)

From stdpp Require Import options.
From S2P Require Import Prelude CString State Sched Sleeplock Bio BioList BioSpec Block Log.
#[local] Open Scope Z_scope.

(** ** Lemmas on the cache *)

Lemma view_clean p s held pins V n :
  bcache_inv p s held pins V → n ∉ pins → (∀ i, i ∈ held → ¬ cached s i n) →
  V n = disk_block (k_disk s) n.
Proof.
  intros H Hn Hh. destruct (cached_dec s n) as [[i Hc]|Hc]; [|by apply (bi_disk _ _ _ _ _ H)].
  pose proof Hc as (Hi & Hd & Hb). pose proof (bi_ent _ _ _ _ _ H i Hi) as E.
  rewrite <- Hb, (be_view _ _ _ _ _ _ _ E Hd). apply (be_clean _ _ _ _ _ _ _ E); try done.
  - intros Hin. by apply (Hh i).
  - by rewrite Hb.
Qed.

(** [bread] of a block that is pinned, or with a buffer to spare. *)
Lemma bread_any p s held pins V n :
  bcache_inv p s held pins V → (∀ i, i ∈ held → ¬ cached s i n) →
  n ∈ pins ∨ (size held + size pins < NBUF)%nat →
  ∃ b s', bread ROOTDEV n s = Ok b s' ∧ bcache_inv p s' ({[b]} ∪ held) pins V ∧
    cached s' b n ∧ b ∉ held ∧ bufs_only s s' ∧ (∀ i, i ≠ b → buf_of s' i = buf_of s i).
Proof.
  intros H Hh [Hp|Hsz]; [|by apply bread_Ok].
  destruct (bi_pins _ _ _ _ _ H n Hp) as [b Hc].
  assert (b ∉ held) as Hni by (intros Hx; by apply (Hh b)).
  destruct (bread_hit _ _ _ _ _ _ _ H Hc Hni) as (s' & E & H1 & H2 & H3 & H4).
  exists b, s'. done.
Qed.

(** Two buffers at once: the second does not disturb the first. *)
Lemma bread_two p s pins V a c :
  bcache_inv p s ∅ pins V → a ≠ c →
  a ∈ pins ∨ (size pins < NBUF)%nat → c ∈ pins ∨ (S (size pins) < NBUF)%nat →
  ∃ x y s1 s2, bread ROOTDEV a s = Ok x s1 ∧ bread ROOTDEV c s1 = Ok y s2 ∧
    bufs_only s s1 ∧ bufs_only s1 s2 ∧
    bcache_inv p s2 {[x; y]} pins V ∧ cached s2 x a ∧ cached s2 y c ∧ x ≠ y.
Proof.
  intros H Hne Ha Hc.
  destruct (bread_any p s ∅ pins V a H) as (x & s1 & E1 & H1 & C1 & _ & B1 & _); [set_solver| |].
  { destruct Ha; [by left|right]. rewrite size_empty. lia. }
  destruct (bread_any p s1 ({[x]} ∪ ∅) pins V c H1) as (y & s2 & E2 & H2 & C2 & Hy & B2 & O2).
  { intros i Hi (_ & _ & Hb). assert (i = x) as -> by set_solver.
    destruct C1 as (_ & _ & Hb'). congruence. }
  { destruct Hc; [by left|right]. rewrite union_empty_r_L, size_singleton. lia. }
  exists x, y, s1, s2. assert (x ≠ y) as Hxy by set_solver.
  replace ({[x; y]} : gset nat) with ({[y]} ∪ ({[x]} ∪ ∅) : gset nat) by set_solver.
  assert (cached s2 x a).
  { destruct C1 as (? & ? & ?). unfold cached. by rewrite O2. }
  by split_and!.
Qed.

(** The frame and the log of a step that touches neither. *)
Definition quiet (s s' : kst) : Prop := io_frame s s' ∧ k_log s' = k_log s.
Lemma quiet_trans s1 s2 s3 : quiet s1 s2 → quiet s2 s3 → quiet s1 s3.
Proof. intros [A1 A2] [B1 B2]. split; [by eapply io_frame_trans|congruence]. Qed.
Lemma quiet_refl s : quiet s s.
Proof. split; [apply io_frame_refl|done]. Qed.
Lemma bufs_only_quiet s s' : bufs_only s s' → quiet s s'.
Proof. intros H. split; [by apply bufs_only_frame|]. by rewrite H. Qed.

Lemma set_data_Ok b f s :
  set_data b f s = Ok () (upd_buf b (λ x, set_b_data (f (b_data x)) x) s).
Proof. done. Qed.
Lemma upd_data_const b f s :
  (b < length (k_bufs s))%nat →
  upd_buf b (λ x, set_b_data (f (b_data x)) x) s = upd_buf b (set_b_data (f (data_of s b))) s.
Proof.
  intros Hb. unfold upd_buf. f_equal. destruct (lookup_lt_is_Some_2 _ _ Hb) as [x Hx].
  eapply alter_ext_lookup; [done|]. unfold data_of, buf_of. by rewrite Hx.
Qed.

Lemma supd_eq V n d : supd V n d n = d.
Proof. unfold supd. by rewrite decide_True. Qed.
Lemma supd_ne V n d m : m ≠ n → supd V n d m = V m.
Proof. intros. unfold supd. by rewrite decide_False. Qed.

(** Overwrite a held buffer and write it to disk. *)
Lemma set_and_write p s held pins V b n f :
  bcache_inv p s held pins V → b ∈ held → cached s b n →
  length (f (V n)) = Z.to_nat BSIZE →
  ∃ s', (set_data b f;; bwrite b) s = Ok () s' ∧
    bcache_inv p s' held pins (supd V n (f (V n))) ∧
    (∀ i m, cached s' i m ↔ cached s i m) ∧ quiet s s' ∧
    k_disk s' = <[n := f (V n)]> (k_disk s) ∧
    k_hist s' = k_hist s ++ [(n, f (V n))].
Proof.
  intros H Hb Hc Hlen. pose proof (held_len _ _ _ _ _ _ _ H Hb Hc) as Hl.
  pose proof (held_view _ _ _ _ _ _ _ H Hb Hc) as Hv.
  erewrite bind_Ok by apply set_data_Ok. rewrite upd_data_const by done.
  change (data_of s b) with (b_data (buf_of s b)). rewrite <- Hv. set (d := f (V n)) in *.
  pose proof (held_set_data _ _ _ _ _ _ _ H Hb Hc d Hlen) as H1.
  set (s1 := upd_buf b (set_b_data d) s) in *.
  assert (∀ i m, cached s1 i m ↔ cached s i m) as Hci.
  { intros i m. by apply (cached_upd _ _ _ _ _ _ _ H Hb Hc). }
  assert (cached s1 b n) as Hc1 by (by apply Hci).
  assert (b_data (buf_of s1 b) = d) as Hd.
  { unfold s1. by rewrite buf_of_upd_eq. }
  exists (written s1 b n). split; [by apply (bwrite_Ok _ _ _ _ _ _ _ H1 Hb Hc1)|].
  split; [by apply bwrite_inv|]. split; [done|].
  unfold written. rewrite Hd. split; [|done]. split; [|done].
  split; [by destruct s|]. split; [done|]. by left.
Qed.

(** ** One block *)

Lemma bind_assoc_Ok {A B} (m1 : K unit) (m2 : K A) (f : A → K B) s a s' :
  (m1;; m2) s = Ok a s' → (m1;; m2 ≫= f) s = f a s'.
Proof.
  unfold mbind, M_bind. destruct (m1 s); simpl; try done. by intros ->.
Qed.

(** Release both of two held buffers. *)
Lemma brelse_two p s pins V x a y c :
  bcache_inv p s {[x; y]} pins V → x ≠ y → cached s x a → cached s y c →
  a ∈ pins ∨ V a = disk_block (k_disk s) a → c ∈ pins ∨ V c = disk_block (k_disk s) c →
  ∃ s', (brelse x;; brelse y) s = Ok () s' ∧ bcache_inv p s' ∅ pins V ∧ quiet s s' ∧
    k_disk s' = k_disk s ∧ k_hist s' = k_hist s.
Proof.
  intros H Hxy Hx Hy Ha Hc.
  destruct (brelse_Ok p s {[x; y]} pins V x a H) as (s1 & E1 & H1 & F1 & D1 & T1 & L1 & S1 & C1);
    [set_solver|done|done|].
  destruct (brelse_Ok p s1 ({[x; y]} ∖ {[x]}) pins V y c H1)
    as (s2 & E2 & H2 & F2 & D2 & T2 & L2 & S2 & C2); [set_solver|by apply C1|by rewrite D1|].
  exists s2. erewrite bind_Ok by exact E1. split; [done|].
  replace (({[x; y]} ∖ {[x]}) ∖ {[y]} : gset nat) with (∅ : gset nat) in H2 by set_solver.
  split; [done|]. split; [split; [by eapply io_frame_trans|congruence]|]. split; congruence.
Qed.

Lemma write_log_step p s pins V t :
  bcache_inv p s ∅ pins V → lg_dev (k_log s) = ROOTDEV →
  let a := lg_start (k_log s) + t + 1 in
  let c := lh_blk s t in
  a ∉ pins → c ∈ pins → (size pins < NBUF)%nat →
  ∃ s', write_log_one t s = Ok () s' ∧ bcache_inv p s' ∅ pins (supd V a (V c)) ∧ quiet s s' ∧
    k_disk s' = <[a := V c]> (k_disk s) ∧ k_hist s' = k_hist s ++ [(a, V c)].
Proof.
  intros H Hdev a c Ha Hc Hsz. unfold write_log_one. msteps. rewrite Hdev. fold a.
  destruct (bread_two p s pins V a c H) as (x & y & s1 & s2 & E1 & E2 & B1 & B2 & H2 & C1 & C2 & Hxy);
    [congruence|by right|by left|].
  erewrite bind_Ok by exact E1. msteps.
  assert (lh_blk s1 t = c) as -> by (by rewrite B1).
  erewrite bind_Ok by exact E2. msteps.
  change (data_of s2 y) with (b_data (buf_of s2 y)).
  assert (y ∈ ({[x; y]} : gset nat) ∧ x ∈ ({[x; y]} : gset nat)) as [Hy Hx] by set_solver.
  rewrite <- (held_view _ _ _ _ _ _ _ H2 Hy C2).
  destruct (set_and_write p s2 {[x; y]} pins V x a (λ _, V c) H2 Hx C1)
    as (s3 & E3 & H3 & C3 & Q3 & D3 & T3); [by eapply bi_length|].
  erewrite bind_assoc_Ok by exact E3.
  replace ({[x; y]} : gset nat) with ({[y; x]} : gset nat) in H3 by set_solver.
  destruct (brelse_two p s3 pins (supd V a (V c)) y c x a H3) as (s4 & E4 & H4 & Q4 & D4 & T4);
    try done; try (by apply C3).
  - by left.
  - right. rewrite supd_eq, D3, disk_block_insert. by rewrite decide_True.
  - exists s4. split; [done|]. split; [done|]. split.
    + eapply quiet_trans; [by apply bufs_only_quiet|].
      eapply quiet_trans; [by apply bufs_only_quiet|]. by eapply quiet_trans.
    + rewrite D4, D3, T4, T3, B2, B1. done.
Qed.

(** [bunpin] of a held, pinned buffer, when installing a committed transaction. *)
Lemma unpin_step p s held pins V b n (recovering : bool) :
  bcache_inv p s held pins V → b ∈ held → cached s b n → (recovering = false → n ∈ pins) →
  ∃ s', when (negb recovering) (bunpin b) s = Ok () s' ∧
    bcache_inv p s' held (if recovering then pins else pins ∖ {[n]}) V ∧
    (∀ i m, cached s' i m ↔ cached s i m) ∧ quiet s s' ∧
    k_disk s' = k_disk s ∧ k_hist s' = k_hist s.
Proof.
  intros H Hb Hc Hn. destruct recovering; simpl.
  - exists s. split; [done|]. split; [done|]. split; [done|]. by split; [apply quiet_refl|].
  - exists (upd_buf b decr_ref s).
    rewrite bunpin_Ok by (rewrite (run_held _ _ (bi_run _ _ _ _ _ H)); apply not_elem_of_nil).
    split; [done|]. split; [by apply bunpin_inv; try apply Hn|].
    split; [intros i m; by apply (cached_upd _ _ _ _ _ _ _ H Hb Hc)|].
    by split; [apply bufs_only_quiet; destruct s|].
Qed.

Lemma install_step p s pins V t (recovering : bool) :
  bcache_inv p s ∅ pins V → lg_dev (k_log s) = ROOTDEV →
  let a := lg_start (k_log s) + t + 1 in
  let c := lh_blk s t in
  a ∉ pins → a ≠ c → (if recovering then pins = ∅ else c ∈ pins ∧ (size pins < NBUF)%nat) →
  ∃ s', install_one recovering t s = Ok () s' ∧
    bcache_inv p s' ∅ (if recovering then pins else pins ∖ {[c]}) (supd V c (V a)) ∧ quiet s s' ∧
    k_disk s' = <[c := V a]> (k_disk s) ∧ k_hist s' = k_hist s ++ [(c, V a)].
Proof.
  intros H Hdev a c Ha Hac Hm. unfold install_one. msteps. rewrite Hdev. fold a.
  assert (V a = disk_block (k_disk s) a) as Hcl by (eapply view_clean; [done..|set_solver]).
  destruct (bread_two p s pins V a c H) as (x & y & s1 & s2 & E1 & E2 & B1 & B2 & H2 & C1 & C2 & Hxy);
    [done| | |].
  { right. destruct recovering; [subst pins; rewrite size_empty; unfold NBUF; lia|tauto]. }
  { destruct recovering; [right; subst pins; rewrite size_empty; unfold NBUF; lia|left; tauto]. }
  erewrite bind_Ok by exact E1. msteps.
  assert (lh_blk s1 t = c) as -> by (by rewrite B1).
  erewrite bind_Ok by exact E2. msteps.
  change (data_of s2 x) with (b_data (buf_of s2 x)).
  assert (y ∈ ({[x; y]} : gset nat) ∧ x ∈ ({[x; y]} : gset nat)) as [Hy Hx] by set_solver.
  rewrite <- (held_view _ _ _ _ _ _ _ H2 Hx C1).
  destruct (set_and_write p s2 {[x; y]} pins V y c (λ _, V a) H2 Hy C2)
    as (s3 & E3 & H3 & C3 & Q3 & D3 & T3); [by eapply bi_length|].
  erewrite bind_assoc_Ok by exact E3.
  destruct (unpin_step p s3 _ pins _ y c recovering H3 Hy) as (s4 & E4 & H4 & C4 & Q4 & D4 & T4).
  { by apply C3. } { intros ->. tauto. }
  erewrite bind_Ok by exact E4.
  destruct (brelse_two p s4 _ (supd V c (V a)) x a y c H4) as (s5 & E5 & H5 & Q5 & D5 & T5);
    [done|by apply C4, C3|by apply C4, C3| | |].
  - right. rewrite supd_ne, D4, D3, disk_block_insert by done. rewrite decide_False by done.
    rewrite B2, B1. done.
  - right. rewrite supd_eq, D4, D3, disk_block_insert. by rewrite decide_True.
  - exists s5. split; [done|]. split; [done|]. split.
    + eapply quiet_trans; [by apply bufs_only_quiet|].
      eapply quiet_trans; [by apply bufs_only_quiet|].
      eapply quiet_trans; [exact Q3|]. by eapply quiet_trans.
    + rewrite D5, D4, D3, T5, T4, T3, B2, B1. done.
Qed.

(** ** The loops *)

(** A sequence of block writes, on a view and on the disk. *)
Definition wview (V : Z → list Z) (ws : list (Z * list Z)) : Z → list Z :=
  foldl (λ V w, supd V w.1 w.2) V ws.
Definition wdisk (D : gmap Z (list Z)) (ws : list (Z * list Z)) : gmap Z (list Z) :=
  foldl (λ D w, <[w.1 := w.2]> D) D ws.

(** The writes of [write_log] and of [install_trans], from slot [i] on. *)
Fixpoint log_writes (V : Z → list Z) (start i : Z) (bs : list Z) : list (Z * list Z) :=
  match bs with
  | [] => []
  | b :: bs => (start + i + 1, V b) :: log_writes V start (i + 1) bs
  end.
Fixpoint home_writes (V : Z → list Z) (start i : Z) (bs : list Z) : list (Z * list Z) :=
  match bs with
  | [] => []
  | b :: bs => (b, V (start + i + 1)) :: home_writes V start (i + 1) bs
  end.

(** The home blocks of a transaction are outside the log: the header at
    [start] and the slots behind it. *)
Definition outside (start : Z) (b : Z) : Prop := b < start ∨ start + LOGSIZE ≤ b.
(** The header in memory names the blocks [bs] from slot [i] on. *)
Definition names (s : kst) (i : Z) (bs : list Z) : Prop :=
  ∀ j b, bs !! j = Some b → lh_blk s (i + Z.of_nat j) = b.

Lemma names_cons s i b bs : names s i (b :: bs) → lh_blk s i = b ∧ names s (i + 1) bs.
Proof.
  intros H. split; [rewrite <- (H 0%nat b) by done; f_equal; lia|].
  intros j c Hj. rewrite <- (H (S j) c) by done. f_equal. lia.
Qed.
Lemma names_quiet s s' i bs : quiet s s' → names s i bs → names s' i bs.
Proof. intros [_ Q] H j b Hj. unfold lh_blk. rewrite Q. by apply H. Qed.
Lemma log_writes_ext V V' start i bs :
  (∀ b, b ∈ bs → V b = V' b) → log_writes V start i bs = log_writes V' start i bs.
Proof.
  revert i. induction bs as [|b bs IH]; intros i H; simpl; [done|].
  rewrite H by apply list_elem_of_here. f_equal. apply IH. intros. apply H. by apply list_elem_of_further.
Qed.
Lemma home_writes_ext V V' start i bs :
  (∀ j, i ≤ j < i + Z.of_nat (length bs) → V (start + j + 1) = V' (start + j + 1)) →
  home_writes V start i bs = home_writes V' start i bs.
Proof.
  revert i. induction bs as [|b bs IH]; intros i H; simpl; [done|].
  rewrite H by (simpl; lia). f_equal. apply IH. intros. apply H. simpl. lia.
Qed.

Lemma write_log_loop p bs : ∀ i s pins V,
  bcache_inv p s ∅ pins V → lg_dev (k_log s) = ROOTDEV → names s i bs →
  (∀ b, b ∈ pins → outside (lg_start (k_log s)) b) → (∀ b, b ∈ bs → b ∈ pins) →
  0 ≤ i → i + Z.of_nat (length bs) < LOGSIZE → (size pins < NBUF)%nat →
  let ws := log_writes V (lg_start (k_log s)) i bs in
  ∃ s', mfor (length bs) i write_log_one s = Ok () s' ∧ bcache_inv p s' ∅ pins (wview V ws) ∧
    quiet s s' ∧ k_disk s' = wdisk (k_disk s) ws ∧ k_hist s' = k_hist s ++ ws.
Proof.
  induction bs as [|b bs IH]; intros i s pins V H Hdev Hn Hout Hpin Hi Hlen Hsz; simpl.
  { exists s. rewrite app_nil_r. split; [done|]. split; [done|]. by split; [apply quiet_refl|]. }
  apply names_cons in Hn as [Hb Hn].
  assert (b ∈ pins) as Hbp by apply Hpin, list_elem_of_here.
  destruct (write_log_step p s pins V i H Hdev) as (s1 & E1 & H1 & Q1 & D1 & T1); [|by rewrite Hb|done|].
  { intros Hx. apply Hout in Hx. unfold outside in Hx. simpl in Hlen. lia. }
  rewrite Hb in H1, D1, T1. pose proof Q1 as [_ L1].
  destruct (IH (i + 1) s1 pins _ H1) as (s2 & E2 & H2 & Q2 & D2 & T2); rewrite ?L1; try done.
  - by eapply names_quiet.
  - intros c Hc. apply Hpin. by apply list_elem_of_further.
  - lia.
  - simpl in Hlen. lia.
  - rewrite L1 in *. rewrite (log_writes_ext _ V) in H2, D2, T2.
    2-4: intros c Hc; apply supd_ne; intros ->;
      assert (outside (lg_start (k_log s)) (lg_start (k_log s) + i + 1)) as Ho
        by (apply Hout, Hpin; by apply list_elem_of_further);
      unfold outside in Ho; simpl in Hlen; lia.
    exists s2. erewrite bind_Ok by exact E1. rewrite D1 in D2. rewrite T1, <- app_assoc in T2.
    split; [done|]. split; [done|]. by split; [eapply quiet_trans|].
Qed.

Definition unpinned (recovering : bool) (pins : gset Z) (bs : list Z) : gset Z :=
  if recovering then pins else pins ∖ list_to_set bs.

Lemma install_loop p (recovering : bool) bs : ∀ i s pins V,
  bcache_inv p s ∅ pins V → lg_dev (k_log s) = ROOTDEV → names s i bs →
  (∀ b, b ∈ pins ∨ b ∈ bs → outside (lg_start (k_log s)) b) →
  (if recovering then pins = ∅
   else NoDup bs ∧ (∀ b, b ∈ bs → b ∈ pins) ∧ (size pins < NBUF)%nat) →
  0 ≤ i → i + Z.of_nat (length bs) < LOGSIZE →
  let ws := home_writes V (lg_start (k_log s)) i bs in
  ∃ s', mfor (length bs) i (install_one recovering) s = Ok () s' ∧
    bcache_inv p s' ∅ (unpinned recovering pins bs) (wview V ws) ∧
    quiet s s' ∧ k_disk s' = wdisk (k_disk s) ws ∧ k_hist s' = k_hist s ++ ws.
Proof.
  induction bs as [|b bs IH]; intros i s pins V H Hdev Hn Hout Hm Hi Hlen; simpl.
  { exists s. rewrite app_nil_r. split; [done|]. split; [|by split; [apply quiet_refl|]].
    replace (unpinned recovering pins []) with pins; [done|].
    unfold unpinned. destruct recovering; set_solver. }
  apply names_cons in Hn as [Hb Hn]. simpl in Hlen.
  assert (∀ j, i ≤ j < i + Z.of_nat (S (length bs)) → ¬ outside (lg_start (k_log s)) (lg_start (k_log s) + j + 1))
    as Hslot by (unfold outside; lia).
  assert (outside (lg_start (k_log s)) b) as Hbo by (apply Hout; right; apply list_elem_of_here).
  destruct (install_step p s pins V i recovering H Hdev) as (s1 & E1 & H1 & Q1 & D1 & T1).
  { intros Hx. apply (Hslot i); [lia|]. apply Hout. by left. }
  { rewrite Hb. intros <-. apply (Hslot i); [lia|done]. }
  { destruct recovering; [done|]. rewrite Hb. split; [apply Hm, list_elem_of_here|apply Hm]. }
  rewrite Hb in H1, D1, T1. pose proof Q1 as [_ L1].
  destruct (IH (i + 1) s1 _ _ H1) as (s2 & E2 & H2 & Q2 & D2 & T2); rewrite ?L1; try done.
  - by eapply names_quiet.
  - intros c [Hc|Hc]; apply Hout; [left|right; by apply list_elem_of_further].
    destruct recovering; set_solver.
  - destruct recovering; [done|]. destruct Hm as (Hnd & Hp & Hsz). apply NoDup_cons in Hnd as [Hnb Hnd].
    split; [done|]. split.
    + intros c Hc. apply elem_of_difference. split; [by apply Hp, list_elem_of_further|].
      rewrite elem_of_singleton. by intros ->.
    + eapply Nat.le_lt_trans; [apply subseteq_size|exact Hsz]. set_solver.
  - lia.
  - lia.
  - rewrite L1 in *. rewrite (home_writes_ext _ V) in H2, D2, T2.
    2-4: intros j Hj; apply supd_ne; intros Heq; apply (Hslot j); [lia|by rewrite Heq].
    exists s2. erewrite bind_Ok by exact E1. rewrite D1 in D2. rewrite T1, <- app_assoc in T2.
    split; [done|]. split; [|by split; [eapply quiet_trans|]].
    replace (unpinned recovering pins (b :: bs))
      with (unpinned recovering (if recovering then pins else pins ∖ {[b]}) bs); [done|].
    unfold unpinned. destruct recovering; set_solver.
Qed.

(** ** The header block *)

(** The header block [d] after [write_head] stored [bs]; and the blocks a
    header block names. *)
Fixpoint put_blocks (i : Z) (bs : list Z) (d : list Z) : list Z :=
  match bs with
  | [] => d
  | b :: bs => put_blocks (i + 1) bs (put32 d (hb_off i) b)
  end.
Definition header (bs : list Z) (d : list Z) : list Z :=
  put_blocks 0 bs (put32 d 0 (Z.of_nat (length bs))).
Definition head_n (d : list Z) : Z := i32 (get32 d 0).
Definition head_at (d : list Z) (i : Z) : Z := i32 (get32 d (hb_off i)).

Lemma length_put_blocks bs : ∀ i d,
  0 ≤ i → i + Z.of_nat (length bs) ≤ LOGSIZE → length d = Z.to_nat BSIZE →
  length (put_blocks i bs d) = Z.to_nat BSIZE.
Proof.
  induction bs as [|b bs IH]; intros i d Hi Hl Hd; simpl; [done|]. simpl in Hl.
  unfold BSIZE, LOGSIZE, MAXOPBLOCKS in *.
  apply IH; [lia|lia|]. rewrite length_put32; [done|]. unfold hb_off. rewrite Hd. lia.
Qed.
Lemma put_blocks_other bs off : ∀ i d,
  0 ≤ i → i + Z.of_nat (length bs) ≤ LOGSIZE → length d = Z.to_nat BSIZE →
  (off + 4 ≤ hb_off i)%nat → get32 (put_blocks i bs d) off = get32 d off.
Proof.
  induction bs as [|b bs IH]; intros i d Hi Hl Hd Ho; simpl; [done|]. simpl in Hl.
  assert (hb_off i + 4 ≤ length d)%nat
    by (unfold hb_off, BSIZE, LOGSIZE, MAXOPBLOCKS in *; rewrite Hd; lia).
  rewrite IH; [|lia|lia|by rewrite length_put32|unfold hb_off in *; lia].
  apply get32_put32_ne; [done|]. by left.
Qed.
Lemma put_blocks_at bs : ∀ i d j b,
  0 ≤ i → i + Z.of_nat (length bs) ≤ LOGSIZE → length d = Z.to_nat BSIZE →
  bs !! j = Some b → get32 (put_blocks i bs d) (hb_off (i + Z.of_nat j)) = u32 b.
Proof.
  induction bs as [|c bs IH]; intros i d j b Hi Hl Hd Hj; simpl; [done|]. simpl in Hl.
  assert (hb_off i + 4 ≤ length d)%nat
    by (unfold hb_off, BSIZE, LOGSIZE, MAXOPBLOCKS in *; rewrite Hd; lia).
  destruct j as [|j]; simpl in Hj.
  - injection Hj as ->. replace (i + Z.of_nat 0) with i by lia.
    rewrite put_blocks_other; [|lia|lia|by rewrite length_put32|unfold hb_off; lia].
    by apply get32_put32.
  - replace (i + Z.of_nat (S j)) with (i + 1 + Z.of_nat j) by lia.
    apply IH; [lia|lia|by rewrite length_put32|done].
Qed.

(** [i32] undoes the truncation of a block number. *)
Lemma i32_u32 b : - 2 ^ 31 ≤ b < 2 ^ 31 → i32 (u32 b) = b.
Proof.
  intros H. unfold i32, u32. rewrite Z.add_mod_idemp_l by lia.
  rewrite Z.mod_small by lia. lia.
Qed.
Definition blockno (b : Z) : Prop := 0 ≤ b < 2 ^ 31.

Lemma length_put_n d n : length d = Z.to_nat BSIZE → length (put32 d 0 n) = Z.to_nat BSIZE.
Proof. intros Hd. rewrite length_put32; [done|]. rewrite Hd. unfold BSIZE. lia. Qed.

Section header.
Context (bs d : list Z) (Hlen : Z.of_nat (length bs) ≤ LOGSIZE) (Hd : length d = Z.to_nat BSIZE).

Lemma length_header : length (header bs d) = Z.to_nat BSIZE.
Proof using All. apply length_put_blocks; [lia|lia|by apply length_put_n]. Qed.
Lemma head_n_header : head_n (header bs d) = Z.of_nat (length bs).
Proof using All.
  unfold head_n, header. rewrite put_blocks_other; [|lia|lia|by apply length_put_n|unfold hb_off; lia].
  rewrite get32_put32 by (rewrite Hd; unfold BSIZE; lia).
  apply i32_u32. unfold LOGSIZE, MAXOPBLOCKS in *. lia.
Qed.
Lemma head_at_header j b :
  bs !! j = Some b → blockno b → head_at (header bs d) (Z.of_nat j) = b.
Proof using All.
  intros Hj Hb. unfold head_at, header.
  pose proof (put_blocks_at bs 0 (put32 d 0 (Z.of_nat (length bs))) j b) as E.
  rewrite (Z.add_0_l (Z.of_nat j)) in E.
  rewrite E; [|lia|lia|by apply length_put_n|done]. apply i32_u32. unfold blockno in Hb. lia.
Qed.
End header.

(** The blocks a header block names. *)
Definition head_blocks (d : list Z) : list Z :=
  map (λ i, head_at d (Z.of_nat i)) (seq 0 (Z.to_nat (head_n d))).
Lemma head_blocks_header bs d :
  Z.of_nat (length bs) ≤ LOGSIZE → length d = Z.to_nat BSIZE → Forall blockno bs →
  head_blocks (header bs d) = bs.
Proof.
  intros Hl Hd Hb. unfold head_blocks. rewrite head_n_header, Nat2Z.id by done.
  apply list_eq. intros j. rewrite list_lookup_fmap. destruct (bs !! j) as [b|] eqn:Hj.
  - rewrite lookup_seq_lt by by eapply lookup_lt_Some. simpl. f_equal.
    apply head_at_header; try done. by eapply Forall_lookup_1.
  - rewrite lookup_seq_ge by by apply lookup_ge_None. done.
Qed.
Lemma head_blocks_nil d : head_n d = 0 → head_blocks d = [].
Proof. unfold head_blocks. by intros ->. Qed.

(** ** write_head and read_head *)

#[global] Instance bcache_inv_proper p s held pins :
  Proper (pointwise_relation Z eq ==> iff) (bcache_inv p s held pins).
Proof.
  intros V W E. assert (∀ V W, pointwise_relation Z eq V W →
    bcache_inv p s held pins V → bcache_inv p s held pins W) as Hx.
  { clear. intros V W E [H1 H2 H3 H4 H5 H6 H7 H8]. split; try done.
    - intros i Hi. destruct (H3 i Hi) as [E1 E2 E3 E4 E5 E6 E7]. split; try done.
      intros Hd. rewrite <- E. auto.
    - intros n Hn. rewrite <- E. auto. }
  split; apply Hx; [done|by symmetry].
Qed.
Lemma supd_supd V n d d' : pointwise_relation Z eq (supd (supd V n d) n d') (supd V n d').
Proof. intros m. unfold supd. by destruct (decide (m = n)). Qed.
Lemma supd_id V n : pointwise_relation Z eq (supd V n (V n)) V.
Proof. intros m. unfold supd. by destruct (decide (m = n)) as [->|]. Qed.
#[global] Instance supd_proper : Proper (pointwise_relation Z eq ==> eq ==> eq ==> pointwise_relation Z eq) supd.
Proof. intros V W E n _ <- d _ <- m. unfold supd. by destruct (decide (m = n)). Qed.

(** The state of the log between transactions: the header in memory names
    [bs]. *)
Record log_ok (s : kst) (bs : list Z) : Prop := {
  lo_dev : lg_dev (k_log s) = ROOTDEV;
  lo_n : lh_n (k_log s) = Z.of_nat (length bs);
  lo_names : names s 0 bs;
  lo_len : length (lh_block (k_log s)) = Z.to_nat LOGSIZE;
  lo_fit : Z.of_nat (length bs) < LOGSIZE;
}.
Lemma log_ok_quiet s s' bs : quiet s s' → log_ok s bs → log_ok s' bs.
Proof.
  intros Q [H1 H2 H3 H4 H5]. pose proof (names_quiet _ _ _ _ Q H3).
  destruct Q as [_ Q]. split; rewrite ?Q; done.
Qed.

(** One store into a held buffer. *)
Lemma set_data_step p s held pins V b n f :
  bcache_inv p s held pins V → b ∈ held → cached s b n → length (f (V n)) = Z.to_nat BSIZE →
  ∃ s', set_data b f s = Ok () s' ∧ bcache_inv p s' held pins (supd V n (f (V n))) ∧
    cached s' b n ∧ bufs_only s s'.
Proof.
  intros H Hb Hc Hl. pose proof (held_len _ _ _ _ _ _ _ H Hb Hc) as Hlen.
  rewrite set_data_Ok, upd_data_const by done.
  change (data_of s b) with (b_data (buf_of s b)). rewrite <- (held_view _ _ _ _ _ _ _ H Hb Hc).
  eexists. split; [done|]. split; [by apply held_set_data|].
  split; [by apply (cached_upd _ _ _ _ _ _ _ H Hb Hc)|by destruct s].
Qed.

Lemma bufs_only_trans s1 s2 s3 : bufs_only s1 s2 → bufs_only s2 s3 → bufs_only s1 s3.
Proof. unfold bufs_only. intros E1 E2. rewrite E2, E1. by destruct s1. Qed.

Lemma write_head_loop p held pins b n bs : ∀ i s V,
  bcache_inv p s held pins V → b ∈ held → cached s b n → names s i bs →
  0 ≤ i → i + Z.of_nat (length bs) ≤ LOGSIZE →
  ∃ s', mfor (length bs) i (λ i, v ← gets (λ s, lh_blk s i); set_data b (λ d, put32 d (hb_off i) v)) s
    = Ok () s' ∧ bcache_inv p s' held pins (supd V n (put_blocks i bs (V n))) ∧
    cached s' b n ∧ bufs_only s s'.
Proof.
  induction bs as [|c bs IH]; intros i s V H Hb Hc Hn Hi Hl; cbn [mfor length put_blocks].
  { exists s. split; [done|]. rewrite supd_id. split; [done|]. split; [done|]. by destruct s. }
  apply names_cons in Hn as [Hic Hn]. simpl in Hl.
  pose proof (bi_length _ _ _ _ _ n H) as Hlen.
  destruct (set_data_step p s held pins V b n (λ d, put32 d (hb_off i) c) H Hb Hc)
    as (s1 & E1 & H1 & C1 & B1).
  { rewrite length_put32; [done|]. rewrite Hlen. unfold hb_off, BSIZE, LOGSIZE, MAXOPBLOCKS in *. lia. }
  destruct (IH (i + 1) s1 _ H1 Hb C1) as (s2 & E2 & H2 & C2 & B2); [|lia|lia|].
  { eapply names_quiet; [by apply bufs_only_quiet|done]. }
  exists s2. erewrite bind_Ok; [|erewrite bind_Ok by done; rewrite Hic; exact E1].
  split; [done|]. rewrite supd_supd, supd_eq in H2. split; [done|]. split; [done|].
  by eapply bufs_only_trans.
Qed.

Lemma write_head_Ok p s pins V bs :
  bcache_inv p s ∅ pins V → log_ok s bs → (size pins < NBUF)%nat →
  let st := lg_start (k_log s) in let d := header bs (V st) in
  ∃ s', write_head s = Ok () s' ∧ bcache_inv p s' ∅ pins (supd V st d) ∧ quiet s s' ∧
    k_disk s' = <[st := d]> (k_disk s) ∧ k_hist s' = k_hist s ++ [(st, d)].
Proof.
  intros H [L1 L2 L3 L4 L5] Hsz st d. unfold write_head. msteps. rewrite L1. fold st.
  pose proof (bi_length _ _ _ _ _ st H) as Hlen.
  destruct (bread_Ok p s ∅ pins V st H) as (b & s1 & E1 & H1 & C1 & _ & B1 & _);
    [set_solver|by rewrite size_empty|].
  erewrite bind_Ok by exact E1. msteps. pose proof (bufs_only_quiet _ _ B1) as Q1.
  replace (lh_n (k_log s1)) with (Z.of_nat (length bs)) by (by destruct Q1 as [_ ->]).
  pose proof (held_one b) as Hb.
  destruct (set_data_step p s1 _ pins V b st (λ d, put32 d 0 (Z.of_nat (length bs))) H1 Hb C1)
    as (s2 & E2 & H2 & C2 & B2); [by apply length_put_n|].
  erewrite bind_Ok by exact E2. rewrite Nat2Z.id.
  destruct (write_head_loop p _ pins b st bs 0 s2 _ H2 Hb C2) as (s3 & E3 & H3 & C3 & B3); [|lia|lia|].
  { do 2 (eapply names_quiet; [by apply bufs_only_quiet|]). done. }
  erewrite bind_Ok by exact E3. rewrite supd_supd, supd_eq in H3. fold d in H3.
  assert (b_data (buf_of s3 b) = d) as Hdat.
  { rewrite <- (held_view _ _ _ _ _ _ _ H3 Hb C3). by rewrite supd_eq. }
  erewrite bind_Ok by exact (bwrite_Ok _ _ _ _ _ _ _ H3 Hb C3).
  pose proof (bwrite_inv _ _ _ _ _ _ _ H3 Hb C3) as H4.
  destruct (brelse_Ok p _ _ pins _ b st H4 Hb C3) as (s5 & E5 & H5 & F5 & D5 & T5 & G5 & _).
  { right. rewrite supd_eq. simpl. rewrite disk_block_insert, decide_True by done. done. }
  exists s5. split; [exact E5|]. rewrite held_none in H5.
  split; [done|]. pose proof (bufs_only_trans _ _ _ B1 (bufs_only_trans _ _ _ B2 B3)) as B.
  rewrite D5, T5. unfold written. simpl. rewrite Hdat, B. split; [|done].
  eapply quiet_trans; [by apply bufs_only_quiet|]. split; [|by rewrite G5].
  eapply io_frame_trans; [|exact F5]. by split; [destruct s3|split; [|left]].
Qed.

Lemma bcache_inv_log p s held pins V f :
  bcache_inv p s held pins V → bcache_inv p (upd_log f s) held pins V.
Proof. intros [[R1 R2 R3 R4] H2 H3 H4 H5 H6 H7 H8]. by split; [split|..]. Qed.
Lemma io_frame_log s f : io_frame s (upd_log f s).
Proof. split; [by destruct s|]. split; [done|]. by left. Qed.
Lemma upd_log_id f s : f (k_log s) = k_log s → upd_log f s = s.
Proof. unfold upd_log. intros ->. by destruct s. Qed.

(** The loop of [read_head]: the blocks of the header [d] from slot [i] on. *)
Definition read_slot (b : nat) (i : Z) : K unit :=
  v ← gets (λ s, i32 (get32 (data_of s b) (hb_off i)));
  modify (upd_log (set_lh_blk i v)).
Lemma read_head_loop b d n : ∀ i s,
  data_of s b = d → 0 ≤ i → i + Z.of_nat n ≤ LOGSIZE →
  length (lh_block (k_log s)) = Z.to_nat LOGSIZE →
  ∃ l, mfor n i (read_slot b) s = Ok () (upd_log (set_lh_block l) s) ∧
    length l = Z.to_nat LOGSIZE ∧
    ∀ j, 0 ≤ j < LOGSIZE →
      l !! Z.to_nat j = if decide (i ≤ j < i + Z.of_nat n) then Some (head_at d j)
                        else lh_block (k_log s) !! Z.to_nat j.
Proof.
  induction n as [|n IH]; intros i s Hd Hi Hl Hlen; cbn [mfor].
  { exists (lh_block (k_log s)). rewrite upd_log_id by by destruct (k_log s).
    split; [done|]. split; [done|]. intros j Hj. rewrite decide_False by lia. done. }
  destruct (IH (i + 1) (upd_log (set_lh_blk i (head_at d i)) s)) as (l & E & Hll & Hl2);
    [done|lia|lia|simpl; by rewrite length_insert|].
  assert (read_slot b i s = Ok () (upd_log (set_lh_blk i (head_at d i)) s)) as E0.
  { unfold read_slot, head_at. msteps. by rewrite Hd. }
  exists l. erewrite bind_Ok by exact E0.
  split; [exact E|]. split; [done|]. intros j Hj. rewrite Hl2 by done. simpl.
  destruct (decide (j = i)) as [->|Hne].
  - rewrite decide_False, decide_True by lia. apply list_lookup_insert_eq. lia.
  - rewrite list_lookup_insert_ne by lia. apply decide_ext. lia.
Qed.

Lemma read_head_Ok p s pins V :
  bcache_inv p s ∅ pins V → lg_dev (k_log s) = ROOTDEV →
  length (lh_block (k_log s)) = Z.to_nat LOGSIZE → (size pins < NBUF)%nat →
  let st := lg_start (k_log s) in
  st ∉ pins → 0 ≤ head_n (V st) < LOGSIZE →
  ∃ s', read_head s = Ok () s' ∧ bcache_inv p s' ∅ pins V ∧ log_ok s' (head_blocks (V st)) ∧
    io_frame s s' ∧ lg_start (k_log s') = st ∧ k_disk s' = k_disk s ∧ k_hist s' = k_hist s.
Proof.
  intros H Hdev Hlen Hsz st Hst Hn. unfold read_head. msteps. rewrite Hdev. fold st.
  destruct (bread_Ok p s ∅ pins V st H) as (b & s1 & E1 & H1 & C1 & _ & B1 & _);
    [set_solver|by rewrite size_empty|].
  pose proof (held_one b) as Hb.
  assert (V st = disk_block (k_disk s) st) as Hcl by (eapply view_clean; [done..|set_solver]).
  assert (data_of s1 b = V st) as Hd by (symmetry; exact (held_view _ _ _ _ _ _ _ H1 Hb C1)).
  erewrite bind_Ok by exact E1. msteps. rewrite Hd. fold (head_n (V st)).
  set (s2 := upd_log (set_lh_n (head_n (V st))) s1).
  destruct (read_head_loop b (V st) (Z.to_nat (head_n (V st))) 0 s2) as (l & E & Hl & Hat);
    [done|lia|lia|simpl; by rewrite B1|].
  erewrite bind_Ok by exact E. set (s3 := upd_log (set_lh_block l) s2).
  assert (bcache_inv p s3 ({[b]} ∪ ∅) pins V) as H3 by (by do 2 apply bcache_inv_log).
  destruct (brelse_Ok p s3 _ pins V b st H3 Hb C1) as (s4 & E4 & H4 & F4 & D4 & T4 & G4 & _).
  { right. simpl. rewrite B1. done. }
  exists s4. split; [done|]. rewrite held_none in H4.
  split; [done|]. rewrite D4, T4, G4. split; [|split; [|unfold s3, s2; simpl; by rewrite B1]].
  - assert (length (head_blocks (V st)) = Z.to_nat (head_n (V st))) as Hbl.
    { unfold head_blocks. by rewrite length_map, length_seq. }
    split; rewrite ?G4; [by unfold s3, s2; simpl; rewrite B1|simpl; lia| |done|lia].
    intros j c Hj. pose proof (lookup_lt_Some _ _ _ Hj) as Hlt. unfold lh_blk. rewrite G4. simpl.
    rewrite Hat, decide_True by lia. simpl. unfold head_blocks in Hj.
    rewrite list_lookup_fmap, lookup_seq_lt in Hj by lia. simpl in Hj. by injection Hj.
  - eapply io_frame_trans; [by apply bufs_only_frame|]. eapply io_frame_trans; [|exact F4].
    eapply io_frame_trans; apply io_frame_log.
Qed.
