(* ===== verification/LogCrash.v ===== *)
(** * The log: commit, recovery and crashes

    A transaction is the list [bs] of the blocks [log_write] pinned.  The
    logical contents of the disk are the view [V] of the cache; the disk still
    has the old contents of [bs].  [commit] appends to the history of disk
    writes exactly [commit_writes]; a crash leaves any prefix of it on the
    disk, and [initlog] after the reboot brings every block outside the log to
    its old contents (all of them) or to its new ones (all of them). *)

From stdpp Require Import options.
From S2P Require Import Prelude CString State Sched Sleeplock Bio BioList BioSpec Block Log LogSpec.
#[local] Open Scope Z_scope.

(** ** Sequences of writes *)

Lemma wview_app V ws ws' : wview V (ws ++ ws') = wview (wview V ws) ws'.
Proof. apply foldl_app. Qed.
Lemma wdisk_app D ws ws' : wdisk D (ws ++ ws') = wdisk (wdisk D ws) ws'.
Proof. apply foldl_app. Qed.
Lemma wview_ext V W ws m : V m = W m → wview V ws m = wview W ws m.
Proof.
  revert V W. induction ws as [|[n d] ws IH]; intros V W H; simpl; [done|].
  apply IH. unfold supd. by destruct (decide (m = n)).
Qed.
Lemma wview_other V ws m : (∀ d, (m, d) ∉ ws) → wview V ws m = V m.
Proof.
  revert V. induction ws as [|[n d] ws IH]; intros V H; simpl; [done|].
  rewrite IH by (intros d' Hd; apply (H d'); by apply list_elem_of_further).
  apply supd_ne. intros ->. apply (H d). apply list_elem_of_here.
Qed.
(** Every write of [m] writes [d]. *)
Lemma wview_same V ws m d :
  (∀ d', (m, d') ∈ ws → d' = d) → (m, d) ∈ ws ∨ V m = d → wview V ws m = d.
Proof.
  revert V. induction ws as [|[n e] ws IH]; intros V H Hor; simpl; [set_solver|].
  apply IH; [intros d' Hd; apply H; by apply list_elem_of_further|].
  destruct (decide (m = n)) as [->|Hne].
  - right. rewrite supd_eq. apply H. apply list_elem_of_here.
  - destruct Hor as [[Heq|Hin]%elem_of_cons|Hv]; [by simplify_eq|by left|].
    right. by rewrite supd_ne.
Qed.
Lemma disk_block_wdisk D ws m : disk_block (wdisk D ws) m = wview (disk_block D) ws m.
Proof.
  revert D. induction ws as [|[n d] ws IH]; intros D; simpl; [done|].
  rewrite IH. apply wview_ext. rewrite disk_block_insert. done.
Qed.

(** The writes to the log are to its slots. *)
Lemma elem_of_log_writes V st bs : ∀ i m d,
  (m, d) ∈ log_writes V st i bs ↔
  ∃ j b, bs !! j = Some b ∧ m = st + (i + Z.of_nat j) + 1 ∧ d = V b.
Proof.
  induction bs as [|b bs IH]; intros i m d; simpl; [set_solver|].
  rewrite elem_of_cons, IH. split.
  - intros [E|(j & c & Hj & -> & ->)].
    + simplify_eq. exists 0%nat, b. split; [done|]. split; [lia|done].
    + exists (S j), c. split; [done|]. split; [lia|done].
  - intros ([|j] & c & Hj & -> & ->); simpl in Hj.
    + simplify_eq. left. f_equal. lia.
    + right. exists j, c. split; [done|]. split; [lia|done].
Qed.
Lemma home_writes_fst V st bs : ∀ i m d, (m, d) ∈ home_writes V st i bs → m ∈ bs.
Proof.
  induction bs as [|b bs IH]; intros i m d; simpl; [set_solver|].
  intros [E|H]%elem_of_cons; [simplify_eq; apply list_elem_of_here|].
  apply list_elem_of_further. by eapply IH.
Qed.
Lemma home_writes_snd V st bs : ∀ i m d, (m, d) ∈ home_writes V st i bs → ∃ j, d = V j.
Proof.
  induction bs as [|b bs IH]; intros i m d; simpl; [set_solver|].
  intros [E|H]%elem_of_cons; [simplify_eq; by eexists|by eapply IH].
Qed.
Lemma length_log_writes V st bs : ∀ i, length (log_writes V st i bs) = length bs.
Proof. induction bs as [|b bs IH]; intros i; simpl; [done|]. by rewrite IH. Qed.

Section slots.
Context (V : Z → list Z) (st : Z) (bs : list Z) (Hfit : Z.of_nat (length bs) < LOGSIZE).

Lemma log_writes_slot W j b :
  bs !! j = Some b → wview W (log_writes V st 0 bs) (st + Z.of_nat j + 1) = V b.
Proof using All.
  intros Hj. apply wview_same.
  - intros d (j' & c & Hj' & E & ->)%elem_of_log_writes.
    assert (j = j') as <- by lia. congruence.
  - left. apply elem_of_log_writes. exists j, b. split; [done|]. split; [lia|done].
Qed.
Lemma log_writes_other W ws m : ws ⊆ log_writes V st 0 bs → m = st ∨ outside st m → wview W ws m = W m.
Proof using All.
  intros Hws Hm. apply wview_other. intros d Hd%Hws.
  apply elem_of_log_writes in Hd as (j & b & Hj & -> & _).
  apply lookup_lt_Some in Hj. unfold outside in Hm. lia.
Qed.
Lemma home_writes_log W :
  (∀ j b, bs !! j = Some b → W (st + Z.of_nat j + 1) = V b) →
  home_writes W st 0 bs = map (λ b, (b, V b)) bs.
Proof using All.
  assert (∀ i, (∀ j b, bs !! j = Some b → W (st + (i + Z.of_nat j) + 1) = V b) →
    home_writes W st i bs = map (λ b, (b, V b)) bs) as Hx.
  { clear Hfit. induction bs as [|b l IH]; intros i H; simpl; [done|].
    f_equal; [f_equal; rewrite <- (H 0%nat b) by done; f_equal; lia|].
    apply IH. intros j c Hj. rewrite <- (H (S j) c) by done. f_equal. lia. }
  intros H. apply Hx. apply H.
Qed.
End slots.

Lemma elem_of_home (V : Z → list Z) (bs : list Z) m d : (m, d) ∈ map (λ b, (b, V b)) bs ↔ m ∈ bs ∧ d = V m.
Proof.
  rewrite list_elem_of_fmap. split.
  - intros (b & E & Hb). by simplify_eq.
  - intros [Hm ->]. by exists m.
Qed.

(** ** Commit *)

(** What [commit] writes: the blocks to the log, the header, the blocks to
    their homes, the empty header. *)
Definition commit_writes (V : Z → list Z) (st : Z) (bs : list Z) : list (Z * list Z) :=
  let h := header bs (V st) in
  log_writes V st 0 bs ++ [(st, h)] ++ map (λ b, (b, V b)) bs ++ [(st, header [] h)].

(** A transaction that fits: distinct blocks outside the log. *)
Record txn (st : Z) (bs : list Z) : Prop := {
  tx_nodup : NoDup bs;
  tx_out : Forall (outside st) bs;
  tx_no : Forall blockno bs;
  tx_fit : Z.of_nat (length bs) < LOGSIZE;
}.

Section view.
Context (V : Z → list Z) (st : Z) (bs : list Z) (Htx : txn st bs).

Lemma txn_fit : Z.of_nat (length bs) < LOGSIZE.
Proof using Htx. destruct Htx. lia. Qed.
Lemma txn_not_start : st ∉ bs.
Proof using Htx.
  intros Hst. pose proof (tx_out _ _ Htx) as H. rewrite Forall_forall in H.
  apply H in Hst. unfold outside, LOGSIZE, MAXOPBLOCKS in Hst. lia.
Qed.
Lemma txn_not_slot j b : bs !! j = Some b → st + Z.of_nat j + 1 ∉ bs.
Proof using Htx.
  intros Hj Hst. pose proof (tx_out _ _ Htx) as H. rewrite Forall_forall in H.
  apply H in Hst. apply lookup_lt_Some in Hj. pose proof txn_fit. unfold outside in Hst. lia.
Qed.

(** The view when [install_trans] runs. *)
Lemma after_log W j b :
  bs !! j = Some b →
  wview W (log_writes V st 0 bs ++ [(st, header bs (V st))]) (st + Z.of_nat j + 1) = V b.
Proof using Htx.
  intros Hj. rewrite wview_app. simpl. rewrite supd_ne by lia.
  by apply log_writes_slot; [apply txn_fit|].
Qed.
Lemma after_head W :
  wview W (log_writes V st 0 bs ++ [(st, header bs (V st))]) st = header bs (V st).
Proof using. rewrite wview_app. apply supd_eq. Qed.
Lemma home_other W ws m : ws ⊆ map (λ b, (b, V b)) bs → m ∉ bs → wview W ws m = W m.
Proof using.
  intros Hws Hm. apply wview_other. intros d Hd%Hws. by apply elem_of_home in Hd as [? _].
Qed.
Lemma home_in W m : m ∈ bs → wview W (map (λ b, (b, V b)) bs) m = V m.
Proof using.
  intros Hm. apply wview_same; [|left; by apply elem_of_home].
  intros d Hd. by apply elem_of_home in Hd as [_ ?].
Qed.
End view.

Lemma log_ok_zero s bs : log_ok s bs → log_ok (upd_log (set_lh_n 0) s) [].
Proof. intros [H1 H2 H3 H4 H5]. by split. Qed.

(** The writes up to the commit point. *)
Lemma log_phase p s V bs :
  let st := lg_start (k_log s) in
  let ws := log_writes V st 0 bs ++ [(st, header bs (V st))] in
  bcache_inv p s ∅ (list_to_set bs) V → log_ok s bs → txn st bs →
  ∃ s', (write_log;; write_head) s = Ok () s' ∧ bcache_inv p s' ∅ (list_to_set bs) (wview V ws) ∧
    quiet s s' ∧ k_disk s' = wdisk (k_disk s) ws ∧ k_hist s' = k_hist s ++ ws.
Proof.
  intros st ws H HL Htx. pose proof HL as [L1 L2 L3 L4 L5]. pose proof Htx as [T1 T2 T3 T4].
  assert (size (list_to_set bs : gset Z) < NBUF)%nat as Hsz.
  { rewrite size_list_to_set by done. unfold NBUF, LOGSIZE, MAXOPBLOCKS in *. lia. }
  destruct (write_log_loop p bs 0 s _ V H L1 L3) as (s1 & E1 & H1 & Q1 & D1 & W1);
    [|set_solver|lia|lia|done|].
  { intros b Hb. rewrite Forall_forall in T2. apply T2. set_solver. }
  fold st in H1, D1, W1.
  erewrite bind_Ok; [|unfold write_log; msteps; rewrite L2, Nat2Z.id; exact E1].
  assert (lg_start (k_log s1) = st) as S1 by (by destruct Q1 as [_ ->]).
  destruct (write_head_Ok p s1 _ _ bs H1 (log_ok_quiet _ _ _ Q1 HL) Hsz)
    as (s2 & E2 & H2 & Q2 & D2 & W2).
  rewrite S1 in H2, D2, W2.
  rewrite (log_writes_other V st bs L5 V) in H2, D2, W2 by (done || by left).
  exists s2. split; [done|]. unfold ws. rewrite wview_app, wdisk_app, app_assoc.
  split; [done|]. split; [by eapply quiet_trans|]. by rewrite D2, W2, D1, W1.
Qed.

(** The writes after it; recovery makes them too. *)
Lemma install_phase p (recovering : bool) s W bs pins :
  let st := lg_start (k_log s) in
  let ws := home_writes W st 0 bs ++ [(st, header [] (W st))] in
  bcache_inv p s ∅ pins W → log_ok s bs → Forall (outside st) bs →
  (if recovering then pins = ∅ else pins = list_to_set bs ∧ NoDup bs ∧ (length bs < NBUF)%nat) →
  ∃ s', (install_trans recovering;; modify (upd_log (set_lh_n 0));; write_head) s = Ok () s' ∧
    bcache_inv p s' ∅ ∅ (wview W ws) ∧
    log_ok s' [] ∧ io_frame s s' ∧ k_log s' = set_lh_n 0 (k_log s) ∧
    k_disk s' = wdisk (k_disk s) ws ∧ k_hist s' = k_hist s ++ ws.
Proof.
  intros st ws H HL Hout Hm. pose proof HL as [L1 L2 L3 L4 L5]. rewrite Forall_forall in Hout.
  destruct (install_loop p recovering bs 0 s _ _ H L1 L3) as (s1 & E1 & H1 & Q1 & D1 & W1); [| |lia|lia|].
  { intros b Hb. apply Hout. destruct recovering; [|destruct Hm]; subst; set_solver. }
  { destruct recovering; [done|]. destruct Hm as (-> & Hnd & Hl). split; [done|].
    split; [set_solver|]. by rewrite size_list_to_set. }
  fold st in H1, D1, W1.
  erewrite bind_Ok; [|unfold install_trans; msteps; rewrite L2, Nat2Z.id; exact E1].
  replace (unpinned recovering pins bs) with (∅ : gset Z) in H1.
  2:{ unfold unpinned. destruct recovering; [done|]. destruct Hm as [-> _]. set_solver. }
  pose proof (log_ok_zero _ _ (log_ok_quiet _ _ _ Q1 HL)) as HL1. erewrite bind_Ok by done.
  apply (bcache_inv_log _ _ _ _ _ (set_lh_n 0)) in H1.
  destruct (write_head_Ok p _ _ _ [] H1 HL1) as (s2 & E2 & H2 & Q2 & D2 & W2);
    [rewrite size_empty; unfold NBUF; lia|].
  destruct Q1 as [F1 Q1]. change (lg_start (k_log (upd_log (set_lh_n 0) s1))) with (lg_start (k_log s1)) in *.
  rewrite Q1 in H2, D2, W2. fold st in H2, D2, W2.
  assert (wview W (home_writes W st 0 bs) st = W st) as Ew.
  { apply wview_other. intros d Hd. pose proof (home_writes_fst _ _ _ _ _ _ Hd) as Hb.
    apply Hout in Hb. unfold outside, LOGSIZE, MAXOPBLOCKS in Hb. lia. }
  rewrite Ew in H2, D2, W2. exists s2. split; [done|]. unfold ws. rewrite wview_app, wdisk_app, app_assoc.
  split; [done|]. split; [by eapply log_ok_quiet|]. destruct Q2 as [F2 Q2].
  split; [eapply io_frame_trans; [exact F1|]; by eapply io_frame_trans; [apply io_frame_log|]|].
  rewrite Q2, D2, W2. simpl. by rewrite Q1, D1, W1.
Qed.

Lemma commit_Ok p s V bs :
  let st := lg_start (k_log s) in
  bcache_inv p s ∅ (list_to_set bs) V → log_ok s bs → txn st bs → bs ≠ [] →
  ∃ s', commit s = Ok () s' ∧ bcache_inv p s' ∅ ∅ (wview V (commit_writes V st bs)) ∧
    log_ok s' [] ∧ io_frame s s' ∧ k_log s' = set_lh_n 0 (k_log s) ∧
    k_disk s' = wdisk (k_disk s) (commit_writes V st bs) ∧
    k_hist s' = k_hist s ++ commit_writes V st bs.
Proof.
  intros st H HL Htx Hne. pose proof Htx as [T1 T2 T3 T4].
  destruct (log_phase p s V bs H HL Htx) as (s1 & E1 & H1 & Q1 & D1 & W1).
  pose proof Q1 as [F1 L1].
  destruct (install_phase p false s1 _ bs _ H1 (log_ok_quiet _ _ _ Q1 HL))
    as (s2 & E2 & H2 & HL2 & F2 & L2 & D2 & W2); [by rewrite L1| |].
  { split; [done|]. split; [done|]. unfold NBUF, LOGSIZE, MAXOPBLOCKS in *. lia. }
  rewrite L1 in H2, L2, D2, W2. fold st in H1, D1, W1, H2, D2, W2.
  rewrite (home_writes_log V st bs (txn_fit _ _ Htx)) in H2, D2, W2 by (by apply after_log).
  rewrite after_head in H2, D2, W2.
  assert (commit_writes V st bs = (log_writes V st 0 bs ++ [(st, header bs (V st))]) ++
    (map (λ b, (b, V b)) bs ++ [(st, header [] (header bs (V st)))])) as Ec
    by (unfold commit_writes; by rewrite <- app_assoc).
  exists s2. rewrite Ec, wview_app, wdisk_app, app_assoc, <- W1, <- D1. split; [|by split; [|split; [|split; [eapply io_frame_trans|]]]].
  unfold commit. msteps. rewrite (lo_n _ _ HL). destruct (0 <? Z.of_nat (length bs)) eqn:E0;
    [|destruct bs; [done|apply Z.ltb_ge in E0; simpl in E0; lia]]. cbn [when].
  erewrite bind_assoc_Ok by exact E1. exact E2.
Qed.

(** ** Recovery *)

Definition recover_writes (W : Z → list Z) (st : Z) : list (Z * list Z) :=
  home_writes W st 0 (head_blocks (W st)) ++ [(st, header [] (W st))].
(** What recovery leaves on a disk with the contents [W]. *)
Definition recovered (W : Z → list Z) (st : Z) : Z → list Z := wview W (recover_writes W st).

(** The header on the disk is one [commit] wrote. *)
Definition head_ok (W : Z → list Z) (st : Z) : Prop :=
  0 ≤ head_n (W st) < LOGSIZE ∧ Forall (outside st) (head_blocks (W st)).

Lemma recover_Ok p s W :
  let st := lg_start (k_log s) in
  bcache_inv p s ∅ ∅ W → lg_dev (k_log s) = ROOTDEV →
  length (lh_block (k_log s)) = Z.to_nat LOGSIZE → head_ok W st →
  ∃ s', recover_from_log s = Ok () s' ∧ bcache_inv p s' ∅ ∅ (recovered W st) ∧ log_ok s' [] ∧
    io_frame s s' ∧ lg_start (k_log s') = st ∧
    k_disk s' = wdisk (k_disk s) (recover_writes W st) ∧
    k_hist s' = k_hist s ++ recover_writes W st.
Proof.
  intros st H Hdev Hlen [Hn Hout].
  destruct (read_head_Ok p s ∅ W H Hdev Hlen) as (s1 & E1 & H1 & HL1 & F1 & S1 & D1 & W1);
    [rewrite size_empty; unfold NBUF; lia|set_solver|done|]. fold st in HL1, S1.
  destruct (install_phase p true s1 W _ ∅ H1 HL1) as (s2 & E2 & H2 & HL2 & F2 & L2 & D2 & W2);
    [by rewrite S1|done|].
  rewrite S1 in H2, D2, W2. fold (recover_writes W st) in H2, D2, W2.
  exists s2. unfold recover_from_log. erewrite bind_Ok by exact E1. split; [done|].
  split; [done|]. split; [done|]. split; [by eapply io_frame_trans|].
  rewrite L2, D2, W2, D1, W1. done.
Qed.

(** A machine that has just booted: the cache is empty, the log is in
    zero-initialised memory. *)
Record fresh (p : nat) (s : kst) : Prop := {
  fr_run : running p s;
  fr_bufs : k_bufs s = boot_bufs;
  fr_log : length (lh_block (k_log s)) = Z.to_nat LOGSIZE;
}.
Definition blocks_ok (D : gmap Z (list Z)) : Prop :=
  ∀ n, length (disk_block D n) = Z.to_nat BSIZE.

Lemma initlog_Ok p s sb :
  fresh p s → blocks_ok (k_disk s) → blockno (sb_logstart sb) →
  let st := sb_logstart sb in let W := disk_block (k_disk s) in
  head_ok W st →
  ∃ s', initlog ROOTDEV sb s = Ok () s' ∧ bcache_inv p s' ∅ ∅ (recovered W st) ∧ log_ok s' [] ∧
    io_frame s s' ∧ lg_start (k_log s') = st ∧
    k_disk s' = wdisk (k_disk s) (recover_writes W st) ∧
    k_hist s' = k_hist s ++ recover_writes W st.
Proof.
  intros [R1 R2 R3] HD Hst st W Hh. unfold initlog.
  change (BSIZE <=? sizeof_logheader) with false. cbv iota.
  rewrite (i32_id (sb_logstart sb)) by (unfold blockno in Hst; lia). fold st. msteps.
  set (s1 := upd_log _ _). assert (bcache_inv p s1 ∅ ∅ W) as H1
    by (do 3 apply bcache_inv_log; by apply boot_cache_inv).
  destruct (recover_Ok p s1 W H1) as (s2 & E2 & H2 & HL2 & F2 & S2 & D2 & W2); [done..|].
  exists s2. split; [done|]. split; [done|]. split; [done|].
  split; [|done]. eapply io_frame_trans; [|exact F2]. do 2 (eapply io_frame_trans; [apply io_frame_log|]).
  apply io_frame_log.
Qed.

(** ** Crashes *)

Lemma take_commit V st bs k :
  let L := log_writes V st 0 bs in let h := header bs (V st) in
  let H := map (λ b, (b, V b)) bs in
  (k ≤ length bs)%nat ∧ take k (commit_writes V st bs) = take k L ∨
  (length bs < k)%nat ∧ (∃ j, take k (commit_writes V st bs) = L ++ [(st, h)] ++ take j H) ∨
  (length bs < k)%nat ∧ take k (commit_writes V st bs) = L ++ [(st, h)] ++ H ++ [(st, header [] h)].
Proof.
  intros L h H. unfold commit_writes. fold L h H.
  assert (length L = length bs) as HL by apply length_log_writes.
  assert (length H = length bs) as HH by apply length_map.
  destruct (decide (k ≤ length bs)%nat) as [Hk|Hk]; [left|right].
  { split; [done|]. apply take_app_le. lia. }
  rewrite take_app_ge by lia. rewrite HL. destruct (k - length bs)%nat as [|j] eqn:Ej; [lia|].
  simpl. destruct (decide (j ≤ length bs)%nat) as [Hj|Hj]; [left|right]; (split; [lia|]).
  - exists j. by rewrite take_app_le by lia.
  - rewrite take_ge; [done|]. rewrite length_app. simpl. lia.
Qed.

Lemma head_n_empty d : length d = Z.to_nat BSIZE → head_n (header [] d) = 0.
Proof. intros Hd. apply (head_n_header []); [|done]. simpl. unfold LOGSIZE, MAXOPBLOCKS. lia. Qed.
Lemma wview_hit V W ws m d : (m, d) ∈ ws → wview V ws m = wview W ws m.
Proof.
  revert V W. induction ws as [|[n e] ws IH]; intros V W; simpl; [set_solver|].
  intros [E|H]%elem_of_cons; [|by eapply IH]. apply wview_ext. simplify_eq. by rewrite !supd_eq.
Qed.

Lemma recovered_empty st W m : head_n (W st) = 0 → m ≠ st → recovered W st m = W m.
Proof.
  intros Hn Hm. unfold recovered, recover_writes. rewrite head_blocks_nil by done. by apply supd_ne.
Qed.
Lemma head_ok_empty st W : head_n (W st) = 0 → head_ok W st.
Proof.
  intros Hn. unfold head_ok. rewrite head_blocks_nil, Hn by done. split; [|done].
  unfold LOGSIZE, MAXOPBLOCKS. lia.
Qed.

(** A crash while recovering: recovery can start again. *)
Lemma recovered_again st W k :
  head_ok W st → length (W st) = Z.to_nat BSIZE →
  let W' := wview W (take k (recover_writes W st)) in
  head_ok W' st ∧ ∀ b, outside st b → recovered W' st b = recovered W st b.
Proof.
  intros Hh Hl. pose proof Hh as [Hn Hout]. rewrite Forall_forall in Hout.
  assert (∀ b, outside st b → b ≠ st) as Hne by (unfold outside, LOGSIZE, MAXOPBLOCKS; lia).
  set (ws := home_writes W st 0 (head_blocks (W st))).
  assert (∀ X m, ¬ outside st m → wview X (take k ws) m = X m) as Hx.
  { intros X m Hm. apply wview_other. intros d Hd%subseteq_take. by apply home_writes_fst, Hout in Hd. }
  destruct (decide (k ≤ length ws)%nat) as [Hk|Hk]; intros W'.
  - assert (W' = wview W (take k ws)) as E.
    { unfold W', recover_writes. fold ws. by rewrite take_app_le. }
    assert (W' st = W st) as Est.
    { rewrite E. apply Hx. unfold outside, LOGSIZE, MAXOPBLOCKS. lia. }
    split; [unfold head_ok; by rewrite Est|]. intros b Hb. unfold recovered, recover_writes.
    rewrite Est, !wview_app. simpl. rewrite !supd_ne by auto.
    rewrite (home_writes_ext W' W), E; fold ws.
    2:{ intros j Hj. rewrite E. apply Hx. unfold head_blocks in Hj. rewrite length_map, length_seq in Hj.
        unfold outside. lia. }
    destruct (decide (b ∈ ws.*1)) as [Hin|Hin].
    + apply list_elem_of_fmap in Hin as ([b' d] & -> & Hin). by eapply wview_hit.
    + apply wview_ext, wview_other. intros d Hd%subseteq_take. apply Hin, list_elem_of_fmap. by exists (b, d).
  - assert (W' = recovered W st) as ->.
    { unfold W', recovered. rewrite take_ge; [done|]. unfold recover_writes. fold ws. rewrite length_app. simpl. lia. }
    assert (head_n (recovered W st st) = 0) as Hz.
    { unfold recovered, recover_writes. rewrite wview_app. simpl. rewrite supd_eq. by apply head_n_empty. }
    split; [by apply head_ok_empty|]. intros b Hb. by apply recovered_empty; auto.
Qed.

Section crash.
(** The disk [D] before the commit: its log is empty, and it agrees with the
    cache on every block that is not part of the transaction. *)
Context (D V : Z → list Z) (st : Z) (bs : list Z).
Context (Htx : txn st bs) (Hempty : head_n (D st) = 0) (Hclean : ∀ b, b ∉ bs → V b = D b).
Context (Hlen : length (V st) = Z.to_nat BSIZE).

Definition crashed (k : nat) : Z → list Z := wview D (take k (commit_writes V st bs)).

(** Before the commit point. *)
Lemma crash_before k W :
  W = wview D (take k (log_writes V st 0 bs)) →
  head_n (W st) = 0 ∧ ∀ b, outside st b → W b = D b.
Proof using Htx Hempty.
  intros ->. assert (∀ m, m = st ∨ outside st m →
    wview D (take k (log_writes V st 0 bs)) m = D m) as Hx.
  { intros m Hm. apply (log_writes_other V st bs (txn_fit _ _ Htx)); [|done].
    intros x. apply subseteq_take. }
  split; [rewrite Hx by (by left); done|]. intros b Hb. apply Hx. by right.
Qed.
(** Between the commit point and the end. *)
Lemma crash_middle j W :
  W = wview D (log_writes V st 0 bs ++ [(st, header bs (V st))] ++ take j (map (λ b, (b, V b)) bs)) →
  W st = header bs (V st) ∧ (∀ i b, bs !! i = Some b → W (st + Z.of_nat i + 1) = V b) ∧
  ∀ b, outside st b → b ∉ bs → W b = D b.
Proof using Htx.
  intros ->. rewrite app_assoc, wview_app.
  assert (∀ W m, m ∉ bs → wview W (take j (map (λ b, (b, V b)) bs)) m = W m) as Hx.
  { intros W m Hm. apply (home_other V bs); [|done]. intros x. apply subseteq_take. }
  split; [rewrite Hx by (by eapply txn_not_start); apply after_head|]. split.
  - intros i b Hi. rewrite Hx by (by eapply txn_not_slot). by apply after_log.
  - intros b Hb Hn. rewrite Hx, wview_app by done. simpl.
    rewrite supd_ne by (clear Hlen; unfold outside, LOGSIZE, MAXOPBLOCKS in Hb; lia).
    apply (log_writes_other V st bs (txn_fit _ _ Htx)); [done|by right].
Qed.

(** Recovery after a crash: the old contents or the new ones. *)
Lemma recovered_crash k :
  head_ok (crashed k) st ∧
  ∀ b, outside st b → recovered (crashed k) st b = if decide (k ≤ length bs)%nat then D b else V b.
Proof using All.
  pose proof (txn_fit _ _ Htx) as Hfit.
  assert (∀ b, outside st b → b ≠ st) as Hne by (unfold outside, LOGSIZE, MAXOPBLOCKS; lia).
  destruct (take_commit V st bs k) as [[Hk E]|[[Hk [j E]]|[Hk E]]];
    unfold crashed; rewrite E.
  - destruct (crash_before k _ eq_refl) as [H1 H2]. split; [by apply head_ok_empty|].
    intros b Hb. rewrite decide_True, recovered_empty by auto. by apply H2.
  - destruct (crash_middle j _ eq_refl) as (H1 & H2 & H3). set (W := wview _ _) in *.
    assert (head_blocks (W st) = bs) as Hbs.
    { rewrite H1. apply head_blocks_header; [lia|done|apply Htx]. }
    split.
    + split; [rewrite H1, head_n_header by (lia || done); lia|]. rewrite Hbs. apply Htx.
    + intros b Hb. rewrite decide_False by lia.
      unfold recovered, recover_writes. rewrite Hbs, wview_app. simpl.
      rewrite supd_ne by auto. rewrite (home_writes_log V st bs Hfit) by done.
      destruct (decide (b ∈ bs)); [by apply home_in|]. rewrite (home_other V bs) by done.
      rewrite Hclean by done. by apply H3.
  - destruct (crash_middle (length bs) _ eq_refl) as (H1 & H2 & H3).
    rewrite take_ge in H1, H2, H3 by (by rewrite length_map).
    rewrite !app_assoc, wview_app. rewrite app_assoc in H1, H2, H3. set (W := wview _ _) in H1, H2, H3 |- *.
    simpl. assert (head_n (supd W st (header [] (header bs (V st))) st) = 0) as Hz.
    { rewrite supd_eq. apply head_n_empty. apply length_header; [lia|done]. }
    split; [by apply head_ok_empty|]. intros b Hb.
    rewrite decide_False by lia. rewrite recovered_empty by auto. rewrite supd_ne by auto.
    destruct (decide (b ∈ bs)); [|rewrite Hclean by done; by apply H3].
    unfold W. rewrite wview_app. by apply home_in.
Qed.

End crash.
