(* ===== verification/LogTx.v ===== *)
(** * Transactions: begin_op, log_write and end_op

    The interface of the log to the file system.  [tx_inv] is the situation of
    a thread inside [begin_op] ... [end_op]; [V] is the logical contents of
    the disk the transaction sees and changes, [bs] the blocks it has logged. *)

From stdpp Require Import options.
From S2P Require Import Prelude CString State Sched Sleeplock Bio BioList BioSpec Block Log LogSpec LogCrash.
#[local] Open Scope Z_scope.

Record tx_inv (p : nat) (s : kst) (held : gset nat) (bs : list Z) (V : Z → list Z) : Prop := {
  ti_cache : bcache_inv p s held (list_to_set bs) V;
  ti_log : log_ok s bs;
  ti_txn : txn (lg_start (k_log s)) bs;
  ti_comm : lg_committing (k_log s) = 0;
  ti_size : lg_size (k_log s) = LOGSIZE;
  ti_head : head_n (disk_block (k_disk s) (lg_start (k_log s))) = 0;
}.

(** Updates of the counters of the log. *)
Lemma tx_inv_upd p s held bs V f :
  (∀ l, lg_dev (f l) = lg_dev l ∧ lg_start (f l) = lg_start l ∧ lg_size (f l) = lg_size l ∧
    lh_n (f l) = lh_n l ∧ lh_block (f l) = lh_block l ∧ lg_committing (f l) = lg_committing l) →
  tx_inv p s held bs V → tx_inv p (upd_log f s) held bs V.
Proof.
  intros Hf [H1 [L1 L2 L3 L4 L5] H3 H4 H5 H6]. destruct (Hf (k_log s)) as (E1 & E2 & E3 & E4 & E5 & E6).
  split; simpl; rewrite ?E1, ?E2, ?E3, ?E4, ?E5, ?E6; try done.
  - by apply bcache_inv_log.
  - split; simpl; rewrite ?E1, ?E2, ?E3, ?E4, ?E5; try done.
    intros j b Hj. unfold lh_blk. simpl. rewrite E5. by apply L3.
Qed.

(** ** begin_op *)

(** The log has room for one more operation. *)
Definition room (l : log) : Prop :=
  lg_committing l = 0 ∧ lh_n l + (lg_outstanding l + 1) * MAXOPBLOCKS ≤ LOGSIZE.
#[global] Instance room_dec l : Decision (room l).
Proof. apply _. Defined.

Definition one_more (l : log) : log := set_lg_outstanding (lg_outstanding l + 1) l.

Lemma begin_op_try_Ok s :
  k_held s = [LK_log] → room (k_log s) →
  begin_op_try () s = Ok (inr ()) (set_k_held [] (upd_log one_more s)).
Proof.
  intros Hh [Hc Hr]. unfold begin_op_try. msteps. rewrite Hc. cbn [Z.eqb negb].
  rewrite (proj2 (Z.ltb_ge _ _) Hr). msteps. by rewrite (bind_release _ []).
Qed.
Lemma begin_op_Ok p s :
  running p s → room (k_log s) → begin_op s = Ok () (upd_log one_more s).
Proof.
  intros [R1 R2 R3 R4] Hr. unfold begin_op. rewrite bind_acquire by (rewrite R2; set_solver).
  rewrite R2. eapply mloop_done. rewrite begin_op_try_Ok by done.
  f_equal. change (upd_log one_more (set_k_held [LK_log] s)) with (set_k_held [LK_log] (upd_log one_more s)).
  rewrite set_k_held_twice. by apply set_k_held_id.
Qed.

(** Without room the caller sleeps on [&log], to look again when woken. *)
Lemma begin_op_sleeps p s :
  running p s → ¬ room (k_log s) →
  ∃ k, begin_op s = Yield (asleep p Ch_log s) k ∧
    ∀ s2, k_held s2 = [LK_proc p] → room (k_log s2) →
      k s2 = Ok () (upd_log one_more (set_k_held [] (upd_proc p (set_p_chan None) s2))).
Proof.
  intros [R1 R2 R3 R4] Hr. unfold begin_op. rewrite bind_acquire by (rewrite R2; set_solver).
  rewrite R2. set (s1 := set_k_held [LK_log] s).
  destruct (sleep_yields Ch_log LK_log p s1) as (k & Hy & Hk); [done|simpl; lia|done|done|].
  change WAKEUPS with (S (S 62)). generalize 62%nat as n. intros n. eexists. split.
  { apply mloop_yields. unfold begin_op_try. rewrite bind_gets. change (k_log s1) with (k_log s).
    destruct (lg_committing (k_log s) =? 0) eqn:Ec; simpl; [|by apply bind_yields; exact Hy].
    destruct (LOGSIZE <? _) eqn:El; [by apply bind_yields; exact Hy|].
    exfalso. apply Hr. apply Z.eqb_eq in Ec. apply Z.ltb_ge in El. done. }
  intros s2 H2 Hr2. cbv beta. rewrite (Hk s2 H2). cbn [res_bind]. rewrite ret_Ok. cbn [res_bind].
  eapply mloop_done. by rewrite begin_op_try_Ok.
Qed.

(** ** log_write *)

(** The logged blocks with [n] among them. *)
Definition logged (bs : list Z) (n : Z) : list Z := if decide (n ∈ bs) then bs else bs ++ [n].

Lemma log_ok_take s bs : log_ok s bs → take (length bs) (lh_block (k_log s)) = bs.
Proof.
  intros [L1 L2 L3 L4 L5]. apply list_eq. intros j. destruct (decide (j < length bs)%nat) as [Hj|Hj].
  - rewrite lookup_take_lt by done. destruct (lookup_lt_is_Some_2 _ _ Hj) as [b Hb].
    pose proof (L3 j b Hb) as E. unfold lh_blk in E. rewrite Z.add_0_l, Nat2Z.id in E.
    destruct (lookup_lt_is_Some_2 (lh_block (k_log s)) j) as [c Hc];
      [rewrite L4; unfold LOGSIZE, MAXOPBLOCKS in *; lia|].
    rewrite Hc in E. simpl in E. congruence.
  - rewrite lookup_take_ge by lia. symmetry. apply lookup_ge_None. lia.
Qed.

(** The slot [log_write] chooses, and the header it leaves. *)
Lemma log_index_spec s bs n :
  log_ok s bs → Forall blockno bs → blockno n →
  ∃ i, log_index s n = Z.of_nat i ∧ if decide (n ∈ bs) then bs !! i = Some n else i = length bs.
Proof.
  intros HL Hb Hn. unfold log_index. rewrite (lo_n _ _ HL), Nat2Z.id, log_ok_take by done.
  rewrite Forall_forall in Hb.
  assert (∀ x, x ∈ bs → u32 x = n ↔ x = n) as Hu.
  { intros x Hx%Hb. unfold blockno in *. rewrite u32_id by lia. done. }
  destruct (list_find _ bs) as [[i x]|] eqn:E.
  - apply list_find_Some in E as (Hi & Hx & _). exists i. split; [done|].
    pose proof (list_elem_of_lookup_2 _ _ _ Hi) as Hin.
    apply (Hu x Hin) in Hx. subst x. by rewrite decide_True.
  - exists (length bs). split; [done|]. rewrite decide_False; [done|]. intros Hin.
    apply list_find_None in E. rewrite Forall_forall in E. apply (E n Hin). by apply Hu.
Qed.

Lemma names_logged s s' bs i n :
  log_ok s bs → (i < Z.to_nat LOGSIZE)%nat →
  (if decide (n ∈ bs) then bs !! i = Some n else i = length bs) →
  lh_block (k_log s') = <[i := n]> (lh_block (k_log s)) →
  names s' 0 (logged bs n).
Proof.
  intros HL Hi Hin E j b Hj. unfold lh_blk. rewrite E, Z.add_0_l, Nat2Z.id.
  destruct (decide (i = j)) as [<-|Hne].
  - rewrite list_lookup_insert_eq by (by rewrite (lo_len _ _ HL)). simpl. unfold logged in Hj.
    destruct (decide (n ∈ bs)); [congruence|]. subst i. rewrite lookup_app_r, Nat.sub_diag in Hj by done.
    by injection Hj.
  - rewrite list_lookup_insert_ne by done. assert (bs !! j = Some b) as Hb.
    { unfold logged in Hj. destruct (decide (n ∈ bs)); [done|]. subst i.
      apply lookup_app_Some in Hj as [?|[? Hj]]; [done|].
      apply list_lookup_singleton_Some in Hj as [? _]. lia. }
    pose proof (lo_names _ _ HL j b Hb) as En. unfold lh_blk in En. by rewrite Z.add_0_l, Nat2Z.id in En.
Qed.

Lemma txn_logged st bs n :
  txn st bs → outside st n → blockno n → Z.of_nat (length bs) < LOGSIZE - 1 → txn st (logged bs n).
Proof.
  intros [T1 T2 T3 T4] Ho Hn Hl. unfold logged. destruct (decide (n ∈ bs)); [done|]. split.
  - apply NoDup_app. split; [done|]. split; [set_solver|apply NoDup_singleton].
  - apply Forall_app. by split; [|apply Forall_singleton].
  - apply Forall_app. by split; [|apply Forall_singleton].
  - rewrite length_app. simpl. lia.
Qed.

(** The log after [log_write] put [n] in slot [i]. *)
Lemma tx_logged p s s' held bs V n i :
  tx_inv p s held bs V → outside (lg_start (k_log s)) n → blockno n →
  Z.of_nat (length bs) < LOGSIZE - 1 →
  (if decide (n ∈ bs) then bs !! i = Some n else i = length bs) →
  bcache_inv p s' held (list_to_set (logged bs n)) V → k_disk s' = k_disk s →
  k_log s' = set_lh_n (Z.of_nat (length (logged bs n))) (set_lh_block (<[i := n]> (lh_block (k_log s))) (k_log s)) →
  tx_inv p s' held (logged bs n) V.
Proof.
  intros [H HL Htx Hcm Hsz Hh] Ho Hn Hl Hi H' HD E.
  pose proof (txn_logged _ _ _ Htx Ho Hn Hl) as Htx'.
  split; rewrite ?E, ?HD; try done. split; rewrite ?E; simpl; try done.
  - apply HL.
  - eapply (names_logged s); [done| |done|by rewrite E].
    unfold LOGSIZE, MAXOPBLOCKS in *. destruct (decide (n ∈ bs)); [apply lookup_lt_Some in Hi|]; lia.
  - rewrite length_insert. apply HL.
  - apply Htx'.
Qed.

(** Logging a block of a held buffer: it is pinned, once. *)
Lemma log_write_Ok p s held bs V b n :
  tx_inv p s held bs V → b ∈ held → cached s b n →
  outside (lg_start (k_log s)) n → blockno n → 1 ≤ lg_outstanding (k_log s) →
  Z.of_nat (length bs) < LOGSIZE - 1 →
  ∃ s', log_write b s = Ok () s' ∧ tx_inv p s' held (logged bs n) V ∧
    (∀ i m, cached s' i m ↔ cached s i m) ∧ io_frame s s' ∧
    k_disk s' = k_disk s ∧ k_hist s' = k_hist s ∧
    lg_start (k_log s') = lg_start (k_log s) ∧ lg_outstanding (k_log s') = lg_outstanding (k_log s).
Proof.
  intros [H HL Htx Hcm Hsz Hh] Hb Hc Ho Hn Hou Hl. pose proof (bi_run _ _ _ _ _ H) as [R1 R2 R3 R4].
  unfold log_write. rewrite bind_acquire by (rewrite R2; set_solver). rewrite R2. msteps. simpl.
  rewrite (lo_n _ _ HL), Hsz. destruct (Z.leb_spec LOGSIZE (Z.of_nat (length bs))); [lia|].
  destruct (Z.leb_spec (LOGSIZE - 1) (Z.of_nat (length bs))); [lia|].
  destruct (Z.ltb_spec (lg_outstanding (k_log s)) 1); [lia|]. simpl. msteps.
  pose proof Hc as (Hlt & Hdev & Hbn).
  change (buf_of (set_k_held [LK_log] s) b) with (buf_of s b). rewrite Hbn.
  change (log_index (set_k_held [LK_log] s) n) with (log_index s n).
  destruct (log_index_spec s bs n HL (tx_no _ _ Htx) Hn) as (i & -> & Hi).
  rewrite (i32_id n) by (unfold blockno in Hn; lia).
  set (s1 := upd_log (set_lh_blk (Z.of_nat i) n) s).
  change (upd_log (set_lh_blk (Z.of_nat i) n) (set_k_held [LK_log] s)) with (set_k_held [LK_log] s1).
  change (lh_n (k_log (set_k_held [LK_log] s1))) with (lh_n (k_log s)). rewrite (lo_n _ _ HL).
  assert (bcache_inv p s1 held (list_to_set bs) V) as H1' by (by apply bcache_inv_log).
  assert (io_frame s s1) as F1 by apply io_frame_log.
  assert (set_k_held [] s1 = s1) as Hid by (by apply set_k_held_id).
  destruct (decide (n ∈ bs)) as [Hin|Hin].
  - destruct (Z.eqb_spec (Z.of_nat i) (Z.of_nat (length bs)));
      [apply lookup_lt_Some in Hi; lia|]. cbn [when]. msteps.
    exists s1. rewrite (release_top _ []), set_k_held_twice, Hid by done.
    split; [done|]. split; [|done]. apply (tx_logged p s s1 held bs V n i); try done.
    + by rewrite decide_True.
    + unfold logged. by rewrite decide_True.
    + unfold logged, s1. simpl. unfold set_lh_blk. rewrite decide_True, Nat2Z.id by done.
      rewrite <- (lo_n _ _ HL). by destruct (k_log s).
  - subst i. rewrite Z.eqb_refl. cbn [when].
    set (s2 := upd_log (λ l, set_lh_n (lh_n l + 1) l) (upd_buf b incr_ref s1)).
    rewrite (bind_Ok _ _ _ () (set_k_held [LK_log] s2)).
    2:{ erewrite bind_Ok by (apply bpin_Ok; simpl; set_solver). done. }
    exists s2. rewrite (release_top _ []), set_k_held_twice by done.
    split; [f_equal; by apply set_k_held_id|]. split; [|split; [|split; [|done]]].
    + apply (tx_logged p s s2 held bs V n (length bs)); try done.
      * by rewrite decide_False.
      * unfold s2, logged. rewrite decide_False by done. apply bcache_inv_log.
        rewrite list_to_set_app_L. simpl. rewrite union_empty_r_L, union_comm_L.
        apply (bpin_inv p s1 held _ V b n H1' Hb Hc). set_solver.
      * unfold logged, s2, s1. simpl. unfold set_lh_blk. rewrite decide_False, Nat2Z.id by done.
        rewrite length_app, Nat2Z.inj_add. simpl. rewrite (lo_n _ _ HL). by destruct (k_log s).
    + intros j m. apply (cached_upd p s1 held _ V b n H1' Hb Hc). done.
    + eapply io_frame_trans; [exact F1|]. eapply io_frame_trans; [|apply io_frame_log].
      apply bufs_only_frame. by destruct s.
Qed.

(** ** The cache inside a transaction *)

(** What a step inside a transaction leaves alone. *)
Record tx_frame (s s' : kst) : Prop := {
  tf_io : io_frame s s';
  tf_disk : k_disk s' = k_disk s;
  tf_hist : k_hist s' = k_hist s;
  tf_start : lg_start (k_log s') = lg_start (k_log s);
  tf_out : lg_outstanding (k_log s') = lg_outstanding (k_log s);
}.
#[global] Instance tx_frame_refl : Reflexive tx_frame.
Proof. intros s. split; try done. apply io_frame_refl. Qed.
#[global] Instance tx_frame_trans : Transitive tx_frame.
Proof.
  intros s1 s2 s3 [A1 A2 A3 A4 A5] [B1 B2 B3 B4 B5].
  split; [by eapply io_frame_trans|congruence..].
Qed.

Lemma tx_inv_quiet p s s' held held' bs V V' :
  tx_inv p s held bs V → quiet s s' → k_disk s' = k_disk s →
  bcache_inv p s' held' (list_to_set bs) V' → tx_inv p s' held' bs V'.
Proof.
  intros [H HL Htx Hcm Hsz Hh] Q D H'. pose proof Q as [_ L].
  split; rewrite ?L, ?D; try done. by eapply log_ok_quiet.
Qed.
Lemma quiet_tx_frame s s' : quiet s s' → k_disk s' = k_disk s → k_hist s' = k_hist s → tx_frame s s'.
Proof. intros [F L] D H. by split; rewrite ?L. Qed.

Lemma tx_bread p s held bs V n :
  tx_inv p s held bs V → (∀ i, i ∈ held → ¬ cached s i n) →
  (size held + length bs < NBUF)%nat →
  ∃ b s', bread ROOTDEV n s = Ok b s' ∧ tx_inv p s' ({[b]} ∪ held) bs V ∧
    cached s' b n ∧ b ∉ held ∧ data_of s' b = V n ∧ tx_frame s s' ∧
    ∀ i m, i ∈ held → cached s i m → cached s' i m.
Proof.
  intros T Hn Hsz. pose proof (ti_cache _ _ _ _ _ T) as H.
  destruct (bread_Ok p s held _ V n H Hn) as (b & s' & E & H' & C & Hb & B & O).
  { rewrite size_list_to_set by apply T. done. }
  pose proof (bufs_only_quiet _ _ B) as Q. assert (k_disk s' = k_disk s ∧ k_hist s' = k_hist s) as [D W] by (by rewrite B).
  exists b, s'. split; [done|]. split; [by eapply tx_inv_quiet|]. split; [done|]. split; [done|].
  split; [symmetry; exact (bi_view _ _ _ _ _ _ _ H' C)|]. split; [by apply quiet_tx_frame|].
  intros i m Hi. unfold cached. rewrite O; [done|]. by intros ->.
Qed.

Lemma tx_set_data p s held bs V b n f :
  tx_inv p s held bs V → b ∈ held → cached s b n → length (f (V n)) = Z.to_nat BSIZE →
  ∃ s', set_data b f s = Ok () s' ∧ tx_inv p s' held bs (supd V n (f (V n))) ∧
    (∀ i m, cached s' i m ↔ cached s i m) ∧ tx_frame s s'.
Proof.
  intros T Hb Hc Hl. pose proof (ti_cache _ _ _ _ _ T) as H.
  destruct (set_data_step p s held _ V b n f H Hb Hc Hl) as (s' & E & H' & C & B).
  pose proof (bufs_only_quiet _ _ B) as Q. assert (k_disk s' = k_disk s ∧ k_hist s' = k_hist s) as [D W] by (by rewrite B).
  exists s'. split; [done|]. split; [by eapply tx_inv_quiet|]. split; [|by apply quiet_tx_frame].
  rewrite set_data_Ok in E. injection E as <-. intros i m. by apply (cached_upd _ _ _ _ _ _ _ H Hb Hc).
Qed.

Lemma tx_brelse p s held bs V b n :
  tx_inv p s held bs V → b ∈ held → cached s b n → n ∈ bs ∨ V n = disk_block (k_disk s) n →
  ∃ s', brelse b s = Ok () s' ∧ tx_inv p s' (held ∖ {[b]}) bs V ∧
    (∀ i m, cached s' i m ↔ cached s i m) ∧ tx_frame s s'.
Proof.
  intros T Hb Hc Hn. pose proof (ti_cache _ _ _ _ _ T) as H.
  destruct (brelse_Ok p s held _ V b n H Hb Hc) as (s' & E & H' & F & D & W & L & _ & C).
  { rewrite elem_of_list_to_set. done. }
  assert (quiet s s') as Q by done.
  exists s'. split; [done|]. split; [by eapply tx_inv_quiet|]. split; [done|by apply quiet_tx_frame].
Qed.

(** The buffers the thread holds are on blocks of [ns]. *)
Definition holds (s : kst) (held : gset nat) (ns : gset Z) : Prop :=
  ∀ i, i ∈ held → ∃ n, n ∈ ns ∧ cached s i n.
Lemma holds_empty s ns : holds s ∅ ns.
Proof. intros i Hi. set_solver. Qed.
Lemma holds_not s held ns i n : holds s held ns → i ∈ held → n ∉ ns → ¬ cached s i n.
Proof. intros H Hi Hn (_ & _ & E). destruct (H i Hi) as (m & Hm & _ & _ & E'). congruence. Qed.
Lemma holds_keep s s' held ns :
  holds s held ns → (∀ i m, i ∈ held → cached s i m → cached s' i m) → holds s' held ns.
Proof. intros H C i Hi. destruct (H i Hi) as (n & Hn & Hc). exists n. auto. Qed.
Lemma holds_cons s held ns b n :
  holds s held ns → cached s b n → holds s ({[b]} ∪ held) ({[n]} ∪ ns).
Proof.
  intros H Hc i [->%elem_of_singleton|Hi]%elem_of_union; [exists n; set_solver|].
  destruct (H i Hi) as (m & Hm & Hm'). exists m. set_solver.
Qed.
#[export] Hint Resolve holds_empty : core.

(** Change a block that is held, log it, release it. *)
Lemma tx_modify p s held ns bs V b n f :
  tx_inv p s ({[b]} ∪ held) bs V → b ∉ held → holds s held ns → cached s b n →
  outside (lg_start (k_log s)) n → blockno n → 1 ≤ lg_outstanding (k_log s) →
  Z.of_nat (length bs) < LOGSIZE - 1 → length (f (V n)) = Z.to_nat BSIZE →
  ∃ s', (set_data b f;; log_write b;; brelse b) s = Ok () s' ∧
    tx_inv p s' held (logged bs n) (supd V n (f (V n))) ∧ holds s' held ns ∧ tx_frame s s'.
Proof.
  intros T1 Hbh HH C1 Ho Hn Hou Hl Hf. assert (b ∈ {[b]} ∪ held) as Hb by set_solver.
  destruct (tx_set_data p s _ bs V b n f T1 Hb C1 Hf) as (s2 & E2 & T2 & C2 & F2).
  destruct (log_write_Ok p s2 _ bs _ b n T2 Hb) as (s3 & E3 & T3 & C3 & F3 & D3 & W3 & S3 & O3);
    [by apply C2|by rewrite (tf_start _ _ F2)|done|by rewrite (tf_out _ _ F2)|done|].
  destruct (tx_brelse p s3 _ _ _ b n T3 Hb) as (s4 & E4 & T4 & C4 & F4);
    [by apply C3, C2|left; unfold logged; case_decide; set_solver|].
  rewrite held_back in T4 by done. exists s4. split; [by erewrite bind_Ok, bind_Ok by done|].
  split; [done|]. split; [|etrans; [exact F2|]; etrans; [|exact F4]; by split].
  eapply holds_keep; [done|]. intros i m _ Hc. by apply C4, C3, C2.
Qed.

(** A block nobody holds is logged or clean. *)
Lemma tx_clean p s held bs V n :
  tx_inv p s held bs V → (∀ i, i ∈ held → ¬ cached s i n) → n ∈ bs ∨ V n = disk_block (k_disk s) n.
Proof.
  intros T Hh. destruct (decide (n ∈ bs)) as [|Hn]; [by left|right].
  pose proof (ti_cache _ _ _ _ _ T) as H.
  destruct (cached_dec s n) as [[i Hc]|Hc]; [|by apply (bi_disk _ _ _ _ _ H)].
  rewrite (bi_view _ _ _ _ _ _ _ H Hc). assert (i ∉ held) by (intros Hi; by eapply Hh).
  destruct Hc as (Hi & Hd & <-).
  apply (be_clean _ _ _ _ _ _ _ (bi_ent _ _ _ _ _ H i Hi) Hd); [done|].
  by rewrite elem_of_list_to_set.
Qed.

(** Read a block; it can be released again. *)
Lemma tx_read p s held ns bs V n :
  tx_inv p s held bs V → holds s held ns → n ∉ ns → (size held + length bs < NBUF)%nat →
  ∃ b s1, bread ROOTDEV n s = Ok b s1 ∧ tx_inv p s1 ({[b]} ∪ held) bs V ∧ b ∉ held ∧
    holds s1 held ns ∧ cached s1 b n ∧ data_of s1 b = V n ∧ tx_frame s s1 ∧
    ∃ s2, brelse b s1 = Ok () s2 ∧ tx_inv p s2 held bs V ∧ holds s2 held ns ∧ tx_frame s1 s2.
Proof.
  intros T HH Hn Hl. assert (∀ i, i ∈ held → ¬ cached s i n) as Hnc by (intros i Hi; by eapply holds_not).
  destruct (tx_bread p s held bs V n T) as (b & s1 & E1 & T1 & C1 & Hb & D1 & F1 & K1); [done|done|].
  assert (holds s1 held ns) as HH1 by (by eapply holds_keep).
  exists b, s1. do 7 (split; [done|]).
  destruct (tx_brelse p s1 _ bs V b n T1) as (s2 & E2 & T2 & C2 & F2); [set_solver|done| |].
  { rewrite (tf_disk _ _ F1). by eapply tx_clean. }
  rewrite held_back in T2 by done. exists s2. do 2 (split; [done|]). split; [|done].
  eapply holds_keep; [done|]. intros i m _. apply C2.
Qed.

(** Read a block, change it, log it, release it. *)
Lemma tx_update p s held ns bs V n f :
  tx_inv p s held bs V → holds s held ns → n ∉ ns →
  outside (lg_start (k_log s)) n → blockno n → 1 ≤ lg_outstanding (k_log s) →
  Z.of_nat (length bs) < LOGSIZE - 1 → (size held + length bs < NBUF)%nat →
  length (f (V n)) = Z.to_nat BSIZE →
  ∃ b s1 s', bread ROOTDEV n s = Ok b s1 ∧ data_of s1 b = V n ∧ tx_frame s s1 ∧
    (set_data b f;; log_write b;; brelse b) s1 = Ok () s' ∧
    tx_inv p s' held (logged bs n) (supd V n (f (V n))) ∧ holds s' held ns ∧ tx_frame s s'.
Proof.
  intros T HH Hns Ho Hn Hou Hl Hsz Hf.
  destruct (tx_read p s held ns bs V n T HH Hns Hsz) as (b & s1 & E1 & T1 & Hb & H1 & C1 & D1 & F1 & _).
  destruct (tx_modify p s1 held ns bs V b n f T1 Hb H1 C1) as (s' & E & T' & H' & F);
    [by rewrite (tf_start _ _ F1)|done|by rewrite (tf_out _ _ F1)|done|done|].
  exists b, s1, s'. do 6 (split; [done|]). by etrans.
Qed.

(** ** end_op *)

Lemma bcache_inv_frame p s s' held pins V :
  bcache_inv p s held pins V → io_frame s s' → k_bufs s' = k_bufs s → k_disk s' = k_disk s →
  bcache_inv p s' held pins V.
Proof.
  intros [H1 H2 H3 H4 H5 H6 H7 H8] F Eb Ed. pose proof (io_frame_running _ _ _ F H1) as R.
  pose proof (io_frame_proc _ _ _ F (run_cur _ _ H1)) as Ep.
  assert (∀ i, buf_of s' i = buf_of s i) as Eo by (intros i; unfold buf_of; by rewrite Eb).
  assert (∀ i n, cached s' i n ↔ cached s i n) as Ec by (intros i n; unfold cached; by rewrite Eo).
  split; rewrite ?Eb, ?Ed; try done.
  - intros i Hi. rewrite Ep, Eo. by apply H3.
  - intros i j n Ha Hb. apply Ec in Ha, Hb. by eapply H4.
  - intros n [i Hi]%H5. exists i. by apply Ec.
  - intros n Hn. apply H6. intros i Hi. apply (Hn i). by apply Ec.
Qed.
Lemma io_frame_woken ch s : io_frame s (woken ch s).
Proof. split; [by destruct s|apply woken_rel]. Qed.

(** [wakeup(&log); release(&log.lock)] *)
Lemma wake_log p s :
  running p s →
  (wakeup (Some Ch_log);; release LK_log) (set_k_held [LK_log] s) = Ok () (woken (Some Ch_log) s).
Proof.
  intros [R1 R2 R3 R4]. rewrite bind_wakeup; [|intros i; simpl; set_solver|done].
  rewrite (release_top _ []) by done. f_equal. unfold woken. simpl. kst_eq. done.
Qed.

Definition one_less (l : log) : log := set_lg_outstanding (lg_outstanding l - 1) l.

Lemma end_op_start p s :
  running p s → lg_committing (k_log s) = 0 →
  end_op s = (if lg_outstanding (k_log s) - 1 =? 0
    then (commit;; acquire LK_log;; modify (upd_log (set_lg_committing 0));;
          wakeup (Some Ch_log);; release LK_log)
         (upd_log (set_lg_committing 1 ∘ one_less) s)
    else Ok () (woken (Some Ch_log) (upd_log one_less s))).
Proof.
  intros [R1 R2 R3 R4] Hc. unfold end_op. rewrite bind_acquire by (rewrite R2; set_solver).
  rewrite R2. msteps. simpl. rewrite Hc. cbn [Z.eqb negb].
  set (s1 := upd_log one_less s).
  change (upd_log _ (set_k_held [LK_log] s)) with (set_k_held [LK_log] s1).
  destruct (lg_outstanding (k_log s) - 1 =? 0); msteps.
  - erewrite bind_Ok by done. rewrite (bind_release _ []) by done. cbn [when]. f_equal.
    rewrite <- (set_k_held_id [] (upd_log _ s)) by done. done.
  - rewrite (bind_Ok _ _ _ false (set_k_held [LK_log] (woken (Some Ch_log) s1))).
    2:{ rewrite bind_wakeup; [done|intros i; simpl; set_solver|done]. }
    rewrite (bind_release _ []) by done. cbn [when]. rewrite ret_Ok, set_k_held_twice. f_equal.
    by apply set_k_held_id.
Qed.

(** The view after the commit differs only in the log. *)
Lemma commit_view V st bs b :
  txn st bs → outside st b → wview V (commit_writes V st bs) b = V b.
Proof.
  intros Htx Hb. unfold commit_writes. rewrite app_assoc, wview_app.
  assert (b ≠ st) by (unfold outside, LOGSIZE, MAXOPBLOCKS in Hb; lia).
  assert (wview V (log_writes V st 0 bs ++ [(st, header bs (V st))]) b = V b) as E.
  { rewrite wview_app. simpl. rewrite supd_ne by done.
    apply (log_writes_other V st bs (txn_fit _ _ Htx)); [done|by right]. }
  rewrite wview_app. simpl. rewrite supd_ne by done.
  destruct (decide (b ∈ bs)); [by apply home_in|]. by rewrite (home_other V bs).
Qed.

(** [commit] with or without logged blocks. *)
Definition tx_writes (V : Z → list Z) (st : Z) (bs : list Z) : list (Z * list Z) :=
  if decide (bs = []) then [] else commit_writes V st bs.
Lemma set_lh_n_id l : set_lh_n (lh_n l) l = l.
Proof. by destruct l. Qed.
Lemma commit_any p s V bs :
  let st := lg_start (k_log s) in let ws := tx_writes V st bs in
  bcache_inv p s ∅ (list_to_set bs) V → log_ok s bs → txn st bs →
  ∃ s', commit s = Ok () s' ∧ bcache_inv p s' ∅ ∅ (wview V ws) ∧ log_ok s' [] ∧
    io_frame s s' ∧ k_log s' = set_lh_n 0 (k_log s) ∧
    k_disk s' = wdisk (k_disk s) ws ∧ k_hist s' = k_hist s ++ ws.
Proof.
  intros st ws H HL Htx. unfold ws, tx_writes.
  destruct (decide (bs = [])) as [->|Hne]; [|by apply commit_Ok].
  assert (lh_n (k_log s) = 0) as E by apply HL. exists s. unfold commit. msteps. rewrite E.
  split; [done|]. split; [done|]. split; [done|]. split; [apply io_frame_refl|].
  rewrite app_nil_r. split; [|done]. rewrite <- E. by rewrite set_lh_n_id.
Qed.

(** The last operation commits. *)
Lemma end_op_commits p s bs V :
  tx_inv p s ∅ bs V → lg_outstanding (k_log s) = 1 →
  let st := lg_start (k_log s) in
  let ws := tx_writes V st bs in
  ∃ s', end_op s = Ok () s' ∧ tx_inv p s' ∅ [] (wview V ws) ∧ io_frame s s' ∧
    lg_outstanding (k_log s') = 0 ∧ lg_start (k_log s') = st ∧
    k_disk s' = wdisk (k_disk s) ws ∧ k_hist s' = k_hist s ++ ws.
Proof.
  intros [H HL Htx Hcm Hsz Hh] Ho st ws. pose proof (bi_run _ _ _ _ _ H) as R.
  rewrite (end_op_start p) by done. rewrite Ho. change (1 - 1 =? 0) with true. cbv iota.
  set (s1 := upd_log _ s).
  assert (bcache_inv p s1 ∅ (list_to_set bs) V) as H1 by (by apply bcache_inv_log).
  assert (log_ok s1 bs) as HL1 by (destruct HL; by split).
  destruct (commit_any p s1 V bs H1 HL1 Htx) as (s2 & E2 & H2 & HL2 & F2 & L2 & D2 & W2).
  change (lg_start (k_log s1)) with st in H2, D2, W2. fold ws in H2, D2, W2.
  erewrite bind_Ok by exact E2. pose proof (bi_run _ _ _ _ _ H2) as [Q1 Q2 Q3 Q4].
  rewrite bind_acquire by (rewrite Q2; set_solver). rewrite Q2. msteps.
  set (s3 := upd_log (set_lg_committing 0) s2).
  change (upd_log _ (set_k_held [LK_log] s2)) with (set_k_held [LK_log] s3).
  rewrite (wake_log p) by (by split). eexists. split; [done|].
  assert (io_frame s (woken (Some Ch_log) s3)) as F.
  { eapply io_frame_trans; [apply io_frame_log|]. eapply io_frame_trans; [exact F2|].
    eapply io_frame_trans; [apply io_frame_log|apply io_frame_woken]. }
  split; [|split; [done|]].
  - split; simpl; rewrite ?L2, ?D2; try done.
    + apply (bcache_inv_frame p s3); [by apply bcache_inv_log|apply io_frame_woken|done|done].
    + destruct HL2 as [? ? ? ? ?]. by split.
    + simpl. split; [constructor|constructor|constructor|]. simpl. unfold LOGSIZE, MAXOPBLOCKS. lia.
    + simpl. rewrite disk_block_wdisk. fold st. unfold ws, tx_writes.
      destruct (decide (bs = [])); [exact Hh|]. unfold commit_writes.
      rewrite !app_assoc, wview_app. simpl. rewrite supd_eq. apply head_n_empty, length_header.
      * apply Z.lt_le_incl, HL.
      * by eapply bi_length.
  - simpl. rewrite L2, D2, W2. simpl. rewrite Ho. done.
Qed.

(** ** Crashes during a commit *)

Lemma blocks_ok_wdisk D ws :
  blocks_ok D → Forall (λ w, length w.2 = Z.to_nat BSIZE) ws → blocks_ok (wdisk D ws).
Proof.
  intros HD Hw. revert D HD. induction Hw as [|[n d] ws Hd Hw IH]; intros D HD; simpl; [done|].
  apply IH. intros m. rewrite disk_block_insert. by destruct (decide (m = n)).
Qed.
Lemma commit_writes_blocks V st bs :
  txn st bs → (∀ n, length (V n) = Z.to_nat BSIZE) →
  Forall (λ w, length w.2 = Z.to_nat BSIZE) (commit_writes V st bs).
Proof.
  intros Htx HV. pose proof (txn_fit _ _ Htx) as Hf. unfold commit_writes.
  assert (∀ l : list Z, length (header bs (V st)) = Z.to_nat BSIZE) as Hh by (intros _; apply length_header; [lia|apply HV]).
  rewrite !Forall_app, !Forall_singleton. split; [|split; [|split]]; simpl.
  - apply Forall_forall. intros [m d] Hm. apply elem_of_log_writes in Hm as (j & b & _ & _ & ->). apply HV.
  - by apply (Hh []).
  - apply Forall_map, Forall_forall. intros b _. apply HV.
  - apply (length_header []); [simpl; unfold LOGSIZE, MAXOPBLOCKS; lia|by apply (Hh [])].
Qed.
Lemma wdisk_clean p s bs V b :
  bcache_inv p s ∅ (list_to_set bs) V → b ∉ bs → V b = disk_block (k_disk s) b.
Proof. intros H Hb. eapply view_clean; [done|set_solver|set_solver]. Qed.

Lemma recovered_ext st W W' :
  pointwise_relation Z eq W W' → pointwise_relation Z eq (recovered W st) (recovered W' st).
Proof.
  intros E b. unfold recovered, recover_writes. rewrite (E st).
  rewrite (home_writes_ext W W') by (intros; apply E). by apply wview_ext.
Qed.

(** A reboot at any point of a commit. *)
Lemma reboot_Ok p s bs V sb k q r :
  tx_inv p s ∅ bs V → sb_logstart sb = lg_start (k_log s) → blockno (sb_logstart sb) → bs ≠ [] →
  fresh q r → k_disk r = wdisk (k_disk s) (take k (commit_writes V (sb_logstart sb) bs)) →
  ∃ r', initlog ROOTDEV sb r = Ok () r' ∧
    ∀ b, outside (sb_logstart sb) b → disk_block (k_disk r') b =
      if decide (k ≤ length bs)%nat then disk_block (k_disk s) b else V b.
Proof.
  intros [H HL Htx Hcm Hsz Hh] Est Hst Hne Hf HD. rewrite <- Est in Htx, Hh.
  set (st := sb_logstart sb) in *.
  destruct (recovered_crash (disk_block (k_disk s)) V st bs Htx Hh) with (k := k) as [Hok Hrec].
  { intros b Hb. by eapply wdisk_clean. } { by eapply bi_length. }
  assert (pointwise_relation Z eq (disk_block (k_disk r)) (crashed (disk_block (k_disk s)) V st bs k)) as Ev.
  { intros m. rewrite HD. apply disk_block_wdisk. }
  destruct (initlog_Ok q r sb Hf) as (r' & E & _ & _ & _ & _ & D' & _); [|done| |].
  - rewrite HD. apply blocks_ok_wdisk; [intros n; apply (bi_blocks _ _ _ _ _ H)|].
    apply Forall_take, commit_writes_blocks; [done|]. intros n. by eapply bi_length.
  - unfold head_ok. fold st. by rewrite (Ev st).
  - exists r'. split; [done|]. intros b Hb. rewrite <- Hrec by done.
    rewrite D', disk_block_wdisk. apply (recovered_ext st _ _ Ev b).
Qed.

(** A reboot with an empty log. *)
Lemma reboot_clean q r sb :
  fresh q r → blocks_ok (k_disk r) → blockno (sb_logstart sb) →
  head_n (disk_block (k_disk r) (sb_logstart sb)) = 0 →
  ∃ r', initlog ROOTDEV sb r = Ok () r' ∧
    ∀ b, outside (sb_logstart sb) b → disk_block (k_disk r') b = disk_block (k_disk r) b.
Proof.
  intros Hf Hb Hst Hn.
  destruct (initlog_Ok q r sb Hf Hb Hst) as (r' & E & _ & _ & _ & _ & D' & _); [by apply head_ok_empty|].
  exists r'. split; [done|]. intros b Ho. rewrite D', disk_block_wdisk. apply recovered_empty; [done|].
  unfold outside, LOGSIZE, MAXOPBLOCKS in Ho. lia.
Qed.

(** ** Properties *)

(** C1. Transactions are atomic across crashes.  The [end_op] of the last
    outstanding operation puts the logical contents of every block outside the
    log on the disk; and if the machine stops after any number of the disk
    writes it makes, then [initlog] after the reboot succeeds and either every
    block outside the log has the contents from before the commit or every
    one has the logical contents. *)
Theorem end_op_crash_atomic p s bs V sb :
  tx_inv p s ∅ bs V → lg_outstanding (k_log s) = 1 →
  sb_logstart sb = lg_start (k_log s) → blockno (sb_logstart sb) →
  let st := sb_logstart sb in
  ∃ s' ws, end_op s = Ok () s' ∧ k_hist s' = k_hist s ++ ws ∧
    (∀ b, outside st b → disk_block (k_disk s') b = V b) ∧
    ∀ k q r, fresh q r → k_disk r = wdisk (k_disk s) (take k ws) →
      ∃ r', initlog ROOTDEV sb r = Ok () r' ∧
        ((∀ b, outside st b → disk_block (k_disk r') b = disk_block (k_disk s) b) ∨
         (∀ b, outside st b → disk_block (k_disk r') b = V b)).
Proof.
  intros H Ho Est Hst st. pose proof H as [Hc HL Htx Hcm Hsz Hh].
  destruct (end_op_commits p s bs V H Ho) as (s' & E & H' & F & _ & S' & D' & W').
  rewrite <- Est in Htx, Hh, H', D', W'. fold st in Htx, Hh, H', D', W'. exists s', (tx_writes V st bs). split; [done|]. split; [done|].
  split.
  - intros b Hb. erewrite <- wdisk_clean; [|exact (ti_cache _ _ _ _ _ H')|set_solver].
    unfold tx_writes. destruct (decide (bs = [])); [done|by apply commit_view].
  - intros k q r Hf. unfold tx_writes. destruct (decide (bs = [])) as [->|Hne]; intros HD.
    + rewrite take_nil in HD. simpl in HD. destruct (reboot_clean q r sb Hf) as (r' & E' & Hr);
        rewrite ?HD; try done; [intros n; apply (bi_blocks _ _ _ _ _ Hc)|].
      exists r'. split; [done|]. left. by rewrite <- HD.
    + destruct (reboot_Ok p s bs V sb k q r H) as (r' & E' & Hr); try done.
      exists r'. split; [done|]. destruct (decide (k ≤ length bs)%nat) as [Hk|Hk]; [left|right]; exact Hr.
Qed.

(** A thread that has begun an operation on an empty disk, with the log at
    block 2, and the same after it logged new contents for block 50. *)
Definition tx_boot : kst :=
  set_k_log (Log 2 30 1 0 ROOTDEV 0 (replicate (Z.to_nat LOGSIZE) 0)) (set_k_bufs boot_bufs running0).
Lemma blocks_ok_empty : blocks_ok ∅.
Proof. intros n. unfold disk_block. rewrite lookup_empty. by vm_compute. Qed.
Lemma tx_boot_inv : tx_inv 2 tx_boot ∅ [] (disk_block ∅).
Proof.
  split; try done.
  - apply (boot_cache_inv 2 tx_boot); [split; [done|done|done|apply Nat.ltb_lt; done]|done|exact blocks_ok_empty].
  - split; [constructor..|]. by vm_compute.
Qed.
Definition sevens : list Z := replicate (Z.to_nat BSIZE) 7.
Lemma tx_example : ∃ s V, tx_inv 2 s ∅ [50] V ∧ lg_outstanding (k_log s) = 1 ∧
  lg_start (k_log s) = 2 ∧ V 50 = sevens ∧ k_disk s = ∅.
Proof.
  destruct (tx_update 2 tx_boot ∅ ∅ [] _ 50 (λ _, sevens) tx_boot_inv)
    as (b & s1 & s & _ & _ & _ & _ & T & _ & F);
    [done|set_solver|right; by vm_compute|by vm_compute|done|by vm_compute|vm_compute; lia|done|].
  exists s, (supd (disk_block ∅) 50 sevens). destruct F as [_ D _ S O]. by rewrite D, S, O, supd_eq.
Qed.

Lemma end_op_crash_atomic_witness : ∃ s bs V sb s' ws,
  end_op s = Ok () s' ∧ k_hist s' = k_hist s ++ ws ∧
  V 50 = sevens ∧ disk_block (k_disk s) 50 = zero_block ∧
  ∀ k q r, fresh q r → k_disk r = wdisk (k_disk s) (take k ws) →
    ∃ r', initlog ROOTDEV sb r = Ok () r' ∧
      ((∀ b, outside (sb_logstart sb) b → disk_block (k_disk r') b = disk_block (k_disk s) b) ∨
       (∀ b, outside (sb_logstart sb) b → disk_block (k_disk r') b = V b)) ∧ bs = [50].
Proof.
  destruct tx_example as (s & V & H & Ho & Hs & Hv & Hd).
  set (sb := Superblock 0x10203040 1000 954 200 30 2 32 45).
  destruct (end_op_crash_atomic 2 s [50] V sb H Ho) as (s' & ws & E & W & _ & Hr);
    [by rewrite Hs|by vm_compute|].
  exists s, [50], V, sb, s', ws. split; [done|]. split; [done|]. split; [done|]. split; [by rewrite Hd|].
  intros k q r Hf HD. destruct (Hr k q r Hf HD) as (r' & E' & Hor). exists r'. by split.
Defined.

(** C18. Recovery can itself be interrupted.  If the machine stops after any
    number of the disk writes of [initlog], then [initlog] after the next
    reboot succeeds and every block outside the log has the contents an
    uninterrupted recovery gives it. *)
Theorem initlog_restartable p s sb :
  fresh p s → blocks_ok (k_disk s) → blockno (sb_logstart sb) →
  let st := sb_logstart sb in
  head_ok (disk_block (k_disk s)) st →
  ∃ s' ws, initlog ROOTDEV sb s = Ok () s' ∧ k_hist s' = k_hist s ++ ws ∧
    head_n (disk_block (k_disk s') st) = 0 ∧
    ∀ k q r, fresh q r → k_disk r = wdisk (k_disk s) (take k ws) →
      ∃ r', initlog ROOTDEV sb r = Ok () r' ∧
        ∀ b, outside st b → disk_block (k_disk r') b = disk_block (k_disk s') b.
Proof.
  intros Hf Hb Hst st Hh. destruct (initlog_Ok p s sb Hf Hb Hst Hh) as (s' & E & _ & _ & _ & _ & D' & W').
  exists s', (recover_writes (disk_block (k_disk s)) st). split; [done|]. split; [done|]. split.
  { rewrite D', disk_block_wdisk. unfold recover_writes. rewrite wview_app. simpl.
    rewrite supd_eq. by apply head_n_empty. }
  intros k q r Hfr HD. fold st in D', W'.
  destruct (recovered_again st _ k Hh (Hb st)) as [Hh' Hrec].
  assert (pointwise_relation Z eq (disk_block (k_disk r))
    (wview (disk_block (k_disk s)) (take k (recover_writes (disk_block (k_disk s)) st)))) as Ev.
  { intros m. rewrite HD. apply disk_block_wdisk. }
  destruct (initlog_Ok q r sb Hfr) as (r' & E' & _ & _ & _ & _ & D2 & _); [|done| |].
  - rewrite HD. apply blocks_ok_wdisk; [done|]. apply Forall_take. unfold recover_writes.
    apply Forall_app. rewrite Forall_singleton. split; [|by apply length_put_n].
    apply Forall_forall. intros [m d] Hm. simpl. by apply home_writes_snd in Hm as [j ->].
  - unfold head_ok. fold st. rewrite (Ev st). exact Hh'.
  - exists r'. split; [done|]. intros b Ho. rewrite D2, D', !disk_block_wdisk. 
    exact (eq_trans (recovered_ext st _ _ Ev b) (Hrec b Ho)).
Qed.

(** A disk whose log holds a committed transaction on block 50. *)
Definition committed_disk : gmap Z (list Z) :=
  <[2 := header [50] zero_block]> (<[3 := sevens]> ∅).
Definition rebooted : kst := set_k_disk committed_disk (set_k_bufs boot_bufs running0).
Lemma initlog_restartable_witness : ∃ s' ws,
  initlog ROOTDEV (Superblock 0x10203040 1000 954 200 30 2 32 45) rebooted = Ok () s' ∧
  k_hist s' = ws ∧ disk_block (k_disk s') 50 = sevens.
Proof.
  destruct (initlog_restartable 2 rebooted (Superblock 0x10203040 1000 954 200 30 2 32 45))
    as (s' & ws & E & W & _).
  - split; [split; [done|done|done|apply Nat.ltb_lt; done]|done|done].
  - intros n. unfold rebooted, committed_disk. simpl. rewrite !disk_block_insert.
    repeat destruct (decide _); [by vm_compute|done|apply blocks_ok_empty].
  - by vm_compute.
  - split; [by vm_compute|].
    change (Forall (outside 2) (head_blocks (disk_block committed_disk 2))).
    assert (head_blocks (disk_block committed_disk 2) = [50]) as -> by (vm_compute; reflexivity).
    apply Forall_singleton. right. by vm_compute.
  - exists s', ws. split; [exact E|]. split; [exact W|].
    assert (∃ x, initlog ROOTDEV (Superblock 0x10203040 1000 954 200 30 2 32 45) rebooted = Ok () x ∧
      disk_block (k_disk x) 50 = sevens) as (x & Ex & Hx).
    { eexists. split; [vm_compute; reflexivity|by vm_compute]. }
    rewrite Ex in E. by injection E as <-.
Defined.

(** [begin_op] admits an operation without giving up the CPU exactly when
    no commit is running and the log has room for [MAXOPBLOCKS] blocks of
    every admitted operation, and then counts it; otherwise the caller sleeps
    on the log and is admitted when it is resumed with room. *)
Theorem begin_op_spec p s :
  running p s →
  (room (k_log s) → begin_op s = Ok () (upd_log one_more s)) ∧
  (¬ room (k_log s) →
    ∃ s1 k, begin_op s = Yield s1 k ∧ k_held s1 = [LK_proc p] ∧ k_log s1 = k_log s ∧
      p_state (proc_of s1 p) = SLEEPING ∧ p_chan (proc_of s1 p) = Some Ch_log ∧
      ∀ s2, k_held s2 = [LK_proc p] → room (k_log s2) →
        ∃ s3, k s2 = Ok () s3 ∧ k_log s3 = one_more (k_log s2) ∧ k_held s3 = []).
Proof.
  intros R. split; [by apply (begin_op_Ok p)|]. intros Hr.
  destruct (begin_op_sleeps p s R Hr) as (k & E & Hk). exists (asleep p Ch_log s), k.
  split; [done|]. split; [done|]. split; [done|].
  assert (proc_of (asleep p Ch_log s) p = (set_p_state SLEEPING ∘ set_p_chan (Some Ch_log)) (proc_of s p)) as ->.
  { change (proc_of (asleep p Ch_log s) p)
      with (proc_of (upd_proc p (set_p_state SLEEPING ∘ set_p_chan (Some Ch_log)) s) p).
    rewrite proc_of_upd by (rewrite (run_procs _ _ R); apply R). by rewrite decide_True. }
  split; [done|]. split; [done|]. intros s2 H2 Hr2. eexists. split; [by apply Hk|]. done.
Qed.
Lemma begin_op_spec_witness : ∃ s1 k,
  begin_op (set_k_log (Log 2 30 3 0 ROOTDEV 0 (replicate (Z.to_nat LOGSIZE) 0)) running0) = Yield s1 k ∧
  p_chan (proc_of s1 2) = Some Ch_log.
Proof.
  set (s := set_k_log _ _).
  assert (running 2 s) as Hr by (split; [done..|apply Nat.ltb_lt; done]).
  assert (¬ room (k_log s)) as Hn by (intros [_ H]; vm_compute in H; done).
  destruct (proj2 (begin_op_spec 2 s Hr) Hn) as (s1 & k & E & _ & _ & _ & Hc & _).
  exists s1, k. done.
Defined.

(** [log_write] absorbs repeated writes of a block in one transaction: a
    second [log_write] of the same buffer uses the slot of the first, and the
    block is pinned once. *)
Theorem log_write_absorbs p s held bs V b n :
  tx_inv p s held bs V → b ∈ held → cached s b n →
  outside (lg_start (k_log s)) n → blockno n → 1 ≤ lg_outstanding (k_log s) →
  Z.of_nat (length bs) < LOGSIZE - 2 →
  ∃ s', (log_write b;; log_write b) s = Ok () s' ∧ tx_inv p s' held (logged bs n) V ∧
    lh_n (k_log s') = Z.of_nat (length (logged bs n)) ∧ b_refcnt (buf_of s' b) = 2.
Proof.
  intros T Hb Hc Ho Hn Hou Hl.
  destruct (log_write_Ok p s held bs V b n T Hb Hc) as (s1 & E1 & T1 & C1 & F1 & D1 & W1 & S1 & O1);
    [done|done|done|lia|].
  assert (n ∈ logged bs n) as Hin by (unfold logged; case_decide; set_solver).
  assert (logged (logged bs n) n = logged bs n) as Eid by (unfold logged at 1; by rewrite decide_True).
  destruct (log_write_Ok p s1 held _ V b n T1 Hb) as (s2 & E2 & T2 & C2 & _);
    [by apply C1|by rewrite S1|done|by rewrite O1| |].
  { unfold logged. case_decide; rewrite ?length_app; simpl; lia. }
  rewrite Eid in T2. exists s2. split; [by erewrite bind_Ok|]. split; [done|].
  split; [apply T2|]. rewrite (held_ref p s2 held _ V b n (ti_cache _ _ _ _ _ T2) Hb) by (by apply C2, C1).
  rewrite decide_True; [done|]. set_solver.
Qed.
Lemma log_write_absorbs_witness : ∃ b s s' V,
  (log_write b;; log_write b) s = Ok () s' ∧ tx_inv 2 s' ({[b]} ∪ ∅) [50] V.
Proof.
  destruct (tx_bread 2 tx_boot ∅ [] _ 50 tx_boot_inv) as (b & s1 & E1 & T1 & C1 & _ & _ & F & _);
    [set_solver|vm_compute; lia|].
  destruct (log_write_absorbs 2 s1 _ [] _ b 50 T1 (held_one b) C1) as (s' & E & T & _).
  - rewrite (tf_start _ _ F). right. by vm_compute.
  - by vm_compute.
  - by rewrite (tf_out _ _ F).
  - by vm_compute.
  - eexists _, _, _, _. split; [exact E|exact T].
Defined.

(** ** The capacity of the log *)

Lemma log_write_full p s held bs V b :
  tx_inv p s held bs V → LOGSIZE - 1 ≤ Z.of_nat (length bs) → log_write b s = Panic "too big a transaction".
Proof.
  intros [H HL Htx Hcm Hsz Hh] Hl. pose proof (bi_run _ _ _ _ _ H) as [R1 R2 R3 R4].
  unfold log_write. rewrite bind_acquire by (rewrite R2; set_solver). msteps. simpl.
  rewrite (lo_n _ _ HL), Hsz, (proj2 (Z.leb_le (LOGSIZE - 1) _) Hl), orb_true_r. done.
Qed.
(** C40. [begin_op] and [log_write] count differently.  In any state of a
    transaction, on a log of [LOGSIZE] blocks as [mkfs] makes it, [begin_op]
    admits an operation when the logged blocks and [MAXOPBLOCKS] for each
    operation in progress, the new one included, are at most [LOGSIZE], and
    otherwise sleeps; [log_write] of a locked buffer succeeds with fewer than
    [LOGSIZE] - 1 logged blocks, since the header takes a block of the log, and panics
    otherwise.  So three operations are admitted at once, and the last of
    the blocks they have reserved panics. *)
Theorem log_reservation_overflow p s held bs V b n :
  tx_inv p s held bs V → b ∈ held → cached s b n → outside (lg_start (k_log s)) n → blockno n →
  let out := lg_outstanding (k_log s) in 1 ≤ out →
  (if decide (Z.of_nat (length bs) + (out + 1) * MAXOPBLOCKS ≤ LOGSIZE)
   then begin_op s = Ok () (upd_log one_more s)
   else ∃ k, begin_op s = Yield (asleep p Ch_log s) k) ∧
  (if decide (Z.of_nat (length bs) < LOGSIZE - 1)
   then ∃ s', log_write b s = Ok () s' ∧ tx_inv p s' held (logged bs n) V
   else log_write b s = Panic "too big a transaction") ∧
  LOGSIZE - 1 < 3 * MAXOPBLOCKS ≤ LOGSIZE.
Proof.
  intros T Hb Hc Ho Hn out Hou. pose proof T as [H HL Htx Hcm Hsz Hh]. pose proof (bi_run _ _ _ _ _ H) as HR.
  split; [|split; [|done]].
  - assert (room (k_log s) ↔ Z.of_nat (length bs) + (out + 1) * MAXOPBLOCKS ≤ LOGSIZE) as Hroom.
    { unfold room, out. rewrite (lo_n _ _ HL). tauto. }
    case_decide as Hd; [apply (begin_op_Ok p); [done|by apply Hroom]|].
    destruct (begin_op_sleeps p s HR) as (k & E & _); [by rewrite Hroom|by exists k].
  - case_decide as Hd; [|apply (log_write_full p s held bs V); [done|lia]].
    destruct (log_write_Ok p s held bs V b n T Hb Hc Ho Hn Hou Hd) as (s' & E & T' & _). by exists s'.
Qed.
Lemma log_reservation_overflow_witness : ∃ b s s' V,
  log_write b s = Ok () s' ∧ tx_inv 2 s' ({[b]} ∪ ∅) [50] V ∧ begin_op s = Ok () (upd_log one_more s).
Proof.
  destruct (tx_bread 2 tx_boot ∅ [] _ 50 tx_boot_inv) as (b & s1 & E1 & T1 & C1 & _ & _ & F & _);
    [set_solver|vm_compute; lia|].
  destruct (log_reservation_overflow 2 s1 _ [] _ b 50 T1 (held_one b) C1) as (Hb & Hw & _).
  - rewrite (tf_start _ _ F). right. by vm_compute.
  - by vm_compute.
  - by rewrite (tf_out _ _ F).
  - rewrite decide_True in Hw by (by vm_compute). destruct Hw as (s' & E & T).
    rewrite decide_True in Hb by (rewrite (tf_out _ _ F); by vm_compute).
    exists b, s1, s', (disk_block ∅). split; [exact E|]. split; [exact T|exact Hb].
Defined.
