(* ===== verification/Copy.v ===== *)
(** * Copies between kernel objects and either address space

    [either_copyout] and [either_copyin] of [kernel/proc.c].  The model keeps
    the kernel's own objects (buffers, pipes, the console) as typed values;
    the code passes their addresses to the copy routines.  [expose] puts the
    bytes of such an object at the address [KOBJ] of the kernel image, where no
    page of the allocator lies, for the duration of one copy; [absorb] reads
    them back.  No copy gives up the CPU.

    A local variable whose address is taken lives on the kernel stack of the
    process, at a fixed offset: the frames of functions that call each other
    use different offsets. *)

From stdpp Require Import options.
From S2P Require Import Prelude CString State Sched Kalloc Vm.
#[local] Open Scope Z_scope.

Definition KOBJ : Z := KERNBASE.
Definition expose (bs : list Z) : K Z :=
  modify (λ s, set_k_mem (wr_bytes (k_mem s) KOBJ bs) s);;
  mret KOBJ.
Definition absorb (n : Z) : K (list Z) := gets (λ s, rd_bytes (k_mem s) KOBJ (Z.to_nat n)).

(** The address of the local variable at offset [o] of the running thread's
    kernel stack; the boot thread uses [stack0]. *)
Definition STACK0 : Z := KERNBASE + 0x8000.
Definition local (o : Z) : K Z :=
  p ← myproc;
  mret (match p with Some p => KSTACK (Z.of_nat p) | None => STACK0 end + o).

(** String literals, each at an address of its own in the kernel image. *)
Definition literal (k : Z) (bs : list Z) : K Z :=
  let a := KERNBASE + 0x2000 + 16 * k in
  modify (λ s, set_k_mem (wr_bytes (k_mem s) a (bs ++ [0])) s);;
  mret a.
Definition lit_slash : K Z := literal 0 [47].
Definition lit_dot : K Z := literal 1 [46].
Definition lit_dotdot : K Z := literal 2 [46; 46].
(** "initcode" *)
Definition lit_initcode : K Z := literal 3 [105; 110; 105; 116; 99; 111; 100; 101].

Definition either_copyout (user_dst : bool) (dst src len : Z) : K Z :=
  p ← curproc;
  pagetable ← gets (λ s, p_pagetable (proc_of s p));
  if user_dst then copyout pagetable dst src len
  else kmemmove dst src len;; mret 0.

Definition either_copyin (dst : Z) (user_src : bool) (src len : Z) : K Z :=
  p ← curproc;
  pagetable ← gets (λ s, p_pagetable (proc_of s p));
  if user_src then copyin pagetable dst src len
  else kmemmove dst src len;; mret 0.
