(* ===== verification/UserMem.v ===== *)
(** * One byte of user memory

    What the byte-at-a-time copies of the pipes and the console rely on: the
    running process has a well-formed address space, and a local variable of the kernel
    is not a byte of it. *)

From stdpp Require Import options.
From S2P Require Import Prelude CString State Sched Kalloc Vm PageTable VmWalk VmSpec VmOps VmFree VmCopy VmProps Copy.
#[local] Open Scope Z_scope.
#[local] Existing Instance user_leaves.

Definition root_of (s : kst) (p : nat) : Z := p_pagetable (proc_of s p).

(** Process [p] runs in the kernel, and its address space is well formed; the
    kernel image has at least 64KB. *)
Record uctx (p : nat) (s : kst) : Prop := {
  uc_cur : k_cur s = Some p;
  uc_p : (p < NPROC)%nat;
  uc_procs : length (k_procs s) = NPROC;
  uc_space : uspace (ly_end (k_ly s)) (k_mem s) (root_of s p);
  uc_mem : mem_ok (k_mem s);
  uc_ly : KERNBASE + 0x10000 ≤ ly_end (k_ly s);
}.

(** The byte user code sees at [va]. *)
Definition upeek (m : mem) (root va : Z) : option Z := rd m <$> utrans m root va.

Lemma kernel_low e m root a n :
  as_wf e m root [] → a + n ≤ e → kernel_range m root a n.
Proof.
  intros Hw Hn x q Hx Ho [Hq _]. destruct (owns_ok _ _ _ _ _ Hw Ho) as [(_ & ? & _) _]. lia.
Qed.
Lemma kernel_high e m root a n :
  as_wf e m root [] → PHYSTOP ≤ a → kernel_range m root a n.
Proof.
  intros Hw Hn x q Hx Ho [_ Hq]. destruct (owns_ok _ _ _ _ _ Hw Ho) as [Hok _].
  apply page_ok_range in Hok. lia.
Qed.
Lemma KSTACK_high p o : (p < NPROC)%nat → 0 ≤ o → PHYSTOP ≤ KSTACK (Z.of_nat p) + o.
Proof.
  intros Hp Ho. unfold NPROC in Hp. unfold KSTACK, TRAMPOLINE.
  change MAXVA with (2 ^ 38). unfold PHYSTOP, KERNBASE, PGSIZE. lia.
Qed.

(** Changing kernel memory keeps the user's. *)
Lemma upeek_kernel e m m' root va :
  uspace e m root → (∀ q a, owns m root q → in_page q a → rd m' a = rd m a) →
  same_tabs m m' root ∧ upeek m' root va = upeek m root va.
Proof.
  intros Hu H. assert (same_tabs m m' root) as Ht.
  { intros q a Hq Ha. apply (H q); [by apply tabs_owns|done]. }
  split; [done|]. unfold upeek. rewrite (utrans_tabs m m') by done.
  destruct (utrans m root va) as [a|] eqn:E; [|done]. simpl. f_equal.
  destruct (utrans_owned _ _ _ _ _ Hu E) as (_ & v & _ & _ & -> & _ & Ho).
  apply (H (PTE2PA v)); [done|apply in_page_off].
Qed.
Lemma uctx_mem p s m :
  uctx p s → mem_ok m → same_tabs (k_mem s) m (root_of s p) → uctx p (set_k_mem m s).
Proof.
  intros [H1 H2 H3 H4 H5 H6] Hm Ht. split; try done. by eapply uspace_tabs.
Qed.

(** [copyin] of one byte to a kernel address. *)
Lemma copyin_byte e s root dst va :
  uspace e (k_mem s) root → mem_ok (k_mem s) → 0 ≤ va < 2 ^ 64 →
  kernel_range (k_mem s) root dst 1 →
  ∃ m', copyin root dst va 1 s =
      Ok (if upeek (k_mem s) root va then 0 else -1) (set_k_mem m' s) ∧
    mem_ok m' ∧ (∀ a, a ≠ dst → rd m' a = rd (k_mem s) a) ∧
    (∀ c, upeek (k_mem s) root va = Some c → rd m' dst = c).
Proof.
  intros Hu Hm Hva Hk. destruct (copyin_ok e s root dst va 1 Hu Hm Hva ltac:(lia) Hk)
    as (k & m' & E & Hk1 & Hstop & Hc). exists m'. rewrite E. unfold upeek.
  destruct (decide (k = 1)) as [->|Hne].
  - destruct (ci_bytes _ _ _ _ _ _ Hc 0 ltac:(lia)) as (a & Ha & Hb). rewrite Z.add_0_r in Ha, Hb.
    rewrite Ha. simpl. split; [done|]. split; [apply Hc|]. split.
    + intros x Hx. apply (ci_rest _ _ _ _ _ _ Hc). lia.
    + intros c [= <-]. done.
  - assert (k = 0) as -> by lia. rewrite Z.add_0_r in Hstop. rewrite Hstop by lia. simpl.
    split; [done|]. split; [apply Hc|]. split; [|done].
    intros x _. apply (ci_rest _ _ _ _ _ _ Hc). lia.
Qed.

(** [copyout] of one byte from a kernel address. *)
Lemma copyout_byte e s root va src :
  uspace e (k_mem s) root → mem_ok (k_mem s) → 0 ≤ va < 2 ^ 64 →
  kernel_range (k_mem s) root src 1 →
  ∃ m', copyout root va src 1 s =
      Ok (if utrans (k_mem s) root va then 0 else -1) (set_k_mem m' s) ∧
    mem_ok m' ∧ same_tabs (k_mem s) m' root ∧
    (∀ a, utrans (k_mem s) root va ≠ Some a → rd m' a = rd (k_mem s) a) ∧
    (∀ a, utrans (k_mem s) root va = Some a → rd m' a = rd (k_mem s) src).
Proof.
  intros Hu Hm Hva Hk. destruct (copyout_ok e s root va src 1 Hu Hm Hva ltac:(lia) Hk)
    as (k & m' & E & Hk1 & Hstop & Hc). exists m'. rewrite E.
  pose proof (copied_out_tabs _ _ _ _ _ _ _ Hu Hc) as Ht.
  destruct (decide (k = 1)) as [->|Hne].
  - destruct (co_bytes _ _ _ _ _ _ Hc 0 ltac:(lia)) as (a & Ha & Hb).
    rewrite Z.add_0_r in Ha, Hb. rewrite Ha.
    split; [done|]. split; [apply Hc|]. split; [done|]. split.
    + intros x Hx. apply (co_rest _ _ _ _ _ _ Hc). intros i Hi.
      assert (i = 0) as -> by lia. by rewrite Z.add_0_r, Ha.
    + intros x [= <-]. done.
  - assert (k = 0) as -> by lia. rewrite Z.add_0_r in Hstop. rewrite Hstop by lia.
    split; [done|]. split; [apply Hc|]. split; [done|]. split; [|done].
    intros x _. apply (co_rest _ _ _ _ _ _ Hc). lia.
Qed.

(** Process [p] running in the address space [root]. *)
Definition run_in (p : nat) (root : Z) (s : kst) : kst :=
  set_k_cur (Some p) (upd_proc p (set_p_pagetable root) s).
Lemma root_run_in p root s :
  (p < length (k_procs s))%nat → root_of (run_in p root s) p = root.
Proof.
  intros Hp. unfold root_of, proc_of, run_in. simpl. rewrite list_lookup_alter_eq.
  by destruct (lookup_lt_is_Some_2 _ _ Hp) as [x ->].
Qed.
Lemma run_in_uctx p root s :
  (p < NPROC)%nat → length (k_procs s) = NPROC → mem_ok (k_mem s) →
  uspace (ly_end (k_ly s)) (k_mem s) root → KERNBASE + 0x10000 ≤ ly_end (k_ly s) →
  uctx p (run_in p root s).
Proof.
  intros Hp Hl Hm Hu Hly. split; try done.
  - simpl. by rewrite length_alter.
  - rewrite root_run_in by lia. exact Hu.
Qed.

Lemma space1_rest : vm_rest kst0 space1.
Proof.
  destruct space1_vmx as (l & _ & HU & _). eapply vm_rest_trans; [|apply HU].
  reflexivity.
Qed.
Lemma vm_rest_procs s s' : vm_rest s s' → k_procs s' = k_procs s.
Proof. intros H. rewrite H. done. Qed.
Lemma space1_procs : length (k_procs space1) = NPROC.
Proof. rewrite (vm_rest_procs _ _ space1_rest). reflexivity. Qed.
Lemma user_uctx : uctx 2 (run_in 2 R0 space1).
Proof.
  apply run_in_uctx;
    [unfold NPROC; lia|exact space1_procs|exact space1_mem|exact space1_uspace|].
  rewrite (vm_rest_ly _ _ space1_rest). by apply Z.leb_le.
Qed.
