(* ===== verification/EitherCopy.v ===== *)
(** * Buffers of the file system's callers

    [readi] and [writei] move bytes between a block and a buffer that is in
    user memory or in the kernel.  Both cases look the same from the block's side. *)

From stdpp Require Import options.
From S2P Require Import Prelude CString State Sched Kalloc Vm PageTable VmWalk VmSpec VmOps VmFree VmCopy VmProps Copy UserMem.
#[local] Open Scope Z_scope.
#[local] Existing Instance user_leaves.

(** The physical byte behind address [va] of a user or kernel buffer. *)
Definition target (user : bool) (m : mem) (root va : Z) : option Z :=
  if user then utrans m root va else Some va.
Definition peek (user : bool) (s : kst) (p : nat) (va : Z) : option Z :=
  rd (k_mem s) <$> target user (k_mem s) (root_of s p) va.
(** Where [expose] puts the bytes of a block. *)
Definition scratch (a : Z) : Prop := KOBJ ≤ a < KOBJ + BSIZE.

Record buffer (user : bool) (p : nat) (va n : Z) (s : kst) : Prop := {
  bf_ctx : uctx p s;
  bf_range : 0 ≤ va ∧ 0 ≤ n ∧ va + n < 2 ^ 64;
  bf_mapped i : 0 ≤ i < n → target user (k_mem s) (root_of s p) (va + i) ≠ None;
  bf_kernel : user = false → kernel_range (k_mem s) (root_of s p) va n ∧
    (va + n ≤ KOBJ ∨ KOBJ + BSIZE ≤ va);
}.

Lemma tabs_same m m' root q : same_tabs m m' root → tabs m root q → tabs m' root q.
Proof.
  intros Hs (t & [Hp Hl] & E). exists t. split; [done|]. rewrite (node_tabs m); [done|done|done|lia].
Qed.
Lemma same_tabs_trans m1 m2 m3 root : same_tabs m1 m2 root → same_tabs m2 m3 root → same_tabs m1 m3 root.
Proof.
  intros H1 H2 q a Hq Ha. rewrite (H2 q) by (done || by eapply tabs_same). by apply (H1 q).
Qed.
Lemma target_tabs user m m' root va : same_tabs m m' root → target user m' root va = target user m root va.
Proof. intros H. destruct user; [by apply utrans_tabs|done]. Qed.

(** The scratch area is not user memory. *)
Lemma scratch_kernel p s : uctx p s → kernel_range (k_mem s) (root_of s p) KOBJ BSIZE.
Proof.
  intros Hc. apply (kernel_low _ _ _ _ _ (us_wf _ _ _ (uc_space _ _ Hc))).
  pose proof (uc_ly _ _ Hc). unfold KOBJ. change BSIZE with 1024. lia.
Qed.
Lemma scratch_tabs p s m' :
  uctx p s → (∀ a, ¬ scratch a → rd m' a = rd (k_mem s) a) → same_tabs (k_mem s) m' (root_of s p).
Proof.
  intros Hc H q a Ht Ha. apply H. intros Hs.
  by apply (scratch_kernel p s Hc a q Hs (tabs_owns _ _ _ Ht)).
Qed.

Section buffer.
Context (user : bool) (p : nat) (va n : Z) (s : kst) (HB : buffer user p va n s).

Lemma buffer_not_scratch i a :
  0 ≤ i < n → target user (k_mem s) (root_of s p) (va + i) = Some a → ¬ scratch a.
Proof using HB.
  intros Hi. destruct HB as [Hc Hr Hm Hk]. destruct user; simpl.
  - intros Ha Hs. destruct (utrans_owned _ _ _ _ _ (uc_space _ _ Hc) Ha) as (_ & v & _ & _ & -> & _ & Ho).
    apply (scratch_kernel p s Hc _ _ Hs Ho). apply in_page_off.
  - intros [= <-]. destruct (Hk eq_refl) as [_ Hd]. unfold scratch. lia.
Qed.
Lemma target_inj i j a :
  target user (k_mem s) (root_of s p) (va + i) = Some a →
  target user (k_mem s) (root_of s p) (va + j) = Some a → i = j.
Proof using HB.
  destruct HB as [Hc _ _ _]. destruct user; simpl.
  - intros H1 H2. pose proof (utrans_inj _ _ _ _ _ _ (uc_space _ _ Hc) H1 H2). lia.
  - intros [= <-] [= E]. lia.
Qed.
(** Memory changes that leave the page tables alone. *)
Lemma buffer_mem m' :
  mem_ok m' → same_tabs (k_mem s) m' (root_of s p) → buffer user p va n (set_k_mem m' s).
Proof using HB.
  intros Hm Ht. destruct HB as [Hc Hr Hx Hk]. split; [by apply uctx_mem|done| |].
  - intros i Hi. change (root_of (set_k_mem m' s) p) with (root_of s p). simpl.
    rewrite (target_tabs _ (k_mem s)) by done. by apply Hx.
  - intros E. destruct (Hk E). split; [|done]. by eapply kernel_range_tabs.
Qed.
Lemma peek_mem m' i :
  same_tabs (k_mem s) m' (root_of s p) → 0 ≤ i < n →
  (∀ a, target user (k_mem s) (root_of s p) (va + i) = Some a → rd m' a = rd (k_mem s) a) →
  peek user (set_k_mem m' s) p (va + i) = peek user s p (va + i).
Proof using.
  intros Ht Hi Hrd. unfold peek. change (root_of (set_k_mem m' s) p) with (root_of s p). simpl.
  rewrite (target_tabs _ (k_mem s)) by done.
  destruct (target user (k_mem s) (root_of s p) (va + i)) as [a|] eqn:E; [|done]. simpl. f_equal. by apply Hrd.
Qed.
Lemma buffer_drop k : 0 ≤ k ≤ n → buffer user p (va + k) (n - k) s.
Proof using HB.
  intros Hk. destruct HB as [Hc Hr Hm Hkr]. split; [done|lia| |].
  - intros i Hi. rewrite <- Z.add_assoc. apply Hm. lia.
  - intros E. destruct (Hkr E) as [Hx Hd]. split; [|lia]. intros y q Hy. apply Hx. lia.
Qed.

Lemma either_copyin_Ok k :
  0 ≤ k ≤ n → k ≤ BSIZE →
  ∃ m', either_copyin KOBJ user va k s = Ok 0 (set_k_mem m' s) ∧ mem_ok m' ∧
    (∀ i, 0 ≤ i < k → peek user s p (va + i) = Some (rd m' (KOBJ + i))) ∧
    (∀ a, ¬ scratch a → rd m' a = rd (k_mem s) a).
Proof using HB.
  intros Hk Hb. destruct HB as [Hc Hr Hm Hkr]. pose proof Hc as [C1 C2 C3 C4 C5 C6].
  unfold either_copyin. rewrite (bind_curproc p) by done. rewrite bind_gets.
  destruct user; simpl in Hm.
  - destruct (copyin_ok _ s (root_of s p) KOBJ va k C4 C5) as (j & m' & E & Hj & Hstop & Hci);
      [lia|lia| |].
    { intros x q Hx. apply (scratch_kernel p s Hc). lia. }
    assert (j = k) as ->. { destruct (decide (j = k)); [done|]. exfalso. apply (Hm j); [lia|]. apply Hstop. lia. }
    exists m'. rewrite decide_True in E by done. split; [exact E|]. split; [apply Hci|]. split.
    + intros i Hi. destruct (ci_bytes _ _ _ _ _ _ Hci i Hi) as (a & Ha & ->). unfold peek. simpl. by rewrite Ha.
    + intros a Ha. apply (ci_rest _ _ _ _ _ _ Hci). unfold scratch in Ha. lia.
  - exists (memmove (k_mem s) KOBJ va k). split; [done|]. split; [by apply mem_ok_memmove; [|lia]|]. split.
    + intros i Hi. unfold peek. simpl. rewrite rd_memmove, decide_True by (done || lia). do 2 f_equal. lia.
    + intros a Ha. rewrite rd_memmove, decide_False by (done || unfold scratch in Ha; lia). done.
Qed.

Lemma either_copyout_Ok k :
  0 ≤ k ≤ n → k ≤ BSIZE →
  ∃ m', either_copyout user va KOBJ k s = Ok 0 (set_k_mem m' s) ∧ mem_ok m' ∧
    same_tabs (k_mem s) m' (root_of s p) ∧
    (∀ i, 0 ≤ i < k → peek user (set_k_mem m' s) p (va + i) = Some (rd (k_mem s) (KOBJ + i))) ∧
    (∀ a, (∀ i, 0 ≤ i < k → target user (k_mem s) (root_of s p) (va + i) ≠ Some a) →
      rd m' a = rd (k_mem s) a).
Proof using HB.
  intros Hk Hb. destruct HB as [Hc Hr Hm Hkr]. pose proof Hc as [C1 C2 C3 C4 C5 C6].
  unfold either_copyout. rewrite (bind_curproc p) by done. rewrite bind_gets.
  destruct user; simpl in Hm.
  - destruct (copyout_ok _ s (root_of s p) va KOBJ k C4 C5) as (j & m' & E & Hj & Hstop & Hco);
      [lia|lia| |].
    { intros x q Hx. apply (scratch_kernel p s Hc). lia. }
    assert (j = k) as ->. { destruct (decide (j = k)); [done|]. exfalso. apply (Hm j); [lia|]. apply Hstop. lia. }
    pose proof (copied_out_tabs _ _ _ _ _ _ _ C4 Hco) as Ht.
    exists m'. rewrite decide_True in E by done. split; [exact E|]. split; [apply Hco|]. split; [done|]. split.
    + intros i Hi. destruct (co_bytes _ _ _ _ _ _ Hco i Hi) as (a & Ha & <-). unfold peek.
      change (root_of (set_k_mem m' s) p) with (root_of s p). simpl. by rewrite (utrans_tabs (k_mem s)), Ha.
    + intros a Ha. by apply (co_rest _ _ _ _ _ _ Hco).
  - exists (memmove (k_mem s) va KOBJ k). split; [done|]. split; [by apply mem_ok_memmove; [|lia]|].
    destruct (Hkr eq_refl) as [Hx Hd]. split; [|split].
    + intros q a Ht Ha. rewrite rd_memmove by (done || lia). rewrite decide_False; [done|]. intros Hy.
      apply (Hx a q); [lia|by apply tabs_owns|done].
    + intros i Hi. unfold peek. simpl. rewrite rd_memmove, decide_True by (done || lia). do 2 f_equal. lia.
    + intros a Ha. rewrite rd_memmove by (done || lia). rewrite decide_False; [done|]. intros Hy.
      apply (Ha (a - va)); [lia|]. simpl. f_equal. lia.
Qed.
End buffer.
