(* ===== verification/Fs.v ===== *)
(** * The file system: operations

    [kernel/fs.c], layer by layer: the block allocator, the inode table, the
    contents of inodes, directories and paths.  [struct inode *] is an index
    into [k_itable]; structures on the disk are byte ranges of buffers. *)

From stdpp Require Import options.
From S2P Require Import Prelude CString State Sched Sleeplock Kalloc Vm Bio Block Log Copy.
#[local] Open Scope Z_scope.

(** ** Structures on the disk *)

Definition superblock_of (d : list Z) : superblock :=
  Superblock (get32 d 0) (get32 d 4) (get32 d 8) (get32 d 12) (get32 d 16) (get32 d 20)
    (get32 d 24) (get32 d 28).

(** The offset of the [dinode] of [inum] in its block, [inum%IPB] entries in. *)
Definition dinode_off (inum : Z) : nat := Z.to_nat (inum mod IPB * sizeof_dinode).
Definition NADDRS : nat := Z.to_nat (NDIRECT + 1).
Definition get_addrs (d : list Z) (off : nat) : list Z :=
  map (λ i, get32 d (off + 4 * i)) (seq 0 NADDRS).
Fixpoint put_addrs (d : list Z) (off : nat) (l : list Z) : list Z :=
  match l with
  | [] => d
  | a :: l => put_addrs (put32 d off a) (off + 4) l
  end.
Definition get_dinode (d : list Z) (off : nat) : dinode :=
  Dinode (i16 (get16 d off)) (i16 (get16 d (off + 2))) (i16 (get16 d (off + 4)))
    (i16 (get16 d (off + 6))) (get32 d (off + 8)) (get_addrs d (off + 12)).
Definition put_dinode (d : list Z) (off : nat) (x : dinode) : list Z :=
  let d := put16 d off (d_type x) in
  let d := put16 d (off + 2) (d_major x) in
  let d := put16 d (off + 4) (d_minor x) in
  let d := put16 d (off + 6) (d_nlink x) in
  let d := put32 d (off + 8) (d_size x) in
  put_addrs d (off + 12) (d_addrs x).

Definition IBLOCK (i : Z) (sb : superblock) : Z := i / IPB + sb_inodestart sb.
Definition BBLOCK (b : Z) (sb : superblock) : Z := b / BPB + sb_bmapstart sb.

(** ** Mounting *)

Definition readsb (dev : Z) : K unit :=
  bp ← bread dev 1;
  d ← gets (λ s, data_of s bp);
  modify (set_k_sb (superblock_of d));;
  brelse bp.

Definition fsinit (dev : Z) : K unit :=
  readsb dev;;
  sb ← gets k_sb;
  if negb (sb_magic sb =? FSMAGIC) then panic "invalid file system" else
  initlog dev sb.

(** ** Blocks *)

Definition bzero (dev bno : Z) : K unit :=
  bp ← bread dev bno;
  set_data bp (λ _, replicate (Z.to_nat BSIZE) 0);;
  log_write bp;;
  brelse bp.

(** [bp->data[bi/8]] and the mask [1 << (bi % 8)]. *)
Definition bit_byte (d : list Z) (bi : Z) : Z := default 0 (d !! Z.to_nat (bi / 8)).
Definition bit_mask (bi : Z) : Z := Z.shiftl 1 (bi mod 8).
Definition bit_clear (d : list Z) (bi : Z) : bool := Z.land (bit_byte d bi) (bit_mask bi) =? 0.
Definition set_bit (bi : Z) (d : list Z) : list Z :=
  <[Z.to_nat (bi / 8) := Z.lor (bit_byte d bi) (bit_mask bi)]> d.
Definition clear_bit (bi : Z) (d : list Z) : list Z :=
  <[Z.to_nat (bi / 8) := Z.land (bit_byte d bi) (u8 (Z.lnot (bit_mask bi)))]> d.

(** The inner loop of [balloc] on the bitmap block of [b]. *)
Definition balloc_scan (dev b : Z) (bp : nat) : K (option Z) :=
  size ← gets (λ s, sb_size (k_sb s));
  mfind (Z.to_nat (Z.min BPB (size - b))) 0 (λ bi,
    free ← gets (λ s, bit_clear (data_of s bp) bi);
    if free : bool then
      set_data bp (set_bit bi);;
      log_write bp;;
      brelse bp;;
      bzero dev (b + bi);;
      mret (Some (b + bi))
    else mret None).
Definition balloc (dev : Z) : K Z :=
  size ← gets (λ s, sb_size (k_sb s));
  r ← mfind (Z.to_nat ((size + BPB - 1) / BPB)) 0 (λ k,
        let b := k * BPB in
        sb ← gets k_sb;
        bp ← bread dev (BBLOCK b sb);
        r ← balloc_scan dev b bp;
        match r with
        | Some a => mret (Some a)
        | None => brelse bp;; mret None
        end);
  match r with
  | Some a => mret a
  | None => panic "balloc: out of blocks"
  end.

Definition bfree (dev b : Z) : K unit :=
  sb ← gets k_sb;
  bp ← bread dev (BBLOCK b sb);
  let bi := b mod BPB in
  free ← gets (λ s, bit_clear (data_of s bp) bi);
  if free : bool then panic "freeing free block" else
  set_data bp (clear_bit bi);;
  log_write bp;;
  brelse bp.

(** ** The inode table *)

Definition iinit : K unit :=
  mfor NINODE 0 (λ i, initsleeplock (SL_inode (Z.to_nat i))).

(** The loop of [iget] from entry [i] on, with [empty] the first entry of
    reference count zero so far. *)
Fixpoint iget_scan (n : nat) (i : nat) (empty : option nat) (dev inum : Z)
    : K (nat + option nat) :=
  match n with
  | O => mret (inr empty)
  | S n =>
    ip ← gets (λ s, inode_of s i);
    if (0 <? i_ref ip) && (i_dev ip =? dev) && (i_inum ip =? inum) then mret (inl i)
    else
      let empty := match empty with
                   | None => if i_ref ip =? 0 then Some i else None
                   | Some _ => empty
                   end in
      iget_scan n (S i) empty dev inum
  end.
Definition iget (dev inum : Z) : K nat :=
  acquire LK_itable;;
  r ← iget_scan NINODE 0 None dev inum;
  match r with
  | inl ip =>
    modify (upd_inode ip (λ x, set_i_ref (i_ref x + 1) x));;
    release LK_itable;;
    mret ip
  | inr None => panic "iget: no inodes"
  | inr (Some ip) =>
    modify (upd_inode ip (set_i_dev dev));;
    modify (upd_inode ip (set_i_inum inum));;
    modify (upd_inode ip (set_i_ref 1));;
    modify (upd_inode ip (set_i_valid false));;
    release LK_itable;;
    mret ip
  end.

Definition idup (ip : nat) : K nat :=
  acquire LK_itable;;
  modify (upd_inode ip (λ x, set_i_ref (i_ref x + 1) x));;
  release LK_itable;;
  mret ip.

Definition ialloc (dev type : Z) : K nat :=
  n ← gets (λ s, sb_ninodes (k_sb s));
  r ← mfind (Z.to_nat (n - 1)) 1 (λ inum,
        sb ← gets k_sb;
        bp ← bread dev (IBLOCK inum sb);
        let off := dinode_off inum in
        t ← gets (λ s, d_type (get_dinode (data_of s bp) off));
        if t =? 0 then
          set_data bp (λ d, put_dinode d off dinode0);;
          set_data bp (λ d, put16 d off type);;
          log_write bp;;
          brelse bp;;
          ip ← iget dev inum;
          mret (Some ip)
        else brelse bp;; mret None);
  match r with
  | Some ip => mret ip
  | None => panic "ialloc: no inodes"
  end.

(** The fields of an inode that live on the disk. *)
Definition dinode_of (x : inode) : dinode :=
  Dinode (i_type x) (i_major x) (i_minor x) (i_nlink x) (i_size x) (i_addrs x).
Definition load_dinode (y : dinode) (x : inode) : inode :=
  set_i_addrs (d_addrs y) (set_i_size (d_size y) (set_i_nlink (d_nlink y)
    (set_i_minor (d_minor y) (set_i_major (d_major y) (set_i_type (d_type y) x))))).

Definition iupdate (ip : nat) : K unit :=
  sb ← gets k_sb;
  x ← gets (λ s, inode_of s ip);
  bp ← bread (i_dev x) (IBLOCK (i_inum x) sb);
  set_data bp (λ d, put_dinode d (dinode_off (i_inum x)) (dinode_of x));;
  log_write bp;;
  brelse bp.

Definition ilock (ip : nat) : K unit :=
  r ← gets (λ s, i_ref (inode_of s ip));
  if r <? 1 then panic "ilock" else
  acquiresleep (SL_inode ip);;
  x ← gets (λ s, inode_of s ip);
  when (negb (i_valid x))
    (sb ← gets k_sb;
     bp ← bread (i_dev x) (IBLOCK (i_inum x) sb);
     d ← gets (λ s, get_dinode (data_of s bp) (dinode_off (i_inum x)));
     modify (upd_inode ip (load_dinode d));;
     brelse bp;;
     modify (upd_inode ip (set_i_valid true));;
     t ← gets (λ s, i_type (inode_of s ip));
     if t =? 0 then panic "ilock: no type" else mret ()).

Definition iunlock (ip : nat) : K unit :=
  h ← holdingsleep (SL_inode ip);
  r ← gets (λ s, i_ref (inode_of s ip));
  if negb h || (r <? 1) then panic "iunlock" else
  releasesleep (SL_inode ip).

(** ** The contents of inodes *)

(** [ip->addrs[i]] *)
Definition addr_of (s : kst) (ip : nat) (i : Z) : Z :=
  default 0 (i_addrs (inode_of s ip) !! Z.to_nat i).
Definition set_addr (ip : nat) (i a : Z) : K unit :=
  modify (upd_inode ip (λ x, set_i_addrs (<[Z.to_nat i := a]> (i_addrs x)) x)).
(** [a[i]] of an indirect block. *)
Definition ind_off (i : Z) : nat := Z.to_nat (4 * i).

(** [if((addr = ip->addrs[i]) == 0) ip->addrs[i] = addr = balloc(ip->dev);] *)
Definition bmap_direct (ip : nat) (i : Z) : K Z :=
  addr ← gets (λ s, addr_of s ip i);
  if addr =? 0 then
    dev ← gets (λ s, i_dev (inode_of s ip));
    addr ← balloc dev;
    set_addr ip i addr;;
    mret addr
  else mret addr.
Definition bmap (ip : nat) (bn : Z) : K Z :=
  if bn <? NDIRECT then bmap_direct ip bn else
  let bn := bn - NDIRECT in
  if bn <? NINDIRECT then
    addr ← bmap_direct ip NDIRECT;
    dev ← gets (λ s, i_dev (inode_of s ip));
    bp ← bread dev addr;
    addr ← gets (λ s, get32 (data_of s bp) (ind_off bn));
    addr ← (if addr =? 0 then
              dev ← gets (λ s, i_dev (inode_of s ip));
              addr ← balloc dev;
              set_data bp (λ d, put32 d (ind_off bn) addr);;
              log_write bp;;
              mret addr
            else mret addr);
    brelse bp;;
    mret addr
  else panic "bmap: out of range".

Definition itrunc (ip : nat) : K unit :=
  dev ← gets (λ s, i_dev (inode_of s ip));
  mfor (Z.to_nat NDIRECT) 0 (λ i,
    a ← gets (λ s, addr_of s ip i);
    when (negb (a =? 0))
      (bfree dev a;;
       set_addr ip i 0));;
  ind ← gets (λ s, addr_of s ip NDIRECT);
  when (negb (ind =? 0))
    (bp ← bread dev ind;
     mfor (Z.to_nat NINDIRECT) 0 (λ j,
       a ← gets (λ s, get32 (data_of s bp) (ind_off j));
       when (negb (a =? 0)) (bfree dev a));;
     brelse bp;;
     ind ← gets (λ s, addr_of s ip NDIRECT);
     bfree dev ind;;
     set_addr ip NDIRECT 0);;
  modify (upd_inode ip (set_i_size 0));;
  iupdate ip.

(** The inode is freed on the disk when the last reference to it goes and it
    has no links. *)
Definition iput (ip : nat) : K unit :=
  acquire LK_itable;;
  x ← gets (λ s, inode_of s ip);
  when ((i_ref x =? 1) && i_valid x && (i_nlink x =? 0))
    (acquiresleep (SL_inode ip);;
     release LK_itable;;
     itrunc ip;;
     modify (upd_inode ip (set_i_type 0));;
     iupdate ip;;
     modify (upd_inode ip (set_i_valid false));;
     releasesleep (SL_inode ip);;
     acquire LK_itable);;
  modify (upd_inode ip (λ x, set_i_ref (i_ref x - 1) x));;
  release LK_itable.

Definition iunlockput (ip : nat) : K unit :=
  iunlock ip;;
  iput ip.

(** [struct stat] (stat.h), as the 24 bytes the compiler lays it out in:
    [dev], [ino], [type], [nlink], four bytes of padding, [size]. *)
Definition stati (ip : nat) : K (list Z) :=
  x ← gets (λ s, inode_of s ip);
  mret (le_bytes 4 (i_dev x) ++ le_bytes 4 (i_inum x) ++ le_bytes 2 (i_type x) ++
        le_bytes 2 (i_nlink x) ++ replicate 4 0 ++ le_bytes 8 (i_size x)).
Definition sizeof_stat : Z := 24.

(** Iterations of the loops of [readi] and [writei]: the first may be a partial
    block, then whole blocks. *)
Definition io_fuel (n : Z) : nat := S (S (Z.to_nat (n / BSIZE + 1))).

Fixpoint readi_loop (fuel : nat) (ip : nat) (user_dst : bool) (dst off n tot : Z) : K Z :=
  match fuel with
  | O => λ _, NoFuel
  | S fuel =>
    if n <=? tot then mret tot else
    a ← bmap ip (off / BSIZE);
    dev ← gets (λ s, i_dev (inode_of s ip));
    bp ← bread dev a;
    let m := Z.min (n - tot) (BSIZE - off mod BSIZE) in
    d ← gets (λ s, slice (data_of s bp) (Z.to_nat (off mod BSIZE)) (Z.to_nat m));
    src ← expose d;
    r ← either_copyout user_dst dst src m;
    if r =? -1 then brelse bp;; mret (-1)
    else
      brelse bp;;
      readi_loop fuel ip user_dst (u64 (dst + m)) (u32 (off + m)) n (tot + m)
  end.
Definition readi (ip : nat) (user_dst : bool) (dst off n : Z) : K Z :=
  size ← gets (λ s, i_size (inode_of s ip));
  if (size <? off) || (u32 (off + n) <? off) then mret 0 else
  let n := if size <? u32 (off + n) then size - off else n in
  readi_loop (io_fuel n) ip user_dst dst off n 0.

(** The loop of [writei]; it returns [tot] and the final [off].  A copy that
    fails part-way has changed the buffer, which is not logged. *)
Fixpoint writei_loop (fuel : nat) (ip : nat) (user_src : bool) (src off n tot : Z) : K (Z * Z) :=
  match fuel with
  | O => λ _, NoFuel
  | S fuel =>
    if n <=? tot then mret (tot, off) else
    a ← bmap ip (off / BSIZE);
    dev ← gets (λ s, i_dev (inode_of s ip));
    bp ← bread dev a;
    let m := Z.min (n - tot) (BSIZE - off mod BSIZE) in
    let o := Z.to_nat (off mod BSIZE) in
    d ← gets (λ s, slice (data_of s bp) o (Z.to_nat m));
    dst ← expose d;
    r ← either_copyin dst user_src src m;
    d ← absorb m;
    set_data bp (λ x, splice x o d);;
    if r =? -1 then brelse bp;; mret (tot, off)
    else
      log_write bp;;
      brelse bp;;
      writei_loop fuel ip user_src (u64 (src + m)) (u32 (off + m)) n (tot + m)
  end.
Definition writei (ip : nat) (user_src : bool) (src off n : Z) : K Z :=
  size ← gets (λ s, i_size (inode_of s ip));
  if (size <? off) || (u32 (off + n) <? off) then mret (-1) else
  if MAXFILE * BSIZE <? u32 (off + n) then mret (-1) else
  r ← writei_loop (io_fuel n) ip user_src src off n 0;
  let '(tot, off) := r in
  size ← gets (λ s, i_size (inode_of s ip));
  when (size <? off) (modify (upd_inode ip (set_i_size off)));;
  iupdate ip;;
  mret tot.

(** ** Directories *)

Definition namecmp (s t : Z) : K Z := gets (λ st, strncmp (k_mem st) s t DIRSIZ).

(** Locals of [dirlookup], [dirlink] and [namei]: [de], [de] and [name]. *)
Definition L_de_lookup : Z := 0x100.
Definition L_de_link : Z := 0x110.
Definition L_name : Z := 0x120.
(** [de.inum] and [de.name] of the [struct dirent] at [a]. *)
Definition de_inum (m : mem) (a : Z) : Z := le_val (rd_bytes m a 2).
Definition de_name (a : Z) : Z := a + 2.

(** [dirlookup]: the entry's inode and its offset, for the caller that passes
    [poff]. *)
Definition dirlookup (dp : nat) (name : Z) : K (option (nat * Z)) :=
  x ← gets (λ s, inode_of s dp);
  if negb (i_type x =? T_DIR) then panic "dirlookup not DIR" else
  de ← local L_de_lookup;
  mfind (Z.to_nat ((i_size x + sizeof_dirent - 1) / sizeof_dirent)) 0 (λ k,
    let off := k * sizeof_dirent in
    r ← readi dp false de off sizeof_dirent;
    if negb (r =? sizeof_dirent) then panic "dirlookup read" else
    inum ← gets (λ s, de_inum (k_mem s) de);
    if inum =? 0 then mret None else
    c ← namecmp name (de_name de);
    if c =? 0 then
      ip ← iget (i_dev x) inum;
      mret (Some (ip, off))
    else mret None).

Definition dirlink (dp : nat) (name inum : Z) : K Z :=
  r ← dirlookup dp name;
  match r with
  | Some (ip, _) => iput ip;; mret (-1)
  | None =>
    de ← local L_de_link;
    size ← gets (λ s, i_size (inode_of s dp));
    let n := Z.to_nat ((size + sizeof_dirent - 1) / sizeof_dirent) in
    found ← mfind n 0 (λ k,
      let off := k * sizeof_dirent in
      r ← readi dp false de off sizeof_dirent;
      if negb (r =? sizeof_dirent) then panic "dirlink read" else
      i ← gets (λ s, de_inum (k_mem s) de);
      if i =? 0 then mret (Some off) else mret None);
    let off := default (Z.of_nat n * sizeof_dirent) found in
    modify (λ s, set_k_mem (strncpy (k_mem s) (de_name de) name DIRSIZ) s);;
    modify (λ s, set_k_mem (wr_bytes (k_mem s) de (le_bytes 2 inum)) s);;
    w ← writei dp false de off sizeof_dirent;
    if negb (w =? sizeof_dirent) then panic "dirlink" else
    mret 0
  end.

(** ** Paths *)

Definition SLASH : Z := 47.
(** [while(...) path++]: a byte that is not mapped reads as the terminator, so
    the scans stop within the size of the memory. *)
Fixpoint scan (fuel : nat) (stop : Z → bool) (m : mem) (p : Z) : Z :=
  match fuel with
  | O => p
  | S fuel => if stop (rd m p) then p else scan fuel stop m (p + 1)
  end.
Definition skip_slashes (m : mem) (p : Z) : Z := scan (S (size m)) (λ c, negb (c =? SLASH)) m p.
Definition elem_end (m : mem) (p : Z) : Z :=
  scan (S (size m)) (λ c, (c =? SLASH) || (c =? 0)) m p.

(** The path after its first element, and the memory with that element copied
    to [name]; [0] when the path has no element. *)
Definition skipelem_mem (m : mem) (path name : Z) : Z * mem :=
  let path := skip_slashes m path in
  if rd m path =? 0 then (0, m) else
  let s := path in
  let path := elem_end m path in
  let len := path - s in
  let m' := if DIRSIZ <=? len then memmove m name s DIRSIZ
            else wr (name + len) 0 (memmove m name s len) in
  (skip_slashes m' path, m').
Definition skipelem (path name : Z) : K Z :=
  r ← gets (λ s, skipelem_mem (k_mem s) path name);
  modify (set_k_mem r.2);;
  mret r.1.

(** The loop of [namex] at inode [ip]; every iteration consumes an element of
    a path of less than [MAXPATH] bytes. *)
Fixpoint namex_loop (fuel : nat) (ip : nat) (path : Z) (nameiparent : bool) (name : Z)
    : K (option nat) :=
  match fuel with
  | O => λ _, NoFuel
  | S fuel =>
    path ← skipelem path name;
    if path =? 0 then
      if nameiparent then iput ip;; mret None
      else mret (Some ip)
    else
      ilock ip;;
      t ← gets (λ s, i_type (inode_of s ip));
      if negb (t =? T_DIR) then iunlockput ip;; mret None else
      c ← gets (λ s, rd (k_mem s) path);
      if nameiparent && (c =? 0) then iunlock ip;; mret (Some ip) else
      next ← dirlookup ip name;
      match next with
      | None => iunlockput ip;; mret None
      | Some (next, _) =>
        iunlockput ip;;
        namex_loop fuel next path nameiparent name
      end
  end.
Definition namex (path : Z) (nameiparent : bool) (name : Z) : K (option nat) :=
  c ← gets (λ s, rd (k_mem s) path);
  ip ← (if c =? SLASH then iget ROOTDEV ROOTINO
        else
          p ← curproc;
          cwd ← gets (λ s, p_cwd (proc_of s p));
          match cwd with
          | Some ip => idup ip
          | None => panic "kerneltrap"
          end);
  namex_loop (S (Z.to_nat MAXPATH)) ip path nameiparent name.

Definition namei (path : Z) : K (option nat) :=
  name ← local L_name;
  namex path false name.
Definition nameiparent (path name : Z) : K (option nat) := namex path true name.
