(* ===== verification/FsCodec.v ===== *)
(** * Inodes on the disk

    [put_dinode] lays out a [struct dinode] in the 64 bytes at an offset of a
    block, and [get_dinode] reads it back. *)

From stdpp Require Import options.
From S2P Require Import Prelude State Block Fs.
#[local] Open Scope Z_scope.

(** ** Splices and slices *)

Lemma splice_app d off a b :
  (off + length a + length b ≤ length d)%nat →
  splice (splice d off a) (off + length a) b = splice d off (a ++ b).
Proof.
  intros H. apply list_eq. intros i.
  rewrite !lookup_splice by (rewrite ?length_app, ?length_splice by lia; lia).
  rewrite length_app. repeat case_decide; try lia; try done.
  - rewrite lookup_app_r by lia. f_equal. lia.
  - rewrite lookup_app_l by lia. done.
Qed.
Lemma slice_splice d off e k n :
  (off + length e ≤ length d)%nat → (k + n ≤ length e)%nat →
  slice (splice d off e) (off + k) n = slice e k n.
Proof.
  intros H Hk. unfold slice. apply list_eq. intros i. destruct (decide (i < n)%nat).
  - rewrite !lookup_take_lt, !lookup_drop, lookup_splice by lia.
    rewrite decide_True by lia. f_equal. lia.
  - by rewrite !lookup_take_ge by lia.
Qed.
Lemma slice_app_l a r n : length a = n → slice (a ++ r) 0 n = a.
Proof. intros <-. unfold slice. by rewrite drop_0, take_app_length. Qed.
Lemma slice_app_r a r k n : slice (a ++ r) (length a + k) n = slice r k n.
Proof. unfold slice. by rewrite drop_app_ge, Nat.add_comm, Nat.add_sub by lia. Qed.

(** ** The layout of a dinode *)

Definition enc_addrs (l : list Z) : list Z := flat_map (le_bytes 4) l.
Definition enc_dinode (x : dinode) : list Z :=
  le_bytes 2 (d_type x) ++ le_bytes 2 (d_major x) ++ le_bytes 2 (d_minor x) ++
  le_bytes 2 (d_nlink x) ++ le_bytes 4 (d_size x) ++ enc_addrs (d_addrs x).

Lemma length_enc_addrs l : length (enc_addrs l) = (4 * length l)%nat.
Proof. induction l as [|a l IH]; [done|]. simpl. rewrite IH. lia. Qed.
Lemma length_enc_dinode x : length (enc_dinode x) = (12 + 4 * length (d_addrs x))%nat.
Proof. unfold enc_dinode. rewrite !length_app, !length_le_bytes, length_enc_addrs. lia. Qed.

Lemma splice_next d off e k b :
  length e = k → (off + k + length b ≤ length d)%nat →
  splice (splice d off e) (off + k) b = splice d off (e ++ b).
Proof. intros <-. apply splice_app. Qed.
Lemma put_addrs_splice l : ∀ d off e k,
  length e = k → (off + k + 4 * length l ≤ length d)%nat →
  put_addrs (splice d off e) (off + k) l = splice d off (e ++ enc_addrs l).
Proof.
  induction l as [|a l IH]; intros d off e k He H; simpl in *; [by rewrite app_nil_r|].
  unfold put32. rewrite splice_next by (done || (rewrite length_le_bytes; lia)).
  rewrite <- Nat.add_assoc, IH.
  - by rewrite <- app_assoc.
  - rewrite length_app, length_le_bytes. lia.
  - lia.
Qed.
Lemma put_dinode_splice d off x :
  (off + 12 + 4 * length (d_addrs x) ≤ length d)%nat →
  put_dinode d off x = splice d off (enc_dinode x).
Proof.
  intros H. unfold put_dinode, put16, put32.
  rewrite (splice_next d off _ 2), (splice_next d off _ 4), (splice_next d off _ 6), (splice_next d off _ 8),
    (put_addrs_splice _ d off _ 12); rewrite ?length_app, ?length_le_bytes; try lia.
  unfold enc_dinode. by rewrite <- !app_assoc.
Qed.

(** ** Reading back *)

(** The fields fit their C types. *)
Record dinode_ok (x : dinode) : Prop := {
  dk_type : - 2 ^ 15 ≤ d_type x < 2 ^ 15;
  dk_major : - 2 ^ 15 ≤ d_major x < 2 ^ 15;
  dk_minor : - 2 ^ 15 ≤ d_minor x < 2 ^ 15;
  dk_nlink : - 2 ^ 15 ≤ d_nlink x < 2 ^ 15;
  dk_size : 0 ≤ d_size x < 2 ^ 32;
  dk_addrs : length (d_addrs x) = NADDRS;
  dk_addr : Forall (λ a, 0 ≤ a < 2 ^ 32) (d_addrs x);
}.

Lemma i16_le z : - 2 ^ 15 ≤ z < 2 ^ 15 → i16 (le_val (le_bytes 2 z)) = z.
Proof.
  intros Hz. rewrite le_val_bytes. change (256 ^ Z.of_nat 2) with (2 ^ 16). unfold i16.
  rewrite Zplus_mod_idemp_l, Z.mod_small by lia. lia.
Qed.
Lemma slice_dinode d off x k n :
  (off + 64 ≤ length d)%nat → length (d_addrs x) = NADDRS → (k + n ≤ 64)%nat →
  slice (put_dinode d off x) (off + k) n = slice (enc_dinode x) k n.
Proof.
  intros Hd Hl Hk. change NADDRS with 13%nat in Hl. rewrite put_dinode_splice by lia.
  apply slice_splice; rewrite length_enc_dinode; lia.
Qed.
Lemma slice_addr l i a :
  l !! i = Some a → slice (enc_addrs l) (4 * i) 4 = le_bytes 4 a.
Proof.
  revert i. induction l as [|b l IH]; intros [|i] H; try done.
  - injection H as ->. by apply slice_app_l.
  - replace (4 * S i)%nat with (length (le_bytes 4 b) + 4 * i)%nat by (rewrite length_le_bytes; lia).
    change (enc_addrs (b :: l)) with (le_bytes 4 b ++ enc_addrs l). rewrite slice_app_r. by apply IH.
Qed.
Lemma get_addrs_put d off x :
  (off + 64 ≤ length d)%nat → dinode_ok x → get_addrs (put_dinode d off x) (off + 12) = d_addrs x.
Proof.
  intros Hd [_ _ _ _ _ Hl Ha]. unfold get_addrs. apply list_eq. intros i. rewrite list_lookup_fmap.
  destruct (decide (i < NADDRS)%nat) as [Hi|Hi].
  - rewrite lookup_seq_lt by done. simpl.
    destruct (lookup_lt_is_Some_2 (d_addrs x) i ltac:(lia)) as [a Hx]. rewrite Hx. f_equal.
    unfold get32. rewrite <- Nat.add_assoc, slice_dinode; [|done|done|change NADDRS with 13%nat in *; lia].
    unfold enc_dinode. rewrite !app_assoc. set (h := _ ++ le_bytes 4 (d_size x)).
    change (12 + (i + (i + (i + (i + 0)))))%nat with (length h + 4 * i)%nat.
    rewrite (slice_app_r h), (slice_addr _ _ a) by done. apply le_val_bytes_id.
    rewrite Forall_lookup in Ha. by apply (Ha i).
  - rewrite lookup_seq_ge by lia. rewrite lookup_ge_None_2 by lia. done.
Qed.

Lemma get_put_dinode d off x :
  (off + 64 ≤ length d)%nat → dinode_ok x → get_dinode (put_dinode d off x) off = x.
Proof.
  intros Hd Hx. pose proof Hx as [H1 H2 H3 H4 H5 Hl Ha]. unfold get_dinode.
  rewrite get_addrs_put by done. unfold get16, get32.
  rewrite <- (Nat.add_0_r off) at 2. rewrite !slice_dinode by (done || lia). unfold enc_dinode.
  set (l := _ ++ _). change (slice l 0 2) with (le_bytes 2 (d_type x)).
  change (slice l 2 2) with (le_bytes 2 (d_major x)). change (slice l 4 2) with (le_bytes 2 (d_minor x)).
  change (slice l 6 2) with (le_bytes 2 (d_nlink x)). change (slice l 8 4) with (le_bytes 4 (d_size x)).
  rewrite !i16_le, le_val_bytes_id by done. by destruct x.
Qed.

(** Other entries of the block are as before. *)
Lemma length_put_dinode d off x :
  (off + 64 ≤ length d)%nat → length (d_addrs x) = NADDRS → length (put_dinode d off x) = length d.
Proof.
  intros Hd Hl. change NADDRS with 13%nat in Hl. rewrite put_dinode_splice by lia.
  apply length_splice. rewrite length_enc_dinode. lia.
Qed.
Lemma get_dinode_ext d d' off :
  slice d off 64 = slice d' off 64 → get_dinode d off = get_dinode d' off.
Proof.
  intros H. assert (∀ k n, (k + n ≤ 64)%nat → slice d (off + k) n = slice d' (off + k) n) as Hs.
  { intros k n Hk. assert (∀ l, slice l (off + k) n = slice (slice l off 64) k n) as Hx.
    { intros l. unfold slice. rewrite skipn_firstn_comm, drop_drop, take_take.
      by replace (n `min` (64 - k))%nat with n by lia. }
    by rewrite !Hx, H. }
  pose proof (Hs 0%nat 2%nat ltac:(lia)) as H0. rewrite Nat.add_0_r in H0.
  unfold get_dinode, get16. rewrite H0, (Hs 2%nat 2%nat), (Hs 4%nat 2%nat), (Hs 6%nat 2%nat) by lia.
  unfold get32 at 1 2. rewrite (Hs 8%nat 4%nat) by lia. f_equal.
  unfold get_addrs, get32. apply map_ext_in. intros i Hi%in_seq. rewrite <- !Nat.add_assoc.
  change NADDRS with 13%nat in Hi. by rewrite Hs by lia.
Qed.
Lemma get_put_dinode_ne d off off' x :
  (off + 64 ≤ length d)%nat → length (d_addrs x) = NADDRS →
  (off' + 64 ≤ off ∨ off + 64 ≤ off')%nat →
  get_dinode (put_dinode d off x) off' = get_dinode d off'.
Proof.
  intros Hd Hl Ho. change NADDRS with 13%nat in Hl. apply get_dinode_ext.
  rewrite put_dinode_splice by lia. apply slice_splice_ne; rewrite length_enc_dinode; lia.
Qed.

Lemma dinode_off_ok inum : 0 ≤ inum → (dinode_off inum + 64 ≤ Z.to_nat BSIZE)%nat.
Proof.
  intros Hi. unfold dinode_off. change IPB with 16. change sizeof_dinode with 64. change BSIZE with 1024.
  pose proof (Z.mod_pos_bound inum 16 ltac:(lia)). lia.
Qed.
Lemma dinode_off_apart i j sb :
  0 ≤ i → 0 ≤ j → i ≠ j → IBLOCK i sb = IBLOCK j sb →
  (dinode_off j + 64 ≤ dinode_off i ∨ dinode_off i + 64 ≤ dinode_off j)%nat.
Proof.
  intros Hi Hj Hne HI. unfold IBLOCK in HI. unfold dinode_off. change IPB with 16 in *.
  change sizeof_dinode with 64. pose proof (Z.div_mod i 16 ltac:(lia)). pose proof (Z.div_mod j 16 ltac:(lia)).
  pose proof (Z.mod_pos_bound i 16 ltac:(lia)). pose proof (Z.mod_pos_bound j 16 ltac:(lia)).
  assert (i / 16 = j / 16) by lia. lia.
Qed.
