(* ===== verification/FsAlloc.v ===== *)
(** * The block allocator

    The bitmap on the logical disk [V] of a transaction says which blocks are
    in use.  [balloc] takes the first free block, marks it and zeroes it; [bfree]
    gives a block back. *)

From stdpp Require Import options.
From S2P Require Import Prelude CString State Sched Sleeplock Bio BioList BioSpec Block Log LogSpec LogCrash LogTx Kalloc Vm Copy Fs.
#[local] Open Scope Z_scope.

(** ** Bits of a bitmap block *)

Lemma bit_mask_pow bi : bit_mask bi = 2 ^ (bi mod 8).
Proof.
  unfold bit_mask. pose proof (Z.mod_pos_bound bi 8 ltac:(lia)).
  rewrite Z.shiftl_mul_pow2 by lia. lia.
Qed.
Lemma land_pow2 a k : 0 ≤ k → (Z.land a (2 ^ k) =? 0) = negb (Z.testbit a k).
Proof.
  intros Hk. destruct (Z.testbit a k) eqn:E; simpl.
  - apply Z.eqb_neq. intros H. assert (Z.testbit (Z.land a (2 ^ k)) k = false) as Ht by (by rewrite H, Z.bits_0).
    by rewrite Z.land_spec, E, Z.pow2_bits_true in Ht by done.
  - apply Z.eqb_eq. apply Z.bits_inj'. intros i Hi. rewrite Z.land_spec, Z.bits_0.
    destruct (decide (k = i)) as [->|Hne]; [by rewrite E|].
    by rewrite Z.pow2_bits_false, andb_false_r by done.
Qed.
Lemma bit_clear_testbit d bi : bit_clear d bi = negb (Z.testbit (bit_byte d bi) (bi mod 8)).
Proof.
  unfold bit_clear. rewrite bit_mask_pow. apply land_pow2. apply Z.mod_pos_bound. lia.
Qed.

Lemma same_bit bi bj : bi / 8 = bj / 8 → bi mod 8 = bj mod 8 → bi = bj.
Proof. intros H1 H2. rewrite (Z.div_mod bi 8), (Z.div_mod bj 8) by lia. congruence. Qed.

Section bits.
Context (d : list Z) (Hd : length d = Z.to_nat BSIZE).

Lemma bit_lt bi : 0 ≤ bi < BPB → (Z.to_nat (bi / 8) < length d)%nat.
Proof using Hd.
  intros Hb. rewrite Hd. unfold BPB, BSIZE in *.
  pose proof (Z.div_lt_upper_bound bi 8 1024 ltac:(lia) ltac:(lia)).
  pose proof (Z.div_pos bi 8 ltac:(lia) ltac:(lia)). lia.
Qed.
Lemma bit_byte_insert bi bj v :
  0 ≤ bi < BPB → 0 ≤ bj → bit_byte (<[Z.to_nat (bi / 8) := v]> d) bj =
    if decide (bi / 8 = bj / 8) then v else bit_byte d bj.
Proof using Hd.
  intros Hb Hj. unfold bit_byte. pose proof (bit_lt bi Hb).
  pose proof (Z.div_pos bi 8 ltac:(lia) ltac:(lia)). pose proof (Z.div_pos bj 8 ltac:(lia) ltac:(lia)).
  case_decide as E.
  - rewrite <- E. by rewrite list_lookup_insert_eq.
  - rewrite list_lookup_insert_ne by lia. done.
Qed.

Lemma bit_clear_set bi bj :
  0 ≤ bi < BPB → 0 ≤ bj < BPB →
  bit_clear (set_bit bi d) bj = if decide (bi = bj) then false else bit_clear d bj.
Proof using Hd.
  intros Hb Hj. rewrite !bit_clear_testbit. unfold set_bit.
  pose proof (Z.mod_pos_bound bi 8 ltac:(lia)). pose proof (Z.mod_pos_bound bj 8 ltac:(lia)).
  rewrite bit_byte_insert by lia. case_decide as E.
  - rewrite bit_mask_pow, Z.lor_spec. case_decide as Eb.
    + subst. by rewrite Z.pow2_bits_true, orb_true_r by lia.
    + rewrite Z.pow2_bits_false, orb_false_r.
      * unfold bit_byte. by rewrite E.
      * intros Em. by apply Eb, same_bit.
  - rewrite decide_False; [done|]. by intros ->.
Qed.
Lemma bit_clear_clear bi bj :
  0 ≤ bi < BPB → 0 ≤ bj < BPB →
  bit_clear (clear_bit bi d) bj = if decide (bi = bj) then true else bit_clear d bj.
Proof using Hd.
  intros Hb Hj. rewrite !bit_clear_testbit. unfold clear_bit.
  pose proof (Z.mod_pos_bound bi 8 ltac:(lia)). pose proof (Z.mod_pos_bound bj 8 ltac:(lia)).
  rewrite bit_byte_insert by lia. case_decide as E.
  - rewrite bit_mask_pow, Z.land_spec. unfold u8.
    rewrite Z.mod_pow2_bits_low, Z.lnot_spec by lia. case_decide as Eb.
    + subst. by rewrite Z.pow2_bits_true, andb_false_r by lia.
    + rewrite Z.pow2_bits_false, andb_true_r.
      * unfold bit_byte. by rewrite E.
      * intros Em. by apply Eb, same_bit.
  - rewrite decide_False; [done|]. by intros ->.
Qed.
Lemma length_set_bit bi : length (set_bit bi d) = Z.to_nat BSIZE.
Proof using Hd. unfold set_bit. by rewrite length_insert. Qed.
Lemma length_clear_bit bi : length (clear_bit bi d) = Z.to_nat BSIZE.
Proof using Hd. unfold clear_bit. by rewrite length_insert. Qed.
End bits.

(** ** The bitmap *)

Definition bfree_bit (sb : superblock) (V : Z → list Z) (b : Z) : bool :=
  bit_clear (V (BBLOCK b sb)) (b mod BPB).

(** Where things are: the bitmap and the inodes lie outside the log and apart. *)
Record layout_ok (sb : superblock) (start : Z) : Prop := {
  ly_size : 0 < sb_size sb < 2 ^ 30;
  ly_bitmap b : 0 ≤ b < sb_size sb → outside start (BBLOCK b sb) ∧ blockno (BBLOCK b sb);
  ly_inode i : 0 ≤ i < sb_ninodes sb → outside start (IBLOCK i sb) ∧ blockno (IBLOCK i sb);
  ly_apart i b : 0 ≤ i < sb_ninodes sb → 0 ≤ b < sb_size sb → IBLOCK i sb ≠ BBLOCK b sb;
}.

(** A block for the contents of files. *)
Record data_blk (sb : superblock) (start b : Z) : Prop := {
  db_range : 0 < b < sb_size sb;
  db_out : outside start b;
  db_bitmap b' : 0 ≤ b' < sb_size sb → BBLOCK b' sb ≠ b;
  db_inode i : 0 ≤ i < sb_ninodes sb → IBLOCK i sb ≠ b;
}.
(** Only such blocks are free. *)
Record bitmap_ok (sb : superblock) (start : Z) (V : Z → list Z) : Prop := {
  bm_layout : layout_ok sb start;
  bm_free b : 0 ≤ b < sb_size sb → bfree_bit sb V b = true → data_blk sb start b;
}.
Definition in_use (sb : superblock) (start : Z) (V : Z → list Z) (b : Z) : Prop :=
  data_blk sb start b ∧ bfree_bit sb V b = false.

Lemma data_blockno sb start b : layout_ok sb start → data_blk sb start b → blockno b.
Proof. intros L D. pose proof (ly_size _ _ L). pose proof (db_range _ _ _ D). unfold blockno. lia. Qed.

Lemma BPB_pos : 0 < BPB.
Proof. done. Qed.
Lemma BBLOCK_eq b b' sb : BBLOCK b sb = BBLOCK b' sb → b mod BPB = b' mod BPB → b = b'.
Proof.
  unfold BBLOCK. intros H1 H2. rewrite (Z.div_mod b BPB), (Z.div_mod b' BPB) by done.
  assert (b / BPB = b' / BPB) as -> by lia. by rewrite H2.
Qed.

(** Changing the bit of [b]. *)
Lemma bfree_bit_upd sb V b b' f v :
  (∀ bj, 0 ≤ bj < BPB → bit_clear (f (V (BBLOCK b sb))) bj =
     if decide (b mod BPB = bj) then v else bit_clear (V (BBLOCK b sb)) bj) →
  bfree_bit sb (supd V (BBLOCK b sb) (f (V (BBLOCK b sb)))) b' =
    if decide (b = b') then v else bfree_bit sb V b'.
Proof.
  intros Hf. unfold bfree_bit, supd. pose proof (Z.mod_pos_bound b' BPB BPB_pos).
  destruct (decide (BBLOCK b' sb = BBLOCK b sb)) as [E|E].
  - rewrite Hf by done. rewrite E. repeat case_decide; try done.
    + exfalso. naive_solver eauto using BBLOCK_eq.
    + naive_solver.
  - rewrite decide_False; [done|]. naive_solver.
Qed.

Lemma bind_in_Ok {A B C} (m : K A) (g : A → K B) (f : B → K C) s a s' :
  m s = Ok a s' → ((m ≫= g) ≫= f) s = (g a ≫= f) s'.
Proof. unfold mbind, M_bind. by intros ->. Qed.
Lemma seq3_Ok {A} (m1 m2 m3 : K unit) (f : unit → K A) s s' :
  (m1;; m2;; m3) s = Ok () s' → (m1;; m2;; m3 ≫= f) s = f () s'.
Proof.
  unfold mbind, M_bind. destruct (m1 s) as [[] s1| | |]; simpl; try done.
  destruct (m2 s1) as [[] s2| | |]; simpl; try done. by intros ->.
Qed.
Lemma sb_frame s s' : tx_frame s s' → k_sb s' = k_sb s.
Proof. intros F. by rewrite (io_eq _ _ (tf_io _ _ F)). Qed.

Definition zeros : list Z := replicate (Z.to_nat BSIZE) 0.
Lemma bzero_Ok p s held ns bs V n :
  tx_inv p s held bs V → holds s held ns → n ∉ ns →
  outside (lg_start (k_log s)) n → blockno n → 1 ≤ lg_outstanding (k_log s) →
  Z.of_nat (length bs) < LOGSIZE - 1 → (size held + length bs < NBUF)%nat →
  ∃ s', bzero ROOTDEV n s = Ok () s' ∧ tx_inv p s' held (logged bs n) (supd V n zeros) ∧
    holds s' held ns ∧ tx_frame s s'.
Proof.
  intros T HH Hns Ho Hn Hou Hl Hsz.
  destruct (tx_update p s held ns bs V n (λ _, zeros) T HH Hns Ho Hn Hou Hl Hsz)
    as (b & s1 & s' & E1 & _ & _ & E & T' & H' & F); [apply length_replicate|].
  exists s'. unfold bzero. rewrite (bind_Ok _ _ _ _ _ E1). done.
Qed.
Lemma length_logged bs n : (length (logged bs n) ≤ S (length bs))%nat.
Proof. unfold logged. case_decide; [lia|]. rewrite length_app. simpl. lia. Qed.

(** The view after [a] has been allocated. *)
Definition alloc_view (sb : superblock) (V : Z → list Z) (a : Z) : Z → list Z :=
  supd (supd V (BBLOCK a sb) (set_bit (a mod BPB) (V (BBLOCK a sb)))) a zeros.

(** Allocation takes a block off the bitmap, and changes no other bit. *)
Lemma alloc_view_bits sb start V a b :
  bitmap_ok sb start V → 0 ≤ a < sb_size sb → 0 ≤ b < sb_size sb →
  length (V (BBLOCK a sb)) = Z.to_nat BSIZE → bfree_bit sb V a = true →
  bfree_bit sb (alloc_view sb V a) b = if decide (a = b) then false else bfree_bit sb V b.
Proof.
  intros HB Ha Hb Hl Hf. pose proof (db_bitmap _ _ _ (bm_free _ _ _ HB a Ha Hf) b Hb) as Hne.
  rewrite <- (bfree_bit_upd sb V a b (set_bit (a mod BPB)) false).
  - unfold bfree_bit, alloc_view, supd. by rewrite (decide_False _ _ Hne).
  - intros bj Hj. apply bit_clear_set; [done| |done]. apply Z.mod_pos_bound. done.
Qed.

Lemma div_block k bi : 0 ≤ bi < BPB → (k * BPB + bi) / BPB = k ∧ (k * BPB + bi) mod BPB = bi.
Proof.
  intros Hb. split.
  - rewrite Z.div_add_l, Z.div_small by (done || lia). lia.
  - rewrite Z.add_comm, Z.mod_add by done. by apply Z.mod_small.
Qed.

(** The blocks of the bitmap that [balloc] looks at. *)
Lemma scan_covers n : 0 < n → n ≤ Z.of_nat (Z.to_nat ((n + BPB - 1) / BPB)) * BPB.
Proof.
  intros Hn. pose proof (Z.div_mod (n + BPB - 1) BPB ltac:(done)).
  pose proof (Z.mod_pos_bound (n + BPB - 1) BPB BPB_pos).
  assert (0 ≤ (n + BPB - 1) / BPB) by (apply Z.div_pos; pose proof BPB_pos; lia).
  rewrite Z2Nat.id by done. lia.
Qed.
Lemma scan_block n k :
  0 ≤ k < 0 + Z.of_nat (Z.to_nat ((n + BPB - 1) / BPB)) → 0 ≤ k * BPB < n.
Proof.
  intros Hk. pose proof BPB_pos. pose proof (Z.div_mod (n + BPB - 1) BPB ltac:(done)).
  pose proof (Z.mod_pos_bound (n + BPB - 1) BPB BPB_pos). nia.
Qed.

Section balloc.
Context (p : nat) (held : gset nat) (ns : gset Z) (bs : list Z) (V : Z → list Z).
Context (sb : superblock) (start : Z) (HB : bitmap_ok sb start V).
Context (Hbs : Z.of_nat (length bs) < LOGSIZE - 2) (Hsz : (size held ≤ 1)%nat).
Context (Hns : ∀ n, n ∈ ns → in_use sb start V n).

(** The situation of the loops of [balloc]. *)
Record scanning (s : kst) : Prop := {
  sc_sb : k_sb s = sb;
  sc_start : lg_start (k_log s) = start;
  sc_out : 1 ≤ lg_outstanding (k_log s);
}.
Lemma bitmap_not_held b : 0 ≤ b < sb_size sb → BBLOCK b sb ∉ ns.
Proof using Hns. intros Hb Hn. destruct (Hns _ Hn) as [D _]. by apply (db_bitmap _ _ _ D b Hb). Qed.
Lemma free_not_held b : bfree_bit sb V b = true → b ∉ ns.
Proof using Hns. intros Hf Hn. destruct (Hns _ Hn) as [_ E]. congruence. Qed.
Lemma scanning_frame s s' : scanning s → tx_frame s s' → scanning s'.
Proof using Type.
  intros [H1 H2 H3] F. split; [by rewrite (sb_frame _ _ F)|by rewrite (tf_start _ _ F)|].
  by rewrite (tf_out _ _ F).
Qed.

Lemma balloc_scan_run s k bp :
  scanning s → 0 ≤ k → tx_inv p s ({[bp]} ∪ held) bs V → bp ∉ held → holds s held ns →
  cached s bp (BBLOCK (k * BPB) sb) →
  ∃ r s', balloc_scan ROOTDEV (k * BPB) bp s = Ok r s' ∧
    match r with
    | Some a => k * BPB ≤ a < sb_size sb ∧ bfree_bit sb V a = true ∧
        (∀ b, k * BPB ≤ b < a → bfree_bit sb V b = false) ∧
        tx_inv p s' held (logged (logged bs (BBLOCK a sb)) a) (alloc_view sb V a) ∧
        holds s' held ns ∧ tx_frame s s'
    | None => s' = s ∧ ∀ b, k * BPB ≤ b < (k + 1) * BPB → b < sb_size sb → bfree_bit sb V b = false
    end.
Proof using HB Hbs Hsz Hns.
  intros Hs Hk T Hbp HH C. unfold balloc_scan. rewrite bind_gets, (sc_sb _ Hs).
  set (n := Z.to_nat _). apply wp_inv.
  assert (data_of s bp = V (BBLOCK (k * BPB) sb)) as Hd.
  { symmetry. exact (bi_view _ _ _ _ _ _ _ (ti_cache _ _ _ _ _ T) C). }
  assert (∀ bi, 0 ≤ bi < BPB → bfree_bit sb V (k * BPB + bi) = bit_clear (data_of s bp) bi) as Hbit.
  { intros bi Hbi. destruct (div_block k bi Hbi) as [E1 E2].
    unfold bfree_bit, BBLOCK. rewrite E1, E2, Hd. unfold BBLOCK. by rewrite Z.div_mul. }
  apply (wp_mfind _ _ _ (λ bi s', s' = s ∧ ∀ b, k * BPB ≤ b < k * BPB + bi →
    b < sb_size sb → bfree_bit sb V b = false)).
  - split; [done|]. intros b Hb. lia.
  - intros bi s' Hbi [-> Hlow]. assert (0 ≤ bi < BPB ∧ k * BPB + bi < sb_size sb) as [Hb1 Hb2] by lia.
    apply wp_bind, wp_gets. rewrite <- (Hbit bi Hb1).
    destruct (bfree_bit sb V (k * BPB + bi)) eqn:Hf.
    2:{ apply wp_ret. split; [done|]. intros b Hb Hlt.
        destruct (decide (b = k * BPB + bi)) as [->|]; [done|]. apply Hlow; lia. }
    destruct (div_block k bi Hb1) as [E1 E2].
    assert (0 ≤ k * BPB + bi < sb_size sb) as Ha by (pose proof BPB_pos; nia).
    assert (BBLOCK (k * BPB) sb = BBLOCK (k * BPB + bi) sb) as EB.
    { unfold BBLOCK. by rewrite E1, Z.div_mul. }
    destruct (ly_bitmap _ _ (bm_layout _ _ _ HB) _ Ha) as [Ho Hn].
    pose proof (bm_free _ _ _ HB _ Ha Hf) as Hda.
    assert (length (V (BBLOCK (k * BPB + bi) sb)) = Z.to_nat BSIZE) as HlV.
    { rewrite <- EB, <- Hd. destruct C as (Hi & _). eapply be_data, bi_ent; [apply T|done]. }
    destruct (tx_modify p s held ns bs V bp (BBLOCK (k * BPB + bi) sb) (set_bit bi))
      as (s1 & M1 & T1 & H1 & F1);
      [done|done|done|by rewrite <- EB|by rewrite (sc_start _ Hs)|done|apply Hs|lia|by apply length_set_bit|].
    pose proof (scanning_frame _ _ Hs F1) as Hs1.
    pose proof (length_logged bs (BBLOCK (k * BPB + bi) sb)).
    destruct (bzero_Ok p s1 held ns _ _ (k * BPB + bi) T1) as (s2 & M2 & T2 & H2 & F2);
      [done|by apply free_not_held|rewrite (sc_start _ Hs1); apply Hda
      |eapply data_blockno; [apply HB|done]|apply Hs1|lia|unfold NBUF, LOGSIZE, MAXOPBLOCKS in *; lia|].
    eapply wp_Ok.
    { rewrite (seq3_Ok _ _ _ _ _ _ M1), (bind_Ok _ _ _ _ _ M2). done. }
    split; [lia|]. split; [done|]. split; [intros b Hb; apply Hlow; lia|].
    unfold alloc_view. rewrite E2. do 2 (split; [done|]). by etrans.
  - intros s' [-> Hlow]. split; [done|]. intros b Hb Hlt. apply Hlow; lia.
Qed.

Lemma balloc_run s :
  scanning s → tx_inv p s held bs V → holds s held ns →
  (∃ a s', balloc ROOTDEV s = Ok a s' ∧ 0 ≤ a < sb_size sb ∧ bfree_bit sb V a = true ∧
     (∀ b, 0 ≤ b < a → bfree_bit sb V b = false) ∧
     tx_inv p s' held (logged (logged bs (BBLOCK a sb)) a) (alloc_view sb V a) ∧
     holds s' held ns ∧ tx_frame s s') ∨
  (balloc ROOTDEV s = Panic "balloc: out of blocks" ∧
   ∀ b, 0 ≤ b < sb_size sb → bfree_bit sb V b = false).
Proof using HB Hbs Hsz Hns.
  intros Hs T HH. unfold balloc. rewrite bind_gets, (sc_sb _ Hs).
  set (n := Z.to_nat _). pose proof (ly_size _ _ (bm_layout _ _ _ HB)) as Hsize.
  match goal with |- context [mfind n 0 ?body] => assert (wp (mfind n 0 body) (λ r s',
    match r with
    | Some a => 0 ≤ a < sb_size sb ∧ bfree_bit sb V a = true ∧
        (∀ b, 0 ≤ b < a → bfree_bit sb V b = false) ∧
        tx_inv p s' held (logged (logged bs (BBLOCK a sb)) a) (alloc_view sb V a) ∧
        holds s' held ns ∧ tx_frame s s'
    | None => ∀ b, 0 ≤ b < sb_size sb → bfree_bit sb V b = false
    end) s) as Hw end.
  { apply (wp_mfind _ _ _ (λ k s', scanning s' ∧ tx_inv p s' held bs V ∧ holds s' held ns ∧ tx_frame s s' ∧
      ∀ b, 0 ≤ b < k * BPB → b < sb_size sb → bfree_bit sb V b = false)).
    - do 4 (split; [done|]). intros b Hb. lia.
    - intros k s1 Hk (Hs1 & T1 & H1 & F1 & Hlow). cbv zeta. apply wp_bind, wp_gets. rewrite (sc_sb _ Hs1).
      assert (0 ≤ k * BPB < sb_size sb) as Hkb by (by apply scan_block).
      destruct (tx_read p s1 held ns bs V (BBLOCK (k * BPB) sb) T1)
        as (bp & s2 & E2 & T2 & Hbp & H2 & C2 & D2 & F2 & s3 & E3 & T3 & H3 & F3);
        [done|by apply bitmap_not_held|unfold NBUF, LOGSIZE, MAXOPBLOCKS in *; lia|].
      apply wp_bind, (wp_Ok _ _ _ _ _ E2). apply wp_bind.
      destruct (balloc_scan_run s2 k bp (scanning_frame _ _ Hs1 F2) ltac:(lia) T2 Hbp H2 C2) as (r & s4 & E4 & Hr).
      apply (wp_Ok _ _ _ _ _ E4). destruct r as [a|].
      + destruct Hr as (R1 & R2 & R3 & R4 & R5 & R6). apply wp_ret.
        split; [lia|]. split; [done|]. split; [|do 2 (split; [done|]); by do 2 (etrans; [done|])].
        intros b Hb. destruct (decide (b < k * BPB)); [apply Hlow; lia|apply R3; lia].
      + destruct Hr as [-> Hr]. apply wp_bind, (wp_Ok _ _ _ _ _ E3), wp_ret.
        split; [by do 2 (eapply scanning_frame; [|done])|]. do 2 (split; [done|]).
        split; [by do 2 (etrans; [done|])|]. intros b Hb Hlt.
        destruct (decide (b < k * BPB)); [apply Hlow; lia|apply Hr; lia].
    - intros s1 (_ & _ & _ & _ & Hlow) b Hb. apply Hlow; [|lia].
      pose proof (scan_covers (sb_size sb)). lia. }
  apply wp_inv in Hw as (r & s' & E & Hr). rewrite (bind_Ok _ _ _ _ _ E).
  destruct r as [a|]; [left|right; done].
  exists a, s'. destruct Hr as (R1 & R2 & R3 & R4 & R5 & R6). done.
Qed.
End balloc.

(** ** Free blocks *)

Definition nfree (sb : superblock) (V : Z → list Z) : nat :=
  length (filter (λ b, bfree_bit sb V b = true) (seqZ 0 (sb_size sb))).

Lemma nfree_ext sb V V' :
  (∀ b, 0 ≤ b < sb_size sb → bfree_bit sb V b = bfree_bit sb V' b) → nfree sb V = nfree sb V'.
Proof.
  intros H. unfold nfree. apply Permutation_length, NoDup_Permutation;
    [apply NoDup_filter, NoDup_seqZ..|].
  intros b. rewrite !list_elem_of_filter, elem_of_seqZ. split; intros [Hf Hb]; rewrite H in * by lia; done.
Qed.
Lemma filter_but {A} `{EqDecision A} (P Q : A → Prop) `{∀ x, Decision (P x), ∀ x, Decision (Q x)} (l : list A) a :
  NoDup l → a ∈ l → P a → (∀ x, x ∈ l → Q x ↔ P x ∧ x ≠ a) →
  length (filter P l) = S (length (filter Q l)).
Proof.
  intros Hl Ha HP HQ. change (S (length (filter Q l))) with (length (a :: filter Q l)).
  apply Permutation_length, NoDup_Permutation.
  - by apply NoDup_filter.
  - constructor; [|by apply NoDup_filter]. rewrite list_elem_of_filter. intros [Hq Hin].
    by apply HQ in Hq as [_ ?].
  - intros x. rewrite elem_of_cons, !list_elem_of_filter. split.
    + intros [Hp Hx]. destruct (decide (x = a)) as [|Hne]; [by left|right]. by rewrite HQ.
    + intros [->|[Hq Hx]]; [done|]. apply HQ in Hq as [? _]; done.
Qed.
Lemma alloc_nfree sb start V a :
  bitmap_ok sb start V → 0 ≤ a < sb_size sb → length (V (BBLOCK a sb)) = Z.to_nat BSIZE →
  bfree_bit sb V a = true → nfree sb V = S (nfree sb (alloc_view sb V a)).
Proof.
  intros HB Ha Hl Hf. unfold nfree. apply (filter_but _ _ _ a).
  - apply NoDup_seqZ.
  - apply elem_of_seqZ. lia.
  - done.
  - intros b Hb%elem_of_seqZ. rewrite (alloc_view_bits sb start) by (done || lia).
    case_decide; naive_solver.
Qed.
Lemma nfree_pos sb V : (0 < nfree sb V)%nat → ∃ b, 0 ≤ b < sb_size sb ∧ bfree_bit sb V b = true.
Proof.
  unfold nfree. destruct (filter _ _) as [|b l] eqn:E; [simpl; lia|]. intros _.
  assert (b ∈ filter (λ b, bfree_bit sb V b = true) (seqZ 0 (sb_size sb))) as Hb
    by (rewrite E; apply list_elem_of_here).
  apply list_elem_of_filter in Hb as [Hf Hb%elem_of_seqZ]. exists b. split; [lia|done].
Qed.

(** Allocation from a disk that is not full. *)
Record allocated (sb : superblock) (start : Z) (V V' : Z → list Z) (a : Z) : Prop := {
  al_free : bfree_bit sb V a = true;
  al_data : data_blk sb start a;
  al_zero : V' a = zeros;
  al_other n : n ≠ a → n ≠ BBLOCK a sb → V' n = V n;
  al_bits b : 0 ≤ b < sb_size sb → bfree_bit sb V' b = if decide (a = b) then false else bfree_bit sb V b;
  al_nfree : nfree sb V = S (nfree sb V');
}.
Lemma allocated_view sb start V a :
  bitmap_ok sb start V → 0 ≤ a < sb_size sb → length (V (BBLOCK a sb)) = Z.to_nat BSIZE →
  bfree_bit sb V a = true → allocated sb start V (alloc_view sb V a) a.
Proof.
  intros HB Ha Hl Hf. split; try done.
  - by apply (bm_free _ _ _ HB).
  - unfold alloc_view, supd. by rewrite decide_True.
  - intros n H1 H2. unfold alloc_view, supd. by rewrite !decide_False.
  - intros b Hb. by apply (alloc_view_bits sb start).
  - by apply (alloc_nfree sb start).
Qed.
Lemma allocated_bitmap_ok sb start V V' a :
  bitmap_ok sb start V → allocated sb start V V' a → bitmap_ok sb start V'.
Proof.
  intros HB HA. split; [apply HB|]. intros b Hb. rewrite (al_bits _ _ _ _ _ HA) by done.
  case_decide; [done|]. by apply HB.
Qed.
Lemma allocated_in_use sb start V V' a b :
  allocated sb start V V' a → in_use sb start V b → in_use sb start V' b ∧ b ≠ a ∧ V' b = V b.
Proof.
  intros HA [HD Hf]. assert (b ≠ a) as Hne by (intros ->; pose proof (al_free _ _ _ _ _ HA); congruence).
  pose proof (db_range _ _ _ HD). pose proof (db_range _ _ _ (al_data _ _ _ _ _ HA)). split; [split; [done|]|].
  - rewrite (al_bits _ _ _ _ _ HA) by lia. by rewrite decide_False.
  - split; [done|]. apply (al_other _ _ _ _ _ HA); [done|].
    intros E. by apply (db_bitmap _ _ _ HD a); [lia|].
Qed.
Lemma allocated_new sb start V V' a : allocated sb start V V' a → in_use sb start V' a.
Proof.
  intros HA. pose proof (db_range _ _ _ (al_data _ _ _ _ _ HA)).
  split; [apply HA|]. rewrite (al_bits _ _ _ _ _ HA) by lia. by rewrite decide_True.
Qed.

Lemma tx_length p s held bs V n : tx_inv p s held bs V → length (V n) = Z.to_nat BSIZE.
Proof. intros T. eapply bi_length, T. Qed.

Lemma balloc_Ok p held ns bs V s :
  let sb := k_sb s in let start := lg_start (k_log s) in
  bitmap_ok sb start V → tx_inv p s held bs V → holds s held ns →
  (∀ n, n ∈ ns → in_use sb start V n) → (size held ≤ 1)%nat →
  Z.of_nat (length bs) < LOGSIZE - 2 → 1 ≤ lg_outstanding (k_log s) → (0 < nfree sb V)%nat →
  ∃ a s' bs' V', balloc ROOTDEV s = Ok a s' ∧ allocated sb start V V' a ∧
    tx_inv p s' held bs' V' ∧ holds s' held ns ∧ tx_frame s s' ∧ (length bs' ≤ length bs + 2)%nat.
Proof.
  intros sb start HB T HH Hns Hsz Hbs Hou Hnf.
  destruct (balloc_run p held ns bs V sb start HB Hbs Hsz Hns s ltac:(by split) T HH)
    as [(a & s' & E & Ha & Hf & _ & T' & H' & F)|[_ H]].
  - exists a, s'. eexists _, _. split; [exact E|]. split; [|split; [exact T'|]].
    + apply allocated_view; try done. by eapply tx_length.
    + split; [done|]. split; [done|]. pose proof (length_logged bs (BBLOCK a sb)).
      pose proof (length_logged (logged bs (BBLOCK a sb)) a). lia.
  - destruct (nfree_pos _ _ Hnf) as (b & Hb & Hf). rewrite H in Hf by done. done.
Qed.

Lemma bfree_run p s bs V b :
  tx_inv p s ∅ bs V → bitmap_ok (k_sb s) (lg_start (k_log s)) V →
  Z.of_nat (length bs) < LOGSIZE - 2 → 1 ≤ lg_outstanding (k_log s) →
  0 ≤ b < sb_size (k_sb s) →
  if bfree_bit (k_sb s) V b then bfree ROOTDEV b s = Panic "freeing free block"
  else ∃ s' V', bfree ROOTDEV b s = Ok () s' ∧
    tx_inv p s' ∅ (logged bs (BBLOCK b (k_sb s))) V' ∧
    (∀ n, n ≠ BBLOCK b (k_sb s) → V' n = V n) ∧
    ∀ b', 0 ≤ b' < sb_size (k_sb s) → bfree_bit (k_sb s) V' b' =
      if decide (b = b') then true else bfree_bit (k_sb s) V b'.
Proof.
  intros T HB Hbs Hou Hb. unfold bfree. rewrite bind_gets. set (sb := k_sb s) in *.
  destruct (tx_read p s ∅ ∅ bs V (BBLOCK b sb) T) as (bp & s1 & E1 & T1 & Hbp & H1 & C1 & D1 & F1 & _);
    [done|set_solver|rewrite size_empty; unfold NBUF, LOGSIZE, MAXOPBLOCKS in *; lia|].
  rewrite (bind_Ok _ _ _ _ _ E1). cbv zeta. rewrite bind_gets, D1.
  change (bit_clear (V (BBLOCK b sb)) (b mod BPB)) with (bfree_bit sb V b).
  destruct (bfree_bit sb V b) eqn:Hf; [done|].
  destruct (ly_bitmap _ _ (bm_layout _ _ _ HB) b Hb) as [Ho Hn].
  pose proof (tx_length _ _ _ _ _ (BBLOCK b sb) T) as Hl.
  destruct (tx_modify p s1 ∅ ∅ bs V bp (BBLOCK b sb) (clear_bit (b mod BPB))) as (s2 & M2 & T2 & _ & F2);
    [done|done|done|done|by rewrite (tf_start _ _ F1)|done|by rewrite (tf_out _ _ F1)|lia
    |by apply length_clear_bit|].
  eexists s2, _. split; [exact M2|]. split; [exact T2|]. split.
  - intros n Hne. unfold supd. by rewrite decide_False.
  - intros b' Hb'. apply (bfree_bit_upd sb V b b' (clear_bit (b mod BPB)) true).
    intros bj Hj. apply bit_clear_clear; [done| |done]. by apply Z.mod_pos_bound.
Qed.

(** ** Properties *)

(** Inside a transaction [balloc] returns the lowest block the bitmap has
    free, marked in use and zeroed on the logical disk, with both changes
    in the transaction; no other block's bit and no other data
    changes.  On a full disk it panics. *)
Theorem balloc_spec p s bs V :
  tx_inv p s ∅ bs V → bitmap_ok (k_sb s) (lg_start (k_log s)) V →
  Z.of_nat (length bs) < LOGSIZE - 2 → 1 ≤ lg_outstanding (k_log s) →
  (∃ a s' V', balloc ROOTDEV s = Ok a s' ∧ 0 ≤ a < sb_size (k_sb s) ∧
     bfree_bit (k_sb s) V a = true ∧ (∀ b, 0 ≤ b < a → bfree_bit (k_sb s) V b = false) ∧
     tx_inv p s' ∅ (logged (logged bs (BBLOCK a (k_sb s))) a) V' ∧
     V' a = zeros ∧ (∀ n, n ≠ a → n ≠ BBLOCK a (k_sb s) → V' n = V n) ∧
     ∀ b, 0 ≤ b < sb_size (k_sb s) → bfree_bit (k_sb s) V' b =
       if decide (a = b) then false else bfree_bit (k_sb s) V b) ∨
  (balloc ROOTDEV s = Panic "balloc: out of blocks" ∧
   ∀ b, 0 ≤ b < sb_size (k_sb s) → bfree_bit (k_sb s) V b = false).
Proof.
  intros T HB Hbs Hou.
  destruct (balloc_run p ∅ ∅ bs V (k_sb s) (lg_start (k_log s)) HB Hbs ltac:(by rewrite size_empty; lia)
    ltac:(set_solver) s ltac:(by split) T ltac:(done))
    as [(a & s' & E & Ha & Hf & Hlow & T' & _)|H]; [left|by right].
  pose proof (allocated_view _ _ V a HB Ha ltac:(by eapply tx_length) Hf) as HA.
  exists a, s', (alloc_view (k_sb s) V a). do 5 (split; [done|]).
  split; [apply HA|]. split; apply HA.
Qed.

(** C37. [bfree] clears the bit of a block in use, in the transaction, and no
    other; freeing a block that is free already panics. *)
Theorem bfree_spec p s bs V b :
  tx_inv p s ∅ bs V → bitmap_ok (k_sb s) (lg_start (k_log s)) V →
  Z.of_nat (length bs) < LOGSIZE - 2 → 1 ≤ lg_outstanding (k_log s) →
  0 ≤ b < sb_size (k_sb s) →
  if bfree_bit (k_sb s) V b then bfree ROOTDEV b s = Panic "freeing free block"
  else ∃ s' V', bfree ROOTDEV b s = Ok () s' ∧
    tx_inv p s' ∅ (logged bs (BBLOCK b (k_sb s))) V' ∧
    (∀ n, n ≠ BBLOCK b (k_sb s) → V' n = V n) ∧
    ∀ b', 0 ≤ b' < sb_size (k_sb s) → bfree_bit (k_sb s) V' b' =
      if decide (b = b') then true else bfree_bit (k_sb s) V b'.
Proof. apply bfree_run. Qed.

(** ** A file system of 1000 blocks

    The geometry of mkfs: the log at block 2, the inodes from block 32, the
    bitmap in block 45 with the 46 meta blocks in use. *)
Definition mkfs_sb : superblock := Superblock 0x10203040 1000 954 200 30 2 32 45.
Definition mkfs_bitmap : list Z :=
  [255; 255; 255; 255; 255; 63] ++ replicate (Z.to_nat BSIZE - 6) 0.
Definition fs_disk : gmap Z (list Z) := <[45 := mkfs_bitmap]> ∅.
Definition fs_boot : kst := set_k_sb mkfs_sb (set_k_disk fs_disk tx_boot).

Lemma fs_boot_inv : tx_inv 2 fs_boot ∅ [] (disk_block fs_disk).
Proof.
  split; try done.
  - apply (boot_cache_inv 2 fs_boot); [split; [done|done|done|apply Nat.ltb_lt; done]|done|].
    intros n. change (k_disk fs_boot) with fs_disk. unfold fs_disk. rewrite disk_block_insert.
    destruct (decide _); [by vm_compute|apply blocks_ok_empty].
  - split; [constructor..|]. by vm_compute.
Qed.
Lemma mkfs_bits : Forall (λ b, bfree_bit mkfs_sb (disk_block fs_disk) b = (45 <? b)) (seqZ 0 1000).
Proof. apply (bool_decide_unpack _). vm_compute. exact I. Qed.
Lemma mkfs_bit b : 0 ≤ b < 1000 → bfree_bit mkfs_sb (disk_block fs_disk) b = (45 <? b).
Proof.
  intros Hb. pose proof mkfs_bits as H. rewrite Forall_forall in H. apply H, elem_of_seqZ. lia.
Qed.
Lemma mkfs_BBLOCK b : 0 ≤ b < 1000 → BBLOCK b mkfs_sb = 45.
Proof. intros Hb. unfold BBLOCK. by rewrite Z.div_small by (unfold BPB, BSIZE; lia). Qed.
Lemma mkfs_IBLOCK i : 0 ≤ i < 200 → 32 ≤ IBLOCK i mkfs_sb < 45.
Proof.
  intros Hi. unfold IBLOCK. change IPB with 16. change (sb_inodestart mkfs_sb) with 32.
  pose proof (Z.div_pos i 16 ltac:(lia) ltac:(lia)).
  pose proof (Z.div_lt_upper_bound i 16 13 ltac:(lia) ltac:(lia)). lia.
Qed.
Lemma mkfs_layout : layout_ok mkfs_sb 2.
Proof.
  split; change (sb_size mkfs_sb) with 1000; change (sb_ninodes mkfs_sb) with 200.
  - lia.
  - intros b Hb. rewrite mkfs_BBLOCK by done. split; [right|]; by vm_compute.
  - intros i Hi. pose proof (mkfs_IBLOCK i Hi). unfold outside, blockno, LOGSIZE, MAXOPBLOCKS. lia.
  - intros i b Hi Hb. rewrite mkfs_BBLOCK by done. pose proof (mkfs_IBLOCK i Hi). lia.
Qed.
Lemma mkfs_data b : 45 < b < 1000 → data_blk mkfs_sb 2 b.
Proof.
  intros Hb. split; change (sb_size mkfs_sb) with 1000; change (sb_ninodes mkfs_sb) with 200.
  - lia.
  - right. unfold LOGSIZE, MAXOPBLOCKS. lia.
  - intros b' Hb'. rewrite mkfs_BBLOCK by done. lia.
  - intros i Hi. pose proof (mkfs_IBLOCK i Hi). lia.
Qed.
Lemma mkfs_bitmap_ok : bitmap_ok mkfs_sb 2 (disk_block fs_disk).
Proof.
  split; [exact mkfs_layout|]. change (sb_size mkfs_sb) with 1000. intros b Hb.
  rewrite mkfs_bit by done. intros H%Z.ltb_lt. apply mkfs_data. lia.
Qed.

Lemma balloc_spec_witness : ∃ s' V', balloc ROOTDEV fs_boot = Ok 46 s' ∧
  tx_inv 2 s' ∅ [45; 46] V' ∧ V' 46 = zeros ∧ bfree_bit mkfs_sb V' 46 = false ∧
  bfree_bit mkfs_sb V' 47 = true.
Proof.
  destruct (balloc_spec 2 fs_boot [] _ fs_boot_inv mkfs_bitmap_ok) as
    [(a & s' & V' & E & Ha & Hf & Hlow & T & Hz & _ & Hb)|[_ Hb]]; [by vm_compute|done| |].
  - change (sb_size (k_sb fs_boot)) with 1000 in *. change (k_sb fs_boot) with mkfs_sb in *.
    rewrite mkfs_bit in Hf by done. apply Z.ltb_lt in Hf.
    assert (a = 46) as ->.
    { destruct (decide (46 < a)); [|lia]. specialize (Hlow 46 ltac:(lia)).
      rewrite mkfs_bit in Hlow by lia. done. }
    rewrite mkfs_BBLOCK in T by lia.
    exists s', V'. split; [exact E|]. split; [exact T|]. split; [exact Hz|].
    rewrite !Hb, mkfs_bit by lia. by split.
  - specialize (Hb 999 ltac:(by vm_compute)). change (k_sb fs_boot) with mkfs_sb in Hb.
    rewrite mkfs_bit in Hb by lia. done.
Defined.

Lemma bfree_spec_witness : bfree ROOTDEV 46 fs_boot = Panic "freeing free block" ∧
  ∃ s' V', bfree ROOTDEV 45 fs_boot = Ok () s' ∧ tx_inv 2 s' ∅ [45] V' ∧ bfree_bit mkfs_sb V' 45 = true.
Proof.
  pose proof (bfree_spec 2 fs_boot [] _ 46 fs_boot_inv mkfs_bitmap_ok) as H1.
  pose proof (bfree_spec 2 fs_boot [] _ 45 fs_boot_inv mkfs_bitmap_ok) as H2.
  change (sb_size (k_sb fs_boot)) with 1000 in *. change (k_sb fs_boot) with mkfs_sb in *.
  rewrite mkfs_bit in H1, H2 by lia. split; [apply H1; [by vm_compute|done|lia]|].
  destruct H2 as (s' & V' & E & T & _ & Hb); [by vm_compute|done|lia|].
  rewrite mkfs_BBLOCK in T by lia.
  exists s', V'. split; [exact E|]. split; [exact T|]. rewrite Hb by lia. by rewrite decide_True.
Defined.
