(* ===== verification/FsInode.v ===== *)
(** * The blocks of a file

    An inode maps the blocks of a file to blocks of the disk, twelve directly
    and the rest through an indirect block.  [bmap] extends the map; [grows]
    says that nothing else changes. *)

From stdpp Require Import options.
From S2P Require Import Prelude CString State Sched Sleeplock Bio BioList BioSpec Block Log LogSpec LogCrash LogTx Kalloc Vm Copy Fs FsAlloc.
#[local] Open Scope Z_scope.

(** ** The map of an inode *)

Definition addr (x : inode) (i : Z) : Z := default 0 (i_addrs x !! Z.to_nat i).
Definition with_addr (i a : Z) (x : inode) : inode := set_i_addrs (<[Z.to_nat i := a]> (i_addrs x)) x.
Definition ind (V : Z → list Z) (x : inode) (j : Z) : Z :=
  if addr x NDIRECT =? 0 then 0 else get32 (V (addr x NDIRECT)) (ind_off j).
(** The block of the disk that holds block [bn] of the file, 0 if there is none. *)
Definition fblk (V : Z → list Z) (x : inode) (bn : Z) : Z :=
  if bn <? NDIRECT then addr x bn else ind V x (bn - NDIRECT).
(** The byte at offset [o] of the file. *)
Definition fbyte (V : Z → list Z) (x : inode) (o : Z) : Z :=
  let b := fblk V x (o / BSIZE) in
  if b =? 0 then 0 else u8 (default 0 (V b !! Z.to_nat (o mod BSIZE))).

(** The blocks of a file are in use and used once. *)
Record inode_ok (sb : superblock) (start : Z) (V : Z → list Z) (x : inode) : Prop := {
  ik_addrs : length (i_addrs x) = NADDRS;
  ik_dev : i_dev x = ROOTDEV;
  ik_ind : addr x NDIRECT ≠ 0 → in_use sb start V (addr x NDIRECT);
  ik_use bn : 0 ≤ bn < MAXFILE → fblk V x bn ≠ 0 →
    in_use sb start V (fblk V x bn) ∧ fblk V x bn ≠ addr x NDIRECT;
  ik_inj bn bn' : 0 ≤ bn < MAXFILE → 0 ≤ bn' < MAXFILE →
    fblk V x bn ≠ 0 → fblk V x bn = fblk V x bn' → bn = bn';
}.

Definition mine (V : Z → list Z) (x : inode) (n : Z) : Prop :=
  n = addr x NDIRECT ∨ ∃ bn, 0 ≤ bn < MAXFILE ∧ fblk V x bn = n.

(** What an extension of the map leaves alone: the bytes of the file, the blocks it
    had, the blocks of other files and the inodes on the disk. *)
Record grows (sb : superblock) (start : Z) (V : Z → list Z) (x : inode)
    (V' : Z → list Z) (x' : inode) : Prop := {
  gr_same o : 0 ≤ o < MAXFILE * BSIZE → fbyte V' x' o = fbyte V x o;
  gr_keep bn : 0 ≤ bn < MAXFILE → fblk V x bn ≠ 0 → fblk V' x' bn = fblk V x bn;
  gr_fields : x' = set_i_addrs (i_addrs x') x;
  gr_use n : in_use sb start V n → in_use sb start V' n;
  gr_other n : in_use sb start V n → n ≠ addr x NDIRECT → n ≠ addr x' NDIRECT ∧ V' n = V n;
  gr_mine n : in_use sb start V n → ¬ mine V x n → ¬ mine V' x' n;
  gr_inodes i : 0 ≤ i < sb_ninodes sb → V' (IBLOCK i sb) = V (IBLOCK i sb);
}.

Lemma set_i_addrs_id x : set_i_addrs (i_addrs x) x = x.
Proof. by destruct x. Qed.
Lemma grows_refl sb start V x : grows sb start V x V x.
Proof. split; try done. by rewrite set_i_addrs_id. Qed.
Lemma grows_trans sb start V1 x1 V2 x2 V3 x3 :
  grows sb start V1 x1 V2 x2 → grows sb start V2 x2 V3 x3 → grows sb start V1 x1 V3 x3.
Proof.
  intros [A1 A2 A3 A4 A5 A6 A7] [B1 B2 B3 B4 B5 B6 B7]. split.
  - intros o Ho. by rewrite B1, A1.
  - intros bn Hb Hn. rewrite B2, A2; rewrite ?A2; done.
  - rewrite B3, A3. done.
  - auto.
  - intros n Hu Hn. destruct (A5 n Hu Hn) as [Hn' E]. destruct (B5 n (A4 n Hu) Hn') as [? E'].
    split; [done|congruence].
  - auto.
  - intros i Hi. by rewrite B7, A7.
Qed.

(** ** Numbers *)

Lemma NDIRECT_lt : NDIRECT = 12 ∧ NINDIRECT = 256 ∧ MAXFILE = 268 ∧ NADDRS = 13%nat ∧ BSIZE = 1024.
Proof. done. Qed.
Ltac fsnum := unfold MAXFILE in *; change NINDIRECT with 256 in *; change NDIRECT with 12 in *;
  change BSIZE with 1024 in *; change NADDRS with 13%nat in *.

Lemma addr_with x i a k :
  length (i_addrs x) = NADDRS → 0 ≤ i ≤ NDIRECT → 0 ≤ k →
  addr (with_addr i a x) k = if decide (i = k) then a else addr x k.
Proof.
  intros Hl Hi Hk. unfold addr, with_addr. simpl. fsnum. case_decide as E.
  - subst. by rewrite list_lookup_insert_eq by lia.
  - by rewrite list_lookup_insert_ne by lia.
Qed.
Lemma get32_zeros off : (off + 4 ≤ 1024)%nat → get32 zeros off = 0.
Proof.
  intros H. unfold get32, slice, zeros. change (Z.to_nat BSIZE) with 1024%nat.
  rewrite drop_replicate, take_replicate. by replace (4 `min` (1024 - off))%nat with 4%nat by lia.
Qed.
Lemma ind_off_ok j : 0 ≤ j < NINDIRECT → (ind_off j + 4 ≤ 1024)%nat.
Proof. intros Hj. unfold ind_off. fsnum. lia. Qed.
Lemma ind_off_apart j j' : 0 ≤ j → 0 ≤ j' → j ≠ j' → (ind_off j' + 4 ≤ ind_off j ∨ ind_off j + 4 ≤ ind_off j')%nat.
Proof. intros Hj Hj' Hn. unfold ind_off. lia. Qed.
Lemma zeros_lookup i : default 0 (zeros !! i) = 0.
Proof.
  unfold zeros. destruct (replicate (Z.to_nat BSIZE) 0 !! i) as [v|] eqn:E; [|done].
  by apply lookup_replicate in E as [-> _].
Qed.

(** ** One more block *)

(** [a], which was free, is now block [k] of the file, or its indirect block. *)
Definition new_blk (V V' : Z → list Z) (x x' : inode) (k a : Z) : Prop :=
  (∀ bn, 0 ≤ bn < MAXFILE → fblk V' x' bn = if decide (k = bn) then a else fblk V x bn) ∧
  (0 ≤ k < MAXFILE ∧ fblk V x k = 0 ∧ addr x' NDIRECT = addr x NDIRECT ∨
   k = -1 ∧ addr x NDIRECT = 0 ∧ addr x' NDIRECT = a).

Lemma inode_grow sb start V x V' x' k a :
  inode_ok sb start V x → length (i_addrs x') = NADDRS → i_dev x' = ROOTDEV →
  (∀ n, in_use sb start V n → in_use sb start V' n) → in_use sb start V' a → ¬ in_use sb start V a →
  new_blk V V' x x' k a → inode_ok sb start V' x'.
Proof.
  intros [H1 H2 H3 H4 H5] Hl Hd Hmono Ha Hna [Hf Hk].
  assert (a ≠ 0) by (destruct Ha as [D _]; pose proof (db_range _ _ _ D); lia).
  assert (∀ bn, 0 ≤ bn < MAXFILE → fblk V x bn ≠ 0 → fblk V x bn ≠ a) as Hx.
  { intros bn Hb Hn E. apply Hna. rewrite <- E. by apply H4. }
  split; try done.
  - intros Hn. destruct Hk as [(_ & _ & E)|(_ & _ & E)]; rewrite E in *; auto.
  - intros bn Hb. rewrite Hf by done. case_decide as Ek.
    + split; [done|]. destruct Hk as [(_ & _ & E)|(-> & _)]; [|lia]. rewrite E. intros ->. auto.
    + intros Hn. destruct (H4 bn Hb Hn). split; [by auto|].
      destruct Hk as [(_ & _ & E)|(_ & _ & E)]; rewrite E; auto.
  - intros bn bn' Hb Hb'. rewrite !Hf by done. repeat case_decide; try congruence.
    + intros Hn E. exfalso. apply (Hx bn'); congruence.
    + intros Hn E. exfalso. by apply (Hx bn).
    + by apply H5.
Qed.
Lemma fbyte_grow sb start V x V' x' k a :
  inode_ok sb start V x → V' a = zeros ∨ k = -1 →
  (∀ n, in_use sb start V n → n ≠ addr x NDIRECT → V' n = V n) →
  new_blk V V' x x' k a →
  ∀ o, 0 ≤ o < MAXFILE * BSIZE → fbyte V' x' o = fbyte V x o.
Proof.
  intros Hok Hz Ho [Hf Hk] o Hoff. unfold fbyte.
  assert (0 ≤ o / BSIZE < MAXFILE) as Hb.
  { split; [apply Z.div_pos; fsnum; lia|apply Z.div_lt_upper_bound; fsnum; lia]. }
  rewrite Hf by done. case_decide as E.
  - destruct Hk as [(_ & Hk & _)|(-> & _)]; [|lia]. destruct Hz as [Hz| ->]; [|lia].
    rewrite <- E, Hk. simpl. rewrite Hz, zeros_lookup. by destruct (a =? 0).
  - destruct (Z.eqb_spec (fblk V x (o / BSIZE)) 0) as [|Hn]; [done|].
    destruct (ik_use _ _ _ _ Hok _ Hb Hn). by rewrite Ho.
Qed.
Lemma grow_grows sb start V x V' x' k a :
  inode_ok sb start V x → x' = set_i_addrs (i_addrs x') x →
  (∀ n, in_use sb start V n → in_use sb start V' n) → ¬ in_use sb start V a →
  V' a = zeros ∨ k = -1 → (∀ n, in_use sb start V n → n ≠ addr x NDIRECT → V' n = V n) →
  (∀ i, 0 ≤ i < sb_ninodes sb → V' (IBLOCK i sb) = V (IBLOCK i sb)) →
  new_blk V V' x x' k a → grows sb start V x V' x'.
Proof.
  intros Hok Hx Hmono Hna Hz Ho Hi Hnew. pose proof Hnew as [Hf Hk]. split; try done.
  - by eapply fbyte_grow.
  - intros bn Hb Hn. rewrite Hf by done. case_decide as E; [|done]. subst.
    destruct Hk as [(_ & Hk & _)|(-> & _)]; [done|lia].
  - intros n Hu Hn. split; [|by apply Ho]. destruct Hk as [(_ & _ & ->)|(_ & _ & ->)]; [done|].
    by intros ->.
  - intros n Hu Hm [->|(bn & Hb & <-)].
    + destruct Hk as [(_ & _ & E)|(_ & _ & E)]; rewrite E in *; [apply Hm; by left|done].
    + rewrite Hf in * by done. case_decide; [done|]. apply Hm. right. by exists bn.
Qed.

Section grow.
Context (sb : superblock) (start : Z) (V V1 : Z → list Z) (x : inode) (a : Z).
Context (Hok : inode_ok sb start V x) (HA : allocated sb start V V1 a).

Lemma grow_not_in_use : ¬ in_use sb start V a.
Proof using HA. intros [_ E]. pose proof (al_free _ _ _ _ _ HA). congruence. Qed.
Lemma grow_mono n : in_use sb start V n → in_use sb start V1 n.
Proof using HA. intros H. by eapply allocated_in_use. Qed.
Lemma grow_same n : in_use sb start V n → V1 n = V n.
Proof using HA. intros H. by eapply allocated_in_use. Qed.
Lemma grow_inodes i : layout_ok sb start → 0 ≤ i < sb_ninodes sb → V1 (IBLOCK i sb) = V (IBLOCK i sb).
Proof using HA.
  intros HL Hi. pose proof (al_data _ _ _ _ _ HA) as D. pose proof (db_range _ _ _ D).
  apply (al_other _ _ _ _ _ HA); [by apply (db_inode _ _ _ D)|apply (ly_apart _ _ HL); lia].
Qed.
Lemma grow_nz : a ≠ 0.
Proof using HA. pose proof (db_range _ _ _ (al_data _ _ _ _ _ HA)). lia. Qed.

(** The indirect entries do not depend on the bitmap. *)
Lemma ind_alloc j : ind V1 x j = ind V x j.
Proof using Hok HA.
  unfold ind. destruct (Z.eqb_spec (addr x NDIRECT) 0) as [|Hn]; [done|].
  by rewrite grow_same by (by apply (ik_ind _ _ _ _ Hok)).
Qed.

(** A direct block, or the indirect block itself. *)
Definition direct_k (i : Z) : Z := if decide (i = NDIRECT) then -1 else i.
Lemma new_direct i :
  0 ≤ i ≤ NDIRECT → addr x i = 0 → new_blk V V1 x (with_addr i a x) (direct_k i) a.
Proof using Hok HA.
  intros Hi Hz. pose proof (ik_addrs _ _ _ _ Hok) as Hl. unfold direct_k. split.
  - intros bn Hb. unfold fblk. destruct (Z.ltb_spec bn NDIRECT).
    + rewrite addr_with by (done || lia). repeat case_decide; try done; lia.
    + rewrite (decide_False (P := _ = bn)) by (case_decide; lia).
      unfold ind. rewrite addr_with by (done || fsnum; lia). destruct (decide (i = NDIRECT)) as [->|Hne].
      * rewrite Hz. simpl. destruct (Z.eqb_spec a 0); [done|].
        rewrite (al_zero _ _ _ _ _ HA). apply get32_zeros, ind_off_ok. fsnum. lia.
      * apply ind_alloc.
  - rewrite addr_with by (done || fsnum; lia). case_decide as E; [right|left].
    + by subst.
    + unfold fblk. rewrite (proj2 (Z.ltb_lt _ _)) by lia. fsnum. split; [lia|done].
Qed.
Lemma grow_direct i :
  layout_ok sb start → 0 ≤ i ≤ NDIRECT → addr x i = 0 →
  inode_ok sb start V1 (with_addr i a x) ∧ grows sb start V x V1 (with_addr i a x).
Proof using Hok HA.
  intros HL Hi Hz. pose proof (new_direct i Hi Hz) as Hnew. split.
  - eapply inode_grow; try done.
    + simpl. rewrite length_insert. apply Hok.
    + apply Hok.
    + exact grow_mono.
    + by eapply allocated_new.
    + exact grow_not_in_use.
  - eapply grow_grows; try done.
    + exact grow_mono.
    + exact grow_not_in_use.
    + left. apply HA.
    + intros n Hn _. by apply grow_same.
    + intros j Hj. by apply grow_inodes.
Qed.

(** An entry of the indirect block. *)
Definition with_ind (j : Z) : Z → list Z :=
  supd V1 (addr x NDIRECT) (put32 (V1 (addr x NDIRECT)) (ind_off j) a).

Context (HI : addr x NDIRECT ≠ 0).

Lemma with_ind_ne j n : n ≠ addr x NDIRECT → with_ind j n = V1 n.
Proof using. intros Hn. unfold with_ind, supd. by rewrite decide_False. Qed.
Lemma with_ind_bit j b : 0 ≤ b < sb_size sb → bfree_bit sb (with_ind j) b = bfree_bit sb V1 b.
Proof using Hok HI.
  intros Hb. unfold bfree_bit. rewrite with_ind_ne; [done|].
  destruct (ik_ind _ _ _ _ Hok HI) as [D _]. by apply (db_bitmap _ _ _ D).
Qed.
Lemma with_ind_use j n : in_use sb start (with_ind j) n ↔ in_use sb start V1 n.
Proof using Hok HI.
  unfold in_use. split; intros [D Hf]; (split; [done|]); pose proof (db_range _ _ _ D);
    rewrite with_ind_bit in *; done || lia.
Qed.
Lemma with_ind_nfree j : nfree sb (with_ind j) = nfree sb V1.
Proof using Hok HI.
  apply nfree_ext. by intros b Hb; apply with_ind_bit.
Qed.
Lemma with_ind_bitmap j : bitmap_ok sb start V → bitmap_ok sb start (with_ind j).
Proof using Hok HA HI.
  intros HB. split; [apply HB|]. intros b Hb. rewrite with_ind_bit by done.
  by apply (allocated_bitmap_ok _ _ _ _ _ HB HA).
Qed.

Context (HL : layout_ok sb start) (Hlen : length (V1 (addr x NDIRECT)) = Z.to_nat BSIZE).

Lemma new_indirect j :
  0 ≤ j < NINDIRECT → ind V x j = 0 → new_blk V (with_ind j) x x (NDIRECT + j) a.
Proof using Hok HA HI HL Hlen.
  intros Hj Hz. split.
  - intros bn Hb. unfold fblk. destruct (Z.ltb_spec bn NDIRECT); [by rewrite decide_False by lia|].
    rewrite <- (ind_alloc (bn - NDIRECT)). unfold ind. destruct (Z.eqb_spec (addr x NDIRECT) 0); [done|].
    unfold with_ind, supd. rewrite decide_True by done.
    assert (ind_off j + 4 ≤ length (V1 (addr x NDIRECT)))%nat as Ho by (rewrite Hlen; by apply ind_off_ok).
    case_decide as E.
    + replace (bn - NDIRECT) with j by lia. rewrite get32_put32 by done.
      pose proof (data_blockno _ _ _ HL (al_data _ _ _ _ _ HA)) as Ha. unfold blockno in Ha.
      unfold u32. apply Z.mod_small. lia.
    + rewrite get32_put32_ne; [done|done|]. apply ind_off_apart; lia.
  - left. fsnum. split; [lia|]. split; [|done]. unfold fblk.
    rewrite (proj2 (Z.ltb_ge _ _)) by (fsnum; lia). fsnum. by replace (12 + j - 12) with j by lia.
Qed.
Lemma grow_indirect j :
  0 ≤ j < NINDIRECT → ind V x j = 0 →
  inode_ok sb start (with_ind j) x ∧ grows sb start V x (with_ind j) x.
Proof using Hok HA HI HL Hlen.
  intros Hj Hz. pose proof (new_indirect j Hj Hz) as Hnew.
  assert (∀ n, in_use sb start V n → in_use sb start (with_ind j) n) as Hmono.
  { intros n Hn. by apply with_ind_use, grow_mono. }
  assert (a ≠ addr x NDIRECT) as Hne.
  { intros E. apply grow_not_in_use. rewrite E. by apply (ik_ind _ _ _ _ Hok). }
  split.
  - eapply inode_grow; try done.
    + apply Hok.
    + apply Hok.
    + apply with_ind_use. by eapply allocated_new.
    + exact grow_not_in_use.
  - eapply grow_grows; try done.
    + by rewrite set_i_addrs_id.
    + exact grow_not_in_use.
    + left. rewrite with_ind_ne by done. apply HA.
    + intros n Hn Hni. rewrite with_ind_ne by done. by apply grow_same.
    + intros i Hi. rewrite with_ind_ne; [by apply grow_inodes|].
      destruct (ik_ind _ _ _ _ Hok HI) as [D _]. by apply (db_inode _ _ _ D).
Qed.
End grow.

(** ** Frames *)

(** The inode table and the kernel's memory are not part of a transaction. *)
Record side (s s' : kst) : Prop := {
  sd_eq : s' = set_k_itable (k_itable s') (set_k_mem (k_mem s') s);
}.
Lemma side_inv p s s' held bs V : side s s' → tx_inv p s held bs V → tx_inv p s' held bs V.
Proof.
  intros [->] [[[R1 R2 R3 R4] H2 H3 H4 H5 H6 H7 H8] [L1 L2 L3 L4 L5] T3 T4 T5 T6].
  split; [by split; [split|..]|by split|done..].
Qed.
Lemma side_holds s s' held ns : side s s' → holds s held ns → holds s' held ns.
Proof. by intros [->]. Qed.
Lemma side_inode ip f s : side s (upd_inode ip f s).
Proof. split. by destruct s. Qed.
Lemma side_mem m s : side s (set_k_mem m s).
Proof. split. by destruct s. Qed.

(** What a file operation leaves alone, apart from the inode table and memory. *)
Record fs_frame (s s' : kst) : Prop := {
  ff_eq : s' = set_k_procs (k_procs s') (set_k_bufs (k_bufs s') (set_k_log (k_log s')
    (set_k_itable (k_itable s') (set_k_mem (k_mem s') s))));
  ff_procs : procs_rel s s';
  ff_start : lg_start (k_log s') = lg_start (k_log s);
  ff_out : lg_outstanding (k_log s') = lg_outstanding (k_log s);
}.
Lemma fs_frame_cur s s' : fs_frame s s' → k_cur s' = k_cur s.
Proof. intros [E _ _ _]. by rewrite E. Qed.
Lemma fs_frame_sb s s' : fs_frame s s' → k_sb s' = k_sb s.
Proof. intros [E _ _ _]. by rewrite E. Qed.
Lemma procs_rel_trans s1 s2 s3 :
  k_cur s2 = k_cur s1 → procs_rel s1 s2 → procs_rel s2 s3 → procs_rel s1 s3.
Proof.
  intros Hc [L1 P1] [L2 P2]. split; [congruence|]. intros i.
  destruct (P2 i) as [->|(C2 & S2 & E)]; [apply P1|].
  rewrite Hc in C2. rewrite E. destruct (P1 i) as [E'|(C1 & S1 & E')]; rewrite E' in S2 |- *; [by right|done].
Qed.
#[global] Instance fs_frame_refl : Reflexive fs_frame.
Proof. intros s. split; try done; [by destruct s|apply procs_rel_refl]. Qed.
#[global] Instance fs_frame_trans : Transitive fs_frame.
Proof.
  intros s1 s2 s3 F1 F2. pose proof (fs_frame_cur _ _ F1). destruct F1 as [A1 A2 A3 A4], F2 as [B1 B2 B3 B4].
  split; [rewrite B1, A1; done|by eapply procs_rel_trans|congruence..].
Qed.
Lemma tx_fs_frame s s' : tx_frame s s' → fs_frame s s'.
Proof.
  intros [[E P] D W S O]. split; try done. rewrite E at 1. rewrite D, W. destruct s. simpl in *.
  by rewrite E.
Qed.
Lemma tx_itable s s' : tx_frame s s' → k_itable s' = k_itable s ∧ k_mem s' = k_mem s.
Proof. intros [[E _] _ _ _ _]. by rewrite E. Qed.
Lemma side_fs_frame s s' : side s s' → fs_frame s s'.
Proof. intros [->]. split; try done. split; [done|]. by left. Qed.

(** ** bmap *)

(** Inside a transaction, with a consistent bitmap. *)
Record fs_tx (p : nat) (s : kst) (held : gset nat) (bs : list Z) (V : Z → list Z) : Prop := {
  ft_inv : tx_inv p s held bs V;
  ft_bitmap : bitmap_ok (k_sb s) (lg_start (k_log s)) V;
  ft_out : 1 ≤ lg_outstanding (k_log s);
}.
Abbreviation sok s V x := (inode_ok (k_sb s) (lg_start (k_log s)) V x).

Lemma inode_of_upd ip f s :
  (ip < length (k_itable s))%nat → inode_of (upd_inode ip f s) ip = f (inode_of s ip).
Proof.
  intros Hi. unfold inode_of, upd_inode. simpl. rewrite list_lookup_alter_eq.
  by destruct (lookup_lt_is_Some_2 _ _ Hi) as [x ->].
Qed.
Lemma inode_of_ne ip j f s : ip ≠ j → inode_of (upd_inode ip f s) j = inode_of s j.
Proof. intros Hi. unfold inode_of, upd_inode. simpl. by rewrite list_lookup_alter_ne. Qed.

(** The outcome of a step of [bmap]: inode [ip] is [x'], other inodes and memory are as before. *)
Record moved (ip : nat) (s s' : kst) (x' : inode) : Prop := {
  mv_ip : inode_of s' ip = x';
  mv_len : length (k_itable s') = length (k_itable s);
  mv_other j : j ≠ ip → inode_of s' j = inode_of s j;
  mv_mem : k_mem s' = k_mem s;
  mv_frame : fs_frame s s';
}.
Lemma moved_tx ip s s' : tx_frame s s' → moved ip s s' (inode_of s ip).
Proof.
  intros F. destruct (tx_itable _ _ F) as [E1 E2]. unfold inode_of. split; rewrite ?E1; try done.
  - unfold inode_of. by rewrite E1.
  - intros j _. unfold inode_of. by rewrite E1.
  - by apply tx_fs_frame.
Qed.
Lemma moved_trans ip s1 s2 s3 x2 x3 : moved ip s1 s2 x2 → moved ip s2 s3 x3 → moved ip s1 s3 x3.
Proof.
  intros [A1 A2 A3 A4 A5] [B1 B2 B3 B4 B5]. split; try congruence; [|by etrans].
  intros j Hj. by rewrite B3, A3.
Qed.
Lemma moved_upd ip f s : (ip < length (k_itable s))%nat → moved ip s (upd_inode ip f s) (f (inode_of s ip)).
Proof.
  intros Hi. split; [by apply inode_of_upd|simpl; apply length_alter| |done|apply side_fs_frame, side_inode].
  intros j Hj. by apply inode_of_ne.
Qed.

Lemma bmap_direct_Ok p s held ns bs V ip i :
  fs_tx p s held bs V → holds s held ns → (∀ n, n ∈ ns → in_use (k_sb s) (lg_start (k_log s)) V n) →
  (size held ≤ 1)%nat → (ip < length (k_itable s))%nat → sok s V (inode_of s ip) → 0 ≤ i ≤ NDIRECT →
  Z.of_nat (length bs) < LOGSIZE - 2 → (0 < nfree (k_sb s) V)%nat →
  ∃ a s' bs' V' x', bmap_direct ip i s = Ok a s' ∧ fs_tx p s' held bs' V' ∧ holds s' held ns ∧
    moved ip s s' x' ∧ inode_ok (k_sb s) (lg_start (k_log s)) V' x' ∧
    grows (k_sb s) (lg_start (k_log s)) V (inode_of s ip) V' x' ∧ addr x' i = a ∧ a ≠ 0 ∧
    (nfree (k_sb s) V ≤ nfree (k_sb s) V' + 1)%nat ∧ (length bs' ≤ length bs + 2)%nat.
Proof.
  intros [T HB Ho] HH Hns Hsz Hip Hok Hi Hl Hnf. unfold bmap_direct. rewrite bind_gets.
  change (addr_of s ip i) with (addr (inode_of s ip) i).
  destruct (Z.eqb_spec (addr (inode_of s ip) i) 0) as [Hz|Hnz].
  2:{ eexists _, s, bs, V, _. split; [done|]. split; [done|]. split; [done|].
      split; [by apply moved_tx|]. split; [done|]. split; [apply grows_refl|]. split; [done|].
      split; [done|]. lia. }
  rewrite bind_gets, (ik_dev _ _ _ _ Hok).
  destruct (balloc_Ok p held ns bs V s HB T HH Hns Hsz Hl Ho Hnf)
    as (a & s1 & bs' & V' & E & HA & T1 & H1 & F & Hl').
  rewrite (bind_Ok _ _ _ _ _ E). unfold set_addr. msteps.
  pose proof (moved_tx ip _ _ F) as M1.
  destruct (grow_direct _ _ _ _ _ _ Hok HA i (bm_layout _ _ _ HB) Hi Hz) as [G1 G2].
  exists a, (upd_inode ip (with_addr i a) s1), bs', V', (with_addr i a (inode_of s ip)). split; [done|].
  pose proof (moved_upd ip (with_addr i a) s1 ltac:(by rewrite (mv_len _ _ _ _ M1))) as M2.
  rewrite (mv_ip _ _ _ _ M1) in M2. pose proof (moved_trans _ _ _ _ _ _ M1 M2) as M.
  split; [split|].
  - eapply side_inv; [apply side_inode|done].
  - rewrite (fs_frame_sb _ _ (mv_frame _ _ _ _ M)), (ff_start _ _ (mv_frame _ _ _ _ M)).
    by eapply allocated_bitmap_ok.
  - by rewrite (ff_out _ _ (mv_frame _ _ _ _ M)).
  - split; [done|]. split; [done|]. split; [done|]. split; [done|].
    rewrite addr_with by (apply Hok || fsnum; lia). rewrite decide_True by done.
    split; [done|]. split; [by eapply grow_nz|]. rewrite (al_nfree _ _ _ _ _ HA). lia.
Qed.

Lemma seq3_ret {A} (m1 m2 m3 : K unit) (a : A) s s' :
  (m1;; m2;; m3) s = Ok () s' → ((m1;; m2;; mret a) ≫= λ x, m3;; mret x) s = Ok a s'.
Proof.
  unfold mbind, M_bind. destruct (m1 s) as [[] s1| | |]; simpl; try done.
  destruct (m2 s1) as [[] s2| | |]; simpl; try done. by intros ->.
Qed.
Lemma fs_tx_frame p s s' held held' bs bs' V :
  fs_tx p s held bs V → fs_frame s s' → tx_inv p s' held' bs' V → fs_tx p s' held' bs' V.
Proof.
  intros [_ HB Ho] F T. split; [done| |by rewrite (ff_out _ _ F)].
  by rewrite (fs_frame_sb _ _ F), (ff_start _ _ F).
Qed.
Lemma moved_sok ip s s' x' V : moved ip s s' x' →
  inode_ok (k_sb s) (lg_start (k_log s)) V x' → sok s' V (inode_of s' ip).
Proof.
  intros M H. pose proof (mv_frame _ _ _ _ M) as F.
  by rewrite (fs_frame_sb _ _ F), (ff_start _ _ F), (mv_ip _ _ _ _ M).
Qed.

(** The second half of [bmap]: the entry of the indirect block. *)
Definition bmap_entry (ip : nat) (bn addr : Z) : K Z :=
  dev ← gets (λ s, i_dev (inode_of s ip));
  bp ← bread dev addr;
  addr ← gets (λ s, get32 (data_of s bp) (ind_off bn));
  addr ← (if addr =? 0 then
            dev ← gets (λ s, i_dev (inode_of s ip));
            addr ← balloc dev;
            set_data bp (λ d, put32 d (ind_off bn) addr);;
            log_write bp;;
            mret addr
          else mret addr);
  brelse bp;;
  mret addr.

Lemma bmap_entry_Ok p s bs V ip j :
  let sb := k_sb s in let start := lg_start (k_log s) in let x := inode_of s ip in
  fs_tx p s ∅ bs V → (ip < length (k_itable s))%nat → sok s V x → addr x NDIRECT ≠ 0 →
  0 ≤ j < NINDIRECT →
  (length bs < NBUF)%nat →
  (ind V x j = 0 → Z.of_nat (length bs) < LOGSIZE - 3 ∧ (0 < nfree sb V)%nat) →
  ∃ s' bs' V', bmap_entry ip j (addr x NDIRECT) s = Ok (ind V' x j) s' ∧ fs_tx p s' ∅ bs' V' ∧
    moved ip s s' x ∧ inode_ok sb start V' x ∧ grows sb start V x V' x ∧ ind V' x j ≠ 0 ∧
    (nfree sb V ≤ nfree sb V' + 1)%nat ∧ (length bs' ≤ length bs + 3)%nat ∧
    (ind V x j ≠ 0 → bs' = bs ∧ V' = V).
Proof.
  intros sb start x HT Hip Hok HI Hj Hnb Hcap. pose proof HT as [T HB Ho].
  unfold bmap_entry. rewrite bind_gets. fold x. rewrite (ik_dev _ _ _ _ Hok).
  destruct (tx_read p s ∅ ∅ bs V (addr x NDIRECT) T)
    as (bp & s1 & E1 & T1 & Hbp & H1 & C1 & D1 & F1 & s2 & E2 & T2 & _ & F2);
    [done|set_solver|by rewrite size_empty|].
  rewrite (bind_Ok _ _ _ _ _ E1), bind_gets, D1.
  assert (get32 (V (addr x NDIRECT)) (ind_off j) = ind V x j) as Eind.
  { unfold ind. by rewrite (proj2 (Z.eqb_neq _ _)). }
  rewrite Eind. destruct (Z.eqb_spec (ind V x j) 0) as [Hz|Hnz].
  2:{ rewrite bind_ret, (bind_Ok _ _ _ _ _ E2). exists s2, bs, V. split; [done|].
      assert (tx_frame s s2) as F by (by etrans). split; [eapply fs_tx_frame; [done|by apply tx_fs_frame|done]|].
      split; [by apply moved_tx|]. split; [done|]. split; [apply grows_refl|]. split; [done|]. split; [lia|].
      split; [lia|done]. }
  destruct (Hcap Hz) as [Hl Hnf]. pose proof (moved_tx ip _ _ F1) as M1. fold x in M1.
  pose proof (tx_fs_frame _ _ F1) as FF1.
  assert (k_sb s1 = sb ∧ lg_start (k_log s1) = start) as [Esb Est]
    by (split; [by apply (fs_frame_sb s)|apply FF1]).
  destruct (balloc_Ok p ({[bp]} ∪ ∅) ({[addr x NDIRECT]} ∪ ∅) bs V s1)
    as (a & s3 & bs' & V2 & E3 & HA & T3 & H3 & F3 & Hl3); rewrite ?Esb, ?Est in *; try done.
  { by apply holds_cons. }
  { intros n Hn. assert (n = addr x NDIRECT) as -> by set_solver. by apply (ik_ind _ _ _ _ Hok). }
  { by rewrite union_empty_r_L, size_singleton. }
  { lia. }
  { by rewrite (ff_out _ _ FF1). }
  destruct (H3 bp (held_one bp)) as (n & Hn & C3). assert (n = addr x NDIRECT) as -> by set_solver.
  destruct (ik_ind _ _ _ _ Hok HI) as [DI _]. pose proof (bm_layout _ _ _ HB) as HL.
  destruct (tx_modify p s3 ∅ ∅ bs' V2 bp (addr x NDIRECT) (λ d, put32 d (ind_off j) a))
    as (s4 & E4 & T4 & _ & F4); try done.
  { rewrite (tf_start _ _ F3), Est. apply DI. }
  { by eapply data_blockno. }
  { by rewrite (tf_out _ _ F3), (tf_out _ _ F1). }
  { lia. }
  { pose proof (tx_length _ _ _ _ _ (addr x NDIRECT) T3) as Hlen.
    rewrite length_put32; [done|]. rewrite Hlen. by apply ind_off_ok. }
  pose proof (tx_length _ _ _ _ _ (addr x NDIRECT) T3) as Hlen.
  destruct (grow_indirect _ _ _ _ _ _ Hok HA HI HL Hlen j Hj Hz) as [G1 G2].
  pose proof (new_indirect _ _ _ _ _ _ Hok HA HI HL Hlen j Hj Hz) as [Hnew _].
  fold (with_ind V2 x a j) in T4. set (V3 := with_ind V2 x a j) in *.
  assert (ind V3 x j = a) as Ea.
  { specialize (Hnew (NDIRECT + j) ltac:(fsnum; lia)). rewrite decide_True in Hnew by done.
    unfold fblk in Hnew. rewrite (proj2 (Z.ltb_ge _ _)) in Hnew by (fsnum; lia).
    by replace (NDIRECT + j - NDIRECT) with j in Hnew by lia. }
  assert (tx_frame s s4) as F by (etrans; [exact F1|]; by etrans).
  exists s4, (logged bs' (addr x NDIRECT)), V3. rewrite Ea.
  assert (moved ip s s4 x) as M by (by apply moved_tx). pose proof (length_logged bs' (addr x NDIRECT)).
  split; [|split; [split; [done| |]|do 3 (split; [done|])]].
  - rewrite (bind_in_Ok _ _ _ _ (i_dev (inode_of s1 ip)) s1) by done.
    rewrite (mv_ip _ _ _ _ M1 : inode_of s1 ip = x), (ik_dev _ _ _ _ Hok).
    rewrite (bind_in_Ok _ _ _ _ _ _ E3). by apply seq3_ret.
  - rewrite (fs_frame_sb _ _ (mv_frame _ _ _ _ M)), (tf_start _ _ F). exact (with_ind_bitmap _ _ _ _ _ _ Hok HA HI j HB).
  - by rewrite (tf_out _ _ F).
  - split; [by eapply grow_nz|]. fold start in HA. fold sb in HA. rewrite (al_nfree _ _ _ _ _ HA).
    unfold V3, sb. rewrite (with_ind_nfree _ _ _ _ _ _ Hok HI). fold sb. split; [lia|]. split; [lia|done].
Qed.

(** The first half: [bmap_direct] when the slot is in use. *)
Lemma bmap_direct_hit ip i s :
  addr (inode_of s ip) i ≠ 0 → bmap_direct ip i s = Ok (addr (inode_of s ip) i) s.
Proof.
  intros Hn. unfold bmap_direct. rewrite bind_gets. change (addr_of s ip i) with (addr (inode_of s ip) i).
  by rewrite (proj2 (Z.eqb_neq _ _) Hn).
Qed.
Lemma bmap_unfold ip bn s :
  0 ≤ bn < MAXFILE →
  bmap ip bn s = if bn <? NDIRECT then bmap_direct ip bn s
                 else (bmap_direct ip NDIRECT ≫= bmap_entry ip (bn - NDIRECT)) s.
Proof.
  intros Hb. unfold bmap. destruct (Z.ltb_spec bn NDIRECT); [done|].
  by rewrite (proj2 (Z.ltb_lt _ _)) by (fsnum; lia).
Qed.

(** A block that is mapped is found without a change. *)
Lemma bmap_hit p s bs V ip bn :
  let x := inode_of s ip in
  fs_tx p s ∅ bs V → (ip < length (k_itable s))%nat → sok s V x → 0 ≤ bn < MAXFILE →
  (length bs < NBUF)%nat → fblk V x bn ≠ 0 →
  ∃ s', bmap ip bn s = Ok (fblk V x bn) s' ∧ fs_tx p s' ∅ bs V ∧ moved ip s s' x.
Proof.
  intros x HT Hip Hok Hb Hnb. rewrite bmap_unfold by done. unfold fblk.
  destruct (Z.ltb_spec bn NDIRECT) as [Hlt|Hge]; intros Hn.
  { rewrite bmap_direct_hit by done. exists s. split; [done|]. split; [done|]. by apply moved_tx. }
  assert (addr x NDIRECT ≠ 0) as HI.
  { intros E. unfold ind in Hn. by rewrite E in Hn. }
  rewrite (bind_Ok _ _ _ _ _ (bmap_direct_hit ip NDIRECT s HI)). fold x.
  destruct (bmap_entry_Ok p s bs V ip (bn - NDIRECT)) as (s' & bs' & V' & E & T & M & _ & _ & _ & _ & _ & Hsame);
    try done; [fsnum; lia|].
  destruct (Hsame Hn) as [-> ->]. by exists s'.
Qed.

(** Any block of the file. *)
Lemma bmap_Ok p s bs V ip bn :
  let sb := k_sb s in let start := lg_start (k_log s) in let x := inode_of s ip in
  fs_tx p s ∅ bs V → (ip < length (k_itable s))%nat → sok s V x → 0 ≤ bn < MAXFILE →
  Z.of_nat (length bs) < LOGSIZE - 5 → (2 ≤ nfree sb V)%nat →
  ∃ s' bs' V' x', bmap ip bn s = Ok (fblk V' x' bn) s' ∧ fs_tx p s' ∅ bs' V' ∧ moved ip s s' x' ∧
    inode_ok sb start V' x' ∧ grows sb start V x V' x' ∧ fblk V' x' bn ≠ 0 ∧
    (nfree sb V ≤ nfree sb V' + 2)%nat ∧ (length bs' ≤ length bs + 5)%nat.
Proof.
  intros sb start x HT Hip Hok Hb Hl Hnf. rewrite bmap_unfold by done. unfold fblk.
  destruct (bn <? NDIRECT) eqn:Hlt.
  - apply Z.ltb_lt in Hlt.
    destruct (bmap_direct_Ok p s ∅ ∅ bs V ip bn HT) as
      (a & s' & bs' & V' & x' & E & T & _ & M & K & G & <- & Hn & Hf & Hl'); try (done || lia || set_solver).
    + fold sb; lia.
    + exists s', bs', V', x'. do 6 (split; [done|]). fold sb in Hf. lia.
  - apply Z.ltb_ge in Hlt.
    destruct (bmap_direct_Ok p s ∅ ∅ bs V ip NDIRECT HT) as
      (a & s1 & bs1 & V1 & x1 & E & T & _ & M & K & G & <- & Hn & Hf & Hl'); try (done || lia || set_solver).
    + fold sb; lia.
    + rewrite (bind_Ok _ _ _ _ _ E). pose proof (moved_sok _ _ _ _ _ M K) as Hok1.
      pose proof (mv_frame _ _ _ _ M) as F. pose proof (fs_frame_sb _ _ F) as Esb. pose proof (ff_start _ _ F) as Est.
      destruct (bmap_entry_Ok p s1 bs1 V1 ip (bn - NDIRECT)) as
        (s2 & bs2 & V2 & E2 & T2 & M2 & K2 & G2 & Hn2 & Hf2 & Hl2 & _); rewrite ?(mv_ip _ _ _ _ M) in *; try done.
      * by rewrite (mv_len _ _ _ _ M).
      * fsnum. lia.
      * unfold NBUF, LOGSIZE, MAXOPBLOCKS in *. lia.
      * intros _. rewrite Esb. fold sb. fold sb in Hf. lia.
      * rewrite Esb, Est in *. fold sb start in Hf, Hf2, K2, G2, G.
        exists s2, bs2, V2, x1. split; [done|]. split; [done|]. split; [by eapply moved_trans|].
        split; [done|]. split; [by eapply grows_trans|]. split; [done|]. lia.
Qed.
