(* ===== verification/FsFile.v ===== *)
(** * Reading and writing files

    [readi] and [writei] against the bytes of a file. *)

From stdpp Require Import options.
From S2P Require Import Prelude CString State Sched Sleeplock Bio BioList BioSpec Block Log LogSpec LogCrash LogTx Kalloc Vm PageTable VmWalk VmSpec VmOps VmFree VmCopy VmProps Copy UserMem EitherCopy Fs FsCodec FsAlloc FsInode.
#[local] Open Scope Z_scope.

(** ** Views *)

(** The bitmap and the blocks of files are the same. *)
Lemma view_same sb start V V' x :
  layout_ok sb start →
  (∀ n, (∀ i, 0 ≤ i < sb_ninodes sb → n ≠ IBLOCK i sb) → V' n = V n) →
  bitmap_ok sb start V → inode_ok sb start V x →
  bitmap_ok sb start V' ∧ inode_ok sb start V' x ∧ nfree sb V' = nfree sb V ∧
  (∀ bn, 0 ≤ bn < MAXFILE → fblk V' x bn = fblk V x bn) ∧
  (∀ o, 0 ≤ o < MAXFILE * BSIZE → fbyte V' x o = fbyte V x o) ∧
  (∀ n, in_use sb start V' n ↔ in_use sb start V n).
Proof.
  intros HL HV HB Hok.
  assert (∀ b, 0 ≤ b < sb_size sb → bfree_bit sb V' b = bfree_bit sb V b) as Hbit.
  { intros b Hb. unfold bfree_bit. rewrite HV; [done|]. intros i Hi E. by apply (ly_apart _ _ HL i b). }
  assert (∀ n, in_use sb start V' n ↔ in_use sb start V n) as Huse.
  { intros n. unfold in_use. split; intros [D Hf]; (split; [done|]);
      pose proof (db_range _ _ _ D); rewrite Hbit in * by lia; done. }
  assert (∀ n, in_use sb start V n → V' n = V n) as HU.
  { intros n [D _]. apply HV. intros i Hi E. by apply (db_inode _ _ _ D i). }
  assert (∀ bn, 0 ≤ bn < MAXFILE → fblk V' x bn = fblk V x bn) as Hf.
  { intros bn Hb. unfold fblk, ind. destruct (bn <? NDIRECT); [done|].
    destruct (Z.eqb_spec (addr x NDIRECT) 0) as [|Hn]; [done|]. by rewrite HU by (by apply (ik_ind _ _ _ _ Hok)). }
  split; [|split; [|split; [|split; [done|split; [|done]]]]].
  - split; [done|]. intros b Hb. rewrite Hbit by done. by apply HB.
  - destruct Hok as [K1 K2 K3 K4 K5]. split; try done.
    + intros Hn. by apply Huse, K3.
    + intros bn Hb. rewrite Hf, Huse by done. by apply K4.
    + intros bn bn' Hb Hb'. rewrite !Hf by done. by apply K5.
  - by apply nfree_ext.
  - intros o Ho. unfold fbyte.
    assert (0 ≤ o / BSIZE < MAXFILE) as Hb.
    { split; [apply Z.div_pos; fsnum; lia|apply Z.div_lt_upper_bound; fsnum; lia]. }
    rewrite Hf by done. destruct (Z.eqb_spec (fblk V x (o / BSIZE)) 0) as [|Hn]; [done|].
    rewrite HU; [done|]. by apply (ik_use _ _ _ _ Hok).
Qed.

(** Block [bn] of the file gets new contents. *)
Lemma view_write sb start V x bn d :
  layout_ok sb start → bitmap_ok sb start V → inode_ok sb start V x →
  0 ≤ bn < MAXFILE → fblk V x bn ≠ 0 →
  let V' := supd V (fblk V x bn) d in
  bitmap_ok sb start V' ∧ inode_ok sb start V' x ∧ nfree sb V' = nfree sb V ∧
  (∀ bn', 0 ≤ bn' < MAXFILE → fblk V' x bn' = fblk V x bn') ∧
  (∀ o, 0 ≤ o < MAXFILE * BSIZE → fbyte V' x o =
     if decide (o / BSIZE = bn) then u8 (default 0 (d !! Z.to_nat (o mod BSIZE))) else fbyte V x o) ∧
  (∀ n, in_use sb start V' n ↔ in_use sb start V n) ∧
  (∀ i, 0 ≤ i < sb_ninodes sb → V' (IBLOCK i sb) = V (IBLOCK i sb)).
Proof.
  intros HL HB Hok Hbn Hn V'. destruct (ik_use _ _ _ _ Hok bn Hbn Hn) as [[D HU] HI].
  assert (∀ b, 0 ≤ b < sb_size sb → bfree_bit sb V' b = bfree_bit sb V b) as Hbit.
  { intros b Hb. unfold bfree_bit, V', supd. rewrite decide_False; [done|]. by apply (db_bitmap _ _ _ D). }
  assert (∀ n, in_use sb start V' n ↔ in_use sb start V n) as Huse.
  { intros n. unfold in_use. split; intros [D' Hf]; (split; [done|]);
      pose proof (db_range _ _ _ D'); rewrite Hbit in * by lia; done. }
  assert (∀ bn', 0 ≤ bn' < MAXFILE → fblk V' x bn' = fblk V x bn') as Hf.
  { intros bn' Hb. unfold fblk at 1 2. destruct (bn' <? NDIRECT); [done|]. unfold ind, V'.
    by rewrite supd_ne by done. }
  split; [|split; [|split; [|split; [done|split; [|split; [done|]]]]]].
  - split; [done|]. intros b Hb. rewrite Hbit by done. by apply HB.
  - destruct Hok as [K1 K2 K3 K4 K5]. split; try done.
    + intros Hi. by apply Huse, K3.
    + intros bn' Hb. rewrite Hf, Huse by done. by apply K4.
    + intros b1 b2 Hb Hb'. rewrite !Hf by done. by apply K5.
  - by apply nfree_ext.
  - intros o Ho. unfold fbyte.
    assert (0 ≤ o / BSIZE < MAXFILE) as Hb.
    { split; [apply Z.div_pos; fsnum; lia|apply Z.div_lt_upper_bound; fsnum; lia]. }
    rewrite Hf by done. case_decide as E.
    + rewrite E, (proj2 (Z.eqb_neq _ _) Hn). unfold V'. by rewrite supd_eq.
    + destruct (Z.eqb_spec (fblk V x (o / BSIZE)) 0) as [|Hn']; [done|]. unfold V'.
      rewrite supd_ne; [done|]. intros E'. apply E. by apply (ik_inj _ _ _ _ Hok).
  - intros i Hi. unfold V'. rewrite supd_ne; [done|]. by apply (db_inode _ _ _ D).
Qed.

(** ** What writing does *)

(** [data] is written at offset [off]: other bytes of the file, other files and the inodes on the
    disk are as before, and blocks the file had stay where they are. *)
Record fwrite (sb : superblock) (start : Z) (V : Z → list Z) (x : inode)
    (V' : Z → list Z) (x' : inode) (off : Z) (data : list Z) : Prop := {
  fw_byte o : 0 ≤ o < MAXFILE * BSIZE → fbyte V' x' o =
    if decide (off ≤ o < off + Z.of_nat (length data)) then default 0 (data !! Z.to_nat (o - off))
    else fbyte V x o;
  fw_keep bn : 0 ≤ bn < MAXFILE → fblk V x bn ≠ 0 → fblk V' x' bn = fblk V x bn;
  fw_mapped o : off ≤ o < off + Z.of_nat (length data) → fblk V' x' (o / BSIZE) ≠ 0;
  fw_fields : x' = set_i_addrs (i_addrs x') x;
  fw_use n : in_use sb start V n → in_use sb start V' n;
  fw_other n : in_use sb start V n → ¬ mine V x n → ¬ mine V' x' n ∧ V' n = V n;
  fw_inodes i : 0 ≤ i < sb_ninodes sb → V' (IBLOCK i sb) = V (IBLOCK i sb);
}.

Lemma div_range o : 0 ≤ o < MAXFILE * BSIZE → 0 ≤ o / BSIZE < MAXFILE.
Proof.
  intros Ho. split; [apply Z.div_pos; fsnum; lia|apply Z.div_lt_upper_bound; fsnum; lia].
Qed.

Lemma fwrite_nil sb start V x off : fwrite sb start V x V x off [].
Proof.
  split; try done; simpl.
  - intros o Ho. rewrite decide_False; [done|lia].
  - intros o Ho. lia.
  - by rewrite set_i_addrs_id.
Qed.
Lemma fwrite_app sb start V x V1 x1 V2 x2 off d1 d2 :
  0 ≤ off → off + Z.of_nat (length d1) + Z.of_nat (length d2) ≤ MAXFILE * BSIZE →
  fwrite sb start V x V1 x1 off d1 → fwrite sb start V1 x1 V2 x2 (off + Z.of_nat (length d1)) d2 →
  fwrite sb start V x V2 x2 off (d1 ++ d2).
Proof.
  intros Hoff Hmax [A1 A2 A3 A4 A5 A6 A7] [B1 B2 B3 B4 B5 B6 B7].
  split; rewrite ?length_app, ?Nat2Z.inj_add.
  - intros o Ho. rewrite B1, A1 by done. repeat case_decide; try lia; try done.
    + rewrite lookup_app_r by lia. do 2 f_equal. lia.
    + rewrite lookup_app_l by lia. done.
  - intros bn Hb Hn. rewrite B2, A2; rewrite ?A2; done.
  - intros o Ho. destruct (decide (o < off + Z.of_nat (length d1))) as [Hlt|Hge].
    + rewrite B2; [apply A3; lia|apply div_range; lia|apply A3; lia].
    + apply B3. lia.
  - rewrite B4, A4. done.
  - auto.
  - intros n Hu Hm. destruct (A6 n Hu Hm) as [Hm1 E1]. destruct (B6 n (A5 n Hu) Hm1). split; [done|congruence].
  - intros i Hi. by rewrite B7, A7.
Qed.

Lemma same_blk off o n :
  off mod BSIZE + n ≤ BSIZE → off ≤ o < off + n → o / BSIZE = off / BSIZE.
Proof.
  intros Hfit Ho. pose proof (Z.div_mod off BSIZE ltac:(done)).
  pose proof (Z.mod_pos_bound off BSIZE ltac:(done)).
  assert (o = BSIZE * (off / BSIZE) + (off mod BSIZE + (o - off))) as -> by lia.
  rewrite Z.add_comm, Z.mul_comm, Z.div_add, Z.div_small by (done || lia). lia.
Qed.
Lemma same_mod off i : 0 ≤ i → off mod BSIZE + i < BSIZE → (off + i) mod BSIZE = off mod BSIZE + i.
Proof.
  intros Hi Hfit. pose proof (Z.mod_pos_bound off BSIZE ltac:(done)).
  rewrite <- Zplus_mod_idemp_l. by apply Z.mod_small; lia.
Qed.
(** One block: [data] goes into block [off / BSIZE], mapped by [bmap]. *)
Lemma fwrite_chunk sb start V x V1 x1 off data :
  layout_ok sb start → bitmap_ok sb start V1 → inode_ok sb start V1 x1 →
  grows sb start V x V1 x1 → 0 ≤ off → off + Z.of_nat (length data) ≤ MAXFILE * BSIZE →
  data ≠ [] → off mod BSIZE + Z.of_nat (length data) ≤ BSIZE → Forall is_byte data →
  let b := fblk V1 x1 (off / BSIZE) in
  b ≠ 0 → length (V1 b) = Z.to_nat BSIZE →
  let V2 := supd V1 b (splice (V1 b) (Z.to_nat (off mod BSIZE)) data) in
  bitmap_ok sb start V2 ∧ inode_ok sb start V2 x1 ∧ nfree sb V2 = nfree sb V1 ∧
  fwrite sb start V x V2 x1 off data.
Proof.
  intros HL HB Hok HG Hoff Hmax Hd Hfit Hbytes b Hb Hlen V2.
  assert (0 < Z.of_nat (length data)) by (destruct data; simpl in *; [done|lia]).
  assert (0 ≤ off / BSIZE < MAXFILE) as Hbn by (apply div_range; lia).
  pose proof (Z.mod_pos_bound off BSIZE ltac:(done)) as Hmod.
  destruct (view_write sb start V1 x1 (off / BSIZE)
    (splice (V1 b) (Z.to_nat (off mod BSIZE)) data) HL HB Hok Hbn Hb) as (W1 & W2 & W3 & W4 & W5 & W6 & W7).
  do 3 (split; [done|]). split.
  - intros o Ho. fold b in W5. fold V2 in W5. rewrite W5 by done. case_decide as E.
    + pose proof (Z.mod_pos_bound o BSIZE ltac:(done)). pose proof (Z.div_mod o BSIZE ltac:(done)).
      pose proof (Z.div_mod off BSIZE ltac:(done)). rewrite E in *.
      rewrite lookup_splice by (rewrite Hlen; lia).
      destruct (decide (off ≤ o < off + Z.of_nat (length data))) as [Hin|Hin].
      * rewrite decide_True by lia. replace (Z.to_nat (o mod BSIZE) - Z.to_nat (off mod BSIZE))%nat
          with (Z.to_nat (o - off)) by lia.
        destruct (lookup_lt_is_Some_2 data (Z.to_nat (o - off)) ltac:(lia)) as [v Hv]. rewrite Hv. simpl.
        rewrite Forall_lookup in Hbytes. apply u8_id, (Hbytes _ _ Hv).
      * rewrite decide_False by lia. rewrite <- (gr_same _ _ _ _ _ _ HG) by done. unfold fbyte.
        rewrite E. fold b. by rewrite (proj2 (Z.eqb_neq _ _) Hb).
    + rewrite (gr_same _ _ _ _ _ _ HG) by done. rewrite decide_False; [done|]. intros Hin. apply E.
      by eapply same_blk.
  - intros bn Hb' Hn. fold b in W4. fold V2 in W4. rewrite W4 by done. by apply (gr_keep _ _ _ _ _ _ HG).
  - intros o Ho. fold b in W4. fold V2 in W4.
    assert (o / BSIZE = off / BSIZE) as -> by (by eapply same_blk). by rewrite W4 by done.
  - apply HG.
  - intros n Hu. apply W6. by apply (gr_use _ _ _ _ _ _ HG).
  - intros n Hu Hm. pose proof (gr_mine _ _ _ _ _ _ HG n Hu Hm) as Hm1.
    assert (n ≠ addr x NDIRECT) as Hne by (intros ->; apply Hm; by left).
    destruct (gr_other _ _ _ _ _ _ HG n Hu Hne) as [_ E]. split.
    + intros [->|(bn & Hb' & <-)]; [apply Hm1; by left|]. apply Hm1. right. exists bn. split; [done|].
      symmetry. by apply W4.
    + unfold V2. rewrite supd_ne; [done|]. intros ->. apply Hm1. right. by exists (off / BSIZE).
  - intros i Hi. fold b in W7. fold V2 in W7. rewrite W7 by done. by apply (gr_inodes _ _ _ _ _ _ HG).
Qed.

(** ** The loop of writei *)

(** The number of blocks under [n] bytes at [off]. *)
Definition nblks (off n : Z) : Z := if n =? 0 then 0 else (off mod BSIZE + n + BSIZE - 1) / BSIZE.
Lemma nblks_step off n :
  0 ≤ off → 0 < n → let m := Z.min n (BSIZE - off mod BSIZE) in
  nblks off n = 1 + nblks (off + m) (n - m).
Proof.
  intros Hoff Hn m. pose proof (Z.mod_pos_bound off BSIZE ltac:(done)) as Hmod. unfold nblks.
  rewrite (proj2 (Z.eqb_neq n 0)) by lia. change BSIZE with 1024 in *.
  destruct (Z.eqb_spec (n - m) 0) as [E|E].
  - rewrite <- (Z.div_unique (off mod 1024 + n + 1024 - 1) 1024 1 (off mod 1024 + n - 1)) by lia. lia.
  - assert (m = 1024 - off mod 1024) as Em by lia.
    assert ((off + m) mod 1024 = 0) as ->.
    { pose proof (Z.div_mod off 1024 ltac:(lia)).
      replace (off + m) with ((off / 1024 + 1) * 1024) by lia. by apply Z.mod_mul. }
    replace (off mod 1024 + n + 1024 - 1) with (0 + (n - m) + 1024 - 1 + 1 * 1024) by lia.
    rewrite Z.div_add by lia. lia.
Qed.
Lemma nblks_pos off n : 0 ≤ n → 0 ≤ nblks off n.
Proof.
  intros Hn. unfold nblks. destruct (n =? 0); [lia|]. apply Z.div_pos; [|done].
  pose proof (Z.mod_pos_bound off BSIZE ltac:(done)). change BSIZE with 1024 in *. lia.
Qed.
Lemma nblks_fuel off n : 0 ≤ n → nblks off n < Z.of_nat (io_fuel n).
Proof.
  intros Hn. unfold io_fuel, nblks. pose proof (Z.mod_pos_bound off BSIZE ltac:(done)).
  assert (0 ≤ n / BSIZE) by (apply Z.div_pos; [lia|done]).
  rewrite !Nat2Z.inj_succ, Z2Nat.id by lia. destruct (n =? 0); [lia|]. change BSIZE with 1024 in *.
  pose proof (Z.div_le_mono (off mod 1024 + n + 1024 - 1) (n + 2 * 1024) 1024 ltac:(lia) ltac:(lia)).
  rewrite Z.div_add in * by lia. lia.
Qed.

(** The running process and its buffer do not depend on the cache. *)
Lemma root_frame p s s' : fs_frame s s' → k_cur s = Some p → root_of s' p = root_of s p.
Proof.
  intros F Hc. unfold root_of. destruct (ff_procs _ _ F) as [_ P]. by destruct (P p) as [->|(? & _)].
Qed.
Lemma uctx_frame p s s' : fs_frame s s' → k_mem s' = k_mem s → uctx p s → uctx p s'.
Proof.
  intros F Hm [H1 H2 H3 H4 H5 H6]. pose proof (root_frame p _ _ F H1) as Hr.
  assert (k_ly s' = k_ly s) as Hly by (by rewrite (ff_eq _ _ F)).
  split; rewrite ?Hr, ?Hm, ?Hly; try done.
  - by rewrite (fs_frame_cur _ _ F).
  - destruct (ff_procs _ _ F) as [-> _]. done.
Qed.
Lemma buffer_frame user p va n s s' :
  fs_frame s s' → k_mem s' = k_mem s → buffer user p va n s →
  buffer user p va n s' ∧ ∀ a, peek user s' p a = peek user s p a.
Proof.
  intros F Hm [H1 H2 H3 H4]. pose proof (root_frame p _ _ F (uc_cur _ _ H1)) as Hr.
  split; [|intros a; unfold peek; by rewrite Hr, Hm].
  split; rewrite ?Hr, ?Hm; try done. by eapply uctx_frame.
Qed.
(** The scratch area is rewritten. *)
Lemma buffer_scratch user p va n s m' :
  buffer user p va n s → mem_ok m' → (∀ a, ¬ scratch a → rd m' a = rd (k_mem s) a) →
  buffer user p va n (set_k_mem m' s) ∧
  ∀ i, 0 ≤ i < n → peek user (set_k_mem m' s) p (va + i) = peek user s p (va + i).
Proof.
  intros HB Hm Hs. pose proof (scratch_tabs p s m' (bf_ctx _ _ _ _ _ HB) Hs) as Ht.
  split; [by apply buffer_mem|]. intros i Hi. eapply peek_mem; [done|done|].
  intros a Ha. apply Hs. by eapply buffer_not_scratch.
Qed.

(** The buffer holds [data]. *)
Record holding (user : bool) (p : nat) (src : Z) (data : list Z) (s : kst) : Prop := {
  hd_buf : buffer user p src (Z.of_nat (length data)) s;
  hd_data i : (i < length data)%nat → peek user s p (src + Z.of_nat i) = data !! i;
}.
Lemma holding_frame user p src data s s' :
  fs_frame s s' → k_mem s' = k_mem s → holding user p src data s → holding user p src data s'.
Proof.
  intros F Hm [H1 H2]. destruct (buffer_frame _ _ _ _ _ _ F Hm H1) as [B P]. split; [done|].
  intros i Hi. by rewrite P, H2.
Qed.
Lemma holding_scratch user p src data s m' :
  holding user p src data s → mem_ok m' → (∀ a, ¬ scratch a → rd m' a = rd (k_mem s) a) →
  holding user p src data (set_k_mem m' s).
Proof.
  intros [H1 H2] Hm Hs. destruct (buffer_scratch _ _ _ _ _ _ H1 Hm Hs) as [B P]. split; [done|].
  intros i Hi. rewrite P by lia. by apply H2.
Qed.
Lemma holding_drop user p src data s k :
  holding user p src data s → (k ≤ length data)%nat →
  holding user p (src + Z.of_nat k) (drop k data) s.
Proof.
  intros [H1 H2] Hk. split.
  - rewrite length_drop, Nat2Z.inj_sub by done. apply buffer_drop; [done|lia].
  - intros i Hi. rewrite length_drop in Hi. rewrite lookup_drop, <- Z.add_assoc, <- Nat2Z.inj_add. apply H2. lia.
Qed.

(** The outcome of file input and output: inode [ip] is [x'], and memory may differ in the
    scratch area. *)
Record worked (ip : nat) (s s' : kst) (x' : inode) : Prop := {
  wk_ip : inode_of s' ip = x';
  wk_len : length (k_itable s') = length (k_itable s);
  wk_other j : j ≠ ip → inode_of s' j = inode_of s j;
  wk_mem a : ¬ scratch a → rd (k_mem s') a = rd (k_mem s) a;
  wk_ok : mem_ok (k_mem s) → mem_ok (k_mem s');
  wk_frame : fs_frame s s';
}.
Lemma worked_moved ip s s' x' : moved ip s s' x' → worked ip s s' x'.
Proof. intros [H1 H2 H3 H4 H5]. split; try done; by rewrite H4. Qed.
Lemma worked_trans ip s1 s2 s3 x2 x3 : worked ip s1 s2 x2 → worked ip s2 s3 x3 → worked ip s1 s3 x3.
Proof.
  intros [A1 A2 A3 A4 A5 A6] [B1 B2 B3 B4 B5 B6]. split; try congruence; [| |by auto|by etrans].
  - intros j Hj. by rewrite B3, A3.
  - intros a Ha. by rewrite B4, A4.
Qed.
Lemma worked_mem ip s m' :
  mem_ok m' → (∀ a, ¬ scratch a → rd m' a = rd (k_mem s) a) →
  worked ip s (set_k_mem m' s) (inode_of s ip).
Proof. intros Hm H. split; try done. apply side_fs_frame, side_mem. Qed.
Lemma worked_buffer ip user p va n s s' x :
  worked ip s s' x → buffer user p va n s → buffer user p va n s'.
Proof.
  intros W HB. pose proof (uc_mem _ _ (bf_ctx _ _ _ _ _ HB)) as Hm.
  destruct (buffer_scratch _ _ _ _ _ (k_mem s') HB (wk_ok _ _ _ _ W Hm) (wk_mem _ _ _ _ W)) as [HB' _].
  eapply (buffer_frame _ _ _ _ (set_k_mem (k_mem s') s)); [|done|done].
  destruct (wk_frame _ _ _ _ W) as [A1 A2 A3 A4]. by split.
Qed.

Lemma worked_tx ip s s' x : inode_of s ip = x → tx_frame s s' → worked ip s s' x.
Proof. intros <- F. by apply worked_moved, moved_tx. Qed.

Lemma expose_Ok d s : expose d s = Ok KOBJ (set_k_mem (wr_bytes (k_mem s) KOBJ d) s).
Proof. done. Qed.
Lemma expose_mem d m : (length d ≤ Z.to_nat BSIZE)%nat → mem_ok m →
  mem_ok (wr_bytes m KOBJ d) ∧ ∀ a, ¬ scratch a → rd (wr_bytes m KOBJ d) a = rd m a.
Proof.
  intros Hl Hm. split; [by apply mem_ok_wr_bytes|]. intros a Ha. rewrite rd_wr_bytes.
  rewrite decide_False; [done|]. unfold scratch in Ha. change BSIZE with 1024 in *. lia.
Qed.
Lemma holding_bytes user p src data s : holding user p src data s → Forall is_byte data.
Proof.
  intros [B H]. apply Forall_lookup. intros i b Hb. specialize (H i (lookup_lt_Some _ _ _ Hb)).
  rewrite Hb in H. unfold peek in H. destruct (target _ _ _ _) as [a|]; [|done]. simpl in H.
  injection H as <-. apply (uc_mem _ _ (bf_ctx _ _ _ _ _ B)).
Qed.

(** The copy of the next bytes of the buffer into the block: what [writei] does between
    [bread] and [log_write]. *)
Lemma fetch_Ok ip user p src data s d0 k :
  holding user p src data s → 0 ≤ k ≤ Z.of_nat (length data) → k ≤ BSIZE →
  (length d0 ≤ Z.to_nat BSIZE)%nat →
  ∃ s', (∀ A (F : Z → list Z → K A),
      (dst ← expose d0; r ← either_copyin dst user src k; d ← absorb k; F r d) s =
      F 0 (take (Z.to_nat k) data) s') ∧
    side s s' ∧ worked ip s s' (inode_of s ip) ∧ holding user p src data s'.
Proof.
  intros HD Hk Hk1 Hd0.
  pose proof (uc_mem _ _ (bf_ctx _ _ _ _ _ (hd_buf _ _ _ _ _ HD))) as Hmem.
  destruct (expose_mem d0 (k_mem s) ltac:(lia) Hmem) as [Hm1 Hs1].
  set (s1 := set_k_mem (wr_bytes (k_mem s) KOBJ d0) s). pose proof (holding_scratch _ _ _ _ _ _ HD Hm1 Hs1) as HD1. fold s1 in HD1.
  destruct (either_copyin_Ok _ _ _ _ _ (hd_buf _ _ _ _ _ HD1) k Hk Hk1) as (m2 & E2 & Hm2 & P2 & Hs2).
  set (s2 := set_k_mem m2 s1) in *.
  assert (rd_bytes (k_mem s2) KOBJ (Z.to_nat k) = take (Z.to_nat k) data) as Erd.
  { apply list_eq. intros i. destruct (decide (i < Z.to_nat k)%nat) as [Hi|Hi].
    - rewrite lookup_rd_bytes, lookup_take_lt by done.
      rewrite <- (hd_data _ _ _ _ _ HD1) by lia. rewrite P2 by lia. done.
    - rewrite lookup_take_ge by lia. apply lookup_ge_None_2. rewrite length_rd_bytes. lia. }
  exists s2. split.
  { intros A F. rewrite (bind_Ok _ _ _ _ _ (expose_Ok d0 s)), (bind_Ok _ _ _ _ _ E2).
    unfold absorb. by rewrite bind_gets, Erd. }
  split; [split; by destruct s|]. split; [|by apply holding_scratch].
  apply (worked_mem ip s m2); [done|]. intros a Ha. rewrite Hs2 by done. by apply Hs1.
Qed.

Lemma writei_step p s bs V ip fuel user src off n tot data :
  let sb := k_sb s in let start := lg_start (k_log s) in let x := inode_of s ip in
  fs_tx p s ∅ bs V → (ip < length (k_itable s))%nat → sok s V x → holding user p src data s →
  Z.of_nat (length data) = n - tot → 0 < n - tot → 0 ≤ off → off + (n - tot) ≤ MAXFILE * BSIZE →
  Z.of_nat (length bs) + 6 < LOGSIZE → (2 ≤ nfree sb V)%nat →
  let m := Z.min (n - tot) (BSIZE - off mod BSIZE) in
  ∃ s' bs' V' x',
    writei_loop (S fuel) ip user src off n tot s =
      writei_loop fuel ip user (src + m) (off + m) n (tot + m) s' ∧
    fs_tx p s' ∅ bs' V' ∧ worked ip s s' x' ∧ inode_ok sb start V' x' ∧
    fwrite sb start V x V' x' off (take (Z.to_nat m) data) ∧
    holding user p (src + m) (drop (Z.to_nat m) data) s' ∧
    (nfree sb V ≤ nfree sb V' + 2)%nat ∧ (length bs' ≤ length bs + 6)%nat.
Proof.
  intros sb start x HT Hip Hok HD Hlen Hn Hoff Hmax Hl Hnf m.
  pose proof (Z.mod_pos_bound off BSIZE ltac:(done)) as Hmod.
  pose proof (bf_range _ _ _ _ _ (hd_buf _ _ _ _ _ HD)) as Hr.
  assert (0 < m ∧ m ≤ BSIZE ∧ m ≤ n - tot) as (Hm0 & Hm1 & Hm2) by (unfold m; lia).
  cbn [writei_loop]. rewrite (proj2 (Z.leb_gt _ _)) by lia.
  destruct (bmap_Ok p s bs V ip (off / BSIZE) HT Hip Hok) as
    (s1 & bs1 & V1 & x1 & E1 & T1 & M1 & K1 & G1 & Hb & Hnf1 & Hl1); [apply div_range; lia|lia|done|].
  fold sb start x in K1, G1, Hnf1. set (b := fblk V1 x1 (off / BSIZE)) in *.
  rewrite (bind_Ok _ _ _ _ _ E1), bind_gets.
  rewrite (mv_ip _ _ _ _ M1), (ik_dev _ _ _ _ K1). pose proof (ft_inv _ _ _ _ _ T1) as TI1.
  assert (0 ≤ off / BSIZE < MAXFILE) as Hbn by (apply div_range; lia).
  destruct (ik_use _ _ _ _ K1 _ Hbn Hb) as [[Db _] _]. fold b in Db.
  destruct (tx_read p s1 ∅ ∅ bs1 V1 b TI1) as (bp & s2 & E2 & T2 & Hbp & _ & C2 & D2 & F2 & _);
    [done|set_solver|rewrite size_empty; unfold NBUF, LOGSIZE, MAXOPBLOCKS in *; lia|].
  rewrite (bind_Ok _ _ _ _ _ E2). cbv zeta. fold m. rewrite bind_gets, D2.
  set (d0 := slice (V1 b) _ _).
  assert (length d0 ≤ Z.to_nat BSIZE)%nat as Hd0 by (unfold d0, slice; rewrite length_take; lia).
  assert (fs_frame s s2) as F02 by (etrans; [apply (mv_frame _ _ _ _ M1)|by apply tx_fs_frame]).
  assert (k_mem s2 = k_mem s) as Em by (rewrite (proj2 (tx_itable _ _ F2)); apply (mv_mem _ _ _ _ M1)).
  pose proof (holding_frame _ _ _ _ _ _ F02 Em HD) as HD2.
  destruct (fetch_Ok ip user p src data s2 d0 m) as (s4 & E4 & S4 & Wk4 & HD4); [done|lia|done|done|].
  rewrite E4. clear E4.
  change (0 =? -1) with false. cbv iota. set (dat := take (Z.to_nat m) data).
  assert (length dat = Z.to_nat m) as Hdat by (unfold dat; rewrite length_take; lia).
  assert (k_log s4 = k_log s2 ∧ k_bufs s4 = k_bufs s2) as [El Eb] by (by rewrite (sd_eq _ _ S4)).
  pose proof (tx_length _ _ _ _ _ b TI1) as Hlb.
  destruct (tx_modify p s4 ∅ ∅ bs1 V1 bp b (λ d, splice d (Z.to_nat (off mod BSIZE)) dat))
    as (s5 & E5 & T5 & _ & F5); [by eapply side_inv|done|done| | | | |lia| |].
  { unfold cached, buf_of. by rewrite Eb. }
  { rewrite El, (ff_start _ _ F02). apply Db. }
  { eapply data_blockno; [apply HT|exact Db]. }
  { rewrite El, (ff_out _ _ F02). apply HT. }
  { rewrite length_splice; [done|]. rewrite Hlb, Hdat. lia. }
  rewrite (seq3_Ok _ _ _ _ _ _ E5). rewrite (u64_id (src + m)), (u32_id (off + m)) by (fsnum; lia).
  destruct (fwrite_chunk sb start V x V1 x1 off dat) as (W1 & W2 & W3 & W4); try done.
  { apply HT. }
  { pose proof (ft_bitmap _ _ _ _ _ T1) as HB1.
    by rewrite (fs_frame_sb _ _ (mv_frame _ _ _ _ M1)), (ff_start _ _ (mv_frame _ _ _ _ M1)) in HB1. }
  { rewrite Hdat. lia. }
  { intros E. rewrite E in Hdat. simpl in Hdat. lia. }
  { rewrite Hdat. lia. }
  { apply Forall_take. by eapply holding_bytes. }
  fold b in W1, W2, W3, W4. set (V2 := supd V1 b _) in *.
  assert (worked ip s s5 x1) as Wk.
  { eapply worked_trans; [by apply worked_moved|]. pose proof (mv_ip _ _ _ _ M1) as Ei.
    eapply worked_trans; [by apply (worked_tx ip s1 s2 x1)|].
    assert (inode_of s2 ip = x1) as Ei2 by (by rewrite (wk_ip _ _ _ _ (worked_tx ip s1 s2 x1 Ei F2))).
    rewrite Ei2 in Wk4. eapply worked_trans; [exact Wk4|].
    by apply (worked_tx ip s4 s5 x1); [apply (wk_ip _ _ _ _ Wk4)|]. }
  exists s5, (logged bs1 b), V2, x1. pose proof (length_logged bs1 b). pose proof (wk_frame _ _ _ _ Wk) as F05.
  split; [done|]. split; [split; [done| |]|].
  - by rewrite (fs_frame_sb _ _ F05), (ff_start _ _ F05).
  - rewrite (ff_out _ _ F05). apply HT.
  - do 3 (split; [done|]). split; [|lia].
    replace (src + m) with (src + Z.of_nat (Z.to_nat m)) by lia. apply holding_drop; [|lia].
    by eapply holding_frame; [apply tx_fs_frame|apply tx_itable, F5|].
Qed.

Lemma writei_loop_Ok p ip user n fuel : ∀ s bs V src off tot data,
  let sb := k_sb s in let start := lg_start (k_log s) in let x := inode_of s ip in
  let k := nblks off (n - tot) in
  fs_tx p s ∅ bs V → (ip < length (k_itable s))%nat → sok s V x → holding user p src data s →
  Z.of_nat (length data) = n - tot → 0 ≤ off → off + (n - tot) ≤ MAXFILE * BSIZE →
  k < Z.of_nat fuel → Z.of_nat (length bs) + 6 * k < LOGSIZE → 2 * k ≤ Z.of_nat (nfree sb V) →
  ∃ s' bs' V' x', writei_loop fuel ip user src off n tot s = Ok (n, off + (n - tot)) s' ∧
    fs_tx p s' ∅ bs' V' ∧ worked ip s s' x' ∧ inode_ok sb start V' x' ∧
    fwrite sb start V x V' x' off data ∧
    Z.of_nat (length bs') ≤ Z.of_nat (length bs) + 6 * k.
Proof.
  induction fuel as [|fuel IH]; intros s bs V src off tot data sb start x k HT Hip Hok HD Hlen Hoff Hmax Hf Hl Hnf.
  { pose proof (nblks_pos off (n - tot) ltac:(lia)). lia. }
  destruct (decide (n - tot = 0)) as [Hz|Hn].
  { exists s, bs, V, x. cbn [writei_loop]. rewrite (proj2 (Z.leb_le _ _)) by lia.
    destruct data; [|simpl in Hlen; lia]. unfold k, nblks. rewrite Hz. simpl.
    split; [unfold mret, M_ret; do 2 f_equal; lia|]. split; [done|].
    split; [by apply worked_moved, moved_tx|]. split; [done|]. split; [apply fwrite_nil|lia]. }
  pose proof (nblks_step off (n - tot) Hoff ltac:(lia)) as Hk. cbv zeta in Hk. fold k in Hk.
  set (m := Z.min (n - tot) (BSIZE - off mod BSIZE)) in *.
  pose proof (Z.mod_pos_bound off BSIZE ltac:(done)) as Hmod.
  assert (0 < m ≤ n - tot) as Hm by (unfold m; lia).
  pose proof (nblks_pos (off + m) (n - tot - m) ltac:(lia)) as Hk0.
  destruct (writei_step p s bs V ip fuel user src off n tot data HT Hip Hok HD Hlen)
    as (s1 & bs1 & V1 & x1 & E1 & T1 & Wk1 & K1 & W1 & HD1 & Hnf1 & Hl1); try done; try lia.
  { fold sb. lia. }
  fold m in E1, W1, HD1. fold sb start x in K1, W1, Hnf1. pose proof (wk_frame _ _ _ _ Wk1) as F1.
  pose proof (fs_frame_sb _ _ F1) as Esb. pose proof (ff_start _ _ F1) as Est. fold sb in Esb. fold start in Est.
  destruct (IH s1 bs1 V1 (src + m) (off + m) (tot + m) (drop (Z.to_nat m) data))
    as (s2 & bs2 & V2 & x2 & E2 & T2 & Wk2 & K2 & W2 & Hl2);
    rewrite ?Esb, ?Est, ?(wk_ip _ _ _ _ Wk1), ?(wk_len _ _ _ _ Wk1), ?length_drop; try done; try lia.
  1-3: replace (n - (tot + m)) with (n - tot - m) by lia; lia.
  replace (n - (tot + m)) with (n - tot - m) in * by lia. rewrite Esb, Est, (wk_ip _ _ _ _ Wk1) in *.
  exists s2, bs2, V2, x2. split; [rewrite E1, E2; do 2 f_equal; lia|]. split; [done|].
  split; [by eapply worked_trans|]. split; [done|]. split; [|lia].
  rewrite <- (take_drop (Z.to_nat m) data). 
  assert (Z.of_nat (length (take (Z.to_nat m) data)) = m) as Et by (rewrite length_take; lia).
  eapply fwrite_app; [done| |exact W1|by rewrite Et]. rewrite Et, length_drop. lia.
Qed.

(** ** iupdate *)

Definition inode_at (V : Z → list Z) (sb : superblock) (i : Z) : dinode :=
  get_dinode (V (IBLOCK i sb)) (dinode_off i).
Definition updated (sb : superblock) (V : Z → list Z) (x : inode) : Z → list Z :=
  supd V (IBLOCK (i_inum x) sb)
    (put_dinode (V (IBLOCK (i_inum x) sb)) (dinode_off (i_inum x)) (dinode_of x)).

(** The entry of the inode is its new contents, other inodes are as before. *)
Lemma updated_at sb V x i :
  (∀ n, length (V n) = Z.to_nat BSIZE) → 0 ≤ i_inum x → 0 ≤ i → dinode_ok (dinode_of x) →
  inode_at (updated sb V x) sb i = if decide (i = i_inum x) then dinode_of x else inode_at V sb i.
Proof.
  intros Hl Hx Hi Hok. unfold inode_at, updated.
  pose proof (dinode_off_ok _ Hx) as Hox. case_decide as E.
  - subst. rewrite supd_eq. apply get_put_dinode; [by rewrite Hl|done].
  - destruct (decide (IBLOCK i sb = IBLOCK (i_inum x) sb)) as [EI|EI]; [|by rewrite supd_ne].
    rewrite EI, supd_eq. apply get_put_dinode_ne; [by rewrite Hl|apply Hok|].
    eapply dinode_off_apart; done.
Qed.

Lemma iupdate_Ok p s bs V ip :
  let sb := k_sb s in let x := inode_of s ip in
  fs_tx p s ∅ bs V → sok s V x → 0 ≤ i_inum x < sb_ninodes sb → Z.of_nat (length bs) < LOGSIZE - 1 →
  ∃ s', iupdate ip s = Ok () s' ∧ fs_tx p s' ∅ (logged bs (IBLOCK (i_inum x) sb)) (updated sb V x) ∧
    moved ip s s' x.
Proof.
  intros sb x HT Hok Hi Hl. pose proof HT as [T HB Ho].
  pose proof (bm_layout _ _ _ HB) as HL. destruct (ly_inode _ _ HL _ Hi) as [Hio Hib].
  unfold iupdate. rewrite !bind_gets. fold x sb. rewrite (ik_dev _ _ _ _ Hok).
  destruct (tx_update p s ∅ ∅ bs V (IBLOCK (i_inum x) sb)
    (λ d, put_dinode d (dinode_off (i_inum x)) (dinode_of x)) T) as (bp & s1 & s2 & E1 & _ & F1 & E2 & T2 & _ & F2);
    try done.
  { rewrite size_empty. unfold NBUF, LOGSIZE, MAXOPBLOCKS in *. lia. }
  { pose proof (tx_length _ _ _ _ _ (IBLOCK (i_inum x) sb) T) as Hlen.
    pose proof (dinode_off_ok (i_inum x) ltac:(lia)).
    rewrite length_put_dinode; [done|by rewrite Hlen|apply Hok]. }
  exists s2. rewrite (bind_Ok _ _ _ _ _ E1). split; [done|]. split; [|by apply moved_tx].
  pose proof (tx_fs_frame _ _ F2) as F. split; [done| |by rewrite (ff_out _ _ F)].
  rewrite (fs_frame_sb _ _ F), (ff_start _ _ F).
  apply (view_same _ _ V _ x); try done. intros n Hn. apply supd_ne. by apply Hn.
Qed.

Lemma set_i_size_id x : set_i_size (i_size x) x = x.
Proof. by destruct x. Qed.
Lemma inode_ok_size sb start V x v : inode_ok sb start V x → inode_ok sb start V (set_i_size v x).
Proof. intros [H1 H2 H3 H4 H5]. by split. Qed.

(** ** writei *)

(** A file: a consistent inode whose blocks below its size are mapped. *)
Record file_ok (sb : superblock) (start : Z) (V : Z → list Z) (x : inode) : Prop := {
  fk_inode : inode_ok sb start V x;
  fk_dinode : dinode_ok (dinode_of x);
  fk_inum : 0 ≤ i_inum x < sb_ninodes sb;
  fk_size : i_size x ≤ MAXFILE * BSIZE;
  fk_mapped o : 0 ≤ o < i_size x → fblk V x (o / BSIZE) ≠ 0;
}.

Lemma addr_range sb start V x i :
  layout_ok sb start → inode_ok sb start V x → 0 ≤ i ≤ NDIRECT → 0 ≤ addr x i < 2 ^ 30.
Proof.
  intros HL Hok Hi. pose proof (ly_size _ _ HL).
  destruct (decide (addr x i = 0)) as [->|Hn]; [lia|].
  assert (in_use sb start V (addr x i)) as [D _]; [|pose proof (db_range _ _ _ D); lia].
  destruct (decide (i = NDIRECT)) as [->|Hne]; [by apply (ik_ind _ _ _ _ Hok)|].
  assert (fblk V x i = addr x i) as E by (unfold fblk; by rewrite (proj2 (Z.ltb_lt _ _)) by lia).
  rewrite <- E in Hn |- *. apply (ik_use _ _ _ _ Hok); [fsnum; lia|done].
Qed.
Lemma dinode_ok_upd sb start V x y :
  layout_ok sb start → inode_ok sb start V y → dinode_ok (dinode_of x) →
  y = set_i_size (i_size y) (set_i_addrs (i_addrs y) x) → 0 ≤ i_size y < 2 ^ 32 →
  dinode_ok (dinode_of y).
Proof.
  intros HL Hok [H1 H2 H3 H4 H5 H6 H7] E Hs.
  split; [rewrite E; done|rewrite E; done|rewrite E; done|rewrite E; done|done|apply Hok|].
  apply Forall_lookup. intros i a Ha. simpl in Ha.
  pose proof (lookup_lt_Some _ _ _ Ha) as Hi. rewrite (ik_addrs _ _ _ _ Hok) in Hi.
  pose proof (addr_range sb start V y (Z.of_nat i) HL Hok) as Hr. unfold addr in Hr.
  rewrite Nat2Z.id, Ha in Hr. simpl in Hr. fsnum. lia.
Qed.

(** The effect of [writei]. *)
Record file_written (sb : superblock) (start : Z) (V : Z → list Z) (x : inode)
    (V' : Z → list Z) (x' : inode) (off : Z) (data : list Z) : Prop := {
  fl_byte o : 0 ≤ o < MAXFILE * BSIZE → fbyte V' x' o =
    if decide (off ≤ o < off + Z.of_nat (length data)) then default 0 (data !! Z.to_nat (o - off))
    else fbyte V x o;
  fl_size : i_size x' = Z.max (i_size x) (off + Z.of_nat (length data));
  fl_fields : x' = set_i_size (i_size x') (set_i_addrs (i_addrs x') x);
  fl_other n : in_use sb start V n → ¬ mine V x n → V' n = V n;
  fl_disk i : 0 ≤ i < sb_ninodes sb → inode_at V' sb i =
    if decide (i = i_inum x) then dinode_of x' else inode_at V sb i;
}.

Lemma file_written_ok sb start V x V1 x1 off data :
  let x' := set_i_size (Z.max (i_size x) (off + Z.of_nat (length data))) x1 in
  bitmap_ok sb start V1 → file_ok sb start V x → inode_ok sb start V1 x1 →
  (∀ n, length (V1 n) = Z.to_nat BSIZE) →
  fwrite sb start V x V1 x1 off data → 0 ≤ off ≤ i_size x →
  off + Z.of_nat (length data) ≤ MAXFILE * BSIZE →
  file_ok sb start (updated sb V1 x') x' ∧ file_written sb start V x (updated sb V1 x') x' off data.
Proof.
  intros x' HB [K1 K2 K3 K4 K5] Hok Hlen W Hoff Hmax. pose proof (bm_layout _ _ _ HB) as HL.
  pose proof (inode_ok_size sb start V1 x1 (i_size x') Hok : inode_ok sb start V1 x') as Hok'.
  assert (x' = set_i_size (i_size x') (set_i_addrs (i_addrs x') x)) as Ex.
  { unfold x'. rewrite (fw_fields _ _ _ _ _ _ _ _ W) at 1. done. }
  assert (i_inum x' = i_inum x) as Ei by (by rewrite Ex).
  assert (dinode_ok (dinode_of x')) as Hd.
  { eapply (dinode_ok_upd _ _ V1 x); try done. simpl. fsnum. lia. }
  destruct (view_same sb start V1 (updated sb V1 x') x' HL) as (U1 & U2 & U3 & U4 & U5 & U6); try done.
  { intros n Hn. apply supd_ne, Hn. by rewrite Ei. }
  split; split; try done.
  - by rewrite Ei.
  - simpl. lia.
  - intros o Ho. simpl in Ho. rewrite U4 by (apply div_range; lia).
    change (fblk V1 x' (o / BSIZE)) with (fblk V1 x1 (o / BSIZE)).
    destruct (decide (off ≤ o < off + Z.of_nat (length data))); [by apply (fw_mapped _ _ _ _ _ _ _ _ W)|].
    rewrite (fw_keep _ _ _ _ _ _ _ _ W); [apply K5; lia|apply div_range; lia|apply K5; lia].
  - intros o Ho. rewrite U5 by done. by apply (fw_byte _ _ _ _ _ _ _ _ W).
  - intros n Hu Hm. unfold updated. rewrite supd_ne; [by apply (fw_other _ _ _ _ _ _ _ _ W)|].
    intros ->. destruct Hu as [D _]. apply (db_inode _ _ _ D (i_inum x')); [by rewrite Ei|done].
  - intros i Hi. rewrite updated_at by (done || rewrite ?Ei; lia). rewrite Ei. case_decide; [done|].
    unfold inode_at. by rewrite (fw_inodes _ _ _ _ _ _ _ _ W).
Qed.

Lemma writei_Ok p s bs V ip user src off data :
  let sb := k_sb s in let start := lg_start (k_log s) in let x := inode_of s ip in
  let n := Z.of_nat (length data) in
  fs_tx p s ∅ bs V → (ip < length (k_itable s))%nat → file_ok sb start V x →
  holding user p src data s → 0 ≤ off ≤ i_size x → off + n ≤ MAXFILE * BSIZE →
  Z.of_nat (length bs) + 6 * nblks off n + 1 < LOGSIZE → 2 * nblks off n ≤ Z.of_nat (nfree sb V) →
  ∃ s' bs' V' x', writei ip user src off n s = Ok n s' ∧ fs_tx p s' ∅ bs' V' ∧
    worked ip s s' x' ∧ file_ok sb start V' x' ∧ file_written sb start V x V' x' off data.
Proof.
  intros sb start x n HT Hip HF HD Hoff Hmax Hl Hnf. unfold writei. rewrite bind_gets. fold x.
  assert (0 ≤ n) as Hn by (unfold n; lia). rewrite (u32_id (off + n)) by (fsnum; lia).
  rewrite (proj2 (Z.ltb_ge (i_size x) off)), (proj2 (Z.ltb_ge (off + n) off)) by lia.
  cbv [orb]. rewrite (proj2 (Z.ltb_ge _ _)) by (fsnum; lia).
  pose proof (nblks_fuel off n Hn) as Hfuel.
  destruct (writei_loop_Ok p ip user n (io_fuel n) s bs V src off 0 data HT Hip) as
    (s1 & bs1 & V1 & x1 & E1 & T1 & Wk1 & K1 & W1 & Hl1); rewrite ?Z.sub_0_r; try done; try apply HF; try lia.
  rewrite Z.sub_0_r in *. rewrite (bind_Ok _ _ _ _ _ E1). cbv beta iota. rewrite bind_gets.
  rewrite (wk_ip _ _ _ _ Wk1). fold sb start x in K1, W1.
  assert (i_size x1 = i_size x) as Es by (by rewrite (fw_fields _ _ _ _ _ _ _ _ W1)). rewrite Es.
  pose proof (wk_frame _ _ _ _ Wk1) as F1. pose proof (ft_inv _ _ _ _ _ T1) as TI1.
  pose proof (fs_frame_sb _ _ F1) as Esb. pose proof (ff_start _ _ F1) as Est. fold sb in Esb. fold start in Est.
  set (v := Z.max (i_size x) (off + n)).
  set (s2 := if i_size x <? off + n then upd_inode ip (set_i_size (off + n)) s1 else s1).
  assert (when (i_size x <? off + n) (modify (upd_inode ip (set_i_size (off + n)))) s1 = Ok () s2) as E2.
  { unfold s2. by destruct (i_size x <? off + n). }
  assert (moved ip s1 s2 (set_i_size v x1)) as M2.
  { unfold s2, v. rewrite <- (wk_ip _ _ _ _ Wk1). destruct (Z.ltb_spec (i_size x) (off + n)).
    - rewrite Z.max_r by lia. apply moved_upd. by rewrite (wk_len _ _ _ _ Wk1).
    - rewrite Z.max_l by lia. rewrite (wk_ip _ _ _ _ Wk1), <- Es, set_i_size_id.
      rewrite <- (wk_ip _ _ _ _ Wk1). by apply moved_tx. }
  rewrite (bind_Ok _ _ _ _ _ E2). pose proof (mv_frame _ _ _ _ M2) as F2.
  pose proof (ft_bitmap _ _ _ _ _ T1) as HB1. rewrite Esb, Est in HB1.
  destruct (file_written_ok sb start V x V1 x1 off data) as [G1 G2]; try done.
  { intros m. by eapply tx_length. }
  pose proof (moved_sok _ _ _ _ V1 M2) as Hok2. rewrite Esb, Est in Hok2.
  specialize (Hok2 (inode_ok_size _ _ _ _ _ K1)).
  assert (i_inum x1 = i_inum x) as Ei by (by rewrite (fw_fields _ _ _ _ _ _ _ _ W1)).
  destruct (iupdate_Ok p s2 bs1 V1 ip) as (s3 & E3 & T3 & M3).
  - eapply fs_tx_frame; [done|done|]. unfold s2. destruct (_ <? _); [|done].
    eapply side_inv; [apply side_inode|done].
  - done.
  - rewrite (mv_ip _ _ _ _ M2), (fs_frame_sb _ _ F2), Esb. simpl. rewrite Ei. apply HF.
  - lia.
  - rewrite (mv_ip _ _ _ _ M2), (fs_frame_sb _ _ F2), Esb in *.
    rewrite (bind_Ok _ _ _ _ _ E3). exists s3. eexists _, _, (set_i_size v x1).
    split; [done|]. split; [exact T3|]. split; [|done].
    eapply worked_trans; [exact Wk1|]. apply worked_moved. by eapply moved_trans.
Qed.

(** ** readi *)

(** [len] bytes arrive at the buffer [dst]; nothing else changes but the scratch area. *)
Record delivered (user : bool) (p : nat) (dst len : Z) (f : Z → Z) (s s' : kst) : Prop := {
  dl_byte i : 0 ≤ i < len → peek user s' p (dst + i) = Some (f i);
  dl_rest a : ¬ scratch a →
    (∀ i, 0 ≤ i < len → target user (k_mem s) (root_of s p) (dst + i) ≠ Some a) →
    rd (k_mem s') a = rd (k_mem s) a;
  dl_mem : mem_ok (k_mem s');
  dl_tabs : same_tabs (k_mem s) (k_mem s') (root_of s p);
  dl_itable : k_itable s' = k_itable s;
  dl_frame : fs_frame s s';
}.

Lemma delivered_tx user p dst f s s' :
  mem_ok (k_mem s) → tx_frame s s' → delivered user p dst 0 f s s'.
Proof.
  intros Hm F. destruct (tx_itable _ _ F) as [E1 E2].
  split; rewrite ?E2; try done; [intros i Hi; lia|by apply tx_fs_frame].
Qed.
Lemma delivered_buffer user p dst n k f s s' :
  buffer user p dst n s → delivered user p dst k f s s' → 0 ≤ k ≤ n → buffer user p dst n s'.
Proof.
  intros HB D Hk. pose proof (dl_frame _ _ _ _ _ _ _ D) as F.
  pose proof (bf_ctx _ _ _ _ _ HB) as Hc. pose proof (root_frame p _ _ F (uc_cur _ _ Hc)) as Hr.
  destruct (buffer_mem _ _ _ _ _ HB (k_mem s') (dl_mem _ _ _ _ _ _ _ D) (dl_tabs _ _ _ _ _ _ _ D)) as [B1 B2 B3 B4].
  change (root_of (set_k_mem (k_mem s') s) p) with (root_of s p) in *. simpl in B3, B4.
  split; rewrite ?Hr; try done. destruct B1 as [C1 C2 C3 C4 C5 C6].
  assert (k_ly s' = k_ly s) as Hly by (by rewrite (ff_eq _ _ F)).
  split; try done; [by rewrite (fs_frame_cur _ _ F)|by destruct (ff_procs _ _ F) as [-> _]|by rewrite Hr, Hly|by rewrite Hly].
Qed.
Lemma delivered_app user p dst n k1 k2 f g s1 s2 s3 :
  buffer user p dst n s1 → 0 ≤ k1 → 0 ≤ k2 → k1 + k2 ≤ n →
  delivered user p dst k1 f s1 s2 → delivered user p (dst + k1) k2 g s2 s3 →
  (∀ i, 0 ≤ i < k2 → g i = f (k1 + i)) → delivered user p dst (k1 + k2) f s1 s3.
Proof.
  intros HB Hk1 Hk2 Hn [A1 A2 A3 A4 A5 A6] [B1 B2 B3 B4 B5 B6] Hg.
  pose proof (bf_ctx _ _ _ _ _ HB) as Hc. pose proof (root_frame p _ _ A6 (uc_cur _ _ Hc)) as Hr.
  assert (k_cur s2 = Some p) as Hc2 by (rewrite (fs_frame_cur _ _ A6); apply Hc).
  pose proof (root_frame p _ _ B6 Hc2) as Hr3.
  assert (∀ va, target user (k_mem s2) (root_of s2 p) va = target user (k_mem s1) (root_of s1 p) va) as Ht.
  { intros va. rewrite Hr. by apply target_tabs. }
  assert (same_tabs (k_mem s1) (k_mem s3) (root_of s1 p)) as Hts.
  { rewrite Hr in B4. by eapply same_tabs_trans. }
  split; try done; try congruence; [| |by etrans].
  - intros i Hi. destruct (decide (i < k1)) as [Hlt|Hge].
    + specialize (A1 i ltac:(lia)). rewrite <- A1. unfold peek. rewrite Hr3, Ht.
      rewrite (target_tabs _ (k_mem s1)), Hr by (by rewrite ?Hr). 
      destruct (target user (k_mem s1) (root_of s1 p) (dst + i)) as [a|] eqn:E; [|done]. simpl. f_equal.
      apply B2; [eapply (buffer_not_scratch _ _ _ _ _ HB); [|exact E]; lia|].
      intros j Hj. rewrite Ht, <- Z.add_assoc. intros E'.
      pose proof (target_inj _ _ _ _ _ HB _ _ _ E E'). lia.
    + specialize (B1 (i - k1) ltac:(lia)). replace (dst + k1 + (i - k1)) with (dst + i) in B1 by lia.
      rewrite B1, Hg by lia. do 2 f_equal. lia.
  - intros a Ha Hx. rewrite B2, A2; [done|done| |done|].
    + intros i Hi. apply Hx. lia.
    + intros i Hi. rewrite Ht, <- Z.add_assoc. apply Hx. lia.
Qed.

Lemma delivered_ext user p dst k f g s s' :
  (∀ i, 0 ≤ i < k → f i = g i) → delivered user p dst k f s s' → delivered user p dst k g s s'.
Proof. intros H [A1 A2 A3 A4 A5 A6]. split; try done. intros i Hi. by rewrite <- H, A1. Qed.
(** Steps that do not touch memory before and after. *)
Lemma delivered_frame user p dst k f s0 s s' s'' :
  uctx p s0 → fs_frame s0 s → k_mem s = k_mem s0 → k_itable s = k_itable s0 →
  delivered user p dst k f s s' → tx_frame s' s'' → delivered user p dst k f s0 s''.
Proof.
  intros Hc F Hm Hi [A1 A2 A3 A4 A5 A6] F'. pose proof (root_frame p _ _ F (uc_cur _ _ Hc)) as Hr.
  destruct (tx_itable _ _ F') as [Ei Em]. rewrite Hr, Hm in *.
  assert (k_cur s' = Some p) as Hc'.
  { rewrite (fs_frame_cur _ _ A6), (fs_frame_cur _ _ F). apply Hc. }
  pose proof (root_frame p _ _ (tx_fs_frame _ _ F') Hc') as Hr'.
  split; rewrite ?Em; try done; [|congruence|].
  - intros i Hk. unfold peek. rewrite Em, Hr'. by apply A1.
  - etrans; [done|]. etrans; [done|]. by apply tx_fs_frame.
Qed.
Lemma moved_same ip s s' : moved ip s s' (inode_of s ip) → k_itable s' = k_itable s.
Proof.
  intros [H1 H2 H3 _ _]. apply (list_eq_same_length _ _ _ eq_refl); [done|]. intros j x y Hj Hx Hy.
  assert (inode_of s' j = inode_of s j) as E by (destruct (decide (j = ip)) as [->|]; auto).
  unfold inode_of in E. by rewrite Hx, Hy in E.
Qed.

Lemma deliver_Ok user p dst n s d :
  let k := Z.of_nat (length d) in
  buffer user p dst n s → k ≤ n → k ≤ BSIZE →
  ∃ s', (∀ A (F : Z → K A),
      (src ← expose d; r ← either_copyout user dst src k; F r) s = F 0 s') ∧ side s s' ∧
    delivered user p dst k (λ i, u8 (default 0 (d !! Z.to_nat i))) s s'.
Proof.
  intros k HB Hk Hk1. pose proof (uc_mem _ _ (bf_ctx _ _ _ _ _ HB)) as Hmem.
  destruct (expose_mem d (k_mem s) ltac:(lia) Hmem) as [Hm1 Hs1].
  set (m1 := wr_bytes (k_mem s) KOBJ d) in *. set (s1 := set_k_mem m1 s).
  destruct (buffer_scratch _ _ _ _ _ _ HB Hm1 Hs1) as [HB1 _]. fold s1 in HB1.
  pose proof (scratch_tabs p s m1 (bf_ctx _ _ _ _ _ HB) Hs1) as Ht1.
  destruct (either_copyout_Ok _ _ _ _ _ HB1 k ltac:(lia) Hk1) as (m2 & E2 & Hm2 & Ht2 & P2 & R2).
  exists (set_k_mem m2 s1). split.
  { intros A F. by rewrite (bind_Ok _ _ _ _ _ (expose_Ok d s)), (bind_Ok _ _ _ _ _ E2). }
  split; [split; by destruct s|]. split.
  - intros i Hi. rewrite P2 by done. f_equal. simpl. unfold m1. rewrite rd_wr_bytes, decide_True by lia.
    do 4 f_equal. lia.
  - intros a Ha Hx. simpl. rewrite R2; [by apply Hs1|]. intros i Hi.
    change (root_of s1 p) with (root_of s p). simpl. rewrite (target_tabs _ (k_mem s)) by done. by apply Hx.
  - done.
  - by eapply same_tabs_trans.
  - done.
  - apply (side_fs_frame s (set_k_mem m2 s1)). split. by destruct s.
Qed.

Lemma readi_step p s bs V ip fuel user dst off n tot len :
  let sb := k_sb s in let start := lg_start (k_log s) in let x := inode_of s ip in
  let m := Z.min (n - tot) (BSIZE - off mod BSIZE) in
  fs_tx p s ∅ bs V → (ip < length (k_itable s))%nat → sok s V x → (length bs < NBUF)%nat →
  buffer user p dst len s → 0 < n - tot ≤ len → 0 ≤ off → off + (n - tot) ≤ MAXFILE * BSIZE →
  fblk V x (off / BSIZE) ≠ 0 →
  ∃ s', readi_loop (S fuel) ip user dst off n tot s =
      readi_loop fuel ip user (dst + m) (off + m) n (tot + m) s' ∧
    fs_tx p s' ∅ bs V ∧ delivered user p dst m (λ i, fbyte V x (off + i)) s s'.
Proof.
  intros sb start x m HT Hip Hok Hnb HB Hn Hoff Hmax Hb.
  pose proof (Z.mod_pos_bound off BSIZE ltac:(done)) as Hmod.
  pose proof (bf_range _ _ _ _ _ HB) as Hr.
  assert (0 < m ∧ m ≤ BSIZE - off mod BSIZE ∧ m ≤ n - tot) as (Hm0 & Hm1 & Hm2) by (unfold m; lia).
  cbn [readi_loop]. rewrite (proj2 (Z.leb_gt _ _)) by lia.
  destruct (bmap_hit p s bs V ip (off / BSIZE) HT Hip Hok) as (s1 & E1 & T1 & M1);
    [apply div_range; lia|done|done|]. fold x in E1, M1. set (b := fblk V x (off / BSIZE)) in *.
  rewrite (bind_Ok _ _ _ _ _ E1), bind_gets, (mv_ip _ _ _ _ M1), (ik_dev _ _ _ _ Hok).
  pose proof (ft_inv _ _ _ _ _ T1) as TI1.
  destruct (tx_read p s1 ∅ ∅ bs V b TI1) as (bp & s2 & E2 & T2 & Hbp & _ & C2 & D2 & F2 & _);
    [done|set_solver|by rewrite size_empty|].
  rewrite (bind_Ok _ _ _ _ _ E2). cbv zeta. fold m. rewrite bind_gets, D2.
  set (d := slice (V b) (Z.to_nat (off mod BSIZE)) (Z.to_nat m)).
  pose proof (tx_length _ _ _ _ _ b TI1) as Hlb.
  assert (Z.of_nat (length d) = m) as Hd by (unfold d, slice; rewrite length_take, length_drop; lia).
  assert (fs_frame s s2) as F02 by (etrans; [apply (mv_frame _ _ _ _ M1)|by apply tx_fs_frame]).
  assert (k_mem s2 = k_mem s) as Em by (rewrite (proj2 (tx_itable _ _ F2)); apply (mv_mem _ _ _ _ M1)).
  assert (k_itable s2 = k_itable s1) as Et2 by apply (tx_itable _ _ F2).
  destruct (buffer_frame _ _ _ _ _ _ F02 Em HB) as [HB2 _].
  destruct (deliver_Ok user p dst len s2 d HB2 ltac:(lia) ltac:(lia)) as (s3 & E3 & S3 & D3).
  rewrite Hd in *. rewrite E3. change (0 =? -1) with false. cbv iota.
  assert (k_bufs s3 = k_bufs s2 ∧ k_disk s3 = k_disk s2) as [Eb Ed] by (by rewrite (sd_eq _ _ S3)).
  destruct (tx_brelse p s3 ({[bp]} ∪ ∅) bs V bp b) as (s4 & E4 & T4 & _ & F4).
  { by eapply side_inv. }
  { apply held_one. }
  { unfold cached, buf_of. by rewrite Eb. }
  { rewrite Ed, (tf_disk _ _ F2). by eapply tx_clean; [done|set_solver]. }
  rewrite held_none in T4. rewrite (bind_Ok _ _ _ _ _ E4).
  rewrite (u64_id (dst + m)), (u32_id (off + m)) by (fsnum; lia).
  exists s4. split; [done|]. pose proof (bf_ctx _ _ _ _ _ HB) as Hc.
  assert (delivered user p dst m (λ i, fbyte V x (off + i)) s s4) as D.
  { eapply delivered_frame; [done|exact F02|done|rewrite Et2; by eapply moved_same| |exact F4].
    eapply delivered_ext; [|exact D3]. intros i Hi. unfold fbyte.
    rewrite (same_blk off (off + i) m) by lia. fold b. rewrite (proj2 (Z.eqb_neq _ _) Hb).
    unfold d, slice. rewrite lookup_take_lt, lookup_drop by lia. do 3 f_equal.
    rewrite same_mod by lia. lia. }
  split; [|done]. eapply fs_tx_frame; [exact HT|apply D|done].
Qed.

Lemma readi_loop_Ok p ip user n bs V x fuel : ∀ s dst off tot len,
  fs_tx p s ∅ bs V → (ip < length (k_itable s))%nat → inode_of s ip = x → sok s V x →
  (length bs < NBUF)%nat → buffer user p dst len s → 0 ≤ n - tot ≤ len → 0 ≤ off →
  off + (n - tot) ≤ MAXFILE * BSIZE →
  (∀ o, off ≤ o < off + (n - tot) → fblk V x (o / BSIZE) ≠ 0) →
  nblks off (n - tot) < Z.of_nat fuel →
  ∃ s', readi_loop fuel ip user dst off n tot s = Ok n s' ∧ fs_tx p s' ∅ bs V ∧
    delivered user p dst (n - tot) (λ i, fbyte V x (off + i)) s s'.
Proof.
  induction fuel as [|fuel IH]; intros s dst off tot len HT Hip Hx Hok Hnb HB Hn Hoff Hmax Hmap Hf.
  { pose proof (nblks_pos off (n - tot) ltac:(lia)). lia. }
  destruct (decide (n - tot = 0)) as [Hz|Hnz].
  { exists s. cbn [readi_loop]. rewrite (proj2 (Z.leb_le _ _)) by lia. replace tot with n by lia.
    split; [done|]. split; [done|]. rewrite Z.sub_diag. apply delivered_tx; [apply HB|done]. }
  pose proof (nblks_step off (n - tot) Hoff ltac:(lia)) as Hk. cbv zeta in Hk.
  set (m := Z.min (n - tot) (BSIZE - off mod BSIZE)) in *.
  pose proof (Z.mod_pos_bound off BSIZE ltac:(done)) as Hmod.
  assert (0 < m ≤ n - tot) as Hm by (unfold m; lia).
  subst x. destruct (readi_step p s bs V ip fuel user dst off n tot len HT Hip Hok Hnb HB) as (s1 & E1 & T1 & D1);
    [lia|done|done|apply Hmap; lia|]. fold m in E1, D1.
  pose proof (dl_itable _ _ _ _ _ _ _ D1) as Et. pose proof (dl_frame _ _ _ _ _ _ _ D1) as F1.
  assert (inode_of s1 ip = inode_of s ip) as Ei by (unfold inode_of; by rewrite Et).
  destruct (IH s1 (dst + m) (off + m) (tot + m) (len - m)) as (s2 & E2 & T2 & D2); try done; try lia.
  - by rewrite Et.
  - by rewrite (fs_frame_sb _ _ F1), (ff_start _ _ F1).
  - apply buffer_drop; [|lia]. eapply delivered_buffer; [done|exact D1|lia].
  - intros o Ho. apply Hmap. lia.
  - replace (n - (tot + m)) with (n - tot - m) by lia. lia.
  - exists s2. split; [by rewrite E1|]. split; [done|].
    replace (n - tot) with (m + (n - (tot + m))) by lia.
    eapply delivered_app; [exact HB| | | |exact D1|exact D2|]; try lia. intros i Hi. cbv beta. by rewrite Z.add_assoc.
Qed.

(** [readi] returns the number of bytes up to the end of the file, and delivers them. *)
Lemma readi_Ok p s bs V ip user dst off n :
  let sb := k_sb s in let start := lg_start (k_log s) in let x := inode_of s ip in
  let r := Z.max 0 (Z.min n (i_size x - off)) in
  fs_tx p s ∅ bs V → (ip < length (k_itable s))%nat → file_ok sb start V x → (length bs < NBUF)%nat →
  buffer user p dst r s → 0 ≤ off → 0 ≤ n → off + n < 2 ^ 32 →
  ∃ s', readi ip user dst off n s = Ok r s' ∧ fs_tx p s' ∅ bs V ∧
    delivered user p dst r (λ i, fbyte V x (off + i)) s s'.
Proof.
  intros sb start x r HT Hip HF Hnb HB Hoff Hn Hov. unfold readi. rewrite bind_gets. fold x.
  rewrite (u32_id (off + n)) by lia. rewrite (proj2 (Z.ltb_ge (off + n) off)) by lia. rewrite orb_false_r.
  destruct (Z.ltb_spec (i_size x) off) as [Hlt|Hge].
  { exists s. assert (r = 0) as -> by (unfold r; lia). split; [done|]. split; [done|].
    apply delivered_tx; [apply HB|done]. }
  cbv zeta. set (n' := if i_size x <? off + n then i_size x - off else n).
  assert (n' = r) as -> by (unfold n', r; destruct (Z.ltb_spec (i_size x) (off + n)); lia).
  assert (r ≤ i_size x - off ∧ 0 ≤ r) as [Hr Hr0] by (unfold r; lia). pose proof (fk_size _ _ _ _ HF).
  destruct (readi_loop_Ok p ip user r bs V x (io_fuel r) s dst off 0 r) as (s' & E & T & D);
    rewrite ?Z.sub_0_r in *; try done; try lia.
  - apply HF.
  - intros o Ho. apply (fk_mapped _ _ _ _ HF). lia.
  - by apply nblks_fuel.
  - by exists s'.
Qed.
