(* ===== verification/FsProps.v ===== *)
(** * Properties of files *)

From stdpp Require Import options.
From S2P Require Import Prelude CString State Sched Sleeplock Bio BioList BioSpec Block Log LogSpec LogCrash LogTx Kalloc Vm PageTable VmWalk VmSpec VmOps VmFree VmCopy VmProps Copy UserMem EitherCopy Fs FsCodec FsAlloc FsInode FsFile.
#[local] Open Scope Z_scope.
#[local] Existing Instance user_leaves.

(** [bmap] gives every block number below [MAXFILE] a block of the disk,
    allocating the block and the indirect block as needed inside the
    transaction.  The file keeps its bytes and the blocks it had, the map stays
    injective and in use, blocks of other files and the inodes on the disk are
    unchanged; a block that is mapped is returned without any change.  Past
    [MAXFILE] it panics. *)
Theorem bmap_spec p s bs V ip bn :
  let sb := k_sb s in let start := lg_start (k_log s) in let x := inode_of s ip in
  fs_tx p s ∅ bs V → (ip < length (k_itable s))%nat → inode_ok sb start V x → 0 ≤ bn →
  Z.of_nat (length bs) < LOGSIZE - 5 → (2 ≤ nfree sb V)%nat →
  if decide (bn < MAXFILE) then
    ∃ s' bs' V' x', bmap ip bn s = Ok (fblk V' x' bn) s' ∧ fblk V' x' bn ≠ 0 ∧
      fs_tx p s' ∅ bs' V' ∧ moved ip s s' x' ∧ inode_ok sb start V' x' ∧ grows sb start V x V' x' ∧
      (fblk V x bn ≠ 0 → V' = V ∧ x' = x ∧ bs' = bs)
  else bmap ip bn s = Panic "bmap: out of range".
Proof.
  intros sb start x HT Hip Hok Hb Hl Hnf. case_decide as Hlt.
  - destruct (decide (fblk V x bn = 0)) as [Hz|Hnz].
    + destruct (bmap_Ok p s bs V ip bn HT Hip Hok) as (s' & bs' & V' & x' & E & T & M & K & G & Hn & _);
        [done|done|done|]. by exists s', bs', V', x'.
    + destruct (bmap_hit p s bs V ip bn HT Hip Hok) as (s' & E & T & M);
        [done|unfold NBUF, LOGSIZE, MAXOPBLOCKS in *; lia|done|].
      exists s', bs, V, x. do 5 (split; [done|]). split; [apply grows_refl|done].
  - unfold bmap. rewrite (proj2 (Z.ltb_ge _ _)) by (fsnum; lia).
    by rewrite (proj2 (Z.ltb_ge _ _)) by (fsnum; lia).
Qed.

(** C4. [writei] of bytes that fit the file, the log and the disk succeeds
    with all of them: the file has the bytes of the buffer at [off] and its old
    bytes elsewhere, grows to the end of the write, and the inode on the disk
    agrees; the invariant of files holds, other files, other inodes and the
    memory outside the copy's scratch area are unchanged. *)
Theorem writei_spec p s bs V ip user src off data :
  let sb := k_sb s in let start := lg_start (k_log s) in let x := inode_of s ip in
  let n := Z.of_nat (length data) in
  fs_tx p s ∅ bs V → (ip < length (k_itable s))%nat → file_ok sb start V x →
  holding user p src data s → 0 ≤ off ≤ i_size x → off + n ≤ MAXFILE * BSIZE →
  Z.of_nat (length bs) + 6 * nblks off n + 1 < LOGSIZE → 2 * nblks off n ≤ Z.of_nat (nfree sb V) →
  ∃ s' bs' V' x', writei ip user src off n s = Ok n s' ∧ fs_tx p s' ∅ bs' V' ∧
    worked ip s s' x' ∧ file_ok sb start V' x' ∧ file_written sb start V x V' x' off data.
Proof. apply writei_Ok. Qed.

(** C36. [readi] at an offset with [off + n] below 2^32 returns the number of bytes between [off] and the end of the
    file, at most [n], and puts exactly these bytes of the file into the user
    or kernel buffer; no other memory changes but the copy's scratch area, and the
    file system is as before. *)
Theorem readi_spec p s bs V ip user dst off n :
  let sb := k_sb s in let start := lg_start (k_log s) in let x := inode_of s ip in
  let r := Z.max 0 (Z.min n (i_size x - off)) in
  fs_tx p s ∅ bs V → (ip < length (k_itable s))%nat → file_ok sb start V x → (length bs < NBUF)%nat →
  buffer user p dst r s → 0 ≤ off → 0 ≤ n → off + n < 2 ^ 32 →
  ∃ s', readi ip user dst off n s = Ok r s' ∧ fs_tx p s' ∅ bs V ∧
    delivered user p dst r (λ i, fbyte V x (off + i)) s s'.
Proof. apply readi_Ok. Qed.

(** C35. What [writei] writes, [readi] reads back, from and to user or kernel buffers. *)
Theorem writei_readi p s bs V ip user src user' dst off data :
  let sb := k_sb s in let start := lg_start (k_log s) in let x := inode_of s ip in
  let n := Z.of_nat (length data) in
  fs_tx p s ∅ bs V → (ip < length (k_itable s))%nat → file_ok sb start V x →
  holding user p src data s → buffer user' p dst n s → 0 ≤ off ≤ i_size x → off + n ≤ MAXFILE * BSIZE →
  Z.of_nat (length bs) + 6 * nblks off n + 1 < LOGSIZE → 2 * nblks off n ≤ Z.of_nat (nfree sb V) →
  ∃ s1 s2, writei ip user src off n s = Ok n s1 ∧ readi ip user' dst off n s1 = Ok n s2 ∧
    ∀ i, (i < length data)%nat → peek user' s2 p (dst + Z.of_nat i) = data !! i.
Proof.
  intros sb start x n HT Hip HF HD HB Hoff Hmax Hl Hnf.
  destruct (writei_Ok p s bs V ip user src off data HT Hip HF HD Hoff Hmax Hl Hnf)
    as (s1 & bs1 & V1 & x1 & E1 & T1 & W1 & K1 & G1). fold sb start x in K1, G1.
  pose proof (wk_frame _ _ _ _ W1) as F1. pose proof (wk_ip _ _ _ _ W1) as Ei.
  assert (Z.max 0 (Z.min n (i_size x1 - off)) = n) as Er.
  { rewrite (fl_size _ _ _ _ _ _ _ _ G1). lia. }
  pose proof (tx_fit _ _ (ti_txn _ _ _ _ _ (ft_inv _ _ _ _ _ T1))) as Hfit.
  destruct (readi_Ok p s1 bs1 V1 ip user' dst off n T1) as (s2 & E2 & T2 & D2); rewrite ?Ei, ?Er in *.
  - by rewrite (wk_len _ _ _ _ W1).
  - by rewrite (fs_frame_sb _ _ F1), (ff_start _ _ F1).
  - unfold NBUF, LOGSIZE, MAXOPBLOCKS in *. lia.
  - by eapply worked_buffer.
  - lia.
  - unfold n. lia.
  - unfold n. fsnum. lia.
  - exists s1, s2. split; [done|]. split; [done|]. intros i Hi. unfold n in *.
    rewrite (dl_byte _ _ _ _ _ _ _ D2) by lia.
    rewrite (fl_byte _ _ _ _ _ _ _ _ G1), decide_True by (fsnum; lia).
    replace (Z.to_nat (off + Z.of_nat i - off)) with i by lia.
    by destruct (lookup_lt_is_Some_2 data i Hi) as [b ->].
Qed.

(** ** A process with an empty file open

    Process 2 runs inside a transaction on the file system of [mkfs_sb]; entry
    0 of the inode table is an empty file, and the kernel holds five bytes. *)
Definition new_inode : inode :=
  Inode ROOTDEV 5 1 (Sleeplock false 0) true T_FILE 0 0 1 0 (replicate NADDRS 0).
Definition HELLO : Z := KERNBASE + 0x1000.
Definition hello : list Z := [104; 101; 108; 108; 111].
Definition fs_state (b : kst) : kst :=
  set_k_itable (<[0%nat := new_inode]> (replicate NINODE inode0)) (set_k_sb mkfs_sb (set_k_disk fs_disk
    (set_k_log (Log 2 30 1 0 ROOTDEV 0 (replicate (Z.to_nat LOGSIZE) 0)) (set_k_bufs boot_bufs
    (set_k_mem (wr_bytes (k_mem b) HELLO hello) b))))).

Lemma fs_disk_ok : blocks_ok fs_disk.
Proof.
  intros n. unfold fs_disk. rewrite disk_block_insert.
  destruct (decide _); [by vm_compute|apply blocks_ok_empty].
Qed.
Lemma new_inode_ok V : file_ok mkfs_sb 2 V new_inode.
Proof.
  assert (∀ i, addr new_inode i = 0) as Ha.
  { intros i. unfold addr. change (i_addrs new_inode) with (replicate NADDRS 0).
    destruct (_ !! Z.to_nat i) as [a|] eqn:E; [|done].
    by apply lookup_replicate in E as [-> _]. }
  assert (∀ bn, fblk V new_inode bn = 0) as Hf.
  { intros bn. unfold fblk, ind. rewrite !Ha. by destruct (bn <? NDIRECT). }
  split.
  - split; try done; rewrite ?Ha; try done.
    + intros bn _. by rewrite Hf.
    + intros bn bn' _ _. by rewrite Hf.
  - split; [cbn; unfold T_FILE; lia|cbn; lia|cbn; lia|cbn; lia|cbn; lia|done|]. apply Forall_replicate. lia.
  - done.
  - simpl. fsnum. lia.
  - simpl. lia.
Qed.

Section state.
Context (b : kst) (Hb : uctx 2 b) (Hh : k_held b = []).

Lemma fs_state_uctx : uctx 2 (fs_state b).
Proof using Hb.
  destruct Hb as [H1 H2 H3 H4 H5 H6].
  assert (uctx 2 (set_k_mem (wr_bytes (k_mem b) HELLO hello) b)) as [U1 U2 U3 U4 U5 U6]; [|by split].
  apply uctx_mem; [done|by apply mem_ok_wr_bytes|]. intros q a Hq Ha. rewrite rd_wr_bytes.
  rewrite decide_False; [done|]. intros Hx.
  refine (kernel_low _ _ _ HELLO 5 (us_wf _ _ _ H4) _ a q _ (tabs_owns _ _ _ Hq) Ha);
    [unfold HELLO; lia|exact Hx].
Qed.
Lemma fs_state_tx : fs_tx 2 (fs_state b) ∅ [] (disk_block fs_disk).
Proof using Hb Hh.
  destruct Hb as [H1 H2 H3 _ _ _]. split; [|exact mkfs_bitmap_ok|done].
  split; try done; [apply (boot_cache_inv 2 (fs_state b)); [by split|done|exact fs_disk_ok]|].
  split; [constructor..|]. by vm_compute.
Qed.
Lemma kernel_buffer va n :
  0 ≤ n → KERNBASE + 0x1000 ≤ va → va + n ≤ KERNBASE + 0x10000 → buffer false 2 va n (fs_state b).
Proof using Hb.
  intros Hn Hlo Hhi. pose proof fs_state_uctx as Hu. pose proof (uc_ly _ _ Hu) as Hly. split.
  - done.
  - unfold KERNBASE in *. lia.
  - done.
  - intros _. split; [apply (kernel_low _ _ _ _ _ (us_wf _ _ _ (uc_space _ _ Hu))); lia|].
    right. unfold KOBJ. change BSIZE with 1024. lia.
Qed.
Lemma fs_state_hello : holding false 2 HELLO hello (fs_state b).
Proof using Hb.
  split; [apply kernel_buffer; unfold HELLO; simpl; lia|]. intros i Hi. unfold peek. simpl.
  rewrite rd_wr_bytes, decide_True by (simpl in *; lia).
  replace (Z.to_nat (HELLO + Z.of_nat i - HELLO)) with i by lia.
  do 5 (destruct i as [|i]; [done|]). simpl in Hi. lia.
Qed.
Lemma fs_state_inode : inode_of (fs_state b) 0 = new_inode.
Proof using. done. Qed.
End state.
Lemma fs_state_free : (954 ≤ nfree mkfs_sb (disk_block fs_disk))%nat.
Proof. apply Nat.leb_le. vm_compute. reflexivity. Qed.

Definition user_base : kst := run_in 2 R0 space1.
Lemma run_in_held p root s : k_held (run_in p root s) = k_held s.
Proof. done. Qed.
Lemma user_base_held : k_held user_base = [].
Proof. exact (eq_trans (run_in_held 2 R0 space1) (vm_rest_held kst0 space1 space1_rest)). Qed.
Lemma user_base_uctx : uctx 2 user_base.
Proof. exact user_uctx. Qed.
#[local] Opaque user_base.

Lemma bmap_spec_witness : ∃ s' V' x', bmap 0 20 (fs_state user_base) = Ok (fblk V' x' 20) s' ∧
  fblk V' x' 20 ≠ 0 ∧ inode_ok mkfs_sb 2 V' x' ∧
  bmap 0 268 (fs_state user_base) = Panic "bmap: out of range".
Proof.
  pose proof (fs_state_tx user_base user_base_uctx user_base_held) as HT.
  pose proof (bmap_spec 2 (fs_state user_base) [] (disk_block fs_disk) 0) as H.
  destruct (H 20) as (s' & bs' & V' & x' & E & Hn & _ & _ & K & _).
  - exact HT.
  - apply Nat.ltb_lt. reflexivity.
  - apply new_inode_ok.
  - lia.
  - reflexivity.
  - pose proof fs_state_free. change (k_sb (fs_state user_base)) with mkfs_sb. lia.
  - exists s', V', x'. split; [exact E|]. split; [exact Hn|]. split; [exact K|].
    apply (H 268); [exact HT|apply Nat.ltb_lt; reflexivity|apply new_inode_ok|lia|reflexivity|].
    pose proof fs_state_free. change (k_sb (fs_state user_base)) with mkfs_sb. lia.
Defined.

Lemma writei_spec_witness : ∃ s' V' x', writei 0 false HELLO 0 5 (fs_state user_base) = Ok 5 s' ∧
  i_size x' = 5 ∧ fbyte V' x' 1 = 101 ∧ file_ok mkfs_sb 2 V' x' ∧ inode_at V' mkfs_sb 5 = dinode_of x'.
Proof.
  destruct (writei_spec 2 (fs_state user_base) [] (disk_block fs_disk) 0 false HELLO 0 hello)
    as (s' & bs' & V' & x' & E & _ & _ & K & G).
  - exact (fs_state_tx user_base user_base_uctx user_base_held).
  - apply Nat.ltb_lt. reflexivity.
  - apply new_inode_ok.
  - exact (fs_state_hello user_base user_base_uctx).
  - change (inode_of (fs_state user_base) 0) with new_inode. simpl. lia.
  - by vm_compute.
  - by vm_compute.
  - pose proof fs_state_free. change (k_sb (fs_state user_base)) with mkfs_sb.
    change (2 * nblks 0 (Z.of_nat (length hello))) with 2. lia.
  - exists s', V', x'. split; [exact E|]. split; [exact (fl_size _ _ _ _ _ _ _ _ G)|].
    split; [rewrite (fl_byte _ _ _ _ _ _ _ _ G) by (fsnum; lia); reflexivity|]. split; [exact K|].
    pose proof (fl_disk _ _ _ _ _ _ _ _ G 5) as Hd. change (k_sb (fs_state user_base)) with mkfs_sb in Hd.
    rewrite Hd by (simpl; lia). change (inode_of (fs_state user_base) 0) with new_inode.
    by rewrite decide_True.
Defined.

Lemma readi_spec_witness : ∃ s', readi 0 false (KERNBASE + 0x2000) 0 100 (fs_state user_base) = Ok 0 s' ∧
  fs_tx 2 s' ∅ [] (disk_block fs_disk).
Proof.
  destruct (readi_spec 2 (fs_state user_base) [] (disk_block fs_disk) 0 false (KERNBASE + 0x2000) 0 100)
    as (s' & E & T & _).
  - exact (fs_state_tx user_base user_base_uctx user_base_held).
  - apply Nat.ltb_lt. reflexivity.
  - apply new_inode_ok.
  - apply Nat.ltb_lt. reflexivity.
  - apply (kernel_buffer user_base user_base_uctx); [reflexivity|unfold KERNBASE; lia|].
    change (inode_of (fs_state user_base) 0) with new_inode. simpl. lia.
  - lia.
  - lia.
  - lia.
  - exists s'. split; [exact E|exact T].
Defined.

Lemma writei_readi_witness : ∃ s1 s2,
  writei 0 false HELLO 0 5 (fs_state user_base) = Ok 5 s1 ∧
  readi 0 false (KERNBASE + 0x2000) 0 5 s1 = Ok 5 s2 ∧
  peek false s2 2 (KERNBASE + 0x2000 + Z.of_nat 4) = Some 111.
Proof.
  destruct (writei_readi 2 (fs_state user_base) [] (disk_block fs_disk) 0 false HELLO false (KERNBASE + 0x2000) 0 hello)
    as (s1 & s2 & E1 & E2 & Hd).
  - exact (fs_state_tx user_base user_base_uctx user_base_held).
  - apply Nat.ltb_lt. reflexivity.
  - apply new_inode_ok.
  - exact (fs_state_hello user_base user_base_uctx).
  - apply (kernel_buffer user_base user_base_uctx); simpl; lia.
  - change (inode_of (fs_state user_base) 0) with new_inode. simpl. lia.
  - by vm_compute.
  - by vm_compute.
  - pose proof fs_state_free. change (k_sb (fs_state user_base)) with mkfs_sb.
    change (2 * nblks 0 (Z.of_nat (length hello))) with 2. lia.
  - exists s1, s2. split; [exact E1|]. split; [exact E2|]. exact (Hd 4%nat ltac:(simpl; lia)).
Defined.
