(* ===== verification/FsTrunc.v ===== *)
(** * Truncating a file

    [itrunc] frees the blocks of a file one by one, the indirect block last. *)

From stdpp Require Import options.
From S2P Require Import Prelude CString State Sched Sleeplock Bio BioList BioSpec Block Log LogSpec LogCrash LogTx Kalloc Vm PageTable VmWalk VmSpec VmOps VmFree VmCopy VmProps Copy UserMem EitherCopy Fs FsCodec FsAlloc FsInode FsFile.
#[local] Open Scope Z_scope.

(** [bfree] while other buffers are held. *)
Lemma bfree_in p s held ns bs V b :
  let sb := k_sb s in
  tx_inv p s held bs V → holds s held ns → bitmap_ok sb (lg_start (k_log s)) V → BBLOCK b sb ∉ ns →
  (size held + length bs < NBUF)%nat → Z.of_nat (length bs) < LOGSIZE - 1 → 1 ≤ lg_outstanding (k_log s) →
  0 ≤ b < sb_size sb → bfree_bit sb V b = false →
  ∃ s' V', bfree ROOTDEV b s = Ok () s' ∧ tx_inv p s' held (logged bs (BBLOCK b sb)) V' ∧ holds s' held ns ∧
    tx_frame s s' ∧ (∀ n, n ≠ BBLOCK b sb → V' n = V n) ∧
    ∀ b', 0 ≤ b' < sb_size sb → bfree_bit sb V' b' = if decide (b = b') then true else bfree_bit sb V b'.
Proof.
  intros sb T HH HB Hns Hsz Hbs Hou Hb Hf. unfold bfree. rewrite bind_gets. fold sb.
  destruct (tx_read p s held ns bs V (BBLOCK b sb) T HH Hns Hsz) as (bp & s1 & E1 & T1 & Hbp & H1 & C1 & D1 & F1 & _).
  rewrite (bind_Ok _ _ _ _ _ E1). cbv zeta. rewrite bind_gets, D1.
  change (bit_clear (V (BBLOCK b sb)) (b mod BPB)) with (bfree_bit sb V b). rewrite Hf.
  destruct (ly_bitmap _ _ (bm_layout _ _ _ HB) b Hb) as [Ho Hn].
  pose proof (tx_length _ _ _ _ _ (BBLOCK b sb) T) as Hl.
  destruct (tx_modify p s1 held ns bs V bp (BBLOCK b sb) (clear_bit (b mod BPB))) as (s2 & M2 & T2 & H2 & F2);
    [done|done|done|done|by rewrite (tf_start _ _ F1)|done|by rewrite (tf_out _ _ F1)|lia
    |by apply length_clear_bit|].
  eexists s2, _. split; [exact M2|]. split; [exact T2|]. split; [done|]. split; [by etrans|]. split.
  - intros n Hne. unfold supd. by rewrite decide_False.
  - intros b' Hb'. apply (bfree_bit_upd sb V b b' (clear_bit (b mod BPB)) true).
    intros bj Hj. apply bit_clear_clear; [done| |done]. by apply Z.mod_pos_bound.
Qed.

(** The blocks [F] were freed, and nothing but the bitmap changed. *)
Record freed (sb : superblock) (V V' : Z → list Z) (F : list Z) : Prop := {
  fr_same n : (∀ b, 0 ≤ b < sb_size sb → n ≠ BBLOCK b sb) → V' n = V n;
  fr_bit b : 0 ≤ b < sb_size sb → bfree_bit sb V' b = bfree_bit sb V b || bool_decide (b ∈ F);
}.
Lemma freed_nil sb V : freed sb V V [].
Proof. split; [done|]. intros b Hb. by rewrite bool_decide_false, orb_false_r by set_solver. Qed.
Lemma freed_cons sb V V1 V2 F a : 0 ≤ a < sb_size sb → freed sb V V1 F →
  (∀ n, n ≠ BBLOCK a sb → V2 n = V1 n) →
  (∀ b, 0 ≤ b < sb_size sb → bfree_bit sb V2 b = if decide (a = b) then true else bfree_bit sb V1 b) →
  freed sb V V2 (F ++ [a]).
Proof.
  intros Ha [F1 F2] Hn Hb. split.
  - intros n H. rewrite Hn by (by apply H). by apply F1.
  - intros b Hr. rewrite Hb, F2 by done. case_decide.
    + subst. rewrite (bool_decide_true (b ∈ F ++ [b])) by set_solver. by rewrite orb_true_r.
    + f_equal. apply bool_decide_ext. set_solver.
Qed.
(** Blocks that are not freed and not in the bitmap keep their data and their use. *)
Lemma freed_use sb start V V' F n : layout_ok sb start → freed sb V V' F → in_use sb start V n → n ∉ F →
  in_use sb start V' n ∧ V' n = V n.
Proof.
  intros HL [F1 F2] [D Hb] Hn. split.
  - split; [done|]. rewrite F2 by (pose proof (db_range _ _ _ D); lia). rewrite Hb. by rewrite bool_decide_false.
  - apply F1. intros b Hr ->. by apply (db_bitmap _ _ _ D b Hr).
Qed.

Lemma logged_twice bs n : logged (logged bs n) n = logged bs n.
Proof. unfold logged. destruct (decide (n ∈ bs)) as [H|H]; [by rewrite decide_True|]. rewrite decide_True; [done|set_solver]. Qed.
Lemma freed_bitmap sb start V V' F : bitmap_ok sb start V → freed sb V V' F → (∀ a, a ∈ F → data_blk sb start a) →
  bitmap_ok sb start V'.
Proof.
  intros [HL HF] HFr HD. split; [done|]. intros b Hb. rewrite (fr_bit _ _ _ _ HFr) by done.
  intros [H|H%bool_decide_eq_true]%orb_true_iff; [by apply HF|by apply HD].
Qed.

(** A disk of one bitmap block. *)
Lemma one_bitmap sb b : sb_size sb ≤ BPB → 0 ≤ b < sb_size sb → BBLOCK b sb = sb_bmapstart sb.
Proof. intros Hone Hb. unfold BBLOCK. rewrite Z.div_small by lia. done. Qed.

Section trunc.
Context (p : nat) (s0 : kst) (bs : list Z) (V : Z → list Z) (ip : nat).
Abbreviation sb := (k_sb s0).
Abbreviation start := (lg_start (k_log s0)).
Abbreviation x := (inode_of s0 ip).
Context (HT : fs_tx p s0 ∅ bs V) (Hip : (ip < length (k_itable s0))%nat) (HF : file_ok sb start V x).
Context (Hone : sb_size sb ≤ BPB) (Hbs : Z.of_nat (length bs) < LOGSIZE - 3).
Abbreviation B := (sb_bmapstart sb).

(** The state after the blocks [F] were freed, with the inode [y] in the table
    and the buffers [held] on the blocks [ns]. *)
Record freeing (held : gset nat) (ns : gset Z) (F : list Z) (y : inode) (s : kst) : Prop := {
  fg_moved : moved ip s0 s y;
  fg_out : lg_outstanding (k_log s) = lg_outstanding (k_log s0);
  fg_disk : k_disk s = k_disk s0;
  fg_holds : holds s held ns;
  fg_tx : ∃ bs' V', (bs' = bs ∨ bs' = logged bs B) ∧ tx_inv p s held bs' V' ∧ freed sb V V' F;
  fg_data a : a ∈ F → data_blk sb start a;
}.

Lemma free_one held ns F y s a :
  freeing held ns F y s → in_use sb start V a → a ∉ F → (∀ n, n ∈ ns → data_blk sb start n) → (size held ≤ 1)%nat →
  ∃ s', bfree ROOTDEV a s = Ok () s' ∧ freeing held ns (F ++ [a]) y s' ∧ tx_frame s s'.
Proof using All.
  intros [G1 G2 G3 G4 (bs' & V' & Hbs' & T & Fr) G6] [Da Ha] HaF Hns Hsz.
  pose proof (mv_frame _ _ _ _ G1) as FF. pose proof (fs_frame_sb _ _ FF) as Esb. pose proof (ff_start _ _ FF) as Est.
  pose proof (db_range _ _ _ Da) as Hr. pose proof (one_bitmap sb a Hone ltac:(lia)) as HB.
  assert (length bs' ≤ S (length bs))%nat as Hl by (destruct Hbs' as [-> | ->]; [lia|apply length_logged]).
  destruct (bfree_in p s held ns bs' V' a) as (s' & V2 & E & T2 & H2 & F2 & Hn & Hb); rewrite ?Esb, ?Est in *; try done.
  - eapply freed_bitmap; [apply HT|done|done].
  - rewrite HB. intros Hx. apply (db_bitmap _ _ _ (Hns _ Hx) a); [lia|done].
  - unfold NBUF, LOGSIZE, MAXOPBLOCKS in *. lia.
  - lia.
  - rewrite G2. apply HT.
  - lia.
  - rewrite (fr_bit _ _ _ _ Fr) by lia. rewrite Ha. by rewrite bool_decide_false.
  - exists s'. split; [done|]. split; [|done]. split.
    + rewrite <- (mv_ip _ _ _ _ G1) in G1 |- *. eapply moved_trans; [exact G1|]. by apply moved_tx.
    + by rewrite (tf_out _ _ F2).
    + by rewrite (tf_disk _ _ F2).
    + done.
    + exists (logged bs' (BBLOCK a sb)), V2. split; [|split; [done|]].
      * rewrite HB. destruct Hbs' as [-> | ->]; [by right|right; apply logged_twice].
      * eapply freed_cons; [lia|done|done|done].
    + intros b [Hb'|Hb']%elem_of_app; [by apply G6|]. by apply list_elem_of_singleton in Hb' as ->.
Qed.

Lemma freeing_upd held ns F y s f : freeing held ns F y s → freeing held ns F (f y) (upd_inode ip f s).
Proof using All.
  intros [G1 G2 G3 G4 (bs' & V' & Hbs' & T & Fr) G6]. pose proof (side_inode ip f s) as Hs.
  assert (ip < length (k_itable s))%nat as Hip' by (by rewrite (mv_len _ _ _ _ G1)).
  split; try done.
  - pose proof (moved_upd ip f s Hip') as M. rewrite (mv_ip _ _ _ _ G1) in M. by eapply moved_trans.
  - exists bs', V'. split; [done|]. split; [by eapply side_inv|done].
Qed.

(** The inode with its first [i] direct blocks gone. *)
Definition cleared (i : Z) : inode :=
  set_i_addrs (replicate (Z.to_nat i) 0 ++ drop (Z.to_nat i) (i_addrs x)) x.
Definition freed_upto (i : Z) : list Z := filter (λ a, a ≠ 0) (map (addr x) (seqZ 0 i)).

Lemma cleared_addr i k : 0 ≤ i ≤ NDIRECT → 0 ≤ k ≤ NDIRECT → addr (cleared i) k = if decide (k < i) then 0 else addr x k.
Proof using All.
  intros Hi Hk. pose proof (ik_addrs _ _ _ _ (fk_inode _ _ _ _ HF)) as Hl. unfold addr, cleared.
  cbn [i_addrs set_i_addrs]. case_decide.
  - rewrite lookup_app_l by (rewrite length_replicate; lia). by rewrite lookup_replicate_2 by lia.
  - rewrite lookup_app_r by (rewrite length_replicate; lia). rewrite length_replicate, lookup_drop. do 2 f_equal. lia.
Qed.
Lemma cleared_next i : 0 ≤ i < NDIRECT → with_addr i 0 (cleared i) = cleared (i + 1).
Proof using All.
  intros Hi. pose proof (ik_addrs _ _ _ _ (fk_inode _ _ _ _ HF)) as Hl. unfold with_addr, cleared. cbn [i_addrs set_i_addrs].
  assert (Z.to_nat i < length (i_addrs x))%nat as Hlt by (fsnum; lia).
  destruct (lookup_lt_is_Some_2 _ _ Hlt) as [a Ha].
  assert (<[Z.to_nat i:=0]> (replicate (Z.to_nat i) 0 ++ drop (Z.to_nat i) (i_addrs x)) =
    replicate (Z.to_nat (i + 1)) 0 ++ drop (Z.to_nat (i + 1)) (i_addrs x)) as ->; [|done].
  replace (Z.to_nat (i + 1)) with (S (Z.to_nat i)) by lia. rewrite (drop_S _ a) by done.
  rewrite insert_app_r_alt by (rewrite length_replicate; lia). rewrite length_replicate, Nat.sub_diag.
  rewrite replicate_S_end, <- app_assoc. done.
Qed.
Lemma cleared_same i : 0 ≤ i < NDIRECT → addr x i = 0 → cleared (i + 1) = cleared i.
Proof using All.
  intros Hi Ha. rewrite <- cleared_next by done. unfold with_addr, cleared. cbn [i_addrs set_i_addrs].
  rewrite list_insert_id; [done|]. pose proof (cleared_addr i i ltac:(lia) ltac:(lia)) as H.
  rewrite decide_False in H by lia. rewrite Ha in H. unfold addr, cleared in H. cbn [i_addrs set_i_addrs] in H.
  pose proof (ik_addrs _ _ _ _ (fk_inode _ _ _ _ HF)) as Hl.
  destruct (lookup_lt_is_Some_2 (replicate (Z.to_nat i) 0 ++ drop (Z.to_nat i) (i_addrs x)) (Z.to_nat i)) as [b Hb].
  - rewrite length_app, length_replicate, length_drop. fsnum. lia.
  - rewrite Hb in H |- *. simpl in H. by rewrite H.
Qed.
Lemma freed_upto_next i : 0 ≤ i → freed_upto (i + 1) = freed_upto i ++ (if decide (addr x i = 0) then [] else [addr x i]).
Proof using All.
  intros Hi. unfold freed_upto. rewrite seqZ_app by lia. rewrite map_app, filter_app. f_equal.
  simpl. rewrite filter_cons. repeat case_decide; done.
Qed.
Lemma fblk_direct i : 0 ≤ i < NDIRECT → fblk V x i = addr x i.
Proof using All. intros Hi. unfold fblk. by rewrite (proj2 (Z.ltb_lt _ _)) by lia. Qed.
Lemma freed_upto_fresh i : 0 ≤ i < NDIRECT → addr x i ≠ 0 → addr x i ∉ freed_upto i.
Proof using All.
  intros Hi Hn. unfold freed_upto. rewrite list_elem_of_filter, list_elem_of_fmap. intros [_ (j & Hj & Hjr%elem_of_seqZ)].
  pose proof (ik_inj _ _ _ _ (fk_inode _ _ _ _ HF) i j) as H. rewrite !fblk_direct in H by lia.
  specialize (H ltac:(fsnum; lia) ltac:(fsnum; lia) Hn Hj). lia.
Qed.

Lemma freeing_start : freeing ∅ ∅ [] x s0.
Proof using All.
  split; [by apply moved_tx|done|done|apply holds_empty| |set_solver].
  exists bs, V. split; [by left|]. split; [apply HT|apply freed_nil].
Qed.
Lemma trunc_direct : wp (mfor (Z.to_nat NDIRECT) 0 (λ i,
    a ← gets (λ s, addr_of s ip i);
    when (negb (a =? 0)) (bfree ROOTDEV a;; set_addr ip i 0)))
  (λ _ s, freeing ∅ ∅ (freed_upto NDIRECT) (cleared NDIRECT) s) s0.
Proof using All.
  eapply (wp_mfor _ _ _ (λ i s, freeing ∅ ∅ (freed_upto i) (cleared i) s)).
  - pose proof freeing_start as H. unfold cleared. change (Z.to_nat 0) with 0%nat. cbn [replicate app].
    by rewrite drop_0, set_i_addrs_id.
  - change (0 + Z.of_nat (Z.to_nat NDIRECT)) with NDIRECT. intros i s Hi HG. apply wp_bind, wp_gets.
    change (addr_of s ip i) with (addr (inode_of s ip) i). rewrite (mv_ip _ _ _ _ (fg_moved _ _ _ _ _ HG)).
    rewrite cleared_addr by lia. rewrite decide_False by lia. rewrite freed_upto_next by lia.
    destruct (Z.eqb_spec (addr x i) 0) as [Hz|Hn]; cbn [negb when].
    + apply wp_ret. rewrite decide_True, app_nil_r, cleared_same by done. done.
    + rewrite decide_False by done. apply wp_bind.
      pose proof (ik_use _ _ _ _ (fk_inode _ _ _ _ HF) i ltac:(fsnum; lia)) as Hu. rewrite fblk_direct in Hu by lia.
      destruct (free_one ∅ ∅ _ _ s (addr x i) HG) as (s' & E & HG' & _);
        [by apply Hu|by apply freed_upto_fresh|set_solver|by rewrite size_empty; lia|].
      eapply wp_Ok; [exact E|]. apply wp_modify. rewrite <- cleared_next by done.
      exact (freeing_upd _ _ _ _ _ (with_addr i 0) HG').
  - done.
Qed.

(** ** The indirect block *)

Context (HI : addr x NDIRECT ≠ 0).
Abbreviation a0 := (addr x NDIRECT).
Definition freed_ind (j : Z) : list Z := filter (λ a, a ≠ 0) (map (ind V x) (seqZ 0 j)).
Lemma freed_ind_next j : 0 ≤ j → freed_ind (j + 1) = freed_ind j ++ (if decide (ind V x j = 0) then [] else [ind V x j]).
Proof using All.
  intros Hi. unfold freed_ind. rewrite seqZ_app by lia. rewrite map_app, filter_app. f_equal.
  simpl. rewrite filter_cons. repeat case_decide; done.
Qed.
Lemma fblk_ind j : 0 ≤ j → fblk V x (NDIRECT + j) = ind V x j.
Proof using All.
  intros Hj. unfold fblk. rewrite (proj2 (Z.ltb_ge _ _)) by lia. f_equal. lia.
Qed.
Lemma freed_ind_fresh j : 0 ≤ j < NINDIRECT → ind V x j ≠ 0 → ind V x j ∉ freed_upto NDIRECT ++ freed_ind j.
Proof using All.
  intros Hj Hn. pose proof (ik_inj _ _ _ _ (fk_inode _ _ _ _ HF)) as Hinj.
  unfold freed_upto, freed_ind. rewrite elem_of_app, !list_elem_of_filter, !list_elem_of_fmap.
  intros [[_ (k & Hk & Hkr%elem_of_seqZ)]|[_ (k & Hk & Hkr%elem_of_seqZ)]].
  - specialize (Hinj (NDIRECT + j) k). rewrite fblk_ind, fblk_direct in Hinj by lia.
    specialize (Hinj ltac:(fsnum; lia) ltac:(fsnum; lia) Hn Hk). lia.
  - specialize (Hinj (NDIRECT + j) (NDIRECT + k)). rewrite !fblk_ind in Hinj by lia.
    specialize (Hinj ltac:(fsnum; lia) ltac:(fsnum; lia) Hn Hk). lia.
Qed.
Lemma a0_use : in_use sb start V a0.
Proof using All. by apply (ik_ind _ _ _ _ (fk_inode _ _ _ _ HF)). Qed.
Lemma a0_fresh : a0 ∉ freed_upto NDIRECT ++ freed_ind NINDIRECT.
Proof using All.
  pose proof (ik_use _ _ _ _ (fk_inode _ _ _ _ HF)) as Hu.
  unfold freed_upto, freed_ind. rewrite elem_of_app, !list_elem_of_filter, !list_elem_of_fmap.
  intros [[Hn (k & Hk & Hkr%elem_of_seqZ)]|[Hn (k & Hk & Hkr%elem_of_seqZ)]].
  - specialize (Hu k). rewrite fblk_direct in Hu by lia. rewrite <- Hk in Hu. by destruct (Hu ltac:(fsnum; lia) Hn) as [_ Hx].
  - specialize (Hu (NDIRECT + k)). rewrite fblk_ind in Hu by lia. rewrite <- Hk in Hu. by destruct (Hu ltac:(fsnum; lia) Hn) as [_ Hx].
Qed.

(** The held buffer is the indirect block, as it was. *)
Lemma held_indirect bp F y s : freeing ({[bp]} ∪ ∅) ({[a0]} ∪ ∅) F y s → a0 ∉ F →
  cached s bp a0 ∧ data_of s bp = V a0.
Proof using All.
  intros [G1 G2 G3 G4 (bs' & V' & Hbs' & T & Fr) G6] Ha.
  destruct (G4 bp ltac:(set_solver)) as (n & Hn & Hc). assert (n = a0) as -> by set_solver. split; [done|].
  destruct (freed_use _ _ _ _ _ _ (bm_layout _ _ _ (ft_bitmap _ _ _ _ _ HT)) Fr a0_use Ha) as [_ <-].
  symmetry. by eapply bi_view, Hc; apply T.
Qed.
Lemma trunc_ind_loop bp s1 : freeing ({[bp]} ∪ ∅) ({[a0]} ∪ ∅) (freed_upto NDIRECT) (cleared NDIRECT) s1 →
  wp (mfor (Z.to_nat NINDIRECT) 0 (λ j,
       a ← gets (λ s, get32 (data_of s bp) (ind_off j));
       when (negb (a =? 0)) (bfree ROOTDEV a)))
    (λ _ s, freeing ({[bp]} ∪ ∅) ({[a0]} ∪ ∅) (freed_upto NDIRECT ++ freed_ind NINDIRECT) (cleared NDIRECT) s) s1.
Proof using All.
  intros H1. eapply (wp_mfor _ _ _ (λ j s, freeing ({[bp]} ∪ ∅) ({[a0]} ∪ ∅) (freed_upto NDIRECT ++ freed_ind j) (cleared NDIRECT) s)).
  - unfold freed_ind. simpl. by rewrite app_nil_r.
  - change (0 + Z.of_nat (Z.to_nat NINDIRECT)) with NINDIRECT. intros j s Hj HG. apply wp_bind, wp_gets.
    destruct (held_indirect bp _ _ s HG) as [_ ->].
    { intros Hx. apply a0_fresh. revert Hx. rewrite !elem_of_app. intros [?|Hx]; [by left|right].
      unfold freed_ind in *. revert Hx. rewrite !list_elem_of_filter, !list_elem_of_fmap. intros [? (k & ? & Hk%elem_of_seqZ)].
      split; [done|]. exists k. split; [done|]. apply elem_of_seqZ. lia. }
    assert (get32 (V a0) (ind_off j) = ind V x j) as -> by (unfold ind; by rewrite (proj2 (Z.eqb_neq _ _))).
    rewrite freed_ind_next by lia. destruct (Z.eqb_spec (ind V x j) 0) as [Hz|Hn]; cbn [negb when].
    + apply wp_ret. by rewrite decide_True, app_nil_r by done.
    + rewrite decide_False, app_assoc by done.
      pose proof (ik_use _ _ _ _ (fk_inode _ _ _ _ HF) (NDIRECT + j) ltac:(fsnum; lia)) as Hu. rewrite fblk_ind in Hu by lia.
      destruct (free_one ({[bp]} ∪ ∅) ({[a0]} ∪ ∅) _ _ s (ind V x j) HG) as (s' & E & HG' & _).
      * by apply Hu.
      * by apply freed_ind_fresh.
      * intros n Hn'. assert (n = a0) as -> by set_solver. apply a0_use.
      * by rewrite union_empty_r_L, size_singleton.
      * by eapply wp_Ok.
  - done.
Qed.

Lemma trunc_indirect s1 : freeing ∅ ∅ (freed_upto NDIRECT) (cleared NDIRECT) s1 →
  wp (bp ← bread ROOTDEV a0;
      mfor (Z.to_nat NINDIRECT) 0 (λ j,
        a ← gets (λ s, get32 (data_of s bp) (ind_off j));
        when (negb (a =? 0)) (bfree ROOTDEV a));;
      brelse bp;;
      ind ← gets (λ s, addr_of s ip NDIRECT);
      bfree ROOTDEV ind;;
      set_addr ip NDIRECT 0)
    (λ _ s, freeing ∅ ∅ ((freed_upto NDIRECT ++ freed_ind NINDIRECT) ++ [a0]) (with_addr NDIRECT 0 (cleared NDIRECT)) s) s1.
Proof using All.
  intros [G1 G2 G3 G4 (bs1 & V1 & Hbs1 & T & Fr) G6].
  assert (length bs1 ≤ S (length bs))%nat as Hl by (destruct Hbs1 as [-> | ->]; [lia|apply length_logged]).
  destruct (tx_read p s1 ∅ ∅ bs1 V1 a0 T) as (bp & s2 & E2 & T2 & Hbp & H2 & C2 & D2 & F2 & _);
    [done|set_solver|rewrite size_empty; unfold NBUF, LOGSIZE, MAXOPBLOCKS in *; lia|].
  apply wp_bind. eapply wp_Ok; [exact E2|]. apply wp_bind.
  eapply wp_mono; [apply (trunc_ind_loop bp s2)|].
  { split; [|by rewrite (tf_out _ _ F2)|by rewrite (tf_disk _ _ F2)|by apply holds_cons| |done].
    - rewrite <- (mv_ip _ _ _ _ G1) in G1 |- *. eapply moved_trans; [exact G1|]. by apply moved_tx.
    - by exists bs1, V1. }
  intros [] s3 HG3. destruct (held_indirect bp _ _ s3 HG3 a0_fresh) as [C3 _].
  destruct HG3 as [K1 K2 K3 K4 (bs3 & V3 & Hbs3 & T3 & Fr3) K6].
  destruct (tx_brelse p s3 _ bs3 V3 bp a0 T3) as (s4 & E4 & T4 & C4 & F4); [set_solver|done| |].
  { destruct (freed_use _ _ _ _ _ _ (bm_layout _ _ _ (ft_bitmap _ _ _ _ _ HT)) Fr3 a0_use a0_fresh) as [_ ->]. rewrite K3.
    destruct (tx_clean p s0 ∅ bs V a0 (ft_inv _ _ _ _ _ HT)) as [Hin|Hd]; [set_solver| |by right].
    left. destruct Hbs3 as [-> | ->]; [done|]. unfold logged. case_decide; set_solver. }
  apply wp_bind. eapply wp_Ok; [exact E4|]. apply wp_bind, wp_gets.
  assert (freeing ∅ ∅ (freed_upto NDIRECT ++ freed_ind NINDIRECT) (cleared NDIRECT) s4) as HG4.
  { split; [|by rewrite (tf_out _ _ F4)|by rewrite (tf_disk _ _ F4)|apply holds_empty| |done].
    - rewrite <- (mv_ip _ _ _ _ K1) in K1 |- *. eapply moved_trans; [exact K1|]. by apply moved_tx.
    - exists bs3, V3. split; [done|]. split; [|done]. by rewrite held_back in T4 by set_solver. }
  change (addr_of s4 ip NDIRECT) with (addr (inode_of s4 ip) NDIRECT). rewrite (mv_ip _ _ _ _ (fg_moved _ _ _ _ _ HG4)).
  rewrite cleared_addr by (fsnum; lia). rewrite decide_False by lia. apply wp_bind.
  destruct (free_one ∅ ∅ _ _ s4 a0 HG4 a0_use a0_fresh) as (s5 & E5 & HG5 & _); [set_solver|by rewrite size_empty; lia|].
  eapply wp_Ok; [exact E5|]. apply wp_modify. exact (freeing_upd _ _ _ _ _ (with_addr NDIRECT 0) HG5).
Qed.
End trunc.

(** ** The empty file *)

Definition emptied (x : inode) : inode := set_i_addrs (replicate NADDRS 0) x.
Lemma emptied_addr x i : addr (emptied x) i = 0.
Proof.
  unfold addr, emptied. cbn [i_addrs set_i_addrs]. destruct (replicate NADDRS 0 !! Z.to_nat i) as [a|] eqn:E; [|done].
  by apply lookup_replicate in E as [-> _].
Qed.
Lemma emptied_ok sb start V V' x v : inode_ok sb start V x → inode_ok sb start V' (set_i_size v (emptied x)).
Proof.
  intros H. assert (∀ i, addr (set_i_size v (emptied x)) i = 0) as Ha by apply emptied_addr.
  assert (∀ bn, fblk V' (set_i_size v (emptied x)) bn = 0) as Hf.
  { intros bn. unfold fblk, ind. rewrite !Ha. by destruct (bn <? NDIRECT). }
  split; [done|apply H|by rewrite Ha|intros bn _; by rewrite Hf|intros bn bn' _ _; by rewrite Hf].
Qed.
Lemma emptied_file sb start V V' x : file_ok sb start V x → file_ok sb start V' (set_i_size 0 (emptied x)).
Proof.
  intros [H1 [D1 D2 D3 D4 D5 D6 D7] H3 H4 H5]. split; [by eapply emptied_ok| |done|simpl; fsnum; lia|simpl; lia].
  split; try done. apply Forall_replicate. lia.
Qed.

(** The lists of freed blocks are the blocks of the file. *)
Definition all_blocks (V : Z → list Z) (x : inode) : list Z :=
  filter (λ a, a ≠ 0) (map (addr x) (seqZ 0 NDIRECT)) ++
  (if decide (addr x NDIRECT = 0) then []
   else filter (λ a, a ≠ 0) (map (ind V x) (seqZ 0 NINDIRECT)) ++ [addr x NDIRECT]).
Lemma all_blocks_mine V x b : b ∈ all_blocks V x ↔ b ≠ 0 ∧ mine V x b.
Proof.
  assert (b ∈ all_blocks V x ↔ b ≠ 0 ∧ (b ∈ map (addr x) (seqZ 0 NDIRECT) ∨
    addr x NDIRECT ≠ 0 ∧ (b ∈ map (ind V x) (seqZ 0 NINDIRECT) ∨ b = addr x NDIRECT))) as ->.
  { unfold all_blocks. generalize (map (addr x) (seqZ 0 NDIRECT)) (map (ind V x) (seqZ 0 NINDIRECT)). intros l l'.
    rewrite elem_of_app, list_elem_of_filter. case_decide as Hd.
    - rewrite elem_of_nil. tauto.
    - rewrite elem_of_app, list_elem_of_filter, list_elem_of_singleton.
      split; [intros [?|[?| ->]]; tauto|tauto]. }
  unfold mine. rewrite !list_elem_of_fmap. split; intros [Hb H]; (split; [done|]).
  - destruct H as [(k & -> & Hk%elem_of_seqZ)|[HI [(k & -> & Hk%elem_of_seqZ)| ->]]].
    + right. exists k. split; [fsnum; lia|]. unfold fblk. by rewrite (proj2 (Z.ltb_lt _ _)) by lia.
    + right. exists (NDIRECT + k). split; [fsnum; lia|]. unfold fblk. rewrite (proj2 (Z.ltb_ge _ _)) by lia. f_equal. lia.
    + by left.
  - destruct H as [->|(bn & Hbn & <-)]; [right; split; [done|by right]|]. unfold fblk in *.
    destruct (Z.ltb_spec bn NDIRECT) as [Hlt|Hge].
    + left. exists bn. split; [done|]. apply elem_of_seqZ. lia.
    + right. split; [intros E; unfold ind in Hb; by rewrite E in Hb|]. left. exists (bn - NDIRECT). split; [done|].
      apply elem_of_seqZ. fsnum. lia.
Qed.

Lemma cleared_all s ip V : file_ok (k_sb s) (lg_start (k_log s)) V (inode_of s ip) →
  with_addr NDIRECT 0 (cleared s ip NDIRECT) = emptied (inode_of s ip) ∧
  (addr (inode_of s ip) NDIRECT = 0 → cleared s ip NDIRECT = emptied (inode_of s ip)).
Proof.
  intros HF. pose proof (ik_addrs _ _ _ _ (fk_inode _ _ _ _ HF)) as Hl. unfold with_addr, cleared, emptied, addr.
  cbn [i_addrs set_i_addrs]. change (Z.to_nat NDIRECT) with 12%nat. change NADDRS with 13%nat in *.
  destruct (i_addrs (inode_of s ip)) as [|c0 [|c1 [|c2 [|c3 [|c4 [|c5 [|c6 [|c7 [|c8 [|c9 [|c10 [|c11 [|c12 [|]]]]]]]]]]]]]]; try done.
  cbn. split; [done|]. by intros ->.
Qed.

(** All of [itrunc] before the inode is written back. *)
Lemma itrunc_free p s bs V ip :
  let sb := k_sb s in let start := lg_start (k_log s) in let x := inode_of s ip in
  fs_tx p s ∅ bs V → (ip < length (k_itable s))%nat → file_ok sb start V x → sb_size sb ≤ BPB →
  Z.of_nat (length bs) < LOGSIZE - 3 →
  ∃ s1, itrunc ip s = (modify (upd_inode ip (set_i_size 0));; iupdate ip) s1 ∧
    freeing p s bs V ip ∅ ∅ (all_blocks V x) (emptied x) s1.
Proof.
  intros sb start x HT Hip HF Hone Hbs. unfold itrunc. rewrite bind_gets. fold x. rewrite (ik_dev _ _ _ _ (fk_inode _ _ _ _ HF)).
  destruct (cleared_all s ip V HF) as [Hc1 Hc2]. fold x in Hc1, Hc2.
  destruct (wp_inv _ _ _ (trunc_direct p s bs V ip HT Hip HF Hone Hbs)) as ([] & s1 & E1 & HG1).
  erewrite bind_Ok by exact E1. rewrite bind_gets.
  change (addr_of s1 ip NDIRECT) with (addr (inode_of s1 ip) NDIRECT).
  rewrite (mv_ip _ _ _ _ (fg_moved _ _ _ _ _ _ _ _ _ _ HG1)).
  rewrite (cleared_addr p s bs V ip HT Hip HF Hone Hbs) by (fsnum; lia). rewrite decide_False by lia. fold x.
  unfold all_blocks. change (filter (λ a, a ≠ 0) (map (addr x) (seqZ 0 NDIRECT))) with (freed_upto s ip NDIRECT).
  destruct (Z.eqb_spec (addr x NDIRECT) 0) as [Hz|Hn]; cbn [negb when].
  - rewrite decide_True, app_nil_r by done. exists s1. split; [by rewrite bind_ret|]. by rewrite <- Hc2.
  - rewrite decide_False by done.
    destruct (wp_inv _ _ _ (trunc_indirect p s bs V ip HT Hip HF Hone Hbs Hn s1 HG1)) as ([] & s2 & E2 & HG2).
    fold x in E2, HG2. erewrite bind_Ok by exact E2. exists s2. split; [done|]. rewrite <- Hc1, app_assoc. exact HG2.
Qed.

(** What truncation does to the disk. *)
Record truncated (sb : superblock) (start : Z) (V V' : Z → list Z) (x x' : inode) : Prop := {
  tr_file : file_ok sb start V' x';
  tr_bit b : 0 ≤ b < sb_size sb →
    bfree_bit sb V' b = true ↔ bfree_bit sb V b = true ∨ b ≠ 0 ∧ mine V x b;
  tr_other n : in_use sb start V n → ¬ mine V x n → in_use sb start V' n ∧ V' n = V n;
  tr_disk i : 0 ≤ i < sb_ninodes sb →
    inode_at V' sb i = if decide (i = i_inum x) then dinode_of x' else inode_at V sb i;
}.

(** Writing the emptied inode back. *)
Lemma truncated_updated sb start V V1 x F :
  layout_ok sb start → file_ok sb start V x → freed sb V V1 F → (∀ b, b ∈ F ↔ b ≠ 0 ∧ mine V x b) →
  (∀ n, length (V1 n) = Z.to_nat BSIZE) →
  let x' := set_i_size 0 (emptied x) in truncated sb start V (updated sb V1 x') x x'.
Proof.
  intros HL HF Fr HFm Hlen x'. pose proof (fk_inum _ _ _ _ HF) as Hi.
  assert (∀ n, n ≠ IBLOCK (i_inum x) sb → updated sb V1 x' n = V1 n) as Hu by (intros n Hn; by apply supd_ne).
  assert (∀ b, 0 ≤ b < sb_size sb → bfree_bit sb (updated sb V1 x') b = bfree_bit sb V1 b) as Hb.
  { intros b Hb. unfold bfree_bit. rewrite Hu; [done|]. intros E. by apply (ly_apart _ _ HL (i_inum x) b). }
  pose proof (emptied_file sb start V (updated sb V1 x') x HF) as HF'. split.
  - done.
  - intros b Hr. rewrite Hb, (fr_bit _ _ _ _ Fr), orb_true_iff, bool_decide_eq_true, HFm by done. done.
  - intros n Hn Hm. destruct (freed_use _ _ _ _ _ n HL Fr Hn) as [[D Hx] Hy]; [rewrite HFm; tauto|].
    split; [split; [done|]|]; rewrite ?Hb by (pose proof (db_range _ _ _ D); lia); [done|].
    rewrite Hu; [done|]. intros ->. by apply (db_inode _ _ _ D _ Hi).
  - intros i Hir. rewrite (updated_at sb V1 x' i Hlen) by (done || lia || apply HF').
    change (i_inum x') with (i_inum x). case_decide; [done|]. unfold inode_at. f_equal.
    apply (fr_same _ _ _ _ Fr). intros b Hbr E. by apply (ly_apart _ _ HL i b).
Qed.

(** C19. [itrunc] empties a file, on a disk of one bitmap block: the inode has
    size 0 and no block, in memory and on the disk, exactly the blocks of the file and its
    indirect block become free, and the blocks of other files and the other inodes are as
    before.  At most two blocks are added to the transaction. *)
Theorem itrunc_spec p s bs V ip :
  let sb := k_sb s in let start := lg_start (k_log s) in let x := inode_of s ip in
  fs_tx p s ∅ bs V → (ip < length (k_itable s))%nat → file_ok sb start V x → sb_size sb ≤ BPB →
  Z.of_nat (length bs) < LOGSIZE - 3 →
  ∃ s' bs' V', itrunc ip s = Ok () s' ∧ fs_tx p s' ∅ bs' V' ∧ (length bs' ≤ length bs + 2)%nat ∧
    let x' := set_i_size 0 (set_i_addrs (replicate NADDRS 0) x) in
    moved ip s s' x' ∧ truncated sb start V V' x x'.
Proof.
  intros sb start x HT Hip HF Hone Hbs.
  destruct (itrunc_free p s bs V ip HT Hip HF Hone Hbs) as (s1 & E & HG). rewrite E. rewrite bind_modify.
  pose proof (freeing_upd p s bs V ip HT Hip HF Hone Hbs _ _ _ _ _ (set_i_size 0) HG) as HG2.
  set (s2 := upd_inode ip (set_i_size 0) s1) in *. set (x' := set_i_size 0 (emptied x)) in *.
  destruct HG2 as [G1 G2 G3 G4 (bs1 & V1 & Hbs1 & T1 & Fr) G6]. fold x x' in G1.
  pose proof (mv_frame _ _ _ _ G1) as FF. pose proof (fs_frame_sb _ _ FF) as Esb. pose proof (ff_start _ _ FF) as Est.
  fold sb start in Esb, Est. pose proof (ft_bitmap _ _ _ _ _ HT) as HB. fold sb start in HB.
  assert (length bs1 ≤ S (length bs))%nat as Hl by (destruct Hbs1 as [-> | ->]; [lia|apply length_logged]).
  assert (fs_tx p s2 ∅ bs1 V1) as T2.
  { split; [done| |rewrite G2; apply HT]. rewrite Esb, Est. by eapply freed_bitmap. }
  destruct (iupdate_Ok p s2 bs1 V1 ip T2) as (s3 & E3 & T3 & M3).
  - rewrite Esb, Est, (mv_ip _ _ _ _ G1). apply (emptied_file sb start V V1 x HF).
  - rewrite Esb, (mv_ip _ _ _ _ G1). apply HF.
  - lia.
  - rewrite (mv_ip _ _ _ _ G1), Esb in *. exists s3, (logged bs1 (IBLOCK (i_inum x') sb)), (updated sb V1 x').
    split; [exact E3|]. split; [exact T3|]. split; [pose proof (length_logged bs1 (IBLOCK (i_inum x') sb)); lia|].
    split; [by eapply moved_trans|]. eapply truncated_updated; [apply HB|done|done|apply all_blocks_mine|].
    intros n. by eapply tx_length.
Qed.
