(* ===== verification/FsTable.v ===== *)
(** * The inode table

    An entry of the table is named by a reference count; at most one entry
    with references stands for an inode of a device. *)

From stdpp Require Import options.
From S2P Require Import Prelude CString State Sched Sleeplock Bio Block Log Copy Fs FsInode.
#[local] Open Scope Z_scope.

(** Entry [i] stands for inode [inum] of [dev]. *)
Definition stands (s : kst) (i : nat) (dev inum : Z) : Prop :=
  0 < i_ref (inode_of s i) ∧ i_dev (inode_of s i) = dev ∧ i_inum (inode_of s i) = inum.
#[export] Instance stands_dec s i dev inum : Decision (stands s i dev inum).
Proof. unfold stands. apply _. Defined.

Record itable_ok (s : kst) : Prop := {
  it_len : length (k_itable s) = NINODE;
  it_ref i : 0 ≤ i_ref (inode_of s i);
  it_uniq i j dev inum : stands s i dev inum → stands s j dev inum → i = j;
}.

(** Only entry [ip] of the table changes, and becomes [x]. *)
Record entry_set (ip : nat) (x : inode) (s s' : kst) : Prop := {
  es_eq : s' = set_k_itable (k_itable s') s;
  es_tab : k_itable s' = <[ip := x]> (k_itable s);
}.
Lemma entry_set_at ip x s s' : (ip < length (k_itable s))%nat → entry_set ip x s s' → inode_of s' ip = x.
Proof. intros Hi [_ E]. unfold inode_of. by rewrite E, list_lookup_insert_eq. Qed.
Lemma entry_set_ne ip x s s' j : entry_set ip x s s' → j ≠ ip → inode_of s' j = inode_of s j.
Proof. intros [_ E] Hj. unfold inode_of. by rewrite E, list_lookup_insert_ne. Qed.
Lemma entry_set_out s i : (length (k_itable s) ≤ i)%nat → inode_of s i = inode0.
Proof. intros Hi. unfold inode_of. by rewrite lookup_ge_None_2. Qed.
Lemma stands_lt s i dev inum : stands s i dev inum → (i < length (k_itable s))%nat.
Proof.
  intros [Hr _]. destruct (decide (i < length (k_itable s))%nat); [done|].
  rewrite entry_set_out in Hr by lia. done.
Qed.

(** An update of one entry that keeps what it stands for, or makes it stand
    for an inode that no other entry does. *)
Lemma itable_set ip x s s' : itable_ok s → entry_set ip x s s' → (ip < NINODE)%nat → 0 ≤ i_ref x →
  (∀ j, 0 < i_ref x → j ≠ ip → ¬ stands s j (i_dev x) (i_inum x)) → itable_ok s'.
Proof.
  intros [T1 T2 T3] HE Hip Hr Hn. assert (ip < length (k_itable s))%nat as Hip' by lia.
  pose proof (entry_set_at _ _ _ _ Hip' HE) as Ex. pose proof (λ j, entry_set_ne _ _ _ _ j HE) as Eo. split.
  - by rewrite (es_tab _ _ _ _ HE), length_insert.
  - intros i. destruct (decide (i = ip)) as [->|Hi]; [by rewrite Ex|by rewrite Eo].
  - intros i j dev inum. unfold stands.
    destruct (decide (i = ip)) as [->|Hi], (decide (j = ip)) as [->|Hj]; rewrite ?Ex, ?Eo by done; try done.
    + intros (A1 & <- & <-) B. by destruct (Hn j A1 Hj).
    + intros A (B1 & <- & <-). by destruct (Hn i B1 Hi).
    + apply T3.
Qed.

(** ** iget *)

Lemma iget_scan_Ok dev inum s n : ∀ i empty,
  ∃ r, iget_scan n i empty dev inum s = Ok r s ∧
    match r with
    | inl j => (i ≤ j < i + n)%nat ∧ stands s j dev inum
    | inr e => (∀ j, (i ≤ j < i + n)%nat → ¬ stands s j dev inum) ∧
        (e = empty ∧ empty ≠ None ∨ empty = None ∧
          match e with
          | Some j => (i ≤ j < i + n)%nat ∧ i_ref (inode_of s j) = 0
          | None => ∀ j, (i ≤ j < i + n)%nat → i_ref (inode_of s j) ≠ 0
          end)
    end.
Proof.
  induction n as [|n IH]; intros i empty.
  { eexists. split; [done|]. split; [intros; lia|]. destruct empty; [by left|right; split; [done|intros; lia]]. }
  cbn [iget_scan]. rewrite bind_gets.
  destruct ((0 <? i_ref (inode_of s i)) && (i_dev (inode_of s i) =? dev) && (i_inum (inode_of s i) =? inum)) eqn:E.
  { eexists. split; [done|]. split; [lia|]. apply andb_true_iff in E as [[E1 E2]%andb_true_iff E3].
    split; [by apply Z.ltb_lt|]. split; by apply Z.eqb_eq. }
  assert (¬ stands s i dev inum) as Hn.
  { intros (H1 & H2 & H3). apply Z.ltb_lt in H1. rewrite H1, H2, H3, !Z.eqb_refl in E. done. }
  destruct (IH (S i) (match empty with None => if i_ref (inode_of s i) =? 0 then Some i else None | Some _ => empty end))
    as (r & -> & Hr). exists r. split; [done|]. destruct r as [j|e]; [split; [lia|apply Hr]|].
  destruct Hr as [Hr1 Hr2]. split.
  - intros j Hj. destruct (decide (j = i)) as [->|]; [done|]. apply Hr1. lia.
  - destruct empty as [k|]; [left; destruct Hr2 as [[-> _]|[? _]]; done|]. right. split; [done|].
    destruct (Z.eqb_spec (i_ref (inode_of s i)) 0) as [Hz|Hz].
    + destruct Hr2 as [[-> _]|[? _]]; [|done]. split; [lia|done].
    + destruct Hr2 as [[_ ?]|[_ Hr2]]; [done|]. destruct e as [j|].
      * split; [lia|apply Hr2].
      * intros j Hj. destruct (decide (j = i)) as [->|]; [done|]. apply Hr2. lia.
Qed.

(** The entry [iget] returns: a reference is added to the one that stands for
    the inode, or a free one is made to. *)
Definition igot (s : kst) (ip : nat) (dev inum : Z) : inode :=
  if decide (stands s ip dev inum) then set_i_ref (i_ref (inode_of s ip) + 1) (inode_of s ip)
  else set_i_valid false (set_i_ref 1 (set_i_inum inum (set_i_dev dev (inode_of s ip)))).

(** A change of one entry made while the lock is held. *)
Lemma upd_inode_twice ip f g s : upd_inode ip g (upd_inode ip f s) = upd_inode ip (λ x, g (f x)) s.
Proof.
  assert (alter g ip (alter f ip (k_itable s)) = alter (λ x, g (f x)) ip (k_itable s)) as E.
  { apply list_eq. intros i. destruct (decide (i = ip)) as [->|Hi]; [|by rewrite !list_lookup_alter_ne].
    rewrite !list_lookup_alter_eq. by destruct (k_itable s !! ip). }
  unfold upd_inode. simpl. by rewrite E.
Qed.
Lemma entry_set_locked ip f l s : (ip < length (k_itable s))%nat →
  entry_set ip (f (inode_of s ip)) s (set_k_held (k_held s) (upd_inode ip f (set_k_held l s))).
Proof.
  intros Hi. split; [by destruct s|]. unfold inode_of, upd_inode. simpl.
  destruct (lookup_lt_is_Some_2 _ _ Hi) as [x Hx]. rewrite Hx. simpl. apply list_eq. intros i.
  destruct (decide (i = ip)) as [->|Hne]; [|by rewrite list_lookup_alter_ne, list_lookup_insert_ne].
  by rewrite list_lookup_alter_eq, list_lookup_insert_eq, Hx.
Qed.

Lemma igot_ok dev inum s ip s' : itable_ok s → (ip < NINODE)%nat → entry_set ip (igot s ip dev inum) s s' →
  stands s ip dev inum ∨ i_ref (inode_of s ip) = 0 ∧ (∀ j, ¬ stands s j dev inum) →
  itable_ok s' ∧ stands s' ip dev inum.
Proof.
  intros HT Hip HE Hs. pose proof (it_len _ HT) as Hlen.
  assert (0 < i_ref (igot s ip dev inum) ∧ i_dev (igot s ip dev inum) = dev ∧ i_inum (igot s ip dev inum) = inum)
    as (A1 & A2 & A3).
  { unfold igot. case_decide as Hd; [|done]. destruct Hd as (H1 & H2 & H3). simpl. split_and!; [lia|done|done]. }
  split; [|unfold stands; by rewrite (entry_set_at ip _ s s' ltac:(lia) HE)].
  eapply itable_set; [done|exact HE|done|lia|]. rewrite A2, A3. intros j _ Hj.
  destruct Hs as [Hs|[_ Hs]]; [|apply Hs]. intros Hj'. apply Hj. by eapply (it_uniq _ HT).
Qed.

(** Either all entries are in use and none stands for the inode, or [iget]
    returns one. *)
Lemma iget_Ok dev inum s : itable_ok s → LK_itable ∉ k_held s →
  ((∀ j, ¬ stands s j dev inum) ∧ (∀ j, (j < NINODE)%nat → i_ref (inode_of s j) ≠ 0) ∧
    iget dev inum s = Panic "iget: no inodes") ∨
  ∃ ip s', iget dev inum s = Ok ip s' ∧ (ip < NINODE)%nat ∧ entry_set ip (igot s ip dev inum) s s' ∧
    itable_ok s' ∧ stands s' ip dev inum ∧ (stands s ip dev inum ∨ i_ref (inode_of s ip) = 0 ∧ ∀ j, ¬ stands s j dev inum).
Proof.
  intros HT Hl. pose proof (it_len _ HT) as Hlen. unfold iget. rewrite bind_acquire by done.
  set (s1 := set_k_held (LK_itable :: k_held s) s).
  destruct (iget_scan_Ok dev inum s1 NINODE 0 None) as (r & E & Hr). erewrite bind_Ok by exact E.
  assert (∀ j, ¬ (j < NINODE)%nat → ¬ stands s j dev inum) as Hout.
  { intros j Hj Hs. apply stands_lt in Hs. lia. }
  destruct r as [ip|[ip|]].
  - destruct Hr as [Hip Hs]. change (stands s ip dev inum) in Hs. right.
    rewrite bind_modify, (bind_release LK_itable (k_held s)) by done.
    pose proof (entry_set_locked ip (λ x, set_i_ref (i_ref x + 1) x) (LK_itable :: k_held s) s ltac:(lia)) as HE.
    assert (igot s ip dev inum = set_i_ref (i_ref (inode_of s ip) + 1) (inode_of s ip)) as Hg.
    { unfold igot. by rewrite decide_True. }
    cbv beta in HE. rewrite <- Hg in HE. destruct (igot_ok dev inum s ip _ HT ltac:(lia) HE) as [H1 H2]; [by left|].
    eexists ip, _. split; [done|]. split_and!; [lia|exact HE|exact H1|exact H2|by left].
  - destruct Hr as [Hno [[? _]|[_ [Hip Hz]]]]; [done|]. right.
    assert (∀ j, ¬ stands s j dev inum) as Hno'.
    { intros j. destruct (decide (j < NINODE)%nat); [apply Hno; lia|by apply Hout]. }
    rewrite !bind_modify, (bind_release LK_itable (k_held s)) by done. rewrite !upd_inode_twice.
    pose proof (entry_set_locked ip (λ x, set_i_valid false (set_i_ref 1 (set_i_inum inum (set_i_dev dev x))))
      (LK_itable :: k_held s) s ltac:(lia)) as HE.
    assert (igot s ip dev inum = set_i_valid false (set_i_ref 1 (set_i_inum inum (set_i_dev dev (inode_of s ip))))) as Hg.
    { unfold igot. by rewrite decide_False. }
    cbv beta in HE. rewrite <- Hg in HE. destruct (igot_ok dev inum s ip _ HT ltac:(lia) HE) as [H1 H2]; [by right|].
    eexists ip, _. split; [done|]. split_and!; [lia|exact HE|exact H1|exact H2|by right].
  - destruct Hr as [Hno [[_ ?]|[_ Hr]]]; [done|]. left. split_and!; [|intros j Hj; apply Hr; lia|done].
    intros j. destruct (decide (j < NINODE)%nat); [apply Hno; lia|by apply Hout].
Qed.

(** ** iput *)

(** Giving back a reference that is not the last one to a file without links. *)
Lemma iput_drop ip s : let x := inode_of s ip in
  itable_ok s → (ip < NINODE)%nat → LK_itable ∉ k_held s → 0 < i_ref x →
  ¬ (i_ref x = 1 ∧ i_valid x = true ∧ i_nlink x = 0) →
  ∃ s', iput ip s = Ok () s' ∧ entry_set ip (set_i_ref (i_ref x - 1) x) s s' ∧ itable_ok s'.
Proof.
  intros x HT Hip Hl Hr Hn. pose proof (it_len _ HT) as Hlen. unfold iput. rewrite bind_acquire by done. rewrite bind_gets.
  change (inode_of (set_k_held (LK_itable :: k_held s) s) ip) with x.
  assert ((i_ref x =? 1) && i_valid x && (i_nlink x =? 0) = false) as ->.
  { destruct (Z.eqb_spec (i_ref x) 1), (i_valid x) eqn:?, (Z.eqb_spec (i_nlink x) 0); try done. tauto. }
  cbn [when]. rewrite bind_ret, bind_modify, (release_top LK_itable (k_held s)) by done.
  pose proof (entry_set_locked ip (λ x, set_i_ref (i_ref x - 1) x) (LK_itable :: k_held s) s ltac:(lia)) as HE.
  eexists. split; [done|]. split; [exact HE|]. eapply itable_set; [done|exact HE|done|simpl; fold x; lia|].
  simpl. fold x. intros j Hj Hne Hs. apply Hne. eapply (it_uniq _ HT); [done|]. by split.
Qed.
(** A reference that [iget] just gave can always be given back. *)
Lemma igot_drop dev inum s ip : itable_ok s → let x := igot s ip dev inum in
  0 < i_ref x ∧ ¬ (i_ref x = 1 ∧ i_valid x = true ∧ i_nlink x = 0).
Proof.
  intros HT. unfold igot. case_decide as Hd; simpl; [destruct Hd as [? _]; lia|]. split; [lia|]. by intros (_ & ? & _).
Qed.
