(* ===== verification/FsDir.v ===== *)
(** * Directories

    A directory is a file of 16-byte entries.  [dirlookup] finds the first entry in
    use with the name it is given, and [dirlink] puts a new one into the first
    free slot. *)

From stdpp Require Import options.
From S2P Require Import Prelude CString State Sched Sleeplock Bio BioList BioSpec Block Log LogSpec LogCrash LogTx Kalloc Vm PageTable VmWalk VmSpec VmOps VmFree VmCopy VmProps Copy UserMem EitherCopy Fs FsCodec FsAlloc FsInode FsFile FsProps FsTable.
#[local] Open Scope Z_scope.

(** ** Entries *)

(** The bytes before the first NUL. *)
Fixpoint cut0 (l : list Z) : list Z :=
  match l with
  | [] => []
  | b :: l => if b =? 0 then [] else b :: cut0 l
  end.
Lemma cstrn_cut m p n : cstrn m p n = cut0 (rd_bytes m p n).
Proof. revert p. induction n as [|n IH]; intros p; simpl; [done|]. by rewrite IH. Qed.

(** Entry [k] of the directory [x] on the disk [V]. *)
Definition fbytes (V : Z → list Z) (x : inode) (o : Z) (n : nat) : list Z :=
  map (λ i, fbyte V x (o + Z.of_nat i)) (seq 0 n).
Definition ent_inum (V : Z → list Z) (x : inode) (k : Z) : Z := le_val (fbytes V x (k * sizeof_dirent) 2).
Definition ent_name (V : Z → list Z) (x : inode) (k : Z) : list Z :=
  cut0 (fbytes V x (k * sizeof_dirent + 2) (Z.to_nat DIRSIZ)).
Definition names (V : Z → list Z) (x : inode) (nm : list Z) (k : Z) : Prop :=
  ent_inum V x k ≠ 0 ∧ ent_name V x k = nm.
#[export] Instance names_dec V x nm k : Decision (names V x nm k).
Proof. unfold names. apply _. Defined.
Definition nents (x : inode) : Z := i_size x / sizeof_dirent.

(** A directory: a file of whole entries. *)
Record dir_ok (sb : superblock) (start : Z) (V : Z → list Z) (x : inode) : Prop := {
  dk_file : file_ok sb start V x;
  dk_type : i_type x = T_DIR;
  dk_whole : i_size x mod sizeof_dirent = 0;
}.

Lemma nents_whole sb start V x : dir_ok sb start V x → nents x * sizeof_dirent = i_size x.
Proof.
  intros HD. pose proof (Z.div_mod (i_size x) sizeof_dirent ltac:(done)) as E.
  rewrite (dk_whole _ _ _ _ HD) in E. unfold nents. lia.
Qed.

Lemma nents_nonneg sb start V x : dir_ok sb start V x → 0 ≤ nents x.
Proof.
  intros HD. assert (0 ≤ i_size x) by apply (dk_file _ _ _ _ HD). by apply Z.div_pos.
Qed.

(** The first entry that names [nm], and its number. *)
Definition first_ent (P : Z → Prop) (n k : Z) : Prop := 0 ≤ k < n ∧ P k ∧ ∀ j, 0 ≤ j < k → ¬ P j.
Definition no_ent (P : Z → Prop) (n : Z) : Prop := ∀ k, 0 ≤ k < n → ¬ P k.

(** ** Reading an entry *)

(** Only the entry buffer at [de] and the scratch area of memory changed. *)
Record looked (de : Z) (s s' : kst) : Prop := {
  lk_mem a : ¬ scratch a → ¬ (de ≤ a < de + sizeof_dirent) → rd (k_mem s') a = rd (k_mem s) a;
  lk_ok : mem_ok (k_mem s) → mem_ok (k_mem s');
  lk_itable : k_itable s' = k_itable s;
  lk_frame : fs_frame s s';
}.
Lemma looked_refl de s : looked de s s.
Proof. by split. Qed.
Lemma looked_trans de s1 s2 s3 : looked de s1 s2 → looked de s2 s3 → looked de s1 s3.
Proof.
  intros [A1 A2 A3 A4] [B1 B2 B3 B4]. split; [|by auto|congruence|by etrans].
  intros a H1 H2. by rewrite B1, A1.
Qed.
Lemma looked_inode de s s' ip : looked de s s' → inode_of s' ip = inode_of s ip.
Proof. intros H. unfold inode_of. by rewrite (lk_itable _ _ _ H). Qed.
Lemma delivered_looked p de f s s' : delivered false p de sizeof_dirent f s s' → looked de s s'.
Proof.
  intros [D1 D2 D3 D4 D5 D6]. split; try done. intros a H1 H2. apply D2; [done|].
  intros i Hi [= <-]. apply H2. lia.
Qed.

(** An entry buffer on the kernel stack of the running process. *)
Lemma stack_buffer p s o n : uctx p s → 0 ≤ o → 0 ≤ n → o + n ≤ 2 * PGSIZE →
  buffer false p (KSTACK (Z.of_nat p) + o) n s.
Proof.
  intros Hc Ho Hn Hon. pose proof (KSTACK_high p o (uc_p _ _ Hc) Ho) as Hh. pose proof (uc_p _ _ Hc) as Hp.
  split; [done| |done|].
  - unfold NPROC in Hp. unfold KSTACK, TRAMPOLINE in *. change MAXVA with (2 ^ 38) in *. unfold PHYSTOP, KERNBASE, PGSIZE in *. lia.
  - intros _. split; [by eapply kernel_high; [apply (us_wf _ _ _ (uc_space _ _ Hc))|]|].
    right. unfold KOBJ, PHYSTOP, KERNBASE in *. change BSIZE with 1024. lia.
Qed.

(** The memory holds entry [k] at [de]. *)
Lemma entry_bytes V x de off m : (∀ i, 0 ≤ i < sizeof_dirent → rd m (de + i) = fbyte V x (off + i)) →
  ∀ o n, 0 ≤ o → o + Z.of_nat n ≤ sizeof_dirent → rd_bytes m (de + o) n = fbytes V x (off + o) n.
Proof.
  intros H o n Ho Hn. apply list_eq. intros i. unfold fbytes. destruct (decide (i < n)%nat) as [Hi|Hi].
  - rewrite lookup_rd_bytes by done. rewrite list_lookup_fmap, lookup_seq_lt by done. simpl. f_equal.
    replace (de + o + Z.of_nat i) with (de + (o + Z.of_nat i)) by lia. rewrite H by lia. f_equal. lia.
  - rewrite !lookup_ge_None_2; [done|rewrite length_fmap, length_seq; lia|rewrite length_rd_bytes; lia].
Qed.

(** What the locals of the callers of [readi] need. *)
Record dir_state (p : nat) (s : kst) (bs : list Z) (V : Z → list Z) (dp : nat) : Prop := {
  ds_tx : fs_tx p s ∅ bs V;
  ds_dp : (dp < length (k_itable s))%nat;
  ds_dir : dir_ok (k_sb s) (lg_start (k_log s)) V (inode_of s dp);
  ds_room : (length bs < NBUF)%nat;
  ds_ctx : uctx p s;
}.
Lemma looked_uctx p de s s' o : uctx p s → de = KSTACK (Z.of_nat p) + o → 0 ≤ o → o + sizeof_dirent ≤ 2 * PGSIZE →
  looked de s s' → uctx p s'.
Proof.
  intros Hc -> Ho Ho' HL. pose proof (stack_buffer p s o sizeof_dirent Hc Ho ltac:(unfold sizeof_dirent; lia) Ho') as HB.
  destruct HL as [L1 L2 L3 L4]. pose proof (bf_kernel _ _ _ _ _ HB eq_refl) as [HK _].
  assert (uctx p (set_k_mem (k_mem s') s)) as Hm.
  { apply uctx_mem; [done|by apply L2, Hc|]. intros q a Hq Ha. apply L1.
    - intros Hs. by apply (scratch_kernel p s Hc a q Hs (tabs_owns _ _ _ Hq)).
    - intros Hd. by apply (HK a q Hd (tabs_owns _ _ _ Hq)). }
  eapply (uctx_frame p (set_k_mem (k_mem s') s)); [|done|done].
  destruct L4 as [A1 A2 A3 A4]. by split.
Qed.
Lemma looked_state p de o s s' bs V dp : dir_state p s bs V dp → de = KSTACK (Z.of_nat p) + o → 0 ≤ o →
  o + sizeof_dirent ≤ 2 * PGSIZE → looked de s s' → fs_tx p s' ∅ bs V → dir_state p s' bs V dp.
Proof.
  intros [D1 D2 D3 D4 D5] Hde Ho Ho' HL HT. pose proof (lk_frame _ _ _ HL) as F. split; [done| | |done|].
  - by rewrite (lk_itable _ _ _ HL).
  - rewrite (looked_inode _ _ _ _ HL), (fs_frame_sb _ _ F). by rewrite (ff_start _ _ F).
  - by eapply looked_uctx.
Qed.

Lemma read_entry p s bs V dp o k : dir_state p s bs V dp → 0 ≤ o → o + sizeof_dirent ≤ 2 * PGSIZE →
  0 ≤ k < nents (inode_of s dp) →
  let de := KSTACK (Z.of_nat p) + o in let x := inode_of s dp in
  ∃ s', readi dp false de (k * sizeof_dirent) sizeof_dirent s = Ok sizeof_dirent s' ∧
    dir_state p s' bs V dp ∧ looked de s s' ∧
    de_inum (k_mem s') de = ent_inum V x k ∧ cstrn (k_mem s') (de_name de) (Z.to_nat DIRSIZ) = ent_name V x k.
Proof.
  intros HD Ho Ho' Hk de x. pose proof HD as [D1 D2 D3 D4 D5]. fold x in D3. pose proof (dk_whole _ _ _ _ D3) as Hw.
  pose proof (fk_size _ _ _ _ (dk_file _ _ _ _ D3)) as Hsz.
  assert ((k + 1) * sizeof_dirent ≤ i_size x) as Hend.
  { pose proof (nents_whole _ _ _ _ D3). fold x in Hk. unfold sizeof_dirent in *. lia. }
  assert (Z.max 0 (Z.min sizeof_dirent (i_size x - k * sizeof_dirent)) = sizeof_dirent) as Hr by (unfold sizeof_dirent in *; lia).
  pose proof (stack_buffer p s o sizeof_dirent D5 Ho ltac:(unfold sizeof_dirent; lia) Ho') as HB.
  destruct (readi_Ok p s bs V dp false de (k * sizeof_dirent) sizeof_dirent) as (s' & E & T & D); fold x; rewrite ?Hr; try done.
  - apply D3.
  - unfold sizeof_dirent in *. lia.
  - unfold sizeof_dirent in *. fsnum. lia.
  - fold x in E, D. rewrite Hr in E, D. pose proof (delivered_looked _ _ _ _ _ D) as HL. exists s'.
    assert (∀ i, 0 ≤ i < sizeof_dirent → rd (k_mem s') (de + i) = fbyte V x (k * sizeof_dirent + i)) as Hb.
    { intros i Hi. pose proof (dl_byte _ _ _ _ _ _ _ D i Hi) as Hx. by injection Hx. }
    split; [done|]. split; [by eapply looked_state|]. split; [done|]. split.
    + unfold de_inum, ent_inum. f_equal. pose proof (entry_bytes V x de _ _ Hb 0 2) as Hx. rewrite !Z.add_0_r in Hx.
      by apply Hx.
    + unfold de_name, ent_name. rewrite cstrn_cut. f_equal. apply (entry_bytes V x de); [done|lia|]. unfold sizeof_dirent. done.
Qed.

(** ** dirlookup *)

Definition DE_LOOKUP (p : nat) : Z := KSTACK (Z.of_nat p) + L_de_lookup.
(** The name the caller passes is not in the way of the entry buffer. *)
Definition name_apart (de name : Z) : Prop :=
  ∀ i, 0 ≤ i < DIRSIZ → ¬ scratch (name + i) ∧ ¬ (de ≤ name + i < de + sizeof_dirent).
Definition name_at (s : kst) (name : Z) : list Z := cstrn (k_mem s) name (Z.to_nat DIRSIZ).

Lemma looked_name de s s' name : looked de s s' → name_apart de name → name_at s' name = name_at s name.
Proof.
  intros HL Ha. apply cstrn_ext. intros a Hr. change (Z.of_nat (Z.to_nat DIRSIZ)) with DIRSIZ in Hr.
  destruct (Ha (a - name)) as [H1 H2]; [lia|]. replace (name + (a - name)) with a in * by lia.
  by apply (lk_mem _ _ _ HL).
Qed.
Lemma ds_held p s bs V dp : dir_state p s bs V dp → k_held s = [].
Proof. intros HD. apply (ds_tx _ _ _ _ _ HD). Qed.

(** The table has room for one more inode. *)
Definition itable_room (s : kst) : Prop := ∃ j, (j < NINODE)%nat ∧ i_ref (inode_of s j) = 0.
Lemma iget_room dev inum s : itable_ok s → LK_itable ∉ k_held s → itable_room s →
  ∃ ip s', iget dev inum s = Ok ip s' ∧ (ip < NINODE)%nat ∧ entry_set ip (igot s ip dev inum) s s' ∧
    itable_ok s' ∧ stands s' ip dev inum ∧ (stands s ip dev inum ∨ i_ref (inode_of s ip) = 0 ∧ ∀ j, ¬ stands s j dev inum).
Proof.
  intros HT Hl (j & Hj & Hz). destruct (iget_Ok dev inum s HT Hl) as [(_ & Hn & _)|H]; [by destruct (Hn j Hj)|done].
Qed.

(** The entry [iget] takes: one that stands for the inode, or a free one when there is none. *)
Definition takes (s : kst) (ip : nat) (dev inum : Z) : Prop :=
  stands s ip dev inum ∨ i_ref (inode_of s ip) = 0 ∧ ∀ j, ¬ stands s j dev inum.

(** The iteration of [dirlookup] at entry [k]. *)
Definition lookup_step (dp : nat) (dev name de : Z) (k : Z) : K (option (nat * Z)) :=
  let off := k * sizeof_dirent in
  r ← readi dp false de off sizeof_dirent;
  if negb (r =? sizeof_dirent) then panic "dirlookup read" else
  inum ← gets (λ s, de_inum (k_mem s) de);
  if inum =? 0 then mret None else
  c ← namecmp name (de_name de);
  if c =? 0 then
    ip ← iget dev inum;
    mret (Some (ip, off))
  else mret None.
Lemma lookup_step_Ok p s bs V dp name k :
  let x := inode_of s dp in
  dir_state p s bs V dp → itable_ok s → itable_room s → name_apart (DE_LOOKUP p) name → 0 ≤ k < nents x →
  ∃ s1, looked (DE_LOOKUP p) s s1 ∧ dir_state p s1 bs V dp ∧
    if decide (names V x (name_at s name) k) then
      ∃ ip s', lookup_step dp (i_dev x) name (DE_LOOKUP p) k s = Ok (Some (ip, k * sizeof_dirent)) s' ∧
        (ip < NINODE)%nat ∧ entry_set ip (igot s1 ip (i_dev x) (ent_inum V x k)) s1 s' ∧ itable_ok s' ∧
        stands s' ip (i_dev x) (ent_inum V x k) ∧ takes s1 ip (i_dev x) (ent_inum V x k)
    else lookup_step dp (i_dev x) name (DE_LOOKUP p) k s = Ok None s1.
Proof.
  intros x HD HT HR Ha Hk. unfold DE_LOOKUP in *.
  destruct (read_entry p s bs V dp L_de_lookup k HD) as (s1 & E & HD1 & HL & Hi & Hn); [done|done|done|].
  fold x in Hi, Hn. set (de := KSTACK (Z.of_nat p) + L_de_lookup) in *.
  exists s1. split; [done|]. split; [done|]. unfold lookup_step. erewrite bind_Ok by exact E.
  rewrite Z.eqb_refl. cbn [negb]. rewrite bind_gets, Hi. unfold names. 
  destruct (Z.eqb_spec (ent_inum V x k) 0) as [Hz|Hz]; [rewrite decide_False by tauto; done|].
  unfold namecmp. rewrite bind_gets. unfold strncmp.
  pose proof (strncmp_loop_zero (Z.to_nat DIRSIZ) (k_mem s1) name (de_name de) (uc_mem _ _ (ds_ctx _ _ _ _ _ HD1))) as Hc.
  change (cstrn (k_mem s1) name (Z.to_nat DIRSIZ)) with (name_at s1 name) in Hc.
  rewrite Hn, (looked_name _ _ _ _ HL Ha) in Hc.
  destruct (Z.eqb_spec (strncmp_loop (k_mem s1) name (de_name de) (Z.to_nat DIRSIZ)) 0) as [Hq|Hq].
  - rewrite decide_True by (split; [done|symmetry; by apply Hc]).
    assert (itable_ok s1) as HT1.
    { destruct HT as [T1 T2 T3]. split; [by rewrite (lk_itable _ _ _ HL)|intros i; by rewrite (looked_inode _ _ _ _ HL)|].
      intros i j dev inum. unfold stands. rewrite !(looked_inode _ _ _ _ HL). apply T3. }
    destruct (iget_room (i_dev x) (ent_inum V x k) s1 HT1) as (ip & s' & E1 & Hip & HE & HT' & Hs & Htk).
    + rewrite (ds_held _ _ _ _ _ HD1). set_solver.
    + destruct HR as (j & Hj & Hjz). exists j. split; [done|]. by rewrite (looked_inode _ _ _ _ HL).
    + exists ip, s'. erewrite bind_Ok by exact E1. done.
  - rewrite decide_False; [done|]. intros [_ Hx]. by apply Hq, Hc.
Qed.

Lemma looked_table de s s' : looked de s s' → itable_ok s → itable_ok s'.
Proof.
  intros HL [T1 T2 T3]. split; [by rewrite (lk_itable _ _ _ HL)|intros i; by rewrite (looked_inode _ _ _ _ HL)|].
  intros i j dev inum. unfold stands. rewrite !(looked_inode _ _ _ _ HL). apply T3.
Qed.
Lemma looked_room de s s' : looked de s s' → itable_room s → itable_room s'.
Proof. intros HL (j & Hj & Hz). exists j. split; [done|]. by rewrite (looked_inode _ _ _ _ HL). Qed.
Lemma dir_iterations sb start V x : dir_ok sb start V x →
  Z.of_nat (Z.to_nat ((i_size x + sizeof_dirent - 1) / sizeof_dirent)) = nents x.
Proof.
  intros HD. pose proof (nents_whole _ _ _ _ HD) as E.
  assert (0 ≤ i_size x) by apply (dk_file _ _ _ _ HD). rewrite <- E.
  replace (nents x * sizeof_dirent + sizeof_dirent - 1) with (15 + nents x * sizeof_dirent) by (unfold sizeof_dirent; lia).
  rewrite Z.div_add by done. change (15 / sizeof_dirent) with 0. unfold sizeof_dirent in *. lia.
Qed.

(** What [dirlookup] returns for the name [nm]. *)
Definition lookup_post (p : nat) (bs : list Z) (V : Z → list Z) (dp : nat) (nm : list Z) (s : kst)
    (r : option (nat * Z)) (s' : kst) : Prop :=
  let x := inode_of s dp in
  match r with
  | None => no_ent (names V x nm) (nents x) ∧ looked (DE_LOOKUP p) s s' ∧ dir_state p s' bs V dp
  | Some (ip, off) => ∃ k s1, off = k * sizeof_dirent ∧ first_ent (names V x nm) (nents x) k ∧
      looked (DE_LOOKUP p) s s1 ∧ dir_state p s1 bs V dp ∧ (ip < NINODE)%nat ∧
      entry_set ip (igot s1 ip (i_dev x) (ent_inum V x k)) s1 s' ∧ itable_ok s' ∧ stands s' ip (i_dev x) (ent_inum V x k) ∧
      takes s1 ip (i_dev x) (ent_inum V x k)
  end.
Lemma dirlookup_wp p s bs V dp name :
  dir_state p s bs V dp → itable_ok s → itable_room s → name_apart (DE_LOOKUP p) name →
  wp (dirlookup dp name) (lookup_post p bs V dp (name_at s name) s) s.
Proof.
  intros HD HT HR Ha. set (x := inode_of s dp). pose proof (ds_dir _ _ _ _ _ HD) as Hdir. fold x in Hdir.
  unfold dirlookup. apply wp_bind, wp_gets. fold x. rewrite (dk_type _ _ _ _ Hdir), Z.eqb_refl. cbn [negb].
  apply wp_bind. unfold local. apply wp_bind, wp_gets. rewrite (uc_cur _ _ (ds_ctx _ _ _ _ _ HD)). apply wp_ret.
  change (KSTACK (Z.of_nat p) + L_de_lookup) with (DE_LOOKUP p).
  eapply (wp_mfind _ _ (lookup_step dp (i_dev x) name (DE_LOOKUP p))
    (λ j s', looked (DE_LOOKUP p) s s' ∧ dir_state p s' bs V dp ∧ ∀ i, 0 ≤ i < j → ¬ names V x (name_at s name) i)).
  - split; [apply looked_refl|]. split; [done|]. intros i Hi. lia.
  - rewrite (dir_iterations _ _ _ _ Hdir). intros j s1 Hj (HL & HD1 & Hno).
    destruct (lookup_step_Ok p s1 bs V dp name j HD1 (looked_table _ _ _ HL HT) (looked_room _ _ _ HL HR) Ha) as (s2 & HL2 & HD2 & H).
    { rewrite (looked_inode _ _ _ _ HL). fold x. lia. }
    rewrite (looked_inode _ _ _ _ HL), (looked_name _ _ _ _ HL Ha) in H. fold x in H. case_decide as Hd.
    + destruct H as (ip & s' & E & Hip & HE & HT' & Hs). eapply wp_Ok; [exact E|]. cbv beta iota.
      exists j, s2. fold x. split; [done|]. split; [split_and!; [lia|lia|done|exact Hno]|]. split; [by eapply looked_trans|]. done.
    + eapply wp_Ok; [exact H|]. cbv beta iota. split; [by eapply looked_trans|]. split; [done|].
      intros i Hi. destruct (decide (i = j)) as [->|]; [done|]. apply Hno. lia.
  - rewrite (dir_iterations _ _ _ _ Hdir). intros s' (HL & HD1 & Hno). split; [|done]. intros k Hk. apply Hno. fold x in Hk. lia.
Qed.

(** ** dirlink *)

Definition DE_LINK (p : nat) : Z := KSTACK (Z.of_nat p) + L_de_link.
Definition free_ent (V : Z → list Z) (x : inode) (k : Z) : Prop := ent_inum V x k = 0.
(** The slot [dirlink] uses: the first free one, or one more at the end. *)
Definition slot (V : Z → list Z) (x : inode) (k : Z) : Prop :=
  first_ent (free_ent V x) (nents x) k ∨ no_ent (free_ent V x) (nents x) ∧ k = nents x.

Definition link_step (dp : nat) (de : Z) (k : Z) : K (option Z) :=
  let off := k * sizeof_dirent in
  r ← readi dp false de off sizeof_dirent;
  if negb (r =? sizeof_dirent) then panic "dirlink read" else
  i ← gets (λ s, de_inum (k_mem s) de);
  if i =? 0 then mret (Some off) else mret None.
Lemma link_scan_wp p s bs V dp : let x := inode_of s dp in
  dir_state p s bs V dp →
  wp (mfind (Z.to_nat ((i_size x + sizeof_dirent - 1) / sizeof_dirent)) 0 (link_step dp (DE_LINK p)))
    (λ r s', looked (DE_LINK p) s s' ∧ dir_state p s' bs V dp ∧
      ∃ k, slot V x k ∧ default (nents x * sizeof_dirent) r = k * sizeof_dirent) s.
Proof.
  intros x HD. pose proof (ds_dir _ _ _ _ _ HD) as Hdir. fold x in Hdir.
  eapply (wp_mfind _ _ _
    (λ j s', looked (DE_LINK p) s s' ∧ dir_state p s' bs V dp ∧ ∀ i, 0 ≤ i < j → ¬ free_ent V x i)).
  - split; [apply looked_refl|]. split; [done|]. intros i Hi. lia.
  - rewrite (dir_iterations _ _ _ _ Hdir). intros j s1 Hj (HL & HD1 & Hno).
    destruct (read_entry p s1 bs V dp L_de_link j HD1) as (s2 & E & HD2 & HL2 & Hi & _); [done|done| |].
    { rewrite (looked_inode _ _ _ _ HL). fold x. lia. }
    rewrite (looked_inode _ _ _ _ HL) in Hi. fold x (DE_LINK p) in Hi, E, HL2.
    unfold link_step. apply wp_bind. eapply wp_Ok; [exact E|]. rewrite Z.eqb_refl. cbn [negb].
    apply wp_bind, wp_gets. rewrite Hi. pose proof (looked_trans _ _ _ _ HL HL2).
    destruct (Z.eqb_spec (ent_inum V x j) 0) as [Hz|Hz]; apply wp_ret; cbv beta iota; (split; [done|]; split; [done|]).
    + exists j. split; [|done]. left. split; [lia|]. split; [done|exact Hno].
    + intros i Hi'. destruct (decide (i = j)) as [->|]; [done|]. apply Hno. lia.
  - rewrite (dir_iterations _ _ _ _ Hdir). intros s' (HL & HD1 & Hno). split; [done|]. split; [done|].
    exists (nents x). split; [|done]. right. split; [|done]. intros k Hk. apply Hno. lia.
Qed.

(** The entry as bytes. *)
Definition pad (nm : list Z) : list Z := nm ++ replicate (Z.to_nat DIRSIZ - length nm) 0.
Definition entry (inum : Z) (nm : list Z) : list Z := le_bytes 2 inum ++ pad nm.
Lemma length_entry inum nm : (length nm ≤ Z.to_nat DIRSIZ)%nat → length (entry inum nm) = Z.to_nat sizeof_dirent.
Proof.
  intros Hl. unfold entry, pad. rewrite !length_app, length_le_bytes, length_replicate. unfold sizeof_dirent, DIRSIZ in *. lia.
Qed.
Lemma cut0_pad nm : Forall (λ b, b ≠ 0) nm → cut0 (pad nm) = nm.
Proof.
  unfold pad. generalize (Z.to_nat DIRSIZ - length nm)%nat. intros n. induction 1 as [|b nm Hb _ IH]; simpl.
  - by destruct n.
  - rewrite (proj2 (Z.eqb_neq b 0) Hb). by f_equal.
Qed.

Lemma name_apart_range de name : name_apart de name → name + DIRSIZ ≤ de ∨ de + sizeof_dirent ≤ name.
Proof.
  unfold name_apart, DIRSIZ, sizeof_dirent. intros H. destruct (decide (name + 14 ≤ de)); [by left|].
  destruct (decide (de + 16 ≤ name)); [by right|]. exfalso.
  destruct (H (Z.max 0 (de - name))) as [_ Hx]; [lia|]. apply Hx. lia.
Qed.
(** [strncpy(de.name, name, DIRSIZ); de.inum = inum] *)
Definition fill (m : mem) (de name inum : Z) : mem :=
  wr_bytes (strncpy m (de_name de) name DIRSIZ) de (le_bytes 2 inum).
Lemma fill_ok m de name inum : mem_ok m → name_apart de name →
  let nm := cstrn m name (Z.to_nat DIRSIZ) in
  mem_ok (fill m de name inum) ∧
  (∀ i, (i < Z.to_nat sizeof_dirent)%nat → rd (fill m de name inum) (de + Z.of_nat i) = default 0 (entry inum nm !! i)) ∧
  (∀ a, ¬ (de ≤ a < de + sizeof_dirent) → rd (fill m de name inum) a = rd m a).
Proof.
  intros Hm Ha nm. pose proof (name_apart_range _ _ Ha) as Hr. unfold fill, de_name.
  pose proof (length_cstrn m name (Z.to_nat DIRSIZ)) as Hl. fold nm in Hl.
  assert (∀ a, rd (strncpy m (de + 2) name DIRSIZ) a =
    if decide (de + 2 ≤ a < de + sizeof_dirent) then default 0 (nm !! Z.to_nat (a - (de + 2))) else rd m a) as Hs.
  { intros a. unfold strncpy. rewrite rd_strncpy_loop by (done || (unfold DIRSIZ, sizeof_dirent in *; lia)).
    unfold DIRSIZ, sizeof_dirent in *. change (Z.of_nat (Z.to_nat 14)) with 14. repeat case_decide; done || lia. }
  split_and!.
  - apply mem_ok_wr_bytes. intros a. rewrite Hs. case_decide; [|apply Hm].
    destruct (nm !! _) as [b|] eqn:E; [|done]. simpl. unfold nm in E.
    rewrite cstrn_cut in E. assert (∀ l b, b ∈ cut0 l → b ∈ l) as Hin.
    { clear. induction l as [|c l IH]; intros b; simpl; [done|]. destruct (c =? 0); set_solver. }
    apply list_elem_of_lookup_2, Hin in E. pose proof (rd_bytes_ok m name (Z.to_nat DIRSIZ) Hm) as Hb.
    rewrite Forall_forall in Hb. by apply Hb.
  - intros i Hi. change (Z.to_nat sizeof_dirent) with 16%nat in Hi. rewrite rd_wr_bytes, length_le_bytes.
    unfold entry. case_decide as Hd.
    + replace (Z.to_nat (de + Z.of_nat i - de)) with i by lia.
      rewrite lookup_app_l by (rewrite length_le_bytes; lia).
      assert (i < length (le_bytes 2 inum))%nat as Hi2 by (rewrite length_le_bytes; lia).
      destruct (lookup_lt_is_Some_2 _ _ Hi2) as [b Hb]. rewrite Hb. simpl. apply u8_id.
      pose proof (le_bytes_is_byte 2 inum) as Hbb. rewrite Forall_forall in Hbb. apply Hbb. by eapply list_elem_of_lookup_2.
    + rewrite Hs, decide_True by (unfold sizeof_dirent; lia). rewrite lookup_app_r by (rewrite length_le_bytes; lia).
      rewrite length_le_bytes. replace (Z.to_nat (de + Z.of_nat i - (de + 2))) with (i - 2)%nat by lia. unfold pad.
      destruct (decide (i - 2 < length nm)%nat); [by rewrite lookup_app_l|].
      rewrite lookup_app_r by lia. rewrite (lookup_ge_None_2 nm) by lia.
      change (Z.to_nat DIRSIZ) with 14%nat in *. by rewrite lookup_replicate_2 by lia.
  - intros a Hd. rewrite rd_wr_bytes_out by (rewrite length_le_bytes; unfold sizeof_dirent in *; lia).
    rewrite Hs, decide_False by (unfold sizeof_dirent in *; lia). done.
Qed.

(** The directory after the entry of [inum] and [nm] was written into slot [k]:
    it has that entry there, and the others as before. *)
Record linked (sb : superblock) (start : Z) (V : Z → list Z) (x : inode) (V' : Z → list Z) (x' : inode)
    (k inum : Z) (nm : list Z) : Prop := {
  ln_dir : dir_ok sb start V' x';
  ln_nents : nents x' = Z.max (nents x) (k + 1);
  ln_inum j : 0 ≤ j < nents x' → ent_inum V' x' j = if decide (j = k) then inum else ent_inum V x j;
  ln_name j : 0 ≤ j < nents x' → ent_name V' x' j = if decide (j = k) then nm else ent_name V x j;
  ln_dev : i_dev x' = i_dev x;
}.
Lemma fbytes_written sb start V x V' x' off data o n :
  file_written sb start V x V' x' off data → 0 ≤ o → o + Z.of_nat n ≤ MAXFILE * BSIZE →
  (o + Z.of_nat n ≤ off ∨ off + Z.of_nat (length data) ≤ o → fbytes V' x' o n = fbytes V x o n) ∧
  (off ≤ o → o + Z.of_nat n ≤ off + Z.of_nat (length data) → fbytes V' x' o n = take n (drop (Z.to_nat (o - off)) data)).
Proof.
  intros HW Ho Hn. split.
  - intros Hd. apply list_fmap_ext. intros i j Hj%lookup_seq. simpl.
    rewrite (fl_byte _ _ _ _ _ _ _ _ HW) by lia. rewrite decide_False by lia. done.
  - intros H1 H2. apply list_eq. intros i. unfold fbytes. destruct (decide (i < n)%nat) as [Hi|Hi].
    + rewrite list_lookup_fmap, lookup_seq_lt by done. simpl. rewrite (fl_byte _ _ _ _ _ _ _ _ HW) by lia.
      rewrite decide_True by lia. rewrite lookup_take_lt, lookup_drop by done.
      replace (Z.to_nat (o + Z.of_nat i - off)) with (Z.to_nat (o - off) + i)%nat by lia.
      destruct (data !! _) eqn:E; [done|]. apply lookup_ge_None_1 in E. lia.
    + rewrite !lookup_ge_None_2; [done|rewrite length_take; lia|rewrite length_fmap, length_seq; lia].
Qed.

Lemma written_linked sb start V x V' x' k inum nm :
  dir_ok sb start V x → file_ok sb start V' x' → 0 ≤ k ≤ nents x →
  (k + 1) * sizeof_dirent ≤ MAXFILE * BSIZE → 0 ≤ inum < 2 ^ 16 →
  Forall (λ b, b ≠ 0) nm → (length nm ≤ Z.to_nat DIRSIZ)%nat →
  file_written sb start V x V' x' (k * sizeof_dirent) (entry inum nm) → linked sb start V x V' x' k inum nm.
Proof.
  intros HD HF Hk Hmax Hin Hnz Hln HW. pose proof (nents_whole _ _ _ _ HD) as Hw.
  pose proof (length_entry inum nm Hln) as Hle. pose proof (fl_size _ _ _ _ _ _ _ _ HW) as Hs. rewrite Hle in Hs.
  pose proof (fk_size _ _ _ _ HF) as Hsz.
  assert (i_size x' = Z.max (nents x) (k + 1) * sizeof_dirent) as Hs'.
  { rewrite Hs, <- Hw. unfold sizeof_dirent. change (Z.of_nat (Z.to_nat 16)) with 16. lia. }
  assert (nents x' = Z.max (nents x) (k + 1)) as Hn' by (unfold nents at 1; rewrite Hs'; by apply Z.div_mul).
  assert (∀ j o n, 0 ≤ j < nents x' → 0 ≤ o → o + Z.of_nat n ≤ sizeof_dirent →
    fbytes V' x' (j * sizeof_dirent + o) n = if decide (j = k) then take n (drop (Z.to_nat o) (entry inum nm))
      else fbytes V x (j * sizeof_dirent + o) n) as Hb.
  { intros j o n Hj Ho Hn. rewrite Hn' in Hj. rewrite Hs' in Hsz.
    destruct (fbytes_written sb start V x V' x' _ _ (j * sizeof_dirent + o) n HW) as [H1 H2]; unfold sizeof_dirent in *; [lia|lia|].
    rewrite Hle in H1, H2. change (Z.of_nat (Z.to_nat 16)) with 16 in *. case_decide as Hd.
    - subst j. rewrite H2 by lia. do 2 f_equal. lia.
    - apply H1. lia. }
  split.
  - split; [done| |].
    + rewrite (fl_fields _ _ _ _ _ _ _ _ HW). exact (dk_type _ _ _ _ HD).
    + rewrite Hs'. by apply Z.mod_mul.
  - done.
  - intros j Hj. unfold ent_inum. pose proof (Hb j 0 2%nat Hj) as Hx. rewrite !Z.add_0_r in Hx.
    rewrite Hx by (unfold sizeof_dirent; lia). case_decide; [|done]. unfold entry. change (Z.to_nat 0) with 0%nat.
    rewrite drop_0, take_app_length' by (by rewrite length_le_bytes). apply le_val_bytes_id. exact Hin.
  - intros j Hj. unfold ent_name. rewrite (Hb j 2 (Z.to_nat DIRSIZ) Hj) by (unfold sizeof_dirent; done).
    case_decide; [|done]. unfold entry. change (Z.to_nat 2) with 2%nat. rewrite drop_app_length' by (by rewrite length_le_bytes).
    rewrite take_ge; [by apply cut0_pad|]. unfold pad. rewrite length_app, length_replicate. lia.
  - by rewrite (fl_fields _ _ _ _ _ _ _ _ HW).
Qed.

(** One more entry fits its block. *)
Lemma nblks_entry k : 0 ≤ k → nblks (k * sizeof_dirent) sizeof_dirent = 1.
Proof.
  intros Hk. unfold nblks, sizeof_dirent. change BSIZE with 1024. change (16 =? 0) with false. cbv iota.
  pose proof (Z.mod_pos_bound k 64 ltac:(lia)). assert ((k * 16) mod 1024 = 16 * (k mod 64)) as ->.
  { rewrite Z.mul_comm. change 1024 with (16 * 64). by rewrite Z.mul_mod_distr_l. }
  symmetry. apply (Z.div_unique _ _ _ (16 * (k mod 64) + 15)); lia.
Qed.

Lemma dirlink_write p s bs V dp k inum name :
  let x := inode_of s dp in
  dir_state p s bs V dp → name_apart (DE_LINK p) name → 0 ≤ k ≤ nents x →
  (k + 1) * sizeof_dirent ≤ MAXFILE * BSIZE → 0 ≤ inum < 2 ^ 16 →
  Z.of_nat (length bs) + 7 < LOGSIZE → (2 ≤ nfree (k_sb s) V)%nat →
  ∃ s' bs' V' x',
    writei dp false (DE_LINK p) (k * sizeof_dirent) sizeof_dirent (set_k_mem (fill (k_mem s) (DE_LINK p) name inum) s) =
      Ok sizeof_dirent s' ∧
    fs_tx p s' ∅ bs' V' ∧ worked dp (set_k_mem (fill (k_mem s) (DE_LINK p) name inum) s) s' x' ∧
    linked (k_sb s) (lg_start (k_log s)) V x V' x' k inum (name_at s name) ∧
    file_written (k_sb s) (lg_start (k_log s)) V x V' x' (k * sizeof_dirent) (entry inum (name_at s name)).
Proof.
  intros x HD Ha Hk Hmax Hin Hl Hnf. pose proof HD as [D1 D2 D3 D4 D5]. fold x in D3.
  destruct (fill_ok (k_mem s) (DE_LINK p) name inum (uc_mem _ _ D5) Ha) as (F1 & F2 & F3).
  set (s1 := set_k_mem (fill (k_mem s) (DE_LINK p) name inum) s). fold (name_at s name) in F2.
  assert (looked (DE_LINK p) s s1) as HL.
  { split; [intros a _ Hd; by apply F3|done|done|apply side_fs_frame, side_mem]. }
  assert (length (name_at s name) ≤ Z.to_nat DIRSIZ)%nat as Hln by apply length_cstrn.
  pose proof (length_entry inum _ Hln) as Hle.
  assert (fs_tx p s1 ∅ bs V) as T1.
  { destruct D1 as [T1 T2 T3]. split; [|done|done]. eapply side_inv; [apply side_mem|done]. }
  assert (dir_state p s1 bs V dp) as HD1 by (by eapply (looked_state p _ L_de_link s)).
  assert (holding false p (DE_LINK p) (entry inum (name_at s name)) s1) as HH.
  { split; [apply stack_buffer; [apply HD1|done|lia|rewrite Hle; done]|].
    intros i Hi. unfold peek. simpl. rewrite Hle in Hi. rewrite F2 by done.
    rewrite <- Hle in Hi. by destruct (lookup_lt_is_Some_2 _ _ Hi) as [b ->]. }
  pose proof (nents_whole _ _ _ _ D3) as Hw.
  destruct (writei_Ok p s1 bs V dp false (DE_LINK p) (k * sizeof_dirent) (entry inum (name_at s name)))
    as (s' & bs' & V' & x' & E & T & W & K & G); rewrite ?Hle; try done;
    change (Z.of_nat (Z.to_nat sizeof_dirent)) with sizeof_dirent in *; rewrite ?nblks_entry in * by lia.
  - apply D3.
  - change (inode_of s1 dp) with x. unfold sizeof_dirent in *. lia.
  - unfold sizeof_dirent in *. lia.
  - lia.
  - change (k_sb s1) with (k_sb s). lia.
  - rewrite Hle in E. exists s', bs', V', x'. split; [exact E|]. split; [done|]. split; [done|]. split; [|exact G].
    eapply written_linked; try done. apply cstrn_nz.
Qed.

(** A change of the inode table is no change of the disk. *)
Lemma entry_set_tx p ip y s s' bs V : entry_set ip y s s' → fs_tx p s ∅ bs V → fs_tx p s' ∅ bs V.
Proof.
  intros [E _] [T1 T2 T3]. rewrite E. split; [|done|done]. eapply side_inv; [|done]. split. by destruct s.
Qed.

(** ** Directories as maps *)

Definition dget (V : Z → list Z) (x : inode) (nm : list Z) : option Z :=
  (λ r, ent_inum V x r.2) <$> list_find (names V x nm) (seqZ 0 (nents x)).
Lemma lookup_seqZ0 n i k : seqZ 0 n !! i = Some k ↔ k = Z.of_nat i ∧ Z.of_nat i < n.
Proof. rewrite lookup_seqZ. lia. Qed.
Lemma dget_first V x nm k : first_ent (names V x nm) (nents x) k → dget V x nm = Some (ent_inum V x k).
Proof.
  intros (Hk & HP & Hno). unfold dget.
  assert (list_find (names V x nm) (seqZ 0 (nents x)) = Some (Z.to_nat k, k)) as ->; [|done].
  apply list_find_Some. split_and!; [apply lookup_seqZ0; lia|done|].
  intros j y [-> Hy]%lookup_seqZ0 Hlt. apply Hno. lia.
Qed.
Lemma dget_none V x nm : no_ent (names V x nm) (nents x) → dget V x nm = None.
Proof.
  intros Hno. unfold dget. rewrite (proj2 (list_find_None _ _)); [done|]. apply Forall_forall.
  intros k Hk%elem_of_seqZ. apply Hno. lia.
Qed.
Lemma first_or_none (P : Z → Prop) `{∀ k, Decision (P k)} n : (∃ k, first_ent P n k) ∨ no_ent P n.
Proof.
  destruct (list_find P (seqZ 0 n)) as [[i k]|] eqn:E.
  - apply list_find_Some in E as ([-> Hi]%lookup_seqZ0 & HP & Hno). left. exists (Z.of_nat i). split_and!; [lia|lia|done|].
    intros j Hj. apply (Hno (Z.to_nat j)); [apply lookup_seqZ0; lia|lia].
  - apply list_find_None in E. rewrite Forall_forall in E. right. intros k Hk. apply E, elem_of_seqZ. lia.
Qed.
(** A new entry is a new binding of the map. *)
Lemma linked_dget sb start V x V' x' k inum nm n :
  linked sb start V x V' x' k inum nm → slot V x k → no_ent (names V x nm) (nents x) → inum ≠ 0 → 0 ≤ nents x →
  dget V' x' n = if decide (n = nm) then Some inum else dget V x n.
Proof.
  intros [L1 L2 L3 L4 L5] Hs Hno Hi Hn.
  assert (0 ≤ k ≤ nents x ∧ (k < nents x → ent_inum V x k = 0)) as [Hk Hfree].
  { destruct Hs as [(? & ? & _)|[_ ->]]; [split; [lia|done]|split; lia]. }
  assert (∀ j, 0 ≤ j < nents x' → names V' x' n j ↔ if decide (j = k) then n = nm else names V x n j) as Hnames.
  { intros j Hj. unfold names. rewrite L3, L4 by done. case_decide; naive_solver. }
  assert (∀ j, j = k → j < nents x → ¬ names V x n j) as Hold.
  { intros j -> Hj [H _]. by apply H, Hfree. }
  case_decide as Hd.
  - subst n. rewrite (dget_first V' x' nm k).
    + f_equal. rewrite L3 by lia. by rewrite decide_True.
    + split; [lia|]. split; [apply Hnames; [lia|]; by rewrite decide_True|].
      intros j Hj. rewrite Hnames by lia. rewrite decide_False by lia. apply Hno. lia.
  - destruct (first_or_none (names V x n) (nents x)) as [[j Hj]|Hnone].
    + rewrite (dget_first V x n j Hj). destruct Hj as (Hj1 & Hj2 & Hj3).
      assert (j ≠ k) as Hjk by (intros Hx; by apply (Hold j Hx ltac:(lia))).
      rewrite (dget_first V' x' n j); [f_equal; rewrite L3 by lia; by rewrite decide_False|].
      split; [lia|]. split; [rewrite Hnames by lia; by rewrite decide_False|].
      intros i Hi'. rewrite Hnames by lia. case_decide; [done|]. apply Hj3. lia.
    + rewrite (dget_none V x n Hnone). apply dget_none. intros j Hj. rewrite Hnames by done.
      case_decide; [done|]. apply Hnone. lia.
Qed.
