(* ===== verification/FsDirProps.v ===== *)
(** * Properties of directories and of the inode table *)

From stdpp Require Import options.
From S2P Require Import Prelude CString State Sched Sleeplock Bio BioList BioSpec Block Log LogSpec LogCrash LogTx Kalloc Vm PageTable VmWalk VmSpec VmOps VmFree VmCopy VmProps Copy UserMem EitherCopy Fs FsCodec FsAlloc FsInode FsFile FsProps FsTrunc FsTable FsDir.
#[local] Open Scope Z_scope.

(** [iget] keeps the inode table consistent: no two entries with
    references stand for the same inode.  It returns the entry that stands for the
    inode with one more reference, or else a free entry that now does, with one
    reference and invalid contents; nothing else changes.  It panics exactly when
    no entry stands for the inode and none is free. *)
Theorem iget_spec dev inum s : itable_ok s → LK_itable ∉ k_held s →
  match iget dev inum s with
  | Ok ip s' => (ip < NINODE)%nat ∧ entry_set ip (igot s ip dev inum) s s' ∧ itable_ok s' ∧ stands s' ip dev inum ∧
      (stands s ip dev inum ∨ i_ref (inode_of s ip) = 0 ∧ ∀ j, ¬ stands s j dev inum)
  | Panic msg => msg = "iget: no inodes"%string ∧
      ∀ j, (j < NINODE)%nat → i_ref (inode_of s j) ≠ 0 ∧ ¬ stands s j dev inum
  | _ => False
  end.
Proof.
  intros HT Hl. destruct (iget_Ok dev inum s HT Hl) as [(H1 & H2 & E)|(ip & s' & E & H)]; rewrite E; auto.
Qed.

(** The outcome of the lookup, for the map of the directory. *)
Lemma dirlookup_dget p s bs V dp name :
  dir_state p s bs V dp → itable_ok s → itable_room s → name_apart (DE_LOOKUP p) name →
  let x := inode_of s dp in
  match dget V x (name_at s name) with
  | None => ∃ s', dirlookup dp name s = Ok None s' ∧ looked (DE_LOOKUP p) s s' ∧ dir_state p s' bs V dp ∧
      no_ent (names V x (name_at s name)) (nents x)
  | Some inum => ∃ ip off s1 s', dirlookup dp name s = Ok (Some (ip, off)) s' ∧ looked (DE_LOOKUP p) s s1 ∧
      dir_state p s1 bs V dp ∧ (ip < NINODE)%nat ∧ entry_set ip (igot s1 ip (i_dev x) inum) s1 s' ∧ itable_ok s' ∧
      stands s' ip (i_dev x) inum ∧ takes s1 ip (i_dev x) inum
  end.
Proof.
  intros HD HT HR Ha x. destruct (wp_inv _ _ _ (dirlookup_wp p s bs V dp name HD HT HR Ha)) as (r & s' & E & H).
  unfold lookup_post in H. fold x in H. destruct r as [[ip off]|].
  - destruct H as (k & s1 & -> & Hf & HL & HD1 & Hip & HE & HT' & Hs). rewrite (dget_first _ _ _ _ Hf).
    by exists ip, (k * sizeof_dirent), s1, s'.
  - destruct H as (Hno & HL & HD1). rewrite (dget_none _ _ _ Hno). by exists s'.
Qed.

(** [dirlookup] is the lookup of the directory as a map from names to
    inode numbers: it returns a reference to an entry of the inode table that stands for
    the inode of the first entry in use with that name, or null when there is none;
    the transaction, the disk and the directory are as before. *)
Theorem dirlookup_spec p s bs V dp name :
  dir_state p s bs V dp → itable_ok s → itable_room s → name_apart (DE_LOOKUP p) name →
  match dget V (inode_of s dp) (name_at s name) with
  | None => ∃ s', dirlookup dp name s = Ok None s' ∧ fs_tx p s' ∅ bs V ∧ k_itable s' = k_itable s
  | Some inum => ∃ ip off s', dirlookup dp name s = Ok (Some (ip, off)) s' ∧ fs_tx p s' ∅ bs V ∧
      itable_ok s' ∧ stands s' ip (i_dev (inode_of s dp)) inum
  end.
Proof.
  intros HD HT HR Ha. pose proof (dirlookup_dget p s bs V dp name HD HT HR Ha) as H. cbv zeta in H.
  destruct (dget V (inode_of s dp) (name_at s name)) as [inum|].
  - destruct H as (ip & off & s1 & s' & E & HL & HD1 & Hip & HE & HT' & Hs & _). exists ip, off, s'.
    split; [done|]. split; [|done]. by eapply entry_set_tx, HD1.
  - destruct H as (s' & E & HL & HD1 & _). exists s'. split; [done|]. split; [apply HD1|apply HL].
Qed.

(** [dirlink] of a name that is bound gives the reference back. *)
Lemma dirlink_bound p s bs V dp name inum inum' :
  let x := inode_of s dp in
  dir_state p s bs V dp → itable_ok s → itable_room s → name_apart (DE_LOOKUP p) name →
  dget V x (name_at s name) = Some inum' →
  ∃ s', dirlink dp name inum s = Ok (-1) s' ∧ fs_tx p s' ∅ bs V ∧ itable_ok s'.
Proof.
  intros x HD HT HR Ha Hg. pose proof (dirlookup_dget p s bs V dp name HD HT HR Ha) as H. cbv zeta in H.
  fold x in H. rewrite Hg in H. destruct H as (ip & off & s1 & s' & E & HL & HD1 & Hip & HE & HT' & Hs).
  unfold dirlink. erewrite bind_Ok by exact E. cbv beta iota.
  assert (ip < length (k_itable s1))%nat as Hip' by (rewrite (lk_itable _ _ _ HL), (it_len _ HT); done).
  pose proof (entry_set_at _ _ _ _ Hip' HE) as Ex.
  destruct (igot_drop (i_dev x) inum' s1 ip (looked_table _ _ _ HL HT)) as [G1 G2]. rewrite <- Ex in G1, G2.
  assert (LK_itable ∉ k_held s') as Hh.
  { rewrite (es_eq _ _ _ _ HE). cbn. rewrite (ds_held _ _ _ _ _ HD1). set_solver. }
  destruct (iput_drop ip s' HT' Hip Hh G1 G2) as (s2 & E2 & HE2 & HT2). erewrite bind_Ok by exact E2.
  exists s2. split; [done|]. split; [|done]. eapply entry_set_tx; [exact HE2|]. by eapply entry_set_tx, HD1.
Qed.
(** [dirlink] of a new name. *)
Lemma dirlink_new p s bs V dp name inum :
  let x := inode_of s dp in let nm := name_at s name in
  dir_state p s bs V dp → itable_ok s → itable_room s →
  name_apart (DE_LOOKUP p) name → name_apart (DE_LINK p) name →
  0 < inum < 2 ^ 16 → (nents x + 1) * sizeof_dirent ≤ MAXFILE * BSIZE →
  Z.of_nat (length bs) + 7 < LOGSIZE → (2 ≤ nfree (k_sb s) V)%nat → dget V x nm = None →
  ∃ s' bs' V' k, dirlink dp name inum s = Ok 0 s' ∧ fs_tx p s' ∅ bs' V' ∧ slot V x k ∧
    linked (k_sb s) (lg_start (k_log s)) V x V' (inode_of s' dp) k inum nm ∧ no_ent (names V x nm) (nents x).
Proof.
  intros x nm HD HT HR Ha1 Ha2 Hi Hmax Hl Hnf Hg. pose proof (dirlookup_dget p s bs V dp name HD HT HR Ha1) as H.
  cbv zeta in H. fold x nm in H. rewrite Hg in H. destruct H as (s1 & E & HL & HD1 & Hno).
  unfold dirlink. erewrite bind_Ok by exact E. cbv beta iota.
  assert (local L_de_link s1 = Ok (DE_LINK p) s1) as El.
  { unfold local, myproc. rewrite bind_gets, (uc_cur _ _ (ds_ctx _ _ _ _ _ HD1)). done. }
  erewrite bind_Ok by exact El. rewrite bind_gets.
  destruct (wp_inv _ _ _ (link_scan_wp p s1 bs V dp HD1)) as (r & s2 & E2 & HL2 & HD2 & k & Hslot & Hoff).
  rewrite (looked_inode _ _ _ _ HL) in E2, Hslot, Hoff |- *. fold x in E2, Hslot, Hoff |- *. erewrite bind_Ok by exact E2.
  pose proof (ds_dir _ _ _ _ _ HD) as Hdir. fold x in Hdir. pose proof (nents_nonneg _ _ _ _ Hdir) as Hn0.
  rewrite !bind_modify. cbn [k_mem set_k_mem]. rewrite (dir_iterations _ _ _ _ Hdir), Hoff.
  assert (0 ≤ k ≤ nents x) as Hk by (destruct Hslot as [(? & _)|[_ ->]]; lia).
  pose proof (lk_frame _ _ _ HL) as F1. pose proof (lk_frame _ _ _ HL2) as F2.
  assert (inode_of s2 dp = x) as Hx2 by (rewrite (looked_inode _ _ _ _ HL2), (looked_inode _ _ _ _ HL); done).
  assert (k_sb s2 = k_sb s ∧ lg_start (k_log s2) = lg_start (k_log s)) as [Hsb Hst].
  { rewrite (fs_frame_sb _ _ F2), (fs_frame_sb _ _ F1), (ff_start _ _ F2), (ff_start _ _ F1). done. }
  destruct (dirlink_write p s2 bs V dp k inum name) as (s' & bs' & V' & x' & E3 & T & W & HLn & _);
    rewrite ?Hx2, ?Hsb; try done; try lia.
  { unfold sizeof_dirent in *. lia. }
  change (set_k_mem (wr_bytes (strncpy (k_mem s2) (de_name (DE_LINK p)) name DIRSIZ) (DE_LINK p) (le_bytes 2 inum)) _)
    with (set_k_mem (fill (k_mem s2) (DE_LINK p) name inum) s2).
  erewrite bind_Ok by exact E3. rewrite Z.eqb_refl. cbn [negb].
  rewrite (looked_name _ _ _ _ HL2 Ha2), (looked_name _ _ _ _ HL Ha1) in HLn. rewrite Hx2, Hsb, Hst in HLn. fold nm in HLn.
  exists s', bs', V', k. split; [done|]. split; [done|]. split; [done|]. rewrite (wk_ip _ _ _ _ W). done.
Qed.

(** C9. [dirlink], of a directory that may still grow, with room in the
    inode table, in the log and on the disk, adds a binding to the map of the
    directory.  It fails, without a change of the disk, when the name is
    bound; otherwise it writes the new entry into the first free slot, or
    one more at the end when none is free.  Every other entry stays as it was, the
    directory is well formed, and its map is the old one with the new binding. *)
Theorem dirlink_spec p s bs V dp name inum :
  let x := inode_of s dp in let nm := name_at s name in
  dir_state p s bs V dp → itable_ok s → itable_room s →
  name_apart (DE_LOOKUP p) name → name_apart (DE_LINK p) name →
  0 < inum < 2 ^ 16 → (nents x + 1) * sizeof_dirent ≤ MAXFILE * BSIZE →
  Z.of_nat (length bs) + 7 < LOGSIZE → (2 ≤ nfree (k_sb s) V)%nat →
  match dget V x nm with
  | Some _ => ∃ s', dirlink dp name inum s = Ok (-1) s' ∧ fs_tx p s' ∅ bs V ∧ itable_ok s'
  | None => ∃ s' bs' V' k, dirlink dp name inum s = Ok 0 s' ∧ fs_tx p s' ∅ bs' V' ∧
      slot V x k ∧ linked (k_sb s) (lg_start (k_log s)) V x V' (inode_of s' dp) k inum nm ∧
      ∀ n, dget V' (inode_of s' dp) n = if decide (n = nm) then Some inum else dget V x n
  end.
Proof.
  intros x nm HD HT HR Ha1 Ha2 Hi Hmax Hl Hnf. destruct (dget V x nm) as [inum'|] eqn:Hg; [by eapply dirlink_bound|].
  destruct (dirlink_new p s bs V dp name inum HD HT HR Ha1 Ha2 Hi Hmax Hl Hnf Hg) as (s' & bs' & V' & k & E & T & Hs & HL & Hno).
  exists s', bs', V', k. split; [done|]. split; [done|]. split; [done|]. split; [done|].
  intros n. eapply linked_dget; [done|done|done|lia|]. eapply nents_nonneg, HD.
Qed.

(** ** An empty directory

    The process of [FsProps] with entry 0 of the inode table a directory. *)
Definition new_dir : inode := set_i_type T_DIR new_inode.
Definition dir_start (b : kst) : kst := upd_inode 0 (set_i_type T_DIR) (fs_state b).

Lemma new_dir_ok V : dir_ok mkfs_sb 2 V new_dir.
Proof.
  pose proof (new_inode_ok V) as [[A1 A2 A3 A4 A5] B C D E]. split; [|done|done].
  split; [by split| |done|done|done]. destruct B as [B1 B2 B3 B4 B5 B6 B7]. split; try done.
Qed.
Lemma dir_start_inode b : inode_of (dir_start b) 0 = new_dir.
Proof. done. Qed.
Lemma dir_start_free b j : inode_of (dir_start b) (S j) = inode0.
Proof.
  unfold inode_of, dir_start, upd_inode, fs_state. cbn [k_itable set_k_itable].
  rewrite list_lookup_alter_ne by lia. rewrite list_lookup_insert_ne by lia.
  destruct (replicate NINODE inode0 !! S j) as [y|] eqn:Ey; [|done]. by apply lookup_replicate in Ey as [-> _].
Qed.
Lemma dir_start_table b : itable_ok (dir_start b).
Proof.
  split.
  - done.
  - intros [|i]; [by rewrite dir_start_inode|by rewrite dir_start_free].
  - intros [|i] [|j] dev inum (A & _) (B & _); try done; rewrite dir_start_free in *; done.
Qed.
Lemma dir_start_room b : itable_room (dir_start b).
Proof. exists 1%nat. split; [unfold NINODE; lia|]. by rewrite dir_start_free. Qed.
Lemma upd_inode_tx p s bs V ip f : fs_tx p s ∅ bs V → fs_tx p (upd_inode ip f s) ∅ bs V.
Proof. intros [T1 T2 T3]. split; [|done|done]. eapply side_inv; [apply side_inode|done]. Qed.
Lemma upd_inode_uctx p s ip f : uctx p s → uctx p (upd_inode ip f s).
Proof. intros [U1 U2 U3 U4 U5 U6]. by split. Qed.
Lemma dir_start_state b : uctx 2 b → k_held b = [] → dir_state 2 (dir_start b) [] (disk_block fs_disk) 0.
Proof.
  intros Hb Hh. split.
  - exact (upd_inode_tx 2 (fs_state b) _ _ 0 _ (fs_state_tx b Hb Hh)).
  - apply Nat.ltb_lt. reflexivity.
  - rewrite dir_start_inode. apply new_dir_ok.
  - apply Nat.ltb_lt. reflexivity.
  - exact (upd_inode_uctx 2 (fs_state b) 0 _ (fs_state_uctx b Hb)).
Qed.
Lemma hello_apart o : 0 ≤ o ≤ 4096 → name_apart (KSTACK (Z.of_nat 2) + o) HELLO.
Proof.
  intros Ho i Hi. unfold scratch, HELLO, KOBJ, KSTACK, TRAMPOLINE, DIRSIZ, sizeof_dirent in *.
  change MAXVA with (2 ^ 38). change BSIZE with 1024. unfold KERNBASE, PGSIZE. lia.
Qed.
Lemma dir_start_held b : k_held b = [] → LK_itable ∉ k_held (dir_start b).
Proof. intros Hh. change (k_held (dir_start b)) with (k_held b). rewrite Hh. set_solver. Qed.
#[local] Opaque user_base.

Lemma iget_spec_witness : ∃ ip s', iget ROOTDEV 7 (dir_start user_base) = Ok ip s' ∧ stands s' ip ROOTDEV 7.
Proof.
  pose proof (iget_spec ROOTDEV 7 (dir_start user_base) (dir_start_table user_base)
    (dir_start_held user_base user_base_held)) as H.
  destruct (iget ROOTDEV 7 (dir_start user_base)) as [ip s'|msg|s' k|].
  - exists ip, s'. split; [reflexivity|]. apply H.
  - exfalso. destruct H as [_ H]. destruct (H 1%nat) as [Hz _]; [unfold NINODE; lia|].
    apply Hz. by rewrite dir_start_free.
  - destruct H.
  - destruct H.
Defined.
Lemma new_dir_empty nm : dget (disk_block fs_disk) new_dir nm = None.
Proof. apply dget_none. intros k Hk. change (nents new_dir) with 0 in Hk. lia. Qed.
Lemma dirlookup_spec_witness : ∃ s', dirlookup 0 HELLO (dir_start user_base) = Ok None s' ∧
  fs_tx 2 s' ∅ [] (disk_block fs_disk).
Proof.
  pose proof (dirlookup_spec 2 (dir_start user_base) [] (disk_block fs_disk) 0 HELLO
    (dir_start_state user_base user_base_uctx user_base_held) (dir_start_table user_base)
    (dir_start_room user_base) (hello_apart L_de_lookup ltac:(done))) as H.
  rewrite dir_start_inode, new_dir_empty in H. destruct H as (s' & E & T & _). exists s'. split; [exact E|exact T].
Defined.
Lemma dirlink_spec_witness : ∃ s' V', dirlink 0 HELLO 7 (dir_start user_base) = Ok 0 s' ∧
  dget V' (inode_of s' 0) (name_at (dir_start user_base) HELLO) = Some 7.
Proof.
  pose proof (dirlink_spec 2 (dir_start user_base) [] (disk_block fs_disk) 0 HELLO 7
    (dir_start_state user_base user_base_uctx user_base_held) (dir_start_table user_base)
    (dir_start_room user_base) (hello_apart L_de_lookup ltac:(done)) (hello_apart L_de_link ltac:(done))) as H.
  rewrite dir_start_inode, new_dir_empty in H. cbv zeta in H.
  destruct H as (s' & bs' & V' & k & E & T & _ & _ & Hg).
  - lia.
  - by vm_compute.
  - by vm_compute.
  - pose proof fs_state_free. change (k_sb (dir_start user_base)) with mkfs_sb. lia.
  - exists s', V'. split; [exact E|]. rewrite Hg. destruct (decide _) as [_|Hn]; [reflexivity|destruct (Hn eq_refl)].
Defined.

Lemma itrunc_spec_witness : ∃ s' V', itrunc 0 (fs_state user_base) = Ok () s' ∧
  inode_at V' mkfs_sb 5 = dinode_of (set_i_size 0 (set_i_addrs (replicate NADDRS 0) new_inode)).
Proof.
  destruct (itrunc_spec 2 (fs_state user_base) [] (disk_block fs_disk) 0) as (s' & bs' & V' & E & _ & _ & _ & G).
  - exact (fs_state_tx user_base user_base_uctx user_base_held).
  - apply Nat.ltb_lt. reflexivity.
  - apply new_inode_ok.
  - by vm_compute.
  - reflexivity.
  - exists s', V'. split; [exact E|]. change (inode_of (fs_state user_base) 0) with new_inode in G.
    change (k_sb (fs_state user_base)) with mkfs_sb in G.
    rewrite (tr_disk _ _ _ _ _ _ G) by (simpl; lia). by rewrite decide_True.
Defined.
