(* ===== verification/FsPath.v ===== *)
(** * Paths

    [skipelem] of [kernel/fs.c] against the elements of a path: the pieces between slashes, the
    empty ones left out. *)

From stdpp Require Import options.
From S2P Require Import Prelude CString State Sched Sleeplock Bio Block Log Copy Fs.
#[local] Open Scope Z_scope.

(** ** The elements of a path *)

(** The bytes up to the first slash, and the rest from the slash on. *)
Fixpoint elem (l : list Z) : list Z :=
  match l with
  | [] => []
  | c :: l => if c =? SLASH then [] else c :: elem l
  end.
Fixpoint after_elem (l : list Z) : list Z :=
  match l with
  | [] => []
  | c :: l' => if c =? SLASH then l else after_elem l'
  end.
Fixpoint unslash (l : list Z) : list Z :=
  match l with
  | [] => []
  | c :: l' => if c =? SLASH then unslash l' else l
  end.
(** The elements; a path has at most as many as bytes. *)
Fixpoint elems_from (n : nat) (l : list Z) : list (list Z) :=
  match n with
  | O => []
  | S n =>
    match unslash l with
    | [] => []
    | c :: l' => elem (c :: l') :: elems_from n (after_elem (c :: l'))
    end
  end.
Definition elems (l : list Z) : list (list Z) := elems_from (length l) l.

Lemma elem_split l : l = elem l ++ after_elem l.
Proof. induction l as [|c l IH]; simpl; [done|]. destruct (c =? SLASH); [done|]. simpl. by f_equal. Qed.
Lemma unslash_split l : ∃ k, l = replicate k SLASH ++ unslash l.
Proof.
  induction l as [|c l [k IH]]; simpl; [by exists 0%nat|]. destruct (Z.eqb_spec c SLASH) as [->|]; [|by exists 0%nat].
  exists (S k). simpl. by f_equal.
Qed.
Lemma unslash_length l : (length (unslash l) ≤ length l)%nat.
Proof. destruct (unslash_split l) as [k E]. rewrite E at 2. rewrite length_app. lia. Qed.
Lemma unslash_head l c l' : unslash l = c :: l' → c ≠ SLASH.
Proof. induction l as [|d l IH]; simpl; [done|]. destruct (Z.eqb_spec d SLASH); [done|congruence]. Qed.
Lemma unslash_idem l : unslash (unslash l) = unslash l.
Proof.
  destruct (unslash l) as [|c l'] eqn:E; [done|]. simpl. by rewrite (proj2 (Z.eqb_neq _ _) (unslash_head _ _ _ E)).
Qed.
Lemma elems_from_enough n : ∀ l, (length l ≤ n)%nat → elems_from n l = elems l.
Proof.
  unfold elems. assert (∀ n m l, (length l ≤ n)%nat → (length l ≤ m)%nat → elems_from n l = elems_from m l) as H; [|intros; by apply H].
  clear n. induction n as [|n IH]; intros [|m] l Hn Hm; try (destruct l; [done|simpl in *; lia]).
  cbn [elems_from]. pose proof (unslash_length l) as Hl. destruct (unslash l) as [|c l'] eqn:E; [done|].
  assert (length (after_elem (c :: l')) < length l)%nat.
  { simpl. rewrite (proj2 (Z.eqb_neq _ _) (unslash_head _ _ _ E)). simpl in Hl.
    pose proof (f_equal length (elem_split l')) as He. rewrite length_app in He. lia. }
  f_equal. apply IH; lia.
Qed.
Lemma elems_unslash l : elems (unslash l) = elems l.
Proof.
  rewrite <- (elems_from_enough (S (length l)) l) by lia. rewrite <- (elems_from_enough (S (length l))) by (pose proof (unslash_length l); lia).
  simpl. by rewrite unslash_idem.
Qed.
Lemma elems_cons l c l' : unslash l = c :: l' → elems l = elem (c :: l') :: elems (after_elem (c :: l')).
Proof.
  intros E. rewrite <- (elems_from_enough (S (length l)) l) by lia. cbn [elems_from]. rewrite E. f_equal. apply elems_from_enough.
  pose proof (unslash_length l) as Hl. rewrite E in Hl. pose proof (f_equal length (elem_split (c :: l'))) as He. rewrite length_app in He. lia.
Qed.
Lemma elems_nil l : elems l = [] ↔ unslash l = [].
Proof.
  split; [|intros E]; [destruct (unslash l) as [|c l'] eqn:E; [done|by rewrite (elems_cons l c l' E)]|].
  rewrite <- (elems_from_enough (S (length l)) l) by lia. simpl. by rewrite E.
Qed.
Lemma elem_nz l c : c ∈ elem l → c ≠ SLASH.
Proof.
  induction l as [|d l IH]; simpl; [by intros ?%elem_of_nil|]. destruct (Z.eqb_spec d SLASH); [by intros ?%elem_of_nil|].
  intros [->|?]%elem_of_cons; auto.
Qed.

(** ** The scans *)

Lemma scan_stops fuel stop m : ∀ p k, (k < fuel)%nat → stop (rd m (p + Z.of_nat k)) = true →
  (∀ j, (j < k)%nat → stop (rd m (p + Z.of_nat j)) = false) → scan fuel stop m p = p + Z.of_nat k.
Proof.
  induction fuel as [|fuel IH]; intros p k Hk Hs Hn; [lia|]. simpl. destruct k as [|k].
  - rewrite Z.add_0_r in *. by rewrite Hs.
  - pose proof (Hn 0%nat ltac:(lia)) as H0. rewrite Z.add_0_r in H0. rewrite H0, (IH _ k); [lia|lia| |].
    + rewrite <- Hs. do 2 f_equal. lia.
    + intros j Hj. rewrite <- (Hn (S j)) by lia. do 2 f_equal. lia.
Qed.
Lemma str_at_lookup m p l i : str_at m p l → (i ≤ length l)%nat → rd m (p + Z.of_nat i) = default 0 (l !! i).
Proof.
  revert p i. induction l as [|b l IH]; intros p i H Hi; simpl in *.
  - replace i with 0%nat by lia. by rewrite Z.add_0_r, H.
  - destruct H as (H1 & _ & H3). destruct i as [|i]; [by rewrite Z.add_0_r|]. simpl.
    replace (p + Z.of_nat (S i)) with (p + 1 + Z.of_nat i) by lia. apply IH; [done|lia].
Qed.
Lemma skip_slashes_str m p l : str_at m p l →
  skip_slashes m p = p + Z.of_nat (length l - length (unslash l)) ∧ str_at m (skip_slashes m p) (unslash l).
Proof.
  intros Hs. destruct (unslash_split l) as [k E].
  assert (length l - length (unslash l) = k)%nat as Ek by (rewrite E at 1; rewrite length_app, length_replicate; lia).
  assert (skip_slashes m p = p + Z.of_nat k) as ->.
  { pose proof (str_at_size _ _ _ Hs) as Hz. rewrite E, length_app, length_replicate in Hz. apply scan_stops; [lia| |].
    - rewrite (str_at_lookup _ _ _ _ Hs) by (rewrite E, length_app, length_replicate; lia). rewrite E.
      rewrite lookup_app_r, length_replicate, Nat.sub_diag by (rewrite length_replicate; lia).
      destruct (unslash l) as [|c l'] eqn:El; [done|]. simpl. by rewrite (proj2 (Z.eqb_neq _ _) (unslash_head _ _ _ El)).
    - intros j Hj. rewrite (str_at_lookup _ _ _ _ Hs) by (rewrite E, length_app, length_replicate; lia). rewrite E.
      rewrite lookup_app_l, lookup_replicate_2 by (rewrite ?length_replicate; lia). done. }
  split; [by rewrite Ek|]. rewrite E in Hs. apply str_at_app in Hs as [_ Hs]. by rewrite length_replicate in Hs.
Qed.
Lemma elem_end_str m p l : str_at m p l →
  elem_end m p = p + Z.of_nat (length (elem l)) ∧ str_at m (elem_end m p) (after_elem l) ∧ rd_bytes m p (length (elem l)) = elem l.
Proof.
  intros Hs. pose proof (elem_split l) as E.
  assert (elem_end m p = p + Z.of_nat (length (elem l))) as ->.
  { pose proof (str_at_size _ _ _ Hs) as Hz. pose proof (f_equal length E) as El. rewrite length_app in El. apply scan_stops; [lia| |].
    - rewrite (str_at_lookup _ _ _ _ Hs) by lia. clear.
      induction l as [|c l IH]; simpl; [done|]. destruct (Z.eqb_spec c SLASH) as [->|]; done.
    - intros j Hj. rewrite (str_at_lookup _ _ _ _ Hs) by lia.
      assert (l !! j = elem l !! j) as -> by (rewrite E at 1; by rewrite lookup_app_l by lia).
      destruct (lookup_lt_is_Some_2 (elem l) j) as [c Hc]; [lia|]. rewrite Hc. simpl.
      pose proof (elem_nz l c (list_elem_of_lookup_2 _ _ _ Hc)) as H1. apply str_at_bytes in Hs as (_ & Hnz & _). rewrite Forall_forall in Hnz.
      assert (c ≠ 0) as H2 by (apply Hnz; rewrite E; apply elem_of_app; left; by eapply list_elem_of_lookup_2).
      by rewrite (proj2 (Z.eqb_neq _ _) H1), (proj2 (Z.eqb_neq _ _) H2). }
  rewrite E in Hs at 1. apply str_at_app in Hs as [H1 H2]. done.
Qed.

(** ** skipelem *)

Lemma cstrn_prefix m n : ∀ p l, Forall (λ b, b ≠ 0) l → (∀ i, (i < length l)%nat → rd m (p + Z.of_nat i) = default 0 (l !! i)) →
  (length l = n ∨ (length l < n)%nat ∧ rd m (p + Z.of_nat (length l)) = 0) → cstrn m p n = l.
Proof.
  induction n as [|n IH]; intros p l Hnz Hrd Hl; simpl.
  { destruct l; [done|simpl in Hl; lia]. }
  destruct l as [|b l]; simpl in *.
  - destruct Hl as [?|[_ H0]]; [done|]. rewrite Z.add_0_r in H0. by rewrite H0.
  - apply Forall_cons in Hnz as [Hb Hnz]. pose proof (Hrd 0%nat ltac:(lia)) as H0. rewrite Z.add_0_r in H0. simpl in H0. rewrite H0.
    rewrite (proj2 (Z.eqb_neq _ _) Hb). f_equal. apply IH; [done| |].
    + intros i Hi. specialize (Hrd (S i) ltac:(lia)). simpl in Hrd. rewrite <- Hrd. f_equal. lia.
    + destruct Hl as [?|[? Hz]]; [left; lia|right]. split; [lia|]. rewrite <- Hz. f_equal. lia.
Qed.

(** The memory with the element [e] at [s] copied to [name]. *)
Definition name_copied (m : mem) (name s len : Z) : mem :=
  if DIRSIZ <=? len then memmove m name s DIRSIZ else wr (name + len) 0 (memmove m name s len).
Lemma name_copied_ok m name s e : mem_ok m → Forall (λ b, b ≠ 0) e → rd_bytes m s (length e) = e →
  let m' := name_copied m name s (Z.of_nat (length e)) in
  mem_ok m' ∧ cstrn m' name (Z.to_nat DIRSIZ) = take (Z.to_nat DIRSIZ) e ∧ ∀ a, ¬ (name ≤ a < name + DIRSIZ) → rd m' a = rd m a.
Proof.
  intros Hm Hnz Hb. assert (∀ i, (i < length e)%nat → rd m (s + Z.of_nat i) = default 0 (e !! i)) as Hrd.
  { intros i Hi. pose proof (f_equal (λ L, L !! i) Hb) as E. cbv beta in E. rewrite lookup_rd_bytes in E by done. by rewrite <- E. }
  unfold name_copied. change (Z.to_nat DIRSIZ) with 14%nat. unfold DIRSIZ. destruct (Z.leb_spec 14 (Z.of_nat (length e))) as [Hl|Hl].
  - split; [by apply mem_ok_memmove|]. split.
    + apply cstrn_prefix; [by apply Forall_take| |left; rewrite length_take; lia]. intros i Hi. rewrite length_take in Hi.
      rewrite rd_memmove, decide_True by (done || lia). rewrite lookup_take_lt by lia. rewrite <- Hrd by lia. f_equal. lia.
    + intros a Ha. rewrite rd_memmove, decide_False by (done || lia). done.
  - rewrite take_ge by lia. split; [apply mem_ok_wr, mem_ok_memmove; (done || lia)|]. split.
    + apply cstrn_prefix; [done| |right; split; [lia|by rewrite rd_wr, decide_True by lia]]. intros i Hi.
      rewrite rd_wr_ne, rd_memmove, decide_True by (done || lia). rewrite <- Hrd by lia. f_equal. lia.
    + intros a Ha. rewrite rd_wr_ne, rd_memmove, decide_False by (done || lia). done.
Qed.

(** [skipelem] at the string [l]: null when it has no element; otherwise the first element is at [name], cut to the
    length of a name, and the rest of the path starts at the next one. *)
Lemma skipelem_str m p l name : mem_ok m → str_at m p l → 0 < p → (name + DIRSIZ ≤ p ∨ p + Z.of_nat (length l) < name) →
  match elems l with
  | [] => skipelem_mem m p name = (0, m)
  | e :: es => ∃ p' l' m', skipelem_mem m p name = (p', m') ∧ p < p' ∧ p' + Z.of_nat (length l') = p + Z.of_nat (length l) ∧
      str_at m' p' l' ∧ elems l' = es ∧ (l' = [] ↔ es = []) ∧ cstrn m' name (Z.to_nat DIRSIZ) = take (Z.to_nat DIRSIZ) e ∧
      mem_ok m' ∧ ∀ a, ¬ (name ≤ a < name + DIRSIZ) → rd m' a = rd m a
  end.
Proof.
  intros Hm Hs Hp Hd. destruct (skip_slashes_str m p l Hs) as [E1 S1]. pose proof (unslash_length l) as Hl.
  unfold skipelem_mem. set (p1 := skip_slashes m p) in *. destruct (unslash l) as [|c l1] eqn:Eu.
  { rewrite (proj2 (elems_nil l) Eu). by rewrite (S1 : rd m p1 = 0). }
  rewrite (elems_cons l c l1 Eu). destruct (elem_end_str m p1 (c :: l1) S1) as (E2 & S2 & B2). pose proof (elem_split (c :: l1)) as Es.
  assert (rd m p1 = c ∧ c ≠ 0) as [Ec Hc] by by destruct S1 as (? & ? & _).
  rewrite Ec, (proj2 (Z.eqb_neq _ _) Hc). set (e := elem (c :: l1)) in *. set (l2 := after_elem (c :: l1)) in *. rewrite E2.
  assert (Forall (λ b, b ≠ 0) e) as Hnz.
  { apply str_at_bytes in S1 as (_ & H & _). rewrite Es in H. by apply Forall_app in H as [? _]. }
  replace (p1 + Z.of_nat (length e) - p1) with (Z.of_nat (length e)) by lia. fold (name_copied m name p1 (Z.of_nat (length e))).
  destruct (name_copied_ok m name p1 e Hm Hnz B2) as (M1 & M2 & M3). set (m' := name_copied m name p1 (Z.of_nat (length e))) in *.
  pose proof (f_equal length Es) as El. rewrite length_app in El. rewrite E2 in S2.
  assert (str_at m' (p1 + Z.of_nat (length e)) l2) as S2'.
  { eapply str_at_ext; [|exact S2]. intros a Ha. apply M3. cbn [length] in *. lia. }
  destruct (skip_slashes_str m' _ l2 S2') as [E3 S3]. pose proof (unslash_length l2) as Hl2.
  assert (0 < length e)%nat as He.
  { unfold e. cbn [elem]. rewrite (proj2 (Z.eqb_neq _ _) (unslash_head _ _ _ Eu)). simpl. lia. }
  exists (skip_slashes m' (p1 + Z.of_nat (length e))), (unslash l2), m'. split; [done|]. rewrite E3 in *. cbn [length] in *.
  split; [lia|]. split; [lia|]. split; [done|]. split; [apply elems_unslash|]. split; [by rewrite elems_nil|]. done.
Qed.
