(* ===== verification/FsNamex.v ===== *)
(** * Path resolution

    [ilock], [iunlockput] and [namex] of [kernel/fs.c]: looking a path up walks the directories on the disk,
    and gives back every reference it takes on the way. *)

From stdpp Require Import options.
From S2P Require Import Prelude CString State Sched Sleeplock Kalloc Vm PageTable VmWalk VmSpec VmOps VmFree VmCopy VmProps Bio BioList BioSpec Block Log LogSpec LogCrash LogTx Copy UserMem EitherCopy Fs FsCodec FsAlloc FsInode FsFile FsProps FsTable FsDir FsDirProps FsPath.
#[local] Open Scope Z_scope.

(** ** Inodes on the disk *)

Definition on_disk (sb : superblock) (V : Z → list Z) (i : Z) : inode :=
  set_i_dev ROOTDEV (set_i_inum i (load_dinode (inode_at V sb i) inode0)).
(** An inode in use, with a name somewhere. *)
Definition live (sb : superblock) (V : Z → list Z) (i : Z) : Prop :=
  0 < i < sb_ninodes sb ∧ d_type (inode_at V sb i) ≠ 0 ∧ d_nlink (inode_at V sb i) ≠ 0.
(** The directories of the disk name inodes in use. *)
Record tree_ok (sb : superblock) (start : Z) (V : Z → list Z) : Prop := {
  tr_dir i : 0 < i < sb_ninodes sb → d_type (inode_at V sb i) = T_DIR → dir_ok sb start V (on_disk sb V i);
  tr_named i nm j : 0 < i < sb_ninodes sb → d_type (inode_at V sb i) = T_DIR → dget V (on_disk sb V i) nm = Some j → live sb V j;
}.
Lemma dget_dinode V x y nm : dinode_of x = dinode_of y → dget V x nm = dget V y nm.
Proof. destruct x, y. cbn. intros [= -> -> -> -> -> ->]. reflexivity. Qed.
Lemma dir_ok_same sb start V x y : dinode_of x = dinode_of y → i_dev x = i_dev y → i_inum x = i_inum y →
  dir_ok sb start V x → dir_ok sb start V y.
Proof.
  destruct x, y. cbn. intros [= -> -> -> -> -> ->] -> -> [[[A1 A2 A3 A4 A5] A6 A7 A8 A9] A10 A11].
  split; [split; [split|..]|..]; assumption.
Qed.
Lemma load_dinode_of x : load_dinode (dinode_of x) x = x.
Proof. by destruct x. Qed.

(** The walk over the disk from inode [i] along the elements of a path; names are cut to [DIRSIZ] bytes. *)
Definition cut (e : list Z) : list Z := take (Z.to_nat DIRSIZ) e.
Definition dir_at (sb : superblock) (V : Z → list Z) (i : Z) : bool := d_type (inode_at V sb i) =? T_DIR.
Definition child (sb : superblock) (V : Z → list Z) (i : Z) (e : list Z) : option Z := dget V (on_disk sb V i) (cut e).
Fixpoint walk_from (isdir : Z → bool) (down : Z → list Z → option Z) (i : Z) (es : list (list Z)) : option Z :=
  match es with
  | [] => Some i
  | e :: es => if isdir i then down i e ≫= λ j, walk_from isdir down j es else None
  end.
Definition resolve (sb : superblock) (V : Z → list Z) : Z → list (list Z) → option Z := walk_from (dir_at sb V) (child sb V).
(** The directory of the last element, and that element. *)
Definition resolve_parent (sb : superblock) (V : Z → list Z) (i : Z) (es : list (list Z)) : option (Z * list Z) :=
  match last es with
  | None => None
  | Some e => resolve sb V i (removelast es) ≫= λ j, if dir_at sb V j then Some (j, cut e) else None
  end.
Lemma child_eq sb V i e : child sb V i e = dget V (on_disk sb V i) (cut e).
Proof. reflexivity. Qed.
Lemma resolve_cons sb V i e es : resolve sb V i (e :: es) = if dir_at sb V i then child sb V i e ≫= λ j, resolve sb V j es else None.
Proof. reflexivity. Qed.
Lemma resolve_parent_cons sb V i e es : es ≠ [] →
  resolve_parent sb V i (e :: es) = if dir_at sb V i then child sb V i e ≫= λ j, resolve_parent sb V j es else None.
Proof.
  intros Hes. destruct es as [|e' es]; [done|]. unfold resolve_parent. change (last (e :: e' :: es)) with (last (e' :: es)).
  change (removelast (e :: e' :: es)) with (e :: removelast (e' :: es)). rewrite resolve_cons.
  destruct (last (e' :: es)) as [x|] eqn:El; [|by apply last_None in El]. destruct (dir_at sb V i); [|done]. by destruct (child sb V i e).
Qed.

(** ** The table *)

(** Entries in use are of the one disk; the copy of a loaded inode is what the disk has; no inode but [L] is
    locked. *)
Record cache_ok (L : option nat) (s : kst) (V : Z → list Z) : Prop := {
  ch_table : itable_ok s;
  ch_dev j : 0 < i_ref (inode_of s j) → i_dev (inode_of s j) = ROOTDEV;
  ch_valid j : 0 < i_ref (inode_of s j) → i_valid (inode_of s j) = true →
    dinode_of (inode_of s j) = inode_at V (k_sb s) (i_inum (inode_of s j));
  ch_free j : L ≠ Some j → sl_locked (i_lock (inode_of s j)) = false;
}.

Lemma tx_running p s held bs V : tx_inv p s held bs V → running p s.
Proof. intros T. apply (ti_cache _ _ _ _ _ T). Qed.
Lemma tx_woken p s held bs V ch : tx_inv p s held bs V → tx_inv p (woken ch s) held bs V.
Proof.
  intros T. eapply (tx_inv_quiet p s); [exact T|split; [apply io_frame_woken|done]|done|].
  eapply bcache_inv_frame; [apply T|apply io_frame_woken|done|done].
Qed.

(** ** ilock *)

Definition locked_by (pid : Z) (x : inode) : inode := set_i_lock (Sleeplock true pid) x.
Definition loaded (d : dinode) (x : inode) : inode := set_i_valid true (load_dinode d x).

Lemma dinode_loaded d x : dinode_of (loaded d x) = d.
Proof. by destruct d. Qed.

(** The second half of [ilock]: reading the inode. *)
Definition iload (ip : nat) : K unit :=
  x ← gets (λ s, inode_of s ip);
  when (negb (i_valid x))
    (sb ← gets k_sb;
     bp ← bread (i_dev x) (IBLOCK (i_inum x) sb);
     d ← gets (λ s, get_dinode (data_of s bp) (dinode_off (i_inum x)));
     modify (upd_inode ip (load_dinode d));;
     brelse bp;;
     modify (upd_inode ip (set_i_valid true));;
     t ← gets (λ s, i_type (inode_of s ip));
     if t =? 0 then panic "ilock: no type" else mret ()).
Lemma ilock_unfold ip : ilock ip = (r ← gets (λ s, i_ref (inode_of s ip)); if r <? 1 then panic "ilock" else acquiresleep (SL_inode ip);; iload ip).
Proof. reflexivity. Qed.

Lemma moved_side ip s s' x : fs_frame s s' → k_mem s' = k_mem s → k_itable s' = <[ip := x]> (k_itable s) → (ip < length (k_itable s))%nat →
  moved ip s s' x.
Proof.
  intros F Em Et Hip. split; try done.
  - unfold inode_of. by rewrite Et, list_lookup_insert_eq.
  - by rewrite Et, length_insert.
  - intros j Hj. unfold inode_of. by rewrite Et, list_lookup_insert_ne.
Qed.

Lemma iload_Ok p s bs V ip : let x := inode_of s ip in let d := inode_at V (k_sb s) (i_inum x) in
  fs_tx p s ∅ bs V → (length bs < NBUF)%nat → (ip < length (k_itable s))%nat → i_dev x = ROOTDEV → d_type d ≠ 0 →
  (i_valid x = true → dinode_of x = d) →
  ∃ s', iload ip s = Ok () s' ∧ fs_tx p s' ∅ bs V ∧ moved ip s s' (loaded d x).
Proof.
  intros x d HT Hnb Hip Hdev Hty Hval. unfold iload. rewrite bind_gets. fold x. destruct (i_valid x) eqn:Ev; cbn [negb when].
  { exists s. split; [done|]. split; [done|]. assert (loaded d x = x) as ->; [|by apply moved_tx].
    rewrite <- (Hval eq_refl). unfold loaded. rewrite load_dinode_of. destruct x. cbn in Ev. by subst. }
  rewrite bind_gets, Hdev. pose proof (ft_inv _ _ _ _ _ HT) as TI.
  destruct (tx_read p s ∅ ∅ bs V (IBLOCK (i_inum x) (k_sb s)) TI) as (bp & s1 & E1 & T1 & Hbp & _ & C1 & D1 & F1 & _);
    [done|set_solver|by rewrite size_empty|].
  rewrite (bind_Ok _ _ _ _ _ E1), bind_gets, D1. change (get_dinode _ _) with d. rewrite bind_modify.
  set (s2 := upd_inode ip (load_dinode d) s1).
  destruct (tx_brelse p s2 ({[bp]} ∪ ∅) bs V bp (IBLOCK (i_inum x) (k_sb s))) as (s3 & E3 & T3 & _ & F3).
  { eapply side_inv; [apply side_inode|done]. }
  { apply held_one. }
  { done. }
  { change (k_disk s2) with (k_disk s1). rewrite (tf_disk _ _ F1). by eapply tx_clean; [done|set_solver]. }
  rewrite held_none in T3. rewrite (bind_Ok _ _ _ _ _ E3), bind_modify.
  assert (moved ip s s3 (load_dinode d x)) as M3.
  { eapply moved_trans; [by apply moved_tx|]. fold x. eapply moved_trans; [apply moved_upd|].
    - by rewrite (proj1 (tx_itable _ _ F1)).
    - fold s2. pose proof (moved_tx ip _ _ F3) as M. replace (inode_of s2 ip) with (load_dinode d x) in M; [done|].
      unfold s2. rewrite inode_of_upd by (by rewrite (proj1 (tx_itable _ _ F1))). f_equal. unfold x, inode_of. by rewrite (proj1 (tx_itable _ _ F1)). }
  assert (ip < length (k_itable s3))%nat as Hip3 by (by rewrite (mv_len _ _ _ _ M3)).
  rewrite bind_gets, inode_of_upd by done. rewrite (mv_ip _ _ _ _ M3).
  change (i_type (set_i_valid true (load_dinode d x))) with (d_type d). rewrite (proj2 (Z.eqb_neq _ _) Hty).
  pose proof (moved_upd ip (set_i_valid true) s3 Hip3) as M4. rewrite (mv_ip _ _ _ _ M3) in M4.
  pose proof (moved_trans _ _ _ _ _ _ M3 M4) as M. eexists. split; [done|]. split; [|exact M].
  eapply fs_tx_frame; [done|apply M|]. eapply side_inv; [apply side_inode|done].
Qed.

Lemma upd_moved p s bs V ip f : (ip < length (k_itable s))%nat → fs_tx p s ∅ bs V →
  moved ip s (upd_inode ip f s) (f (inode_of s ip)) ∧ fs_tx p (upd_inode ip f s) ∅ bs V.
Proof. intros Hip HT. split; [by apply moved_upd|by apply upd_inode_tx]. Qed.
Lemma moved_pid p ip s s' x : moved ip s s' x → k_cur s = Some p → p_pid (proc_of s' p) = p_pid (proc_of s p).
Proof.
  intros M Hc. destruct (ff_procs _ _ (mv_frame _ _ _ _ M)) as [_ P]. destruct (P p) as [->|(? & _)]; done.
Qed.

Lemma ilock_Ok p s bs V ip i :
  fs_tx p s ∅ bs V → (length bs < NBUF)%nat → cache_ok None s V → stands s ip ROOTDEV i → d_type (inode_at V (k_sb s) i) ≠ 0 →
  ∃ s', ilock ip s = Ok () s' ∧ fs_tx p s' ∅ bs V ∧
    moved ip s s' (loaded (inode_at V (k_sb s) i) (locked_by (p_pid (proc_of s p)) (inode_of s ip))).
Proof.
  intros HT Hnb [C1 C2 C3 C4] Hs Hty. pose proof (stands_lt _ _ _ _ Hs) as Hip. destruct Hs as (Hr & Hd & Hi).
  rewrite ilock_unfold, bind_gets. destruct (Z.ltb_spec (i_ref (inode_of s ip)) 1); [lia|].
  pose proof (tx_running _ _ _ _ _ (ft_inv _ _ _ _ _ HT)) as HR.
  erewrite bind_Ok by (apply (acquiresleep_free _ []); [by apply running_in_nil|by apply C4]).
  change (upd_sl (SL_inode ip) ?v s) with (upd_inode ip (set_i_lock v) s).
  destruct (upd_moved p s bs V ip (locked_by (p_pid (proc_of s p))) Hip HT) as [M1 T1].
  set (s1 := upd_inode ip (locked_by (p_pid (proc_of s p))) s) in *.
  destruct (iload_Ok p s1 bs V ip T1 Hnb) as (s' & E & T & M).
  - by rewrite (mv_len _ _ _ _ M1).
  - by rewrite (mv_ip _ _ _ _ M1).
  - rewrite (mv_ip _ _ _ _ M1). cbn. by rewrite Hi.
  - rewrite (mv_ip _ _ _ _ M1). cbn. intros Hv. exact (C3 ip Hr Hv).
  - exists s'. split; [exact E|]. split; [done|]. rewrite (mv_ip _ _ _ _ M1) in M. cbn [i_inum locked_by set_i_lock] in M.
    rewrite Hi in M. by eapply moved_trans.
Qed.

Lemma woken_frame ch s : fs_frame s (woken ch s).
Proof. split; [by destruct s|apply woken_rel|done|done]. Qed.
Lemma iunlock_Ok p s bs V ip :
  fs_tx p s ∅ bs V → (ip < length (k_itable s))%nat → 0 < i_ref (inode_of s ip) →
  i_lock (inode_of s ip) = Sleeplock true (p_pid (proc_of s p)) →
  ∃ s', iunlock ip s = Ok () s' ∧ fs_tx p s' ∅ bs V ∧ moved ip s s' (set_i_lock (Sleeplock false 0) (inode_of s ip)).
Proof.
  intros HT Hip Hr Hl. pose proof (tx_running _ _ _ _ _ (ft_inv _ _ _ _ _ HT)) as HR. pose proof (running_in_nil _ _ HR) as HRI.
  unfold iunlock. erewrite bind_Ok by (by apply (holdingsleep_Ok _ [] p)). cbn [sl_of]. rewrite Hl. cbn [sl_locked sl_pid andb].
  rewrite Z.eqb_refl, bind_gets. destruct (Z.ltb_spec (i_ref (inode_of s ip)) 1); [lia|]. cbn [negb orb].
  rewrite (releasesleep_Ok _ [] p) by done. change (upd_sl (SL_inode ip) ?v s) with (upd_inode ip (set_i_lock v) s).
  destruct (upd_moved p s bs V ip (set_i_lock (Sleeplock false 0)) Hip HT) as [M1 T1].
  set (s1 := upd_inode ip (set_i_lock (Sleeplock false 0)) s) in *. eexists. split; [done|]. split.
  - eapply fs_tx_frame; [exact T1|apply woken_frame|]. by apply tx_woken, T1.
  - eapply moved_trans; [exact M1|]. rewrite <- (mv_ip _ _ _ _ M1). split; try done. apply woken_frame.
Qed.
Lemma entry_moved ip x s s' : (ip < length (k_itable s))%nat → entry_set ip x s s' → moved ip s s' x.
Proof.
  intros Hip [E1 E2]. apply moved_side; [|by rewrite E1|done|done]. apply side_fs_frame. split. rewrite E1. by destruct s.
Qed.
Lemma tx_held p s held bs V : fs_tx p s held bs V → k_held s = [].
Proof. intros HT. apply (tx_running _ _ _ _ _ (ft_inv _ _ _ _ _ HT)). Qed.
Lemma moved_itable ip s s' x : itable_ok s → moved ip s s' x → 0 ≤ i_ref x → i_dev x = i_dev (inode_of s ip) →
  i_inum x = i_inum (inode_of s ip) → (0 < i_ref x → 0 < i_ref (inode_of s ip)) → itable_ok s'.
Proof.
  intros [T1 T2 T3] [M1 M2 M3 _ _] Hr Hd Hi Hp. assert (∀ j dev inum, stands s' j dev inum → stands s j dev inum) as Hs.
  { intros j dev inum. unfold stands. destruct (decide (j = ip)) as [->|Hj]; [|by rewrite M3]. rewrite M1, Hd, Hi. tauto. }
  split; [by rewrite M2| |].
  - intros j. destruct (decide (j = ip)) as [->|Hj]; [by rewrite M1|by rewrite M3].
  - intros j k dev inum H1 H2. by apply (T3 j k dev inum); apply Hs.
Qed.

(** A locked inode is unlocked and a reference to it given back. *)
Lemma iunlockput_Ok p s bs V ip : let x := inode_of s ip in
  fs_tx p s ∅ bs V → itable_ok s → (ip < NINODE)%nat → 0 < i_ref x → i_lock x = Sleeplock true (p_pid (proc_of s p)) → i_nlink x ≠ 0 →
  ∃ s', iunlockput ip s = Ok () s' ∧ fs_tx p s' ∅ bs V ∧
    moved ip s s' (set_i_ref (i_ref x - 1) (set_i_lock (Sleeplock false 0) x)) ∧ itable_ok s'.
Proof.
  intros x HT HI Hip Hr Hl Hn. assert (ip < length (k_itable s))%nat as Hip' by (by rewrite (it_len _ HI)).
  destruct (iunlock_Ok p s bs V ip HT Hip' Hr Hl) as (s1 & E1 & T1 & M1). fold x in M1.
  assert (itable_ok s1) as HI1 by (by apply (moved_itable ip s s1 _ HI M1); fold x; cbn; try lia).
  unfold iunlockput. rewrite (bind_Ok _ _ _ _ _ E1).
  destruct (iput_drop ip s1 HI1 Hip) as (s2 & E2 & HE2 & HI2); rewrite ?(mv_ip _ _ _ _ M1).
  - rewrite (tx_held _ _ _ _ _ T1). set_solver.
  - done.
  - cbn. by intros (_ & _ & ?).
  - rewrite (mv_ip _ _ _ _ M1) in HE2. exists s2. split; [exact E2|]. split; [by eapply entry_set_tx|]. split; [|done].
    eapply moved_trans; [exact M1|]. apply entry_moved; [by rewrite (mv_len _ _ _ _ M1)|exact HE2].
Qed.

(** ** Reference counts *)

(** The references to inode [i]. *)
Definition refs (s : kst) (i : Z) : Z :=
  match list_find (λ x, 0 < i_ref x ∧ i_dev x = ROOTDEV ∧ i_inum x = i) (k_itable s) with
  | Some (_, x) => i_ref x
  | None => 0
  end.
Lemma refs_stands s j i : itable_ok s → stands s j ROOTDEV i → refs s i = i_ref (inode_of s j).
Proof.
  intros HI Hs. pose proof (stands_lt _ _ _ _ Hs) as Hj. unfold refs.
  destruct (list_find _ (k_itable s)) as [[k x]|] eqn:E.
  - apply list_find_Some in E as (Hk & Hx & _). assert (inode_of s k = x) as Ek by (unfold inode_of; by rewrite Hk).
    assert (stands s k ROOTDEV i) as Hsk by (unfold stands; by rewrite Ek). by rewrite (it_uniq _ HI _ _ _ _ Hs Hsk), Ek.
  - apply list_find_None in E. rewrite Forall_forall in E. destruct (lookup_lt_is_Some_2 _ _ Hj) as [x Hx].
    destruct (E x (list_elem_of_lookup_2 _ _ _ Hx)). unfold stands, inode_of in Hs. by rewrite Hx in Hs.
Qed.
Lemma refs_none s i : (∀ j, ¬ stands s j ROOTDEV i) → refs s i = 0.
Proof.
  intros Hn. unfold refs. destruct (list_find _ (k_itable s)) as [[k x]|] eqn:E; [|done].
  apply list_find_Some in E as (Hk & Hx & _). destruct (Hn k). unfold stands, inode_of. by rewrite Hk.
Qed.
Lemma refs_cases s i : itable_ok s → (∃ j, stands s j ROOTDEV i ∧ refs s i = i_ref (inode_of s j)) ∨ (∀ j, ¬ stands s j ROOTDEV i) ∧ refs s i = 0.
Proof.
  intros HI. destruct (decide (Exists (λ j, stands s j ROOTDEV i) (seq 0 (length (k_itable s))))) as [He|He].
  - apply Exists_exists in He as (j & _ & Hs). left. exists j. split; [done|]. by apply refs_stands.
  - right. assert (∀ j, ¬ stands s j ROOTDEV i) as Hn; [|split; [done|by apply refs_none]].
    intros j Hs. apply He, Exists_exists. exists j. split; [|done]. apply elem_of_seq. apply stands_lt in Hs. lia.
Qed.

(** The entries in use. *)
Definition used (x : inode) : nat := if i_ref x =? 0 then 0 else 1.
Definition nused (s : kst) : nat := sum_list_with used (k_itable s).
Lemma moved_table ip s s' x : moved ip s s' x → (ip < length (k_itable s))%nat → k_itable s' = <[ip := x]> (k_itable s).
Proof.
  intros [M1 M2 M3 _ _] Hip. apply list_eq. intros j. destruct (decide (j < length (k_itable s))%nat) as [Hj|Hj].
  2:{ rewrite !lookup_ge_None_2; [done|rewrite length_insert; lia|lia]. }
  destruct (lookup_lt_is_Some_2 (k_itable s') j) as [y Hy]; [lia|]. rewrite Hy.
  destruct (decide (j = ip)) as [->|Hne].
  - rewrite list_lookup_insert_eq by done. f_equal. rewrite <- M1. unfold inode_of. by rewrite Hy.
  - rewrite list_lookup_insert_ne by done. destruct (lookup_lt_is_Some_2 _ _ Hj) as [z Hz]. rewrite Hz. f_equal.
    specialize (M3 j Hne). unfold inode_of in M3. by rewrite Hy, Hz in M3.
Qed.
Lemma nused_moved ip s s' x : moved ip s s' x → (ip < length (k_itable s))%nat →
  (nused s' + used (inode_of s ip) = nused s + used x)%nat.
Proof.
  intros M Hip. unfold nused. rewrite (moved_table _ _ _ _ M Hip). apply sum_insert. unfold inode_of.
  by destruct (lookup_lt_is_Some_2 _ _ Hip) as [z ->].
Qed.
Lemma nused_room s : itable_ok s → (nused s < NINODE)%nat → itable_room s.
Proof.
  intros HI Hn. destruct (decide (Forall (λ x, i_ref x ≠ 0) (k_itable s))) as [Hf|Hf].
  - exfalso. assert (nused s = length (k_itable s)) as E; [|rewrite (it_len _ HI) in E; lia]. clear -Hf. unfold nused.
    induction Hf as [|x L Hx _ IH]; [done|]. simpl. unfold used at 1. rewrite (proj2 (Z.eqb_neq _ _) Hx), IH. done.
  - apply not_Forall_Exists in Hf; [|intros; apply _]. apply Exists_exists in Hf as (x & Hx & Hz).
    apply list_elem_of_lookup in Hx as [j Hj]. exists j. split; [rewrite <- (it_len _ HI); by eapply lookup_lt_Some|].
    unfold inode_of. rewrite Hj. by apply dec_stable.
Qed.

Lemma refs_moved ip s s' x i j : itable_ok s → itable_ok s' → moved ip s s' x → stands s ip ROOTDEV i →
  i_dev x = ROOTDEV → i_inum x = i → refs s' j = refs s j + (if decide (j = i) then i_ref x - i_ref (inode_of s ip) else 0).
Proof.
  intros HI HI' M Hs Hd Hi. pose proof M as [M1 _ M3 _ _].
  assert (∀ k, k ≠ ip → stands s' k ROOTDEV j ↔ stands s k ROOTDEV j) as Ho by (intros k Hk; unfold stands; by rewrite M3).
  case_decide as Hj.
  - subst j. rewrite (refs_stands s ip i HI Hs). replace (i_ref (inode_of s ip) + _) with (i_ref x) by lia.
    destruct (decide (0 < i_ref x)) as [Hp|Hp].
    + rewrite (refs_stands s' ip i HI'); [by rewrite M1|]. unfold stands. by rewrite M1.
    + pose proof (it_ref _ HI' ip) as H0. rewrite M1 in H0. rewrite refs_none; [lia|]. intros k Hk.
      destruct (decide (k = ip)) as [->|Hne]; [destruct Hk as [Hk _]; rewrite M1 in Hk; lia|].
      apply Hne. eapply (it_uniq _ HI); [by apply Ho|done].
  - rewrite Z.add_0_r. assert (∀ k, stands s' k ROOTDEV j ↔ stands s k ROOTDEV j) as Ho'.
    { intros k. destruct (decide (k = ip)) as [->|Hne]; [|by apply Ho]. split; intros (_ & _ & E); exfalso; apply Hj.
      - rewrite M1 in E. congruence.
      - destruct Hs as (_ & _ & Hs). congruence. }
    destruct (refs_cases s j HI) as [(k & Hk & ->)|[Hn ->]].
    + rewrite (refs_stands s' k j HI') by (by apply Ho'). rewrite M3; [done|]. intros ->. destruct Hk as (_ & _ & E), Hs as (_ & _ & E'). congruence.
    + apply refs_none. intros k. by rewrite Ho'.
Qed.
Lemma refs_taken ip s s' i : itable_ok s → itable_ok s' → (ip < length (k_itable s))%nat → takes s ip ROOTDEV i →
  entry_set ip (igot s ip ROOTDEV i) s s' →
  (∀ j, refs s' j = refs s j + (if decide (j = i) then 1 else 0)) ∧ nused s' = (nused s + (if (refs s i =? 0)%Z then 1 else 0))%nat.
Proof.
  intros HI HI' Hip Ht HE. pose proof (entry_moved _ _ _ _ Hip HE) as M. pose proof (nused_moved _ _ _ _ M Hip) as Hu. unfold igot in *.
  destruct Ht as [Hs|[Hz Hn]].
  - rewrite decide_True in * by done. pose proof Hs as (Hr & Hd & Hi). split.
    + intros j. rewrite (refs_moved ip s s' _ i j HI HI' M Hs) by done. cbn. case_decide; lia.
    + rewrite (refs_stands s ip i HI Hs). unfold used in Hu. cbn in Hu.
      rewrite (proj2 (Z.eqb_neq (i_ref (inode_of s ip)) 0)), (proj2 (Z.eqb_neq (i_ref (inode_of s ip) + 1) 0)) in * by lia. lia.
  - rewrite decide_False in * by (by apply Hn). rewrite (refs_none s i Hn). split.
    + pose proof M as [M1 _ M3 _ _]. intros j. case_decide as Hj.
      * subst j. rewrite (refs_stands s' ip i HI'), (refs_none s i Hn); [by rewrite M1|]. unfold stands. by rewrite M1.
      * rewrite Z.add_0_r. assert (∀ k, stands s' k ROOTDEV j ↔ stands s k ROOTDEV j) as Ho.
        { intros k. unfold stands. destruct (decide (k = ip)) as [->|Hne]; [|by rewrite M3]. rewrite M1, Hz. cbn. split; intros (? & _ & ?); [congruence|lia]. }
        destruct (refs_cases s j HI) as [(k & Hk & ->)|[Hnj ->]].
        -- rewrite (refs_stands s' k j HI') by (by apply Ho). rewrite M3; [done|]. intros ->. destruct Hk as [? _]. lia.
        -- apply refs_none. intros k. by rewrite Ho.
    + unfold used in Hu. cbn in Hu. rewrite Hz in Hu. simpl in *. lia.
Qed.
Lemma cache_moved L L' ip s s' x V : cache_ok L s V → moved ip s s' x → itable_ok s' → i_dev x = ROOTDEV →
  (0 < i_ref x → i_valid x = true → dinode_of x = inode_at V (k_sb s) (i_inum x)) → (L' ≠ Some ip → sl_locked (i_lock x) = false) →
  (∀ j, j ≠ ip → L = Some j → L' = Some j) → cache_ok L' s' V.
Proof.
  intros [C1 C2 C3 C4] [M1 M2 M3 _ MF] HI Hd Hv Hl HL. rewrite <- (fs_frame_sb _ _ MF) in *. split; [done|..].
  - intros j. destruct (decide (j = ip)) as [->|Hj]; [by rewrite M1|rewrite M3 by done; apply C2].
  - intros j. destruct (decide (j = ip)) as [->|Hj]; [by rewrite M1|rewrite M3 by done; apply C3].
  - intros j Hj. destruct (decide (j = ip)) as [->|Hne]; [rewrite M1; auto|rewrite M3 by done; apply C4]. intros E. by apply Hj, HL.
Qed.

Lemma refs_nonneg s i : itable_ok s → 0 ≤ refs s i.
Proof. intros HI. destruct (refs_cases s i HI) as [(j & _ & ->)|[_ ->]]; [apply HI|done]. Qed.
Lemma igot_facts s ip dev i : takes s ip dev i → let x := inode_of s ip in let y := igot s ip dev i in
  i_dev y = dev ∧ i_inum y = i ∧ 0 < i_ref y ∧ i_lock y = i_lock x ∧
  (0 < i_ref x → i_valid y = i_valid x ∧ dinode_of y = dinode_of x) ∧ (i_valid y = true → 0 < i_ref x).
Proof.
  intros Ht. unfold igot. destruct Ht as [Hs|[Hz Hn]].
  - rewrite decide_True by done. destruct Hs as (H1 & H2 & H3). cbn. split_and!; try done. lia.
  - rewrite decide_False by (by apply Hn). cbn. split_and!; try done. rewrite Hz. lia.
Qed.
Lemma cache_taken L ip i s s' V : cache_ok L s V → (ip < length (k_itable s))%nat → takes s ip ROOTDEV i →
  entry_set ip (igot s ip ROOTDEV i) s s' → itable_ok s' → cache_ok L s' V.
Proof.
  intros HC Hip Ht HE HI. destruct (igot_facts s ip ROOTDEV i Ht) as (G1 & G2 & G3 & G4 & G5 & G6).
  eapply (cache_moved L L); [exact HC|by eapply entry_moved|done|done| | |done].
  - intros _ Hv. destruct (G5 (G6 Hv)) as [E1 E2]. rewrite E2, G2. rewrite E1 in Hv.
    rewrite (ch_valid _ _ _ HC ip (G6 ltac:(by rewrite E1)) Hv). f_equal.
    destruct Ht as [(_ & _ & E)|[Hz _]]; [done|]. specialize (G6 ltac:(by rewrite E1)). lia.
  - intros Hne. rewrite G4. by apply (ch_free _ _ _ HC).
Qed.

(** ** The walk *)

Section walk.
Context (p : nat) (bs : list Z) (V : Z → list Z) (sb : superblock) (start : Z) (s0 : kst) (base : Z → Z) (n0 : nat) (o : Z).
Let name : Z := KSTACK (Z.of_nat p) + o.
Context (Hnb : (length bs < NBUF)%nat) (HTree : tree_ok sb start V) (Hn0 : (n0 + 1 < NINODE)%nat).
Context (Ho : 0 ≤ o ∧ o + DIRSIZ ≤ 2 * PGSIZE) (Hname : name_apart (DE_LOOKUP p) name).

(** Memory the walk does not write. *)
Definition unwritten (a : Z) : Prop :=
  ¬ scratch a ∧ ¬ (DE_LOOKUP p ≤ a < DE_LOOKUP p + sizeof_dirent) ∧ ¬ (name ≤ a < name + DIRSIZ).
(** The walk from [s0] is in state [s]; it holds the lock of [L]. *)
Record wstate (L : option nat) (s : kst) : Prop := {
  w_tx : fs_tx p s ∅ bs V;
  w_ctx : uctx p s;
  w_cache : cache_ok L s V;
  w_sb : k_sb s = sb;
  w_start : lg_start (k_log s) = start;
  w_frame : fs_frame s0 s;
  w_mem a : unwritten a → rd (k_mem s) a = rd (k_mem s0) a;
}.
(** It is at inode [i], entry [ip], with one reference more than the [base]. *)
Record walk_at (L : option nat) (ip : nat) (i : Z) (s : kst) : Prop := {
  at_w : wstate L s;
  at_stands : stands s ip ROOTDEV i;
  at_live : live sb V i;
  at_refs j : refs s j = base j + (if decide (j = i) then 1 else 0);
  at_used : nused s = (n0 + (if (base i =? 0)%Z then 1 else 0))%nat;
}.
(** It is over, without a result. *)
Record walk_out (s : kst) : Prop := {
  wo_w : wstate None s;
  wo_refs j : refs s j = base j;
}.

Lemma w_moved L L' ip s s' x : wstate L s → moved ip s s' x → fs_tx p s' ∅ bs V → cache_ok L' s' V → wstate L' s'.
Proof.
  intros [W1 W2 W3 W4 W5 W6 W7] M HT HC. pose proof (mv_frame _ _ _ _ M) as F. split; try done.
  - by eapply uctx_frame; [exact F|apply M|].
  - by rewrite (fs_frame_sb _ _ F).
  - by rewrite (ff_start _ _ F).
  - by etrans.
  - intros a Ha. rewrite (mv_mem _ _ _ _ M). by apply W7.
Qed.
Lemma frame_pid s s' : fs_frame s s' → k_cur s = Some p → p_pid (proc_of s' p) = p_pid (proc_of s p).
Proof. intros F Hc. destruct (ff_procs _ _ F) as [_ P]. destruct (P p) as [->|(? & _)]; done. Qed.

(** The entry of a locked inode. *)
Record held_inode (s : kst) (ip : nat) (i : Z) : Prop := {
  hi_stands : stands s ip ROOTDEV i;
  hi_lock : i_lock (inode_of s ip) = Sleeplock true (p_pid (proc_of s p));
  hi_valid : i_valid (inode_of s ip) = true;
  hi_disk : dinode_of (inode_of s ip) = inode_at V sb i;
}.

Lemma walk_lock ip i s : walk_at None ip i s →
  ∃ s', ilock ip s = Ok () s' ∧ walk_at (Some ip) ip i s' ∧ held_inode s' ip i ∧ k_mem s' = k_mem s.
Proof using All.
  intros [W Hs Hl Hr Hu]. pose proof W as [W1 W2 W3 W4 W5 W6 W7]. pose proof (ch_table _ _ _ W3) as HI.
  destruct (ilock_Ok p s bs V ip i W1 Hnb W3 Hs) as (s' & E & T & M); [rewrite W4; apply Hl|]. rewrite W4 in M.
  set (x := inode_of s ip) in *. set (y := loaded (inode_at V sb i) (locked_by (p_pid (proc_of s p)) x)) in *.
  pose proof Hs as (Hr1 & Hd & Hi). pose proof (stands_lt _ _ _ _ Hs) as Hip. fold x in Hr1, Hd, Hi.
  assert (itable_ok s') as HI' by (apply (moved_itable ip s s' y HI M); change (i_ref y) with (i_ref x); (done || lia)).
  assert (dinode_of y = inode_at V sb i) as Hdy by apply dinode_loaded.
  assert (stands s' ip ROOTDEV i) as Hs' by (unfold stands; by rewrite (mv_ip _ _ _ _ M)).
  exists s'. split; [done|]. split; [split|split; [split|apply M]]; try done; rewrite ?(mv_ip _ _ _ _ M); try done.
  - eapply w_moved; [exact W|exact M|done|]. eapply (cache_moved None (Some ip)); [exact W3|exact M|done|done| |done|done].
    intros _ _. rewrite W4, Hdy. cbn. by rewrite Hi.
  - intros j. rewrite (refs_moved ip s s' y i j HI HI' M Hs Hd Hi), Hr. fold x. cbn. case_decide; lia.
  - pose proof (nused_moved _ _ _ _ M Hip) as Hn. fold x in Hn. change (used y) with (used x) in Hn. lia.
  - cbn. by rewrite (moved_pid p ip s s' y M (uc_cur _ _ W2)).
Qed.

(** The lock and the reference are given back. *)
Lemma walk_put ip i s : wstate (Some ip) s → held_inode s ip i → live sb V i →
  ∃ s', iunlockput ip s = Ok () s' ∧ wstate None s' ∧ (∀ j, refs s' j = refs s j - (if decide (j = i) then 1 else 0)) ∧
    (nused s' + (if (refs s i =? 1)%Z then 1 else 0) = nused s)%nat ∧
    (∀ k dev inum, k ≠ ip → stands s k dev inum → stands s' k dev inum) ∧ (1 < refs s i → stands s' ip ROOTDEV i).
Proof using All.
  intros W [Hs Hl Hv Hd] Hlv. pose proof W as [W1 W2 W3 W4 W5 W6 W7]. pose proof (ch_table _ _ _ W3) as HI.
  pose proof Hs as (Hr & Hdev & Hi). pose proof (stands_lt _ _ _ _ Hs) as Hip. set (x := inode_of s ip) in *.
  destruct (iunlockput_Ok p s bs V ip W1 HI) as (s' & E & T & M & HI'); try done.
  { by rewrite <- (it_len _ HI). }
  { destruct Hlv as (_ & _ & Hn). rewrite <- Hd in Hn. exact Hn. }
  fold x in M. set (y := set_i_ref (i_ref x - 1) (set_i_lock (Sleeplock false 0) x)) in *.
  pose proof (refs_stands s ip i HI Hs) as Er. fold x in Er. exists s'. split; [done|]. split; [|split; [|split; [|split]]].
  - eapply w_moved; [exact W|exact M|done|]. eapply (cache_moved (Some ip) None); [exact W3|exact M|done|done| |done|by intros j Hj [= <-]].
    intros _ _. rewrite W4. cbn. change (dinode_of y) with (dinode_of x). by rewrite Hd, Hi.
  - intros j. rewrite (refs_moved ip s s' y i j HI HI' M Hs) by done. fold x. cbn. case_decide; lia.
  - pose proof (nused_moved _ _ _ _ M Hip) as Hn. fold x in Hn. unfold used in Hn. cbn in Hn. rewrite Er.
    rewrite (proj2 (Z.eqb_neq (i_ref x) 0)) in Hn by lia. destruct (Z.eqb_spec (i_ref x) 1), (Z.eqb_spec (i_ref x - 1) 0); lia.
  - intros k dev inum Hk. unfold stands. by rewrite (mv_other _ _ _ _ M).
  - intros Hgt. unfold stands. rewrite (mv_ip _ _ _ _ M). cbn. split; [lia|done].
Qed.

Lemma w_looked L s s' : wstate L s → looked (DE_LOOKUP p) s s' → fs_tx p s' ∅ bs V → uctx p s' → wstate L s'.
Proof.
  intros [W1 W2 [C1 C2 C3 C4] W4 W5 W6 W7] HL HT HU. pose proof (lk_frame _ _ _ HL) as F.
  pose proof (λ j, looked_inode _ _ _ j HL) as Hj. split; try done.
  - split; [by eapply looked_table|..]; intros j; rewrite Hj; [apply C2|rewrite (fs_frame_sb _ _ F); apply C3|apply C4].
  - by rewrite (fs_frame_sb _ _ F).
  - by rewrite (ff_start _ _ F).
  - by etrans.
  - intros a Ha. rewrite (lk_mem _ _ _ HL) by apply Ha. by apply W7.
Qed.
Lemma held_looked s s' ip i : wstate (Some ip) s → held_inode s ip i → looked (DE_LOOKUP p) s s' → held_inode s' ip i.
Proof.
  intros W [H1 H2 H3 H4] HL. pose proof (looked_inode _ _ _ ip HL) as Hj.
  split; rewrite ?Hj; try done; [unfold stands; by rewrite Hj|].
  by rewrite (frame_pid s s' (lk_frame _ _ _ HL) (uc_cur _ _ (w_ctx _ _ W))).
Qed.
Lemma refs_looked s s' i : looked (DE_LOOKUP p) s s' → refs s' i = refs s i ∧ nused s' = nused s.
Proof. intros HL. unfold refs, nused. by rewrite (lk_itable _ _ _ HL). Qed.

Lemma walk_dir_state ip i s : walk_at (Some ip) ip i s → held_inode s ip i → d_type (inode_at V sb i) = T_DIR →
  dir_state p s bs V ip ∧ itable_room s ∧ ∀ nm, dget V (inode_of s ip) nm = dget V (on_disk sb V i) nm.
Proof using All.
  intros [W Hs Hl Hr Hu] [_ _ Hv Hd] Hty. pose proof W as [W1 W2 W3 W4 W5 W6 W7].
  assert (dinode_of (on_disk sb V i) = inode_at V sb i) as Eo by (unfold on_disk; by destruct (inode_at V sb i)).
  split; [split; try done|split].
  - by eapply stands_lt.
  - rewrite W4, W5. eapply (dir_ok_same _ _ _ (on_disk sb V i)); [by rewrite Eo, Hd|..|by apply HTree, Hty; apply Hl].
    + symmetry. apply Hs.
    + symmetry. apply Hs.
  - apply nused_room; [apply W3|]. rewrite Hu. destruct (base i =? 0); lia.
  - intros nm. apply dget_dinode. by rewrite Eo, Hd.
Qed.

(** Entering the directory: the entry that was taken, and the state before the current one is put. *)
Lemma walk_take ip i j next s1 s2 : wstate (Some ip) s1 → held_inode s1 ip i → (next < NINODE)%nat → takes s1 next ROOTDEV j →
  entry_set next (igot s1 next ROOTDEV j) s1 s2 → itable_ok s2 → wstate (Some ip) s2 ∧ held_inode s2 ip i ∧ k_mem s2 = k_mem s1.
Proof using All.
  intros W [H1 H2 H3 H4] Hn Ht HE HI2. pose proof W as [W1 W2 W3 W4 W5 W6 W7]. destruct (igot_facts s1 next ROOTDEV j Ht) as (G1 & G2 & G3 & G4 & G5 & G6).
  assert (next < length (k_itable s1))%nat as Hnl by (by rewrite (it_len _ (ch_table _ _ _ W3))).
  pose proof (entry_moved _ _ _ _ Hnl HE) as M. split; [|split; [|apply M]].
  - eapply w_moved; [exact W|exact M|by eapply entry_set_tx|]. by eapply cache_taken.
  - pose proof (frame_pid s1 s2 (mv_frame _ _ _ _ M) (uc_cur _ _ W2)) as Ep. destruct (decide (next = ip)) as [->|Hne].
    + destruct H1 as (R1 & R2 & R3). destruct (G5 R1) as [E1 E2].
      assert (j = i) as -> by (destruct Ht as [(_ & _ & E)|[Hz _]]; [congruence|lia]).
      split; unfold stands; rewrite ?(mv_ip _ _ _ _ M), ?Ep; congruence || done.
    + split; unfold stands; rewrite ?(mv_other _ _ _ _ M), ?Ep by done; done.
Qed.

(** One directory: its entry for the name is entered, or there is none. *)
Lemma walk_dir ip i s : walk_at (Some ip) ip i s → held_inode s ip i → d_type (inode_at V sb i) = T_DIR →
  match dget V (on_disk sb V i) (name_at s name) with
  | None => ∃ s1 s2, dirlookup ip name s = Ok None s1 ∧ iunlockput ip s1 = Ok () s2 ∧ walk_out s2
  | Some j => ∃ next off s1 s2, dirlookup ip name s = Ok (Some (next, off)) s1 ∧ iunlockput ip s1 = Ok () s2 ∧ walk_at None next j s2
  end.
Proof using All.
  intros HA HH Hty. destruct (walk_dir_state ip i s HA HH Hty) as (HD & HR & Hg). pose proof HA as [W Hs Hl Hr Hu].
  pose proof (ch_table _ _ _ (w_cache _ _ W)) as HI.
  pose proof (dirlookup_dget p s bs V ip name HD HI HR Hname) as H. cbv zeta in H. rewrite Hg in H.
  destruct (dget V (on_disk sb V i) (name_at s name)) as [j|] eqn:Eg.
  - destruct H as (next & off & s1 & s2 & E & HL & HD1 & Hn & HE & HI2 & Hs2 & Htk). replace (i_dev (inode_of s ip)) with ROOTDEV in * by (symmetry; apply Hs).
    pose proof (w_looked _ s s1 W HL (ds_tx _ _ _ _ _ HD1) (ds_ctx _ _ _ _ _ HD1)) as W1. pose proof (held_looked s s1 ip i W HH HL) as HH1.
    destruct (walk_take ip i j next s1 s2 W1 HH1 Hn Htk HE HI2) as (W2 & HH2 & _).
    destruct (walk_put ip i s2 W2 HH2 Hl) as (s3 & E3 & W3 & R3 & U3 & K3 & L3).
    assert (next < length (k_itable s1))%nat as Hnl by (by rewrite (it_len _ (ch_table _ _ _ (w_cache _ _ W1)))).
    destruct (refs_taken next s1 s2 j (ch_table _ _ _ (w_cache _ _ W1)) HI2 Hnl Htk HE) as [R2 U2].
    pose proof (λ k, proj1 (refs_looked s s1 k HL)) as R1. destruct (refs_looked s s1 0 HL) as [_ U1].
    pose proof (refs_nonneg s j HI) as N1. pose proof (refs_nonneg s i HI) as N2. pose proof (refs_stands s ip i HI Hs) as N3.
    pose proof (proj1 Hs) as N4.
    exists next, off, s2, s3. split; [done|]. split; [done|]. split; [done| | | |].
    + destruct (decide (next = ip)) as [->|Hne]; [|by apply K3]. destruct Hs2 as (_ & _ & E2). destruct HH2 as [(_ & _ & E4) _ _ _].
      assert (j = i) as -> by congruence. apply L3. rewrite R2, R1, Hr. repeat case_decide; try done. rewrite Hr in N3. case_decide; [|done]. lia.
    + apply (tr_named _ _ _ HTree i (name_at s name)); [apply Hl|done|done].
    + intros k. rewrite R3, R2, R1, Hr. lia.
    + rewrite U2, U1, Hu, R2, !R1, !Hr in U3. rewrite !Hr in N1, N2.
      destruct (decide (i = j)) as [->|Hij].
      * rewrite !(decide_True (P := j = j)) in * by done.
        destruct (Z.eqb_spec (base j + 1) 0), (Z.eqb_spec (base j + 1 + 1) 1); lia.
      * rewrite !(decide_True (P := i = i)), (decide_False (P := j = i)) in * by congruence.
        replace (base i + 1 + 0) with (base i + 1) in U3 by lia.
        replace (base j + 0) with (base j) in U3 by lia. 
        destruct (Z.eqb_spec (base i + 1) 1), (Z.eqb_spec (base i) 0), (Z.eqb_spec (base j) 0); lia.
  - destruct H as (s1 & E & HL & HD1 & _).
    pose proof (w_looked _ s s1 W HL (ds_tx _ _ _ _ _ HD1) (ds_ctx _ _ _ _ _ HD1)) as W1. pose proof (held_looked s s1 ip i W HH HL) as HH1.
    destruct (walk_put ip i s1 W1 HH1 Hl) as (s2 & E2 & W2 & R2 & _). exists s1, s2. split; [done|]. split; [done|]. split; [done|].
    intros k. rewrite R2, (proj1 (refs_looked s s1 k HL)), Hr. lia.
Qed.

Lemma walk_drop ip i s : walk_at None ip i s → ∃ s', iput ip s = Ok () s' ∧ walk_out s'.
Proof using All.
  intros [W Hs Hl Hr Hu]. pose proof W as [W1 W2 W3 W4 W5 W6 W7]. pose proof (ch_table _ _ _ W3) as HI. pose proof (stands_lt _ _ _ _ Hs) as Hip.
  pose proof Hs as (Hr1 & Hd & Hi). destruct (iput_drop ip s HI) as (s' & E & HE & HI'); try done.
  { by rewrite <- (it_len _ HI). }
  { rewrite (tx_held _ _ _ _ _ W1). set_solver. }
  { intros (_ & Hv & Hn). pose proof (ch_valid _ _ _ W3 ip Hr1 Hv) as Ed. rewrite W4, Hi in Ed. destruct Hl as (_ & _ & Hl).
    apply Hl. by rewrite <- Ed. }
  pose proof (entry_moved _ _ _ _ Hip HE) as M. exists s'. split; [done|]. split.
  - eapply w_moved; [exact W|exact M|by eapply entry_set_tx|]. eapply (cache_moved None None); [exact W3|exact M|done|done| | |done].
    + intros _ Hv. exact (ch_valid _ _ _ W3 ip Hr1 Hv).
    + intros _. by apply (ch_free _ _ _ W3).
  - intros j. rewrite (refs_moved ip s s' _ i j HI HI' M Hs Hd Hi), Hr. cbn. case_decide; lia.
Qed.
Lemma walk_unlock ip i s : walk_at (Some ip) ip i s → held_inode s ip i →
  ∃ s', iunlock ip s = Ok () s' ∧ walk_at None ip i s' ∧ k_mem s' = k_mem s.
Proof using All.
  intros [W Hs Hl Hr Hu] [_ Hlk Hv Hd]. pose proof W as [W1 W2 W3 W4 W5 W6 W7]. pose proof (ch_table _ _ _ W3) as HI. pose proof (stands_lt _ _ _ _ Hs) as Hip.
  pose proof Hs as (Hr1 & Hdev & Hi). destruct (iunlock_Ok p s bs V ip W1 Hip Hr1 Hlk) as (s' & E & T & M).
  set (x := inode_of s ip) in *. set (y := set_i_lock (Sleeplock false 0) x) in *.
  assert (itable_ok s') as HI' by (apply (moved_itable ip s s' y HI M); change (i_ref y) with (i_ref x); (done || lia)).
  exists s'. split; [done|]. split; [|apply M]. split; try done.
  - eapply w_moved; [exact W|exact M|done|]. eapply (cache_moved (Some ip) None); [exact W3|exact M|done|done| |done|by intros j Hj [= <-]].
    intros _ _. rewrite W4. cbn. change (dinode_of y) with (dinode_of x). by rewrite Hd, Hi.
  - unfold stands. by rewrite (mv_ip _ _ _ _ M).
  - intros j. rewrite (refs_moved ip s s' y i j HI HI' M Hs Hdev Hi), Hr. fold x. cbn. case_decide; lia.
  - pose proof (nused_moved _ _ _ _ M Hip) as Hn. fold x in Hn. change (used y) with (used x) in Hn. lia.
Qed.
(** The element is copied to [name]. *)
Lemma walk_name ip i s m' : walk_at None ip i s → mem_ok m' → (∀ a, ¬ (name ≤ a < name + DIRSIZ) → rd m' a = rd (k_mem s) a) →
  walk_at None ip i (set_k_mem m' s).
Proof using All.
  intros [W Hs Hl Hr Hu] Hm Ha. pose proof W as [W1 W2 [C1 C2 C3 C4] W4 W5 W6 W7]. split; try done. split; try done.
  - eapply fs_tx_frame; [exact W1|apply side_fs_frame, side_mem|]. eapply side_inv; [apply side_mem|apply W1].
  - apply uctx_mem; [done|done|]. intros q a Hq Hqa. apply Ha. intros Hx.
    refine (kernel_high _ _ _ name DIRSIZ (us_wf _ _ _ (uc_space _ _ W2)) _ a q _ (tabs_owns _ _ _ Hq) Hqa); [|done].
    apply KSTACK_high; [apply W2|lia].
  - split; [|done|done|done]. destruct C1 as [T1 T2 T3]. split; [done|exact T2|exact T3].
  - etrans; [exact W6|]. apply side_fs_frame, side_mem.
  - intros a Hu'. cbn. rewrite Ha by apply Hu'. by apply W7.
Qed.
Lemma walk_skip ip i s path l : walk_at None ip i s → str_at (k_mem s0) path l → 0 < path →
  (∀ a, path ≤ a ≤ path + Z.of_nat (length l) → unwritten a) →
  match elems l with
  | [] => skipelem path name s = Ok 0 s
  | e :: es => ∃ p' l' m', skipelem path name s = Ok p' (set_k_mem m' s) ∧ walk_at None ip i (set_k_mem m' s) ∧
      path < p' ∧ p' + Z.of_nat (length l') = path + Z.of_nat (length l) ∧ str_at (k_mem s0) p' l' ∧ elems l' = es ∧
      (rd m' p' = 0 ↔ es = []) ∧ cstrn m' name (Z.to_nat DIRSIZ) = cut e
  end.
Proof using All.
  intros HA Hs Hp Hun. pose proof (at_w _ _ _ _ HA) as W.
  assert (str_at (k_mem s) path l) as Hs1.
  { eapply str_at_ext; [|exact Hs]. intros a Ha. apply (w_mem _ _ W). by apply Hun. }
  assert (name + DIRSIZ ≤ path ∨ path + Z.of_nat (length l) < name) as Hd.
  { destruct (Hun path ltac:(lia)) as (_ & _ & H1). destruct (decide (name ≤ path)); [left; lia|].
    destruct (decide (name ≤ path + Z.of_nat (length l))); [|right; lia]. destruct (Hun name ltac:(lia)) as (_ & _ & H2). unfold DIRSIZ in H2. lia. }
  pose proof (skipelem_str (k_mem s) path l name (uc_mem _ _ (w_ctx _ _ W)) Hs1 Hp Hd) as H. unfold skipelem. rewrite bind_gets, bind_modify.
  destruct (elems l) as [|e es] eqn:Ee.
  - rewrite H. cbn. by destruct s.
  - destruct H as (p' & l' & m' & E & H1 & H2 & H3 & H4 & H5 & H6 & H7 & H8). exists p', l', m'. rewrite E. split; [done|].
    split; [by apply walk_name|]. split; [done|]. split; [done|]. split.
    { eapply str_at_ext; [|exact H3]. intros a Ha. assert (unwritten a) as Hua by (apply Hun; lia). rewrite H8 by apply Hua. symmetry. by apply (w_mem _ _ W). }
    split; [done|]. split; [|done]. rewrite <- H5. split.
    + intros H0. destruct l' as [|b l']; [done|]. destruct H3 as [Hb [Hnz _]]. congruence.
    + intros ->. exact H3.
Qed.

(** The result of the walk from [i]. *)
Definition walk_end (nip : bool) (i : Z) (es : list (list Z)) (r : option nat) (s : kst) : Prop :=
  if nip then
    match resolve_parent sb V i es with
    | Some (j, e) => ∃ ip, r = Some ip ∧ walk_at None ip j s ∧ name_at s name = e
    | None => r = None ∧ walk_out s
    end
  else
    match resolve sb V i es with
    | Some j => ∃ ip, r = Some ip ∧ walk_at None ip j s
    | None => r = None ∧ walk_out s
    end.

Lemma walk_end_none nip i e es s : walk_out s → dir_at sb V i = false ∨ child sb V i e = None ∧ ¬ (nip = true ∧ es = []) →
  walk_end nip i (e :: es) None s.
Proof using All.
  intros HO H. assert (resolve sb V i (e :: es) = None) as E1.
  { rewrite resolve_cons. destruct H as [->|[-> _]]; [done|]. by destruct (dir_at sb V i). }
  unfold walk_end. destruct nip; [|by rewrite E1]. assert (resolve_parent sb V i (e :: es) = None) as ->; [|done].
  destruct (decide (es = [])) as [->|Hne].
  - destruct H as [H|[_ []]]; [|done]. unfold resolve_parent. cbn [last removelast]. change (resolve sb V i []) with (Some i). cbn. by rewrite H.
  - rewrite resolve_parent_cons by done. destruct H as [->|[-> _]]; [done|]. by destruct (dir_at sb V i).
Qed.
Lemma walk_end_step nip i e j es r s : dir_at sb V i = true → child sb V i e = Some j → ¬ (nip = true ∧ es = []) →
  walk_end nip j es r s → walk_end nip i (e :: es) r s.
Proof using All.
  intros H1 H2 H3 H. unfold walk_end in *. destruct nip.
  - rewrite resolve_parent_cons, H1, H2 by naive_solver. exact H.
  - rewrite resolve_cons, H1, H2. exact H.
Qed.

Lemma namex_loop_ok nip fuel : ∀ ip i path l s, walk_at None ip i s → str_at (k_mem s0) path l → 0 < path →
  (∀ a, path ≤ a ≤ path + Z.of_nat (length l) → unwritten a) → (length l < fuel)%nat →
  ∃ r s', namex_loop fuel ip path nip name s = Ok r s' ∧ walk_end nip i (elems l) r s'.
Proof using All.
  induction fuel as [|fuel IH]; intros ip i path l s HA Hs Hp Hun Hf; [lia|]. cbn [namex_loop].
  pose proof (walk_skip ip i s path l HA Hs Hp Hun) as H. destruct (elems l) as [|e es] eqn:Ee.
  { rewrite (bind_Ok _ _ _ _ _ H). cbn [Z.eqb]. destruct nip.
    - destruct (walk_drop ip i s HA) as (s' & E & HO). rewrite (bind_Ok _ _ _ _ _ E). by exists None, s'.
    - exists (Some ip), s. split; [done|]. unfold walk_end. change (resolve sb V i []) with (Some i). by exists ip. }
  destruct H as (p' & l' & m' & E & HA1 & Hlt & Hend & Hs' & Ees & Hlast & Hnm). rewrite (bind_Ok _ _ _ _ _ E). clear E.
  rewrite (proj2 (Z.eqb_neq p' 0)) by lia. set (s1 := set_k_mem m' s) in *.
  destruct (walk_lock ip i s1 HA1) as (s2 & E2 & HA2 & HH & Em). rewrite (bind_Ok _ _ _ _ _ E2), bind_gets.
  assert (i_type (inode_of s2 ip) = d_type (inode_at V sb i)) as -> by (by rewrite <- (hi_disk _ _ _ HH)).
  assert (name_at s2 name = cut e) as Hnm2 by (unfold name_at; by rewrite Em). change (d_type (inode_at V sb i) =? T_DIR) with (dir_at sb V i).
  destruct (dir_at sb V i) eqn:Hty; cbn [negb].
  2:{ destruct (walk_put ip i s2 (at_w _ _ _ _ HA2) HH (at_live _ _ _ _ HA2)) as (s3 & E3 & W3 & R3 & _). rewrite (bind_Ok _ _ _ _ _ E3).
      exists None, s3. split; [done|]. apply walk_end_none; [|by left]. split; [done|]. intros j. rewrite R3, (at_refs _ _ _ _ HA2). lia. }
  rewrite bind_gets. assert (rd (k_mem s2) p' =? 0 = bool_decide (es = [])) as ->.
  { rewrite Em. change (k_mem s1) with m'. apply eq_true_iff_eq. rewrite Z.eqb_eq, bool_decide_eq_true. done. }
  destruct (decide (nip = true ∧ es = [])) as [[-> ->]|Hgo].
  { destruct (walk_unlock ip i s2 HA2 HH) as (s3 & E3 & HA3 & Em3). cbn [andb bool_decide decide]. rewrite bool_decide_true by done.
    rewrite (bind_Ok _ _ _ _ _ E3). exists (Some ip), s3. split; [done|]. unfold walk_end, resolve_parent. cbn [last removelast resolve mbind option_bind].
    change (resolve sb V i []) with (Some i). cbn [mbind option_bind]. rewrite Hty. exists ip. split; [done|]. split; [done|]. unfold name_at. by rewrite Em3. }
  assert (nip && bool_decide (es = []) = false) as ->.
  { destruct nip; [|done]. cbn. apply bool_decide_eq_false. naive_solver. }
  pose proof (walk_dir ip i s2 HA2 HH (proj1 (Z.eqb_eq _ _) Hty)) as HD. rewrite Hnm2, <- child_eq in HD.
  destruct (child sb V i e) as [j|] eqn:Eg.
  - destruct HD as (next & off & s3 & s4 & E3 & E4 & HA4). rewrite (bind_Ok _ _ _ _ _ E3). cbv beta iota. rewrite (bind_Ok _ _ _ _ _ E4).
    destruct (IH next j p' l' s4 HA4 Hs') as (r & s' & E & HR); [lia|intros a Ha; apply Hun; lia|lia|]. exists r, s'. split; [exact E|].
    rewrite Ees in HR. by apply (walk_end_step nip i e j).
  - destruct HD as (s3 & s4 & E3 & E4 & HO). rewrite (bind_Ok _ _ _ _ _ E3). cbv beta iota. rewrite (bind_Ok _ _ _ _ _ E4).
    exists None, s4. split; [done|]. apply walk_end_none; [done|]. right. by split.
Qed.
End walk.

(** ** namex *)

Lemma idup_Ok ip i s : itable_ok s → k_held s = [] → stands s ip ROOTDEV i →
  ∃ s', idup ip s = Ok ip s' ∧ entry_set ip (igot s ip ROOTDEV i) s s' ∧ itable_ok s' ∧ stands s' ip ROOTDEV i.
Proof.
  intros HI Hh Hs. pose proof (stands_lt _ _ _ _ Hs) as Hip. unfold idup. rewrite bind_acquire by (rewrite Hh; set_solver).
  rewrite bind_modify, (bind_release LK_itable (k_held s)) by done.
  pose proof (entry_set_locked ip (λ x, set_i_ref (i_ref x + 1) x) (LK_itable :: k_held s) s Hip) as HE.
  assert (igot s ip ROOTDEV i = set_i_ref (i_ref (inode_of s ip) + 1) (inode_of s ip)) as Hg by (unfold igot; by rewrite decide_True).
  cbv beta in HE. rewrite <- Hg in HE. eexists. split; [reflexivity|]. split; [exact HE|].
  apply (igot_ok ROOTDEV i s ip _ HI); [by rewrite <- (it_len _ HI)|exact HE|by left].
Qed.

(** The walk starts at the root, or where the process is. *)
Definition start_at (s : kst) (p : nat) (l : list Z) (i : Z) : Prop :=
  if decide (head l = Some SLASH) then i = ROOTINO
  else ∃ ip, p_cwd (proc_of s p) = Some ip ∧ stands s ip ROOTDEV i.
Definition namex_start (path : Z) : K nat :=
  c ← gets (λ s, rd (k_mem s) path);
  if c =? SLASH then iget ROOTDEV ROOTINO
  else
    p ← curproc;
    cwd ← gets (λ s, p_cwd (proc_of s p));
    match cwd with
    | Some ip => idup ip
    | None => panic "kerneltrap"
    end.
Lemma gets_assoc {A B C} (f : kst → A) (g : A → K B) (h : B → K C) s : ((gets f ≫= g) ≫= h) s = (g (f s) ≫= h) s.
Proof. reflexivity. Qed.
Lemma namex_unfold path nip name s :
  namex path nip name s = (ip ← namex_start path; namex_loop (S (Z.to_nat MAXPATH)) ip path nip name) s.
Proof. unfold namex, namex_start. by rewrite bind_gets, gets_assoc. Qed.

Lemma namex_start_ok p s V bs path l i : fs_tx p s ∅ bs V → uctx p s → itable_ok s → (nused s < NINODE)%nat →
  str_at (k_mem s) path l → start_at s p l i →
  ∃ ip s', namex_start path s = Ok ip s' ∧ (ip < length (k_itable s))%nat ∧ entry_set ip (igot s ip ROOTDEV i) s s' ∧ itable_ok s' ∧
    stands s' ip ROOTDEV i ∧ takes s ip ROOTDEV i.
Proof.
  intros HT HU HI Hn Hs Hi. pose proof (tx_held _ _ _ _ _ HT) as Hh. unfold namex_start. rewrite bind_gets.
  assert (rd (k_mem s) path =? SLASH = bool_decide (head l = Some SLASH)) as ->.
  { apply eq_true_iff_eq. rewrite Z.eqb_eq, bool_decide_eq_true. destruct l as [|b l]; cbn in *; [rewrite Hs; done|]. destruct Hs as [-> _]. naive_solver. }
  unfold start_at in Hi. destruct (decide (head l = Some SLASH)) as [Hd|Hd];
    [rewrite bool_decide_true by exact Hd|rewrite bool_decide_false by exact Hd].
  - subst i. destruct (iget_Ok ROOTDEV ROOTINO s HI) as [(_ & Hf & _)|(ip & s' & E & Hip & HE & HI' & Hs' & Ht)]; [rewrite Hh; set_solver|..].
    + destruct (nused_room s HI Hn) as (j & Hj & Hz). by destruct (Hf j Hj).
    + exists ip, s'. split; [exact E|]. split; [by rewrite (it_len _ HI)|]. split; [exact HE|]. split; [exact HI'|]. by split.
  - destruct Hi as (ip & Hc & Hst). rewrite (bind_curproc p) by apply HU. rewrite bind_gets, Hc.
    destruct (idup_Ok ip i s HI Hh Hst) as (s' & E & HE & HI' & Hs'). exists ip, s'. split; [exact E|]. split; [by eapply stands_lt|].
    split; [exact HE|]. split; [exact HI'|]. split; [exact Hs'|]. by left.
Qed.

(** C10. [namex] resolves a path. It starts at the root directory, for a path that begins with a slash, or at the
    working directory of the process, and follows the elements of the path through the directories of the disk, names
    cut to [DIRSIZ] bytes: without [nameiparent] it returns the inode the last element names, with it the directory the
    last element is looked up in, leaving the element in [name]; when an element is missing, or is looked up in
    something that is not a directory, or there is no last element to leave, it returns none. The inode it returns has one
    reference more than before and every other inode as many as before, whatever the walk went through; no inode is left
    locked, the disk is unchanged, and so is memory but for [name] and the kernel's own scratch areas. *)
Theorem namex_spec p s bs V path l nip o i :
  let sb := k_sb s in let start := lg_start (k_log s) in let name := KSTACK (Z.of_nat p) + o in
  fs_tx p s ∅ bs V → uctx p s → cache_ok None s V → tree_ok sb start V →
  (length bs < NBUF)%nat → (nused s + 1 < NINODE)%nat →
  0 ≤ o ∧ o + DIRSIZ ≤ 2 * PGSIZE → name_apart (DE_LOOKUP p) name →
  0 < path → str_at (k_mem s) path l → Z.of_nat (length l) ≤ MAXPATH →
  (∀ a, path ≤ a ≤ path + Z.of_nat (length l) → unwritten p o a) →
  start_at s p l i → live sb V i →
  ∃ r s', namex path nip name s = Ok r s' ∧
    walk_end p bs V sb start s (refs s) (nused s) o nip i (elems l) r s'.
Proof.
  intros sb start name HT HU HC HTr Hnb Hnu Ho Hna Hp Hs Hl Hun Hst Hlv. pose proof (ch_table _ _ _ HC) as HI.
  destruct (namex_start_ok p s V bs path l i HT HU HI ltac:(lia) Hs Hst) as (ip & s1 & E & Hip & HE & HI1 & Hs1 & Ht).
  rewrite namex_unfold, (bind_Ok _ _ _ _ _ E).
  eapply (namex_loop_ok p bs V sb start s (refs s) (nused s) o Hnb HTr Hnu Ho Hna); [|exact Hs|exact Hp|exact Hun|lia].
  pose proof (entry_moved _ _ _ _ Hip HE) as M. destruct (refs_taken ip s s1 i HI HI1 Hip Ht HE) as [R1 R2].
  split; [|done..]. eapply (w_moved p bs V sb start s o None None ip s); [by split|exact M|by eapply entry_set_tx|by eapply cache_taken].
Qed.

(** ** A disk with an empty root directory *)

Definition root_inode : inode := Inode ROOTDEV ROOTINO 0 (Sleeplock false 0) false T_DIR 0 0 1 0 (replicate NADDRS 0).
Definition root_disk : gmap Z (list Z) :=
  <[32 := put_dinode (replicate (Z.to_nat BSIZE) 0) (dinode_off ROOTINO) (dinode_of root_inode)]> fs_disk.
Definition hello_path : list Z := SLASH :: hello.
Definition root_state (b : kst) : kst :=
  set_k_itable (replicate NINODE inode0) (set_k_disk root_disk
    (set_k_mem (wr_bytes (k_mem b) HELLO (hello_path ++ [0])) (fs_state b))).

Lemma root_blocks_ok : blocks_ok root_disk.
Proof. intros n. unfold root_disk. rewrite disk_block_insert. destruct (decide _); [by vm_compute|apply fs_disk_ok]. Qed.
Lemma root_types : Forall (λ i, d_type (inode_at (disk_block root_disk) mkfs_sb i) = if decide (i = 1) then T_DIR else 0) (seqZ 0 200).
Proof. apply (bool_decide_unpack _). vm_compute. exact I. Qed.
Lemma root_on_disk : on_disk mkfs_sb (disk_block root_disk) 1 = root_inode.
Proof. vm_compute. reflexivity. Qed.
Lemma root_inode_ok V : dir_ok mkfs_sb 2 V root_inode.
Proof.
  destruct (new_dir_ok V) as [[[A1 A2 A3 A4 A5] B C D E] F G]. split; [|done|done]. split; [by split|done|done|done|done].
Qed.
Lemma root_tree : tree_ok mkfs_sb 2 (disk_block root_disk).
Proof.
  assert (∀ i, 0 < i < sb_ninodes mkfs_sb → d_type (inode_at (disk_block root_disk) mkfs_sb i) = T_DIR → i = 1) as H1.
  { intros i Hi. change (sb_ninodes mkfs_sb) with 200 in Hi. pose proof root_types as H. rewrite Forall_forall in H. rewrite H by (apply elem_of_seqZ; lia).
    by case_decide. }
  split; intros i.
  - intros Hi Ht. rewrite (H1 i Hi Ht), root_on_disk. apply root_inode_ok.
  - intros nm j Hi Ht. rewrite (H1 i Hi Ht), root_on_disk. assert (dget (disk_block root_disk) root_inode nm = None) as ->; [|done].
    apply dget_none. intros k Hk. change (nents root_inode) with 0 in Hk. lia.
Qed.
Lemma root_live : live mkfs_sb (disk_block root_disk) ROOTINO.
Proof. split; [done|]. change (inode_at (disk_block root_disk) mkfs_sb ROOTINO) with (inode_at (disk_block root_disk) mkfs_sb 1). by vm_compute. Qed.

Section state.
Context (b : kst) (Hb : uctx 2 b) (Hh : k_held b = []).

Lemma root_inode_of j : inode_of (root_state b) j = inode0.
Proof using.
  unfold inode_of, root_state. cbn [k_itable set_k_itable]. destruct (replicate NINODE inode0 !! j) as [y|] eqn:Ey; [|reflexivity].
  by apply lookup_replicate in Ey as [-> _].
Qed.
Lemma root_uctx : uctx 2 (root_state b).
Proof using Hb.
  pose proof Hb as [H1 H2 H3 H4 H5 H6].
  assert (uctx 2 (set_k_mem (wr_bytes (k_mem b) HELLO (hello_path ++ [0])) b)) as [U1 U2 U3 U4 U5 U6]; [|by split].
  apply uctx_mem; [done|by apply mem_ok_wr_bytes|]. intros q a Hq Ha. rewrite rd_wr_bytes.
  rewrite decide_False; [done|]. intros Hx.
  refine (kernel_low _ _ _ HELLO 7 (us_wf _ _ _ H4) _ a q _ (tabs_owns _ _ _ Hq) Ha);
    [unfold HELLO; lia|exact Hx].
Qed.
Lemma root_tx : fs_tx 2 (root_state b) ∅ [] (disk_block root_disk).
Proof using Hb Hh.
  destruct Hb as [H1 H2 H3 _ _ _]. split; [..|done].
  - split; try done; [apply (boot_cache_inv 2 (root_state b)); [by split|done|exact root_blocks_ok]|].
    split; [constructor..|]. by vm_compute.
  - split; [exact mkfs_layout|]. change (sb_size (k_sb (root_state b))) with 1000. intros c Hc. change (k_sb (root_state b)) with mkfs_sb.
    assert (bfree_bit mkfs_sb (disk_block root_disk) c = bfree_bit mkfs_sb (disk_block fs_disk) c) as ->.
    { unfold bfree_bit. rewrite mkfs_BBLOCK by done. unfold root_disk. by rewrite disk_block_insert. }
    rewrite mkfs_bit by done. intros H%Z.ltb_lt. apply mkfs_data. lia.
Qed.
Lemma root_cache : cache_ok None (root_state b) (disk_block root_disk).
Proof using.
  split; [split|..].
  - reflexivity.
  - intros j. by rewrite root_inode_of.
  - intros i j dev inum [Hi _]. by rewrite root_inode_of in Hi.
  - intros j. by rewrite root_inode_of.
  - intros j. by rewrite root_inode_of.
  - intros j _. by rewrite root_inode_of.
Qed.
Lemma root_path : str_at (k_mem (root_state b)) HELLO hello_path.
Proof using.
  apply str_at_bytes. assert (∀ i, (i < 7)%nat → rd (k_mem (root_state b)) (HELLO + Z.of_nat i) = default 0 ((hello_path ++ [0]) !! i)) as H.
  { intros i Hi. change (k_mem (root_state b)) with (wr_bytes (k_mem b) HELLO (hello_path ++ [0])). rewrite rd_wr_bytes, decide_True by (simpl; lia).
    replace (Z.to_nat (HELLO + Z.of_nat i - HELLO)) with i by lia. do 7 (destruct i as [|i]; [reflexivity|]). lia. }
  split; [|split; [|exact (H 6%nat ltac:(lia))]].
  - apply list_eq. intros i. destruct (decide (i < 6)%nat) as [Hi|Hi].
    + rewrite lookup_rd_bytes by (simpl; lia). rewrite H by lia. do 6 (destruct i as [|i]; [reflexivity|]). lia.
    + rewrite !lookup_ge_None_2; [reflexivity|simpl; lia|rewrite length_rd_bytes; simpl; lia].
  - apply (bool_decide_unpack _). exact I.
Qed.
End state.

#[local] Opaque user_base.
(** The parent of the path to a file that is not there yet. *)
Lemma namex_spec_witness : ∃ ip s', namex HELLO true (KSTACK 2 + L_name) (root_state user_base) = Ok (Some ip) s' ∧
  stands s' ip ROOTDEV ROOTINO ∧ name_at s' (KSTACK 2 + L_name) = hello.
Proof.
  destruct (namex_spec 2 (root_state user_base) [] (disk_block root_disk) HELLO hello_path true L_name ROOTINO) as (r & s' & E & H).
  - exact (root_tx user_base user_base_uctx user_base_held).
  - exact (root_uctx user_base user_base_uctx).
  - exact (root_cache user_base).
  - exact root_tree.
  - apply Nat.ltb_lt. reflexivity.
  - apply Nat.ltb_lt. reflexivity.
  - split; [discriminate|]. apply Z.leb_le. reflexivity.
  - intros i Hi. unfold scratch, DE_LOOKUP, KOBJ, KSTACK, TRAMPOLINE, DIRSIZ, sizeof_dirent, L_name, L_de_lookup in *.
    change MAXVA with (2 ^ 38). change BSIZE with 1024. unfold KERNBASE, PGSIZE. lia.
  - reflexivity.
  - exact (root_path user_base).
  - apply Z.leb_le. reflexivity.
  - intros a Ha. change (Z.of_nat (length hello_path)) with 6 in Ha.
    unfold unwritten, scratch, DE_LOOKUP, HELLO, KOBJ, KSTACK, TRAMPOLINE, DIRSIZ, sizeof_dirent, L_name, L_de_lookup in *.
    change MAXVA with (2 ^ 38). change BSIZE with 1024. unfold KERNBASE, PGSIZE in *. lia.
  - reflexivity.
  - exact root_live.
  - change (k_sb (root_state user_base)) with mkfs_sb in H. unfold walk_end in H.
    assert (resolve_parent mkfs_sb (disk_block root_disk) ROOTINO (elems hello_path) = Some (ROOTINO, hello)) as R by (by vm_compute).
    rewrite R in H. destruct H as (ip & -> & HA & Hn). exists ip, s'. split; [exact E|]. split; [exact (at_stands _ _ _ _ _ _ _ _ _ _ _ _ _ HA)|exact Hn].
Defined.
