(* ===== verification/Mkfs.v ===== *)
(** * mkfs: operations

    [mkfs/mkfs.c], the program of the host that makes the file system image
    the kernel boots from.  The image is a file of the host: [mk_disk] gives its
    sectors, [mk_nsect] its length; a sector that was skipped reads as zeros.
    The host is little-endian; opening the image, [lseek] and [write] succeed.
    What the host's files contain is a parameter: [host name] is the results
    of the successive [read]s of the file, or [None] when it cannot be opened.
    [die] and a failed [assert] end the program. *)

From stdpp Require Import options.
From S2P Require Import Prelude CString State Sched Bio BioSpec Block Log Copy Fs.
#[local] Open Scope Z_scope.

Definition NINODES : Z := 200.
Definition nbitmap : Z := FSSIZE / (BSIZE * 8) + 1.
Definition ninodeblocks : Z := NINODES / IPB + 1.
Definition nlog : Z := LOGSIZE.
Definition nmeta : Z := 2 + nlog + ninodeblocks + nbitmap.
Definition nblocks : Z := FSSIZE - nmeta.

Record mkst := Mkst {
  mk_disk : Z → list Z;
  mk_nsect : Z;
  mk_sb : superblock;
  freeinode : Z;
  freeblock : Z;
}.
Definition set_mk_disk v s := Mkst v (mk_nsect s) (mk_sb s) (freeinode s) (freeblock s).
Definition set_mk_nsect v s := Mkst (mk_disk s) v (mk_sb s) (freeinode s) (freeblock s).
Definition set_mk_sb v s := Mkst (mk_disk s) (mk_nsect s) v (freeinode s) (freeblock s).
Definition set_freeinode v s := Mkst (mk_disk s) (mk_nsect s) (mk_sb s) v (freeblock s).
Definition set_freeblock v s := Mkst (mk_disk s) (mk_nsect s) (mk_sb s) (freeinode s) v.

Abbreviation H := (M mkst).

Definition die {A} (msg : string) : H A := panic msg.
Definition assert (b : bool) : H unit := if b then mret () else panic "assert".

(** The bytes of [y] are those of [x], the least significant first. *)
Definition xshort (x : Z) : Z := le_val (le_bytes 2 x).
Definition xint (x : Z) : Z := le_val (le_bytes 4 x).

Definition zeroes : list Z := replicate (Z.to_nat BSIZE) 0.

(** ** Sectors *)

Definition wsect (sec : Z) (buf : list Z) : H unit :=
  let n := u32 (sec * BSIZE) / BSIZE in
  modify (λ s, set_mk_nsect (Z.max (mk_nsect s) (n + 1)) (set_mk_disk (supd (mk_disk s) n buf) s)).
(** Reading beyond the end of the image returns fewer than [BSIZE] bytes. *)
Definition rsect (sec : Z) : H (list Z) :=
  let n := u32 (sec * BSIZE) / BSIZE in
  len ← gets mk_nsect;
  if len <=? n then die "read" else gets (λ s, mk_disk s n).

(** ** Inodes *)

Definition winode (inum : Z) (ip : dinode) : H unit :=
  sb ← gets mk_sb;
  let bn := IBLOCK inum sb in
  buf ← rsect bn;
  wsect bn (put_dinode buf (dinode_off inum) ip).
Definition rinode (inum : Z) : H dinode :=
  sb ← gets mk_sb;
  let bn := IBLOCK inum sb in
  buf ← rsect bn;
  mret (get_dinode buf (dinode_off inum)).
Definition ialloc (type : Z) : H Z :=
  inum ← gets freeinode;
  modify (set_freeinode (u32 (inum + 1)));;
  winode inum (Dinode (i16 (xshort type)) 0 0 (i16 (xshort 1)) (xint 0) (replicate NADDRS 0));;
  mret inum.

(** ** The bitmap *)

Definition balloc (used : Z) : H unit :=
  assert (used <? BSIZE * 8);;
  let buf := foldl (λ buf i, set_bit i buf) zeroes (seqZ 0 used) in
  sb ← gets mk_sb;
  wsect (sb_bmapstart sb) buf.

(** ** Appending to a file *)

(** [freeblock++] *)
Definition next_block : H Z :=
  b ← gets freeblock;
  modify (set_freeblock (u32 (b + 1)));;
  mret b.
Definition din_addr (din : dinode) (i : Z) : Z := xint (default 0 (d_addrs din !! Z.to_nat i)).
Definition set_din_addr (i a : Z) (din : dinode) : dinode :=
  Dinode (d_type din) (d_major din) (d_minor din) (d_nlink din) (d_size din) (<[Z.to_nat i := xint a]> (d_addrs din)).
Definition set_din_size (v : Z) (din : dinode) : dinode :=
  Dinode (d_type din) (d_major din) (d_minor din) (d_nlink din) (xint v) (d_addrs din).

(** [din.addrs[i]], allocated when it is 0. *)
Definition din_block (i : Z) (din : dinode) : H dinode :=
  if din_addr din i =? 0 then
    b ← next_block;
    mret (set_din_addr i b din)
  else mret din.
(** The first half of the loop of [iappend]: the block [x] for block [fbn] of the file. *)
Definition iappend_block (fbn : Z) (din : dinode) : H (dinode * Z) :=
  if fbn <? NDIRECT then
    din ← din_block fbn din;
    mret (din, din_addr din fbn)
  else
    din ← din_block NDIRECT din;
    indirect ← rsect (din_addr din NDIRECT);
    let off := Z.to_nat (4 * (fbn - NDIRECT)) in
    indirect ← (if get32 indirect off =? 0 then
                  b ← next_block;
                  let indirect := put32 indirect off (xint b) in
                  wsect (din_addr din NDIRECT) indirect;;
                  mret indirect
                else mret indirect);
    mret (din, xint (get32 indirect off)).
(** The loop: [p] is what is left of the data, [n] its length; every round takes at least one byte. *)
Fixpoint iappend_loop (fuel : nat) (din : dinode) (off : Z) (p : list Z) : H (dinode * Z) :=
  match fuel with
  | O => λ _, NoFuel
  | S fuel =>
    let n := Z.of_nat (length p) in
    if n <=? 0 then mret (din, off) else
    let fbn := off / BSIZE in
    assert (fbn <? MAXFILE);;
    '(din, x) ← iappend_block fbn din;
    let n1 := Z.min n ((fbn + 1) * BSIZE - off) in
    buf ← rsect x;
    wsect x (splice buf (Z.to_nat (off - fbn * BSIZE)) (take (Z.to_nat n1) p));;
    iappend_loop fuel din (u32 (off + n1)) (drop (Z.to_nat n1) p)
  end.
Definition iappend (inum : Z) (xp : list Z) : H unit :=
  din ← rinode inum;
  let off := xint (d_size din) in
  '(din, off) ← iappend_loop (S (length xp)) din off xp;
  winode inum (set_din_size off din).

(** ** The program *)

(** A [struct dirent], cleared, then filled in; [strncpy] stops at [DIRSIZ] bytes. *)
Definition dirent (inum : Z) (name : list Z) : list Z :=
  splice (put16 (replicate (Z.to_nat sizeof_dirent) 0) 0 (xshort inum)) 2 (take (Z.to_nat DIRSIZ) name).

(** The name in the file system: without [user/] and without a leading underscore. *)
Definition basename (arg : list Z) : list Z :=
  if decide (take 5 arg = [117; 115; 101; 114; 47]) then drop 5 arg else arg.
Definition skip_underscore (name : list Z) : list Z :=
  match name with
  | c :: rest => if c =? 95 then rest else name
  | [] => []
  end.

(** [while((cc = read(fd, buf, sizeof(buf))) > 0)] *)
Fixpoint append_reads (inum : Z) (reads : list (list Z)) : H unit :=
  match reads with
  | [] | [] :: _ => mret ()
  | buf :: reads => iappend inum buf;; append_reads inum reads
  end.

Section main.
Context (host : list Z → option (list (list Z))).

Definition add_file (rootino : Z) (arg : list Z) : H unit :=
  let shortname := basename arg in
  assert (bool_decide (47 ∉ shortname));;
  match host arg with
  | None => die "open"
  | Some reads =>
    let shortname := skip_underscore shortname in
    inum ← ialloc T_FILE;
    iappend rootino (dirent inum shortname);;
    append_reads inum reads
  end.

Fixpoint add_files (rootino : Z) (args : list (list Z)) : H unit :=
  match args with
  | [] => mret ()
  | arg :: args => add_file rootino arg;; add_files rootino args
  end.

Definition the_sb : superblock :=
  Superblock FSMAGIC (xint FSSIZE) (xint nblocks) (xint NINODES) (xint nlog) (xint 2) (xint (2 + nlog))
    (xint (2 + nlog + ninodeblocks)).
(** [memmove(buf, &sb, sizeof(sb))] into a cleared buffer. *)
Definition sb_bytes (sb : superblock) : list Z :=
  splice zeroes 0 (flat_map (le_bytes 4) [sb_magic sb; sb_size sb; sb_nblocks sb; sb_ninodes sb; sb_nlog sb;
    sb_logstart sb; sb_inodestart sb; sb_bmapstart sb]).

(** The arguments from [argv[1]] on: the image, then the files. *)
Definition main (args : list (list Z)) : H Z :=
  match args with
  | [] => die "Usage: mkfs fs.img files..."
  | _ :: files =>
    modify (λ s, set_mk_nsect 0 (set_mk_disk (λ _, zeroes) s));;
    modify (set_mk_sb the_sb);;
    modify (set_freeblock nmeta);;
    mfor (Z.to_nat FSSIZE) 0 (λ i, wsect i zeroes);;
    wsect 1 (sb_bytes the_sb);;
    rootino ← ialloc T_DIR;
    assert (rootino =? ROOTINO);;
    iappend rootino (dirent rootino [46]);;
    iappend rootino (dirent rootino [46; 46]);;
    add_files rootino files;;
    din ← rinode rootino;
    let off := xint (d_size din) in
    let off := u32 ((off / BSIZE + 1) * BSIZE) in
    winode rootino (set_din_size off din);;
    used ← gets freeblock;
    balloc used;;
    mret 0
  end.
End main.

(** The globals as the program starts. *)
Definition mk_start : mkst := Mkst (λ _, zeroes) 0 (Superblock 0 0 0 0 0 0 0 0) 1 0.
