(* ===== verification/MkfsSpec.v ===== *)
(** * The image mkfs makes is a file system of the kernel

    The sectors [mkfs] writes are followed in a disk [V] that has, all the time,
    the bitmap [balloc] writes at the end: the invariants of the kernel's file
    system then hold of [V] after every step, with the lemmas the kernel's own
    operations use. *)

From stdpp Require Import options.
From S2P Require Import Prelude CString State Sched Sleeplock Bio BioList BioSpec Block Log LogSpec LogCrash LogTx Kalloc Vm Copy Fs FsCodec FsAlloc FsInode FsFile FsDir Mkfs.
#[local] Open Scope Z_scope.

Lemma bind_bind_Ok {S A B C} (m : M S A) (g : A → M S B) (f : B → M S C) s a s' :
  m s = Ok a s' → ((m ≫= g) ≫= f) s = (g a ≫= f) s'.
Proof. unfold mbind, M_bind. by intros ->. Qed.

(** ** The layout *)

Definition LOGSTART : Z := 2.
Definition BMAP : Z := 45.
Lemma layout_numbers : nmeta = 46 ∧ FSSIZE = 1000 ∧ sb_size the_sb = 1000 ∧ sb_ninodes the_sb = 200 ∧
  sb_inodestart the_sb = 32 ∧ sb_bmapstart the_sb = BMAP ∧ sb_logstart the_sb = LOGSTART ∧ LOGSIZE = 30.
Proof. done. Qed.
Ltac mknum := pose proof layout_numbers as (Nm & Nf & Ns & Ni & Nis & Nb & Nl & Nlg); unfold LOGSTART, BMAP in *.

Lemma IBLOCK_range i : 0 ≤ i < 200 → 32 ≤ IBLOCK i the_sb < 45.
Proof.
  intros Hi. mknum. unfold IBLOCK. change IPB with 16.
  pose proof (Z.div_pos i 16 ltac:(lia) ltac:(lia)). pose proof (Z.div_lt_upper_bound i 16 13 ltac:(lia) ltac:(lia)). lia.
Qed.
Lemma BBLOCK_small b : 0 ≤ b < 1000 → BBLOCK b the_sb = BMAP.
Proof. intros Hb. mknum. unfold BBLOCK. change BPB with 8192. rewrite Z.div_small by lia. lia. Qed.
Lemma the_layout : layout_ok the_sb LOGSTART.
Proof.
  mknum. split.
  - lia.
  - intros b Hb. rewrite BBLOCK_small by lia. unfold outside, blockno, BMAP, LOGSTART. lia.
  - intros i Hi. pose proof (IBLOCK_range i ltac:(lia)). unfold outside, blockno, LOGSTART. lia.
  - intros i b Hi Hb. pose proof (IBLOCK_range i ltac:(lia)). rewrite BBLOCK_small by lia. unfold BMAP. lia.
Qed.
Lemma data_iff b : data_blk the_sb LOGSTART b ↔ b = 1 ∨ 46 ≤ b < 1000.
Proof.
  mknum. split.
  - intros [H1 H2 H3 H4]. specialize (H3 0 ltac:(lia)). rewrite BBLOCK_small in H3 by lia. unfold outside, LOGSTART, BMAP in *.
    assert (¬ 32 ≤ b < 45) as Hn; [|specialize (H4 0 ltac:(lia)); change (IBLOCK 0 the_sb) with 32 in H4; lia].
    intros Hb. apply (H4 (16 * (b - 32))); [lia|]. unfold IBLOCK. change IPB with 16. rewrite Z.mul_comm, Z.div_mul by lia. lia.
  - intros Hb. split; [lia|unfold outside; lia| |].
    + intros b' Hb'. rewrite BBLOCK_small by lia. unfold BMAP. lia.
    + intros i Hi. pose proof (IBLOCK_range i ltac:(lia)). lia.
Qed.

(** ** The bitmap of the first [f] blocks *)

Definition bits (f : Z) : list Z := foldl (λ buf i, set_bit i buf) zeroes (seqZ 0 f).
Lemma bits_S f : 0 ≤ f → bits (f + 1) = set_bit f (bits f).
Proof. intros Hf. unfold bits. rewrite seqZ_app, foldl_app by lia. done. Qed.
Lemma bits_ok f : 0 ≤ f ≤ BPB → length (bits f) = Z.to_nat BSIZE ∧ ∀ j, 0 ≤ j < BPB → bit_clear (bits f) j = (f <=? j).
Proof.
  intros Hf. assert (∃ n, f = Z.of_nat n) as [n ->] by (exists (Z.to_nat f); lia). clear -Hf. induction n as [|n IH].
  - split; [done|]. intros j Hj. rewrite (proj2 (Z.leb_le _ _)) by lia. unfold bit_clear, bit_byte, bits. simpl.
    unfold zeroes. destruct (replicate (Z.to_nat BSIZE) 0 !! Z.to_nat (j / 8)) eqn:E; [apply lookup_replicate in E as [-> _]|]; done.
  - destruct IH as [Hl Hb]; [lia|]. rewrite Nat2Z.inj_succ, <- Z.add_1_r, bits_S by lia. split; [by apply length_set_bit|].
    intros j Hj. rewrite (bit_clear_set _ Hl) by lia. rewrite Hb by done.
    case_decide; [symmetry; apply Z.leb_gt; lia|]. destruct (Z.leb_spec (Z.of_nat n) j), (Z.leb_spec (Z.of_nat n + 1) j); done || lia.
Qed.

(** ** The disk with its bitmap *)

Record shadow (s : mkst) (V : Z → list Z) : Prop := {
  sh_sb : mk_sb s = the_sb;
  sh_sect : mk_nsect s = FSSIZE;
  sh_disk n : n ≠ BMAP → V n = mk_disk s n;
  sh_bmap : V BMAP = bits (freeblock s);
  sh_len n : length (V n) = Z.to_nat BSIZE;
  sh_range : nmeta ≤ freeblock s ≤ FSSIZE;
  sh_zero n : freeblock s ≤ n < FSSIZE → V n = zeros;
}.
Abbreviation mok V x := (inode_ok the_sb LOGSTART V x).
Abbreviation mgrows V x V' x' := (grows the_sb LOGSTART V x V' x').

Lemma shadow_bit s V b : shadow s V → 0 ≤ b < FSSIZE → bfree_bit the_sb V b = (freeblock s <=? b).
Proof.
  intros HS Hb. mknum. unfold bfree_bit. rewrite BBLOCK_small by lia. rewrite (sh_bmap _ _ HS).
  pose proof (sh_range _ _ HS). change BPB with 8192. rewrite Z.mod_small by lia.
  apply bits_ok; change BPB with 8192; lia.
Qed.
Lemma shadow_use s V b : shadow s V → in_use the_sb LOGSTART V b ↔ b = 1 ∨ 46 ≤ b < freeblock s.
Proof.
  intros HS. pose proof (sh_range _ _ HS). mknum. unfold in_use. rewrite data_iff. split.
  - intros [Hb Hf]. rewrite (shadow_bit s V) in Hf by (done || lia). apply Z.leb_gt in Hf. lia.
  - intros Hb. split; [lia|]. rewrite (shadow_bit s V) by (done || lia). apply Z.leb_gt. lia.
Qed.
Lemma shadow_bitmap s V : shadow s V → bitmap_ok the_sb LOGSTART V.
Proof.
  intros HS. pose proof (sh_range _ _ HS). mknum. split; [apply the_layout|]. intros b Hb Hf. apply data_iff.
  rewrite (shadow_bit s V) in Hf by (done || lia). apply Z.leb_le in Hf. lia.
Qed.

Lemma sector n : 0 ≤ n < FSSIZE → u32 (n * BSIZE) / BSIZE = n.
Proof. intros Hn. mknum. change BSIZE with 1024. rewrite u32_id by lia. by apply Z.div_mul. Qed.

(** One sector, the next free block. *)
Lemma rsect_ok s V n : shadow s V → 0 ≤ n < FSSIZE → n ≠ BMAP → rsect n s = Ok (V n) s.
Proof.
  intros HS Hn Hb. unfold rsect. rewrite sector by done. rewrite bind_gets, (sh_sect _ _ HS).
  rewrite (proj2 (Z.leb_gt _ _)) by lia. unfold gets. by rewrite (sh_disk _ _ HS).
Qed.
Definition wrote (n : Z) (buf : list Z) (s : mkst) : mkst :=
  set_mk_nsect (Z.max (mk_nsect s) (n + 1)) (set_mk_disk (supd (mk_disk s) n buf) s).
Lemma wsect_ok s V n buf : shadow s V → 0 ≤ n < freeblock s → n ≠ BMAP → length buf = Z.to_nat BSIZE →
  wsect n buf s = Ok () (wrote n buf s) ∧ shadow (wrote n buf s) (supd V n buf).
Proof.
  intros HS Hn Hb Hl. pose proof (sh_range _ _ HS) as Hr. split.
  { unfold wsect. rewrite sector by lia. done. }
  destruct HS as [H1 H2 H3 H4 H5 H6 H7]. split; simpl; try done.
  - rewrite H2. lia.
  - intros m Hm. unfold supd. case_decide; [done|by apply H3].
  - by rewrite supd_ne by done.
  - intros m. unfold supd. by case_decide.
  - intros m Hm. rewrite supd_ne by lia. by apply H7.
Qed.
Lemma next_block_ok s V : shadow s V → freeblock s < FSSIZE →
  let f := freeblock s in let V' := alloc_view the_sb V f in let s' := set_freeblock (f + 1) s in
  next_block s = Ok f s' ∧ shadow s' V' ∧ allocated the_sb LOGSTART V V' f.
Proof.
  intros HS Hf f V' s'. pose proof (sh_range _ _ HS) as Hr. mknum. fold f in Hf, Hr. split.
  { unfold next_block. rewrite bind_gets, bind_modify. fold f. by rewrite u32_id by lia. }
  split.
  - unfold V', alloc_view. rewrite BBLOCK_small by lia. change BPB with 8192. rewrite Z.mod_small by lia.
    destruct HS as [H1 H2 H3 H4 H5 H6 H7]. split; try done; simpl.
    + intros m Hm. unfold supd. repeat case_decide; try done; [|by apply H3]. subst. rewrite <- H3 by done. symmetry. apply H7. lia.
    + rewrite supd_ne, supd_eq by (unfold BMAP; lia). rewrite H4. fold f. rewrite bits_S by lia. done.
    + intros m. unfold supd. repeat case_decide; [done| |done]. rewrite H4. apply length_set_bit, bits_ok. change BPB with 8192. lia.
    + lia.
    + intros m Hm. unfold supd. repeat case_decide; [done| |apply H7; lia]. unfold BMAP in *. lia.
  - apply allocated_view; [by eapply shadow_bitmap|lia|apply HS|]. rewrite (shadow_bit s V) by (done || lia). apply Z.leb_le. lia.
Qed.

(** ** The block for a piece of data *)

(** A file of [nb] blocks has exactly the blocks it needs. *)
Definition tight (V : Z → list Z) (x : inode) (nb : Z) : Prop :=
  (∀ bn, 0 ≤ bn < MAXFILE → fblk V x bn ≠ 0 ↔ bn < nb) ∧ (addr x NDIRECT ≠ 0 ↔ NDIRECT < nb).
Definition need (nb : Z) : Z := nb + (if decide (NDIRECT < nb) then 1 else 0).

Lemma xint_id v : 0 ≤ v < 2 ^ 32 → xint v = v.
Proof. intros Hv. unfold xint. rewrite le_val_bytes. by apply Z.mod_small. Qed.
Lemma din_addr_of V x i : mok V x → 0 ≤ i ≤ NDIRECT → din_addr (dinode_of x) i = addr x i.
Proof. intros Hok Hi. apply xint_id. pose proof (addr_range _ _ _ _ i the_layout Hok Hi). unfold addr in *. simpl. lia. Qed.

(** The blocks of the log are left alone. *)
Definition log_same (V V' : Z → list Z) : Prop := ∀ n, ¬ outside LOGSTART n → V' n = V n.
Lemma log_same_trans V1 V2 V3 : log_same V1 V2 → log_same V2 V3 → log_same V1 V3.
Proof. intros A B n Hn. by rewrite B, A. Qed.
Lemma log_same_write V V0 n d : in_use the_sb LOGSTART V0 n → log_same V (supd V n d).
Proof. intros [D _] m Hm. apply supd_ne. intros ->. apply Hm, D. Qed.
Lemma log_same_alloc V V' a : allocated the_sb LOGSTART V V' a → log_same V V'.
Proof.
  intros HA n Hn. pose proof (db_range _ _ _ (al_data _ _ _ _ _ HA)). apply HA; intros ->; apply Hn; [apply HA|apply the_layout; lia].
Qed.

(** A direct block, or the indirect block. *)
Lemma din_block_ok s V x i :
  shadow s V → mok V x → 0 ≤ i ≤ NDIRECT → (addr x i = 0 → freeblock s < FSSIZE) →
  ∃ s' V' x', din_block i (dinode_of x) s = Ok (dinode_of x') s' ∧ shadow s' V' ∧ mok V' x' ∧ mgrows V x V' x' ∧
    freeinode s' = freeinode s ∧ log_same V V' ∧ addr x' i ≠ 0 ∧
    (addr x i ≠ 0 ∧ s' = s ∧ V' = V ∧ x' = x ∨
     addr x i = 0 ∧ freeblock s' = freeblock s + 1 ∧ new_blk V V' x x' (direct_k i) (freeblock s)).
Proof.
  intros HS Hok Hi Hf. unfold din_block. rewrite (din_addr_of V) by done.
  destruct (Z.eqb_spec (addr x i) 0) as [Hz|Hnz].
  2:{ exists s, V, x. split; [done|]. split; [done|]. split; [done|]. split; [apply grows_refl|].
      split; [done|]. split; [done|]. split; [done|]. by left. }
  destruct (next_block_ok s V HS (Hf Hz)) as (E & HS' & HA). rewrite (bind_Ok _ _ _ _ _ E).
  set (f := freeblock s) in *. pose proof (sh_range _ _ HS) as Hr. mknum. fold f in Hr.
  destruct (grow_direct _ _ _ _ _ _ Hok HA i the_layout Hi Hz) as [G1 G2].
  eexists _, _, (with_addr i f x). split; [unfold set_din_addr; rewrite xint_id by lia; reflexivity|].
  split; [exact HS'|]. split; [done|]. split; [done|]. split; [done|]. split; [by eapply log_same_alloc|].
  rewrite addr_with by (apply Hok || lia). rewrite decide_True by done.
  split; [lia|]. right. split; [done|]. split; [done|]. exact (new_direct _ _ _ _ _ _ Hok HA i Hi Hz).
Qed.

Lemma tight_new V V' x x' a nb :
  (∀ bn, 0 ≤ bn < MAXFILE → fblk V x bn ≠ 0 ↔ bn < nb) → new_blk V V' x x' nb a → a ≠ 0 → 0 ≤ nb < MAXFILE →
  (addr x NDIRECT ≠ 0 ↔ NDIRECT < nb + 1) → tight V' x' (nb + 1).
Proof.
  intros T1 [Hf Hk] Ha Hr T2. destruct Hk as [(_ & _ & E)|(-> & _)]; [|lia]. split; [|by rewrite E].
  intros bn Hb. rewrite Hf by done. case_decide as Hd; [split; [lia|done]|]. rewrite T1 by done. lia.
Qed.

Lemma img_fblk_ind V x j : 0 ≤ j → fblk V x (NDIRECT + j) = ind V x j.
Proof. intros Hj. unfold fblk. rewrite (proj2 (Z.ltb_ge _ _)) by lia. f_equal. lia. Qed.
Lemma use_range V n : in_use the_sb LOGSTART V n → 0 ≤ n < FSSIZE ∧ n ≠ BMAP.
Proof.
  intros [D _]. pose proof (db_range _ _ _ D). mknum. split; [lia|].
  intros E. apply (db_bitmap _ _ _ D 0 ltac:(lia)). by rewrite BBLOCK_small by lia.
Qed.
Lemma ind_use V x j : mok V x → 0 ≤ j < NINDIRECT → ind V x j ≠ 0 → in_use the_sb LOGSTART V (ind V x j).
Proof. intros Hok Hj. rewrite <- img_fblk_ind by lia. apply Hok. fsnum. lia. Qed.

(** An entry of the indirect block. *)
Definition indirect_block (din : dinode) (j : Z) : H (dinode * Z) :=
  indirect ← rsect (din_addr din NDIRECT);
  let off := Z.to_nat (4 * j) in
  indirect ← (if get32 indirect off =? 0 then
                b ← next_block;
                let indirect := put32 indirect off (xint b) in
                wsect (din_addr din NDIRECT) indirect;;
                mret indirect
              else mret indirect);
  mret (din, xint (get32 indirect off)).
Lemma indirect_block_ok s V x j :
  shadow s V → mok V x → 0 ≤ j < NINDIRECT → addr x NDIRECT ≠ 0 → (ind V x j = 0 → freeblock s < FSSIZE) →
  ∃ s' V', indirect_block (dinode_of x) j s = Ok (dinode_of x, ind V' x j) s' ∧ shadow s' V' ∧ mok V' x ∧ mgrows V x V' x ∧
    freeinode s' = freeinode s ∧ log_same V V' ∧ ind V' x j ≠ 0 ∧
    (ind V x j ≠ 0 ∧ s' = s ∧ V' = V ∨
     ind V x j = 0 ∧ freeblock s' = freeblock s + 1 ∧ new_blk V V' x x (NDIRECT + j) (freeblock s)).
Proof.
  intros HS Hok Hj HI Hf. unfold indirect_block. rewrite (din_addr_of V) by (done || fsnum; lia).
  pose proof (ik_ind _ _ _ _ Hok HI) as HU. destruct (use_range _ _ HU) as [Hn Hb].
  rewrite (bind_Ok _ _ _ _ _ (rsect_ok s V _ HS Hn Hb)). change (Z.to_nat (4 * j)) with (ind_off j).
  assert (∀ V, ind V x j = get32 (V (addr x NDIRECT)) (ind_off j)) as Ei by (intros; unfold ind; by rewrite (proj2 (Z.eqb_neq _ _) HI)).
  rewrite <- Ei. destruct (Z.eqb_spec (ind V x j) 0) as [Hz|Hnz].
  2:{ exists s, V. rewrite bind_ret. rewrite <- Ei. destruct (use_range _ _ (ind_use V x j Hok Hj Hnz)). mknum. rewrite xint_id by lia.
      split; [done|]. split; [done|]. split; [done|]. split; [apply grows_refl|]. split; [done|]. split; [done|]. split; [done|]. by left. }
  destruct (next_block_ok s V HS (Hf Hz)) as (E & HS1 & HA). rewrite (bind_bind_Ok _ _ _ _ _ _ E).
  set (f := freeblock s) in *. set (V1 := alloc_view the_sb V f) in *. set (s1 := set_freeblock (f + 1) s) in *.
  pose proof (grow_same _ _ _ _ _ HA _ HU) as EV. rewrite <- EV.
  assert (xint f = f) as -> by (pose proof (sh_range _ _ HS); mknum; apply xint_id; lia).
  set (V2 := with_ind V1 x f j).
  destruct (wsect_ok s1 V1 (addr x NDIRECT) (put32 (V1 (addr x NDIRECT)) (ind_off j) f) HS1) as [E2 HS2]; [|done|..].
  { apply (shadow_use _ _ _ HS) in HU. pose proof (sh_range _ _ HS). mknum. simpl. lia. }
  { rewrite length_put32; rewrite (sh_len _ _ HS1); [done|by apply ind_off_ok]. }
  destruct (grow_indirect _ _ _ _ _ _ Hok HA HI the_layout (sh_len _ _ HS1 _) j Hj Hz) as [G1 G2].
  assert (ind V2 x j = get32 (put32 (V1 (addr x NDIRECT)) (ind_off j) f) (ind_off j)) as Ej.
  { rewrite Ei. unfold V2, with_ind. by rewrite supd_eq. }
  pose proof (new_indirect _ _ _ _ _ _ Hok HA HI the_layout (sh_len _ _ HS1 _) j Hj Hz) as Hnew.
  assert (ind V2 x j = f) as Ef.
  { rewrite <- img_fblk_ind by lia. destruct Hnew as [Hnew _]. rewrite Hnew by (fsnum; lia). by rewrite decide_True. }
  exists (wrote (addr x NDIRECT) (put32 (V1 (addr x NDIRECT)) (ind_off j) f) s1), V2.
  rewrite (bind_bind_Ok _ _ _ _ _ _ E2), bind_ret, <- Ej, Ef. assert (f ≠ 0) by (pose proof (sh_range _ _ HS); mknum; lia).
  split; [unfold mret, M_ret; do 2 f_equal; apply xint_id; pose proof (sh_range _ _ HS); mknum; lia|].
  split; [exact HS2|]. split; [exact G1|]. split; [exact G2|]. split; [done|].
  split; [eapply log_same_trans; [by eapply log_same_alloc|by eapply log_same_write]|]. split; [done|]. by right.
Qed.

Lemma need_S nb : 0 ≤ nb → need (nb + 1) = need nb + (if decide (nb = NDIRECT) then 2 else 1).
Proof. intros Hn. unfold need. repeat case_decide; lia. Qed.
Lemma iappend_block_eq fbn x : NDIRECT ≤ fbn →
  iappend_block fbn (dinode_of x) = (din ← din_block NDIRECT (dinode_of x); indirect_block din (fbn - NDIRECT)).
Proof. intros Hf. unfold iappend_block. by rewrite (proj2 (Z.ltb_ge _ _)) by lia. Qed.

Lemma iappend_block_ok s V x fbn nb :
  shadow s V → mok V x → tight V x nb → 0 ≤ fbn < MAXFILE → nb = fbn ∨ nb = fbn + 1 →
  freeblock s + (need (fbn + 1) - need nb) ≤ FSSIZE →
  ∃ s' V' x', iappend_block fbn (dinode_of x) s = Ok (dinode_of x', fblk V' x' fbn) s' ∧ shadow s' V' ∧ mok V' x' ∧
    mgrows V x V' x' ∧ freeinode s' = freeinode s ∧ log_same V V' ∧ fblk V' x' fbn ≠ 0 ∧ tight V' x' (fbn + 1) ∧
    freeblock s' = freeblock s + (need (fbn + 1) - need nb).
Proof.
  intros HS Hok [T1 T2] Hf Hnb Hfree. destruct (Z.ltb_spec fbn NDIRECT) as [Hd|Hd].
  - assert (fblk V x fbn = addr x fbn) as Ea by (unfold fblk; by rewrite (proj2 (Z.ltb_lt _ _))).
    pose proof (T1 fbn Hf) as Hm. rewrite Ea in Hm. pose proof (need_S fbn ltac:(lia)) as Hns. rewrite decide_False in Hns by lia.
    destruct (din_block_ok s V x fbn HS Hok ltac:(lia)) as (s' & V' & x' & E & HS' & Hok' & HG & Hfi & Hlg & Hn & Hc).
    { intros Hz. destruct Hnb as [-> | ->]; lia. }
    assert (fblk V' x' fbn = addr x' fbn) as Ea' by (unfold fblk; by rewrite (proj2 (Z.ltb_lt _ _))).
    exists s', V', x'. split. { unfold iappend_block. rewrite (proj2 (Z.ltb_lt _ _)) by done.
      rewrite (bind_Ok _ _ _ _ _ E), (din_addr_of V') by (done || lia). by rewrite Ea'. }
    do 5 (split; [done|]). split; [by rewrite Ea'|].
    destruct Hc as [(Hz & -> & -> & ->)|(Hz & Ef & Hnew)].
    + assert (nb = fbn + 1) as -> by (apply Hm in Hz; lia). split; [by split|lia].
    + assert (nb = fbn) as -> by (destruct Hnb as [?| ->]; [done|lia]). split; [|lia].
      unfold direct_k in Hnew. rewrite decide_False in Hnew by lia.
      eapply tight_new; try done; [|rewrite T2; lia]. pose proof (sh_range _ _ HS). mknum. lia.
  - rewrite iappend_block_eq by done. set (j := fbn - NDIRECT). assert (0 ≤ j < NINDIRECT) as Hj by (unfold j; fsnum; lia).
    assert (NDIRECT + j = fbn) as Ejf by (unfold j; lia).
    destruct (din_block_ok s V x NDIRECT HS Hok ltac:(fsnum; lia)) as (s1 & V1 & x1 & E1 & HS1 & Hok1 & HG1 & Hfi1 & Hlg1 & Hn1 & Hc1).
    { intros Hz. assert (¬ NDIRECT < nb) by (intros H; by apply T2 in H). destruct Hnb as [-> | ->]; [|lia]. pose proof (need_S fbn ltac:(lia)) as Hns.
      case_decide; lia. }
    rewrite (bind_Ok _ _ _ _ _ E1).
    assert (∀ bn, 0 ≤ bn < MAXFILE → fblk V1 x1 bn ≠ 0 ↔ bn < nb) as T1'.
    { destruct Hc1 as [(_ & _ & -> & ->)|(_ & _ & [Hnew _])]; [done|]. intros bn Hb. rewrite Hnew by done.
      change (direct_k NDIRECT) with (-1). rewrite decide_False by lia. by apply T1. }
    assert (freeblock s1 = freeblock s + (if decide (nb = NDIRECT) then 1 else 0)) as Ef1.
    { destruct Hc1 as [(Hz & -> & _)|(Hz & -> & _)]; [apply T2 in Hz; rewrite decide_False by lia; lia|].
      assert (¬ NDIRECT < nb) by (intros H; by apply T2 in H). rewrite decide_True by lia. lia. }
    destruct (indirect_block_ok s1 V1 x1 j HS1 Hok1 Hj Hn1) as (s2 & V2 & E2 & HS2 & Hok2 & HG2 & Hfi2 & Hlg2 & Hn2 & Hc2).
    { intros Hz. rewrite <- img_fblk_ind, Ejf in Hz by lia. assert (¬ fbn < nb) by (intros H; by apply T1' in H).
      assert (nb = fbn) as -> by lia. rewrite need_S in Hfree by lia. case_decide; lia. }
    exists s2, V2, x1. rewrite <- (img_fblk_ind V2), Ejf in * by lia. split; [done|]. split; [done|]. split; [done|].
    split; [by eapply grows_trans|]. split; [congruence|]. split; [by eapply log_same_trans|]. split; [done|].
    destruct Hc2 as [(Hz & -> & ->)|(Hz & Ef2 & Hnew)].
    + rewrite <- img_fblk_ind, Ejf in Hz by lia. apply T1' in Hz; [|done]. assert (nb = fbn + 1) as -> by lia. split; [|case_decide; lia].
      split; [done|]. split; [lia|done].
    + rewrite <- img_fblk_ind, Ejf in Hz by lia. assert (¬ fbn < nb) by (intros H; by apply T1' in H).
      assert (nb = fbn) as -> by lia. split.
      * eapply tight_new; [done|exact Hnew| |done|split; [lia|done]]. pose proof (sh_range _ _ HS1). mknum. lia.
      * rewrite need_S by lia. case_decide; lia.
Qed.

(** ** Appending *)

(** Blocks of a file of [sz] bytes. *)
Definition cblk (sz : Z) : Z := (sz + BSIZE - 1) / BSIZE.
Lemma cblk_range sz k : (k - 1) * BSIZE < sz ≤ k * BSIZE → cblk sz = k.
Proof. intros Hs. unfold cblk. change BSIZE with 1024 in *. symmetry. apply (Z.div_unique _ _ _ (sz + 1024 - 1 - 1024 * k)); lia. Qed.
Lemma cblk_bound sz : (cblk sz - 1) * BSIZE < sz ≤ cblk sz * BSIZE.
Proof.
  unfold cblk. change BSIZE with 1024. pose proof (Z.div_mod (sz + 1024 - 1) 1024 ltac:(lia)).
  pose proof (Z.mod_pos_bound (sz + 1024 - 1) 1024 ltac:(lia)). lia.
Qed.
Lemma need_mono a b : a ≤ b → need a ≤ need b.
Proof. intros Hab. unfold need. repeat case_decide; lia. Qed.
Lemma tight_write s V x fbn d :
  shadow s V → mok V x → 0 ≤ fbn < MAXFILE → fblk V x fbn ≠ 0 →
  ∀ nb, tight V x nb → tight (supd V (fblk V x fbn) d) x nb.
Proof.
  intros HS Hok Hf Hn nb [T1 T2]. split; [|done]. intros bn Hb.
  destruct (view_write _ _ _ _ fbn d the_layout (shadow_bitmap _ _ HS) Hok Hf Hn) as (_ & _ & _ & W & _).
  rewrite W by done. by apply T1.
Qed.

Lemma iappend_loop_ok fuel : ∀ s V x off p,
  let n := Z.of_nat (length p) in
  shadow s V → mok V x → tight V x (cblk off) → 0 ≤ off → off + n ≤ MAXFILE * BSIZE → Forall is_byte p →
  (length p < fuel)%nat → freeblock s + (need (cblk (off + n)) - need (cblk off)) ≤ FSSIZE →
  ∃ s' V' x', iappend_loop fuel (dinode_of x) off p s = Ok (dinode_of x', off + n) s' ∧ shadow s' V' ∧ mok V' x' ∧
    fwrite the_sb LOGSTART V x V' x' off p ∧ tight V' x' (cblk (off + n)) ∧ freeinode s' = freeinode s ∧
    log_same V V' ∧ freeblock s' = freeblock s + (need (cblk (off + n)) - need (cblk off)).
Proof.
  induction fuel as [|fuel IH]; intros s V x off p n HS Hok HT Hoff Hmax Hp Hfu Hfree; [lia|].
  cbn [iappend_loop]. fold n. destruct (Z.leb_spec n 0) as [Hn|Hn].
  { assert (p = []) as -> by (destruct p; [done|unfold n in Hn; simpl in Hn; lia]). assert (n = 0) as -> by done.
    rewrite Z.add_0_r in *. exists s, V, x. split; [done|]. split; [done|]. split; [done|]. split; [apply fwrite_nil|].
    split; [done|]. split; [done|]. split; [done|lia]. }
  assert (0 ≤ off / BSIZE < MAXFILE) as Hfb by (apply div_range; lia).
  pose proof (Z.div_mod off BSIZE ltac:(done)) as Hdm. pose proof (Z.mod_pos_bound off BSIZE ltac:(done)) as Hmod.
  set (fbn := off / BSIZE) in *. rewrite (proj2 (Z.ltb_lt _ _)) by lia. unfold assert. rewrite bind_ret.
  set (n1 := Z.min n ((fbn + 1) * BSIZE - off)). assert (0 < n1 ≤ n ∧ off mod BSIZE + n1 ≤ BSIZE) as [Hn1 Hfit] by lia.
  pose proof (cblk_bound off) as Hc0. pose proof (cblk_bound (off + n)) as Hcn. change BSIZE with 1024 in Hc0, Hcn, Hdm, Hmod.
  assert (cblk off = fbn ∨ cblk off = fbn + 1) as Hnb by lia.
  assert (cblk (off + n1) = fbn + 1) as Ec1 by (apply cblk_range; change BSIZE with 1024 in *; lia).
  pose proof (need_mono (fbn + 1) (cblk (off + n)) ltac:(lia)) as Hmono.
  destruct (iappend_block_ok s V x fbn (cblk off) HS Hok HT Hfb Hnb ltac:(lia))
    as (s1 & V1 & x1 & E1 & HS1 & Hok1 & HG & Hfi & Hlg & Hb & HT1 & Hf1).
  rewrite (bind_Ok _ _ _ _ _ E1). cbv beta iota.
  destruct (ik_use _ _ _ _ Hok1 _ Hfb Hb) as [HU _]. destruct (use_range _ _ HU) as [Hr Hbm].
  set (d := take (Z.to_nat n1) p). assert (length d = Z.to_nat n1) as Hld by (unfold d; rewrite length_take; lia).
  replace (off - fbn * BSIZE) with (off mod BSIZE) by (change BSIZE with 1024; lia).
  rewrite (bind_Ok _ _ _ _ _ (rsect_ok _ _ _ HS1 Hr Hbm)). set (b := fblk V1 x1 fbn) in *.
  destruct (fwrite_chunk _ _ V x V1 x1 off d the_layout (shadow_bitmap _ _ HS1) Hok1 HG Hoff) as (B2 & Hok2 & _ & W2);
    [lia|intros Hd; rewrite Hd in Hld; simpl in Hld; lia|lia|by apply Forall_take|done|apply HS1|].
  destruct (wsect_ok s1 V1 b (splice (V1 b) (Z.to_nat (off mod BSIZE)) d) HS1) as [E2 HS2]; [|done|..].
  { apply (shadow_use _ _ _ HS1) in HU. pose proof (sh_range _ _ HS1). mknum. lia. }
  { rewrite length_splice; rewrite (sh_len _ _ HS1); [done|change BSIZE with 1024 in *; lia]. }
  rewrite (bind_Ok _ _ _ _ _ E2). rewrite u32_id by (fsnum; lia).
  destruct (IH _ _ x1 (off + n1) (drop (Z.to_nat n1) p) HS2 Hok2) as (s3 & V3 & x3 & E3 & HS3 & Hok3 & W3 & HT3 & Hfi3 & Hlg3 & Hf3);
    rewrite ?length_drop, ?Ec1.
  - by eapply tight_write.
  - lia.
  - lia.
  - by apply Forall_drop.
  - lia.
  - replace (off + n1 + Z.of_nat (length p - Z.to_nat n1)) with (off + n) by lia. simpl. lia.
  - rewrite length_drop, Ec1 in *. replace (off + n1 + Z.of_nat (length p - Z.to_nat n1)) with (off + n) in * by lia.
    exists s3, V3, x3. split; [done|]. split; [done|]. split; [done|]. split.
    { rewrite <- (take_drop (Z.to_nat n1) p). fold d. eapply fwrite_app; [done| |exact W2|].
      - rewrite Hld, length_drop. lia.
      - rewrite Hld, Z2Nat.id by lia. done. }
    split; [done|]. split; [simpl in Hfi3; congruence|]. split; [|simpl in Hf3; lia].
    eapply log_same_trans; [exact Hlg|]. eapply log_same_trans; [by eapply log_same_write|done].
Qed.

(** ** The image *)

(** The inode the kernel loads for number [i]. *)
Definition disk_inode (V : Z → list Z) (i : Z) : inode :=
  load_dinode (inode_at V the_sb i) (Inode ROOTDEV i 0 sleeplock0 false 0 0 0 0 0 []).
Lemma dinode_of_disk V i : dinode_of (disk_inode V i) = inode_at V the_sb i.
Proof. unfold disk_inode. by destruct (inode_at V the_sb i). Qed.
Lemma disk_inode_eq V V' i : inode_at V' the_sb i = inode_at V the_sb i → disk_inode V' i = disk_inode V i.
Proof. unfold disk_inode. by intros ->. Qed.

(** Inode [i] is a file of type [t] with the bytes [c], and zeros after them. *)
Record filed (V : Z → list Z) (i t : Z) (c : list Z) : Prop := {
  fd_file : file_ok the_sb LOGSTART V (disk_inode V i);
  fd_type : i_type (disk_inode V i) = t ∧ i_nlink (disk_inode V i) = 1;
  fd_size : i_size (disk_inode V i) = Z.of_nat (length c);
  fd_byte o : 0 ≤ o < MAXFILE * BSIZE → fbyte V (disk_inode V i) o = default 0 (c !! Z.to_nat o);
  fd_tight : tight V (disk_inode V i) (cblk (Z.of_nat (length c)));
  fd_super : ¬ mine V (disk_inode V i) 1;
}.

(** A view that keeps the blocks of a file keeps the file. *)
Section keep.
Context (V V' : Z → list Z) (x : inode) (Hok : mok V x).
Context (Hk : ∀ n, n ≠ 0 → mine V x n → in_use the_sb LOGSTART V n → V' n = V n ∧ in_use the_sb LOGSTART V' n).

Lemma keep_ind : addr x NDIRECT ≠ 0 → V' (addr x NDIRECT) = V (addr x NDIRECT) ∧ in_use the_sb LOGSTART V' (addr x NDIRECT).
Proof using All. intros Hn. apply Hk; [done|by left|by apply Hok]. Qed.
Lemma keep_fblk bn : fblk V' x bn = fblk V x bn.
Proof using All.
  unfold fblk, ind. destruct (bn <? NDIRECT); [done|]. destruct (Z.eqb_spec (addr x NDIRECT) 0) as [|Hn]; [done|].
  by rewrite (proj1 (keep_ind Hn)).
Qed.
Lemma keep_blk bn : 0 ≤ bn < MAXFILE → fblk V x bn ≠ 0 → V' (fblk V x bn) = V (fblk V x bn) ∧ in_use the_sb LOGSTART V' (fblk V x bn).
Proof using All. intros Hb Hn. apply Hk; [done|right; by exists bn|by apply Hok]. Qed.
Lemma keep_ok : mok V' x.
Proof using All.
  pose proof keep_fblk as Hf. pose proof keep_blk as Hb. pose proof keep_ind as Hi. destruct Hok as [K1 K2 K3 K4 K5]. split; try done.
  - intros Hn. by apply Hi.
  - intros bn Hr. rewrite Hf. intros Hn. split; [by apply Hb|by apply K4].
  - intros b1 b2 H1 H2. rewrite !Hf. by apply K5.
Qed.
Lemma keep_mine n : mine V' x n ↔ mine V x n.
Proof using All. unfold mine. by setoid_rewrite keep_fblk. Qed.
Lemma keep_fbyte o : 0 ≤ o < MAXFILE * BSIZE → fbyte V' x o = fbyte V x o.
Proof using All.
  intros Ho. unfold fbyte. rewrite keep_fblk. destruct (Z.eqb_spec (fblk V x (o / BSIZE)) 0) as [|Hn]; [done|].
  by rewrite (proj1 (keep_blk _ (div_range _ Ho) Hn)).
Qed.
End keep.

Lemma filed_keep V V' i t c : filed V i t c → inode_at V' the_sb i = inode_at V the_sb i →
  (∀ n, n ≠ 0 → mine V (disk_inode V i) n → in_use the_sb LOGSTART V n → V' n = V n ∧ in_use the_sb LOGSTART V' n) →
  filed V' i t c ∧ ∀ n, mine V' (disk_inode V' i) n ↔ mine V (disk_inode V i) n.
Proof.
  intros [F1 F2 F3 F4 F5 F6] Ei Hk. pose proof (disk_inode_eq V V' i Ei) as Ex. rewrite Ex in *.
  set (x := disk_inode V i) in *. pose proof (keep_mine V V' x (fk_inode _ _ _ _ F1) Hk) as Hm. split; [|done].
  pose proof (keep_fblk V V' x (fk_inode _ _ _ _ F1) Hk) as Hf. split; rewrite ?Ex; fold x; try done.
  - split; try apply F1; [by apply (keep_ok V V' x (fk_inode _ _ _ _ F1))|].
    intros o Ho. rewrite Hf. by apply F1.
  - intros o Ho. rewrite (keep_fbyte V V' x (fk_inode _ _ _ _ F1) Hk) by done. by apply F4.
  - destruct F5 as [T1 T2]. split; [|done]. intros bn Hb. rewrite Hf. by apply T1.
  - by rewrite Hm.
Qed.

Definition blocks_of (c : list Z) : Z := need (cblk (Z.of_nat (length c))).
Definition used (C : list (Z * list Z)) : Z := foldr (λ tc a, blocks_of tc.2 + a) nmeta C.
Lemma used_insert C i t c c' : C !! i = Some (t, c) → used (<[i := (t, c')]> C) = used C + (blocks_of c' - blocks_of c).
Proof.
  revert i. induction C as [|tc C IH]; intros [|i] Hi; simplify_eq/=; [lia|]. rewrite IH by done. lia.
Qed.
Lemma used_app C D : used (C ++ D) = used C + used D - nmeta.
Proof. unfold used. induction C as [|tc C IH]; simpl; lia. Qed.

(** The inodes from 1 on are the files [C], those after them are free; no block belongs to two files. *)
Record image_ok (s : mkst) (V : Z → list Z) (C : list (Z * list Z)) : Prop := {
  im_shadow : shadow s V;
  im_next : freeinode s = 1 + Z.of_nat (length C);
  im_room : 1 + Z.of_nat (length C) ≤ NINODES;
  im_used : freeblock s = used C;
  im_file i t c : C !! i = Some (t, c) → filed V (1 + Z.of_nat i) t c;
  im_free i : Z.of_nat (length C) < i < NINODES → d_type (inode_at V the_sb i) = 0;
  im_apart i j n : (i < length C)%nat → (j < length C)%nat → i ≠ j → n ≠ 0 →
    mine V (disk_inode V (1 + Z.of_nat i)) n → ¬ mine V (disk_inode V (1 + Z.of_nat j)) n;
  im_super : V 1 = sb_bytes the_sb;
  im_log : V LOGSTART = zeros;
}.

(** Writing an inode back. *)
Lemma winode_ok s V inum x :
  shadow s V → 0 ≤ inum < NINODES → i_inum x = inum → length (i_addrs x) = NADDRS →
  ∃ s', winode inum (dinode_of x) s = Ok () s' ∧ shadow s' (updated the_sb V x) ∧
    freeinode s' = freeinode s ∧ freeblock s' = freeblock s.
Proof.
  intros HS Hi Ex Hl. pose proof (IBLOCK_range inum Hi) as Hr. pose proof (sh_range _ _ HS) as Hf. unfold winode.
  rewrite bind_gets, (sh_sb _ _ HS). mknum. rewrite (bind_Ok _ _ _ _ _ (rsect_ok s V (IBLOCK inum the_sb) HS ltac:(lia) ltac:(unfold BMAP; lia))).
  destruct (wsect_ok s V (IBLOCK inum the_sb) (put_dinode (V (IBLOCK inum the_sb)) (dinode_off inum) (dinode_of x)) HS) as [E HS'];
    [lia|unfold BMAP; lia| |].
  { rewrite length_put_dinode; [apply HS|rewrite (sh_len _ _ HS); apply dinode_off_ok; lia|done]. }
  eexists. split; [exact E|]. split; [|done]. unfold updated. rewrite Ex. exact HS'.
Qed.
Lemma rinode_ok s V inum : shadow s V → 0 ≤ inum < NINODES → rinode inum s = Ok (inode_at V the_sb inum) s.
Proof.
  intros HS Hi. pose proof (IBLOCK_range inum Hi) as Hr. unfold rinode. rewrite bind_gets, (sh_sb _ _ HS). mknum.
  by rewrite (bind_Ok _ _ _ _ _ (rsect_ok s V (IBLOCK inum the_sb) HS ltac:(lia) ltac:(unfold BMAP; lia))).
Qed.
(** The superblock and the head of the log are not blocks of an inode. *)
Lemma updated_low V x : 0 ≤ i_inum x < NINODES → updated the_sb V x 1 = V 1 ∧ updated the_sb V x LOGSTART = V LOGSTART.
Proof.
  intros Hi. pose proof (IBLOCK_range (i_inum x) Hi). unfold updated. by rewrite !supd_ne by (unfold LOGSTART; lia).
Qed.

Lemma mine_use V x n : mok V x → n ≠ 0 → mine V x n → in_use the_sb LOGSTART V n.
Proof. intros Hok Hn [->|(bn & Hb & <-)]; by apply Hok. Qed.

(** The contents of a file grow; the other files stay. *)
Lemma grown_image s V C i t c data s' V' x x' :
  image_ok s V C → C !! i = Some (t, c) → x = disk_inode V (1 + Z.of_nat i) →
  shadow s' V' → freeinode s' = freeinode s → freeblock s' = freeblock s + (blocks_of (c ++ data) - blocks_of c) →
  file_ok the_sb LOGSTART V' x' → file_written the_sb LOGSTART V x V' x' (Z.of_nat (length c)) data →
  tight V' x' (cblk (Z.of_nat (length (c ++ data)))) →
  (∀ n, in_use the_sb LOGSTART V n → in_use the_sb LOGSTART V' n) →
  (∀ n, in_use the_sb LOGSTART V n → ¬ mine V x n → ¬ mine V' x' n) →
  V' LOGSTART = V LOGSTART →
  image_ok s' V' (<[i := (t, c ++ data)]> C).
Proof.
  intros HI Hi Ex HS' Hfi Hfb HF HW HT Hmono Hmine Hlog. pose proof (im_file _ _ _ HI _ _ _ Hi) as F.
  pose proof (lookup_lt_Some _ _ _ Hi) as Hlt. pose proof (im_room _ _ _ HI) as Hroom. mknum. unfold NINODES in *.
  assert (disk_inode V' (1 + Z.of_nat i) = x') as Ex'.
  { unfold disk_inode. rewrite (fl_disk _ _ _ _ _ _ _ _ HW) by lia. rewrite Ex. simpl. rewrite decide_True by done.
    rewrite (fl_fields _ _ _ _ _ _ _ _ HW), Ex. unfold disk_inode, load_dinode, dinode_of. simpl. done. }
  assert (∀ n, in_use the_sb LOGSTART V n → ¬ mine V x n → V' n = V n) as Hother by apply HW.
  assert (filed V' (1 + Z.of_nat i) t (c ++ data)) as F'.
  { destruct F as [F1 F2 F3 F4 F5 F6]. rewrite <- Ex in *. split; rewrite Ex'; try done.
    - by rewrite (fl_fields _ _ _ _ _ _ _ _ HW).
    - rewrite (fl_size _ _ _ _ _ _ _ _ HW), F3, length_app. lia.
    - intros o Ho. rewrite (fl_byte _ _ _ _ _ _ _ _ HW) by done. case_decide as Hd.
      + rewrite lookup_app_r by lia. do 2 f_equal. lia.
      + rewrite F4 by done. destruct (decide (o < Z.of_nat (length c))); [by rewrite lookup_app_l by lia|].
        rewrite !lookup_ge_None_2; [done|rewrite length_app; lia|lia].
    - apply Hmine; [|done]. apply (shadow_use _ _ _ (im_shadow _ _ _ HI)). by left. }
  assert (∀ j tj cj, C !! j = Some (tj, cj) → j ≠ i →
    filed V' (1 + Z.of_nat j) tj cj ∧ (∀ n, mine V' (disk_inode V' (1 + Z.of_nat j)) n ↔ mine V (disk_inode V (1 + Z.of_nat j)) n)) as Hj.
  { intros j tj cj Hj Hne. pose proof (lookup_lt_Some _ _ _ Hj). apply filed_keep; [by apply HI| |].
    - rewrite (fl_disk _ _ _ _ _ _ _ _ HW) by lia. rewrite decide_False; [done|]. rewrite Ex. simpl. lia.
    - intros n Hn Hm Hu. split; [|by apply Hmono]. apply Hother; [done|]. rewrite Ex. eapply (im_apart _ _ _ HI j i); try done. }
  assert (∀ j n, (j < length C)%nat → j ≠ i → n ≠ 0 → mine V' (disk_inode V' (1 + Z.of_nat j)) n → ¬ mine V' x' n) as Hsep.
  { intros j n Hjl Hne Hn Hm. destruct (lookup_lt_is_Some_2 C j Hjl) as [[tj cj] Ej]. destruct (Hj j tj cj Ej Hne) as [Fj Hmj].
    apply Hmj in Hm. pose proof (im_file _ _ _ HI _ _ _ Ej) as Fj0. apply Hmine.
    - eapply mine_use; [apply Fj0|done|done].
    - rewrite Ex. by eapply (im_apart _ _ _ HI j i). }
  assert (¬ mine V x 1) as H1 by (rewrite Ex; apply F).
  split; rewrite ?length_insert; try apply HI; try done.
  - rewrite Hfi. apply HI.
  - rewrite (used_insert _ _ _ c) by done. rewrite Hfb, (im_used _ _ _ HI). done.
  - intros j tj cj Hl. apply list_lookup_insert_Some in Hl as [(<- & [= <- <-] & _)|[Hne Hl]]; [done|]. by apply Hj.
  - intros j Hjr. unfold NINODES in *. rewrite (fl_disk _ _ _ _ _ _ _ _ HW) by lia. rewrite decide_False; [by apply HI|]. rewrite Ex. simpl. lia.
  - intros a b n Ha Hb Hab Hn. destruct (decide (a = i)) as [->|Hai].
    + rewrite Ex'. intros Hm Hmb. by apply (Hsep b n).
    + destruct (decide (b = i)) as [->|Hbi]; [rewrite Ex'; by apply Hsep|].
      destruct (lookup_lt_is_Some_2 C a Ha) as [[ta ca] Ea], (lookup_lt_is_Some_2 C b Hb) as [[tb cb] Eb].
      rewrite (proj2 (Hj a _ _ Ea Hai)), (proj2 (Hj b _ _ Eb Hbi)). by apply HI.
  - rewrite Hother; [apply HI| |done]. apply (shadow_use _ _ _ (im_shadow _ _ _ HI)). by left.
  - exact (eq_trans Hlog (im_log _ _ _ HI)).
Qed.

Lemma iappend_ok s V C i t c data :
  image_ok s V C → C !! i = Some (t, c) → Forall is_byte data → Z.of_nat (length (c ++ data)) ≤ MAXFILE * BSIZE →
  used (<[i := (t, c ++ data)]> C) ≤ FSSIZE →
  ∃ s' V', iappend (1 + Z.of_nat i) data s = Ok () s' ∧ image_ok s' V' (<[i := (t, c ++ data)]> C).
Proof.
  intros HI Hi Hd Hmax Hu. pose proof (im_shadow _ _ _ HI) as HS. pose proof (im_file _ _ _ HI _ _ _ Hi) as F.
  pose proof (lookup_lt_Some _ _ _ Hi) as Hlt. pose proof (im_room _ _ _ HI) as Hroom. unfold NINODES in *.
  set (inum := 1 + Z.of_nat i) in *. set (x := disk_inode V inum) in *.
  unfold iappend. rewrite (bind_Ok _ _ _ _ _ (rinode_ok s V inum HS ltac:(unfold NINODES; lia))).
  rewrite <- dinode_of_disk. fold x. rewrite (used_insert _ _ _ c) in Hu by done. rewrite <- (im_used _ _ _ HI) in Hu.
  unfold blocks_of in Hu. rewrite length_app, Nat2Z.inj_add in *.
  assert (xint (d_size (dinode_of x)) = Z.of_nat (length c)) as ->.
  { change (d_size (dinode_of x)) with (i_size x). rewrite xint_id; [exact (fd_size _ _ _ _ F)|]. pose proof (fd_size _ _ _ _ F) as E. fold x in E. fsnum. lia. }
  destruct (iappend_loop_ok (S (length data)) s V x (Z.of_nat (length c)) data) as (s1 & V1 & x1 & E1 & HS1 & Hok1 & W & HT & Hfi & Hlg & Hfb);
    [done|apply F|apply F|lia|lia|done|lia|lia|].
  rewrite (bind_Ok _ _ _ _ _ E1). cbv beta iota. set (n := Z.of_nat (length c) + Z.of_nat (length data)) in *.
  pose proof (fd_size _ _ _ _ F : i_size x = Z.of_nat (length c)) as Hsz.
  assert (i_inum x1 = inum) as Ei by (by rewrite (fw_fields _ _ _ _ _ _ _ _ W)).
  assert (set_din_size n (dinode_of x1) = dinode_of (set_i_size n x1)) as ->.
  { unfold set_din_size. rewrite xint_id by (fsnum; lia). done. }
  destruct (winode_ok s1 V1 inum (set_i_size n x1) HS1) as (s2 & E2 & HS2 & Hfi2 & Hfb2); [unfold NINODES; lia|done|apply Hok1|].
  pose proof (file_written_ok the_sb LOGSTART V x V1 x1 (Z.of_nat (length c)) data (shadow_bitmap _ _ HS1) (fd_file _ _ _ _ F) Hok1
    (sh_len _ _ HS1) W ltac:(lia) ltac:(lia)) as HF. cbv zeta in HF. fold n in HF. rewrite Hsz, Z.max_r in HF by (unfold n; lia).
  destruct HF as [HF HW]. exists s2, (updated the_sb V1 (set_i_size n x1)). split; [done|].
  destruct (view_same the_sb LOGSTART V1 (updated the_sb V1 (set_i_size n x1)) (set_i_size n x1) the_layout)
    as (_ & _ & _ & U4 & _ & U6); [|by eapply shadow_bitmap|by apply inode_ok_size|].
  { intros m Hm. apply supd_ne, Hm. change (i_inum (set_i_size n x1)) with (i_inum x1). rewrite Ei. mknum. lia. }
  eapply (grown_image s V C i t c data s2 _ x); try done.
  - congruence.
  - rewrite Hfb2, Hfb. unfold blocks_of. by rewrite length_app, Nat2Z.inj_add.
  - rewrite length_app, Nat2Z.inj_add. fold n. destruct HT as [T1 T2]. split; [|done]. intros bn Hb. rewrite U4 by done. by apply T1.
  - intros m Hm. apply U6, W, Hm.
  - intros m Hm Hn. destruct (fw_other _ _ _ _ _ _ _ _ W m Hm Hn) as [Hn1 _]. intros [->|(bn & Hb & <-)]; apply Hn1; [by left|].
    right. exists bn. split; [done|]. symmetry. by apply U4.
  - rewrite (proj2 (updated_low V1 (set_i_size n x1) ltac:(simpl; rewrite Ei; unfold NINODES; lia))).
    apply Hlg. unfold outside, LOGSTART, LOGSIZE, MAXOPBLOCKS. lia.
Qed.
