(* ===== verification/MkfsProps.v ===== *)
(** * mkfs: the whole program

    [main] makes an image in which every file of the host has an inode with
    its bytes, the root directory names them, and the bitmap, the
    superblock and the log are as the kernel expects them. *)

From stdpp Require Import options.
From S2P Require Import Prelude CString State Sched Sleeplock Bio BioList BioSpec Block Log LogSpec LogCrash LogTx Kalloc Vm Copy Fs FsCodec FsAlloc FsInode FsFile FsDir Mkfs MkfsSpec.
#[local] Open Scope Z_scope.

(** ** A new inode *)

Definition fresh_inode (i t : Z) : inode := Inode ROOTDEV i 0 sleeplock0 false t 0 0 1 0 (replicate NADDRS 0).
Lemma fresh_addr i t k : addr (fresh_inode i t) k = 0.
Proof.
  unfold addr. change (i_addrs (fresh_inode i t)) with (replicate NADDRS 0). destruct (replicate NADDRS 0 !! Z.to_nat k) eqn:E; [|done]. by apply lookup_replicate in E as [-> _].
Qed.
Lemma fresh_fblk V i t bn : fblk V (fresh_inode i t) bn = 0.
Proof. unfold fblk, ind. rewrite !fresh_addr. by destruct (bn <? NDIRECT). Qed.
Lemma fresh_file V i t : 0 ≤ i < NINODES → - 2 ^ 15 ≤ t < 2 ^ 15 → file_ok the_sb LOGSTART V (fresh_inode i t).
Proof.
  intros Hi Ht. split.
  - split; try done; intros *; rewrite ?fresh_addr, ?fresh_fblk; done.
  - split; cbn [dinode_of d_type d_major d_minor d_nlink d_size d_addrs fresh_inode i_type i_major i_minor i_nlink i_size i_addrs]; try lia; [done|]. apply Forall_replicate. lia.
  - exact Hi.
  - simpl. fsnum. lia.
  - simpl. lia.
Qed.
Lemma updated_use s s' V x : shadow s V → shadow s' (updated the_sb V x) → freeblock s' = freeblock s → 0 ≤ i_inum x < NINODES →
  ∀ n, in_use the_sb LOGSTART V n → updated the_sb V x n = V n ∧ in_use the_sb LOGSTART (updated the_sb V x) n.
Proof.
  intros HS HS' Hf Hi n Hu. split.
  - unfold updated. apply supd_ne. intros ->. destruct Hu as [D _]. mknum. by apply (db_inode _ _ _ D (i_inum x)).
  - apply (shadow_use _ _ _ HS'). rewrite Hf. by apply (shadow_use _ _ _ HS).
Qed.

Lemma ialloc_ok s V C t :
  image_ok s V C → 2 + Z.of_nat (length C) ≤ NINODES → 0 ≤ t < 2 ^ 15 →
  ∃ s' V', ialloc t s = Ok (1 + Z.of_nat (length C)) s' ∧ image_ok s' V' (C ++ [(t, [])]).
Proof.
  intros HI Hroom Ht. pose proof (im_shadow _ _ _ HI) as HS. unfold ialloc. rewrite bind_gets, bind_modify, (im_next _ _ _ HI).
  set (inum := 1 + Z.of_nat (length C)). unfold NINODES in Hroom. rewrite u32_id by lia. set (s1 := set_freeinode (inum + 1) s).
  assert (shadow s1 V) as HS1 by (by destruct HS). set (x := fresh_inode inum t).
  assert (0 ≤ inum < NINODES) as Hr by (unfold inum, NINODES; lia).
  destruct (winode_ok s1 V inum x HS1 Hr eq_refl eq_refl) as (s2 & E2 & HS2 & Hfi & Hfb).
  exists s2, (updated the_sb V x). split.
  { replace (Dinode (i16 (xshort t)) 0 0 (i16 (xshort 1)) (xint 0) (replicate NADDRS 0)) with (dinode_of x).
    - by rewrite (bind_Ok _ _ _ _ _ E2).
    - unfold x, dinode_of. simpl. f_equal. unfold xshort. rewrite i16_le by lia. done. }
  pose proof (updated_use s1 s2 V x HS1 HS2 Hfb Hr) as Hu.
  pose proof (fresh_file (updated the_sb V x) inum t Hr ltac:(lia)) as HF. fold x in HF.
  assert (∀ i, 0 ≤ i → inode_at (updated the_sb V x) the_sb i = if decide (i = inum) then dinode_of x else inode_at V the_sb i) as Hat.
  { intros i Hi. apply updated_at; [apply HS|apply Hr|done|apply HF]. }
  assert (disk_inode (updated the_sb V x) inum = x) as Ex by (unfold disk_inode; rewrite Hat, decide_True by (done || lia); done).
  assert (∀ n, mine (updated the_sb V x) x n → n = 0) as Hm.
  { intros n [->|(bn & _ & <-)]; [apply fresh_addr|apply fresh_fblk]. }
  assert (∀ i ti ci, C !! i = Some (ti, ci) → filed (updated the_sb V x) (1 + Z.of_nat i) ti ci ∧
    ∀ n, mine (updated the_sb V x) (disk_inode (updated the_sb V x) (1 + Z.of_nat i)) n ↔ mine V (disk_inode V (1 + Z.of_nat i)) n) as Hold.
  { intros i ti ci Hi. pose proof (lookup_lt_Some _ _ _ Hi). apply filed_keep; [by apply HI| |].
    - rewrite Hat by lia. rewrite decide_False by (unfold inum; lia). done.
    - intros n Hn Hmn Hun. by apply Hu. }
  destruct (updated_low V x Hr) as [Hl1 Hl2].
  split; rewrite ?length_app; simpl length.
  - done.
  - rewrite Hfi. simpl. unfold inum. lia.
  - unfold NINODES. lia.
  - rewrite Hfb, used_app. change (freeblock s1) with (freeblock s). rewrite (im_used _ _ _ HI). change (used [(t, [])]) with (0 + nmeta). lia.
  - intros i ti ci [Hi|[Hi Hs]]%lookup_app_Some; [by apply Hold|].
    apply list_lookup_singleton_Some in Hs as [Hs [= <- <-]]. replace (1 + Z.of_nat i) with inum by (unfold inum; lia).
    split; rewrite ?Ex; try done.
    + intros o Ho. unfold fbyte. unfold x. by rewrite fresh_fblk.
    + change (cblk (Z.of_nat (length (@nil Z)))) with 0. unfold x. split; [intros bn Hb; rewrite fresh_fblk|rewrite fresh_addr; fsnum]; lia.
    + intros H1%Hm. done.
  - intros i Hi. rewrite Hat by lia. rewrite decide_False by (unfold inum; lia). apply HI. lia.
  - intros i j n Hi Hj Hij Hn. destruct (decide (i < length C)%nat) as [Hil|Hil], (decide (j < length C)%nat) as [Hjl|Hjl]; [| | |lia].
    + destruct (lookup_lt_is_Some_2 C i Hil) as [[ti ci] Ei], (lookup_lt_is_Some_2 C j Hjl) as [[tj cj] Ej].
      rewrite (proj2 (Hold i _ _ Ei)), (proj2 (Hold j _ _ Ej)). by apply HI.
    + intros _. replace (1 + Z.of_nat j) with inum by (unfold inum; lia). rewrite Ex. by intros H1%Hm.
    + replace (1 + Z.of_nat i) with inum by (unfold inum; lia). rewrite Ex. by intros H1%Hm.
  - rewrite Hl1. apply HI.
  - rewrite Hl2. exact (im_log _ _ _ HI).
Qed.

(** ** One file of the host *)

Lemma blocks_mono c d : blocks_of c ≤ blocks_of (c ++ d).
Proof.
  unfold blocks_of. apply need_mono. rewrite length_app, Nat2Z.inj_add. unfold cblk. apply Z.div_le_mono; [done|lia].
Qed.
Lemma insert_twice {A} (l : list A) i x y : <[i := x]> (<[i := y]> l) = <[i := x]> l.
Proof. apply list_insert_insert_eq. Qed.

(** What the reads of a file return up to its end. *)
Fixpoint read_data (reads : list (list Z)) : list Z :=
  match reads with
  | [] | [] :: _ => []
  | buf :: reads => buf ++ read_data reads
  end.
Lemma append_reads_ok reads : ∀ s V C i t c,
  image_ok s V C → C !! i = Some (t, c) → Forall (Forall is_byte) reads →
  Z.of_nat (length (c ++ read_data reads)) ≤ MAXFILE * BSIZE → used (<[i := (t, c ++ read_data reads)]> C) ≤ FSSIZE →
  ∃ s' V', append_reads (1 + Z.of_nat i) reads s = Ok () s' ∧ image_ok s' V' (<[i := (t, c ++ read_data reads)]> C).
Proof.
  induction reads as [|buf reads IH]; intros s V C i t c HI Hi Hby Hmax Hu.
  { exists s, V. simpl. rewrite app_nil_r, list_insert_id by done. done. }
  destruct buf as [|b buf].
  { exists s, V. simpl. rewrite app_nil_r, list_insert_id by done. done. }
  apply Forall_cons in Hby as [Hb Hby]. cbn [read_data append_reads] in *. set (d := b :: buf) in *.
  rewrite app_assoc in Hmax, Hu |- *. pose proof (blocks_mono (c ++ d) (read_data reads)) as Hm.
  pose proof (used_insert C i t c (c ++ d) Hi) as U1. pose proof (used_insert C i t c _ Hi : used (<[i := (t, (c ++ d) ++ read_data reads)]> C) = _) as U2.
  destruct (iappend_ok s V C i t c d HI Hi Hb) as (s1 & V1 & E1 & HI1); [rewrite length_app in Hmax; lia|lia|].
  rewrite (bind_Ok _ _ _ _ _ E1). pose proof (lookup_lt_Some _ _ _ Hi).
  destruct (IH s1 V1 (<[i := (t, c ++ d)]> C) i t (c ++ d) HI1) as (s2 & V2 & E2 & HI2); rewrite ?insert_twice in *; try done.
  - by rewrite list_lookup_insert_eq.
  - by exists s2, V2.
Qed.

Lemma dirent_entry inum name : dirent inum name = entry inum (take (Z.to_nat DIRSIZ) name).
Proof.
  unfold dirent, entry, pad, put16. set (nm := take (Z.to_nat DIRSIZ) name).
  assert (length nm ≤ 14)%nat as Hl by (unfold nm; rewrite length_take; change (Z.to_nat DIRSIZ) with 14%nat; lia).
  change (Z.to_nat DIRSIZ) with 14%nat in *. change (Z.to_nat sizeof_dirent) with 16%nat.
  assert (le_bytes 2 (xshort inum) = le_bytes 2 inum) as -> by apply (le_bytes_val (le_bytes 2 inum)), le_bytes_is_byte.
  unfold splice at 2. rewrite length_le_bytes. cbn [take app].
  rewrite drop_replicate. change (16 - (0 + 2))%nat with 14%nat. unfold splice. rewrite take_0, app_nil_l.
  rewrite take_app_length', drop_app_ge by (rewrite length_le_bytes; lia).
  rewrite length_le_bytes, drop_replicate. do 3 f_equal. lia.
Qed.

(** ** The root directory *)

(** A file in the image: its name and its bytes. *)
Abbreviation mfile := (list Z * list Z)%type.
Definition name_of (arg : list Z) : list Z := take (Z.to_nat DIRSIZ) (skip_underscore (basename arg)).
(** The entries of the root directory: inode numbers and names. *)
Definition listing (fs : list mfile) : list (Z * list Z) :=
  (ROOTINO, [46]) :: (ROOTINO, [46; 46]) :: imap (λ k f, (2 + Z.of_nat k, f.1)) fs.
Definition entries (L : list (Z * list Z)) : list Z := flat_map (λ e, entry e.1 e.2) L.
Definition dir_bytes (fs : list mfile) : list Z := entries (listing fs).
Definition image_files (fs : list mfile) : list (Z * list Z) := (T_DIR, dir_bytes fs) :: ((λ f, (T_FILE, f.2)) <$> fs).

Lemma length_image_files fs : length (image_files fs) = S (length fs).
Proof. simpl. by rewrite length_fmap. Qed.
Lemma listing_app fs f : listing (fs ++ [f]) = listing fs ++ [(2 + Z.of_nat (length fs), f.1)].
Proof. unfold listing. rewrite imap_app. simpl. by rewrite Nat.add_0_r. Qed.
Lemma dir_bytes_app fs f : dir_bytes (fs ++ [f]) = dir_bytes fs ++ entry (2 + Z.of_nat (length fs)) f.1.
Proof. unfold dir_bytes, entries. rewrite listing_app, flat_map_app. simpl. by rewrite app_nil_r. Qed.
Lemma length_listing fs : length (listing fs) = (2 + length fs)%nat.
Proof. simpl. by rewrite length_imap. Qed.

Definition short (f : mfile) : Prop := (length f.1 ≤ Z.to_nat DIRSIZ)%nat.
Lemma listing_short fs : Forall short fs → Forall (λ e, (length e.2 ≤ Z.to_nat DIRSIZ)%nat) (listing fs).
Proof.
  intros Hs. repeat constructor; try (simpl; change (Z.to_nat DIRSIZ) with 14%nat; lia). apply Forall_lookup. intros i e.
  rewrite list_lookup_imap. intros (f & Hf & ->)%fmap_Some. rewrite Forall_lookup in Hs. by apply (Hs i).
Qed.
Lemma length_entries L : Forall (λ e, (length e.2 ≤ Z.to_nat DIRSIZ)%nat) L →
  length (entries L) = (16 * length L)%nat.
Proof.
  induction 1 as [|e L He _ IH]; [done|]. unfold entries in *. cbn [flat_map length]. rewrite length_app, IH, length_entry by done. change (Z.to_nat sizeof_dirent) with 16%nat. lia.
Qed.
Lemma length_dir_bytes fs : Forall short fs → length (dir_bytes fs) = (16 * (2 + length fs))%nat.
Proof. intros Hs. unfold dir_bytes. rewrite length_entries by (by apply listing_short). by rewrite length_listing. Qed.

Lemma used_cons tc C : used (tc :: C) = blocks_of tc.2 + used C.
Proof. done. Qed.
Lemma used_files fs f : used (image_files (fs ++ [f])) =
  used (<[0%nat := (T_DIR, dir_bytes fs ++ entry (2 + Z.of_nat (length fs)) f.1)]> (image_files fs ++ [(T_FILE, [])])) + blocks_of f.2.
Proof.
  unfold image_files. rewrite dir_bytes_app, fmap_app. cbn [app insert list_insert]. rewrite !used_cons, !used_app, !used_cons.
  change (blocks_of (T_FILE, []).2) with 0. change (used [] ) with nmeta. cbn [fmap list_fmap]. rewrite used_cons. change (used []) with nmeta. simpl snd. lia.
Qed.

Lemma image_files_app fs f :
  <[S (length fs) := (T_FILE, f.2)]> (<[0%nat := (T_DIR, dir_bytes fs ++ entry (2 + Z.of_nat (length fs)) f.1)]>
    (image_files fs ++ [(T_FILE, [])])) = image_files (fs ++ [f]).
Proof.
  unfold image_files. rewrite dir_bytes_app, fmap_app. set (l := _ <$> fs).
  change (<[S (length fs) := ?x]> (<[0%nat := ?y]> ((?a :: ?l) ++ ?r))) with (y :: <[length fs := x]> (l ++ r)).
  assert (length fs = length l + 0)%nat as E by (unfold l; rewrite length_fmap; lia). rewrite E at 2. by rewrite insert_app_r.
Qed.

Lemma used_mono fs fs' : used (image_files fs) ≤ used (image_files (fs ++ fs')).
Proof.
  induction fs' as [|f fs' IH] using rev_ind; [by rewrite app_nil_r|]. rewrite app_assoc, used_files.
  rewrite (used_insert _ _ _ (dir_bytes (fs ++ fs'))) by done. rewrite used_app. change (used [(T_FILE, [])]) with nmeta.
  pose proof (blocks_mono (dir_bytes (fs ++ fs')) (entry (2 + Z.of_nat (length (fs ++ fs'))) f.1)).
  pose proof (blocks_mono [] f.2) as Hb. change (blocks_of []) with 0 in Hb. rewrite app_nil_l in Hb. lia.
Qed.

Section files.
Context (host : list Z → option (list (list Z))).

(** The file [f] of the image is the file [arg] of the host. *)
Record comes_from (arg : list Z) (f : mfile) : Prop := {
  cf_slash : 47 ∉ basename arg;
  cf_bytes : Forall (λ b, 0 < b < 256) arg;
  cf_name : f.1 = name_of arg;
  cf_data : ∃ reads, host arg = Some reads ∧ Forall (Forall is_byte) reads ∧ f.2 = read_data reads;
  cf_size : Z.of_nat (length f.2) ≤ MAXFILE * BSIZE;
}.
Lemma comes_short arg f : comes_from arg f → short f.
Proof. intros HC. unfold short. rewrite (cf_name _ _ HC). unfold name_of. rewrite length_take. lia. Qed.
Lemma comes_name arg f : comes_from arg f → Forall (λ b, 0 < b < 256) f.1.
Proof.
  intros HC. rewrite (cf_name _ _ HC). apply Forall_take. assert (Forall (λ b, 0 < b < 256) (basename arg)) as Hb.
  { unfold basename. case_decide; [apply Forall_drop|]; apply HC. }
  unfold skip_underscore. destruct (basename arg) as [|c r]; [done|]. destruct (c =? 95); [by apply Forall_cons in Hb as [_ ?]|done].
Qed.
Lemma dent_bytes inum nm : Forall (λ b, 0 < b < 256) nm → Forall is_byte (entry inum nm).
Proof.
  intros Hn. unfold entry, pad. rewrite !Forall_app. split; [apply le_bytes_is_byte|]. split; [|by apply Forall_replicate].
  eapply Forall_impl; [exact Hn|]. unfold is_byte. simpl. lia.
Qed.

Lemma add_file_ok s V fs arg f :
  image_ok s V (image_files fs) → Forall short fs → comes_from arg f → Z.of_nat (length fs) + 3 ≤ NINODES →
  used (image_files (fs ++ [f])) ≤ FSSIZE →
  ∃ s' V', add_file host ROOTINO arg s = Ok () s' ∧ image_ok s' V' (image_files (fs ++ [f])).
Proof.
  intros HI Hs HC Hroom Hu. pose proof (comes_short _ _ HC) as Hsf. pose proof (comes_name _ _ HC) as Hn.
  destruct (cf_data _ _ HC) as (reads & Eh & Hby & Ed).
  unfold add_file, assert. rewrite bool_decide_true by apply HC. rewrite bind_ret, Eh. fold (name_of arg).
  destruct (ialloc_ok s V (image_files fs) T_FILE HI) as (s1 & V1 & E1 & HI1); [rewrite length_image_files; lia|done|].
  rewrite length_image_files in E1. replace (1 + Z.of_nat (S (length fs))) with (2 + Z.of_nat (length fs)) in E1 by lia.
  rewrite (bind_Ok _ _ _ _ _ E1), dirent_entry. fold (name_of arg). rewrite <- (cf_name _ _ HC).
  set (e := entry (2 + Z.of_nat (length fs)) f.1). rewrite used_files in Hu. fold e in Hu.
  pose proof (length_dir_bytes fs Hs) as Hld. unfold NINODES in Hroom.
  destruct (iappend_ok s1 V1 (image_files fs ++ [(T_FILE, [])]) 0 T_DIR (dir_bytes fs) e HI1 eq_refl) as (s2 & V2 & E2 & HI2).
  - by apply dent_bytes.
  - rewrite length_app, Hld. unfold e. rewrite length_entry by done. change (Z.to_nat sizeof_dirent) with 16%nat. fsnum. lia.
  - pose proof (blocks_mono [] f.2) as Hb. change (blocks_of []) with 0 in Hb. rewrite app_nil_l in Hb. lia.
  - change (1 + Z.of_nat 0) with ROOTINO in E2. rewrite (bind_Ok _ _ _ _ _ E2).
    destruct (append_reads_ok reads s2 V2 _ (S (length fs)) T_FILE [] HI2) as (s3 & V3 & E3 & HI3).
    + rewrite list_lookup_insert_ne by lia. rewrite lookup_app_r by (rewrite length_image_files; lia).
      by rewrite length_image_files, Nat.sub_diag.
    + done.
    + simpl app. rewrite <- Ed. apply HC.
    + rewrite (used_insert _ _ _ []) by (rewrite list_lookup_insert_ne, lookup_app_r, length_image_files, Nat.sub_diag by (rewrite ?length_image_files; lia); done).
      rewrite (app_nil_l (read_data reads)), <- Ed. change (blocks_of []) with 0. lia.
    + exists s3, V3. replace (1 + Z.of_nat (S (length fs))) with (2 + Z.of_nat (length fs)) in E3 by lia. split; [exact E3|].
      rewrite (app_nil_l (read_data reads)), <- Ed in HI3. unfold e in HI3. by rewrite image_files_app in HI3.
Qed.

Lemma add_files_ok args fs' : Forall2 comes_from args fs' → ∀ s V fs,
  image_ok s V (image_files fs) → Forall short fs → Z.of_nat (length fs + length fs') + 2 ≤ NINODES →
  used (image_files (fs ++ fs')) ≤ FSSIZE →
  ∃ s' V', add_files host ROOTINO args s = Ok () s' ∧ image_ok s' V' (image_files (fs ++ fs')).
Proof.
  induction 1 as [|arg f args fs' HC _ IH]; intros s V fs HI Hs Hroom Hu; [exists s, V; by rewrite app_nil_r|].
  cbn [add_files length] in *. rewrite cons_middle, app_assoc in Hu |- *.
  destruct (add_file_ok s V fs arg f HI Hs HC) as (s1 & V1 & E1 & HI1); [lia|pose proof (used_mono (fs ++ [f]) fs'); lia|].
  rewrite (bind_Ok _ _ _ _ _ E1). apply (IH s1 V1 (fs ++ [f]) HI1); [|rewrite length_app; simpl; lia|done].
  apply Forall_app. split; [done|]. constructor; [by eapply comes_short|done].
Qed.
End files.

(** ** The empty image *)

Lemma clear_loop s : (∀ n, mk_disk s n = zeroes) → mk_nsect s = 0 →
  ∃ s', mfor (Z.to_nat FSSIZE) 0 (λ i, wsect i zeroes) s = Ok () s' ∧ (∀ n, mk_disk s' n = zeroes) ∧
    mk_nsect s' = FSSIZE ∧ mk_sb s' = mk_sb s ∧ freeinode s' = freeinode s ∧ freeblock s' = freeblock s.
Proof.
  intros Hd Hn.
  destruct (wp_inv (mfor (Z.to_nat FSSIZE) 0 (λ i, wsect i zeroes)) (λ _ s', (∀ n, mk_disk s' n = zeroes) ∧
    mk_nsect s' = FSSIZE ∧ mk_sb s' = mk_sb s ∧ freeinode s' = freeinode s ∧ freeblock s' = freeblock s) s) as ([] & s' & E & HP); [|by exists s'].
  mknum. apply (wp_mfor _ _ _ (λ i s', (∀ n, mk_disk s' n = zeroes) ∧
    mk_nsect s' = i ∧ mk_sb s' = mk_sb s ∧ freeinode s' = freeinode s ∧ freeblock s' = freeblock s)).
  - done.
  - intros i s1 Hi (H1 & H2 & H3). unfold wsect. apply wp_modify. rewrite sector by lia. simpl.
    split; [intros n; unfold supd; by case_decide|]. split; [lia|done].
  - intros s1 (H1 & H2 & H3). split; [done|]. split; [lia|done].
Qed.

Lemma get16_zeros off : (off + 2 ≤ 1024)%nat → get16 zeros off = 0.
Proof.
  intros Hn. unfold get16, slice, zeros. change (Z.to_nat BSIZE) with 1024%nat.
  rewrite drop_replicate, take_replicate. by replace (2 `min` (1024 - off))%nat with 2%nat by lia.
Qed.
Lemma empty_image s V :
  shadow s V → freeinode s = 1 → freeblock s = nmeta → V 1 = sb_bytes the_sb → (∀ n, n ≠ 1 → n ≠ BMAP → V n = zeros) → image_ok s V [].
Proof.
  intros HS Hi Hb H1 Hz. split; try done.
  - intros i Hr. unfold NINODES in Hr. simpl in Hr. pose proof (IBLOCK_range i ltac:(lia)). unfold inode_at.
    rewrite Hz by (unfold BMAP; lia). unfold get_dinode. cbn [d_type]. rewrite get16_zeros; [done|].
    pose proof (dinode_off_ok i ltac:(lia)) as Ho. change (Z.to_nat BSIZE) with 1024%nat in Ho. lia.
  - simpl. lia.
  - by apply Hz.
Qed.

(** ** The finished image *)

(** The image [s] is a file system of the kernel that holds the files [fs]: its sectors are the
    blocks [V] the kernel sees. *)
Record mounts (s : mkst) (V : Z → list Z) (fs : list mfile) : Prop := {
  mt_disk n : mk_disk s n = V n;
  mt_super : superblock_of (V 1) = the_sb ∧ sb_magic the_sb = FSMAGIC;
  mt_log : get32 (V (sb_logstart the_sb)) 0 = 0;
  mt_bitmap : bitmap_ok the_sb (sb_logstart the_sb) V;
  mt_free b : 0 ≤ b < sb_size the_sb → bfree_bit the_sb V b = (used (image_files fs) <=? b);
  mt_inodes i : Z.of_nat (length fs) + 1 < i < sb_ninodes the_sb → d_type (inode_at V the_sb i) = 0;
  mt_file k nm c : fs !! k = Some (nm, c) → let x := disk_inode V (2 + Z.of_nat k) in
    file_ok the_sb (sb_logstart the_sb) V x ∧ i_type x = T_FILE ∧ i_nlink x = 1 ∧ i_size x = Z.of_nat (length c) ∧
    ∀ o, 0 ≤ o < i_size x → fbyte V x o = default 0 (c !! Z.to_nat o);
  mt_apart i j n : 1 ≤ i ≤ Z.of_nat (length fs) + 1 → 1 ≤ j ≤ Z.of_nat (length fs) + 1 → i ≠ j → n ≠ 0 →
    mine V (disk_inode V i) n → ¬ mine V (disk_inode V j) n;
  mt_root : let x := disk_inode V ROOTINO in
    (dir_ok the_sb (sb_logstart the_sb) V x ↔ Z.of_nat (length (dir_bytes fs)) mod BSIZE ≠ 0) ∧
    ∀ nm, dget V x nm = (λ r, r.2.1) <$> list_find (λ e, e.2 = nm) (listing fs);
}.

(** The entries of the root directory. *)
Lemma listing_entry fs k e : Forall short fs → listing fs !! k = Some e → slice (dir_bytes fs) (16 * k) 16 = entry e.1 e.2.
Proof.
  intros Hs. unfold dir_bytes. pose proof (listing_short fs Hs) as HL. revert HL. generalize (listing fs) as L. intros L HL.
  revert k. induction HL as [|e' L He _ IH]; intros [|k] Hk; [done|done|..];
    change (entries (e' :: L)) with (entry e'.1 e'.2 ++ entries L).
  - injection Hk as ->. apply slice_app_l. by apply length_entry.
  - replace (16 * S k)%nat with (length (entry e'.1 e'.2) + 16 * k)%nat
      by (rewrite length_entry by done; change (Z.to_nat sizeof_dirent) with 16%nat; lia).
    rewrite slice_app_r. by apply IH.
Qed.

Section root.
Context (V : Z → list Z) (x : inode) (fs : list mfile) (Hs : Forall short fs).
Context (Hn : Forall (λ f : mfile, Forall (λ b, 0 < b < 256) f.1) fs) (Hl : Z.of_nat (length fs) + 2 ≤ NINODES).
Context (Hb : ∀ o, 0 ≤ o < MAXFILE * BSIZE → fbyte V x o = default 0 (dir_bytes fs !! Z.to_nat o)).
Context (Hx : Z.of_nat (length (dir_bytes fs)) < i_size x ≤ 4096).

Lemma root_length : Z.of_nat (length (dir_bytes fs)) = 16 * Z.of_nat (length (listing fs)).
Proof using Hs. rewrite length_dir_bytes, length_listing by done. lia. Qed.
Lemma root_fbytes k e o n : listing fs !! k = Some e → (o + n ≤ 16)%nat →
  fbytes V x (Z.of_nat k * sizeof_dirent + Z.of_nat o) n = slice (entry e.1 e.2) o n.
Proof using All.
  intros Hk Ho. rewrite <- (listing_entry fs k e Hs Hk). pose proof (lookup_lt_Some _ _ _ Hk) as Hkl. pose proof root_length as Hr.
  unfold fbytes, slice. change sizeof_dirent with 16. apply list_eq. intros i. rewrite list_lookup_fmap.
  destruct (decide (i < n)%nat) as [Hi|Hi].
  - rewrite lookup_seq_lt by done. rewrite lookup_take_lt, lookup_drop, lookup_take_lt, lookup_drop by lia. simpl fmap.
    fsnum. rewrite Hb by lia. replace (Z.to_nat _) with (16 * k + (o + i))%nat by lia.
    by destruct (lookup_lt_is_Some_2 (dir_bytes fs) (16 * k + (o + i))) as [v ->]; [lia|].
  - rewrite lookup_seq_ge, lookup_take_ge by lia. done.
Qed.
Lemma listing_inum k e : listing fs !! k = Some e → 0 < e.1 < 2 ^ 16.
Proof using Hl.
  unfold NINODES in Hl. destruct k as [|[|k]]; simpl; [intros [= <-]; done..|]. rewrite list_lookup_imap.
  intros (f & Hf & ->)%fmap_Some. apply lookup_lt_Some in Hf. simpl. lia.
Qed.
Lemma listing_name k e : listing fs !! k = Some e → Forall (λ b, b ≠ 0) e.2 ∧ (length e.2 ≤ Z.to_nat DIRSIZ)%nat.
Proof using Hs Hn.
  intros Hk. split; [|pose proof (listing_short fs Hs) as HL; rewrite Forall_lookup in HL; by apply (HL k)].
  destruct k as [|[|k]]; simpl in Hk; [by injection Hk as <-; repeat constructor..|]. rewrite list_lookup_imap in Hk.
  apply fmap_Some in Hk as (f & Hf & ->). rewrite Forall_lookup in Hn. eapply Forall_impl; [by apply (Hn k)|]. simpl. lia.
Qed.
Lemma root_entry k e : listing fs !! k = Some e → ent_inum V x (Z.of_nat k) = e.1 ∧ ent_name V x (Z.of_nat k) = e.2.
Proof using All.
  intros Hk. destruct (listing_name k e Hk) as [Hz Hle]. split.
  - unfold ent_inum. rewrite <- (Z.add_0_r (_ * _)). change 0 with (Z.of_nat 0) at 1. rewrite (root_fbytes k e 0 2) by (done || lia).
    unfold entry. rewrite slice_app_l by apply length_le_bytes. apply le_val_bytes_id. pose proof (listing_inum k e Hk). simpl. lia.
  - unfold ent_name. change 2 with (Z.of_nat 2). change (Z.to_nat DIRSIZ) with 14%nat in *. rewrite (root_fbytes k e 2 14) by (done || lia).
    unfold entry. rewrite <- (length_le_bytes 2 e.1) at 2. rewrite <- (Nat.add_0_r (length (le_bytes 2 e.1))), slice_app_r.
    unfold slice. rewrite drop_0, take_ge; [by apply cut0_pad|]. unfold pad. rewrite length_app, length_replicate. change (Z.to_nat DIRSIZ) with 14%nat. lia.
Qed.
Lemma root_free k : Z.of_nat (length (listing fs)) ≤ k < nents x → ent_inum V x k = 0.
Proof using All.
  intros Hk. unfold ent_inum. pose proof root_length as Hr. unfold nents in Hk. change sizeof_dirent with 16 in *.
  pose proof (Z.mul_div_le (i_size x) 16 ltac:(lia)). fsnum.
  assert (∀ i, 0 ≤ i < 2 → fbyte V x (k * 16 + i) = 0) as Hz.
  { intros i Hi. rewrite Hb by lia. by rewrite lookup_ge_None_2 by lia. }
  unfold fbytes. simpl map. rewrite !Hz by lia. done.
Qed.
Lemma root_nents : Z.of_nat (length (listing fs)) ≤ nents x.
Proof using All.
  pose proof root_length. unfold nents. change sizeof_dirent with 16. apply Z.div_le_lower_bound; lia.
Qed.
Lemma root_dget nm : dget V x nm = (λ r, r.2.1) <$> list_find (λ e, e.2 = nm) (listing fs).
Proof using All.
  pose proof root_nents as Hnn.
  assert (∀ k, 0 ≤ k < nents x → names V x nm k → ∃ e, listing fs !! Z.to_nat k = Some e ∧ e.2 = nm) as Hin.
  { intros k Hk [Hi He]. destruct (listing fs !! Z.to_nat k) as [e|] eqn:E.
    - destruct (root_entry _ _ E) as [_ En]. rewrite Z2Nat.id in En by lia. exists e. split; [done|congruence].
    - exfalso. apply Hi, root_free. apply lookup_ge_None in E. lia. }
  destruct (list_find (λ e, e.2 = nm) (listing fs)) as [[i e]|] eqn:E.
  - apply list_find_Some in E as (Hi & He & Hno). destruct (root_entry _ _ Hi) as [E1 E2]. pose proof (lookup_lt_Some _ _ _ Hi).
    rewrite (dget_first V x nm (Z.of_nat i)); [by rewrite E1|]. split; [lia|]. split.
    + split; [rewrite E1; pose proof (listing_inum _ _ Hi); lia|congruence].
    + intros j Hj Hnj. destruct (Hin j ltac:(lia) Hnj) as (e' & He' & En). by apply (Hno _ _ He' ltac:(lia)).
  - apply list_find_None in E. rewrite Forall_lookup in E. apply dget_none. intros k Hk Hnk.
    destruct (Hin k Hk Hnk) as (e & He & En). by apply (E _ _ He).
Qed.
End root.

(** ** The last steps of main *)

(** The rounded size of the root directory. *)
Definition round_up (off : Z) : Z := (off / BSIZE + 1) * BSIZE.
Lemma cblk_round off : 0 ≤ off → (cblk off * BSIZE = round_up off ↔ off mod BSIZE ≠ 0) ∧ off < round_up off ≤ off + BSIZE.
Proof.
  intros Ho. pose proof (Z.div_mod off BSIZE ltac:(done)) as Hd. pose proof (Z.mod_pos_bound off BSIZE ltac:(done)) as Hm.
  pose proof (cblk_bound off) as Hc. unfold round_up. change BSIZE with 1024 in *. lia.
Qed.

Section finish.
Context (s : mkst) (V : Z → list Z) (fs : list mfile) (HI : image_ok s V (image_files fs)) (Hs : Forall short fs).
Context (Hn : Forall (λ f : mfile, Forall (λ b, 0 < b < 256) f.1) fs) (Hl : Z.of_nat (length fs) + 2 ≤ NINODES).

Definition root_size : Z := round_up (Z.of_nat (length (dir_bytes fs))).
Definition root' : inode := set_i_size root_size (disk_inode V ROOTINO).
Abbreviation V' := (updated the_sb V root').

Lemma root_size_range : Z.of_nat (length (dir_bytes fs)) < root_size ≤ 4096.
Proof using Hs Hl.
  unfold NINODES in Hl. pose proof (length_dir_bytes fs Hs) as Hld. pose proof (Z.div_lt_upper_bound (Z.of_nat (length (dir_bytes fs))) 1024 4).
  destruct (cblk_round (Z.of_nat (length (dir_bytes fs))) ltac:(lia)) as [_ Hr]. unfold root_size, round_up in *. change BSIZE with 1024 in *. lia.
Qed.
Lemma root_filed : filed V ROOTINO T_DIR (dir_bytes fs).
Proof using HI. exact (im_file _ _ _ HI 0%nat _ _ eq_refl). Qed.
Lemma root_dinode : dinode_ok (dinode_of root').
Proof using HI Hs Hl.
  pose proof root_size_range. destruct (fk_dinode _ _ _ _ (fd_file _ _ _ _ root_filed)) as [H1 H2 H3 H4 H5 H6 H7].
  split; try done. change (0 ≤ root_size < 2 ^ 32). lia.
Qed.
Lemma finish_at i : 0 ≤ i → inode_at V' the_sb i = if decide (i = ROOTINO) then dinode_of root' else inode_at V the_sb i.
Proof using HI Hs Hl. intros Hi. apply updated_at; [apply (im_shadow _ _ _ HI)|done|done|exact root_dinode]. Qed.
Lemma finish_root : disk_inode V' ROOTINO = root'.
Proof using HI Hs Hl. unfold disk_inode. rewrite finish_at, decide_True by done. done. Qed.

Context (s' : mkst) (HS' : shadow s' V') (Hfb : freeblock s' = freeblock s).

Lemma finish_keep n : in_use the_sb LOGSTART V n → V' n = V n ∧ in_use the_sb LOGSTART V' n.
Proof using HI HS' Hfb. apply (updated_use s s'); [apply HI|done|done|done]. Qed.
Lemma finish_file k t c : image_files fs !! S k = Some (t, c) → filed V' (2 + Z.of_nat k) t c.
Proof using HI Hs Hl HS' Hfb.
  intros Hk. replace (2 + Z.of_nat k) with (1 + Z.of_nat (S k)) by lia. apply (filed_keep V).
  - by apply HI.
  - rewrite finish_at by lia. by rewrite decide_False by (unfold ROOTINO; lia).
  - intros n _ _. apply finish_keep.
Qed.
Lemma finish_mine i n : 1 ≤ i ≤ Z.of_nat (length fs) + 1 → mine V' (disk_inode V' i) n ↔ mine V (disk_inode V i) n.
Proof using HI Hs Hl HS' Hfb.
  intros Hi. destruct (lookup_lt_is_Some_2 (image_files fs) (Z.to_nat (i - 1))) as [[t c] Hk]; [rewrite length_image_files; lia|].
  pose proof (im_file _ _ _ HI _ _ _ Hk) as F. replace (1 + Z.of_nat (Z.to_nat (i - 1))) with i in F by lia.
  destruct (decide (i = ROOTINO)) as [->|Hne].
  - rewrite finish_root. change (mine V' root' n) with (mine V' (disk_inode V ROOTINO) n).
    apply keep_mine; [apply F|]. intros m _ _. apply finish_keep.
  - apply (filed_keep V V' i t c F); [rewrite finish_at by lia; by rewrite decide_False|]. intros m _ _. apply finish_keep.
Qed.
Lemma finish_fblk bn : fblk V' root' bn = fblk V (disk_inode V ROOTINO) bn.
Proof using HI HS' Hfb.
  change (fblk V' root' bn) with (fblk V' (disk_inode V ROOTINO) bn). apply keep_fblk; [apply root_filed|]. intros m _ _. apply finish_keep.
Qed.
Lemma finish_fbyte o : 0 ≤ o < MAXFILE * BSIZE → fbyte V' root' o = default 0 (dir_bytes fs !! Z.to_nat o).
Proof using HI HS' Hfb.
  intros Ho. change (fbyte V' root' o) with (fbyte V' (disk_inode V ROOTINO) o). rewrite (keep_fbyte V).
  - by apply (fd_byte _ _ _ _ root_filed).
  - apply root_filed.
  - intros m _ _. apply finish_keep.
  - done.
Qed.
Lemma finish_dir : dir_ok the_sb LOGSTART V' root' ↔ Z.of_nat (length (dir_bytes fs)) mod BSIZE ≠ 0.
Proof using HI Hs Hl HS' Hfb.
  set (len := Z.of_nat (length (dir_bytes fs))). destruct (cblk_round len ltac:(lia)) as [Hc _]. rewrite <- Hc. pose proof root_size_range as Hrs.
  pose proof (fd_tight _ _ _ _ root_filed) as [HT _]. fold len in HT, Hrs. pose proof (cblk_bound len) as Hcb. split.
  - intros HD. pose proof (fk_mapped _ _ _ _ (dk_file _ _ _ _ HD) (root_size - 1)) as Hm. rewrite finish_fblk in Hm.
    change (i_size root') with root_size in Hm. specialize (Hm ltac:(lia)). apply HT in Hm; [|apply div_range; fsnum; lia].
    unfold root_size, round_up in *. fold len in Hm, Hrs. change BSIZE with 1024 in *.
    rewrite <- (Z.div_unique ((len / 1024 + 1) * 1024 - 1) 1024 (len / 1024) 1023) in Hm by lia.
    pose proof (Z.div_mod len 1024 ltac:(lia)). pose proof (Z.mod_pos_bound len 1024 ltac:(lia)). lia.
  - intros Hr. fold len root_size in Hr. split; [split| |].
    + pose proof (keep_ok V V' (disk_inode V ROOTINO) (fk_inode _ _ _ _ (fd_file _ _ _ _ root_filed)) (λ m _ _, finish_keep m)) as Hok.
      by apply inode_ok_size.
    + exact root_dinode.
    + done.
    + change (i_size root') with root_size. fsnum. lia.
    + intros o Ho. change (i_size root') with root_size in Ho. rewrite finish_fblk. unfold root_size in *. fold len in Ho, Hrs.
      apply HT; [apply div_range; fsnum; lia|]. apply Z.div_lt_upper_bound; [done|]. lia.
    + exact (proj1 (fd_type _ _ _ _ root_filed)).
    + change (i_size root') with root_size. unfold root_size, round_up. change BSIZE with 1024. change sizeof_dirent with 16.
      apply Z.mod_divide; [done|]. exists ((Z.of_nat (length (dir_bytes fs)) / 1024 + 1) * 64). lia.
Qed.
End finish.

Lemma balloc_ok s V : shadow s V →
  ∃ s', balloc (freeblock s) s = Ok () s' ∧ (∀ n, mk_disk s' n = V n) ∧ freeblock s' = freeblock s.
Proof.
  intros HS. pose proof (sh_range _ _ HS) as Hr. mknum. unfold balloc, assert.
  rewrite (proj2 (Z.ltb_lt _ _)) by (change BSIZE with 1024; lia). rewrite bind_ret. fold (bits (freeblock s)).
  rewrite bind_gets, (sh_sb _ _ HS), Nb. unfold wsect. rewrite sector by lia. eexists. split; [done|]. split; [|done].
  intros n. simpl. unfold supd. case_decide as Hn; [subst; by rewrite <- (sh_bmap _ _ HS)|]. symmetry. by apply (sh_disk _ _ HS).
Qed.

(** The start of [main]: the superblock and an empty root directory. *)
Definition empty_disk : Z → list Z := supd (supd (λ _, zeros) BMAP (bits nmeta)) 1 (sb_bytes the_sb).
Lemma boot_shadow s : (∀ n, mk_disk s n = zeroes) → mk_nsect s = FSSIZE → mk_sb s = the_sb → freeblock s = nmeta →
  shadow (wrote 1 (sb_bytes the_sb) s) empty_disk.
Proof.
  intros Hd Hn Hb Hf. mknum. unfold empty_disk. split; simpl; try done.
  - rewrite Hn. lia.
  - intros n Hne. unfold supd. repeat case_decide; try done; by rewrite Hd.
  - by rewrite Hf.
  - intros n. unfold supd. repeat case_decide; [done| |done]. apply bits_ok. change BPB with 8192. lia.
  - lia.
  - intros n Hr. rewrite !supd_ne by (unfold BMAP; lia). done.
Qed.

Lemma root_made s V : image_ok s V [] →
  ∃ s1 s2 s' V', ialloc T_DIR s = Ok ROOTINO s1 ∧ iappend ROOTINO (dirent ROOTINO [46]) s1 = Ok () s2 ∧
    iappend ROOTINO (dirent ROOTINO [46; 46]) s2 = Ok () s' ∧ image_ok s' V' (image_files []).
Proof.
  intros HI. destruct (ialloc_ok s V [] T_DIR HI) as (s1 & V1 & E1 & HI1); [done|done|]. rewrite !dirent_entry.
  destruct (iappend_ok s1 V1 _ 0 T_DIR [] (entry ROOTINO [46]) HI1 eq_refl) as (s2 & V2 & E2 & HI2); [by apply dent_bytes; repeat constructor|done|done|].
  destruct (iappend_ok s2 V2 _ 0 T_DIR (entry ROOTINO [46]) (entry ROOTINO [46; 46]) HI2 eq_refl) as (s3 & V3 & E3 & HI3); [by apply dent_bytes; repeat constructor|done|done|].
  by exists s1, s2, s3, V3.
Qed.

Lemma comes_all host args fs : Forall2 (comes_from host) args fs →
  Forall short fs ∧ Forall (λ f : mfile, Forall (λ b, 0 < b < 256) f.1) fs.
Proof.
  induction 1 as [|arg f args fs HC _ [IH1 IH2]]; [done|]. split; constructor; try done; [by eapply comes_short|by eapply comes_name].
Qed.

Lemma mounts_finish s V fs s1 s2 :
  image_ok s V (image_files fs) → Forall short fs → Forall (λ f : mfile, Forall (λ b, 0 < b < 256) f.1) fs →
  Z.of_nat (length fs) + 2 ≤ NINODES → shadow s1 (updated the_sb V (root' V fs)) → freeblock s1 = freeblock s →
  (∀ n, mk_disk s2 n = updated the_sb V (root' V fs) n) → mounts s2 (updated the_sb V (root' V fs)) fs.
Proof.
  intros HI Hs Hn Hl HS1 Hfb Hd. pose (W := updated the_sb V (root' V fs)). fold W in Hd |- *.
  destruct (updated_low V (root' V fs) ltac:(done)) as [L1 L2]. fold W in L1, L2. split; try done.
  - split; [|done]. rewrite L1, (im_super _ _ _ HI). reflexivity.
  - change (sb_logstart the_sb) with LOGSTART. rewrite L2, (im_log _ _ _ HI). reflexivity.
  - by apply (shadow_bitmap s1).
  - intros b Hb. rewrite (shadow_bit s1) by done. by rewrite Hfb, (im_used _ _ _ HI).
  - intros i Hi. unfold W. rewrite (finish_at s V fs HI Hs Hl) by lia. rewrite decide_False by (unfold ROOTINO; lia).
    apply HI. rewrite length_image_files. change (sb_ninodes the_sb) with NINODES in Hi. lia.
  - intros k nm c Hk x. destruct (finish_file s V fs HI Hs Hl s1 HS1 Hfb k T_FILE c) as [F1 F2 F3 F4 F5 F6].
    { simpl. by rewrite list_lookup_fmap, Hk. }
    split; [done|]. split; [apply F2|]. split; [apply F2|]. split; [done|]. intros o Ho. apply F4.
    pose proof (fk_size _ _ _ _ F1 : i_size x ≤ MAXFILE * BSIZE). lia.
  - intros i j n Hi Hj Hij Hn0. unfold W. rewrite !(finish_mine s V fs HI Hs Hl s1 HS1 Hfb) by done.
    pose proof (im_apart _ _ _ HI (Z.to_nat (i - 1)) (Z.to_nat (j - 1)) n) as HA. rewrite length_image_files in HA.
    replace (1 + Z.of_nat (Z.to_nat (i - 1))) with i in HA by lia. replace (1 + Z.of_nat (Z.to_nat (j - 1))) with j in HA by lia.
    apply HA; lia || done.
  - cbv zeta. unfold W. rewrite (finish_root s V fs HI Hs Hl). split; [by apply (finish_dir s V fs HI Hs Hl s1)|].
    apply root_dget; try done.
    + by apply (finish_fbyte s V fs HI s1).
    + by apply root_size_range.
Qed.

(** C11. [mkfs] makes a file system of the kernel: for any files of the host that fit, it
    runs to its end without a failed assertion, and in the image the kernel finds the superblock, an empty log, a bitmap that
    marks exactly the blocks in use, every file with its inode, its size and its bytes however
    the reads cut it, no block in two files, and under each name in the root directory the inode of
    the first file with that name.  The root directory is well formed unless its entries fill its
    last block, when its recorded size covers a block it does not have. *)
Theorem mkfs_spec host image args fs :
  Forall2 (comes_from host) args fs → Z.of_nat (length fs) + 2 ≤ NINODES → used (image_files fs) ≤ FSSIZE →
  ∃ s V, main host (image :: args) mk_start = Ok 0 s ∧ mounts s V fs.
Proof.
  intros HC Hl Hu. destruct (comes_all _ _ _ HC) as [Hs Hn]. unfold main. rewrite !bind_modify.
  destruct (clear_loop (set_freeblock nmeta (set_mk_sb the_sb (set_mk_nsect 0 (set_mk_disk (λ _, zeroes) mk_start)))))
    as (s1 & E1 & D1 & D2 & D3 & D4 & D5); [done|done|]. rewrite (bind_Ok _ _ _ _ _ E1).
  pose proof (boot_shadow s1 D1 D2 D3 D5) as HS. set (s2 := wrote 1 (sb_bytes the_sb) s1) in *.
  assert (wsect 1 (sb_bytes the_sb) s1 = Ok () s2) as E2 by (unfold wsect; rewrite sector by done; done). rewrite (bind_Ok _ _ _ _ _ E2).
  assert (image_ok s2 empty_disk []) as HI2.
  { apply empty_image; try done. intros n H1 H2. unfold empty_disk. by rewrite !supd_ne. }
  destruct (root_made s2 empty_disk HI2) as (sa & sb & s3 & V3 & Ea & Eb & E3 & HI3).
  destruct (add_files_ok host args fs HC s3 V3 [] HI3) as (s4 & V4 & E4 & HI4); [done|simpl; lia|done|]. rewrite app_nil_l in HI4.
  pose proof (im_shadow _ _ _ HI4) as HS4. set (x := root' V4 fs).
  destruct (winode_ok s4 V4 ROOTINO x HS4) as (s5 & E5 & HS5 & _ & Hfb); [done|done|apply (root_filed s4 V4 fs HI4)|].
  destruct (balloc_ok s5 _ HS5) as (s6 & E6 & Hd & _).
  exists s6, (updated the_sb V4 x). split; [|by eapply mounts_finish].
  rewrite (bind_Ok _ _ _ _ _ Ea), Z.eqb_refl. unfold assert at 1. rewrite bind_ret, (bind_Ok _ _ _ _ _ Eb), (bind_Ok _ _ _ _ _ E3), (bind_Ok _ _ _ _ _ E4).
  rewrite (bind_Ok _ _ _ _ _ (rinode_ok s4 V4 ROOTINO HS4 ltac:(done))). rewrite <- dinode_of_disk.
  pose proof (fd_size _ _ _ _ (root_filed s4 V4 fs HI4)) as Hsz. pose proof (root_size_range fs Hs Hl) as Hr.
  change (d_size (dinode_of (disk_inode V4 ROOTINO))) with (i_size (disk_inode V4 ROOTINO)). rewrite Hsz, xint_id by lia.
  fold (round_up (Z.of_nat (length (dir_bytes fs)))). fold (root_size fs). rewrite u32_id by lia.
  assert (set_din_size (root_size fs) (dinode_of (disk_inode V4 ROOTINO)) = dinode_of x) as ->.
  { unfold set_din_size. rewrite xint_id by lia. done. }
  rewrite (bind_Ok _ _ _ _ _ E5), bind_gets, (bind_Ok _ _ _ _ _ E6). done.
Qed.

(** Two files, the second read in two pieces. *)
Definition two_files (arg : list Z) : option (list (list Z)) :=
  if decide (arg = [117; 115; 101; 114; 47; 95; 97]) then Some [[104; 105]]
  else if decide (arg = [98]) then Some [[1; 2; 3]; [4]] else None.
Lemma mkfs_spec_witness :
  ∃ s V, main two_files [[102]; [117; 115; 101; 114; 47; 95; 97]; [98]] mk_start = Ok 0 s ∧
    mounts s V [([97], [104; 105]); ([98], [1; 2; 3; 4])].
Proof.
  apply mkfs_spec.
  - repeat constructor; try done.
    + by apply (bool_decide_unpack _).
    + exists [[104; 105]]. split; [done|]. split; [repeat (constructor; try (unfold is_byte; lia))|done].
    + by apply (bool_decide_unpack _).
    + exists [[1; 2; 3]; [4]]. split; [done|]. split; [repeat (constructor; try (unfold is_byte; lia))|done].
  - done.
  - done.
Defined.
