(* ===== verification/Uart.v ===== *)
(** * The serial port: operations

    The transmit half of [kernel/uart.c] and [uartgetc].  The device is part of
    the state: [u_sent] is the bytes written to [THR] so far, [u_rx] the bytes
    waiting in [RHR], and [u_idle] the answers the next reads of
    [LSR_TX_IDLE] will get; after those the transmitter is idle.  The model
    stops at [panic], so [panicked] is never set. *)

From stdpp Require Import options.
From S2P Require Import Prelude CString State Sched Sleeplock.
#[local] Open Scope Z_scope.

Definition UART_TX_BUF_SIZE : Z := 32.
Definition upd_uart (f : uart → uart) (s : kst) : kst := set_k_uart (f (k_uart s)) s.

(** [ReadReg(LSR) & LSR_TX_IDLE] *)
Definition lsr_tx_idle : K bool :=
  l ← gets (λ s, u_idle (k_uart s));
  modify (upd_uart (set_u_idle (tail l)));;
  mret (default true (head l)).
(** [WriteReg(THR, c)] *)
Definition write_thr (c : Z) : K unit :=
  modify (upd_uart (λ u, set_u_sent (u_sent u ++ [u8 c]) u)).

(** Transmission ends when the buffer is empty or the device is busy: at most
    [UART_TX_BUF_SIZE] bytes are sent. *)
Definition uartstart : K unit :=
  mloop (S (Z.to_nat UART_TX_BUF_SIZE)) (λ _ : unit,
    u ← gets k_uart;
    if u_tx_w u =? u_tx_r u then mret (inr ())
    else
      idle ← lsr_tx_idle;
      if negb idle then mret (inr ())
      else
        let c := default 0 (u_tx_buf u !! Z.to_nat (u_tx_r u mod UART_TX_BUF_SIZE)) in
        modify (upd_uart (λ u, set_u_tx_r (u64 (u_tx_r u + 1)) u));;
        wakeup (Some Ch_uart_tx_r);;
        write_thr c;;
        mret (inl ())) ().

Definition uartputc (c : Z) : K unit :=
  acquire LK_uart_tx;;
  mloop WAKEUPS (λ _ : unit,
    u ← gets k_uart;
    if u_tx_w u =? u64 (u_tx_r u + UART_TX_BUF_SIZE) then
      sleep Ch_uart_tx_r LK_uart_tx;;
      mret (inl ())
    else
      modify (upd_uart (λ u, set_u_tx_buf
        (<[Z.to_nat (u_tx_w u mod UART_TX_BUF_SIZE) := u8 c]> (u_tx_buf u)) u));;
      modify (upd_uart (λ u, set_u_tx_w (u64 (u_tx_w u + 1)) u));;
      uartstart;;
      release LK_uart_tx;;
      mret (inr ())) ().

(** [push_off] and [pop_off] around a wait for the device do not show in the
    list of held locks. *)
Definition uartputc_sync (c : Z) : K unit :=
  n ← gets (λ s, length (u_idle (k_uart s)));
  mloop (S n) (λ _ : unit,
    idle ← lsr_tx_idle;
    if idle : bool then mret (inr ()) else mret (inl ())) ();;
  write_thr c.

Definition uartgetc : K Z :=
  l ← gets (λ s, u_rx (k_uart s));
  match l with
  | c :: l => modify (upd_uart (set_u_rx l));; mret c
  | [] => mret (-1)
  end.
