(* ===== verification/Printf.v ===== *)
(** * Formatted output

    [kernel/printf.c] and [consputc] of [kernel/console.c], [procdump] of
    [kernel/proc.c].  A format is the list of its bytes, an argument is tagged
    with the type [va_arg] gives it.  [pr.locking] is set for as long as the
    model runs: only [panic] clears it. *)

From stdpp Require Import options.
From S2P Require Import Prelude CString State Sched Sleeplock Uart.
#[local] Open Scope Z_scope.

Definition BACKSPACE : Z := 0x100.
Definition consputc (c : Z) : K unit :=
  if c =? BACKSPACE then uartputc_sync 8;; uartputc_sync 32;; uartputc_sync 8
  else uartputc_sync c.

Fixpoint consputs (l : list Z) : K unit :=
  match l with
  | [] => mret ()
  | c :: l => consputc c;; consputs l
  end.

(** [digits[i]] *)
Definition digit (i : Z) : Z := if i <? 10 then 48 + i else 87 + i.
(** The [do ... while] of [printint]: the bytes of [buf] in the order they are
    stored, least significant digit first.  A 32-bit number has at most 32
    digits in any base from 2 on. *)
Fixpoint digits_rev (fuel : nat) (x base : Z) : list Z :=
  match fuel with
  | O => []
  | S fuel =>
    digit (x mod base) :: (if x / base =? 0 then [] else digits_rev fuel (x / base) base)
  end.
(** The characters [printint] prints. *)
Definition printint_chars (xx base : Z) (sign : bool) : list Z :=
  let neg := sign && (xx <? 0) in
  let x := u32 (if neg then - xx else xx) in
  let buf := digits_rev 32 x base in
  rev (buf ++ (if neg then [45] else [])).
Definition printint (xx base : Z) (sign : bool) : K unit :=
  consputs (printint_chars xx base sign).

(** The hex digits [printptr] prints, from the most significant one. *)
Fixpoint ptr_digits (n : nat) (x : Z) : list Z :=
  match n with
  | O => []
  | S n => digit (Z.shiftr x 60) :: ptr_digits n (u64 (Z.shiftl x 4))
  end.
Definition printptr (x : Z) : K unit :=
  consputc 48;;
  consputc 120;;
  consputs (ptr_digits 16 x).

Inductive arg := A_int (x : Z) | A_uint64 (x : Z) | A_str (s : option (list Z)).
Definition arg_z (a : option arg) : Z :=
  match a with Some (A_int x) | Some (A_uint64 x) => x | _ => 0 end.
Definition arg_s (a : option arg) : list Z :=
  match a with
  | Some (A_str (Some l)) => l
  | _ => [40; 110; 117; 108; 108; 41]
  end.

(** One conversion, [%c], on the next argument; and whether it used it. *)
Definition convert (c : Z) (a : option arg) : K bool :=
  if c =? 100 then printint (arg_z a) 10 true;; mret true
  else if c =? 120 then printint (arg_z a) 16 true;; mret true
  else if c =? 112 then printptr (arg_z a);; mret true
  else if c =? 115 then consputs (arg_s a);; mret true
  else if c =? 37 then consputc 37;; mret false
  else consputc 37;; consputc c;; mret false.

Fixpoint format (fmt : list Z) (args : list arg) : K unit :=
  match fmt with
  | [] => mret ()
  | c :: fmt' =>
    if negb (c =? 37) then consputc c;; format fmt' args
    else match fmt' with
         | [] => mret ()
         | c :: fmt'' =>
           used ← convert c (head args);
           format fmt'' (if used : bool then tail args else args)
         end
  end.

Definition printf (fmt : list Z) (args : list arg) : K unit :=
  acquire LK_pr;;
  format fmt args;;
  release LK_pr.

(** The bytes of a string literal. *)
Definition lit (s : string) : list Z :=
  map (λ c, Z.of_N (Ascii.N_of_ascii c)) (String.list_ascii_of_string s).
(** The bytes of a [char] array up to its terminator. *)
Fixpoint cbytes (l : list Z) : list Z :=
  match l with
  | [] => []
  | c :: l => if c =? 0 then [] else c :: cbytes l
  end.

(** [states[]] of [procdump]; [USED] has no entry. *)
Definition state_name (st : procstate) : list Z :=
  lit match st with
      | UNUSED => "unused" | USED => "???" | SLEEPING => "sleep " | RUNNABLE => "runble"
      | RUNNING => "run   " | ZOMBIE => "zombie"
      end.
Definition newline : list Z := [10].
Definition procdump : K unit :=
  printf newline [];;
  mfor NPROC 0 (λ i,
    p ← gets (λ s, proc_of s (Z.to_nat i));
    when (negb (bool_decide (p_state p = UNUSED)))
      (printf (lit "%d %s %s")
         [A_int (p_pid p); A_str (Some (state_name (p_state p))); A_str (Some (cbytes (p_name p)))];;
       printf newline [])).
