(* ===== verification/PrintSpec.v ===== *)
(** * What the kernel prints

    [printf] and its helpers send characters to the serial port and change
    nothing else; [printint] prints the number it is given. *)

From stdpp Require Import options.
From S2P Require Import Prelude CString State Sched Sleeplock Uart Printf.
#[local] Open Scope Z_scope.

(** ** Output *)

(** The characters [l] have been sent; only the transmitter was used. *)
Record printed (l : list Z) (s s' : kst) : Prop := {
  pr_st : s' = set_k_uart (k_uart s') s;
  pr_sent : u_sent (k_uart s') = u_sent (k_uart s) ++ l;
  pr_buf : u_tx_buf (k_uart s') = u_tx_buf (k_uart s);
  pr_w : u_tx_w (k_uart s') = u_tx_w (k_uart s);
  pr_r : u_tx_r (k_uart s') = u_tx_r (k_uart s);
  pr_rx : u_rx (k_uart s') = u_rx (k_uart s);
}.
Lemma printed_nil s : printed [] s s.
Proof. split; try done; [by destruct s|]. by rewrite app_nil_r. Qed.
Lemma printed_app l l' s1 s2 s3 : printed l s1 s2 → printed l' s2 s3 → printed (l ++ l') s1 s3.
Proof.
  intros [A1 A2 A3 A4 A5 A6] [B1 B2 B3 B4 B5 B6]. split; try congruence.
  - rewrite B1, A1. done.
  - by rewrite B2, A2, app_assoc.
Qed.
Definition prints (m : K unit) (l : list Z) : Prop :=
  ∀ s, ∃ s', m s = Ok () s' ∧ printed l s s'.

Lemma prints_ret : prints (mret ()) [].
Proof. intros s. exists s. split; [done|apply printed_nil]. Qed.
Lemma prints_seq m m' l l' : prints m l → prints m' l' → prints (m;; m') (l ++ l').
Proof.
  intros H H' s. destruct (H s) as (s1 & E1 & P1). destruct (H' s1) as (s2 & E2 & P2).
  exists s2. rewrite (bind_Ok _ _ _ _ _ E1). split; [done|by eapply printed_app].
Qed.

Lemma lsr_tx_idle_Ok s :
  lsr_tx_idle s = Ok (default true (head (u_idle (k_uart s))))
    (upd_uart (set_u_idle (tail (u_idle (k_uart s)))) s).
Proof. done. Qed.
Lemma printed_idle l s : printed [] s (upd_uart (set_u_idle l) s).
Proof. split; try done. simpl. by rewrite app_nil_r. Qed.
Lemma uartputc_sync_prints c : prints (uartputc_sync c) [u8 c].
Proof.
  intros s. unfold uartputc_sync. mstep.
  assert (∀ l (s : kst), u_idle (k_uart s) = l → ∃ s', mloop (S (length l)) (λ _ : unit,
      idle ← lsr_tx_idle; if idle : bool then mret (inr ()) else mret (inl ())) () s = Ok () s'
    ∧ printed [] s s') as HL.
  { induction l as [|b l IH]; intros s0 Hl; pose proof (lsr_tx_idle_Ok s0) as Ei;
      rewrite Hl in Ei; [|destruct b].
    - eexists. split; [apply mloop_done; by rewrite (bind_Ok _ _ _ _ _ Ei)|apply printed_idle].
    - eexists. split; [apply mloop_done; by rewrite (bind_Ok _ _ _ _ _ Ei)|apply printed_idle].
    - destruct (IH (upd_uart (set_u_idle l) s0) eq_refl) as (s' & E & HP). exists s'. split.
      + cbn [length]. erewrite mloop_next; [exact E|]. by rewrite (bind_Ok _ _ _ _ _ Ei).
      + apply (printed_app [] [] _ _ _ (printed_idle l s0) HP). }
  destruct (HL _ s eq_refl) as (s1 & E & HP). erewrite bind_Ok by exact E.
  eexists. split; [reflexivity|]. rewrite <- (app_nil_l [u8 c]).
  eapply printed_app; [exact HP|]. by split.
Qed.

(** What [consputc] sends for a character. *)
Definition con_chars (c : Z) : list Z := if c =? BACKSPACE then [8; 32; 8] else [u8 c].
Lemma consputc_prints c : prints (consputc c) (con_chars c).
Proof.
  unfold consputc, con_chars. destruct (c =? BACKSPACE); [|apply uartputc_sync_prints].
  change [8; 32; 8] with ([8] ++ [32] ++ [8]).
  apply prints_seq; [apply (uartputc_sync_prints 8)|].
  apply prints_seq; [apply (uartputc_sync_prints 32)|apply (uartputc_sync_prints 8)].
Qed.
Fixpoint chars (l : list Z) : list Z :=
  match l with
  | [] => []
  | c :: l => con_chars c ++ chars l
  end.
Lemma chars_app l l' : chars (l ++ l') = chars l ++ chars l'.
Proof. induction l as [|c l IH]; simpl; [done|]. by rewrite IH, app_assoc. Qed.
Lemma chars_bytes l : Forall is_byte l → chars l = l.
Proof.
  induction 1 as [|c l Hc Hl IH]; [done|]. simpl. rewrite IH.
  unfold con_chars, BACKSPACE. unfold is_byte in Hc. destruct (Z.eqb_spec c 256); [lia|].
  by rewrite u8_id.
Qed.
Lemma consputs_prints l : prints (consputs l) (chars l).
Proof.
  induction l as [|c l IH]; [apply prints_ret|]. apply prints_seq; [apply consputc_prints|exact IH].
Qed.

(** What [printf] prints. *)
Definition convert_chars (c : Z) (a : option arg) : list Z * bool :=
  if c =? 100 then (printint_chars (arg_z a) 10 true, true)
  else if c =? 120 then (printint_chars (arg_z a) 16 true, true)
  else if c =? 112 then (48 :: 120 :: ptr_digits 16 (arg_z a), true)
  else if c =? 115 then (arg_s a, true)
  else if c =? 37 then ([37], false)
  else ([37; c], false).
Fixpoint format_chars (fmt : list Z) (args : list arg) : list Z :=
  match fmt with
  | [] => []
  | c :: fmt' =>
    if negb (c =? 37) then c :: format_chars fmt' args
    else match fmt' with
         | [] => []
         | c :: fmt'' =>
           let r := convert_chars c (head args) in
           r.1 ++ format_chars fmt'' (if r.2 then tail args else args)
         end
  end.

Lemma convert_run c a s :
  ∃ s', convert c a s = Ok (convert_chars c a).2 s' ∧ printed (chars (convert_chars c a).1) s s'.
Proof.
  assert (∀ m l (b : bool), prints m (chars l) →
    ∃ s', (m;; mret b) s = Ok b s' ∧ printed (chars l) s s') as H.
  { intros m l b Hm. destruct (Hm s) as (s' & E & HP). exists s'.
    by rewrite (bind_Ok _ _ _ _ _ E). }
  unfold convert, convert_chars.
  destruct (c =? 100); [apply H, consputs_prints|].
  destruct (c =? 120); [apply H, consputs_prints|].
  destruct (c =? 112).
  { destruct (prints_seq _ _ _ _ (consputc_prints 48)
      (prints_seq _ _ _ _ (consputc_prints 120) (consputs_prints (ptr_digits 16 (arg_z a)))) s)
      as (s' & E & HP). exists s'. unfold printptr. by rewrite (bind_Ok _ _ _ _ _ E). }
  destruct (c =? 115); [apply H, consputs_prints|].
  destruct (c =? 37); [apply (H _ [37]), (consputc_prints 37)|].
  destruct (consputc_prints 37 s) as (s1 & E1 & P1).
  destruct (consputc_prints c s1) as (s2 & E2 & P2). exists s2.
  erewrite bind_Ok by exact E1. erewrite bind_Ok by exact E2. split; [done|].
  simpl. rewrite app_nil_r. by apply (printed_app [37] _ s s1).
Qed.

Lemma format_prints n : ∀ fmt args, (length fmt ≤ n)%nat →
  prints (format fmt args) (chars (format_chars fmt args)).
Proof.
  induction n as [|n IH]; intros fmt args Hn.
  { destruct fmt; simpl in Hn; [apply prints_ret|lia]. }
  destruct fmt as [|c fmt]; [apply prints_ret|]. simpl in Hn. cbn [format format_chars].
  destruct (c =? 37); cbn [negb].
  2:{ apply prints_seq; [apply consputc_prints|]. apply IH. lia. }
  destruct fmt as [|c' fmt]; [apply prints_ret|]. simpl in Hn. intros s.
  destruct (convert_run c' (head args) s) as (s1 & E1 & P1).
  destruct (IH fmt (if (convert_chars c' (head args)).2 then tail args else args)
    ltac:(lia) s1) as (s2 & E2 & P2).
  exists s2. rewrite (bind_Ok _ _ _ _ _ E1). split; [done|].
  rewrite chars_app. by eapply printed_app.
Qed.
Lemma printf_run fmt args s :
  LK_pr ∉ k_held s → ∃ s', printf fmt args s = Ok () s' ∧ printed (chars (format_chars fmt args)) s s'.
Proof.
  intros Hh. unfold printf. rewrite bind_acquire by done.
  set (s0 := set_k_held (LK_pr :: k_held s) s).
  destruct (format_prints _ fmt args (Nat.le_refl _) s0) as (s1 & E & HP).
  rewrite (bind_Ok _ _ _ _ _ E). destruct HP as [A1 A2 A3 A4 A5 A6].
  rewrite (release_top _ (k_held s)) by (rewrite A1; done).
  eexists. split; [done|]. split; try done. rewrite A1. unfold s0. by kst_eq.
Qed.

(** ** Numbers *)

(** The value of a string of digits, and of a signed number. *)
Definition digit_val (c : Z) : Z := if c <? 58 then c - 48 else c - 87.
Fixpoint digits_val (base acc : Z) (l : list Z) : Z :=
  match l with
  | [] => acc
  | c :: l => digits_val base (acc * base + digit_val c) l
  end.
Definition number_val (base : Z) (l : list Z) : Z :=
  match l with
  | 45 :: l => - digits_val base 0 l
  | l => digits_val base 0 l
  end.

Lemma digit_val_digit i : 0 ≤ i < 16 → digit_val (digit i) = i ∧ 48 ≤ digit i < 103 .
Proof.
  intros Hi. unfold digit, digit_val. destruct (Z.ltb_spec i 10).
  - destruct (Z.ltb_spec (48 + i) 58); lia.
  - destruct (Z.ltb_spec (87 + i) 58); lia.
Qed.
Lemma digits_val_app base acc l l' :
  digits_val base acc (l ++ l') = digits_val base (digits_val base acc l) l'.
Proof. revert acc; induction l as [|c l IH]; intros acc; simpl; [done|apply IH]. Qed.

(** [k] digits are enough for a number below [base ^ k]. *)
Lemma digits_rev_val base x k fuel :
  2 ≤ base ≤ 16 → 0 ≤ x < base ^ Z.of_nat k → (0 < k ≤ fuel)%nat →
  digits_val base 0 (rev (digits_rev fuel x base)) = x ∧
  (0 < length (digits_rev fuel x base) ≤ k)%nat ∧
  Forall (λ c, 48 ≤ c < 103) (digits_rev fuel x base).
Proof.
  intros Hb. revert x fuel. induction k as [|k IH]; intros x fuel Hx Hf; [lia|].
  destruct fuel as [|fuel]; [lia|]. cbn [digits_rev rev].
  pose proof (Z.mod_pos_bound x base ltac:(lia)) as Hm.
  destruct (digit_val_digit (x mod base) ltac:(lia)) as [Hd Hc].
  pose proof (Z.div_mod x base ltac:(lia)) as Hdm.
  destruct (Z.eqb_spec (x / base) 0) as [Hz|Hz].
  - simpl. rewrite Hd. split; [lia|]. split; [lia|]. repeat constructor; lia.
  - assert (0 ≤ x / base < base ^ Z.of_nat k) as Hx'.
    { split; [apply Z.div_pos; lia|]. apply Z.div_lt_upper_bound; [lia|].
      rewrite Nat2Z.inj_succ, Z.pow_succ_r in Hx by lia. lia. }
    assert (0 < k)%nat as Hk by (destruct k; simpl in Hx'; lia).
    destruct (IH (x / base) fuel Hx' ltac:(lia)) as (V & L & F).
    rewrite digits_val_app, V. simpl. rewrite Hd. split; [lia|]. split; [lia|].
    by constructor.
Qed.

Lemma number_val_digits base l :
  Forall (λ c, 48 ≤ c < 103) l → number_val base l = digits_val base 0 l.
Proof.
  intros H. destruct l as [|c l]; [done|]. apply Forall_cons in H as [H _].
  unfold number_val. destruct c as [|c|c]; try lia. do 7 (destruct c as [c|c|]; try lia; try done).
Qed.
Lemma number_val_neg base l : number_val base (45 :: l) = - digits_val base 0 l.
Proof. done. Qed.

Lemma printint_chars_val xx base sign :
  base = 10 ∨ base = 16 → - 2 ^ 31 ≤ xx < 2 ^ 31 →
  number_val base (printint_chars xx base sign) = (if sign then xx else u32 xx) ∧
  (0 < length (printint_chars xx base sign) ≤ 16)%nat ∧
  Forall is_byte (printint_chars xx base sign).
Proof.
  intros Hb Hx. unfold printint_chars.
  set (neg := sign && (xx <? 0)). set (x := u32 (if neg then - xx else xx)).
  assert (0 ≤ x < base ^ Z.of_nat 10) as Hr.
  { pose proof (u32_range (if neg then - xx else xx)). fold x in H.
    destruct Hb as [-> | ->]; simpl; lia. }
  destruct (digits_rev_val base x 10 32 ltac:(lia) Hr ltac:(lia)) as (V & L & F).
  set (d := digits_rev 32 x base) in *.
  assert (Forall (λ c, 48 ≤ c < 103) (rev d)) as F' by (by apply Forall_rev).
  assert (Forall is_byte (rev d)) as FB.
  { eapply Forall_impl; [exact F'|]. unfold is_byte. simpl. lia. }
  destruct neg eqn:En; subst neg.
  - apply andb_prop in En as [-> Hn%Z.ltb_lt]. rewrite rev_app_distr. cbn [rev app].
    rewrite number_val_neg, V. split; [|split].
    + subst x. rewrite u32_id by lia. lia.
    + cbn [length]. rewrite length_rev. lia.
    + constructor; [unfold is_byte; lia|exact FB].
  - rewrite app_nil_r, number_val_digits, V by done. split; [|split; [rewrite length_rev; lia|done]].
    subst x. apply andb_false_iff in En as [-> | Hn%Z.ltb_ge]; [done|].
    rewrite u32_id by lia. by destruct sign.
Qed.

(** ** Property *)

(** C39. [printint] in base 10 or 16 sends to the serial port the digits
    of its argument and nothing else, for every [int] including the
    smallest one: read back, the characters are the number (its unsigned value when
    [sign] is 0).  They are at most 16, so the array [buf] never overflows. *)
Theorem printint_roundtrip xx base sign s :
  base = 10 ∨ base = 16 → - 2 ^ 31 ≤ xx < 2 ^ 31 →
  ∃ l s', printint xx base sign s = Ok () s' ∧ printed l s s' ∧
    number_val base l = (if sign then xx else u32 xx) ∧ (0 < length l ≤ 16)%nat.
Proof.
  intros Hb Hx. destruct (printint_chars_val xx base sign Hb Hx) as (V & L & F).
  destruct (consputs_prints (printint_chars xx base sign) s) as (s' & E & HP).
  rewrite chars_bytes in HP by done. by exists (printint_chars xx base sign), s'.
Qed.
Lemma printint_roundtrip_witness :
  ∃ l s', printint (- 2 ^ 31) 10 true kst0 = Ok () s' ∧ printed l kst0 s' ∧
    number_val 10 l = - 2 ^ 31 ∧ (0 < length l ≤ 16)%nat.
Proof.
  apply (printint_roundtrip (- 2 ^ 31) 10 true kst0); [left; reflexivity|lia].
Defined.
