(* ===== verification/UartSpec.v ===== *)
(** * The serial port sends bytes in order

    The transmit buffer is a queue of at most 32 bytes, with 64-bit
    counters.  Bytes are sent in the order [uartputc] was called with them, none
    is lost, and sending stops only when the queue is empty or the device busy. *)

From stdpp Require Import options.
From S2P Require Import Prelude CString Ring State Sched Sleeplock Uart Printf PrintSpec.
#[local] Open Scope Z_scope.

Record uart_ok (u : uart) (q : list Z) : Prop := {
  uo_ring : ring UART_TX_BUF_SIZE (u_tx_buf u) (u_tx_r u) q;
  uo_r : 0 ≤ u_tx_r u < 2 ^ 64;
  uo_w : u_tx_w u = u64 (u_tx_r u + Z.of_nat (length q));
}.
Lemma TX_pos : 0 < UART_TX_BUF_SIZE.
Proof. done. Qed.
Lemma u64_tx z : u64 z mod UART_TX_BUF_SIZE = z mod UART_TX_BUF_SIZE.
Proof.
  unfold u64, UART_TX_BUF_SIZE. rewrite (Z.mod_eq z (2 ^ 64)) by lia.
  replace (z - 2 ^ 64 * (z / 2 ^ 64)) with (z + (- 2 ^ 59 * (z / 2 ^ 64)) * 32) by lia.
  by rewrite Z.mod_add by lia.
Qed.
Lemma u64_add a b : u64 (u64 a + b) = u64 (a + b).
Proof. unfold u64. by rewrite Z.add_mod_idemp_l by lia. Qed.
Lemma u64_inj a b c :
  0 ≤ b < 2 ^ 64 → 0 ≤ c < 2 ^ 64 → u64 (a + b) = u64 (a + c) → b = c.
Proof.
  intros Hb Hc E. assert (∀ b, 0 ≤ b < 2 ^ 64 → u64 (u64 (a + b) - a) = b) as H.
  { intros x Hx. unfold u64. rewrite Zminus_mod_idemp_l.
    replace (a + x - a) with x by lia. by apply Z.mod_small. }
  by rewrite <- (H b), E, H.
Qed.

Lemma uart_empty u q : uart_ok u q → (u_tx_w u =? u_tx_r u) = bool_decide (q = []).
Proof.
  intros [[_ Hc _] Hr Hw]. unfold UART_TX_BUF_SIZE in Hc. rewrite Hw.
  apply eq_true_iff_eq. rewrite Z.eqb_eq, bool_decide_eq_true. split.
  - intros E. destruct q; [done|]. exfalso.
    assert (u64 (u_tx_r u + Z.of_nat (length (z :: q))) = u64 (u_tx_r u + 0)) as E'.
    { rewrite E, Z.add_0_r. symmetry. by apply u64_id. }
    apply u64_inj in E'; simpl length in *; lia.
  - intros ->. simpl. rewrite Z.add_0_r. by apply u64_id.
Qed.
Lemma uart_full u q :
  uart_ok u q → (u_tx_w u =? u64 (u_tx_r u + UART_TX_BUF_SIZE)) = bool_decide (length q = 32%nat).
Proof.
  intros [[_ Hc _] Hr Hw]. unfold UART_TX_BUF_SIZE in *. rewrite Hw.
  apply eq_true_iff_eq. rewrite Z.eqb_eq, bool_decide_eq_true. split.
  - intros E. apply u64_inj in E; lia.
  - intros ->. done.
Qed.
Lemma uart_take u c q :
  uart_ok u (c :: q) →
  default 0 (u_tx_buf u !! Z.to_nat (u_tx_r u mod UART_TX_BUF_SIZE)) = c ∧
  ∀ u', u_tx_buf u' = u_tx_buf u → u_tx_w u' = u_tx_w u → u_tx_r u' = u64 (u_tx_r u + 1) →
    uart_ok u' q.
Proof.
  intros [H1 H2 H3]. split.
  - pose proof (ring_head _ TX_pos _ _ _ _ H1) as E. unfold cell in E. by rewrite E.
  - intros u' E1 E2 E3. split; rewrite ?E1, ?E2, ?E3.
    + apply (ring_start _ TX_pos _ (u_tx_r u + 1)); [by rewrite u64_tx|].
      by apply (ring_tail _ TX_pos _ _ c).
    + apply u64_range.
    + rewrite H3, u64_add. f_equal. simpl. lia.
Qed.

(** ** Sending *)

Lemma wake_twice ch s : woken ch (woken ch s) = woken ch s.
Proof.
  unfold woken. kst_eq. apply list_eq. intros i. rewrite !list_lookup_imap.
  destruct (k_procs s !! i) as [x|]; [|done]. simpl. f_equal. unfold wake_proc.
  by repeat (case_decide; simpl in *; try tauto).
Qed.

(** The bytes [q1] have been sent, and those waiting for room woken. *)
Record sent (q1 : list Z) (s s' : kst) : Prop := {
  st_st : s' = set_k_uart (k_uart s') (if bool_decide (q1 = []) then s else woken (Some Ch_uart_tx_r) s);
  st_sent : u_sent (k_uart s') = u_sent (k_uart s) ++ q1;
  st_rx : u_rx (k_uart s') = u_rx (k_uart s);
}.

Definition start_body : unit → K (unit + unit) := λ _ : unit,
    u ← gets k_uart;
    if u_tx_w u =? u_tx_r u then mret (inr ())
    else
      idle ← lsr_tx_idle;
      if negb idle then mret (inr ())
      else
        let c := default 0 (u_tx_buf u !! Z.to_nat (u_tx_r u mod UART_TX_BUF_SIZE)) in
        modify (upd_uart (λ u, set_u_tx_r (u64 (u_tx_r u + 1)) u));;
        wakeup (Some Ch_uart_tx_r);;
        write_thr c;;
        mret (inl ()).
Lemma uartstart_eq : uartstart = mloop (S (Z.to_nat UART_TX_BUF_SIZE)) start_body ().
Proof. done. Qed.

(** Why sending stopped: all is sent, or the device was not idle. *)
Definition stopped (q1 q2 : list Z) (s s' : kst) : Prop :=
  q2 = [] ∨ u_idle (k_uart s) = replicate (length q1) true ++ false :: u_idle (k_uart s').

Lemma start_step_send c q s :
  uart_ok (k_uart s) (c :: q) → head (u_idle (k_uart s)) ≠ Some false →
  no_plock s → length (k_procs s) = NPROC →
  ∃ s', start_body () s = Ok (inl ()) s' ∧ uart_ok (k_uart s') q ∧ sent [u8 c] s s' ∧
    u_idle (k_uart s') = tail (u_idle (k_uart s)).
Proof.
  intros H Hi Hnp Hlen. destruct (uart_take _ _ _ H) as [Ec Hq]. unfold start_body. rewrite bind_gets.
  rewrite (uart_empty _ _ H), bool_decide_false by done.
  erewrite bind_Ok by apply lsr_tx_idle_Ok.
  assert (default true (head (u_idle (k_uart s))) = true) as ->.
  { destruct (head (u_idle (k_uart s))) as [[]|]; done. }
  cbn [negb]. rewrite bind_modify, bind_wakeup by done. rewrite Ec. unfold write_thr.
  rewrite bind_modify. eexists. split; [reflexivity|]. split; [by apply Hq|].
  split; [|done]. by split.
Qed.

Lemma sent_cons c q s1 s2 s3 : sent [c] s1 s2 → sent q s2 s3 → sent (c :: q) s1 s3.
Proof.
  intros [A1 A2 A3] [B1 B2 B3]. split; [|by rewrite B2, A2, <- app_assoc|congruence].
  rewrite bool_decide_false in A1 |- * by done. rewrite B1.
  case_bool_decide; [by rewrite A1|]. rewrite A1. simpl.
  unfold woken at 1. simpl. rewrite <- (wake_twice (Some Ch_uart_tx_r) s1) at 2. done.
Qed.

Lemma uartstart_loop q : ∀ fuel s,
  uart_ok (k_uart s) q → (length q < fuel)%nat → Forall is_byte q →
  no_plock s → length (k_procs s) = NPROC →
  ∃ q1 q2 s', mloop fuel start_body () s = Ok () s' ∧ q = q1 ++ q2 ∧
    uart_ok (k_uart s') q2 ∧ sent q1 s s' ∧ stopped q1 q2 s s'.
Proof.
  induction q as [|c q IH]; intros fuel s H Hf Hb Hnp Hlen; (destruct fuel as [|fuel]; [lia|]).
  { exists [], [], s. split.
    { apply mloop_done. unfold start_body. mstep. by rewrite (uart_empty _ _ H), bool_decide_true. }
    split; [done|]. split; [done|]. split; [|by left].
    split; [by destruct s|by rewrite app_nil_r|done]. }
  destruct (decide (head (u_idle (k_uart s)) = Some false)) as [Hi|Hi].
  - exists [], (c :: q), (upd_uart (set_u_idle (tail (u_idle (k_uart s)))) s). split.
    { apply mloop_done. unfold start_body. rewrite bind_gets.
      rewrite (uart_empty _ _ H), bool_decide_false by done.
      erewrite bind_Ok by apply lsr_tx_idle_Ok. by rewrite Hi. }
    split; [done|]. split; [by destruct H|]. split.
    + split; [done|by rewrite app_nil_r|done].
    + right. simpl. destruct (u_idle (k_uart s)) as [|b l]; [done|]. by injection Hi as ->.
  - apply Forall_cons in Hb as [Hc Hb].
    destruct (start_step_send c q s H Hi Hnp Hlen) as (s1 & E1 & H1 & S1 & I1).
    rewrite u8_id in S1 by done.
    assert (s1 = set_k_uart (k_uart s1) (woken (Some Ch_uart_tx_r) s)) as Es1.
    { rewrite (st_st _ _ _ S1) at 1. done. }
    destruct (IH fuel s1 H1) as (q1 & q2 & s' & E & Eq & H' & S' & St);
      [simpl in Hf; lia|done|rewrite Es1; done|rewrite Es1; simpl; by rewrite length_imap|].
    exists (c :: q1), q2, s'. rewrite (mloop_next _ _ _ _ _ _ E1). split; [done|].
    split; [by rewrite Eq|]. split; [done|]. split; [by eapply sent_cons|].
    destruct St as [St|St]; [by left|]. rewrite I1 in St.
    destruct (u_idle (k_uart s)) as [|b l] eqn:El; simpl in St.
    + by destruct q1.
    + right. rewrite El. destruct b; [by rewrite St|done].
Qed.

Lemma uartstart_run q s :
  uart_ok (k_uart s) q → Forall is_byte q → no_plock s → length (k_procs s) = NPROC →
  ∃ q1 q2 s', uartstart s = Ok () s' ∧ q = q1 ++ q2 ∧
    uart_ok (k_uart s') q2 ∧ sent q1 s s' ∧ stopped q1 q2 s s'.
Proof.
  intros H Hb Hnp Hlen. rewrite uartstart_eq. apply uartstart_loop; try done.
  pose proof (ring_cap _ _ _ _ (uo_ring _ _ H)) as Hc. unfold UART_TX_BUF_SIZE in *. lia.
Qed.

(** ** Property *)

(** The bytes given to [uartputc] reach the device in order and none
    is lost: with room in the buffer, the queue with the new byte appended is
    split into the part sent now and the part still queued, and
    sending stopped only because nothing is left or the device was busy; with
    32 bytes queued the caller sleeps until there is room. *)
Theorem uartputc_fifo c p s q :
  uart_ok (k_uart s) q → Forall is_byte q → k_cur s = Some p → (p < NPROC)%nat →
  k_held s = [] → length (k_procs s) = NPROC →
  if bool_decide (length q = 32%nat)
  then ∃ k, uartputc c s = Yield (asleep p Ch_uart_tx_r s) k
  else ∃ q1 q2 s', uartputc c s = Ok () s' ∧ q ++ [u8 c] = q1 ++ q2 ∧
    uart_ok (k_uart s') q2 ∧ sent q1 s s' ∧ stopped q1 q2 s s'.
Proof.
  intros H Hb Hc Hp Hh Hlen. unfold uartputc. rewrite bind_acquire by (rewrite Hh; set_solver).
  rewrite Hh. change WAKEUPS with (S 63). generalize 63%nat as f. intros f.
  set (s0 := set_k_held [LK_uart_tx] s).
  pose proof (uart_full _ _ H) as Hfull. case_bool_decide as Hf.
  - destruct (sleep_yields Ch_uart_tx_r LK_uart_tx p s0) as (k & E & _); [done|simpl; lia|done|done|].
    eexists. apply mloop_yields. rewrite bind_gets. change (k_uart s0) with (k_uart s).
    rewrite Hfull. by apply bind_yields.
  - set (u1 := set_u_tx_w (u64 (u_tx_w (k_uart s) + 1)) (set_u_tx_buf
      (<[Z.to_nat (u_tx_w (k_uart s) mod UART_TX_BUF_SIZE) := u8 c]> (u_tx_buf (k_uart s)))
      (k_uart s))).
    pose proof (ring_cap _ _ _ _ (uo_ring _ _ H)) as Hcap. unfold UART_TX_BUF_SIZE in Hcap.
    assert (uart_ok u1 (q ++ [u8 c])) as H1.
    { destruct H as [A1 A2 A3]. split; simpl; [|done|].
      - apply ring_put; [done..|unfold UART_TX_BUF_SIZE; lia|]. rewrite A3. apply u64_tx.
      - rewrite A3, u64_add, length_app. f_equal. simpl. lia. }
    destruct (uartstart_run (q ++ [u8 c]) (set_k_uart u1 s0)) as (q1 & q2 & s' & E & Eq & H2 & S & St).
    { done. } { apply Forall_app. split; [done|]. repeat constructor; apply u8_range. }
    { intros i. simpl. set_solver. } { done. }
    exists q1, q2, (set_k_held [] s'). split; [|split; [done|split; [done|split; [|done]]]].
    + apply mloop_done. rewrite bind_gets. change (k_uart s0) with (k_uart s). rewrite Hfull.
      rewrite bind_modify, bind_modify. erewrite bind_Ok by exact E.
      rewrite (bind_release _ []); [done|]. rewrite (st_st _ _ _ S). by case_bool_decide.
    + destruct S as [S1 S2 S3]. split; [|done|done]. simpl. rewrite S1.
      case_bool_decide; by kst_eq.
Qed.

(** Two bytes queued where the counters wrap, and a device that takes one. *)
Definition uart_wrap : uart :=
  Uart (replicate 32 65) 1 (2 ^ 64 - 1) [] [] [true; false].
Lemma uart_wrap_ok : uart_ok uart_wrap [65; 65].
Proof.
  split; [|done|done]. split; [done|done|]. intros i Hi. simpl in Hi.
  assert (i = 0 ∨ i = 1) as [-> | ->] by lia; done.
Qed.
Lemma uartputc_fifo_witness :
  ∃ q1 q2 s', uartputc 66 (set_k_uart uart_wrap (set_k_cur (Some 2%nat) kst0)) = Ok () s' ∧
    [65; 65; 66] = q1 ++ q2.
Proof.
  destruct (uartputc_fifo 66 2 (set_k_uart uart_wrap (set_k_cur (Some 2%nat) kst0)) [65; 65])
    as (q1 & q2 & s' & E & Eq & _);
    [exact uart_wrap_ok|repeat constructor; lia|reflexivity|unfold NPROC; lia
    |reflexivity|reflexivity|].
  exists q1, q2, s'. split; [exact E|exact Eq].
Defined.
