(* ===== verification/Console.v ===== *)
(** * The console: operations

    [kernel/console.c] and the interrupt half of [kernel/uart.c].  The line
    buffer is a ring of [INPUT_BUF] bytes indexed by the 32-bit counters [r],
    [w] and [e]. *)

From stdpp Require Import options.
From S2P Require Import Prelude CString State Sched Sleeplock Kalloc Vm Copy Uart Printf.
#[local] Open Scope Z_scope.

Definition INPUT_BUF : Z := 128.
(** [C(x)] *)
Definition CTRL (x : Z) : Z := x - 64.
Definition upd_cons (f : console → console) (s : kst) : kst := set_k_cons (f (k_cons s)) s.
Definition cons_at (c : console) (i : Z) : Z := default 0 (c_buf c !! Z.to_nat (i mod INPUT_BUF)).

(** The local variable [c] of [consolewrite]. *)
Definition L_ch : Z := 0x130.

Fixpoint consolewrite_loop (fuel : nat) (user_src : bool) (src n i : Z) : K Z :=
  match fuel with
  | O => mret i
  | S fuel =>
    c ← local L_ch;
    r ← either_copyin c user_src (u64 (src + i)) 1;
    if r =? -1 then mret i
    else
      ch ← gets (λ s, rd (k_mem s) c);
      uartputc ch;;
      consolewrite_loop fuel user_src src n (i + 1)
  end.
Definition consolewrite (user_src : bool) (src n : Z) : K Z :=
  consolewrite_loop (Z.to_nat n) user_src src n 0.

(** The inner loop of [consoleread]: wait for input; [false] when killed. *)
Definition cons_wait : K bool :=
  mloop WAKEUPS (λ _ : unit,
    c ← gets k_cons;
    if c_r c =? c_w c then
      p ← curproc;
      killed ← gets (λ s, p_killed (proc_of s p));
      if negb (killed =? 0) then mret (inr false)
      else sleep Ch_cons_r LK_cons;; mret (inl ())
    else mret (inr true)) ().

(** The outer loop; each iteration takes one byte.  The result is [target - n],
    or [None] when the process was killed. *)
Fixpoint consoleread_loop (fuel : nat) (user_dst : bool) (dst target n : Z) : K (option Z) :=
  match fuel with
  | O => mret (Some (target - n))
  | S fuel =>
    ok ← cons_wait;
    if negb ok then mret None else
    c ← gets (λ s, cons_at (k_cons s) (c_r (k_cons s)));
    modify (upd_cons (λ x, set_c_r (u32 (c_r x + 1)) x));;
    if c =? CTRL 68 then
      when (n <? target) (modify (upd_cons (λ x, set_c_r (u32 (c_r x - 1)) x)));;
      mret (Some (target - n))
    else
      src ← expose [c];
      r ← either_copyout user_dst dst src 1;
      if r =? -1 then mret (Some (target - n))
      else if c =? 10 then mret (Some (target - (n - 1)))
      else consoleread_loop fuel user_dst (u64 (dst + 1)) target (n - 1)
  end.
Definition consoleread (user_dst : bool) (dst n : Z) : K Z :=
  acquire LK_cons;;
  r ← consoleread_loop (Z.to_nat n) user_dst dst n n;
  release LK_cons;;
  mret (default (-1) r).

(** [case C('U')]: at most [INPUT_BUF] bytes are being edited. *)
Definition kill_line : K unit :=
  mloop (S (Z.to_nat INPUT_BUF)) (λ _ : unit,
    c ← gets k_cons;
    if negb (c_e c =? c_w c) && negb (cons_at c (u32 (c_e c - 1)) =? 10) then
      modify (upd_cons (λ x, set_c_e (u32 (c_e x - 1)) x));;
      consputc BACKSPACE;;
      mret (inl ())
    else mret (inr ())) ().
(** The [default] case. *)
Definition cons_input (c : Z) : K unit :=
  x ← gets k_cons;
  when (negb (c =? 0) && (u32 (c_e x - c_r x) <? INPUT_BUF))
    (let c := if c =? 13 then 10 else c in
     consputc c;;
     modify (upd_cons (λ x, set_c_buf (<[Z.to_nat (c_e x mod INPUT_BUF) := u8 c]> (c_buf x)) x));;
     modify (upd_cons (λ x, set_c_e (u32 (c_e x + 1)) x));;
     x ← gets k_cons;
     when ((c =? 10) || (c =? CTRL 68) || (c_e x =? u32 (c_r x + INPUT_BUF)))
       (modify (upd_cons (λ x, set_c_w (c_e x) x));;
        wakeup (Some Ch_cons_r))).
Definition consoleintr (c : Z) : K unit :=
  acquire LK_cons;;
  (if c =? CTRL 80 then procdump
   else if c =? CTRL 85 then kill_line
   else if (c =? CTRL 72) || (c =? 0x7f) then
     x ← gets k_cons;
     when (negb (c_e x =? c_w x))
       (modify (upd_cons (λ x, set_c_e (u32 (c_e x - 1)) x));;
        consputc BACKSPACE)
   else cons_input c);;
  release LK_cons.

(** Interrupts are off in the handler: the bytes that arrive while it runs
    are those in [u_rx]. *)
Definition uartintr : K unit :=
  n ← gets (λ s, length (u_rx (k_uart s)));
  mloop (S n) (λ _ : unit,
    c ← uartgetc;
    if c =? -1 then mret (inr ())
    else consoleintr c;; mret (inl ())) ();;
  acquire LK_uart_tx;;
  uartstart;;
  release LK_uart_tx.
