(* ===== verification/ConsoleSpec.v ===== *)
(** * The console's line discipline

    The input buffer holds the bytes [q] of the lines already committed, which
    [consoleread] may take, followed by the bytes [ed] of the line being
    edited.  [consoleintr] handles one character as the abstract [line_step] does. *)

From stdpp Require Import options.
From S2P Require Import Prelude CString Ring State Sched Sleeplock Kalloc Vm Copy Uart Printf PrintSpec Console.
#[local] Open Scope Z_scope.

(** ** The buffer *)

Record cons_ok (c : console) (q ed : list Z) : Prop := {
  co_ring : ring INPUT_BUF (c_buf c) (c_r c) (q ++ ed);
  co_r : 0 ≤ c_r c < 2 ^ 32;
  co_w : c_w c = u32 (c_r c + Z.of_nat (length q));
  co_e : c_e c = u32 (c_r c + Z.of_nat (length (q ++ ed)));
  co_ed : Forall (λ b, b ≠ 10 ∧ b ≠ CTRL 68) ed;
  co_full : ed ≠ [] → Z.of_nat (length (q ++ ed)) < INPUT_BUF;
}.

Lemma INPUT_BUF_pos : 0 < INPUT_BUF.
Proof. done. Qed.
Lemma INPUT_BUF_divides : (INPUT_BUF | 2 ^ 32).
Proof. by exists (2 ^ 25). Qed.
#[local] Hint Resolve INPUT_BUF_pos INPUT_BUF_divides : core.

(** Counters of a 32-bit ring: sums taken modulo 2^32. *)
Lemma u32_add a b : u32 (u32 a + b) = u32 (a + b).
Proof. unfold u32. by rewrite Z.add_mod_idemp_l by lia. Qed.
Lemma u32_sub_same a b : 0 ≤ b < 2 ^ 32 → u32 (u32 (a + b) - a) = b.
Proof.
  intros Hb. unfold u32. rewrite Zminus_mod_idemp_l.
  replace (a + b - a) with b by lia. by apply Z.mod_small.
Qed.
Lemma u32_inj a b c :
  0 ≤ b < 2 ^ 32 → 0 ≤ c < 2 ^ 32 → u32 (a + b) = u32 (a + c) → b = c.
Proof. intros Hb Hc E. by rewrite <- (u32_sub_same a b), E, u32_sub_same. Qed.

Section cons.
Context (c : console) (q ed : list Z) (H : cons_ok c q ed).

Lemma cons_cap : Z.of_nat (length (q ++ ed)) ≤ INPUT_BUF.
Proof using H. apply (ring_cap _ _ _ _ (co_ring _ _ _ H)). Qed.
Lemma cons_len : Z.of_nat (length q) ≤ Z.of_nat (length (q ++ ed)) ≤ 128.
Proof using H. pose proof cons_cap as Hc. unfold INPUT_BUF in Hc. rewrite length_app in *. lia. Qed.

Lemma cons_nothing_edited : (c_e c =? c_w c) = bool_decide (ed = []).
Proof using H.
  pose proof cons_len as Hl. rewrite (co_e _ _ _ H), (co_w _ _ _ H).
  destruct (Z.eqb_spec (u32 (c_r c + Z.of_nat (length (q ++ ed))))
    (u32 (c_r c + Z.of_nat (length q)))) as [E|E].
  - symmetry. apply bool_decide_eq_true. apply u32_inj in E; [|lia..].
    rewrite length_app in E. destruct ed; [done|simpl in E; lia].
  - symmetry. apply bool_decide_eq_false. intros He. apply E. by rewrite He, app_nil_r.
Qed.
Lemma cons_no_line : (c_r c =? c_w c) = bool_decide (q = []).
Proof using H.
  pose proof cons_len as Hl. rewrite (co_w _ _ _ H).
  destruct (Z.eqb_spec (c_r c) (u32 (c_r c + Z.of_nat (length q)))) as [E|E].
  - symmetry. apply bool_decide_eq_true.
    assert (u32 (c_r c + 0) = u32 (c_r c + Z.of_nat (length q))) as E'.
    { rewrite <- E, Z.add_0_r. apply u32_id, H. }
    apply u32_inj in E'; [|lia..]. destruct q; [done|simpl in E'; lia].
  - symmetry. apply bool_decide_eq_false. intros He. apply E. rewrite He. simpl.
    rewrite Z.add_0_r. symmetry. apply u32_id, H.
Qed.
Lemma cons_used : u32 (c_e c - c_r c) = Z.of_nat (length (q ++ ed)).
Proof using H. pose proof cons_len. rewrite (co_e _ _ _ H). apply u32_sub_same. lia. Qed.
End cons.

(** Erasing the last character. *)
Lemma cons_erase c q ed b :
  cons_ok c q (ed ++ [b]) →
  cons_ok (set_c_e (u32 (c_e c - 1)) c) q ed ∧ cons_at c (u32 (c_e c - 1)) = b.
Proof.
  intros [H1 H2 H3 H4 H5 H6]. rewrite app_assoc in H1, H4, H6.
  assert (u32 (c_e c - 1) = u32 (c_r c + Z.of_nat (length (q ++ ed)))) as E.
  { rewrite H4, length_app. unfold Z.sub. rewrite u32_add. f_equal. simpl. lia. }
  split.
  - apply Forall_app in H5 as [H5 _]. split; simpl; try done.
    + by eapply ring_unput.
    + intros _. specialize (H6 ltac:(by destruct ed)). rewrite length_app in H6. simpl in H6. lia.
  - pose proof (ring_last _ INPUT_BUF_pos _ _ _ _ H1) as Hl. unfold cons_at. rewrite E.
    change (Z.to_nat (u32 ?x mod INPUT_BUF)) with (cell INPUT_BUF (u32 x)).
    rewrite (cell_mod _ INPUT_BUF_pos _ (c_r c + Z.of_nat (length (q ++ ed))))
      by (by apply u32_mod).
    by rewrite Hl.
Qed.

(** Storing a character. *)
Lemma cons_store c q ed b :
  cons_ok c q ed → Z.of_nat (length (q ++ ed)) < INPUT_BUF →
  let c' := set_c_e (u32 (c_e c + 1))
    (set_c_buf (<[Z.to_nat (c_e c mod INPUT_BUF) := b]> (c_buf c)) c) in
  ring INPUT_BUF (c_buf c') (c_r c') (q ++ ed ++ [b]) ∧
  c_e c' = u32 (c_r c' + Z.of_nat (length (q ++ ed ++ [b]))).
Proof.
  intros [H1 H2 H3 H4 H5 H6] Hlt c'. rewrite app_assoc. split.
  - apply ring_put; [done..|]. rewrite H4. by apply u32_mod.
  - simpl. rewrite H4, u32_add, (length_app _ [b]). f_equal. simpl. lia.
Qed.

(** ** Handling a character *)

(** The abstract line discipline: committed bytes and the line being edited. *)
Definition input_char (c : Z) : Z := if c =? 13 then 10 else c.
Definition line_step (c : Z) (q ed : list Z) : list Z * list Z :=
  if c =? CTRL 80 then (q, ed)
  else if c =? CTRL 85 then (q, [])
  else if (c =? CTRL 72) || (c =? 0x7f) then (q, take (pred (length ed)) ed)
  else if (c =? 0) || (INPUT_BUF <=? Z.of_nat (length (q ++ ed))) then (q, ed)
  else
    let ed' := ed ++ [input_char c] in
    if (input_char c =? 10) || (input_char c =? CTRL 68) || (Z.of_nat (length (q ++ ed')) =? INPUT_BUF)
    then (q ++ ed', []) else (q, ed').

(** The characters [l] were echoed and the console's buffer changed. *)
Definition edited (l : list Z) (s s' : kst) : Prop := printed l (set_k_cons (k_cons s') s) s'.
Lemma edited_nil s : edited [] s s.
Proof. unfold edited. replace (set_k_cons (k_cons s) s) with s by (by destruct s). apply printed_nil. Qed.
Lemma edited_app l l' s1 s2 s3 : edited l s1 s2 → edited l' s2 s3 → edited (l ++ l') s1 s3.
Proof.
  unfold edited. intros [A1 A2 A3 A4 A5 A6] [B1 B2 B3 B4 B5 B6]. simpl in *. split; simpl; try congruence.
  - rewrite B1, A1. done.
  - by rewrite B2, A2, app_assoc.
Qed.
Lemma edited_cons x s : edited [] s (set_k_cons x s).
Proof. split; try done; simpl. by rewrite app_nil_r. Qed.
Lemma edited_printed l s s' : printed l s s' → edited l s s'.
Proof.
  intros HP. unfold edited. replace (k_cons s') with (k_cons s) by (by rewrite (pr_st _ _ _ HP)).
  by replace (set_k_cons (k_cons s) s) with s by (by destruct s).
Qed.
Definition erase_chars : list Z := [8; 32; 8].
Fixpoint erases (n : nat) : list Z :=
  match n with O => [] | S n => erase_chars ++ erases n end.
(** What is echoed, for every character but the one that lists the processes. *)
Definition line_echo (c : Z) (q ed : list Z) : list Z :=
  if c =? CTRL 85 then erases (length ed)
  else if (c =? CTRL 72) || (c =? 0x7f) then erases (Nat.min 1 (length ed))
  else if (c =? 0) || (INPUT_BUF <=? Z.of_nat (length (q ++ ed))) then []
  else [input_char c].

(** [cons.e--; consputc(BACKSPACE)] *)
Lemma erase_run s q ed b :
  cons_ok (k_cons s) q (ed ++ [b]) →
  ∃ s', (modify (upd_cons (λ x, set_c_e (u32 (c_e x - 1)) x));; consputc BACKSPACE) s = Ok () s' ∧
    cons_ok (k_cons s') q ed ∧ edited erase_chars s s'.
Proof.
  intros H. destruct (cons_erase _ _ _ _ H) as [H' _]. mstep.
  set (s1 := upd_cons _ s). destruct (consputc_prints BACKSPACE s1) as (s2 & E & HP).
  exists s2. split; [done|]. split.
  - rewrite (pr_st _ _ _ HP). exact H'.
  - change erase_chars with ([] ++ erase_chars).
    eapply edited_app; [apply edited_cons|]. by apply edited_printed.
Qed.

Lemma bind_seq_Ok {S A B} (m : M S unit) (m' : M S A) (f : A → M S B) s a s' :
  (m;; m') s = Ok a s' → (m;; (m' ≫= f)) s = f a s'.
Proof.
  unfold mbind, M_bind. destruct (m s); simpl; try done. intros E. by rewrite E.
Qed.

Lemma kill_line_loop q ed : ∀ fuel s,
  cons_ok (k_cons s) q ed → (length ed < fuel)%nat →
  ∃ s', mloop fuel (λ _ : unit,
      c ← gets k_cons;
      if negb (c_e c =? c_w c) && negb (cons_at c (u32 (c_e c - 1)) =? 10) then
        modify (upd_cons (λ x, set_c_e (u32 (c_e x - 1)) x));;
        consputc BACKSPACE;;
        mret (inl ())
      else mret (inr ())) () s = Ok () s' ∧ cons_ok (k_cons s') q [] ∧
    edited (erases (length ed)) s s'.
Proof.
  induction ed as [|b ed IH] using rev_ind; intros fuel s H Hf;
    (destruct fuel as [|fuel]; [lia|]).
  - exists s. split; [|split; [done|apply edited_nil]]. apply mloop_done. mstep.
    by rewrite (cons_nothing_edited _ _ _ H), bool_decide_true.
  - destruct (erase_run s q ed b H) as (s1 & E1 & H1 & D1).
    rewrite length_app in Hf. simpl in Hf.
    destruct (IH fuel s1 H1 ltac:(lia)) as (s2 & E2 & H2 & D2).
    exists s2. rewrite length_app, Nat.add_comm.
    split; [|split; [done|by apply (edited_app erase_chars _ _ s1)]].
    erewrite mloop_next; [exact E2|]. mstep.
    rewrite (cons_nothing_edited _ _ _ H), bool_decide_false by (by destruct ed).
    destruct (cons_erase _ _ _ _ H) as [_ ->].
    pose proof (co_ed _ _ _ H) as Hed. apply Forall_app in Hed as [_ [[Hb _] _]%Forall_cons].
    rewrite (proj2 (Z.eqb_neq b 10)) by done. cbn [negb andb].
    by erewrite bind_seq_Ok by exact E1.
Qed.

Lemma edited_woken l ch s s' : edited l s s' → edited l (woken ch s) (woken ch s').
Proof.
  unfold edited. intros [A1 A2 A3 A4 A5 A6]. split; try done.
  simpl in *. rewrite A1. done.
Qed.

Lemma procdump_run s :
  LK_pr ∉ k_held s → ∃ l s', procdump s = Ok () s' ∧ printed l s s'.
Proof.
  intros Hh. unfold procdump. destruct (printf_run newline [] s Hh) as (s1 & E1 & P1).
  rewrite (bind_Ok _ _ _ _ _ E1).
  assert (wp (mfor NPROC 0 (λ i, p ← gets (λ s, proc_of s (Z.to_nat i));
    when (negb (bool_decide (p_state p = UNUSED)))
      (printf (lit "%d %s %s")
         [A_int (p_pid p); A_str (Some (state_name (p_state p))); A_str (Some (cbytes (p_name p)))];;
       printf newline [])))
    (λ _ s', ∃ l, printed l s s') s1) as Hw.
  { apply (wp_mfor _ _ _ (λ _ s', ∃ l, printed l s s')); [by eexists| |done].
    intros j s2 _ (l & HP). apply wp_bind, wp_gets, wp_when; [intros _|intros _; by exists l].
    assert (∀ s', printed l s s' → LK_pr ∉ k_held s') as Hh'.
    { intros s' HP'. by rewrite (pr_st _ _ _ HP'). }
    match goal with |- wp (printf ?f ?a ≫= _) _ _ =>
      destruct (printf_run f a s2 (Hh' _ HP)) as (s3 & E3 & P3) end.
    apply wp_bind, (wp_Ok _ _ _ _ _ E3).
    pose proof (printed_app _ _ _ _ _ HP P3) as HP3.
    destruct (printf_run newline [] s3) as (s4 & E4 & P4).
    { by rewrite (pr_st _ _ _ HP3). }
    apply (wp_Ok _ _ _ _ _ E4). eexists. eapply printed_app; [exact HP3|exact P4]. }
  apply wp_inv in Hw as ([] & s' & E & l & HP). by exists l, s'.
Qed.

(** Storing the character [b], already translated. *)
Lemma cons_input_store s q ed b :
  cons_ok (k_cons s) q ed → Z.of_nat (length (q ++ ed)) < INPUT_BUF →
  is_byte b → no_plock s → length (k_procs s) = NPROC →
  let full := (b =? 10) || (b =? CTRL 68) || (Z.of_nat (length (q ++ ed ++ [b])) =? INPUT_BUF) in
  ∃ s', (consputc b;;
     modify (upd_cons (λ x, set_c_buf (<[Z.to_nat (c_e x mod INPUT_BUF) := u8 b]> (c_buf x)) x));;
     modify (upd_cons (λ x, set_c_e (u32 (c_e x + 1)) x));;
     x ← gets k_cons;
     when ((b =? 10) || (b =? CTRL 68) || (c_e x =? u32 (c_r x + INPUT_BUF)))
       (modify (upd_cons (λ x, set_c_w (c_e x) x));;
        wakeup (Some Ch_cons_r))) s = Ok () s' ∧
    if full then cons_ok (k_cons s') (q ++ ed ++ [b]) [] ∧
      edited [b] (woken (Some Ch_cons_r) s) s'
    else cons_ok (k_cons s') q (ed ++ [b]) ∧ edited [b] s s'.
Proof.
  intros H Hlt Hb Hnp Hlen full.
  destruct (consputc_prints b s) as (s1 & E1 & P1). rewrite (bind_Ok _ _ _ _ _ E1).
  assert (con_chars b = [b]) as Ecb.
  { unfold con_chars, BACKSPACE. unfold is_byte in Hb. destruct (Z.eqb_spec b 256); [lia|].
    by rewrite u8_id. }
  rewrite Ecb in P1. msteps. rewrite (u8_id b) by done.
  assert (k_cons s1 = k_cons s) as Ec by (by rewrite (pr_st _ _ _ P1)).
  destruct (cons_store (k_cons s) q ed b H Hlt) as [Hr He].
  set (c' := set_c_e _ _) in Hr, He.
  match goal with |- context [upd_cons _ (upd_cons _ s1)] =>
    set (s2 := upd_cons _ (upd_cons _ s1)) end.
  assert (s2 = set_k_cons c' s1) as Es2 by (subst s2 c'; rewrite <- Ec; done). 
  rewrite Es2. simpl k_cons. pose proof (ring_cap _ _ _ _ Hr) as Hcap.
  assert ((c_e c' =? u32 (c_r c' + INPUT_BUF)) =
    (Z.of_nat (length (q ++ ed ++ [b])) =? INPUT_BUF)) as Efull.
  { rewrite He. apply eq_true_iff_eq. rewrite !Z.eqb_eq. unfold INPUT_BUF in *.
    split; [intros E; apply u32_inj in E; lia|by intros ->]. }
  rewrite Efull. fold full.
  assert (edited [b] s (set_k_cons c' s1)) as Hed.
  { change [b] with ([b] ++ []). eapply edited_app; [by apply edited_printed|apply edited_cons]. }
  destruct full eqn:Ef; cbn [when].
  - rewrite bind_modify. rewrite wakeup_eq.
    2:{ intros i. simpl. rewrite (pr_st _ _ _ P1). apply Hnp. }
    2:{ simpl. by rewrite (pr_st _ _ _ P1). }
    eexists. split; [reflexivity|]. split.
    + simpl. split; simpl; rewrite ?app_nil_r; try done. apply (co_r _ _ _ H).
    + apply (edited_woken [b] (Some Ch_cons_r) s (upd_cons (λ x, set_c_w (c_e x) x) (set_k_cons c' s1))).
      change [b] with ([b] ++ []). eapply edited_app; [exact Hed|apply edited_cons].
  - mstep. eexists. split; [reflexivity|]. split; [|done]. simpl.
    apply orb_false_iff in Ef as [[E10 E4]%orb_false_iff Efl].
    split; simpl; try done.
    + apply (co_r _ _ _ H).
    + apply (co_w _ _ _ H).
    + apply Forall_app. split; [apply (co_ed _ _ _ H)|]. repeat constructor; by apply Z.eqb_neq.
    + intros _. apply Z.eqb_neq in Efl. lia.
Qed.

(** The body of [consoleintr]. *)
Lemma consoleintr_body c s q ed :
  cons_ok (k_cons s) q ed → is_byte c → LK_pr ∉ k_held s → no_plock s →
  length (k_procs s) = NPROC →
  let q' := (line_step c q ed).1 in
  let ed' := (line_step c q ed).2 in
  ∃ l s', (if c =? CTRL 80 then procdump
     else if c =? CTRL 85 then kill_line
     else if (c =? CTRL 72) || (c =? 0x7f) then
       x ← gets k_cons;
       when (negb (c_e x =? c_w x))
         (modify (upd_cons (λ x, set_c_e (u32 (c_e x - 1)) x));;
          consputc BACKSPACE)
     else cons_input c) s = Ok () s' ∧
    cons_ok (k_cons s') q' ed' ∧ (c ≠ CTRL 80 → l = line_echo c q ed) ∧
    edited l (if bool_decide (q' = q) then s else woken (Some Ch_cons_r) s) s'.
Proof.
  intros H Hb Hpr Hnp Hlen q' ed'. subst q' ed'. unfold line_step, line_echo.
  destruct (Z.eqb_spec c (CTRL 80)).
  { destruct (procdump_run s Hpr) as (l & s' & E & HP). exists l, s'. split; [done|].
    rewrite bool_decide_true by done. split; [|split; [done|by apply edited_printed]].
    by rewrite (pr_st _ _ _ HP). }
  destruct (Z.eqb_spec c (CTRL 85)).
  { pose proof (cons_len _ _ _ H) as Hl. rewrite length_app in Hl.
    destruct (kill_line_loop q ed (S (Z.to_nat INPUT_BUF)) s H) as (s' & E & H' & D).
    { change (Z.to_nat INPUT_BUF) with 128%nat. lia. }
    eexists _, s'. split; [exact E|]. rewrite bool_decide_true by done. done. }
  destruct ((c =? CTRL 72) || (c =? 127)).
  { mstep. rewrite (cons_nothing_edited _ _ _ H). cbn [fst snd].
    rewrite (bool_decide_true (q = q)) by done.
    destruct ed as [|b ed _] using rev_ind.
    - exists [], s. rewrite bool_decide_true by done. split; [done|]. split; [done|].
      split; [done|apply edited_nil].
    - rewrite bool_decide_false by (by destruct ed). cbn [negb when].
      destruct (erase_run s q ed b H) as (s' & E & H' & D). exists erase_chars, s'.
      split; [exact E|]. rewrite length_app, Nat.add_1_r. cbn [pred].
      rewrite take_app_length. split; [done|]. split; [|done]. intros _.
      cbn [Nat.min erases]. by rewrite app_nil_r. }
  unfold cons_input. mstep. rewrite (cons_used _ _ _ H).
  rewrite Z.ltb_antisym, <- negb_orb.
  destruct ((c =? 0) || (INPUT_BUF <=? Z.of_nat (length (q ++ ed)))) eqn:Eb; cbn [negb when].
  { exists [], s. cbn [fst snd]. rewrite bool_decide_true by done. split; [done|].
    split; [done|]. split; [done|apply edited_nil]. }
  apply orb_false_iff in Eb as [_ Hlt%Z.leb_gt].
  assert (is_byte (input_char c)) as Hib.
  { unfold input_char, is_byte in *. destruct (c =? 13); lia. }
  destruct (cons_input_store s q ed (input_char c) H Hlt Hib Hnp Hlen) as (s' & E & HS).
  exists [input_char c], s'. split; [exact E|].
  destruct ((input_char c =? 10) || (input_char c =? CTRL 68) || _); cbn [fst snd].
  - destruct HS as [HS D]. split; [done|]. split; [done|].
    rewrite bool_decide_false; [done|]. intros Eq. apply (f_equal length) in Eq.
    rewrite !length_app in Eq. simpl in Eq. lia.
  - rewrite bool_decide_true by done. destruct HS. done.
Qed.

(** ** Property *)

(** C38. The console's interrupt handler implements the line discipline:
    characters are collected in the line being edited, the erase and kill
    characters remove from that line only, a newline, end-of-file character or
    full buffer commits the line and wakes the readers, and the echo is as
    expected.  The buffer's invariant is kept: at most 128 bytes, the
    three counters in order modulo 2^32, no line end in the line being edited. *)
Theorem consoleintr_refines c s q ed :
  cons_ok (k_cons s) q ed → is_byte c → LK_cons ∉ k_held s → LK_pr ∉ k_held s →
  no_plock s → length (k_procs s) = NPROC →
  let q' := (line_step c q ed).1 in
  let ed' := (line_step c q ed).2 in
  ∃ l s', consoleintr c s = Ok () s' ∧ cons_ok (k_cons s') q' ed' ∧
    (c ≠ CTRL 80 → l = line_echo c q ed) ∧
    edited l (if bool_decide (q' = q) then s else woken (Some Ch_cons_r) s) s'.
Proof.
  intros H Hb Hc Hpr Hnp Hlen q' ed'. unfold consoleintr. rewrite bind_acquire by done.
  destruct (consoleintr_body c (set_k_held (LK_cons :: k_held s) s) q ed) as (l & s1 & E & H1 & He & D);
    [done|done|simpl; set_solver|intros i; specialize (Hnp i); simpl; set_solver|done|].
  rewrite (bind_Ok _ _ _ _ _ E). fold q' ed' in H1, D.
  assert (k_held s1 = LK_cons :: k_held s) as Hh1.
  { rewrite (pr_st _ _ _ D). simpl. by case_bool_decide. }
  rewrite (release_top _ (k_held s)) by done.
  exists l, (set_k_held (k_held s) s1). split; [done|]. split; [done|]. split; [done|].
  destruct D as [A1 A2 A3 A4 A5 A6]. unfold edited.
  case_bool_decide; (split; try done); simpl in *; rewrite A1; by kst_eq.
Qed.

(** Five bytes in the buffer, the counters about to wrap. *)
Definition cons_wrap : console := Console (replicate 128 7) (2 ^ 32 - 3) (2 ^ 32 - 1) 2.
Lemma cons_wrap_ok : cons_ok cons_wrap [7; 7] [7; 7; 7].
Proof.
  split; try done.
  - split; [done|done|]. intros i Hi. simpl in Hi.
    assert (i = 0 ∨ i = 1 ∨ i = 2 ∨ i = 3 ∨ i = 4) as Hc by lia.
    by destruct Hc as [-> | [-> | [-> | [-> | ->]]]].
  - repeat constructor; done.
Qed.
Lemma consoleintr_refines_witness :
  ∃ l s', consoleintr 13 (set_k_cons cons_wrap kst0) = Ok () s' ∧
    cons_ok (k_cons s') [7; 7; 7; 7; 7; 10] [] ∧ l = [10].
Proof.
  destruct (consoleintr_refines 13 (set_k_cons cons_wrap kst0) [7; 7] [7; 7; 7])
    as (l & s' & E & H & Hl & _);
    [exact cons_wrap_ok|split; lia|simpl; set_solver|simpl; set_solver
    |intros i; simpl; set_solver|reflexivity|].
  exists l, s'. split; [exact E|]. split; [exact H|]. apply Hl. discriminate.
Defined.
