(* ===== verification/Pipe.v ===== *)
(** * Pipes: operations

    [kernel/pipe.c], all but [pipealloc], which is in [File].  A pipe occupies a
    page of the allocator; its fields are in [k_pipes] at the page's address. *)

From stdpp Require Import options.
From S2P Require Import Prelude CString State Sched Sleeplock Kalloc Vm Copy Console.
#[local] Open Scope Z_scope.

Definition PIPESIZE : Z := 512.

Definition pipeclose (pi : Z) (writable : bool) : K unit :=
  acquire (LK_pipe pi);;
  (if writable then
     modify (upd_pipe pi (set_pi_writeopen false));;
     wakeup (Some (Ch_pipe_nread pi))
   else
     modify (upd_pipe pi (set_pi_readopen false));;
     wakeup (Some (Ch_pipe_nwrite pi)));;
  x ← gets (λ s, pipe_of s pi);
  if negb (pi_readopen x) && negb (pi_writeopen x) then
    release (LK_pipe pi);;
    modify (λ s, set_k_pipes (delete pi (k_pipes s)) s);;
    kfree pi
  else release (LK_pipe pi).

(** [pi->data[pi->nwrite++ % PIPESIZE] = ch] *)
Definition pipe_put (ch : Z) (x : pipe) : pipe :=
  set_pi_nwrite (u32 (pi_nwrite x + 1))
    (set_pi_data (<[Z.to_nat (pi_nwrite x mod PIPESIZE) := u8 ch]> (pi_data x)) x).
(** [pi->data[pi->nread % PIPESIZE]] and [pi->nread++] *)
Definition pipe_peek (x : pipe) : Z := default 0 (pi_data x !! Z.to_nat (pi_nread x mod PIPESIZE)).
Definition pipe_skip (x : pipe) : pipe := set_pi_nread (u32 (pi_nread x + 1)) x.
Definition pipe_full (x : pipe) : bool := pi_nwrite x =? u32 (pi_nread x + PIPESIZE).
Definition pipe_empty (x : pipe) : bool := pi_nread x =? pi_nwrite x.

(** The body of the loop of [pipewrite], at byte [i]. *)
Definition pipewrite_step (pi addr n : Z) (i : Z) : K (Z + option Z) :=
  if n <=? i then mret (inr (Some i)) else
  pr ← curproc;
  x ← gets (λ s, pipe_of s pi);
  killed ← gets (λ s, p_killed (proc_of s pr));
  if negb (pi_readopen x) || negb (killed =? 0) then mret (inr None)
  else if pipe_full x then
    wakeup (Some (Ch_pipe_nread pi));;
    sleep (Ch_pipe_nwrite pi) (LK_pipe pi);;
    mret (inl i)
  else
    ch ← local L_ch;
    pagetable ← gets (λ s, p_pagetable (proc_of s pr));
    r ← copyin pagetable ch (u64 (addr + i)) 1;
    if r =? -1 then mret (inr (Some i))
    else
      c ← gets (λ s, rd (k_mem s) ch);
      modify (upd_pipe pi (pipe_put c));;
      mret (inl (i + 1)).
(** The loop from byte [i] on, with the pipe's lock held, and what follows it. *)
Definition pipewrite_from (fuel : nat) (pi addr n i : Z) : K Z :=
  r ← mloop fuel (pipewrite_step pi addr n) i;
  match r with
  | None => release (LK_pipe pi);; mret (-1)
  | Some i =>
    wakeup (Some (Ch_pipe_nread pi));;
    release (LK_pipe pi);;
    mret i
  end.
(** Every iteration writes a byte or sleeps. *)
Definition pipewrite (pi addr n : Z) : K Z :=
  acquire (LK_pipe pi);;
  pipewrite_from (S (Z.to_nat n + WAKEUPS)) pi addr n 0.

(** The first loop of [piperead]: wait for data or for the last writer to
    close; [false] when killed. *)
Definition piperead_wait (pi : Z) : K bool :=
  mloop WAKEUPS (λ _ : unit,
    x ← gets (λ s, pipe_of s pi);
    if pipe_empty x && pi_writeopen x then
      pr ← curproc;
      killed ← gets (λ s, p_killed (proc_of s pr));
      if negb (killed =? 0) then mret (inr false)
      else sleep (Ch_pipe_nread pi) (LK_pipe pi);; mret (inl ())
    else mret (inr true)) ().
(** The second loop, from byte [i] on. *)
Fixpoint piperead_copy (fuel : nat) (pi addr i : Z) : K Z :=
  match fuel with
  | O => mret i
  | S fuel =>
    x ← gets (λ s, pipe_of s pi);
    if pipe_empty x then mret i else
    pr ← curproc;
    modify (upd_pipe pi pipe_skip);;
    src ← expose [pipe_peek x];
    pagetable ← gets (λ s, p_pagetable (proc_of s pr));
    r ← copyout pagetable (u64 (addr + i)) src 1;
    if r =? -1 then mret i
    else piperead_copy fuel pi addr (i + 1)
  end.
Definition piperead (pi addr n : Z) : K Z :=
  acquire (LK_pipe pi);;
  ok ← piperead_wait pi;
  if negb ok then release (LK_pipe pi);; mret (-1) else
  i ← piperead_copy (Z.to_nat n) pi addr 0;
  wakeup (Some (Ch_pipe_nwrite pi));;
  release (LK_pipe pi);;
  mret i.
