(* ===== verification/PipeSpec.v ===== *)
(** * Pipes are bounded FIFO queues

    A pipe's array and counters represent a queue of at most 512 bytes
    ([pipe_ok]); the counters wrap at 2^32.  [pipewrite] appends bytes of the
    writer's memory and sleeps when the queue is full; [piperead] moves bytes
    from the front of the queue into the reader's memory. *)

From stdpp Require Import options.
From S2P Require Import Prelude CString Ring State Sched Sleeplock Kalloc Vm PageTable VmWalk VmSpec VmOps VmFree VmCopy VmProps Copy UserMem Console Pipe.
#[local] Open Scope Z_scope.
#[local] Existing Instance user_leaves.

(** ** The queue of a pipe *)

Record pipe_ok (x : pipe) (q : list Z) : Prop := {
  po_ring : ring PIPESIZE (pi_data x) (pi_nread x) q;
  po_nread : 0 ≤ pi_nread x < 2 ^ 32;
  po_nwrite : pi_nwrite x = u32 (pi_nread x + Z.of_nat (length q));
  po_bytes : Forall is_byte q;
}.

Lemma PIPESIZE_pos : 0 < PIPESIZE.
Proof. done. Qed.
Lemma PIPESIZE_divides : (PIPESIZE | 2 ^ 32).
Proof. by exists (2 ^ 23). Qed.
#[local] Hint Resolve PIPESIZE_pos PIPESIZE_divides : core.

(** Two counters at most 512 apart are equal modulo 2^32 only when equal. *)
Lemma u32_near a b c : 0 ≤ b ≤ PIPESIZE → 0 ≤ c ≤ PIPESIZE →
  u32 (a + b) = u32 (a + c) ↔ b = c.
Proof.
  intros Hb Hc. unfold PIPESIZE in *. split; [|by intros ->]. unfold u32. intros E.
  rewrite !Z.mod_eq in E by lia.
  assert (b - c = 2 ^ 32 * ((a + b) / 2 ^ 32 - (a + c) / 2 ^ 32)) as D by lia.
  assert ((a + b) / 2 ^ 32 - (a + c) / 2 ^ 32 = 0) by nia. lia.
Qed.

Lemma pipe_empty_ok x q : pipe_ok x q → pipe_empty x = bool_decide (q = []).
Proof.
  intros [[_ Hc _] Hn Hw _]. unfold pipe_empty. rewrite Hw.
  pose proof (u32_near (pi_nread x) 0 (Z.of_nat (length q))) as H.
  rewrite Z.add_0_r, (u32_id (pi_nread x)) in H by done. specialize (H ltac:(done) ltac:(lia)).
  destruct (Z.eqb_spec (pi_nread x) (u32 (pi_nread x + Z.of_nat (length q)))) as [E|E].
  - apply H in E. symmetry. apply bool_decide_eq_true. destruct q; simpl in E; [done|lia].
  - symmetry. apply bool_decide_eq_false. intros ->. by apply E, H.
Qed.
Lemma pipe_full_ok x q :
  pipe_ok x q → pipe_full x = bool_decide (Z.of_nat (length q) = PIPESIZE).
Proof.
  intros [[_ Hc _] Hn Hw _]. unfold pipe_full. rewrite Hw.
  pose proof (u32_near (pi_nread x) (Z.of_nat (length q)) PIPESIZE ltac:(lia) ltac:(done)) as H.
  destruct (Z.eqb_spec (u32 (pi_nread x + Z.of_nat (length q))) (u32 (pi_nread x + PIPESIZE))).
  - symmetry. apply bool_decide_eq_true. by apply H.
  - symmetry. apply bool_decide_eq_false. by rewrite <- H.
Qed.

Lemma pipe_put_ok x q c :
  pipe_ok x q → Z.of_nat (length q) < PIPESIZE → pipe_ok (pipe_put c x) (q ++ [u8 c]).
Proof.
  intros [Hr Hn Hw Hb] Hlt. split; simpl; [|done| |].
  - apply ring_put; [done..|]. rewrite Hw. by apply u32_mod.
  - rewrite Hw, length_app. unfold u32. rewrite Z.add_mod_idemp_l by lia. f_equal. simpl. lia.
  - apply Forall_app. split; [done|]. repeat constructor; apply u8_range.
Qed.
Lemma pipe_get_ok x c q :
  pipe_ok x (c :: q) → pipe_peek x = c ∧ pipe_ok (pipe_skip x) q.
Proof.
  intros [Hr Hn Hw Hb]. split.
  - pose proof (ring_head _ PIPESIZE_pos _ _ _ _ Hr) as E. unfold cell in E.
    unfold pipe_peek. by rewrite E.
  - split; simpl; [|apply u32_range| |by inversion Hb].
    + apply (ring_start _ PIPESIZE_pos _ (pi_nread x + 1)); [by rewrite u32_mod|].
      by apply (ring_tail _ PIPESIZE_pos _ _ c).
    + rewrite Hw. unfold u32. rewrite Z.add_mod_idemp_l by lia. f_equal. simpl. lia.
Qed.

(** ** Writing *)

(** The bytes from [addr + i] on, as far as user memory reaches. *)
Fixpoint uread (n : nat) (m : mem) (root addr i : Z) : list Z :=
  match n with
  | O => []
  | S n =>
    match upeek m root (u64 (addr + i)) with
    | Some c => c :: uread n m root addr (i + 1)
    | None => []
    end
  end.
Lemma uread_ext n m m' root addr i :
  (∀ va, upeek m' root va = upeek m root va) → uread n m' root addr i = uread n m root addr i.
Proof.
  intros H. revert i. induction n as [|n IH]; intros i; simpl; [done|].
  rewrite H. by destruct (upeek m root _); [rewrite IH|].
Qed.
Lemma uread_lookup n m root addr i j c :
  uread n m root addr i !! j = Some c → upeek m root (u64 (addr + i + Z.of_nat j)) = Some c.
Proof.
  revert i j. induction n as [|n IH]; intros i j E; simpl in E; [done|].
  destruct (upeek m root (u64 (addr + i))) as [b|] eqn:Eb; [|done].
  destruct j as [|j]; simpl in E.
  - by rewrite Z.add_0_r, Eb.
  - apply IH in E. rewrite <- E. do 2 f_equal. lia.
Qed.
Lemma length_uread n m root addr i : (length (uread n m root addr i) ≤ n)%nat.
Proof.
  revert i. induction n as [|n IH]; intros i; simpl; [lia|].
  destruct (upeek m root _); simpl; [specialize (IH (i + 1)); lia|lia].
Qed.

(** What a step of the writer may change: the pipe, and its local [ch]. *)
Record wrote (pi : Z) (p : nat) (s s' : kst) : Prop := {
  wr_st : s' = set_k_mem (k_mem s') (set_k_pipes (k_pipes s') s);
  wr_others j : j ≠ pi → k_pipes s' !! j = k_pipes s !! j;
  wr_open : pi_readopen (pipe_of s' pi) = pi_readopen (pipe_of s pi) ∧
            pi_writeopen (pipe_of s' pi) = pi_writeopen (pipe_of s pi);
  wr_mem a : a ≠ KSTACK (Z.of_nat p) + L_ch → rd (k_mem s') a = rd (k_mem s) a;
  wr_ok : mem_ok (k_mem s');
}.
Lemma wrote_refl pi p s : mem_ok (k_mem s) → wrote pi p s s.
Proof. split; try done. by destruct s. Qed.
Lemma wrote_trans pi p s1 s2 s3 : wrote pi p s1 s2 → wrote pi p s2 s3 → wrote pi p s1 s3.
Proof.
  intros [A1 A2 [A3 A4] A5 A6] [B1 B2 [B3 B4] B5 B6]. split; try done.
  - rewrite B1, A1. done.
  - intros j Hj. by rewrite B2, A2.
  - by rewrite B3, B4.
  - intros a Ha. by rewrite B5, A5.
Qed.

Lemma wrote_user pi p s s' :
  uctx p s → wrote pi p s s' →
  uctx p s' ∧ root_of s' p = root_of s p ∧
  ∀ va, upeek (k_mem s') (root_of s p) va = upeek (k_mem s) (root_of s p) va.
Proof.
  intros Hu [W1 _ _ W4 W5].
  assert (∀ q a, owns (k_mem s) (root_of s p) q → in_page q a →
    rd (k_mem s') a = rd (k_mem s) a) as Hk.
  { intros q a Hq Ha. apply W4. intros ->.
    eapply (kernel_high _ _ _ (KSTACK (Z.of_nat p) + L_ch) 1 (us_wf _ _ _ (uc_space _ _ Hu)));
      [apply KSTACK_high; [apply Hu|done]| |exact Hq|exact Ha]. lia. }
  split; [|split].
  - rewrite W1. apply (uctx_mem p (set_k_pipes (k_pipes s') s)); [by destruct Hu|done|].
    by apply (upeek_kernel _ _ _ _ 0 (uc_space _ _ Hu)).
  - by rewrite W1.
  - intros va. by apply (upeek_kernel _ _ _ _ va (uc_space _ _ Hu)).
Qed.

Lemma pipe_of_upd pi f s : pipe_of (upd_pipe pi f s) pi = f (pipe_of s pi).
Proof. unfold pipe_of, upd_pipe. simpl. by rewrite lookup_insert_eq. Qed.

(** One iteration that finds room. *)
Lemma pipewrite_step_room pi addr n i p s q :
  uctx p s → pipe_ok (pipe_of s pi) q → Z.of_nat (length q) < PIPESIZE → i < n →
  pi_readopen (pipe_of s pi) = true → p_killed (proc_of s p) = 0 →
  ∃ s', wrote pi p s s' ∧
    match upeek (k_mem s) (root_of s p) (u64 (addr + i)) with
    | Some c => pipewrite_step pi addr n i s = Ok (inl (i + 1)) s' ∧
                pipe_ok (pipe_of s' pi) (q ++ [c])
    | None => pipewrite_step pi addr n i s = Ok (inr (Some i)) s' ∧ pipe_ok (pipe_of s' pi) q
    end.
Proof.
  intros Hu Hq Hlt Hi Hro Hkl. unfold pipewrite_step. destruct (Z.leb_spec n i); [lia|].
  rewrite (bind_curproc p) by apply Hu. msteps. rewrite Hro, Hkl. cbn [negb Z.eqb orb].
  rewrite (pipe_full_ok _ _ Hq), bool_decide_false by lia. unfold local, myproc.
  rewrite (bind_Ok _ _ s (KSTACK (Z.of_nat p) + L_ch) s) by (mstep; by rewrite (uc_cur _ _ Hu)).
  mstep. fold (root_of s p).
  pose proof (kernel_high _ _ _ (KSTACK (Z.of_nat p) + L_ch) 1 (us_wf _ _ _ (uc_space _ _ Hu))
    (KSTACK_high p L_ch (uc_p _ _ Hu) ltac:(done))) as Hk.
  destruct (copyin_byte _ s (root_of s p) (KSTACK (Z.of_nat p) + L_ch) (u64 (addr + i))
    (uc_space _ _ Hu) (uc_mem _ _ Hu) (u64_range _) Hk) as (m' & E & Hm & Hrest & Hc).
  erewrite bind_Ok by exact E.
  destruct (upeek (k_mem s) (root_of s p) (u64 (addr + i))) as [c|] eqn:Ec; cbn [Z.eqb].
  - msteps. simpl k_mem. rewrite (Hc c eq_refl). eexists. split; [|split; [done|]].
    + split; simpl; try done.
      * intros j Hj. by rewrite lookup_insert_ne.
      * unfold pipe_of. simpl. by rewrite lookup_insert_eq.
    + rewrite pipe_of_upd. change (pipe_of (set_k_mem m' s) pi) with (pipe_of s pi).
      assert (u8 c = c) as Hb; [|pose proof (pipe_put_ok _ _ c Hq Hlt) as H'; by rewrite Hb in H'].
      unfold upeek in Ec. destruct (utrans _ _ _); [|done]. injection Ec as <-.
      apply u8_id. apply (uc_mem _ _ Hu).
  - mstep. eexists. split; [|split; [done|done]]. split; done.
Qed.

(** An iteration that finds the pipe full: it wakes the readers and sleeps. *)
Lemma pipewrite_step_full pi addr n i p s q :
  uctx p s → k_held s = [LK_pipe pi] → pipe_ok (pipe_of s pi) q →
  Z.of_nat (length q) = PIPESIZE → i < n →
  pi_readopen (pipe_of s pi) = true → p_killed (proc_of s p) = 0 →
  ∃ kk, pipewrite_step pi addr n i s =
      Yield (asleep p (Ch_pipe_nwrite pi) (woken (Some (Ch_pipe_nread pi)) s)) kk ∧
    ∀ s2, k_held s2 = [LK_proc p] → kk s2 = Ok (inl i) (awoken p (LK_pipe pi) s2).
Proof.
  intros Hu Hh Hq Hfull Hi Hro Hkl. unfold pipewrite_step. destruct (Z.leb_spec n i); [lia|].
  rewrite (bind_curproc p) by apply Hu. msteps. rewrite Hro, Hkl. cbn [negb Z.eqb orb].
  rewrite (pipe_full_ok _ _ Hq), bool_decide_true by done.
  rewrite bind_wakeup; [|intros j; rewrite Hh; set_solver|apply Hu].
  destruct (sleep_yields (Ch_pipe_nwrite pi) (LK_pipe pi) p (woken (Some (Ch_pipe_nread pi)) s))
    as (k & E & Hk); [apply Hu| |exact Hh|done|].
  { simpl. rewrite length_imap, (uc_procs _ _ Hu). apply Hu. }
  eexists. split; [by apply bind_yields|]. intros s2 Hs2. simpl. by rewrite Hk.
Qed.

(** The writer's loop from byte [i] on: it appends what is readable and
    fits, then returns, or sleeps when more is to come. *)
Lemma pipewrite_loop pi addr n p k : ∀ fuel i s q,
  uctx p s → k_held s = [LK_pipe pi] → pipe_ok (pipe_of s pi) q →
  pi_readopen (pipe_of s pi) = true → p_killed (proc_of s p) = 0 →
  n = i + Z.of_nat k → (k < fuel)%nat →
  let room := (512 - length q)%nat in
  let w := take room (uread k (k_mem s) (root_of s p) addr i) in
  ∃ s', wrote pi p s s' ∧ pipe_ok (pipe_of s' pi) (q ++ w) ∧
    if bool_decide (room < k ∧ length w = room)%nat then
      ∃ kk, mloop fuel (pipewrite_step pi addr n) i s =
          Yield (asleep p (Ch_pipe_nwrite pi) (woken (Some (Ch_pipe_nread pi)) s')) kk ∧
        ∀ s2, k_held s2 = [LK_proc p] →
          kk s2 = mloop (fuel - length w - 1) (pipewrite_step pi addr n)
                    (i + Z.of_nat (length w)) (awoken p (LK_pipe pi) s2)
    else mloop fuel (pipewrite_step pi addr n) i s = Ok (Some (i + Z.of_nat (length w))) s'.
Proof.
  induction k as [|k IH]; intros fuel i s q Hu Hh Hq Hro Hkl Hn Hf room w;
    (destruct fuel as [|fuel]; [lia|]).
  { exists s. assert (w = []) as -> by (subst w; apply take_nil). rewrite app_nil_r.
    split; [apply wrote_refl, Hu|]. split; [done|]. rewrite bool_decide_false by lia.
    apply mloop_done. unfold pipewrite_step. destruct (Z.leb_spec n i); [|lia].
    simpl. by rewrite Z.add_0_r. }
  pose proof (ring_cap _ _ _ _ (po_ring _ _ Hq)) as Hcap. unfold PIPESIZE in Hcap.
  destruct (decide (room = 0)%nat) as [Hz|Hz].
  - exists s. assert (w = []) as -> by (subst w; by rewrite Hz, take_0).
    rewrite app_nil_r. split; [apply wrote_refl, Hu|]. split; [done|].
    rewrite bool_decide_true by (simpl; lia).
    destruct (pipewrite_step_full pi addr n i p s q) as (kk & E & Hkk);
      [done..|unfold PIPESIZE; lia|lia|done|done|].
    eexists. split; [by apply mloop_yields|]. intros s2 Hs2. cbv beta. rewrite Hkk by done.
    cbn [res_bind length]. rewrite Z.add_0_r. f_equal. lia.
  - destruct (pipewrite_step_room pi addr n i p s q) as (s1 & W & H); try done.
    { unfold PIPESIZE. lia. } { lia. }
    destruct (wrote_user _ _ _ _ Hu W) as (Hu1 & Hr1 & Hpk). subst w. cbn [uread].
    destruct (upeek (k_mem s) (root_of s p) (u64 (addr + i))) as [c|].
    2:{ destruct H as [E Hq1]. exists s1. rewrite take_nil, app_nil_r. split; [done|].
        split; [done|]. rewrite bool_decide_false by (simpl; lia). simpl.
        rewrite Z.add_0_r. by apply mloop_done. }
    destruct H as [E Hq1]. rewrite (mloop_next _ _ _ _ _ _ E).
    destruct (IH fuel (i + 1) s1 (q ++ [c])) as (s' & W' & Hq' & H); try done.
    { rewrite (wr_st _ _ _ _ W). done. }
    { rewrite (proj1 (wr_open _ _ _ _ W)). done. }
    { rewrite (wr_st _ _ _ _ W). done. }
    { lia. } { lia. }
    rewrite Hr1, (uread_ext _ (k_mem s)) in Hq', H by done.
    rewrite length_app in Hq', H. cbn [length] in Hq', H.
    replace (512 - (length q + 1))%nat with (room - 1)%nat in Hq', H by lia.
    set (w' := take (room - 1) (uread k (k_mem s) (root_of s p) addr (i + 1))) in *.
    assert (take room (c :: uread k (k_mem s) (root_of s p) addr (i + 1)) = c :: w') as ->.
    { subst w'. clearbody room. destruct room; [done|]. simpl. by rewrite Nat.sub_0_r. }
    exists s'. split; [by eapply wrote_trans|]. split; [by rewrite <- app_assoc in Hq'|].
    rewrite (bool_decide_ext _ (room - 1 < k ∧ length w' = room - 1)%nat) by (simpl; lia).
    case_bool_decide.
    + destruct H as (kk & -> & Hkk). exists kk. split; [done|]. intros s2 Hs2. rewrite Hkk by done.
      simpl. f_equal; lia.
    + rewrite H. f_equal. f_equal. simpl. lia.
Qed.

(** The rest of [pipewrite] from byte [i] on. *)
Lemma pipewrite_from_run pi addr n p fuel i s q k :
  uctx p s → k_held s = [LK_pipe pi] → pipe_ok (pipe_of s pi) q →
  pi_readopen (pipe_of s pi) = true → p_killed (proc_of s p) = 0 →
  n = i + Z.of_nat k → (k < fuel)%nat →
  let room := (512 - length q)%nat in
  let w := take room (uread k (k_mem s) (root_of s p) addr i) in
  ∃ s', wrote pi p s s' ∧ pipe_ok (pipe_of s' pi) (q ++ w) ∧
    if bool_decide (room < k ∧ length w = room)%nat then
      ∃ kk, pipewrite_from fuel pi addr n i s =
          Yield (asleep p (Ch_pipe_nwrite pi) (woken (Some (Ch_pipe_nread pi)) s')) kk ∧
        ∀ s2, k_held s2 = [LK_proc p] →
          kk s2 = pipewrite_from (fuel - length w - 1) pi addr n
                    (i + Z.of_nat (length w)) (awoken p (LK_pipe pi) s2)
    else pipewrite_from fuel pi addr n i s =
      Ok (i + Z.of_nat (length w)) (set_k_held [] (woken (Some (Ch_pipe_nread pi)) s')).
Proof.
  intros Hu Hh Hq Hro Hkl Hn Hf room w. unfold pipewrite_from.
  destruct (pipewrite_loop pi addr n p k fuel i s q) as (s' & W & Hq' & H); try done.
  exists s'. split; [done|]. split; [done|]. fold room w in H.
  case_bool_decide as Hd.
  - destruct H as (kk & E & Hkk). eexists. split; [by apply bind_yields|].
    intros s2 Hs2. cbv beta. by rewrite Hkk.
  - rewrite (bind_Ok _ _ _ _ _ H). destruct (wrote_user _ _ _ _ Hu W) as (Hu' & _ & _).
    assert (k_held s' = [LK_pipe pi]) as Hh' by (rewrite (wr_st _ _ _ _ W); done).
    rewrite bind_wakeup; [|intros j; rewrite Hh'; set_solver|apply Hu'].
    by rewrite (bind_release _ []).
Qed.

(** A writer with bytes left stops at once when it is killed or no reader is
    left. *)
Definition refused (pi : Z) (p : nat) (s : kst) : Prop :=
  pi_readopen (pipe_of s pi) = false ∨ p_killed (proc_of s p) ≠ 0.
#[export] Instance refused_dec pi p s : Decision (refused pi p s).
Proof. unfold refused. apply _. Defined.
Lemma pipewrite_refused pi addr n p fuel i s :
  k_cur s = Some p → k_held s = [LK_pipe pi] → refused pi p s → i < n → (0 < fuel)%nat →
  pipewrite_from fuel pi addr n i s = Ok (-1) (set_k_held [] s).
Proof.
  intros Hc Hh Hbad Hi Hf. destruct fuel as [|fuel]; [lia|]. unfold pipewrite_from.
  rewrite (bind_Ok _ _ _ None s); [by rewrite (bind_release _ [])|].
  apply mloop_done. unfold pipewrite_step. destruct (Z.leb_spec n i); [lia|].
  rewrite (bind_curproc p) by done. msteps.
  destruct Hbad as [->|Hk]; [done|]. by rewrite (proj2 (Z.eqb_neq _ _) Hk), orb_true_r.
Qed.
Lemma pipewrite_end pi addr n p fuel s :
  uctx p s → k_held s = [LK_pipe pi] → (0 < fuel)%nat →
  pipewrite_from fuel pi addr n n s = Ok n (set_k_held [] (woken (Some (Ch_pipe_nread pi)) s)).
Proof.
  intros Hu Hh Hf. destruct fuel as [|fuel]; [lia|]. unfold pipewrite_from.
  rewrite (bind_Ok _ _ _ (Some n) s).
  - rewrite bind_wakeup; [|intros j; rewrite Hh; set_solver|apply Hu]. by rewrite (bind_release _ []).
  - apply mloop_done. unfold pipewrite_step. by rewrite Z.leb_refl.
Qed.

(** ** Reading *)

(** How many of [n] addresses from [addr + i] on user memory has. *)
Fixpoint uroom (n : nat) (m : mem) (root addr i : Z) : nat :=
  match n with
  | O => O
  | S n => if utrans m root (u64 (addr + i)) then S (uroom n m root addr (i + 1)) else O
  end.
Lemma uroom_ext n m m' root addr i :
  (∀ va, utrans m' root va = utrans m root va) → uroom n m' root addr i = uroom n m root addr i.
Proof.
  intros H. revert i. induction n as [|n IH]; intros i; simpl; [done|].
  rewrite H. by destruct (utrans m root _); [rewrite IH|].
Qed.
Lemma uroom_le n m root addr i : (uroom n m root addr i ≤ n)%nat.
Proof.
  revert i. induction n as [|n IH]; intros i; simpl; [lia|].
  destruct (utrans m root _); [specialize (IH (i + 1)); lia|lia].
Qed.

(** What a step of the reader changes: the pipe, the user bytes from
    [addr + i] on, which are now those of [l], and the place of [ch]. *)
Record fed (pi : Z) (p : nat) (addr i : Z) (l : list Z) (s s' : kst) : Prop := {
  fd_st : s' = set_k_mem (k_mem s') (set_k_pipes (k_pipes s') s);
  fd_others j : j ≠ pi → k_pipes s' !! j = k_pipes s !! j;
  fd_open : pi_readopen (pipe_of s' pi) = pi_readopen (pipe_of s pi) ∧
            pi_writeopen (pipe_of s' pi) = pi_writeopen (pipe_of s pi);
  fd_bytes j c : l !! j = Some c →
    upeek (k_mem s') (root_of s p) (u64 (addr + i + Z.of_nat j)) = Some c;
  fd_mem a : a ≠ KOBJ → (∀ j, (j < length l)%nat →
      utrans (k_mem s) (root_of s p) (u64 (addr + i + Z.of_nat j)) ≠ Some a) →
    rd (k_mem s') a = rd (k_mem s) a;
  fd_ok : mem_ok (k_mem s');
  fd_tabs : same_tabs (k_mem s) (k_mem s') (root_of s p);
}.

Lemma fed_uctx pi p addr i l s s' :
  uctx p s → fed pi p addr i l s s' → uctx p s' ∧ root_of s' p = root_of s p.
Proof.
  intros Hu [F1 _ _ _ _ F5 F6]. split; [|by rewrite F1].
  rewrite F1. by apply (uctx_mem p (set_k_pipes (k_pipes s') s)); [destruct Hu|..].
Qed.

(** One iteration on a nonempty pipe. *)
Lemma piperead_step pi addr i p s c q fuel :
  uctx p s → pipe_ok (pipe_of s pi) (c :: q) →
  ∃ s', pipe_ok (pipe_of s' pi) q ∧
    if utrans (k_mem s) (root_of s p) (u64 (addr + i)) then
      piperead_copy (S fuel) pi addr i s = piperead_copy fuel pi addr (i + 1) s' ∧
      fed pi p addr i [c] s s'
    else piperead_copy (S fuel) pi addr i s = Ok i s' ∧ fed pi p addr i [] s s'.
Proof.
  intros Hu Hq. cbn [piperead_copy]. mstep.
  rewrite (pipe_empty_ok _ _ Hq), bool_decide_false by done.
  destruct (pipe_get_ok _ _ _ Hq) as [Epk Hq']. rewrite Epk.
  assert (u8 c = c) as Hc by (apply u8_id; by pose proof (po_bytes _ _ Hq) as Hb; inversion Hb).
  rewrite (bind_curproc p) by apply Hu. mstep. unfold expose.
  set (s1 := set_k_mem (wr KOBJ c (k_mem s)) (upd_pipe pi pipe_skip s)).
  rewrite (bind_Ok _ _ _ KOBJ s1) by done. mstep.
  change (p_pagetable (proc_of s1 p)) with (root_of s p).
  pose proof (us_wf _ _ _ (uc_space _ _ Hu)) as Hw.
  assert (kernel_range (k_mem s) (root_of s p) KOBJ 1) as Hkr.
  { apply (kernel_low _ _ _ _ _ Hw). pose proof (uc_ly _ _ Hu). unfold KOBJ. lia. }
  assert (same_tabs (k_mem s) (k_mem s1) (root_of s p)) as Ht.
  { intros x a Hx Ha. simpl. apply rd_wr_ne. intros ->.
    apply (Hkr KOBJ x); [lia|by apply tabs_owns|done]. }
  assert (∀ va, utrans (k_mem s1) (root_of s p) va = utrans (k_mem s) (root_of s p) va) as HT.
  { intros va. by apply utrans_tabs. }
  destruct (copyout_byte (ly_end (k_ly s)) s1 (root_of s p) (u64 (addr + i)) KOBJ)
    as (m' & E & Hm & Ht' & Hrest & Hwr); [| |apply u64_range| |].
  { eapply uspace_tabs; [apply Hu|done]. } { apply mem_ok_wr, Hu. }
  { by eapply kernel_range_tabs. }
  erewrite bind_Ok by exact E. rewrite HT in Hrest, Hwr |- *.
  assert (same_tabs (k_mem s) m' (root_of s p)) as Htt.
  { intros x a Hx Ha. rewrite <- (Ht x a Hx Ha). apply (Ht' x a); [|done].
    destruct Hx as (pp & Hp & En). exists pp. split; [done|].
    rewrite (node_tabs (k_mem s)) by (done || (destruct Hp; done || lia)). done. }
  exists (set_k_mem m' s1). split.
  { change (pipe_of (set_k_mem m' s1) pi) with (pipe_of (upd_pipe pi pipe_skip s) pi).
    by rewrite pipe_of_upd. }
  assert (∀ a, a ≠ KOBJ → utrans (k_mem s) (root_of s p) (u64 (addr + i)) ≠ Some a →
    rd m' a = rd (k_mem s) a) as Hfr.
  { intros a Ha Hn. rewrite Hrest by done. by apply rd_wr_ne. }
  destruct (utrans (k_mem s) (root_of s p) (u64 (addr + i))) as [b|] eqn:Eb; cbn [Z.eqb].
  - split; [done|]. split; simpl; try done.
    + intros j Hj. by rewrite lookup_insert_ne.
    + unfold pipe_of. simpl. by rewrite lookup_insert_eq.
    + intros [|j] x; [|done]. intros [= ->]. simpl. rewrite Z.add_0_r. unfold upeek.
      rewrite (utrans_tabs (k_mem s) m') by done. rewrite Eb. simpl. f_equal.
      rewrite (Hwr b) by done. simpl. by rewrite rd_wr_eq.
    + intros a Ha Hn. apply Hfr; [done|]. specialize (Hn 0%nat ltac:(lia)).
      by rewrite Z.add_0_r, Eb in Hn.
  - split; [done|]. split; simpl; try done.
    + intros j Hj. by rewrite lookup_insert_ne.
    + unfold pipe_of. simpl. by rewrite lookup_insert_eq.
    + intros a Ha _. by apply Hfr.
Qed.

Lemma fed_cons pi p addr i c l s s1 s' :
  uctx p s → Z.of_nat (S (length l)) ≤ 2 ^ 32 →
  fed pi p addr i [c] s s1 → fed pi p addr (i + 1) l s1 s' → fed pi p addr i (c :: l) s s'.
Proof.
  intros Hu Hlen F1 F2. destruct (fed_uctx _ _ _ _ _ _ _ Hu F1) as [Hu1 Hr].
  pose proof F1 as [A1 A2 [A3 A3'] A4 A5 A6 A7]. pose proof F2 as [B1 B2 [B3 B3'] B4 B5 B6 B7].
  rewrite Hr in B4, B5, B7.
  assert (∀ va, utrans (k_mem s1) (root_of s p) va = utrans (k_mem s) (root_of s p) va) as HT.
  { intros va. by apply utrans_tabs. }
  assert (same_tabs (k_mem s) (k_mem s') (root_of s p)) as Ht.
  { intros x a Hx Ha. rewrite <- (A7 x a Hx Ha). apply (B7 x a); [|done].
    destruct Hx as (pp & Hp & En). exists pp. split; [done|].
    rewrite (node_tabs (k_mem s)) by (done || (destruct Hp; done || lia)). done. }
  split; try done.
  - rewrite B1, A1. done.
  - intros j Hj. by rewrite B2, A2.
  - by rewrite B3, B3'.
  - intros [|j] x E; simpl in E.
    + injection E as <-. rewrite Z.add_0_r. specialize (A4 0%nat c eq_refl).
      rewrite Z.add_0_r in A4. unfold upeek in *. rewrite HT in A4.
      rewrite (utrans_tabs (k_mem s) (k_mem s')) by done.
      destruct (utrans (k_mem s) (root_of s p) (u64 (addr + i))) as [b|] eqn:Eb; [|done].
      simpl in *. rewrite <- A4. f_equal. apply B5.
      * intros ->. destruct (utrans_owned _ _ _ _ _ (uc_space _ _ Hu) Eb)
          as (_ & v & _ & _ & Ex & Hok & _). destruct Hok as (_ & Hx & _).
        pose proof (uc_ly _ _ Hu). pose proof (Z.mod_pos_bound (u64 (addr + i)) PGSIZE ltac:(done)).
        unfold KOBJ in Ex. lia.
      * intros j Hj E'. rewrite HT in E'.
        pose proof (utrans_inj _ _ _ _ _ _ (uc_space _ _ Hu) Eb E') as Eu.
        unfold u64 in Eu. rewrite !Z.mod_eq in Eu by lia.
        assert ((addr + (i + 1) + Z.of_nat j) / 2 ^ 64 = (addr + i) / 2 ^ 64) by nia. lia.
    + specialize (B4 j x E). rewrite <- B4. do 2 f_equal. lia.
  - intros a Ha Hn. rewrite B5; [apply A5; [done|]|done|].
    + intros j Hj. assert (j = 0)%nat as -> by (simpl in Hj; lia). apply Hn. simpl. lia.
    + intros j Hj. rewrite HT. specialize (Hn (S j) ltac:(simpl; lia)). intros E. apply Hn.
      rewrite <- E. do 2 f_equal. lia.
Qed.

(** The reader's loop. *)
Lemma piperead_loop pi addr p n : ∀ i s q,
  uctx p s → pipe_ok (pipe_of s pi) q → Z.of_nat n ≤ 2 ^ 32 →
  let k := (length q `min` uroom n (k_mem s) (root_of s p) addr i)%nat in
  let lost := if bool_decide (k < n `min` length q)%nat then 1%nat else 0%nat in
  ∃ s', piperead_copy n pi addr i s = Ok (i + Z.of_nat k) s' ∧
    fed pi p addr i (take k q) s s' ∧ pipe_ok (pipe_of s' pi) (drop (k + lost) q).
Proof.
  induction n as [|n IH]; intros i s q Hu Hq Hn k lost.
  { assert (k = 0%nat) as Ek by (subst k; simpl; lia). rewrite Ek in *.
    exists s. split; [simpl; by rewrite Z.add_0_r|]. rewrite take_0. split; [|done].
    split; try done; [by destruct s|apply Hu]. }
  destruct q as [|c q].
  { exists s. cbn [piperead_copy]. mstep. rewrite (pipe_empty_ok _ _ Hq), bool_decide_true by done.
    mstep. simpl. split; [by rewrite Z.add_0_r|]. split; [|by destruct lost].
    split; try done; [by destruct s|apply Hu]. }
  destruct (piperead_step pi addr i p s c q n Hu Hq) as (s1 & Hq1 & H).
  subst lost k. cbn [uroom].
  destruct (utrans (k_mem s) (root_of s p) (u64 (addr + i))).
  2:{ destruct H as [E F]. exists s1. rewrite Nat.min_0_r. rewrite bool_decide_true by (simpl; lia).
      rewrite Z.add_0_r. simpl. by rewrite drop_0. }
  destruct H as [E F]. rewrite E. destruct (fed_uctx _ _ _ _ _ _ _ Hu F) as [Hu1 Hr1].
  destruct (IH (i + 1) s1 q Hu1 Hq1 ltac:(lia)) as (s' & E' & F' & Hq').
  rewrite Hr1, (uroom_ext _ (k_mem s)) in E', F', Hq'
    by (intros; apply utrans_tabs, (fd_tabs _ _ _ _ _ _ _ F)).
  set (u := uroom n (k_mem s) (root_of s p) addr (i + 1)) in *.
  pose proof (uroom_le n (k_mem s) (root_of s p) addr (i + 1)) as Hul. fold u in Hul.
  cbn [length Nat.min]. exists s'. split; [rewrite E'; f_equal; lia|]. split.
  - cbn [take]. apply (fed_cons _ _ _ _ _ _ _ s1); try done. rewrite length_take. lia.
  - simpl. rewrite (bool_decide_ext _ (length q `min` u < n `min` length q)%nat) by lia. done.
Qed.

Lemma piperead_ready pi s q :
  pipe_ok (pipe_of s pi) q → q ≠ [] ∨ pi_writeopen (pipe_of s pi) = false →
  piperead_wait pi s = Ok true s.
Proof.
  intros Hq Hr. unfold piperead_wait. change WAKEUPS with (S 63).
  apply mloop_done. mstep. rewrite (pipe_empty_ok _ _ Hq).
  destruct Hr as [Hr|Hr]; [by rewrite bool_decide_false|]. by rewrite Hr, andb_false_r.
Qed.

(** [piperead] once it need not wait. *)
Lemma piperead_run pi addr n p s q :
  uctx p s → k_held s = [] → pipe_ok (pipe_of s pi) q → 0 ≤ n < 2 ^ 31 →
  q ≠ [] ∨ pi_writeopen (pipe_of s pi) = false →
  let k := (length q `min` uroom (Z.to_nat n) (k_mem s) (root_of s p) addr 0)%nat in
  let lost := if bool_decide (k < Z.to_nat n `min` length q)%nat then 1%nat else 0%nat in
  ∃ s', piperead pi addr n s =
      Ok (Z.of_nat k) (woken (Some (Ch_pipe_nwrite pi)) s') ∧
    fed pi p addr 0 (take k q) s s' ∧ pipe_ok (pipe_of s' pi) (drop (k + lost) q).
Proof.
  intros Hu Hh Hq Hn Hr k lost. unfold piperead.
  rewrite bind_acquire by (rewrite Hh; set_solver). rewrite Hh.
  set (s1 := set_k_held [LK_pipe pi] s).
  rewrite (bind_Ok _ _ _ true s1) by (by apply (piperead_ready pi s1 q)). cbn [negb].
  destruct (piperead_loop pi addr p (Z.to_nat n) 0 s1 q) as (s' & E & F & Hq');
    [by destruct Hu|done|lia|].
  rewrite (bind_Ok _ _ _ _ _ E). pose proof (fd_st _ _ _ _ _ _ _ F) as Es.
  assert (k_held s' = [LK_pipe pi]) as Hh' by (by rewrite Es).
  assert (length (k_procs s') = NPROC) as Hp' by (rewrite Es; apply Hu).
  rewrite bind_wakeup; [|intros j; rewrite Hh'; set_solver|done].
  rewrite (bind_release _ []) by done.
  exists (set_k_held [] s'). split; [mstep; done|]. split; [|done].
  destruct F as [F1 F2 F3 F4 F5 F6 F7]. split; try done.
  rewrite F1. subst s1. by destruct s; simpl in *; subst.
Qed.

(** ** Properties *)

(** C16. Running with the pipe's lock held, from byte [i] of [n] on,
    [pipewrite] returns -1, with the lock released and nothing written, when
    bytes are left and no reader has the pipe open or the writer is killed.
    Otherwise it appends to the pipe's queue, in order, the bytes of the
    writer's memory that are readable and fit in the 512; nothing else but
    a local variable changes.  It then returns the number of bytes written,
    or, when the queue is full and more is to be written, wakes the readers and
    sleeps, and when resumed goes on at the first unwritten byte.  Counters
    may wrap past 2^32 meanwhile. *)
Theorem pipewrite_refines pi addr n p fuel i s q k :
  uctx p s → k_held s = [LK_pipe pi] → pipe_ok (pipe_of s pi) q →
  n = i + Z.of_nat k → (k < fuel)%nat →
  if bool_decide (0 < k ∧ refused pi p s)%nat
  then pipewrite_from fuel pi addr n i s = Ok (-1) (set_k_held [] s)
  else
  let room := (512 - length q)%nat in
  let w := take room (uread k (k_mem s) (root_of s p) addr i) in
  ∃ s', wrote pi p s s' ∧ pipe_ok (pipe_of s' pi) (q ++ w) ∧
    if bool_decide (room < k ∧ length w = room)%nat then
      ∃ kk, pipewrite_from fuel pi addr n i s =
          Yield (asleep p (Ch_pipe_nwrite pi) (woken (Some (Ch_pipe_nread pi)) s')) kk ∧
        ∀ s2, k_held s2 = [LK_proc p] →
          kk s2 = pipewrite_from (fuel - length w - 1) pi addr n
                    (i + Z.of_nat (length w)) (awoken p (LK_pipe pi) s2)
    else pipewrite_from fuel pi addr n i s =
      Ok (i + Z.of_nat (length w)) (set_k_held [] (woken (Some (Ch_pipe_nread pi)) s')).
Proof.
  intros Hu Hh Hq Hn Hf. case_bool_decide as Hb.
  { destruct Hb as [Hk Hr]. apply (pipewrite_refused pi addr n p); [apply Hu|done|done|lia|lia]. }
  destruct (decide (refused pi p s)) as [Hr|Hr].
  - assert (k = 0%nat) as -> by (destruct k; [done|exfalso; apply Hb; split; [lia|done]]).
    replace n with i by lia. exists s. cbn [uread]. rewrite take_nil, app_nil_r.
    split; [apply wrote_refl; apply Hu|]. split; [done|].
    rewrite bool_decide_false by lia. cbn [length]. rewrite Z.add_0_r. by apply (pipewrite_end _ _ _ p).
  - apply pipewrite_from_run; try done; unfold refused in Hr.
    + destruct (pi_readopen _); [done|]. destruct Hr. by left.
    + destruct (decide (p_killed (proc_of s p) = 0)); [done|]. destruct Hr. by right.
Qed.

(** C17. [piperead] on a pipe with data, or whose writers have closed it,
    returns without sleeping the number [k] of bytes it moved from the front
    of the queue to the reader's memory at [addr], the most that are asked
    for, queued and writable, and wakes the writers.  The rest of the queue
    stays, less one byte when the reader's memory ran out first: that byte is lost. *)
Theorem piperead_refines pi addr n p s q :
  uctx p s → k_held s = [] → pipe_ok (pipe_of s pi) q → 0 ≤ n < 2 ^ 31 →
  q ≠ [] ∨ pi_writeopen (pipe_of s pi) = false →
  let k := (length q `min` uroom (Z.to_nat n) (k_mem s) (root_of s p) addr 0)%nat in
  let lost := if bool_decide (k < Z.to_nat n `min` length q)%nat then 1%nat else 0%nat in
  ∃ s', piperead pi addr n s =
      Ok (Z.of_nat k) (woken (Some (Ch_pipe_nwrite pi)) s') ∧
    fed pi p addr 0 (take k q) s s' ∧ pipe_ok (pipe_of s' pi) (drop (k + lost) q).
Proof. apply piperead_run. Qed.

(** What one process writes to an empty pipe another reads back, byte
    for byte and across address spaces: [pipewrite] of [n] readable bytes, at
    most 512, returns [n], and a later [piperead] of [n] by a process with room for
    them returns [n] with the same bytes in its memory and leaves the pipe empty. *)
Theorem pipe_roundtrip pi addr n p s r addr' s2 :
  uctx p s → k_held s = [] → pipe_ok (pipe_of s pi) [] → 0 < n ≤ 512 →
  pi_readopen (pipe_of s pi) = true → p_killed (proc_of s p) = 0 →
  length (uread (Z.to_nat n) (k_mem s) (root_of s p) addr 0) = Z.to_nat n →
  uctx r s2 → k_held s2 = [] →
  uroom (Z.to_nat n) (k_mem s2) (root_of s2 r) addr' 0 = Z.to_nat n →
  ∃ s1, pipewrite pi addr n s = Ok n s1 ∧
    (pipe_of s2 pi = pipe_of s1 pi →
     ∃ s3, piperead pi addr' n s2 = Ok n s3 ∧ pipe_ok (pipe_of s3 pi) [] ∧
       ∀ i, 0 ≤ i < n → upeek (k_mem s3) (root_of s2 r) (u64 (addr' + i)) =
         upeek (k_mem s) (root_of s p) (u64 (addr + i))).
Proof.
  intros Hu Hh Hq Hn Hro Hkl Hlen Hu2 Hh2 Hroom.
  set (s0 := set_k_held [LK_pipe pi] s).
  destruct (pipewrite_from_run pi addr n p (S (Z.to_nat n + WAKEUPS)) 0 s0 [] (Z.to_nat n))
    as (s1 & W & Hq1 & E); [by destruct Hu|done|done|done|done|lia|lia|].
  change (uread _ (k_mem s0) (root_of s0 p) addr 0)
    with (uread (Z.to_nat n) (k_mem s) (root_of s p) addr 0) in *.
  set (w := uread (Z.to_nat n) (k_mem s) (root_of s p) addr 0) in *.
  rewrite take_ge, bool_decide_false, Hlen in E by (cbn [length]; lia).
  rewrite take_ge in Hq1 by (cbn [length]; lia). simpl in Hq1.
  eexists. split.
  { unfold pipewrite. rewrite bind_acquire by (rewrite Hh; set_solver). rewrite Hh.
    fold s0. rewrite E. f_equal. lia. }
  intros E2. change (pipe_of (set_k_held [] (woken _ s1)) pi) with (pipe_of s1 pi) in E2.
  rewrite <- E2 in Hq1.
  destruct (piperead_run pi addr' n r s2 w Hu2 Hh2 Hq1 ltac:(lia)) as (s3 & E3 & F & Hq3).
  { left. intros Hw. rewrite Hw in Hlen. simpl in Hlen. lia. }
  rewrite Hroom, Hlen, Nat.min_id in E3, Hq3. rewrite bool_decide_false, Nat.add_0_r in Hq3 by lia.
  rewrite Hroom, Hlen, Nat.min_id, <- Hlen, firstn_all in F.
  eexists. split; [rewrite E3; f_equal; lia|]. split.
  { rewrite <- Hlen, drop_ge in Hq3 by lia. exact Hq3. }
  intros i Hi. destruct (lookup_lt_is_Some_2 w (Z.to_nat i) ltac:(lia)) as [c Ec].
  pose proof (fd_bytes _ _ _ _ _ _ _ F _ _ Ec) as Hb.
  rewrite Z.add_0_r, Z2Nat.id in Hb by lia. simpl. rewrite Hb.
  apply uread_lookup in Ec. rewrite Z.add_0_r, Z2Nat.id in Ec by lia. done.
Qed.

(** The error paths: a writer whose readers have all closed the pipe, or
    that has been killed, gets -1 and writes nothing; a reader of an empty pipe that
    has writers gets -1 when killed, and otherwise sleeps, to look again
    when woken.  Every path releases the pipe's lock. *)
Theorem pipe_error_paths pi addr n p s q :
  uctx p s → k_held s = [] → pipe_ok (pipe_of s pi) q → 0 < n →
  let killed := p_killed (proc_of s p) in
  (pi_readopen (pipe_of s pi) = false ∨ killed ≠ 0 → pipewrite pi addr n s = Ok (-1) s) ∧
  (q = [] → pi_writeopen (pipe_of s pi) = true →
    if decide (killed = 0)
    then ∃ k, piperead pi addr n s = Yield (asleep p (Ch_pipe_nread pi) s) k
    else piperead pi addr n s = Ok (-1) s).
Proof.
  intros Hu Hh Hq Hn killed. set (s0 := set_k_held [LK_pipe pi] s).
  assert (set_k_held [] s0 = s) as Hs0.
  { unfold s0. rewrite set_k_held_twice. by apply set_k_held_id. }
  split.
  - intros Hbad. unfold pipewrite. rewrite bind_acquire by (rewrite Hh; set_solver).
    rewrite Hh. fold s0. transitivity (Ok (-1) (set_k_held [] s0)); [|by rewrite Hs0].
    apply (pipewrite_refused pi addr n p); [apply Hu|done|done|done|lia].
  - intros -> Hwo. unfold piperead. rewrite bind_acquire by (rewrite Hh; set_solver).
    rewrite Hh. fold s0. unfold piperead_wait. change WAKEUPS with (S 63).
    generalize 63%nat as f. intros f.
    assert (pipe_empty (pipe_of s0 pi) && pi_writeopen (pipe_of s0 pi) = true) as He.
    { change (pipe_of s0 pi) with (pipe_of s pi). by rewrite (pipe_empty_ok _ _ Hq), Hwo. }
    destruct (decide (killed = 0)) as [Hk|Hk].
    + destruct (sleep_yields (Ch_pipe_nread pi) (LK_pipe pi) p s0) as (k & E & _);
        [apply Hu|simpl; rewrite (uc_procs _ _ Hu); apply Hu|done|done|].
      eexists. apply bind_yields, mloop_yields. mstep. rewrite He.
      rewrite (bind_curproc p) by apply Hu. mstep.
      change (p_killed (proc_of s0 p)) with killed. rewrite Hk. by apply bind_yields.
    + rewrite (bind_Ok _ _ _ false s0).
      * cbn [negb]. rewrite (bind_release _ []), Hs0 by done. done.
      * apply mloop_done. mstep. rewrite He. rewrite (bind_curproc p) by apply Hu. mstep.
        change (p_killed (proc_of s0 p)) with killed.
        by rewrite (proj2 (Z.eqb_neq _ _) Hk).
Qed.

(** ** An example

    Process 2 with a pipe of its own, whose counters are about to wrap. *)
Definition PI : Z := 0x80030000.
Definition pipe_near_wrap : pipe := Pipe (replicate 512 0) 0xffffffe0 0xffffffe0 true true.
Definition with_pipe (x : pipe) (held : list lockid) (s : kst) : kst :=
  set_k_held held (upd_pipe PI (λ _, x) s).
Definition pipe_state (held : list lockid) : kst :=
  with_pipe pipe_near_wrap held (run_in 2 R0 space1).

Lemma with_pipe_uctx x held p s : uctx p s → uctx p (with_pipe x held s).
Proof. intros [H1 H2 H3 H4 H5 H6]. by split. Qed.
Lemma with_pipe_of x held s : pipe_of (with_pipe x held s) PI = x.
Proof. apply pipe_of_upd. Qed.
Lemma with_pipe_proc x held s : proc_of (with_pipe x held s) = proc_of s.
Proof. done. Qed.
Lemma pipe_near_wrap_ok : pipe_ok pipe_near_wrap [].
Proof. split; [by apply ring_nil|done|reflexivity|constructor]. Qed.
Lemma run_in_killed p root s i : p_killed (proc_of (run_in p root s) i) = p_killed (proc_of s i).
Proof.
  unfold proc_of, run_in. simpl. destruct (decide (p = i)) as [->|].
  - rewrite list_lookup_alter_eq. by destruct (k_procs s !! i).
  - by rewrite list_lookup_alter_ne.
Qed.
Lemma pipe_state_killed held : p_killed (proc_of (pipe_state held) 2) = 0.
Proof.
  unfold pipe_state. rewrite with_pipe_proc, run_in_killed. unfold proc_of.
  rewrite (vm_rest_procs _ _ space1_rest). reflexivity.
Qed.
Lemma pipe_state_uctx held : uctx 2 (pipe_state held).
Proof. exact (with_pipe_uctx pipe_near_wrap held 2 (run_in 2 R0 space1) user_uctx). Qed.
Lemma pipe_state_ok held : pipe_ok (pipe_of (pipe_state held) PI) [].
Proof. unfold pipe_state. rewrite with_pipe_of. apply pipe_near_wrap_ok. Qed.
Lemma pipe_state_open held :
  pi_readopen (pipe_of (pipe_state held) PI) = true ∧
  pi_writeopen (pipe_of (pipe_state held) PI) = true.
Proof. unfold pipe_state. by rewrite with_pipe_of. Qed.

Lemma pipewrite_refines_witness :
  ∃ s', wrote PI 2 (pipe_state [LK_pipe PI]) s' ∧
    pipe_ok (pipe_of s' PI) (take 512 (uread 600 (k_mem (pipe_state [LK_pipe PI]))
      (root_of (pipe_state [LK_pipe PI]) 2) 4050 0)).
Proof.
  pose proof (pipewrite_refines PI 4050 600 2 601 0 (pipe_state [LK_pipe PI]) [] 600
    (pipe_state_uctx _) eq_refl (pipe_state_ok _) eq_refl ltac:(lia)) as H.
  rewrite bool_decide_false in H.
  2:{ intros [_ [Ho|Hk]]; [by rewrite (proj1 (pipe_state_open _)) in Ho|apply Hk, pipe_state_killed]. }
  destruct H as (s' & W & Hq & _).
  exists s'. split; [exact W|exact Hq].
Defined.

(** The same pipe holding three bytes. *)
Definition pipe_three : pipe := pipe_put 30 (pipe_put 20 (pipe_put 10 pipe_near_wrap)).
Definition pipe_state3 : kst := with_pipe pipe_three [] (run_in 2 R0 space1).
Lemma pipe_three_ok : pipe_ok pipe_three [10; 20; 30].
Proof.
  apply (pipe_put_ok _ [10; 20] 30); [|done]. apply (pipe_put_ok _ [10] 20); [|done].
  apply (pipe_put_ok _ [] 10); [|done]. apply pipe_near_wrap_ok.
Qed.
Lemma piperead_refines_witness :
  ∃ r s', piperead PI 100 2 pipe_state3 = Ok r (woken (Some (Ch_pipe_nwrite PI)) s').
Proof.
  destruct (piperead_refines PI 100 2 2 pipe_state3 [10; 20; 30]) as (s' & E & _).
  - exact (with_pipe_uctx pipe_three [] 2 (run_in 2 R0 space1) user_uctx).
  - reflexivity.
  - unfold pipe_state3. rewrite with_pipe_of. apply pipe_three_ok.
  - lia.
  - left. discriminate.
  - eexists _, s'. exact E.
Defined.

Lemma pipe_roundtrip_witness :
  ∃ s1, pipewrite PI 4000 200 (pipe_state []) = Ok 200 s1.
Proof.
  destruct (pipe_roundtrip PI 4000 200 2 (pipe_state []) 2 100 (pipe_state [])
    (pipe_state_uctx _) eq_refl (pipe_state_ok _)) as (s1 & E & _).
  - lia.
  - exact (proj1 (pipe_state_open [])).
  - exact (pipe_state_killed []).
  - vm_compute. reflexivity.
  - exact (pipe_state_uctx []).
  - reflexivity.
  - vm_compute. reflexivity.
  - exists s1. exact E.
Defined.

Lemma pipe_error_paths_witness :
  ∃ k, piperead PI 100 5 (pipe_state []) = Yield (asleep 2 (Ch_pipe_nread PI) (pipe_state [])) k.
Proof.
  destruct (pipe_error_paths PI 100 5 2 (pipe_state []) [] (pipe_state_uctx _) eq_refl
    (pipe_state_ok _)) as [_ H]; [lia|].
  specialize (H eq_refl (proj2 (pipe_state_open _))).
  rewrite decide_True in H by exact (pipe_state_killed []). exact H.
Defined.
