(* ===== verification/File.v ===== *)
(** * Open files: operations

    [kernel/file.c] and [pipealloc] of [kernel/pipe.c].  [struct file *] is an
    index into [k_ftable]. *)

From stdpp Require Import options.
From S2P Require Import Prelude CString State Sched Sleeplock Kalloc Vm Bio Block Log Copy Fs Console Pipe.
#[local] Open Scope Z_scope.

Definition CONSOLE : Z := 1.
(** [devsw[major]] after [consoleinit]. *)
Definition devsw_read (major : Z) : option (bool → Z → Z → K Z) :=
  if major =? CONSOLE then Some consoleread else None.
Definition devsw_write (major : Z) : option (bool → Z → Z → K Z) :=
  if major =? CONSOLE then Some consolewrite else None.

Definition filealloc : K (option nat) :=
  acquire LK_ftable;;
  r ← mfind NFILE 0 (λ i,
        let f := Z.to_nat i in
        ref ← gets (λ s, f_ref (file_of s f));
        if ref =? 0 then
          modify (upd_file f (set_f_ref 1));;
          mret (Some f)
        else mret None);
  release LK_ftable;;
  mret r.

Definition filedup (f : nat) : K nat :=
  acquire LK_ftable;;
  ref ← gets (λ s, f_ref (file_of s f));
  if ref <? 1 then panic "filedup" else
  modify (upd_file f (set_f_ref (ref + 1)));;
  release LK_ftable;;
  mret f.

(** [iput] and [ilock] of a pointer that may be null. *)
Definition iput_ptr (ip : option nat) : K unit :=
  match ip with Some ip => iput ip | None => panic "kerneltrap" end.
Definition ilock_ptr (ip : option nat) : K nat :=
  match ip with Some ip => ilock ip;; mret ip | None => panic "ilock" end.

Definition fileclose (f : nat) : K unit :=
  acquire LK_ftable;;
  ref ← gets (λ s, f_ref (file_of s f));
  if ref <? 1 then panic "fileclose" else
  modify (upd_file f (set_f_ref (ref - 1)));;
  if 0 <? ref - 1 then release LK_ftable else
  ff ← gets (λ s, file_of s f);
  modify (upd_file f (set_f_ref 0));;
  modify (upd_file f (set_f_type FD_NONE));;
  release LK_ftable;;
  match f_type ff with
  | FD_PIPE => pipeclose (f_pipe ff) (f_writable ff)
  | FD_INODE | FD_DEVICE =>
    begin_op;;
    iput_ptr (f_ip ff);;
    end_op
  | FD_NONE => mret ()
  end.

Definition filestat (f : nat) (addr : Z) : K Z :=
  p ← curproc;
  x ← gets (λ s, file_of s f);
  match f_type x with
  | FD_INODE | FD_DEVICE =>
    ip ← ilock_ptr (f_ip x);
    st ← stati ip;
    iunlock ip;;
    pagetable ← gets (λ s, p_pagetable (proc_of s p));
    src ← expose st;
    r ← copyout pagetable addr src sizeof_stat;
    if r <? 0 then mret (-1) else mret 0
  | _ => mret (-1)
  end.

Definition fileread (f : nat) (addr n : Z) : K Z :=
  x ← gets (λ s, file_of s f);
  if negb (f_readable x) then mret (-1) else
  match f_type x with
  | FD_PIPE => piperead (f_pipe x) addr n
  | FD_DEVICE =>
    if (f_major x <? 0) || (NDEV <=? f_major x) then mret (-1) else
    match devsw_read (f_major x) with
    | Some read => read true addr n
    | None => mret (-1)
    end
  | FD_INODE =>
    ip ← ilock_ptr (f_ip x);
    off ← gets (λ s, f_off (file_of s f));
    r ← readi ip true addr off (u32 n);
    when (0 <? r) (modify (upd_file f (λ x, set_f_off (u32 (f_off x + r)) x)));;
    iunlock ip;;
    mret r
  | FD_NONE => panic "fileread"
  end.

(** [max] of [filewrite]: the bytes one transaction can take. *)
Definition filewrite_max : Z := (MAXOPBLOCKS - 1 - 1 - 2) / 2 * BSIZE.
(** The loop for inodes, from byte [i] on; it returns the final [i]. *)
Fixpoint filewrite_loop (fuel : nat) (f : nat) (addr n i : Z) : K Z :=
  match fuel with
  | O => λ _, NoFuel
  | S fuel =>
    if n <=? i then mret i else
    let n1 := Z.min (n - i) filewrite_max in
    begin_op;;
    x ← gets (λ s, file_of s f);
    ip ← ilock_ptr (f_ip x);
    off ← gets (λ s, f_off (file_of s f));
    r ← writei ip true (u64 (addr + i)) off n1;
    when (0 <? r) (modify (upd_file f (λ x, set_f_off (u32 (f_off x + r)) x)));;
    iunlock ip;;
    end_op;;
    if negb (r =? n1) then mret i
    else filewrite_loop fuel f addr n (i + r)
  end.
Definition filewrite (f : nat) (addr n : Z) : K Z :=
  x ← gets (λ s, file_of s f);
  if negb (f_writable x) then mret (-1) else
  match f_type x with
  | FD_PIPE => pipewrite (f_pipe x) addr n
  | FD_DEVICE =>
    if (f_major x <? 0) || (NDEV <=? f_major x) then mret (-1) else
    match devsw_write (f_major x) with
    | Some write => write true addr n
    | None => mret (-1)
    end
  | FD_INODE =>
    i ← filewrite_loop (S (S (Z.to_nat (n / filewrite_max)))) f addr n 0;
    mret (if i =? n then n else -1)
  | FD_NONE => panic "filewrite"
  end.

(** ** pipealloc *)

(** The fields of a new pipe; [data] is what the page holds. *)
Definition new_pipe (m : mem) (pi : Z) : pipe :=
  Pipe (rd_bytes m (pi + 24) (Z.to_nat PIPESIZE)) 0 0 true true.
Definition pipe_end (writable : bool) (pi : Z) (x : file) : file :=
  set_f_pipe pi (set_f_writable writable (set_f_readable (negb writable) (set_f_type FD_PIPE x))).
Definition pipealloc : K (option (nat * nat)) :=
  f0 ← filealloc;
  match f0 with
  | None => mret None
  | Some f0 =>
    f1 ← filealloc;
    match f1 with
    | None => fileclose f0;; mret None
    | Some f1 =>
      pi ← kalloc;
      if pi =? 0 then fileclose f0;; fileclose f1;; mret None
      else
        modify (λ s, set_k_pipes (<[pi := new_pipe (k_mem s) pi]> (k_pipes s)) s);;
        modify (upd_file f0 (pipe_end false pi));;
        modify (upd_file f1 (pipe_end true pi));;
        mret (Some (f0, f1))
    end
  end.
