(* ===== verification/Proc.v ===== *)
(** * Processes: operations

    The process table of [kernel/proc.c]: allocation, [fork], [exit] and
    [wait], and the page table of a process.  The trapframe of a process is a
    page of memory; its fields are 64-bit words at the offsets of
    [struct trapframe] ([kernel/proc.h]). *)

From stdpp Require Import options.
From S2P Require Import Prelude CString State Sched Sleeplock Kalloc Vm Bio Block Log Copy Fs Console Pipe File.
#[local] Open Scope Z_scope.

(** ** The trapframe *)

(** The fields of [struct trapframe], in the order of the structure; each is a
    64-bit word. *)
Inductive tfield :=
| TF_kernel_satp | TF_kernel_sp | TF_kernel_trap | TF_epc | TF_kernel_hartid | TF_ra |
  TF_sp | TF_gp | TF_tp | TF_t0 | TF_t1 | TF_t2 | TF_s0 | TF_s1 | TF_a0 | TF_a1 | TF_a2
  | TF_a3 | TF_a4 | TF_a5 | TF_a6 | TF_a7 | TF_s2 | TF_s3 | TF_s4 | TF_s5 | TF_s6 |
  TF_s7 | TF_s8 | TF_s9 | TF_s10 | TF_s11 | TF_t3 | TF_t4 | TF_t5 | TF_t6.
#[export] Instance tfield_eq_dec : EqDecision tfield.
Proof. solve_decision. Defined.
Definition tfields : list tfield :=
  [TF_kernel_satp; TF_kernel_sp; TF_kernel_trap; TF_epc; TF_kernel_hartid; TF_ra;
   TF_sp; TF_gp; TF_tp; TF_t0; TF_t1; TF_t2; TF_s0; TF_s1; TF_a0; TF_a1; TF_a2; TF_a3;
   TF_a4; TF_a5; TF_a6; TF_a7; TF_s2; TF_s3; TF_s4; TF_s5; TF_s6; TF_s7; TF_s8; TF_s9;
   TF_s10; TF_s11; TF_t3; TF_t4; TF_t5; TF_t6].
(** The offset of a field: its position in the structure. *)
Definition tf_off (f : tfield) : Z :=
  match list_find (λ g, g = f) tfields with
  | Some (i, _) => 8 * Z.of_nat i
  | None => 0
  end.
Definition sizeof_trapframe : Z := 8 * Z.of_nat (length tfields).
(** [p->trapframe->f] and its assignment. *)
Definition tf_get (p : nat) (f : tfield) : K Z :=
  tf ← gets (λ s, p_trapframe (proc_of s p));
  ld64 (tf + tf_off f).
Definition tf_set (p : nat) (f : tfield) (v : Z) : K unit :=
  tf ← gets (λ s, p_trapframe (proc_of s p));
  st64 (tf + tf_off f) v.

(** [safestrcpy(p->name, src, sizeof(p->name))] *)
Definition set_name (p : nat) (src : Z) : K unit :=
  nm ← gets (λ s, p_name (proc_of s p));
  dst ← expose nm;
  modify (λ s, set_k_mem (safestrcpy (k_mem s) dst src 16) s);;
  nm ← absorb 16;
  modify (upd_proc p (set_p_name nm)).

(** ** The process table *)

Definition procinit : K unit :=
  mfor NPROC 0 (λ i, modify (upd_proc (Z.to_nat i) (set_p_kstack (KSTACK i)))).

Definition allocpid : K Z :=
  acquire LK_pid;;
  pid ← gets k_nextpid;
  modify (set_k_nextpid (i32 (pid + 1)));;
  release LK_pid;;
  mret pid.

Definition proc_pagetable (p : nat) : K Z :=
  pagetable ← uvmcreate;
  if pagetable =? 0 then mret 0 else
  ly ← gets k_ly;
  r ← mappages pagetable TRAMPOLINE PGSIZE (ly_trampoline ly) (Z.lor PTE_R PTE_X);
  if r <? 0 then uvmfree pagetable 0;; mret 0 else
  tf ← gets (λ s, p_trapframe (proc_of s p));
  r ← mappages pagetable TRAPFRAME PGSIZE tf (Z.lor PTE_R PTE_W);
  if r <? 0 then
    uvmunmap pagetable TRAMPOLINE 1 false;;
    uvmfree pagetable 0;;
    mret 0
  else mret pagetable.

Definition proc_freepagetable (pagetable sz : Z) : K unit :=
  uvmunmap pagetable TRAMPOLINE 1 false;;
  uvmunmap pagetable TRAPFRAME 1 false;;
  uvmfree pagetable sz.

Definition clear_proc (x : proc) : proc :=
  set_p_state UNUSED (set_p_xstate 0 (set_p_killed 0 (set_p_chan None
    (set_p_name (<[0%nat := 0]> (p_name x)) (set_p_parent None (set_p_pid 0 (set_p_sz 0
      (set_p_pagetable 0 x)))))))).
Definition freeproc (p : nat) : K unit :=
  tf ← gets (λ s, p_trapframe (proc_of s p));
  when (negb (tf =? 0)) (kfree tf);;
  modify (upd_proc p (set_p_trapframe 0));;
  x ← gets (λ s, proc_of s p);
  when (negb (p_pagetable x =? 0)) (proc_freepagetable (p_pagetable x) (p_sz x));;
  modify (upd_proc p clear_proc).

(** The context of a new process: it starts in [forkret] on its own stack. *)
Definition start_context (ly : layout) (x : proc) : proc :=
  set_p_context (Context (ly_forkret ly) (p_kstack x + PGSIZE) (replicate 12 0)) x.

(** The search of [allocproc]: an [UNUSED] entry, with its lock held. *)
Definition find_unused_proc : K (option nat) :=
  mfind NPROC 0 (λ i,
    let p := Z.to_nat i in
    acquire (LK_proc p);;
    st ← gets (λ s, p_state (proc_of s p));
    if decide (st = UNUSED) then mret (Some p)
    else release (LK_proc p);; mret None).
Definition allocproc : K (option nat) :=
  r ← find_unused_proc;
  match r with
  | None => mret None
  | Some p =>
    pid ← allocpid;
    modify (upd_proc p (set_p_pid pid));;
    modify (upd_proc p (set_p_state USED));;
    tf ← kalloc;
    modify (upd_proc p (set_p_trapframe tf));;
    if tf =? 0 then freeproc p;; release (LK_proc p);; mret None else
    pagetable ← proc_pagetable p;
    modify (upd_proc p (set_p_pagetable pagetable));;
    if pagetable =? 0 then freeproc p;; release (LK_proc p);; mret None else
    ly ← gets k_ly;
    modify (upd_proc p (start_context ly));;
    mret (Some p)
  end.

(** [initcode[]] *)
Definition initcode : list Z :=
  [0x17; 0x05; 0x00; 0x00; 0x13; 0x05; 0x45; 0x02;
   0x97; 0x05; 0x00; 0x00; 0x93; 0x85; 0x35; 0x02;
   0x93; 0x08; 0x70; 0x00; 0x73; 0x00; 0x00; 0x00;
   0x93; 0x08; 0x20; 0x00; 0x73; 0x00; 0x00; 0x00;
   0xef; 0xf0; 0x9f; 0xff; 0x2f; 0x69; 0x6e; 0x69;
   0x74; 0x00; 0x00; 0x24; 0x00; 0x00; 0x00; 0x00;
   0x00; 0x00; 0x00; 0x00].

(** A null result of [allocproc] is dereferenced: the kernel faults. *)
Definition userinit : K unit :=
  r ← allocproc;
  modify (set_k_initproc r);;
  match r with
  | None => panic "kerneltrap"
  | Some p =>
    pagetable ← gets (λ s, p_pagetable (proc_of s p));
    uvminit pagetable initcode;;
    modify (upd_proc p (set_p_sz PGSIZE));;
    tf_set p TF_epc 0;;
    tf_set p TF_sp PGSIZE;;
    nm ← lit_initcode;
    set_name p nm;;
    path ← lit_slash;
    cwd ← namei path;
    modify (upd_proc p (set_p_cwd cwd));;
    modify (upd_proc p (set_p_state RUNNABLE));;
    release (LK_proc p)
  end.

(** [sz] is a 32-bit variable. *)
Definition growproc (n : Z) : K Z :=
  p ← curproc;
  x ← gets (λ s, proc_of s p);
  let sz := u32 (p_sz x) in
  if 0 <? n then
    r ← uvmalloc (p_pagetable x) sz (u32 (sz + n));
    let sz := u32 r in
    if sz =? 0 then mret (-1)
    else modify (upd_proc p (set_p_sz sz));; mret 0
  else if n <? 0 then
    r ← uvmdealloc (p_pagetable x) sz (u32 (sz + n));
    modify (upd_proc p (set_p_sz (u32 r)));;
    mret 0
  else modify (upd_proc p (set_p_sz sz));; mret 0.

(** ** fork, exit and wait *)

(** [p->ofile[i]] *)
Definition ofile_of (s : kst) (p : nat) (i : Z) : option nat :=
  default None (p_ofile (proc_of s p) !! Z.to_nat i).
Definition set_ofile (p : nat) (i : Z) (f : option nat) : K unit :=
  modify (upd_proc p (λ x, set_p_ofile (<[Z.to_nat i := f]> (p_ofile x)) x)).
Definition idup_ptr (ip : option nat) : K (option nat) :=
  match ip with
  | Some ip => ip ← idup ip; mret (Some ip)
  | None => panic "kerneltrap"
  end.

Definition fork : K Z :=
  p ← curproc;
  r ← allocproc;
  match r with
  | None => mret (-1)
  | Some np =>
    x ← gets (λ s, proc_of s p);
    npt ← gets (λ s, p_pagetable (proc_of s np));
    c ← uvmcopy (p_pagetable x) npt (p_sz x);
    if c <? 0 then freeproc np;; release (LK_proc np);; mret (-1) else
    modify (upd_proc np (set_p_sz (p_sz x)));;
    ntf ← gets (λ s, p_trapframe (proc_of s np));
    kmemmove ntf (p_trapframe x) sizeof_trapframe;;
    tf_set np TF_a0 0;;
    mfor NOFILE 0 (λ i,
      f ← gets (λ s, ofile_of s p i);
      match f with
      | Some f => f ← filedup f; set_ofile np i (Some f)
      | None => mret ()
      end);;
    cwd ← idup_ptr (p_cwd x);
    modify (upd_proc np (set_p_cwd cwd));;
    nm ← gets (λ s, p_name (proc_of s p));
    modify (λ s, set_k_mem (wr_bytes (k_mem s) (KOBJ + 16) nm) s);;
    set_name np (KOBJ + 16);;
    pid ← gets (λ s, p_pid (proc_of s np));
    release (LK_proc np);;
    acquire LK_wait;;
    modify (upd_proc np (set_p_parent (Some p)));;
    release LK_wait;;
    acquire (LK_proc np);;
    modify (upd_proc np (set_p_state RUNNABLE));;
    release (LK_proc np);;
    mret pid
  end.

Definition reparent (p : nat) : K unit :=
  mfor NPROC 0 (λ i,
    let pp := Z.to_nat i in
    parent ← gets (λ s, p_parent (proc_of s pp));
    when (bool_decide (parent = Some p))
      (init ← gets k_initproc;
       modify (upd_proc pp (set_p_parent init));;
       wakeup (Ch_proc <$> init))).

Definition exit (status : Z) : K unit :=
  p ← curproc;
  init ← gets k_initproc;
  if decide (Some p = init) then panic "init exiting" else
  mfor NOFILE 0 (λ fd,
    f ← gets (λ s, ofile_of s p fd);
    match f with
    | Some f => fileclose f;; set_ofile p fd None
    | None => mret ()
    end);;
  begin_op;;
  cwd ← gets (λ s, p_cwd (proc_of s p));
  iput_ptr cwd;;
  end_op;;
  modify (upd_proc p (set_p_cwd None));;
  acquire LK_wait;;
  reparent p;;
  parent ← gets (λ s, p_parent (proc_of s p));
  wakeup (Ch_proc <$> parent);;
  acquire (LK_proc p);;
  modify (upd_proc p (set_p_xstate status));;
  modify (upd_proc p (set_p_state ZOMBIE));;
  release LK_wait;;
  sched;;
  panic "zombie exit".

(** The scan of [wait] from entry [i] on: the value to return, or whether the
    process has children. *)
Fixpoint wait_scan (n i : nat) (p : nat) (addr : Z) (havekids : bool) : K (Z + bool) :=
  match n with
  | O => mret (inr havekids)
  | S n =>
    np ← gets (λ s, proc_of s i);
    if decide (p_parent np = Some p) then
      acquire (LK_proc i);;
      np ← gets (λ s, proc_of s i);
      if decide (p_state np = ZOMBIE) then
        pagetable ← gets (λ s, p_pagetable (proc_of s p));
        r ← (if addr =? 0 then mret 0
             else
               src ← expose (le_bytes 4 (p_xstate np));
               copyout pagetable addr src 4);
        if r <? 0 then
          release (LK_proc i);;
          release LK_wait;;
          mret (inl (-1))
        else
          freeproc i;;
          release (LK_proc i);;
          release LK_wait;;
          mret (inl (p_pid np))
      else
        release (LK_proc i);;
        wait_scan n (S i) p addr true
    else wait_scan n (S i) p addr havekids
  end.
Definition wait (addr : Z) : K Z :=
  p ← curproc;
  acquire LK_wait;;
  mloop WAKEUPS (λ _ : unit,
    r ← wait_scan NPROC 0 p addr false;
    match r with
    | inl v => mret (inr v)
    | inr havekids =>
      killed ← gets (λ s, p_killed (proc_of s p));
      if negb havekids || negb (killed =? 0) then
        release LK_wait;;
        mret (inr (-1))
      else
        sleep (Ch_proc p) LK_wait;;
        mret (inl ())
    end) ().
