(* ===== verification/ProcMem.v ===== *)
(** * The memory of processes

    The page table of a process: [proc_pagetable] and [proc_freepagetable].  A
    process owns its trapframe and the pages its page table reaches below [TRAPFRAME];
    the trampoline and the trapframe are mapped at the top, where user code
    cannot reach them. *)

From stdpp Require Import options.
From S2P Require Import Prelude CString State Sched Sleeplock Kalloc Vm PageTable VmWalk VmSpec VmOps VmFree VmCopy VmProps Bio Block Log Copy Fs Console Pipe File Proc.
#[local] Open Scope Z_scope.
#[local] Existing Instance user_leaves.

(** ** The two mappings at the top *)

Definition is_top (va : Z) : Prop := va = TRAMPOLINE ∨ va = TRAPFRAME.
Lemma top_range va : is_top va → aligned va ∧ TRAPFRAME ≤ va ∧ va + PGSIZE ≤ MAXVA.
Proof. by intros [->| ->]. Qed.
Lemma top_unowned va : is_top va → ¬ owned_path (va_path va).
Proof. intros [->| ->] (_ & _ & H); by destruct (H eq_refl). Qed.
Lemma path_top va p i :
  is_top va → length p = 2%nat → Forall idx (p ++ [i]) →
  ¬ range va (va + PGSIZE) (p ++ [i]) → p ++ [i] ≠ va_path va.
Proof.
  intros Ht Hl Hi Hn E. apply Hn. destruct (top_range va Ht) as (Hal & H1 & H2).
  apply range_one; [done| |done]. pose proof TRAPFRAME_val. pose proof MAXVA_val. unfold PGSIZE in *. lia.
Qed.
Lemma range_path va p :
  aligned va → Forall idx p → length p = 3%nat → range va (va + PGSIZE) p → p = va_path va.
Proof.
  intros Ha Hi Hl Hr. destruct (va_path_of p Hi Hl) as [E Hm]. rewrite <- E. f_equal. unfold range in Hr.
  apply Z.mod_divide in Ha as [i ->]; [|done]. apply Z.mod_divide in Hm as [j Hj]; [|done].
  rewrite Hj in *. unfold PGSIZE in *. lia.
Qed.
Lemma tops_apart :
  ¬ range TRAMPOLINE (TRAMPOLINE + PGSIZE) (va_path TRAPFRAME) ∧
  ¬ range TRAPFRAME (TRAPFRAME + PGSIZE) (va_path TRAMPOLINE).
Proof. rewrite !range_va_path by done. split; [intros [H _]; by apply H|intros [_ H]; done]. Qed.

Section top.
Context (root : Z) (s : kst) (l X : list Z) (va : Z).
Context (Hv : vmx s root l X) (Ht : is_top va).

Lemma upd_mapped_top pa perm s' l' :
  mapped root va pa perm 1 s l s' l' → upd root s l X s' l' X (range va (va + PGSIZE)).
Proof using All.
  intros [M1 M2 M3 M4 M5 M6 M7 M8]. pose proof Hv as [H1 H2 H3 H4 H5].
  assert (∀ q, q ∈ l' ∨ owns (k_mem s') root q ↔ q ∈ l ∨ owns (k_mem s) root q) as Hpg.
  { intros q. rewrite M3. split; [|tauto]. intros [?|[?|(i & Hi & Ho & _)]]; [tauto|tauto|].
    assert (i = 0) as -> by lia. rewrite Z.mul_0_l, Z.add_0_r in Ho. by destruct (top_unowned va Ht). }
  assert (same_but (λ q, q ∈ l ++ X ∨ owns (k_mem s) root q) (k_mem s) (k_mem s')) as Hs.
  { eapply same_but_mono; [|exact M8]. intros q [?|?%tabs_owns]; [left; set_solver|by right]. }
  split; try done.
  - destruct M2 as [N1 N2 N3]. split; try done.
    + eapply as_wf_same_but; [exact N2|by apply (same_but_refl (λ _, False))|done|].
      intros q [?|Hq]%elem_of_app; [by left|right]. intros Ho.
      destruct (vmx_limbo _ _ _ _ _ Hv Hq) as (? & ? & _).
      destruct (proj1 (Hpg q) (or_intror Ho)); done.
    + apply (sub_list_nodup l); [apply N1|done|done].
    + by rewrite (vm_rest_ly _ _ M1).
  - intros q. specialize (Hpg q). rewrite !elem_of_app; tauto.
  - intros p i Hl Hi Hn. apply M7; try done. intros j Hj. assert (j = 0) as -> by lia.
    rewrite Z.mul_0_l, Z.add_0_r. by apply path_top.
  - intros p q b Hl Hp _ E Hb. eapply (same_but_leaf_bytes _ _ _ root l (l ++ X) p q b);
      try done; [set_solver|]. by eapply kmem_aligned.
Qed.

Lemma mappages_top pa perm :
  pte_of (k_mem s) root va = None → aligned pa → 0 ≤ pa → pa + PGSIZE ≤ 2 ^ 56 → 0 ≤ perm < 1024 →
  Z.land perm (Z.lor (Z.lor PTE_R PTE_W) PTE_X) ≠ 0 →
  ∃ r s' l', mappages root va PGSIZE pa perm s = Ok r s' ∧
    ((r = 0 ∧ upd root s l X s' l' X (range va (va + PGSIZE)) ∧
      pte_of (k_mem s') root va = Some (pte_mk pa perm)) ∨
     (r = -1 ∧ upd root s l X s' l' X nowhere)).
Proof using All.
  intros Hnone Hal Hpa Hpa2 Hperm Hrwx. destruct (top_range va Ht) as (Hva & Hva1 & Hva2).
  pose proof TRAPFRAME_val as HT. pose proof MAXVA_val as HM.
  assert (map_ok s l root va pa perm 1) as Hok.
  { split; try done; try lia.
    - split; [done|]. lia.
    - intros i Hi. assert (i = 0) as -> by lia. by rewrite Z.mul_0_l, Z.add_0_r.
    - intros i Hi. assert (i = 0) as -> by lia. rewrite Z.mul_0_l, Z.add_0_r.
      intros Ho. by destruct (top_unowned va Ht). }
  destruct (mappages_spec root va pa perm 1 s l (vmx_vm_inv _ _ _ _ Hv) Hok)
    as (r & s' & l' & k & E & Hm & Hr). rewrite Z.mul_1_l in E.
  exists r, s', l'. split; [done|]. destruct Hr as [[-> ->]|(-> & Hk & ->)].
  - left. split; [done|]. split; [by eapply upd_mapped_top|].
    rewrite (mp_pte _ _ _ _ _ _ _ _ _ Hm) by (unfold PGSIZE in *; lia).
    rewrite decide_True by (unfold PGSIZE; lia). f_equal. f_equal.
    pose proof (aligned_div va 0 Hva) as Hd. rewrite Z.mul_0_l, Z.add_0_r in Hd. lia.
  - right. split; [done|]. assert (k = 0) as -> by lia. by eapply upd_mapped_none.
Qed.

Lemma unmap_top v :
  pte_of (k_mem s) root va = Some v →
  ∃ s', uvmunmap root va 1 false s = Ok () s' ∧ upd root s l X s' l X (range va (va + PGSIZE)) ∧
    pte_of (k_mem s') root va = None.
Proof using All.
  intros Hp. destruct (top_range va Ht) as (Hva & Hva1 & Hva2). pose proof Hv as [H1 H2 H3 H4 H5].
  pose proof TRAPFRAME_val as HT. pose proof MAXVA_val as HM.
  destruct (pte_of_walk _ _ _ _ Hp) as (pt & Hpt & Ew & Hld & HV).
  set (m1 := store64 (k_mem s) (pt + 8 * PX 0 va) 0).
  assert (uvmunmap root va 1 false s = Ok () (set_k_mem m1 s)) as E.
  { unfold uvmunmap. unfold aligned in Hva. rewrite Hva. cbn [Z.eqb negb].
    rewrite (u64_id (1 * PGSIZE)), u64_id by (unfold PGSIZE in *; lia).
    replace (va + 1 * PGSIZE - va) with (1 * PGSIZE) by lia. rewrite Z.div_mul by done.
    change (Z.to_nat 1) with 1%nat. cbn [uvmunmap_loop]. erewrite bind_Ok by (apply walk_noalloc; unfold PGSIZE in *; lia).
    rewrite (proj2 (Z.eqb_neq _ _) (walk_result_pos _ _ _ _ _ _ Hv Hp)). vstep. rewrite Ew, Hld, HV. cbn [negb].
    rewrite (proj2 (Z.eqb_neq _ _) (leaf_flags _ _ _ _ _ _ Hv Hp)). cbn [when]. by vstep. }
  assert (Forall idx [PX 2 va; PX 1 va]) as Hpi by apply (table_path_va va).
  assert (idx (PX 0 va)) as Hi0 by (apply PX_idx; lia).
  assert (tabs (k_mem s) root pt) as Htb by (exists [PX 2 va; PX 1 va]; auto).
  destruct (owns_ok _ _ _ _ _ H2 (tabs_owns _ _ _ Htb)) as [Hpok Hpni].
  assert (same_but (eq pt) (k_mem s) m1) as Hs by by apply store_same_but.
  assert (∀ x, owns m1 root x ↔ owns (k_mem s) root x) as HO.
  { intros x. split; intros (p & Hpp & Ex); exists p; (split; [done|]); unfold m1 in *;
      rewrite (leaf_node (ly_end (k_ly s)) (k_mem s) root (l ++ X) [PX 2 va; PX 1 va] (PX 0 va) pt 0) in *
        by (done || apply Hpp || lia);
      (rewrite decide_False in *; [done|]); intros ->; by apply (top_unowned va Ht). }
  exists (set_k_mem m1 s). split; [exact E|]. split; [split|].
  - apply vm_rest_mem.
  - split; try done.
    + apply (kmem_inv_mem s _ _ (eq pt)); [done|done| |apply mem_ok_store64, H1].
      intros x <-. split; [apply Hpok|]. set_solver.
    + apply (leaf_wf _ _ _ _ [PX 2 va; PX 1 va] (PX 0 va) pt 0); (done || lia).
  - intros x. simpl. by rewrite HO.
  - intros p i Hl Hi Hn. apply (path_top va p i Ht Hl Hi) in Hn. apply Forall_app in Hi as Hi'.
    destruct Hi' as [Hi1 [Hi2 _]%Forall_cons]. simpl. unfold m1.
    rewrite (leaf_ent (ly_end (k_ly s)) _ root (l ++ X) [PX 2 va; PX 1 va]); try done; [|split; [done|lia]].
    rewrite decide_False; [done|]. intros [= -> ->]. by apply Hn.
  - intros p x a Hl Hpp Hd Ex Ha. simpl. apply (same_but_page _ _ _ x a Hs); [| |done].
    + intros y <-. split; [apply Hpok|]. intros ->. by apply (leaf_not_table _ _ _ _ p pt pt H2).
    + apply (as_own _ _ _ _ H2 p x Hpp Ex).
  - eapply same_but_mono; [|exact Hs]. intros x <-. right. by apply tabs_owns.
  - simpl. unfold m1. rewrite (leaf_pte_of (ly_end (k_ly s)) _ root (l ++ X)) by (done || unfold PGSIZE in *; lia).
    by rewrite decide_True.
Qed.
End top.

(** ** The page table of a process *)

(** The linker places the trampoline in a page of its own, and the kernel
    image has at least 64KB. *)
Record ly_ok (ly : layout) : Prop := {
  lo_tramp : aligned (ly_trampoline ly) ∧ 0 ≤ ly_trampoline ly ∧ ly_trampoline ly + PGSIZE ≤ 2 ^ 56;
  lo_end : KERNBASE + 0x10000 ≤ ly_end ly;
}.

(** The leaves of the page table of a process of size [sz]. *)
Record pt_ok (m : mem) (root sz : Z) : Prop := {
  pk_sz : 0 ≤ sz ≤ TRAPFRAME;
  pk_all : all_mapped m root 0 (PGROUNDUP sz);
  pk_leaf p i : length p = 2%nat → Forall idx (p ++ [i]) → is_Some (ent m root p i) →
    va_of (p ++ [i]) < PGROUNDUP sz ∨ p ++ [i] = va_path TRAPFRAME ∨ p ++ [i] = va_path TRAMPOLINE;
  pk_tramp : is_Some (pte_of m root TRAMPOLINE);
  pk_tf : is_Some (pte_of m root TRAPFRAME);
}.
Record user_proc (ly : layout) (m : mem) (root tf sz : Z) : Prop := {
  up_wf : as_wf (ly_end ly) m root [];
  up_tf : page_ok (ly_end ly) tf ∧ ¬ owns m root tf;
  up_pt : pt_ok m root sz;
  up_tramp : pte_of m root TRAMPOLINE = Some (pte_mk (ly_trampoline ly) (Z.lor PTE_R PTE_X));
  up_trapframe : pte_of m root TRAPFRAME = Some (pte_mk tf (Z.lor PTE_R PTE_W));
}.

Lemma vmx_drop s root l X : vmx s root l X → vmx s root l [].
Proof.
  intros [H1 H2 H3 H4 H5]. split; try done.
  - rewrite app_nil_r. eapply as_wf_same_but; [done|by apply (same_but_refl (λ _, False))|done|].
    intros q Hq. left. set_solver.
  - rewrite app_nil_r. apply H1.
Qed.
Lemma vmx_hold s root l X tf :
  vmx s root l X → page_ok (ly_end (k_ly s)) tf → tf ∉ l ++ X → ¬ owns (k_mem s) root tf → vmx s root l (tf :: X).
Proof.
  intros [H1 H2 H3 H4 H5] Hok Hl Ho. split; try done.
  - eapply as_wf_same_but; [done|by apply (same_but_refl (λ _, False))|done|]. intros q Hq.
    destruct (decide (q = tf)) as [->|]; [by right|left]. set_solver.
  - eapply NoDup_Permutation_proper; [symmetry; apply Permutation_middle|]. by constructor.
  - by constructor.
Qed.
Lemma pt_ok_upd root s l X s' l' X' sz :
  upd root s l X s' l' X' nowhere → pt_ok (k_mem s) root sz → pt_ok (k_mem s') root sz.
Proof.
  intros HU [P1 P2 P3 P4 P5]. split; try done.
  - intros va Hva. rewrite (upd_pte_of _ _ _ _ _ _ _ _ _ HU); auto.
  - intros p i Hl Hi. rewrite (u_ent _ _ _ _ _ _ _ _ HU) by auto. auto.
  - by rewrite (upd_pte_of _ _ _ _ _ _ _ _ _ HU) by auto.
  - by rewrite (upd_pte_of _ _ _ _ _ _ _ _ _ HU) by auto.
Qed.

(** User code does not reach the top pages: [copyin] and [copyout] see the
    pages of the process only. *)
Lemma user_proc_uspace ly m root tf sz : ly_ok ly → user_proc ly m root tf sz → uspace (ly_end ly) m root.
Proof.
  intros HL [H1 [H2 _] H3 H4 H5]. split; [done|]. intros va v Hva E.
  pose proof TRAPFRAME_val as HT. pose proof MAXVA_val as HM.
  assert (∃ pa perm, aligned pa ∧ 0 ≤ pa < 2 ^ 56 ∧ 0 ≤ perm < 1024 ∧ v = pte_mk pa perm ∧ Z.land (Z.lor perm PTE_V) PTE_U = 0)
    as (pa & perm & Hal & Hpa & Hpe & -> & Hu).
  { destruct (decide (va < TRAMPOLINE)).
    - rewrite (pte_of_page _ _ va TRAPFRAME), H5 in E.
      2-4: change TRAMPOLINE with (TRAPFRAME + 4096) in *; unfold PGSIZE; lia || (rewrite HT in *; change (va / 4096 = (2 ^ 26 - 2)); pose proof (Z.div_mod va 4096); pose proof (Z.mod_pos_bound va 4096); lia).
      injection E as <-. exists tf, (Z.lor PTE_R PTE_W). destruct (page_ok_range _ _ H2). unfold PHYSTOP, KERNBASE, PGSIZE in *.
      split; [apply H2|]. split; [lia|]. done.
    - rewrite (pte_of_page _ _ va TRAMPOLINE), H4 in E.
      2-4: change TRAMPOLINE with (TRAPFRAME + 4096) in *; unfold PGSIZE; lia || (rewrite HT in *; change (va / 4096 = (2 ^ 26 - 1)); pose proof (Z.div_mod va 4096); pose proof (Z.mod_pos_bound va 4096); lia).
      injection E as <-. exists (ly_trampoline ly), (Z.lor PTE_R PTE_X). destruct (lo_tramp _ HL) as (? & ? & ?).
      unfold PGSIZE in *. split; [done|]. split; [lia|]. done. }
  destruct (pte_mk_spec pa perm Hal Hpa Hpe) as (_ & _ & _ & Ef). unfold has.
  rewrite land_flags, Ef, Hu by done. done.
Qed.

(** [proc_freepagetable] gives back every page of the address space. *)
Lemma proc_freepagetable_ok s root l X sz :
  vmx s root l X → pt_ok (k_mem s) root sz →
  ∃ s' l', proc_freepagetable root sz s = Ok () s' ∧ vm_rest s s' ∧ kmem_inv s' l' ∧
    (∀ q, q ∈ l' ↔ q ∈ l ∨ owns (k_mem s) root q) ∧
    same_but (λ q, q ∈ l ∨ owns (k_mem s) root q) (k_mem s) (k_mem s').
Proof.
  intros Hv%vmx_drop [Hsz Hall Hlv [v Hv1] [w Hw]]. pose proof TRAPFRAME_val as HT. pose proof MAXVA_val as HM.
  pose proof (PGROUNDUP_le sz TRAPFRAME ltac:(lia) aligned_TRAPFRAME ltac:(lia)) as Hn.
  assert (∀ va, 0 ≤ va < TRAPFRAME → ¬ range TRAMPOLINE (TRAMPOLINE + PGSIZE) (va_path va) ∧
    ¬ range TRAPFRAME (TRAPFRAME + PGSIZE) (va_path va)) as Hlow.
  { intros va Hva. assert (0 ≤ va < MAXVA) by lia. rewrite !range_va_path by done.
    change TRAMPOLINE with (TRAPFRAME + PGSIZE). unfold PGSIZE. lia. }
  destruct (unmap_top root s l [] TRAMPOLINE Hv (or_introl eq_refl) v Hv1) as (s1 & E1 & U1 & N1).
  assert (pte_of (k_mem s1) root TRAPFRAME = Some w) as Hw1.
  { rewrite (upd_pte_of _ _ _ _ _ _ _ _ _ U1); [done|apply tops_apart]. }
  destruct (unmap_top root s1 l [] TRAPFRAME (u_inv _ _ _ _ _ _ _ _ U1) (or_intror eq_refl) w Hw1) as (s2 & E2 & U2 & N2).
  pose proof (u_inv _ _ _ _ _ _ _ _ U2) as Hv2.
  assert (∀ va, 0 ≤ va < TRAPFRAME → pte_of (k_mem s2) root va = pte_of (k_mem s) root va) as Hpte.
  { intros va Hva. destruct (Hlow va Hva) as [D1 D2].
    by rewrite (upd_pte_of _ _ _ _ _ _ _ _ _ U2 D2), (upd_pte_of _ _ _ _ _ _ _ _ _ U1 D1). }
  assert (∀ q, owns (k_mem s2) root q ∨ q ∈ l ↔ q ∈ l ∨ owns (k_mem s) root q) as Hpg.
  { intros q. pose proof (u_pages _ _ _ _ _ _ _ _ U1 q) as Q1. pose proof (u_pages _ _ _ _ _ _ _ _ U2 q) as Q2.
    rewrite !app_nil_r in *. clear -Q1 Q2. tauto. }
  destruct (uvmfree_ok s2 root l sz Hv2 Hsz) as (s3 & l3 & E3 & R3 & K3 & Q3 & S3).
  - intros va Hva. rewrite Hpte by lia. by apply Hall.
  - intros p i Hl Hi Hs. destruct (decide (va_of (p ++ [i]) < PGROUNDUP sz)) as [|Hge]; [done|exfalso].
    assert (∀ t, is_top t → pte_of (k_mem s2) root t = None → p ++ [i] = va_path t → False) as Hno.
    { intros t _ Hn0 Ep. rewrite va_path_page in Ep. apply app_inj_tail in Ep as [-> ->].
      unfold pte_of in Hn0. rewrite Hn0 in Hs. by destruct Hs. }
    assert (pte_of (k_mem s2) root TRAMPOLINE = None) as N1'.
    { rewrite (upd_pte_of _ _ _ _ _ _ _ _ _ U2); [done|apply tops_apart]. }
    assert (p ++ [i] ≠ va_path TRAPFRAME ∧ p ++ [i] ≠ va_path TRAMPOLINE) as [D1 D2].
    { split; intros Ep; [exact (Hno _ (or_intror eq_refl) N2 Ep)|exact (Hno _ (or_introl eq_refl) N1' Ep)]. }
    rewrite (u_ent _ _ _ _ _ _ _ _ U2), (u_ent _ _ _ _ _ _ _ _ U1) in Hs; try done.
    + destruct (Hlv p i Hl Hi Hs) as [H|[H|H]]; [by apply Hge|by apply D1|by apply D2].
    + intros Hr. apply D2. apply range_path; [done|done| |exact Hr]. rewrite length_app. simpl. lia.
    + intros Hr. apply D1. apply range_path; [done|done| |exact Hr]. rewrite length_app. simpl. lia.
  - exists s3, l3. unfold proc_freepagetable. erewrite bind_Ok by exact E1. erewrite bind_Ok by exact E2.
    split; [exact E3|]. split; [eapply vm_rest_trans; [apply U1|eapply vm_rest_trans; [apply U2|exact R3]]|].
    split; [done|]. split; [intros q; rewrite Q3; specialize (Hpg q); tauto|].
    eapply same_but_trans; [eapply same_but_mono; [|apply (u_same _ _ _ _ _ _ _ _ U1)]; intros q; rewrite app_nil_r; tauto|].
    eapply same_but_trans; [eapply same_but_mono; [|apply (u_same _ _ _ _ _ _ _ _ U2)]|eapply same_but_mono; [|exact S3]].
    + intros q. pose proof (u_pages _ _ _ _ _ _ _ _ U1 q) as Q1. rewrite !app_nil_r in *. tauto.
    + intros q. cbv beta. specialize (Hpg q). clear -Hpg. tauto.
Qed.

(** [proc_pagetable] makes the page table of a process without memory, or
    fails and takes no page. *)
Record new_table (s : kst) (l : list Z) (tf root : Z) (s' : kst) (l' : list Z) : Prop := {
  nt_user : user_proc (k_ly s) (k_mem s') root tf 0;
  nt_pages q : q ∈ l' ∨ owns (k_mem s') root q ↔ q ∈ l;
  nt_fresh q : owns (k_mem s') root q → q ∉ l';
}.

(** A page table whose leaves are gone. *)
Lemma uvmfree_empty s root l s0 l0 :
  upd root s0 l0 [] s l [] nowhere → empty_table (k_mem s0) root →
  ∃ s' l', uvmfree root 0 s = Ok () s' ∧ vm_rest s s' ∧ kmem_inv s' l' ∧
    (∀ q, q ∈ l' ↔ q ∈ l0 ∨ q = root) ∧ same_but (λ q, q ∈ l0 ∨ q = root) (k_mem s) (k_mem s').
Proof.
  intros HU He. pose proof (PGROUNDUP_aligned 0 aligned_0 ltac:(lia)) as H0.
  assert (∀ q, q ∈ l ∨ owns (k_mem s) root q ↔ q ∈ l0 ∨ q = root) as Hq.
  { intros q. pose proof (u_pages _ _ _ _ _ _ _ _ HU q) as H. rewrite !app_nil_r in H. rewrite H.
    by rewrite (empty_owns _ _ _ He). }
  destruct (uvmfree_ok s root l 0 (u_inv _ _ _ _ _ _ _ _ HU)) as (s' & l' & E & R & K & Q & S).
  - by split.
  - rewrite H0. intros va ?. lia.
  - rewrite H0. eapply leaves_below_upd; [exact HU|by intros p []|by apply empty_leaves].
  - exists s', l'. split; [done|]. split; [done|]. split; [done|].
    split; [intros q; rewrite Q; apply Hq|]. eapply same_but_mono; [|exact S]. intros q. apply Hq.
Qed.

Lemma pte_none_upd root s l X s' l' X' va :
  upd root s l X s' l' X' nowhere → pte_of (k_mem s) root va = None → pte_of (k_mem s') root va = None.
Proof. intros HU. by rewrite (upd_pte_of _ _ _ _ _ _ _ _ _ HU) by auto. Qed.

Lemma top_none m root va : is_top va → pte_of m root va = None → none_mapped m root va (va + PGSIZE).
Proof.
  intros Ht Hn x Hx. destruct (top_range va Ht) as (Ha & H1 & H2). pose proof TRAPFRAME_val. pose proof MAXVA_val.
  rewrite (pte_of_page _ _ x va); [done|unfold PGSIZE in *; lia..|].
  apply Z.mod_divide in Ha as [j ->]; [|done]. unfold PGSIZE in *. rewrite Z.div_mul by done.
  symmetry. apply (Z.div_unique x 4096 j (x - j * 4096)); lia.
Qed.

(** The leaves of a table with the two mappings only. *)
Lemma new_table_pt root s0 l0 X s l X' :
  upd root s0 l0 X s l X' (range TRAPFRAME MAXVA) → empty_table (k_mem s0) root →
  is_Some (pte_of (k_mem s) root TRAMPOLINE) → is_Some (pte_of (k_mem s) root TRAPFRAME) → pt_ok (k_mem s) root 0.
Proof.
  intros HU He H1 H2. pose proof (PGROUNDUP_aligned 0 aligned_0 ltac:(lia)) as H0. split; try done.
  - rewrite H0. intros va ?. lia.
  - intros p i Hl Hi Hs. right. assert (length (p ++ [i]) = 3%nat) as H3 by (rewrite length_app; simpl; lia).
    destruct (decide (va_of (p ++ [i]) < TRAMPOLINE)).
    + left. apply range_path; try done. destruct (decide (TRAPFRAME ≤ va_of (p ++ [i]))).
      * split; [done|]. by change (TRAPFRAME + PGSIZE) with TRAMPOLINE.
      * rewrite (u_ent _ _ _ _ _ _ _ _ HU) in Hs by (try done; intros []; done).
        rewrite empty_ent in Hs by done. by destruct Hs.
    + right. apply range_path; try done. change (TRAMPOLINE + PGSIZE) with MAXVA.
      destruct (decide (va_of (p ++ [i]) < MAXVA)); [split; [lia|done]|].
      rewrite (u_ent _ _ _ _ _ _ _ _ HU) in Hs by (try done; intros []; done).
      rewrite empty_ent in Hs by done. by destruct Hs.
Qed.

(** Both mappings of a new page table: all, or nothing and the tables freed. *)
Lemma proc_pagetable_maps p q s1 l1 tf :
  vmx s1 q l1 [] → empty_table (k_mem s1) q → ly_ok (k_ly s1) → page_ok (ly_end (k_ly s1)) tf → q ≠ 0 →
  p_trapframe (proc_of s1 p) = tf →
  let rest := (ly ← gets k_ly;
    r ← mappages q TRAMPOLINE PGSIZE (ly_trampoline ly) (Z.lor PTE_R PTE_X);
    if r <? 0 then uvmfree q 0;; mret 0 else
    tf ← gets (λ s, p_trapframe (proc_of s p));
    r ← mappages q TRAPFRAME PGSIZE tf (Z.lor PTE_R PTE_W);
    if r <? 0 then uvmunmap q TRAMPOLINE 1 false;; uvmfree q 0;; mret 0 else mret q) in
  ∃ r s' l', rest s1 = Ok r s' ∧ vm_rest s1 s' ∧ same_but (λ x, x ∈ q :: l1) (k_mem s1) (k_mem s') ∧
    ((r = 0 ∧ kmem_inv s' l' ∧ ∀ x, x ∈ l' ↔ x ∈ q :: l1) ∨
     (r = q ∧ upd q s1 l1 [] s' l' [] (range TRAPFRAME MAXVA) ∧
      pte_of (k_mem s') q TRAMPOLINE = Some (pte_mk (ly_trampoline (k_ly s1)) (Z.lor PTE_R PTE_X)) ∧
      pte_of (k_mem s') q TRAPFRAME = Some (pte_mk tf (Z.lor PTE_R PTE_W)))).
Proof.
  intros Hv He HL Htf Hq Etf rest. destruct (lo_tramp _ HL) as (L1 & L2 & L3).
  destruct (page_ok_range _ _ Htf) as [T1 T2]. unfold PHYSTOP, KERNBASE in T2.
  assert (∀ x, x ∈ l1 ++ [] ∨ owns (k_mem s1) q x ↔ x ∈ q :: l1) as Hpg.
  { intros x. rewrite (empty_owns _ _ _ He), app_nil_r, elem_of_cons. clear. tauto. }
  assert (∀ s l D, upd q s1 l1 [] s l [] D → same_but (λ x, x ∈ q :: l1) (k_mem s1) (k_mem s)) as Hsame.
  { intros s l D HU. eapply same_but_mono; [|apply (u_same _ _ _ _ _ _ _ _ HU)]. intros x. apply Hpg. }
  assert (∀ s l, upd q s1 l1 [] s l [] nowhere → ∃ s' l', (uvmfree q 0;; mret 0) s = Ok 0 s' ∧ vm_rest s1 s' ∧
    same_but (λ x, x ∈ q :: l1) (k_mem s1) (k_mem s') ∧ kmem_inv s' l' ∧ ∀ x, x ∈ l' ↔ x ∈ q :: l1) as Hfree.
  { intros s l HU. destruct (uvmfree_empty s q l s1 l1 HU He) as (s' & l' & E & R & K & Q & S). exists s', l'.
    split; [by erewrite bind_Ok|]. split; [eapply vm_rest_trans; [apply HU|exact R]|].
    split; [|split; [done|]; intros x; rewrite Q, elem_of_cons; clear; tauto].
    eapply same_but_trans; [by eapply Hsame|]. eapply same_but_mono; [|exact S].
    intros x. cbv beta. rewrite elem_of_cons. clear. tauto. }
  unfold rest. mstep.
  destruct (mappages_top q s1 l1 [] TRAMPOLINE Hv (or_introl eq_refl) (ly_trampoline (k_ly s1)) (Z.lor PTE_R PTE_X))
    as (r & s2 & l2 & E2 & H2); [by apply empty_pte|done..|]. erewrite bind_Ok by exact E2.
  destruct H2 as [(-> & U2 & P2)|(-> & U2)]; cbn [Z.ltb Z.compare].
  2:{ destruct (Hfree _ _ U2) as (s' & l' & E & H1 & H2 & H3). exists 0, s', l'. split; [exact E|]. tauto. }
  mstep. assert (p_trapframe (proc_of s2 p) = tf) as Etf2.
  { by rewrite (u_rest _ _ _ _ _ _ _ _ U2). }
  rewrite Etf2. destruct (mappages_top q s2 l2 [] TRAPFRAME (u_inv _ _ _ _ _ _ _ _ U2) (or_intror eq_refl) tf (Z.lor PTE_R PTE_W))
    as (r & s3 & l3 & E3 & H3); [|apply Htf|lia|lia|done..|].
  { rewrite (upd_pte_of _ _ _ _ _ _ _ _ _ U2) by apply tops_apart. by apply empty_pte. }
  erewrite bind_Ok by exact E3. destruct H3 as [(-> & U3 & P3)|(-> & U3)]; cbn [Z.ltb Z.compare].
  - assert (upd q s1 l1 [] s3 l3 [] (range TRAPFRAME MAXVA)) as U.
    { eapply upd_trans; eapply upd_mono; [|exact U2| |exact U3]; intros x; apply range_sub; done. }
    exists q, s3, l3. split; [done|]. split; [apply U|]. split; [by eapply Hsame|]. right.
    split; [done|]. split; [done|]. split; [|done].
    by rewrite (upd_pte_of _ _ _ _ _ _ _ _ _ U3) by apply tops_apart.
  - assert (pte_of (k_mem s3) q TRAMPOLINE = Some (pte_mk (ly_trampoline (k_ly s1)) (Z.lor PTE_R PTE_X))) as P3.
    { by rewrite (upd_pte_of _ _ _ _ _ _ _ _ _ U3) by auto. }
    destruct (unmap_top q s3 l3 [] TRAMPOLINE (u_inv _ _ _ _ _ _ _ _ U3) (or_introl eq_refl) _ P3) as (s4 & E4 & U4 & P4).
    assert (upd q s1 l1 [] s4 l3 [] nowhere) as U.
    { apply (upd_none _ _ _ _ _ _ _ TRAMPOLINE (TRAMPOLINE + PGSIZE)).
      - eapply upd_trans; [exact U2|]. eapply upd_trans; [|exact U4]. eapply upd_mono; [|exact U3]. by intros x [].
      - apply top_none; [by left|by apply empty_pte].
      - apply top_none; [by left|done]. }
    erewrite bind_Ok by exact E4. destruct (Hfree _ _ U) as (s' & l' & E & H1 & H2 & H3). exists 0, s', l'.
    split; [exact E|]. tauto.
Qed.

Lemma proc_pagetable_ok p s l tf :
  kmem_inv s l → LK_kmem ∉ k_held s → ly_ok (k_ly s) → p_trapframe (proc_of s p) = tf →
  page_ok (ly_end (k_ly s)) tf → tf ∉ l →
  ∃ r s' l', proc_pagetable p s = Ok r s' ∧ vm_rest s s' ∧ kmem_inv s' l' ∧
    same_but (λ q, q ∈ l) (k_mem s) (k_mem s') ∧
    ((r = 0 ∧ ∀ q, q ∈ l' ↔ q ∈ l) ∨ (r ≠ 0 ∧ new_table s l tf r s' l')).
Proof.
  intros HI Hh HL Etf Htf Hni. destruct l as [|q l].
  { exists 0, s, []. split; [|split; [apply vm_rest_refl|split; [done|split; [by intros a|by left]]]].
    unfold proc_pagetable, uvmcreate. rewrite (bind_Ok _ _ _ 0 s); [done|].
    erewrite bind_Ok by (apply kalloc_none; [done|apply (km_list _ _ HI)]). done. }
  pose proof (kalloc_inv _ _ _ HI) as (_ & Hnq & Hokq & Hq0 & _).
  pose proof (uvmcreate_vmx s q l HI Hh) as Hv. pose proof (uvmcreate_empty s q l HI Hh) as He.
  pose proof (uvmcreate_same q s) as Hs. assert (vm_rest s (uvmcreate_post q s)) as R.
  { eapply vm_rest_trans; [apply vm_rest_kalloc|apply vm_rest_mem]. }
  unfold proc_pagetable. erewrite bind_Ok by by apply (uvmcreate_run s q l). rewrite (proj2 (Z.eqb_neq _ _) Hq0).
  revert Hv He Hs R. generalize (uvmcreate_post q s) as s1. intros s1 Hv He Hs R.
  destruct (proc_pagetable_maps p q s1 l tf Hv He) as (r & s' & l' & E & R' & S' & H);
    [by rewrite (vm_rest_ly _ _ R)|by rewrite (vm_rest_ly _ _ R)|done|by rewrite R|].
  exists r, s', l'. split; [exact E|]. split; [by eapply vm_rest_trans|].
  assert (same_but (λ x, x ∈ q :: l) (k_mem s) (k_mem s')) as Hsame.
  { eapply same_but_trans; [|exact S']. eapply same_but_mono; [|exact Hs]. intros x <-. set_solver. }
  destruct H as [(-> & K & Q)|(-> & HU & P1 & P2)]; [by split; [|split; [|left]]|].
  pose proof (u_inv _ _ _ _ _ _ _ _ HU) as Hv'. split; [apply Hv'|]. split; [done|]. right. split; [done|].
  assert (∀ x, x ∈ l' ∨ owns (k_mem s') q x ↔ x ∈ q :: l) as Hpg.
  { intros x. pose proof (u_pages _ _ _ _ _ _ _ _ HU x) as Hx. rewrite !app_nil_r in Hx. rewrite Hx.
    rewrite (empty_owns _ _ _ He), elem_of_cons. clear. tauto. }
  rewrite (vm_rest_ly _ _ R) in P1. split; [split| |].
  - apply vx_as in Hv'. rewrite (vm_rest_ly _ _ R'), (vm_rest_ly _ _ R) in Hv'.
    eapply as_wf_same_but; [exact Hv'|by apply (same_but_refl (λ _, False))|done|]. set_solver.
  - split; [done|]. intros Ho. apply Hni, Hpg. by right.
  - eapply new_table_pt; [exact HU|exact He|by rewrite P1|by rewrite P2].
  - done.
  - done.
  - exact Hpg.
  - intros x Hx. destruct (owns_ok _ _ _ _ _ (vx_as _ _ _ _ Hv') Hx). set_solver.
Qed.
