(* ===== verification/ProcTable.v ===== *)
(** * The process table

    [procs_ok]: the processes of [proc[]] share no page with each other or with the
    free list, and no two have the same pid.  [allocproc] and [freeproc] keep
    it. *)

From stdpp Require Import options.
From S2P Require Import Prelude CString State Sched Sleeplock Kalloc Vm PageTable VmWalk VmSpec VmOps VmFree VmCopy VmProps Bio Block Log Copy Fs Console Pipe File Proc ProcMem.
#[local] Open Scope Z_scope.
#[local] Existing Instance user_leaves.

(** Only the process table and the allocator's memory differ. *)
Definition pm_rest (s s' : kst) : Prop :=
  s' = set_k_procs (k_procs s') (set_k_freelist (k_freelist s') (set_k_mem (k_mem s') s)).
Lemma pm_rest_vm s s' : vm_rest s s' → pm_rest s s'.
Proof.
  intros H. assert (k_procs s' = k_procs s) as E by (by rewrite H). unfold pm_rest. rewrite E. exact H.
Qed.
Lemma pm_rest_procs v s : pm_rest s (set_k_procs v s).
Proof. unfold pm_rest. by kst_eq. Qed.
Lemma pm_rest_trans s1 s2 s3 : pm_rest s1 s2 → pm_rest s2 s3 → pm_rest s1 s3.
Proof.
  intros H1 H2. unfold pm_rest. etrans; [exact H2|].
  exact (f_equal (λ s, set_k_procs (k_procs s3) (set_k_freelist (k_freelist s3) (set_k_mem (k_mem s3) s))) H1).
Qed.

Lemma alter_Some {A} (f : A → A) (l : list A) i x : l !! i = Some x → alter f i l = <[i := f x]> l.
Proof.
  intros H. apply list_eq. intros j. destruct (decide (i = j)) as [<-|Hne].
  - by rewrite list_lookup_alter_eq, H, list_lookup_insert_eq by (by eapply lookup_lt_Some).
  - by rewrite list_lookup_alter_ne, list_lookup_insert_ne.
Qed.

(** ** The pages of a process *)

Definition pgs (m : mem) (x : proc) (q : Z) : Prop :=
  p_trapframe x ≠ 0 ∧ q = p_trapframe x ∨ p_pagetable x ≠ 0 ∧ owns m (p_pagetable x) q.

(** An entry [freeproc] can free: it has a trapframe, and a page table then,
    or not yet. *)
Record freeable (s : kst) (l : list Z) (x : proc) : Prop := {
  fp_tf : p_trapframe x ≠ 0 → page_ok (ly_end (k_ly s)) (p_trapframe x);
  fp_pt : p_pagetable x ≠ 0 → p_trapframe x ≠ 0 ∧
    as_wf (ly_end (k_ly s)) (k_mem s) (p_pagetable x) [] ∧ pt_ok (k_mem s) (p_pagetable x) (p_sz x) ∧
    ¬ owns (k_mem s) (p_pagetable x) (p_trapframe x);
  fp_free q : pgs (k_mem s) x q → q ∉ l;
}.

Lemma kmem_inv_procs v s l : kmem_inv s l → kmem_inv (set_k_procs v s) l.
Proof. by intros [H1 H2 H3 H4]. Qed.
Lemma vmx_procs v s root l X : vmx s root l X → vmx (set_k_procs v s) root l X.
Proof. intros [H1 H2 H3 H4 H5]. split; try done. by apply kmem_inv_procs. Qed.

(** An address space beside the free list and a page held. *)
Lemma vmx_intro s root l X :
  kmem_inv s l → LK_kmem ∉ k_held s → as_wf (ly_end (k_ly s)) (k_mem s) root [] →
  Forall (page_ok (ly_end (k_ly s))) X → NoDup (l ++ X) → (∀ q, owns (k_mem s) root q → q ∉ l ++ X) →
  vmx s root l X.
Proof.
  intros H1 H2 H3 H4 H5 H6. split; try done.
  eapply as_wf_same_but; [exact H3|by apply (same_but_refl (λ _, False))|done|].
  intros q Hq. right. intros Ho. by apply (H6 q).
Qed.

Lemma freeable_vmx s l x :
  kmem_inv s l → LK_kmem ∉ k_held s → freeable s l x → p_pagetable x ≠ 0 →
  vmx s (p_pagetable x) l [p_trapframe x].
Proof.
  intros HI Hh [F1 F2 F3] Hx. destruct (F2 Hx) as (T & A & P & O). apply vmx_intro; try done.
  - constructor; [by apply F1|constructor].
  - apply NoDup_app. split; [apply HI|]. split; [|apply NoDup_singleton].
    intros q Hq ->%list_elem_of_singleton. apply (F3 (p_trapframe x)); [by left|done].
  - intros q Ho Hq. apply elem_of_app in Hq as [Hq| ->%list_elem_of_singleton]; [|done].
    apply (F3 q); [by right|done].
Qed.

(** ** freeproc *)

Lemma kfree_tf s l x :
  kmem_inv s l → LK_kmem ∉ k_held s → freeable s l x →
  ∃ s1 l1, when (negb (p_trapframe x =? 0)) (kfree (p_trapframe x)) s = Ok () s1 ∧ vm_rest s s1 ∧
    kmem_inv s1 l1 ∧ (∀ q, q ∈ l1 ↔ q ∈ l ∨ p_trapframe x ≠ 0 ∧ q = p_trapframe x) ∧
    same_but (λ q, p_trapframe x ≠ 0 ∧ q = p_trapframe x) (k_mem s) (k_mem s1) ∧
    (p_pagetable x ≠ 0 → upd (p_pagetable x) s l [p_trapframe x] s1 l1 [] nowhere).
Proof.
  intros HI Hh HF. destruct (Z.eqb_spec (p_trapframe x) 0) as [E0|Hne]; cbn [negb when].
  - exists s, l. split; [done|]. split; [apply vm_rest_refl|]. split; [done|].
    split; [intros q; rewrite E0; clear; naive_solver|]. split; [by intros a|].
    intros Hp. by destruct (proj1 (fp_pt _ _ _ HF Hp)).
  - pose proof (fp_tf _ _ _ HF Hne) as Hok. exists (kfree_post (p_trapframe x) s), (p_trapframe x :: l).
    split; [by apply kfree_Ok|]. split; [apply vm_rest_kfree|].
    split; [apply kfree_inv; [done|done|]; apply (fp_free _ _ _ HF); by left|].
    split; [intros q; rewrite elem_of_cons; clear -Hne; naive_solver|].
    split; [eapply same_but_mono; [|apply kfree_same_but]; by intros q <-|].
    intros Hp. by apply upd_kfree, freeable_vmx.
Qed.

Lemma freeproc_ok np x s l :
  k_procs s !! np = Some x → kmem_inv s l → LK_kmem ∉ k_held s → freeable s l x →
  ∃ s' l', freeproc np s = Ok () s' ∧ pm_rest s s' ∧
    k_procs s' = <[np := clear_proc (set_p_trapframe 0 x)]> (k_procs s) ∧ kmem_inv s' l' ∧
    (∀ q, q ∈ l' ↔ q ∈ l ∨ pgs (k_mem s) x q) ∧
    same_but (λ q, q ∈ l ∨ pgs (k_mem s) x q) (k_mem s) (k_mem s').
Proof.
  intros Hx HI Hh HF. assert (proc_of s np = x) as Ex by (unfold proc_of; by rewrite Hx).
  destruct (kfree_tf s l x HI Hh HF) as (s1 & l1 & E1 & R1 & K1 & Q1 & S1 & U1).
  set (s2 := upd_proc np (set_p_trapframe 0) s1).
  assert (k_procs s2 = <[np := set_p_trapframe 0 x]> (k_procs s)) as Ep2.
  { unfold s2. simpl. replace (k_procs s1) with (k_procs s) by (by rewrite R1). by apply alter_Some. }
  assert (proc_of s2 np = set_p_trapframe 0 x) as Ex2.
  { unfold proc_of. rewrite Ep2, list_lookup_insert_eq by (by eapply lookup_lt_Some). done. }
  assert (pm_rest s s2) as R2 by (eapply pm_rest_trans; [by apply pm_rest_vm|apply pm_rest_procs]).
  assert (∃ s3 l3, when (negb (p_pagetable x =? 0)) (proc_freepagetable (p_pagetable x) (p_sz x)) s2 = Ok () s3 ∧
    vm_rest s2 s3 ∧ kmem_inv s3 l3 ∧ (∀ q, q ∈ l3 ↔ q ∈ l ∨ pgs (k_mem s) x q) ∧
    same_but (λ q, q ∈ l ∨ pgs (k_mem s) x q) (k_mem s) (k_mem s3)) as (s3 & l3 & E3 & R3 & K3 & Q3 & S3).
  { assert (kmem_inv s2 l1) as K2 by by apply kmem_inv_procs.
    assert (same_but (λ q, q ∈ l ∨ pgs (k_mem s) x q) (k_mem s) (k_mem s1)) as S1'.
    { eapply same_but_mono; [|exact S1]. intros q Hq. right. by left. }
    destruct (Z.eqb_spec (p_pagetable x) 0) as [E0|Hne]; cbn [negb when].
    - exists s2, l1. split; [done|]. split; [apply vm_rest_refl|]. split; [done|]. split; [|done].
      intros q. rewrite Q1. unfold pgs. rewrite E0. clear. naive_solver.
    - pose proof (U1 Hne) as HU. destruct (fp_pt _ _ _ HF Hne) as (T & A & P & O).
      assert (∀ q, q ∈ l1 ∨ owns (k_mem s1) (p_pagetable x) q ↔ q ∈ l ∨ pgs (k_mem s) x q) as Hpg.
      { intros q. pose proof (u_pages _ _ _ _ _ _ _ _ HU q) as H. rewrite app_nil_r in H. rewrite H. unfold pgs.
        rewrite elem_of_app, list_elem_of_singleton. clear -Hne T. tauto. }
      destruct (proc_freepagetable_ok s2 (p_pagetable x) l1 [] (p_sz x)) as (s3 & l3 & E & R & K & Q & S).
      + apply vmx_procs, HU.
      + by apply (pt_ok_upd _ _ _ _ _ _ _ _ HU).
      + exists s3, l3. split; [done|]. split; [done|]. split; [done|]. split; [intros q; rewrite Q; apply Hpg|].
        eapply same_but_trans; [exact S1'|]. eapply same_but_mono; [|exact S]. intros q. apply Hpg. }
  assert (k_procs s3 = k_procs s2) as Ep3 by (by rewrite R3).
  exists (upd_proc np clear_proc s3), l3. split; [|split; [|split; [|split; [|split]]]].
  - unfold freeproc. mstep. rewrite Ex. erewrite bind_Ok by exact E1. mstep. fold s2. mstep.
    rewrite Ex2. by erewrite bind_Ok by exact E3.
  - eapply pm_rest_trans; [exact R2|]. eapply pm_rest_trans; [by apply pm_rest_vm|apply pm_rest_procs].
  - simpl. rewrite Ep3, Ep2. erewrite alter_Some by (apply list_lookup_insert_eq; by eapply lookup_lt_Some).
    by rewrite list_insert_insert_eq.
  - by apply kmem_inv_procs.
  - done.
  - done.
Qed.

(** ** The invariant *)

(** The entry [x] of a process table whose free pages are [l]. *)
Record entry_ok (s : kst) (l : list Z) (x : proc) : Prop := {
  eo_used : p_state x ≠ UNUSED →
    user_proc (k_ly s) (k_mem s) (p_pagetable x) (p_trapframe x) (p_sz x) ∧ p_pagetable x ≠ 0 ∧ 1 ≤ p_pid x < k_nextpid s;
  eo_unused : p_state x = UNUSED → p_trapframe x = 0 ∧ p_pagetable x = 0 ∧ p_sz x = 0 ∧ p_pid x = 0;
  eo_free q : pgs (k_mem s) x q → q ∉ l;
  eo_name : length (p_name x) = 16%nat;
}.
(** The process table and the allocator together: every page is free or
    belongs to one process, and no two processes have the same pid. *)
Record procs_ok (s : kst) (l : list Z) : Prop := {
  po_len : length (k_procs s) = NPROC;
  po_ly : ly_ok (k_ly s);
  po_kmem : kmem_inv s l;
  po_next : 1 ≤ k_nextpid s;
  po_entry i x : k_procs s !! i = Some x → entry_ok s l x;
  po_apart i j x y q : k_procs s !! i = Some x → k_procs s !! j = Some y → i ≠ j →
    pgs (k_mem s) x q → ¬ pgs (k_mem s) y q;
  po_pid i j x y : k_procs s !! i = Some x → k_procs s !! j = Some y → i ≠ j →
    p_state x ≠ UNUSED → p_pid x ≠ p_pid y;
}.

Lemma user_tf ly m root tf sz : user_proc ly m root tf sz → 0 < tf.
Proof. intros [_ [H _] _ _ _]. apply page_ok_range in H. lia. Qed.
Lemma entry_freeable s l x : entry_ok s l x → freeable s l x.
Proof.
  intros [H1 H2 H3 _]. destruct (decide (p_state x = UNUSED)) as [E|E].
  - destruct (H2 E) as (E1 & E2 & _). split; [by rewrite E1|by rewrite E2|done].
  - destruct (H1 E) as (HU & Hr & _). pose proof (user_tf _ _ _ _ _ HU). split; [| |done].
    + intros _. apply HU.
    + intros _. split; [lia|]. split_and!; apply HU.
Qed.
Lemma entry_page_ok s l x q : entry_ok s l x → pgs (k_mem s) x q → page_ok (ly_end (k_ly s)) q.
Proof.
  intros He. pose proof (entry_freeable _ _ _ He) as [F1 F2 F3]. intros [[Hn ->]|[Hn Ho]]; [by apply F1|].
  destruct (F2 Hn) as (_ & A & _). apply (owns_ok _ _ _ _ _ A Ho).
Qed.

(** ** Other processes *)

(** Writing pages outside a process keeps its memory. *)
Section frame.
Context (s : kst) (l : list Z) (x : proc) (m' : mem) (P : Z → Prop).
Context (He : entry_ok s l x) (Hs : same_but P (k_mem s) m').
Context (HP : ∀ q, P q → aligned q ∧ ¬ pgs (k_mem s) x q).

Lemma frame_tabs : p_pagetable x ≠ 0 → ∀ q, P q → aligned q ∧ ¬ tabs (k_mem s) (p_pagetable x) q.
Proof using All. intros Hr q Hq. destruct (HP q Hq) as [? H]. split; [done|]. intros Ht%tabs_owns. apply H. by right. Qed.
Lemma frame_kept : p_pagetable x ≠ 0 → kept (p_pagetable x) (k_mem s) m' ∧ as_wf (ly_end (k_ly s)) m' (p_pagetable x) [].
Proof using All.
  intros Hr. pose proof (entry_freeable _ _ _ He) as HF. destruct (fp_pt _ _ _ HF Hr) as (_ & A & _).
  pose proof (frame_tabs Hr) as HT. split; [split|].
  - intros p (?&?&_). by apply (node_same_but _ _ _ _ _ _ p A Hs HT).
  - intros p i Hp Hi. by apply (ent_same_but _ _ _ _ _ _ p i A Hs HT).
  - intros q a Ho Ha. apply (same_but_page _ _ _ q a Hs); [| |done].
    + intros y Hy. destruct (HP y Hy) as [? H]. split; [done|]. intros ->. apply H. by right.
    + apply (owns_ok _ _ _ _ _ A Ho).
  - by eapply (as_wf_same_but _ _ _ _ _ _ _ A Hs HT); left.
Qed.
Lemma frame_pgs q : pgs m' x q ↔ pgs (k_mem s) x q.
Proof using All.
  unfold pgs. destruct (decide (p_pagetable x = 0)) as [->|Hr]; [clear; tauto|].
  destruct (frame_kept Hr) as [[K1 _ _] _].
  assert (owns m' (p_pagetable x) q ↔ owns (k_mem s) (p_pagetable x) q) as ->; [|done].
  split; intros (p & Hp & E); exists p; (split; [done|]); by rewrite K1 in *.
Qed.
(** The trapframe of the process keeps its bytes. *)
Lemma frame_tf a : p_trapframe x ≠ 0 → in_page (p_trapframe x) a → rd m' a = rd (k_mem s) a.
Proof using All.
  intros Hn Ha. apply (same_but_page _ _ _ (p_trapframe x) a Hs); [| |done].
  - intros q Hq. destruct (HP q Hq) as [? H]. split; [done|]. intros <-. apply H. by left.
  - apply (fp_tf _ _ _ (entry_freeable _ _ _ He) Hn).
Qed.
Lemma frame_user :
  p_pagetable x ≠ 0 → user_proc (k_ly s) (k_mem s) (p_pagetable x) (p_trapframe x) (p_sz x) →
  user_proc (k_ly s) m' (p_pagetable x) (p_trapframe x) (p_sz x).
Proof using All.
  intros Hr [U1 [U2 U3] [P1 P2 P3 P4 P5] U5 U6]. destruct (frame_kept Hr) as [HK HW]. pose proof HK as [K1 K2 K3].
  assert (∀ va, pte_of m' (p_pagetable x) va = pte_of (k_mem s) (p_pagetable x) va) as Hpte by (intros; by apply kept_pte_of).
  split; [done| |split|by rewrite Hpte|by rewrite Hpte].
  - split; [done|]. intros (p & Hp & E). apply U3. exists p. split; [done|]. by rewrite <- K1.
  - done.
  - intros va Hva. rewrite Hpte. by apply P2.
  - intros p i Hl Hi. apply Forall_app in Hi as Hi'. destruct Hi' as [Hi1 [Hi2 _]%Forall_cons].
    rewrite K2; [by apply P3|split; [done|lia]|done].
  - by rewrite Hpte.
  - by rewrite Hpte.
Qed.
End frame.

(** The memory a process sees, and its saved registers. *)
Record same_user (m m' : mem) (x : proc) : Prop := {
  su_pte va : 0 ≤ va < TRAPFRAME → pte_of m' (p_pagetable x) va = pte_of m (p_pagetable x) va;
  su_byte va : 0 ≤ va < TRAPFRAME → ubyte m' (p_pagetable x) va = ubyte m (p_pagetable x) va;
  su_tf a : in_page (p_trapframe x) a → rd m' a = rd m a;
  su_pgs q : pgs m' x q ↔ pgs m x q;
}.
Lemma same_user_trans m1 m2 m3 x : same_user m1 m2 x → same_user m2 m3 x → same_user m1 m3 x.
Proof.
  intros [A1 A2 A3 A4] [B1 B2 B3 B4]. split.
  - intros va Hva. rewrite B1 by done. auto.
  - intros va Hva. rewrite B2 by done. auto.
  - intros a Ha. rewrite B3 by done. auto.
  - intros q. by rewrite B4.
Qed.
Lemma frame_same s l x m' P :
  entry_ok s l x → p_state x ≠ UNUSED → same_but P (k_mem s) m' → (∀ q, P q → aligned q ∧ ¬ pgs (k_mem s) x q) →
  same_user (k_mem s) m' x.
Proof.
  intros He Hst Hs HP. destruct (eo_used _ _ _ He Hst) as (HU & Hr & _). pose proof (user_tf _ _ _ _ _ HU).
  destruct (frame_kept s l x m' P He Hs HP Hr) as [HK _]. split.
  - intros va _. by apply kept_pte_of.
  - intros va Hva. by apply kept_ubyte.
  - intros a Ha. apply (frame_tf s l x m' P He Hs HP); [lia|done].
  - intros q. apply (frame_pgs s l x m' P He Hs HP).
Qed.
(** The processes of [s] are in [s'] as they were. *)
Record same_procs (s s' : kst) : Prop := {
  sp_entry i x : k_procs s !! i = Some x → p_state x ≠ UNUSED → k_procs s' !! i = Some x;
  sp_user i x : k_procs s !! i = Some x → p_state x ≠ UNUSED → same_user (k_mem s) (k_mem s') x;
}.

(** ** Changing one entry *)

(** The pages a change of entry [x] may write: free ones, its own, and the
    kernel's. *)
Definition writes_own (s : kst) (l : list Z) (x : proc) (P : Z → Prop) : Prop :=
  ∀ q, P q → aligned q ∧ (q ∈ l ∨ pgs (k_mem s) x q ∨ ¬ page_ok (ly_end (k_ly s)) q).

Lemma writes_other s l i j x z P :
  procs_ok s l → k_procs s !! i = Some x → k_procs s !! j = Some z → j ≠ i → writes_own s l x P →
  ∀ q, P q → aligned q ∧ ¬ pgs (k_mem s) z q.
Proof.
  intros HP Hx Hz Hne HW q Hq. destruct (HW q Hq) as [Ha H]. split; [done|]. intros Hp.
  pose proof (po_entry _ _ HP _ _ Hz) as He. destruct H as [H|[H|H]].
  - by apply (eo_free _ _ _ He q).
  - by apply (po_apart _ _ HP _ _ _ _ q Hz Hx Hne).
  - by apply H, (entry_page_ok _ _ _ _ He).
Qed.

Section update.
Context (s : kst) (l : list Z) (s' : kst) (l' : list Z) (np : nat) (x y : proc) (P : Z → Prop).
Context (HP : procs_ok s l) (Hx : k_procs s !! np = Some x) (Hly : k_ly s' = k_ly s).
Context (Hprocs : k_procs s' = <[np := y]> (k_procs s)) (HI : kmem_inv s' l').
Context (Hnext : k_nextpid s ≤ k_nextpid s').
Context (Hs : same_but P (k_mem s) (k_mem s')) (HW : writes_own s l x P).
Context (Hpg : ∀ q, q ∈ l' ∨ pgs (k_mem s') y q → q ∈ l ∨ pgs (k_mem s) x q).
Context (Hy : entry_ok s' l' y).
Context (Hpid : p_state y ≠ UNUSED → ∀ j z, j ≠ np → k_procs s !! j = Some z → p_pid y ≠ p_pid z).

Lemma update_other j z : k_procs s !! j = Some z → j ≠ np →
  entry_ok s' l' z ∧ ∀ q, pgs (k_mem s') z q ↔ pgs (k_mem s) z q.
Proof using All.
  intros Hz Hne. pose proof (po_entry _ _ HP _ _ Hz) as He.
  pose proof (writes_other _ _ _ _ _ _ _ HP Hx Hz Hne HW) as HO.
  pose proof (frame_pgs s l z (k_mem s') P He Hs HO) as Hq. split; [|done]. destruct He as [E1 E2 E3 E4]. split; [..|done].
  - intros Hst. destruct (E1 Hst) as (U & N & Hp). rewrite Hly. split; [|split; [done|lia]].
    by apply (frame_user s l z (k_mem s') P).
  - exact E2.
  - intros q Hz'%Hq Hl. destruct (Hpg q (or_introl Hl)) as [?|Hp]; [by apply (E3 q)|].
    by apply (po_apart _ _ HP _ _ _ _ q Hz Hx Hne).
Qed.
Lemma procs_update : procs_ok s' l'.
Proof using All.
  assert (∀ j z, k_procs s' !! j = Some z → (j = np ∧ z = y) ∨ (j ≠ np ∧ k_procs s !! j = Some z)) as Hlk.
  { intros j z. rewrite Hprocs. intros [(-> & <- & _)|[? ?]]%list_lookup_insert_Some; [by left|right]. split; [congruence|done]. }
  split.
  - rewrite Hprocs, length_insert. apply HP.
  - rewrite Hly. apply HP.
  - done.
  - pose proof (po_next _ _ HP). lia.
  - intros j z [[-> ->]|[Hne Hz]]%Hlk; [done|]. by apply (update_other j z).
  - intros i j z w q Hz%Hlk Hw%Hlk Hij. destruct Hz as [[-> ->]|[Hi Hz]], Hw as [[-> ->]|[Hj Hw]]; [done|..].
    + intros Hq. rewrite (proj2 (update_other j w Hw Hj)). destruct (Hpg q (or_intror Hq)) as [Hl|Hp].
      * intros Hq'. by apply (eo_free _ _ _ (po_entry _ _ HP _ _ Hw) q).
      * by apply (po_apart _ _ HP _ _ _ _ q Hx Hw).
    + rewrite (proj2 (update_other i z Hz Hi)). intros Hq Hq'. destruct (Hpg q (or_intror Hq')) as [Hl|Hp].
      * by apply (eo_free _ _ _ (po_entry _ _ HP _ _ Hz) q).
      * by apply (po_apart _ _ HP _ _ _ _ q Hz Hx).
    + rewrite (proj2 (update_other i z Hz Hi)), (proj2 (update_other j w Hw Hj)). by apply (po_apart _ _ HP i j).
  - intros i j z w Hz%Hlk Hw%Hlk Hij Hst. destruct Hz as [[-> ->]|[Hi Hz]], Hw as [[-> ->]|[Hj Hw]]; [done|..].
    + by apply (Hpid Hst j).
    + destruct (decide (p_state y = UNUSED)) as [E|E]; [|by apply not_eq_sym, (Hpid E i)].
      destruct (eo_unused _ _ _ Hy E) as (_ & _ & _ & ->). pose proof (eo_used _ _ _ (po_entry _ _ HP _ _ Hz) Hst). lia.
    + by apply (po_pid _ _ HP i j).
Qed.
Lemma update_same i z : k_procs s !! i = Some z → i ≠ np → p_state z ≠ UNUSED →
  k_procs s' !! i = Some z ∧ same_user (k_mem s) (k_mem s') z.
Proof using All.
  intros Hz Hne Hst. split; [by rewrite Hprocs, list_lookup_insert_ne|].
  apply (frame_same s l z (k_mem s') P); [by apply (po_entry _ _ HP i)|done|done|].
  by apply (writes_other s l np i x z).
Qed.
Lemma update_same_procs : p_state x = UNUSED → same_procs s s'.
Proof using All. intros Hu. split; intros i z Hz Hst; apply (update_same i z); try done; congruence. Qed.
End update.

(** ** The search for a free entry *)

Lemma find_unused_ok s :
  length (k_procs s) = NPROC → (∀ i, LK_proc i ∉ k_held s) →
  wp find_unused_proc (λ r s', match r with
    | Some np => ∃ x, k_procs s !! np = Some x ∧ p_state x = UNUSED ∧ s' = set_k_held (LK_proc np :: k_held s) s
    | None => s' = s ∧ ∀ i x, k_procs s !! i = Some x → p_state x ≠ UNUSED
    end) s.
Proof.
  intros Hlen Hh. apply (wp_mfind _ _ _ (λ i s', s' = s ∧ ∀ j x, (Z.of_nat j < i) → k_procs s !! j = Some x → p_state x ≠ UNUSED)).
  - split; [done|]. intros j x Hj. lia.
  - intros j s' Hj [-> Hno]. apply wp_bind, wp_acquire; [apply Hh|]. apply wp_bind, wp_gets.
    destruct (lookup_lt_is_Some_2 (k_procs s) (Z.to_nat j)) as [x Hx]; [lia|].
    assert (proc_of (set_k_held (LK_proc (Z.to_nat j) :: k_held s) s) (Z.to_nat j) = x) as -> by (unfold proc_of; simpl; by rewrite Hx).
    destruct (decide (p_state x = UNUSED)) as [E|E].
    + apply wp_ret. by exists x.
    + apply wp_bind. eapply wp_release; [done|]. apply wp_ret. split; [by destruct s|]. intros k y Hk Hy.
      destruct (decide (k = Z.to_nat j)) as [->|]; [congruence|]. apply (Hno k); [lia|done].
  - intros s' [-> Hno]. split; [done|]. intros i x Hi. apply (Hno i); [|done]. apply lookup_lt_Some in Hi. lia.
Qed.

(** ** allocproc *)

Lemma allocpid_Ok s : LK_pid ∉ k_held s → allocpid s = Ok (k_nextpid s) (set_k_nextpid (i32 (k_nextpid s + 1)) s).
Proof.
  intros Hh. unfold allocpid. rewrite bind_acquire by done. msteps. rewrite (bind_release _ (k_held s)) by done.
  by mstep.
Qed.

(** [allocproc] once it has an entry and a pid. *)
Definition alloc_rest (p : nat) : K (option nat) :=
  tf ← kalloc;
  modify (upd_proc p (set_p_trapframe tf));;
  if tf =? 0 then freeproc p;; release (LK_proc p);; mret None else
  pagetable ← proc_pagetable p;
  modify (upd_proc p (set_p_pagetable pagetable));;
  if pagetable =? 0 then freeproc p;; release (LK_proc p);; mret None else
  ly ← gets k_ly;
  modify (upd_proc p (start_context ly));;
  mret (Some p).

(** The entry [x] after a failed and after a successful allocation. *)
Definition cleared (x : proc) : proc := clear_proc (set_p_trapframe 0 x).
Definition started (ly : layout) (root tf : Z) (x : proc) : proc :=
  start_context ly (set_p_pagetable root (set_p_trapframe tf x)).

Section alloc_rest.
Context (np : nat) (x : proc) (s : kst) (l : list Z) (h : list lockid).
Context (Hx : k_procs s !! np = Some x) (H0 : p_trapframe x = 0 ∧ p_pagetable x = 0 ∧ p_sz x = 0).
Context (HI : kmem_inv s l) (HL : ly_ok (k_ly s)) (Hh : k_held s = LK_proc np :: h) (Hk : LK_kmem ∉ h).

Record alloc_fail (s' : kst) (l' : list Z) : Prop := {
  af_rest : pm_rest (set_k_held h s) s';
  af_procs : k_procs s' = <[np := cleared x]> (k_procs s);
  af_kmem : kmem_inv s' l';
  af_same : same_but (λ q, q ∈ l) (k_mem s) (k_mem s');
  af_pages q : q ∈ l' ↔ q ∈ l;
}.
Record alloc_done (s' : kst) (l' : list Z) (root tf : Z) : Prop := {
  ad_rest : pm_rest s s';
  ad_procs : k_procs s' = <[np := started (k_ly s) root tf x]> (k_procs s);
  ad_kmem : kmem_inv s' l';
  ad_same : same_but (λ q, q ∈ l) (k_mem s) (k_mem s');
  ad_root : root ≠ 0;
  ad_user : user_proc (k_ly s) (k_mem s') root tf 0;
  ad_pages q : q ∈ l' ∨ q = tf ∨ owns (k_mem s') root q ↔ q ∈ l;
  ad_free q : q = tf ∨ owns (k_mem s') root q → q ∉ l';
}.

(** Giving up: the entry holds at most a trapframe. *)
Lemma alloc_giveup s1 l1 tf x1 :
  pm_rest s s1 → k_procs s1 = <[np := x1]> (k_procs s) → cleared x1 = cleared x →
  p_trapframe x1 = tf → p_pagetable x1 = 0 → kmem_inv s1 l1 → same_but (λ q, q ∈ l) (k_mem s) (k_mem s1) →
  (tf ≠ 0 → page_ok (ly_end (k_ly s)) tf ∧ tf ∉ l1) → (∀ q, q ∈ l1 ∨ tf ≠ 0 ∧ q = tf ↔ q ∈ l) →
  ∃ s' l', (freeproc np;; release (LK_proc np);; mret None) s1 = Ok (None : option nat) s' ∧ alloc_fail s' l'.
Proof using All.
  intros R Ep Hc Etf Epg K S Htf Hq. assert (k_ly s1 = k_ly s ∧ k_held s1 = k_held s) as [Ely Ehd] by (by rewrite R).
  assert (∀ q, pgs (k_mem s1) x1 q ↔ tf ≠ 0 ∧ q = tf) as Hpg.
  { intros q. unfold pgs. rewrite Etf, Epg. clear. tauto. }
  destruct (freeproc_ok np x1 s1 l1) as (s2 & l2 & E2 & R2 & Ep2 & K2 & Q2 & S2).
  - rewrite Ep. apply list_lookup_insert_eq. by eapply lookup_lt_Some.
  - done.
  - rewrite Ehd, Hh. set_solver.
  - split; [rewrite Etf, Ely; apply Htf|by rewrite Epg|]. intros q [? ->]%Hpg. by apply Htf.
  - assert (k_held s2 = LK_proc np :: h) as Eh by (by rewrite R2; simpl; rewrite Ehd).
    exists (set_k_held h s2), l2. split.
    { erewrite bind_Ok by exact E2. by rewrite (bind_release _ h). }
    split.
    + pose proof (pm_rest_trans _ _ _ R R2) as R3. unfold pm_rest in *. simpl.
      exact (f_equal (set_k_held h) R3).
    + simpl. by rewrite Ep2, Ep, list_insert_insert_eq, <- Hc.
    + by destruct K2.
    + eapply same_but_trans; [exact S|]. eapply same_but_mono; [|exact S2].
      intros q Hx'. apply Hq. destruct Hx' as [?|?%Hpg]; tauto.
    + intros q. rewrite Q2, Hpg. apply Hq.
Qed.

Lemma alloc_rest_ok :
  (∃ s' l', alloc_rest np s = Ok None s' ∧ alloc_fail s' l') ∨
  (∃ s' l' root tf, alloc_rest np s = Ok (Some np) s' ∧ alloc_done s' l' root tf).
Proof using All.
  assert (LK_kmem ∉ k_held s) as Hkm by (rewrite Hh; set_solver). unfold alloc_rest.
  assert (∀ f s1, k_procs s1 = k_procs s → k_procs (upd_proc np f s1) = <[np := f x]> (k_procs s)) as Hup.
  { intros f s1 E. simpl. rewrite E. by apply alter_Some. }
  assert (∃ l0, l0 = l) as [l0 El] by eauto. pose proof HI as HJ. rewrite <- El in HJ. destruct l0 as [|tf l1].
  { left. erewrite bind_Ok by (apply kalloc_none; [done|apply (km_list _ _ HJ)]). mstep. cbn [Z.eqb].
    apply (alloc_giveup _ [] 0 (set_p_trapframe 0 x));
      [apply pm_rest_procs|by apply Hup|done|done|by apply H0|by apply kmem_inv_procs|by intros a|done|].
    intros q. rewrite <- El. clear. split; [intros [?|[? ?]]; done|tauto]. }
  pose proof (kalloc_inv _ _ _ HJ) as (K1 & Hni & Hok & Hne & _).
  erewrite bind_Ok by (apply kalloc_some; [done|apply (km_list _ _ HJ)|done]). mstep.
  rewrite (proj2 (Z.eqb_neq _ _) Hne). pose proof (vm_rest_kalloc tf s) as R1.
  assert (same_but (λ q, q ∈ tf :: l1) (k_mem s) (k_mem (kalloc_post tf s))) as S1.
  { eapply same_but_mono; [|apply memset_same_but]. intros q <-. left. }
  revert K1 R1 S1. generalize (kalloc_post tf s) as s1. intros s1 K1 R1 S1.
  assert (k_procs s1 = k_procs s) as E1 by (by rewrite R1).
  set (s2 := upd_proc np (set_p_trapframe tf) s1). pose proof (Hup (set_p_trapframe tf) s1 E1) as Ep2. fold s2 in Ep2.
  assert (pm_rest s s2) as R2 by (eapply pm_rest_trans; [by apply pm_rest_vm|apply pm_rest_procs]).
  destruct (proc_pagetable_ok np s2 l1 tf) as (r & s3 & l3 & E3 & R3 & K3 & S3 & H3).
  - by apply kmem_inv_procs.
  - by rewrite R2.
  - by rewrite R2.
  - unfold proc_of. by rewrite Ep2, list_lookup_insert_eq by (by eapply lookup_lt_Some).
  - by rewrite R2.
  - done.
  - erewrite bind_Ok by exact E3. mstep. assert (k_procs s3 = k_procs s2) as Ep3 by (by rewrite R3).
    assert (k_procs (upd_proc np (set_p_pagetable r) s3) = <[np := set_p_pagetable r (set_p_trapframe tf x)]> (k_procs s)) as Ep4.
    { simpl. rewrite Ep3, Ep2. erewrite alter_Some by (apply list_lookup_insert_eq; by eapply lookup_lt_Some).
      by rewrite list_insert_insert_eq. }
    assert (pm_rest s (upd_proc np (set_p_pagetable r) s3)) as R4.
    { eapply pm_rest_trans; [exact R2|]. eapply pm_rest_trans; [by apply pm_rest_vm|apply pm_rest_procs]. }
    assert (same_but (λ q, q ∈ tf :: l1) (k_mem s) (k_mem s3)) as S4.
    { eapply same_but_trans; [exact S1|]. eapply same_but_mono; [|exact S3]. intros q Hq. by right. }
    destruct H3 as [[-> Q3]|[Hr HN]].
    + left. cbn [Z.eqb]. apply (alloc_giveup _ l3 tf (set_p_pagetable 0 (set_p_trapframe tf x)));
        [done|done|done|done|done|by apply kmem_inv_procs|by rewrite <- El| |].
      * intros _. split; [done|]. by rewrite Q3.
      * intros q. rewrite <- El, elem_of_cons, Q3. clear -Hne. naive_solver.
    + right. rewrite (proj2 (Z.eqb_neq _ _) Hr). msteps.
      eexists _, l3, r, tf. split; [done|]. destruct HN as [N1 N2 N3].
      assert (k_ly s2 = k_ly s) as Ely2 by (by rewrite R2).
      split; rewrite <- ?El; try done.
      * eapply pm_rest_trans; [exact R4|apply pm_rest_procs].
      * simpl in Ep4 |- *. rewrite Ep4. erewrite alter_Some by (apply list_lookup_insert_eq; by eapply lookup_lt_Some).
        rewrite list_insert_insert_eq. by rewrite R3, R2.
      * by do 2 apply kmem_inv_procs.
      * by rewrite Ely2 in N1.
      * intros q. rewrite elem_of_cons. simpl. rewrite <- N2. clear. tauto.
      * intros q [->|Ho]; [|by apply N3]. intros Hl. apply Hni, N2. by left.
Qed.
End alloc_rest.

(** Only the process table, the allocator's memory, the next pid and the
    locks held differ. *)
Definition pl_rest (s s' : kst) : Prop := pm_rest (set_k_nextpid (k_nextpid s') (set_k_held (k_held s') s)) s'.

Lemma pl_rest_refl s : pl_rest s s.
Proof. unfold pl_rest, pm_rest. by destruct s. Qed.
Lemma pl_rest_alloc np f g n h h' s s' :
  pm_rest (set_k_held h' (upd_proc np f (upd_proc np g (set_k_nextpid n (set_k_held h s))))) s' →
  pl_rest s s' ∧ k_nextpid s' = n ∧ k_held s' = h' ∧ k_ly s' = k_ly s.
Proof.
  intros R. assert (k_nextpid s' = n ∧ k_held s' = h') as [<- <-] by (by rewrite R).
  split; [exact R|]. by rewrite R.
Qed.

Lemma pl_rest_trans s s1 s2 h : pl_rest s s1 → pm_rest s1 s2 → pl_rest s (set_k_held h s2).
Proof.
  intros H1 H2. assert (k_nextpid s2 = k_nextpid s1) as En by (by rewrite H2). unfold pl_rest, pm_rest.
  etrans; [exact (f_equal (set_k_held h) H2)|].
  etrans; [exact (f_equal (λ z, set_k_held h (set_k_procs (k_procs s2)
    (set_k_freelist (k_freelist s2) (set_k_mem (k_mem s2) z)))) H1)|].
  change (k_nextpid (set_k_held h s2)) with (k_nextpid s2). rewrite En. reflexivity.
Qed.

(** No process, and nothing changed. *)
Record alloc_none (s : kst) (l : list Z) (s' : kst) (l' : list Z) : Prop := {
  an_rest : pl_rest s s';
  an_held : k_held s' = k_held s;
  an_ok : procs_ok s' l';
  an_pages q : q ∈ l' ↔ q ∈ l;
  an_same : same_procs s s';
  an_files : p_ofile <$> k_procs s' = p_ofile <$> k_procs s;
}.
(** A new process without memory in the free entry [x] of index [np]. *)
Definition new_proc (s : kst) (root tf : Z) (x : proc) : proc :=
  started (k_ly s) root tf (set_p_state USED (set_p_pid (k_nextpid s) x)).
Record alloc_some (s : kst) (l : list Z) (np : nat) (x : proc) (root tf : Z) (s' : kst) (l' : list Z) : Prop := {
  as_rest : pl_rest s s';
  as_held : k_held s' = LK_proc np :: k_held s;
  as_entry : k_procs s !! np = Some x ∧ p_state x = UNUSED;
  as_procs : k_procs s' = <[np := new_proc s root tf x]> (k_procs s);
  as_next : k_nextpid s' = k_nextpid s + 1;
  as_ok : procs_ok s' l';
  as_pages q : q ∈ l' ∨ pgs (k_mem s') (new_proc s root tf x) q ↔ q ∈ l;
  as_same : same_procs s s';
}.

Lemma fmap_insert_same {A} (g : proc → A) (ps : list proc) i x y :
  ps !! i = Some x → g y = g x → g <$> <[i := y]> ps = g <$> ps.
Proof. intros Hx E. rewrite list_fmap_insert, E. apply list_insert_id. by rewrite list_lookup_fmap, Hx. Qed.

Lemma allocproc_ok s l :
  procs_ok s l → (∀ i, LK_proc i ∉ k_held s) → LK_pid ∉ k_held s → LK_kmem ∉ k_held s → k_nextpid s < 2 ^ 31 - 1 →
  (∃ s' l', allocproc s = Ok None s' ∧ alloc_none s l s' l') ∨
  (∃ np x root tf s' l', allocproc s = Ok (Some np) s' ∧ alloc_some s l np x root tf s' l').
Proof.
  intros HP Hh1 Hh2 Hh3 Hpid.
  destruct (wp_inv _ _ _ (find_unused_ok s (po_len _ _ HP) Hh1)) as (r & s1 & E1 & H1).
  unfold allocproc. erewrite bind_Ok by exact E1. destruct r as [np|].
  2:{ destruct H1 as [-> _]. left. exists s, l. split; [done|]. by split; [apply pl_rest_refl|..]. }
  destruct H1 as (x & Hx & Hu & ->). set (pid := k_nextpid s). pose proof (po_next _ _ HP) as Hn1. fold pid in Hn1, Hpid.
  erewrite bind_Ok by (apply allocpid_Ok; simpl; set_solver). cbn [k_nextpid set_k_held].
  rewrite i32_id by (fold pid; lia). fold pid. rewrite !bind_modify.
  set (x2 := set_p_state USED (set_p_pid pid x)).
  set (s2 := upd_proc np (set_p_state USED) (upd_proc np (set_p_pid pid)
    (set_k_nextpid (pid + 1) (set_k_held (LK_proc np :: k_held s) s)))).
  assert (k_procs s2 = <[np := x2]> (k_procs s)) as Ep2.
  { simpl. rewrite (alter_Some (set_p_pid pid) _ _ x) by done.
    erewrite alter_Some by (apply list_lookup_insert_eq; by eapply lookup_lt_Some). by rewrite list_insert_insert_eq. }
  destruct (eo_unused _ _ _ (po_entry _ _ HP _ _ Hx) Hu) as (Z1 & Z2 & Z3 & Z4).
  assert (∀ q, ¬ pgs (k_mem s) x q) as Hnp by (intros q; unfold pgs; rewrite Z1, Z2; clear; tauto).
  assert (writes_own s l x (λ q, q ∈ l)) as HW.
  { intros q Hq. split; [|by left]. pose proof (kmem_aligned _ _ (po_kmem _ _ HP)) as Ha. rewrite Forall_forall in Ha. by apply Ha. }
  assert (∀ y s', k_procs s' = <[np := y]> (<[np := x2]> (k_procs s)) → k_procs s' = <[np := y]> (k_procs s)) as Hii.
  { intros y s' ->. by rewrite list_insert_insert_eq. }
  destruct (alloc_rest_ok np x2 s2 l (k_held s)) as [(s' & l' & E & [A1 A2 A3 A4 A5])|(s' & l' & root & tf & E & D)].
  - rewrite Ep2. apply list_lookup_insert_eq. by eapply lookup_lt_Some.
  - done.
  - apply kmem_inv_procs, kmem_inv_procs. by destruct (po_kmem _ _ HP).
  - apply HP.
  - done.
  - done.
  - left. exists s', l'. split; [exact E|]. rewrite Ep2 in A2. apply Hii in A2.
    destruct (pl_rest_alloc _ _ _ _ _ _ _ _ A1) as (R & En & Eh & Ely).
    assert (entry_ok s' l' (cleared x2)) as He.
    { split; [done|done|by intros q [[? _]|[? _]]|]. cbn. rewrite length_insert. apply (eo_name _ _ _ (po_entry _ _ HP _ _ Hx)). }
    assert (∀ q, q ∈ l' ∨ pgs (k_mem s') (cleared x2) q → q ∈ l ∨ pgs (k_mem s) x q) as Hpg.
    { intros q [Hq|[[? _]|[? _]]]; [left; by apply A5|done|done]. }
    split.
    + exact R.
    + done.
    + apply (procs_update s l s' l' np x (cleared x2) (λ q, q ∈ l)); try done. fold pid. lia.
    + done.
    + apply (update_same_procs s l s' l' np x (cleared x2) (λ q, q ∈ l)); try done. fold pid. lia.
    + rewrite A2. by apply (fmap_insert_same _ _ _ x).
  - right. exists np, x, root, tf, s', l'. split; [exact E|]. destruct D as [D1 D2 D3 D4 D5 D6 D7 D8].
    rewrite Ep2 in D2. apply Hii in D2. pose proof (user_tf _ _ _ _ _ D6) as Htf.
    change (started (k_ly s2) root tf x2) with (new_proc s root tf x) in D2.
    rewrite <- (set_k_held_same s2) in D1. destruct (pl_rest_alloc _ _ _ _ _ _ _ _ D1) as (R & En & Eh & Ely).
    assert (∀ q, pgs (k_mem s') (new_proc s root tf x) q ↔ q = tf ∨ owns (k_mem s') root q) as Hq.
    { intros q. unfold pgs. cbn. clear -D5 Htf. split; [tauto|]. intros [?|?]; [left; lia|by right]. }
    assert (entry_ok s' l' (new_proc s root tf x)) as He.
    { split; [|done|intros q Hx'%Hq; by apply D8|apply (eo_name _ _ _ (po_entry _ _ HP _ _ Hx))]. intros _. rewrite Ely. change (p_sz (new_proc s root tf x)) with (p_sz x). rewrite Z3.
      split; [exact D6|]. split; [done|].
      cbn. rewrite En. fold pid. lia. }
    assert (∀ q, q ∈ l' ∨ pgs (k_mem s') (new_proc s root tf x) q → q ∈ l ∨ pgs (k_mem s) x q) as Hpg.
    { intros q Hx'. left. apply D7. destruct Hx' as [?|?%Hq]; [by left|by right]. }
    assert (p_state (new_proc s root tf x) ≠ UNUSED → ∀ j z, j ≠ np → k_procs s !! j = Some z → p_pid (new_proc s root tf x) ≠ p_pid z) as Hp.
    { intros _ j z _ Hz. cbn. fold pid. pose proof (po_entry _ _ HP _ _ Hz) as [e1 e2 _ _].
      destruct (decide (p_state z = UNUSED)) as [Ez|Ez]; [destruct (e2 Ez) as (_ & _ & _ & ->)|destruct (e1 Ez) as (_ & _ & ?)]; lia. }
    split; try done.
    + apply (procs_update s l s' l' np x (new_proc s root tf x) (λ q, q ∈ l)); try done. fold pid. lia.
    + intros q. rewrite Hq, <- D7. clear. tauto.
    + apply (update_same_procs s l s' l' np x (new_proc s root tf x) (λ q, q ∈ l)); try done. fold pid. lia.
Qed.
