(* ===== verification/ProcFork.v ===== *)
(** * fork

    [fork] of [kernel/proc.c] on the process table of [ProcTable]: the copy of the
    memory and of the saved registers, the references to the open files
    ([files_ok]), and the three critical sections in which the child becomes
    visible. *)

From stdpp Require Import options.
From S2P Require Import Prelude CString State Sched Sleeplock Kalloc Vm PageTable VmWalk VmSpec VmOps VmFree VmCopy VmProps Bio Block Log Copy Fs Console Pipe File Proc ProcMem ProcTable.
#[local] Open Scope Z_scope.
#[local] Existing Instance user_leaves.

(** ** The memory of the child *)

Lemma user_proc_upd ly root s l X s' l' X' tf sz :
  upd root s l X s' l' X' nowhere → tf ∈ X' → user_proc ly (k_mem s) root tf sz → ly_end (k_ly s') = ly_end ly →
  user_proc ly (k_mem s') root tf sz.
Proof.
  intros HU Htf [H1 [H2 H3] H4 H5 H6] Hly. pose proof (u_inv _ _ _ _ _ _ _ _ HU) as Hv.
  destruct (vmx_limbo _ _ _ _ _ Hv Htf) as (_ & Ho & _). split.
  - pose proof (vx_as _ _ _ _ Hv) as Hw. rewrite Hly in Hw.
    eapply as_wf_same_but; [exact Hw|by apply (same_but_refl (λ _, False))|done|]. by intros q Hq%elem_of_nil.
  - done.
  - by eapply pt_ok_upd.
  - by rewrite (upd_pte_of _ _ _ _ _ _ _ _ _ HU) by auto.
  - by rewrite (upd_pte_of _ _ _ _ _ _ _ _ _ HU) by auto.
Qed.

(** A process without memory has nothing mapped below the trapframe. *)
Lemma no_memory m root va : pt_ok m root 0 → 0 ≤ va < TRAPFRAME → pte_of m root va = None.
Proof.
  intros [_ _ Hl _ _] Hva. pose proof TRAPFRAME_val as HT. pose proof MAXVA_val as HM.
  destruct (pte_of m root va) as [v|] eqn:E; [|done]. exfalso.
  pose proof (va_path_idx va) as Hi. pose proof (va_of_path va ltac:(lia)) as Hv.
  assert (∀ t, is_top t → va_path va ≠ va_path t) as Hne.
  { intros t Ht Ep. destruct (top_range t Ht) as (Ha & ? & ?). apply va_path_inj in Ep; [|lia|unfold PGSIZE in *; lia].
    apply Z.mod_divide in Ha as [j ->]; [|done]. rewrite Z.div_mul in Ep by done.
    pose proof (Z.div_mod va PGSIZE ltac:(done)). pose proof (Z.mod_pos_bound va PGSIZE ltac:(done)). unfold PGSIZE in *. lia. }
  destruct (Hl [PX 2 va; PX 1 va] (PX 0 va)) as [H|[H|H]]; [done|done|by eexists; exact E|..].
  - change ([PX 2 va; PX 1 va] ++ [PX 0 va]) with (va_path va) in H. pose proof (va_of_nonneg _ Hi).
    rewrite (PGROUNDUP_aligned 0 aligned_0) in H by lia. lia.
  - by apply (Hne TRAPFRAME); [right|].
  - by apply (Hne TRAMPOLINE); [left|].
Qed.

(** *** The saved registers *)

Lemma tf_off_bound f : 0 ≤ tf_off f ∧ tf_off f + 8 ≤ sizeof_trapframe.
Proof. destruct f; by split; vm_compute. Qed.
Lemma tf_off_a0 f : f ≠ TF_a0 → tf_off f + 8 ≤ tf_off TF_a0 ∨ tf_off TF_a0 + 8 ≤ tf_off f.
Proof. intros Hf. destruct f; try done; first [left; by vm_compute|right; by vm_compute]. Qed.

Lemma load64_shift m a m' b : (∀ i, 0 ≤ i < 8 → rd m (a + i) = rd m' (b + i)) → load64 m a = load64 m' b.
Proof.
  intros H. with_strategy transparent [load64] unfold load64. f_equal. apply list_eq. intros i.
  destruct (decide (i < 8)%nat) as [Hi|Hi].
  - rewrite !lookup_rd_bytes by done. f_equal. apply H. lia.
  - by rewrite !lookup_ge_None_2 by (rewrite length_rd_bytes; lia).
Qed.
(** The trapframe at [tf] becomes a copy of the one at [src] with [a0] zero. *)
Definition copy_regs (m : mem) (tf src : Z) : mem :=
  store64 (memmove m tf src sizeof_trapframe) (tf + tf_off TF_a0) 0.
Lemma in_page_tf tf i : 0 ≤ i < sizeof_trapframe → in_page tf (tf + i).
Proof. change sizeof_trapframe with 288. unfold in_page, PGSIZE. lia. Qed.
Lemma copy_regs_same m tf src : mem_ok m → same_but (eq tf) m (copy_regs m tf src).
Proof.
  intros Hm a Ha. specialize (Ha tf eq_refl). unfold copy_regs. pose proof (tf_off_bound TF_a0) as [B1 B2].
  assert (a < tf ∨ tf + sizeof_trapframe ≤ a) as Hout.
  { change sizeof_trapframe with 288. unfold in_page, PGSIZE in Ha. lia. }
  rewrite rd_store64_out by lia. rewrite rd_memmove by (done || change sizeof_trapframe with 288; lia).
  rewrite decide_False; [done|lia].
Qed.
Lemma mem_ok_copy_regs m tf src : mem_ok m → mem_ok (copy_regs m tf src).
Proof. intros H. apply mem_ok_store64, mem_ok_memmove; [done|by change sizeof_trapframe with 288]. Qed.
Lemma copy_regs_load m tf src f :
  mem_ok m → load64 (copy_regs m tf src) (tf + tf_off f) = if decide (f = TF_a0) then 0 else load64 m (src + tf_off f).
Proof.
  intros Hm. unfold copy_regs. case_decide as Hf; [subst; by rewrite load64_store64 by lia|].
  pose proof (tf_off_a0 f Hf) as Ha. rewrite load64_store64_ne by lia.
  pose proof (tf_off_bound f) as [B1 B2]. apply load64_shift. intros i Hi.
  rewrite rd_memmove by (done || change sizeof_trapframe with 288; lia). rewrite decide_True by lia. f_equal. lia.
Qed.

Section copy.
Context (s : kst) (l : list Z) (p np : nat) (xp y : proc).
Context (HP : procs_ok s l) (Hp : k_procs s !! p = Some xp) (Hnp : k_procs s !! np = Some y) (Hne : p ≠ np).
Context (Hup : p_state xp ≠ UNUSED) (Huy : p_state y ≠ UNUSED) (Hsz : p_sz y = 0) (Hh : LK_kmem ∉ k_held s).
Let old := p_pagetable xp.
Let root := p_pagetable y.
Let tf := p_trapframe y.

Lemma child_vmx : vmx s root l [tf].
Proof using All.
  pose proof (po_entry _ _ HP _ _ Hnp) as He. apply freeable_vmx; [apply HP|done|by apply entry_freeable|apply (eo_used _ _ _ He Huy)].
Qed.

Lemma fork_copy :
  ∃ r s2 l2, uvmcopy old root (p_sz xp) s = Ok r s2 ∧
    ((r = 0 ∧ upd root s l [tf] s2 l2 [tf] (range 0 (PGROUNDUP (p_sz xp))) ∧
      same_mem (k_mem s) old (k_mem s2) root (PGROUNDUP (p_sz xp))) ∨
     (r = -1 ∧ upd root s l [tf] s2 l2 [tf] nowhere)).
Proof using All.
  pose proof (po_entry _ _ HP _ _ Hp) as Hep. destruct (eo_used _ _ _ Hep Hup) as (UP & Rp & _).
  pose proof (po_entry _ _ HP _ _ Hnp) as Hey. destruct (eo_used _ _ _ Hey Huy) as (UY & Ry & _). rewrite Hsz in UY.
  pose proof (user_tf _ _ _ _ _ UY) as Htf. pose proof (up_pt _ _ _ _ _ UP) as [P1 P2 _ _ _].
  destruct (uvmcopy_ok old root s l [tf] (p_sz xp) child_vmx (up_wf _ _ _ _ _ UP)) as (r & s2 & l2 & E & H).
  - intros q Ho Hq. assert (pgs (k_mem s) xp q) as Hx by (by right). destruct Hq as [[Hq| ->%list_elem_of_singleton]%elem_of_app|Hq].
    + by apply (eo_free _ _ _ Hep q).
    + apply (po_apart _ _ HP _ _ _ _ tf Hp Hnp Hne Hx). left. split; [unfold tf; lia|done].
    + apply (po_apart _ _ HP _ _ _ _ q Hp Hnp Hne Hx). by right.
  - done.
  - done.
  - intros va Hva. apply no_memory; [apply UY|]. pose proof TRAPFRAME_val.
    pose proof (PGROUNDUP_le (p_sz xp) TRAPFRAME ltac:(lia) aligned_TRAPFRAME ltac:(lia)). lia.
  - exists r, s2, l2. split; [done|]. destruct H as [(-> & H1 & H2 & _)|(-> & H)]; [left|right]; done.
Qed.

(** The address space of the child after the copy. *)
Lemma copied_user s2 l2 :
  upd root s l [tf] s2 l2 [tf] (range 0 (PGROUNDUP (p_sz xp))) →
  same_mem (k_mem s) old (k_mem s2) root (PGROUNDUP (p_sz xp)) →
  user_proc (k_ly s) (k_mem s2) root tf (p_sz xp).
Proof using All.
  intros HU HM. pose proof (po_entry _ _ HP _ _ Hp) as Hep. destruct (eo_used _ _ _ Hep Hup) as (UP & _).
  pose proof (po_entry _ _ HP _ _ Hnp) as Hey. destruct (eo_used _ _ _ Hey Huy) as (UY & _). rewrite Hsz in UY.
  pose proof (up_pt _ _ _ _ _ UP) as [P1 P2 _ _ _]. pose proof (up_pt _ _ _ _ _ UY) as [_ _ Q3 Q4 Q5].
  pose proof TRAPFRAME_val as HT. pose proof MAXVA_val as HMX.
  pose proof (PGROUNDUP_le (p_sz xp) TRAPFRAME ltac:(lia) aligned_TRAPFRAME ltac:(lia)) as Hb.
  pose proof (u_inv _ _ _ _ _ _ _ _ HU) as Hv. destruct (vmx_limbo _ _ _ _ tf Hv ltac:(left)) as (_ & Ho & _).
  assert (∀ t, is_top t → pte_of (k_mem s2) root t = pte_of (k_mem s) root t) as Ht.
  { intros t Ht. destruct (top_range t Ht) as (? & ? & ?). apply (upd_pte_of _ _ _ _ _ _ _ _ _ HU).
    rewrite range_va_path; [lia|done|apply aligned_PGROUNDUP; lia|unfold PGSIZE in *; lia]. }
  split.
  - pose proof (vx_as _ _ _ _ Hv) as Hw. rewrite (vm_rest_ly _ _ (u_rest _ _ _ _ _ _ _ _ HU)) in Hw.
    eapply as_wf_same_but; [exact Hw|by apply (same_but_refl (λ _, False))|done|]. by intros q Hq%elem_of_nil.
  - split; [apply UY|done].
  - split; [done| | |by rewrite Ht by (by left)|by rewrite Ht by (by right)].
    + intros va Hva. apply (same_mem_mapped _ _ _ _ _ va HM Hva). by apply P2.
    + intros q i Hl Hi Hs. destruct (decide (va_of (q ++ [i]) < PGROUNDUP (p_sz xp))) as [|Hge]; [by left|right].
      rewrite (u_ent _ _ _ _ _ _ _ _ HU) in Hs by (try done; intros [_ ?]; done).
      destruct (Q3 q i Hl Hi Hs) as [Hx|Hx]; [|done]. rewrite (PGROUNDUP_aligned 0 aligned_0) in Hx by lia.
      pose proof (va_of_nonneg _ Hi). lia.
  - rewrite Ht by (by left). apply UY.
  - rewrite Ht by (by right). apply UY.
Qed.

(** The child with its memory and its registers. *)
Definition child_state (s2 : kst) : kst :=
  set_k_mem (copy_regs (k_mem s2) tf (p_trapframe xp)) (upd_proc np (set_p_sz (p_sz xp)) s2).
Record child_made (s' : kst) (l' : list Z) : Prop := {
  cm_ok : procs_ok s' l';
  cm_procs : k_procs s' = <[np := set_p_sz (p_sz xp) y]> (k_procs s);
  cm_mem : same_mem (k_mem s) old (k_mem s') root (PGROUNDUP (p_sz xp));
  cm_regs f : load64 (k_mem s') (tf + tf_off f) = if decide (f = TF_a0) then 0 else load64 (k_mem s) (p_trapframe xp + tf_off f);
  cm_pages q : q ∈ l' ∨ pgs (k_mem s') (set_p_sz (p_sz xp) y) q ↔ q ∈ l ∨ pgs (k_mem s) y q;
  cm_same i z : k_procs s !! i = Some z → i ≠ np → p_state z ≠ UNUSED → same_user (k_mem s) (k_mem s') z;
}.

Lemma child_regs s2 l2 D :
  upd root s l [tf] s2 l2 [tf] D →
  upd root s2 l2 [tf] (set_k_mem (copy_regs (k_mem s2) tf (p_trapframe xp)) s2) l2 [tf] nowhere.
Proof using All.
  intros HU. pose proof (u_inv _ _ _ _ _ _ _ _ HU) as Hv. apply (upd_write _ _ _ _ tf); [done|by left|apply copy_regs_same, Hv|].
  apply mem_ok_copy_regs, Hv.
Qed.
Lemma child_writes : writes_own s l y (λ q, q ∈ l ++ [tf] ∨ owns (k_mem s) root q).
Proof using All.
  pose proof (po_entry _ _ HP _ _ Hnp) as Hey. destruct (eo_used _ _ _ Hey Huy) as (UY & Ry & _).
  pose proof (user_tf _ _ _ _ _ UY) as Htf. intros q Hq. split; [by apply (vmx_aligned _ _ _ _ q child_vmx)|].
  destruct Hq as [[Hq| ->%list_elem_of_singleton]%elem_of_app|Hq]; [by left|right; left..].
  - left. split; [unfold tf; lia|done].
  - by right.
Qed.

Lemma child_ready s2 l2 :
  upd root s l [tf] s2 l2 [tf] (range 0 (PGROUNDUP (p_sz xp))) →
  same_mem (k_mem s) old (k_mem s2) root (PGROUNDUP (p_sz xp)) → child_made (child_state s2) l2.
Proof using All.
  intros HU HM. pose proof (child_regs s2 l2 _ HU) as HR. pose proof (copied_user s2 l2 HU HM) as US.
  pose proof (po_entry _ _ HP _ _ Hnp) as Hey. destruct (eo_used _ _ _ Hey Huy) as (UY & Ry & Npid).
  pose proof (user_tf _ _ _ _ _ UY) as Htf. pose proof (u_rest _ _ _ _ _ _ _ _ HU) as R.
  set (s3 := set_k_mem (copy_regs (k_mem s2) tf (p_trapframe xp)) s2) in *.
  assert (upd root s l [tf] s3 l2 [tf] (range 0 (PGROUNDUP (p_sz xp)))) as HU3.
  { eapply upd_trans; [exact HU|]. eapply upd_mono; [|exact HR]. by intros ? []. }
  pose proof (u_inv _ _ _ _ _ _ _ _ HU3) as Hv. pose proof (vm_rest_ly _ _ R) as Ely.
  pose proof (eo_used _ _ _ (po_entry _ _ HP _ _ Hp) Hup) as (UP & _). pose proof (up_pt _ _ _ _ _ UP) as [P1 _ _ _ _].
  assert (user_proc (k_ly s) (k_mem s3) root tf (p_sz xp)) as US3.
  { apply (user_proc_upd _ _ _ _ _ _ _ _ _ _ HR); [by left|done|]. simpl. by rewrite Ely. }
  set (y' := set_p_sz (p_sz xp) y).
  assert (∀ q, pgs (k_mem s3) y' q ↔ q = tf ∨ owns (k_mem s3) root q) as Hq.
  { intros q. unfold pgs. change (p_trapframe y') with tf. change (p_pagetable y') with root.
    assert (tf ≠ 0) by (unfold tf; lia). assert (root ≠ 0) by done. clear -H H0. tauto. }
  assert (k_procs (child_state s2) = <[np := y']> (k_procs s)) as Ep.
  { simpl. replace (k_procs s2) with (k_procs s) by (by rewrite R). by apply alter_Some. }
  assert (∀ q, q ∈ l2 ∨ pgs (k_mem s3) y' q ↔ q ∈ l ∨ pgs (k_mem s) y q) as Hacc.
  { intros q. rewrite Hq. pose proof (u_pages _ _ _ _ _ _ _ _ HU3 q) as H. rewrite !elem_of_app, !list_elem_of_singleton in H.
    assert (pgs (k_mem s) y q ↔ q = tf ∨ owns (k_mem s) root q) as ->; [|clear -H; tauto].
    unfold pgs. fold tf root. assert (tf ≠ 0) as Ht by (unfold tf; lia). clear -Ht Ry. tauto. }
  assert (∀ q, q ∈ l2 ∨ pgs (k_mem s3) y' q → q ∈ l ∨ pgs (k_mem s) y q) as Hpg by (intros q; apply Hacc).
  assert (entry_ok (child_state s2) l2 y') as He.
  { split; [|done| |apply Hey].
    - intros _. change (k_ly (child_state s2)) with (k_ly s2). rewrite Ely. split; [exact US3|]. split; [done|].
      change (k_nextpid (child_state s2)) with (k_nextpid s2). by rewrite R.
    - intros q [->|Ho]%Hq Hl; [by destruct (vmx_limbo _ _ _ _ tf Hv ltac:(left))|].
      destruct (owns_ok _ _ _ _ _ (vx_as _ _ _ _ Hv) Ho) as [_ Hn]. apply Hn, elem_of_app. by left. }
  assert (kmem_inv (child_state s2) l2) as HK by (apply (kmem_inv_procs _ s3), Hv).
  assert (k_nextpid s ≤ k_nextpid (child_state s2)) as Hn.
  { change (k_nextpid (child_state s2)) with (k_nextpid s2). by rewrite R. }
  assert (p_state y' ≠ UNUSED → ∀ j z, j ≠ np → k_procs s !! j = Some z → p_pid y' ≠ p_pid z) as Hpid.
  { intros _ j z Hj Hz. by apply (po_pid _ _ HP np j y z). }
  assert (∀ i z, k_procs s !! i = Some z → i ≠ np → p_state z ≠ UNUSED → same_user (k_mem s) (k_mem s3) z) as Hsame.
  { intros i z Hz Hi Hst. by apply (update_same s l (child_state s2) l2 np y y' _ HP Hnp Ely Ep HK Hn (u_same _ _ _ _ _ _ _ _ HU3) child_writes Hpg He Hpid i). }
  split; [|done| | |exact Hacc|done].
  - exact (procs_update s l (child_state s2) l2 np y y' _ HP Hnp Ely Ep HK Hn (u_same _ _ _ _ _ _ _ _ HU3) child_writes Hpg He Hpid).
  - pose proof TRAPFRAME_val. pose proof (PGROUNDUP_le (p_sz xp) TRAPFRAME ltac:(lia) aligned_TRAPFRAME ltac:(lia)).
    apply (same_mem_upd _ _ _ _ _ _ _ _ _ _ _ HR); [lia|by intros ? _ []|done].
  - intros f. change (k_mem (child_state s2)) with (copy_regs (k_mem s2) tf (p_trapframe xp)). rewrite copy_regs_load by (apply (u_inv _ _ _ _ _ _ _ _ HU)).
    case_decide; [done|]. pose proof (tf_off_bound f) as [B1 B2]. apply load64_ext. intros a Ha.
    apply (frame_tf s l xp (k_mem s2) _ (po_entry _ _ HP _ _ Hp) (u_same _ _ _ _ _ _ _ _ HU)).
    + by apply (writes_other s l np p y xp); [..|apply child_writes].
    + pose proof (user_tf _ _ _ _ _ UP). lia.
    + replace a with (p_trapframe xp + (a - p_trapframe xp)) by lia. apply in_page_tf. lia.
Qed.
End copy.

(** ** Open files *)

(** The descriptors among [L] that refer to [f]. *)
Definition fcount (f : nat) (L : list (option nat)) : nat := length (filter (λ o, o = Some f) L).
(** The reference count of an open file is the number of descriptors that
    refer to it, in all the processes. *)
Definition descriptors (f : nat) (ps : list proc) : nat := sum_list_with (fcount f) (p_ofile <$> ps).
Record files_ok (s : kst) : Prop := {
  fo_len : length (k_ftable s) = NFILE;
  fo_ofile i x : k_procs s !! i = Some x → length (p_ofile x) = NOFILE ∧ ∀ f, Some f ∈ p_ofile x → (f < NFILE)%nat;
  fo_unused i x : k_procs s !! i = Some x → p_state x = UNUSED → p_ofile x = replicate NOFILE None;
  fo_ref f x : k_ftable s !! f = Some x → f_ref x = Z.of_nat (descriptors f (k_procs s));
}.

Lemma fcount_app f L K : fcount f (L ++ K) = (fcount f L + fcount f K)%nat.
Proof. unfold fcount. by rewrite filter_app, length_app. Qed.
Lemma fcount_in f L : Some f ∈ L → (1 ≤ fcount f L)%nat.
Proof.
  intros H. unfold fcount. assert (Some f ∈ filter (λ o, o = Some f) L) as H' by (by apply list_elem_of_filter).
  destruct (filter _ L); [by apply not_elem_of_nil in H'|simpl; lia].
Qed.
Lemma fcount_none f n : fcount f (replicate n None) = 0%nat.
Proof. induction n as [|n IH]; [done|]. unfold fcount in *. simpl. by rewrite filter_cons_False. Qed.
Lemma sum_none f n k : sum_list_with (fcount f) (replicate n (replicate k None)) = 0%nat.
Proof. induction n as [|n IH]; [done|]. simpl. by rewrite fcount_none, IH. Qed.

(** One more reference to each file of [L]. *)
Definition bump1 (ft : list file) (o : option nat) : list file :=
  match o with Some f => alter (λ x, set_f_ref (f_ref x + 1) x) f ft | None => ft end.
Definition bump (L : list (option nat)) (ft : list file) : list file := foldl bump1 ft L.
Lemma bump_lookup L ft f :
  bump L ft !! f = (λ x, set_f_ref (f_ref x + Z.of_nat (fcount f L)) x) <$> ft !! f.
Proof.
  revert ft; induction L as [|o L IH]; intros ft.
  { cbn. destruct (ft !! f) as [[]|]; [|done]. unfold set_f_ref. cbn. by rewrite Z.add_0_r. }
  cbn [bump foldl]. fold (bump L (bump1 ft o)). rewrite IH. clear IH. unfold fcount. destruct (decide (o = Some f)) as [->|Hne].
  - rewrite filter_cons_True by done. cbn [length bump1]. rewrite list_lookup_alter_eq, Nat2Z.inj_succ.
    destruct (ft !! f) as [[]|]; [|done]. unfold set_f_ref. cbn. do 2 f_equal. lia.
  - rewrite filter_cons_False by done. destruct o as [g|]; [|done]. simpl. rewrite list_lookup_alter_ne; [done|congruence].
Qed.
Lemma length_bump L ft : length (bump L ft) = length ft.
Proof. revert ft; induction L as [|o L IH]; intros ft; [done|]. simpl. rewrite IH. destruct o; [apply length_alter|done]. Qed.

Section dup.
Context (s : kst) (p np : nat) (xp y : proc).
Context (HF : files_ok s) (Hp : k_procs s !! p = Some xp) (Hnp : k_procs s !! np = Some y) (Hne : p ≠ np).
Context (Hy : p_ofile y = replicate NOFILE None) (Hh : LK_ftable ∉ k_held s).
Let L := p_ofile xp.

(** The state after [i] iterations. *)
Definition dup_state (i : nat) : kst :=
  set_k_ftable (bump (take i L) (k_ftable s))
    (upd_proc np (set_p_ofile (take i L ++ replicate (NOFILE - i) None)) s).

Lemma dup_length : length L = NOFILE.
Proof using All. apply (fo_ofile _ HF p xp Hp). Qed.
Lemma dup_ofile i : ofile_of (dup_state i) p (Z.of_nat i) = default None (L !! i).
Proof using All.
  unfold ofile_of, proc_of, dup_state. simpl. rewrite list_lookup_alter_ne by congruence. by rewrite Hp, Nat2Z.id.
Qed.
Lemma dup_none i : (i < NOFILE)%nat → L !! i = Some None → dup_state (S i) = dup_state i.
Proof using All.
  intros Hi E. unfold dup_state. rewrite (take_S_r L i None E). f_equal.
  - unfold bump. by rewrite foldl_app.
  - do 2 f_equal. rewrite <- app_assoc. f_equal. replace (NOFILE - i)%nat with (S (NOFILE - S i)) by lia. done.
Qed.
Lemma dup_ref f : Some f ∈ L → ∀ i, 1 ≤ f_ref (file_of (dup_state i) f) ∧ (f < length (k_ftable (dup_state i)))%nat.
Proof using All.
  intros Hf i. destruct (fo_ofile _ HF p xp Hp) as [_ Hb]. pose proof (Hb f Hf) as Hlt.
  unfold dup_state, file_of. simpl. rewrite length_bump, (fo_len _ HF). split; [|done]. rewrite bump_lookup.
  destruct (lookup_lt_is_Some_2 (k_ftable s) f) as [x Hx]; [by rewrite (fo_len _ HF)|]. rewrite Hx. simpl.
  rewrite (fo_ref _ HF f x Hx). pose proof (fcount_in f L Hf). unfold descriptors.
  pose proof (sum_lookup (fcount f) (p_ofile <$> k_procs s) p L) as Hs. rewrite list_lookup_fmap, Hp in Hs.
  specialize (Hs eq_refl). lia.
Qed.
Lemma dup_some i f :
  (i < NOFILE)%nat → L !! i = Some (Some f) →
  (g ← filedup f; set_ofile np (Z.of_nat i) (Some g)) (dup_state i) = Ok () (dup_state (S i)).
Proof using All.
  intros Hi E. assert (Some f ∈ L) as Hin by (by eapply list_elem_of_lookup_2).
  destruct (dup_ref f Hin i) as [Hr Hlt]. destruct (lookup_lt_is_Some_2 _ _ Hlt) as [x Hx].
  assert (file_of (dup_state i) f = x) as Ex by (unfold file_of; by rewrite Hx). rewrite Ex in Hr.
  assert (filedup f (dup_state i) = Ok f (upd_file f (set_f_ref (f_ref x + 1)) (dup_state i))) as Efd.
  { unfold filedup. rewrite bind_acquire by done. mstep.
    change (file_of (set_k_held (LK_ftable :: k_held (dup_state i)) (dup_state i)) f) with (file_of (dup_state i) f). rewrite Ex.
    destruct (Z.ltb_spec (f_ref x) 1); [lia|]. mstep. rewrite (bind_release _ (k_held s)) by done. by mstep. }
  rewrite (bind_Ok _ _ _ _ _ Efd). unfold set_ofile, modify. f_equal. unfold dup_state. rewrite (take_S_r L i (Some f) E). kst_unfold. f_equal.
  - rewrite !(alter_Some _ _ _ _ Hnp). erewrite alter_Some by (apply list_lookup_insert_eq; by eapply lookup_lt_Some).
    rewrite list_insert_insert_eq. f_equal. unfold set_p_ofile. f_equal. rewrite Nat2Z.id. pose proof dup_length as Hl. cbn [p_ofile].
    rewrite insert_app_r_alt by (rewrite length_take; lia). rewrite length_take, Nat.min_l by lia. rewrite Nat.sub_diag.
    replace (NOFILE - i)%nat with (S (NOFILE - S i)) by lia. cbn [replicate]. by rewrite <- app_assoc.
  - unfold bump. rewrite foldl_app. cbn [foldl bump1]. fold (bump (take i L) (k_ftable s)).
    unfold dup_state in Hx. simpl in Hx. rewrite !(alter_Some _ _ _ _ Hx). done.
Qed.

Lemma dup_files :
  mfor NOFILE 0 (λ i,
    f ← gets (λ s, ofile_of s p i);
    match f with
    | Some f => f ← filedup f; set_ofile np i (Some f)
    | None => mret ()
    end) s = Ok () (set_k_ftable (bump L (k_ftable s)) (upd_proc np (set_p_ofile L) s)).
Proof using All.
  pose proof dup_length as Hl.
  match goal with |- ?m s = _ => assert (wp m (λ _ s', s' = dup_state NOFILE) s) as ([] & s' & E & ->)%wp_inv end.
  { apply (wp_mfor _ _ _ (λ i s', s' = dup_state (Z.to_nat i))); [| |done].
  - unfold dup_state. change (Z.to_nat 0) with 0%nat. rewrite take_0, Nat.sub_0_r, <- Hy. unfold upd_proc. cbn [app bump foldl].
    rewrite (alter_Some _ _ _ _ Hnp).
    assert (set_p_ofile (p_ofile y) y = y) as -> by (by destruct y). rewrite list_insert_id by done. by destruct s.
  - intros j s' Hj ->. set (i := Z.to_nat j). replace j with (Z.of_nat i) by (unfold i; lia).
    apply wp_bind, wp_gets. rewrite dup_ofile. replace (Z.to_nat (Z.of_nat i + 1)) with (S i) by lia.
    assert (i < NOFILE)%nat as Hi by (unfold i; lia).
    destruct (lookup_lt_is_Some_2 L i) as [[f|] E]; [lia|..]; rewrite E; simpl.
    + eapply wp_Ok; [by apply dup_some|done].
    + apply wp_ret. by rewrite dup_none. }
  rewrite E. unfold dup_state. rewrite take_ge by lia. rewrite Nat.sub_diag. simpl. by rewrite app_nil_r.
Qed.
End dup.

(** ** The rest of the child *)

Lemma KOBJ_page a : KOBJ ≤ a < KOBJ + 32 → in_page KOBJ a.
Proof. unfold in_page, PGSIZE. lia. Qed.
Lemma same_but_kobj m m' : (∀ a, ¬ (KOBJ ≤ a < KOBJ + 32) → rd m' a = rd m a) → same_but (eq KOBJ) m m'.
Proof. intros H a Ha. apply H. intros Hr. by apply (Ha KOBJ eq_refl), KOBJ_page. Qed.

Lemma mem_ok_safestrcpy_loop n : ∀ m d t, mem_ok m → mem_ok (safestrcpy_loop m d t n).
Proof.
  induction n as [|n IH]; intros m d t Hm; cbn [safestrcpy_loop]; [by apply mem_ok_wr|]. cbv zeta.
  case_match; [by apply mem_ok_wr, mem_ok_wr|]. by apply IH, mem_ok_wr.
Qed.
Lemma set_name_Ok np x src s :
  k_procs s !! np = Some x → length (p_name x) = 16%nat → mem_ok (k_mem s) →
  ∃ m' nm, set_name np src s = Ok () (upd_proc np (set_p_name nm) (set_k_mem m' s)) ∧ mem_ok m' ∧
    same_but (eq KOBJ) (k_mem s) m' ∧ length nm = 16%nat.
Proof.
  intros Hx Hl Hm. assert (proc_of s np = x) as Ex by (unfold proc_of; by rewrite Hx).
  set (m1 := wr_bytes (k_mem s) KOBJ (p_name x)). set (m2 := safestrcpy m1 KOBJ src 16).
  exists m2, (rd_bytes m2 KOBJ 16). split; [|split; [|split]].
  - unfold set_name. mstep. rewrite Ex. unfold expose. by msteps.
  - by apply mem_ok_safestrcpy_loop, mem_ok_wr_bytes.
  - apply same_but_kobj. intros a Ha. unfold m2, safestrcpy. cbn [Z.leb Z.compare].
    rewrite rd_safestrcpy_loop_out by lia. unfold m1. apply rd_wr_bytes_out. rewrite Hl. lia.
  - apply length_rd_bytes.
Qed.

Definition fork_tail (p np : nat) (x : proc) : K Z :=
  mfor NOFILE 0 (λ i,
    f ← gets (λ s, ofile_of s p i);
    match f with
    | Some f => f ← filedup f; set_ofile np i (Some f)
    | None => mret ()
    end);;
  cwd ← idup_ptr (p_cwd x);
  modify (upd_proc np (set_p_cwd cwd));;
  nm ← gets (λ s, p_name (proc_of s p));
  modify (λ s, set_k_mem (wr_bytes (k_mem s) (KOBJ + 16) nm) s);;
  set_name np (KOBJ + 16);;
  pid ← gets (λ s, p_pid (proc_of s np));
  release (LK_proc np);;
  acquire LK_wait;;
  modify (upd_proc np (set_p_parent (Some p)));;
  release LK_wait;;
  acquire (LK_proc np);;
  modify (upd_proc np (set_p_state RUNNABLE));;
  release (LK_proc np);;
  mret pid.

(** The child as [fork] leaves it. *)
Definition forked_proc (p : nat) (xp : proc) (nm : list Z) (y : proc) : proc :=
  set_p_state RUNNABLE (set_p_parent (Some p) (set_p_name nm (set_p_cwd (p_cwd xp) (set_p_ofile (p_ofile xp) y)))).

Lemma idup_ptr_Ok ip s :
  LK_itable ∉ k_held s → idup_ptr (Some ip) s = Ok (Some ip) (upd_inode ip (λ x, set_i_ref (i_ref x + 1) x) s).
Proof.
  intros Hh. unfold idup_ptr, idup. erewrite bind_Ok; [by mstep|]. rewrite bind_acquire by done. mstep.
  rewrite (bind_release _ (k_held s)) by done. by mstep.
Qed.
Lemma alter_insert {A} (f : A → A) (l : list A) i x : (i < length l)%nat → alter f i (<[i := x]> l) = <[i := f x]> l.
Proof. intros Hi. erewrite alter_Some by (by apply list_lookup_insert_eq). by rewrite list_insert_insert_eq. Qed.

Lemma tail_locks np f g h1 h2 h3 h4 s :
  set_k_held [] (upd_proc np f (set_k_held h1 (set_k_held h2 (upd_proc np g (set_k_held h3 (set_k_held h4 s)))))) =
  set_k_held [] (set_k_procs (alter f np (alter g np (k_procs s))) s).
Proof. done. Qed.

Section tail.
Context (s : kst) (p np ip : nat) (xp y : proc).
Context (HF : files_ok s) (Hp : k_procs s !! p = Some xp) (Hnp : k_procs s !! np = Some y) (Hne : p ≠ np).
Context (Hy : p_ofile y = replicate NOFILE None) (Hh : k_held s = [LK_proc np]) (Hcwd : p_cwd xp = Some ip).
Context (Hnx : length (p_name xp) = 16%nat) (Hny : length (p_name y) = 16%nat) (Hm : mem_ok (k_mem s)).

Lemma fork_tail_Ok :
  ∃ m' nm, length nm = 16%nat ∧ mem_ok m' ∧ same_but (eq KOBJ) (k_mem s) m' ∧
    fork_tail p np xp s = Ok (p_pid y)
      (set_k_held [] (set_k_mem m' (set_k_itable (alter (λ x, set_i_ref (i_ref x + 1) x) ip (k_itable s))
        (set_k_ftable (bump (p_ofile xp) (k_ftable s)) (set_k_procs (<[np := forked_proc p xp nm y]> (k_procs s)) s))))).
Proof using All.
  set (y1 := set_p_cwd (p_cwd xp) (set_p_ofile (p_ofile xp) y)).
  set (ft := bump (p_ofile xp) (k_ftable s)). set (it := alter (λ x, set_i_ref (i_ref x + 1) x) ip (k_itable s)).
  pose proof (lookup_lt_Some _ _ _ Hnp) as Hlt.
  set (s1 := set_k_itable it (set_k_ftable ft (set_k_procs (<[np := y1]> (k_procs s)) s))).
  set (m1 := wr_bytes (k_mem s) (KOBJ + 16) (p_name xp)).
  destruct (set_name_Ok np y1 (KOBJ + 16) (set_k_mem m1 s1)) as (m' & nm & E & Hm' & Hs & Hl);
    [by apply list_lookup_insert_eq|done|by apply mem_ok_wr_bytes|].
  exists m', nm. split; [done|]. split; [done|]. split.
  { eapply same_but_trans; [|exact Hs]. apply same_but_kobj. intros a Ha. apply rd_wr_bytes_out. rewrite Hnx. lia. }
  unfold fork_tail. erewrite bind_Ok by (apply (dup_files s p np xp y); try done; rewrite Hh; set_solver).
  fold ft. set (t1 := set_k_ftable ft (upd_proc np (set_p_ofile (p_ofile xp)) s)). rewrite Hcwd.
  erewrite (bind_Ok (idup_ptr (Some ip))) by (apply idup_ptr_Ok; simpl; rewrite Hh; set_solver). mstep.
  assert (upd_proc np (set_p_cwd (Some ip)) (upd_inode ip (λ x, set_i_ref (i_ref x + 1) x) t1) = s1) as ->.
  { unfold t1, s1, upd_proc at 1. simpl k_procs. rewrite (alter_Some _ _ _ _ Hnp), alter_insert by done. unfold y1. by rewrite Hcwd. }
  mstep. replace (p_name (proc_of s1 p)) with (p_name xp).
  2:{ unfold proc_of, s1. simpl. by rewrite list_lookup_insert_ne, Hp. }
  mstep. erewrite bind_Ok by exact E. mstep.
  set (s2 := upd_proc np (set_p_name nm) (set_k_mem m' (set_k_mem m1 s1))).
  assert (k_held s2 = [LK_proc np]) as Hh2 by done.
  assert (k_procs s2 = <[np := set_p_name nm y1]> (k_procs s)) as Ep.
  { simpl. by rewrite alter_insert by done. }
  replace (p_pid (proc_of s2 np)) with (p_pid y) by (unfold proc_of; by rewrite Ep, list_lookup_insert_eq).
  rewrite (bind_release _ []) by done. rewrite bind_acquire by (simpl; set_solver). mstep.
  rewrite (bind_release _ []) by done. rewrite bind_acquire by (simpl; set_solver). mstep.
  rewrite (bind_release _ []) by done. mstep. f_equal. rewrite tail_locks, Ep, !alter_insert by done. reflexivity.
Qed.
End tail.

(** ** fork *)

(** [fork] once the child has its entry. *)
Definition fork_rest (p np : nat) : K Z :=
  x ← gets (λ s, proc_of s p);
  npt ← gets (λ s, p_pagetable (proc_of s np));
  c ← uvmcopy (p_pagetable x) npt (p_sz x);
  if c <? 0 then freeproc np;; release (LK_proc np);; mret (-1) else
  modify (upd_proc np (set_p_sz (p_sz x)));;
  ntf ← gets (λ s, p_trapframe (proc_of s np));
  kmemmove ntf (p_trapframe x) sizeof_trapframe;;
  tf_set np TF_a0 0;;
  fork_tail p np x.
Lemma fork_unfold : fork = (p ← curproc; r ← allocproc; match r with None => mret (-1) | Some np => fork_rest p np end).
Proof. reflexivity. Qed.

(** A failed [fork]: the memory of the child could not be copied. *)
Section fail.
Context (s : kst) (l : list Z) (np : nat) (y : proc) (s2 : kst) (l2 : list Z).
Context (HP : procs_ok s l) (Hnp : k_procs s !! np = Some y) (Huy : p_state y ≠ UNUSED) (Hsz : p_sz y = 0).
Context (Hk : LK_kmem ∉ k_held s).
Context (HU : upd (p_pagetable y) s l [p_trapframe y] s2 l2 [p_trapframe y] nowhere).

Lemma fail_pages q : q ∈ l2 ∨ pgs (k_mem s2) y q ↔ q ∈ l ∨ pgs (k_mem s) y q.
Proof using All.
  pose proof (po_entry _ _ HP _ _ Hnp) as Hey. destruct (eo_used _ _ _ Hey Huy) as (UY & Ry & _).
  pose proof (user_tf _ _ _ _ _ UY) as Htf. assert (p_trapframe y ≠ 0) as Ht by lia.
  pose proof (u_pages _ _ _ _ _ _ _ _ HU q) as H. rewrite !elem_of_app, !list_elem_of_singleton in H. unfold pgs.
  clear -H Ht Ry. tauto.
Qed.
Lemma fail_freeable : freeable s2 l2 y.
Proof using All.
  pose proof (po_entry _ _ HP _ _ Hnp) as Hey. destruct (eo_used _ _ _ Hey Huy) as (UY & Ry & _). rewrite Hsz in UY.
  pose proof (u_inv _ _ _ _ _ _ _ _ HU) as Hv. pose proof (vm_rest_ly _ _ (u_rest _ _ _ _ _ _ _ _ HU)) as Ely.
  pose proof (user_tf _ _ _ _ _ UY) as Htf. destruct (vmx_limbo _ _ _ _ (p_trapframe y) Hv ltac:(left)) as (L1 & L2 & L3).
  split.
  - done.
  - intros _. split; [lia|]. split; [|split; [|done]].
    + eapply as_wf_same_but; [apply (vx_as _ _ _ _ Hv)|by apply (same_but_refl (λ _, False))|done|]. by intros q Hq%elem_of_nil.
    + rewrite Hsz. by apply (pt_ok_upd _ _ _ _ _ _ _ _ HU), UY.
  - intros q [[_ ->]|[_ Ho]]; [done|]. destruct (owns_ok _ _ _ _ _ (vx_as _ _ _ _ Hv) Ho) as [_ Hn].
    intros Hq. apply Hn, elem_of_app. by left.
Qed.
Lemma fail_ok :
  ∃ s' l', (freeproc np;; release (LK_proc np);; mret (-1)) s2 =
      (release (LK_proc np);; mret (-1)) s' ∧ pm_rest s s' ∧ procs_ok s' l' ∧
    k_procs s' = <[np := cleared y]> (k_procs s) ∧ (∀ q, q ∈ l' ↔ q ∈ l ∨ pgs (k_mem s) y q) ∧
    (∀ i z, k_procs s !! i = Some z → i ≠ np → p_state z ≠ UNUSED → same_user (k_mem s) (k_mem s') z).
Proof using All.
  pose proof (po_entry _ _ HP _ _ Hnp) as Hey. destruct (eo_used _ _ _ Hey Huy) as (UY & Ry & _).
  pose proof (u_rest _ _ _ _ _ _ _ _ HU) as R. pose proof (u_inv _ _ _ _ _ _ _ _ HU) as Hv.
  assert (k_procs s2 = k_procs s) as E2 by (by rewrite R).
  destruct (freeproc_ok np y s2 l2) as (s' & l' & E & R' & Ep & K & Q & S);
    [by rewrite E2|apply Hv|apply Hv|apply fail_freeable|].
  assert (pm_rest s s') as RR by (eapply pm_rest_trans; [by apply pm_rest_vm|done]). rewrite E2 in Ep.
  change (clear_proc (set_p_trapframe 0 y)) with (cleared y) in Ep.
  pose proof (freeable_vmx s l y (po_kmem _ _ HP) Hk (entry_freeable _ _ _ Hey) Ry) as Hv0.
  set (P := λ q, q ∈ l ++ [p_trapframe y] ∨ owns (k_mem s) (p_pagetable y) q).
  assert (∀ q, q ∈ l2 ∨ pgs (k_mem s2) y q → P q) as HPq.
  { intros q. rewrite fail_pages. unfold pgs, P. rewrite elem_of_app, list_elem_of_singleton. clear. tauto. }
  assert (same_but P (k_mem s) (k_mem s')) as HS.
  { eapply same_but_trans; [apply (u_same _ _ _ _ _ _ _ _ HU)|]. eapply same_but_mono; [|exact S]. intros q. apply HPq. }
  assert (writes_own s l y P) as HW.
  { pose proof (user_tf _ _ _ _ _ UY). intros q Hq. split; [by apply (vmx_aligned _ _ _ _ q Hv0)|].
    destruct Hq as [[Hq| ->%list_elem_of_singleton]%elem_of_app|Hq]; [by left|right; left; left; split; [lia|done]|right; left; by right]. }
  assert (k_ly s' = k_ly s ∧ k_nextpid s' = k_nextpid s) as [Ely En] by (by rewrite RR).
  assert (∀ q, q ∈ l' ∨ pgs (k_mem s') (cleared y) q → q ∈ l ∨ pgs (k_mem s) y q) as Hpg.
  { intros q [Hq|[[? _]|[? _]]]; [by apply fail_pages, Q|done|done]. }
  assert (entry_ok s' l' (cleared y)) as He.
  { split; [done|done|by intros q [[? _]|[? _]]|]. cbn. rewrite length_insert. apply Hey. }
  assert (p_state (cleared y) ≠ UNUSED → ∀ j z, j ≠ np → k_procs s !! j = Some z → p_pid (cleared y) ≠ p_pid z) as Hpid by done.
  assert (k_nextpid s ≤ k_nextpid s') as Hn by lia.
  exists s', l'. split; [by erewrite bind_Ok|]. split; [done|]. split; [|split; [done|split]].
  - exact (procs_update s l s' l' np y (cleared y) P HP Hnp Ely Ep K Hn HS HW Hpg He Hpid).
  - intros q. rewrite Q. apply fail_pages.
  - intros i z Hz Hi Hst. by apply (update_same s l s' l' np y (cleared y) P HP Hnp Ely Ep K Hn HS HW Hpg He Hpid i).
Qed.
End fail.

Lemma files_ok_fmap s s' :
  files_ok s → k_ftable s' = k_ftable s → p_ofile <$> k_procs s' = p_ofile <$> k_procs s →
  (∀ i x', k_procs s' !! i = Some x' → p_state x' = UNUSED → ∃ x, k_procs s !! i = Some x ∧ p_state x = UNUSED) →
  files_ok s'.
Proof.
  intros [F1 F2 F3 F4] Ef Eo Hu.
  assert (∀ i x', k_procs s' !! i = Some x' → ∃ x, k_procs s !! i = Some x ∧ p_ofile x' = p_ofile x) as Hi.
  { intros i x' Hx. pose proof (f_equal (λ L, L !! i) Eo) as E. cbn in E. rewrite !list_lookup_fmap, Hx in E.
    destruct (k_procs s !! i) as [x|]; [|done]. injection E as E. by exists x. }
  split.
  - by rewrite Ef.
  - intros i x' Hx. destruct (Hi i x' Hx) as (x & H & ->). by apply (F2 i).
  - intros i x' Hx Hst. destruct (Hi i x' Hx) as (x & H & ->). destruct (Hu i x' Hx Hst) as (z & Hz & E).
    apply (F3 i); congruence.
  - intros f x. rewrite Ef. unfold descriptors. rewrite Eo. apply F4.
Qed.

(** The child [y] at [np] of the process [xp] at [p]. *)
Record forked (s : kst) (p : nat) (xp : proc) (np : nat) (y : proc) (s' : kst) : Prop := {
  fk_entry : (∃ x, k_procs s !! np = Some x ∧ p_state x = UNUSED) ∧ k_procs s' !! np = Some y;
  fk_run : p_state y = RUNNABLE ∧ p_context y = Context (ly_forkret (k_ly s)) (p_kstack y + PGSIZE) (replicate 12 0);
  fk_ids : p_pid y = k_nextpid s ∧ p_parent y = Some p;
  fk_files : p_ofile y = p_ofile xp ∧ p_cwd y = p_cwd xp;
  fk_sz : p_sz y = p_sz xp;
  fk_mem : same_mem (k_mem s) (p_pagetable xp) (k_mem s') (p_pagetable y) (PGROUNDUP (p_sz xp));
  fk_regs f : load64 (k_mem s') (p_trapframe y + tf_off f) =
    if decide (f = TF_a0) then 0 else load64 (k_mem s) (p_trapframe xp + tf_off f);
}.

Lemma load64_tf m m' x f : same_user m m' x → load64 m' (p_trapframe x + tf_off f) = load64 m (p_trapframe x + tf_off f).
Proof.
  intros H. pose proof (tf_off_bound f) as [B1 B2]. apply load64_ext. intros a Ha. apply (su_tf _ _ _ H).
  replace a with (p_trapframe x + (a - p_trapframe x)) by lia. apply in_page_tf. lia.
Qed.
Lemma KOBJ_outside s l x : procs_ok s l → writes_own s l x (eq KOBJ).
Proof.
  intros HP q <-. split; [done|]. right; right. intros (_ & H & _). pose proof (lo_end _ (po_ly _ _ HP)). unfold KOBJ, KERNBASE in *. lia.
Qed.

Section finish.
Context (s : kst) (l : list Z) (p np ip : nat) (xp y : proc).
Context (HP : procs_ok s l) (HF : files_ok s).
Context (Hp : k_procs s !! p = Some xp) (Hnp : k_procs s !! np = Some y) (Hne : p ≠ np).
Context (Huy : p_state y ≠ UNUSED) (Hoy : p_ofile y = replicate NOFILE None).
Context (Hh : k_held s = [LK_proc np]) (Hcwd : p_cwd xp = Some ip).

(** The state [fork_tail] leaves. *)
Record finished (s' : kst) (y' : proc) : Prop := {
  fn_ok : procs_ok s' l;
  fn_files : files_ok s';
  fn_held : k_held s' = [];
  fn_procs : k_procs s' = <[np := y']> (k_procs s);
  fn_entry : ∃ nm, y' = forked_proc p xp nm y;
  fn_user i z : k_procs s !! i = Some z → p_state z ≠ UNUSED → same_user (k_mem s) (k_mem s') z;
  fn_itable : k_itable s' = alter (λ x, set_i_ref (i_ref x + 1) x) ip (k_itable s);
}.

Lemma finish_files s' y' :
  k_procs s' = <[np := y']> (k_procs s) → p_state y' ≠ UNUSED → p_ofile y' = p_ofile xp →
  k_ftable s' = bump (p_ofile xp) (k_ftable s) → files_ok s'.
Proof using All.
  intros Ep Hst Ho Ef. pose proof HF as [F1 F2 F3 F4].
  assert (∀ i z, k_procs s' !! i = Some z → i = np ∧ z = y' ∨ i ≠ np ∧ k_procs s !! i = Some z) as Hlk.
  { intros i z. rewrite Ep. intros [(-> & <- & _)|[? ?]]%list_lookup_insert_Some; [by left|right]. split; [congruence|done]. }
  split.
  - by rewrite Ef, length_bump.
  - intros i z [[-> ->]|[Hi Hz]]%Hlk; [rewrite Ho; by apply (F2 p)|by apply (F2 i)].
  - intros i z [[-> ->]|[Hi Hz]]%Hlk; [done|by apply (F3 i)].
  - intros f z Hz. rewrite Ef, bump_lookup in Hz. destruct (k_ftable s !! f) as [x|] eqn:Hx; [|done]. simpl in Hz. injection Hz as <-.
    cbn. rewrite (F4 f x Hx). unfold descriptors. rewrite Ep, list_fmap_insert, Ho.
    pose proof (sum_insert (fcount f) (p_ofile <$> k_procs s) np (p_ofile y) (p_ofile xp)) as Hs.
    rewrite list_lookup_fmap, Hnp in Hs. specialize (Hs eq_refl). rewrite Hoy, fcount_none in Hs. lia.
Qed.

Lemma fork_finish : ∃ s' y', fork_tail p np xp s = Ok (p_pid y) s' ∧ finished s' y'.
Proof using All.
  pose proof (po_entry _ _ HP _ _ Hp) as Hex. pose proof (po_entry _ _ HP _ _ Hnp) as Hey.
  destruct (fork_tail_Ok s p np ip xp y HF Hp Hnp Hne Hoy Hh Hcwd (eo_name _ _ _ Hex) (eo_name _ _ _ Hey) (km_mem _ _ (po_kmem _ _ HP)))
    as (m' & nm & Hnm & Hm & Hs & E).
  match type of E with _ = Ok _ ?t => set (s' := t) in E end. set (y' := forked_proc p xp nm y) in *.
  assert (k_procs s' = <[np := y']> (k_procs s)) as Ep by done.
  assert (kmem_inv s' l) as HK.
  { pose proof (po_kmem _ _ HP) as [K1 K2 K3 K4]. split; try done. apply (flist_frame (k_mem s)); [|exact K1].
    intros q a Hq Ha. symmetry. apply (same_but_page (eq KOBJ) (k_mem s) m' q a Hs); [|rewrite Forall_forall in K3; by apply K3|done].
    intros x <-. split; [done|]. rewrite Forall_forall in K3. destruct (K3 q Hq) as (_ & H & _). pose proof (lo_end _ (po_ly _ _ HP)).
    unfold KOBJ, KERNBASE in *. lia. }
  pose proof (KOBJ_outside s l y HP) as HW.
  assert (∀ q, eq KOBJ q → aligned q ∧ ¬ pgs (k_mem s) y q) as HO.
  { intros q Hq. destruct (HW q Hq) as [Ha H]. split; [done|]. intros Hpq. pose proof (entry_page_ok _ _ _ _ Hey Hpq) as Hok.
    subst q. destruct Hok as (_ & Hr & _). pose proof (lo_end _ (po_ly _ _ HP)). unfold KOBJ, KERNBASE in *. lia. }
  pose proof (frame_pgs s l y m' (eq KOBJ) Hey Hs HO) as Hpgs. destruct (eo_used _ _ _ Hey Huy) as (UY & Ry & Hpy).
  assert (entry_ok s' l y') as He.
  { split; [|done| |done].
    - intros _. split; [exact (frame_user s l y m' (eq KOBJ) Hey Hs HO Ry UY)|]. split; [exact Ry|exact Hpy].
    - intros q Hq. apply (eo_free _ _ _ Hey q). by apply Hpgs. }
  assert (∀ q, q ∈ l ∨ pgs (k_mem s') y' q → q ∈ l ∨ pgs (k_mem s) y q) as Hpg.
  { intros q [?|Hq]; [by left|right]. by apply Hpgs. }
  assert (p_state y' ≠ UNUSED → ∀ j z, j ≠ np → k_procs s !! j = Some z → p_pid y' ≠ p_pid z) as Hpid.
  { intros _ j z Hj Hz. by apply (po_pid _ _ HP np j y z). }
  exists s', y'. split; [exact E|]. split; try done.
  - exact (procs_update s l s' l np y y' (eq KOBJ) HP Hnp eq_refl Ep HK (Z.le_refl _) Hs HW Hpg He Hpid).
  - by apply (finish_files s' y').
  - by exists nm.
  - intros i z Hz Hst. destruct (decide (i = np)) as [->|Hi].
    + rewrite Hnp in Hz. injection Hz as <-. exact (frame_same s l y m' (eq KOBJ) Hey Huy Hs HO).
    + by apply (update_same s l s' l np y y' (eq KOBJ) HP Hnp eq_refl Ep HK (Z.le_refl _) Hs HW Hpg He Hpid i).
Qed.
End finish.

Lemma procs_ok_held h s l : procs_ok s l → procs_ok (set_k_held h s) l.
Proof.
  intros [H1 H2 [K1 K2 K3 K4] H4 H5 H6 H7]. split; [done|done|done|done| |exact H6|exact H7].
  intros i x Hx. by destruct (H5 i x Hx).
Qed.

Lemma alloc_none_files s l s' l' : alloc_none s l s' l' → files_ok s → files_ok s'.
Proof.
  intros [N1 N2 N3 N4 N5 N6] HF. apply (files_ok_fmap s); [done|by rewrite N1|done|].
  intros i z Hz Hst. pose proof (f_equal (λ L, L !! i) N6) as Ei. cbn in Ei. rewrite !list_lookup_fmap, Hz in Ei.
  destruct (k_procs s !! i) as [w|] eqn:Hw; [|done]. exists w. split; [done|].
  destruct (decide (p_state w = UNUSED)) as [|Hst']; [done|]. pose proof (sp_entry _ _ N5 i w Hw Hst'). congruence.
Qed.

(** What [fork] leaves: nothing but the pid it may have used, or a child; the
    pages of the child are then those that left the free list. *)
Definition fork_result (s : kst) (l : list Z) (p : nat) (xp : proc) (ip : nat) (r : Z) (s' : kst) (l' : list Z) : Prop :=
  (r = -1 ∧ alloc_none s l s' l') ∨
  (r = k_nextpid s ∧ k_held s' = [] ∧ same_procs s s' ∧
   k_itable s' = alter (λ x, set_i_ref (i_ref x + 1) x) ip (k_itable s) ∧
   ∃ np y, forked s p xp np y s' ∧ ∀ q, q ∈ l' ∨ pgs (k_mem s') y q ↔ q ∈ l).

Section spec.
Context (s : kst) (l : list Z) (p ip : nat) (xp : proc).
Context (HP : procs_ok s l) (HF : files_ok s) (Hp : k_procs s !! p = Some xp) (Hup : p_state xp ≠ UNUSED).
Context (Hh : k_held s = []) (Hcwd : p_cwd xp = Some ip).
Context (np : nat) (x : proc) (root tf : Z) (s1 : kst) (l1 : list Z) (HA : alloc_some s l np x root tf s1 l1).
Let y := new_proc s root tf x.

Lemma spec_facts : k_procs s1 !! p = Some xp ∧ k_procs s1 !! np = Some y ∧ p ≠ np ∧ p_sz y = 0 ∧
  k_held s1 = [LK_proc np] ∧ p_ofile y = replicate NOFILE None ∧ p_state y ≠ UNUSED ∧
  k_ftable s1 = k_ftable s ∧ k_itable s1 = k_itable s ∧ k_ly s1 = k_ly s.
Proof using All.
  destruct HA as [A1 A2 [A3 A3'] A4 A5 A6 A7 A8]. destruct (eo_unused _ _ _ (po_entry _ _ HP _ _ A3) A3') as (_ & _ & Z3 & _).
  split_and!; try done.
  - by apply (sp_entry _ _ A8).
  - rewrite A4. apply list_lookup_insert_eq. by eapply lookup_lt_Some.
  - congruence.
  - by rewrite A2, Hh.
  - by apply (fo_unused _ HF np x).
  - by rewrite A1.
  - by rewrite A1.
  - by rewrite A1.
Qed.

Lemma spec_fail s2 l2 :
  upd (p_pagetable y) s1 l1 [p_trapframe y] s2 l2 [p_trapframe y] nowhere →
  ∃ s' l', (freeproc np;; release (LK_proc np);; mret (-1)) s2 = Ok (-1) s' ∧ alloc_none s l s' l'.
Proof using All.
  intros HU. destruct spec_facts as (F1 & F2 & F3 & F4 & F5 & F6 & F7 & F8 & _). destruct HA as [A1 A2 [A3 A3'] A4 A5 A6 A7 A8].
  destruct (fail_ok s1 l1 np y s2 l2 A6 F2 F7 F4) as (s' & l' & E & R & Hok & Ep & Q & Hsu); [rewrite F5; set_solver|done|].
  assert (k_held s' = [LK_proc np]) as Eh by (by rewrite R).
  exists (set_k_held [] s'), l'. split; [by rewrite E, (bind_release _ [])|].
  assert (k_procs s' = <[np := cleared y]> (k_procs s)) as Ep'.
  { rewrite Ep, A4. by rewrite list_insert_insert_eq. }
  split.
  - by apply (pl_rest_trans s s1 s').
  - by rewrite Hh.
  - by apply procs_ok_held.
  - intros q. rewrite Q. apply A7.
  - split.
    + intros i z Hz Hst. simpl. rewrite Ep', list_lookup_insert_ne; [done|]. congruence.
    + intros i z Hz Hst. eapply same_user_trans; [by apply (sp_user _ _ A8 i)|]. apply (Hsu i); [by apply (sp_entry _ _ A8)| |done]. congruence.
  - simpl. rewrite Ep'. by apply (fmap_insert_same _ _ _ x).
Qed.

Lemma spec_done s2 l2 :
  upd (p_pagetable y) s1 l1 [p_trapframe y] s2 l2 [p_trapframe y] (range 0 (PGROUNDUP (p_sz xp))) →
  same_mem (k_mem s1) (p_pagetable xp) (k_mem s2) (p_pagetable y) (PGROUNDUP (p_sz xp)) →
  ∃ s', fork_tail p np xp (child_state np xp y s2) = Ok (k_nextpid s) s' ∧ procs_ok s' l2 ∧ files_ok s' ∧
    fork_result s l p xp ip (k_nextpid s) s' l2.
Proof using All.
  intros HU HM. destruct spec_facts as (F1 & F2 & F3 & F4 & F5 & F6 & F7 & F8 & F9 & F10).
  pose proof HA as [A1 A2 [A3 A3'] A4 A5 A6 A7 A8].
  pose proof (child_ready s1 l1 p np xp y A6 F1 F2 F3 Hup F7 F4 ltac:(rewrite F5; set_solver) s2 l2 HU HM) as [C1 C2 C3 C4 CP C5].
  pose proof (u_rest _ _ _ _ _ _ _ _ HU) as R. set (t := child_state np xp y s2) in *. set (y1 := set_p_sz (p_sz xp) y) in *.
  assert (k_held t = [LK_proc np] ∧ k_ftable t = k_ftable s ∧ k_itable t = k_itable s) as (T1 & T2 & T3).
  { unfold t, child_state. cbn. rewrite R. cbn. by rewrite F5, F8, F9. }
  assert (files_ok t) as HFt.
  { apply (files_ok_fmap s); [done|done| |].
    - rewrite C2, A4, list_insert_insert_eq. by apply (fmap_insert_same _ _ _ x).
    - intros i z. rewrite C2, A4, list_insert_insert_eq. intros [(-> & <- & _)|[? Hz]]%list_lookup_insert_Some Hst; [done|by exists z]. }
  destruct (fork_finish t l2 p np ip xp y1) as (s' & y' & E & [N1 N2 N3 N4 (nm & N5) N6 N7]); try done.
  { by rewrite C2, list_lookup_insert_ne. }
  { rewrite C2. apply list_lookup_insert_eq. by eapply lookup_lt_Some. }
  exists s'. split; [exact E|]. split; [done|]. split; [done|]. right. split; [done|]. split; [done|].
  assert (∀ i z, k_procs s !! i = Some z → p_state z ≠ UNUSED → i ≠ np ∧ k_procs t !! i = Some z) as Hold.
  { intros i z Hz Hst. assert (i ≠ np) as Hi by congruence. split; [done|].
    rewrite C2, list_lookup_insert_ne by done. by apply (sp_entry _ _ A8). }
  assert (∀ i z, k_procs s !! i = Some z → p_state z ≠ UNUSED → same_user (k_mem s) (k_mem s') z) as Huser.
  { intros i z Hz Hst. destruct (Hold i z Hz Hst) as [Hi Ht]. eapply same_user_trans; [by apply (sp_user _ _ A8 i)|].
    eapply same_user_trans; [apply (C5 i); [by apply (sp_entry _ _ A8)|done|done]|]. by apply (N6 i). }
  split; [split; [|done]|split; [by rewrite N7, T3|]].
  { intros i z Hz Hst. destruct (Hold i z Hz Hst) as [Hi Ht]. by rewrite N4, list_lookup_insert_ne. }
  exists np, y'. pose proof (sp_user _ _ A8 p xp Hp Hup) as Sp.
  assert (same_user (k_mem t) (k_mem s') y1) as Sy.
  { apply (N6 np); [|done]. rewrite C2. apply list_lookup_insert_eq. by eapply lookup_lt_Some. }
  pose proof (eo_used _ _ _ (po_entry _ _ HP _ _ Hp) Hup) as (UP & _). pose proof (up_pt _ _ _ _ _ UP) as [P1 _ _ _ _].
  pose proof TRAPFRAME_val. pose proof (PGROUNDUP_le (p_sz xp) TRAPFRAME ltac:(lia) aligned_TRAPFRAME ltac:(lia)) as Hb.
  split; cycle 1.
  { intros q. rewrite <- (A7 q), N5. etrans; [|exact (CP q)].
    change (pgs (k_mem s') (forked_proc p xp nm y1) q) with (pgs (k_mem s') y1 q). by rewrite (su_pgs _ _ _ Sy q). }
  rewrite N5 in N4 |- *. split.
  - split; [by exists x|]. rewrite N4. apply list_lookup_insert_eq. rewrite C2, length_insert. by eapply lookup_lt_Some.
  - done.
  - done.
  - done.
  - done.
  - intros va Hva. change (p_pagetable (forked_proc p xp nm y1)) with (p_pagetable y1).
    rewrite (su_byte _ _ _ Sy), (su_pte _ _ _ Sy) by lia. rewrite <- (su_byte _ _ _ Sp), <- (su_pte _ _ _ Sp) by lia. by apply C3.
  - intros f. change (p_trapframe (forked_proc p xp nm y1)) with (p_trapframe y1). rewrite (load64_tf _ _ _ _ Sy).
    change (p_trapframe y1) with (p_trapframe y). rewrite C4. case_decide; [done|]. by apply load64_tf.
Qed.
End spec.

(** C2. [fork], called with no lock held while pids are left below 2^31 - 1,
    makes a child that is a copy of its parent, or fails and changes nothing
    but the pid it may have used.  The child gets a free entry of the process table with a new pid and
    its parent's open files and current directory, and private copies of the user
    memory and of the saved registers, with 0 as the value [fork] returns to
    it; it is RUNNABLE and starts in [forkret].  In both cases every other process has its
    entry, memory, pages and registers as before.  The pages that were free
    before are those that are free after it and those of the child: none is
    lost or given out twice, and none belongs to two processes.  No two processes have the same pid, and the reference count of
    each open file is the number of descriptors that refer to it. *)
Theorem fork_spec s l p ip xp :
  procs_ok s l → files_ok s → k_cur s = Some p → k_procs s !! p = Some xp → p_state xp ≠ UNUSED →
  k_held s = [] → p_cwd xp = Some ip → k_nextpid s < 2 ^ 31 - 1 →
  ∃ r s' l', fork s = Ok r s' ∧ procs_ok s' l' ∧ files_ok s' ∧ fork_result s l p xp ip r s' l'.
Proof.
  intros HP HF Hcur Hp Hup Hh Hcwd Hpid. rewrite fork_unfold, (bind_curproc p) by done.
  destruct (allocproc_ok s l HP) as [(s1 & l1 & E & HN)|(np & x & root & tf & s1 & l1 & E & HA)]; try (rewrite Hh; set_solver); [done|..].
  { exists (-1), s1, l1. split; [by rewrite (bind_Ok _ _ _ _ _ E)|].
    split; [apply HN|]. split; [|by left]. by apply (alloc_none_files s l s1 l1). }
  erewrite bind_Ok by exact E.
  destruct (spec_facts s l p ip xp HP HF Hp Hup Hh Hcwd np x root tf s1 l1 HA) as (F1 & F2 & F3 & F4 & F5 & F6 & F7 & F8 & _).
  set (y := new_proc s root tf x) in *. assert (LK_kmem ∉ k_held s1) as Hk by (rewrite F5; set_solver).
  assert (proc_of s1 p = xp ∧ proc_of s1 np = y) as [Ep Ey] by (unfold proc_of; by rewrite F1, F2).
  destruct (fork_copy s1 l1 p np xp y (as_ok _ _ _ _ _ _ _ _ HA) F1 F2 F3 Hup F7 F4 Hk) as (r & s2 & l2 & E2 & H2).
  unfold fork_rest. mstep. rewrite Ep. mstep. rewrite Ey. erewrite bind_Ok by exact E2.
  destruct H2 as [(-> & HU & HM)|(-> & HU)]; cbn [Z.ltb Z.compare].
  - destruct (spec_done s l p ip xp HP HF Hp Hup Hh Hcwd np x root tf s1 l1 HA s2 l2 HU HM) as (s' & E' & H).
    exists (k_nextpid s), s', l2. split; [|exact H]. rewrite <- E'. mstep.
    assert (proc_of (upd_proc np (set_p_sz (p_sz xp)) s2) np = set_p_sz (p_sz xp) y) as Ez.
    { unfold proc_of. simpl. replace (k_procs s2) with (k_procs s1) by (by rewrite (u_rest _ _ _ _ _ _ _ _ HU)).
      by rewrite list_lookup_alter_eq, F2. }
    mstep. rewrite Ez. vstep. rewrite (bind_Ok (tf_set np TF_a0 0) _ _ () (child_state np xp y s2)); [done|].
    unfold tf_set. mstep. change (proc_of (set_k_mem _ ?z)) with (proc_of z). rewrite Ez. done.
  - destruct (spec_fail s l p ip xp HP HF Hp Hup Hh Hcwd np x root tf s1 l1 HA s2 l2 HU) as (s' & l' & E' & HN).
    exists (-1), s', l'. split; [exact E'|]. split; [apply HN|]. split; [|by left]. by apply (alloc_none_files s l s' l').
Qed.

(** ** The first process *)

(** Twelve free pages and an empty process table; then one process, running. *)
Lemma pool_procs i x : k_procs pool !! i = Some x → x = proc0.
Proof. intros H. by apply lookup_replicate in H as [-> _]. Qed.
Lemma pool_ok : procs_ok pool pool_pages.
Proof.
  split; [done|by repeat split|apply pool_inv|done|..].
  - intros i x ->%pool_procs. split; try done. by intros q [[? _]|[? _]].
  - intros i j x y q ->%pool_procs _ _. by intros [[? _]|[? _]].
  - by intros i j x y ->%pool_procs.
Qed.
Definition one_alloc : kst := run_st allocproc pool.
Lemma one_alloc_val : run_val allocproc pool = Some (Some 0%nat).
Proof. vm_compute. reflexivity. Qed.
Lemma one_alloc_run : allocproc pool = Ok (Some 0%nat) one_alloc.
Proof. exact (run_split allocproc pool (Some 0%nat) one_alloc_val). Qed.
#[global] Opaque one_alloc.
Lemma allocproc_some s l np s1 :
  procs_ok s l → k_held s = [] → k_nextpid s < 2 ^ 31 - 1 → allocproc s = Ok (Some np) s1 →
  ∃ x root tf l1, alloc_some s l np x root tf s1 l1.
Proof.
  intros HP Hh Hn E.
  destruct (allocproc_ok s l HP) as [(s' & l' & E' & _)|(np' & x & root & tf & s' & l' & E' & HA)];
    try (rewrite Hh; set_solver); [done|rewrite E in E'; discriminate|].
  rewrite E in E'. apply Ok_inj in E' as [[= <-] <-]. by exists x, root, tf, l'.
Qed.
Lemma one_alloc_ok : ∃ x root tf l, alloc_some pool pool_pages 0 x root tf one_alloc l.
Proof. exact (allocproc_some pool pool_pages 0 one_alloc pool_ok eq_refl eq_refl one_alloc_run). Qed.

(** A process in the directory of inode 0. *)
Definition running (s : kst) : kst := set_k_cur (Some 0%nat) (set_k_held [] (upd_proc 0 (set_p_cwd (Some 0%nat)) s)).
Section running.
Context (x : proc) (root tf : Z) (s : kst) (l : list Z) (HA : alloc_some pool pool_pages 0 x root tf s l).
Let y := set_p_cwd (Some 0%nat) (new_proc pool root tf x).

Lemma running_procs : k_procs (running s) = <[0%nat := y]> (k_procs pool).
Proof using All.
  change (k_procs (running s)) with (alter (set_p_cwd (Some 0%nat)) 0%nat (k_procs s)).
  rewrite (as_procs _ _ _ _ _ _ _ _ HA). apply alter_insert. apply Nat.ltb_lt. reflexivity.
Qed.
Lemma running_next : k_nextpid (running s) < 2 ^ 31 - 1.
Proof using All. change (k_nextpid (running s)) with (k_nextpid s). by rewrite (as_next _ _ _ _ _ _ _ _ HA). Qed.
Lemma running_ok : procs_ok (running s) l.
Proof using All.
  pose proof (as_procs _ _ _ _ _ _ _ _ HA) as Ep. destruct (as_ok _ _ _ _ _ _ _ _ HA) as [H1 H2 [K1 K2 K3 K4] H4 H5 H6 H7].
  assert (∀ i z, k_procs (running s) !! i = Some z → ∃ w, k_procs s !! i = Some w ∧ z = set_p_cwd (p_cwd z) w) as Hlk.
  { intros i z. rewrite running_procs. intros [(<- & <- & _)|[Hi Hz]]%list_lookup_insert_Some.
    - exists (new_proc pool root tf x). split; [|done]. rewrite Ep. apply list_lookup_insert_eq. apply Nat.ltb_lt. reflexivity.
    - exists z. split; [by rewrite Ep, list_lookup_insert_ne|by destruct z]. }
  split; [|done|done|done|..].
  - by rewrite running_procs, length_insert.
  - intros i z (w & Hw & ->)%Hlk. by destruct (H5 i w Hw).
  - intros i j z w q (z' & Hz & ->)%Hlk (w' & Hw & ->)%Hlk Hij. by apply (H6 i j z' w').
  - intros i j z w (z' & Hz & ->)%Hlk (w' & Hw & ->)%Hlk Hij. by apply (H7 i j z' w').
Qed.
Lemma running_files : files_ok (running s).
Proof using All.
  pose proof (as_entry _ _ _ _ _ _ _ _ HA) as [Hx _].
  assert (p_ofile <$> k_procs (running s) = replicate NPROC (replicate NOFILE None)) as Ef.
  { rewrite running_procs, (fmap_insert_same _ _ _ x _ Hx) by done. reflexivity. }
  assert (∀ i z, k_procs (running s) !! i = Some z → p_ofile z = replicate NOFILE None) as Hi.
  { intros i z Hz. pose proof (f_equal (λ L, L !! i) Ef) as E. cbv beta in E. rewrite list_lookup_fmap, Hz in E.
    symmetry in E. by apply lookup_replicate in E as [[= E] _]. }
  assert (k_ftable (running s) = replicate NFILE file0) as Et.
  { change (k_ftable (running s)) with (k_ftable s). by rewrite (as_rest _ _ _ _ _ _ _ _ HA). }
  split.
  - by rewrite Et.
  - intros i z Hz. rewrite (Hi i z Hz). split; [done|]. intros f Hf. by apply elem_of_replicate_inv in Hf.
  - intros i z Hz _. by apply (Hi i).
  - intros f z. rewrite Et. intros [-> _]%lookup_replicate. unfold descriptors. by rewrite Ef, sum_none.
Qed.
End running.

Lemma fork_spec_witness :
  ∃ r s' l', fork (running one_alloc) = Ok r s' ∧ procs_ok s' l' ∧ files_ok s'.
Proof.
  destruct one_alloc_ok as (x & root & tf & l & HA).
  destruct (fork_spec (running one_alloc) l 0 0 (set_p_cwd (Some 0%nat) (new_proc pool root tf x))) as (r & s' & l' & E & H1 & H2 & _).
  - exact (running_ok x root tf one_alloc l HA).
  - exact (running_files x root tf one_alloc l HA).
  - reflexivity.
  - rewrite (running_procs x root tf one_alloc l HA). reflexivity.
  - discriminate.
  - reflexivity.
  - reflexivity.
  - exact (running_next x root tf one_alloc l HA).
  - exists r, s', l'. split; [exact E|]. split; [exact H1|exact H2].
Defined.
