(* ===== verification/ProcWait.v ===== *)
(** * wait

    [wait] of [kernel/proc.c] over the whole process table: a zombie child is reaped and all its
    pages are free again, its exit status is in the parent's memory; a parent with living
    children sleeps; one without children gets -1. *)

From stdpp Require Import options.
From S2P Require Import Prelude CString State Sched Sleeplock Kalloc Vm PageTable VmWalk VmSpec VmOps VmFree VmCopy VmProps Bio Block Log Copy UserMem Fs Console Pipe File Proc ProcMem ProcTable ProcFork.
#[local] Open Scope Z_scope.
#[local] Existing Instance user_leaves.

(** ** Writes to the memory of one process *)

(** The processes other than [p] have their pages and what is in them. *)
Definition others_kept (s : kst) (p : nat) (m' : mem) : Prop :=
  ∀ i z, k_procs s !! i = Some z → i ≠ p →
    (p_state z ≠ UNUSED → same_user (k_mem s) m' z) ∧ ∀ q, pgs m' z q ↔ pgs (k_mem s) z q.

(** The bytes of process [xp], or of the kernel, change, but not its page table or trapframe. *)
Section write.
Context (s : kst) (l : list Z) (p : nat) (xp : proc) (m' : mem) (P : Z → Prop).
Context (HP : procs_ok s l) (Hp : k_procs s !! p = Some xp) (Hup : p_state xp ≠ UNUSED).
Context (Hm : mem_ok m') (Ht : same_tabs (k_mem s) m' (p_pagetable xp)) (Hs : same_but P (k_mem s) m').
Context (HPq : ∀ q, P q → aligned q ∧ (owns (k_mem s) (p_pagetable xp) q ∨ ¬ page_ok (ly_end (k_ly s)) q)).

Lemma write_owns q : owns m' (p_pagetable xp) q ↔ owns (k_mem s) (p_pagetable xp) q.
Proof using All.
  split; intros (o & Ho & E); exists o; (split; [done|]); destruct Ho as (H1 & H2 & _); by rewrite (node_tabs (k_mem s) m') in *.
Qed.
Lemma write_entry : entry_ok (set_k_mem m' s) l xp.
Proof using All.
  pose proof (po_entry _ _ HP _ _ Hp) as He. destruct He as [E1 E2 E3 E4]. split; [|done| |done].
  - intros _. destruct (E1 Hup) as ([U1 [U2 U3] [P1 P2 P3 P4 P5] U5 U6] & Hr & Hpid). split; [|by split].
    assert (∀ va, pte_of m' (p_pagetable xp) va = pte_of (k_mem s) (p_pagetable xp) va) as Hpte by (intros; by apply pte_of_tabs).
    change (user_proc (k_ly s) m' (p_pagetable xp) (p_trapframe xp) (p_sz xp)).
    split; [| |split|by rewrite Hpte|by rewrite Hpte].
    + eapply as_wf_tabs; [exact U1|done|by left].
    + split; [done|]. by rewrite write_owns.
    + done.
    + intros va Hva. rewrite Hpte. by apply P2.
    + intros o i Hl Hi. apply Forall_app in Hi as Hi'. destruct Hi' as [Hi1 [Hi2 _]%Forall_cons].
      rewrite (ent_tabs (k_mem s) m'); [by apply P3|done|split; [done|lia]|done].
    + by rewrite Hpte.
    + by rewrite Hpte.
  - intros q [Hq|[Hr Hq]]; apply E3; [by left|right]. cbn in Hq. by rewrite <- write_owns.
Qed.
Lemma write_own : writes_own s l xp P.
Proof using All.
  destruct (eo_used _ _ _ (po_entry _ _ HP _ _ Hp) Hup) as (_ & Hr & _).
  intros q Hq. destruct (HPq q Hq) as [Ha [Ho|Ho]]; (split; [done|]); right; [left|by right]. by right.
Qed.
Lemma write_kmem : kmem_inv (set_k_mem m' s) l.
Proof using All.
  pose proof (po_kmem _ _ HP) as HK. apply (kmem_inv_mem _ _ _ P HK Hs); [|done].
  intros q Hq. destruct (HPq q Hq) as [Ha H]. split; [done|]. intros Hl.
  destruct (eo_used _ _ _ (po_entry _ _ HP _ _ Hp) Hup) as (_ & Hr & _).
  destruct H as [Ho|Ho]; [|destruct HK as [_ _ K3 _]; rewrite Forall_forall in K3; by apply Ho, K3].
  apply (eo_free _ _ _ (po_entry _ _ HP _ _ Hp) q); [by right|done].
Qed.
Lemma procs_write : procs_ok (set_k_mem m' s) l ∧ others_kept s p m'.
Proof using All.
  assert (k_procs (set_k_mem m' s) = <[p := xp]> (k_procs s)) as Ep by (cbn; by rewrite list_insert_id).
  assert (∀ q, q ∈ l ∨ pgs m' xp q → q ∈ l ∨ pgs (k_mem s) xp q) as Hpg.
  { intros q [?|[?|[? Hq]]]; [by left|right; by left|right; right]. by rewrite <- write_owns. }
  assert (p_state xp ≠ UNUSED → ∀ j z, j ≠ p → k_procs s !! j = Some z → p_pid xp ≠ p_pid z) as Hpid.
  { intros _ j z Hj Hz. by apply (po_pid _ _ HP p j xp z). }
  split.
  - exact (procs_update s l (set_k_mem m' s) l p xp xp P HP Hp eq_refl Ep write_kmem (Z.le_refl _) Hs write_own Hpg write_entry Hpid).
  - intros i z Hz Hi. split.
    + intros Hst. by apply (update_same s l (set_k_mem m' s) l p xp xp P HP Hp eq_refl Ep write_kmem (Z.le_refl _) Hs write_own Hpg write_entry Hpid i).
    + apply (update_other s l (set_k_mem m' s) l p xp xp P HP Hp eq_refl Ep write_kmem (Z.le_refl _) Hs write_own Hpg write_entry Hpid i z Hz Hi).
Qed.
End write.

(** The first [k] of the bytes [bs] are at [va] of the address space; the rest of it is as before. *)
Definition told (m m' : mem) (root va : Z) (bs : list Z) (k : Z) : Prop :=
  (∀ i, 0 ≤ i < k → upeek m' root (va + i) = bs !! Z.to_nat i) ∧
  (∀ a, ¬ (va ≤ a < va + k) → upeek m' root a = upeek m root a).

Lemma told_0 m root va bs : told m m root va bs 0.
Proof. split; [lia|done]. Qed.

(** [copyout] of a value of the kernel to the running process. *)
Lemma tell_proc s l p xp va bs :
  procs_ok s l → k_procs s !! p = Some xp → p_state xp ≠ UNUSED → 0 ≤ va < 2 ^ 64 → Forall is_byte bs → (length bs ≤ 4096)%nat →
  ∃ k m', (src ← expose bs; copyout (p_pagetable xp) va src (Z.of_nat (length bs))) s =
      Ok (if decide (k = Z.of_nat (length bs)) then 0 else -1) (set_k_mem m' s) ∧
    0 ≤ k ≤ Z.of_nat (length bs) ∧ (k < Z.of_nat (length bs) → utrans (k_mem s) (p_pagetable xp) (va + k) = None) ∧
    told (k_mem s) m' (p_pagetable xp) va bs k ∧ procs_ok (set_k_mem m' s) l ∧ others_kept s p m'.
Proof.
  intros HP Hp Hup Hva Hbs Hlen. set (root := p_pagetable xp). set (n := Z.of_nat (length bs)).
  destruct (eo_used _ _ _ (po_entry _ _ HP _ _ Hp) Hup) as (HU & Hr & _).
  pose proof (user_proc_uspace _ _ _ _ _ (po_ly _ _ HP) HU) as Hsp. pose proof (lo_end _ (po_ly _ _ HP)) as Hend.
  pose proof (km_mem _ _ (po_kmem _ _ HP)) as Hmok.
  set (m1 := wr_bytes (k_mem s) KOBJ bs). set (s1 := set_k_mem m1 s).
  assert (∀ a, ¬ in_page KOBJ a → rd m1 a = rd (k_mem s) a) as H1.
  { intros a Ha. apply rd_wr_bytes_out. intros Hx. apply Ha. unfold in_page, PGSIZE. lia. }
  assert (∀ q, owns (k_mem s) root q → page_ok (ly_end (k_ly s)) q) as Hpok by (intros q Hq; by apply (owns_ok _ _ _ _ _ (up_wf _ _ _ _ _ HU) Hq)).
  assert (∀ q a, owns (k_mem s) root q → in_page q a → rd m1 a = rd (k_mem s) a) as H1o.
  { intros q a Ho Ha. apply H1. destruct (Hpok q Ho) as (_ & Hq & _). unfold in_page, KOBJ, KERNBASE, PGSIZE in *. lia. }
  assert (same_tabs (k_mem s) m1 root) as Ht1 by apply (upeek_kernel _ _ _ _ 0 Hsp H1o).
  assert (uspace (ly_end (k_ly s)) m1 root) as Hsp1 by by eapply uspace_tabs.
  assert (mem_ok m1) as Hm1 by by apply mem_ok_wr_bytes.
  destruct (copyout_ok (ly_end (k_ly s)) s1 root va KOBJ n Hsp1 Hm1 Hva ltac:(lia)) as (k & m' & E & Hk & Hstop & Hc).
  { apply (kernel_low (ly_end (k_ly s))); [apply Hsp1|]. unfold KOBJ, KERNBASE in *. lia. }
  change (k_mem s1) with m1 in Hc, Hstop.
  assert (∀ a, utrans m1 root a = utrans (k_mem s) root a) as Hut by (intros; by apply utrans_tabs).
  assert (same_tabs m1 m' root) as Ht2 by by apply (copied_out_tabs _ _ _ _ _ _ _ Hsp1 Hc).
  assert (same_tabs (k_mem s) m' root) as Ht.
  { intros q a Hq Ha. rewrite (Ht2 q a); [by apply (Ht1 q)| |done]. destruct Hq as (o & Ho & Eo). exists o. split; [done|].
    destruct Ho as [Ho1 Ho2]. by rewrite (node_tabs (k_mem s) m1) by (done || lia). }
  exists k, m'. split; [unfold expose; mstep; exact E|]. split; [done|].
  split; [intros Hlt; rewrite <- Hut; by apply Hstop|]. split.
  - split.
    + intros i Hi. destruct (co_bytes _ _ _ _ _ _ Hc i Hi) as (a & Ha & Eb). unfold upeek.
      rewrite (utrans_tabs m1 m'), Ha by done. cbn. rewrite Eb.
      destruct (lookup_lt_is_Some_2 bs (Z.to_nat i)) as [b Hb]; [lia|]. rewrite Hb. f_equal.
      unfold m1. rewrite rd_wr_bytes, decide_True by lia. replace (Z.to_nat (KOBJ + i - KOBJ)) with (Z.to_nat i) by lia. rewrite Hb. cbn.
      rewrite Forall_forall in Hbs. apply u8_id. apply Hbs. by eapply list_elem_of_lookup_2.
    + intros a Ha. destruct (upeek_kernel _ _ m1 root a Hsp H1o) as [_ <-]. unfold upeek. rewrite (utrans_tabs m1 m') by done.
      destruct (utrans m1 root a) as [b|] eqn:Eb; [|done]. cbn. f_equal. apply (co_rest _ _ _ _ _ _ Hc).
      intros i Hi Ei. pose proof (utrans_inj _ _ _ _ _ _ Hsp1 Eb Ei). lia.
  - apply (procs_write s l p xp m' (λ q, owns (k_mem s) root q ∨ q = KOBJ)); try done; [apply Hc| |].
    + intros a Ha. rewrite (co_rest _ _ _ _ _ _ Hc); [apply H1, Ha; by right|].
      intros i Hi Ei. rewrite Hut in Ei. destruct (utrans_owned _ _ _ _ _ Hsp Ei) as (_ & v & _ & _ & -> & _ & Ho).
      apply (Ha (PTE2PA v)); [by left|apply in_page_off].
    + intros q [Hq| ->]; [split; [apply (Hpok q Hq)|by left]|]. by destruct (KOBJ_outside s l xp HP KOBJ eq_refl) as [Ha _]; split; [|right; intros (_ & H & _); unfold KOBJ, KERNBASE in *; lia].
Qed.

(** ** Freeing a process *)

Lemma freeproc_procs s l i x :
  procs_ok s l → k_procs s !! i = Some x → p_state x ≠ UNUSED → LK_kmem ∉ k_held s →
  ∃ s' l', freeproc i s = Ok () s' ∧ pm_rest s s' ∧ procs_ok s' l' ∧ k_procs s' = <[i := cleared x]> (k_procs s) ∧
    (∀ q, q ∈ l' ↔ q ∈ l ∨ pgs (k_mem s) x q) ∧
    ∀ j z, k_procs s !! j = Some z → j ≠ i → p_state z ≠ UNUSED → same_user (k_mem s) (k_mem s') z.
Proof.
  intros HP Hx Hst Hk. pose proof (po_entry _ _ HP _ _ Hx) as He. pose proof (entry_freeable _ _ _ He) as HF.
  destruct (freeproc_ok i x s l Hx (po_kmem _ _ HP) Hk HF) as (s' & l' & E & R & Ep & K & Q & S).
  change (clear_proc (set_p_trapframe 0 x)) with (cleared x) in Ep.
  assert (k_ly s' = k_ly s ∧ k_nextpid s' = k_nextpid s) as [Ely En] by (by rewrite R).
  set (P := λ q, q ∈ l ∨ pgs (k_mem s) x q) in *.
  assert (writes_own s l x P) as HW.
  { intros q [Hq|Hq]; (split; [|by auto]).
    - pose proof (kmem_aligned _ _ (po_kmem _ _ HP)) as Ha. rewrite Forall_forall in Ha. by apply Ha.
    - by destruct (entry_page_ok _ _ _ _ He Hq). }
  assert (∀ q, q ∈ l' ∨ pgs (k_mem s') (cleared x) q → q ∈ l ∨ pgs (k_mem s) x q) as Hpg.
  { intros q [Hq|[[? _]|[? _]]]; [by apply Q|done|done]. }
  assert (entry_ok s' l' (cleared x)) as Hc.
  { split; [done|done|by intros q [[? _]|[? _]]|]. cbn. rewrite length_insert. apply He. }
  assert (p_state (cleared x) ≠ UNUSED → ∀ j z, j ≠ i → k_procs s !! j = Some z → p_pid (cleared x) ≠ p_pid z) as Hpid by done.
  assert (k_nextpid s ≤ k_nextpid s') as Hn by lia.
  exists s', l'. split; [done|]. split; [done|]. split; [|split; [done|split; [done|]]].
  - exact (procs_update s l s' l' i x (cleared x) P HP Hx Ely Ep K Hn S HW Hpg Hc Hpid).
  - intros j z Hz Hj Hzs. by apply (update_same s l s' l' i x (cleared x) P HP Hx Ely Ep K Hn S HW Hpg Hc Hpid j).
Qed.

(** ** The scan *)

(** The body of the scan of [wait] for a zombie child [i], its lock held. *)
Definition reap (i p : nat) (addr : Z) : K (Z + bool) :=
  np ← gets (λ s, proc_of s i);
  pagetable ← gets (λ s, p_pagetable (proc_of s p));
  r ← (if addr =? 0 then mret 0
       else
         src ← expose (le_bytes 4 (p_xstate np));
         copyout pagetable addr src 4);
  if r <? 0 then
    release (LK_proc i);;
    release LK_wait;;
    mret (inl (-1))
  else
    freeproc i;;
    release (LK_proc i);;
    release LK_wait;;
    mret (inl (p_pid np)).

Definition child_of (p : nat) (x : proc) : Prop := p_parent x = Some p.
#[global] Instance child_of_dec p x : Decision (child_of p x) := decide (p_parent x = Some p).
Definition zombie_of (p : nat) (x : proc) : Prop := child_of p x ∧ p_state x = ZOMBIE.
#[global] Instance zombie_of_dec p x : Decision (zombie_of p x) := decide (child_of p x ∧ p_state x = ZOMBIE).

(** The scan reaps the first zombie child, or finds out whether there are children. *)
Lemma wait_scan_eq p addr s L : k_held s = [LK_wait] → ∀ i hk, drop i (k_procs s) = L →
  wait_scan (length L) i p addr hk s =
    match list_find (zombie_of p) L with
    | Some (j, x) => reap (i + j) p addr (set_k_held [LK_proc (i + j); LK_wait] s)
    | None => Ok (inr (hk || bool_decide (Exists (child_of p) L))) s
    end.
Proof.
  intros Hh. induction L as [|x L IH]; intros i hk HL.
  { cbn [wait_scan length list_find]. rewrite bool_decide_false by (intros []%Exists_nil). by rewrite orb_false_r. }
  assert (k_procs s !! i = Some x) as Hx by (by rewrite <- (Nat.add_0_r i), <- lookup_drop, HL).
  assert (drop (S i) (k_procs s) = L) as HL'.
  { change L with (drop 1 (x :: L)). by rewrite <- HL, drop_drop, Nat.add_1_r. }
  assert (proc_of s i = x) as Ex by (unfold proc_of; by rewrite Hx).
  cbn [wait_scan length list_find]. mstep. rewrite Ex. destruct (decide (p_parent x = Some p)) as [Hc|Hc].
  - rewrite bind_acquire by (rewrite Hh; set_solver). rewrite Hh. mstep.
    change (proc_of (set_k_held [LK_proc i; LK_wait] s) i) with (proc_of s i). rewrite Ex.
    destruct (decide (p_state x = ZOMBIE)) as [Hz|Hz].
    + rewrite (decide_True (P:=zombie_of p x)) by done. rewrite Nat.add_0_r. unfold reap. mstep.
      change (proc_of (set_k_held [LK_proc i; LK_wait] s) i) with (proc_of s i). by rewrite Ex.
    + rewrite (decide_False (P:=zombie_of p x)) by (by intros [_ ?]). rewrite (bind_release _ [LK_wait]) by done.
      replace (set_k_held [LK_wait] (set_k_held [LK_proc i; LK_wait] s)) with s by (rewrite <- Hh at 1; by kst_eq).
      rewrite IH by done. destruct (list_find (zombie_of p) L) as [[j y]|]; cbn; [by rewrite Nat.add_succ_r|].
      rewrite (bool_decide_true (Exists (child_of p) (x :: L))) by (by left). by rewrite orb_true_r.
  - rewrite (decide_False (P:=zombie_of p x)) by (by intros [? _]). rewrite IH by done.
    destruct (list_find (zombie_of p) L) as [[j y]|]; cbn; [by rewrite Nat.add_succ_r|].
    do 3 f_equal. apply bool_decide_ext. rewrite Exists_cons. unfold child_of at 2. tauto.
Qed.

(** ** Reaping a child *)

(** The bytes of the exit status that [wait] copies to its caller. *)
Definition status_bytes (addr : Z) (x : proc) : list Z := if addr =? 0 then [] else le_bytes 4 (p_xstate x).

(** [wait] found the zombie [x] at [i], [k] bytes of its status reached the caller. *)
Record waited (s : kst) (l : list Z) (p : nat) (xp : proc) (addr : Z) (i : nat) (x : proc) (k : Z) (s' : kst) (l' : list Z) : Prop := {
  wd_k : 0 ≤ k ≤ Z.of_nat (length (status_bytes addr x));
  wd_stop : k < Z.of_nat (length (status_bytes addr x)) → utrans (k_mem s) (p_pagetable xp) (addr + k) = None;
  wd_told : told (k_mem s) (k_mem s') (p_pagetable xp) addr (status_bytes addr x) k;
  wd_procs : k_procs s' = if decide (k = Z.of_nat (length (status_bytes addr x)))
                          then <[i := cleared x]> (k_procs s) else k_procs s;
  wd_pages q : q ∈ l' ↔ q ∈ l ∨ k = Z.of_nat (length (status_bytes addr x)) ∧ pgs (k_mem s) x q;
  wd_rest : pm_rest s s';
  wd_user j z : k_procs s !! j = Some z → j ≠ p → j ≠ i → p_state z ≠ UNUSED → same_user (k_mem s) (k_mem s') z;
}.

Lemma upeek_same_user ly m m' x va :
  ly_ok ly → user_proc ly m (p_pagetable x) (p_trapframe x) (p_sz x) → user_proc ly m' (p_pagetable x) (p_trapframe x) (p_sz x) →
  same_user m m' x → upeek m' (p_pagetable x) va = upeek m (p_pagetable x) va.
Proof.
  intros HL HU HU' [S1 S2 _ _]. pose proof (user_proc_uspace _ _ _ _ _ HL HU) as Hs. pose proof (user_proc_uspace _ _ _ _ _ HL HU') as Hs'.
  destruct (decide (0 ≤ va < TRAPFRAME)) as [Hva|Hva].
  - specialize (S1 va Hva). specialize (S2 va Hva). unfold ubyte, uaddr in S2. unfold upeek, utrans. rewrite S1 in *.
    case_decide; [|done]. destruct (pte_of m (p_pagetable x) va); [|done]. by destruct (has PTE_U _).
  - assert (∀ n, uspace (ly_end ly) n (p_pagetable x) → upeek n (p_pagetable x) va = None) as Hn; [|by rewrite !Hn].
    intros n Hn. unfold upeek. destruct (utrans n (p_pagetable x) va) eqn:E; [|done].
    destruct (utrans_owned _ _ _ _ _ Hn E). lia.
Qed.

Lemma set_held_held a b s : set_k_held a (set_k_held b s) = set_k_held a s.
Proof. reflexivity. Qed.

(** Locks taken and released. *)
Lemma pm_rest_held h m s s' : k_held s = [] → pm_rest (set_k_mem m (set_k_held h s)) s' → pm_rest s (set_k_held [] s').
Proof. intros Hh R. unfold pm_rest in *. rewrite R. destruct s. cbn in Hh. subst. reflexivity. Qed.

Section reap.
Context (s : kst) (l : list Z) (p : nat) (xp : proc) (addr : Z) (i : nat) (x : proc).
Context (HP : procs_ok s l) (Hp : k_procs s !! p = Some xp) (Hup : p_state xp = RUNNING) (Haddr : 0 ≤ addr < 2 ^ 64).
Context (Hx : k_procs s !! i = Some x) (Hz : p_state x = ZOMBIE) (Hh : k_held s = []).
Let bs := status_bytes addr x.
Let s0 := set_k_held [LK_proc i; LK_wait] s.

Lemma tell_status : ∃ k m',
  (if addr =? 0 then mret 0 else src ← expose (le_bytes 4 (p_xstate x)); copyout (p_pagetable xp) addr src 4) s0 =
      Ok (if decide (k = Z.of_nat (length bs)) then 0 else -1) (set_k_mem m' s0) ∧
    0 ≤ k ≤ Z.of_nat (length bs) ∧ (k < Z.of_nat (length bs) → utrans (k_mem s) (p_pagetable xp) (addr + k) = None) ∧
    told (k_mem s) m' (p_pagetable xp) addr bs k ∧ procs_ok (set_k_mem m' s0) l ∧ others_kept s p m'.
Proof using All.
  unfold bs, status_bytes. destruct (Z.eqb_spec addr 0) as [->|Hne].
  - exists 0, (k_mem s). split; [unfold s0; cbn; by destruct s|]. split; [done|]. split; [cbn; lia|]. split; [apply told_0|].
    split; [|by repeat split]. unfold s0. replace (set_k_mem (k_mem s) _) with (set_k_held [LK_proc i; LK_wait] s) by by kst_eq.
    by apply procs_ok_held.
  - destruct (tell_proc s0 l p xp addr (le_bytes 4 (p_xstate x))) as (k & m' & H); try done.
    + by apply procs_ok_held.
    + congruence.
    + apply le_bytes_is_byte.
    + rewrite length_le_bytes. lia.
    + exists k, m'. by rewrite length_le_bytes in *.
Qed.

Lemma reap_ok : ∃ k s' l',
  reap i p addr s0 = Ok (inl (if decide (k = Z.of_nat (length bs)) then p_pid x else -1)) s' ∧
  procs_ok s' l' ∧ waited s l p xp addr i x k s' l'.
Proof using All.
  assert (i ≠ p) as Hip by congruence.
  destruct tell_status as (k & m' & E & Hk & Hstop & Ht & HP1 & Hu). unfold reap. mstep.
  assert (proc_of s0 i = x ∧ proc_of s0 p = xp) as [-> ->] by (unfold proc_of; cbn; by rewrite Hx, Hp).
  erewrite bind_Ok by exact E. destruct (decide (k = Z.of_nat (length bs))) as [Ek|Ek]; cbn [Z.ltb Z.compare].
  - set (s1 := set_k_mem m' s0) in *.
    destruct (freeproc_procs s1 l i x HP1 Hx ltac:(congruence) ltac:(set_solver)) as (s2 & l' & E2 & R & HP2 & Ep & Q & Hu2).
    erewrite bind_Ok by exact E2. assert (k_held s2 = [LK_proc i; LK_wait]) as Eh by (by rewrite R).
    rewrite (bind_release _ [LK_wait]), (bind_release _ []) by done. mstep. rewrite set_held_held.
    exists k, (set_k_held [] s2), l'. rewrite decide_True by done. split; [reflexivity|].
    split; [by apply procs_ok_held|]. split; try done.
    + destruct Ht as [T1 T2].
      assert (∀ va, upeek (k_mem s2) (p_pagetable xp) va = upeek m' (p_pagetable xp) va) as Hpk.
      { intros va. assert (p_state xp ≠ UNUSED) as Hxu by congruence.
        assert (k_procs s2 !! p = Some xp) as Hp2 by (by rewrite Ep, list_lookup_insert_ne).
        pose proof (eo_used _ _ _ (po_entry _ _ HP1 _ _ Hp) Hxu) as (U1 & _). pose proof (eo_used _ _ _ (po_entry _ _ HP2 _ _ Hp2) Hxu) as (U2 & _).
        assert (k_ly s2 = k_ly s1) as Ely by (by rewrite R). rewrite Ely in U2.
        apply (upeek_same_user (k_ly s1)); [apply HP1|done|done|]. by apply (Hu2 p). }
      split; intros; cbn; rewrite Hpk; auto.
    + cbn. by rewrite Ep, decide_True.
    + intros q. rewrite Q. clear -Ek Hu Hx Hz HP Hp Hip.
      assert (pgs m' x q ↔ pgs (k_mem s) x q) as H by by apply (Hu i). unfold bs in Ek. tauto.
    + exact (pm_rest_held _ m' s s2 Hh R).
    + intros j z Hj Hjp Hji Hst. eapply same_user_trans; [by apply (proj1 (Hu j z Hj Hjp))|]. by apply (Hu2 j).
  - rewrite (bind_release _ [LK_wait]), (bind_release _ []) by done. mstep. rewrite set_held_held.
    exists k, (set_k_held [] (set_k_mem m' s0)), l. rewrite decide_False by done. split; [reflexivity|].
    split; [by apply procs_ok_held|]. split; try done.
    + by rewrite decide_False.
    + intros q. unfold bs in Ek. tauto.
    + apply (pm_rest_held [LK_proc i; LK_wait] m' s); [done|]. apply pm_rest_vm, vm_rest_refl.
    + intros j z Hj Hjp _. apply (Hu j z Hj Hjp).
Qed.
End reap.

(** [exit] closes the files of a process before it is a zombie. *)
Definition zombies_closed (s : kst) : Prop :=
  ∀ i x, k_procs s !! i = Some x → p_state x = ZOMBIE → p_ofile x = replicate NOFILE None.

Lemma waited_files s l p xp addr i x k s' l' :
  files_ok s → zombies_closed s → k_procs s !! i = Some x → p_state x = ZOMBIE →
  waited s l p xp addr i x k s' l' → files_ok s' ∧ zombies_closed s'.
Proof.
  intros [F1 F2 F3 F4] HZ Hx Hz [_ _ _ Ep _ R _]. assert (k_ftable s' = k_ftable s) as Ef by (by rewrite R).
  case_decide as Hk; [|by split; [split|]; rewrite ?Ef, ?Ep; unfold zombies_closed; rewrite ?Ep].
  assert (∀ j z, k_procs s' !! j = Some z → z = cleared x ∨ k_procs s !! j = Some z) as Hlk.
  { intros j z. rewrite Ep. intros [(_ & <- & _)|[_ ?]]%list_lookup_insert_Some; auto. }
  assert (p_ofile (cleared x) = replicate NOFILE None) as Ho by by apply (HZ i x).
  split; [split|].
  - by rewrite Ef.
  - intros j z [->|Hj]%Hlk; [|by apply (F2 j)]. by apply (F2 i x).
  - intros j z [->|Hj]%Hlk; [done|by apply (F3 j)].
  - intros f z. rewrite Ef. intros Hf%F4. rewrite Hf. unfold descriptors. rewrite Ep, list_fmap_insert.
    by rewrite list_insert_id by (by rewrite list_lookup_fmap, Hx).
  - intros j z [->|Hj]%Hlk; [done|by apply (HZ j)].
Qed.

(** The loop of [wait] with [n] wakeups left, [wait_lock] held. *)
Definition wait_loop (n : nat) (p : nat) (addr : Z) : K Z :=
  mloop n (λ _ : unit,
    r ← wait_scan NPROC 0 p addr false;
    match r with
    | inl v => mret (inr v)
    | inr havekids =>
      killed ← gets (λ s, p_killed (proc_of s p));
      if negb havekids || negb (killed =? 0) then
        release LK_wait;;
        mret (inr (-1))
      else
        sleep (Ch_proc p) LK_wait;;
        mret (inl ())
    end) ().
Lemma wait_unfold addr : wait addr = (p ← curproc; acquire LK_wait;; wait_loop WAKEUPS p addr).
Proof. unfold wait, wait_loop. reflexivity. Qed.

(** What one turn of the loop does. *)
Definition wait_turn (s : kst) (l : list Z) (p : nat) (xp : proc) (addr : Z) (n : nat) (r : res kst Z) : Prop :=
  match list_find (zombie_of p) (k_procs s) with
  | Some (i, x) => ∃ k s' l',
      r = Ok (if decide (k = Z.of_nat (length (status_bytes addr x))) then p_pid x else -1) s' ∧
      procs_ok s' l' ∧ files_ok s' ∧ zombies_closed s' ∧ waited s l p xp addr i x k s' l'
  | None =>
      if decide (Exists (child_of p) (k_procs s) ∧ p_killed xp = 0)
      then ∃ k, r = Yield (asleep p (Ch_proc p) s) k ∧
        ∀ s', k_held s' = [LK_proc p] → k s' = wait_loop n p addr (awoken p LK_wait s')
      else r = Ok (-1) s
  end.

Lemma wait_loop_ok n s l p xp addr :
  procs_ok s l → files_ok s → zombies_closed s → k_cur s = Some p → k_procs s !! p = Some xp → p_state xp = RUNNING →
  k_held s = [] → 0 ≤ addr < 2 ^ 64 →
  wait_turn s l p xp addr n (wait_loop (S n) p addr (set_k_held [LK_wait] s)).
Proof.
  intros HP HF HZ Hc Hp Hst Hh Ha. set (s1 := set_k_held [LK_wait] s). unfold wait_turn.
  pose proof (wait_scan_eq p addr s1 (k_procs s) eq_refl 0 false (drop_0 _)) as E. rewrite (po_len _ _ HP) in E.
  destruct (list_find (zombie_of p) (k_procs s)) as [[i x]|] eqn:Ef.
  - apply list_find_Some in Ef as (Hx & [_ Hz] & _).
    destruct (reap_ok s l p xp addr i x HP Hp Hst Ha Hx Hz Hh) as (k & s' & l' & Er & HP' & HW). exists k, s', l'.
    destruct (waited_files _ _ _ _ _ _ _ _ _ _ HF HZ Hx Hz HW) as [HF' HZ']. split; [|done].
    apply mloop_done. erewrite bind_Ok; [|rewrite E; exact Er]. done.
  - cbn [orb] in E. assert (proc_of s1 p = xp) as Ep by (unfold proc_of; cbn; by rewrite Hp).
    assert (set_k_held [] s1 = s) as Es by (unfold s1; rewrite <- Hh; by kst_eq).
    destruct (decide (Exists (child_of p) (k_procs s) ∧ p_killed xp = 0)) as [[Hk Hkl]|Hn].
    + rewrite bool_decide_true in E by done.
      destruct (sleep_yields (Ch_proc p) LK_wait p s1) as (k & Hy & Hres); [done|by eapply lookup_lt_Some|done|done|].
      eexists. split.
      * apply mloop_yields. erewrite bind_Ok by exact E. cbn [negb orb]. mstep. rewrite Ep, Hkl. cbn [Z.eqb negb].
        apply bind_yields. replace (asleep p (Ch_proc p) s) with (asleep p (Ch_proc p) s1) by (unfold asleep, s1; by kst_eq). exact Hy.
      * intros s' Hs'. cbv beta. rewrite (Hres s' Hs'). reflexivity.
    + apply mloop_done. erewrite bind_Ok by exact E. cbv iota beta. mstep. rewrite Ep.
      replace (negb _ || negb _) with true; [by rewrite (bind_release _ []), Es|].
      destruct (Z.eqb_spec (p_killed xp) 0); [|by rewrite orb_true_r]. rewrite bool_decide_false by tauto. done.
Qed.

(** C3. [wait] reaps the first zombie among the children of the caller: its pid is returned, its entry is free and
    every page it had is free again, and the four bytes of its exit status are at [addr] of the caller's memory
    (when [addr] is not 0); when the caller has no memory there, [wait] gives -1 and the zombie stays.  With
    children, none of them a zombie, an unkilled caller sleeps and scans again when it is woken.  Without children,
    or killed, it gets -1.  The other processes keep their entries, memory and registers, and the invariants of the process
    table, the allocator and the open files are kept. *)
Theorem wait_spec s l p xp addr :
  procs_ok s l → files_ok s → zombies_closed s → k_cur s = Some p → k_procs s !! p = Some xp → p_state xp = RUNNING →
  k_held s = [] → 0 ≤ addr < 2 ^ 64 → wait_turn s l p xp addr (pred WAKEUPS) (wait addr s).
Proof.
  intros HP HF HZ Hc Hp Hst Hh Ha. rewrite wait_unfold, (bind_curproc p), bind_acquire by (done || (rewrite Hh; set_solver)).
  rewrite Hh. by apply wait_loop_ok.
Qed.

(** ** A zombie child *)

(** Entries that differ in what the invariant does not mention. *)
Record same_space (x y : proc) : Prop := {
  sm_mem : p_pagetable y = p_pagetable x ∧ p_trapframe y = p_trapframe x ∧ p_sz y = p_sz x;
  sm_id : p_pid y = p_pid x ∧ p_name y = p_name x;
  sm_used : p_state y = UNUSED ↔ p_state x = UNUSED;
}.
Lemma procs_ok_tags ps s l : procs_ok s l → Forall2 same_space (k_procs s) ps → procs_ok (set_k_procs ps s) l.
Proof.
  intros [H1 H2 [K1 K2 K3 K4] H4 H5 H6 H7] HT.
  assert (∀ i y, ps !! i = Some y → ∃ x, k_procs s !! i = Some x ∧ same_space x y) as Hlk.
  { intros i y Hy. by destruct (Forall2_lookup_r _ _ _ _ _ HT Hy) as (x & Hx & ?); exists x. }
  assert (∀ x y q, same_space x y → pgs (k_mem s) y q ↔ pgs (k_mem s) x q) as Hpg.
  { intros x y q [(E1 & E2 & _) _ _]. unfold pgs. by rewrite E1, E2. }
  split; [|done|done|done|..].
  - cbn. by rewrite <- (Forall2_length _ _ _ HT).
  - intros i y (x & Hx & Hs)%Hlk. destruct (H5 i x Hx) as [E1 E2 E3 E4]. pose proof Hs as [(S1 & S2 & S3) [S4 S5] S6]. split.
    + rewrite S6, S1, S2, S3, S4. exact E1.
    + rewrite S6, S1, S2, S3, S4. exact E2.
    + intros q Hq. apply E3. by apply (Hpg x y).
    + by rewrite S5.
  - intros i j x y q (x' & Hx & Hsx)%Hlk (y' & Hy & Hsy)%Hlk Hij. cbn.
    rewrite (Hpg x' x), (Hpg y' y) by done. by apply (H6 i j).
  - intros i j x y (x' & Hx & [_ [E1 _] E2])%Hlk (y' & Hy & [_ [E3 _] _])%Hlk Hij. rewrite E2, E1, E3. by apply (H7 i j x' y').
Qed.

Definition two_alloc : kst := run_st allocproc (running one_alloc).
Lemma two_alloc_val : run_val allocproc (running one_alloc) = Some (Some 1%nat).
Proof. vm_compute. reflexivity. Qed.
Lemma two_alloc_run : allocproc (running one_alloc) = Ok (Some 1%nat) two_alloc.
Proof. exact (run_split allocproc (running one_alloc) (Some 1%nat) two_alloc_val). Qed.
#[global] Opaque two_alloc.
(** Process 0 runs, and process 1 is its child and has exited with status 7. *)
Definition exited (x : proc) : proc := set_p_state ZOMBIE (set_p_xstate 7 (set_p_parent (Some 0%nat) x)).
Lemma same_space_refl x : same_space x x.
Proof. by split. Qed.
Lemma exited_space x : p_state x ≠ UNUSED → same_space x (exited x).
Proof. by split. Qed.
Lemma running_space x : p_state x ≠ UNUSED → same_space x (set_p_state RUNNING x).
Proof. by split. Qed.
Definition zombify (s : kst) : kst :=
  set_k_held [] (set_k_procs (alter exited 1%nat (alter (set_p_state RUNNING) 0%nat (k_procs s))) s).
Lemma zombify_fields s : k_ftable (zombify s) = k_ftable s ∧ k_cur (zombify s) = k_cur s ∧ k_held (zombify s) = [] ∧
  k_procs (zombify s) = alter exited 1%nat (alter (set_p_state RUNNING) 0%nat (k_procs s)).
Proof. done. Qed.
Lemma running_fields s : k_ftable (running s) = k_ftable s ∧ k_cur (running s) = Some 0%nat ∧ k_held (running s) = [].
Proof. done. Qed.
Lemma pl_rest_fields s s' : pl_rest s s' → k_ftable s' = k_ftable s ∧ k_cur s' = k_cur s.
Proof. intros R. rewrite R. done. Qed.
Lemma zombify_ok s l : procs_ok s l → Forall2 same_space (k_procs s) (k_procs (zombify s)) → procs_ok (zombify s) l.
Proof. intros HP HT. by apply procs_ok_held, procs_ok_tags. Qed.
Definition zombie_st : kst := zombify two_alloc.
Lemma zombie_st_eq : zombie_st = zombify two_alloc.
Proof. reflexivity. Qed.
#[global] Opaque zombie_st.

Lemma zombie_st_ok : ∃ l y z, procs_ok zombie_st l ∧ files_ok zombie_st ∧ zombies_closed zombie_st ∧
  k_cur zombie_st = Some 0%nat ∧ k_held zombie_st = [] ∧ k_procs zombie_st = <[1%nat := exited z]> (<[0%nat := set_p_state RUNNING y]> (k_procs pool)).
Proof.
  destruct one_alloc_ok as (x0 & r0 & t0 & l0 & HA0). pose proof (running_ok _ _ _ _ _ HA0) as HP0. pose proof (running_files _ _ _ _ _ HA0) as HF0.
  destruct (allocproc_some (running one_alloc) l0 1 two_alloc HP0 eq_refl (running_next _ _ _ _ _ HA0) two_alloc_run) as (x1 & r1 & t1 & l1 & HA1).
  pose proof (running_procs _ _ _ _ _ HA0) as E0. pose proof (as_procs _ _ _ _ _ _ _ _ HA1) as E1. rewrite E0 in E1.
  set (y := set_p_cwd (Some 0%nat) (new_proc pool r0 t0 x0)) in *. set (z := new_proc (running one_alloc) r1 t1 x1) in *.
  exists l1, y, z. rewrite zombie_st_eq. destruct (zombify_fields two_alloc) as (Z1 & Z2 & Z3 & Z4).
  destruct (running_fields one_alloc) as (R1 & R2 & R3). destruct (pl_rest_fields _ _ (as_rest _ _ _ _ _ _ _ _ HA1)) as [Q1 Q2].
  destruct (pl_rest_fields _ _ (as_rest _ _ _ _ _ _ _ _ HA0)) as [Q3 _].
  assert (x0 = proc0 ∧ x1 = proc0) as [Ex0 Ex1].
  { pose proof (as_entry _ _ _ _ _ _ _ _ HA0) as [H0 _]. pose proof (as_entry _ _ _ _ _ _ _ _ HA1) as [H1 _]. rewrite E0 in H1.
    split; [by eapply pool_procs|]. rewrite list_lookup_insert_ne in H1 by done. by eapply pool_procs. }
  assert (k_procs (zombify two_alloc) = <[1%nat := exited z]> (<[0%nat := set_p_state RUNNING y]> (k_procs pool))) as Ep.
  { rewrite Z4, E1. reflexivity. }
  assert (p_ofile <$> k_procs (zombify two_alloc) = replicate NPROC (replicate NOFILE None)) as Ef.
  { rewrite Ep. unfold y, z. rewrite Ex0, Ex1. reflexivity. }
  assert (∀ i w, k_procs (zombify two_alloc) !! i = Some w → p_ofile w = replicate NOFILE None) as Hi.
  { intros i w Hw. pose proof (f_equal (λ L, L !! i) Ef) as E. cbv beta in E. rewrite list_lookup_fmap, Hw in E.
    symmetry in E. by apply lookup_replicate in E as [[= E] _]. }
  assert (k_ftable (zombify two_alloc) = replicate NFILE file0) as Et.
  { rewrite Z1, Q1, R1, Q3. reflexivity. }
  split; [|split; [split|split; [|split; [rewrite Z2, Q2, R2; reflexivity|split; [exact Z3|exact Ep]]]]].
  - apply zombify_ok; [apply HA1|]. rewrite Ep, E1.
    apply Forall2_insert; [apply Forall2_insert|]; [apply Forall_Forall2_diag, Forall_true, same_space_refl|apply running_space|apply exited_space]; discriminate.
  - rewrite Et. apply length_replicate.
  - intros i w Hw. rewrite (Hi i w Hw). split; [apply length_replicate|]. intros f Hf. apply elem_of_replicate_inv in Hf. discriminate.
  - intros i w Hw _. exact (Hi i w Hw).
  - intros f w. rewrite Et. intros [-> _]%lookup_replicate. unfold descriptors. rewrite Ef, sum_none. reflexivity.
  - intros i w Hw _. exact (Hi i w Hw).
Qed.

Lemma wait_spec_witness : ∃ y z l k s' l',
  wait 0 zombie_st = Ok (if decide (k = 0) then p_pid (exited z) else -1) s' ∧ procs_ok s' l' ∧ files_ok s' ∧
  waited zombie_st l 0 y 0 1 (exited z) k s' l'.
Proof.
  destruct zombie_st_ok as (l & y & z & HP & HF & HZ & Hc & Hh & Ep).
  pose proof (wait_spec zombie_st l 0 (set_p_state RUNNING y) 0 HP HF HZ Hc ltac:(rewrite Ep; reflexivity) eq_refl Hh ltac:(split; [discriminate|reflexivity])) as H.
  unfold wait_turn in H. rewrite Ep in H.
  assert (list_find (zombie_of 0) (<[1%nat := exited z]> (<[0%nat := set_p_state RUNNING y]> (k_procs pool))) = Some (1%nat, exited z)) as Ef.
  { apply list_find_Some. split; [reflexivity|]. split; [split; reflexivity|]. intros j w Hw Hj. assert (j = 0%nat) as -> by lia.
    injection Hw as <-. intros [_ Hs]. discriminate Hs. }
  rewrite Ef in H. destruct H as (k & s' & l' & H1 & H2 & H3 & _ & H4). exists (set_p_state RUNNING y), z, l, k, s', l'. split; [exact H1|]. split; [exact H2|]. split; [exact H3|exact H4].
Defined.
