(* ===== verification/Exec.v ===== *)
(** * exec: operations

    [kernel/exec.c].  The locals [elf], [ph] and [ustack] are on the kernel
    stack; [argv] is the address of the array of kernel pointers [sys_exec]
    builds.  [goto bad] is the result [None] of a stage, after which [exec_bad]
    cleans up. *)

From stdpp Require Import options.
From S2P Require Import Prelude CString State Sched Sleeplock Kalloc Vm Bio Block Log Copy Fs Console Pipe File Proc.
#[local] Open Scope Z_scope.

Definition ELF_MAGIC : Z := 0x464C457F.
Definition ELF_PROG_LOAD : Z := 1.
Definition rd16 (m : mem) (a : Z) : Z := le_val (rd_bytes m a 2).
Definition rd32 (m : mem) (a : Z) : Z := le_val (rd_bytes m a 4).
(** [struct elfhdr] and [struct proghdr] (elf.h). *)
Record elfhdr := Elfhdr {
  e_magic : Z;
  e_elf : list Z;
  e_type : Z;
  e_machine : Z;
  e_version : Z;
  e_entry : Z;
  e_phoff : Z;
  e_shoff : Z;
  e_flags : Z;
  e_ehsize : Z;
  e_phentsize : Z;
  e_phnum : Z;
  e_shentsize : Z;
  e_shnum : Z;
  e_shstrndx : Z;
}.
Definition sizeof_elfhdr : Z := 64.
Definition get_elfhdr (m : mem) (a : Z) : elfhdr :=
  Elfhdr (rd32 m a) (rd_bytes m (a + 4) 12) (rd16 m (a + 16)) (rd16 m (a + 18)) (rd32 m (a + 20))
    (load64 m (a + 24)) (load64 m (a + 32)) (load64 m (a + 40)) (rd32 m (a + 48))
    (rd16 m (a + 52)) (rd16 m (a + 54)) (rd16 m (a + 56)) (rd16 m (a + 58)) (rd16 m (a + 60))
    (rd16 m (a + 62)).
Record proghdr := Proghdr {
  ph_type : Z;
  ph_flags : Z;
  ph_off : Z;
  ph_vaddr : Z;
  ph_paddr : Z;
  ph_filesz : Z;
  ph_memsz : Z;
  ph_align : Z;
}.
Definition sizeof_proghdr : Z := 56.
Definition get_proghdr (m : mem) (a : Z) : proghdr :=
  Proghdr (rd32 m a) (rd32 m (a + 4)) (load64 m (a + 8)) (load64 m (a + 16)) (load64 m (a + 24))
    (load64 m (a + 32)) (load64 m (a + 40)) (load64 m (a + 48)).

Definition L_elf : Z := 0x200.
Definition L_ph : Z := 0x240.
Definition L_ustack : Z := 0x280.

(** Pages of the segment from [i] on. *)
Fixpoint loadseg_loop (fuel : nat) (pagetable va : Z) (ip : nat) (offset sz i : Z) : K Z :=
  match fuel with
  | O => mret 0
  | S fuel =>
    pa ← walkaddr pagetable (u64 (va + i));
    if pa =? 0 then panic "loadseg: address should exist" else
    let n := if u32 (sz - i) <? PGSIZE then u32 (sz - i) else PGSIZE in
    r ← readi ip false pa (u32 (offset + i)) n;
    if negb (r =? n) then mret (-1)
    else loadseg_loop fuel pagetable va ip offset sz (i + PGSIZE)
  end.
Definition loadseg (pagetable va : Z) (ip : nat) (offset sz : Z) : K Z :=
  loadseg_loop (npages_to 0 sz) pagetable va ip offset sz 0.

(** The program headers from [off] on.  The size of the image is returned with
    the outcome: [bad] frees that much. *)
Fixpoint exec_load (n : nat) (ip : nat) (pagetable off sz : Z) : K (Z * bool) :=
  match n with
  | O => mret (sz, true)
  | S n =>
    ph ← local L_ph;
    r ← readi ip false ph (u32 off) sizeof_proghdr;
    if negb (r =? sizeof_proghdr) then mret (sz, false) else
    h ← gets (λ s, get_proghdr (k_mem s) ph);
    let next := i32 (off + sizeof_proghdr) in
    if negb (ph_type h =? ELF_PROG_LOAD) then exec_load n ip pagetable next sz else
    if ph_memsz h <? ph_filesz h then mret (sz, false) else
    if u64 (ph_vaddr h + ph_memsz h) <? ph_vaddr h then mret (sz, false) else
    sz1 ← uvmalloc pagetable sz (u64 (ph_vaddr h + ph_memsz h));
    if sz1 =? 0 then mret (sz, false) else
    if negb (ph_vaddr h mod PGSIZE =? 0) then mret (sz1, false) else
    r ← loadseg pagetable (ph_vaddr h) ip (u32 (ph_off h)) (u32 (ph_filesz h));
    if r <? 0 then mret (sz1, false)
    else exec_load n ip pagetable next sz1
  end.

(** The strings of [argv] from [argc] on are pushed below [sp]; [None] is
    [goto bad]. *)
Fixpoint exec_args (fuel : nat) (pagetable argv stackbase argc sp : Z) : K (option (Z * Z)) :=
  match fuel with
  | O => λ _, NoFuel
  | S fuel =>
    arg ← ld64 (argv + 8 * argc);
    if arg =? 0 then mret (Some (argc, sp)) else
    if Z.of_nat MAXARG <=? argc then mret None else
    len ← gets (λ s, strlen (k_mem s) arg);
    let sp := u64 (sp - (len + 1)) in
    let sp := sp - sp mod 16 in
    if sp <? stackbase then mret None else
    r ← copyout pagetable sp arg (len + 1);
    if r <? 0 then mret None else
    ustack ← local L_ustack;
    st64 (ustack + 8 * argc) sp;;
    exec_args fuel pagetable argv stackbase (argc + 1) sp
  end.

(** The last element of the path: the text after its last slash. *)
Fixpoint last_elem (fuel : nat) (m : mem) (last s : Z) : Z :=
  match fuel with
  | O => last
  | S fuel =>
    let c := rd m s in
    if c =? 0 then last
    else last_elem fuel m (if c =? SLASH then s + 1 else last) (s + 1)
  end.

Definition exec_bad (pagetable sz : Z) (ip : option nat) : K Z :=
  when (negb (pagetable =? 0)) (proc_freepagetable pagetable sz);;
  match ip with
  | Some ip => iunlockput ip;; end_op;; mret (-1)
  | None => mret (-1)
  end.

(** From the stack on: the image is loaded in [pagetable] and has size [sz]. *)
Definition exec_commit (p : nat) (path argv pagetable sz entry : Z) : K Z :=
  oldsz ← gets (λ s, p_sz (proc_of s p));
  let sz := PGROUNDUP sz in
  sz1 ← uvmalloc pagetable sz (u64 (sz + 2 * PGSIZE));
  if sz1 =? 0 then exec_bad pagetable sz None else
  let sz := sz1 in
  uvmclear pagetable (sz - 2 * PGSIZE);;
  let stackbase := sz - PGSIZE in
  r ← exec_args (S (S MAXARG)) pagetable argv stackbase 0 sz;
  match r with
  | None => exec_bad pagetable sz None
  | Some (argc, sp) =>
    ustack ← local L_ustack;
    st64 (ustack + 8 * argc) 0;;
    let sp := u64 (sp - (argc + 1) * 8) in
    let sp := sp - sp mod 16 in
    if sp <? stackbase then exec_bad pagetable sz None else
    r ← copyout pagetable sp ustack ((argc + 1) * 8);
    if r <? 0 then exec_bad pagetable sz None else
    tf_set p TF_a1 sp;;
    last ← gets (λ s, last_elem (S (size (k_mem s))) (k_mem s) path path);
    set_name p last;;
    oldpagetable ← gets (λ s, p_pagetable (proc_of s p));
    modify (upd_proc p (set_p_pagetable pagetable));;
    modify (upd_proc p (set_p_sz sz));;
    tf_set p TF_epc entry;;
    tf_set p TF_sp sp;;
    proc_freepagetable oldpagetable oldsz;;
    mret argc
  end.

Definition exec (path argv : Z) : K Z :=
  p ← curproc;
  begin_op;;
  r ← namei path;
  match r with
  | None => end_op;; mret (-1)
  | Some ip =>
    ilock ip;;
    elf ← local L_elf;
    r ← readi ip false elf 0 sizeof_elfhdr;
    if negb (r =? sizeof_elfhdr) then exec_bad 0 0 (Some ip) else
    h ← gets (λ s, get_elfhdr (k_mem s) elf);
    if negb (e_magic h =? ELF_MAGIC) then exec_bad 0 0 (Some ip) else
    pagetable ← proc_pagetable p;
    if pagetable =? 0 then exec_bad 0 0 (Some ip) else
    l ← exec_load (Z.to_nat (e_phnum h)) ip pagetable (i32 (e_phoff h)) 0;
    let '(sz, ok) := l in
    if negb ok then exec_bad pagetable sz (Some ip) else
    iunlockput ip;;
    end_op;;
    exec_commit p path argv pagetable sz (e_entry h)
  end.
