(* ===== verification/Syscall.v ===== *)
(** * System calls: arguments and process calls

    The argument half of [kernel/syscall.c] and [kernel/sysproc.c].  A system
    call returns a 64-bit value: an [int] result is sign-extended. *)

From stdpp Require Import options.
From S2P Require Import Prelude CString State Sched Sleeplock Kalloc Vm Bio Block Log Copy Fs Console Pipe File Proc Exec.
#[local] Open Scope Z_scope.

(** ** Arguments *)

(** [fetchaddr]: the word, or [None] for the result -1. *)
Definition L_word : Z := 0x138.
Definition fetchaddr (addr : Z) : K (option Z) :=
  p ← curproc;
  x ← gets (λ s, proc_of s p);
  if (p_sz x <=? addr) || (p_sz x <? u64 (addr + 8)) then mret None else
  ip ← local L_word;
  r ← copyin (p_pagetable x) ip addr 8;
  if negb (r =? 0) then mret None else
  v ← ld64 ip;
  mret (Some v).

Definition fetchstr (addr buf max : Z) : K Z :=
  p ← curproc;
  pagetable ← gets (λ s, p_pagetable (proc_of s p));
  err ← copyinstr pagetable buf addr max;
  if err <? 0 then mret err
  else gets (λ s, strlen (k_mem s) buf).

Definition argraw (n : Z) : K Z :=
  p ← curproc;
  match n with
  | 0 => tf_get p TF_a0
  | 1 => tf_get p TF_a1
  | 2 => tf_get p TF_a2
  | 3 => tf_get p TF_a3
  | 4 => tf_get p TF_a4
  | 5 => tf_get p TF_a5
  | _ => panic "argraw"
  end.
Definition argint (n : Z) : K Z := v ← argraw n; mret (i32 v).
Definition argaddr (n : Z) : K Z := argraw n.
Definition argstr (n buf max : Z) : K Z :=
  addr ← argaddr n;
  fetchstr addr buf max.

(** ** sysproc.c *)

Definition sys_exit : K Z :=
  n ← argint 0;
  exit n;;
  mret 0.

Definition sys_getpid : K Z :=
  p ← curproc;
  gets (λ s, p_pid (proc_of s p)).

Definition sys_fork : K Z := fork.

Definition sys_wait : K Z :=
  p ← argaddr 0;
  wait p.

(** The old size is returned through an [int]. *)
Definition sys_sbrk : K Z :=
  n ← argint 0;
  p ← curproc;
  addr ← gets (λ s, i32 (p_sz (proc_of s p)));
  r ← growproc n;
  if r <? 0 then mret (-1) else mret addr.

(** [ticks - ticks0 < n] compares unsigned. *)
Definition sys_sleep : K Z :=
  n ← argint 0;
  acquire LK_ticks;;
  ticks0 ← gets k_ticks;
  mloop WAKEUPS (λ _ : unit,
    ticks ← gets k_ticks;
    if u32 (ticks - ticks0) <? u32 n then
      p ← curproc;
      killed ← gets (λ s, p_killed (proc_of s p));
      if negb (killed =? 0) then
        release LK_ticks;;
        mret (inr (-1))
      else
        sleep Ch_ticks LK_ticks;;
        mret (inl ())
    else
      release LK_ticks;;
      mret (inr 0)) ().

Definition sys_kill : K Z :=
  pid ← argint 0;
  kill pid.

Definition sys_uptime : K Z :=
  acquire LK_ticks;;
  xticks ← gets k_ticks;
  release LK_ticks;;
  mret xticks.
