(* ===== verification/SyscallSpec.v ===== *)
(** * The arguments of system calls

    [argint], [argaddr], [argstr], [fetchaddr] and [fetchstr] of [kernel/syscall.c] for a running process of a
    well-formed process table: what the kernel takes from user registers and user memory. *)

From stdpp Require Import options.
From S2P Require Import Prelude CString State Sched Sleeplock Kalloc Vm PageTable VmWalk VmSpec VmOps VmFree VmCopy VmProps Bio Block Log Copy UserMem Fs Console Pipe File Proc ProcMem ProcTable ProcFork Exec Syscall.
#[local] Open Scope Z_scope.
#[local] Existing Instance user_leaves.

(** The register of argument [n]. *)
Definition arg_reg (n : Z) : option tfield :=
  match n with 0 => Some TF_a0 | 1 => Some TF_a1 | 2 => Some TF_a2 | 3 => Some TF_a3 | 4 => Some TF_a4 | 5 => Some TF_a5 | _ => None end.
Definition saved_reg (s : kst) (x : proc) (f : tfield) : Z := load64 (k_mem s) (p_trapframe x + tf_off f).

Section args.
Context (s : kst) (l : list Z) (p : nat) (xp : proc).
Context (HP : procs_ok s l) (Hc : k_cur s = Some p) (Hp : k_procs s !! p = Some xp) (Hup : p_state xp ≠ UNUSED).

Lemma arg_proc : proc_of s p = xp.
Proof using All. unfold proc_of. by rewrite Hp. Qed.
Lemma arg_space : uspace (ly_end (k_ly s)) (k_mem s) (p_pagetable xp).
Proof using All.
  destruct (eo_used _ _ _ (po_entry _ _ HP _ _ Hp) Hup) as (HU & _). by apply (user_proc_uspace _ _ _ _ _ (po_ly _ _ HP) HU).
Qed.
Lemma argraw_Ok n f : arg_reg n = Some f → argraw n s = Ok (saved_reg s xp f) s.
Proof using All.
  intros Hf. unfold argraw. rewrite (bind_curproc p) by done.
  assert (∀ g, tf_get p g s = Ok (saved_reg s xp g) s) as Hg by (intros g; unfold tf_get; mstep; by rewrite arg_proc).
  unfold arg_reg in Hf. repeat (case_match; simplify_eq/=; try apply Hg).
Qed.
Lemma saved_reg_range f : 0 ≤ saved_reg s xp f < 2 ^ 64.
Proof using All. unfold saved_reg. apply load64_range, (km_mem _ _ (po_kmem _ _ HP)). Qed.

(** [copyin] and [copyinstr] to kernel memory. *)
Lemma upeek_copied dst va k m' i : copied_in (p_pagetable xp) dst va k (k_mem s) m' → 0 ≤ i < k →
  upeek (k_mem s) (p_pagetable xp) (va + i) = Some (rd m' (dst + i)).
Proof using All. intros H Hi. destruct (ci_bytes _ _ _ _ _ _ H i Hi) as (a & Ha & E). unfold upeek. rewrite Ha, E. done. Qed.
End args.

(** C34. [argstr] reads the string at the user address in the register: it returns the length without the NUL (the
    comment in the source says including it), below [max], with the bytes and the NUL in [buf]; or -1, when there is no NUL within [max] bytes or the string leaves the
    memory the process can read.  No byte outside the [max] bytes of the buffer changes. *)
Theorem argstr_spec s l p xp n f buf max :
  procs_ok s l → k_cur s = Some p → k_procs s !! p = Some xp → p_state xp ≠ UNUSED → arg_reg n = Some f →
  0 ≤ max → kernel_range (k_mem s) (p_pagetable xp) buf max →
  let va := saved_reg s xp f in let user a := upeek (k_mem s) (p_pagetable xp) a in
  ∃ r m', argstr n buf max s = Ok r (set_k_mem m' s) ∧
    ((0 ≤ r < max ∧ user (va + r) = Some 0 ∧ (∀ i, 0 ≤ i ≤ r → user (va + i) = Some (rd m' (buf + i))) ∧
      (∀ i, 0 ≤ i < r → user (va + i) ≠ Some 0)) ∨
     (r = -1 ∧ ∃ k, 0 ≤ k ≤ max ∧ (k = max ∨ user (va + k) = None) ∧
      ∀ i, 0 ≤ i < k → is_Some (user (va + i)) ∧ user (va + i) ≠ Some 0)) ∧
    (∀ a, ¬ (buf ≤ a < buf + max) → rd m' a = rd (k_mem s) a).
Proof.
  intros HP Hc Hp Hup Hf Hmax Hbuf va user. pose proof (arg_space s l p xp HP Hc Hp Hup) as Hsp.
  pose proof (argraw_Ok s l p xp HP Hc Hp Hup n f Hf) as Ea. pose proof (saved_reg_range s l p xp HP Hc Hp Hup f) as Hva. fold va in Ea, Hva.
  destruct (copyinstr_ok (ly_end (k_ly s)) s (p_pagetable xp) buf va max Hsp (km_mem _ _ (po_kmem _ _ HP)) Hva Hmax Hbuf) as (r & m' & E & Hpost).
  assert (∀ k i, no_nul (k_mem s) (p_pagetable xp) va k → 0 ≤ i < k → is_Some (user (va + i)) ∧ user (va + i) ≠ Some 0) as Hnn.
  { intros k i Hk Hi. destruct (Hk i Hi) as (a & Ha & Hne). unfold user, upeek. rewrite Ha. split; [by eexists|]. cbn. congruence. }
  assert (argstr n buf max s = (if r <? 0 then mret r else gets (λ s, strlen (k_mem s) buf)) (set_k_mem m' s)) as ->.
  { unfold argstr, argaddr, fetchstr. erewrite bind_Ok by exact Ea. rewrite (bind_curproc p) by done. mstep.
    rewrite (arg_proc s l p xp HP Hc Hp Hup). by erewrite bind_Ok by exact E. }
  destruct Hpost as [(k & Hk & -> & Hn & (a & Ha & Ha0) & HC)|(k & Hk & -> & Hn & Hstop & HC)]; cbn [Z.ltb Z.compare].
  - assert (∀ i, 0 ≤ i ≤ k → user (va + i) = Some (rd m' (buf + i))) as Hb.
    { intros i Hi. by apply (upeek_copied s l p xp HP Hc Hp Hup _ _ (k + 1)); [|lia]. }
    assert (user (va + k) = Some 0) as H0 by (unfold user, upeek; rewrite Ha; cbn; by rewrite Ha0).
    assert (strlen m' buf = k) as El.
    { destruct (strlen_spec m' buf) as (L1 & L2 & L3). destruct (Z.lt_trichotomy (strlen m' buf) k) as [Hlt|[?|Hlt]]; [|done|].
      - destruct (Hnn k (strlen m' buf) Hn ltac:(lia)) as [_ Hne]. rewrite Hb, L2 in Hne by lia. done.
      - exfalso. apply (L3 k); [lia|]. rewrite Hb in H0 by lia. congruence. }
    exists k, m'. split; [trans (Ok (strlen m' buf) (set_k_mem m' s)); [reflexivity|by rewrite El]|]. split; [left; split; [done|]; split; [done|]; split; [done|]|].
    + intros i Hi. by apply (Hnn k).
    + intros x Hx. apply (ci_rest _ _ _ _ _ _ HC). lia.
  - exists (-1), m'. split; [done|]. split; [right; split; [done|]; exists k; split; [done|]; split|].
    + destruct Hstop as [?|Ht]; [by left|right]. unfold user, upeek. by rewrite Ht.
    + intros i. by apply Hnn.
    + intros x Hx. apply (ci_rest _ _ _ _ _ _ HC). lia.
Qed.

(** [fetchaddr] gives the word at a user address: the eight bytes are below the size of the process, without
    wrap-around, and all of them readable by it; and for no other address a word. *)
Theorem fetchaddr_spec s l p xp addr :
  procs_ok s l → k_cur s = Some p → k_procs s !! p = Some xp → p_state xp ≠ UNUSED → 0 ≤ addr < 2 ^ 64 →
  ∃ r m', fetchaddr addr s = Ok r (set_k_mem m' s) ∧
    (∀ v, r = Some v ↔ addr + 8 ≤ p_sz xp ∧ ∃ bs, length bs = 8%nat ∧ v = le_val bs ∧
       ∀ i, 0 ≤ i < 8 → upeek (k_mem s) (p_pagetable xp) (addr + i) = bs !! Z.to_nat i) ∧
    (∀ q a, owns (k_mem s) (p_pagetable xp) q → in_page q a → rd m' a = rd (k_mem s) a).
Proof.
  intros HP Hc Hp Hup Ha. pose proof (arg_space s l p xp HP Hc Hp Hup) as Hsp. pose proof (arg_proc s l p xp HP Hc Hp Hup) as Ep.
  pose proof (eo_used _ _ _ (po_entry _ _ HP _ _ Hp) Hup) as ([_ _ [Hsz _ _ _ _] _ _] & _). pose proof TRAPFRAME_val as HT.
  assert ((p_sz xp <=? addr) || (p_sz xp <? u64 (addr + 8)) = negb (bool_decide (addr + 8 ≤ p_sz xp))) as Eg.
  { destruct (Z.leb_spec (p_sz xp) addr); cbn [orb]; [by rewrite bool_decide_false by lia|]. rewrite u64_id by lia.
    destruct (Z.ltb_spec (p_sz xp) (addr + 8)); [by rewrite bool_decide_false by lia|by rewrite bool_decide_true by lia]. }
  set (root := p_pagetable xp) in *. unfold fetchaddr. rewrite (bind_curproc p) by done. mstep. rewrite Ep, Eg.
  destruct (decide (addr + 8 ≤ p_sz xp)) as [Hin|Hout].
  2:{ rewrite bool_decide_false by done. exists None, (k_mem s). split; [by destruct s|]. split; [|done]. intros v. split; [done|]. by intros [? _]. }
  rewrite bool_decide_true by done. cbn [negb]. set (ip := KSTACK (Z.of_nat p) + L_word).
  rewrite (bind_Ok (local L_word) _ s ip s) by (unfold local, myproc; mstep; by rewrite Hc).
  assert (kernel_range (k_mem s) root ip 8) as Hk.
  { apply (kernel_high (ly_end (k_ly s))); [apply Hsp|]. apply KSTACK_high; [|done]. rewrite <- (po_len _ _ HP). by eapply lookup_lt_Some. }
  destruct (copyin_ok (ly_end (k_ly s)) s root ip addr 8 Hsp (km_mem _ _ (po_kmem _ _ HP)) Ha ltac:(lia) Hk) as (k & m' & E & Hk8 & Hstop & HC).
  erewrite bind_Ok by exact E.
  assert (∀ q a, owns (k_mem s) root q → in_page q a → rd m' a = rd (k_mem s) a) as Hown.
  { intros q a Ho Hq. apply (ci_rest _ _ _ _ _ _ HC). intros Hx. apply (Hk a q); [lia|done|done]. }
  destruct (decide (k = 8)) as [->|Hne]; cbn [Z.eqb negb].
  - exists (Some (load64 m' ip)), m'. split; [by vstep|]. split; [|done].
    assert (∀ i, 0 ≤ i < 8 → upeek (k_mem s) root (addr + i) = rd_bytes m' ip 8 !! Z.to_nat i) as Hb.
    { intros i Hi. rewrite lookup_rd_bytes by lia. rewrite Z2Nat.id by lia. by apply (upeek_copied s l p xp HP Hc Hp Hup _ _ 8). }
    intros v. split.
    + intros [= <-]. split; [done|]. exists (rd_bytes m' ip 8). by rewrite length_rd_bytes.
    + intros (_ & bs & Hl & -> & Hu). change (load64 m' ip) with (le_val (rd_bytes m' ip 8)). do 2 f_equal. apply list_eq. intros i.
      destruct (decide (i < 8)%nat); [|rewrite !lookup_ge_None_2; [done|lia|rewrite length_rd_bytes; lia]].
      specialize (Hb (Z.of_nat i) ltac:(lia)). specialize (Hu (Z.of_nat i) ltac:(lia)). rewrite Nat2Z.id in *. congruence.
  - exists None, m'. split; [done|]. split; [|done]. intros v. split; [done|]. intros (_ & bs & Hl & _ & Hu).
    specialize (Hu k ltac:(lia)). unfold upeek in Hu. rewrite Hstop in Hu by lia. cbn in Hu.
    destruct (lookup_lt_is_Some_2 bs (Z.to_nat k)); [lia|congruence].
Qed.

(** A process with nothing in its registers. *)
Lemma args_witness_ok : ∃ l xp, procs_ok (running one_alloc) l ∧ k_procs (running one_alloc) !! 0%nat = Some xp ∧ p_state xp ≠ UNUSED.
Proof.
  destruct one_alloc_ok as (x & root & tf & l & HA). exists l, (set_p_cwd (Some 0%nat) (new_proc pool root tf x)).
  split; [exact (running_ok x root tf one_alloc l HA)|]. rewrite (running_procs x root tf one_alloc l HA). split; [reflexivity|discriminate].
Qed.
Lemma fetchaddr_spec_witness : ∃ r m', fetchaddr 8 (running one_alloc) = Ok r (set_k_mem m' (running one_alloc)).
Proof.
  destruct args_witness_ok as (l & xp & HP & Hp & Hup).
  destruct (fetchaddr_spec (running one_alloc) l 0 xp 8 HP eq_refl Hp Hup ltac:(split; [discriminate|reflexivity])) as (r & m' & E & _).
  exists r, m'. exact E.
Defined.
Lemma argstr_spec_witness : ∃ r m', argstr 0 (KSTACK 0 + 0x400) 128 (running one_alloc) = Ok r (set_k_mem m' (running one_alloc)).
Proof.
  destruct args_witness_ok as (l & xp & HP & Hp & Hup).
  destruct (argstr_spec (running one_alloc) l 0 xp 0 TF_a0 (KSTACK 0 + 0x400) 128 HP eq_refl Hp Hup eq_refl ltac:(discriminate)) as (r & m' & E & _).
  - apply (kernel_high (ly_end (k_ly (running one_alloc)))); [|apply (KSTACK_high 0); [unfold NPROC; lia|lia]].
    exact (us_wf _ _ _ (arg_space (running one_alloc) l 0 xp HP eq_refl Hp Hup)).
  - exists r, m'. exact E.
Defined.
