(* ===== verification/Sysfile.v ===== *)
(** * System calls on files

    [kernel/sysfile.c].  The path buffers and names are locals on the kernel
    stack. *)

From stdpp Require Import options.
From S2P Require Import Prelude CString State Sched Sleeplock Kalloc Vm Bio Block Log Copy Fs Console Pipe File Proc Exec Syscall.
#[local] Open Scope Z_scope.

(** Locals: [path] or [old], [new], [name], [de] and [argv]. *)
Definition L_path : Z := 0x400.
Definition L_new : Z := 0x480.
Definition L_fname : Z := 0x500.
Definition L_cname : Z := 0x510.
Definition L_de : Z := 0x520.
Definition L_argv : Z := 0x600.

(** ** Descriptors *)

(** [argfd]: the descriptor and the file, or [None] for the result -1. *)
Definition argfd (n : Z) : K (option (Z * nat)) :=
  fd ← argint n;
  if (fd <? 0) || (Z.of_nat NOFILE <=? fd) then mret None else
  p ← curproc;
  f ← gets (λ s, ofile_of s p fd);
  match f with
  | Some f => mret (Some (fd, f))
  | None => mret None
  end.

Definition fdalloc (f : nat) : K Z :=
  p ← curproc;
  r ← mfind NOFILE 0 (λ fd,
        x ← gets (λ s, ofile_of s p fd);
        match x with
        | None => set_ofile p fd (Some f);; mret (Some fd)
        | Some _ => mret None
        end);
  mret (default (-1) r).

Definition sys_dup : K Z :=
  r ← argfd 0;
  match r with
  | None => mret (-1)
  | Some (_, f) =>
    fd ← fdalloc f;
    if fd <? 0 then mret (-1) else
    filedup f;;
    mret fd
  end.

Definition sys_read : K Z :=
  r ← argfd 0;
  match r with
  | None => mret (-1)
  | Some (_, f) =>
    n ← argint 2;
    p ← argaddr 1;
    fileread f p n
  end.

Definition sys_write : K Z :=
  r ← argfd 0;
  match r with
  | None => mret (-1)
  | Some (_, f) =>
    n ← argint 2;
    p ← argaddr 1;
    filewrite f p n
  end.

Definition sys_close : K Z :=
  r ← argfd 0;
  match r with
  | None => mret (-1)
  | Some (fd, f) =>
    p ← curproc;
    set_ofile p fd None;;
    fileclose f;;
    mret 0
  end.

Definition sys_fstat : K Z :=
  r ← argfd 0;
  match r with
  | None => mret (-1)
  | Some (_, f) =>
    st ← argaddr 1;
    filestat f st
  end.

(** ** Links *)

Definition add_nlink (ip : nat) (d : Z) : K unit :=
  modify (upd_inode ip (λ x, set_i_nlink (i16 (i_nlink x + d)) x)).

(** The label [bad] of [sys_link]. *)
Definition link_bad (ip : nat) : K Z :=
  ilock ip;;
  add_nlink ip (-1);;
  iupdate ip;;
  iunlockput ip;;
  end_op;;
  mret (-1).
Definition sys_link : K Z :=
  old ← local L_path;
  new ← local L_new;
  name ← local L_fname;
  r ← argstr 0 old MAXPATH;
  if r <? 0 then mret (-1) else
  r ← argstr 1 new MAXPATH;
  if r <? 0 then mret (-1) else
  begin_op;;
  ip ← namei old;
  match ip with
  | None => end_op;; mret (-1)
  | Some ip =>
    ilock ip;;
    t ← gets (λ s, i_type (inode_of s ip));
    if t =? T_DIR then iunlockput ip;; end_op;; mret (-1) else
    add_nlink ip 1;;
    iupdate ip;;
    iunlock ip;;
    dp ← nameiparent new name;
    match dp with
    | None => link_bad ip
    | Some dp =>
      ilock dp;;
      x ← gets (λ s, inode_of s ip);
      ddev ← gets (λ s, i_dev (inode_of s dp));
      r ← (if negb (ddev =? i_dev x) then mret (-1) else dirlink dp name (i_inum x));
      if r <? 0 then iunlockput dp;; link_bad ip
      else
        iunlockput dp;;
        iput ip;;
        end_op;;
        mret 0
    end
  end.

Definition isdirempty (dp : nat) : K bool :=
  size ← gets (λ s, i_size (inode_of s dp));
  de ← local L_de;
  r ← mfind (Z.to_nat ((size + sizeof_dirent - 1) / sizeof_dirent - 2)) 2 (λ k,
        r ← readi dp false de (k * sizeof_dirent) sizeof_dirent;
        if negb (r =? sizeof_dirent) then panic "isdirempty: readi" else
        inum ← gets (λ s, de_inum (k_mem s) de);
        if negb (inum =? 0) then mret (Some ()) else mret None);
  mret (match r with Some _ => false | None => true end).

(** The label [bad] of [sys_unlink]. *)
Definition unlink_bad (dp : nat) : K Z :=
  iunlockput dp;;
  end_op;;
  mret (-1).
Definition sys_unlink : K Z :=
  path ← local L_path;
  name ← local L_fname;
  r ← argstr 0 path MAXPATH;
  if r <? 0 then mret (-1) else
  begin_op;;
  dp ← nameiparent path name;
  match dp with
  | None => end_op;; mret (-1)
  | Some dp =>
    ilock dp;;
    dot ← lit_dot;
    c ← namecmp name dot;
    if c =? 0 then unlink_bad dp else
    dotdot ← lit_dotdot;
    c ← namecmp name dotdot;
    if c =? 0 then unlink_bad dp else
    r ← dirlookup dp name;
    match r with
    | None => unlink_bad dp
    | Some (ip, off) =>
      ilock ip;;
      x ← gets (λ s, inode_of s ip);
      if i_nlink x <? 1 then panic "unlink: nlink < 1" else
      e ← (if i_type x =? T_DIR then isdirempty ip else mret true);
      if negb e then iunlockput ip;; unlink_bad dp else
      de ← local L_de;
      kmemset de 0 sizeof_dirent;;
      w ← writei dp false de off sizeof_dirent;
      if negb (w =? sizeof_dirent) then panic "unlink: writei" else
      t ← gets (λ s, i_type (inode_of s ip));
      when (t =? T_DIR)
        (add_nlink dp (-1);;
         iupdate dp);;
      iunlockput dp;;
      add_nlink ip (-1);;
      iupdate ip;;
      iunlockput ip;;
      end_op;;
      mret 0
    end
  end.

(** ** Creating and opening *)

(** [create] returns a locked inode. *)
Definition create (path type major minor : Z) : K (option nat) :=
  name ← local L_cname;
  dp ← nameiparent path name;
  match dp with
  | None => mret None
  | Some dp =>
    ilock dp;;
    r ← dirlookup dp name;
    match r with
    | Some (ip, _) =>
      iunlockput dp;;
      ilock ip;;
      t ← gets (λ s, i_type (inode_of s ip));
      if (type =? T_FILE) && ((t =? T_FILE) || (t =? T_DEVICE)) then mret (Some ip)
      else iunlockput ip;; mret None
    | None =>
      dev ← gets (λ s, i_dev (inode_of s dp));
      ip ← ialloc dev type;
      ilock ip;;
      modify (upd_inode ip (set_i_nlink 1 ∘ set_i_minor minor ∘ set_i_major major));;
      iupdate ip;;
      when (type =? T_DIR)
        (add_nlink dp 1;;
         iupdate dp;;
         inum ← gets (λ s, i_inum (inode_of s ip));
         dnum ← gets (λ s, i_inum (inode_of s dp));
         dot ← lit_dot;
         r ← dirlink ip dot inum;
         if r <? 0 then panic "create dots" else
         dotdot ← lit_dotdot;
         r ← dirlink ip dotdot dnum;
         if r <? 0 then panic "create dots" else mret ());;
      inum ← gets (λ s, i_inum (inode_of s ip));
      r ← dirlink dp name inum;
      if r <? 0 then panic "create: dirlink" else
      iunlockput dp;;
      mret (Some ip)
    end
  end.

(** The first half of [sys_open]: the locked inode, or [None] after the
    operation has ended. *)
Definition open_inode (path omode : Z) : K (option nat) :=
  if negb (Z.land omode O_CREATE =? 0) then
    ip ← create path T_FILE 0 0;
    match ip with
    | None => end_op;; mret None
    | Some ip => mret (Some ip)
    end
  else
    ip ← namei path;
    match ip with
    | None => end_op;; mret None
    | Some ip =>
      ilock ip;;
      t ← gets (λ s, i_type (inode_of s ip));
      if (t =? T_DIR) && negb (omode =? O_RDONLY) then
        iunlockput ip;;
        end_op;;
        mret None
      else mret (Some ip)
    end.
(** The fields of the file [sys_open] sets. *)
Definition open_file (ip : nat) (x : inode) (omode : Z) (f : file) : file :=
  let f := if i_type x =? T_DEVICE then set_f_major (i_major x) (set_f_type FD_DEVICE f)
           else set_f_off 0 (set_f_type FD_INODE f) in
  set_f_writable (negb (Z.land omode O_WRONLY =? 0) || negb (Z.land omode O_RDWR =? 0))
    (set_f_readable (Z.land omode O_WRONLY =? 0) (set_f_ip (Some ip) f)).
Definition sys_open : K Z :=
  path ← local L_path;
  n ← argstr 0 path MAXPATH;
  if n <? 0 then mret (-1) else
  omode ← argint 1;
  begin_op;;
  r ← open_inode path omode;
  match r with
  | None => mret (-1)
  | Some ip =>
    x ← gets (λ s, inode_of s ip);
    if (i_type x =? T_DEVICE) && ((i_major x <? 0) || (NDEV <=? i_major x)) then
      iunlockput ip;; end_op;; mret (-1)
    else
    f ← filealloc;
    match f with
    | None => iunlockput ip;; end_op;; mret (-1)
    | Some f =>
      fd ← fdalloc f;
      if fd <? 0 then fileclose f;; iunlockput ip;; end_op;; mret (-1)
      else
        modify (upd_file f (open_file ip x omode));;
        when (negb (Z.land omode O_TRUNC =? 0) && (i_type x =? T_FILE)) (itrunc ip);;
        iunlock ip;;
        end_op;;
        mret fd
    end
  end.

Definition sys_mkdir : K Z :=
  path ← local L_path;
  begin_op;;
  r ← argstr 0 path MAXPATH;
  if r <? 0 then end_op;; mret (-1) else
  ip ← create path T_DIR 0 0;
  match ip with
  | None => end_op;; mret (-1)
  | Some ip => iunlockput ip;; end_op;; mret 0
  end.

(** [major] and [minor] are truncated to [short] in the call of [create]. *)
Definition sys_mknod : K Z :=
  path ← local L_path;
  begin_op;;
  r ← argstr 0 path MAXPATH;
  if r <? 0 then end_op;; mret (-1) else
  major ← argint 1;
  minor ← argint 2;
  ip ← create path T_DEVICE (i16 major) (i16 minor);
  match ip with
  | None => end_op;; mret (-1)
  | Some ip => iunlockput ip;; end_op;; mret 0
  end.

Definition sys_chdir : K Z :=
  path ← local L_path;
  p ← curproc;
  begin_op;;
  r ← argstr 0 path MAXPATH;
  if r <? 0 then end_op;; mret (-1) else
  ip ← namei path;
  match ip with
  | None => end_op;; mret (-1)
  | Some ip =>
    ilock ip;;
    t ← gets (λ s, i_type (inode_of s ip));
    if negb (t =? T_DIR) then iunlockput ip;; end_op;; mret (-1) else
    iunlock ip;;
    cwd ← gets (λ s, p_cwd (proc_of s p));
    iput_ptr cwd;;
    end_op;;
    modify (upd_proc p (set_p_cwd (Some ip)));;
    mret 0
  end.

(** ** exec and pipe *)

(** The loop of [sys_exec] from argument [i] on: [true] when the terminating
    null was reached, [false] for [goto bad]. *)
Fixpoint exec_fetch (n : nat) (i uargv argv : Z) : K bool :=
  match n with
  | O => mret false
  | S n =>
    r ← fetchaddr (u64 (uargv + 8 * i));
    match r with
    | None => mret false
    | Some uarg =>
      if uarg =? 0 then st64 (argv + 8 * i) 0;; mret true
      else
        pa ← kalloc;
        st64 (argv + 8 * i) pa;;
        if pa =? 0 then mret false else
        r ← fetchstr uarg pa PGSIZE;
        if r <? 0 then mret false
        else exec_fetch n (i + 1) uargv argv
    end
  end.
(** [for(i = 0; i < NELEM(argv) && argv[i] != 0; i++) kfree(argv[i]);] *)
Fixpoint exec_free (n : nat) (i argv : Z) : K unit :=
  match n with
  | O => mret ()
  | S n =>
    a ← ld64 (argv + 8 * i);
    if a =? 0 then mret ()
    else kfree a;; exec_free n (i + 1) argv
  end.
Definition sys_exec : K Z :=
  path ← local L_path;
  argv ← local L_argv;
  r ← argstr 0 path MAXPATH;
  if r <? 0 then mret (-1) else
  uargv ← argaddr 1;
  kmemset argv 0 (8 * Z.of_nat MAXARG);;
  ok ← exec_fetch MAXARG 0 uargv argv;
  if ok : bool then
    ret ← exec path argv;
    exec_free MAXARG 0 argv;;
    mret ret
  else
    exec_free MAXARG 0 argv;;
    mret (-1).

(** [copyout] of an [int]. *)
Definition copyout_int (pagetable addr v : Z) : K Z :=
  src ← expose (le_bytes 4 v);
  copyout pagetable addr src 4.
Definition sys_pipe : K Z :=
  p ← curproc;
  fdarray ← argaddr 0;
  r ← pipealloc;
  match r with
  | None => mret (-1)
  | Some (rf, wf) =>
    fd0 ← fdalloc rf;
    if fd0 <? 0 then fileclose rf;; fileclose wf;; mret (-1) else
    fd1 ← fdalloc wf;
    if fd1 <? 0 then
      set_ofile p fd0 None;;
      fileclose rf;; fileclose wf;; mret (-1)
    else
    pagetable ← gets (λ s, p_pagetable (proc_of s p));
    r ← copyout_int pagetable fdarray fd0;
    r ← (if r <? 0 then mret r else copyout_int pagetable (u64 (fdarray + 4)) fd1);
    if r <? 0 then
      set_ofile p fd0 None;;
      set_ofile p fd1 None;;
      fileclose rf;; fileclose wf;; mret (-1)
    else mret 0
  end.
