(* ===== verification/Virtio.v ===== *)
(** * The disk driver: operations

    [kernel/virtio_disk.c].  The queues the driver shares with the device are
    fields of [k_vd]; an address the device is given is a [vaddr].  The
    device's registers are [v_mmio], a register reads as what it holds. *)

From stdpp Require Import options.
From S2P Require Import Prelude CString State Sched Sleeplock Bio.
#[local] Open Scope Z_scope.

(** ** Constants (virtio.h) *)

Definition VIRTIO_MMIO_MAGIC_VALUE : Z := 0x000.
Definition VIRTIO_MMIO_VERSION : Z := 0x004.
Definition VIRTIO_MMIO_DEVICE_ID : Z := 0x008.
Definition VIRTIO_MMIO_VENDOR_ID : Z := 0x00c.
Definition VIRTIO_MMIO_DEVICE_FEATURES : Z := 0x010.
Definition VIRTIO_MMIO_DRIVER_FEATURES : Z := 0x020.
Definition VIRTIO_MMIO_GUEST_PAGE_SIZE : Z := 0x028.
Definition VIRTIO_MMIO_QUEUE_SEL : Z := 0x030.
Definition VIRTIO_MMIO_QUEUE_NUM_MAX : Z := 0x034.
Definition VIRTIO_MMIO_QUEUE_NUM : Z := 0x038.
Definition VIRTIO_MMIO_QUEUE_PFN : Z := 0x040.
Definition VIRTIO_MMIO_QUEUE_NOTIFY : Z := 0x050.
Definition VIRTIO_MMIO_INTERRUPT_STATUS : Z := 0x060.
Definition VIRTIO_MMIO_INTERRUPT_ACK : Z := 0x064.
Definition VIRTIO_MMIO_STATUS : Z := 0x070.
Definition VRING_DESC_F_NEXT : Z := 1.
Definition VRING_DESC_F_WRITE : Z := 2.
Definition VIRTIO_BLK_T_IN : Z := 0.
Definition VIRTIO_BLK_T_OUT : Z := 1.

Definition upd_vd (f : vdisk → vdisk) (s : kst) : kst := set_k_vd (f (k_vd s)) s.
(** Reading and writing a 32-bit register. *)
Definition rreg (r : Z) : K Z := gets (λ s, default 0 (v_mmio (k_vd s) !! r)).
Definition wreg (r v : Z) : K unit :=
  modify (upd_vd (λ d, set_v_mmio (<[r := u32 v]> (v_mmio d)) d)).

(** ** Initialisation *)

(** The features the driver turns off: read-only, SCSI, write-back mode,
    several queues, any layout, event index and indirect descriptors. *)
Definition unwanted : list Z := [5; 7; 11; 12; 27; 29; 28].
Definition clear_features (features : Z) : Z :=
  foldl (λ f k, Z.land f (u64 (Z.lnot (Z.shiftl 1 k)))) features unwanted.

(** [pages] is the address of [disk.pages]. *)
Definition virtio_disk_init (pages : Z) : K unit :=
  magic ← rreg VIRTIO_MMIO_MAGIC_VALUE;
  version ← rreg VIRTIO_MMIO_VERSION;
  id ← rreg VIRTIO_MMIO_DEVICE_ID;
  vendor ← rreg VIRTIO_MMIO_VENDOR_ID;
  if negb (magic =? 0x74726976) || negb (version =? 1) || negb (id =? 2)
     || negb (vendor =? 0x554d4551) then panic "could not find virtio disk" else
  wreg VIRTIO_MMIO_STATUS 1;;
  wreg VIRTIO_MMIO_STATUS 3;;
  features ← rreg VIRTIO_MMIO_DEVICE_FEATURES;
  wreg VIRTIO_MMIO_DRIVER_FEATURES (clear_features features);;
  wreg VIRTIO_MMIO_STATUS 11;;
  wreg VIRTIO_MMIO_STATUS 15;;
  wreg VIRTIO_MMIO_GUEST_PAGE_SIZE PGSIZE;;
  wreg VIRTIO_MMIO_QUEUE_SEL 0;;
  max ← rreg VIRTIO_MMIO_QUEUE_NUM_MAX;
  if max =? 0 then panic "virtio disk has no queue 0" else
  if max <? NUM then panic "virtio disk max queue too short" else
  wreg VIRTIO_MMIO_QUEUE_NUM NUM;;
  modify (upd_vd (λ d, set_v_desc (v_desc vdisk0) (set_v_avail_ring (v_avail_ring vdisk0)
    (set_v_avail_idx 0 (set_v_used_ring (v_used_ring vdisk0) (set_v_used_dev 0 d))))));;
  wreg VIRTIO_MMIO_QUEUE_PFN (Z.shiftr pages PGSHIFT);;
  modify (upd_vd (set_v_free (replicate (Z.to_nat NUM) true))).

(** ** Descriptors *)

Definition v_free_at (d : vdisk) (i : Z) : bool := default false (v_free d !! Z.to_nat i).
Definition v_desc_at (d : vdisk) (i : Z) : vdesc := default vdesc0 (v_desc d !! Z.to_nat i).
Definition set_free (i : Z) (b : bool) (d : vdisk) : vdisk :=
  set_v_free (<[Z.to_nat i := b]> (v_free d)) d.
Definition set_desc (i : Z) (x : vdesc) (d : vdisk) : vdisk :=
  set_v_desc (<[Z.to_nat i := x]> (v_desc d)) d.

Definition alloc_desc : K Z :=
  r ← mfind (Z.to_nat NUM) 0 (λ i,
        f ← gets (λ s, v_free_at (k_vd s) i);
        if f : bool then
          modify (upd_vd (set_free i false));;
          mret (Some i)
        else mret None);
  mret (default (-1) r).

Definition free_desc (i : Z) : K unit :=
  if NUM <=? i then panic "free_desc 1" else
  f ← gets (λ s, v_free_at (k_vd s) i);
  if f : bool then panic "free_desc 2" else
  modify (upd_vd (set_desc i vdesc0));;
  modify (upd_vd (set_free i true));;
  wakeup (Some Ch_disk_free).

(** A chain has at most [NUM] descriptors: [free_desc] panics on the second
    visit of one. *)
Definition free_chain (i : Z) : K unit :=
  mloop (S (Z.to_nat NUM)) (λ i,
    x ← gets (λ s, v_desc_at (k_vd s) i);
    free_desc i;;
    if negb (Z.land (vd_flags x) VRING_DESC_F_NEXT =? 0) then mret (inl (vd_next x))
    else mret (inr ())) i.

(** The three descriptors, or [None] with none taken. *)
Definition alloc3_desc : K (option (Z * Z * Z)) :=
  i0 ← alloc_desc;
  if i0 <? 0 then mret None else
  i1 ← alloc_desc;
  if i1 <? 0 then free_desc i0;; mret None else
  i2 ← alloc_desc;
  if i2 <? 0 then free_desc i0;; free_desc i1;; mret None else
  mret (Some (i0, i1, i2)).

(** ** Requests *)

(** The request for the block of [b] in the descriptors [i0], [i1], [i2]. *)
Definition format_request (b : nat) (write : bool) (i0 i1 i2 : Z) (sector : Z) : K unit :=
  modify (upd_vd (λ d, set_v_ops (<[Z.to_nat i0 :=
    Vreq (if write then VIRTIO_BLK_T_OUT else VIRTIO_BLK_T_IN) 0 sector]> (v_ops d)) d));;
  modify (upd_vd (set_desc i0 (Vdesc (VA_req i0) 16 VRING_DESC_F_NEXT i1)));;
  modify (upd_vd (set_desc i1 (Vdesc (VA_data b) BSIZE
    (Z.lor (if write then 0 else VRING_DESC_F_WRITE) VRING_DESC_F_NEXT) i2)));;
  modify (upd_vd (λ d, set_v_status (<[Z.to_nat i0 := 0xff]> (v_status d)) d));;
  modify (upd_vd (set_desc i2 (Vdesc (VA_status i0) 1 VRING_DESC_F_WRITE 0)));;
  modify (upd_buf b (set_b_disk true));;
  modify (upd_vd (λ d, set_v_info_b (<[Z.to_nat i0 := Some b]> (v_info_b d)) d));;
  modify (upd_vd (λ d, set_v_avail_ring
    (<[Z.to_nat (v_avail_idx d mod NUM) := i0]> (v_avail_ring d)) d));;
  modify (upd_vd (λ d, set_v_avail_idx (u16 (v_avail_idx d + 1)) d));;
  wreg VIRTIO_MMIO_QUEUE_NOTIFY 0.

Definition wait_desc : K (Z * Z * Z) :=
  mloop WAKEUPS (λ _ : unit,
    r ← alloc3_desc;
    match r with
    | Some idx => mret (inr idx)
    | None => sleep Ch_disk_free LK_vdisk;; mret (inl ())
    end) ().
Definition wait_disk (b : nat) : K unit :=
  mloop WAKEUPS (λ _ : unit,
    d ← gets (λ s, b_disk (buf_of s b));
    if d : bool then sleep (Ch_buf b) LK_vdisk;; mret (inl ())
    else mret (inr ())) ().

Definition virtio_disk_rw (b : nat) (write : bool) : K unit :=
  blockno ← gets (λ s, b_blockno (buf_of s b));
  let sector := u32 (blockno * (BSIZE / 512)) in
  acquire LK_vdisk;;
  idx ← wait_desc;
  let '(i0, i1, i2) := idx in
  format_request b write i0 i1 i2 sector;;
  wait_disk b;;
  modify (upd_vd (λ d, set_v_info_b (<[Z.to_nat i0 := None]> (v_info_b d)) d));;
  free_chain i0;;
  release LK_vdisk.

(** ** Completion *)

(** One completed request. *)
Definition intr_one (id : Z) : K unit :=
  st ← gets (λ s, default 0 (v_status (k_vd s) !! Z.to_nat id));
  if negb (st =? 0) then panic "virtio_disk_intr status" else
  b ← gets (λ s, default None (v_info_b (k_vd s) !! Z.to_nat id));
  match b with
  | None => panic "kerneltrap"
  | Some b =>
    modify (upd_buf b (set_b_disk false));;
    wakeup (Some (Ch_buf b));;
    modify (upd_vd (λ d, set_v_used_idx (u16 (v_used_idx d + 1)) d))
  end.
(** At most [NUM] requests are in flight. *)
Definition virtio_disk_intr : K unit :=
  acquire LK_vdisk;;
  st ← rreg VIRTIO_MMIO_INTERRUPT_STATUS;
  wreg VIRTIO_MMIO_INTERRUPT_ACK (Z.land st 3);;
  mloop (S (Z.to_nat NUM)) (λ _ : unit,
    d ← gets k_vd;
    if v_used_idx d =? v_used_dev d then mret (inr ())
    else
      intr_one (default 0 (v_used_ring d !! Z.to_nat (v_used_idx d mod NUM)));;
      mret (inl ())) ();;
  release LK_vdisk.
