(* ===== verification/VirtioSpec.v ===== *)
(** * The disk driver does what the buffer cache relies on

    The driver keeps track of its eight descriptors ([vd_ok]): those of the
    requests in flight, each a chain of three that describes one transfer,
    and the free ones.  The device is not part of the source: it is a
    parameter [dev] of which the driver relies on what the virtio
    specification says ([VirtioDevice]): once notified, it takes the next
    entry of the available ring, follows the chain, moves the block, writes
    the status and reports the chain in the used ring.  [dev_poll] is the
    least such device. *)

From stdpp Require Import options.
From S2P Require Import Prelude CString Ring State Sched Sleeplock Bio Virtio.
#[local] Open Scope Z_scope.

(** A request in flight. *)
Record req := Req {
  r_i0 : Z; r_i1 : Z; r_i2 : Z;
  r_b : nat;
  r_write : bool;
  r_sector : Z;
}.
Definition idxs (r : req) : list Z := [r_i0 r; r_i1 r; r_i2 r].
Fixpoint all_idxs (fl : list req) : list Z :=
  match fl with [] => [] | r :: fl => idxs r ++ all_idxs fl end.

Definition didx (i : Z) : Prop := 0 ≤ i < NUM.

Definition v_ops_at (d : vdisk) (i : Z) : vreq := default (Vreq 0 0 0) (v_ops d !! Z.to_nat i).
Definition v_info_at (d : vdisk) (i : Z) : option nat := default None (v_info_b d !! Z.to_nat i).

(** The chain of descriptors of a request. *)
Record chain (d : vdisk) (r : req) : Prop := {
  ch_0 : v_desc_at d (r_i0 r) = Vdesc (VA_req (r_i0 r)) 16 VRING_DESC_F_NEXT (r_i1 r);
  ch_1 : v_desc_at d (r_i1 r) = Vdesc (VA_data (r_b r)) BSIZE
           (Z.lor (if r_write r then 0 else VRING_DESC_F_WRITE) VRING_DESC_F_NEXT) (r_i2 r);
  ch_2 : v_desc_at d (r_i2 r) = Vdesc (VA_status (r_i0 r)) 1 VRING_DESC_F_WRITE 0;
  ch_ops : v_ops_at d (r_i0 r) =
    Vreq (if r_write r then VIRTIO_BLK_T_OUT else VIRTIO_BLK_T_IN) 0 (r_sector r);
  ch_b : v_info_at d (r_i0 r) = Some (r_b r);
}.

(** The requests [fl] are in flight; the descriptors [X] are taken by the
    running function; the rest is free. *)
Record vd_ok (d : vdisk) (fl : list req) (X : list Z) : Prop := {
  vo_len : length (v_desc d) = 8%nat ∧ length (v_free d) = 8%nat ∧
           length (v_info_b d) = 8%nat ∧ length (v_ops d) = 8%nat ∧
           length (v_status d) = 8%nat ∧ length (v_avail_ring d) = 8%nat ∧
           length (v_used_ring d) = 8%nat;
  vo_nodup : NoDup (all_idxs fl ++ X);
  vo_range : Forall didx (all_idxs fl ++ X);
  vo_free i : didx i → v_free_at d i = true ↔ i ∉ all_idxs fl ++ X;
  vo_chain r : r ∈ fl → chain d r;
}.

Lemma lookup_default_insert {A} (l : list A) (i j : Z) (x y : A) :
  0 ≤ i < Z.of_nat (length l) → 0 ≤ j →
  default y (<[Z.to_nat i := x]> l !! Z.to_nat j) =
    if decide (i = j) then x else default y (l !! Z.to_nat j).
Proof.
  intros Hi Hj. case_decide as E.
  - subst. by rewrite list_lookup_insert_eq by lia.
  - rewrite list_lookup_insert_ne by lia. done.
Qed.

Lemma all_idxs_elem r fl i : r ∈ fl → i ∈ idxs r → i ∈ all_idxs fl.
Proof.
  induction fl as [|r' fl IH]; intros Hr Hi; [by apply not_elem_of_nil in Hr|].
  simpl. apply elem_of_cons in Hr as [->|Hr]; set_solver.
Qed.

(** A chain uses only its own entries of the tables. *)
Lemma chain_frame d d' r :
  chain d r → (∀ i, i ∈ idxs r → v_desc_at d' i = v_desc_at d i) →
  v_ops_at d' (r_i0 r) = v_ops_at d (r_i0 r) → v_info_at d' (r_i0 r) = v_info_at d (r_i0 r) →
  chain d' r.
Proof.
  intros [H0 H1 H2 H3 H4] Hd Ho Hb.
  split; rewrite ?Ho, ?Hb, ?Hd; try done; unfold idxs; set_solver.
Qed.

Lemma vd_ok_idx d fl X r i :
  vd_ok d fl X → r ∈ fl → i ∈ idxs r → didx i ∧ i ∉ X.
Proof.
  intros H Hr Hi. pose proof (all_idxs_elem r fl i Hr Hi) as He.
  pose proof (vo_range _ _ _ H) as HR. rewrite Forall_forall in HR.
  pose proof (vo_nodup _ _ _ H) as HN. apply NoDup_app in HN as (_ & HN & _).
  split; [apply HR; set_solver|by apply HN].
Qed.

Lemma vd_ok_perm d fl X X' : X ≡ₚ X' → vd_ok d fl X → vd_ok d fl X'.
Proof.
  intros HP [H1 H2 H3 H4 H5]. split; try done.
  - by rewrite <- HP.
  - by rewrite <- HP.
  - intros i Hi. rewrite (H4 i Hi). by rewrite HP.
Qed.

(** ** Taking and giving back a descriptor *)

Section take.
Context (d : vdisk) (fl : list req) (X : list Z) (i : Z).
Context (H : vd_ok d fl X) (Hi : didx i).

Lemma free_at_set b j :
  0 ≤ j → v_free_at (set_free i b d) j = if decide (i = j) then b else v_free_at d j.
Proof using H Hi.
  intros Hj. unfold v_free_at, set_free. simpl. unfold didx, NUM in Hi.
  destruct (vo_len _ _ _ H) as (_ & Hl & _). rewrite lookup_default_insert by lia. done.
Qed.
Lemma desc_at_set x j :
  0 ≤ j → v_desc_at (set_desc i x d) j = if decide (i = j) then x else v_desc_at d j.
Proof using H Hi.
  intros Hj. unfold v_desc_at, set_desc. simpl. unfold didx, NUM in Hi.
  destruct (vo_len _ _ _ H) as (Hl & _). rewrite lookup_default_insert by lia. done.
Qed.

Lemma vd_take : v_free_at d i = true → vd_ok (set_free i false d) fl (i :: X).
Proof using H Hi.
  intros Hf. apply (vo_free _ _ _ H i Hi) in Hf. split.
  - simpl. rewrite length_insert. apply H.
  - rewrite <- Permutation_middle. constructor; [done|apply H].
  - rewrite <- Permutation_middle. constructor; [done|apply H].
  - intros j Hj. rewrite free_at_set by apply Hj. case_decide as E.
    + subst. split; [done|]. set_solver.
    + rewrite (vo_free _ _ _ H j Hj). set_solver.
  - intros r Hr. eapply chain_frame; [by apply H|done..].
Qed.
End take.

Lemma vd_give d fl X i :
  vd_ok d fl (i :: X) →
  vd_ok (set_free i true (set_desc i vdesc0 d)) fl X ∧ v_free_at d i = false ∧ didx i.
Proof.
  intros H. assert (didx i) as Hi.
  { pose proof (vo_range _ _ _ H) as HR. rewrite Forall_forall in HR. apply HR. set_solver. }
  pose proof (vo_nodup _ _ _ H) as HN. rewrite <- Permutation_middle in HN.
  apply NoDup_cons in HN as [Hni HN].
  split; [|split; [|done]].
  - split.
    + simpl. rewrite !length_insert. apply H.
    + done.
    + pose proof (vo_range _ _ _ H) as HR. rewrite <- Permutation_middle in HR. by inversion HR.
    + intros j Hj. assert (v_free_at (set_free i true (set_desc i vdesc0 d)) j =
        if decide (i = j) then true else v_free_at d j) as ->.
      { unfold v_free_at, set_free. simpl. unfold didx, NUM in Hi.
        destruct (vo_len _ _ _ H) as (_ & Hl & _).
        rewrite lookup_default_insert; [done|lia|apply Hj]. }
      case_decide as E; [subst; split; [done|done]|].
      rewrite (vo_free _ _ _ H j Hj). set_solver.
    + intros r Hr. eapply chain_frame; [by apply H| |done|done].
      intros j Hj. change (v_desc_at (set_free i true ?x) j) with (v_desc_at x j).
      destruct (vd_ok_idx _ _ _ _ _ H Hr Hj) as [[??] HX].
      rewrite (desc_at_set d fl (i :: X)) by done. rewrite decide_False; [done|]. set_solver.
  - destruct (v_free_at d i) eqn:E; [|done]. apply (vo_free _ _ _ H i Hi) in E. set_solver.
Qed.

Lemma alloc_desc_run s fl X :
  vd_ok (k_vd s) fl X →
  (∃ i, didx i ∧ v_free_at (k_vd s) i = true ∧
     alloc_desc s = Ok i (upd_vd (set_free i false) s)) ∨
  ((∀ i, didx i → v_free_at (k_vd s) i = false) ∧ alloc_desc s = Ok (-1) s).
Proof.
  intros H. unfold alloc_desc.
  assert (wp (mfind (Z.to_nat NUM) 0 (λ i,
        f ← gets (λ s, v_free_at (k_vd s) i);
        if f : bool then
          modify (upd_vd (set_free i false));;
          mret (Some i)
        else mret None)) (λ r s',
      match r with
      | Some i => didx i ∧ v_free_at (k_vd s) i = true ∧ s' = upd_vd (set_free i false) s
      | None => (∀ i, didx i → v_free_at (k_vd s) i = false) ∧ s' = s
      end) s) as Hw.
  { apply (wp_mfind _ _ _ (λ j s', s' = s ∧ ∀ k, 0 ≤ k < j → v_free_at (k_vd s) k = false)).
    - split; [done|]. intros k Hk. lia.
    - intros j s' Hj [-> Hlow]. apply wp_bind, wp_gets.
      destruct (v_free_at (k_vd s) j) eqn:E.
      + apply wp_bind, wp_modify, wp_ret. split; [|done]. unfold didx, NUM in *. lia.
      + apply wp_ret. split; [done|]. intros k Hk. destruct (decide (k = j)) as [->|]; [done|].
        apply Hlow. lia.
    - intros s' [-> Hlow]. split; [|done]. intros i Hi. apply Hlow. unfold didx, NUM in *. lia. }
  apply wp_inv in Hw as (r & s' & E & Hr). erewrite bind_Ok by exact E.
  destruct r as [i|].
  - left. exists i. destruct Hr as (H1 & H2 & ->). done.
  - right. destruct Hr as [H1 ->]. done.
Qed.

(** The state after descriptors were given back: the waiters are woken. *)
Definition vd_woken (s s' : kst) : Prop :=
  s' = set_k_vd (k_vd s') (woken (Some Ch_disk_free) s).
Definition vd_only (s s' : kst) : Prop := s' = set_k_vd (k_vd s') s.

Lemma free_desc_run s fl X i :
  vd_ok (k_vd s) fl (i :: X) → no_plock s → length (k_procs s) = NPROC →
  ∃ s', free_desc i s = Ok () s' ∧ vd_woken s s' ∧
    k_vd s' = set_free i true (set_desc i vdesc0 (k_vd s)) ∧ vd_ok (k_vd s') fl X.
Proof.
  intros H Hnp Hlen. destruct (vd_give _ _ _ _ H) as (H' & Hf & Hi). unfold didx, NUM in Hi.
  unfold free_desc. destruct (Z.leb_spec NUM i); [unfold NUM in *; lia|].
  rewrite bind_gets, Hf. rewrite bind_modify, bind_modify, wakeup_eq by done.
  eexists. split; [reflexivity|]. split; [done|]. split; [done|]. exact H'.
Qed.

Lemma vd_woken_trans s1 s2 s3 : vd_woken s1 s2 → vd_woken s2 s3 → vd_woken s1 s3.
Proof.
  unfold vd_woken. intros H1 H2. rewrite H2, H1. unfold woken. kst_eq.
  apply list_eq. intros i. rewrite !list_lookup_imap.
  destruct (k_procs s1 !! i) as [x|]; [|done]. simpl. f_equal. unfold wake_proc.
  by repeat (case_decide; simpl in *; try tauto).
Qed.
Lemma vd_woken_frame s s' :
  vd_woken s s' → (no_plock s → no_plock s') ∧ length (k_procs s') = length (k_procs s).
Proof. intros H. rewrite H. split; [done|]. simpl. apply length_imap. Qed.

(** The rings and the status bytes, as the device sees them. *)
Definition same_rings (d d' : vdisk) : Prop :=
  v_used_ring d' = v_used_ring d ∧ v_used_dev d' = v_used_dev d ∧
  v_used_idx d' = v_used_idx d ∧ v_status d' = v_status d ∧
  v_avail_ring d' = v_avail_ring d ∧ v_avail_idx d' = v_avail_idx d.

Lemma same_rings_trans d1 d2 d3 : same_rings d1 d2 → same_rings d2 d3 → same_rings d1 d3.
Proof. unfold same_rings. intuition congruence. Qed.

(** All three or none: without three free descriptors, those taken are given
    back. *)
Lemma alloc3_desc_run s fl :
  vd_ok (k_vd s) fl [] → no_plock s → length (k_procs s) = NPROC →
  (∃ i0 i1 i2 s', alloc3_desc s = Ok (Some (i0, i1, i2)) s' ∧ vd_only s s' ∧
     vd_ok (k_vd s') fl [i2; i1; i0] ∧ same_rings (k_vd s) (k_vd s')) ∨
  (∃ s', alloc3_desc s = Ok None s' ∧ (s' = s ∨ vd_woken s s') ∧ vd_ok (k_vd s') fl [] ∧
     ∃ X, (length X < 3)%nat ∧ ∀ i, didx i → i ∈ all_idxs fl ++ X).
Proof.
  intros H Hnp Hlen. unfold alloc3_desc.
  assert (∀ s X, vd_ok (k_vd s) fl X → (∀ i, didx i → v_free_at (k_vd s) i = false) →
    ∀ i, didx i → i ∈ all_idxs fl ++ X) as Hall.
  { intros s0 X H0 Hf i Hi. destruct (decide (i ∈ all_idxs fl ++ X)) as [|Hn]; [done|].
    apply (vo_free _ _ _ H0 i Hi) in Hn. by rewrite Hf in Hn. }
  assert (∀ i, didx i → (i <? 0) = false) as Hneg.
  { intros i Hi. apply Z.ltb_ge. apply Hi. }
  destruct (alloc_desc_run s fl [] H) as [(i0 & D0 & F0 & E0)|[Hf E0]].
  2:{ right. exists s. rewrite (bind_Ok _ _ _ _ _ E0). split; [done|]. split; [by left|].
      split; [done|]. exists []. split; [simpl; lia|]. by apply (Hall s). }
  rewrite (bind_Ok _ _ _ _ _ E0), (Hneg i0 D0). set (s0 := upd_vd (set_free i0 false) s).
  pose proof (vd_take _ _ _ _ H D0 F0) as H0. change (set_free i0 false (k_vd s)) with (k_vd s0) in H0.
  destruct (alloc_desc_run s0 fl [i0] H0) as [(i1 & D1 & F1 & E1)|[Hf E1]].
  2:{ right. rewrite (bind_Ok _ _ _ _ _ E1). cbn [Z.ltb Z.compare].
      destruct (free_desc_run s0 fl [] i0 H0 Hnp Hlen) as (s' & E & W & _ & H').
      exists s'. rewrite (bind_Ok _ _ _ _ _ E). split; [done|]. split; [by right|].
      split; [done|]. exists [i0]. split; [simpl; lia|]. by apply (Hall s0). }
  rewrite (bind_Ok _ _ _ _ _ E1), (Hneg i1 D1). set (s1 := upd_vd (set_free i1 false) s0).
  pose proof (vd_take _ _ _ _ H0 D1 F1) as H1. change (set_free i1 false (k_vd s0)) with (k_vd s1) in H1.
  destruct (alloc_desc_run s1 fl [i1; i0] H1) as [(i2 & D2 & F2 & E2)|[Hf E2]].
  2:{ right. rewrite (bind_Ok _ _ _ _ _ E2). cbn [Z.ltb Z.compare].
      assert (vd_ok (k_vd s1) fl (i0 :: [i1])) as H1'.
      { eapply vd_ok_perm; [|exact H1]. apply Permutation_swap. }
      destruct (free_desc_run s1 fl [i1] i0 H1' Hnp Hlen) as (s2 & E & W & _ & H2).
      destruct (vd_woken_frame _ _ W) as [Hnp2 Hlen2].
      rewrite (bind_Ok _ _ _ _ _ E).
      destruct (free_desc_run s2 fl [] i1 H2 (Hnp2 Hnp) (eq_trans Hlen2 Hlen))
        as (s3 & E' & W' & _ & H3).
      exists s3. rewrite (bind_Ok _ _ _ _ _ E'). split; [done|].
      split; [right; by eapply (vd_woken_trans s1)|]. split; [done|].
      exists [i1; i0]. split; [simpl; lia|]. by apply (Hall s1). }
  left. rewrite (bind_Ok _ _ _ _ _ E2), (Hneg i2 D2).
  eexists i0, i1, i2, _. split; [reflexivity|]. split; [done|].
  split; [by apply (vd_take _ _ _ _ H1 D2 F2)|done].
Qed.

(** ** Formatting a request *)

Lemma mod_NUM z : 0 ≤ z mod NUM < 8.
Proof. apply Z.mod_pos_bound. done. Qed.

Lemma format_request_run s fl b write i0 i1 i2 sector :
  vd_ok (k_vd s) fl [i2; i1; i0] →
  let r := Req i0 i1 i2 b write sector in
  ∃ s', format_request b write i0 i1 i2 sector s = Ok () s' ∧
    s' = set_k_vd (k_vd s') (upd_buf b (set_b_disk true) s) ∧
    vd_ok (k_vd s') (r :: fl) [] ∧
    v_avail_ring (k_vd s') !! cell NUM (v_avail_idx (k_vd s)) = Some i0 ∧
    v_avail_idx (k_vd s') = u16 (v_avail_idx (k_vd s) + 1) ∧
    v_mmio (k_vd s') !! VIRTIO_MMIO_QUEUE_NOTIFY = Some 0 ∧
    v_used_ring (k_vd s') = v_used_ring (k_vd s) ∧ v_used_dev (k_vd s') = v_used_dev (k_vd s) ∧
    v_used_idx (k_vd s') = v_used_idx (k_vd s) ∧
    v_status (k_vd s') = <[Z.to_nat i0 := 0xff]> (v_status (k_vd s)).
Proof.
  intros H r. unfold format_request, wreg. msteps.
  eexists. split; [reflexivity|]. split; [done|].
  destruct (vo_len _ _ _ H) as (L1 & L2 & L3 & L4 & L5 & L6 & L7).
  pose proof (vo_range _ _ _ H) as HR. rewrite Forall_app in HR. destruct HR as [HRf HR].
  apply Forall_cons in HR as [R2 HR]. apply Forall_cons in HR as [R1 HR].
  apply Forall_cons in HR as [R0 _]. unfold didx, NUM in R0, R1, R2.
  pose proof (vo_nodup _ _ _ H) as HN. pose proof HN as HN'. apply NoDup_app in HN' as (_ & Hd & HX).
  assert (i2 ≠ i1 ∧ i2 ≠ i0 ∧ i1 ≠ i0) as (N21 & N20 & N10).
  { apply NoDup_cons in HX as [Ha HX]. apply NoDup_cons in HX as [Hb _]. set_solver. }
  split; [|split].
  - split.
    + simpl. rewrite !length_insert. done.
    + rewrite app_nil_r. simpl. eapply NoDup_Permutation_proper; [|exact HN].
      change (i0 :: i1 :: i2 :: all_idxs fl) with ([i0; i1; i2] ++ all_idxs fl).
      rewrite Permutation_app_comm. apply Permutation_app_head, (Permutation_rev [i0; i1; i2]).
    + rewrite app_nil_r. simpl. repeat constructor; try done; unfold NUM; lia.
    + intros j Hj. change (v_free_at _ j) with (v_free_at (k_vd s) j).
      rewrite (vo_free _ _ _ H j Hj). simpl. set_solver.
    + intros x Hx. apply elem_of_cons in Hx as [->|Hx].
      * split; unfold v_desc_at, v_ops_at, v_info_at; simpl;
          repeat (rewrite lookup_default_insert by (rewrite ?length_insert; lia));
          repeat first [rewrite decide_True by congruence|rewrite decide_False by congruence]; done.
      * assert (∀ j, j ∈ idxs x → 0 ≤ j ∧ j ≠ i0 ∧ j ≠ i1 ∧ j ≠ i2) as Hj.
        { intros j Hj. destruct (vd_ok_idx _ _ _ _ _ H Hx Hj) as [[??] ?]. set_solver. }
        apply (chain_frame (k_vd s)); [by apply H| | |].
        -- intros j Hjx. destruct (Hj j Hjx) as (?&?&?&?). unfold v_desc_at. simpl.
           repeat (rewrite lookup_default_insert by (rewrite ?length_insert; lia)).
           by rewrite !decide_False.
        -- destruct (Hj (r_i0 x)) as (?&?&?&?); [unfold idxs; set_solver|].
           unfold v_ops_at. simpl. rewrite lookup_default_insert by (rewrite ?length_insert; lia).
           by rewrite decide_False.
        -- destruct (Hj (r_i0 x)) as (?&?&?&?); [unfold idxs; set_solver|].
           unfold v_info_at. simpl. rewrite lookup_default_insert by (rewrite ?length_insert; lia).
           by rewrite decide_False.
  - simpl. apply list_lookup_insert_eq. unfold cell. pose proof (mod_NUM (v_avail_idx (k_vd s))). lia.
  - split; [done|]. split; [|done]. simpl. by rewrite lookup_insert_eq.
Qed.

(** ** The device *)

(** Moving the block: what [disk_rw] does. *)
Definition transfer (b : nat) (write : bool) (blk : Z) (s : kst) : kst :=
  if write then
    let data := b_data (buf_of s b) in
    set_k_hist (k_hist s ++ [(blk, data)]) (set_k_disk (<[blk := data]> (k_disk s)) s)
  else upd_buf b (set_b_data (disk_block (k_disk s) blk)) s.
Lemma disk_rw_transfer b write s :
  disk_rw b write s = Ok () (transfer b write (b_blockno (buf_of s b)) s).
Proof. by destruct write. Qed.

(** Reporting the chain at [head] as used. *)
Definition report (head j : Z) (d : vdisk) : vdisk :=
  set_v_used_dev (u16 (v_used_dev d + 1))
    (set_v_used_ring (<[cell NUM (v_used_dev d) := head]> (v_used_ring d))
       (set_v_status (<[Z.to_nat j := 0]> (v_status d)) d)).

(** Serving the chain at [head], a request header, one block of data and a
    status byte; nothing is done for a chain of another shape. *)
Definition dev_serve (head : Z) (s : kst) : option kst :=
  let d := k_vd s in
  let d0 := v_desc_at d head in
  let d1 := v_desc_at d (vd_next d0) in
  let d2 := v_desc_at d (vd_next d1) in
  match vd_addr d0, vd_addr d1, vd_addr d2 with
  | VA_req k, VA_data b, VA_status j =>
    let rq := v_ops_at d k in
    let out := rq_type rq =? VIRTIO_BLK_T_OUT in
    if (vd_len d0 =? 16) && (vd_len d1 =? BSIZE) && (vd_len d2 =? 1)
       && (vd_flags d0 =? VRING_DESC_F_NEXT)
       && (vd_flags d1 =? VRING_DESC_F_NEXT + (if out then 0 else VRING_DESC_F_WRITE))
       && (vd_flags d2 =? VRING_DESC_F_WRITE)
       && (rq_sector rq mod (BSIZE / 512) =? 0)
       && (out || (rq_type rq =? VIRTIO_BLK_T_IN))
    then Some (upd_vd (report head j) (transfer b out (rq_sector rq / (BSIZE / 512)) s))
    else None
  | _, _, _ => None
  end.

Lemma serve_chain s r blk :
  chain (k_vd s) r → r_sector r = blk * (BSIZE / 512) →
  dev_serve (r_i0 r) s =
    Some (upd_vd (report (r_i0 r) (r_i0 r)) (transfer (r_b r) (r_write r) blk s)).
Proof.
  intros [H0 H1 H2 H3 H4] Hs. unfold dev_serve. rewrite H0. cbn [vd_addr vd_next vd_len vd_flags].
  rewrite H1. cbn [vd_addr vd_next vd_len vd_flags]. rewrite H2.
  cbn [vd_addr vd_next vd_len vd_flags]. rewrite H3. cbn [rq_type rq_sector].
  change (BSIZE / 512) with 2 in *. rewrite Hs, Z.mod_mul, Z.div_mul by lia.
  destruct (r_write r); reflexivity.
Qed.

(** The next request: once queue 0 is notified and the available index has
    moved past [last], the entries taken so far, the chain is the one the
    available ring names at [last]. *)
Definition dev_next (last : Z) (d : vdisk) : option Z :=
  match v_mmio d !! VIRTIO_MMIO_QUEUE_NOTIFY with
  | Some 0 => if u16 (v_avail_idx d - last) =? 0 then None
              else v_avail_ring d !! cell NUM last
  | _ => None
  end.
Definition dev_poll (last : Z) (s : kst) : option kst :=
  match dev_next last (k_vd s) with Some head => dev_serve head s | None => None end.
(** What the driver relies on: the device serves a well-formed next request. *)
Class VirtioDevice (dev : Z → kst → option kst) : Prop :=
  dev_serves last s s' : dev_poll last s = Some s' → dev last s = Some s'.
#[export] Instance dev_poll_device : VirtioDevice dev_poll.
Proof. by intros last s s'. Qed.

Lemma dev_poll_chain last s r blk :
  v_mmio (k_vd s) !! VIRTIO_MMIO_QUEUE_NOTIFY = Some 0 → v_avail_idx (k_vd s) = u16 (last + 1) →
  v_avail_ring (k_vd s) !! cell NUM last = Some (r_i0 r) →
  chain (k_vd s) r → r_sector r = blk * (BSIZE / 512) →
  dev_poll last s = Some (upd_vd (report (r_i0 r) (r_i0 r)) (transfer (r_b r) (r_write r) blk s)).
Proof.
  intros Hn Hi Hr Hc Hs. unfold dev_poll, dev_next. rewrite Hn, Hi.
  assert (u16 (u16 (last + 1) - last) = 1) as ->.
  { unfold u16. rewrite Zminus_mod_idemp_l. by replace (last + 1 - last) with 1 by lia. }
  cbn [Z.eqb]. rewrite Hr. by apply serve_chain.
Qed.

(** ** Completions *)

(** The chains reported and not yet seen by the driver. *)
Record used_ok (d : vdisk) (fl : list req) (pend : list req) : Prop := {
  us_ring : ring NUM (v_used_ring d) (v_used_idx d) (r_i0 <$> pend);
  us_idx : 0 ≤ v_used_idx d < 2 ^ 16;
  us_dev : v_used_dev d = u16 (v_used_idx d + Z.of_nat (length pend));
  us_pend r : r ∈ pend → r ∈ fl;
  us_status r : r ∈ pend → v_status d !! Z.to_nat (r_i0 r) = Some 0;
}.
Lemma NUM_pos : 0 < NUM.
Proof. done. Qed.
Lemma u16_NUM z : u16 z mod NUM = z mod NUM.
Proof.
  unfold u16, NUM. rewrite (Z.mod_eq z (2 ^ 16)) by lia.
  replace (z - 2 ^ 16 * (z / 2 ^ 16)) with (z + (- 2 ^ 13 * (z / 2 ^ 16)) * 8) by lia.
  by rewrite Z.mod_add by lia.
Qed.
Lemma u16_add a b : u16 (u16 a + b) = u16 (a + b).
Proof. unfold u16. by rewrite Z.add_mod_idemp_l by lia. Qed.
Lemma u16_inj a b c :
  0 ≤ b < 2 ^ 16 → 0 ≤ c < 2 ^ 16 → u16 (a + b) = u16 (a + c) → b = c.
Proof.
  intros Hb Hc E. assert (∀ b, 0 ≤ b < 2 ^ 16 → u16 (u16 (a + b) - a) = b) as H.
  { intros x Hx. unfold u16. rewrite Zminus_mod_idemp_l.
    replace (a + x - a) with x by lia. by apply Z.mod_small. }
  by rewrite <- (H b), E, H.
Qed.

(** The device reports a request that it has not reported yet. *)
Lemma used_report d fl pend r :
  vd_ok d fl [] → used_ok d fl pend → r ∈ fl → (length pend < 8)%nat →
  vd_ok (report (r_i0 r) (r_i0 r) d) fl [] ∧ used_ok (report (r_i0 r) (r_i0 r) d) fl (pend ++ [r]).
Proof.
  intros Hv [H1 H2 H3 H4 H5] Hr Hlt. destruct (vo_len _ _ _ Hv) as (L1 & L2 & L3 & L4 & L5 & L6 & L7).
  assert (0 ≤ r_i0 r < 8) as Hi.
  { apply (vd_ok_idx _ _ _ _ _ Hv Hr). unfold idxs. set_solver. }
  split.
  - destruct Hv as [V1 V2 V3 V4 V5]. split; try done.
    + simpl. rewrite !length_insert. done.
    + intros x Hx. eapply chain_frame; [by apply V5|done..].
  - split; simpl; try done.
    + rewrite fmap_app. apply ring_put; [done|done|rewrite length_fmap; unfold NUM; lia|].
      rewrite H3, u16_NUM, length_fmap. done.
    + rewrite H3, u16_add, length_app. f_equal. simpl. lia.
    + intros x. rewrite elem_of_app, list_elem_of_singleton. naive_solver.
    + intros x Hx. rewrite elem_of_app, list_elem_of_singleton in Hx.
      destruct (decide (r_i0 x = r_i0 r)) as [->|Hne].
      * rewrite list_lookup_insert_eq by lia. done.
      * destruct Hx as [Hx| ->]; [|done]. 
        assert (0 ≤ r_i0 x < 8) as Hix.
        { apply (vd_ok_idx _ _ _ _ _ Hv (H4 x Hx)). unfold idxs. set_solver. }
        rewrite list_lookup_insert_ne by lia. by apply H5.
Qed.

(** What the interrupt handler does to the buffers and the processes. *)
Fixpoint finish (pend : list req) (s : kst) : kst :=
  match pend with
  | [] => s
  | r :: pend =>
    finish pend (woken (Some (Ch_buf (r_b r))) (upd_buf (r_b r) (set_b_disk false) s))
  end.
Lemma finish_vd pend d s : finish pend (set_k_vd d s) = set_k_vd d (finish pend s).
Proof. revert s. induction pend as [|r pend IH]; intros s; [done|]. simpl. by rewrite <- IH. Qed.
Lemma finish_frame pend s :
  k_held (finish pend s) = k_held s ∧ length (k_procs (finish pend s)) = length (k_procs s) ∧
  k_vd (finish pend s) = k_vd s.
Proof.
  revert s. induction pend as [|r pend IH]; intros s; [done|]. simpl.
  destruct (IH (woken (Some (Ch_buf (r_b r))) (upd_buf (r_b r) (set_b_disk false) s)))
    as (-> & -> & ->). simpl. by rewrite length_imap.
Qed.

Definition intr_body : unit → K (unit + unit) := λ _ : unit,
    d ← gets k_vd;
    if v_used_idx d =? v_used_dev d then mret (inr ())
    else
      intr_one (default 0 (v_used_ring d !! Z.to_nat (v_used_idx d mod NUM)));;
      mret (inl ()).

Lemma used_next d fl r pend :
  used_ok d fl (r :: pend) →
  used_ok (set_v_used_idx (u16 (v_used_idx d + 1)) d) fl pend.
Proof.
  intros [H1 H2 H3 H4 H5]. split; simpl.
  - apply (ring_start _ NUM_pos _ (v_used_idx d + 1)); [by rewrite u16_NUM|].
    by apply (ring_tail _ NUM_pos _ _ (r_i0 r)).
  - apply Z.mod_pos_bound. lia.
  - rewrite H3, u16_add. f_equal. simpl. lia.
  - intros x Hx. apply H4. set_solver.
  - intros x Hx. apply H5. set_solver.
Qed.

Lemma intr_loop fl pend : ∀ fuel s,
  vd_ok (k_vd s) fl [] → used_ok (k_vd s) fl pend → (length pend < fuel)%nat →
  no_plock s → length (k_procs s) = NPROC →
  ∃ s', mloop fuel intr_body () s = Ok () s' ∧ s' = set_k_vd (k_vd s') (finish pend s) ∧
    vd_ok (k_vd s') fl [] ∧ used_ok (k_vd s') fl [].
Proof.
  induction pend as [|r pend IH]; intros fuel s Hv Hu Hf Hnp Hlen; (destruct fuel as [|fuel]; [lia|]).
  { exists s. split; [|split; [by destruct s|done]]. apply mloop_done. unfold intr_body. rewrite bind_gets.
    rewrite (us_dev _ _ _ Hu). simpl. rewrite Z.add_0_r.
    unfold u16. rewrite Z.mod_small by apply Hu. by rewrite Z.eqb_refl. }
  pose proof (ring_cap _ _ _ _ (us_ring _ _ _ Hu)) as Hcap. rewrite length_fmap in Hcap.
  unfold NUM in Hcap.
  pose proof (us_pend _ _ _ Hu r ltac:(set_solver)) as Hr.
  set (s1 := upd_vd (λ d, set_v_used_idx (u16 (v_used_idx d + 1)) d)
    (woken (Some (Ch_buf (r_b r))) (upd_buf (r_b r) (set_b_disk false) s))).
  destruct (IH fuel s1) as (s' & E & Es & Hv' & Hu').
  { destruct Hv as [V1 V2 V3 V4 V5]. split; try done.
    intros x Hx. eapply chain_frame; [by apply V5|done..]. }
  { apply (used_next _ _ _ _ Hu). }
  { simpl in Hf. lia. } { done. } { simpl. by rewrite length_imap. }
  exists s'. split; [|split; [|done]].
  - rewrite (mloop_next _ _ _ _ () s1); [done|]. unfold intr_body. rewrite bind_gets.
    destruct (Z.eqb_spec (v_used_idx (k_vd s)) (v_used_dev (k_vd s))) as [Eq|_].
    { exfalso. rewrite (us_dev _ _ _ Hu) in Eq.
      assert (u16 (v_used_idx (k_vd s) + 0) = u16 (v_used_idx (k_vd s) + Z.of_nat (length (r :: pend)))) as E2.
      { rewrite <- Eq, Z.add_0_r. unfold u16. apply Z.mod_small, Hu. }
      apply u16_inj in E2; simpl length in *; lia. }
    pose proof (ring_head _ NUM_pos _ _ _ _ (us_ring _ _ _ Hu)) as Eh. unfold cell in Eh.
    rewrite Eh. cbn [default from_option id]. unfold intr_one.
    erewrite bind_Ok; [reflexivity|]. rewrite bind_gets.
    rewrite (us_status _ _ _ Hu r) by set_solver. cbn [default from_option id Z.eqb negb].
    rewrite bind_gets. pose proof (ch_b _ _ (vo_chain _ _ _ Hv r Hr)) as Eb. unfold v_info_at in Eb.
    rewrite Eb. rewrite bind_modify, bind_wakeup; [|done|done]. done.
  - rewrite Es. simpl. unfold s1. by rewrite <- !finish_vd.
Qed.

(** ** Giving back a chain *)

Lemma all_idxs_perm fl fl' : fl ≡ₚ fl' → all_idxs fl ≡ₚ all_idxs fl'.
Proof.
  induction 1 as [|r fl fl' _ IH|r r' fl|fl1 fl2 fl3 _ IH1 _ IH2]; cbn [all_idxs].
  - done.
  - by rewrite IH.
  - rewrite !app_assoc. by rewrite (Permutation_app_comm (idxs r')).
  - by rewrite IH1.
Qed.
Lemma vd_ok_fl_perm d fl fl' X : fl ≡ₚ fl' → vd_ok d fl X → vd_ok d fl' X.
Proof.
  intros HP [H1 H2 H3 H4 H5]. pose proof (all_idxs_perm _ _ HP) as HI. split; try done.
  - by rewrite <- HI.
  - by rewrite <- HI.
  - intros i Hi. rewrite (H4 i Hi). by rewrite HI.
  - intros r Hr. apply H5. by rewrite HP.
Qed.

Definition forget (i : Z) (d : vdisk) : vdisk :=
  set_v_info_b (<[Z.to_nat i := None]> (v_info_b d)) d.
Lemma vd_forget d r fl :
  vd_ok d (r :: fl) [] → vd_ok (forget (r_i0 r) d) fl (idxs r) ∧
  ∀ i, v_desc_at (forget (r_i0 r) d) i = v_desc_at d i.
Proof.
  intros H. pose proof H as [V1 V2 V3 V4 V5]. split; [|done].
  assert (idxs r ++ all_idxs fl ≡ₚ all_idxs fl ++ idxs r) as HP by apply Permutation_app_comm.
  rewrite app_nil_r in V2, V3. cbn [all_idxs] in V2, V3, V4. split.
  - simpl. rewrite length_insert. done.
  - by rewrite <- HP.
  - by rewrite <- HP.
  - intros i Hi. change (v_free_at (forget (r_i0 r) d) i) with (v_free_at d i).
    rewrite (V4 i Hi), app_nil_r. by rewrite HP.
  - intros x Hx. eapply chain_frame; [apply V5; set_solver|done|done|].
    unfold v_info_at, forget. simpl.
    assert (0 ≤ r_i0 r < 8) as Hr.
    { apply (vd_ok_idx _ _ _ r _ H); [set_solver|]. unfold idxs. set_solver. }
    assert (0 ≤ r_i0 x < 8) as Hx0.
    { apply (vd_ok_idx _ _ _ x _ H); [set_solver|]. unfold idxs. set_solver. }
    rewrite lookup_default_insert by lia. rewrite decide_False; [done|].
    apply NoDup_app in V2 as (_ & Hd & _). intros E. apply (Hd (r_i0 r)); [unfold idxs; set_solver|].
    rewrite E. eapply all_idxs_elem; [exact Hx|]. unfold idxs. set_solver.
Qed.

Definition chain_body : Z → K (Z + unit) := λ i,
    x ← gets (λ s, v_desc_at (k_vd s) i);
    free_desc i;;
    if negb (Z.land (vd_flags x) VRING_DESC_F_NEXT =? 0) then mret (inl (vd_next x))
    else mret (inr ()).

Lemma chain_step s fl X i a l f n :
  vd_ok (k_vd s) fl (i :: X) → no_plock s → length (k_procs s) = NPROC →
  v_desc_at (k_vd s) i = Vdesc a l f n →
  ∃ s', chain_body i s = Ok (if negb (Z.land f VRING_DESC_F_NEXT =? 0) then inl n else inr ()) s' ∧
    vd_woken s s' ∧ vd_ok (k_vd s') fl X ∧
    (∀ j, 0 ≤ j → j ≠ i → v_desc_at (k_vd s') j = v_desc_at (k_vd s) j) ∧
    same_rings (k_vd s) (k_vd s').
Proof.
  intros H Hnp Hlen Ed. destruct (free_desc_run s fl X i H Hnp Hlen) as (s' & E & W & Evd & H').
  exists s'. unfold chain_body. rewrite bind_gets, Ed, (bind_Ok _ _ _ _ _ E).
  cbn [vd_flags vd_next]. split; [by destruct (negb _)|]. split; [done|]. split; [done|].
  rewrite Evd. split; [|done]. intros j Hj Hne.
  change (v_desc_at (set_free i true ?x) j) with (v_desc_at x j).
  pose proof (vo_range _ _ _ H) as HR. rewrite Forall_forall in HR.
  rewrite (desc_at_set _ fl (i :: X)); [by rewrite decide_False|done|apply HR; set_solver|done].
Qed.

Lemma free_chain_run s r fl :
  vd_ok (k_vd s) (r :: fl) [] → no_plock s → length (k_procs s) = NPROC →
  ∃ s', free_chain (r_i0 r) (upd_vd (forget (r_i0 r)) s) = Ok () s' ∧ vd_woken s s' ∧
    vd_ok (k_vd s') fl [] ∧ same_rings (k_vd s) (k_vd s').
Proof.
  intros H Hnp Hlen. destruct (vd_forget _ _ _ H) as [H0 Hd].
  pose proof (vo_chain _ _ _ H r ltac:(set_solver)) as [C0 C1 C2 _ _].
  pose proof (vo_nodup _ _ _ H0) as HN. apply NoDup_app in HN as (_ & _ & HN).
  unfold idxs in HN. apply NoDup_cons in HN as [N0 HN]. apply NoDup_cons in HN as [N1 _].
  pose proof (vo_range _ _ _ H0) as HR. rewrite Forall_app in HR. destruct HR as [_ HR].
  apply Forall_cons in HR as [R0 HR]. apply Forall_cons in HR as [R1 HR].
  apply Forall_cons in HR as [R2 _]. unfold didx in R0, R1, R2.
  set (s0 := upd_vd (forget (r_i0 r)) s).
  destruct (chain_step s0 fl [r_i1 r; r_i2 r] (r_i0 r) _ _ _ _ H0 Hnp Hlen C0)
    as (s1 & E1 & W1 & H1 & D1 & U1). destruct (vd_woken_frame _ _ W1) as [Np1 L1].
  destruct (chain_step s1 fl [r_i2 r] (r_i1 r) (VA_data (r_b r)) BSIZE
    (Z.lor (if r_write r then 0 else VRING_DESC_F_WRITE) VRING_DESC_F_NEXT) (r_i2 r) H1
    (Np1 Hnp) (eq_trans L1 Hlen)) as (s2 & E2 & W2 & H2 & D2 & U2).
  { rewrite D1 by (lia || set_solver). exact C1. }
  destruct (vd_woken_frame _ _ W2) as [Np2 L2].
  destruct (chain_step s2 fl [] (r_i2 r) (VA_status (r_i0 r)) 1 VRING_DESC_F_WRITE 0 H2
    (Np2 (Np1 Hnp)) (eq_trans L2 (eq_trans L1 Hlen))) as (s3 & E3 & W3 & H3 & D3 & U3).
  { rewrite D2, D1 by (lia || set_solver). exact C2. }
  exists s3. split.
  - change (free_chain (r_i0 r) s0) with (mloop 9 chain_body (r_i0 r) s0).
    rewrite (mloop_next _ _ _ _ _ _ E1).
    rewrite (mloop_next _ _ _ _ (r_i2 r) s2) by (rewrite E2; by destruct (r_write r)).
    by apply mloop_done.
  - split; [|split; [done|]].
    + assert (vd_woken s0 s3) as W by (eapply vd_woken_trans; [exact W1|by eapply vd_woken_trans]).
      unfold vd_woken in *. rewrite W. done.
    + apply (same_rings_trans _ _ _ U1), (same_rings_trans _ _ _ U2), U3.
Qed.
