(* ===== verification/VirtioRw.v ===== *)
(** * One block through the disk driver

    [virtio_disk_rw] submits a request and sleeps; the device serves it, in
    any order with others; [virtio_disk_intr] wakes the caller, which gives
    the descriptors back.  Together they move the block as [disk_rw] does. *)

From stdpp Require Import options.
From S2P Require Import Prelude CString Ring State Sched Sleeplock Bio Virtio VirtioSpec.
#[local] Open Scope Z_scope.

Lemma length_all_idxs fl : length (all_idxs fl) = (3 * length fl)%nat.
Proof. induction fl as [|r fl IH]; [done|]. cbn [all_idxs]. rewrite length_app, IH. simpl. lia. Qed.

(** With at most one request in flight there are three free descriptors. *)
Lemma alloc3_succeeds s fl :
  vd_ok (k_vd s) fl [] → (length fl ≤ 1)%nat → no_plock s → length (k_procs s) = NPROC →
  ∃ i0 i1 i2 s', alloc3_desc s = Ok (Some (i0, i1, i2)) s' ∧ vd_only s s' ∧
    vd_ok (k_vd s') fl [i2; i1; i0] ∧ same_rings (k_vd s) (k_vd s').
Proof.
  intros H Hl Hnp Hlen. destruct (alloc3_desc_run s fl H Hnp Hlen) as [|(s' & _ & _ & _ & X & HX & Hall)];
    [done|]. exfalso.
  assert (seqZ 0 8 ⊆+ all_idxs fl ++ X) as Hsub.
  { apply NoDup_submseteq; [apply NoDup_seqZ|]. intros i Hi%elem_of_seqZ. apply Hall.
    unfold didx, NUM. lia. }
  apply submseteq_length in Hsub. rewrite length_app, length_all_idxs in Hsub.
  change (length (seqZ 0 8)) with 8%nat in Hsub. lia.
Qed.

(** Requests in flight keep their place in the used ring. *)
Lemma used_frame d d' fl pend r :
  used_ok d fl pend → vd_ok d' (r :: fl) [] →
  v_used_ring d' = v_used_ring d → v_used_dev d' = v_used_dev d → v_used_idx d' = v_used_idx d →
  v_status d' = <[Z.to_nat (r_i0 r) := 0xff]> (v_status d) → used_ok d' (r :: fl) pend.
Proof.
  intros [H1 H2 H3 H4 H5] Hv E1 E2 E3 E4. split; rewrite ?E1, ?E2, ?E3; try done.
  - intros x Hx. apply elem_of_cons. right. by apply H4.
  - intros x Hx. rewrite E4, list_lookup_insert_ne; [by apply H5|].
    pose proof (vo_nodup _ _ _ Hv) as HN. rewrite app_nil_r in HN. cbn [all_idxs] in HN.
    apply NoDup_app in HN as (_ & HN & _).
    assert (r_i0 x ≠ r_i0 r) as Hne.
    { intros E. apply (HN (r_i0 r)); [unfold idxs; set_solver|]. rewrite <- E.
      eapply all_idxs_elem; [by apply H4|unfold idxs; set_solver]. }
    assert (0 ≤ r_i0 r) as Hr.
    { apply (vd_ok_idx _ _ _ r _ Hv); [set_solver|unfold idxs; set_solver]. }
    assert (0 ≤ r_i0 x) as Hx0.
    { apply (vd_ok_idx _ _ _ x _ Hv); [|unfold idxs; set_solver].
      apply elem_of_cons. right. by apply H4. }
    lia.
Qed.

(** The rest of [virtio_disk_rw] once it is woken. *)
Definition rw_rest (b : nat) (i0 : Z) : K unit :=
  modify (upd_vd (λ d, set_v_info_b (<[Z.to_nat i0 := None]> (v_info_b d)) d));;
  free_chain i0;;
  release LK_vdisk.

Lemma rw_rest_run b r fl s :
  vd_ok (k_vd s) (r :: fl) [] → k_held s = [LK_vdisk] → length (k_procs s) = NPROC →
  ∃ s', rw_rest b (r_i0 r) s = Ok () s' ∧
    s' = set_k_vd (k_vd s') (woken (Some Ch_disk_free) (set_k_held [] s)) ∧
    vd_ok (k_vd s') fl [] ∧ same_rings (k_vd s) (k_vd s').
Proof.
  intros H Hh Hlen.
  destruct (free_chain_run s r fl H) as (s1 & E & W & H' & U);
    [intros i; rewrite Hh; set_solver|done|].
  unfold rw_rest. rewrite bind_modify. erewrite bind_Ok by exact E.
  rewrite (release_top _ []) by (rewrite W; done).
  eexists. split; [reflexivity|]. split; [|done]. unfold vd_woken in W. rewrite W. done.
Qed.

Lemma buf_of_alter b f s :
  (b < length (k_bufs s))%nat → buf_of (upd_buf b f s) b = f (buf_of s b).
Proof.
  intros Hb. unfold buf_of. simpl. rewrite list_lookup_alter_eq.
  by destruct (lookup_lt_is_Some_2 _ _ Hb) as [x ->].
Qed.

(** The device can find the request [r]: it is the entry [last] of the
    available ring, the index is past it and the queue has been notified. *)
Record published (last : Z) (r : req) (d : vdisk) : Prop := {
  pb_ring : v_avail_ring d !! cell NUM last = Some (r_i0 r);
  pb_idx : v_avail_idx d = u16 (last + 1);
  pb_notify : v_mmio d !! VIRTIO_MMIO_QUEUE_NOTIFY = Some 0;
}.

(** Submitting a request. *)
Lemma submit_run b write s p fl pend :
  vd_ok (k_vd s) fl [] → used_ok (k_vd s) fl pend → (length fl ≤ 1)%nat → running p s →
  (b < length (k_bufs s))%nat → 0 ≤ b_blockno (buf_of s b) < 2 ^ 31 →
  ∃ r s1 k, virtio_disk_rw b write s = Yield (asleep p (Ch_buf b) s1) k ∧
    s1 = set_k_vd (k_vd s1) (upd_buf b (set_b_disk true) (set_k_held [LK_vdisk] s)) ∧
    r_b r = b ∧ r_write r = write ∧ r_sector r = b_blockno (buf_of s b) * (BSIZE / 512) ∧
    vd_ok (k_vd s1) (r :: fl) [] ∧ used_ok (k_vd s1) (r :: fl) pend ∧
    published (v_avail_idx (k_vd s)) r (k_vd s1) ∧
    ∀ s2, k_held s2 = [LK_proc p] → b_disk (buf_of s2 b) = false →
      k s2 = rw_rest b (r_i0 r) (awoken p LK_vdisk s2).
Proof.
  intros Hv Hu Hfl [Hc Hh Hl Hp] Hb Hbn. unfold virtio_disk_rw. rewrite bind_gets.
  rewrite u32_id by (change (BSIZE / 512) with 2; lia).
  rewrite bind_acquire by (rewrite Hh; set_solver). rewrite Hh.
  set (s0 := set_k_held [LK_vdisk] s).
  destruct (alloc3_succeeds s0 fl Hv Hfl) as (i0 & i1 & i2 & s01 & E & HV & Hok & HU);
    [intros i; simpl; set_solver|done|].
  unfold wait_desc. change WAKEUPS with (S (S 62)). generalize 62%nat as n. intros n.
  rewrite (bind_Ok _ _ s0 (i0, i1, i2) s01)
    by (apply mloop_done; by rewrite (bind_Ok _ _ _ _ _ E)).
  set (sector := b_blockno (buf_of s b) * (BSIZE / 512)).
  destruct (format_request_run s01 fl b write i0 i1 i2 sector Hok)
    as (s1 & E1 & Es1 & Hv1 & P1 & P2 & P3 & U1 & U2 & U3 & U4).
  rewrite (bind_Ok _ _ _ _ _ E1).
  set (r := Req i0 i1 i2 b write sector) in *.
  assert (s1 = set_k_vd (k_vd s1) (upd_buf b (set_b_disk true) s0)) as Es.
  { rewrite Es1, HV. done. }
  assert (used_ok (k_vd s01) fl pend) as Hu01.
  { destruct HU as (A1 & A2 & A3 & A4 & _). destruct Hu as [B1 B2 B3 B4 B5].
    split; rewrite ?A1, ?A2, ?A3, ?A4; done. }
  destruct (sleep_yields (Ch_buf b) LK_vdisk p s1) as (k & Ey & Hk);
    [rewrite Es; done|rewrite Es; simpl; lia|rewrite Es; done|done|].
  exists r, s1. eexists. split.
  { apply bind_yields. unfold wait_disk. apply mloop_yields. rewrite bind_gets.
    assert (b_disk (buf_of s1 b) = true) as ->.
    { rewrite Es. change (buf_of (set_k_vd _ ?x) b) with (buf_of x b). by rewrite buf_of_alter. }
    by apply bind_yields. }
  split; [done|]. do 3 (split; [done|]). split; [done|]. split; [by eapply used_frame|].
  split.
  { destruct HU as (_ & _ & _ & _ & _ & A6). change (k_vd s0) with (k_vd s) in A6. rewrite A6 in P1, P2. by split. }
  intros s2 Hs2 Hd2. cbv beta. rewrite Hk by done. cbn [res_bind]. rewrite ret_Ok. cbn [res_bind].
  rewrite (mloop_done _ _ _ _ () (awoken p LK_vdisk s2)); [done|].
  rewrite bind_gets. change (buf_of (awoken p LK_vdisk s2) b) with (buf_of s2 b). by rewrite Hd2.
Qed.

(** ** Properties *)

(** A disk request is submitted correctly: with at most one other request in
    flight, [virtio_disk_rw] builds a chain of three descriptors of its own,
    publishes it and sleeps on the buffer; a device that follows the
    chain moves exactly the block [disk_rw] moves, whatever else it served
    before; and the sleeper, resumed once the buffer is done, returns its three
    descriptors to the free pool without touching other requests. *)
Theorem virtio_request b write s p fl pend :
  vd_ok (k_vd s) fl [] → used_ok (k_vd s) fl pend → (length fl ≤ 1)%nat → running p s →
  (b < length (k_bufs s))%nat → 0 ≤ b_blockno (buf_of s b) < 2 ^ 31 →
  ∃ r s1 k, virtio_disk_rw b write s = Yield (asleep p (Ch_buf b) s1) k ∧
    s1 = set_k_vd (k_vd s1) (upd_buf b (set_b_disk true) (set_k_held [LK_vdisk] s)) ∧
    vd_ok (k_vd s1) (r :: fl) [] ∧ used_ok (k_vd s1) (r :: fl) pend ∧ r_b r = b ∧
    (∀ s2 fl2, vd_ok (k_vd s2) fl2 [] → r ∈ fl2 →
      dev_serve (r_i0 r) s2 = Some (upd_vd (report (r_i0 r) (r_i0 r))
        (transfer b write (b_blockno (buf_of s b)) s2))) ∧
    (∀ s2 fl2, k_held s2 = [LK_proc p] → length (k_procs s2) = NPROC →
      b_disk (buf_of s2 b) = false → vd_ok (k_vd s2) (r :: fl2) [] →
      ∃ s3, k s2 = Ok () s3 ∧ vd_ok (k_vd s3) fl2 [] ∧ same_rings (k_vd s2) (k_vd s3) ∧
        s3 = set_k_vd (k_vd s3) (woken (Some Ch_disk_free)
               (set_k_held [] (upd_proc p (set_p_chan None) s2)))).
Proof.
  intros Hv Hu Hfl Hr Hb Hbn.
  destruct (submit_run b write s p fl pend Hv Hu Hfl Hr Hb Hbn)
    as (r & s1 & k & E & Es & Eb & Ew & Esec & Hv1 & Hu1 & _ & Hk).
  exists r, s1, k. do 5 (split; [done|]). split.
  - intros s2 fl2 Hv2 Hr2. rewrite <- Eb at 2. rewrite <- Ew.
    rewrite <- Eb. apply serve_chain; [by eapply vo_chain|]. by rewrite Esec, Eb.
  - intros s2 fl2 Hh2 Hl2 Hd2 Hv2. rewrite Hk by done.
    destruct (rw_rest_run b r fl2 (awoken p LK_vdisk s2)) as (s3 & E3 & Es3 & Hv3 & U3);
      [done|done|simpl; by rewrite length_alter|].
    exists s3. done.
Qed.

Lemma intr_run s fl pend :
  vd_ok (k_vd s) fl [] → used_ok (k_vd s) fl pend → LK_vdisk ∉ k_held s → no_plock s →
  length (k_procs s) = NPROC →
  ∃ s', virtio_disk_intr s = Ok () s' ∧ s' = set_k_vd (k_vd s') (finish pend s) ∧
    vd_ok (k_vd s') fl [] ∧ used_ok (k_vd s') fl [].
Proof.
  intros Hv Hu Hh Hnp Hlen. unfold virtio_disk_intr, rreg, wreg.
  rewrite bind_acquire by done. rewrite bind_gets, bind_modify.
  set (s0 := upd_vd _ (set_k_held _ s)).
  pose proof (ring_cap _ _ _ _ (us_ring _ _ _ Hu)) as Hcap. rewrite length_fmap in Hcap.
  destruct (intr_loop fl pend (S (Z.to_nat NUM)) s0) as (s1 & E & Es & Hv1 & Hu1).
  { destruct Hv as [V1 V2 V3 V4 V5]. split; try done.
    intros x Hx. eapply chain_frame; [by apply V5|done..]. }
  { destruct Hu as [U1 U2 U3 U4 U5]. by split. }
  { unfold NUM in *. lia. } { intros i. specialize (Hnp i). simpl. set_solver. } { done. }
  erewrite bind_Ok by exact E.
  destruct (finish_frame pend s0) as (F1 & _ & _).
  rewrite (release_top _ (k_held s)) by (rewrite Es; simpl; by rewrite F1).
  eexists. split; [reflexivity|]. split; [|done].
  rewrite Es. simpl. subst s0. unfold upd_vd. rewrite finish_vd.
  assert (∀ h x, finish pend (set_k_held h x) = set_k_held h (finish pend x)) as ->.
  { intros h. clear. induction pend as [|r pend IH]; intros x; [done|]. simpl. by rewrite <- IH. }
  assert (k_held (finish pend s) = k_held s) as Hk by apply finish_frame.
  rewrite <- Hk. by destruct (finish pend s).
Qed.

(** The disk interrupt handler completes exactly the requests the
    device has reported, in the order of the used ring, which it drains: for
    each it marks the buffer done and wakes its sleepers; it never panics, and
    other requests and the free descriptors are untouched.  The 16-bit ring indices may wrap. *)
Theorem virtio_intr_completes s fl pend :
  vd_ok (k_vd s) fl [] → used_ok (k_vd s) fl pend → LK_vdisk ∉ k_held s → no_plock s →
  length (k_procs s) = NPROC →
  ∃ s', virtio_disk_intr s = Ok () s' ∧ s' = set_k_vd (k_vd s') (finish pend s) ∧
    vd_ok (k_vd s') fl [] ∧ used_ok (k_vd s') fl [].
Proof. apply intr_run. Qed.

(** The CPU goes to the scheduler, and comes back to process [p]. *)
Definition to_idle (s : kst) : kst := set_k_held [] (set_k_cur None s).
Definition resume (p : nat) (s : kst) : kst :=
  set_k_held [LK_proc p] (set_k_cur (Some p) (upd_proc p (set_p_state RUNNING) s)).

(** Submitting marks the buffer busy, completion marks it done. *)
Lemma alter_busy b (g : buf → buf) s :
  (b < length (k_bufs s))%nat → b_disk (buf_of s b) = false →
  (∀ x, b_disk x = false → set_b_disk false (g (set_b_disk true x)) = g x) →
  alter (set_b_disk false) b (alter g b (alter (set_b_disk true) b (k_bufs s))) =
    alter g b (k_bufs s).
Proof.
  intros Hb Hd Hg. apply list_eq. intros i. destruct (decide (i = b)) as [->|].
  - rewrite !list_lookup_alter_eq. destruct (lookup_lt_is_Some_2 _ _ Hb) as [x Ex].
    rewrite Ex. simpl. f_equal. apply Hg. unfold buf_of in Hd. by rewrite Ex in Hd.
  - by rewrite !list_lookup_alter_ne.
Qed.

Lemma transfer_frame b write blk s :
  k_vd (transfer b write blk s) = k_vd s ∧ k_held (transfer b write blk s) = k_held s ∧
  k_cur (transfer b write blk s) = k_cur s ∧ k_procs (transfer b write blk s) = k_procs s ∧
  length (k_bufs (transfer b write blk s)) = length (k_bufs s).
Proof. destruct write; simpl; rewrite ?length_alter; done. Qed.

(** Equality of all but the CPU's, the processes' and the driver's state. *)
Definition rest_eq (s s' : kst) : Prop :=
  set_k_held [] (set_k_cur None (set_k_procs [] (set_k_vd vdisk0 s))) =
  set_k_held [] (set_k_cur None (set_k_procs [] (set_k_vd vdisk0 s'))).
#[local] Instance rest_eq_equiv : Equivalence rest_eq.
Proof. split; unfold rest_eq; [by intros ?|by intros ???|by intros ??? -> ->]. Qed.
#[local] Instance upd_buf_rest b f : Proper (rest_eq ==> rest_eq) (upd_buf b f).
Proof.
  intros s s' E. unfold rest_eq in *.
  change (upd_buf b f (set_k_held [] (set_k_cur None (set_k_procs [] (set_k_vd vdisk0 s)))) =
    upd_buf b f (set_k_held [] (set_k_cur None (set_k_procs [] (set_k_vd vdisk0 s'))))).
  by rewrite E.
Qed.
#[local] Instance transfer_rest b write blk : Proper (rest_eq ==> rest_eq) (transfer b write blk).
Proof.
  intros s s' E. unfold rest_eq in *.
  assert (∀ s, set_k_held [] (set_k_cur None (set_k_procs [] (set_k_vd vdisk0
    (transfer b write blk s)))) = transfer b write blk
      (set_k_held [] (set_k_cur None (set_k_procs [] (set_k_vd vdisk0 s))))) as H.
  { intros x. by destruct write. }
  by rewrite !H, E.
Qed.
Lemma rest_eq_state s s' :
  rest_eq s s' → k_held s' = k_held s → k_cur s' = k_cur s →
  s' = set_k_procs (k_procs s') (set_k_vd (k_vd s') s).
Proof. unfold rest_eq. destruct s, s'. simpl. intros [=] -> ->. by subst. Qed.

(** All but the processes, the driver's queues, and what a transfer changes. *)
Lemma transfer_state b write blk s d ps :
  (b < length (k_bufs s))%nat → b_disk (buf_of s b) = false →
  set_k_procs ps (set_k_vd d (upd_buf b (set_b_disk false)
    (transfer b write blk (upd_buf b (set_b_disk true) s)))) =
  set_k_procs ps (set_k_vd d (transfer b write blk s)).
Proof.
  intros Hb Hd. unfold transfer. rewrite buf_of_alter by done. destruct write.
  - pose proof (alter_busy b id s Hb Hd ltac:(by intros [] ?; simpl in *; subst)) as E.
    rewrite !(list_alter_id id) in E by done.
    change (b_data (set_b_disk true (buf_of s b))) with (b_data (buf_of s b)).
    set (data := b_data (buf_of s b)).
    transitivity (set_k_procs ps (set_k_vd d (set_k_hist (k_hist s ++ [(blk, data)])
      (set_k_disk (<[blk := data]> (k_disk s)) (set_k_bufs (alter (set_b_disk false) b
        (alter (set_b_disk true) b (k_bufs s))) s))))); [reflexivity|].
    rewrite E. by replace (set_k_bufs (k_bufs s) s) with s by (by destruct s).
  - pose proof (alter_busy b (set_b_data (disk_block (k_disk s) blk)) s Hb Hd
      ltac:(by intros [] ?; simpl in *; subst)) as E.
    transitivity (set_k_procs ps (set_k_vd d (set_k_bufs (alter (set_b_disk false) b
      (alter (set_b_data (disk_block (k_disk s) blk)) b
        (alter (set_b_disk true) b (k_bufs s)))) s))); [reflexivity|].
    by rewrite E.
Qed.

Lemma same_rings_used d d' fl fl' :
  same_rings d d' → used_ok d fl [] → used_ok d' fl' [].
Proof.
  intros (A1 & A2 & A3 & A4 & _) [B1 B2 B3 B4 B5]. split; rewrite ?A1, ?A2, ?A3, ?A4; try done;
    intros r Hr; by apply not_elem_of_nil in Hr.
Qed.
Lemma woken_proc_of ch s p :
  k_cur s ≠ Some p → (p < length (k_procs s))%nat → p_state (proc_of s p) = SLEEPING →
  p_chan (proc_of s p) = ch → p_state (proc_of (woken ch s) p) = RUNNABLE.
Proof.
  intros Hc Hp. unfold proc_of, woken. simpl. rewrite list_lookup_imap.
  destruct (lookup_lt_is_Some_2 _ _ Hp) as [x ->]. simpl. intros H1 H2.
  unfold wake_proc. by rewrite decide_True.
Qed.

(** C6. The driver refines the disk contract the buffer cache is built on.
    A caller with at most one other request in flight submits a request; a
    device that has taken the earlier entries of the available ring finds this
    one there, is notified and serves it; the interrupt handler runs, and
    makes the sleeping caller runnable; the caller resumes and returns.
    Together they have the effect of [disk_rw] on the disk and the buffer, and
    the driver ends with the descriptors of the other request as they were and
    its own given back.  The device is any that serves the next available
    request as the virtio specification says. *)
Theorem virtio_disk_rw_refines dev `{!VirtioDevice dev} b write s p fl :
  vd_ok (k_vd s) fl [] → used_ok (k_vd s) fl [] → (length fl ≤ 1)%nat → running p s →
  (b < length (k_bufs s))%nat → 0 ≤ b_blockno (buf_of s b) < 2 ^ 31 →
  b_disk (buf_of s b) = false →
  ∃ s' s1 k sd s2 s3, disk_rw b write s = Ok () s' ∧
    virtio_disk_rw b write s = Yield s1 k ∧
    dev (v_avail_idx (k_vd s)) (to_idle s1) = Some sd ∧
    virtio_disk_intr sd = Ok () s2 ∧ p_state (proc_of s2 p) = RUNNABLE ∧
    k (resume p s2) = Ok () s3 ∧
    vd_ok (k_vd s3) fl [] ∧ used_ok (k_vd s3) fl [] ∧
    s3 = set_k_procs (k_procs s3) (set_k_vd (k_vd s3) s').
Proof.
  intros Hv Hu Hfl Hr Hb Hbn Hd. pose proof Hr as [Hc Hh Hl Hp].
  destruct (submit_run b write s p fl [] Hv Hu Hfl Hr Hb Hbn)
    as (r & s1 & k & E & Es & Eb & Ew & Esec & Hv1 & Hu1 & [P1 P2 P3] & Hk).
  set (blk := b_blockno (buf_of s b)) in *. set (sI := to_idle (asleep p (Ch_buf b) s1)).
  assert (dev (v_avail_idx (k_vd s)) sI = Some (upd_vd (report (r_i0 r) (r_i0 r))
    (transfer b write blk sI))) as Ed.
  { rewrite <- Eb, <- Ew. apply dev_serves, dev_poll_chain; [done..| |done].
    apply (vo_chain _ _ _ Hv1). set_solver. }
  set (sT := transfer b write blk sI) in *.
  destruct (transfer_frame b write blk sI) as (T1 & T2 & T3 & T4 & T5). fold sT in T1, T2, T3, T4, T5.
  set (sd := upd_vd (report (r_i0 r) (r_i0 r)) sT) in *.
  destruct (used_report (k_vd s1) (r :: fl) [] r Hv1 Hu1 ltac:(set_solver) ltac:(simpl; lia))
    as [Hvd Hud].
  assert (k_vd sd = report (r_i0 r) (r_i0 r) (k_vd s1)) as Evd by (unfold sd; simpl; by rewrite T1).
  assert (k_procs sd = k_procs sI) as Epd by (unfold sd; simpl; by rewrite T4).
  assert (length (k_procs sI) = NPROC) as Hls.
  { simpl. rewrite length_alter, Es. done. }
  rewrite <- Evd in Hvd, Hud.
  destruct (intr_run sd (r :: fl) [r] Hvd Hud) as (s2 & E2 & Es2 & Hv2 & Hu2).
  { simpl. rewrite T2. simpl. set_solver. } { intros i. simpl. rewrite T2. simpl. set_solver. }
  { by rewrite Epd. }
  cbn [finish] in Es2. rewrite Eb in Es2.
  assert (k (resume p s2) = rw_rest b (r_i0 r) (awoken p LK_vdisk (resume p s2))) as Ek.
  { apply Hk; [done|]. change (buf_of (resume p s2) b) with (buf_of s2 b). rewrite Es2.
    change (buf_of (set_k_vd _ (woken _ ?x)) b) with (buf_of x b). rewrite buf_of_alter; [done|].
    unfold sd. simpl. rewrite T5. simpl. by rewrite Es; simpl; rewrite length_alter. }
  destruct (rw_rest_run b r fl (awoken p LK_vdisk (resume p s2))) as (s3 & E3 & Es3 & Hv3 & Us3).
  { done. } { done. }
  { simpl. rewrite !length_alter, Es2. simpl. by rewrite length_imap, T4. }
  exists (transfer b write blk s), (asleep p (Ch_buf b) s1), k, sd, s2, s3.
  split; [apply disk_rw_transfer|]. split; [done|]. split; [done|]. split; [done|].
  split; [|split; [by rewrite Ek|split; [done|split; [by eapply same_rings_used|]]]].
  - rewrite Es2. change (proc_of (set_k_vd _ ?x) p) with (proc_of x p). apply woken_proc_of.
    + simpl. rewrite T3. done.
    + change (k_procs (upd_buf b (set_b_disk false) sd)) with (k_procs sd). rewrite Epd. lia.
    + change (proc_of (upd_buf b (set_b_disk false) sd) p) with (proc_of sd p).
      unfold proc_of. rewrite Epd. simpl. rewrite list_lookup_alter_eq, Es. simpl.
      destruct (lookup_lt_is_Some_2 (k_procs s) p ltac:(lia)) as [x ->]. done.
    + change (proc_of (upd_buf b (set_b_disk false) sd) p) with (proc_of sd p).
      unfold proc_of. rewrite Epd. simpl. rewrite list_lookup_alter_eq, Es. simpl.
      destruct (lookup_lt_is_Some_2 (k_procs s) p ltac:(lia)) as [x ->]. done.
  - destruct (transfer_frame b write blk s) as (_ & R2 & R3 & _ & _).
    assert (rest_eq (transfer b write blk s) s3) as HR.
    { trans (upd_buf b (set_b_disk false) (transfer b write blk (upd_buf b (set_b_disk true) s))).
      { pose proof (transfer_state b write blk s vdisk0 [] Hb Hd) as Et.
        unfold rest_eq. by rewrite Et. }
      assert (rest_eq sI (upd_buf b (set_b_disk true) s)) as <- by (unfold sI; by rewrite Es).
      trans s2; [by rewrite Es2|]. by rewrite Es3. }
    apply (rest_eq_state _ _ HR).
    + rewrite R2, Hh, Es3. done.
    + rewrite R3, Hc, Es3. done.
Qed.

(** ** An idle driver, and one with a request served at index 65535 of the used ring *)

Definition vd_init : vdisk := set_v_free (replicate 8 true) vdisk0.
Lemma vd_init_ok : vd_ok vd_init [] [].
Proof.
  split; try done.
  - by constructor.
  - intros i Hi. split; [set_solver|]. intros _.
    change (default false (replicate 8 true !! Z.to_nat i) = true).
    rewrite lookup_replicate_2; [done|]. unfold didx, NUM in Hi. lia.
  - intros r Hr. by apply not_elem_of_nil in Hr.
Qed.
Lemma vd_init_used : used_ok vd_init [] [].
Proof.
  split; try done; try (intros r Hr; by apply not_elem_of_nil in Hr).
  by apply ring_nil.
Qed.
Definition vstate : kst := set_k_cur (Some 2%nat) (set_k_vd vd_init kst0).
Lemma vstate_running : running 2 vstate.
Proof. split; [done|done|done|unfold NPROC; lia]. Qed.

Lemma virtio_request_witness :
  ∃ r s1 k, virtio_disk_rw 3 true vstate = Yield (asleep 2 (Ch_buf 3) s1) k ∧
    vd_ok (k_vd s1) [r] [].
Proof.
  destruct (virtio_request 3 true vstate 2 [] [] vd_init_ok vd_init_used)
    as (r & s1 & k & E & _ & H & _);
    [simpl; lia|exact vstate_running|vm_compute; lia|split; by apply Z.leb_le || by apply Z.ltb_lt|].
  exists r, s1, k. split; [exact E|exact H].
Defined.
Lemma virtio_disk_rw_refines_witness :
  ∃ s1 k sd s2 s3, virtio_disk_rw 3 true vstate = Yield s1 k ∧
    dev_poll 0 (to_idle s1) = Some sd ∧ virtio_disk_intr sd = Ok () s2 ∧
    k (resume 2 s2) = Ok () s3.
Proof.
  destruct (virtio_disk_rw_refines dev_poll 3 true vstate 2 [] vd_init_ok vd_init_used)
    as (s' & s1 & k & sd & s2 & s3 & _ & E1 & E2 & E3 & _ & E4 & _);
    [simpl; lia|exact vstate_running|vm_compute; lia
    |split; by apply Z.leb_le || by apply Z.ltb_lt|reflexivity|].
  exists s1, k, sd, s2, s3. split; [exact E1|]. split; [exact E2|]. split; [exact E3|exact E4].
Defined.

Definition r_one : req := Req 5 0 7 4 true 20.
Definition vd_one : vdisk :=
  set_v_used_idx 65535 (set_v_used_dev 0 (set_v_used_ring (<[7%nat := 5]> (v_used_ring vdisk0))
    (set_v_status (<[5%nat := 0]> (v_status vdisk0))
    (set_v_info_b (<[5%nat := Some 4%nat]> (v_info_b vdisk0))
    (set_v_ops (<[5%nat := Vreq VIRTIO_BLK_T_OUT 0 20]> (v_ops vdisk0))
    (set_v_desc (<[5%nat := Vdesc (VA_req 5) 16 1 0]> (<[0%nat := Vdesc (VA_data 4) BSIZE 1 7]>
      (<[7%nat := Vdesc (VA_status 5) 1 2 0]> (v_desc vdisk0))))
    (set_v_free [false; true; true; true; true; false; true; false] vdisk0))))))).
Lemma vd_one_ok : vd_ok vd_one [r_one] [].
Proof.
  split.
  - done.
  - apply (bool_decide_unpack _). by vm_compute.
  - repeat constructor; done.
  - intros i [Hi Hi']. unfold NUM in Hi'. simpl.
    assert (i = 0 ∨ i = 1 ∨ i = 2 ∨ i = 3 ∨ i = 4 ∨ i = 5 ∨ i = 6 ∨ i = 7) as Hc by lia.
    rewrite <- (bool_decide_spec (i ∉ _)).
    destruct Hc as [-> |[-> |[-> |[-> |[-> |[-> |[-> | ->]]]]]]]; by vm_compute.
  - intros r Hr. apply list_elem_of_singleton in Hr as ->. by split.
Qed.
Lemma virtio_intr_completes_witness :
  ∃ s', virtio_disk_intr (set_k_vd vd_one kst0) = Ok () s' ∧
    s' = set_k_vd (k_vd s') (finish [r_one] (set_k_vd vd_one kst0)).
Proof.
  destruct (virtio_intr_completes (set_k_vd vd_one kst0) [r_one] [r_one])
    as (s' & E & Es & _);
    [exact vd_one_ok| |simpl; set_solver|intros i; simpl; set_solver|reflexivity|].
  - split.
    + split; [reflexivity|discriminate|]. intros i Hi. simpl in Hi. assert (i = 0) as -> by lia. reflexivity.
    + split; by apply Z.leb_le || by apply Z.ltb_lt.
    + reflexivity.
    + intros r Hr. exact Hr.
    + intros r Hr. apply list_elem_of_singleton in Hr as ->. reflexivity.
  - exists s'. split; [exact E|exact Es].
Defined.
