(* ===== verification/Trap.v ===== *)
(** * Traps: operations

    [kernel/trap.c], the dispatch of [kernel/syscall.c] and [forkret] of
    [kernel/proc.c].  The supervisor registers of the hart are [k_hart]; the
    interrupts the interrupt controller will report are [k_irqs].  Entering and
    leaving the kernel ([trampoline.S], [kernelvec.S]) is the hardware's and
    the assembly's part: a handler starts with the registers they leave, and
    [usertrapret] returns the jump it makes. *)

From stdpp Require Import options.
From S2P Require Import Prelude CString State Sched Sleeplock Kalloc Vm Bio Block Log Copy Fs Uart Printf Console Pipe File Proc Exec Syscall Sysfile Virtio.
#[local] Open Scope Z_scope.

(** ** Registers *)

Definition SSTATUS_SPP : Z := Z.shiftl 1 8.
Definition SSTATUS_SPIE : Z := Z.shiftl 1 5.
Definition SSTATUS_SIE : Z := Z.shiftl 1 1.
Definition SATP_SV39 : Z := Z.shiftl 8 60.
Definition MAKE_SATP (pagetable : Z) : Z := Z.lor SATP_SV39 (Z.shiftr pagetable 12).
Definition UART0_IRQ : Z := 10.
Definition VIRTIO0_IRQ : Z := 1.

Definition rcsr (f : hart → Z) : K Z := gets (λ s, f (k_hart s)).
Definition wcsr (f : Z → hart → hart) (v : Z) : K unit :=
  modify (λ s, set_k_hart (f (u64 v) (k_hart s)) s).
Definition intr_on : K unit :=
  x ← rcsr h_sstatus;
  wcsr set_h_sstatus (Z.lor x SSTATUS_SIE).
Definition intr_off : K unit :=
  x ← rcsr h_sstatus;
  wcsr set_h_sstatus (Z.land x (Z.lnot SSTATUS_SIE)).
Definition intr_get : K bool :=
  x ← rcsr h_sstatus;
  mret (negb (Z.land x SSTATUS_SIE =? 0)).

(** What the interrupt controller answers to [plic_claim]. *)
Definition plic_claim : K Z :=
  l ← gets k_irqs;
  modify (set_k_irqs (tail l));;
  mret (default 0 (head l)).

(** ** Interrupts *)

Definition clockintr : K unit :=
  acquire LK_ticks;;
  modify (λ s, set_k_ticks (u32 (k_ticks s + 1)) s);;
  wakeup (Some Ch_ticks);;
  release LK_ticks.

Definition devintr : K Z :=
  scause ← rcsr h_scause;
  if Z.testbit scause 63 && (Z.land scause 0xff =? 9) then
    irq ← plic_claim;
    (if irq =? UART0_IRQ then uartintr
     else if irq =? VIRTIO0_IRQ then virtio_disk_intr
     else if negb (irq =? 0) then printf (lit "unexpected interrupt irq=%d" ++ newline) [A_int irq]
     else mret ());;
    mret 1
  else if scause =? 0x8000000000000001 then
    tp ← rcsr h_tp;
    when (tp =? 0) clockintr;;
    sip ← rcsr h_sip;
    wcsr set_h_sip (Z.land sip (Z.lnot 2));;
    mret 2
  else mret 0.

(** ** System calls *)

(** [syscalls[num]] *)
Definition syscalls (num : Z) : option (K Z) :=
  match num with
  | 1 => Some sys_fork
  | 2 => Some sys_exit
  | 3 => Some sys_wait
  | 4 => Some sys_pipe
  | 5 => Some sys_read
  | 6 => Some sys_kill
  | 7 => Some sys_exec
  | 8 => Some sys_fstat
  | 9 => Some sys_chdir
  | 10 => Some sys_dup
  | 11 => Some sys_getpid
  | 12 => Some sys_sbrk
  | 13 => Some sys_sleep
  | 14 => Some sys_uptime
  | 15 => Some sys_open
  | 16 => Some sys_write
  | 17 => Some sys_mknod
  | 18 => Some sys_unlink
  | 19 => Some sys_link
  | 20 => Some sys_mkdir
  | 21 => Some sys_close
  | _ => None
  end.
Definition syscall : K unit :=
  p ← curproc;
  a7 ← tf_get p TF_a7;
  let num := i32 a7 in
  match syscalls num with
  | Some f =>
    r ← f;
    tf_set p TF_a0 (u64 r)
  | None =>
    x ← gets (λ s, proc_of s p);
    printf (lit "%d %s: unknown sys call %d" ++ newline)
      [A_int (p_pid x); A_str (Some (cbytes (p_name x))); A_int num];;
    tf_set p TF_a0 (u64 (-1))
  end.

(** ** From and to user space *)

(** The jump to [userret]: its address and its two arguments. *)
Definition usertrapret : K (Z * Z * Z) :=
  p ← curproc;
  intr_off;;
  ly ← gets k_ly;
  wcsr set_h_stvec (TRAMPOLINE + (ly_uservec ly - ly_trampoline ly));;
  satp ← rcsr h_satp;
  tf_set p TF_kernel_satp satp;;
  kstack ← gets (λ s, p_kstack (proc_of s p));
  tf_set p TF_kernel_sp (u64 (kstack + PGSIZE));;
  tf_set p TF_kernel_trap (ly_usertrap ly);;
  tp ← rcsr h_tp;
  tf_set p TF_kernel_hartid tp;;
  x ← rcsr h_sstatus;
  wcsr set_h_sstatus (Z.lor (Z.land x (Z.lnot SSTATUS_SPP)) SSTATUS_SPIE);;
  epc ← tf_get p TF_epc;
  wcsr set_h_sepc epc;;
  pagetable ← gets (λ s, p_pagetable (proc_of s p));
  mret (TRAMPOLINE + (ly_userret ly - ly_trampoline ly), TRAPFRAME, MAKE_SATP pagetable).

Definition exit_if_killed (p : nat) : K unit :=
  killed ← gets (λ s, p_killed (proc_of s p));
  when (negb (killed =? 0)) (exit (-1)).

Definition usertrap : K (Z * Z * Z) :=
  sstatus ← rcsr h_sstatus;
  if negb (Z.land sstatus SSTATUS_SPP =? 0) then panic "usertrap: not from user mode" else
  ly ← gets k_ly;
  wcsr set_h_stvec (ly_kernelvec ly);;
  p ← curproc;
  sepc ← rcsr h_sepc;
  tf_set p TF_epc sepc;;
  scause ← rcsr h_scause;
  which_dev ←
    (if scause =? 8 then
       exit_if_killed p;;
       epc ← tf_get p TF_epc;
       tf_set p TF_epc (u64 (epc + 4));;
       intr_on;;
       syscall;;
       mret 0
     else
       d ← devintr;
       if negb (d =? 0) then mret d else
       scause ← rcsr h_scause;
       pid ← gets (λ s, p_pid (proc_of s p));
       printf (lit "usertrap(): unexpected scause %p pid=%d" ++ newline)
         [A_uint64 scause; A_int pid];;
       sepc ← rcsr h_sepc;
       stval ← rcsr h_stval;
       printf (lit "            sepc=%p stval=%p" ++ newline) [A_uint64 sepc; A_uint64 stval];;
       modify (upd_proc p (set_p_killed 1));;
       mret 0);
  exit_if_killed p;;
  when (which_dev =? 2) yield;;
  usertrapret.

Definition kerneltrap : K unit :=
  sepc ← rcsr h_sepc;
  sstatus ← rcsr h_sstatus;
  scause ← rcsr h_scause;
  if Z.land sstatus SSTATUS_SPP =? 0 then panic "kerneltrap: not from supervisor mode" else
  on ← intr_get;
  if on : bool then panic "kerneltrap: interrupts enabled" else
  which_dev ← devintr;
  if which_dev =? 0 then
    printf (lit "scause %p" ++ newline) [A_uint64 scause];;
    stval ← rcsr h_stval;
    printf (lit "sepc=%p stval=%p" ++ newline) [A_uint64 sepc; A_uint64 stval];;
    panic "kerneltrap"
  else
  cur ← myproc;
  (match cur with
   | Some p =>
     st ← gets (λ s, p_state (proc_of s p));
     when ((which_dev =? 2) && bool_decide (st = RUNNING)) yield
   | None => mret ()
   end);;
  wcsr set_h_sepc sepc;;
  wcsr set_h_sstatus sstatus.

Definition forkret : K (Z * Z * Z) :=
  p ← curproc;
  release (LK_proc p);;
  first ← gets k_first;
  when first
    (modify (set_k_first false);;
     fsinit ROOTDEV);;
  usertrapret.

(** ** Boot *)

(** The initialisation [main] makes on the first hart, up to the scheduler:
    locks, device registers and paging are set up outside the model. *)
Definition main (pages : Z) : K unit :=
  printf newline [];;
  printf (lit "xv6 kernel is booting" ++ newline) [];;
  printf newline [];;
  kinit;;
  kvminit;;
  procinit;;
  binit;;
  iinit;;
  virtio_disk_init pages;;
  userinit.
