(* ===== verification/Umalloc.v ===== *)
(** * The user allocator: operations

    [user/umalloc.c], the allocator of Kernighan and Ritchie.  Memory is bytes; a [Header] is 16 of them, the
    pointer first, the size in headers after it.  The address of the static
    [base] is a parameter.  [sbrk] returns the old break and moves it, or fails:
    [ua_sbrk] says which of the next calls succeed. *)

From stdpp Require Import options.
From S2P Require Import Prelude CString.
#[local] Open Scope Z_scope.

Definition sizeof_header : Z := 16.
Definition hptr (m : mem) (p : Z) : Z := load64 m p.
Definition hsize (m : mem) (p : Z) : Z := le_val (rd_bytes m (p + 8) 4).
Definition set_hptr (m : mem) (p v : Z) : mem := store64 m p v.
Definition set_hsize (m : mem) (p v : Z) : mem := wr_bytes m (p + 8) (le_bytes 4 v).

Record ualloc := Ualloc {
  ua_mem : mem;
  freep : Z;
  ua_brk : Z;
  ua_sbrk : list bool;
}.
Definition set_ua_mem v s := Ualloc v (freep s) (ua_brk s) (ua_sbrk s).
Definition set_freep v s := Ualloc (ua_mem s) v (ua_brk s) (ua_sbrk s).

Abbreviation U := (M ualloc).
Definition ptr (p : Z) : U Z := gets (λ s, hptr (ua_mem s) p).
Definition size_of (p : Z) : U Z := gets (λ s, hsize (ua_mem s) p).
Definition put_ptr (p v : Z) : U unit := modify (λ s, set_ua_mem (set_hptr (ua_mem s) p v) s).
Definition put_size (p v : Z) : U unit := modify (λ s, set_ua_mem (set_hsize (ua_mem s) p v) s).
(** The address of header [p + n]. *)
Definition hplus (p n : Z) : Z := p + sizeof_header * n.

Definition sbrk (n : Z) : U Z :=
  ok ← gets (λ s, head (ua_sbrk s));
  modify (λ s, Ualloc (ua_mem s) (freep s) (ua_brk s) (tail (ua_sbrk s)));;
  if default false ok then
    b ← gets ua_brk;
    modify (λ s, Ualloc (ua_mem s) (freep s) (b + i32 n) (ua_sbrk s));;
    mret b
  else mret (u64 (-1)).

Section umalloc.
Context (base : Z).

(** No more headers than fit between [base] and the break. *)
Definition ua_fuel (s : ualloc) : nat := S (S (Z.to_nat ((ua_brk s - base) / sizeof_header))).

(** The loop of [free]. *)
Fixpoint free_find (fuel : nat) (bp p : Z) : U Z :=
  match fuel with
  | O => λ _, NoFuel
  | S fuel =>
    nxt ← ptr p;
    if (p <? bp) && (bp <? nxt) then mret p
    else if (nxt <=? p) && ((p <? bp) || (bp <? nxt)) then mret p
    else free_find fuel bp nxt
  end.
(** The block is linked in behind [p] and merged with its neighbours. *)
Definition free_link (bp p : Z) : U unit :=
  nxt ← ptr p;
  bs ← size_of bp;
  (if hplus bp bs =? nxt then
     ns ← size_of nxt;
     put_size bp (u32 (bs + ns));;
     nn ← ptr nxt;
     put_ptr bp nn
   else put_ptr bp nxt);;
  ps ← size_of p;
  (if hplus p ps =? bp then
     bs ← size_of bp;
     put_size p (u32 (ps + bs));;
     bn ← ptr bp;
     put_ptr p bn
   else put_ptr p bp);;
  modify (set_freep p).
Definition free (ap : Z) : U unit :=
  let bp := ap - sizeof_header in
  p ← gets freep;
  fuel ← gets ua_fuel;
  p ← free_find fuel bp p;
  free_link bp p.

Definition morecore (nu : Z) : U Z :=
  let nu := if nu <? 4096 then 4096 else nu in
  p ← sbrk (nu * sizeof_header);
  if p =? u64 (-1) then mret 0 else
  put_size p nu;;
  free (p + sizeof_header);;
  gets freep.

(** What [malloc] does with a block [p] of [sz] headers that is large enough. *)
Definition malloc_take (nunits prevp p sz : Z) : U Z :=
  p ← (if sz =? nunits then
         nx ← ptr p;
         put_ptr prevp nx;;
         mret p
       else
         put_size p (u32 (sz - nunits));;
         let p := hplus p (u32 (sz - nunits)) in
         put_size p nunits;;
         mret p);
  modify (set_freep prevp);;
  mret (p + sizeof_header).
Fixpoint malloc_loop (fuel : nat) (nunits prevp p : Z) : U Z :=
  match fuel with
  | O => λ _, NoFuel
  | S fuel =>
    sz ← size_of p;
    if nunits <=? sz then malloc_take nunits prevp p sz
    else
      fp ← gets freep;
      if p =? fp then
        p ← morecore nunits;
        if p =? 0 then mret 0 else
        nx ← ptr p;
        malloc_loop fuel nunits p nx
      else
        nx ← ptr p;
        malloc_loop fuel nunits p nx
  end.
Definition nunits_of (nbytes : Z) : Z := u32 ((nbytes + sizeof_header - 1) / sizeof_header + 1).
(** Two rounds of the list at most: one before and one after [morecore]. *)
Definition malloc (nbytes : Z) : U Z :=
  let nunits := nunits_of nbytes in
  prevp ← gets freep;
  prevp ← (if prevp =? 0 then
             put_ptr base base;;
             modify (set_freep base);;
             put_size base 0;;
             mret base
           else mret prevp);
  p ← ptr prevp;
  fuel ← gets ua_fuel;
  malloc_loop (2 * fuel + 2) nunits prevp p.
End umalloc.
