(* ===== verification/UmallocSpec.v ===== *)
(** * The user allocator keeps its heap

    The heap from [h0] to the break is a row of blocks without gaps, in use or free, no two free ones next to each
    other.  The free list is the ring of [base] and the free blocks in address order. *)

From stdpp Require Import options.
From S2P Require Import Prelude CString Umalloc.
#[local] Open Scope Z_scope.

(** ** Headers *)

Definition apart (a b : Z) : Prop := a + sizeof_header ≤ b ∨ b + sizeof_header ≤ a.
(** Byte [x] is in the header at [a]. *)
Definition in_hdr (a x : Z) : Prop := a ≤ x < a + sizeof_header.

Lemma hptr_set m a v b : 0 ≤ v < 2 ^ 64 → b = a ∨ apart a b → hptr (set_hptr m a v) b = if decide (b = a) then v else hptr m b.
Proof.
  intros Hv [->|Hab]; unfold hptr, set_hptr, apart, sizeof_header in *.
  - rewrite decide_True by done. by apply load64_store64.
  - rewrite decide_False by lia. apply load64_store64_ne. lia.
Qed.
Lemma hptr_set_size m a v b : b = a ∨ apart a b → hptr (set_hsize m a v) b = hptr m b.
Proof.
  intros Hab. unfold hptr, set_hsize, apart, sizeof_header in *. apply load64_ext. intros x Hx. apply rd_wr_bytes_out.
  rewrite length_le_bytes. lia.
Qed.
Lemma hsize_set_ptr m a v b : b = a ∨ apart a b → hsize (set_hptr m a v) b = hsize m b.
Proof.
  intros Hab. unfold hsize, set_hptr, apart, sizeof_header in *. f_equal. apply rd_bytes_ext. intros x Hx. apply rd_store64_out. lia.
Qed.
Lemma hsize_set m a v b : 0 ≤ v < 2 ^ 32 → b = a ∨ apart a b → hsize (set_hsize m a v) b = if decide (b = a) then v else hsize m b.
Proof.
  intros Hv [->|Hab]; unfold hsize, set_hsize, apart, sizeof_header in *.
  - rewrite decide_True by done. pose proof (rd_bytes_wr_bytes m (a + 8) (le_bytes 4 v) (le_bytes_is_byte _ _)) as E.
    rewrite length_le_bytes in E. rewrite E. by apply le_val_bytes_id.
  - rewrite decide_False by lia. f_equal. apply rd_bytes_ext. intros x Hx. apply rd_wr_bytes_out. rewrite length_le_bytes. lia.
Qed.
Lemma rd_set_ptr m a v x : ¬ in_hdr a x → rd (set_hptr m a v) x = rd m x.
Proof. intros Hx. unfold in_hdr, sizeof_header in *. apply rd_store64_out. lia. Qed.
Lemma rd_set_size m a v x : ¬ in_hdr a x → rd (set_hsize m a v) x = rd m x.
Proof. intros Hx. unfold in_hdr, sizeof_header, set_hsize in *. apply rd_wr_bytes_out. rewrite length_le_bytes. lia. Qed.

(** ** Rows of blocks *)

Abbreviation tile := (Z * Z * bool)%type.
Fixpoint tiles (a : Z) (T : list tile) (e : Z) : Prop :=
  match T with
  | [] => a = e
  | (b, n, _) :: T => b = a ∧ 0 < n ∧ tiles (hplus a n) T e
  end.
Definition free_at (t : tile) : option Z := if t.2 then Some t.1.1 else None.
Definition used_at (t : tile) : option (Z * Z) := if t.2 then None else Some t.1.
Definition frees (T : list tile) : list Z := omap free_at T.
Definition useds (T : list tile) : list (Z * Z) := omap used_at T.
Fixpoint no_adj (T : list tile) : Prop :=
  match T with
  | [] => True
  | t :: T => (t.2 = true → match T with t' :: _ => t'.2 = false | [] => True end) ∧ no_adj T
  end.

Lemma tiles_app a T1 T2 e : tiles a (T1 ++ T2) e ↔ ∃ c, tiles a T1 c ∧ tiles c T2 e.
Proof.
  revert a. induction T1 as [|[[b n] f] T1 IH]; intros a; simpl.
  - split; [intros H; by exists a|by intros (c & -> & H)].
  - rewrite IH. naive_solver.
Qed.
Lemma tiles_le a T e : tiles a T e → a ≤ e.
Proof.
  revert a. induction T as [|[[b n] f] T IH]; intros a; simpl; [lia|]. intros (-> & Hn & H%IH). unfold hplus, sizeof_header in *. lia.
Qed.
Lemma tiles_range a T e b n f : tiles a T e → (b, n, f) ∈ T → a ≤ b ∧ 0 < n ∧ hplus b n ≤ e.
Proof.
  intros H (T1 & T2 & ->)%list_elem_of_split. apply tiles_app in H as (c & H1%tiles_le & H2). simpl in H2.
  destruct H2 as (-> & Hn & H3%tiles_le). lia.
Qed.
(** Two blocks of a row are apart. *)
Lemma tiles_apart a T1 b n f T2 e b' n' f' : tiles a (T1 ++ (b, n, f) :: T2) e →
  ((b', n', f') ∈ T1 → hplus b' n' ≤ b) ∧ ((b', n', f') ∈ T2 → hplus b n ≤ b').
Proof.
  intros (c & H1 & H2)%tiles_app. simpl in H2. destruct H2 as (-> & Hn & H2). split; intros Hin.
  - by destruct (tiles_range _ _ _ _ _ _ H1 Hin) as (? & ? & ?).
  - by destruct (tiles_range _ _ _ _ _ _ H2 Hin) as (? & ? & ?).
Qed.
Lemma frees_app T1 T2 : frees (T1 ++ T2) = frees T1 ++ frees T2.
Proof. apply omap_app. Qed.
Lemma useds_app T1 T2 : useds (T1 ++ T2) = useds T1 ++ useds T2.
Proof. apply omap_app. Qed.
Lemma elem_frees a T : a ∈ frees T ↔ ∃ n, (a, n, true) ∈ T.
Proof.
  unfold frees. rewrite list_elem_of_omap. split.
  - intros ([[b n] []] & Hin & [= ->]). by exists n.
  - intros (n & Hin). by exists (a, n, true).
Qed.
Lemma no_adj_app T1 T2 : no_adj (T1 ++ T2) ↔ no_adj T1 ∧ no_adj T2 ∧
  ∀ t1 t2, last T1 = Some t1 → head T2 = Some t2 → t1.2 = true → t2.2 = false.
Proof.
  induction T1 as [|t T1 IH]; simpl; [naive_solver|]. rewrite IH. destruct T1 as [|t' T1].
  - destruct T2 as [|t2 T2]; simpl; naive_solver.
  - change (last (t :: t' :: T1)) with (last (t' :: T1)). simpl app. naive_solver.
Qed.

(** ** The ring *)

Fixpoint links (m : mem) (p : Z) (L : list Z) (q : Z) : Prop :=
  match L with
  | [] => hptr m p = q
  | a :: L => hptr m p = a ∧ links m a L q
  end.
Definition lst (p : Z) (L : list Z) : Z := default p (last L).
Fixpoint asc (p : Z) (L : list Z) : Prop :=
  match L with
  | [] => True
  | a :: L => p < a ∧ asc a L
  end.

Lemma lst_cons p a L : lst p (a :: L) = lst a L.
Proof. unfold lst. rewrite last_cons. by destruct (last L). Qed.
Lemma lst_app p L1 a L2 : lst p (L1 ++ a :: L2) = lst a L2.
Proof. unfold lst. rewrite last_app, last_cons. by destruct (last L2). Qed.
Lemma lst_in p L : lst p L ∈ p :: L.
Proof. unfold lst. destruct (last L) eqn:E; simpl; [right; by apply last_Some_elem_of|left]. Qed.
Lemma links_app m p L1 a L2 q : links m p (L1 ++ a :: L2) q ↔ links m p L1 a ∧ links m a L2 q.
Proof. revert p. induction L1 as [|b L1 IH]; intros p; simpl; [done|]. rewrite IH. naive_solver. Qed.
Lemma links_ext m m' p L q : (∀ x, x ∈ p :: L → hptr m' x = hptr m x) → links m p L q → links m' p L q.
Proof.
  revert p. induction L as [|a L IH]; intros p He; simpl.
  - intros <-. apply He. left.
  - intros [<- H]. split; [apply He; left|]. apply IH; [|done]. intros x Hx. apply He. by right.
Qed.
(** The last pointer of a segment is changed. *)
Lemma links_to m m' p L q q' : NoDup (p :: L) → links m p L q →
  (∀ x, x ∈ p :: L → x ≠ lst p L → hptr m' x = hptr m x) → hptr m' (lst p L) = q' → links m' p L q'.
Proof.
  revert p. induction L as [|a L IH]; intros p Hnd; simpl; [done|]. intros [Ea H] He Hl. rewrite lst_cons in *.
  apply NoDup_cons in Hnd as [Hp Hnd]. split.
  - rewrite <- Ea. apply He; [left|]. intros E. apply Hp. rewrite E. apply lst_in.
  - apply IH; try done. intros x Hx. apply He. by right.
Qed.
Lemma links_last m p L q : links m p L q → hptr m (lst p L) = q.
Proof. revert p. induction L as [|a L IH]; intros p; simpl; [done|]. rewrite lst_cons. intros [_ H]. by apply IH. Qed.
(** Every element of a ring starts a round. *)
Lemma links_rotate m p L f : links m p L p → f ∈ p :: L → ∃ R, links m f R f ∧ f :: R ≡ₚ p :: L.
Proof.
  intros H [->|Hf]%elem_of_cons; [by exists L|]. apply list_elem_of_split in Hf as (L1 & L2 & ->).
  apply links_app in H as [H1 H2]. exists (L2 ++ p :: L1). split; [by apply links_app|]. solve_Permutation.
Qed.
Lemma asc_app p L1 a L2 : asc p (L1 ++ a :: L2) ↔ asc p L1 ∧ lst p L1 < a ∧ asc a L2.
Proof.
  revert p. induction L1 as [|b L1 IH]; intros p; simpl; [naive_solver|]. rewrite IH, lst_cons. naive_solver.
Qed.
Lemma asc_lt p L x : asc p L → x ∈ L → p < x.
Proof.
  revert p. induction L as [|a L IH]; intros p; simpl; [by intros _ ?%elem_of_nil|]. intros [Ha H] [->|Hx]%elem_of_cons; [done|].
  specialize (IH a H Hx). lia.
Qed.
Lemma asc_frees p a T e : tiles a T e → p < a → asc p (frees T).
Proof.
  revert p a. induction T as [|[[b n] f] T IH]; intros p a; [done|]. simpl tiles. intros (-> & Hn & H) Hp.
  assert (a < hplus a n) by (unfold hplus, sizeof_header; lia). destruct f; simpl; [split; [done|]|]; apply (IH _ _ H); lia.
Qed.
Lemma asc_NoDup p L : asc p L → NoDup (p :: L).
Proof.
  revert p. induction L as [|a L IH]; intros p; simpl; [repeat constructor; by intros ?%elem_of_nil|].
  intros [Ha H]. constructor; [|by apply IH]. intros [->|Hx]%elem_of_cons; [lia|]. pose proof (asc_lt _ _ _ H Hx). lia.
Qed.

(** ** The loop of free *)

Lemma find_up b q s L : ∀ x fuel, links (ua_mem s) x L q → asc x L → (∀ y, y ∈ x :: L → y < b) → b < q ∨ q ≤ lst x L →
  (length L < fuel)%nat → free_find fuel b x s = Ok (lst x L) s.
Proof.
  induction L as [|a L IH]; intros x [|fuel] HL HA Hb Hq Hf; simpl in Hf; try lia; cbn [free_find]; unfold ptr; rewrite bind_gets; simpl in HL.
  - rewrite HL. pose proof (Hb x ltac:(left)). unfold lst in *. simpl in *. rewrite (proj2 (Z.ltb_lt x b)) by done.
    destruct (Z.ltb_spec b q); [done|]. simpl. by rewrite (proj2 (Z.leb_le q x)) by lia.
  - destruct HL as [-> HL], HA as [Hxa HA]. pose proof (Hb a ltac:(right; left)). rewrite (proj2 (Z.ltb_ge b a)), andb_false_r by lia.
    rewrite (proj2 (Z.leb_gt a x)) by lia. simpl. rewrite lst_cons in *. apply IH; try done; [|lia]. intros y Hy. apply Hb. by right.
Qed.
Lemma find_down b base s L : ∀ x fuel, links (ua_mem s) x L base → asc x L → (∀ y, y ∈ x :: L → b < y) → base < b →
  free_find (S (length L) + fuel) b x s = free_find fuel b base s.
Proof.
  induction L as [|a L IH]; intros x fuel HL HA Hb Hq; cbn [length Nat.add free_find]; unfold ptr; rewrite bind_gets; simpl in HL;
    pose proof (Hb x ltac:(left)); rewrite (proj2 (Z.ltb_ge x b)) by lia; simpl.
  - rewrite HL. by rewrite (proj2 (Z.ltb_ge b base)), andb_false_r by lia.
  - destruct HL as [-> HL], HA as [Hxa HA]. pose proof (Hb a ltac:(right; left)). rewrite (proj2 (Z.leb_gt a x)) by lia. simpl.
    apply (IH a fuel); try done. intros y Hy. apply Hb. by right.
Qed.
Lemma free_find_ok b base s L1 L2 fuel :
  links (ua_mem s) base (L1 ++ L2) base → asc base (L1 ++ L2) → base < b → (∀ y, y ∈ L1 → y < b) → (∀ y, y ∈ L2 → b < y) →
  freep s ∈ base :: L1 ++ L2 → (S (length (L1 ++ L2)) < fuel)%nat → free_find fuel b (freep s) s = Ok (lst base L1) s.
Proof.
  intros HL HA Hb H1 H2 Hf Hfu. rewrite length_app in Hfu.
  assert (∃ q, links (ua_mem s) base L1 q ∧ asc base L1 ∧ (b < q ∨ q ≤ base)) as (q & HL1 & HA1 & Hq).
  { destruct L2 as [|c L2]; [rewrite app_nil_r in *; exists base; split; [done|]; split; [done|lia]|].
    apply links_app in HL as [HL1 _]. apply asc_app in HA as [HA1 _]. exists c. split; [done|]. split; [done|]. left. apply H2. left. }
  assert (∀ fuel, (length L1 < fuel)%nat → free_find fuel b base s = Ok (lst base L1) s) as Hup.
  { intros k Hk. apply (find_up _ q); try done. - intros y [->|Hy]%elem_of_cons; auto. - destruct Hq; [by left|right].
    pose proof (lst_in base L1) as [->|Hx]%elem_of_cons; [done|]. pose proof (asc_lt _ _ _ HA1 Hx). lia. }
  apply elem_of_cons in Hf as [->|[Hf|Hf]%elem_of_app]; [apply Hup; lia| |].
  - apply list_elem_of_split in Hf as (A & B & ->). rewrite lst_app. apply links_app in HL1 as [_ HB]. apply asc_app in HA1 as (_ & _ & HAB).
    rewrite length_app in Hfu. simpl in Hfu. apply (find_up _ q); try done; [|destruct Hq; [by left|right]|lia].
    + intros y Hy. apply H1. apply elem_of_app. by right.
    + assert (lst (freep s) B ∈ A ++ freep s :: B) as Hx by (apply elem_of_app; right; apply lst_in).
      rewrite <- lst_app with (p := base) (L1 := A). assert (asc base (A ++ freep s :: B)) as HA' by (destruct L2; [by rewrite app_nil_r in HA|by apply asc_app in HA as [? _]]).
      rewrite lst_app. pose proof (asc_lt _ _ _ HA' Hx). lia.
  - pose proof Hf as Hin. apply list_elem_of_split in Hf as (A & B & ->). rewrite app_assoc in HL, HA. apply links_app in HL as [_ HB]. apply asc_app in HA as (_ & _ & HAB).
    rewrite length_app in Hfu. simpl in Hfu. replace fuel with (S (length B) + (fuel - S (length B)))%nat by lia.
    rewrite (find_down _ base); try done; [apply Hup; lia|]. intros y Hy. apply H2. apply elem_of_app. by right.
Qed.

(** ** The heap *)

Section heap.
Context (base h0 : Z).
Definition LIMIT : Z := 2 ^ 31.

Record heap_ok (s : ualloc) (T : list tile) : Prop := {
  ho_low : 0 < base ∧ base + sizeof_header ≤ h0;
  ho_brk : ua_brk s ≤ LIMIT;
  ho_tiles : tiles h0 T (ua_brk s);
  ho_ring : links (ua_mem s) base (frees T) base;
  ho_base : hsize (ua_mem s) base = 0;
  ho_size a n f : (a, n, f) ∈ T → hsize (ua_mem s) a = n;
  ho_adj : no_adj T;
  ho_freep : freep s ∈ base :: frees T;
}.

Lemma tiles_length a T e : tiles a T e → sizeof_header * Z.of_nat (length T) ≤ e - a.
Proof.
  revert a. induction T as [|[[b n] f] T IH]; intros a; simpl; [lia|]. intros (-> & Hn & H%IH). unfold hplus, sizeof_header in *. lia.
Qed.
Lemma length_frees T : (length (frees T) ≤ length T)%nat.
Proof. induction T as [|[[b n] []] T IH]; simpl; lia. Qed.
Lemma heap_fuel s T : heap_ok s T → (S (length (frees T)) < ua_fuel base s)%nat.
Proof.
  intros H. pose proof (tiles_length _ _ _ (ho_tiles _ _ H)). pose proof (length_frees T). destruct (ho_low _ _ H) as [_ Hl].
  unfold ua_fuel, sizeof_header in *.
  pose proof (Z.div_le_lower_bound (ua_brk s - base) 16 (Z.of_nat (length T)) ltac:(lia) ltac:(lia)). lia.
Qed.

(** Headers of blocks do not overlap. *)
Lemma block_apart e T1 b n f T2 x : base + sizeof_header ≤ h0 → tiles h0 (T1 ++ (b, n, f) :: T2) e →
  x = base ∨ (∃ k g, (x, k, g) ∈ T1 ++ T2) → x ≠ b ∧ apart b x.
Proof.
  intros Hl HT Hx. destruct (tiles_range _ _ _ b n f HT ltac:(apply elem_of_app; right; left)) as (Hb & Hn & _).
  unfold apart. destruct Hx as [->|(k & g & [Hx|Hx]%elem_of_app)]; [unfold sizeof_header in *; lia| |].
  - destruct (tiles_range _ _ _ x k g HT ltac:(apply elem_of_app; by left)) as (_ & Hk & _).
    pose proof (proj1 (tiles_apart _ _ _ _ _ _ _ x k g HT) Hx). unfold hplus, sizeof_header in *. lia.
  - pose proof (proj2 (tiles_apart _ _ _ _ _ _ _ x k g HT) Hx). unfold hplus, sizeof_header in *. lia.
Qed.

Lemma heap_apart s T x y : heap_ok s T → (x = base ∨ ∃ k g, (x, k, g) ∈ T) → (y = base ∨ ∃ k g, (y, k, g) ∈ T) → x = y ∨ apart x y.
Proof.
  intros HH Hx Hy. pose proof (ho_tiles _ _ HH) as HT. destruct (ho_low _ _ HH) as [_ Hl]. destruct (decide (x = y)) as [|Hne]; [by left|right].
  destruct Hx as [->|(k & g & Hx)].
  - destruct Hy as [->|(k & g & Hy)]; [done|]. destruct (tiles_range _ _ _ _ _ _ HT Hy). unfold apart. lia.
  - apply list_elem_of_split in Hx as (A & B & ->). eapply (block_apart _ A x k g B y); [done|done|].
    destruct Hy as [?|(i & h & [Hy|[[= -> -> ->]|Hy]%elem_of_cons]%elem_of_app)]; [by left| |done|]; right; exists i, h; apply elem_of_app; auto.
Qed.

(** The bytes of a block in use are not in the header of a block of the ring. *)
Lemma used_hdr s T a j x y : heap_ok s T → (a, j, false) ∈ T → a ≤ x < hplus a j → y ∈ base :: frees T → ¬ in_hdr y x.
Proof.
  intros HH Ha Hx Hy Hh. pose proof (ho_tiles _ _ HH) as HT. destruct (ho_low _ _ HH) as [_ Hl]. unfold in_hdr in Hh.
  apply elem_of_cons in Hy as [->|(i & Hi)%elem_frees]; [destruct (tiles_range _ _ _ _ _ _ HT Ha); lia|].
  apply list_elem_of_split in Ha as (A & B & ->). destruct (tiles_range _ _ _ _ _ _ HT Hi) as (_ & Hi0 & _).
  apply elem_of_app in Hi as [Hi|[Hi|Hi]%elem_of_cons]; [|done|].
  - pose proof (proj1 (tiles_apart _ _ _ _ _ _ _ _ _ _ HT) Hi). unfold hplus, sizeof_header in *. lia.
  - pose proof (proj2 (tiles_apart _ _ _ _ _ _ _ _ _ _ HT) Hi). unfold hplus, sizeof_header in *. lia.
Qed.

Definition hd (L : list Z) : Z := default base (head L).
Lemma links_hd m p L : links m p L base → hptr m p = hd L.
Proof. destruct L; simpl; [done|by intros [-> _]]. Qed.
Lemma hd_range c T e : 0 < base ∧ base + sizeof_header ≤ h0 → tiles c T e → base < c → e ≤ LIMIT → 0 ≤ hd (frees T) < 2 ^ 64.
Proof.
  intros [H0 _] HT Hc He. pose proof (tiles_le _ _ _ HT). unfold hd. destruct (frees T) as [|x L] eqn:E; simpl; [unfold LIMIT in *; lia|].
  assert (x ∈ frees T) as (k & Hx)%elem_frees by (rewrite E; left). destruct (tiles_range _ _ _ _ _ _ HT Hx) as (? & ? & Hr).
  unfold LIMIT, hplus, sizeof_header in *. lia.
Qed.
(** The free block after address [c], where a block starts or the heap ends, and the one before it. *)
Lemma next_free c T e : tiles c T e → base < c →
  match T with (b, _, true) :: _ => b = c ∧ hd (frees T) = c | _ => hd (frees T) ≠ c end.
Proof.
  destruct T as [|[[b n] []] T]; simpl; intros H Hb.
  - unfold hd. simpl. lia.
  - by destruct H as (-> & _).
  - destruct H as (-> & Hn & H). change (frees ((c, n, false) :: T)) with (frees T). unfold hd.
    destruct (frees T) as [|x L] eqn:E; simpl; [lia|]. assert (x ∈ frees T) as (k & Hx)%elem_frees by (rewrite E; left).
    destruct (tiles_range _ _ _ _ _ _ H Hx) as (Hr & _). unfold hplus, sizeof_header in Hr. lia.
Qed.
Lemma prev_free m T b : base + sizeof_header ≤ h0 → tiles h0 T b → hsize m base = 0 →
  (∀ a n f, (a, n, f) ∈ T → hsize m a = n) →
  let p := lst base (frees T) in
  (∃ T0 k, T = T0 ++ [(p, k, true)] ∧ hplus p k = b) ∨ (hplus p (hsize m p) ≠ b ∧ ∀ t, last T = Some t → t.2 = false).
Proof.
  intros Hl HT Hb Hs p. destruct T as [|[[a k] f] T0] using rev_ind.
  - right. split; [|done]. simpl in HT. subst p. unfold lst. simpl. rewrite Hb. unfold hplus, sizeof_header in *. lia.
  - clear IHT0. pose proof HT as HT'. apply tiles_app in HT as (c & H1 & H2). simpl in H2. destruct H2 as (-> & Hk & <-). destruct f.
    + left. subst p. rewrite frees_app. change (frees [(c, k, true)]) with [c]. rewrite lst_app. exists T0, k. done.
    + right. split; [|intros t; rewrite last_snoc; by intros [= <-]]. subst p. rewrite frees_app, app_nil_r.
      pose proof (lst_in base (frees T0)) as [E|Hx]%elem_of_cons.
      * rewrite E, Hb. pose proof (tiles_le _ _ _ H1). unfold hplus, sizeof_header in *. lia.
      * apply elem_frees in Hx as (n & Hx). rewrite (Hs _ n true) by (apply elem_of_app; by left).
        destruct (tiles_range _ _ _ _ _ _ H1 Hx) as (_ & _ & Hr). unfold hplus, sizeof_header in *. lia.
Qed.

(** *** Freeing a block *)

Section free.
Context (s : ualloc) (T1 T2 : list tile) (b n : Z) (HH : heap_ok s (T1 ++ (b, n, false) :: T2)).
Abbreviation m := (ua_mem s).
Abbreviation p := (lst base (frees T1)).

Lemma free_apart x : x = base ∨ (∃ k g, (x, k, g) ∈ T1 ++ T2) → x ≠ b ∧ apart b x.
Proof using HH. eapply block_apart; [apply HH|apply HH]. Qed.
Lemma free_tiles : tiles h0 T1 b ∧ 0 < n ∧ tiles (hplus b n) T2 (ua_brk s) ∧ base < b ∧ hplus b n ≤ LIMIT.
Proof using HH.
  pose proof (ho_tiles _ _ HH) as HT. apply tiles_app in HT as (c & H1 & H2). simpl in H2. destruct H2 as (-> & Hn & H2).
  pose proof (tiles_le _ _ _ H1). pose proof (tiles_le _ _ _ H2). pose proof (ho_brk _ _ HH). destruct (ho_low _ _ HH).
  unfold sizeof_header in *. split_and!; try done; lia.
Qed.
Lemma free_ring : links m base (frees T1 ++ frees T2) base.
Proof using HH. pose proof (ho_ring _ _ HH) as HR. by rewrite frees_app in HR. Qed.
Lemma free_size : hsize m b = n.
Proof using HH. eapply (ho_size _ _ HH). apply elem_of_app. right. left. Qed.
Lemma free_node x : x ∈ base :: frees T1 ++ frees T2 → x = base ∨ ∃ k g, (x, k, g) ∈ T1 ++ T2.
Proof using Type.
  rewrite <- frees_app. intros [->|(k & Hk)%elem_frees]%elem_of_cons; [by left|right; eauto].
Qed.
Lemma free_prev : hptr m p = hd (frees T2).
Proof using HH.
  pose proof free_ring as HR. destruct (frees T2) as [|c L]; [rewrite app_nil_r in HR|apply links_app in HR as [HR _]]; by apply links_last in HR.
Qed.

(** The first half: the block points at the next free one, or is merged with it. *)
Record linked_next (m1 : mem) (n1 : Z) (T2a : list tile) : Prop := {
  ln_size : hsize m1 b = n1;
  ln_ptr : hptr m1 b = hd (frees T2a);
  ln_node x : x = base ∨ (∃ k g, (x, k, g) ∈ T1 ++ T2) → hptr m1 x = hptr m x ∧ hsize m1 x = hsize m x;
  ln_rd x : ¬ in_hdr b x → rd m1 x = rd m x;
  ln_tiles : n ≤ n1 ∧ tiles (hplus b n1) T2a (ua_brk s);
  ln_T2 : T2a = T2 ∨ ∃ c k, T2 = (c, k, true) :: T2a;
  ln_head t : head T2a = Some t → t.2 = false;
}.
Definition link_next : U unit :=
  if hplus b n =? hd (frees T2) then
    ns ← size_of (hd (frees T2));
    put_size b (u32 (n + ns));;
    nn ← ptr (hd (frees T2));
    put_ptr b nn
  else put_ptr b (hd (frees T2)).
Lemma link_next_ok : ∃ m1 n1 T2a, link_next s = Ok () (set_ua_mem m1 s) ∧ linked_next m1 n1 T2a.
Proof using HH.
  destruct free_tiles as (HT1 & Hn & HT2 & Hb & Hlim). pose proof (next_free _ _ _ HT2 ltac:(unfold hplus, sizeof_header; lia)) as Hnx.
  pose proof (ho_low _ _ HH) as Hlow. pose proof (ho_brk _ _ HH) as Hbk. pose proof (hd_range _ _ _ Hlow HT2 ltac:(unfold hplus, sizeof_header; lia) Hbk) as Hhd.
  assert ((∃ c k T2a, T2 = (c, k, true) :: T2a) ∨ (hplus b n ≠ hd (frees T2) ∧ ∀ t, head T2 = Some t → t.2 = false)) as [(c & k & T2a & E)|[Hne Hh]].
  { destruct T2 as [|[[c k] []] T2']; [right; split; [done|]; done|left; eauto|right; split; [done|]]. by intros t [= <-]. }
  - rewrite E in Hnx, HT2. destruct Hnx as [Ec Ehd]. simpl in HT2. destruct HT2 as (_ & Hk & HT2a). rewrite <- E in Ehd. subst c.
    assert ((hplus b n, k, true) ∈ T1 ++ T2) as Hin by (rewrite E; apply elem_of_app; right; left).
    destruct (free_apart (hplus b n) ltac:(right; eauto)) as [Hcb Hca]. pose proof (tiles_le _ _ _ HT2a) as Hle.
    assert (hsize m (hplus b n) = k) as Ek.
    { eapply (ho_size _ _ HH). apply elem_of_app in Hin as [?|?]; apply elem_of_app; [by left|right; by right]. }
    assert (hptr m (hplus b n) = hd (frees T2a)) as Ep.
    { pose proof free_ring as HR. rewrite E in HR. change (frees ((hplus b n, k, true) :: T2a)) with (hplus b n :: frees T2a) in HR.
      apply links_app in HR as [_ HR]. by apply links_hd in HR. }
    assert (u32 (n + k) = n + k) as Eu by (apply u32_id; unfold LIMIT, hplus, sizeof_header in *; lia).
    assert (0 ≤ n + k < 2 ^ 32) as Hnk by (rewrite <- Eu; apply u32_range).
    pose proof (hd_range _ _ _ Hlow HT2a ltac:(unfold hplus, sizeof_header in *; lia) Hbk) as Hhda.
    exists (set_hptr (set_hsize m b (n + k)) b (hd (frees T2a))), (n + k), T2a. split.
    + unfold link_next. rewrite Ehd, Z.eqb_refl. unfold size_of, put_size, ptr, put_ptr. rewrite !bind_gets, bind_modify, bind_gets. simpl ua_mem.
      rewrite Ek, Eu, hptr_set_size, Ep by (by right). done.
    + split.
      * rewrite hsize_set_ptr, hsize_set, decide_True by (done || by left). done.
      * rewrite hptr_set, decide_True by (done || by left). done.
      * intros x Hx. destruct (free_apart x Hx) as [Hxb Hxa]. rewrite hptr_set, decide_False, hptr_set_size, hsize_set_ptr, hsize_set, decide_False by (done || by right). done.
      * intros x Hx. rewrite rd_set_ptr, rd_set_size by done. done.
      * split; [lia|]. replace (hplus b (n + k)) with (hplus (hplus b n) k) by (unfold hplus; lia). done.
      * right. eauto.
      * intros [[c' k'] f'] Ht. pose proof (ho_adj _ _ HH) as HA. apply no_adj_app in HA as (_ & HA & _). simpl in HA. rewrite E in HA. destruct HA as (_ & HA & _).
        destruct T2a as [|t T2a]; [done|]. injection Ht as ->. by apply HA.
  - exists (set_hptr m b (hd (frees T2))), n, T2. split.
    + unfold link_next. rewrite (proj2 (Z.eqb_neq _ _) Hne). done.
    + split; try done.
      * rewrite hsize_set_ptr by (by left). exact free_size.
      * rewrite hptr_set, decide_True by (done || by left). done.
      * intros x Hx. destruct (free_apart x Hx) as [Hxb Hxa]. rewrite hptr_set, decide_False, hsize_set_ptr by (done || by right). done.
      * intros x Hx. by apply rd_set_ptr.
      * by left.
Qed.

(** The second half: the block is linked behind the free block before it, or merged with that. *)
Section prev.
Context (m1 : mem) (n1 : Z) (T2a : list tile) (HN : linked_next m1 n1 T2a).

Lemma T2a_sub a k f : (a, k, f) ∈ T2a → (a, k, f) ∈ T2.
Proof using All. destruct (ln_T2 _ _ _ HN) as [->|(c & j & ->)]; [done|by right]. Qed.
Lemma T2a_useds : useds T2 = useds T2a.
Proof using All. by destruct (ln_T2 _ _ _ HN) as [->|(c & j & ->)]. Qed.
Lemma T2a_length : (length (frees T2a) ≤ length (frees T2))%nat.
Proof using All. destruct (ln_T2 _ _ _ HN) as [->|(c & j & ->)]; [done|simpl; lia]. Qed.
Lemma T2a_adj : no_adj T2a.
Proof using All.
  pose proof (ho_adj _ _ HH) as HA. apply no_adj_app in HA as (_ & [_ HA] & _). destruct (ln_T2 _ _ _ HN) as [->|(c & j & E)]; [done|].
  rewrite E in HA. apply HA.
Qed.
Lemma node_old x : x ∈ base :: frees T1 ∨ x ∈ frees T2a → x = base ∨ ∃ k g, (x, k, g) ∈ T1 ++ T2.
Proof using All.
  intros [[->|(k & Hk)%elem_frees]%elem_of_cons|(k & Hk%T2a_sub)%elem_frees]; [by left|right|right]; exists k, true; apply elem_of_app; auto.
Qed.
(** The free blocks after it are linked as before. *)
Lemma tail_links m' q : (∀ x, x ∈ frees T2a → hptr m' x = hptr m x) → hptr m' q = hd (frees T2a) → links m' q (frees T2a) base.
Proof using All.
  intros He Hq. pose proof free_ring as HR. assert (∃ L, links m base (L ++ frees T2a) base) as (L & HL).
  { destruct (ln_T2 _ _ _ HN) as [->|(c & j & E)]; [eauto|]. rewrite E in HR. exists (frees T1 ++ [c]). by rewrite <- app_assoc. }
  destruct (frees T2a) as [|a L2]; [done|]. apply links_app in HL as [_ HL]. split; [done|]. eapply links_ext; [|done]. done.
Qed.
Lemma nodes_apart x y : (x = base ∨ ∃ k g, (x, k, g) ∈ T1 ++ T2) → (y = base ∨ ∃ k g, (y, k, g) ∈ T1 ++ T2) → x = y ∨ apart x y.
Proof using All.
  assert (∀ x, (x = base ∨ ∃ k g, (x, k, g) ∈ T1 ++ T2) → x = base ∨ ∃ k g, (x, k, g) ∈ T1 ++ (b, n, false) :: T2) as Hsub.
  { intros z [->|(k & g & Hz)]; [by left|right; exists k, g]. apply elem_of_app in Hz as [Hz|Hz]; apply elem_of_app; [by left|right; by right]. }
  intros Hx Hy. eapply heap_apart; eauto.
Qed.
Lemma p_node : p = base ∨ ∃ k g, (p, k, g) ∈ T1 ++ T2.
Proof using All. apply node_old. left. apply lst_in. Qed.
Lemma node_p x : x ∈ base :: frees T1 ∨ x ∈ frees T2a → x = p ∨ apart p x.
Proof using All. intros Hx. destruct (nodes_apart p x p_node (node_old x Hx)); [by left|by right]. Qed.

Definition link_prev : U unit :=
  ps ← size_of p;
  (if hplus p ps =? b then
     bs ← size_of b;
     put_size p (u32 (ps + bs));;
     bn ← ptr b;
     put_ptr p bn
   else put_ptr p b);;
  modify (set_freep p).

(** The result of [free]. *)
Record freed (s' : ualloc) (T' : list tile) : Prop := {
  fr_heap : heap_ok s' T';
  fr_used : (b, n) :: useds T' ≡ₚ useds (T1 ++ (b, n, false) :: T2);
  fr_rd x : ¬ in_hdr b x → ¬ in_hdr p x → rd (ua_mem s') x = rd m x;
  fr_brk : ua_brk s' = ua_brk s ∧ ua_sbrk s' = ua_sbrk s;
  fr_freep : freep s' = p;
  fr_fit : ∃ a j, (a, j, true) ∈ T' ∧ n ≤ j;
  fr_length : (length (frees T') ≤ S (length (frees (T1 ++ T2))))%nat;
}.
Lemma size_old a k f : (a, k, f) ∈ T1 ++ T2 → hsize m1 a = k.
Proof using All.
  intros Ha. rewrite (proj2 (ln_node _ _ _ HN a ltac:(right; eauto))). eapply (ho_size _ _ HH).
  apply elem_of_app in Ha as [Ha|Ha]; apply elem_of_app; [by left|right; by right].
Qed.

(** Merged with the free block before it. *)
Lemma merge_prev T0 k : T1 = T0 ++ [(p, k, true)] → hplus p k = b →
  ∃ s' T', link_prev (set_ua_mem m1 s) = Ok () s' ∧ freed s' T'.
Proof using All.
  intros E1 Eb. destruct free_tiles as (HT1 & Hn & HT2 & Hb & Hlim). destruct (ln_tiles _ _ _ HN) as [Hn1 HT2a].
  pose proof (ho_low _ _ HH) as Hlow. pose proof (ho_brk _ _ HH) as Hbk. pose proof (tiles_le _ _ _ HT2a) as Hle. set (q := p) in *.
  assert ((q, k, true) ∈ T1 ++ T2) as Hq by (rewrite E1; apply elem_of_app; left; apply elem_of_app; right; left).
  pose proof HT1 as HT0. rewrite E1 in HT0. apply tiles_app in HT0 as (c & HT0 & Hc). simpl in Hc. destruct Hc as (Hqc & Hk & _). rewrite <- Hqc in HT0. clear c Hqc.
  pose proof (tiles_le _ _ _ HT0) as Hqr.
  assert (hsize m1 q = k) as Ek by (by eapply size_old). destruct (free_apart q ltac:(right; eauto)) as [Hqb Hqa].
  assert (u32 (k + n1) = k + n1) as Eu by (apply u32_id; unfold LIMIT, hplus, sizeof_header in *; lia).
  assert (0 ≤ k + n1 < 2 ^ 32) as Hkn by (rewrite <- Eu; apply u32_range).
  pose proof (hd_range _ _ _ Hlow HT2a ltac:(unfold hplus, sizeof_header in *; lia) Hbk) as Hhd.
  set (m2 := set_hptr (set_hsize m1 q (k + n1)) q (hd (frees T2a))).
  assert (∀ x, x ∈ base :: frees T1 ∨ x ∈ frees T2a → x ≠ q → hptr m2 x = hptr m x) as Hptr.
  { intros x Hx Hxq. destruct (node_p x Hx) as [?|Hxa]; [done|]. unfold m2. rewrite hptr_set, decide_False, hptr_set_size by (done || by right).
    apply (ln_node _ _ _ HN). by apply node_old. }
  assert (∀ x j f, (x, j, f) ∈ T1 ++ T2 → x ≠ q → hsize m2 x = j) as Hsz.
  { intros x j f Hx Hxq. destruct (nodes_apart q x p_node ltac:(right; eauto)) as [?|Hxa]; [done|].
    unfold m2. rewrite hsize_set_ptr, hsize_set, decide_False by (done || by right). by eapply size_old. }
  assert (∀ x, x ∈ frees T2a → q < x) as Hafter.
  { intros x (j & Hx)%elem_frees. destruct (tiles_range _ _ _ _ _ _ HT2a Hx) as (Hr & _). unfold hplus, sizeof_header in *. lia. }
  exists (set_freep q (set_ua_mem m2 s)), (T0 ++ (q, k + n1, true) :: T2a). split.
  { unfold link_prev, size_of, put_size, ptr, put_ptr. rewrite bind_gets. simpl ua_mem. fold q. rewrite Ek, Eb, Z.eqb_refl.
    rewrite (bind_Ok _ _ _ () (set_ua_mem m2 s)); [done|]. rewrite bind_gets, bind_modify, bind_gets. simpl ua_mem.
    rewrite (ln_size _ _ _ HN), Eu, hptr_set_size, (ln_ptr _ _ _ HN) by (right; unfold apart in *; lia). done. }
  split; try done.
  - split; try done; simpl ua_mem; simpl ua_brk; simpl freep.
    + apply tiles_app. exists q. split; [done|]. simpl. split; [done|]. split; [lia|]. replace (hplus q (k + n1)) with (hplus b n1) by (unfold hplus in *; lia). done.
    + rewrite frees_app. change (frees ((q, k + n1, true) :: T2a)) with (q :: frees T2a). apply links_app. split.
      * pose proof free_ring as HR. rewrite E1, frees_app in HR. change (frees [(q, k, true)]) with [q] in HR. rewrite <- app_assoc in HR.
        apply links_app in HR as [HR _]. eapply links_ext; [|exact HR]. intros x Hx. apply Hptr.
        -- left. rewrite E1, frees_app. apply elem_of_cons in Hx as [->|Hx]; [left|right]. apply elem_of_app. by left.
        -- intros ->. apply elem_of_cons in Hx as [Hx|(j & Hx)%elem_frees]; [unfold sizeof_header in *; lia|].
           destruct (tiles_range _ _ _ _ _ _ HT0 Hx) as (_ & ? & Hr). unfold hplus, sizeof_header in *. lia.
      * apply tail_links; [|unfold m2; by rewrite hptr_set, decide_True by (done || by left)].
        intros x Hx. apply Hptr; [by right|]. specialize (Hafter x Hx). lia.
    + unfold m2. destruct (nodes_apart q base p_node ltac:(by left)) as [Eq|Ha]; [unfold sizeof_header in *; lia|].
      rewrite hsize_set_ptr, hsize_set, decide_False by (done || (by right) || (unfold sizeof_header in *; lia)).
      rewrite (proj2 (ln_node _ _ _ HN base ltac:(by left))). apply HH.
    + intros a j f [Ha|[[= -> -> ->]|Ha]%elem_of_cons]%elem_of_app.
      * apply (Hsz a j f); [rewrite E1; apply elem_of_app; left; apply elem_of_app; by left|].
        intros ->. destruct (tiles_range _ _ _ _ _ _ HT0 Ha) as (_ & ? & Hr). unfold hplus, sizeof_header in *. lia.
      * unfold m2. by rewrite hsize_set_ptr, hsize_set, decide_True by (done || by left).
      * apply (Hsz a j f); [apply elem_of_app; right; by apply T2a_sub|].
        intros ->. destruct (tiles_range _ _ _ _ _ _ HT2a Ha) as (Hr & _). unfold hplus, sizeof_header in *. lia.
    + pose proof (ho_adj _ _ HH) as HA. rewrite E1, <- app_assoc in HA. apply no_adj_app in HA as (HA0 & _ & HA1). apply no_adj_app.
      split; [done|]. split; [split; [|exact T2a_adj]|].
      * intros _. destruct T2a as [|t T2b] eqn:ET; [done|]. by apply (ln_head _ _ _ HN).
      * intros t1 t2 Ht1 [= <-] Hf. by apply (HA1 t1 _ Ht1 eq_refl Hf).
    + rewrite frees_app. right. apply elem_of_app. right. left.
  - rewrite E1, !useds_app. simpl. rewrite T2a_useds. simpl. rewrite app_nil_r. solve_Permutation.
  - intros x Hx1 Hx2. simpl. unfold m2. rewrite rd_set_ptr, rd_set_size by done. by apply (ln_rd _ _ _ HN).
  - exists q, (k + n1). split; [apply elem_of_app; right; left|lia].
  - pose proof T2a_length. rewrite E1, !frees_app, !length_app. simpl. lia.
Qed.


(** Linked behind the free block before it. *)
Lemma link_behind : hplus p (hsize m p) ≠ b → (∀ t, last T1 = Some t → t.2 = false) →
  ∃ s' T', link_prev (set_ua_mem m1 s) = Ok () s' ∧ freed s' T'.
Proof using All.
  intros Hne Hlast. destruct free_tiles as (HT1 & Hn & HT2 & Hb & Hlim). destruct (ln_tiles _ _ _ HN) as [Hn1 HT2a].
  pose proof (ho_low _ _ HH) as Hlow. pose proof (ho_brk _ _ HH) as Hbk.
  pose proof (asc_frees base h0 T1 b HT1 ltac:(unfold sizeof_header in *; lia)) as Hasc. pose proof (lst_in base (frees T1)) as Hqin. set (q := p) in *.
  destruct (free_apart q p_node) as [Hqb Hqa]. assert (hsize m1 q = hsize m q) as Ek by apply (ln_node _ _ _ HN), p_node.
  assert (0 ≤ b < 2 ^ 64) as Hbr by (unfold LIMIT, hplus, sizeof_header in *; lia).
  set (m2 := set_hptr m1 q b).
  assert (∀ x, x ∈ base :: frees T1 ∨ x ∈ frees T2a → x ≠ q → hptr m2 x = hptr m x) as Hptr.
  { intros x Hx Hxq. destruct (node_p x Hx) as [?|Hxa]; [done|]. unfold m2. rewrite hptr_set, decide_False by (done || by right).
    apply (ln_node _ _ _ HN). by apply node_old. }
  assert (∀ x, (x = base ∨ ∃ k g, (x, k, g) ∈ T1 ++ T2) → hsize m2 x = hsize m x) as Hsz.
  { intros x Hx. unfold m2. rewrite hsize_set_ptr; [by apply (ln_node _ _ _ HN)|].
    destruct (nodes_apart q x p_node Hx); [by left|by right]. }
  assert (∀ x, x ∈ frees T2a → q < x) as Hafter.
  { intros x (j & Hx)%elem_frees. destruct (tiles_range _ _ _ _ _ _ HT2a Hx) as (Hr & _).
    apply elem_of_cons in Hqin as [E|(i & Hi)%elem_frees];
      [|destruct (tiles_range _ _ _ _ _ _ HT1 Hi) as (_ & ? & ?)]; unfold hplus, sizeof_header in *; lia. }
  exists (set_freep q (set_ua_mem m2 s)), (T1 ++ (b, n1, true) :: T2a). split.
  { unfold link_prev, size_of, put_ptr. rewrite bind_gets. simpl ua_mem. fold q. rewrite Ek, (proj2 (Z.eqb_neq _ _) Hne). done. }
  split; try done.
  - split; try done; simpl ua_mem; simpl ua_brk; simpl freep.
    + apply tiles_app. exists b. split; [done|]. split; [done|]. split; [lia|done].
    + rewrite frees_app. change (frees ((b, n1, true) :: T2a)) with (b :: frees T2a). apply links_app. split.
      * pose proof free_ring as HR. assert (∃ c, links m base (frees T1) c) as (c & HL).
        { destruct (frees T2) as [|c L]; [rewrite app_nil_r in HR; eauto|]. apply links_app in HR as [HR _]. eauto. }
        eapply links_to; [by apply asc_NoDup|exact HL|auto|]. fold q. unfold m2. by rewrite hptr_set, decide_True by (done || by left).
      * apply tail_links; [intros x Hx; apply Hptr; [by right|]; specialize (Hafter x Hx); lia|].
        unfold m2. rewrite hptr_set, decide_False by (done || right; unfold apart in *; lia). apply HN.
    + rewrite Hsz by (by left). apply HH.
    + intros a j f [Ha|[[= -> -> ->]|Ha]%elem_of_cons]%elem_of_app.
      * rewrite Hsz by (right; exists j, f; apply elem_of_app; by left). eapply (ho_size _ _ HH). apply elem_of_app. by left.
      * unfold m2. rewrite hsize_set_ptr by (right; unfold apart in *; lia). apply HN.
      * apply T2a_sub in Ha. rewrite Hsz by (right; exists j, f; apply elem_of_app; by right). eapply (ho_size _ _ HH). apply elem_of_app. right. by right.
    + pose proof (ho_adj _ _ HH) as HA. apply no_adj_app in HA as (HA0 & _ & _). apply no_adj_app. split; [done|]. split; [split; [|exact T2a_adj]|].
      * intros _. destruct T2a as [|t T2b] eqn:ET; [done|]. by apply (ln_head _ _ _ HN).
      * intros t1 t2 Ht1 _ Hf. rewrite (Hlast t1 Ht1) in Hf. done.
    + rewrite frees_app. apply elem_of_cons in Hqin as [E|Hi]; [rewrite E; left|right]. apply elem_of_app. by left.
  - rewrite !useds_app. simpl. rewrite T2a_useds. solve_Permutation.
  - intros x Hx1 Hx2. simpl. unfold m2. rewrite rd_set_ptr by done. by apply (ln_rd _ _ _ HN).
  - exists b, n1. split; [apply elem_of_app; right; left|lia].
  - pose proof T2a_length. rewrite !frees_app, !length_app. simpl. lia.
Qed.
End prev.

Lemma free_link_eq : free_link b p s = (link_next;; link_prev) s.
Proof using HH. unfold free_link, ptr, size_of. rewrite !bind_gets. by rewrite free_prev, free_size. Qed.

(** [free] gives the block back; it writes to the headers of the block and of its predecessor only. *)
Lemma free_ok : ∃ s' T', free base (b + sizeof_header) s = Ok () s' ∧ freed s' T'.
Proof using HH.
  pose proof (heap_fuel _ _ HH) as Hfu. rewrite frees_app in Hfu. simpl in Hfu. destruct free_tiles as (HT1 & Hn & HT2 & Hb & Hlim). destruct (ho_low _ _ HH) as [_ Hl].
  pose proof (ho_freep _ _ HH) as Hfp. rewrite frees_app in Hfp. simpl in Hfp. pose proof (asc_frees base h0 _ _ (ho_tiles _ _ HH) ltac:(unfold sizeof_header in *; lia)) as Hasc.
  rewrite frees_app in Hasc. simpl in Hasc. unfold free. rewrite !bind_gets. replace (b + sizeof_header - sizeof_header) with b by lia.
  rewrite (bind_Ok _ _ _ _ _ (free_find_ok b base s (frees T1) (frees T2) _ free_ring Hasc Hb
    ltac:(intros y (k & Hy)%elem_frees; destruct (tiles_range _ _ _ _ _ _ HT1 Hy) as (_ & ? & ?); unfold hplus, sizeof_header in *; lia)
    ltac:(intros y (k & Hy)%elem_frees; destruct (tiles_range _ _ _ _ _ _ HT2 Hy) as (? & _); unfold hplus, sizeof_header in *; lia) Hfp Hfu)).
  rewrite free_link_eq. destruct link_next_ok as (m1 & n1 & T2a & E1 & HN). rewrite (bind_Ok _ _ _ _ _ E1).
  destruct (prev_free m T1 b) as [(T0 & k & ET & Ek)|[Hne Hlast]]; try done; [apply HH| |by eapply merge_prev|by eapply link_behind].
  intros a k f Ha. eapply (ho_size _ _ HH). apply elem_of_app. by left.
Qed.
End free.

(** *** Allocating *)

Lemma links_succ m q L A x B e : links m q L e → q :: L = A ++ x :: B → hptr m x = default e (head B).
Proof.
  revert q L. induction A as [|y A IH]; intros q L HL E; simpl in E; injection E as -> ->.
  - destruct B; simpl in HL; [done|]. by destruct HL as [-> _].
  - destruct A as [|z A]; simpl in HL; destruct HL as [_ HL]; by eapply IH.
Qed.
(** In the ring only the predecessor of a block points at it. *)
Lemma ring_pred m L1 b L2 q : links m base (L1 ++ b :: L2) base → asc base (L1 ++ b :: L2) →
  q ∈ base :: L1 ++ b :: L2 → hptr m q = b → q = lst base L1.
Proof.
  intros HL HA Hq Eq. pose proof (asc_NoDup _ _ HA) as Hnd. rewrite app_comm_cons in Hq. apply elem_of_app in Hq as [Hq|Hq].
  - apply list_elem_of_split in Hq as (A & B & E). assert (base :: L1 ++ b :: L2 = A ++ q :: (B ++ b :: L2)) as E'.
    { rewrite app_comm_cons, E. by rewrite <- app_assoc. }
    rewrite (links_succ _ _ _ _ _ _ _ HL E') in Eq. destruct B as [|c B].
    + destruct A as [|y A]; injection E as -> E; [by subst L1|]. rewrite E. by rewrite lst_app.
    + simpl in Eq. subst c. rewrite E' in Hnd. apply NoDup_app in Hnd as (_ & _ & Hnd). apply NoDup_cons in Hnd as [_ Hnd]. simpl in Hnd.
      apply NoDup_cons in Hnd as [Hn _]. exfalso. apply Hn, elem_of_app. right. left.
  - apply list_elem_of_split in Hq as (A & B & E). assert (base :: L1 ++ b :: L2 = (base :: L1 ++ A) ++ q :: B) as E'.
    { simpl. f_equal. rewrite <- app_assoc. by rewrite E. }
    rewrite (links_succ _ _ _ _ _ _ _ HL E') in Eq. exfalso. rewrite app_comm_cons, E in Hnd. destruct B as [|c B]; simpl in Eq.
    + subst b. apply NoDup_app in Hnd as (_ & Hnd & _). apply (Hnd base); [left|]. destruct A; simpl in *; injection E as ->; left.
    + subst c. apply NoDup_app in Hnd as (_ & _ & Hnd). destruct A as [|y A]; simpl in E; injection E as <- EL.
      * apply NoDup_cons in Hnd as [Hn _]. apply Hn. left.
      * simpl in Hnd. apply NoDup_cons in Hnd as [Hn _]. apply Hn, elem_of_app. right. right. left.
Qed.

(** What [malloc] does for its caller: one more block in use, and the others untouched. *)
Record taken (s : ualloc) (T : list tile) (k r : Z) (s' : ualloc) (T' : list tile) : Prop := {
  tk_heap : heap_ok s' T';
  tk_used : ∃ c, r = c + sizeof_header ∧ useds T' ≡ₚ (c, k) :: useds T;
  tk_kept a j x : (a, j) ∈ useds T → a ≤ x < hplus a j → rd (ua_mem s') x = rd (ua_mem s) x;
}.
Lemma elem_useds a j T : (a, j) ∈ useds T ↔ (a, j, false) ∈ T.
Proof.
  unfold useds. rewrite list_elem_of_omap. split; [|intros Hin; by exists (a, j, false)].
  intros ([[b n] []] & Hin & [= -> ->]). done.
Qed.

Section take.
Context (s : ualloc) (T1 T2 : list tile) (b n k q : Z) (HH : heap_ok s (T1 ++ (b, n, true) :: T2)) (Hk : 0 < k ≤ n).
Context (Hq : q ∈ base :: frees (T1 ++ (b, n, true) :: T2)) (Eq : hptr (ua_mem s) q = b).
Abbreviation m := (ua_mem s).

Lemma take_frees : frees (T1 ++ (b, n, true) :: T2) = frees T1 ++ b :: frees T2.
Proof using Type. by rewrite frees_app. Qed.
Lemma take_pred : q = lst base (frees T1).
Proof using All.
  pose proof (asc_frees base h0 _ _ (ho_tiles _ _ HH) ltac:(destruct (ho_low _ _ HH); unfold sizeof_header in *; lia)) as HA.
  pose proof (ho_ring _ _ HH) as HR. rewrite take_frees in *. by eapply ring_pred.
Qed.
Lemma take_apart x : x = base ∨ (∃ j g, (x, j, g) ∈ T1 ++ T2) → x ≠ b ∧ apart b x.
Proof using All. eapply block_apart; [apply HH|apply HH]. Qed.
Lemma take_q : q ∈ base :: frees T1.
Proof using All. rewrite take_pred. apply lst_in. Qed.
Lemma take_q_node : q = base ∨ ∃ j g, (q, j, g) ∈ T1 ++ T2.
Proof using All.
  pose proof take_q as [->|(j & Hj)%elem_frees]%elem_of_cons; [by left|right]. exists j, true. apply elem_of_app. by left.
Qed.
Lemma take_range : h0 ≤ b ∧ base < b ∧ hplus b n ≤ ua_brk s ∧ tiles h0 T1 b ∧ tiles (hplus b n) T2 (ua_brk s) ∧ hplus b n ≤ LIMIT.
Proof using All.
  pose proof (ho_tiles _ _ HH) as HT. apply tiles_app in HT as (c & H1 & H2). simpl in H2. destruct H2 as (-> & Hn & H2).
  pose proof (tiles_le _ _ _ H1). pose proof (tiles_le _ _ _ H2). pose proof (ho_brk _ _ HH). destruct (ho_low _ _ HH).
  unfold sizeof_header in *. split_and!; try done; lia.
Qed.
(** The bytes of a block in use are not in the header of [q], nor in the block. *)
Lemma take_used a j x : (a, j) ∈ useds (T1 ++ (b, n, true) :: T2) → a ≤ x < hplus a j → ¬ in_hdr q x ∧ ¬ b ≤ x < hplus b n.
Proof using All.
  intros Ha%elem_useds Hx. pose proof (ho_tiles _ _ HH) as HT. split; [by eapply used_hdr|].
  intros Hb. apply elem_of_app in Ha as [Ha|[Ha|Ha]%elem_of_cons]; [|done|].
  - pose proof (proj1 (tiles_apart _ _ _ _ _ _ _ _ _ _ HT) Ha). lia.
  - pose proof (proj2 (tiles_apart _ _ _ _ _ _ _ _ _ _ HT) Ha). lia.
Qed.
Lemma take_size x j g : (x, j, g) ∈ T1 ++ T2 → hsize m x = j.
Proof using All.
  intros Hx. eapply (ho_size _ _ HH). apply elem_of_app in Hx as [Hx|Hx]; apply elem_of_app; [by left|right; by right].
Qed.
Lemma take_adj : no_adj T1 ∧ no_adj T2 ∧ (∀ t, last T1 = Some t → t.2 = false) ∧ ∀ t, head T2 = Some t → t.2 = false.
Proof using All.
  pose proof (ho_adj _ _ HH) as HA. apply no_adj_app in HA as (HA1 & [HA2 HA3] & HA4). split; [done|]. split; [done|]. split.
  - intros t Ht. destruct t.2 eqn:E; [|done]. exact (HA4 t _ Ht eq_refl E).
  - intros t Ht. destruct T2 as [|t' T2']; [done|]. injection Ht as ->. by apply HA2.
Qed.

Lemma take_exact : n = k → ∃ s' T', malloc_take k q b n s = Ok (b + sizeof_header) s' ∧ taken s (T1 ++ (b, n, true) :: T2) k (b + sizeof_header) s' T'.
Proof using All.
  intros En. destruct take_range as (Hb0 & Hb & Hbk & HT1 & HT2 & Hlim). pose proof (ho_ring _ _ HH) as HR. rewrite take_frees in HR.
  apply links_app in HR as [HR1 HR2]. pose proof (links_hd _ _ _ HR2) as Ehd. pose proof (ho_low _ _ HH) as Hlow.
  pose proof (hd_range _ _ _ Hlow HT2 ltac:(unfold hplus, sizeof_header in *; lia) (ho_brk _ _ HH)) as Hhd.
  set (m' := set_hptr m q (hd (frees T2))). destruct (take_apart q take_q_node) as [Hqb Hqa].
  assert (∀ x, (x = base ∨ ∃ j g, (x, j, g) ∈ T1 ++ (b, n, true) :: T2) → x = q ∨ apart q x) as Hap.
  { intros x Hx. destruct (heap_apart _ _ q x HH) as [->|?]; [|done|by left|by right].
    destruct take_q_node as [->|(j & g & Hj)]; [by left|right; exists j, g]. apply elem_of_app in Hj as [?|?]; apply elem_of_app; [by left|right; by right]. }
  assert (∀ x, x ∈ base :: frees T1 ∨ x ∈ frees T2 → x ≠ q → hptr m' x = hptr m x) as Hptr.
  { intros x Hx Hne. unfold m'. rewrite hptr_set, decide_False; try done. apply Hap.
    destruct Hx as [[->|(j & Hx)%elem_frees]%elem_of_cons|(j & Hx)%elem_frees]; [by left|right|right]; exists j, true; apply elem_of_app; [by left|right; by right]. }
  exists (set_freep q (set_ua_mem m' s)), (T1 ++ (b, n, false) :: T2). split.
  { unfold malloc_take. rewrite (proj2 (Z.eqb_eq n k) En). unfold ptr, put_ptr. rewrite (bind_Ok _ _ _ b (set_ua_mem m' s)); [done|].
    rewrite bind_gets, bind_modify, Ehd. done. }
  pose proof (asc_frees base h0 T1 b HT1 ltac:(unfold sizeof_header in *; lia)) as Hasc. pose proof take_q as Hqin. split.
  - split; try apply HH; simpl ua_mem; simpl freep.
    + pose proof (ho_tiles _ _ HH) as HT. apply tiles_app in HT as (c & ? & Hc). apply tiles_app. by exists c.
    + rewrite frees_app. change (frees ((b, n, false) :: T2)) with (frees T2). assert (links m' base (frees T1) (hd (frees T2))) as HL1.
      { eapply links_to; [by apply asc_NoDup|exact HR1| |]; rewrite <- take_pred; [auto|].
        unfold m'. by rewrite hptr_set, decide_True by (done || by left). }
      destruct (frees T2) as [|c L] eqn:EL; [by rewrite app_nil_r|]. apply links_app. split; [exact HL1|]. destruct HR2 as [_ HR2].
      eapply links_ext; [|exact HR2]. intros x Hx. apply Hptr; [by right|]. intros ->.
      assert (q ∈ frees T2) as (j & Hj)%elem_frees by (by rewrite EL). destruct (tiles_range _ _ _ _ _ _ HT2 Hj) as (Hr & _).
      apply elem_of_cons in Hqin as [->|(i & Hi)%elem_frees]; [unfold hplus, sizeof_header in *; lia|].
      destruct (tiles_range _ _ _ _ _ _ HT1 Hi) as (_ & ? & ?). unfold hplus, sizeof_header in *. lia.
    + unfold m'. rewrite hsize_set_ptr; [apply HH|]. apply Hap. by left.
    + intros a j f Ha. unfold m'. assert (∃ g, (a, j, g) ∈ T1 ++ (b, n, true) :: T2) as (g & Hg).
      { apply elem_of_app in Ha as [?|[[= -> -> ->]|?]%elem_of_cons]; [exists f|exists true|exists f]; apply elem_of_app; [by left|right; left|right; by right]. }
      rewrite hsize_set_ptr; [by eapply (ho_size _ _ HH)|]. apply Hap. right. eauto.
    + destruct take_adj as (A1 & A2 & A3 & A4). apply no_adj_app. split; [done|]. split; [by split|]. intros t1 t2 Ht1 [= <-]. done.
    + rewrite frees_app. change (frees ((b, n, false) :: T2)) with (frees T2).
      apply elem_of_cons in Hqin as [->|Hi]; [left|right]. apply elem_of_app. by left.
  - exists b. split; [done|]. rewrite !useds_app. simpl. rewrite En. solve_Permutation.
  - intros a j x Ha Hx. simpl. unfold m'. apply rd_set_ptr. by eapply take_used.
Qed.

Lemma take_split : k < n → let c := hplus b (n - k) in
  ∃ s' T', malloc_take k q b n s = Ok (c + sizeof_header) s' ∧ taken s (T1 ++ (b, n, true) :: T2) k (c + sizeof_header) s' T'.
Proof using All.
  intros Hlt c. destruct take_range as (Hb0 & Hb & Hbk & HT1 & HT2 & Hlim). pose proof (ho_low _ _ HH) as Hlow.
  assert (u32 (n - k) = n - k) as Eu by (apply u32_id; unfold LIMIT, hplus, sizeof_header in *; lia).
  assert (0 ≤ n - k < 2 ^ 32 ∧ 0 ≤ k < 2 ^ 32) as [Hr1 Hr2] by (unfold LIMIT, hplus, sizeof_header in *; lia).
  set (m' := set_hsize (set_hsize m b (n - k)) c k).
  assert (apart c b ∧ c ≠ b) as [Hcb Hcne] by (unfold apart, c, hplus, sizeof_header in *; lia).
  assert (∀ x, (x = base ∨ ∃ j g, (x, j, g) ∈ T1 ++ T2) → x ≠ c ∧ apart c x) as Hc.
  { intros x [->|(j & g & Hx)]; [unfold apart, c, hplus, sizeof_header in *; lia|].
    apply elem_of_app in Hx as [Hx|Hx]; [destruct (tiles_range _ _ _ _ _ _ HT1 Hx) as (? & ? & ?)|destruct (tiles_range _ _ _ _ _ _ HT2 Hx) as (? & ? & ?)];
      unfold apart, c, hplus, sizeof_header in *; lia. }
  assert (∀ x, (x = base ∨ ∃ j g, (x, j, g) ∈ T1 ++ T2) → hsize m' x = hsize m x ∧ hptr m' x = hptr m x) as Hsame.
  { intros x Hx. destruct (Hc x Hx) as [? ?]. destruct (take_apart x Hx) as [? ?]. unfold m'.
    rewrite !hsize_set, !decide_False, !hptr_set_size by (done || by right). done. }
  assert (hptr m' b = hptr m b) as Hpb by (unfold m'; rewrite !hptr_set_size by ((by left) || (right; unfold apart in *; lia)); done).
  exists (set_freep q (set_ua_mem m' s)), (T1 ++ (b, n - k, true) :: (c, k, false) :: T2). split.
  { unfold malloc_take. rewrite (proj2 (Z.eqb_neq n k)) by lia. unfold put_size. rewrite (bind_Ok _ _ _ c (set_ua_mem m' s)); [done|].
    rewrite Eu, !bind_modify. done. }
  split.
  - split; try apply HH; simpl ua_mem; simpl freep.
    + apply tiles_app. exists b. split; [done|]. simpl. split; [done|]. split; [lia|]. split; [done|]. split; [lia|].
      replace (hplus (hplus b (n - k)) k) with (hplus b n) by (unfold hplus; lia). done.
    + rewrite frees_app. change (frees ((b, n - k, true) :: (c, k, false) :: T2)) with (b :: frees T2).
      pose proof (ho_ring _ _ HH) as HR. rewrite take_frees in HR. eapply links_ext; [|exact HR]. intros x.
      rewrite <- take_frees. intros [->|(j & Hx)%elem_frees]%elem_of_cons; [apply Hsame; by left|].
      apply elem_of_app in Hx as [Hx|[[= -> ->]|Hx]%elem_of_cons]; [|done|]; apply Hsame; right; exists j, true; apply elem_of_app; auto.
    + rewrite (proj1 (Hsame base ltac:(by left))). apply HH.
    + intros a j f [Ha|[[= -> -> ->]|[[= -> -> ->]|Ha]%elem_of_cons]%elem_of_cons]%elem_of_app.
      * assert ((a, j, f) ∈ T1 ++ T2) as Hin by (apply elem_of_app; by left). rewrite (proj1 (Hsame a ltac:(right; eauto))). by eapply take_size.
      * unfold m'. rewrite hsize_set, decide_False, hsize_set, decide_True by (done || (by left) || (by right)). done.
      * unfold m'. rewrite hsize_set, decide_True by (done || by left). done.
      * assert ((a, j, f) ∈ T1 ++ T2) as Hin by (apply elem_of_app; by right). rewrite (proj1 (Hsame a ltac:(right; eauto))). by eapply take_size.
    + destruct take_adj as (A1 & A2 & A3 & A4). apply no_adj_app. split; [done|]. split; [by split; [done|split]|].
      intros t1 t2 Ht1 [= <-] Hf. rewrite (A3 t1 Ht1) in Hf. done.
    + rewrite take_frees in Hq. by rewrite frees_app.
  - exists c. split; [done|]. rewrite !useds_app. simpl. solve_Permutation.
  - intros a j x Ha Hx. simpl. unfold m'. destruct (take_used a j x Ha Hx) as [_ Hnb].
    rewrite !rd_set_size; [done|unfold in_hdr, hplus, sizeof_header in *; lia|unfold in_hdr, c, hplus, sizeof_header in *; lia].
Qed.
End take.

Lemma take_ok s T b n k q : heap_ok s T → (b, n, true) ∈ T → 0 < k ≤ n → q ∈ base :: frees T → hptr (ua_mem s) q = b →
  ∃ r s' T', malloc_take k q b n s = Ok r s' ∧ taken s T k r s' T'.
Proof.
  intros HH (T1 & T2 & ->)%list_elem_of_split Hk Hq Eq. destruct (decide (n = k)) as [En|En].
  - destruct (take_exact s T1 T2 b n k q HH Hk Hq Eq En) as (s' & T' & H1 & H2). eauto.
  - destruct (take_split s T1 T2 b n k q HH Hk Hq Eq ltac:(lia)) as (s' & T' & H1 & H2). eauto.
Qed.

(** *** The search *)

Lemma search s k R : ∀ prev q fuel, links (ua_mem s) prev R q → (∀ x, x ∈ R → x ≠ freep s ∧ hsize (ua_mem s) x < k) →
  malloc_loop base (length R + fuel) k prev (hptr (ua_mem s) prev) s = malloc_loop base fuel k (lst prev R) q s.
Proof.
  induction R as [|a R IH]; intros prev q fuel HL Hx; simpl in HL; [by rewrite HL|]. destruct HL as [-> HL]. rewrite lst_cons.
  destruct (Hx a ltac:(left)) as [Hne Hsz]. cbn [length Nat.add malloc_loop]. unfold size_of, ptr. rewrite bind_gets.
  rewrite (proj2 (Z.leb_gt _ _)) by lia. rewrite bind_gets, (proj2 (Z.eqb_neq _ _) Hne), bind_gets. apply IH; [done|].
  intros x Hin. apply Hx. by right.
Qed.
(** A block that is large enough is found in one round. *)
Lemma loop_fit s T k fuel : heap_ok s T → 0 < k → (∃ b n, (b, n, true) ∈ T ∧ k ≤ n) → (S (length (frees T)) < fuel)%nat →
  ∃ r s' T', malloc_loop base fuel k (freep s) (hptr (ua_mem s) (freep s)) s = Ok r s' ∧ taken s T k r s' T'.
Proof.
  intros HH Hk (b & n & Hb & Hn) Hfu. destruct (links_rotate _ _ _ _ (ho_ring _ _ HH) (ho_freep _ _ HH)) as (R & HR & HP).
  assert (length R = length (frees T)) as HlR by (apply Permutation_length in HP; simpl in HP; lia).
  assert (∀ x, x ∈ freep s :: R → x ∈ base :: frees T) as Hin by (intros x; by rewrite HP).
  assert (freep s ∉ R) as Hnf.
  { assert (NoDup (freep s :: R)) as Hnd; [|by apply NoDup_cons in Hnd as [? _]]. rewrite HP. eapply asc_NoDup, asc_frees; [apply HH|].
    destruct (ho_low _ _ HH). unfold sizeof_header in *. lia. }
  assert (∀ x, x ∈ base :: frees T → k ≤ hsize (ua_mem s) x → (x, hsize (ua_mem s) x, true) ∈ T) as Htile.
  { intros x [->|(j & Hx)%elem_frees]%elem_of_cons Hs; [rewrite (ho_base _ _ HH) in Hs; lia|]. by rewrite (ho_size _ _ HH _ _ _ Hx). }
  destruct (decide (Exists (λ x, k ≤ hsize (ua_mem s) x) R)) as [HE|HE].
  - apply Exists_exists in HE as (x0 & Hx0 & Hs0). destruct (list_find (λ x, k ≤ hsize (ua_mem s) x) R) as [[i x]|] eqn:EF.
    2:{ apply list_find_None in EF. rewrite Forall_forall in EF. by destruct (EF x0). }
    apply list_find_Some in EF as (Hi & Hs & Hlow). pose proof (take_drop_middle R i x Hi) as ER. set (R1 := take i R) in *. set (R2 := drop (S i) R) in *.
    rewrite <- ER in HR. apply links_app in HR as [HR1 HR2].
    assert (length R1 ≤ length R)%nat as Hl1 by (rewrite <- ER, length_app; lia).
    replace fuel with (length R1 + S (fuel - S (length R1)))%nat by lia. rewrite (search s k R1 (freep s) x _ HR1).
    2:{ intros y Hy. split; [intros ->; apply Hnf; rewrite <- ER; apply elem_of_app; by left|]. unfold R1 in Hy.
        apply list_elem_of_lookup in Hy as (j & Hj). apply lookup_take_Some in Hj as [Hj Hji]. specialize (Hlow j y Hj Hji). lia. }
    cbn [malloc_loop]. unfold size_of. rewrite bind_gets, (proj2 (Z.leb_le _ _) Hs).
    apply (take_ok s T); [done| |lia| |by eapply links_last].
    + apply Htile; [|done]. apply Hin. right. rewrite <- ER. apply elem_of_app. right. left.
    + apply Hin. pose proof (lst_in (freep s) R1) as [->|Hx]%elem_of_cons; [left|right]. rewrite <- ER. apply elem_of_app. by left.
  - rewrite <- Forall_Exists_neg, Forall_forall in HE.
    replace fuel with (length R + S (fuel - S (length R)))%nat by lia. rewrite (search s k R (freep s) (freep s) _ HR).
    2:{ intros y Hy. split; [by intros ->|]. specialize (HE y Hy). lia. }
    assert (k ≤ hsize (ua_mem s) (freep s)) as Hs.
    { assert (b ∈ freep s :: R) as [<-|Hx]%elem_of_cons; [rewrite HP; right; apply elem_frees; eauto| |].
      - by rewrite (ho_size _ _ HH _ _ _ Hb).
      - destruct (HE b Hx). by rewrite (ho_size _ _ HH _ _ _ Hb). }
    cbn [malloc_loop]. unfold size_of. rewrite bind_gets, (proj2 (Z.leb_le _ _) Hs).
    apply (take_ok s T); [done|apply Htile; [apply HH|done]|lia| |by eapply links_last]. apply Hin, lst_in.
Qed.

(** When no block is large enough the loop asks for more memory. *)
Lemma loop_nofit s T k fuel : heap_ok s T → 0 < k → (∀ b n, (b, n, true) ∈ T → n < k) →
  malloc_loop base (S (length (frees T)) + fuel) k (freep s) (hptr (ua_mem s) (freep s)) s =
  (p ← morecore base k; if p =? 0 then mret 0 else nx ← ptr p; malloc_loop base fuel k p nx) s.
Proof.
  intros HH Hk Hno. destruct (links_rotate _ _ _ _ (ho_ring _ _ HH) (ho_freep _ _ HH)) as (R & HR & HP).
  assert (length R = length (frees T)) as HlR by (apply Permutation_length in HP; simpl in HP; lia).
  assert (∀ x, x ∈ freep s :: R → hsize (ua_mem s) x < k) as Hsm.
  { intros x. rewrite HP. intros [->|(n & Hx)%elem_frees]%elem_of_cons; [rewrite (ho_base _ _ HH); lia|].
    rewrite (ho_size _ _ HH _ _ _ Hx). by eapply Hno. }
  assert (freep s ∉ R) as Hnf.
  { assert (NoDup (freep s :: R)) as Hnd; [|by apply NoDup_cons in Hnd as [? _]]. rewrite HP. eapply asc_NoDup, asc_frees; [apply HH|].
    destruct (ho_low _ _ HH). unfold sizeof_header in *. lia. }
  rewrite <- HlR, Nat.add_succ_comm, (search s k R (freep s) (freep s) _ HR).
  2:{ intros x Hx. split; [by intros ->|]. apply Hsm. by right. }
  cbn [malloc_loop]. unfold size_of. rewrite bind_gets, (proj2 (Z.leb_gt _ _)) by (apply Hsm; left). rewrite bind_gets, Z.eqb_refl. done.
Qed.

Definition core (k : Z) : Z := if k <? 4096 then 4096 else k.
Lemma morecore_fail s T k : heap_ok s T → head (ua_sbrk s) ≠ Some true → ∃ s', morecore base k s = Ok 0 s' ∧ heap_ok s' T ∧ ua_mem s' = ua_mem s.
Proof.
  intros HH Hs. unfold morecore, sbrk. exists (Ualloc (ua_mem s) (freep s) (ua_brk s) (tail (ua_sbrk s))). split; [|split; [|done]].
  - rewrite (bind_Ok _ _ _ (u64 (-1)) (Ualloc (ua_mem s) (freep s) (ua_brk s) (tail (ua_sbrk s)))); [done|].
    rewrite bind_gets, bind_modify. by destruct (head (ua_sbrk s)) as [[]|].
  - by destruct HH.
Qed.
Lemma morecore_ok s T k : heap_ok s T → 0 < k → head (ua_sbrk s) = Some true → ua_brk s + sizeof_header * core k ≤ LIMIT →
  ∃ s' T', morecore base k s = Ok (freep s') s' ∧ freep s' ≠ 0 ∧ heap_ok s' T' ∧ useds T' ≡ₚ useds T ∧
    (∃ b n, (b, n, true) ∈ T' ∧ k ≤ n) ∧ (length (frees T') ≤ S (length (frees T)))%nat ∧ ∀ a j x, (a, j) ∈ useds T → a ≤ x < hplus a j → rd (ua_mem s') x = rd (ua_mem s) x.
Proof.
  intros HH Hk Hs Hlim. set (nu := core k) in *. assert (4096 ≤ nu ∧ k ≤ nu) as [Hnu Hknu] by (unfold nu, core; destruct (Z.ltb_spec k 4096); lia).
  pose proof (ho_low _ _ HH) as Hlow. pose proof (tiles_le _ _ _ (ho_tiles _ _ HH)) as Hle. set (b := ua_brk s) in *. set (e := hplus b nu).
  assert (0 < b ∧ e ≤ LIMIT) as [Hb He] by (unfold e, hplus, sizeof_header in *; lia).
  set (m1 := set_hsize (ua_mem s) b nu). set (s1 := Ualloc m1 (freep s) e (tail (ua_sbrk s))).
  assert (∀ x, (x = base ∨ ∃ j g, (x, j, g) ∈ T) → x ≠ b ∧ apart b x) as Hap.
  { intros x [->|(j & g & Hx)]; [unfold apart, sizeof_header in *; lia|]. destruct (tiles_range _ _ _ _ _ _ (ho_tiles _ _ HH) Hx) as (? & ? & Hxe).
    change (ua_brk s) with b in Hxe. unfold apart, hplus, sizeof_header in *. lia. }
  assert (0 ≤ nu < 2 ^ 32) as Hnr by (unfold e, LIMIT, hplus, sizeof_header in *; lia).
  assert (heap_ok s1 (T ++ [(b, nu, false)])) as HH1.
  { split; try done; simpl ua_mem; simpl freep; simpl ua_brk.
    - apply tiles_app. exists b. split; [apply HH|]. simpl. split; [done|]. split; [lia|done].
    - rewrite frees_app, app_nil_r. eapply links_ext; [|apply HH]. intros x Hx. apply hptr_set_size. right. apply Hap.
      apply elem_of_cons in Hx as [->|(j & Hx)%elem_frees]; [by left|right; eauto].
    - destruct (Hap base ltac:(by left)). unfold m1. rewrite hsize_set, decide_False by (done || by right). apply HH.
    - intros a j f [Ha|Ha]%elem_of_app.
      + destruct (Hap a ltac:(right; eauto)). unfold m1. rewrite hsize_set, decide_False by (done || by right). by eapply (ho_size _ _ HH).
      + apply list_elem_of_singleton in Ha as [= -> -> ->]. unfold m1. by rewrite hsize_set, decide_True by (done || by left).
    - apply no_adj_app. split; [apply HH|]. split; [done|]. by intros t1 t2 _ [= <-].
    - rewrite frees_app, app_nil_r. apply HH. }
  destruct (free_ok s1 T [] b nu HH1) as (s2 & T' & E2 & HF). exists s2, T'. split.
  { unfold morecore. fold (core k). fold nu. unfold sbrk. rewrite (bind_Ok _ _ _ b (Ualloc (ua_mem s) (freep s) e (tail (ua_sbrk s)))).
    2:{ rewrite bind_gets, bind_modify, Hs. change (default false (Some true)) with true. cbv iota. rewrite bind_gets, bind_modify. cbn [ua_brk ua_mem freep ua_sbrk]. change (ua_brk s) with b.
        rewrite i32_id by (unfold e, LIMIT, hplus, sizeof_header in *; lia). unfold e, hplus. by rewrite Z.mul_comm. }
    rewrite (proj2 (Z.eqb_neq _ _)) by (change (u64 (-1)) with (2 ^ 64 - 1); unfold e, LIMIT, hplus, sizeof_header in *; lia).
    unfold put_size. rewrite bind_modify. change (set_ua_mem _ _) with s1. rewrite (bind_Ok _ _ _ _ _ E2). done. }
  assert (useds T' ≡ₚ useds T) as HU.
  { pose proof (fr_used _ _ _ _ _ _ _ HF) as HU. rewrite useds_app in HU. simpl in HU. rewrite <- Permutation_cons_append in HU. by apply Permutation_cons_inv in HU. }
  split.
  { pose proof (ho_freep _ _ (fr_heap _ _ _ _ _ _ _ HF)) as [->|(j & Hx)%elem_frees]%elem_of_cons; [lia|].
    destruct (tiles_range _ _ _ _ _ _ (ho_tiles _ _ (fr_heap _ _ _ _ _ _ _ HF)) Hx). unfold sizeof_header in *. lia. }
  split; [apply HF|]. split; [done|]. split.
  { destruct (fr_fit _ _ _ _ _ _ _ HF) as (a & j & Ha & Hj). exists a, j. split; [done|lia]. }
  split; [pose proof (fr_length _ _ _ _ _ _ _ HF) as Hfl; by rewrite app_nil_r in Hfl|].
  intros a j x Ha Hx. apply elem_useds in Ha. destruct (tiles_range _ _ _ _ _ _ (ho_tiles _ _ HH) Ha) as (Ha0 & Hj & Haj). change (ua_brk s) with b in Haj.
  rewrite (fr_rd _ _ _ _ _ _ _ HF).
  - apply rd_set_size. unfold in_hdr. unfold hplus, sizeof_header in *. lia.
  - unfold in_hdr. unfold hplus, sizeof_header in *. lia.
  - eapply used_hdr; [exact HH|done|done|apply lst_in].
Qed.
End heap.

(** ** What the allocator promises *)

(** The state before the first call, or a heap. *)
Definition ready (base h0 : Z) (s : ualloc) (T : list tile) : Prop :=
  heap_ok base h0 s T ∨
  freep s = 0 ∧ T = [] ∧ ua_brk s = h0 ∧ 0 < base ∧ base + sizeof_header ≤ h0 ∧ h0 ≤ LIMIT.

Lemma init_heap base h0 s : ua_brk s = h0 → 0 < base → base + sizeof_header ≤ h0 → h0 ≤ LIMIT →
  let s0 := set_ua_mem (set_hsize (set_hptr (ua_mem s) base base) base 0) (set_freep base s) in heap_ok base h0 s0 [].
Proof.
  intros Hb H0 H1 H2 s0. assert (0 ≤ base < 2 ^ 64) by (unfold LIMIT, sizeof_header in *; lia).
  split; simpl; try done; [lia|..].
  - rewrite hptr_set_size, hptr_set, decide_True by (done || by left). done.
  - rewrite hsize_set, decide_True by (done || by left). done.
  - by intros a n f ?%elem_of_nil.
  - left.
Qed.

Lemma malloc_run base h0 s T k : heap_ok base h0 s T → 0 < k → ua_brk s + sizeof_header * core k ≤ LIMIT →
  ∃ r s', malloc_loop base (2 * ua_fuel base s + 2) k (freep s) (hptr (ua_mem s) (freep s)) s = Ok r s' ∧
    ((∃ T', taken base h0 s T k r s' T') ∨
     r = 0 ∧ head (ua_sbrk s) ≠ Some true ∧ (∀ b n, (b, n, true) ∈ T → n < k) ∧ heap_ok base h0 s' T ∧ ua_mem s' = ua_mem s).
Proof.
  intros HH Hk Hlim. pose proof (heap_fuel _ _ _ _ HH) as Hfu.
  destruct (decide (Exists (λ t : tile, t.2 = true ∧ k ≤ t.1.2) T)) as [HE|HE].
  { apply Exists_exists in HE as ([[b n] f] & Hin & Hf & Hn). simpl in Hf, Hn. subst f.
    destruct (loop_fit base h0 s T k (2 * ua_fuel base s + 2) HH Hk) as (r & s' & T' & E & HT); [eauto|lia|]. exists r, s'. split; [done|]. left. eauto. }
  rewrite <- Forall_Exists_neg, Forall_forall in HE. assert (∀ b n, (b, n, true) ∈ T → n < k) as Hno.
  { intros b n Hin. destruct (decide (n < k)); [done|]. destruct (HE _ Hin). simpl. split; [done|lia]. }
  replace (2 * ua_fuel base s + 2)%nat with (S (length (frees T)) + (2 * ua_fuel base s + 1 - length (frees T)))%nat by lia.
  rewrite (loop_nofit base h0 s T k _ HH Hk Hno). destruct (decide (head (ua_sbrk s) = Some true)) as [Hs|Hs].
  - destruct (morecore_ok base h0 s T k HH Hk Hs Hlim) as (s1 & T1 & E1 & Hf1 & HH1 & HU1 & Hfit & Hlen & Hkept).
    rewrite (bind_Ok _ _ _ _ _ E1), (proj2 (Z.eqb_neq _ _) Hf1). unfold ptr. rewrite bind_gets.
    destruct (loop_fit base h0 s1 T1 k (2 * ua_fuel base s + 1 - length (frees T)) HH1 Hk Hfit) as (r & s2 & T2 & E2 & [K1 K2 K3]); [lia|].
    exists r, s2. split; [done|]. left. exists T2. split; [done| |].
    + destruct K2 as (c & Hc & HU). exists c. split; [done|]. by rewrite HU, HU1.
    + intros a j x Ha Hx. rewrite (K3 a j x) by (done || by rewrite HU1). by eapply Hkept.
  - destruct (morecore_fail base h0 s T k HH Hs) as (s1 & E1 & HH1 & Hm). rewrite (bind_Ok _ _ _ _ _ E1). simpl.
    exists 0, s1. split; [done|]. right. done.
Qed.

Lemma nunits_ok nbytes : 0 ≤ nbytes < 2 ^ 32 → 0 < nunits_of nbytes ∧ nbytes ≤ sizeof_header * (nunits_of nbytes - 1) < nbytes + sizeof_header.
Proof.
  intros Hn. unfold nunits_of, sizeof_header. pose proof (Z.div_mod (nbytes + 16 - 1) 16 ltac:(lia)).
  pose proof (Z.mod_pos_bound (nbytes + 16 - 1) 16 ltac:(lia)). rewrite u32_id by lia. lia.
Qed.

(** C12. For a request below 2^32 bytes that, if it takes new memory from [sbrk], keeps the break within
    2^31 bytes, [malloc] returns the address behind the header of a new block, large enough for the request and
    apart from every block in use, whose bytes are as before; it fails only when no free block is
    large enough and [sbrk] fails, and then the heap is as before.  In both cases the
    blocks fill the heap without gaps, the free list is the ring of the free ones in
    address order, and no two free ones touch. *)
Theorem malloc_spec base h0 s T nbytes :
  let k := nunits_of nbytes in
  ready base h0 s T → 0 ≤ nbytes < 2 ^ 32 → ua_brk s + sizeof_header * core k ≤ LIMIT →
  ∃ r s', malloc base nbytes s = Ok r s' ∧
    ((∃ T', taken base h0 s T k r s' T' ∧ nbytes ≤ sizeof_header * (k - 1)) ∨
     r = 0 ∧ head (ua_sbrk s) ≠ Some true ∧ (∀ b n, (b, n, true) ∈ T → n < k) ∧ heap_ok base h0 s' T ∧
     ∀ a j x, (a, j) ∈ useds T → a ≤ x < hplus a j → rd (ua_mem s') x = rd (ua_mem s) x).
Proof.
  intros k HR Hn Hlim. destruct (nunits_ok nbytes Hn) as [Hk [Hk1 _]]. fold k in Hk, Hk1.
  assert (∃ s0, malloc base nbytes s = malloc_loop base (2 * ua_fuel base s0 + 2) k (freep s0) (hptr (ua_mem s0) (freep s0)) s0 ∧
    heap_ok base h0 s0 T ∧ ua_brk s0 = ua_brk s ∧ ua_sbrk s0 = ua_sbrk s ∧ (s0 = s ∨ T = [])) as (s0 & E0 & HH & Eb & Es & Hs0).
  { unfold malloc. fold k. rewrite bind_gets. destruct HR as [HH|(Hf & -> & Hb & H1 & H2 & H3)].
    - exists s. split; [|by auto]. rewrite (proj2 (Z.eqb_neq (freep s) 0)).
      + rewrite bind_ret. unfold ptr. by rewrite !bind_gets.
      + destruct (ho_low _ _ _ _ HH) as [? ?]. pose proof (ho_freep _ _ _ _ HH) as [->|(j & Hx)%elem_frees]%elem_of_cons; [lia|].
        destruct (tiles_range _ _ _ _ _ _ (ho_tiles _ _ _ _ HH) Hx). unfold sizeof_header in *. lia.
    - pose proof (init_heap base h0 s Hb H1 H2 H3) as HI. cbv zeta in HI. eexists. split; [|split; [exact HI|by auto]].
      rewrite Hf, Z.eqb_refl. unfold put_ptr, put_size.
      rewrite (bind_Ok _ _ _ base (set_ua_mem (set_hsize (set_hptr (ua_mem s) base base) base 0) (set_freep base s))) by (by rewrite !bind_modify).
      unfold ptr. by rewrite !bind_gets. }
  destruct (malloc_run base h0 s0 T k HH Hk ltac:(lia)) as (r & s' & E & Hres). rewrite E0, E. exists r, s'. split; [done|].
  destruct Hres as [(T' & [K1 K2 K3])|(-> & Hs & Hno & HH' & Hm)].
  - left. exists T'. split; [|done]. split; [done|done|]. intros a j x Ha. destruct Hs0 as [->| ->]; [by apply K3|by apply elem_of_nil in Ha].
  - right. split; [done|]. split; [by rewrite <- Es|]. split; [done|]. split; [done|].
    intros a j x Ha. destruct Hs0 as [->| ->]; [by rewrite Hm|by apply elem_of_nil in Ha].
Qed.

(** C13. [free] of a block in use gives exactly that block back, merged with the free blocks next to it,
    and leaves the bytes of the blocks still in use as they are. *)
Theorem free_spec base h0 s T b n :
  heap_ok base h0 s T → (b, n) ∈ useds T →
  ∃ s' T', free base (b + sizeof_header) s = Ok () s' ∧ heap_ok base h0 s' T' ∧ (b, n) :: useds T' ≡ₚ useds T ∧
    ∀ a j x, (a, j) ∈ useds T' → a ≤ x < hplus a j → rd (ua_mem s') x = rd (ua_mem s) x.
Proof.
  intros HH Hin. apply elem_useds in Hin as (T1 & T2 & ->)%list_elem_of_split.
  destruct (free_ok base h0 s T1 T2 b n HH) as (s' & T' & E & HF). exists s', T'. split; [done|]. split; [apply HF|]. split; [apply HF|].
  intros a j x Ha Hx. assert ((a, j, false) ∈ T1 ++ T2) as Hold.
  { apply elem_useds. pose proof (fr_used _ _ _ _ _ _ _ _ _ HF) as HU. rewrite !useds_app in *. simpl in HU. rewrite <- Permutation_middle in HU.
    apply Permutation_cons_inv in HU. by rewrite <- HU. }
  pose proof (ho_tiles _ _ _ _ HH) as HT. apply (fr_rd _ _ _ _ _ _ _ _ _ HF).
  - unfold in_hdr. destruct (tiles_range _ _ _ b n false HT ltac:(apply elem_of_app; right; left)) as (_ & Hn & _). apply elem_of_app in Hold as [Ho|Ho].
    + pose proof (proj1 (tiles_apart _ _ _ _ _ _ _ _ _ _ HT) Ho). lia.
    + pose proof (proj2 (tiles_apart _ _ _ _ _ _ _ _ _ _ HT) Ho). unfold hplus, sizeof_header in *. lia.
  - eapply used_hdr; [exact HH| |done|].
    + apply elem_of_app in Hold as [?|?]; apply elem_of_app; [by left|right; by right].
    + rewrite frees_app. pose proof (lst_in base (frees T1)) as [->|Hp]%elem_of_cons; [left|right]. apply elem_of_app. by left.
Qed.

(** A program that has allocated nothing yet, with [base] at 4096 and the break at 8192. *)
Definition ua_start : ualloc := Ualloc ∅ 0 8192 [true].
Lemma malloc_spec_witness :
  ∃ r s', malloc 4096 100 ua_start = Ok r s' ∧ ∃ T', taken 4096 8192 ua_start [] 8 r s' T' ∧ 100 ≤ sizeof_header * (8 - 1).
Proof.
  destruct (malloc_spec 4096 8192 ua_start [] 100) as (r & s' & E & [H|(_ & Hs & _)]).
  - right. repeat split; done.
  - done.
  - done.
  - exists r, s'. split; [exact E|exact H].
  - by destruct Hs.
Defined.
(** The heap after the allocation: the block of 8 headers is the end of the new memory. *)
Definition ua_one : ualloc := match malloc 4096 100 ua_start with Ok _ s => s | _ => ua_start end.
Lemma ua_one_heap : heap_ok 4096 8192 ua_one [(8192, 4088, true); (73600, 8, false)].
Proof.
  split.
  - done.
  - vm_compute. done.
  - vm_compute. repeat split; done.
  - vm_compute. done.
  - vm_compute. done.
  - intros a n f Ha. repeat (apply elem_of_cons in Ha as [[= -> -> ->]|Ha]; [vm_compute; done|]). by apply elem_of_nil in Ha.
  - done.
  - assert (freep ua_one = 4096) as -> by (vm_compute; done). left.
Qed.
Lemma free_spec_witness :
  ∃ s' T', free 4096 (73600 + sizeof_header) ua_one = Ok () s' ∧ heap_ok 4096 8192 s' T' ∧
    (73600, 8) :: useds T' ≡ₚ [(73600, 8)].
Proof.
  destruct (free_spec 4096 8192 ua_one _ 73600 8 ua_one_heap) as (s' & T' & E & HH & HU & _).
  - left.
  - exists s', T'. split; [exact E|]. split; [exact HH|exact HU].
Defined.
