(* ===== verification/Ulib.v ===== *)
(** * The user library

    [user/ulib.c] over the byte memory of a process, and the system calls the
    programs of [user/] make, as an interface: [Env] is what a process sees of
    the kernel, [reads] and [writes] are what the programs rely on. *)

From stdpp Require Import options.
From S2P Require Import Prelude CString.
#[local] Open Scope Z_scope.

(** ** Strings *)

(** Loops over a string stop at its NUL, within the size of the memory;
    [strcpy] onto its own argument need not stop. *)
Fixpoint strcpy_loop (fuel : nat) (m : mem) (s t : Z) : option mem :=
  match fuel with
  | O => None
  | S fuel =>
    let m' := wr s (rd m t) m in
    if rd m t =? 0 then Some m' else strcpy_loop fuel m' (s + 1) (t + 1)
  end.
Definition strcpy (m : mem) (s t : Z) : option mem := strcpy_loop (S (size m)) m s t.

Fixpoint strcmp_loop (fuel : nat) (m : mem) (p q : Z) : option Z :=
  match fuel with
  | O => None
  | S fuel =>
    if negb (rd m p =? 0) && (rd m p =? rd m q) then strcmp_loop fuel m (p + 1) (q + 1)
    else Some (rd m p - rd m q)
  end.
Definition strcmp (m : mem) (p q : Z) : Z := default 0 (strcmp_loop (S (size m)) m p q).

Fixpoint strlen_loop (fuel : nat) (m : mem) (s n : Z) : option Z :=
  match fuel with
  | O => None
  | S fuel => if rd m (s + n) =? 0 then Some n else strlen_loop fuel m s (n + 1)
  end.
Definition strlen (m : mem) (s : Z) : Z := default 0 (strlen_loop (S (size m)) m s 0).

Fixpoint memset_loop (n : nat) (m : mem) (cdst c i : Z) : mem :=
  match n with
  | O => m
  | S n => memset_loop n (wr (cdst + i) c m) cdst c (i + 1)
  end.
Definition memset (m : mem) (dst c n : Z) : mem := memset_loop (Z.to_nat n) m dst c 0.

(** 0 when the character is not in the string; the NUL is never found. *)
Fixpoint strchr_loop (fuel : nat) (m : mem) (s c : Z) : option Z :=
  match fuel with
  | O => None
  | S fuel =>
    if rd m s =? 0 then Some 0
    else if rd m s =? c then Some s else strchr_loop fuel m (s + 1) c
  end.
Definition strchr (m : mem) (s c : Z) : Z := default 0 (strchr_loop (S (size m)) m s c).

(** [n] is a C [int]. *)
Fixpoint atoi_loop (fuel : nat) (m : mem) (s n : Z) : option Z :=
  match fuel with
  | O => None
  | S fuel =>
    if (48 <=? rd m s) && (rd m s <=? 57) then atoi_loop fuel m (s + 1) (i32 (n * 10 + rd m s - 48))
    else Some n
  end.
Definition atoi (m : mem) (s : Z) : Z := default 0 (atoi_loop (S (size m)) m s 0).

Fixpoint move_up (n : nat) (m : mem) (dst src : Z) : mem :=
  match n with
  | O => m
  | S n => move_up n (wr dst (rd m src) m) (dst + 1) (src + 1)
  end.
Fixpoint move_down (n : nat) (m : mem) (dst src : Z) : mem :=
  match n with
  | O => m
  | S n => move_down n (wr (dst - 1) (rd m (src - 1)) m) (dst - 1) (src - 1)
  end.
Definition memmove (m : mem) (vdst vsrc n : Z) : mem :=
  if vdst <? vsrc then move_up (Z.to_nat n) m vdst vsrc
  else move_down (Z.to_nat n) m (vdst + n) (vsrc + n).
Definition memcpy (m : mem) (dst src n : Z) : mem := memmove m dst src n.

Fixpoint memcmp_loop (n : nat) (m : mem) (p1 p2 : Z) : Z :=
  match n with
  | O => 0
  | S n => if negb (rd m p1 =? rd m p2) then rd m p1 - rd m p2 else memcmp_loop n m (p1 + 1) (p2 + 1)
  end.
Definition memcmp (m : mem) (s1 s2 n : Z) : Z := memcmp_loop (Z.to_nat n) m s1 s2.

(** ** System calls *)

(** What a process sees of the kernel: the result of a call and, for [read],
    the bytes it delivers. *)
Class Env (E : Type) := {
  sys_read : Z → Z → E → Z * list Z * E;
  sys_write : Z → list Z → E → Z * E;
}.
(** A process: its memory and the kernel. *)
Record ust (E : Type) := Ust { u_mem : mem; u_env : E }.
Arguments Ust {_} _ _.
Arguments u_mem {_} _.
Arguments u_env {_} _.
Definition set_u_mem {E} (m : mem) (s : ust E) : ust E := Ust m (u_env s).
Definition set_u_env {E} (e : E) (s : ust E) : ust E := Ust (u_mem s) e.

Section calls.
Context {E : Type} `{Env E}.

(** [read(fd, buf, n)] and [write(fd, buf, n)]. *)
Definition uread (fd buf n : Z) : M (ust E) Z := λ s,
  let '(r, bs, e) := sys_read fd n (u_env s) in
  Ok r (Ust (wr_bytes (u_mem s) buf bs) e).
Definition uwrite (fd buf n : Z) : M (ust E) Z := λ s,
  let '(r, e) := sys_write fd (rd_bytes (u_mem s) buf (Z.to_nat n)) (u_env s) in
  Ok r (set_u_env e s).

(** [gets]: [i] bytes are in the buffer. *)
Fixpoint gets_loop (fuel : nat) (buf max c i : Z) : M (ust E) Z :=
  match fuel with
  | O => λ _, NoFuel
  | S fuel =>
    if negb (i + 1 <? max) then mret i else
    cc ← uread 0 c 1;
    if cc <? 1 then mret i else
    b ← gets (λ s, rd (u_mem s) c);
    modify (λ s, set_u_mem (wr (buf + i) b (u_mem s)) s);;
    if (b =? 10) || (b =? 13) then mret (i + 1)
    else gets_loop fuel buf max c (i + 1)
  end.
Definition ugets (buf max c : Z) : M (ust E) unit :=
  i ← gets_loop (S (Z.to_nat max)) buf max c 0;
  modify (λ s, set_u_mem (wr (buf + i) 0 (u_mem s)) s).
End calls.

(** The kernel as a source of the bytes [input] on [fd]: a read delivers some
    of the bytes that are left, none only at the end, and does not print. *)
Record reads {E} `{Env E} (fd : Z) (input : E → list Z) (out : E → list Z) : Prop := {
  rds_read n e : 0 ≤ n → ∃ bs e', sys_read fd n e = (Z.of_nat (length bs), bs, e') ∧
    Z.of_nat (length bs) ≤ n ∧ input e = bs ++ input e' ∧ out e' = out e ∧
    (0 < n → bs = [] → input e = []);
}.
(** ... and as a sink of the bytes written to descriptor 1. *)
Record writes {E} `{Env E} (input : E → list Z) (out : E → list Z) : Prop := {
  wrs_write bs e : ∃ e', sys_write 1 bs e = (Z.of_nat (length bs), e') ∧
    out e' = out e ++ bs ∧ input e' = input e;
}.

(** A kernel that delivers [c_in] in pieces of the sizes [c_cuts], and one
    byte at a time after that. *)
Record cutter := Cutter { c_in : list Z; c_cuts : list nat; c_out : list Z }.
#[export] Instance cutter_Env : Env cutter := {
  sys_read fd n e :=
    let k := Nat.min (S (default 0%nat (head (c_cuts e)))) (Z.to_nat n) in
    let bs := take k (c_in e) in
    (Z.of_nat (length bs), bs, Cutter (drop k (c_in e)) (tail (c_cuts e)) (c_out e));
  sys_write fd bs e := (Z.of_nat (length bs), Cutter (c_in e) (c_cuts e) (c_out e ++ bs));
}.
Lemma cutter_reads fd : reads fd c_in c_out.
Proof.
  constructor. intros n e Hn. cbn [sys_read cutter_Env]. eexists _, _. split; [done|].
  split; [rewrite length_take; lia|]. split; [by cbn; rewrite take_drop|]. split; [done|].
  intros Hp Hnil. destruct (c_in e) as [|b l]; [done|].
  destruct (Z.to_nat n) eqn:En; [lia|]. simpl in Hnil. done.
Qed.
Lemma cutter_writes : writes c_in c_out.
Proof. constructor. intros bs e. by eexists. Qed.

(** ** Lemmas *)

(** The first [c] of a string. *)
Fixpoint index_of (c : Z) (l : list Z) : option nat :=
  match l with
  | [] => None
  | b :: l => if b =? c then Some 0%nat else S <$> index_of c l
  end.
Lemma strchr_loop_spec m c l fuel : ∀ s, str_at m s l → (length l < fuel)%nat →
  strchr_loop fuel m s c = Some match index_of c l with Some i => s + Z.of_nat i | None => 0 end.
Proof.
  revert fuel. induction l as [|b l IH]; intros [|fuel] s H Hf; simpl in *; try lia.
  - by rewrite H.
  - destruct H as (-> & H2 & H3). rewrite (proj2 (Z.eqb_neq b 0) H2).
    destruct (b =? c); [by rewrite Z.add_0_r|]. rewrite (IH fuel (s + 1)) by (done || lia).
    destruct (index_of c l); [|done]. cbn. f_equal. lia.
Qed.
Lemma strchr_spec m s c l :
  str_at m s l →
  strchr m s c = match index_of c l with Some i => s + Z.of_nat i | None => 0 end.
Proof.
  intros H. unfold strchr. pose proof (str_at_size _ _ _ H).
  by rewrite (strchr_loop_spec m c l) by (done || lia).
Qed.
Lemma index_of_Some c l i :
  index_of c l = Some i ↔ l !! i = Some c ∧ c ∉ take i l.
Proof.
  revert i. induction l as [|b l IH]; intros i; simpl; [naive_solver|].
  destruct (Z.eqb_spec b c) as [->|Hn].
  - split; [intros [= <-]; simpl; set_solver|]. intros [_ Hi]. destruct i as [|i]; [done|].
    simpl in Hi. set_solver.
  - destruct i as [|i]; simpl.
    + split; [|naive_solver]. destruct (index_of c l); done.
    + rewrite elem_of_cons, fmap_Some. split.
      * intros (j & E & [= ->]). apply IH in E. naive_solver.
      * intros [H1 H2]. exists i. split; [|done]. apply IH. naive_solver.
Qed.
Lemma index_of_None c l : index_of c l = None ↔ c ∉ l.
Proof.
  induction l as [|b l IH]; simpl; [set_solver|]. rewrite elem_of_cons.
  destruct (Z.eqb_spec b c); [naive_solver|]. rewrite fmap_None, IH. naive_solver.
Qed.

(** [memmove] copies correctly when the areas overlap. *)
Lemma rd_move_up n : ∀ m dst src a, mem_ok m → dst < src →
  rd (move_up n m dst src) a =
    if decide (dst ≤ a < dst + Z.of_nat n) then rd m (src + (a - dst)) else rd m a.
Proof.
  induction n as [|n IH]; intros m dst src a Hm Hlt; cbn [move_up].
  - rewrite decide_False by lia. done.
  - rewrite IH by (by apply mem_ok_wr || lia). repeat case_decide; try lia.
    + rewrite rd_wr_ne by lia. f_equal. lia.
    + replace a with dst by lia. rewrite rd_wr_eq, u8_id by apply Hm. f_equal. lia.
    + rewrite rd_wr_ne by lia. done.
Qed.
Lemma rd_move_down n : ∀ m dst src a, mem_ok m → src ≤ dst →
  rd (move_down n m dst src) a =
    if decide (dst - Z.of_nat n ≤ a < dst) then rd m (src + (a - dst)) else rd m a.
Proof.
  induction n as [|n IH]; intros m dst src a Hm Hle; cbn [move_down].
  - rewrite decide_False by lia. done.
  - rewrite IH by (by apply mem_ok_wr || lia). repeat case_decide; try lia.
    + rewrite rd_wr_ne by lia. f_equal. lia.
    + replace a with (dst - 1) by lia. rewrite rd_wr_eq, u8_id by apply Hm. f_equal. lia.
    + rewrite rd_wr_ne by lia. done.
Qed.
Lemma memmove_rd m dst src n a : mem_ok m → 0 ≤ n →
  rd (memmove m dst src n) a = if decide (dst ≤ a < dst + n) then rd m (src + (a - dst)) else rd m a.
Proof.
  intros Hm Hn. unfold memmove. destruct (Z.ltb_spec dst src).
  - rewrite rd_move_up, Z2Nat.id by (done || lia). done.
  - rewrite rd_move_down, Z2Nat.id by (done || lia). repeat case_decide; try lia.
    f_equal. lia.
Qed.
Lemma memmove_mem_ok m dst src n : mem_ok m → 0 ≤ n → mem_ok (memmove m dst src n).
Proof. intros Hm Hn a. rewrite memmove_rd by done. case_decide; apply Hm. Qed.
Lemma memmove_bytes m dst src n : mem_ok m →
  rd_bytes (memmove m dst src (Z.of_nat n)) dst n = rd_bytes m src n.
Proof.
  intros Hm. apply list_eq. intros i. destruct (decide (i < n)%nat).
  - rewrite !lookup_rd_bytes by done. rewrite memmove_rd, decide_True by (done || lia). do 2 f_equal. lia.
  - rewrite !lookup_ge_None_2; [done|rewrite length_rd_bytes; lia..].
Qed.

Lemma strlen_str m s l : str_at m s l → strlen m s = Z.of_nat (length l).
Proof.
  intros Hs. assert (∀ fuel l' n, (length l' < fuel)%nat → str_at m (s + n) l' →
    strlen_loop fuel m s n = Some (n + Z.of_nat (length l'))) as Hloop.
  { induction fuel as [|fuel IH]; intros l' n Hf H; [lia|]. cbn [strlen_loop].
    destruct l' as [|b l']; [rewrite H; f_equal; simpl; lia|]. destruct H as (-> & Hb & H).
    rewrite (proj2 (Z.eqb_neq b 0) Hb). rewrite (IH l'); [f_equal; simpl; lia|simpl in Hf; lia|by rewrite Z.add_assoc]. }
  unfold strlen. pose proof (str_at_size _ _ _ Hs). rewrite (Hloop _ l 0); [done|lia|by rewrite Z.add_0_r].
Qed.

(** [strcmp] compares strings, [memset] fills. *)
Lemma strcmp_loop_spec m a : ∀ b fuel p q, str_at m p a → str_at m q b → (length a < fuel)%nat →
  ∃ r, strcmp_loop fuel m p q = Some r ∧ (r = 0 ↔ a = b).
Proof.
  induction a as [|x a IH]; intros b [|fuel] p q Ha Hb Hf; simpl in Hf; try lia; cbn [strcmp_loop].
  - rewrite Ha. change (negb (0 =? 0)) with false. cbn [andb]. eexists. split; [done|].
    destruct b as [|y b]; [rewrite Hb; done|]. destruct Hb as (-> & Hy & _). split; [lia|done].
  - destruct Ha as (-> & Hx & Ha). rewrite (proj2 (Z.eqb_neq x 0) Hx). cbn [negb andb].
    destruct b as [|y b]; [rewrite Hb, (proj2 (Z.eqb_neq x 0) Hx); eexists; split; [done|]; split; [lia|done]|].
    destruct Hb as (-> & Hy & Hb). destruct (Z.eqb_spec x y) as [->|Hn].
    + destruct (IH b fuel _ _ Ha Hb ltac:(lia)) as (r & -> & Hr). exists r. split; [done|]. rewrite Hr. naive_solver.
    + eexists. split; [done|]. split; [lia|]. intros [= -> _]. done.
Qed.
Lemma strcmp_spec m p q a b : str_at m p a → str_at m q b → strcmp m p q = 0 ↔ a = b.
Proof.
  intros Ha Hb. pose proof (str_at_size _ _ _ Ha). unfold strcmp.
  destruct (strcmp_loop_spec m a b (S (size m)) p q Ha Hb ltac:(lia)) as (r & -> & Hr). done.
Qed.
Lemma rd_umemset_loop n : ∀ m d c i a, rd (memset_loop n m d c i) a =
  if decide (d + i ≤ a < d + i + Z.of_nat n) then u8 c else rd m a.
Proof.
  induction n as [|n IH]; intros m d c i a; cbn [memset_loop]; [rewrite decide_False by lia; done|].
  rewrite IH, rd_wr. repeat case_decide; lia || done.
Qed.
Lemma memset_rd m d c n a : 0 ≤ n → rd (memset m d c n) a = if decide (d ≤ a < d + n) then u8 c else rd m a.
Proof. intros Hn. unfold memset. rewrite rd_umemset_loop, Z2Nat.id, Z.add_0_r by done. done. Qed.
