(* ===== verification/Uprogs.v ===== *)
(** * Small user programs

    [user/printf.c], [cat], [wc], [echo], the name formatting of [ls] and
    [find], and [readline] of [xargs], over the interface [Env].  [buf] is the address of
    the static buffer of a program; a loop that reads a descriptor to its end takes
    the number of reads as fuel. *)

From stdpp Require Import options.
From S2P Require Import Prelude CString Ulib.
#[local] Open Scope Z_scope.

(** ** Formatted output *)

(** [digits\[i\]] *)
Definition udigit (i : Z) : Z := if i <? 10 then 48 + i else 55 + i.
(** The [do ... while] of [printint]: the bytes of [buf], least significant
    digit first.  A 32-bit number has at most 32 digits. *)
Fixpoint udigits (fuel : nat) (x base : Z) : list Z :=
  match fuel with
  | O => []
  | S fuel => udigit (x mod base) :: (if x / base =? 0 then [] else udigits fuel (x / base) base)
  end.
Definition uprintint_chars (xx base : Z) (sgn : bool) : list Z :=
  let xx := i32 xx in
  let neg := sgn && (xx <? 0) in
  let x := u32 (if neg then - xx else xx) in
  rev (udigits 32 x base ++ (if neg then [45] else [])).
(** The digits [printptr] prints. *)
Fixpoint uptr_digits (n : nat) (x : Z) : list Z :=
  match n with
  | O => []
  | S n => udigit (Z.shiftr x 60) :: uptr_digits n (u64 (Z.shiftl x 4))
  end.

Inductive uarg := U_int (x : Z) | U_str (s : option (list Z)).
Definition uarg_z (a : option uarg) : Z := match a with Some (U_int x) => x | _ => 0 end.
Definition uarg_s (a : option uarg) : list Z :=
  match a with Some (U_str (Some l)) => l | _ => [40; 110; 117; 108; 108; 41] end.

Section progs.
Context {E : Type} `{Env E}.

Definition putc (fd c : Z) : M (ust E) unit := λ s,
  let '(_, e) := sys_write fd [u8 c] (u_env s) in Ok () (set_u_env e s).
Fixpoint putcs (fd : Z) (l : list Z) : M (ust E) unit :=
  match l with [] => mret () | c :: l => putc fd c;; putcs fd l end.
Definition uprintint (fd xx base : Z) (sgn : bool) : M (ust E) unit := putcs fd (uprintint_chars xx base sgn).
Definition uprintptr (fd x : Z) : M (ust E) unit := putc fd 48;; putc fd 120;; putcs fd (uptr_digits 16 x).

(** One conversion on the next argument, and whether it used it. *)
Definition uconvert (fd c : Z) (a : option uarg) : M (ust E) bool :=
  if c =? 100 then uprintint fd (uarg_z a) 10 true;; mret true
  else if c =? 108 then uprintint fd (uarg_z a) 10 false;; mret true
  else if c =? 120 then uprintint fd (uarg_z a) 16 false;; mret true
  else if c =? 112 then uprintptr fd (uarg_z a);; mret true
  else if c =? 115 then putcs fd (uarg_s a);; mret true
  else if c =? 99 then putc fd (uarg_z a);; mret true
  else if c =? 37 then putc fd c;; mret false
  else putc fd 37;; putc fd c;; mret false.
(** [pct] is [state == '%']. *)
Fixpoint vprintf (fd : Z) (fmt : list Z) (pct : bool) (ap : list uarg) : M (ust E) unit :=
  match fmt with
  | [] => mret ()
  | c :: fmt =>
    if negb pct then
      if c =? 37 then vprintf fd fmt true ap else putc fd c;; vprintf fd fmt false ap
    else
      used ← uconvert fd c (head ap);
      vprintf fd fmt false (if used : bool then tail ap else ap)
  end.
Definition fprintf (fd : Z) (fmt : list Z) (ap : list uarg) : M (ust E) unit := vprintf fd fmt false ap.
Definition uprintf (fmt : list Z) (ap : list uarg) : M (ust E) unit := vprintf 1 fmt false ap.

(** ** cat *)

Definition lit (s : string) : list Z :=
  map (λ c, Z.of_N (Ascii.N_of_ascii c)) (String.list_ascii_of_string s).

(** The exit status, when the function exits. *)
Fixpoint cat (fuel : nat) (buf fd : Z) : M (ust E) (option Z) :=
  match fuel with
  | O => λ _, NoFuel
  | S fuel =>
    n ← uread fd buf 512;
    if 0 <? n then
      w ← uwrite 1 buf n;
      if negb (w =? n) then fprintf 2 (lit "cat: write error" ++ [10]) [];; mret (Some 1)
      else cat fuel buf fd
    else if n <? 0 then fprintf 2 (lit "cat: read error" ++ [10]) [];; mret (Some 1)
    else mret None
  end.

(** ** wc *)

Record counts := Counts { n_l : Z; n_w : Z; n_c : Z; inword : bool }.
(** The body of the inner loop. *)
Definition wc_char (b : Z) (k : counts) : counts :=
  let k := Counts (n_l k) (n_w k) (i32 (n_c k + 1)) (inword k) in
  let k := if b =? 10 then Counts (i32 (n_l k + 1)) (n_w k) (n_c k) (inword k) else k in
  if bool_decide (b ∈ [32; 13; 9; 10; 11]) then Counts (n_l k) (n_w k) (n_c k) false
  else if negb (inword k) then Counts (n_l k) (i32 (n_w k + 1)) (n_c k) true
  else k.
Fixpoint wc_chars (n : nat) (m : mem) (p : Z) (k : counts) : counts :=
  match n with
  | O => k
  | S n => wc_chars n m (p + 1) (wc_char (rd m p) k)
  end.
Fixpoint wc_loop (fuel : nat) (buf fd : Z) (k : counts) : M (ust E) (Z * counts) :=
  match fuel with
  | O => λ _, NoFuel
  | S fuel =>
    n ← uread fd buf 512;
    if 0 <? n then
      m ← gets u_mem;
      wc_loop fuel buf fd (wc_chars (Z.to_nat n) m buf k)
    else mret (n, k)
  end.
Definition wc (fuel : nat) (buf fd : Z) (name : list Z) : M (ust E) (option Z) :=
  '(n, k) ← wc_loop fuel buf fd (Counts 0 0 0 false);
  if n <? 0 then uprintf (lit "wc: read error" ++ [10]) [];; mret (Some 1)
  else
    uprintf (lit "%d %d %d %s" ++ [10]) [U_int (n_l k); U_int (n_w k); U_int (n_c k); U_str (Some name)];;
    mret None.

(** ** echo *)

Fixpoint echo (args : list Z) : M (ust E) unit :=
  match args with
  | [] => mret ()
  | a :: args =>
    n ← gets (λ s, strlen (u_mem s) a);
    uwrite 1 a n;;
    (match args with [] => putc 1 10 | _ => putc 1 32 end);;
    echo args
  end.

(** ** readline of xargs *)

Fixpoint readline_loop (fuel : nat) (fd p : Z) : M (ust E) Z :=
  match fuel with
  | O => λ _, NoFuel
  | S fuel =>
    n ← uread fd p 1;
    b ← gets (λ s, rd (u_mem s) p);
    if (0 <? n) && negb (b =? 10) then readline_loop fuel fd (p + 1) else mret p
  end.
(** 0 at the end of the input, and for an empty line. *)
Definition readline (fuel : nat) (buf fd : Z) : M (ust E) Z :=
  p ← readline_loop fuel fd buf;
  if p =? buf then mret 0 else
  modify (λ s, set_u_mem (wr p 0 (u_mem s)) s);;
  mret buf.
End progs.

(** ** fmtname of ls and find *)

Definition DIRSIZ : Z := 14.
Fixpoint last_slash (n : nat) (m : mem) (path p : Z) : Z :=
  match n with
  | O => p
  | S n => if (path <=? p) && negb (rd m p =? 47) then last_slash n m path (p - 1) else p
  end.
(** The result and the memory; [buf] is the static buffer. *)
Definition fmtname (buf : Z) (m : mem) (path : Z) : Z * mem :=
  let p := last_slash (S (Z.to_nat (strlen m path))) m path (path + strlen m path) in
  let p := p + 1 in
  if DIRSIZ <=? strlen m p then (p, m) else
  let m1 := memmove m buf p (strlen m p) in
  let m2 := memset m1 (buf + strlen m1 p) 32 (DIRSIZ - strlen m1 p) in
  (buf, m2).
