(* ===== verification/UprogSpec.v ===== *)
(** * What the small programs print

    [cat] copies its input however the reads cut it, [wc] counts the lines, words
    and bytes of it, and [fmtname] pads the last element of a path. *)

From stdpp Require Import options.
From S2P Require Import Prelude CString Ulib Uprogs.
#[local] Open Scope Z_scope.

(** ** Printing *)

Definition conversion (c : Z) (a : option uarg) : list Z * bool :=
  if c =? 100 then (uprintint_chars (uarg_z a) 10 true, true)
  else if c =? 108 then (uprintint_chars (uarg_z a) 10 false, true)
  else if c =? 120 then (uprintint_chars (uarg_z a) 16 false, true)
  else if c =? 112 then ([48; 120] ++ uptr_digits 16 (uarg_z a), true)
  else if c =? 115 then (uarg_s a, true)
  else if c =? 99 then ([uarg_z a], true)
  else if c =? 37 then ([37], false)
  else ([37; c], false).
(** The text of a format. *)
Fixpoint render (fmt : list Z) (pct : bool) (ap : list uarg) : list Z :=
  match fmt with
  | [] => []
  | c :: fmt =>
    if negb pct then if c =? 37 then render fmt true ap else c :: render fmt false ap
    else let '(l, used) := conversion c (head ap) in
         l ++ render fmt false (if used : bool then tail ap else ap)
  end.

Section prints.
Context {E : Type} `{Env E} (input out : E → list Z) (Hw : writes input out).

(** [x] prints [l] and does nothing else. *)
Definition uprints {A} (x : M (ust E) A) (l : list Z) (a : A) : Prop :=
  ∀ s, ∃ e, x s = Ok a (Ust (u_mem s) e) ∧ out e = out (u_env s) ++ map u8 l ∧ input e = input (u_env s).
Lemma uprints_ret {A} (a : A) : uprints (mret a) [] a.
Proof. intros [m e]. exists e. split_and!; [done|by rewrite app_nil_r|done]. Qed.
Lemma uprints_bind {A B} (x : M (ust E) A) (f : A → M (ust E) B) l l' a b :
  uprints x l a → uprints (f a) l' b → uprints (x ≫= f) (l ++ l') b.
Proof.
  intros Hx Hf s. destruct (Hx s) as (e & E1 & O1 & I1). destruct (Hf (Ust (u_mem s) e)) as (e' & E2 & O2 & I2).
  exists e'. erewrite bind_Ok by done. split_and!; [done| |by rewrite I2].
  rewrite O2. cbn [u_env]. by rewrite O1, map_app, app_assoc.
Qed.
Lemma putc_prints c : uprints (putc 1 c) [c] ().
Proof using Hw.
  intros [m e]. unfold putc. cbn [u_env u_mem]. destruct (wrs_write _ _ Hw [u8 c] e) as (e' & -> & Ho & Hi).
  by exists e'.
Qed.
Lemma putcs_prints l : uprints (putcs 1 l) l ().
Proof using Hw.
  induction l as [|c l IH]; [apply uprints_ret|]. apply (uprints_bind _ _ [c] l () ()); [apply putc_prints|done].
Qed.
Lemma prints_then {B} x l (b : B) : uprints x l () → uprints (x;; mret b) l b.
Proof. intros Hx. rewrite <- (app_nil_r l). eapply uprints_bind; [done|apply uprints_ret]. Qed.
Lemma uconvert_prints c a : uprints (uconvert 1 c a) (conversion c a).1 (conversion c a).2.
Proof using Hw.
  unfold uconvert, conversion.
  do 3 (case_match; [apply prints_then, putcs_prints|]).
  case_match.
  { apply prints_then, (uprints_bind _ _ [48] _ () ()); [apply putc_prints|].
    apply (uprints_bind _ _ [120] _ () ()); [apply putc_prints|apply putcs_prints]. }
  case_match; [apply prints_then, putcs_prints|]. case_match; [apply prints_then, putc_prints|].
  destruct (Z.eqb_spec c 37) as [->|_]; [apply prints_then, putc_prints|].
  apply (uprints_bind _ _ [37] [c] () false); [apply putc_prints|]. apply prints_then, putc_prints.
Qed.
Lemma vprintf_prints fmt : ∀ pct ap, uprints (vprintf 1 fmt pct ap) (render fmt pct ap) ().
Proof using Hw.
  induction fmt as [|c fmt IH]; intros pct ap; cbn [vprintf render]; [apply uprints_ret|].
  destruct pct; cbn [negb].
  - pose proof (uconvert_prints c (head ap)) as Hc. destruct (conversion c (head ap)) as [l used]. by eapply uprints_bind.
  - destruct (c =? 37); [apply IH|]. eapply (uprints_bind _ _ [c]); [apply putc_prints|apply IH].
Qed.
End prints.

(** ** cat *)

(** [cat] copies its descriptor to standard output, however the reads cut
    the input, and does not exit. *)
Theorem cat_spec {E} `{Env E} (input out : E → list Z) buf fd fuel s :
  reads fd input out → writes input out →
  Forall is_byte (input (u_env s)) → (length (input (u_env s)) < fuel)%nat →
  ∃ s', cat fuel buf fd s = Ok None s' ∧ out (u_env s') = out (u_env s) ++ input (u_env s) ∧ input (u_env s') = [].
Proof.
  intros Hr Hw. revert s. induction fuel as [|fuel IH]; intros s Hby Hf; [lia|]. cbn [cat].
  destruct (rds_read _ _ _ Hr 512 (u_env s) ltac:(lia)) as (bs & e & Er & Hbs & Hin & Ho & Hend).
  erewrite bind_Ok by (unfold uread; rewrite Er; done). rewrite Hin in Hby, Hf. apply Forall_app in Hby as [Hby1 Hby2].
  destruct bs as [|b bs'] eqn:Ebs.
  { cbn [length]. change (0 <? Z.of_nat 0) with false. change (Z.of_nat 0 <? 0) with false. cbv iota.
    specialize (Hend ltac:(lia) eq_refl). eexists. split; [done|]. cbn [u_env]. simpl in Hin.
    by rewrite Ho, <- Hin, Hend, app_nil_r. }
  rewrite <- Ebs in *. assert (0 < length bs)%nat by (subst; simpl; lia). clear Ebs b bs'.
  rewrite (proj2 (Z.ltb_lt 0 (Z.of_nat (length bs)))) by lia.
  destruct (wrs_write _ _ Hw bs e) as (e' & Ew & Ho' & Hi').
  erewrite bind_Ok by (unfold uwrite; cbn [u_mem u_env]; rewrite Nat2Z.id, rd_bytes_wr_bytes by done; rewrite Ew; done).
  rewrite Z.eqb_refl. cbn [negb]. rewrite length_app in Hf.
  destruct (IH (set_u_env e' (Ust (wr_bytes (u_mem s) buf bs) e))) as (s' & E1 & O1 & I1); cbn [set_u_env u_env]; rewrite ?Hi'; [done|lia|].
  exists s'. split; [done|]. cbn [u_env set_u_env] in O1. by rewrite O1, Ho', Ho, Hi', Hin, <- app_assoc.
Qed.

(** ** wc *)

Definition blank (b : Z) : Prop := b ∈ [32; 13; 9; 10; 11].
(** The words of a text: the pieces between blanks that are not empty. *)
Fixpoint pieces (l : list Z) : list (list Z) :=
  match l with
  | [] => [[]]
  | b :: l =>
    if bool_decide (b ∈ [32; 13; 9; 10; 11]) then [] :: pieces l
    else match pieces l with [] => [[b]] | p :: ps => (b :: p) :: ps end
  end.
Definition words (l : list Z) : list (list Z) := filter (λ w, w ≠ []) (pieces l).
Definition newlines (l : list Z) : nat := length (filter (λ b, b = 10) l).

(** The words that start in [l], when [w] says a word is open before it. *)
Definition starting (w : bool) (l : list Z) : nat :=
  length (filter (λ w, w ≠ []) (if w then tail (pieces l) else pieces l)).
Lemma pieces_cons l : ∃ p ps, pieces l = p :: ps.
Proof. destruct l as [|b l]; simpl; [by eexists _, _|]. destruct (bool_decide _); [by eexists _, _|]. destruct (pieces l); by eexists _, _. Qed.
Lemma starting_cons w b l :
  starting w (b :: l) = if bool_decide (b ∈ [32; 13; 9; 10; 11]) then starting false l
                        else ((if w then 0 else 1) + starting true l)%nat.
Proof.
  unfold starting. cbn [pieces]. destruct (bool_decide _); [by destruct w|].
  destruct (pieces_cons l) as (p & ps & ->). by destruct w.
Qed.
Lemma starting_le w l : (starting w l ≤ length l)%nat.
Proof.
  revert w. induction l as [|b l IH]; intros w; [by destruct w|]. rewrite starting_cons. simpl.
  destruct (bool_decide _); [specialize (IH false); lia|]. specialize (IH true). destruct w; lia.
Qed.
Lemma newlines_cons b l : newlines (b :: l) = ((if (b =? 10)%Z then 1 else 0) + newlines l)%nat.
Proof. unfold newlines. rewrite filter_cons. destruct (Z.eqb_spec b 10); by case_decide. Qed.
Lemma newlines_le l : (newlines l ≤ length l)%nat.
Proof. induction l as [|b l IH]; [done|]. rewrite newlines_cons. simpl. destruct (b =? 10); lia. Qed.

(** The counters are those of the text before, when nothing overflows. *)
Definition ahead (k k' : counts) (l : list Z) : Prop :=
  n_l k' = n_l k + Z.of_nat (newlines l) ∧ n_c k' = n_c k + Z.of_nat (length l) ∧
  ∀ r, n_w k' + Z.of_nat (starting (inword k') r) = n_w k + Z.of_nat (starting (inword k) (l ++ r)).
Definition small (k : counts) (n : nat) : Prop :=
  0 ≤ n_l k ∧ 0 ≤ n_w k ∧ 0 ≤ n_c k ∧
  n_l k + Z.of_nat n < 2 ^ 31 ∧ n_w k + Z.of_nat n < 2 ^ 31 ∧ n_c k + Z.of_nat n < 2 ^ 31.
Lemma wc_char_ok b k n : small k (S n) → ahead k (wc_char b k) [b] ∧ small (wc_char b k) n.
Proof.
  intros (A1 & A2 & A3 & A4 & A5 & A6). unfold ahead, small, wc_char. cbn [n_l n_w n_c inword].
  rewrite newlines_cons. setoid_rewrite starting_cons. change (newlines []) with 0%nat.
  destruct (b =? 10); cbn [n_l n_w n_c inword]; destruct (bool_decide _); cbn [n_l n_w n_c inword];
    try (destruct (inword k); cbn [negb n_l n_w n_c inword]); rewrite ?i32_id by lia; cbn [length];
    split_and!; try lia; intros r; lia.
Qed.
Lemma wc_chars_ok m l n : ∀ p k, rd_bytes m p (length l) = l → small k (length l + n) →
  ahead k (wc_chars (length l) m p k) l ∧ small (wc_chars (length l) m p k) n.
Proof.
  induction l as [|b l IH]; intros p k Hl Hk; cbn [wc_chars length].
  - split; [|done]. unfold ahead, newlines. cbn. split_and!; lia || (intros r; lia).
  - cbn [rd_bytes length] in Hl. injection Hl as -> Hl. destruct (wc_char_ok b k (length l + n) Hk) as [(B1 & B2 & B3) Hs].
    destruct (IH (p + 1) _ Hl Hs) as [(C1 & C2 & C3) Hs']. split; [|done].
    unfold ahead. rewrite newlines_cons. rewrite newlines_cons in B1. change (newlines []) with 0%nat in B1.
    cbn [length] in *. split_and!; [lia|lia|]. intros r. rewrite C3, B3. done.
Qed.

Section wc.
Context {E : Type} `{Env E} (input out : E → list Z) (fd : Z) (Hr : reads fd input out).
Lemma wc_loop_ok buf fuel : ∀ s k, Forall is_byte (input (u_env s)) → (length (input (u_env s)) < fuel)%nat →
  small k (length (input (u_env s))) →
  ∃ s' k', wc_loop fuel buf fd k s = Ok (0, k') s' ∧ ahead k k' (input (u_env s)) ∧ out (u_env s') = out (u_env s).
Proof using Hr.
  induction fuel as [|fuel IH]; intros s k Hby Hf Hk; [lia|]. cbn [wc_loop].
  destruct (rds_read _ _ _ Hr 512 (u_env s) ltac:(lia)) as (bs & e & Er & Hbs & Hin & Ho & Hend).
  erewrite bind_Ok by (unfold uread; rewrite Er; done).
  destruct bs as [|b bs'] eqn:Ebs.
  { specialize (Hend ltac:(lia) eq_refl). eexists _, k. split; [done|]. split; [|done]. rewrite Hend.
    unfold ahead, newlines. cbn. split_and!; lia || (intros r; lia). }
  rewrite <- Ebs in *. assert (0 < length bs)%nat by (subst; simpl; lia). clear Ebs b bs'.
  rewrite (proj2 (Z.ltb_lt 0 (Z.of_nat (length bs)))) by lia. rewrite bind_gets, Nat2Z.id. cbn [u_mem].
  rewrite Hin in *. apply Forall_app in Hby as [Hby1 Hby2]. rewrite length_app in Hf, Hk.
  destruct (wc_chars_ok _ bs _ buf k (rd_bytes_wr_bytes (u_mem s) buf bs Hby1) Hk) as [(A1 & A2 & A3) Hs].
  destruct (IH (Ust (wr_bytes (u_mem s) buf bs) e) _ Hby2 ltac:(cbn [u_env]; lia) Hs) as (s' & k' & E1 & (B1 & B2 & B3) & O1).
  exists s', k'. split; [done|]. cbn [u_env] in *. split; [|congruence]. unfold ahead.
  rewrite length_app. unfold newlines in *. rewrite filter_app, length_app. split_and!; [lia|lia|].
  intros r. by rewrite B3, A3, <- app_assoc.
Qed.
End wc.

(** [wc] prints the number of lines, of words and of bytes of its input,
    then its name, however the reads cut the input, for an input of less than 2^31 bytes. *)
Theorem wc_spec {E} `{Env E} (input out : E → list Z) buf fd fuel name s :
  reads fd input out → writes input out →
  let l := input (u_env s) in
  Forall is_byte l → (length l < fuel)%nat → Z.of_nat (length l) < 2 ^ 31 →
  ∃ s', wc fuel buf fd name s = Ok None s' ∧
    out (u_env s') = out (u_env s) ++ map u8 (render (lit "%d %d %d %s" ++ [10]) false
      [U_int (Z.of_nat (newlines l)); U_int (Z.of_nat (length (words l))); U_int (Z.of_nat (length l)); U_str (Some name)]).
Proof.
  intros Hr Hw l Hby Hf Hl. unfold wc.
  destruct (wc_loop_ok input out fd Hr buf fuel s (Counts 0 0 0 false) Hby Hf) as (s1 & k & E1 & (A1 & A2 & A3) & O1).
  { unfold small. cbn. fold l. lia. }
  erewrite bind_Ok by done. cbv beta iota. change (0 <? 0) with false. cbv iota.
  destruct (vprintf_prints input out Hw (lit "%d %d %d %s" ++ [10]) false
    [U_int (n_l k); U_int (n_w k); U_int (n_c k); U_str (Some name)] s1) as (e & E2 & O2 & _).
  eexists. unfold uprintf. erewrite bind_Ok by done. split; [done|]. cbn [u_env]. rewrite O2, O1.
  fold l in A1, A2, A3. specialize (A3 []). rewrite app_nil_r in A3. cbn [n_l n_w n_c inword] in *.
  assert (starting (inword k) [] = 0%nat) as E0 by (by destruct (inword k)). rewrite E0 in A3.
  change (starting false l) with (length (words l)) in A3. simpl in A1, A2, A3.
  rewrite Z.add_0_r in A3. by rewrite A1, A2, A3.
Qed.

(** ** fmtname *)

Lemma last_slash_ok m path d e : str_at m path (d ++ e) → (d = [] ∨ last d = Some 47) → 47 ∉ e →
  ∀ k n, (k ≤ length e)%nat → (k < n)%nat →
  last_slash n m path (path + Z.of_nat (length d + k)) = path + Z.of_nat (length d) - 1.
Proof.
  intros Hs Hd He. pose proof Hs as [Hb Hr]%str_at_app.
  assert (∀ n, last_slash n m path (path + Z.of_nat (length d) - 1) = path + Z.of_nat (length d) - 1) as Hstop.
  { intros [|n]; [done|]. cbn [last_slash]. destruct Hd as [->|Hd]; [rewrite (proj2 (Z.leb_gt _ _)) by (simpl; lia); done|].
    rewrite last_lookup in Hd. pose proof (lookup_lt_Some _ _ _ Hd) as Hl.
    assert (rd_bytes m path (length d) !! Nat.pred (length d) = Some 47) as Hd' by (by rewrite Hb). clear Hd.
    rename Hd' into Hd. rewrite lookup_rd_bytes in Hd by done. injection Hd as Hd.
    replace (path + Z.of_nat (length d) - 1) with (path + Z.of_nat (Nat.pred (length d))) by lia. by rewrite Hd, andb_false_r. }
  assert (∀ k, (k ≤ length e)%nat → rd m (path + Z.of_nat (length d + k)) ≠ 47) as Hns.
  { intros k Hk. rewrite Nat2Z.inj_add, Z.add_assoc. apply str_at_bytes in Hr as (Hb' & _ & Hz).
    destruct (decide (k = length e)) as [->|Hne]; [by rewrite Hz|]. intros Hk'. apply He.
    apply list_elem_of_lookup. exists k. rewrite <- Hb', lookup_rd_bytes by lia. by f_equal. }
  induction k as [|k IH]; intros [|n] Hk Hn; try lia; cbn [last_slash]; rewrite (proj2 (Z.eqb_neq _ _) (Hns _ Hk));
    rewrite (proj2 (Z.leb_le _ _)) by lia; cbn [negb andb].
  - rewrite Nat.add_0_r. apply Hstop.
  - replace (path + Z.of_nat (length d + S k) - 1) with (path + Z.of_nat (length d + k)) by lia. apply IH; lia.
Qed.

Lemma fmtname_ok m buf path d e :
  mem_ok m → str_at m path (d ++ e) → (d = [] ∨ last d = Some 47) → 47 ∉ e →
  rd m (buf + DIRSIZ) = 0 → (buf + DIRSIZ < path ∨ path + Z.of_nat (length (d ++ e)) < buf) →
  let '(r, m') := fmtname buf m path in
  str_at m' r (e ++ replicate (14 - length e) 32) ∧
  ∀ a, a < buf ∨ buf + DIRSIZ ≤ a → rd m' a = rd m a.
Proof.
  intros Hm Hs Hd He H0 Hdis. unfold fmtname. rewrite (strlen_str _ _ _ Hs), Nat2Z.id.
  rewrite length_app, (last_slash_ok m path d e Hs Hd He) by lia. rewrite Z.sub_add.
  pose proof Hs as [_ Hr]%str_at_app. rewrite (strlen_str _ _ _ Hr). rewrite length_app in Hdis.
  destruct (Z.leb_spec DIRSIZ (Z.of_nat (length e))) as [Hle|Hlt]; unfold DIRSIZ in *.
  { replace (14 - length e)%nat with 0%nat by lia. by rewrite app_nil_r. }
  set (p := path + Z.of_nat (length d)) in *. set (m1 := memmove m buf p (Z.of_nat (length e))).
  assert (str_at m1 p e) as Hr1.
  { apply (str_at_ext m); [|done]. intros a Ha. unfold m1. rewrite memmove_rd, decide_False by (done || lia). done. }
  rewrite (strlen_str _ _ _ Hr1). split.
  - apply str_at_bytes. rewrite length_app, length_replicate. replace (length e + (14 - length e))%nat with 14%nat by lia.
    split_and!.
    + replace 14%nat with (length e + (14 - length e))%nat by lia. rewrite rd_bytes_app. f_equal.
      * etransitivity; [|apply str_at_bytes in Hr as [Hb _]; exact Hb]. rewrite <- (memmove_bytes m buf p (length e) Hm).
        apply rd_bytes_ext. intros x Hx. rewrite memset_rd, decide_False by lia. done.
      * apply list_eq. intros i. destruct (decide (i < 14 - length e)%nat).
        -- rewrite lookup_rd_bytes, lookup_replicate_2 by lia. rewrite memset_rd, decide_True by lia. done.
        -- rewrite !lookup_ge_None_2; [done|rewrite ?length_replicate, ?length_rd_bytes; lia..].
    + apply Forall_app. split; [by apply str_at_bytes in Hr as (_ & ? & _)|]. by apply Forall_replicate.
    + rewrite memset_rd, decide_False by lia. unfold m1. rewrite memmove_rd, decide_False by (done || lia). done.
  - intros a Ha. rewrite memset_rd, decide_False by lia. unfold m1. rewrite memmove_rd, decide_False by (done || lia). done.
Qed.

(** [find] with a single argument compares an unpadded name with the
    padded one of [fmtname]: a name shorter than [DIRSIZ] never matches. *)
Theorem find_unpadded m buf path name d e w :
  mem_ok m → str_at m path (d ++ e) → (d = [] ∨ last d = Some 47) → 47 ∉ e →
  rd m (buf + DIRSIZ) = 0 → (buf + DIRSIZ < path ∨ path + Z.of_nat (length (d ++ e)) < buf) →
  str_at m name w → (buf + DIRSIZ ≤ name ∨ name + Z.of_nat (length w) < buf) → Z.of_nat (length w) < DIRSIZ →
  let '(r, m') := fmtname buf m path in strcmp m' r name ≠ 0.
Proof.
  intros Hm Hs Hd He H0 Hdis Hn Hdn Hw. pose proof (fmtname_ok m buf path d e Hm Hs Hd He H0 Hdis) as Hf.
  destruct (fmtname buf m path) as [r m']. destruct Hf as [Hr Hx]. rewrite (strcmp_spec m' r name _ w Hr).
  - intros <-. rewrite length_app, length_replicate in Hw. unfold DIRSIZ in Hw. lia.
  - apply (str_at_ext m); [|done]. intros a Ha. apply Hx. lia.
Qed.
