(* ===== verification/Grind.v ===== *)
(** * The random numbers of grind

    [do_rand] and [rand] of [user/grind.c]: the generator of Park and Miller by Schrage's
    method, over [long]s.  C's [/] and [%] truncate; both operands are nonnegative here. *)

From stdpp Require Import options.
From S2P Require Import Prelude.
#[local] Open Scope Z_scope.

Definition i64 (z : Z) : Z := (z + 2 ^ 63) mod 2 ^ 64 - 2 ^ 63.
(** The new context and the result. *)
Definition do_rand (ctx : Z) : Z * Z :=
  let x := i64 (u64 (ctx mod 0x7ffffffe + 1)) in
  let hi := Z.quot x 127773 in
  let lo := Z.rem x 127773 in
  let x := i64 (i64 (16807 * lo) - i64 (2836 * hi)) in
  let x := if x <? 0 then i64 (x + 0x7fffffff) else x in
  let x := i64 (x - 1) in
  (u64 x, i32 x).

(** [rand_next] before and after, and the result. *)
Definition rand (rand_next : Z) : Z * Z := do_rand rand_next.

Lemma i64_id z : - 2 ^ 63 ≤ z < 2 ^ 63 → i64 z = z.
Proof. intros Hz. unfold i64. rewrite Z.mod_small; lia. Qed.

(** 7^5 has an inverse modulo the prime 2^31 - 1: no product in the range is 0. *)
Lemma park_miller_nonzero x : 1 ≤ x < 0x7fffffff → (16807 * x) mod 0x7fffffff ≠ 0.
Proof.
  intros Hx E. apply Z.mod_divide in E; [|lia]. apply Z.gauss in E; [|reflexivity]. apply Z.divide_pos_le in E; lia.
Qed.
(** Schrage: the two halves combine to the product, and stay within 31 bits. *)
Lemma schrage x : 1 ≤ x < 0x7fffffff → let hi := x / 127773 in let lo := x mod 127773 in
  let y := 16807 * lo - 2836 * hi in
  0 ≤ 16807 * lo < 2 ^ 31 ∧ 0 ≤ 2836 * hi < 2 ^ 31 ∧ - 0x7fffffff < y < 0x7fffffff ∧
  (16807 * x) mod 0x7fffffff = if y <? 0 then y + 0x7fffffff else y.
Proof.
  intros Hx hi lo y. pose proof (Z.div_mod x 127773 ltac:(lia)) as Hd. pose proof (Z.mod_pos_bound x 127773 ltac:(lia)) as Hm.
  fold hi lo in Hd, Hm. assert (0 ≤ hi ≤ 16807) as Hh by lia.
  assert (- 0x7fffffff < y < 0x7fffffff) as Hy by lia. split; [lia|]. split; [lia|]. split; [done|].
  assert (16807 * x = y + hi * 0x7fffffff) as -> by (unfold y; lia). rewrite Z.mod_add by lia.
  destruct (Z.ltb_spec y 0); [|by apply Z.mod_small; lia].
  symmetry. apply (Z.mod_unique_pos _ _ (-1)); lia.
Qed.

(** [do_rand] steps the generator x -> 7^5 x mod (2^31 - 1) on [1, 2^31 - 2], shifted down by one,
    without overflow: the result is in the range the comment gives. *)
Theorem do_rand_spec ctx : 0 ≤ ctx < 2 ^ 64 →
  let x := ctx mod 0x7ffffffe + 1 in let r := (16807 * x) mod 0x7fffffff - 1 in
  do_rand ctx = (r, r) ∧ 0 ≤ r ≤ 0x7ffffffd.
Proof.
  intros Hc x r. pose proof (Z.mod_pos_bound ctx 0x7ffffffe ltac:(lia)) as Hx. assert (1 ≤ x < 0x7fffffff) as Hxr by (unfold x; lia).
  pose proof (schrage x Hxr) as Hs. cbv zeta in Hs. destruct Hs as (H1 & H2 & H3 & H4). pose proof (park_miller_nonzero x Hxr) as Hnz.
  pose proof (Z.mod_pos_bound (16807 * x) 0x7fffffff ltac:(lia)) as Hr. fold r in H4.
  unfold do_rand. cbv zeta. fold x. rewrite (u64_id x), (i64_id x) by (clearbody x; lia). rewrite Z.quot_div_nonneg, Z.rem_mod_nonneg by (clearbody x; lia).
  rewrite (i64_id (16807 * _)), (i64_id (2836 * _)) by (clearbody x; lia).
  set (y := 16807 * (x mod 127773) - 2836 * (x / 127773)) in *. rewrite (i64_id y) by (clearbody x y; lia).
  assert ((if y <? 0 then i64 (y + 2147483647) else y) = (16807 * x) mod 0x7fffffff) as ->.
  { rewrite H4. destruct (Z.ltb_spec y 0); [|done]. apply i64_id. lia. }
  rewrite i64_id by lia. fold r. rewrite u64_id, i32_id by (unfold r; lia). split; [done|unfold r; lia].
Qed.
Lemma do_rand_spec_witness : do_rand 1 = (33613, 33613) ∧ 0 ≤ 33613 ≤ 0x7ffffffd.
Proof. exact (do_rand_spec 1 ltac:(lia)). Defined.
