(* ===== verification/Grep.v ===== *)
(** * The regular expression matcher of grep

    [match], [matchhere] and [matchstar] of [user/grep.c] work on
    NUL-terminated strings.  The reference is the language of the expression: a
    pattern is a list of items, each one character or the repetition of one, optionally
    anchored at either end. *)

From stdpp Require Import options.
From S2P Require Import Prelude CString Ulib.
#[local] Open Scope Z_scope.

Definition STAR : Z := 42.
Definition DOT : Z := 46.
Definition DOLLAR : Z := 36.
Definition CARET : Z := 94.

(** ** The program *)

(** Every call consumes a character of one of the strings, so twice the size
    of the memory bounds the depth of the recursion ([match_spec]). *)
Fixpoint matchhere (fuel : nat) (m : mem) (re text : Z) : option bool :=
  match fuel with
  | O => None
  | S fuel =>
    if rd m re =? 0 then Some true
    else if rd m (re + 1) =? STAR then matchstar fuel m (rd m re) (re + 2) text
    else if (rd m re =? DOLLAR) && (rd m (re + 1) =? 0) then Some (rd m text =? 0)
    else if negb (rd m text =? 0) && ((rd m re =? DOT) || (rd m re =? rd m text))
    then matchhere fuel m (re + 1) (text + 1)
    else Some false
  end
with matchstar (fuel : nat) (m : mem) (c re text : Z) : option bool :=
  match fuel with
  | O => None
  | S fuel =>
    r ← matchhere fuel m re text;
    if r : bool then Some true
    else if negb (rd m text =? 0) && ((rd m text =? c) || (c =? DOT))
    then matchstar fuel m c re (text + 1)
    else Some false
  end.

Definition match_fuel (m : mem) : nat := 2 * S (size m) + 2.
(** The loop of [match]. *)
Fixpoint match_loop (fuel : nat) (m : mem) (re text : Z) : option bool :=
  match fuel with
  | O => None
  | S fuel =>
    r ← matchhere (match_fuel m) m re text;
    if r : bool then Some true
    else if negb (rd m text =? 0) then match_loop fuel m re (text + 1)
    else Some false
  end.
Definition match_ (m : mem) (re text : Z) : option bool :=
  if rd m re =? CARET then matchhere (match_fuel m) m (re + 1) text
  else match_loop (S (size m)) m re text.

(** [char buf\[1024\]], at address [buf]. *)
Definition BUFSIZE : Z := 1024.
Definition NL : Z := 10.

Section grep.
Context {E : Type} `{Env E} (buf : Z).

Definition mmatch (re text : Z) : M (ust E) bool := λ s,
  match match_ (u_mem s) re text with Some b => Ok b s | None => NoFuel end.
(** The loop over the complete lines of the buffer; it returns the [p] it
    stops at. *)
Fixpoint grep_lines (fuel : nat) (pattern p : Z) : M (ust E) Z :=
  match fuel with
  | O => λ _, NoFuel
  | S fuel =>
    q ← gets (λ s, strchr (u_mem s) p NL);
    if q =? 0 then mret p else
    modify (λ s, set_u_mem (wr q 0 (u_mem s)) s);;
    r ← mmatch pattern p;
    when r
      (modify (λ s, set_u_mem (wr q NL (u_mem s)) s);;
       uwrite 1 p (q + 1 - p);; mret ());;
    grep_lines fuel pattern (q + 1)
  end.
(** The loop over the reads of [fd]; [fuel] is the number of reads. *)
Fixpoint grep_loop (fuel : nat) (pattern fd m : Z) : M (ust E) unit :=
  match fuel with
  | O => λ _, NoFuel
  | S fuel =>
    n ← uread fd (buf + m) (BUFSIZE - m - 1);
    if negb (0 <? n) then mret () else
    let m := m + n in
    modify (λ s, set_u_mem (wr (buf + m) 0 (u_mem s)) s);;
    p ← grep_lines (Z.to_nat BUFSIZE) pattern buf;
    if 0 <? m then
      let m := m - (p - buf) in
      modify (λ s, set_u_mem (memmove (u_mem s) buf p m) s);;
      grep_loop fuel pattern fd m
    else grep_loop fuel pattern fd m
  end.
Definition grep (fuel : nat) (pattern fd : Z) : M (ust E) unit := grep_loop fuel pattern fd 0.
End grep.

(** ** The reference *)

Inductive item := One (c : Z) | Star (c : Z).

(** A pattern without [^]: its items, and whether it ends in [$]. *)
Fixpoint parse (re : list Z) : list item * bool :=
  match re with
  | [] => ([], false)
  | c :: r =>
    match r with
    | [] => if c =? DOLLAR then ([], true) else ([One c], false)
    | d :: r' =>
      if d =? STAR then let '(l, e) := parse r' in (Star c :: l, e)
      else let '(l, e) := parse r in (One c :: l, e)
    end
  end.

Definition accepts (c a : Z) : Prop := c = DOT ∨ c = a.
Inductive lang : list item → list Z → Prop :=
| lang_nil : lang [] []
| lang_one c a l u : accepts c a → lang l u → lang (One c :: l) (a :: u)
| lang_star c w l u : Forall (accepts c) w → lang l u → lang (Star c :: l) (w ++ u).

Definition matches_here (p : list item * bool) (t : list Z) : Prop :=
  ∃ u v, t = u ++ v ∧ lang p.1 u ∧ (p.2 = true → v = []).
Definition matches (re t : list Z) : Prop :=
  match re with
  | c :: r => if c =? CARET then matches_here (parse r) t
              else ∃ w t', t = w ++ t' ∧ matches_here (parse re) t'
  | [] => True
  end.

(** ** The matcher accepts the language *)

Lemma str_at_cons m p b l : str_at m p (b :: l) → rd m p = b ∧ b ≠ 0 ∧ str_at m (p + 1) l.
Proof. done. Qed.
(** Matching a repetition: none, or one character and the same again. *)
Lemma here_star c p t :
  matches_here (Star c :: p.1, p.2) t ↔
  matches_here p t ∨ ∃ a t', t = a :: t' ∧ accepts c a ∧ matches_here (Star c :: p.1, p.2) t'.
Proof.
  split.
  - intros (u & v & -> & HL & He). inversion HL as [| |? w ? u' Hw HL']; subst.
    destruct Hw as [|a w Ha Hw]; [left; by exists u', v|right].
    exists a, (w ++ u' ++ v). split; [by rewrite <- app_assoc|]. split; [done|].
    exists (w ++ u'), v. split; [by rewrite <- app_assoc|]. split; [by constructor|done].
  - intros [(u & v & -> & HL & He)|(a & t' & -> & Ha & u & v & -> & HL & He)].
    + exists u, v. split; [done|]. split; [by apply (lang_star c [])|done].
    + inversion HL as [| |? w ? u' Hw HL']; subst. exists (a :: w ++ u'), v. split; [done|].
      split; [by apply (lang_star c (a :: w)); [constructor|]|done].
Qed.
Lemma here_one c p t :
  matches_here (One c :: p.1, p.2) t ↔ ∃ a t', t = a :: t' ∧ accepts c a ∧ matches_here p t'.
Proof.
  split.
  - intros (u & v & -> & HL & He). inversion HL as [|? a ? u' Ha HL'|]; subst.
    exists a, (u' ++ v). split; [done|]. split; [done|]. by exists u', v.
  - intros (a & t' & -> & Ha & u & v & -> & HL & He). exists (a :: u), v. split; [done|].
    split; [by constructor|done].
Qed.
Lemma here_nil t : matches_here ([], false) t.
Proof. exists [], t. split; [done|]. split; [constructor|done]. Qed.
Lemma here_end t : matches_here ([], true) t ↔ t = [].
Proof.
  split.
  - intros (u & v & -> & HL & He). inversion HL. by rewrite He.
  - intros ->. exists [], []. split; [done|]. split; [constructor|done].
Qed.

(** What the functions answer about the strings they are given. *)
Definition answers (r : option bool) (P : Prop) : Prop := ∃ b, r = Some b ∧ (b = true ↔ P).
Lemma answers_iff r P Q : (P ↔ Q) → answers r P → answers r Q.
Proof. intros H (b & E & Hb). exists b. split; [done|]. tauto. Qed.
Lemma answers_true (P : Prop) : P → answers (Some true) P.
Proof. exists true. tauto. Qed.
Lemma answers_false (P : Prop) : ¬ P → answers (Some false) P.
Proof. exists false. split; [done|]. split; [done|tauto]. Qed.

Lemma accepts_or c a : accepts c a ↔ (c =? DOT) || (c =? a) = true.
Proof. unfold accepts. rewrite orb_true_iff, !Z.eqb_eq. done. Qed.

(** The step over one character. *)
Lemma one_ok m text t c p k :
  str_at m text t → (∀ t', str_at m (text + 1) t' → (length t' < length t)%nat → answers k (matches_here p t')) →
  answers (if negb (rd m text =? 0) && ((c =? DOT) || (c =? rd m text)) then k else Some false)
    (matches_here (One c :: p.1, p.2) t).
Proof.
  intros Ht Hk. destruct t as [|a t].
  { rewrite Ht. apply answers_false. rewrite here_one. naive_solver. }
  destruct Ht as (-> & Ha & Ht). rewrite (proj2 (Z.eqb_neq _ _) Ha). cbn [negb andb].
  destruct ((c =? DOT) || (c =? a)) eqn:E.
  - eapply answers_iff, (Hk t); [|done|simpl; lia]. rewrite here_one. apply accepts_or in E. naive_solver.
  - apply answers_false. rewrite here_one. intros (a' & t' & [= <- <-] & Hc & _).
    apply accepts_or in Hc. congruence.
Qed.

Lemma matcher_ok m fuel :
  (∀ re text r t, str_at m re r → str_at m text t → (length r + length t < fuel)%nat →
    answers (matchhere fuel m re text) (matches_here (parse r) t)) ∧
  (∀ c re text r t, str_at m re r → str_at m text t → (length r + length t + 1 < fuel)%nat →
    answers (matchstar fuel m c re text) (matches_here (Star c :: (parse r).1, (parse r).2) t)).
Proof.
  induction fuel as [|fuel [IHh IHs]]; [split; intros; lia|]. split.
  - intros re text r t Hr Ht Hf. cbn [matchhere]. destruct r as [|c r].
    { rewrite Hr. apply answers_true, here_nil. }
    rewrite (str_at_second m re c r Hr). destruct Hr as (-> & Hc & Hr).
    rewrite (proj2 (Z.eqb_neq _ _) Hc). destruct r as [|d r]; simpl in Hf; cbn [head default from_option id].
    + change (0 =? STAR) with false. change (0 =? 0) with true. rewrite andb_true_r. cbn [parse].
      destruct (Z.eqb_spec c DOLLAR) as [->|Hd].
      { destruct t as [|a t]; [rewrite Ht; apply answers_true; by apply here_end|].
        destruct Ht as (-> & Ha & _). rewrite (proj2 (Z.eqb_neq _ _) Ha).
        apply answers_false. by rewrite here_end. }
      apply (one_ok m text t c ([], false)); [done|]. intros t' Ht' Hl.
      apply (IHh _ _ [] t'); [done|done|simpl; lia].
    + change (parse (c :: d :: r)) with
        (if d =? STAR then let '(l, e) := parse r in (Star c :: l, e)
         else let '(l, e) := parse (d :: r) in (One c :: l, e)).
      destruct (Z.eqb_spec d STAR) as [->|Hd].
      { specialize (IHs c (re + 2) text r t). destruct (parse r) as [l e]. apply IHs; [|done|lia].
        replace (re + 2) with (re + 1 + 1) by lia. apply Hr. }
      assert (d ≠ 0) as Hd0 by apply Hr. rewrite (proj2 (Z.eqb_neq d 0) Hd0), andb_false_r.
      destruct (parse (d :: r)) as [l e] eqn:E. apply (one_ok m text t c (l, e)); [done|]. intros t' Ht' Hl.
      rewrite <- E. apply IHh; [done|done|simpl; lia].
  - intros c re text r t Hr Ht Hf. cbn [matchstar].
    destruct (IHh re text r t Hr Ht ltac:(lia)) as (b & -> & Hb). simpl.
    eapply answers_iff; [symmetry; apply here_star|]. destruct b; [apply answers_true; tauto|].
    assert (¬ matches_here (parse r) t) as Hn by (rewrite <- Hb; done). destruct t as [|a t].
    { rewrite Ht. simpl. apply answers_false. naive_solver. }
    destruct Ht as (-> & Ha & Ht). rewrite (proj2 (Z.eqb_neq _ _) Ha). cbn [negb andb].
    rewrite orb_comm, (Z.eqb_sym a c). destruct ((c =? DOT) || (c =? a)) eqn:E.
    + eapply answers_iff, (IHs c re (text + 1) r t); [|done|done|simpl in Hf; lia].
      apply accepts_or in E. naive_solver.
    + apply answers_false. intros [?|(a' & t' & [= <- <-] & Hc & _)]; [done|]. apply accepts_or in Hc. congruence.
Qed.

Lemma match_fuel_ok m re text r t :
  str_at m re r → str_at m text t → (length r + length t < match_fuel m)%nat.
Proof. intros Hr Ht. apply str_at_size in Hr, Ht. unfold match_fuel. lia. Qed.

Lemma match_loop_ok m re r fuel : ∀ text t,
  str_at m re r → str_at m text t → (length t < fuel)%nat →
  answers (match_loop fuel m re text) (∃ w t', t = w ++ t' ∧ matches_here (parse r) t').
Proof.
  induction fuel as [|fuel IH]; intros text t Hr Ht Hf; [lia|]. cbn [match_loop].
  destruct (proj1 (matcher_ok m (match_fuel m)) re text r t Hr Ht (match_fuel_ok _ _ _ _ _ Hr Ht))
    as (b & -> & Hb). simpl.
  destruct b; [apply answers_true; exists [], t; tauto|].
  assert (¬ matches_here (parse r) t) as Hn by (rewrite <- Hb; done). destruct t as [|a t].
  { rewrite Ht. simpl. apply answers_false. intros (w & t' & E & H). symmetry in E.
    by apply app_nil in E as [-> ->]. }
  destruct Ht as (-> & Ha & Ht). rewrite (proj2 (Z.eqb_neq _ _) Ha). cbn [negb].
  eapply answers_iff, (IH (text + 1) t); [|done|done|simpl in Hf; lia]. split.
  - intros (w & t' & -> & H). exists (a :: w), t'. done.
  - intros ([|a' w] & t' & E & H); [simpl in E; by subst|]. injection E as -> ->. by exists w, t'.
Qed.

Lemma match_ok m re text r t :
  str_at m re r → str_at m text t → answers (match_ m re text) (matches r t).
Proof.
  intros Hr Ht. pose proof (match_fuel_ok _ _ _ _ _ Hr Ht) as Hf. pose proof (str_at_size _ _ _ Ht) as Hs.
  unfold match_. destruct r as [|c r].
  - rewrite Hr. change (0 =? CARET) with false. cbv iota.
    eapply answers_iff, (match_loop_ok m re [] (S (size m)) text t); [|done|done|lia]. split; [done|].
    intros _. exists [], t. split; [done|]. apply here_nil.
  - pose proof Hr as (-> & Hc & Hr'). unfold matches. destruct (c =? CARET) eqn:E.
    + apply (proj1 (matcher_ok m (match_fuel m))); [done|done|simpl in Hf; lia].
    + apply match_loop_ok; [done|done|lia].
Qed.

(** C22. [match] always returns, and it answers whether the text contains a
    string of the language of the pattern, at the start when the pattern
    begins with [^] and up to the end when it ends with [$]. *)
Theorem match_spec m re text r t :
  str_at m re r → str_at m text t →
  ∃ b, match_ m re text = Some b ∧ (b = true ↔ matches r t).
Proof. apply match_ok. Qed.

Definition grep_mem : mem := wr_bytes (wr_bytes ∅ 0 [94; 97; 46; 42; 98; 36]) 16 [97; 120; 121; 98].
Lemma match_spec_witness : match_ grep_mem 0 16 = Some true ∧ matches [94; 97; 46; 42; 98; 36] [97; 120; 121; 98].
Proof.
  destruct (match_spec grep_mem 0 16 [94; 97; 46; 42; 98; 36] [97; 120; 121; 98]) as (b & E & H).
  - vm_compute. repeat split; discriminate.
  - vm_compute. repeat split; discriminate.
  - assert (match_ grep_mem 0 16 = Some true) as E' by (vm_compute; reflexivity).
    rewrite E in E'. injection E' as ->. rewrite E. split; [reflexivity|]. by apply H.
Defined.

(** ** The lines of the input *)

(** The complete lines of a text, and what follows the last newline. *)
Fixpoint lines_of (l : list Z) : list (list Z) * list Z :=
  match l with
  | [] => ([], [])
  | c :: l =>
    let '(ls, t) := lines_of l in
    if c =? NL then ([] :: ls, t)
    else match ls with
         | [] => ([], c :: t)
         | x :: ls => ((c :: x) :: ls, t)
         end
  end.
(** [o] is the lines that match. *)
Inductive selected (re : list Z) : list (list Z) → list Z → Prop :=
| sel_nil : selected re [] []
| sel_yes l ls o : matches re l → selected re ls o → selected re (l :: ls) (l ++ NL :: o)
| sel_no l ls o : ¬ matches re l → selected re ls o → selected re (l :: ls) o.

Lemma lines_of_line w l : NL ∉ w →
  lines_of (w ++ NL :: l) = (w :: (lines_of l).1, (lines_of l).2).
Proof.
  induction w as [|c w IH]; intros Hw; cbn [lines_of app].
  - destruct (lines_of l). done.
  - rewrite IH by set_solver. rewrite (proj2 (Z.eqb_neq c NL)) by set_solver. done.
Qed.
Lemma lines_of_tail w : NL ∉ w → lines_of w = ([], w).
Proof.
  induction w as [|c w IH]; intros Hw; cbn [lines_of]; [done|].
  rewrite IH by set_solver. by rewrite (proj2 (Z.eqb_neq c NL)) by set_solver.
Qed.
(** Every text is a tail, or a line and a text. *)
Lemma first_line l : NL ∉ l ∨ ∃ w l', l = w ++ NL :: l' ∧ NL ∉ w ∧ index_of NL l = Some (length w).
Proof.
  destruct (index_of NL l) as [i|] eqn:E; [right|left; by apply index_of_None].
  pose proof E as [Hi Hn]%index_of_Some. exists (take i l), (drop (S i) l).
  split; [symmetry; by apply take_drop_middle|]. split; [done|].
  rewrite length_take_le; [done|]. apply lookup_lt_Some in Hi. lia.
Qed.
Lemma lines_of_app a b :
  lines_of (a ++ b) = ((lines_of a).1 ++ (lines_of ((lines_of a).2 ++ b)).1,
                       (lines_of ((lines_of a).2 ++ b)).2).
Proof.
  induction a as [|c a IH]; cbn [lines_of app fst snd]; [by destruct (lines_of b)|].
  rewrite IH. destruct (lines_of a) as [ls t]. cbn [fst snd].
  destruct (c =? NL) eqn:E; [done|]. destruct ls as [|x ls]; [|done]. cbn [fst snd app].
  cbn [lines_of]. rewrite E. destruct (lines_of (t ++ b)) as [[|y ls'] t']; done.
Qed.
Lemma lines_of_no_nl l : NL ∉ (lines_of l).2.
Proof.
  induction l as [|c l IH]; cbn [lines_of]; [set_solver|]. destruct (lines_of l) as [ls t]. cbn [snd] in IH.
  destruct (Z.eqb_spec c NL); [done|]. destruct ls; cbn [snd]; set_solver.
Qed.
Lemma lines_of_length l : (length (lines_of l).2 ≤ length l)%nat.
Proof.
  induction l as [|c l IH]; cbn [lines_of]; [done|]. destruct (lines_of l) as [ls t]. cbn [snd] in IH.
  destruct (c =? NL); [simpl; lia|]. destruct ls; simpl; lia.
Qed.
Lemma selected_app re a b o o' :
  selected re a o → selected re b o' → selected re (a ++ b) (o ++ o').
Proof.
  intros Ha Hb. induction Ha; simpl; [done| |by constructor].
  rewrite <- app_assoc. by constructor.
Qed.

(** ** The loops *)

Lemma str_at_split m p w c l : str_at m p (w ++ c :: l) →
  rd_bytes m p (length w) = w ∧ rd m (p + Z.of_nat (length w)) = c ∧ c ≠ 0 ∧
  Forall (λ b, b ≠ 0) w ∧ str_at m (p + Z.of_nat (length w) + 1) l.
Proof.
  revert p. induction w as [|b w IH]; intros p Hs.
  - cbn [app length] in *. rewrite Z.add_0_r. destruct Hs as (? & ? & ?). done.
  - destruct Hs as (H1 & H2 & H3). destruct (IH _ H3) as (E1 & E2 & E3 & E4 & E5).
    cbn [length]. replace (p + Z.of_nat (S (length w))) with (p + 1 + Z.of_nat (length w)) by lia.
    split; [cbn [rd_bytes]; congruence|]. split; [done|]. split; [done|]. split; [by constructor|done].
Qed.

(** A line that was cut at its newline [q]. *)
Lemma str_at_cut m p w l b : let q := p + Z.of_nat (length w) in
  str_at m p (w ++ NL :: l) → str_at (wr q 0 m) p w ∧ str_at (wr q b m) (q + 1) l ∧
  rd_bytes (wr q NL (wr q 0 m)) p (length w + 1) = w ++ [NL].
Proof.
  intros q (H1 & H2 & H3 & H4 & H5)%str_at_split. split_and!.
  - apply str_at_bytes. split_and!; [|done|by rewrite rd_wr_eq]. rewrite <- H1 at 2. apply rd_bytes_ext.
    intros x Hx. apply rd_wr_ne. lia.
  - apply (str_at_ext m); [|done]. intros a Ha. apply rd_wr_ne. lia.
  - rewrite rd_bytes_app. f_equal.
    + rewrite <- H1 at 2. apply rd_bytes_ext. intros x Hx. rewrite !rd_wr_ne by lia. done.
    + cbn [rd_bytes]. by rewrite rd_wr_eq.
Qed.

(** A read lands behind what is in the buffer. *)
Lemma str_at_read m p w bs : rd_bytes m p (length w) = w →
  Forall (λ b, b ≠ 0) (w ++ bs) → Forall is_byte bs →
  str_at (wr (p + (Z.of_nat (length w) + Z.of_nat (length bs))) 0 (wr_bytes m (p + Z.of_nat (length w)) bs)) p (w ++ bs).
Proof.
  intros Hb Hnz Hby. apply str_at_bytes. rewrite length_app, Nat2Z.inj_add.
  split_and!; [|done|by rewrite rd_wr_eq]. rewrite rd_bytes_app. f_equal.
  - etransitivity; [|exact Hb]. apply rd_bytes_ext. intros x Hx.
    rewrite rd_wr_ne, rd_wr_bytes_out by lia. done.
  - etransitivity; [|exact (rd_bytes_wr_bytes m (p + Z.of_nat (length w)) bs Hby)].
    apply rd_bytes_ext. intros x Hx. rewrite rd_wr_ne by lia. done.
Qed.
(** A full buffer without a newline is not a part of a short line. *)
Lemma no_lines w l : NL ∉ w → Forall (λ x, Z.of_nat (length x) + 1 < BUFSIZE) (lines_of (w ++ l)).1 →
  (l = [] ∨ BUFSIZE ≤ Z.of_nat (length w) + 1) → (lines_of (w ++ l)).1 = [].
Proof.
  intros Hw Hls [->|Hl]; [by rewrite app_nil_r, lines_of_tail|].
  destruct (first_line l) as [Hn|(x & l' & -> & Hx & _)].
  - rewrite lines_of_tail; [done|]. set_solver.
  - exfalso. rewrite app_assoc, lines_of_line in Hls by set_solver. apply Forall_cons_1 in Hls as [Hls _].
    rewrite length_app in Hls. lia.
Qed.

Section loops.
Context {E : Type} `{Env E} (buf : Z) (input out : E → list Z).

(** What the loop over the lines leaves alone. *)
Record lines_frame (s s' : ust E) : Prop := {
  lf_ok : mem_ok (u_mem s) → mem_ok (u_mem s');
  lf_mem a : a < buf ∨ buf + BUFSIZE ≤ a → rd (u_mem s') a = rd (u_mem s) a;
  lf_input : input (u_env s') = input (u_env s);
}.

#[local] Lemma lines_frame_refl s : lines_frame s s.
Proof. by constructor. Qed.
#[local] Lemma lines_frame_trans s1 s2 s3 : lines_frame s1 s2 → lines_frame s2 s3 → lines_frame s1 s3.
Proof.
  intros [A1 A2 A3] [B1 B2 B3]. constructor; [auto| |congruence]. intros a Ha. by rewrite B2, A2.
Qed.
#[local] Lemma lines_frame_wr s q b : buf ≤ q < buf + BUFSIZE → lines_frame s (set_u_mem (wr q b (u_mem s)) s).
Proof.
  intros Hq. constructor; [apply mem_ok_wr| |done]. intros a Ha. apply rd_wr_ne. lia.
Qed.

Context (re : Z) (pat : list Z) (Hre : re + Z.of_nat (length pat) < buf ∨ buf + BUFSIZE ≤ re).
#[local] Lemma lines_frame_pat s s' : lines_frame s s' → str_at (u_mem s) re pat → str_at (u_mem s') re pat.
Proof using Hre. intros HF. apply str_at_ext. intros a Ha. apply (lf_mem _ _ HF). lia. Qed.

Context (Hw : writes input out) (Hbuf : 0 < buf).
(** Printing the line. *)
Lemma grep_print_ok s p w (b : bool) : buf ≤ p → let q := p + Z.of_nat (length w) in q < buf + BUFSIZE →
  rd_bytes (wr q NL (u_mem s)) p (length w + 1) = w ++ [NL] →
  wp (when b (modify (λ s, set_u_mem (wr q NL (u_mem s)) s);; uwrite 1 p (q + 1 - p);; mret ()))
    (λ _ s', out (u_env s') = out (u_env s) ++ (if b then w ++ [NL] else []) ∧ lines_frame s s' ∧
      u_mem s' = if b then wr q NL (u_mem s) else u_mem s) s.
Proof using Hw Hre Hbuf.
  intros Hp q Hq Hr. destruct b; [|split_and!; [by rewrite app_nil_r|apply lines_frame_refl|done]].
  apply wp_bind, wp_modify, wp_bind. unfold wp, uwrite.
  replace (Z.to_nat (q + 1 - p)) with (length w + 1)%nat by lia. cbn [u_mem u_env set_u_mem].
  rewrite Hr. destruct (wrs_write _ _ Hw (w ++ [NL]) (u_env s)) as (e' & -> & Ho & Hi). cbn.
  split; [done|]. split; [|done]. constructor; [apply mem_ok_wr| |done]. intros a Ha. apply rd_wr_ne. lia.
Qed.

Lemma grep_lines_ok fuel : ∀ s p w,
  str_at (u_mem s) re pat → str_at (u_mem s) p w →
  buf ≤ p → p + Z.of_nat (length w) < buf + BUFSIZE → (length w < fuel)%nat →
  wp (grep_lines fuel re p)
    (λ p' s', ∃ o, p' = p + Z.of_nat (length w) - Z.of_nat (length (lines_of w).2) ∧
       selected pat (lines_of w).1 o ∧ out (u_env s') = out (u_env s) ++ o ∧
       lines_frame s s' ∧ str_at (u_mem s') p' (lines_of w).2) s.
Proof using Hw Hre Hbuf.
  induction fuel as [|fuel IH]; intros s p w Hpat Ht Hp Hpw Hf; [lia|]. cbn [grep_lines].
  apply wp_bind, wp_gets. rewrite (strchr_spec _ _ _ _ Ht).
  destruct (first_line w) as [Hn|(x & l & -> & Hx & Hi)].
  { rewrite (proj2 (index_of_None _ _) Hn). change (0 =? 0) with true. cbv iota. apply wp_ret.
    rewrite (lines_of_tail w Hn). exists []. cbn [fst snd]. split_and!; [lia|constructor|by rewrite app_nil_r| |done].
    apply lines_frame_refl. }
  rewrite Hi, lines_of_line by done. rewrite length_app in Hpw, Hf. cbn [length] in Hpw, Hf.
  set (q := p + Z.of_nat (length x)) in *. rewrite (proj2 (Z.eqb_neq q 0)) by lia.
  destruct (str_at_cut (u_mem s) p x l 0 Ht) as (Hc1 & Hc2 & Hc3).
  apply wp_bind, wp_modify. set (s1 := set_u_mem _ s).
  assert (lines_frame s s1) as F1 by (apply lines_frame_wr; lia).
  apply wp_bind. destruct (match_ok (u_mem s1) re p pat x (lines_frame_pat _ _ F1 Hpat) Hc1) as (b & Eb & Hb).
  eapply wp_Ok; [unfold mmatch; by rewrite Eb|]. apply wp_bind.
  eapply wp_mono; [apply (grep_print_ok s1 p x b); [done|lia|done]|].
  intros _ s2 (O2 & F2 & M2). pose proof (lines_frame_trans _ _ _ F1 F2) as F.
  eapply wp_mono; [apply (IH s2 (q + 1) l)|]; try lia.
  - by apply (lines_frame_pat s).
  - rewrite M2. destruct b; [|done]. apply (str_at_ext (u_mem s1)); [|done].
    intros a Ha. apply rd_wr_ne. lia.
  - intros p' s' (o & -> & Hs & Ho & F3 & Hl). exists ((if b then x ++ [NL] else []) ++ o). cbn [fst snd].
    rewrite length_app. cbn [length]. split_and!; [lia| | | |].
    + destruct b; [|apply sel_no; [by rewrite <- Hb|done]]. rewrite <- app_assoc. apply sel_yes; tauto.
    + by rewrite Ho, O2, app_assoc.
    + by apply (lines_frame_trans _ s2).
    + by replace (p + Z.of_nat (length x + S (length l)) - Z.of_nat (length (lines_of l).2))
        with (q + 1 + Z.of_nat (length l) - Z.of_nat (length (lines_of l).2)) by lia.
Qed.

Lemma pat_after_read m n bs : 0 ≤ n → n + Z.of_nat (length bs) < BUFSIZE →
  str_at m re pat → str_at (wr (buf + (n + Z.of_nat (length bs))) 0 (wr_bytes m (buf + n) bs)) re pat.
Proof using Hre.
  intros H1 H2. apply str_at_ext. intros a Ha. rewrite rd_wr_ne, rd_wr_bytes_out by lia. done.
Qed.

Context (fd : Z) (Hr : reads fd input out).
(** The loop over the reads, with the incomplete line [w] in the buffer. *)
Lemma grep_loop_ok fuel : ∀ s w,
  mem_ok (u_mem s) → str_at (u_mem s) re pat → rd_bytes (u_mem s) buf (length w) = w →
  NL ∉ w → Z.of_nat (length w) < BUFSIZE → Forall (λ b, b ≠ 0) (w ++ input (u_env s)) →
  Forall is_byte (input (u_env s)) →
  Forall (λ l, Z.of_nat (length l) + 1 < BUFSIZE) (lines_of (w ++ input (u_env s))).1 →
  (length (input (u_env s)) < fuel)%nat →
  wp (grep_loop buf fuel re fd (Z.of_nat (length w)))
    (λ _ s', ∃ o, selected pat (lines_of (w ++ input (u_env s))).1 o ∧ out (u_env s') = out (u_env s) ++ o) s.
Proof using Hr Hw Hre Hbuf.
  induction fuel as [|fuel IH]; intros s w Hm Hpat Hb Hnl Hlen Hnz Hby Hls Hf; [lia|]. cbn [grep_loop].
  destruct (rds_read _ _ _ Hr (BUFSIZE - Z.of_nat (length w) - 1) (u_env s) ltac:(lia))
    as (bs & e & Er & Hbs & Hin & Ho & Hend).
  apply wp_bind. eapply wp_Ok; [unfold uread; by rewrite Er|]. destruct bs as [|b bs'] eqn:Ebs.
  { apply wp_ret. exists []. cbn [u_env]. split; [|by rewrite app_nil_r, Ho].
    rewrite no_lines; [constructor|done|done|]. destruct (decide (BUFSIZE ≤ Z.of_nat (length w) + 1)); [by right|].
    left. apply Hend; [lia|done]. }
  rewrite <- Ebs in *. assert (0 < length bs)%nat as Hpos by (subst; simpl; lia). clear Ebs b bs'.
  rewrite (proj2 (Z.ltb_lt 0 (Z.of_nat (length bs)))) by lia. cbn [negb].
  apply wp_bind, wp_modify.
  set (s1 := Ust (wr (buf + (Z.of_nat (length w) + Z.of_nat (length bs))) 0
                    (wr_bytes (u_mem s) (buf + Z.of_nat (length w)) bs)) e).
  lazymatch goal with |- wp ?m ?Q _ => change (wp m Q s1) end.
  rewrite Hin, app_assoc in Hnz, Hls. rewrite Hin in Hby, Hf. rewrite Forall_app in Hnz, Hby.
  assert (str_at (u_mem s1) buf (w ++ bs)) as Ht by (apply str_at_read; [done|apply Hnz|apply Hby]).
  assert (str_at (u_mem s1) re pat) as Hpat1 by (apply pat_after_read; lia || done).
  assert (mem_ok (u_mem s1)) as Hm1 by (by apply mem_ok_wr, mem_ok_wr_bytes).
  rewrite lines_of_app in Hls. apply Forall_app in Hls as [_ Hls]. rewrite length_app in Hf.
  set (t := (lines_of (w ++ bs)).2) in *. pose proof (lines_of_length (w ++ bs)) as Ht'. fold t in Ht'.
  assert (length (w ++ bs) < Z.to_nat BUFSIZE)%nat as HN by (rewrite length_app; unfold BUFSIZE in *; lia).
  apply wp_bind. revert HN. generalize (Z.to_nat BUFSIZE). intros N HN.
  eapply wp_mono; [apply (grep_lines_ok N s1 buf (w ++ bs)); [done|done|lia| |done]; rewrite length_app; lia|].
  intros p s2 (o & -> & Hs & Ho2 & F2 & Hst). fold t in Hst |- *. pose proof Hst as (Ht1 & Ht2 & _)%str_at_bytes.
  rewrite (proj2 (Z.ltb_lt 0 (Z.of_nat (length w) + Z.of_nat (length bs)))) by lia.
  apply wp_bind, wp_modify. rewrite length_app in *.
  replace (Z.of_nat (length w) + Z.of_nat (length bs) -
    (buf + Z.of_nat (length w + length bs) - Z.of_nat (length t) - buf)) with (Z.of_nat (length t)) by lia.
  pose proof (lf_input _ _ F2) as Hi2. cbn [u_env s1] in Hi2.
  eapply wp_mono; [apply (IH _ t)|]; cbn [u_mem u_env set_u_mem]; rewrite ?Hi2; try done; try lia.
  - apply memmove_mem_ok; [by apply (lf_ok _ _ F2)|lia].
  - apply (str_at_ext (u_mem s2)); [|by apply (lines_frame_pat s1)]. intros a Ha.
    rewrite memmove_rd, decide_False by (done || lia || by apply (lf_ok _ _ F2)). done.
  - etransitivity; [apply memmove_bytes; by apply (lf_ok _ _ F2)|done].
  - apply lines_of_no_nl.
  - apply Forall_app. split; [done|apply Hnz].
  - apply Hby.
  - intros _ s3 (o3 & Hs3 & Ho3). exists (o ++ o3). rewrite Hin, app_assoc, lines_of_app. fold t.
    split; [by apply selected_app|]. rewrite Ho3, Ho2. cbn [u_env s1]. by rewrite Ho, app_assoc.
Qed.
End loops.

(** C21. [grep] reads its descriptor to the end, however the reads cut the
    input, and prints exactly the lines that contain a string of the language
    of the pattern.  A line ends with a newline: what follows the last
    newline of the input is not printed, even when it matches.  The input has no NUL
    bytes, and every line fits the buffer with its newline and a NUL. *)
Theorem grep_spec {E} `{Env E} (buf fd re : Z) (input out : E → list Z) (pat : list Z) (s : ust E) (fuel : nat) :
  reads fd input out → writes input out → 0 < buf →
  re + Z.of_nat (length pat) < buf ∨ buf + BUFSIZE ≤ re →
  mem_ok (u_mem s) → str_at (u_mem s) re pat →
  Forall (λ b, 0 < b < 256) (input (u_env s)) →
  Forall (λ l, Z.of_nat (length l) + 1 < BUFSIZE) (lines_of (input (u_env s))).1 →
  (length (input (u_env s)) < fuel)%nat →
  ∃ s' o, grep buf fuel re fd s = Ok () s' ∧
    selected pat (lines_of (input (u_env s))).1 o ∧ out (u_env s') = out (u_env s) ++ o.
Proof.
  intros Hr Hw Hb Hre Hm Hpat Hin Hls Hf.
  destruct (wp_inv _ _ _ (grep_loop_ok buf input out re pat Hre Hw Hb fd Hr fuel s [] Hm Hpat eq_refl
    ltac:(set_solver) ltac:(done) ltac:(eapply Forall_impl; [exact Hin|intros; simpl in *; lia])
    ltac:(eapply Forall_impl; [exact Hin|unfold is_byte; intros; simpl in *; lia]) Hls Hf))
    as ([] & s' & Er & o & Hs & Ho).
  by exists s', o.
Qed.

(** "ab\nxc\nacb\nzz" read in pieces of 2, 4 and 1 bytes, searched for "a.*b". *)
Definition grep_input : list Z := [97; 98; 10; 120; 99; 10; 97; 99; 98; 10; 122; 122].
Definition grep_start : ust cutter :=
  Ust (wr_bytes ∅ 4096 [97; 46; 42; 98]) (Cutter grep_input [1; 3]%nat []).
Lemma grep_spec_witness :
  ∃ s' o, grep 8192 20 4096 0 grep_start = Ok () s' ∧
    selected [97; 46; 42; 98] [[97; 98]; [120; 99]; [97; 99; 98]] o ∧ c_out (u_env s') = [] ++ o.
Proof.
  apply (grep_spec 8192 0 4096 c_in c_out [97; 46; 42; 98] grep_start 20 (cutter_reads 0) cutter_writes).
  - lia.
  - left. simpl. lia.
  - apply mem_ok_wr_bytes, mem_ok_empty.
  - vm_compute. repeat split; discriminate.
  - repeat constructor.
  - repeat constructor.
  - simpl. lia.
Defined.

(** The bound on the lines is needed: with a line of 1023 bytes the buffer is
    full, [read] is asked for no byte, and [grep] stops as if the input had
    ended; the line that follows is lost too. *)
Definition long_input : list Z := replicate 1023 98 ++ [10; 97; 10].
Lemma grep_long_line :
  wp (grep 8192 20 4096 0) (λ _ s', c_out (u_env s') = [])
    (Ust (wr_bytes ∅ 4096 [97]) (Cutter long_input [1022]%nat [])) ∧
  matches [97] [97] ∧ (lines_of long_input).1 !! 1%nat = Some [97].
Proof.
  split; [vm_compute; reflexivity|]. split; [|vm_compute; reflexivity].
  exists [], [97]. split; [done|]. exists [97], []. split; [done|]. split; [|done].
  apply lang_one; [by right|constructor].
Qed.
