(* ===== verification/Sh.v ===== *)
(** * The shell

    The parser of [user/sh.c] over the bytes of the command line.  Commands
    are nodes of a heap, because [parseexec] goes on filling the [execcmd] it
    made after [parseredirs] has wrapped it.  [malloc] is taken to succeed;
    [panic] prints its message and exits. *)

From stdpp Require Import options.
From S2P Require Import Prelude CString Ulib.
#[local] Open Scope Z_scope.

Definition MAXARGS : Z := 10.
Definition O_RDONLY : Z := 0x000.
Definition O_WRONLY : Z := 0x001.
Definition O_CREATE : Z := 0x200.
Definition O_TRUNC : Z := 0x400.

(** [struct cmd]: pointers to commands are positions in the heap, pointers to
    characters are addresses, 0 the null pointer. *)
Inductive node :=
| EXEC (argv eargv : list Z)
| REDIR (cmd : nat) (file efile mode fd : Z)
| PIPE (left right : nat)
| LIST (left right : nat)
| BACK (cmd : nat).
Record shell := Shell { sh_mem : mem; sh_heap : list node }.
Definition set_sh_mem (m : mem) (s : shell) : shell := Shell m (sh_heap s).
Definition set_sh_heap (h : list node) (s : shell) : shell := Shell (sh_mem s) h.

Definition malloc (n : node) : M shell nat := λ s,
  Ok (length (sh_heap s)) (set_sh_heap (sh_heap s ++ [n]) s).
Definition execcmd : M shell nat :=
  malloc (EXEC (replicate (Z.to_nat MAXARGS) 0) (replicate (Z.to_nat MAXARGS) 0)).
Definition redircmd (subcmd : nat) (file efile mode fd : Z) : M shell nat :=
  malloc (REDIR subcmd file efile mode fd).
Definition pipecmd (l r : nat) : M shell nat := malloc (PIPE l r).
Definition listcmd (l r : nat) : M shell nat := malloc (LIST l r).
Definition backcmd (subcmd : nat) : M shell nat := malloc (BACK subcmd).

(** ** Tokens *)

(** [whitespace] and [symbols] are string constants; [strchr] finds the
    members of such a string, and never NUL. *)
Definition whitespace : list Z := [32; 9; 13; 10; 11].
Definition symbols : list Z := [60; 124; 62; 38; 59; 40; 41].
Definition is_in (l : list Z) (c : Z) : bool := bool_decide (c ∈ l).

(** [while(s < es && strchr(whitespace, c)) s++], [n] bytes before [es]. *)
Fixpoint skip_ws (n : nat) (m : mem) (s : Z) : Z :=
  match n with
  | O => s
  | S n => if is_in whitespace (rd m s) then skip_ws n m (s + 1) else s
  end.
Fixpoint skip_word (n : nat) (m : mem) (s : Z) : Z :=
  match n with
  | O => s
  | S n => if negb (is_in whitespace (rd m s)) && negb (is_in symbols (rd m s))
           then skip_word n m (s + 1) else s
  end.
Definition LT : Z := 60.
Definition GT : Z := 62.
Definition BAR : Z := 124.
Definition AMP : Z := 38.
Definition SEMI : Z := 59.
Definition LPAR : Z := 40.
Definition RPAR : Z := 41.
Definition TWORD : Z := 97.
Definition TAPPEND : Z := 43.

(** The result: the token, [q], [eq] and the new position. *)
Definition gettoken (m : mem) (ps es : Z) : Z * Z * Z * Z :=
  let s := skip_ws (Z.to_nat (es - ps)) m ps in
  let q := s in
  let '(ret, s) :=
    let c := rd m s in
    if c =? 0 then (c, s)
    else if (c =? BAR) || (c =? LPAR) || (c =? RPAR) || (c =? SEMI) || (c =? AMP) || (c =? LT) then (c, s + 1)
    else if c =? GT then
      if rd m (s + 1) =? GT then (TAPPEND, s + 1 + 1) else (c, s + 1)
    else (TWORD, skip_word (Z.to_nat (es - s)) m s) in
  (ret, q, s, skip_ws (Z.to_nat (es - s)) m s).
(** The answer and the new position. *)
Definition peek (m : mem) (ps es : Z) (toks : list Z) : bool * Z :=
  let s := skip_ws (Z.to_nat (es - ps)) m ps in
  (negb (rd m s =? 0) && is_in toks (rd m s), s).

Definition mpeek (ps es : Z) (toks : list Z) : M shell (bool * Z) := gets (λ s, peek (sh_mem s) ps es toks).
Definition mgettoken (ps es : Z) : M shell (Z * Z * Z * Z) := gets (λ s, gettoken (sh_mem s) ps es).

(** ** The parser *)

(** Every function takes the position [ps] and returns the command and the
    new position. *)
Fixpoint parseredirs (fuel : nat) (cmd : nat) (ps es : Z) : M shell (nat * Z) :=
  match fuel with
  | O => λ _, NoFuel
  | S fuel =>
    '(b, ps) ← mpeek ps es [LT; GT];
    if negb b then mret (cmd, ps) else
    '(tok, _, _, ps) ← mgettoken ps es;
    '(t, q, eq, ps) ← mgettoken ps es;
    if negb (t =? TWORD) then panic "missing file for redirection" else
    cmd ← (if tok =? LT then redircmd cmd q eq O_RDONLY 0
           else if tok =? GT then redircmd cmd q eq (Z.lor (Z.lor O_WRONLY O_CREATE) O_TRUNC) 1
           else if tok =? TAPPEND then redircmd cmd q eq (Z.lor O_WRONLY O_CREATE) 1
           else mret cmd);
    parseredirs fuel cmd ps es
  end.

(** [cmd->argv\[argc\] = q; cmd->eargv\[argc\] = eq] *)
Definition set_arg (cmd : nat) (argc q eq : Z) (s : shell) : shell :=
  match sh_heap s !! cmd with
  | Some (EXEC argv eargv) =>
    set_sh_heap (<[cmd := EXEC (<[Z.to_nat argc := q]> argv) (<[Z.to_nat argc := eq]> eargv)]> (sh_heap s)) s
  | _ => s
  end.

(** The loop of [parseexec]. *)
Fixpoint parseargs (fuel : nat) (cmd ret : nat) (argc ps es : Z) : M shell (nat * Z * Z) :=
  match fuel with
  | O => λ _, NoFuel
  | S fuel =>
    '(b, ps) ← mpeek ps es [BAR; RPAR; AMP; SEMI];
    if b : bool then mret (ret, argc, ps) else
    '(tok, q, eq, ps) ← mgettoken ps es;
    if tok =? 0 then mret (ret, argc, ps) else
    if negb (tok =? TWORD) then panic "syntax" else
    modify (set_arg cmd argc q eq);;
    let argc := argc + 1 in
    if argc >=? MAXARGS then panic "too many args" else
    '(ret, ps) ← parseredirs fuel ret ps es;
    parseargs fuel cmd ret argc ps es
  end.

(** [while(peek(ps, es, "&"))] of [parseline]. *)
Fixpoint parseback (fuel : nat) (cmd : nat) (ps es : Z) : M shell (nat * Z) :=
  match fuel with
  | O => λ _, NoFuel
  | S fuel =>
    '(b, ps) ← mpeek ps es [AMP];
    if negb b then mret (cmd, ps) else
    '(_, _, _, ps) ← mgettoken ps es;
    cmd ← backcmd cmd;
    parseback fuel cmd ps es
  end.

Fixpoint parseline (fuel : nat) (ps es : Z) : M shell (nat * Z) :=
  match fuel with
  | O => λ _, NoFuel
  | S fuel =>
    '(cmd, ps) ← parsepipe fuel ps es;
    '(cmd, ps) ← parseback fuel cmd ps es;
    '(b, ps) ← mpeek ps es [SEMI];
    if b : bool then
      '(_, _, _, ps) ← mgettoken ps es;
      '(rcmd, ps) ← parseline fuel ps es;
      cmd ← listcmd cmd rcmd;
      mret (cmd, ps)
    else mret (cmd, ps)
  end
with parsepipe (fuel : nat) (ps es : Z) : M shell (nat * Z) :=
  match fuel with
  | O => λ _, NoFuel
  | S fuel =>
    '(cmd, ps) ← parseexec fuel ps es;
    '(b, ps) ← mpeek ps es [BAR];
    if b : bool then
      '(_, _, _, ps) ← mgettoken ps es;
      '(rcmd, ps) ← parsepipe fuel ps es;
      cmd ← pipecmd cmd rcmd;
      mret (cmd, ps)
    else mret (cmd, ps)
  end
with parseexec (fuel : nat) (ps es : Z) : M shell (nat * Z) :=
  match fuel with
  | O => λ _, NoFuel
  | S fuel =>
    '(b, ps) ← mpeek ps es [LPAR];
    if b : bool then parseblock fuel ps es else
    cmd ← execcmd;
    '(ret, ps) ← parseredirs fuel cmd ps es;
    '(ret, argc, ps) ← parseargs fuel cmd ret 0 ps es;
    modify (set_arg cmd argc 0 0);;
    mret (ret, ps)
  end
with parseblock (fuel : nat) (ps es : Z) : M shell (nat * Z) :=
  match fuel with
  | O => λ _, NoFuel
  | S fuel =>
    '(b, ps) ← mpeek ps es [LPAR];
    if negb b then panic "parseblock" else
    '(_, _, _, ps) ← mgettoken ps es;
    '(cmd, ps) ← parseline fuel ps es;
    '(b, ps) ← mpeek ps es [RPAR];
    if negb b then panic "syntax - missing )" else
    '(_, _, _, ps) ← mgettoken ps es;
    parseredirs fuel cmd ps es
  end.

(** [for(i=0; ecmd->argv\[i\]; i++) *ecmd->eargv\[i\] = 0] *)
Fixpoint nul_args (argv eargv : list Z) (m : mem) : mem :=
  match argv, eargv with
  | q :: argv, eq :: eargv => if q =? 0 then m else nul_args argv eargv (wr eq 0 m)
  | _, _ => m
  end.
Fixpoint nulterminate (fuel : nat) (cmd : nat) : M shell unit :=
  match fuel with
  | O => λ _, NoFuel
  | S fuel =>
    n ← gets (λ s, sh_heap s !! cmd);
    match n with
    | Some (EXEC argv eargv) => modify (λ s, set_sh_mem (nul_args argv eargv (sh_mem s)) s)
    | Some (REDIR c file efile mode fd) =>
      nulterminate fuel c;; modify (λ s, set_sh_mem (wr efile 0 (sh_mem s)) s)
    | Some (PIPE l r) => nulterminate fuel l;; nulterminate fuel r
    | Some (LIST l r) => nulterminate fuel l;; nulterminate fuel r
    | Some (BACK c) => nulterminate fuel c
    | None => mret ()
    end
  end.

(** Every recursive call but four consumes a token, and a subcommand is older
    than the command ([parsecmd_total]). *)
Definition parse_fuel (m : mem) (s : Z) : nat := 4 * Z.to_nat (strlen m s) + 8.
Definition parsecmd (s : Z) : M shell nat :=
  es ← gets (λ st, s + strlen (sh_mem st) s);
  fuel ← gets (λ st, parse_fuel (sh_mem st) s);
  '(cmd, s) ← parseline fuel s es;
  '(_, s) ← mpeek s es [];
  if negb (s =? es) then panic "syntax" else
  h ← gets (λ st, length (sh_heap st));
  nulterminate h cmd;;
  mret cmd.
