(* ===== verification/ShSpec.v ===== *)
(** * The grammar of the shell

    The reference for the parser of [user/sh.c] is a lexer relation on byte
    strings and a context-free grammar on tokens.  [parsecmd] always returns or
    panics; it returns a command exactly when the line is in the grammar, and
    the heap then holds a syntax tree of the line whose words are strings. *)

From stdpp Require Import options.
From S2P Require Import Prelude CString Ulib Sh.
#[local] Open Scope Z_scope.

(** ** Tokens *)

Definition wordc (c : Z) : Prop := c ≠ 0 ∧ (c ∉ whitespace) ∧ (c ∉ symbols).
#[export] Instance wordc_dec c : Decision (wordc c).
Proof. unfold wordc. apply _. Defined.

(** A symbol, [>>], or a word. *)
Inductive token := Sym (c : Z) | App | Word (w : list Z).

(** The tokens of a string: separated by white space, a word as long as it
    can be, [>>] rather than two [>]. *)
Inductive lexes : list Z → list token → Prop :=
| lex_nil : lexes [] []
| lex_ws c l ts : c ∈ whitespace → lexes l ts → lexes (c :: l) ts
| lex_sym c l ts : c ∈ symbols → c ≠ GT → lexes l ts → lexes (c :: l) (Sym c :: ts)
| lex_gt l ts : head l ≠ Some GT → lexes l ts → lexes (GT :: l) (Sym GT :: ts)
| lex_app l ts : lexes l ts → lexes (GT :: GT :: l) (App :: ts)
| lex_word c w l ts : wordc c → Forall wordc w → (∀ d, head l = Some d → ¬ wordc d) →
    lexes l ts → lexes (c :: w ++ l) (Word (c :: w) :: ts).

(** ** The grammar *)

Inductive tree :=
| TExec (args : list (list Z))
| TRedir (t : tree) (file : list Z) (mode fd : Z)
| TPipe (l r : tree)
| TList (l r : tree)
| TBack (t : tree).

(** A redirection: the file, and the mode and descriptor of the operator. *)
Definition redirection : Type := list Z * Z * Z.
Inductive redir : token → Z → Z → Prop :=
| redir_in : redir (Sym LT) O_RDONLY 0
| redir_out : redir (Sym GT) (Z.lor (Z.lor O_WRONLY O_CREATE) O_TRUNC) 1
| redir_app : redir App (Z.lor O_WRONLY O_CREATE) 1.
Inductive redirs : list token → list redirection → Prop :=
| redirs_nil : redirs [] []
| redirs_cons op f mode fd ts rs : redir op mode fd → redirs ts rs →
    redirs (op :: Word f :: ts) ((f, mode, fd) :: rs).
(** The words and the redirections of a simple command, in any order. *)
Inductive items : list token → list (list Z) → list redirection → Prop :=
| items_nil : items [] [] []
| items_word w ts ws rs : items ts ws rs → items (Word w :: ts) (w :: ws) rs
| items_redir op f mode fd ts ws rs : redir op mode fd → items ts ws rs →
    items (op :: Word f :: ts) ws ((f, mode, fd) :: rs).
(** The first redirection is the innermost. *)
Definition wrap (rs : list redirection) (t : tree) : tree :=
  foldl (λ t '(f, mode, fd), TRedir t f mode fd) t rs.

Inductive line : tree → list token → Prop :=
| line_one t a : back t a → line t a
| line_seq t a t' b : back t a → line t' b → line (TList t t') (a ++ Sym SEMI :: b)
with back : tree → list token → Prop :=
| back_one t a : pipe t a → back t a
| back_amp t a : back t a → back (TBack t) (a ++ [Sym AMP])
with pipe : tree → list token → Prop :=
| pipe_one t a : exec t a → pipe t a
| pipe_bar t a t' b : exec t a → pipe t' b → pipe (TPipe t t') (a ++ Sym BAR :: b)
with exec : tree → list token → Prop :=
| exec_simple ws rs a : items a ws rs → Z.of_nat (length ws) < MAXARGS → exec (wrap rs (TExec ws)) a
| exec_block t a b rs : line t a → redirs b rs → exec (wrap rs t) (Sym LPAR :: a ++ Sym RPAR :: b).

(** ** Trees in the heap *)

Section denotes.
Context (W : Z → Z → list Z → Prop) (h : list node).

(** The words of [argv], up to its null pointer. *)
Inductive args_at : list Z → list Z → list (list Z) → Prop :=
| args_nil argv eargv : args_at (0 :: argv) eargv []
| args_cons q eq argv eargv w ws : q ≠ 0 → W q eq w → args_at argv eargv ws →
    args_at (q :: argv) (eq :: eargv) (w :: ws).
(** The command [c] of the heap is the tree; [W q eq w] says that the word [w]
    is at [q] and ends at [eq]. *)
Inductive denotes : nat → tree → Prop :=
| den_exec c argv eargv ws : h !! c = Some (EXEC argv eargv) → args_at argv eargv ws → denotes c (TExec ws)
| den_redir c c' f ef w mode fd t : h !! c = Some (REDIR c' f ef mode fd) → (c' < c)%nat → W f ef w →
    denotes c' t → denotes c (TRedir t w mode fd)
| den_pipe c l r tl tr : h !! c = Some (PIPE l r) → (l < c)%nat → (r < c)%nat →
    denotes l tl → denotes r tr → denotes c (TPipe tl tr)
| den_list c l r tl tr : h !! c = Some (LIST l r) → (l < c)%nat → (r < c)%nat →
    denotes l tl → denotes r tr → denotes c (TList tl tr)
| den_back c c' t : h !! c = Some (BACK c') → (c' < c)%nat → denotes c' t → denotes c (TBack t).
End denotes.

(** ** Lexing *)

Lemma ws_not_sym c : c ∈ whitespace → c ∉ symbols.
Proof. unfold whitespace, symbols. set_unfold. lia. Qed.
Lemma GT_sym : GT ∈ symbols.
Proof. unfold symbols, GT. set_solver. Qed.
#[local] Hint Resolve GT_sym : core.

Lemma lexes_ws c l ts : c ∈ whitespace → lexes (c :: l) ts → lexes l ts.
Proof.
  intros Hc H. pose proof (ws_not_sym c Hc). inversion H; subst; try done; unfold wordc in *; naive_solver.
Qed.
(** The first token of a string that does not start with white space. *)
Lemma lexes_first c l ts : c ∉ whitespace → lexes (c :: l) ts →
  ∃ t ts', ts = t :: ts' ∧
    match t with
    | Sym d => d = c ∧ c ∈ symbols ∧ (c = GT → head l ≠ Some GT) ∧ lexes l ts'
    | App => c = GT ∧ ∃ l', l = GT :: l' ∧ lexes l' ts'
    | Word w => ∃ w' l', w = c :: w' ∧ l = w' ++ l' ∧ wordc c ∧ Forall wordc w' ∧
        (∀ d, head l' = Some d → ¬ wordc d) ∧ lexes l' ts'
    end.
Proof.
  intros Hc H. inversion H; subst; try done; eexists _, _; (split; [done|]); simpl; eauto 10.
Qed.

Definition not_ws (l : list Z) : Prop := ∀ d, head l = Some d → d ∉ whitespace.
(** [p] is in a string that ends at [es] and has the tokens [ts]. *)
Definition at_ (m : mem) (es p : Z) (ts : list token) : Prop :=
  0 < p ∧ ∃ l, str_at m p l ∧ es = p + Z.of_nat (length l) ∧ lexes l ts.

Lemma skip_ws_ok m l : ∀ p ts, str_at m p l → lexes l ts →
  ∃ l', skip_ws (length l) m p = p + Z.of_nat (length l) - Z.of_nat (length l') ∧
    str_at m (p + Z.of_nat (length l) - Z.of_nat (length l')) l' ∧ lexes l' ts ∧ not_ws l' ∧
    (length l' ≤ length l)%nat.
Proof.
  induction l as [|c l IH]; intros p ts Hs Hl.
  { exists []. split; [simpl; lia|]. replace (p + Z.of_nat (length []) - Z.of_nat (length [])) with p by (simpl; lia). done. }
  destruct Hs as (Hc & Hn & Hs). cbn [skip_ws length]. rewrite Hc. unfold is_in.
  destruct (bool_decide_reflect (c ∈ whitespace)) as [Hw|Hw].
  - destruct (IH (p + 1) ts Hs (lexes_ws _ _ _ Hw Hl)) as (l' & E & H1 & H2 & H3 & H4). exists l'.
    replace (p + Z.of_nat (S (length l)) - Z.of_nat (length l'))
      with (p + 1 + Z.of_nat (length l) - Z.of_nat (length l')) by lia. split_and!; try done. lia.
  - exists (c :: l). cbn [length]. replace (p + Z.of_nat (S (length l)) - Z.of_nat (S (length l))) with p by lia.
    split_and!; try done. intros d [= <-]. done.
Qed.
Lemma at_skip m es p ts : at_ m es p ts →
  let p' := skip_ws (Z.to_nat (es - p)) m p in
  0 < p' ∧ ∃ l, str_at m p' l ∧ es = p' + Z.of_nat (length l) ∧ lexes l ts ∧ not_ws l.
Proof.
  intros (Hp & l & Hs & -> & Hl). destruct (skip_ws_ok m l p ts Hs Hl) as (l' & E & H1 & H2 & H3 & H4).
  replace (Z.to_nat (p + Z.of_nat (length l) - p)) with (length l) by lia. rewrite E.
  split; [lia|]. exists l'. split_and!; try done. lia.
Qed.

Lemma skip_word_ok m w : ∀ p l, str_at m p (w ++ l) → Forall wordc w → (∀ d, head l = Some d → ¬ wordc d) →
  skip_word (length (w ++ l)) m p = p + Z.of_nat (length w).
Proof.
  induction w as [|c w IH]; intros p l Hs Hw Hl.
  - destruct l as [|d l]; cbn [app length skip_word]; [lia|]. destruct Hs as (-> & Hn & _).
    specialize (Hl d eq_refl). unfold is_in. destruct (decide (d ∈ whitespace)); [rewrite bool_decide_true by done; simpl; lia|].
    destruct (decide (d ∈ symbols)); [rewrite (bool_decide_true (d ∈ symbols)) by done; rewrite andb_false_r; simpl; lia|].
    by destruct Hl.
  - destruct Hs as (Hc & Hn & Hs). apply Forall_cons_1 in Hw as [(_ & H1 & H2) Hw].
    cbn [app length skip_word]. rewrite Hc. unfold is_in. rewrite !bool_decide_false by done. cbn [negb andb].
    rewrite (IH (p + 1) l) by done. lia.
Qed.

(** What [peek] and [gettoken] return. *)
Definition starts (toks : list Z) (ts : list token) : bool :=
  match ts with
  | Sym c :: _ => is_in toks c
  | App :: _ => is_in toks GT
  | _ => false
  end.
Definition code (t : token) : Z :=
  match t with Sym c => c | App => TAPPEND | Word _ => TWORD end.
(** The word [w] is at [q] and [eq] is the byte after it. *)
Definition word (m : mem) (q eq : Z) (w : list Z) : Prop :=
  Forall wordc w ∧ rd_bytes m q (length w) = w ∧ eq = q + Z.of_nat (length w) ∧ ¬ wordc (rd m eq).

Lemma is_in_word toks c : wordc c → toks ⊆ symbols → is_in toks c = false.
Proof. intros (_ & _ & Hc) Ht. apply bool_decide_eq_false. set_solver. Qed.

Lemma at_after_skip m es p ts : at_ m es p ts → at_ m es (skip_ws (Z.to_nat (es - p)) m p) ts.
Proof. intros (Hp & l & H1 & H2 & H3 & _)%at_skip. split; [done|]. by exists l. Qed.

Lemma peek_ok m es p ts toks : at_ m es p ts → toks ⊆ symbols →
  ∃ p', peek m p es toks = (starts toks ts, p') ∧ at_ m es p' ts ∧ (p' = es ↔ ts = []).
Proof.
  intros Hat Ht. unfold peek. pose proof (at_after_skip _ _ _ _ Hat) as Hat'. apply at_skip in Hat.
  set (p' := skip_ws _ _ _) in *. exists p'. destruct Hat as (Hp & l & Hs & Hes & Hl & Hw).
  split; [|split; [done|]].
  - f_equal. destruct l as [|c l]; [rewrite Hs; by inversion Hl|].
    destruct Hs as (-> & Hn & Hs). rewrite (proj2 (Z.eqb_neq c 0) Hn). cbn [negb andb].
    destruct (lexes_first c l ts (Hw c eq_refl) Hl) as (t & ts' & -> & Ht'). destruct t as [d| |w]; cbn [starts].
    + by destruct Ht' as [-> _].
    + by destruct Ht' as [-> _].
    + destruct Ht' as (w' & l' & -> & _ & Hc & _). by apply is_in_word.
  - destruct l as [|c l]; [simpl in Hes; split; [by inversion Hl|lia]|].
    destruct (lexes_first c l ts (Hw c eq_refl) Hl) as (t & ts' & -> & _). simpl in Hes. split; [lia|done].
Qed.

Lemma gettoken_end m es p : at_ m es p [] → gettoken m p es = (0, es, es, es).
Proof.
  intros (Hp & l & Hs & Hes & Hl & Hw)%at_skip. unfold gettoken. set (s := skip_ws _ _ _) in *. clearbody s.
  destruct l as [|c l]; [|by destruct (lexes_first c l [] (Hw c eq_refl) Hl) as (? & ? & ? & _)].
  rewrite Hs. change (0 =? 0) with true. cbv iota beta. simpl in Hes.
  replace es with s by lia. replace (Z.to_nat (s - s)) with O by lia. by rewrite Hs.
Qed.

(** A token other than a word: its first character decides. *)
Lemma gettoken_sym c : c ∈ symbols → c ≠ GT →
  (c =? 0) = false ∧ (c =? BAR) || (c =? LPAR) || (c =? RPAR) || (c =? SEMI) || (c =? AMP) || (c =? LT) = true.
Proof. unfold symbols, GT. set_unfold. intros [?|[?|[?|[?|[?|[?|[?|?]]]]]]]; subst; done. Qed.
Lemma gettoken_word c : wordc c →
  (c =? 0) = false ∧ (c =? BAR) || (c =? LPAR) || (c =? RPAR) || (c =? SEMI) || (c =? AMP) || (c =? LT) = false ∧
  (c =? GT) = false.
Proof.
  intros (H0 & _ & Hs). unfold symbols, BAR, LPAR, RPAR, SEMI, AMP, LT, GT in *. set_unfold.
  rewrite !orb_false_iff, !Z.eqb_neq. lia.
Qed.

Lemma gettoken_ok m es p t ts : at_ m es p (t :: ts) →
  ∃ q eq p', gettoken m p es = (code t, q, eq, p') ∧ at_ m es p' ts ∧
    match t with Word w => q ≠ 0 ∧ word m q eq w | Sym c => c ∈ symbols | App => True end.
Proof.
  intros (Hp & l & Hs & Hes & Hl & Hw)%at_skip. unfold gettoken. set (s := skip_ws _ _ _) in *. clearbody s.
  destruct l as [|c l]; [inversion Hl|]. pose proof Hs as (-> & Hn & Hs').
  destruct (lexes_first c l _ (Hw c eq_refl) Hl) as (t' & ts' & [= <- <-] & Ht). cbn [length] in Hes.
  assert (∀ x l', str_at m (s + x) l' → Z.of_nat (S (length l)) = x + Z.of_nat (length l') → 0 ≤ x → lexes l' ts →
    at_ m es (skip_ws (Z.to_nat (es - (s + x))) m (s + x)) ts) as Hnext.
  { intros x l' H1 H2 H3 H4. apply at_after_skip. split; [lia|]. exists l'. split_and!; [done|lia|done]. }
  destruct t as [d| |w]; cbn [code].
  - destruct Ht as (-> & Hc & Hg & Hl'). destruct (decide (c = GT)) as [->|Hng].
    + change (GT =? 0) with false. change (GT =? GT) with true. cbn [orb].
      assert (rd m (s + 1) =? GT = false) as ->.
      { apply Z.eqb_neq. destruct l as [|d l]; [rewrite Hs'; done|]. destruct Hs' as (-> & _).
        specialize (Hg eq_refl). simpl in Hg. congruence. }
      eexists _, _, _. split; [done|]. split; [|done]. apply (Hnext 1 l); [done|lia|lia|done].
    + destruct (gettoken_sym c Hc Hng) as [-> ->]. cbv iota beta.
      eexists _, _, _. split; [done|]. split; [|done]. apply (Hnext 1 l); [done|lia|lia|done].
  - destruct Ht as (-> & l' & -> & Hl'). destruct Hs' as (-> & _ & Hs'). change (GT =? 0) with false.
    change (GT =? GT) with true. cbn [orb]. rewrite <- Z.add_assoc in Hs' |- *.
    eexists _, _, _. split; [done|]. split; [|done]. apply (Hnext 2 l'); [done|simpl; lia|lia|done].
  - destruct Ht as (w' & l' & -> & -> & Hc & Hw' & Hd & Hl').
    destruct (gettoken_word c Hc) as (-> & -> & ->). cbv iota beta.
    replace (Z.to_nat (es - s)) with (length ((c :: w') ++ l')) by (simpl in *; lia).
    rewrite (skip_word_ok m (c :: w') s l') by (done || by constructor).
    eexists _, _, _. split; [done|]. change (c :: w' ++ l') with ((c :: w') ++ l') in Hs.
    pose proof Hs as (Hb & Hr)%str_at_app. rewrite length_app in Hnext. split; [|split; [lia|]].
    + apply (Hnext _ l'); [done|simpl; lia|lia|done].
    + split_and!; [by constructor|done|done|]. destruct l' as [|d l']; [rewrite Hr; intros [? _]; done|].
      destruct Hr as (-> & _). by apply Hd.
Qed.

(** ** A parser of tokens *)

(** The functions of the parser on a list of tokens; [Bad] is a panic and
    [Out] is out of fuel. *)
Inductive pr (A : Type) := Got (a : A) (ts : list token) | Bad | Out.
Arguments Got {_} _ _.
Arguments Bad {_}.
Arguments Out {_}.
Definition pbind {A B} (r : pr A) (k : A → list token → pr B) : pr B :=
  match r with Got a ts => k a ts | Bad => Bad | Out => Out end.

Definition redir_of (op : token) : Z * Z :=
  if code op =? LT then (O_RDONLY, 0)
  else if code op =? GT then (Z.lor (Z.lor O_WRONLY O_CREATE) O_TRUNC, 1)
  else (Z.lor O_WRONLY O_CREATE, 1).
Fixpoint predirs (fuel : nat) (rs : list redirection) (ts : list token) : pr (list redirection) :=
  match fuel with
  | O => Out
  | S fuel =>
    if starts [LT; GT] ts then
      match ts with
      | op :: Word w :: ts => predirs fuel (rs ++ [(w, (redir_of op).1, (redir_of op).2)]) ts
      | _ => Bad
      end
    else Got rs ts
  end.
Fixpoint pargs (fuel : nat) (ws : list (list Z)) (rs : list redirection) (ts : list token) :
    pr (list (list Z) * list redirection) :=
  match fuel with
  | O => Out
  | S fuel =>
    if starts [BAR; RPAR; AMP; SEMI] ts then Got (ws, rs) ts else
    match ts with
    | [] => Got (ws, rs) []
    | Word w :: ts =>
      if Z.of_nat (length ws) + 1 >=? MAXARGS then Bad
      else pbind (predirs fuel rs ts) (λ rs ts, pargs fuel (ws ++ [w]) rs ts)
    | _ => Bad
    end
  end.
Fixpoint pback (fuel : nat) (t : tree) (ts : list token) : pr tree :=
  match fuel with
  | O => Out
  | S fuel => if starts [AMP] ts then pback fuel (TBack t) (tail ts) else Got t ts
  end.
Fixpoint pline (fuel : nat) (ts : list token) : pr tree :=
  match fuel with
  | O => Out
  | S fuel =>
    pbind (ppipe fuel ts) (λ t ts, pbind (pback fuel t ts) (λ t ts,
      if starts [SEMI] ts then pbind (pline fuel (tail ts)) (λ t' ts, Got (TList t t') ts) else Got t ts))
  end
with ppipe (fuel : nat) (ts : list token) : pr tree :=
  match fuel with
  | O => Out
  | S fuel =>
    pbind (pexec fuel ts) (λ t ts,
      if starts [BAR] ts then pbind (ppipe fuel (tail ts)) (λ t' ts, Got (TPipe t t') ts) else Got t ts)
  end
with pexec (fuel : nat) (ts : list token) : pr tree :=
  match fuel with
  | O => Out
  | S fuel =>
    if starts [LPAR] ts then pblock fuel ts else
    pbind (predirs fuel [] ts) (λ rs ts, pbind (pargs fuel [] rs ts) (λ '(ws, rs) ts, Got (wrap rs (TExec ws)) ts))
  end
with pblock (fuel : nat) (ts : list token) : pr tree :=
  match fuel with
  | O => Out
  | S fuel =>
    pbind (pline fuel (tail ts)) (λ t ts,
      if starts [RPAR] ts then pbind (predirs fuel [] (tail ts)) (λ rs ts, Got (wrap rs t) ts) else Bad)
  end.

(** ** The parser refines it *)

Section refine.
Context (m : mem) (es : Z).

Abbreviation den := (denotes (word m)).
(** The heap only grows, and the line is not changed. *)
Definition ext (s s' : shell) : Prop := sh_mem s' = sh_mem s ∧ sh_heap s `prefix_of` sh_heap s'.
Lemma ext_refl s : ext s s.
Proof. done. Qed.
Lemma ext_trans s1 s2 s3 : ext s1 s2 → ext s2 s3 → ext s1 s3.
Proof. intros [A1 A2] [B1 B2]. split; [congruence|by etrans]. Qed.

Lemma den_prefix h h' c t : h `prefix_of` h' → den h c t → den h' c t.
Proof.
  intros Hp. induction 1.
  all: match goal with H : _ !! _ = Some _ |- _ => pose proof (prefix_lookup_Some _ _ _ _ H Hp) end; econstructor; eauto.
Qed.
Lemma den_lt h c t : den h c t → (c < length h)%nat.
Proof. by destruct 1; eapply lookup_lt_Some. Qed.

(** [x] does what the token parser does: it returns a result for the parsed
    one, positioned at the remaining tokens, in a state that extends [s0], or it panics. *)
Definition refines {A B} (s0 : shell) (x : M shell (A * Z)) (r : pr B) (R : A → B → shell → Prop) (s : shell) : Prop :=
  match r with
  | Got b ts => wp x (λ '(a, p) s', at_ m es p ts ∧ ext s0 s' ∧ R a b s') s
  | Bad => ∃ msg, x s = Panic msg
  | Out => True
  end.

Lemma refines_call {A B} s0 s (x : M shell (A * Z)) (r : pr B) R :
  ext s0 s → refines s x r R s → refines s0 x r (λ a b s', ext s s' ∧ R a b s') s.
Proof.
  intros He. unfold refines. destruct r; try done. intros Hx. eapply wp_mono; [done|].
  intros [a' p] s' (H1 & H2 & H3). split_and!; [done|by eapply ext_trans|done|done].
Qed.
Lemma refines_impl {A B} s0 (x : M shell (A * Z)) (r : pr B) (R R' : A → B → shell → Prop) s :
  (∀ a b s', R a b s' → R' a b s') → refines s0 x r R s → refines s0 x r R' s.
Proof.
  intros HR. unfold refines. destruct r; try done. intros Hx. eapply wp_mono; [done|].
  intros [a' p] s' (H1 & H2 & H3). auto.
Qed.
Lemma refines_map {A B B'} s0 (x : M shell (A * Z)) (r : pr B) (g : B → B') R (R' : A → B' → shell → Prop) s :
  refines s0 x r R s → (∀ a b s', R a b s' → R' a (g b) s') →
  refines s0 x (pbind r (λ b ts, Got (g b) ts)) R' s.
Proof.
  intros Hx HR. destruct r; try done. eapply wp_mono; [exact Hx|]. intros [a' p] s' (H1 & H2 & H3). auto.
Qed.
Lemma refines_bind {A B A' B'} s0 (x : M shell (A * Z)) (r : pr B) R s (f : A * Z → M shell (A' * Z))
    (k : B → list token → pr B') (R' : A' → B' → shell → Prop) :
  refines s0 x r R s →
  (∀ a b p ts s', at_ m es p ts → ext s0 s' → R a b s' → refines s0 (f (a, p)) (k b ts) R' s') →
  refines s0 (x ≫= f) (pbind r k) R' s.
Proof.
  intros Hx Hf. destruct r as [b ts| |]; simpl in *; [|destruct Hx as [msg Hx]; exists msg; by apply bind_Panic|done].
  apply wp_inv in Hx as ([a p] & s' & E & Hat & He & HR). specialize (Hf a b p ts s' Hat He HR).
  unfold refines in *. destruct (k b ts).
  - apply wp_bind. by eapply wp_Ok.
  - destruct Hf as [msg Hf]. exists msg. by erewrite bind_Ok.
  - done.
Qed.
Lemma refines_Ok {A B C} s0 (x : M shell C) a s s' (f : C → M shell (A * Z)) (r : pr B) R :
  x s = Ok a s' → refines s0 (f a) r R s' → refines s0 (x ≫= f) r R s.
Proof.
  intros E. unfold refines. destruct r; [|intros [msg Hf]; exists msg; by erewrite bind_Ok|done].
  intros Hf. apply wp_bind. by eapply wp_Ok.
Qed.
Lemma refines_peek {A B} s0 p ts toks s (f : bool * Z → M shell (A * Z)) (r : pr B) R :
  sh_mem s = m → at_ m es p ts → toks ⊆ symbols →
  (∀ p', at_ m es p' ts → refines s0 (f (starts toks ts, p')) r R s) →
  refines s0 (mpeek p es toks ≫= f) r R s.
Proof.
  intros Hm Hat Ht Hf. destruct (peek_ok m es p ts toks Hat Ht) as (p' & E & Hat' & _).
  eapply refines_Ok; [|exact (Hf p' Hat')]. unfold mpeek, gets. by rewrite Hm, E.
Qed.
Lemma refines_token {A B} s0 p t ts s (f : Z * Z * Z * Z → M shell (A * Z)) (r : pr B) R :
  sh_mem s = m → at_ m es p (t :: ts) →
  (∀ q eq p', at_ m es p' ts →
     match t with Word w => q ≠ 0 ∧ word m q eq w | Sym c => c ∈ symbols | App => True end →
     refines s0 (f (code t, q, eq, p')) r R s) →
  refines s0 (mgettoken p es ≫= f) r R s.
Proof.
  intros Hm Hat Hf. destruct (gettoken_ok m es p t ts Hat) as (q & eq & p' & E & Hat' & Ht).
  eapply refines_Ok; [|exact (Hf q eq p' Hat' Ht)]. unfold mgettoken, gets. by rewrite Hm, E.
Qed.
Lemma refines_end {A B} s0 p s (f : Z * Z * Z * Z → M shell (A * Z)) (r : pr B) R :
  sh_mem s = m → at_ m es p [] → (at_ m es es [] → refines s0 (f (0, es, es, es)) r R s) →
  refines s0 (mgettoken p es ≫= f) r R s.
Proof.
  intros Hm Hat Hf. pose proof (gettoken_end m es p Hat) as E.
  assert (at_ m es es []) as Hes.
  { destruct (peek_ok m es p [] [] Hat ltac:(set_solver)) as (p' & _ & H & Hp). by rewrite (proj2 Hp) in H. }
  eapply refines_Ok; [|exact (Hf Hes)]. unfold mgettoken, gets. by rewrite Hm, E.
Qed.
Lemma refines_malloc {A B} s0 n s (f : nat → M shell (A * Z)) (r : pr B) R :
  refines s0 (f (length (sh_heap s))) r R (Shell (sh_mem s) (sh_heap s ++ [n])) →
  refines s0 (malloc n ≫= f) r R s.
Proof. by apply refines_Ok. Qed.
Lemma ext_malloc s n : ext s (Shell (sh_mem s) (sh_heap s ++ [n])).
Proof. split; [done|]. by eexists. Qed.
Lemma refines_ret {A B} s0 (a : A) p (b : B) ts R s :
  at_ m es p ts → ext s0 s → R a b s → refines s0 (mret (a, p)) (Got b ts) R s.
Proof. by unfold refines. Qed.

(** [c] is the redirections [rs] on top of [base]. *)
Inductive chain (h : list node) (base : nat) : list redirection → nat → Prop :=
| chain_nil : chain h base [] base
| chain_snoc rs c' c f ef w mode fd : chain h base rs c' → h !! c = Some (REDIR c' f ef mode fd) → (c' < c)%nat →
    word m f ef w → chain h base (rs ++ [(w, mode, fd)]) c.
Lemma chain_den h base rs c t : chain h base rs c → den h base t → den h c (wrap rs t).
Proof.
  intros Hc Ht. induction Hc as [|rs c' c f ef w mode fd Hc IH H1 H2 H3]; [done|].
  unfold wrap. rewrite foldl_app. by eapply den_redir.
Qed.
Lemma chain_prefix h h' base rs c : h `prefix_of` h' → chain h base rs c → chain h' base rs c.
Proof. intros Hp. induction 1; econstructor; eauto using prefix_lookup_Some. Qed.
Lemma chain_lt h base rs c : chain h base rs c → (base < length h)%nat → (c < length h)%nat.
Proof. intros Hc Hb. destruct Hc; [done|]. by eapply lookup_lt_Some. Qed.

(** The operators of redirections. *)
Lemma starts_redir ts : starts [LT; GT] ts = true → ∃ op ts', ts = op :: ts' ∧
  (op = Sym LT ∨ op = Sym GT ∨ op = App).
Proof.
  destruct ts as [|[c| |w] ts]; simpl; try done; [|naive_solver].
  intros H%bool_decide_eq_true. set_unfold in H. naive_solver.
Qed.
Lemma not_word t : match t with Word _ => False | Sym c => c ∈ symbols | App => True end → (code t =? TWORD) = false.
Proof. destruct t; simpl; [|done|done]. unfold symbols, TWORD. set_unfold. intros. apply Z.eqb_neq. lia. Qed.
Lemma toks_ok : [LT; GT] ⊆ symbols ∧ [BAR; RPAR; AMP; SEMI] ⊆ symbols ∧ [AMP] ⊆ symbols ∧ [SEMI] ⊆ symbols ∧
  [BAR] ⊆ symbols ∧ [LPAR] ⊆ symbols ∧ [RPAR] ⊆ symbols ∧ ([] : list Z) ⊆ symbols.
Proof. unfold symbols. set_solver. Qed.

Lemma parseredirs_refines fuel : ∀ s0 base rs c p ts s,
  sh_mem s = m → at_ m es p ts → ext s0 s → chain (sh_heap s) base rs c → (base < length (sh_heap s))%nat →
  refines s0 (parseredirs fuel c p es) (predirs fuel rs ts) (λ c' rs' s', ext s s' ∧ chain (sh_heap s') base rs' c') s.
Proof.
  induction fuel as [|fuel IH]; intros s0 base rs c p ts s Hm Hat He Hc Hb; [done|]. cbn [parseredirs predirs].
  apply (refines_peek s0 p ts); [done|done|apply toks_ok|]. clear Hat. intros p1 Hat.
  destruct (starts [LT; GT] ts) eqn:Es; cbn [negb]; [|by apply refines_ret].
  apply starts_redir in Es as (op & ts' & -> & Hop).
  apply (refines_token s0 p1 op ts'); [done|done|]. clear Hat. intros _ _ p2 Hat _.
  destruct ts' as [|t ts'].
  { apply (refines_end s0 p2); [done|done|]. intros _. by exists "missing file for redirection"%string. }
  apply (refines_token s0 p2 t ts'); [done|done|]. clear Hat. intros q eq p3 Hat Ht.
  destruct t as [d| |w]; [rewrite not_word by done; by eexists|by eexists|].
  cbn [code]. change (TWORD =? TWORD) with true. cbn [negb]. destruct Ht as [_ Hw].
  assert (∀ mode fd, redir_of op = (mode, fd) →
    refines s0 (redircmd c q eq mode fd ≫= λ cmd, parseredirs fuel cmd p3 es)
      (predirs fuel (rs ++ [(w, (redir_of op).1, (redir_of op).2)]) ts')
      (λ c' rs' s', ext s s' ∧ chain (sh_heap s') base rs' c') s) as Hgo.
  { intros mode fd ->. apply refines_malloc. pose proof (ext_malloc s (REDIR c q eq mode fd)) as He'.
    eapply refines_impl; [|apply (IH s0 base)]; cbn [sh_mem sh_heap].
    - intros c' rs' s' [H1 H2]. split; [by eapply ext_trans|done].
    - done.
    - done.
    - by eapply ext_trans.
    - eapply chain_snoc; [by eapply chain_prefix; [eexists|]|by rewrite list_lookup_middle| |done]. by eapply chain_lt.
    - rewrite length_app. simpl. lia. }
  destruct Hop as [->|[->| ->]]; by apply Hgo.
Qed.

(** The arrays of an [execcmd]: zero behind the words. *)
Definition cells (l : list Z) : list Z := l ++ replicate (Z.to_nat MAXARGS - length l) 0.
Lemma cells_snoc l x : Z.of_nat (length l) < MAXARGS → <[length l := x]> (cells l) = cells (l ++ [x]).
Proof.
  intros Hl. unfold cells. rewrite length_app. rewrite insert_app_r_alt, Nat.sub_diag by lia. rewrite <- app_assoc. f_equal.
  replace (Z.to_nat MAXARGS - length l)%nat with (S (Z.to_nat MAXARGS - (length l + 1)))%nat by lia. done.
Qed.
Lemma cells_end l : Z.of_nat (length l) < MAXARGS → <[length l := 0]> (cells l) = cells l.
Proof.
  intros Hl. unfold cells. rewrite insert_app_r_alt, Nat.sub_diag by lia. f_equal.
  by replace (Z.to_nat MAXARGS - length l)%nat with (S (Z.to_nat MAXARGS - (length l + 1)))%nat by lia.
Qed.

(** The command under construction, made in state [s0], with the words [ws]
    at the places [L] and the redirections [rs] on top of it. *)
Record building (s0 s : shell) (L : list (Z * Z)) (ws : list (list Z)) (rs : list redirection) (ret : nat) : Prop := {
  bd_mem : sh_mem s = m;
  bd_ext : ext s0 s;
  bd_node : sh_heap s !! length (sh_heap s0) = Some (EXEC (cells L.*1) (cells L.*2));
  bd_words : Forall2 (λ p w, p.1 ≠ 0 ∧ word m p.1 p.2 w) L ws;
  bd_len : Z.of_nat (length ws) < MAXARGS;
  bd_chain : chain (sh_heap s) (length (sh_heap s0)) rs ret;
}.

Lemma chain_insert h base argv eargv n rs c :
  h !! base = Some (EXEC argv eargv) → chain h base rs c → chain (<[base := n]> h) base rs c.
Proof.
  intros Hb. induction 1 as [|rs c' c f ef w mode fd Hc IH H1 H2 H3]; [constructor|].
  eapply chain_snoc; [done| |done|done]. rewrite list_lookup_insert_ne; [done|]. intros <-. congruence.
Qed.
Lemma prefix_insert (h0 h : list node) n : h0 `prefix_of` h → h0 `prefix_of` <[length h0 := n]> h.
Proof.
  intros [k ->]. destruct k as [|x k]; [rewrite app_nil_r, list_insert_ge by lia; done|].
  rewrite insert_app_r_alt, Nat.sub_diag by lia. by eexists.
Qed.

Lemma building_len s0 s L ws rs ret : building s0 s L ws rs ret → length L = length ws.
Proof. intros H. exact (Forall2_length _ _ _ (bd_words _ _ _ _ _ _ H)). Qed.
Lemma set_arg_building s0 s L ws rs ret q eq w : building s0 s L ws rs ret →
  Z.of_nat (length ws) + 1 < MAXARGS → q ≠ 0 → word m q eq w →
  building s0 (set_arg (length (sh_heap s0)) (Z.of_nat (length ws)) q eq s) (L ++ [(q, eq)]) (ws ++ [w]) rs ret.
Proof.
  intros HB Hl Hq Hw. pose proof (building_len _ _ _ _ _ _ HB) as HL. destruct HB as [B1 B2 B3 B4 B5 B6].
  unfold set_arg. rewrite B3, Nat2Z.id. pose proof (lookup_lt_Some _ _ _ B3). constructor; cbn [sh_mem sh_heap set_sh_heap].
  - done.
  - split; [apply B2|]. by apply prefix_insert, B2.
  - rewrite list_lookup_insert_eq by done. rewrite !fmap_app. cbn [fmap list_fmap].
    rewrite <- !cells_snoc by (rewrite length_fmap; lia). by rewrite !length_fmap, HL.
  - apply Forall2_app; [done|]. constructor; [done|constructor].
  - rewrite length_app. simpl. lia.
  - by eapply chain_insert.
Qed.
Lemma set_arg_end s0 s L ws rs ret : building s0 s L ws rs ret →
  set_arg (length (sh_heap s0)) (Z.of_nat (length ws)) 0 0 s = s.
Proof.
  intros HB. pose proof (building_len _ _ _ _ _ _ HB) as HL. destruct HB as [B1 B2 B3 B4 B5 B6].
  unfold set_arg. rewrite B3, Nat2Z.id. rewrite <- HL in B5 |- *.
  pose proof (cells_end L.*1) as E1. pose proof (cells_end L.*2) as E2. rewrite length_fmap in E1, E2.
  rewrite E1, E2 by lia. rewrite list_insert_id by done. by destruct s.
Qed.
Lemma args_of_cells L ws : Forall2 (λ p w, p.1 ≠ 0 ∧ word m p.1 p.2 w) L ws → ∀ k k',
  args_at (word m) (L.*1 ++ 0 :: k) (L.*2 ++ k') ws.
Proof. induction 1 as [|[q e] w L ws [H1 H2] _ IH]; intros k k'; [constructor|]. simpl. by constructor. Qed.
Lemma building_den s0 s L ws rs ret : building s0 s L ws rs ret → den (sh_heap s) ret (wrap rs (TExec ws)).
Proof.
  intros HB. pose proof (building_len _ _ _ _ _ _ HB) as HL. destruct HB as [B1 B2 B3 B4 B5 B6].
  eapply chain_den; [done|]. eapply den_exec; [done|]. unfold cells. rewrite !length_fmap.
  replace (Z.to_nat MAXARGS - length L)%nat with (S (Z.to_nat MAXARGS - (length L + 1)))%nat by lia.
  by apply args_of_cells.
Qed.
Lemma building_redirs s0 s s' L ws rs ret rs' ret' : building s0 s L ws rs ret →
  ext s s' → chain (sh_heap s') (length (sh_heap s0)) rs' ret' → building s0 s' L ws rs' ret'.
Proof.
  intros [B1 B2 B3 B4 B5 B6] He Hc. constructor; try done.
  - by rewrite (proj1 He).
  - by eapply ext_trans.
  - eapply prefix_lookup_Some; [done|apply He].
Qed.

Lemma parseargs_refines fuel : ∀ s0 L ws rs ret p ts s,
  building s0 s L ws rs ret → at_ m es p ts →
  refines s0 (parseargs fuel (length (sh_heap s0)) ret (Z.of_nat (length ws)) p es) (pargs fuel ws rs ts)
    (λ '(ret', argc) '(ws', rs') s', argc = Z.of_nat (length ws') ∧ ∃ L', building s0 s' L' ws' rs' ret') s.
Proof.
  induction fuel as [|fuel IH]; intros s0 L ws rs ret p ts s HB Hat; [done|]. cbn [parseargs pargs].
  pose proof (bd_mem _ _ _ _ _ _ HB) as Hm. pose proof (bd_ext _ _ _ _ _ _ HB) as He.
  apply (refines_peek s0 p ts); [done|done|apply toks_ok|]. clear Hat. intros p1 Hat.
  destruct (starts _ ts); [apply (refines_ret s0 (ret, _)); eauto|].
  destruct ts as [|t ts].
  { apply (refines_end s0 p1); [done|done|]. intros Hat'. apply (refines_ret s0 (ret, _)); eauto. }
  apply (refines_token s0 p1 t ts); [done|done|]. clear Hat. intros q eq p2 Hat Ht.
  destruct t as [d| |w]; cbn [code].
  { change d with (code (Sym d)). rewrite not_word by done. destruct (code (Sym d) =? 0) eqn:E0; [|by eexists].
    apply Z.eqb_eq in E0. cbn in E0. subst d. exfalso. unfold symbols in Ht. set_unfold. lia. }
  { by eexists. }
  change (TWORD =? 0) with false. change (TWORD =? TWORD) with true. cbn [negb].
  eapply refines_Ok; [done|]. rewrite Z.geb_leb. destruct (Z.leb_spec MAXARGS (Z.of_nat (length ws) + 1)) as [Hge|Hlt]; [by eexists|].
  destruct Ht as [Hq Hw]. pose proof (set_arg_building _ _ _ _ _ _ q eq w HB Hlt Hq Hw) as HB'.
  eapply refines_bind.
  - eapply (parseredirs_refines fuel s0 (length (sh_heap s0)) rs); try done; try apply HB'.
    by eapply lookup_lt_Some, HB'.
  - cbn beta. intros c' rs' p3 ts3 s3 Hat3 He3 [He4 Hc4]. pose proof (building_redirs _ _ _ _ _ _ _ _ _ HB' He4 Hc4) as HB3.
    specialize (IH s0 _ _ _ _ p3 ts3 s3 HB3 Hat3). rewrite length_app in IH. cbn [length] in IH.
    by replace (Z.of_nat (length ws) + 1) with (Z.of_nat (length ws + 1)) by lia.
Qed.

(** Skipping the token that [peek] saw. *)
Lemma refines_skip {A B} s0 toks p ts s (f : Z * Z * Z * Z → M shell (A * Z)) (r : pr B) R :
  starts toks ts = true → sh_mem s = m → at_ m es p ts →
  (∀ c q eq p', at_ m es p' (tail ts) → refines s0 (f (c, q, eq, p')) r R s) →
  refines s0 (mgettoken p es ≫= f) r R s.
Proof.
  intros Hs Hm Hat Hf. destruct ts as [|t ts]; [done|].
  apply (refines_token s0 p t ts); [done|done|]. intros q eq p' Hat' _. by apply Hf.
Qed.
Abbreviation is_tree := (λ c t s, den (sh_heap s) c t).
#[local] Lemma ext_mem s0 s : ext s0 s → sh_mem s0 = m → sh_mem s = m.
Proof. intros [-> _]. done. Qed.

Lemma parseback_refines fuel : ∀ s0 c t p ts s,
  sh_mem s = m → at_ m es p ts → ext s0 s → den (sh_heap s) c t →
  refines s0 (parseback fuel c p es) (pback fuel t ts) is_tree s.
Proof.
  induction fuel as [|fuel IH]; intros s0 c t p ts s Hm Hat He Hd; [done|]. cbn [parseback pback].
  apply (refines_peek s0 p ts); [done|done|apply toks_ok|]. clear Hat. intros p1 Hat.
  destruct (starts [AMP] ts) eqn:Es; cbn [negb]; [|by apply refines_ret].
  eapply refines_skip; [done..|]. clear Hat. intros _ _ _ p2 Hat. apply refines_malloc.
  apply IH; [done|done|eapply ext_trans; [done|apply ext_malloc]|]. pose proof (den_lt _ _ _ Hd).
  eapply den_back; cbn [sh_heap]; [by rewrite list_lookup_middle|done|by eapply den_prefix; [eexists|]].
Qed.

(** [left op right]: the shape [parsepipe] and [parseline] share. *)
Lemma refines_binary mk T s0 op (x : Z → M shell (nat * Z)) (r : list token → pr tree) c t p ts s :
  op ∈ symbols → sh_mem s = m → at_ m es p ts → ext s0 s → den (sh_heap s) c t →
  (∀ h l r tl tr, den h l tl → den h r tr → den (h ++ [mk l r]) (length h) (T tl tr)) →
  (∀ p', at_ m es p' (tail ts) → refines s (x p') (r (tail ts)) is_tree s) →
  refines s0 ('(b, ps) ← mpeek p es [op];
    if b : bool then
      '(_, _, _, ps) ← mgettoken ps es;
      '(rcmd, ps) ← x ps;
      cmd ← malloc (mk c rcmd);
      mret (cmd, ps)
    else mret (c, ps))
    (if starts [op] ts then pbind (r (tail ts)) (λ t' ts, Got (T t t') ts) else Got t ts) is_tree s.
Proof.
  intros Hop Hm Hat He Hd HT Hx. apply (refines_peek s0 p ts); [done|done|set_solver|]. clear Hat. intros p1 Hat.
  destruct (starts [op] ts) eqn:Es; [|by apply refines_ret].
  eapply refines_skip; [done..|]. clear Hat. intros _ _ _ p2 Hat.
  eapply refines_bind; [by apply (refines_call _ s), Hx|].
  cbn beta. intros c' t' p3 ts3 s3 Hat3 He3 [He4 Hd3]. apply refines_malloc, refines_ret; [done| |].
  - eapply ext_trans; [done|apply ext_malloc].
  - cbn [sh_heap]. apply HT; [|done]. eapply den_prefix; [apply He4|done].
Qed.
Lemma den_PIPE h l r tl tr : den h l tl → den h r tr → den (h ++ [PIPE l r]) (length h) (TPipe tl tr).
Proof.
  intros Hl Hr. pose proof (den_lt _ _ _ Hl). pose proof (den_lt _ _ _ Hr).
  eapply den_pipe; [by rewrite list_lookup_middle|done|done|by eapply den_prefix; [eexists|]..].
Qed.
Lemma den_LIST h l r tl tr : den h l tl → den h r tr → den (h ++ [LIST l r]) (length h) (TList tl tr).
Proof.
  intros Hl Hr. pose proof (den_lt _ _ _ Hl). pose proof (den_lt _ _ _ Hr).
  eapply den_list; [by rewrite list_lookup_middle|done|done|by eapply den_prefix; [eexists|]..].
Qed.

(** A fresh [execcmd]. *)
Lemma building_new s : sh_mem s = m →
  building s (Shell (sh_mem s) (sh_heap s ++ [EXEC (replicate (Z.to_nat MAXARGS) 0) (replicate (Z.to_nat MAXARGS) 0)]))
    [] [] [] (length (sh_heap s)).
Proof.
  intros Hm. constructor; cbn [sh_mem sh_heap]; [done|apply ext_malloc|by rewrite list_lookup_middle|constructor|done|constructor].
Qed.

Definition line_refines (f : nat) : Prop := ∀ p ts s, sh_mem s = m → at_ m es p ts →
  refines s (parseline f p es) (pline f ts) is_tree s.
Definition pipe_refines (f : nat) : Prop := ∀ p ts s, sh_mem s = m → at_ m es p ts →
  refines s (parsepipe f p es) (ppipe f ts) is_tree s.
Definition exec_refines (f : nat) : Prop := ∀ p ts s, sh_mem s = m → at_ m es p ts →
  refines s (parseexec f p es) (pexec f ts) is_tree s.
Definition block_refines (f : nat) : Prop := ∀ p ts s, sh_mem s = m → at_ m es p ts →
  starts [LPAR] ts = true → refines s (parseblock f p es) (pblock f ts) is_tree s.

Lemma parseline_refines f : line_refines f → pipe_refines f → line_refines (S f).
Proof.
  intros Hl Hp p ts s Hm Hat. cbn [parseline pline].
  eapply refines_bind; [by apply Hp|]. cbn beta. intros c t p1 ts1 s1 Hat1 He1 Hd1.
  eapply refines_bind; [by apply (parseback_refines f s c t); [apply (ext_mem s)|..]|].
  cbn beta. intros c2 t2 p2 ts2 s2 Hat2 He2 Hd2. pose proof (ext_mem _ _ He2 Hm) as Hm2.
  apply (refines_binary LIST TList s SEMI (λ p, parseline f p es)); try done; [set_solver|apply den_LIST|].
  intros p3 Hat3. by apply Hl.
Qed.
Lemma parsepipe_refines f : pipe_refines f → exec_refines f → pipe_refines (S f).
Proof.
  intros Hp Hx p ts s Hm Hat. cbn [parsepipe ppipe].
  eapply refines_bind; [by apply Hx|]. cbn beta. intros c2 t2 p2 ts2 s2 Hat2 He2 Hd2. pose proof (ext_mem _ _ He2 Hm) as Hm2.
  apply (refines_binary PIPE TPipe s BAR (λ p, parsepipe f p es)); try done; [set_solver|apply den_PIPE|].
  intros p3 Hat3. by apply Hp.
Qed.
Lemma parseexec_refines f : block_refines f → exec_refines (S f).
Proof.
  intros Hb p ts s Hm Hat. cbn [parseexec pexec].
  apply (refines_peek s p ts); [done|done|apply toks_ok|]. clear Hat. intros p1 Hat.
  destruct (starts [LPAR] ts) eqn:Es; [by apply Hb|].
  apply refines_malloc. pose proof (building_new s Hm) as HB. set (s1 := Shell _ _) in *.
  eapply refines_bind.
  { apply (parseredirs_refines f s (length (sh_heap s)) [] _ p1 ts s1); try done; try apply HB. eapply lookup_lt_Some, HB. }
  cbn beta. intros c2 rs2 p2 ts2 s2 Hat2 He2 [He3 Hc]. pose proof (building_redirs _ _ _ _ _ _ _ _ _ HB He3 Hc) as HB2.
  eapply refines_bind; [by apply (parseargs_refines f s [] [] rs2 c2 p2 ts2 s2)|].
  cbn beta. intros [c3 argc] [ws rs3] p3 ts3 s3 Hat3 He4 [-> [L HB3]].
  eapply refines_Ok; [done|]. rewrite (set_arg_end _ _ _ _ _ _ HB3). apply refines_ret; [done|done|].
  by eapply building_den.
Qed.
Lemma parseblock_refines f : line_refines f → block_refines (S f).
Proof.
  intros Hl p ts s Hm Hat Hs. cbn [parseblock pblock].
  apply (refines_peek s p ts); [done|done|apply toks_ok|]. clear Hat. intros p1 Hat. rewrite Hs. cbn [negb].
  eapply refines_skip; [done..|]. clear Hat. intros _ _ _ p2 Hat.
  eapply refines_bind; [by apply Hl|]. cbn beta. intros c t p3 ts3 s3 Hat3 He Hd. pose proof (ext_mem _ _ He Hm) as Hm3.
  apply (refines_peek s p3 ts3); [done|done|apply toks_ok|]. clear Hat3. intros p4 Hat4.
  destruct (starts [RPAR] ts3) eqn:Es; cbn [negb]; [|by eexists].
  eapply refines_skip; [done..|]. clear Hat4. intros _ _ _ p5 Hat5.
  eapply refines_map; [by apply (parseredirs_refines f s c [] c); [..|constructor|eapply den_lt]|].
  cbn beta. intros c' rs s' [He' Hc]. eapply chain_den; [done|]. eapply den_prefix; [apply He'|done].
Qed.
Lemma parse_refines f : line_refines f ∧ pipe_refines f ∧ exec_refines f ∧ block_refines f.
Proof.
  induction f as [|f (IH1 & IH2 & IH3 & IH4)]; [done|].
  split_and!; auto using parseline_refines, parsepipe_refines, parseexec_refines, parseblock_refines.
Qed.
End refine.
