(* ===== verification/ShProps.v ===== *)
(** * The shell parses its grammar

    The token parser of [ShSpec] returns a tree exactly when the tokens are in
    the grammar, and [nulterminate] makes the words of the tree strings.
    Together with the refinement of [ShSpec] this gives [parsecmd_spec]. *)

From stdpp Require Import options.
From S2P Require Import Prelude CString Ulib Sh ShSpec.
#[local] Open Scope Z_scope.

(** ** Soundness and termination of the token parser *)

(** [r] consumed tokens that satisfy [G], and fuel was left. *)
Definition sound {A} (r : pr A) (ts : list token) (G : A → list token → Prop) : Prop :=
  match r with
  | Got x rest => ∃ a, ts = a ++ rest ∧ G x a
  | Bad => True
  | Out => False
  end.
Lemma sound_bind {A B} (r : pr A) ts (k : A → list token → pr B) (G : A → list token → Prop) (G' : B → list token → Prop) :
  sound r ts G →
  (∀ x a rest, ts = a ++ rest → G x a → sound (k x rest) rest (λ y b, G' y (a ++ b))) →
  sound (pbind r k) ts G'.
Proof.
  intros Hr Hk. destruct r as [x rest| |]; simpl in *; [|done|done]. destruct Hr as (a & -> & HG).
  specialize (Hk x a rest eq_refl HG). destruct (k x rest) as [y rest'| |]; simpl in *; [|done|done].
  destruct Hk as (b & -> & HG'). exists (a ++ b). by rewrite <- app_assoc.
Qed.
Lemma sound_ret {A} (x : A) ts (G : A → list token → Prop) : G x [] → sound (Got x ts) ts G.
Proof. by exists []. Qed.
Lemma starts_one c ts : c ≠ GT → starts [c] ts = true → ∃ ts', ts = Sym c :: ts'.
Proof.
  intros Hc. destruct ts as [|[d| |w] ts]; simpl; try done.
  - intros ->%bool_decide_eq_true%list_elem_of_singleton. by eexists.
  - intros <-%bool_decide_eq_true%list_elem_of_singleton. done.
Qed.
(** A token was taken from the front. *)
Lemma sound_cons {A} (r : pr A) t ts (G : A → list token → Prop) :
  sound r ts (λ x a, G x (t :: a)) → sound r (t :: ts) G.
Proof. destruct r; [|done|done]. intros (b & -> & HG). by exists (t :: b). Qed.

Lemma redir_of_ok op : op = Sym LT ∨ op = Sym GT ∨ op = App → redir op (redir_of op).1 (redir_of op).2.
Proof. intros [->|[->| ->]]; constructor. Qed.

Lemma predirs_sound fuel : ∀ rs ts, (length ts < fuel)%nat →
  sound (predirs fuel rs ts) ts (λ rs' a, ∃ rs1, rs' = rs ++ rs1 ∧ redirs a rs1).
Proof.
  induction fuel as [|fuel IH]; intros rs ts Hf; [lia|]. cbn [predirs].
  destruct (starts [LT; GT] ts) eqn:Es; [|apply sound_ret; exists []; split; [by rewrite app_nil_r|constructor]].
  apply starts_redir in Es as (op & ts' & -> & Hop). destruct ts' as [|[| |w] ts']; try done.
  do 2 apply sound_cons. simpl in Hf. specialize (IH (rs ++ [(w, (redir_of op).1, (redir_of op).2)]) ts' ltac:(lia)).
  destruct (predirs _ _ _) as [x rest| |]; [|done|done]. destruct IH as (a & -> & rs1 & -> & Hr). exists a. split; [done|].
  eexists. rewrite <- app_assoc. split; [done|]. constructor; [by apply redir_of_ok|done].
Qed.
Lemma items_redirs a rs b ws rs' : redirs a rs → items b ws rs' → items (a ++ b) ws (rs ++ rs').
Proof. induction 1; intros Hi; [done|]. simpl. by apply items_redir; [|auto]. Qed.

Lemma pargs_sound fuel : ∀ ws rs ts, (length ts < fuel)%nat → Z.of_nat (length ws) < MAXARGS →
  sound (pargs fuel ws rs ts) ts (λ '(ws', rs') a, ∃ ws1 rs1, ws' = ws ++ ws1 ∧ rs' = rs ++ rs1 ∧ items a ws1 rs1 ∧
    Z.of_nat (length ws') < MAXARGS).
Proof.
  induction fuel as [|fuel IH]; intros ws rs ts Hf Hl; [lia|]. cbn [pargs].
  assert (∃ ws1 rs1, ws = ws ++ ws1 ∧ rs = rs ++ rs1 ∧ items [] ws1 rs1 ∧ Z.of_nat (length ws) < MAXARGS) as Hnil.
  { exists [], []. rewrite !app_nil_r. split_and!; [done|done|constructor|done]. }
  destruct (starts _ ts); [by apply sound_ret|]. destruct ts as [|[| |w] ts]; try done; [by apply sound_ret|].
  rewrite Z.geb_leb. destruct (Z.leb_spec MAXARGS (Z.of_nat (length ws) + 1)) as [|Hlt]; [done|].
  simpl in Hf. apply sound_cons. eapply sound_bind; [apply predirs_sound; lia|].
  cbn beta. intros rs' a rest -> (rs1 & -> & Hr). rewrite length_app in Hf.
  assert (Z.of_nat (length (ws ++ [w])) < MAXARGS) as Hl' by (rewrite length_app; simpl; lia).
  specialize (IH (ws ++ [w]) (rs ++ rs1) rest ltac:(lia) Hl').
  destruct (pargs _ _ _ _) as [[ws' rs'] rest'| |]; [|done|done].
  destruct IH as (b & -> & ws2 & rs2 & -> & -> & Hi & Hl2). exists b. split; [done|].
  exists (w :: ws2), (rs1 ++ rs2). rewrite <- !app_assoc in *. split_and!; [done|done| |done].
  apply items_word. by apply items_redirs.
Qed.
Lemma pback_sound fuel : ∀ t a0 ts, (length ts < fuel)%nat → back t a0 →
  sound (pback fuel t ts) ts (λ t' a, back t' (a0 ++ a)).
Proof.
  induction fuel as [|fuel IH]; intros t a0 ts Hf Hb; [lia|]. cbn [pback].
  destruct (starts [AMP] ts) eqn:Es; [|apply sound_ret; by rewrite app_nil_r].
  apply starts_one in Es as [ts' ->]; [|done]. simpl in Hf. cbn [tail]. apply sound_cons.
  specialize (IH (TBack t) (a0 ++ [Sym AMP]) ts' ltac:(lia) (back_amp _ _ Hb)).
  destruct (pback _ _ _) as [x rest| |]; [|done|done]. destruct IH as (b & -> & Hb'). exists b. split; [done|].
  by rewrite <- app_assoc in Hb'.
Qed.

Lemma parse_sound fuel :
  (∀ ts, (4 * length ts + 4 ≤ fuel)%nat → sound (pline fuel ts) ts line) ∧
  (∀ ts, (4 * length ts + 3 ≤ fuel)%nat → sound (ppipe fuel ts) ts pipe) ∧
  (∀ ts, (4 * length ts + 2 ≤ fuel)%nat → sound (pexec fuel ts) ts exec) ∧
  (∀ ts, (4 * length ts + 1 ≤ fuel)%nat → starts [LPAR] ts = true → sound (pblock fuel ts) ts exec).
Proof.
  induction fuel as [|fuel (IHl & IHp & IHx & IHb)]; [split_and!; intros; lia|]. split_and!; intros ts Hf.
  - cbn [pline]. eapply sound_bind; [apply IHp; lia|]. cbn beta. intros t a rest -> Hp. rewrite length_app in Hf.
    eapply sound_bind; [apply (pback_sound fuel t a rest); [lia|by constructor]|].
    cbn beta. intros t' b rest' -> Hb. rewrite length_app in Hf.
    destruct (starts [SEMI] rest') eqn:Es; [|apply sound_ret; rewrite app_nil_r; by constructor].
    apply starts_one in Es as [ts' ->]; [|done]. cbn [tail length] in *. apply sound_cons.
    eapply sound_bind; [apply IHl; lia|]. cbn beta. intros t2 c rest2 -> Hl. apply sound_ret.
    rewrite app_nil_r, app_assoc. by constructor.
  - cbn [ppipe]. eapply sound_bind; [apply IHx; lia|]. cbn beta. intros t a rest -> Hx. rewrite length_app in Hf.
    destruct (starts [BAR] rest) eqn:Es; [|apply sound_ret; rewrite app_nil_r; by constructor].
    apply starts_one in Es as [ts' ->]; [|done]. cbn [tail length] in *. apply sound_cons.
    eapply sound_bind; [apply IHp; lia|]. cbn beta. intros t2 c rest2 -> Hl. apply sound_ret.
    rewrite app_nil_r. by constructor.
  - cbn [pexec]. destruct (starts [LPAR] ts) eqn:Es; [apply IHb; [lia|done]|].
    eapply sound_bind; [apply predirs_sound; lia|]. cbn beta. intros rs a rest -> (rs1 & -> & Hr). rewrite length_app in Hf.
    eapply sound_bind; [apply pargs_sound; [lia|done]|]. cbn beta. intros [ws rs'] b rest' -> (ws1 & rs2 & -> & -> & Hi & Hl).
    apply sound_ret. rewrite app_nil_r. simpl. constructor; [by apply items_redirs|done].
  - intros Es. cbn [pblock]. apply starts_one in Es as [ts' ->]; [|done]. cbn [tail length] in *. apply sound_cons.
    eapply sound_bind; [apply IHl; lia|]. cbn beta. intros t a rest -> Hl. rewrite length_app in Hf.
    destruct (starts [RPAR] rest) eqn:Es; [|done]. apply starts_one in Es as [ts' ->]; [|done]. cbn [tail length] in *.
    apply sound_cons. eapply sound_bind; [apply predirs_sound; lia|]. cbn beta. intros rs b rest -> (rs1 & -> & Hr).
    apply sound_ret. rewrite app_nil_r. by apply exec_block.
Qed.

(** ** Completeness *)

(** What may follow a command: the end, or one of [toks]. *)
Definition follows (toks : list Z) (rest : list token) : Prop :=
  match rest with [] => True | Sym c :: _ => c ∈ toks | _ => False end.
Lemma follows_starts toks toks' rest :
  follows toks rest → (∀ c, c ∈ toks → c ∉ toks') → starts toks' rest = false.
Proof. destruct rest as [|[c| |w] rest]; simpl; try done. intros H1 H2. apply bool_decide_eq_false. by apply H2. Qed.
Lemma follows_weaken toks toks' rest : follows toks rest → toks ⊆ toks' → follows toks' rest.
Proof. destruct rest as [|[c| |w] rest]; simpl; set_solver. Qed.
(** Decide membership in the lists of symbols. *)
Ltac toks := unfold BAR, RPAR, AMP, SEMI, LPAR, LT, GT in *; set_unfold; intros; lia.
Abbreviation AFTER_EXEC := [BAR; RPAR; AMP; SEMI].
Abbreviation AFTER_PIPE := [RPAR; AMP; SEMI].

Lemma redir_of_redir op mode fd : redir op mode fd → redir_of op = (mode, fd) ∧ ∀ ts, starts [LT; GT] (op :: ts) = true.
Proof. by destruct 1. Qed.
Lemma predirs_complete a rs : redirs a rs → ∀ fuel rs0 rest, (length (a ++ rest) < fuel)%nat → starts [LT; GT] rest = false →
  predirs fuel rs0 (a ++ rest) = Got (rs0 ++ rs) rest.
Proof.
  induction 1 as [|op f mode fd ts rs Hr _ IH]; intros [|fuel] rs0 rest Hf Hs; try lia; cbn [app predirs].
  - by rewrite Hs, app_nil_r.
  - destruct (redir_of_redir _ _ _ Hr) as [E ->]. rewrite E. cbn [fst snd].
    rewrite IH by (simpl in Hf; done || lia). by rewrite <- app_assoc.
Qed.
(** The first redirections and the loop over the arguments. *)
Lemma pitems_complete a ws rs : items a ws rs → ∀ f1 f2 ws0 rs0 rest,
  (length (a ++ rest) < f1)%nat → (length (a ++ rest) < f2)%nat → follows AFTER_EXEC rest →
  Z.of_nat (length (ws0 ++ ws)) < MAXARGS →
  pbind (predirs f1 rs0 (a ++ rest)) (λ rs ts, pargs f2 ws0 rs ts) = Got (ws0 ++ ws, rs0 ++ rs) rest.
Proof.
  induction 1 as [|w ts ws rs _ IH|op f mode fd ts ws rs Hr _ IH]; intros [|f1] [|f2] ws0 rs0 rest Hf1 Hf2 Hs Hl;
    try lia; cbn [app predirs].
  - rewrite (follows_starts _ [LT; GT] rest Hs) by toks. cbn [pbind pargs]. rewrite !app_nil_r.
    destruct rest as [|[c| |w] rest]; [done| |done|done]. cbn [starts]. unfold is_in. by rewrite bool_decide_true.
  - cbn [starts pbind pargs]. rewrite length_app in Hl. cbn [length] in Hl.
    rewrite Z.geb_leb, (proj2 (Z.leb_gt MAXARGS (Z.of_nat (length ws0) + 1))) by lia.
    simpl in Hf1, Hf2. rewrite IH; [by rewrite <- app_assoc|lia|lia|done|]. rewrite !length_app. simpl. lia.
  - destruct (redir_of_redir _ _ _ Hr) as [E ->]. rewrite E. cbn [fst snd]. simpl in Hf1, Hf2.
    rewrite (IH f1 (S f2)) by (done || lia). by rewrite <- app_assoc.
Qed.
(** A background command is a pipeline and its ampersands. *)
Lemma back_inv t a : back t a → ∃ t0 a0 k, pipe t0 a0 ∧ a = a0 ++ replicate k (Sym AMP) ∧ t = Nat.iter k TBack t0.
Proof.
  induction 1 as [t a Hp|t a Hb (t0 & a0 & k & Hp & -> & ->)].
  - exists t, a, 0%nat. split_and!; [done|by rewrite app_nil_r|done].
  - exists t0, a0, (S k). split_and!; [done| |done]. by rewrite <- app_assoc, <- replicate_cons_app.
Qed.
Lemma pback_complete k : ∀ fuel t rest, (length (replicate k (Sym AMP) ++ rest) < fuel)%nat → starts [AMP] rest = false →
  pback fuel t (replicate k (Sym AMP) ++ rest) = Got (Nat.iter k TBack t) rest.
Proof.
  induction k as [|k IH]; intros [|fuel] t rest Hf Hs; try lia; cbn [pback].
  - cbn [replicate app Nat.iter nat_rect]. by rewrite Hs.
  - change (starts [AMP] (replicate (S k) (Sym AMP) ++ rest)) with true. cbv iota.
    cbn [replicate app tail length] in *. rewrite IH by (done || lia).
    f_equal. clear. induction k; [done|]. simpl. by f_equal.
Qed.
Lemma items_no_block a ws rs rest : items a ws rs → follows AFTER_EXEC rest → starts [LPAR] (a ++ rest) = false.
Proof.
  intros Hi Hf. destruct Hi as [|w ts ws rs Hi|op f mode fd ts ws rs Hr Hi]; [|done|by destruct Hr].
  apply (follows_starts AFTER_EXEC); [done|]. toks.
Qed.

Lemma parse_complete fuel :
  (∀ t a rest, line t a → follows [RPAR] rest → (4 * length (a ++ rest) + 4 ≤ fuel)%nat → pline fuel (a ++ rest) = Got t rest) ∧
  (∀ t a rest, pipe t a → follows AFTER_PIPE rest → (4 * length (a ++ rest) + 3 ≤ fuel)%nat → ppipe fuel (a ++ rest) = Got t rest) ∧
  (∀ t a rest, exec t a → follows AFTER_EXEC rest → (4 * length (a ++ rest) + 2 ≤ fuel)%nat → pexec fuel (a ++ rest) = Got t rest) ∧
  (∀ t a b rs rest, line t a → redirs b rs → follows AFTER_EXEC rest →
    (4 * length (Sym LPAR :: a ++ Sym RPAR :: b ++ rest) + 1 ≤ fuel)%nat →
    pblock fuel (Sym LPAR :: a ++ Sym RPAR :: b ++ rest) = Got (wrap rs t) rest).
Proof.
  induction fuel as [|fuel (IHl & IHp & IHx & IHb)]; [split_and!; intros; lia|]. split_and!.
  - intros t a rest Hl Hr Hf. cbn [pline]. destruct Hl as [t a Hb|t a t' b Hb Hl];
      apply back_inv in Hb as (t0 & a0 & k & Hp & -> & ->); rewrite <- !app_assoc in *.
    + rewrite (IHp t0); [|done| |lia].
      2: { destruct k; [by apply (follows_weaken [RPAR]); [|toks]|simpl; toks]. }
      cbn [pbind]. rewrite length_app in Hf. rewrite pback_complete; [|lia|by apply (follows_starts [RPAR]); [|toks]].
      cbn [pbind]. by rewrite (follows_starts [RPAR] [SEMI] rest) by (done || toks).
    + rewrite (IHp t0); [|done| |lia]. 2: { destruct k; simpl; toks. }
      cbn [pbind]. rewrite length_app in Hf. rewrite pback_complete by (done || lia). cbn [pbind].
      change (starts [SEMI] ((Sym SEMI :: b) ++ rest)) with true. cbn [app tail] in *.
      rewrite length_app in Hf. cbn [length] in Hf. rewrite (IHl t') by (done || lia). done.
  - intros t a rest Hp Hr Hf. cbn [ppipe]. destruct Hp as [t a Hx|t a t' b Hx Hp]; rewrite <- ?app_assoc in *.
    + rewrite (IHx t); [|done|by apply (follows_weaken AFTER_PIPE); [|toks]|lia]. cbn [pbind].
      by rewrite (follows_starts AFTER_PIPE [BAR] rest) by (done || toks).
    + rewrite (IHx t); [|done|simpl; toks|lia]. cbn [pbind].
      change (starts [BAR] ((Sym BAR :: b) ++ rest)) with true. cbn [app tail] in *.
      rewrite length_app in Hf. cbn [length] in Hf. rewrite (IHp t') by (done || lia). done.
  - intros t a rest Hx Hr Hf. cbn [pexec]. destruct Hx as [ws rs a Hi Hl|t a b rs Hl Hrs].
    + rewrite (items_no_block a ws rs rest Hi Hr).
      pose proof (pitems_complete a ws rs Hi fuel fuel [] [] rest ltac:(lia) ltac:(lia) Hr Hl) as E.
      destruct (predirs fuel [] (a ++ rest)) as [rs1 ts1| |]; cbn [pbind] in *; [by rewrite E|done|done].
    + change (starts [LPAR] _) with true. cbv iota. cbn [app] in *. rewrite <- app_assoc in *.
      apply IHb; [done|done|done|simpl in *; lia].
  - intros t a b rs rest Hl Hrs Hr Hf. cbn [pblock tail]. cbn [length] in Hf.
    rewrite (IHl t a) by (done || lia || (simpl; toks)). cbn [pbind]. change (starts [RPAR] (Sym RPAR :: _)) with true.
    cbv iota. cbn [tail]. rewrite length_app in Hf. cbn [length] in Hf.
    rewrite (predirs_complete b rs) by (done || lia || (apply (follows_starts AFTER_EXEC); [done|toks])). done.
Qed.

(** ** The words of the command *)

Lemma args_at_mono (W W' : Z → Z → list Z → Prop) argv eargv ws :
  (∀ q e w, W q e w → W' q e w) → args_at W argv eargv ws → args_at W' argv eargv ws.
Proof. intros HW. induction 1; constructor; auto. Qed.
Lemma denotes_mono (W W' : Z → Z → list Z → Prop) h c t :
  (∀ q e w, W q e w → W' q e w) → denotes W h c t → denotes W' h c t.
Proof. intros HW. induction 1; econstructor; eauto using args_at_mono. Qed.

Section nul.
Context (m : mem).
(** Only bytes outside the words were overwritten. *)
Definition nulled (m' : mem) : Prop := ∀ a, rd m' a = rd m a ∨ rd m' a = 0 ∧ ¬ wordc (rd m a).
Definition zeros (m1 m2 : mem) : Prop := ∀ a, rd m1 a = 0 → rd m2 a = 0.
Definition cut (m' : mem) (q eq : Z) (w : list Z) : Prop := word m q eq w ∧ rd m' eq = 0.

Lemma nulled_wr m' q eq w : word m q eq w → nulled m' → nulled (wr eq 0 m').
Proof.
  intros (_ & _ & _ & Hw) Hn a. rewrite rd_wr. case_decide; [subst; by right|apply Hn].
Qed.
Lemma zeros_wr m' eq : zeros m' (wr eq 0 m').
Proof. intros a Ha. rewrite rd_wr. by case_decide. Qed.
Lemma cut_zeros m1 m2 q eq w : zeros m1 m2 → cut m1 q eq w → cut m2 q eq w.
Proof. intros Hz [H1 H2]. split; [done|by apply Hz]. Qed.
Lemma cut_string m' q eq w : nulled m' → cut m' q eq w → str_at m' q w.
Proof.
  intros Hn [(Hw & Hb & -> & _) He]. apply str_at_bytes. split_and!; [|eapply Forall_impl; [done|by intros ? [? _]]|done].
  etransitivity; [|exact Hb]. apply list_eq. intros i. destruct (decide (i < length w)%nat) as [Hi|Hi].
  - rewrite !lookup_rd_bytes by done. f_equal. destruct (Hn (q + Z.of_nat i)) as [H|[_ H]]; [done|].
    destruct H. apply (Forall_lookup_1 _ w i _ Hw). rewrite <- Hb. by rewrite lookup_rd_bytes.
  - rewrite !lookup_ge_None_2; [done|rewrite length_rd_bytes; lia..].
Qed.

Lemma nul_args_ok argv eargv ws : args_at (word m) argv eargv ws → ∀ m1, nulled m1 →
  let m2 := nul_args argv eargv m1 in nulled m2 ∧ zeros m1 m2 ∧ args_at (cut m2) argv eargv ws.
Proof.
  induction 1 as [argv eargv|q eq argv eargv w ws Hq Hw Ha IH]; intros m1 Hn; cbn zeta.
  - destruct eargv; (split; [done|]; split; [by intros ?|constructor]).
  - cbn [nul_args]. rewrite (proj2 (Z.eqb_neq q 0) Hq).
    destruct (IH (wr eq 0 m1) (nulled_wr _ _ _ _ Hw Hn)) as (H1 & H2 & H3). split_and!; [done| |].
    + intros a Ha0. by apply H2, zeros_wr.
    + constructor; [done| |done]. split; [done|]. apply H2. by rewrite rd_wr_eq.
Qed.

(** Two subcommands, one after the other. *)
Definition cuts_tree (s : shell) (c : nat) (t : tree) (s' : shell) : Prop :=
  sh_heap s' = sh_heap s ∧ nulled (sh_mem s') ∧ zeros (sh_mem s) (sh_mem s') ∧
  denotes (cut (sh_mem s')) (sh_heap s') c t.
Lemma cuts_both s s1 s2 l r tl tr : cuts_tree s l tl s1 → cuts_tree s1 r tr s2 →
  sh_heap s2 = sh_heap s ∧ nulled (sh_mem s2) ∧ zeros (sh_mem s) (sh_mem s2) ∧
  denotes (cut (sh_mem s2)) (sh_heap s2) l tl ∧ denotes (cut (sh_mem s2)) (sh_heap s2) r tr.
Proof.
  intros (A1 & A2 & A3 & A4) (B1 & B2 & B3 & B4). split_and!; [congruence|done|by intros a H; apply B3, A3| |done].
  rewrite B1. eapply denotes_mono; [|done]. intros q e w. by apply cut_zeros.
Qed.
Lemma nulterminate_ok fuel : ∀ c t s, denotes (word m) (sh_heap s) c t → (c < fuel)%nat → nulled (sh_mem s) →
  wp (nulterminate fuel c) (λ _ s', cuts_tree s c t s') s.
Proof.
  induction fuel as [|fuel IH]; intros c t s Hd Hc Hn; [lia|]. cbn [nulterminate]. apply wp_bind, wp_gets.
  destruct Hd as [c argv eargv ws Hh Ha|c c' f ef w mode fd t Hh Hlt Hw Hd|c l r tl tr Hh H1 H2 Hl Hr
    |c l r tl tr Hh H1 H2 Hl Hr|c c' t Hh Hlt Hd]; rewrite Hh.
  - apply wp_modify. destruct (nul_args_ok _ _ _ Ha _ Hn) as (A1 & A2 & A3). split_and!; [done|done|done|].
    by eapply den_exec.
  - apply wp_bind. eapply wp_mono; [apply (IH c' t); [done|lia|done]|]. intros _ s1 (A1 & A2 & A3 & A4).
    apply wp_modify. split_and!; cbn [sh_heap sh_mem set_sh_mem]; [done|by eapply nulled_wr| |].
    + intros a H. by apply zeros_wr, A3.
    + eapply den_redir; [by rewrite A1|done| |].
      * split; [done|by rewrite rd_wr_eq].
      * eapply denotes_mono; [|done]. intros q e x. apply cut_zeros, zeros_wr.
  - apply wp_bind. eapply wp_mono; [apply (IH l tl); [done|lia|done]|]. intros [] s1 C1. pose proof (proj1 C1) as A1. pose proof (proj1 (proj2 C1)) as A2.
    eapply wp_mono; [apply (IH r tr); [by rewrite A1|lia|done]|]. intros [] s2 C2.
    destruct (cuts_both _ _ _ _ _ _ _ C1 C2) as (D1 & D2 & D3 & D4 & D5). split_and!; [done..|].
    eapply den_pipe; [by rewrite D1|done..].
  - apply wp_bind. eapply wp_mono; [apply (IH l tl); [done|lia|done]|]. intros [] s1 C1. pose proof (proj1 C1) as A1. pose proof (proj1 (proj2 C1)) as A2.
    eapply wp_mono; [apply (IH r tr); [by rewrite A1|lia|done]|]. intros [] s2 C2.
    destruct (cuts_both _ _ _ _ _ _ _ C1 C2) as (D1 & D2 & D3 & D4 & D5). split_and!; [done..|].
    eapply den_list; [by rewrite D1|done..].
  - eapply wp_mono; [apply (IH c' t); [done|lia|done]|]. intros [] s1 (A1 & A2 & A3 & A4). split_and!; [done..|].
    eapply den_back; [by rewrite A1|done..].
Qed.
End nul.

(** ** parsecmd *)

Lemma lexes_length l ts : lexes l ts → (length ts ≤ length l)%nat.
Proof. induction 1; simpl in *; rewrite ?length_app; lia. Qed.

(** The line, parsed: the one tree that the grammar gives its tokens, in the heap
    with its words as NUL-terminated strings. *)
Definition parsed (ts : list token) (c : nat) (s' : shell) : Prop :=
  ∃ t, line t ts ∧ (∀ t', line t' ts → t' = t) ∧ denotes (λ q _ w, str_at (sh_mem s') q w) (sh_heap s') c t.

(** Every line has tokens. *)
Lemma word_prefix l : ∃ w l', l = w ++ l' ∧ Forall wordc w ∧ (∀ d, head l' = Some d → ¬ wordc d).
Proof.
  induction l as [|c l (w & l' & -> & Hw & Hd)]; [by exists [], []|].
  destruct (decide (wordc c)); [exists (c :: w), l'; split_and!; [done|by constructor|done]|].
  exists [], (c :: w ++ l'). split_and!; [done|constructor|]. by intros d [= <-].
Qed.
Lemma lexes_total n : ∀ l, (length l ≤ n)%nat → Forall (λ b, b ≠ 0) l → ∃ ts, lexes l ts.
Proof.
  induction n as [|n IH]; intros [|c l] Hl Hz; try (by exists []; constructor); [simpl in *; lia|].
  apply Forall_cons_1 in Hz as [Hc Hz]. simpl in Hl. destruct (IH l ltac:(lia) Hz) as [ts Hts].
  destruct (decide (c ∈ whitespace)); [exists ts; by apply lex_ws|].
  destruct (decide (c ∈ symbols)) as [Hs|Hs].
  - destruct (decide (c = GT)) as [->|]; [|exists (Sym c :: ts); by apply lex_sym].
    destruct (decide (head l = Some GT)) as [Hh|]; [|exists (Sym GT :: ts); by apply lex_gt].
    destruct l as [|d l]; [done|]. injection Hh as ->. apply Forall_cons_1 in Hz as [_ Hz]. simpl in Hl.
    destruct (IH l ltac:(lia) Hz) as [ts' Hts']. exists (App :: ts'). by apply lex_app.
  - destruct (word_prefix l) as (w & l' & -> & Hw & Hd). apply Forall_app in Hz as [_ Hz]. rewrite length_app in Hl.
    destruct (IH l' ltac:(lia) Hz) as [ts' Hts']. exists (Word (c :: w) :: ts'). by apply lex_word.
Qed.

Lemma parsecmd_ok m h s l ts :
  0 < s → str_at m s l → lexes l ts →
  match parsecmd s (Shell m h) with
  | Ok c s' => parsed ts c s'
  | Panic _ => ∀ t, ¬ line t ts
  | _ => False
  end.
Proof.
  intros Hs Hl Hlex. unfold parsecmd. rewrite !bind_gets. cbn [sh_mem]. unfold parse_fuel.
  rewrite (strlen_str m s l Hl), Nat2Z.id. set (fuel := (4 * length l + 8)%nat). set (es := s + Z.of_nat (length l)).
  assert (at_ m es s ts) as Hat by (split; [done|]; by exists l).
  pose proof (lexes_length _ _ Hlex) as Hlen.
  pose proof (proj1 (parse_refines m es fuel) s ts (Shell m h) eq_refl Hat) as HR.
  pose proof (proj1 (parse_sound fuel) ts ltac:(lia)) as HS.
  pose proof (λ t Ht, proj1 (parse_complete fuel) t ts [] Ht I) as HC. rewrite app_nil_r in HC.
  destruct (pline fuel ts) as [t rest| |] eqn:EP; [| |done].
  2: { destruct HR as [msg HR]. erewrite bind_Panic by done. intros t Ht. specialize (HC t Ht ltac:(lia)). congruence. }
  apply wp_inv in HR as ([c p] & s1 & E & Hat1 & [Hm1 Hh1] & Hd). erewrite bind_Ok by done.
  cbn [sh_mem sh_heap] in Hm1, Hh1. unfold mpeek. rewrite bind_gets, Hm1.
  destruct (peek_ok m es p rest [] Hat1 ltac:(set_solver)) as (p' & -> & _ & Hp).
  destruct (Z.eqb_spec p' es) as [->|Hne]; cbn [negb].
  2: { intros t' Ht. specialize (HC t' Ht ltac:(lia)). injection HC as -> ->. by apply Hne, Hp. }
  rewrite (proj1 Hp eq_refl) in HS. destruct HS as (a & -> & Hline). rewrite app_nil_r.
  rewrite bind_gets. destruct (wp_inv _ _ _ (nulterminate_ok m (length (sh_heap s1)) c t s1 Hd
    ltac:(by eapply den_lt) ltac:(rewrite Hm1; by left))) as ([] & s2 & E2 & A1 & A2 & A3 & A4).
  erewrite bind_Ok by done. exists t. rewrite app_nil_r in HC. rewrite (proj1 Hp eq_refl) in HC.
  split; [done|]. split; [intros t' Ht'; specialize (HC t' Ht' ltac:(rewrite app_nil_r in Hlen; lia)); congruence|].
  eapply denotes_mono; [|exact A4].
  intros q e w. by apply cut_string.
Qed.

(** C5. The shell parses exactly its grammar: every command line has tokens,
    and [parsecmd] terminates on it; it returns when the tokens are in the grammar,
    with a syntax tree of the line in the heap whose words are NUL-terminated
    strings, and it panics when they are not. *)
Theorem parsecmd_spec m h s l :
  0 < s → str_at m s l →
  (∃ ts, lexes l ts) ∧
  ∀ ts, lexes l ts →
    match parsecmd s (Shell m h) with
    | Ok c s' => parsed ts c s'
    | Panic _ => ∀ t, ¬ line t ts
    | _ => False
    end.
Proof.
  intros Hs Hl. split; [|intros ts; by apply parsecmd_ok].
  apply (lexes_total (length l)); [done|]. apply (proj1 (str_at_bytes _ _ _) Hl).
Qed.

(** "ls a>f;(b|c)&\n" at address 4096. *)
Definition sh_line : list Z := [108; 115; 32; 97; 62; 102; 59; 40; 98; 124; 99; 41; 38; 10].
Definition sh_start : mem := wr_bytes ∅ 4096 sh_line.
Lemma parsecmd_spec_witness :
  (∃ c s', parsecmd 4096 (Shell sh_start []) = Ok c s') ∧ ∃ ts, lexes sh_line ts ∧ ∃ t, line t ts.
Proof.
  destruct (parsecmd_spec sh_start [] 4096 sh_line) as [[ts Hts] H].
  - lia.
  - vm_compute. repeat split; discriminate.
  - specialize (H ts Hts). destruct (parsecmd 4096 (Shell sh_start [])) as [c s'|msg|s' k|] eqn:E.
    + split; [by exists c, s'|]. destruct H as (t & Ht & _). exists ts. split; [exact Hts|]. by exists t.
    + exfalso. vm_compute in E. discriminate E.
    + destruct H.
    + destruct H.
Defined.
