(* ===== verification/ShRun.v ===== *)
(** * Running commands

    [runcmd] of [user/sh.c] as a program of system calls, and what it does to
    the descriptors: every command of the tree is executed with the files and
    pipes the tree asks for on descriptors 0, 1 and 2, and no other open. *)

From stdpp Require Import options.
From S2P Require Import Prelude CString Ulib Sh ShSpec ShProps.
#[local] Open Scope Z_scope.

(** ** The program *)

(** A process as the calls it makes; [exec] and [exit] do not return, the
    continuation of [exec] is the failure. *)
Inductive prog :=
| Exit (status : Z)
| Exec (argv : list (list Z)) (failed : prog)
| Close (fd : Z) (k : prog)
| Open (file : list Z) (mode : Z) (k : Z → prog)
| Dup (fd : Z) (k : prog)
| Pipe (k : Z → Z → Z → prog)
| Fork (k : Z → prog)
| Wait (k : prog)
| Fprintf (fd : Z) (fmt : string) (args : list (list Z)) (k : prog).

Definition sh_panic (s : string) : prog := Fprintf 2 s [] (Exit 1).
Definition fork1 (k : Z → prog) : prog :=
  Fork (λ pid, if pid =? -1 then sh_panic "fork" else k pid).

(** The string at an address, and the strings of [argv] up to its null pointer. *)
Definition cstr (m : mem) (p : Z) : list Z := rd_bytes m p (Z.to_nat (strlen m p)).
Fixpoint strings (m : mem) (argv : list Z) : list (list Z) :=
  match argv with
  | [] => []
  | q :: argv => if q =? 0 then [] else cstr m q :: strings m argv
  end.

Fixpoint runcmd (fuel : nat) (m : mem) (h : list node) (cmd : nat) : prog :=
  match fuel with
  | O => Exit 1
  | S fuel =>
    match h !! cmd with
    | None => Exit 1
    | Some (EXEC argv _) =>
      if default 0 (head argv) =? 0 then Exit 1
      else Exec (strings m argv) (Fprintf 2 "exec %s failed" [cstr m (default 0 (head argv))] (Exit 0))
    | Some (REDIR c file _ mode fd) =>
      Close fd
        (Open (cstr m file) mode (λ r,
           if r <? 0 then Fprintf 2 "open %s failed" [cstr m file] (Exit 1)
           else runcmd fuel m h c))
    | Some (LIST l r) =>
      fork1 (λ pid, if pid =? 0 then runcmd fuel m h l else Wait (runcmd fuel m h r))
    | Some (PIPE l r) =>
      Pipe (λ res p0 p1,
        if res <? 0 then sh_panic "pipe" else
        fork1 (λ pid,
          if pid =? 0 then Close 1 (Dup p1 (Close p0 (Close p1 (runcmd fuel m h l)))) else
          fork1 (λ pid,
            if pid =? 0 then Close 0 (Dup p0 (Close p0 (Close p1 (runcmd fuel m h r)))) else
            Close p0 (Close p1 (Wait (Wait (Exit 0)))))))
    | Some (BACK c) =>
      fork1 (λ pid, if pid =? 0 then runcmd fuel m h c else Exit 0)
    end
  end.

(** ** Reading commands *)

Section main.
Context {E : Type} `{Env E}.
(** [getcmd]; [c] is the address of the local of [gets]. *)
Definition getcmd (buf nbuf c : Z) : M (ust E) Z :=
  modify (λ s, set_u_mem (memset (u_mem s) buf 0 nbuf) s);;
  ugets buf nbuf c;;
  b ← gets (λ s, rd (u_mem s) buf);
  mret (if b =? 0 then -1 else 0).

(** What the loop of [main] does with a line: [cd] is a call of the shell
    itself, anything else is parsed and run by a child. *)
Inductive action := Eof | Chdir (path : Z) | Run (line : Z).
Definition sh_main_step (buf c : Z) : M (ust E) action :=
  r ← getcmd buf 100 c;
  if r <? 0 then mret Eof else
  m ← gets u_mem;
  if (rd m buf =? 99) && (rd m (buf + 1) =? 100) && (rd m (buf + 2) =? 32) then
    modify (λ s, set_u_mem (wr (buf + strlen m buf - 1) 0 m) s);;
    mret (Chdir (buf + 3))
  else mret (Run buf).
End main.

(** ** Descriptors *)

(** A pipe is named by the process that made it and a count. *)
Inductive file :=
| Path (name : list Z) (mode : Z)
| ReadEnd (owner : list nat) (n : nat)
| WriteEnd (owner : list nat) (n : nat)
| Other (id : nat).
Abbreviation fds := (list (option file)).
(** The lowest free descriptor, as [fdalloc] of the kernel. *)
Fixpoint lowest (F : fds) : option nat :=
  match F with
  | [] => None
  | None :: _ => Some O
  | Some _ :: F => S <$> lowest F
  end.
Definition fd_at (F : fds) (fd : Z) : option file := if fd <? 0 then None else mjoin (F !! Z.to_nat fd).
Definition fd_close (F : fds) (fd : Z) : fds := if fd <? 0 then F else <[Z.to_nat fd := None]> F.
Definition fd_put (F : fds) (f : file) : Z * fds :=
  match lowest F with Some i => (Z.of_nat i, <[i := Some f]> F) | None => (-1, F) end.

Section run.
(** Which files can be opened, which commands can be executed, and which
    calls of [fork] succeed. *)
Context (opens : list Z → Z → bool) (execs : list (list Z) → bool) (forks : list nat → nat → bool).

(** The commands a process and its children execute, each with its
    descriptors.  [path] names the process, [n] counts its pipes and children. *)
Fixpoint run (p : prog) (path : list nat) (n : nat) (F : fds) : list (list (list Z) * fds) :=
  match p with
  | Exit _ => []
  | Exec argv failed => if execs argv then [(argv, F)] else run failed path n F
  | Close fd k => run k path n (fd_close F fd)
  | Open f mode k =>
    if opens f mode then let '(r, F) := fd_put F (Path f mode) in run (k r) path n F
    else run (k (-1)) path n F
  | Dup fd k =>
    match fd_at F fd with
    | Some f => run k path n (fd_put F f).2
    | None => run k path n F
    end
  | Pipe k =>
    let '(r0, F0) := fd_put F (ReadEnd path n) in
    let '(r1, F1) := fd_put F0 (WriteEnd path n) in
    if (r0 <? 0) || (r1 <? 0) then run (k (-1) 0 0) path n F else run (k 0 r0 r1) path (S n) F1
  | Fork k =>
    if forks path n then run (k 0) (path ++ [n]) O F ++ run (k (Z.of_nat (S n))) path (S n) F
    else run (k (-1)) path n F
  | Wait k => run k path n F
  | Fprintf _ _ _ k => run k path n F
  end.

(** The reference: where standard input, output and error of every command
    go. *)
Record stdio := Stdio { f0 : file; f1 : file; f2 : file }.
Fixpoint plumb (t : tree) (path : list nat) (n : nat) (io : stdio) : list (list (list Z) * stdio) :=
  match t with
  | TExec ws => if bool_decide (ws ≠ []) && execs ws then [(ws, io)] else []
  | TRedir t f mode fd =>
    if opens f mode then
      plumb t path n (if fd =? 0 then Stdio (Path f mode) (f1 io) (f2 io)
                      else Stdio (f0 io) (Path f mode) (f2 io))
    else []
  | TPipe l r =>
    if forks path (S n) then
      plumb l (path ++ [S n]) O (Stdio (f0 io) (WriteEnd path n) (f2 io)) ++
      if forks path (S (S n)) then
        plumb r (path ++ [S (S n)]) O (Stdio (ReadEnd path n) (f1 io) (f2 io))
      else []
    else []
  | TList l r => if forks path n then plumb l (path ++ [n]) O io ++ plumb r path (S n) io else []
  | TBack t => if forks path n then plumb t (path ++ [n]) O io else []
  end.
(** The three descriptors and nothing else. *)
Definition table (io : stdio) : fds := [Some (f0 io); Some (f1 io); Some (f2 io)] ++ replicate 13 None.

(** Redirections are of descriptors 0 and 1. *)
Fixpoint redirects01 (t : tree) : Prop :=
  match t with
  | TExec _ => True
  | TRedir t _ _ fd => (fd = 0 ∨ fd = 1) ∧ redirects01 t
  | TPipe l r => redirects01 l ∧ redirects01 r
  | TList l r => redirects01 l ∧ redirects01 r
  | TBack t => redirects01 t
  end.

Lemma cstr_str m p w : str_at m p w → cstr m p = w.
Proof.
  intros Hs. unfold cstr. rewrite (strlen_str _ _ _ Hs), Nat2Z.id. by apply str_at_bytes in Hs as [].
Qed.
Lemma strings_args m argv eargv ws : args_at (λ q _ w, str_at m q w) argv eargv ws →
  strings m argv = ws ∧ (default 0 (head argv) = 0 ↔ ws = []).
Proof.
  induction 1 as [argv eargv|q eq argv eargv w ws Hq Hw _ [IH _]]; [done|]. simpl.
  rewrite (proj2 (Z.eqb_neq q 0) Hq), IH, (cstr_str _ _ _ Hw). done.
Qed.

Lemma runcmd_plumbs m h : ∀ fuel c t path n io,
  denotes (λ q _ w, str_at m q w) h c t → redirects01 t → (c < fuel)%nat →
  run (runcmd fuel m h c) path n (table io) = prod_map id table <$> plumb t path n io.
Proof.
  induction fuel as [|fuel IH]; intros c t path n io Hd Hr Hc; [lia|]. cbn [runcmd].
  destruct Hd as [c argv eargv ws Hh Ha|c c' f ef w mode fd t Hh Hlt Hw Hd|c l r tl tr Hh H1 H2 Hl Hr'
    |c l r tl tr Hh H1 H2 Hl Hr'|c c' t Hh Hlt Hd]; rewrite Hh; cbn [plumb].
  - destruct (strings_args _ _ _ _ Ha) as [-> Hnil]. destruct (Z.eqb_spec (default 0 (head argv)) 0) as [E|E].
    { by rewrite (proj1 Hnil E). }
    rewrite bool_decide_true by tauto. cbn [run andb]. by destruct (execs ws).
  - rewrite (cstr_str _ _ _ Hw). destruct Hr as [Hfd Hr]. cbn [run].
    destruct (opens w mode); [|done]. destruct Hfd as [-> | ->]; simpl; rewrite <- (IH c' t) by (done || lia); done.
  - destruct Hr as [Hrl Hrr]. simpl. destruct (forks path (S n)); [|done]. rewrite fmap_app.
    destruct (forks path (S (S n))); rewrite ?app_nil_r; rewrite <- (IH l tl), <- ?(IH r tr) by (done || lia); done.
  - destruct Hr as [Hrl Hrr]. simpl. destruct (forks path n); [|done]. rewrite fmap_app.
    rewrite <- (IH l tl), <- (IH r tr) by (done || lia). done.
  - simpl. destruct (forks path n); [|done]. rewrite app_nil_r. rewrite <- (IH c' t) by (done || lia). done.
Qed.
End run.

(** ** From the line to the commands *)

Lemma redir01 op mode fd : redir op mode fd → fd = 0 ∨ fd = 1.
Proof. destruct 1; auto. Qed.
Lemma wrap_redirects rs t : Forall (λ '(_, _, fd), fd = 0 ∨ fd = 1) rs → redirects01 t → redirects01 (wrap rs t).
Proof.
  unfold wrap. revert t. induction rs as [|[[f mode] fd] rs IH]; intros t Hrs Ht; [done|].
  apply Forall_cons_1 in Hrs as [H1 H2]. by apply IH.
Qed.
Lemma redirs_redirects a rs : redirs a rs → Forall (λ '(_, _, fd), fd = 0 ∨ fd = 1) rs.
Proof. induction 1; constructor; eauto using redir01. Qed.
Lemma items_redirects a ws rs : items a ws rs → Forall (λ '(_, _, fd), fd = 0 ∨ fd = 1) rs.
Proof. induction 1; [constructor|done|constructor; eauto using redir01]. Qed.

Scheme line_mut := Minimality for line Sort Prop
  with back_mut := Minimality for back Sort Prop
  with pipe_mut := Minimality for pipe Sort Prop
  with exec_mut := Minimality for exec Sort Prop.
Lemma line_redirects t a : line t a → redirects01 t.
Proof.
  intros H. apply (line_mut (λ t _, redirects01 t) (λ t _, redirects01 t) (λ t _, redirects01 t)
    (λ t _, redirects01 t)) with (l := a); try done; simpl; intros.
  - by apply wrap_redirects; [eapply items_redirects|].
  - by apply wrap_redirects; [eapply redirs_redirects|].
Qed.

(** C20. The command line the child of the shell parses and runs: when the
    line is in the grammar, the commands of its syntax tree are executed, each with
    its redirections and pipes on descriptors 0, 1 and 2, and with no other
    descriptor left open.  A file that cannot be opened drops the command it is
    for, a command that cannot be executed drops itself, and a [fork] that
    fails drops what its process had still to run. *)
Theorem runcmd_spec opens execs forks m h s l ts t path n io :
  0 < s → str_at m s l → lexes l ts → line t ts →
  ∃ c s', parsecmd s (Shell m h) = Ok c s' ∧
    run opens execs forks (runcmd (length (sh_heap s')) (sh_mem s') (sh_heap s') c) path n (table io) =
    prod_map id table <$> plumb opens execs forks t path n io.
Proof.
  intros Hs Hl Hlex Ht. pose proof (parsecmd_ok m h s l ts Hs Hl Hlex) as H.
  destruct (parsecmd s (Shell m h)) as [c s'| | |]; [|by destruct (H t)|done|done].
  destruct H as (t' & Ht' & Hu & Hd). rewrite <- (Hu t Ht) in Hd. exists c, s'. split; [done|].
  apply runcmd_plumbs; [done|by eapply line_redirects|]. destruct Hd; by eapply lookup_lt_Some.
Qed.

(** The tokens and the tree of the sample line. *)
Definition sh_tokens : list token :=
  [Word [108; 115]; Word [97]; Sym GT; Word [102]; Sym SEMI; Sym LPAR; Word [98]; Sym BAR; Word [99]; Sym RPAR; Sym AMP].
Definition sh_tree : tree :=
  TList (TRedir (TExec [[108; 115]; [97]]) [102] (Z.lor (Z.lor O_WRONLY O_CREATE) O_TRUNC) 1)
        (TBack (TPipe (TExec [[98]]) (TExec [[99]]))).
(** Facts about single characters are computed. *)
Ltac char := apply (bool_decide_unpack _); vm_compute; exact I.
Ltac lex_w c w := apply (lex_word c w); [char|repeat (constructor; try char)|by intros d [= <-]; char|].
Lemma sh_line_tokens : lexes sh_line sh_tokens.
Proof.
  unfold sh_line, sh_tokens.
  lex_w 108 [115]. apply lex_ws; [char|]. lex_w 97 (@nil Z). apply lex_gt; [done|]. lex_w 102 (@nil Z).
  apply lex_sym; [char|done|]. apply lex_sym; [char|done|]. lex_w 98 (@nil Z). apply lex_sym; [char|done|].
  lex_w 99 (@nil Z). apply lex_sym; [char|done|]. apply lex_sym; [char|done|]. apply lex_ws; [char|]. apply lex_nil.
Qed.
Lemma sh_tree_line : line sh_tree sh_tokens.
Proof.
  apply (line_seq _ [Word [108; 115]; Word [97]; Sym GT; Word [102]] _
    [Sym LPAR; Word [98]; Sym BAR; Word [99]; Sym RPAR; Sym AMP]).
  - apply back_one, pipe_one. apply (exec_simple [[108; 115]; [97]] [([102], _, 1)]); [|done].
    repeat constructor.
  - apply line_one. apply (back_amp _ [Sym LPAR; Word [98]; Sym BAR; Word [99]; Sym RPAR]).
    apply back_one, pipe_one. apply (exec_block _ [Word [98]; Sym BAR; Word [99]] [] []); [|constructor].
    apply line_one, back_one. apply (pipe_bar _ [Word [98]] _ [Word [99]]).
    + apply (exec_simple [[98]] []); [repeat constructor|done].
    + apply pipe_one. apply (exec_simple [[99]] []); [repeat constructor|done].
Qed.
(** With the console on the three descriptors: [ls a] writes to the file, and
    the pipe connects [b] and [c]. *)
Definition console : stdio := Stdio (Other 0) (Other 0) (Other 0).
Lemma runcmd_spec_witness :
  ∃ c s', parsecmd 4096 (Shell sh_start []) = Ok c s' ∧
    run (λ _ _, true) (λ _, true) (λ _ _, true) (runcmd (length (sh_heap s')) (sh_mem s') (sh_heap s') c) [] O (table console) =
    prod_map id table <$>
      [([[108; 115]; [97]], Stdio (Other 0) (Path [102] 1537) (Other 0));
       ([[98]], Stdio (Other 0) (WriteEnd [1%nat] 0) (Other 0));
       ([[99]], Stdio (ReadEnd [1%nat] 0) (Other 0) (Other 0))].
Proof.
  apply (runcmd_spec (λ _ _, true) (λ _, true) (λ _ _, true) sh_start [] 4096 sh_line sh_tokens sh_tree [] O console).
  - lia.
  - vm_compute. repeat split; discriminate.
  - exact sh_line_tokens.
  - exact sh_tree_line.
Defined.
