(* ===== verification/Riscv.v ===== *)
(** * The hart

    The registers and the instructions of RISC-V that the assembly of the
    kernel uses, with their effect on a hart: loads and stores go through the
    page table of [satp], except in machine mode.  Code is a list of
    instructions, run up to the next transfer of control; [fetch] decodes
    instructions from memory. *)

From stdpp Require Import options.
From S2P Require Import Prelude CString State Vm PageTable.
#[local] Open Scope Z_scope.

Inductive reg :=
| zero | ra | sp | gp | tp | t0 | t1 | t2 | s0 | s1 | a0 | a1 | a2 | a3 | a4 | a5 | a6 | a7
| s2 | s3 | s4 | s5 | s6 | s7 | s8 | s9 | s10 | s11 | t3 | t4 | t5 | t6.
(** The registers by their numbers. *)
Definition reg_names : list reg :=
  [zero; ra; sp; gp; tp; t0; t1; t2; s0; s1; a0; a1; a2; a3; a4; a5; a6; a7;
   s2; s3; s4; s5; s6; s7; s8; s9; s10; s11; t3; t4; t5; t6].
Definition reg_num (r : reg) : Z :=
  match r with
  | zero => 0 | ra => 1 | sp => 2 | gp => 3 | tp => 4 | t0 => 5 | t1 => 6 | t2 => 7 | s0 => 8 | s1 => 9
  | a0 => 10 | a1 => 11 | a2 => 12 | a3 => 13 | a4 => 14 | a5 => 15 | a6 => 16 | a7 => 17
  | s2 => 18 | s3 => 19 | s4 => 20 | s5 => 21 | s6 => 22 | s7 => 23 | s8 => 24 | s9 => 25 | s10 => 26 | s11 => 27
  | t3 => 28 | t4 => 29 | t5 => 30 | t6 => 31
  end.
Definition reg_of (n : Z) : reg := default zero (reg_names !! Z.to_nat n).
Lemma reg_of_num r : reg_of (reg_num r) = r.
Proof. by destruct r. Qed.
#[export] Instance reg_eq_dec : EqDecision reg.
Proof.
  intros r r'. destruct (decide (reg_num r = reg_num r')) as [E|E].
  - left. by rewrite <- (reg_of_num r), <- (reg_of_num r'), E.
  - right. congruence.
Defined.

Inductive csr :=
| sstatus | sie | sip | sscratch | sepc | satp | mstatus | mie | mscratch | mepc | mtvec | mhartid | medeleg | mideleg
| pmpaddr0 | pmpcfg0.
#[export] Instance csr_eq_dec : EqDecision csr.
Proof. solve_decision. Defined.

Inductive priv := Machine | Supervisor | User.

Record mach := Mach {
  x_regs : reg → Z;
  x_csrs : csr → Z;
  x_priv : priv;
  x_mem : mem;
}.
Definition set_regs (f : reg → Z) (s : mach) : mach := Mach f (x_csrs s) (x_priv s) (x_mem s).
Definition set_csrs (f : csr → Z) (s : mach) : mach := Mach (x_regs s) f (x_priv s) (x_mem s).
Definition set_priv (p : priv) (s : mach) : mach := Mach (x_regs s) (x_csrs s) p (x_mem s).
Definition set_mem (m : mem) (s : mach) : mach := Mach (x_regs s) (x_csrs s) (x_priv s) m.

(** The zero register reads as 0 and ignores writes. *)
Definition rget (s : mach) (r : reg) : Z := if decide (r = zero) then 0 else x_regs s r.
Definition rset (r : reg) (v : Z) (s : mach) : mach :=
  set_regs (λ r', if decide (r' = r) then u64 v else x_regs s r') s.
(** Of [sip] only the software-interrupt bit can be written; of [mideleg]
    only the bits of the interrupts of supervisor mode. *)
Definition csr_write (c : csr) (old v : Z) : Z :=
  if decide (c = sip) then Z.lor (Z.ldiff old 2) (Z.land v 2)
  else if decide (c = mideleg) then Z.land v 0x222 else v.
Definition cset (c : csr) (v : Z) (s : mach) : mach :=
  set_csrs (λ c', if decide (c' = c) then u64 (csr_write c (x_csrs s c) v) else x_csrs s c') s.

(** ** Address translation

    In machine mode, and when the mode of [satp] is 0, addresses are physical;
    otherwise they go through three levels of page table, and the leaf has to
    allow the access, to user mode if and only if it is marked so.  The kernel
    uses no superpages and only addresses below [MAXVA]; the bits in which the
    hardware notes accesses are left out. *)
#[export] Instance priv_eq_dec : EqDecision priv.
Proof. solve_decision. Defined.
Definition satp_root (v : Z) : Z := Z.shiftl (Z.land v (Z.ones 44)) 12.
Definition allows (pr : priv) (perm e : Z) : bool := has perm e && eqb (has PTE_U e) (bool_decide (pr = User)).
Definition xlate (m : mem) (pr : priv) (satp perm va : Z) : option Z :=
  if decide (pr = Machine ∨ Z.shiftr satp 60 = 0) then Some va
  else if decide (Z.shiftr satp 60 = 8 ∧ 0 ≤ va < MAXVA) then
    e ← pte_of m (satp_root satp) va;
    if allows pr perm e then Some (PTE2PA e + va mod PGSIZE) else None
  else None.
Definition xlate_in (s : mach) (perm va : Z) : option Z := xlate (x_mem s) (x_priv s) (x_csrs s satp) perm va.

(** ** Instructions *)

Inductive instr :=
| Sd (rs : reg) (off : Z) (base : reg)
| Ld (rd : reg) (off : Z) (base : reg)
| Li (rd : reg) (v : Z)
| La (rd : reg) (a : Z)
| Addi (rd rs : reg) (imm : Z)
| Add (rd rs1 rs2 : reg)
| Mul (rd rs1 rs2 : reg)
| Csrr (rd : reg) (c : csr)
| Csrw (c : csr) (rs : reg)
| Csrrw (rd : reg) (c : csr) (rs : reg)
| Sfence_vma
| Jr (rs : reg)
| Ret
| Call (f : string)
| Ecall
| Sret
| Mret.

(** The instructions that go on to the next one; [None] is a fault. *)
Definition exec1 (i : instr) (s : mach) : option mach :=
  match i with
  | Sd rs off base =>
    pa ← xlate_in s PTE_W (u64 (rget s base + off));
    Some (set_mem (store64 (x_mem s) pa (rget s rs)) s)
  | Ld rd off base =>
    pa ← xlate_in s PTE_R (u64 (rget s base + off));
    Some (rset rd (load64 (x_mem s) pa) s)
  | Li rd v => Some (rset rd v s)
  | La rd a => Some (rset rd a s)
  | Addi rd rs imm => Some (rset rd (rget s rs + imm) s)
  | Add rd rs1 rs2 => Some (rset rd (rget s rs1 + rget s rs2) s)
  | Mul rd rs1 rs2 => Some (rset rd (rget s rs1 * rget s rs2) s)
  | Csrr rd c => Some (rset rd (x_csrs s c) s)
  | Csrw c rs => Some (cset c (rget s rs) s)
  | Csrrw rd c rs => Some (rset rd (x_csrs s c) (cset c (rget s rs) s))
  | Sfence_vma => Some s
  | Jr _ | Ret | Call _ | Ecall | Sret | Mret => None
  end.

(** A transfer of control. *)
Inductive event := E_jump (a : Z) | E_call (f : string) | E_ecall | E_sret | E_mret | E_end.
Definition event_of (i : instr) (s : mach) : option event :=
  match i with
  | Jr rs => Some (E_jump (rget s rs))
  | Ret => Some (E_jump (rget s ra))
  | Call f => Some (E_call f)
  | Ecall => Some E_ecall
  | Sret => Some E_sret
  | Mret => Some E_mret
  | _ => None
  end.
(** The code up to its first transfer of control, and what follows it. *)
Fixpoint run (code : list instr) (s : mach) : option (event * mach * list instr) :=
  match code with
  | [] => Some (E_end, s, [])
  | i :: code =>
    match event_of i s with
    | Some e => Some (e, s, code)
    | None => s ← exec1 i s; run code s
    end
  end.

(** ** Runs *)

Lemma run_step i code s s' : event_of i s = None → exec1 i s = Some s' → run (i :: code) s = run code s'.
Proof. intros E1 E2. cbn [run]. by rewrite E1, E2. Qed.
Lemma rget_rset r v s r' : r ≠ zero → rget (rset r v s) r' = if decide (r' = r) then u64 v else rget s r'.
Proof. intros Hr. unfold rget, rset. cbn. repeat case_decide; congruence. Qed.
Lemma rget_eq r v s : r ≠ zero → rget (rset r v s) r = u64 v.
Proof. intros Hr. rewrite rget_rset by done. by rewrite decide_True. Qed.
Lemma rget_ne r v s r' : r ≠ zero → r' ≠ r → rget (rset r v s) r' = rget s r'.
Proof. intros Hr Hne. rewrite rget_rset by done. by rewrite decide_False. Qed.
Lemma cget_eq c v s : c ≠ sip → c ≠ mideleg → x_csrs (cset c v s) c = u64 v.
Proof. intros H1 H2. cbn. rewrite decide_True by done. unfold csr_write. by rewrite !decide_False. Qed.
Lemma cget_ne c v s c' : c' ≠ c → x_csrs (cset c v s) c' = x_csrs s c'.
Proof. intros H. cbn. by rewrite decide_False. Qed.

(** Registers and control registers hold 64-bit values. *)
Definition regs_ok (s : mach) : Prop := (∀ r, 0 ≤ x_regs s r < 2 ^ 64) ∧ ∀ c, 0 ≤ x_csrs s c < 2 ^ 64.
Lemma rget_range s r : regs_ok s → 0 ≤ rget s r < 2 ^ 64.
Proof. intros [H _]. unfold rget. case_decide; [done|apply H]. Qed.
Lemma regs_ok_rset r v s : regs_ok s → regs_ok (rset r v s).
Proof. intros [H1 H2]. split; [|done]. intros r'. cbn. case_decide; [apply u64_range|apply H1]. Qed.
Lemma regs_ok_cset c v s : regs_ok s → regs_ok (cset c v s).
Proof. intros [H1 H2]. split; [done|]. intros c'. cbn. case_decide; [apply u64_range|apply H2]. Qed.
Lemma exec1_ok i s s' : regs_ok s → exec1 i s = Some s' → regs_ok s'.
Proof.
  intros H E. destruct i; cbn in E; try discriminate; try (injection E as <-; eauto using regs_ok_rset, regs_ok_cset; fail).
  - destruct (xlate_in _ _ _); [|done]. by injection E as <-.
  - destruct (xlate_in _ _ _); [|done]. injection E as <-. by apply regs_ok_rset.
Qed.

(** ** Saving and loading registers

    [W] is the memory the code may write while the window of [n] bytes at [va]
    stays mapped to [pa]. *)
Definition agree_off (W : Z → Prop) (m m' : mem) : Prop := ∀ a, ¬ W a → rd m' a = rd m a.
Definition window (W : Z → Prop) (s : mach) (perm va pa n : Z) : Prop :=
  ∀ m' o, agree_off W (x_mem s) m' → 0 ≤ o < n → xlate m' (x_priv s) (x_csrs s satp) perm (va + o) = Some (pa + o).

Definition saves (base : reg) (tbl : list (reg * Z)) : list instr := (λ x, Sd x.1 x.2 base) <$> tbl.
Definition loads (base : reg) (tbl : list (reg * Z)) : list instr := (λ x, Ld x.1 x.2 base) <$> tbl.
(** Offsets of words in a window of [n] bytes, each used once. *)
Definition words_in (n : Z) (tbl : list (reg * Z)) : Prop :=
  Forall (λ x, x.2 mod 8 = 0 ∧ 0 ≤ x.2 ∧ x.2 + 8 ≤ n ∧ x.1 ≠ zero) tbl ∧ NoDup (tbl.*2).
Fixpoint stored (m : mem) (pa : Z) (f : reg → Z) (tbl : list (reg * Z)) : mem :=
  match tbl with
  | [] => m
  | x :: tbl => stored (store64 m (pa + x.2) (f x.1)) pa f tbl
  end.

Lemma agree_trans W m1 m2 m3 : agree_off W m1 m2 → agree_off W m2 m3 → agree_off W m1 m3.
Proof. intros H1 H2 a Ha. rewrite H2 by done. by apply H1. Qed.
Lemma agree_store W m pa o n v : (∀ a, pa ≤ a < pa + n → W a) → 0 ≤ o → o + 8 ≤ n → agree_off W m (store64 m (pa + o) v).
Proof. intros HW H1 H2 a Ha. apply rd_store64_out. intros Hr. apply Ha, HW. lia. Qed.
Lemma agree_stored W pa n f tbl m : (∀ a, pa ≤ a < pa + n → W a) → Forall (λ x : reg * Z, x.2 mod 8 = 0 ∧ 0 ≤ x.2 ∧ x.2 + 8 ≤ n ∧ x.1 ≠ zero) tbl →
  agree_off W m (stored m pa f tbl).
Proof.
  intros HW HF. revert m. induction HF as [|x tbl Hx _ IH]; intros m; [done|]. cbn [stored].
  eapply agree_trans; [|apply IH]. eapply agree_store; [exact HW|lia..].
Qed.
Lemma stored_other m pa f tbl b : Forall (λ x : reg * Z, b + 8 ≤ pa + x.2 ∨ pa + x.2 + 8 ≤ b) tbl →
  load64 (stored m pa f tbl) b = load64 m b.
Proof.
  intros H. revert m. induction H as [|x tbl Hx _ IH]; intros m; [done|]. cbn [stored]. rewrite IH. apply load64_store64_ne. lia.
Qed.
Lemma stored_at n m pa f tbl r o : (∀ r, 0 ≤ f r < 2 ^ 64) → words_in n tbl → (r, o) ∈ tbl → load64 (stored m pa f tbl) (pa + o) = f r.
Proof.
  intros Hf [HF HN]. revert m. induction HF as [|x tbl Hx HF IH]; intros m Hin; [set_solver|].
  cbn in HN. apply NoDup_cons in HN as [Hn HN]. cbn [stored]. apply elem_of_cons in Hin as [<-|Hin]; [|by apply IH].
  cbn in *. rewrite stored_other; [by apply load64_store64|].
  rewrite Forall_forall in *. intros y Hy. destruct (HF y Hy) as (H1 & _).
  assert (y.2 ≠ o) as Hne by (intros <-; apply Hn, list_elem_of_fmap; by exists y).
  pose proof (Z.div_mod y.2 8 ltac:(lia)). pose proof (Z.div_mod o 8 ltac:(lia)). lia.
Qed.

Lemma u64_in va n o : 0 ≤ va → va + n ≤ 2 ^ 64 → 0 ≤ o < n → u64 (va + o) = va + o.
Proof. intros. apply u64_id. lia. Qed.

Lemma run_saves W base tbl code s va pa n : rget s base = va → 0 ≤ va → va + n ≤ 2 ^ 64 → (∀ a, pa ≤ a < pa + n → W a) →
  window W s PTE_W va pa n → words_in n tbl →
  run (saves base tbl ++ code) s = run code (set_mem (stored (x_mem s) pa (rget s) tbl) s).
Proof.
  intros Hb Hv0 Hv1 HW HX [HF _]. revert s Hb HX. induction HF as [|[r o] tbl Hx _ IH]; intros s Hb HX.
  { cbn. by destruct s. }
  cbn in Hx. cbn [saves fmap list_fmap app fst snd]. rewrite (run_step _ _ _ (set_mem (store64 (x_mem s) (pa + o) (rget s r)) s)); [|done|].
  - fold (saves base tbl). rewrite IH; [by destruct s|done|]. intros m' o' Hm Ho. apply HX; [|done]. eapply agree_trans; [|exact Hm].
    eapply agree_store; [exact HW|lia..].
  - cbn [exec1]. rewrite Hb, (u64_in va n) by lia. unfold xlate_in. by rewrite (HX (x_mem s) o) by (done || lia).
Qed.
(** The registers of the table are loaded. *)
Record loaded_from (tbl : list (reg * Z)) (pa : Z) (s s' : mach) : Prop := {
  lf_in r o : (r, o) ∈ tbl → rget s' r = load64 (x_mem s) (pa + o);
  lf_out r : r ∉ tbl.*1 → rget s' r = rget s r;
  lf_mem : x_mem s' = x_mem s;
  lf_csr : x_csrs s' = x_csrs s;
  lf_priv : x_priv s' = x_priv s;
}.
Lemma run_loads W base tbl code s va pa n : rget s base = va → 0 ≤ va → va + n ≤ 2 ^ 64 → mem_ok (x_mem s) →
  window W s PTE_R va pa n → words_in n tbl → NoDup (tbl.*1) → base ∉ tbl.*1 →
  ∃ s', run (loads base tbl ++ code) s = run code s' ∧ loaded_from tbl pa s s'.
Proof.
  intros Hb Hv0 Hv1 Hm HX [HF _]. revert s Hb Hm HX. induction HF as [|[r o] tbl Hx _ IH]; intros s Hb Hm HX HN Hnb.
  { exists s. split; [done|]. split; try done. set_solver. }
  cbn in Hx, HN, Hnb. apply NoDup_cons in HN as [Hr HN]. apply not_elem_of_cons in Hnb as [Hbr Hnb]. destruct Hx as (_ & Ho0 & Ho1 & Hz).
  set (v := load64 (x_mem s) (pa + o)). assert (u64 v = v) as Ev by (apply u64_id, load64_range; done).
  destruct (IH (rset r v s)) as (s' & E & [L1 L2 L3 L4 L5]); [by rewrite rget_ne|done|done|done|done|].
  exists s'. split.
  - rewrite <- E. apply run_step; [done|]. cbn [exec1 fst snd]. rewrite Hb, (u64_in va n) by lia. unfold xlate_in.
    by rewrite (HX (x_mem s) o) by (done || lia).
  - split; [|..]; try done.
    + intros r' o' [[= -> ->]|Hin]%elem_of_cons; [|by apply L1]. rewrite L2 by done. by rewrite rget_eq, Ev.
    + intros r' Hr'. cbn in Hr'. apply not_elem_of_cons in Hr' as [H1 H2]. rewrite L2 by done. by apply rget_ne.
Qed.

(** In machine mode the window is physical memory. *)
Lemma window_machine W s perm a n : x_priv s = Machine → window W s perm a a n.
Proof. intros Hp m' o _ _. unfold xlate. rewrite Hp, decide_True; auto. Qed.
(** With paging off too. *)
Lemma window_bare W s perm a n : x_csrs s satp = 0 → window W s perm a a n.
Proof. intros Hp m' o _ _. unfold xlate. rewrite Hp, decide_True; auto. Qed.
Lemma window_keep W s s' perm va pa n : window W s perm va pa n → x_priv s' = x_priv s → x_csrs s' satp = x_csrs s satp →
  agree_off W (x_mem s) (x_mem s') → window W s' perm va pa n.
Proof. intros H E1 E2 Hm m' o Hm' Ho. rewrite E1, E2. apply H; [|done]. by eapply agree_trans. Qed.
Lemma mem_ok_stored f pa tbl m : mem_ok m → mem_ok (stored m pa f tbl).
Proof. revert m. induction tbl as [|x tbl IH]; intros m H; [done|]. cbn [stored]. by apply IH, mem_ok_store64. Qed.
