(* ===== verification/Asm.v ===== *)
(** * Assembly

    The code of [kernel/swtch.S], [kernel/trampoline.S], [kernel/kernelvec.S]
    and [kernel/entry.S] as instructions of [Riscv], and the entry to the
    kernel from user mode: [uservec] leaves the registers of the user program
    in the trapframe and [userret] brings them back.  [swtch] keeps the
    registers of a thread that a function call has to preserve in a
    [struct context], and [kernelvec] all its registers on its stack, around a
    call of the C function [kerneltrap]. *)

From stdpp Require Import options.
From S2P Require Import Prelude CString State Kalloc Vm PageTable VmWalk VmSpec VmOps VmProps Proc Trap ProcMem ProcTable ProcFork Riscv.
#[local] Open Scope Z_scope.
#[local] Existing Instance user_leaves.

(** ** The code *)

(** [stack0] is where the linker puts the array. *)
Definition entry (stack0 : Z) : list instr :=
  [La sp stack0; Li a0 (1024 * 4); Csrr a1 mhartid; Addi a1 a1 1; Mul a0 a0 a1; Add sp sp a0; Call "start"].

Definition swtch : list instr :=
  [Sd ra 0 a0; Sd sp 8 a0; Sd s0 16 a0; Sd s1 24 a0; Sd s2 32 a0; Sd s3 40 a0; Sd s4 48 a0;
   Sd s5 56 a0; Sd s6 64 a0; Sd s7 72 a0; Sd s8 80 a0; Sd s9 88 a0; Sd s10 96 a0; Sd s11 104 a0;
   Ld ra 0 a1; Ld sp 8 a1; Ld s0 16 a1; Ld s1 24 a1; Ld s2 32 a1; Ld s3 40 a1; Ld s4 48 a1;
   Ld s5 56 a1; Ld s6 64 a1; Ld s7 72 a1; Ld s8 80 a1; Ld s9 88 a1; Ld s10 96 a1; Ld s11 104 a1;
   Ret].

Definition uservec : list instr :=
  [Csrrw a0 sscratch a0; Sd ra 40 a0; Sd sp 48 a0; Sd gp 56 a0; Sd tp 64 a0; Sd t0 72 a0;
   Sd t1 80 a0; Sd t2 88 a0; Sd s0 96 a0; Sd s1 104 a0; Sd a1 120 a0; Sd a2 128 a0; Sd a3 136 a0;
   Sd a4 144 a0; Sd a5 152 a0; Sd a6 160 a0; Sd a7 168 a0; Sd s2 176 a0; Sd s3 184 a0;
   Sd s4 192 a0; Sd s5 200 a0; Sd s6 208 a0; Sd s7 216 a0; Sd s8 224 a0; Sd s9 232 a0;
   Sd s10 240 a0; Sd s11 248 a0; Sd t3 256 a0; Sd t4 264 a0; Sd t5 272 a0; Sd t6 280 a0;
   Csrr t0 sscratch; Sd t0 112 a0; Ld sp 8 a0; Ld tp 32 a0; Ld t0 16 a0; Ld t1 0 a0; Csrw satp t1;
   Sfence_vma; Jr t0].

Definition userret : list instr :=
  [Csrw satp a1; Sfence_vma; Ld t0 112 a0; Csrw sscratch t0; Ld ra 40 a0; Ld sp 48 a0; Ld gp 56 a0;
   Ld tp 64 a0; Ld t0 72 a0; Ld t1 80 a0; Ld t2 88 a0; Ld s0 96 a0; Ld s1 104 a0; Ld a1 120 a0;
   Ld a2 128 a0; Ld a3 136 a0; Ld a4 144 a0; Ld a5 152 a0; Ld a6 160 a0; Ld a7 168 a0;
   Ld s2 176 a0; Ld s3 184 a0; Ld s4 192 a0; Ld s5 200 a0; Ld s6 208 a0; Ld s7 216 a0;
   Ld s8 224 a0; Ld s9 232 a0; Ld s10 240 a0; Ld s11 248 a0; Ld t3 256 a0; Ld t4 264 a0;
   Ld t5 272 a0; Ld t6 280 a0; Csrrw a0 sscratch a0; Sret].

Definition kernelvec : list instr :=
  [Addi sp sp (-256); Sd ra 0 sp; Sd sp 8 sp; Sd gp 16 sp; Sd tp 24 sp; Sd t0 32 sp; Sd t1 40 sp;
   Sd t2 48 sp; Sd s0 56 sp; Sd s1 64 sp; Sd a0 72 sp; Sd a1 80 sp; Sd a2 88 sp; Sd a3 96 sp;
   Sd a4 104 sp; Sd a5 112 sp; Sd a6 120 sp; Sd a7 128 sp; Sd s2 136 sp; Sd s3 144 sp;
   Sd s4 152 sp; Sd s5 160 sp; Sd s6 168 sp; Sd s7 176 sp; Sd s8 184 sp; Sd s9 192 sp;
   Sd s10 200 sp; Sd s11 208 sp; Sd t3 216 sp; Sd t4 224 sp; Sd t5 232 sp; Sd t6 240 sp;
   Call "kerneltrap"; Ld ra 0 sp; Ld sp 8 sp; Ld gp 16 sp; Ld t0 32 sp; Ld t1 40 sp; Ld t2 48 sp;
   Ld s0 56 sp; Ld s1 64 sp; Ld a0 72 sp; Ld a1 80 sp; Ld a2 88 sp; Ld a3 96 sp; Ld a4 104 sp;
   Ld a5 112 sp; Ld a6 120 sp; Ld a7 128 sp; Ld s2 136 sp; Ld s3 144 sp; Ld s4 152 sp;
   Ld s5 160 sp; Ld s6 168 sp; Ld s7 176 sp; Ld s8 184 sp; Ld s9 192 sp; Ld s10 200 sp;
   Ld s11 208 sp; Ld t3 216 sp; Ld t4 224 sp; Ld t5 232 sp; Ld t6 240 sp; Addi sp sp 256; Sret].

Definition timervec : list instr :=
  [Csrrw a0 mscratch a0; Sd a1 0 a0; Sd a2 8 a0; Sd a3 16 a0; Ld a1 24 a0; Ld a2 32 a0; Ld a3 0 a1;
   Add a3 a3 a2; Sd a3 0 a1; Li a1 2; Csrw sip a1; Ld a3 16 a0; Ld a2 8 a0; Ld a1 0 a0;
   Csrrw a0 mscratch a0; Mret].

(** ** Where registers are kept *)

(** The field of the trapframe of each register. *)
Definition tf_regs : list (reg * tfield) :=
  [(ra, TF_ra); (sp, TF_sp); (gp, TF_gp); (tp, TF_tp); (t0, TF_t0); (t1, TF_t1); (t2, TF_t2); (s0, TF_s0); (s1, TF_s1);
   (a1, TF_a1); (a2, TF_a2); (a3, TF_a3); (a4, TF_a4); (a5, TF_a5); (a6, TF_a6); (a7, TF_a7); (s2, TF_s2); (s3, TF_s3);
   (s4, TF_s4); (s5, TF_s5); (s6, TF_s6); (s7, TF_s7); (s8, TF_s8); (s9, TF_s9); (s10, TF_s10); (s11, TF_s11);
   (t3, TF_t3); (t4, TF_t4); (t5, TF_t5); (t6, TF_t6)].
Definition tf_tbl : list (reg * Z) := (λ x, (x.1, tf_off x.2)) <$> tf_regs.
Definition tf_field (r : reg) : option tfield :=
  if decide (r = a0) then Some TF_a0 else snd <$> (snd <$> list_find (λ x, x.1 = r) tf_regs).
Lemma tf_field_tbl r f : tf_field r = Some f → r = a0 ∧ f = TF_a0 ∨ r ≠ a0 ∧ (r, tf_off f) ∈ tf_tbl.
Proof.
  unfold tf_field. case_decide as Hr; [naive_solver|]. intros E. right. split; [done|].
  destruct (list_find _ tf_regs) as [[i [r' f']]|] eqn:El; [|done]. cbn in E. injection E as ->.
  apply list_find_Some in El as (Hi & <- & _). apply list_elem_of_fmap. exists (r', f). split; [done|].
  by eapply list_elem_of_lookup_2.
Qed.
Lemma tf_field_reg r : r ≠ zero → is_Some (tf_field r).
Proof. by destruct r. Qed.
Lemma tf_tbl_words : words_in PGSIZE tf_tbl.
Proof. split; [apply (bool_decide_unpack _)|apply (bool_decide_unpack _)]; by vm_compute. Qed.
Lemma tf_tbl_regs : NoDup (tf_tbl.*1) ∧ a0 ∉ tf_tbl.*1.
Proof. split; apply (bool_decide_unpack _); by vm_compute. Qed.

Definition frame_word (m : mem) (tf : Z) (f : tfield) : Z := load64 m (tf + tf_off f).

(** ** The trapframe of a process *)

Lemma satp_root_make root : root mod PGSIZE = 0 → 0 ≤ root < 2 ^ 56 → satp_root (MAKE_SATP root) = root ∧ Z.shiftr (MAKE_SATP root) 60 = 8.
Proof.
  intros Ha Hr. apply Z.mod_divide in Ha as [k ->]; [|unfold PGSIZE; lia]. assert (0 ≤ k < 2 ^ 44) as Hk by (unfold PGSIZE in Hr; lia).
  unfold satp_root, MAKE_SATP, SATP_SV39.
  assert (Z.shiftr (k * PGSIZE) 12 = k) as ->.
  { rewrite Z.shiftr_div_pow2 by lia. change PGSIZE with (2 ^ 12). apply Z.div_mul. lia. }
  split.
  - rewrite Z.land_lor_distr_l. change (Z.land (Z.shiftl 8 60) (Z.ones 44)) with 0. rewrite Z.lor_0_l, Z.land_ones, Z.mod_small by lia.
    by rewrite Z.shiftl_mul_pow2 by lia.
  - rewrite Z.shiftr_lor, (shiftr_small k) by lia. reflexivity.
Qed.

(** A hart on the page table of a process sees the trapframe at [TRAPFRAME]. *)
Lemma window_trapframe ly s root tf sz perm : user_proc ly (x_mem s) root tf sz → x_priv s = Supervisor →
  x_csrs s satp = MAKE_SATP root → perm = PTE_R ∨ perm = PTE_W → window (in_page tf) s perm TRAPFRAME tf PGSIZE.
Proof.
  intros HU Hp Hs Hperm m' o Hm Ho. pose proof HU as [H1 [H2 H2'] _ _ H5]. pose proof TRAPFRAME_val as HT. pose proof MAXVA_val as HM.
  assert (PHYSTOP < 2 ^ 56) as HP by done. assert (0 < PGSIZE) as HPG by done.
  assert (tabs (x_mem s) root root) as Hroot by (exists []; split; [|done]; split; [constructor|cbn; lia]).
  destruct (owns_ok _ _ _ _ _ H1 (tabs_owns _ _ _ Hroot)) as [Hrp _]. pose proof (page_ok_range _ _ Hrp) as Hrr.
  destruct (satp_root_make root) as [E1 E2]; [apply Hrp|lia|]. unfold xlate. rewrite Hs, E1, E2, Hp.
  rewrite decide_False by (by intros [?|?]). rewrite decide_True by (unfold PGSIZE in *; lia).
  rewrite (pte_of_tabs (x_mem s) m').
  - rewrite (pte_of_page _ _ _ TRAPFRAME), H5.
    2-3: unfold PGSIZE in *; lia.
    2:{ change TRAPFRAME with (67108862 * PGSIZE). by rewrite Z.div_add_l, (Z.div_small o), Z.add_0_r, Z.div_mul by lia. }
    cbn [mbind option_bind]. pose proof (page_ok_range _ _ H2) as Hr.
    destruct (pte_mk_spec tf (Z.lor PTE_R PTE_W)) as (_ & _ & Epa & Efl); [apply H2|lia|by vm_compute|].
    assert (allows Supervisor perm (pte_mk tf (Z.lor PTE_R PTE_W)) = true) as ->.
    { unfold allows, has. rewrite (land_flags _ perm), (land_flags _ PTE_U), Efl by (done || by destruct Hperm as [->| ->]).
      by destruct Hperm as [->| ->]. }
    rewrite Epa. f_equal. f_equal. change TRAPFRAME with (67108862 * PGSIZE). rewrite Z.add_comm, Z.mod_add, Z.mod_small; lia.
  - intros q a Hq Hqa. apply Hm. intros Ha. apply H2'. apply tabs_owns in Hq as Hqo.
    assert (q = tf) as ->; [|done]. destruct (owns_ok _ _ _ _ _ H1 Hqo) as [[Hqm _] _]. destruct H2 as [Htm _]. unfold in_page, PGSIZE in *.
    pose proof (Z.div_mod q 4096 ltac:(lia)). pose proof (Z.div_mod tf 4096 ltac:(lia)). lia.
Qed.

(** ** uservec and userret *)

(** What [uservec] needs: the trapframe page at [TRAPFRAME], readable and writable. *)
Record at_trapframe (s : mach) (tf : Z) : Prop := {
  at_rd : window (in_page tf) s PTE_R TRAPFRAME tf PGSIZE;
  at_wr : window (in_page tf) s PTE_W TRAPFRAME tf PGSIZE;
  at_mem : mem_ok (x_mem s);
  at_ok : regs_ok s;
}.
Lemma user_proc_at ly s root tf sz : user_proc ly (x_mem s) root tf sz → x_priv s = Supervisor → x_csrs s satp = MAKE_SATP root →
  mem_ok (x_mem s) → regs_ok s → at_trapframe s tf.
Proof. intros HU Hp Hs Hm Hr. split; [eapply window_trapframe; eauto..|done|done]. Qed.

Definition kernel_fields : list tfield := [TF_kernel_satp; TF_kernel_sp; TF_kernel_trap; TF_epc; TF_kernel_hartid].
(** The state in which [uservec] enters the kernel. *)
Record entered (tf : Z) (s s' : mach) : Prop := {
  en_saved r f : tf_field r = Some f → frame_word (x_mem s') tf f = rget s r;
  en_kernel f : f ∈ kernel_fields → frame_word (x_mem s') tf f = frame_word (x_mem s) tf f;
  en_mem : agree_off (in_page tf) (x_mem s) (x_mem s');
  en_sp : rget s' sp = frame_word (x_mem s) tf TF_kernel_sp;
  en_tp : rget s' tp = frame_word (x_mem s) tf TF_kernel_hartid;
  en_satp : x_csrs s' satp = frame_word (x_mem s) tf TF_kernel_satp;
  en_priv : x_priv s' = x_priv s;
  en_ok : mem_ok (x_mem s');
}.
Definition kernel_tbl : list (reg * Z) := [(sp, 8); (tp, 32); (t0, 16); (t1, 0)].
Lemma uservec_split : uservec = Csrrw a0 sscratch a0 :: saves a0 tf_tbl ++ Csrr t0 sscratch :: saves a0 [(t0, 112)] ++
  loads a0 kernel_tbl ++ [Csrw satp t1; Sfence_vma; Jr t0].
Proof. reflexivity. Qed.
Lemma saved_words m tf f v : (∀ r, 0 ≤ f r < 2 ^ 64) → 0 ≤ v < 2 ^ 64 →
  let m' := store64 (stored m tf f tf_tbl) (tf + 112) v in
  (∀ r fd, tf_field r = Some fd → frame_word m' tf fd = if decide (r = a0) then v else f r) ∧
  ∀ fd, fd ∈ kernel_fields → frame_word m' tf fd = frame_word m tf fd.
Proof.
  intros Hf Hv m'. split.
  - intros r fd [[-> ->]|[Hr Hin]]%tf_field_tbl.
    + rewrite decide_True by done. by apply load64_store64.
    + rewrite decide_False by done. unfold m', frame_word. rewrite load64_store64_ne; [by eapply stored_at; [|apply tf_tbl_words|]|].
      assert (Forall (λ x : reg * Z, x.2 + 8 ≤ 112 ∨ 120 ≤ x.2) tf_tbl) as Ho by (apply (bool_decide_unpack _); by vm_compute).
      rewrite Forall_forall in Ho. specialize (Ho _ Hin). cbn in Ho. lia.
  - intros fd Hfd. assert (tf_off fd + 8 ≤ 40) as Ho.
    { assert (Forall (λ g, tf_off g + 8 ≤ 40) kernel_fields) as H by (apply (bool_decide_unpack _); by vm_compute).
      rewrite Forall_forall in H. by apply H. }
    unfold m', frame_word. rewrite load64_store64_ne by lia. apply stored_other.
    assert (Forall (λ x : reg * Z, 40 ≤ x.2) tf_tbl) as H by (apply (bool_decide_unpack _); by vm_compute).
    eapply Forall_impl; [exact H|]. cbn. lia.
Qed.
Lemma uservec_ok s tf : at_trapframe s tf → x_csrs s sscratch = TRAPFRAME →
  ∃ s', run uservec s = Some (E_jump (frame_word (x_mem s) tf TF_kernel_trap), s', []) ∧ entered tf s s'.
Proof.
  intros [HR HW Hm Hok] Hsc. pose proof TRAPFRAME_val as HT. assert (0 < PGSIZE ≤ 2 ^ 20) as HPG by done.
  rewrite uservec_split. rewrite (run_step _ _ _ (rset a0 TRAPFRAME (cset sscratch (rget s a0) s))) by (done || by cbn [exec1]; rewrite Hsc).
  set (s1' := rset a0 TRAPFRAME _). assert (rget s1' a0 = TRAPFRAME) as Ha by (unfold s1'; by rewrite rget_eq).
  assert (∀ r, r ≠ a0 → rget s1' r = rget s r) as Ho by (intros r Hr; unfold s1'; by rewrite rget_ne).
  rewrite (run_saves (in_page tf) a0 tf_tbl _ s1' TRAPFRAME tf PGSIZE) by (done || lia || apply tf_tbl_words).
  set (m1 := stored (x_mem s1') tf (rget s1') tf_tbl). set (v := rget s a0). set (s2' := set_mem m1 s1').
  pose proof (rget_range s a0 Hok) as Hv. fold v in Hv.
  assert (x_csrs s2' sscratch = v) as Es by (change (x_csrs (cset sscratch v s) sscratch = v); rewrite cget_eq by done; by apply u64_id).
  rewrite (run_step _ _ _ (rset t0 v s2')) by (done || by cbn [exec1]; rewrite Es). set (s3' := rset t0 v s2').
  assert (agree_off (in_page tf) (x_mem s) m1) as Hm1 by (eapply agree_stored; [done|apply tf_tbl_words]).
  rewrite (run_saves (in_page tf) a0 [(t0, 112)] _ s3' TRAPFRAME tf PGSIZE); [|done|lia|lia|done|by eapply window_keep|by split; apply (bool_decide_unpack _)].
  cbn [stored fst snd]. assert (rget s3' t0 = v) as -> by (unfold s3'; rewrite rget_eq by done; by apply u64_id).
  change (x_mem s3') with m1. set (m2 := store64 m1 (tf + 112) v). set (s4' := set_mem m2 s3').
  assert (agree_off (in_page tf) (x_mem s) m2) as Hm2 by (eapply agree_trans; [exact Hm1|]; eapply (agree_store _ _ _ _ PGSIZE); [done|lia|done]).
  destruct (saved_words (x_mem s1') tf (rget s1') v) as [Hw1 Hw2]; [intros r; by apply rget_range, regs_ok_rset, regs_ok_cset|done|].
  fold m1 m2 in Hw1, Hw2. change (x_mem s1') with (x_mem s) in Hw2.
  destruct (run_loads (in_page tf) a0 kernel_tbl [Csrw satp t1; Sfence_vma; Jr t0] s4' TRAPFRAME tf PGSIZE) as (s5' & E & [L1 L2 L3 L4 L5]);
    [unfold s4', s3'; cbn; done|lia|lia|by apply mem_ok_store64, mem_ok_stored|by eapply window_keep|by split; apply (bool_decide_unpack _)|
     by apply (bool_decide_unpack _)|by apply (bool_decide_unpack _)|].
  rewrite E. set (s6' := cset satp (rget s5' t1) s5'). exists s6'.
  assert (∀ r o fd, (r, o) ∈ kernel_tbl → fd ∈ kernel_fields → o = tf_off fd → rget s5' r = frame_word (x_mem s) tf fd) as HK.
  { intros r o fd H1 H2 ->. rewrite (L1 r _ H1). by apply Hw2. }
  assert (rget s5' t0 = frame_word (x_mem s) tf TF_kernel_trap ∧ rget s5' t1 = frame_word (x_mem s) tf TF_kernel_satp ∧
    rget s5' sp = frame_word (x_mem s) tf TF_kernel_sp ∧ rget s5' tp = frame_word (x_mem s) tf TF_kernel_hartid) as (K1 & K2 & K3 & K4).
  { split_and!; (eapply HK; [| |reflexivity]); by apply (bool_decide_unpack _). }
  split.
  - rewrite (run_step _ _ _ s6'), (run_step _ _ _ s6') by done. cbn [run event_of].
    change (rget s6' t0) with (rget s5' t0). by rewrite K1.
  - split; change (x_mem s6') with (x_mem s5'); change (x_priv s6') with (x_priv s5'); try done.
    + intros r f Hrf. rewrite L3. change (x_mem s4') with m2. rewrite (Hw1 r f Hrf). case_decide as Hr; [by rewrite Hr|by apply Ho].
    + intros f Hf. rewrite L3. by apply Hw2.
    + by rewrite L3.
    + unfold s6'. rewrite cget_eq, K2 by done. by apply u64_id, load64_range.
    + rewrite L3. by apply mem_ok_store64, mem_ok_stored.
Qed.

Lemma userret_split : userret = Csrw satp a1 :: Sfence_vma :: loads a0 [(t0, 112)] ++ Csrw sscratch t0 :: loads a0 tf_tbl ++ [Csrrw a0 sscratch a0; Sret].
Proof. reflexivity. Qed.
(** [userret] resumes the user program with the registers of the trapframe. *)
Lemma userret_ok s tf : at_trapframe (cset satp (rget s a1) s) tf → rget s a0 = TRAPFRAME →
  ∃ s', run userret s = Some (E_sret, s', []) ∧ x_mem s' = x_mem s ∧ (∀ r f, tf_field r = Some f → rget s' r = frame_word (x_mem s) tf f) ∧
    x_csrs s' satp = rget s a1 ∧ x_csrs s' sscratch = TRAPFRAME ∧ x_priv s' = x_priv s.
Proof.
  intros [HR HW Hm Hok] Ha. pose proof TRAPFRAME_val as HT. assert (0 < PGSIZE ≤ 2 ^ 20) as HPG by done.
  rewrite userret_split. set (s1' := cset satp (rget s a1) s) in *. rewrite (run_step _ _ _ s1'), (run_step _ _ _ s1') by done.
  destruct (run_loads (in_page tf) a0 [(t0, 112)] (Csrw sscratch t0 :: loads a0 tf_tbl ++ [Csrrw a0 sscratch a0; Sret]) s1' TRAPFRAME tf PGSIZE)
    as (s2' & E & [L1 L2 L3 L4 L5]); [done|lia|lia|done|done|by split; apply (bool_decide_unpack _)|by apply (bool_decide_unpack _)..|].
  rewrite E. set (s3' := cset sscratch (rget s2' t0) s2'). rewrite (run_step _ _ _ s3') by done.
  assert (rget s2' t0 = frame_word (x_mem s) tf TF_a0) as Et0 by (rewrite (L1 t0 112) by (by left); done).
  assert (x_csrs s3' sscratch = frame_word (x_mem s) tf TF_a0) as Es3.
  { unfold s3'. rewrite cget_eq, Et0 by done. by apply u64_id, load64_range. }
  destruct (run_loads (in_page tf) a0 tf_tbl [Csrrw a0 sscratch a0; Sret] s3' TRAPFRAME tf PGSIZE) as (s4' & E' & [N1 N2 N3 N4 N5]);
    [change (rget s3' a0) with (rget s2' a0); rewrite L2 by (by apply (bool_decide_unpack _)); done|lia|lia|
     change (x_mem s3') with (x_mem s2'); by rewrite L3|
     eapply window_keep; [exact HR|exact L5|unfold s3'; rewrite cget_ne by done; by rewrite L4|change (x_mem s3') with (x_mem s2'); by rewrite L3]|
     apply tf_tbl_words|apply tf_tbl_regs|apply tf_tbl_regs|].
  rewrite E'. set (v := x_csrs s4' sscratch). set (s5' := rset a0 v (cset sscratch (rget s4' a0) s4')).
  rewrite (run_step _ _ _ s5') by done. exists s5'. split; [done|].
  assert (rget s4' a0 = TRAPFRAME) as Ea4.
  { rewrite N2 by apply tf_tbl_regs. change (rget s3' a0) with (rget s2' a0). by rewrite L2 by (by apply (bool_decide_unpack _)). }
  assert (x_mem s3' = x_mem s) as Em3 by (change (x_mem s3') with (x_mem s2'); by rewrite L3).
  split; [change (x_mem s5') with (x_mem s4'); by rewrite N3|]. split; [|split; [|split]].
  - intros r f [[-> ->]|[Hr Hin]]%tf_field_tbl; unfold s5'.
    + rewrite rget_eq by done. unfold v. rewrite N4, Es3. by apply u64_id, load64_range.
    + rewrite rget_ne by done. change (rget (cset _ _ s4') r) with (rget s4' r). rewrite (N1 r _ Hin). by rewrite Em3.
  - unfold s5'. change (x_csrs (rset _ _ ?x)) with (x_csrs x). rewrite cget_ne, N4 by done. unfold s3'. rewrite cget_ne, L4 by done.
    unfold s1'. rewrite cget_eq by done. apply u64_id. apply (rget_range s1'), Hok.
  - unfold s5'. change (x_csrs (rset _ _ ?x)) with (x_csrs x). rewrite cget_eq, Ea4 by done. by apply u64_id.
  - change (x_priv s5') with (x_priv s4'). rewrite N5. change (x_priv s3') with (x_priv s2'). by rewrite L5.
Qed.

(** Writing the trapframe keeps the address space. *)
Lemma user_proc_frame ly m m' root tf sz : user_proc ly m root tf sz → agree_off (in_page tf) m m' → user_proc ly m' root tf sz.
Proof.
  intros [U1 [U2 U3] [P1 P2 P3 P4 P5] U5 U6] Hm.
  assert (same_but (λ q, q = tf) m m') as HS by (intros a Ha; apply Hm, Ha; done).
  assert (∀ q, q = tf → aligned q ∧ ¬ tabs m root q) as HT by (intros q ->; split; [apply U2|by intros ?%tabs_owns]).
  assert (∀ p i, Forall idx p → (length p ≤ 2)%nat → idx i → ent m' root p i = ent m root p i) as He
    by (intros p i ? ? ?; by apply (ent_same_but _ _ _ _ _ _ p i U1 HS HT)).
  assert (∀ va, pte_of m' root va = pte_of m root va) as Hpte by (intros va; apply pte_of_tabs; by eapply same_but_tabs).
  split; [by eapply (as_wf_same_but _ _ _ _ _ _ _ U1 HS HT); left| |split|by rewrite Hpte|by rewrite Hpte].
  - split; [done|]. intros (p & Hp & E). apply U3. exists p. split; [done|]. rewrite <- E. symmetry.
    destruct Hp as (? & ? & _). by apply (node_same_but _ _ _ _ _ _ p U1 HS HT).
  - done.
  - intros va Hva. rewrite Hpte. by apply P2.
  - intros p i Hl Hi. apply Forall_app in Hi as Hi'. destruct Hi' as [Hi1 [Hi2 _]%Forall_cons]. rewrite He by (done || lia). by apply P3.
  - by rewrite Hpte.
  - by rewrite Hpte.
Qed.

(** C7. Registers across a trap. A trap from user mode starts in [uservec], in supervisor mode, on the page table of
    the process and with [sscratch] at [TRAPFRAME]. [uservec] stores all 31 registers of the user program in the
    trapframe of the process, touches nothing else of the memory, leaves the words the kernel had put there, and jumps to
    the [usertrap] they name on the kernel's stack and page table. Whatever the kernel does then, if it comes to [userret]
    with the argument [TRAPFRAME] and the [satp] of a page table of the process, which may be another one by then, and
    has changed no register word of the trapframe but that of [a0], the user program goes on with all its
    registers as they were and in [a0] what the kernel put there, and [sscratch] is ready for the next trap. *)
Theorem trap_roundtrip ly s root tf sz :
  user_proc ly (x_mem s) root tf sz → mem_ok (x_mem s) → regs_ok s → x_priv s = Supervisor →
  x_csrs s satp = MAKE_SATP root → x_csrs s sscratch = TRAPFRAME →
  ∃ s1, run uservec s = Some (E_jump (frame_word (x_mem s) tf TF_kernel_trap), s1, []) ∧ entered tf s s1 ∧
    user_proc ly (x_mem s1) root tf sz ∧
    ∀ s2 root' sz', user_proc ly (x_mem s2) root' tf sz' → mem_ok (x_mem s2) → regs_ok s2 → x_priv s2 = Supervisor →
      rget s2 a0 = TRAPFRAME → rget s2 a1 = MAKE_SATP root' →
      (∀ f, f ∉ TF_a0 :: kernel_fields → frame_word (x_mem s2) tf f = frame_word (x_mem s1) tf f) →
      ∃ s3, run userret s2 = Some (E_sret, s3, []) ∧ x_mem s3 = x_mem s2 ∧
        (∀ r, r ≠ zero → rget s3 r = if decide (r = a0) then frame_word (x_mem s2) tf TF_a0 else rget s r) ∧
        x_csrs s3 satp = MAKE_SATP root' ∧ x_csrs s3 sscratch = TRAPFRAME.
Proof.
  intros HU Hm Hr Hp Hs Hsc. destruct (uservec_ok s tf) as (s1' & E & HE); [by eapply user_proc_at|done|]. exists s1'.
  split; [done|]. split; [done|]. split; [eapply user_proc_frame; [done|apply HE]|].
  intros s2' root' sz' HU2 Hm2 Hr2 Hp2 Ha0 Ha1 Hf.
  destruct (userret_ok s2' tf) as (s3' & E3 & M3 & R3 & S3 & C3 & _).
  - eapply user_proc_at; [exact HU2|done| |done|by apply regs_ok_cset]. rewrite cget_eq by done. rewrite <- Ha1. apply u64_id. by apply rget_range.
  - done.
  - exists s3'. split; [done|]. split; [done|]. split; [|by rewrite <- Ha1].
    intros r Hz. destruct (tf_field_reg r Hz) as [f Ef]. rewrite (R3 r f Ef). case_decide as Hra; [by rewrite Hra in Ef; injection Ef as <-|].
    rewrite Hf; [by apply (en_saved _ _ _ HE)|]. clear - Ef Hra.
    destruct r; vm_compute in Ef; try discriminate Ef; injection Ef as <-; (by destruct Hra) || by apply (bool_decide_unpack _).
Qed.

(** The first process made by [allocproc], interrupted with its number in every register. *)
Definition trap_state (m : mem) (root : Z) : mach :=
  Mach reg_num (λ c, if decide (c = satp) then MAKE_SATP root else if decide (c = sscratch) then TRAPFRAME else 0) Supervisor m.
Definition ret_state (m : mem) (root : Z) : mach :=
  Mach (λ r, if decide (r = a0) then TRAPFRAME else if decide (r = a1) then MAKE_SATP root else 0) (λ _, 0) Supervisor m.
Lemma MAKE_SATP_range root : 0 ≤ root < 2 ^ 56 → 0 ≤ MAKE_SATP root < 2 ^ 64.
Proof.
  intros Hr. apply lor_range; [done|by vm_compute|]. rewrite Z.shiftr_div_pow2 by done.
  split; [apply Z.div_pos; lia|apply Z.div_lt_upper_bound; lia].
Qed.
Lemma trap_state_ok m root : 0 ≤ root < 2 ^ 56 → regs_ok (trap_state m root) ∧ regs_ok (ret_state m root).
Proof.
  intros Hr%MAKE_SATP_range. assert (0 ≤ TRAPFRAME < 2 ^ 64) as HT by done.
  split; split; cbn; [by intros []|..]; intros r; repeat case_decide; done.
Qed.
Lemma user_root ly m root tf sz : user_proc ly m root tf sz → 0 ≤ root < 2 ^ 56.
Proof.
  intros HU. assert (owns m root root) as Ho by (exists []; split; [|done]; apply table_owned; split; [constructor|cbn; lia]).
  destruct (owns_ok _ _ _ _ _ (up_wf _ _ _ _ _ HU) Ho) as [Hp _]. apply page_ok_range in Hp as [? ?].
  assert (PHYSTOP < 2 ^ 56) by done. unfold PGSIZE in *. lia.
Qed.
Lemma one_alloc_user : ∃ root tf sz, user_proc (k_ly one_alloc) (k_mem one_alloc) root tf sz ∧ mem_ok (k_mem one_alloc).
Proof.
  destruct one_alloc_ok as (x & root & tf & l & HA). exists root, tf, (p_sz x).
  destruct (as_ok _ _ _ _ _ _ _ _ HA) as [_ _ HK _ H5 _ _].
  assert (k_procs one_alloc !! 0%nat = Some (new_proc pool root tf x)) as Hx.
  { rewrite (as_procs _ _ _ _ _ _ _ _ HA). apply list_lookup_insert_eq. apply Nat.ltb_lt. reflexivity. }
  split; [|apply HK]. destruct (eo_used _ _ _ (H5 _ _ Hx)) as (HU & _); [discriminate|]. exact HU.
Qed.
Lemma trap_roundtrip_witness : ∃ root s1 s3 e, run uservec (trap_state (k_mem one_alloc) root) = Some (E_jump e, s1, []) ∧
  run userret (ret_state (x_mem s1) root) = Some (E_sret, s3, []) ∧ ∀ r, r ≠ zero → rget s3 r = reg_num r.
Proof.
  destruct one_alloc_user as (root & tf & sz & HU & Hm). exists root. destruct (trap_state_ok (k_mem one_alloc) root (user_root _ _ _ _ _ HU)) as [R1 _].
  destruct (trap_roundtrip (k_ly one_alloc) (trap_state (k_mem one_alloc) root) root tf sz HU Hm R1 eq_refl eq_refl eq_refl) as (s1' & E1 & HE & HU1 & H).
  destruct (H (ret_state (x_mem s1') root) root sz HU1 (en_ok _ _ _ HE) (proj2 (trap_state_ok _ root (user_root _ _ _ _ _ HU))) eq_refl eq_refl eq_refl)
    as (s3' & E3 & _ & R3 & _); [reflexivity|].
  exists s1', s3', (frame_word (k_mem one_alloc) tf TF_kernel_trap). split; [exact E1|]. split; [exact E3|].
  intros r Hr. rewrite (R3 r Hr). destruct (decide (r = a0)) as [->|_].
  - exact (en_saved _ _ _ HE a0 TF_a0 eq_refl).
  - unfold rget. rewrite decide_False by exact Hr. reflexivity.
Defined.

(** ** swtch *)

(** The fields of [struct context]. *)
Definition ctx_tbl : list (reg * Z) :=
  [(ra, 0); (sp, 8); (s0, 16); (s1, 24); (s2, 32); (s3, 40); (s4, 48); (s5, 56); (s6, 64); (s7, 72); (s8, 80); (s9, 88);
   (s10, 96); (s11, 104)].
Definition sizeof_context : Z := 112.
Lemma swtch_split : swtch = saves a0 ctx_tbl ++ loads a1 ctx_tbl ++ [Ret].
Proof. reflexivity. Qed.
Lemma ctx_words : words_in sizeof_context ctx_tbl.
Proof. split; apply (bool_decide_unpack _); by vm_compute. Qed.
Lemma ctx_nodup : NoDup (ctx_tbl.*1) ∧ a1 ∉ ctx_tbl.*1.
Proof. split; apply (bool_decide_unpack _); by vm_compute. Qed.
Lemma ctx_off r o : (r, o) ∈ ctx_tbl → 0 ≤ o ∧ o + 8 ≤ sizeof_context.
Proof. intros H. destruct ctx_words as [HF _]. rewrite Forall_forall in HF. destruct (HF _ H) as (_ & ? & ? & _). done. Qed.

(** The registers of a context, in memory at [c]. *)
Definition ctx_at (m : mem) (c : Z) (f : reg → Z) : Prop := ∀ r o, (r, o) ∈ ctx_tbl → load64 m (c + o) = f r.

(** A hart about to switch from the context at [old] to the one at [new], both in memory the kernel maps at its own
    address. *)
Record switching (s : mach) (old new : Z) : Prop := {
  sw_old : rget s a0 = old ∧ 0 ≤ old ∧ old + sizeof_context ≤ 2 ^ 64;
  sw_new : rget s a1 = new ∧ 0 ≤ new ∧ new + sizeof_context ≤ 2 ^ 64;
  sw_apart : old + sizeof_context ≤ new ∨ new + sizeof_context ≤ old;
  sw_wr : window (λ a, old ≤ a < old + sizeof_context) s PTE_W old old sizeof_context;
  sw_rd : window (λ a, old ≤ a < old + sizeof_context) s PTE_R new new sizeof_context;
  sw_mem : mem_ok (x_mem s);
  sw_ok : regs_ok s;
}.
Record switched (old new : Z) (s s' : mach) : Prop := {
  sd_saved : ctx_at (x_mem s') old (rget s);
  sd_loaded : ctx_at (x_mem s) new (rget s');
  sd_other r : r ∉ ctx_tbl.*1 → rget s' r = rget s r;
  sd_mem : agree_off (λ a, old ≤ a < old + sizeof_context) (x_mem s) (x_mem s');
  sd_csrs : x_csrs s' = x_csrs s;
  sd_ok : mem_ok (x_mem s');
}.
Lemma swtch_ok s old new : switching s old new →
  ∃ s', run swtch s = Some (E_jump (load64 (x_mem s) new), s', []) ∧ switched old new s s'.
Proof.
  intros [(Ho & Ho1 & Ho2) (Hn & Hn1 & Hn2) Hap HW HR Hm Hok]. rewrite swtch_split.
  rewrite (run_saves _ a0 ctx_tbl _ s old old sizeof_context Ho Ho1 Ho2 (λ _ H, H) HW ctx_words).
  set (m1 := stored (x_mem s) old (rget s) ctx_tbl).
  assert (agree_off (λ a, old ≤ a < old + sizeof_context) (x_mem s) m1) as Hm1 by (eapply agree_stored; [|apply ctx_words]; done).
  destruct (run_loads (λ a, old ≤ a < old + sizeof_context) a1 ctx_tbl [Ret] (set_mem m1 s) new new sizeof_context Hn Hn1 Hn2) as (s' & E & [L1 L2 L3 L4 L5]);
    [by apply mem_ok_stored|by eapply window_keep|apply ctx_words|apply ctx_nodup..|].
  assert (∀ r o, (r, o) ∈ ctx_tbl → load64 m1 (new + o) = load64 (x_mem s) (new + o)) as Hnew.
  { intros r o Hin%ctx_off. apply load64_ext. intros a Ha. apply Hm1. lia. }
  exists s'. rewrite E. split.
  - cbn [run event_of]. rewrite (L1 ra 0) by (by left). cbn [x_mem set_mem]. rewrite (Hnew ra 0) by (by left). by rewrite Z.add_0_r.
  - split.
    + intros r o Hin. rewrite L3. cbn [x_mem set_mem]. eapply stored_at; [|apply ctx_words|done]. intros r'. by apply rget_range.
    + intros r o Hin. rewrite (L1 r o Hin). symmetry. by apply (Hnew r o).
    + done.
    + by rewrite L3.
    + done.
    + rewrite L3. by apply mem_ok_stored.
Qed.

(** C15. [swtch] suspends a kernel thread and a later [swtch] resumes it. Switching from the context at [old] to that
    at [new] goes on where the thread of [new] stopped, with its stack and the registers a function call preserves, and
    stores those of the running thread at [old]; no other memory changes, and no other register. Whoever then
    switches to [old], from any context [cur], after whatever it did to the rest of memory, resumes the first thread after
    its call of [swtch], its stack and preserved registers as it left them. *)
Theorem swtch_resumes s old new :
  switching s old new →
  ∃ s1, run swtch s = Some (E_jump (load64 (x_mem s) new), s1, []) ∧ switched old new s s1 ∧
    ∀ s2 cur, switching s2 cur old → ctx_at (x_mem s2) old (rget s) →
      ∃ s3, run swtch s2 = Some (E_jump (rget s ra), s3, []) ∧ switched cur old s2 s3 ∧
        ∀ r, r ∈ ctx_tbl.*1 → rget s3 r = rget s r.
Proof.
  intros HS. destruct (swtch_ok s old new HS) as (s1' & E1 & D1). exists s1'. split; [done|]. split; [done|].
  intros s2' cur HS2 Hc. destruct (swtch_ok s2' cur old HS2) as (s3' & E3 & D3). exists s3'. split; [|split; [done|]].
  - rewrite E3. rewrite <- (Hc ra 0) by (by left). by rewrite Z.add_0_r.
  - intros r [[r' o] [-> Hin]]%list_elem_of_fmap. cbn. by rewrite <- (Hc r' o Hin), (sd_loaded _ _ _ _ D3 r' o Hin).
Qed.

(** ** kernelvec *)

(** Where the registers are saved below the stack pointer; [tp] is not loaded back. *)
Definition kv_tbl : list (reg * Z) :=
  [(ra, 0); (sp, 8); (gp, 16); (tp, 24); (t0, 32); (t1, 40); (t2, 48); (s0, 56); (s1, 64); (a0, 72); (a1, 80); (a2, 88);
   (a3, 96); (a4, 104); (a5, 112); (a6, 120); (a7, 128); (s2, 136); (s3, 144); (s4, 152); (s5, 160); (s6, 168); (s7, 176);
   (s8, 184); (s9, 192); (s10, 200); (s11, 208); (t3, 216); (t4, 224); (t5, 232); (t6, 240)].
Definition kv_rest : list (reg * Z) := filter (λ x, x.1 ∉ [ra; sp; tp]) kv_tbl.
Definition kv_exit : list instr := loads sp [(ra, 0)] ++ Ld sp 8 sp :: loads sp kv_rest ++ [Addi sp sp 256; Sret].
Lemma kernelvec_split : kernelvec = Addi sp sp (-256) :: saves sp kv_tbl ++ Call "kerneltrap" :: kv_exit.
Proof. reflexivity. Qed.
Lemma kv_words : words_in 256 kv_tbl ∧ words_in 256 kv_rest.
Proof. split; split; apply (bool_decide_unpack _); by vm_compute. Qed.
Lemma kv_nodup : NoDup (kv_rest.*1) ∧ sp ∉ kv_rest.*1.
Proof. split; apply (bool_decide_unpack _); by vm_compute. Qed.
Lemma kv_cases r : r ≠ zero → r ≠ tp → r = ra ∨ r = sp ∨ ∃ o, (r, o) ∈ kv_rest ∧ (r, o) ∈ kv_tbl.
Proof.
  intros H1 H2. destruct (decide (r ∈ kv_rest.*1)) as [[[r' o] [-> Hin]]%list_elem_of_fmap|Hn].
  - right. right. exists o. split; [done|]. by apply list_elem_of_filter in Hin as [_ ?].
  - destruct r; try done; try (by left); try (by right; left); exfalso; apply Hn; by apply (bool_decide_unpack _).
Qed.

Lemma kv_load_sp s s1 va pa f : window (λ a, pa ≤ a < pa + 256) s PTE_R va pa 256 →
  x_mem s1 = x_mem s → x_csrs s1 = x_csrs s → x_priv s1 = x_priv s → rget s1 sp = va → 0 ≤ va → va + 256 < 2 ^ 64 →
  (∀ r o, (r, o) ∈ kv_tbl → load64 (x_mem s) (pa + o) = f r) → f sp = va → exec1 (Ld sp 8 sp) s1 = Some (rset sp va s1).
Proof.
  intros HR E1 E2 E3 Hsp H0 H1 Hw Hf. cbn [exec1]. rewrite Hsp, u64_id by lia. unfold xlate_in. rewrite E1, E2, E3.
  rewrite (HR (x_mem s) 8) by (done || lia). cbn [mbind option_bind]. rewrite (Hw sp 8) by (right; by left). by rewrite Hf.
Qed.
Lemma kv_exit_ok s va pa f : rget s sp = va → 0 ≤ va → va + 256 < 2 ^ 64 → mem_ok (x_mem s) →
  window (λ a, pa ≤ a < pa + 256) s PTE_R va pa 256 → (∀ r o, (r, o) ∈ kv_tbl → load64 (x_mem s) (pa + o) = f r) → f sp = va →
  f zero = 0 →
  ∃ s', run kv_exit s = Some (E_sret, s', []) ∧ x_mem s' = x_mem s ∧ x_csrs s' = x_csrs s ∧
    ∀ r, rget s' r = if decide (r = tp) then rget s tp else if decide (r = sp) then va + 256 else f r.
Proof.
  intros Hsp Hv0 Hv1 Hm HR Hw Hf Hz. unfold kv_exit.
  destruct (run_loads (λ a, pa ≤ a < pa + 256) sp [(ra, 0)] (Ld sp 8 sp :: loads sp kv_rest ++ [Addi sp sp 256; Sret]) s va pa 256)
    as (s1' & E1 & [L1 L2 L3 L4 L5]); [done|done|lia|done|done|by split; apply (bool_decide_unpack _)|by apply (bool_decide_unpack _)..|].
  rewrite E1. assert (rget s1' sp = va) as Esp by (by rewrite L2 by (by apply (bool_decide_unpack _))).
  set (s2' := rset sp va s1'). rewrite (run_step _ _ s1' s2') by (done || exact (kv_load_sp _ _ _ _ _ HR L3 L4 L5 Esp Hv0 Hv1 Hw Hf)).
  destruct (run_loads (λ a, pa ≤ a < pa + 256) sp kv_rest [Addi sp sp 256; Sret] s2' va pa 256) as (s3' & E3 & [N1 N2 N3 N4 N5]);
    [unfold s2'; rewrite rget_eq by done; apply u64_id; lia|done|lia|cbn; by rewrite L3|
     eapply window_keep; [exact HR|done|cbn; by rewrite L4|cbn; by rewrite L3]|apply kv_words|apply kv_nodup|apply kv_nodup|].
  rewrite E3. set (s4' := rset sp (rget s3' sp + 256) s3'). rewrite (run_step _ _ s3' s4') by done. exists s4'.
  assert (rget s3' sp = va) as Esp3 by (rewrite N2 by apply kv_nodup; unfold s2'; rewrite rget_eq by done; apply u64_id; lia).
  split; [done|]. split; [cbn; rewrite N3; cbn; by rewrite L3|]. split; [cbn; rewrite N4; cbn; by rewrite L4|].
  intros r. unfold s4'. rewrite rget_rset, Esp3 by done. destruct (decide (r = sp)) as [->|Hrs]; [rewrite u64_id by lia; by rewrite decide_False|].
  destruct (decide (r = tp)) as [->|Ht]; [rewrite N2 by (by apply (bool_decide_unpack _)); unfold s2'; by rewrite rget_ne, L2 by (done || by apply (bool_decide_unpack _))|].
  destruct (decide (r = zero)) as [->|Hr0]; [done|]. destruct (kv_cases r Hr0 Ht) as [->|[->|(o & H1 & H2)]]; [|done|].
  - rewrite N2 by (by apply (bool_decide_unpack _)). unfold s2'. rewrite rget_ne by done. rewrite (L1 ra 0) by (by left). apply Hw. by left.
  - rewrite (N1 r o H1). cbn. rewrite L3. by apply Hw.
Qed.

(** What a C function keeps of its caller: the stack pointer, and the part of the stack the caller uses, here the 256 bytes
    at [va], [pa] in memory. *)
Record c_returns (va pa : Z) (s s' : mach) : Prop := {
  cr_sp : rget s' sp = rget s sp;
  cr_stack a : pa ≤ a < pa + 256 → rd (x_mem s') a = rd (x_mem s) a;
  cr_rd : window (λ a, pa ≤ a < pa + 256) s' PTE_R va pa 256;
  cr_mem : mem_ok (x_mem s');
}.

(** C14. An interrupt in the kernel is transparent. [kernelvec] saves the registers in 256 bytes below the stack
    pointer and calls [kerneltrap]; when that returns as C functions do, with the stack pointer and the saved bytes
    intact, [kernelvec] returns to the interrupted code with every register as it was but [tp], which keeps the number of
    the hart the code now runs on, as [kerneltrap] may have yielded and been resumed elsewhere; memory is as
    [kerneltrap] left it. *)
Theorem kernelvec_spec s pa :
  let va := rget s sp - 256 in
  0 ≤ va → regs_ok s → window (λ a, pa ≤ a < pa + 256) s PTE_W va pa 256 →
  ∃ s1, run kernelvec s = Some (E_call "kerneltrap", s1, kv_exit) ∧ rget s1 sp = va ∧
    agree_off (λ a, pa ≤ a < pa + 256) (x_mem s) (x_mem s1) ∧ (mem_ok (x_mem s) → mem_ok (x_mem s1)) ∧ x_csrs s1 = x_csrs s ∧
    ∀ s2, c_returns va pa s1 s2 →
      ∃ s3, run kv_exit s2 = Some (E_sret, s3, []) ∧ x_mem s3 = x_mem s2 ∧ x_csrs s3 = x_csrs s2 ∧
        ∀ r, rget s3 r = if decide (r = tp) then rget s2 tp else rget s r.
Proof.
  intros va Hva Hok HW. pose proof (rget_range s sp Hok) as Hsp. rewrite kernelvec_split.
  set (s1' := rset sp (rget s sp + -256) s). rewrite (run_step _ _ _ s1') by done.
  assert (rget s1' sp = va) as Esp by (unfold s1'; rewrite rget_eq by done; unfold va; rewrite u64_id; lia).
  assert (∀ r, r ≠ sp → rget s1' r = rget s r) as Eo by (intros r Hr; unfold s1'; by rewrite rget_ne).
  rewrite (run_saves (λ a, pa ≤ a < pa + 256) sp kv_tbl _ s1' va pa 256) by (done || lia || apply kv_words).
  set (m1 := stored (x_mem s1') pa (rget s1') kv_tbl). exists (set_mem m1 s1'). split; [done|]. split; [done|].
  split; [by eapply agree_stored; [|apply kv_words]|]. split; [apply mem_ok_stored|]. split; [done|]. intros s2' [C1 C2 C3 C4].
  assert (∀ r o, (r, o) ∈ kv_tbl → load64 (x_mem s2') (pa + o) = rget s1' r) as Hw.
  { intros r o Hin. destruct kv_words as [HK _]. rewrite <- (stored_at 256 (x_mem s1') pa (rget s1') kv_tbl r o) by (done || intros; by apply rget_range, regs_ok_rset).
    destruct HK as [HF _]. rewrite Forall_forall in HF. destruct (HF _ Hin) as (_ & H1 & H2 & _). cbn in H1, H2. 
    apply load64_ext. intros a Ha. apply C2. lia. }
  destruct (kv_exit_ok s2' va pa (rget s1')) as (s3' & E3 & M3 & S3 & R3); [by rewrite C1|done|unfold va; lia|done|done|done|done|done|].
  exists s3'. split; [done|]. split; [done|]. split; [done|]. intros r. rewrite R3.
  destruct (decide (r = tp)); [done|]. case_decide as Hs; [subst r; unfold va; lia|]. by apply Eo.
Qed.

(** ** Two threads and a stack *)

Definition thread (m : mem) (cur next : Z) : mach :=
  Mach (λ r, if decide (r = a0) then cur else if decide (r = a1) then next else if decide (r = sp) then 0x80003000 else reg_num r)
    (λ _, 0) Supervisor m.
Definition CTX1 : Z := 0x80001000.
Definition CTX2 : Z := 0x80002000.
Lemma thread_ok m cur next : 0 ≤ cur < 2 ^ 64 → 0 ≤ next < 2 ^ 64 → regs_ok (thread m cur next).
Proof. intros H1 H2. split; [|done]. intros r. cbn. repeat case_decide; [done..|]. by destruct r. Qed.
Lemma thread_switching m cur next : mem_ok m → cur = CTX1 ∧ next = CTX2 ∨ cur = CTX2 ∧ next = CTX1 → switching (thread m cur next) cur next.
Proof.
  intros Hm H. assert (0 ≤ cur ∧ cur + sizeof_context ≤ 2 ^ 64 ∧ 0 ≤ next ∧ next + sizeof_context ≤ 2 ^ 64 ∧
    (cur + sizeof_context ≤ next ∨ next + sizeof_context ≤ cur)) as (H1 & H2 & H3 & H4 & H5).
  { unfold CTX1, CTX2, sizeof_context in *. lia. }
  split; [done|done|done|by apply window_bare|by apply window_bare|done|]. unfold sizeof_context in *. apply thread_ok; lia.
Qed.
Lemma swtch_resumes_witness : ∃ s1 s3, run swtch (thread ∅ CTX1 CTX2) = Some (E_jump 0, s1, []) ∧
  run swtch (thread (x_mem s1) CTX2 CTX1) = Some (E_jump 1, s3, []) ∧ rget s3 sp = 0x80003000 ∧ rget s3 s11 = 27.
Proof.
  destruct (swtch_resumes (thread ∅ CTX1 CTX2) CTX1 CTX2 (thread_switching ∅ CTX1 CTX2 mem_ok_empty (or_introl (conj eq_refl eq_refl))))
    as (s1' & E1 & D1 & H).
  destruct (H (thread (x_mem s1') CTX2 CTX1) CTX2) as (s3' & E3 & _ & R3).
  - apply thread_switching; [exact (sd_ok _ _ _ _ D1)|]. right. split; reflexivity.
  - exact (sd_saved _ _ _ _ D1).
  - exists s1', s3'. split; [exact E1|]. split; [exact E3|].
    split; [apply (R3 sp)|apply (R3 s11)]; apply (bool_decide_unpack _); vm_compute; exact I.
Defined.
Lemma kernelvec_spec_witness : ∃ s1 s3, run kernelvec (thread ∅ 5 6) = Some (E_call "kerneltrap", s1, kv_exit) ∧
  run kv_exit s1 = Some (E_sret, s3, []) ∧ rget s3 a0 = 5 ∧ rget s3 sp = 0x80003000.
Proof.
  destruct (kernelvec_spec (thread ∅ 5 6) 0x80002F00) as (s1' & E1 & Hs & _ & Hm & Hc & H).
  - vm_compute. discriminate.
  - apply thread_ok; lia.
  - apply (window_bare _ _ _ 0x80002F00). reflexivity.
  - destruct (H s1') as (s3' & E3 & _ & _ & R3).
    + split; [reflexivity|reflexivity|..].
      * apply (window_bare _ _ _ 0x80002F00). rewrite Hc. reflexivity.
      * exact (Hm mem_ok_empty).
    + exists s1', s3'. split; [exact E1|]. split; [exact E3|]. split; [exact (R3 a0)|exact (R3 sp)].
Defined.
