(* ===== verification/Boot.v ===== *)
(** * Starting a hart, and its clock

    [kernel/entry.S] and [kernel/start.c], in machine mode, up to the [mret]
    that enters [main]; [timervec] of [kernel/kernelvec.S], which the code of
    [start.c] arms; and the set-up of the interrupt controller in
    [kernel/plic.c].  Device registers are memory. *)

From stdpp Require Import options.
From S2P Require Import Prelude CString State Vm Trap Riscv Asm.
#[local] Open Scope Z_scope.

(** ** start.c *)

Definition NCPU : Z := 8.
Definition MSTATUS_MPP_MASK : Z := Z.shiftl 3 11.
Definition MSTATUS_MPP_S : Z := Z.shiftl 1 11.
Definition MSTATUS_MIE : Z := Z.shiftl 1 3.
Definition SIE_SEIE : Z := Z.shiftl 1 9.
Definition SIE_STIE : Z := Z.shiftl 1 5.
Definition SIE_SSIE : Z := Z.shiftl 1 1.
Definition MIE_MTIE : Z := Z.shiftl 1 7.
Definition CLINT : Z := 0x2000000.
Definition CLINT_MTIMECMP (hartid : Z) : Z := CLINT + 0x4000 + 8 * hartid.
Definition CLINT_MTIME : Z := CLINT + 0xBFF8.

(** Addresses the linker chooses. *)
Record image := Image {
  im_stack0 : Z;
  im_main : Z;
  im_timervec : Z;
  im_timer_scratch : Z;
}.

Definition put64 (a v : Z) (s : mach) : mach := set_mem (store64 (x_mem s) a v) s.
Definition r_mhartid (s : mach) : Z := x_csrs s mhartid.

Definition interval : Z := 1000000.
Definition timerinit (im : image) (s : mach) : mach :=
  let id := i32 (r_mhartid s) in
  let s := put64 (CLINT_MTIMECMP id) (u64 (load64 (x_mem s) CLINT_MTIME + interval)) s in
  let scratch := im_timer_scratch im + 40 * id in
  let s := put64 (scratch + 24) (CLINT_MTIMECMP id) s in
  let s := put64 (scratch + 32) interval s in
  let s := cset mscratch scratch s in
  let s := cset mtvec (im_timervec im) s in
  let s := cset mstatus (Z.lor (x_csrs s mstatus) MSTATUS_MIE) s in
  cset mie (Z.lor (x_csrs s mie) MIE_MTIE) s.

(** [mret] enters the mode in the field [MPP] of [mstatus] at [mepc]; [MIE]
    becomes [MPIE], [MPIE] 1, [MPP] user mode and, out of machine mode, [MPRV] 0. *)
Definition mret_mpp (x : Z) : Z := Z.land (Z.shiftr x 11) 3.
Definition mret_mstatus (x : Z) : Z :=
  let y := if Z.testbit x 7 then Z.setbit x 3 else Z.clearbit x 3 in
  let y := Z.clearbit (Z.clearbit (Z.setbit y 7) 11) 12 in
  if mret_mpp x =? 3 then y else Z.clearbit y 17.
Definition do_mret (s : mach) : Z * mach :=
  let x := x_csrs s mstatus in
  let p := if mret_mpp x =? 3 then Machine else if mret_mpp x =? 1 then Supervisor else User in
  (x_csrs s mepc, set_priv p (cset mstatus (mret_mstatus x) s)).

(** [start] up to the call of [timerinit]. *)
Definition start_csr (im : image) (s : mach) : mach :=
  let x := x_csrs s mstatus in
  let x := Z.land x (u64 (Z.lnot MSTATUS_MPP_MASK)) in
  let x := Z.lor x MSTATUS_MPP_S in
  let s := cset mstatus x s in
  let s := cset mepc (im_main im) s in
  let s := cset satp 0 s in
  let s := cset medeleg 0xffff s in
  let s := cset mideleg 0xffff s in
  let s := cset sie (Z.lor (Z.lor (Z.lor (x_csrs s sie) SIE_SEIE) SIE_STIE) SIE_SSIE) s in
  let s := cset pmpaddr0 0x3fffffffffffff s in
  cset pmpcfg0 0xf s.
(** [junk] is what the compiled code leaves in the registers. *)
Definition start (im : image) (junk : reg → Z) (s : mach) : Z * mach :=
  let s := start_csr im s in
  let s := timerinit im s in
  let id := i32 (r_mhartid s) in
  let s := rset tp id (set_regs (λ r, u64 (junk r)) s) in
  do_mret s.

(** ** plic.c *)

Definition PLIC_SENABLE (hart : Z) : Z := PLIC + 0x2080 + hart * 0x100.
Definition PLIC_SPRIORITY (hart : Z) : Z := PLIC + 0x201000 + hart * 0x2000.
Definition PLIC_SCLAIM (hart : Z) : Z := PLIC + 0x201004 + hart * 0x2000.

Definition put32 (a v : Z) (s : mach) : mach := set_mem (wr_bytes (x_mem s) a (le_bytes 4 v)) s.
Definition load32 (m : mem) (a : Z) : Z := le_val (rd_bytes m a 4).
Definition cpuid (s : mach) : Z := i32 (rget s tp).

Definition plicinit (s : mach) : mach :=
  let s := put32 (PLIC + UART0_IRQ * 4) 1 s in
  put32 (PLIC + VIRTIO0_IRQ * 4) 1 s.
Definition plicinithart (s : mach) : mach :=
  let hart := cpuid s in
  let s := put32 (PLIC_SENABLE hart) (Z.lor (Z.shiftl 1 UART0_IRQ) (Z.shiftl 1 VIRTIO0_IRQ)) s in
  put32 (PLIC_SPRIORITY hart) 0 s.
Definition plic_claim (s : mach) : Z :=
  let hart := cpuid s in
  i32 (load32 (x_mem s) (PLIC_SCLAIM hart)).
Definition plic_complete (irq : Z) (s : mach) : mach :=
  let hart := cpuid s in
  put32 (PLIC_SCLAIM hart) irq s.

(** ** The timer interrupt *)

Definition tv_save : list (reg * Z) := [(a1, 0); (a2, 8); (a3, 16)].
Definition tv_load : list (reg * Z) := [(a3, 16); (a2, 8); (a1, 0)].
Lemma timervec_split : timervec = Csrrw a0 mscratch a0 :: saves a0 tv_save ++ loads a0 [(a1, 24); (a2, 32)] ++ loads a1 [(a3, 0)] ++
  Add a3 a3 a2 :: saves a1 [(a3, 0)] ++ Li a1 2 :: Csrw sip a1 :: loads a0 tv_load ++ [Csrrw a0 mscratch a0; Mret].
Proof. reflexivity. Qed.

(** The handler is armed: [mscratch] is the scratch area at [b], whose word 3 is the address of the compare register
    [c] and word 4 the interval [iv]. *)
Record armed (s : mach) (b c iv : Z) : Prop := {
  ar_priv : x_priv s = Machine;
  ar_scratch : x_csrs s mscratch = b ∧ 0 ≤ b ∧ b + 40 ≤ 2 ^ 64;
  ar_cmp : load64 (x_mem s) (b + 24) = c ∧ c + 8 ≤ 2 ^ 64;
  ar_iv : load64 (x_mem s) (b + 32) = iv;
  ar_apart : b + 40 ≤ c ∨ c + 8 ≤ b;
  ar_mem : mem_ok (x_mem s);
  ar_ok : regs_ok s;
}.
Definition handler_mem (b c a : Z) : Prop := b ≤ a < b + 24 ∨ c ≤ a < c + 8.
(** One timer interrupt. *)
Record ticked (b c iv : Z) (s s' : mach) : Prop := {
  tk_regs r : rget s' r = rget s r;
  tk_cmp : load64 (x_mem s') c = u64 (load64 (x_mem s) c + iv);
  tk_sip i : 0 ≤ i < 64 → Z.testbit (x_csrs s' sip) i = (i =? 1) || Z.testbit (x_csrs s sip) i;
  tk_csrs k : k ≠ sip → x_csrs s' k = x_csrs s k;
  tk_mem : agree_off (handler_mem b c) (x_mem s) (x_mem s');
  tk_priv : x_priv s' = x_priv s;
  tk_ok : mem_ok (x_mem s');
}.

Lemma tv_words : words_in 40 tv_save ∧ words_in 40 tv_load ∧ words_in 40 [(a1, 24); (a2, 32)] ∧ words_in 8 [(a3, 0)].
Proof. split_and!; split; apply (bool_decide_unpack _); by vm_compute. Qed.
(** Loads in machine mode. *)
Lemma run_loads_m base tbl code s n : x_priv s = Machine → 0 ≤ rget s base → rget s base + n ≤ 2 ^ 64 → mem_ok (x_mem s) →
  words_in n tbl → bool_decide (NoDup (tbl.*1) ∧ base ∉ tbl.*1) = true →
  ∃ s', run (loads base tbl ++ code) s = run code s' ∧ loaded_from tbl (rget s base) s s'.
Proof.
  intros Hp H0 H1 Hm Hw [HN Hb]%bool_decide_eq_true.
  by apply (run_loads (λ _, True) base tbl code s (rget s base) (rget s base) n); [| | | |apply window_machine|..].
Qed.
Lemma run_saves_m base tbl code s n : x_priv s = Machine → 0 ≤ rget s base → rget s base + n ≤ 2 ^ 64 → words_in n tbl →
  run (saves base tbl ++ code) s = run code (set_mem (stored (x_mem s) (rget s base) (rget s) tbl) s).
Proof. intros Hp H0 H1 Hw. by apply (run_saves (λ _, True) base tbl code s (rget s base) (rget s base) n); [..|apply window_machine|]. Qed.

(** The registers the handler uses are in the scratch area. *)
Record tv_entered (s s' : mach) (b c iv : Z) : Prop := {
  te_a0 : rget s' a0 = b;
  te_a1 : rget s' a1 = c;
  te_a2 : rget s' a2 = iv;
  te_a3 : rget s' a3 = load64 (x_mem s) c;
  te_regs r : r ∉ [a0; a1; a2; a3] → rget s' r = rget s r;
  te_saved r o : (r, o) ∈ tv_save → load64 (x_mem s') (b + o) = rget s r;
  te_csrs k : x_csrs s' k = if decide (k = mscratch) then rget s a0 else x_csrs s k;
  te_mem : agree_off (λ a, b ≤ a < b + 24) (x_mem s) (x_mem s');
  te_priv : x_priv s' = Machine;
  te_ok : mem_ok (x_mem s');
}.
Definition tv_tail : list instr := Li a1 2 :: Csrw sip a1 :: loads a0 tv_load ++ [Csrrw a0 mscratch a0; Mret].
Definition tv_next : list instr := Add a3 a3 a2 :: saves a1 [(a3, 0)] ++ tv_tail.
Lemma timervec_enter s b c iv : armed s b c iv → ∃ s', run timervec s = run tv_next s' ∧ tv_entered s s' b c iv.
Proof.
  intros [Hp (Hb & Hb0 & Hb1) (Hc & Hc1) Hiv Hap Hm Hok]. destruct tv_words as (W1 & W2 & W3 & W4). rewrite timervec_split.
  set (z1 := rset a0 b (cset mscratch (rget s a0) s)). rewrite (run_step _ _ _ z1) by (done || by cbn [exec1]; rewrite Hb).
  assert (rget z1 a0 = b) as Ha0 by (unfold z1; rewrite rget_eq by done; apply u64_id; lia).
  assert (∀ r, r ≠ a0 → rget z1 r = rget s r) as Ho by (intros r Hr; unfold z1; by rewrite rget_ne).
  rewrite (run_saves_m a0 tv_save _ z1 40) by (done || (rewrite ?Ha0; lia)). rewrite Ha0. set (m1 := stored (x_mem z1) b (rget z1) tv_save).
  assert (mem_ok m1) as Hm1 by (by apply mem_ok_stored). set (z2 := set_mem m1 z1).
  assert (∀ x, b + 24 ≤ x ∨ x + 8 ≤ b → load64 m1 x = load64 (x_mem s) x) as Hkeep.
  { intros x Hx. apply stored_other. unfold tv_save. rewrite !Forall_cons. cbn. split_and!; [lia..|done]. }
  destruct (run_loads_m a0 [(a1, 24); (a2, 32)] (loads a1 [(a3, 0)] ++ tv_next) z2 40) as (z3 & E3 & [L1 L2 L3 L4 L5]);
    [done|change (rget z2 a0) with (rget z1 a0); lia|change (rget z2 a0) with (rget z1 a0); lia|done|done|done|].
  change (rget z2 a0) with (rget z1 a0) in L1. rewrite Ha0 in L1. change (x_mem z2) with m1 in L1, L3.
  assert (rget z3 a1 = c ∧ rget z3 a2 = iv) as [Ea1 Ea2].
  { rewrite (L1 a1 24), (L1 a2 32), !Hkeep by (lia || (by left) || (right; by left)). done. }
  destruct (run_loads_m a1 [(a3, 0)] tv_next z3 8) as (z4 & E4 & [N1 N2 N3 N4 N5]);
    [by rewrite L5|rewrite Ea1, <- Hc; by apply load64_range|by rewrite Ea1|by rewrite L3|done|done|].
  rewrite Ea1, L3 in N1. exists z4. split; [by rewrite <- E4, <- E3|]. rewrite L3 in N3.
  assert (∀ r, r ∉ [a1; a2; a3] → rget z4 r = rget z1 r) as Hz4.
  { intros r Hr. rewrite !not_elem_of_cons in Hr. rewrite N2, L2; [done|cbn; rewrite !not_elem_of_cons; tauto..]. }
  split; try done.
  - by rewrite Hz4 by (by apply (bool_decide_unpack _)).
  - by rewrite N2 by (by apply (bool_decide_unpack _)).
  - by rewrite N2 by (by apply (bool_decide_unpack _)).
  - rewrite (N1 a3 0), Z.add_0_r by (by left). apply Hkeep. lia.
  - intros r Hr. rewrite !not_elem_of_cons in Hr. rewrite Hz4, Ho; [done|tauto|rewrite !not_elem_of_cons; tauto].
  - intros r o Hin. rewrite N3. unfold m1. rewrite (stored_at 40 _ _ _ tv_save r o) by (done || intros; by apply rget_range, regs_ok_rset, regs_ok_cset).
    apply Ho. clear - Hin. set_solver.
  - intros k. rewrite N4, L4. change (x_csrs z2 k) with (x_csrs (cset mscratch (rget s a0) s) k).
    case_decide as Hk; [subst k; rewrite cget_eq by done; by apply u64_id, rget_range|by apply cget_ne].
  - rewrite N3. apply (agree_stored _ b 24); [done|]. unfold tv_save. rewrite !Forall_cons. cbn. split_and!; lia || done.
  - by rewrite N5, L5.
  - by rewrite N3.
Qed.
Lemma tv_tables r o : (r, o) ∈ tv_load → (r, o) ∈ tv_save ∧ 0 ≤ o ≤ 16.
Proof.
  intros H. unfold tv_load in H. rewrite !elem_of_cons in H. destruct H as [[= -> ->]|[[= -> ->]|[[= -> ->]|[]%elem_of_nil]]];
    (split; [by apply (bool_decide_unpack _)|lia]).
Qed.
Lemma tv_others r : r ∉ tv_load.*1 → r ≠ a1 ∧ r ≠ a2 ∧ r ≠ a3.
Proof. intros H. cbn in H. rewrite !not_elem_of_cons in H. tauto. Qed.
Lemma sip_raised i v : 0 ≤ i < 64 → Z.testbit (u64 (csr_write sip v 2)) i = (i =? 1) || Z.testbit v i.
Proof.
  intros Hi. unfold u64, csr_write. rewrite Z.mod_pow2_bits_low, decide_True by (lia || done). change (Z.land 2 2) with (2 ^ 1).
  rewrite Z.lor_spec, Z.ldiff_spec. change 2 with (2 ^ 1) at 1. rewrite Z.pow2_bits_eqb by lia.
  rewrite (Z.eqb_sym 1 i). by destruct (i =? 1), (Z.testbit v i).
Qed.
Lemma cget_sip v s : x_csrs (cset sip v s) sip = u64 (csr_write sip (x_csrs s sip) v).
Proof. unfold cset. cbn [x_csrs set_csrs]. by rewrite decide_True. Qed.
Lemma timervec_ok s b c iv : armed s b c iv → ∃ s', run timervec s = Some (E_mret, s', []) ∧ ticked b c iv s s'.
Proof.
  intros HA. destruct (timervec_enter s b c iv HA) as (z1 & E1 & [T1 T2 T3 T4 T5 T6 T7 T8 T9 T10]).
  destruct HA as [Hp (Hb & Hb0 & Hb1) (Hc & Hc1) Hiv Hap Hm Hok]. destruct tv_words as (W1 & W2 & W3 & W4).
  assert (0 ≤ c) as Hc0 by (rewrite <- Hc; by apply load64_range). rewrite E1. unfold tv_next. set (v := load64 (x_mem s) c + iv).
  set (z2 := rset a3 v z1). rewrite (run_step _ _ _ z2) by (done || by cbn [exec1]; rewrite T3, T4).
  rewrite (run_saves_m a1 [(a3, 0)] _ z2 8) by (done || (unfold z2; rewrite rget_ne, T2 by done; lia)).
  assert (rget z2 a1 = c) as -> by (unfold z2; by rewrite rget_ne). cbn [stored fst snd]. rewrite Z.add_0_r.
  assert (rget z2 a3 = u64 v) as -> by (unfold z2; by rewrite rget_eq). change (x_mem z2) with (x_mem z1).
  set (m2 := store64 (x_mem z1) c (u64 v)). set (z3 := set_mem m2 z2). set (z4 := cset sip 2 (rset a1 2 z3)).
  unfold tv_tail. rewrite (run_step _ _ z3 (rset a1 2 z3)), (run_step _ _ _ z4) by (done || by cbn [exec1]; rewrite rget_eq).
  assert (rget z4 a0 = b) as Hz4 by (change (rget z4 a0) with (rget (rset a1 2 (set_mem m2 (rset a3 v z1))) a0); by rewrite !rget_ne).
  destruct (run_loads_m a0 tv_load [Csrrw a0 mscratch a0; Mret] z4 40) as (z5 & E5 & [N1 N2 N3 N4 N5]);
    [done|lia|lia|by apply mem_ok_store64|done|done|]. rewrite Hz4 in N1. change (x_mem z4) with m2 in N1, N3.
  rewrite E5. set (z6 := rset a0 (x_csrs z5 mscratch) (cset mscratch (rget z5 a0) z5)). rewrite (run_step _ _ _ z6) by done.
  exists z6. split; [done|]. assert (∀ k, k ≠ sip → x_csrs z5 k = x_csrs z1 k) as Hk by (intros k Hk; rewrite N4; unfold z4; by rewrite cget_ne).
  assert (rget z5 a0 = b) as Hz5 by (by rewrite N2 by (by apply (bool_decide_unpack _))).
  assert (x_mem z6 = m2) as Hm6 by (change (x_mem z6) with (x_mem z5); by rewrite N3). split.
  - intros r. destruct (decide (r = a0)) as [->|Hr].
    + unfold z6. rewrite rget_eq, Hk, T7 by done. by apply u64_id, rget_range.
    + unfold z6. rewrite rget_ne by done. change (rget (cset mscratch (rget z5 a0) z5) r) with (rget z5 r).
      destruct (decide (r ∈ tv_load.*1)) as [[[r' o] [-> Hin]]%list_elem_of_fmap|Hn].
      * cbn [fst]. rewrite (N1 r' o Hin). unfold m2. rewrite load64_store64_ne; [by apply T6, tv_tables|]. apply tv_tables in Hin as [_ ?]. lia.
      * rewrite N2 by done. apply tv_others in Hn as (H1 & H2 & H3). change (rget z4 r) with (rget (rset a1 2 (set_mem m2 (rset a3 v z1))) r).
        rewrite !rget_ne by done. change (rget (set_mem m2 (rset a3 v z1)) r) with (rget (rset a3 v z1) r). rewrite rget_ne by done.
        apply T5. rewrite !not_elem_of_cons. by repeat split; [..|apply not_elem_of_nil].
  - rewrite Hm6. apply load64_store64, u64_range.
  - intros i Hi. change (x_csrs z6 sip) with (x_csrs z5 sip). rewrite N4. unfold z4.
    rewrite cget_sip, sip_raised by done. change (x_csrs (rset a1 2 z3) sip) with (x_csrs z1 sip). by rewrite T7.
  - intros k Hks. unfold z6. change (x_csrs (rset a0 _ ?x) k) with (x_csrs x k). destruct (decide (k = mscratch)) as [->|Hkm].
    + rewrite cget_eq, Hz5, Hb by done. apply u64_id. lia.
    + rewrite cget_ne, Hk, T7 by done. by rewrite decide_False.
  - rewrite Hm6. eapply agree_trans; [intros a Ha; apply T8; unfold handler_mem in Ha; lia|]. intros a Ha. apply rd_store64_out. unfold handler_mem in Ha. lia.
  - change (x_priv z6) with (x_priv z5). by rewrite N5, Hp.
  - rewrite Hm6. by apply mem_ok_store64.
Qed.

(** ** The clock of a hart *)

(** Between two timer interrupts nobody touches what the handler keeps. *)
Record undisturbed (b c : Z) (s s' : mach) : Prop := {
  ud_priv : x_priv s' = Machine;
  ud_scratch : x_csrs s' mscratch = x_csrs s mscratch;
  ud_words a : a = b + 24 ∨ a = b + 32 ∨ a = c → load64 (x_mem s') a = load64 (x_mem s) a;
  ud_mem : mem_ok (x_mem s');
  ud_ok : regs_ok s';
}.
(** [n] timer interrupts, and whatever the hart does in between. *)
Inductive ticks (b c : Z) : nat → mach → mach → Prop :=
| ticks_none s s' : undisturbed b c s s' → ticks b c 0 s s'
| ticks_one n s s1 s2 s3 : ticks b c n s s1 → run timervec s1 = Some (E_mret, s2, []) → undisturbed b c s2 s3 → ticks b c (S n) s s3.

Lemma undisturbed_armed b c iv s s' :
  armed (set_priv Machine s) b c iv → undisturbed b c s s' → armed s' b c iv.
Proof.
  intros [A1 A2 A3 A4 A5 A6 A7] [U1 U2 U3 U4 U5]. cbn in *. split; try done.
  - by rewrite U2.
  - by rewrite U3 by auto.
  - by rewrite U3 by auto.
Qed.
Lemma ticked_armed b c iv s s' : armed s b c iv → ticked b c iv s s' →
  (∀ a, a = b + 24 ∨ a = b + 32 → load64 (x_mem s') a = load64 (x_mem s) a) ∧ x_csrs s' mscratch = b.
Proof.
  intros [A1 A2 A3 A4 A5 A6 A7] [T1 T2 T3 T4 T5 T6 T7]. split; [|rewrite T4 by done; apply A2].
  intros a Ha. apply load64_ext. intros x Hx. apply T5. unfold handler_mem. lia.
Qed.
Lemma ticks_armed b c iv n s s' : armed (set_priv Machine s) b c iv → ticks b c n s s' →
  armed s' b c iv ∧ load64 (x_mem s') c = u64 (load64 (x_mem s) c + Z.of_nat n * iv).
Proof.
  intros HA HT. induction HT as [s s' HU|n s s1 s2 s3 HT IH E HU].
  - split; [by eapply undisturbed_armed|]. rewrite (ud_words _ _ _ _ HU) by auto. rewrite Z.add_0_r. symmetry.
    apply u64_id, load64_range, HA.
  - destruct (IH HA) as [A1 E1]. destruct (timervec_ok s1 b c iv A1) as (s2' & E2 & HK). rewrite E2 in E. injection E as ->.
    destruct (ticked_armed _ _ _ _ _ A1 HK) as [Hw Hs]. pose proof A1 as [B1 B2 B3 B4 B5 B6 B7]. pose proof HU as [U1 U2 U3 U4 U5]. split.
    + split; try done.
      * rewrite U2, Hs. split; [done|apply B2].
      * by rewrite U3, Hw by auto.
      * by rewrite U3, Hw by auto.
    + rewrite U3 by auto. rewrite (tk_cmp _ _ _ _ _ HK), E1. unfold u64. rewrite Zplus_mod_idemp_l. f_equal. lia.
Qed.

(** C31. The clock. Once [mscratch] points to a scratch area that names the compare register of the hart and the
    interval, as [start] leaves it, then after any number of timer interrupts, with anything in between that leaves
    these words alone, the compare register is that many intervals further, modulo the size of the register, and [timervec] is
    ready for the next one: it runs to its [mret], advances the compare register once more, raises the
    software interrupt [devintr] looks for, and gives the interrupted code back all its registers, every other control
    register, and its memory but for the first three words of the scratch area. *)
Theorem timer_spec b c iv n s s' :
  armed (set_priv Machine s) b c iv → ticks b c n s s' →
  load64 (x_mem s') c = u64 (load64 (x_mem s) c + Z.of_nat n * iv) ∧
  ∃ s'', run timervec s' = Some (E_mret, s'', []) ∧ ticked b c iv s' s''.
Proof.
  intros HA HT. destruct (ticks_armed b c iv n s s' HA HT) as [A E]. split; [exact E|]. by apply timervec_ok.
Qed.

(** ** Reset to main *)

Record image_ok (im : image) : Prop := {
  io_stack : 0 ≤ im_stack0 im ∧ im_stack0 im + 4096 * NCPU < 2 ^ 64;
  io_main : 0 ≤ im_main im < 2 ^ 64;
  io_timervec : 0 ≤ im_timervec im < 2 ^ 64;
  io_scratch : KERNBASE ≤ im_timer_scratch im ∧ im_timer_scratch im + 40 * NCPU ≤ 2 ^ 64;
}.
Lemma entry_run im s : image_ok im → 0 ≤ r_mhartid s < NCPU →
  ∃ s', run (entry (im_stack0 im)) s = Some (E_call "start", s', []) ∧ rget s' sp = im_stack0 im + 4096 * (r_mhartid s + 1) ∧
    x_csrs s' = x_csrs s ∧ x_mem s' = x_mem s ∧ x_priv s' = x_priv s ∧ (regs_ok s → regs_ok s').
Proof.
  intros [[H1 H2] _ _ _] Hh. unfold NCPU in *. eexists. split; [reflexivity|]. split_and!; try done.
  - rewrite rget_eq by done. repeat (rewrite rget_ne by done). rewrite !rget_eq by done. repeat (rewrite rget_ne by done). rewrite !rget_eq by done.
    change (x_csrs _ mhartid) with (r_mhartid s). set (h := r_mhartid s) in *. rewrite (u64_id (1024 * 4)), (u64_id (im_stack0 im)), (u64_id h) by lia.
    rewrite (u64_id (h + 1)), (u64_id (1024 * 4 * (h + 1))), u64_id by lia. lia.
  - intros Hr. repeat apply regs_ok_rset. done.
Qed.

Lemma u64_testbit v i : 0 ≤ i < 64 → Z.testbit (u64 v) i = Z.testbit v i.
Proof. intros Hi. unfold u64. apply Z.mod_pow2_bits_low. lia. Qed.
Lemma mpp_supervisor v : Z.testbit v 11 = true → Z.testbit v 12 = false → mret_mpp v = 1.
Proof.
  intros H1 H2. unfold mret_mpp. change 3 with (Z.ones 2). apply Z.bits_inj'. intros i Hi. rewrite Z.land_spec, Z.shiftr_spec by done.
  destruct (decide (i = 0)) as [->|]; [change (0 + 11) with 11; by rewrite H1|]. destruct (decide (i = 1)) as [->|]; [change (1 + 11) with 12; by rewrite H2|].
  rewrite Z.ones_spec_high, andb_false_r by lia. symmetry. change 1 with (2 ^ 0). apply Z.pow2_bits_false. lia.
Qed.
(** The [mstatus] with which [start] executes [mret]. *)
Definition start_mstatus (x : Z) : Z :=
  u64 (Z.lor (u64 (Z.lor (Z.land x (u64 (Z.lnot MSTATUS_MPP_MASK))) MSTATUS_MPP_S)) MSTATUS_MIE).
Lemma start_mpp x : mret_mpp (start_mstatus x) = 1 ∧ Z.testbit (start_mstatus x) 7 = Z.testbit x 7.
Proof.
  split; [apply mpp_supervisor|]; unfold start_mstatus; rewrite !u64_testbit, !Z.lor_spec, ?u64_testbit, ?Z.lor_spec, ?Z.land_spec by lia.
  - change (Z.testbit MSTATUS_MPP_S 11) with true. by rewrite orb_true_r.
  - change (Z.testbit (u64 (Z.lnot MSTATUS_MPP_MASK)) 12) with false. by rewrite andb_false_r.
  - change (Z.testbit (u64 (Z.lnot MSTATUS_MPP_MASK)) 7) with true. change (Z.testbit MSTATUS_MPP_S 7) with false.
    change (Z.testbit MSTATUS_MIE 7) with false. by rewrite andb_true_r, !orb_false_r.
Qed.
Lemma mret_mstatus_bits x : mret_mpp x = 1 →
  let y := u64 (mret_mstatus x) in
  Z.testbit y 3 = Z.testbit x 7 ∧ Z.testbit y 7 = true ∧ Z.testbit y 11 = false ∧ Z.testbit y 12 = false.
Proof.
  intros Hm y. unfold y, mret_mstatus. rewrite Hm. cbn [Z.eqb Pos.eqb]. rewrite !u64_testbit by lia.
  destruct (Z.testbit x 7); repeat first [rewrite Z.clearbit_eqb by lia|rewrite Z.setbit_eqb by lia]; simpl;
    by rewrite ?andb_true_r, ?andb_false_r, ?orb_true_r.
Qed.

(** The hart as [start] hands it to [main]. *)
Record started (im : image) (s : mach) (pc : Z) (s' : mach) : Prop := {
  st_pc : pc = im_main im;
  st_priv : x_priv s' = Supervisor;
  st_satp : x_csrs s' satp = 0;
  st_tp : rget s' tp = r_mhartid s;
  st_deleg : x_csrs s' medeleg = 0xffff ∧ x_csrs s' mideleg = 0x222;
  st_sie : Z.testbit (x_csrs s' sie) 9 = true ∧ Z.testbit (x_csrs s' sie) 5 = true ∧ Z.testbit (x_csrs s' sie) 1 = true;
  st_mtvec : x_csrs s' mtvec = im_timervec im;
  st_mie : Z.testbit (x_csrs s' mie) 7 = true;
  st_mstatus : Z.testbit (x_csrs s' mstatus) 3 = Z.testbit (x_csrs s mstatus) 7 ∧ Z.testbit (x_csrs s' mstatus) 7 = true ∧
    Z.testbit (x_csrs s' mstatus) 11 = false ∧ Z.testbit (x_csrs s' mstatus) 12 = false;
  st_armed : armed (set_priv Machine s') (im_timer_scratch im + 40 * r_mhartid s) (CLINT_MTIMECMP (r_mhartid s)) interval;
  st_cmp : load64 (x_mem s') (CLINT_MTIMECMP (r_mhartid s)) = u64 (load64 (x_mem s) CLINT_MTIME + interval);
}.
Lemma start_csrs im junk s : (∀ k, 0 ≤ x_csrs s k < 2 ^ 64) → image_ok im → 0 ≤ r_mhartid s < NCPU →
  let s' := (start im junk s).2 in
  x_csrs s' satp = 0 ∧ x_csrs s' medeleg = 0xffff ∧ x_csrs s' mideleg = 0x222 ∧ x_csrs s' mtvec = im_timervec im ∧
  x_csrs s' mepc = im_main im ∧ x_csrs s' mscratch = im_timer_scratch im + 40 * r_mhartid s ∧
  x_csrs s' mstatus = u64 (mret_mstatus (start_mstatus (x_csrs s mstatus))) ∧ x_csrs s' mie = u64 (Z.lor (x_csrs s mie) MIE_MTIE) ∧
  x_csrs s' sie = u64 (Z.lor (Z.lor (Z.lor (x_csrs s sie) SIE_SEIE) SIE_STIE) SIE_SSIE).
Proof.
  intros Hc [[H1 H2] H3 H4 [H5 H6]] Hh s'. assert (i32 (r_mhartid s) = r_mhartid s) as Ei by (apply i32_id; unfold NCPU in *; lia).
  assert (0 ≤ im_timer_scratch im + 40 * r_mhartid s < 2 ^ 64) as Hb by (unfold NCPU, KERNBASE in *; lia).
  split_and!; try reflexivity.
  - exact (u64_id _ H4).
  - exact (u64_id _ H3).
  - change (x_csrs s' mscratch) with (u64 (im_timer_scratch im + 40 * i32 (r_mhartid s))). by rewrite Ei, u64_id.
Qed.
Lemma start_mem im junk s : image_ok im → 0 ≤ r_mhartid s < NCPU →
  let b := im_timer_scratch im + 40 * r_mhartid s in let c := CLINT_MTIMECMP (r_mhartid s) in let m := x_mem (start im junk s).2 in
  load64 m (b + 24) = c ∧ load64 m (b + 32) = interval ∧ load64 m c = u64 (load64 (x_mem s) CLINT_MTIME + interval) ∧
  (mem_ok (x_mem s) → mem_ok m) ∧ c + 8 ≤ KERNBASE ≤ b ∧ b + 40 ≤ 2 ^ 64.
Proof.
  intros [_ _ _ [H5 H6]] Hh b c m. assert (i32 (r_mhartid s) = r_mhartid s) as Ei by (apply i32_id; unfold NCPU in *; lia).
  set (v := u64 (load64 (x_mem s) CLINT_MTIME + interval)).
  assert (m = store64 (store64 (store64 (x_mem s) c v) (b + 24) c) (b + 32) interval) as ->.
  { change m with (let id := i32 (r_mhartid s) in let b := im_timer_scratch im + 40 * id in
      store64 (store64 (store64 (x_mem s) (CLINT_MTIMECMP id) v) (b + 24) (CLINT_MTIMECMP id)) (b + 32) interval). by rewrite Ei. }
  assert (c + 8 ≤ KERNBASE ≤ b ∧ b + 40 ≤ 2 ^ 64 ∧ 0 ≤ c) as (Hc & Hb & Hc0).
  { unfold b, c, CLINT_MTIMECMP, CLINT, NCPU, KERNBASE in *. lia. }
  unfold KERNBASE in *. rewrite load64_store64_ne, load64_store64 by lia. rewrite load64_store64 by done.
  rewrite !load64_store64_ne, load64_store64 by (lia || apply u64_range). split_and!; try done; try lia.
  intros Hm. by repeat apply mem_ok_store64.
Qed.
Lemma do_mret_priv s : mret_mpp (x_csrs s mstatus) = 1 → x_priv (do_mret s).2 = Supervisor.
Proof. unfold do_mret. cbv zeta. by intros ->. Qed.
Lemma do_mret_pc s : (do_mret s).1 = x_csrs (do_mret s).2 mepc.
Proof. symmetry. by apply cget_ne. Qed.
Lemma rget_mret s r : rget (do_mret s).2 r = rget s r.
Proof. reflexivity. Qed.
(** The state in which [start] executes [mret]. *)
Definition before_mret (im : image) (junk : reg → Z) (s : mach) : mach :=
  let z := timerinit im (start_csr im s) in rset tp (i32 (r_mhartid z)) (set_regs (λ r, u64 (junk r)) z).
Lemma start_tp im junk s : rget (start im junk s).2 tp = u64 (i32 (r_mhartid s)).
Proof.
  change (start im junk s) with (do_mret (before_mret im junk s)). rewrite rget_mret. unfold before_mret. cbv zeta.
  by rewrite rget_eq.
Qed.
Lemma regs_ok_put64 a v s : regs_ok s → regs_ok (put64 a v s).
Proof. by intros []. Qed.
Lemma regs_ok_priv p s : regs_ok s → regs_ok (set_priv p s).
Proof. by intros []. Qed.
Lemma regs_ok_junk junk s : regs_ok s → regs_ok (set_regs (λ r, u64 (junk r)) s).
Proof. intros [_ H]. split; [|done]. intros r. apply u64_range. Qed.
Lemma start_regs_ok im junk s : regs_ok s → regs_ok (start im junk s).2.
Proof.
  intros H. change (start im junk s) with (do_mret (before_mret im junk s)). unfold do_mret. cbv zeta. cbn [snd].
  apply regs_ok_priv, regs_ok_cset. unfold before_mret. cbv zeta. apply regs_ok_rset, regs_ok_junk. unfold timerinit. cbv zeta.
  do 4 apply regs_ok_cset. do 3 apply regs_ok_put64. unfold start_csr. cbv zeta. by do 8 apply regs_ok_cset.
Qed.
Lemma start_pc im junk s : (start im junk s).1 = x_csrs (start im junk s).2 mepc.
Proof. unfold start. cbv zeta. apply do_mret_pc. Qed.
Lemma start_priv im junk s : x_priv (start im junk s).2 = Supervisor.
Proof.
  change (start im junk s) with (do_mret (before_mret im junk s)). apply do_mret_priv.
  change (x_csrs (before_mret im junk s) mstatus) with (start_mstatus (x_csrs s mstatus)). apply start_mpp.
Qed.
(** The facts about the control registers and the memory put together. *)
Lemma started_of im s pc s' :
  let b := im_timer_scratch im + 40 * r_mhartid s in let c := CLINT_MTIMECMP (r_mhartid s) in
  pc = im_main im → x_priv s' = Supervisor → regs_ok s' → rget s' tp = r_mhartid s →
  (x_csrs s' satp = 0 ∧ x_csrs s' medeleg = 0xffff ∧ x_csrs s' mideleg = 0x222 ∧ x_csrs s' mtvec = im_timervec im ∧
   x_csrs s' mepc = im_main im ∧ x_csrs s' mscratch = b ∧
   x_csrs s' mstatus = u64 (mret_mstatus (start_mstatus (x_csrs s mstatus))) ∧ x_csrs s' mie = u64 (Z.lor (x_csrs s mie) MIE_MTIE) ∧
   x_csrs s' sie = u64 (Z.lor (Z.lor (Z.lor (x_csrs s sie) SIE_SEIE) SIE_STIE) SIE_SSIE)) →
  (load64 (x_mem s') (b + 24) = c ∧ load64 (x_mem s') (b + 32) = interval ∧
   load64 (x_mem s') c = u64 (load64 (x_mem s) CLINT_MTIME + interval) ∧ mem_ok (x_mem s') ∧ c + 8 ≤ KERNBASE ≤ b ∧ b + 40 ≤ 2 ^ 64) →
  started im s pc s'.
Proof.
  intros b c Hpc Hp Hok Ht (C1 & C2 & C3 & C4 & C5 & C6 & C7 & C8 & C9) (M1 & M2 & M3 & M4 & M5 & M6).
  destruct (start_mpp (x_csrs s mstatus)) as [P1 P2]. split; try done.
  - rewrite C9, !u64_testbit, !Z.lor_spec by lia. change (Z.testbit SIE_SEIE 9) with true. change (Z.testbit SIE_STIE 5) with true.
    change (Z.testbit SIE_SSIE 1) with true. by rewrite !orb_true_r.
  - rewrite C8, u64_testbit, Z.lor_spec by lia. change (Z.testbit MIE_MTIE 7) with true. by rewrite orb_true_r.
  - rewrite C7, <- P2. by apply mret_mstatus_bits.
  - fold b c. clearbody b c. unfold KERNBASE in *. split; cbn [set_priv x_priv x_csrs x_mem]; [done|split; [done|lia]|split; [done|lia]|done|lia|done|by apply regs_ok_priv].
Qed.
Lemma start_ok im junk s : image_ok im → 0 ≤ r_mhartid s < NCPU → regs_ok s → mem_ok (x_mem s) →
  started im s (start im junk s).1 (start im junk s).2.
Proof.
  intros HI Hh Hok Hm. pose proof (start_csrs im junk s (proj2 Hok) HI Hh) as HC.
  destruct (start_mem im junk s HI Hh) as (M1 & M2 & M3 & M4 & M5 & M6).
  assert (u64 (i32 (r_mhartid s)) = r_mhartid s) as Ei by (unfold NCPU in Hh; rewrite i32_id, u64_id; lia).
  apply started_of.
  - rewrite start_pc. apply HC.
  - apply start_priv.
  - by apply start_regs_ok.
  - by rewrite start_tp.
  - exact HC.
  - exact (conj M1 (conj M2 (conj M3 (conj (M4 Hm) (conj M5 M6))))).
Qed.

(** C32. From reset to [main]. A hart that starts in machine mode at [_entry] calls [start] with the stack pointer at the
    end of its own 4096 bytes of [stack0], that is [stack0 + (hartid + 1) * 4096], where the comment of entry.S has
    [hartid * 4096]; [start] enters [main] in supervisor mode, with paging off, exceptions and the interrupts of
    supervisor mode delegated to it and enabled, and the number of the hart in [tp], whatever the compiled code leaves in
    the other registers. Timer interrupts are enabled in machine mode, which takes them while the hart is in a lower
    mode, and go to [timervec]; [mscratch] is the hart's own scratch area, set up for it, and the first timer
    interrupt is due one interval after the time [start] read. The bit [MIE] that [start] sets does not outlive the
    [mret], which replaces it by the [MPIE] the hart had at reset. *)
Theorem boot_spec im junk s :
  image_ok im → x_priv s = Machine → 0 ≤ r_mhartid s < NCPU → regs_ok s → mem_ok (x_mem s) →
  ∃ s1, run (entry (im_stack0 im)) s = Some (E_call "start", s1, []) ∧ x_mem s1 = x_mem s ∧
    rget s1 sp = im_stack0 im + 4096 * (r_mhartid s + 1) ∧ x_csrs s1 = x_csrs s ∧
    r_mhartid s1 = r_mhartid s ∧ started im s1 (start im junk s1).1 (start im junk s1).2.
Proof.
  intros HI Hp Hh Hok Hm. destruct (entry_run im s HI Hh) as (s1' & E & Hsp & Hc & Hmem & _ & Hr). exists s1'.
  assert (r_mhartid s1' = r_mhartid s) as Ehart by (unfold r_mhartid; by rewrite Hc).
  split; [exact E|]. split; [exact Hmem|]. split; [exact Hsp|]. split; [exact Hc|].
  split; [exact Ehart|]. apply start_ok; [done|by rewrite Ehart|by apply Hr|by rewrite Hmem].
Qed.

(** Hart 3. *)
Definition an_image : image := Image 0x80009000 0x80000e00 0x80005d00 0x80011000.
Lemma an_image_ok : image_ok an_image.
Proof. split; by vm_compute. Qed.
Definition reset : mach := Mach (λ _, 0) (λ k, if decide (k = mhartid) then 3 else 0) Machine ∅.
Lemma reset_ok : regs_ok reset.
Proof. split; [done|]. intros []; by vm_compute. Qed.
Lemma boot_spec_witness : ∃ s1, run (entry 0x80009000) reset = Some (E_call "start", s1, []) ∧ rget s1 sp = 0x8000d000 ∧
  (start an_image (λ _, 7) s1).1 = 0x80000e00 ∧ rget (start an_image (λ _, 7) s1).2 tp = 3 ∧
  load64 (x_mem (start an_image (λ _, 7) s1).2) 0x2004018 = 1000000.
Proof.
  destruct (boot_spec an_image (λ _, 7) reset an_image_ok eq_refl) as (s1' & E & Hm & Hsp & _ & Hh & H); [by vm_compute|exact reset_ok|exact mem_ok_empty|].
  destruct H as [B1 B2 B3 B4 B5 B6 B7 B8 B9 B10 B11]. exists s1'. split; [exact E|]. split; [exact Hsp|]. split; [exact B1|].
  split; [rewrite B4; exact Hh|]. rewrite Hh, Hm in B11. exact B11.
Defined.

(** Two ticks of a hart that does nothing else. *)
Definition clock_mem : mem := store64 (store64 (store64 ∅ 0x80011090 0x2004018) 0x80011098 1000000) 0x2004018 1000000.
Definition clock_start : mach := Mach (λ _, 0) (λ k, if decide (k = mscratch) then 0x80011078 else 0) Machine clock_mem.
Lemma clock_mem_ok : mem_ok clock_mem.
Proof. unfold clock_mem. do 3 apply mem_ok_store64. exact mem_ok_empty. Qed.
Lemma clock_armed : armed clock_start 0x80011078 0x2004018 1000000.
Proof.
  split; [done|done|by vm_compute|by vm_compute|right; done|exact clock_mem_ok|]. split; [done|]. intros []; by vm_compute.
Qed.
Lemma clock_tick s n : armed s 0x80011078 0x2004018 1000000 → ticks 0x80011078 0x2004018 n clock_start s → regs_ok s →
  ∃ s', ticks 0x80011078 0x2004018 (S n) clock_start s'.
Proof.
  intros HA HT Hr. destruct (timervec_ok s _ _ _ HA) as (s' & E & HK).
  exists (Mach (λ _, 0) (λ k, if decide (k = mscratch) then 0x80011078 else 0) Machine (x_mem s')).
  eapply ticks_one; [exact HT|exact E|]. destruct (ticked_armed _ _ _ _ _ HA HK) as [_ Hs]. split; [done|by rewrite Hs|done|apply HK|].
  split; [done|]. intros []; by vm_compute.
Qed.
Lemma clock_two : ∃ s', ticks 0x80011078 0x2004018 2 clock_start s'.
Proof.
  assert (ticks 0x80011078 0x2004018 0 clock_start clock_start) as H0.
  { apply ticks_none. split; [done|done|done|exact clock_mem_ok|apply clock_armed]. }
  destruct (clock_tick _ _ clock_armed H0 (ar_ok _ _ _ _ clock_armed)) as (z & H1).
  destruct (ticks_armed _ _ 1000000 _ clock_start _ clock_armed H1) as [A1 _]. exact (clock_tick _ _ A1 H1 (ar_ok _ _ _ _ A1)).
Qed.
Lemma timer_spec_witness : ∃ s' s'', load64 (x_mem s') 0x2004018 = 3000000 ∧ run timervec s' = Some (E_mret, s'', []).
Proof.
  destruct clock_two as (s' & H). destruct (timer_spec 0x80011078 0x2004018 1000000 2 clock_start s' clock_armed H) as (E & s'' & E' & _).
  exists s', s''. split; [|exact E']. rewrite E. by vm_compute.
Defined.

(** ** The interrupt controller *)

Lemma load32_put32 a v s b : 0 ≤ v < 2 ^ 32 → a = b ∨ a + 4 ≤ b ∨ b + 4 ≤ a →
  load32 (x_mem (put32 a v s)) b = if decide (a = b) then v else load32 (x_mem s) b.
Proof.
  intros Hv Hab. unfold load32, put32. cbn [x_mem set_mem]. case_decide as Hd.
  - subst b. change 4%nat with (length (le_bytes 4 v)) at 2. rewrite rd_bytes_wr_bytes by apply le_bytes_is_byte. rewrite le_val_bytes. by apply Z.mod_small.
  - rewrite rd_bytes_wr_bytes_out; [done|]. cbn. lia.
Qed.
(** After [plicinit] and, on each hart, [plicinithart], the interrupts of the serial port and of the disk have a priority
    and are the ones enabled on the hart, at any priority; what another hart enabled stays. *)
Theorem plic_ready s : 0 ≤ cpuid s < NCPU →
  let s' := plicinithart (plicinit s) in
  load32 (x_mem s') (PLIC + 4 * UART0_IRQ) = 1 ∧ load32 (x_mem s') (PLIC + 4 * VIRTIO0_IRQ) = 1 ∧
  load32 (x_mem s') (PLIC_SENABLE (cpuid s)) = 2 ^ UART0_IRQ + 2 ^ VIRTIO0_IRQ ∧ load32 (x_mem s') (PLIC_SPRIORITY (cpuid s)) = 0 ∧
  ∀ h, 0 ≤ h < NCPU → h ≠ cpuid s → load32 (x_mem s') (PLIC_SENABLE h) = load32 (x_mem s) (PLIC_SENABLE h).
Proof.
  intros Hh s'. unfold s', plicinithart, plicinit. cbv zeta. set (h := cpuid s) in *. change (cpuid (put32 _ _ (put32 _ _ s))) with h.
  unfold PLIC_SENABLE, PLIC_SPRIORITY, PLIC, UART0_IRQ, VIRTIO0_IRQ, NCPU in *.
  split_and!; [..|intros h' Hh' Hne]; rewrite !load32_put32 by (done || lia); repeat case_decide; try reflexivity; lia.
Qed.
