(* ===== verification/Usys.v ===== *)
(** * Entering the kernel from user code

    The stubs of [user/usys.S] with the numbers of [kernel/syscall.h], and
    [initcode], the first user program, as the bytes of [kernel/proc.c] and as
    the assembly of [user/initcode.S].  Its instructions are decoded from
    memory. *)

From stdpp Require Import options strings.
From S2P Require Import Prelude CString State Sched Proc Syscall Sysfile Trap Riscv.
#[local] Open Scope Z_scope.

(** ** System call numbers and stubs *)

Definition SYS_fork : Z := 1.
Definition SYS_exit : Z := 2.
Definition SYS_wait : Z := 3.
Definition SYS_pipe : Z := 4.
Definition SYS_read : Z := 5.
Definition SYS_kill : Z := 6.
Definition SYS_exec : Z := 7.
Definition SYS_fstat : Z := 8.
Definition SYS_chdir : Z := 9.
Definition SYS_dup : Z := 10.
Definition SYS_getpid : Z := 11.
Definition SYS_sbrk : Z := 12.
Definition SYS_sleep : Z := 13.
Definition SYS_uptime : Z := 14.
Definition SYS_open : Z := 15.
Definition SYS_write : Z := 16.
Definition SYS_mknod : Z := 17.
Definition SYS_unlink : Z := 18.
Definition SYS_link : Z := 19.
Definition SYS_mkdir : Z := 20.
Definition SYS_close : Z := 21.

Definition stub (n : Z) : list instr := [Li a7 n; Ecall; Ret].
(** The labels of [usys.S] and the code at them. *)
Definition usys : list (string * list instr) :=
  [("fork", stub SYS_fork); ("exit", stub SYS_exit); ("wait", stub SYS_wait); ("pipe", stub SYS_pipe); ("read", stub SYS_read);
   ("write", stub SYS_write); ("close", stub SYS_close); ("kill", stub SYS_kill); ("exec", stub SYS_exec); ("open", stub SYS_open);
   ("mknod", stub SYS_mknod); ("unlink", stub SYS_unlink); ("fstat", stub SYS_fstat); ("link", stub SYS_link);
   ("mkdir", stub SYS_mkdir); ("chdir", stub SYS_chdir); ("dup", stub SYS_dup); ("getpid", stub SYS_getpid);
   ("sbrk", stub SYS_sbrk); ("sleep", stub SYS_sleep); ("uptime", stub SYS_uptime)].

(** The handler of a system call, by name. *)
Definition handlers : list (string * K Z) :=
  [("fork", sys_fork); ("exit", sys_exit); ("wait", sys_wait); ("pipe", sys_pipe); ("read", sys_read);
   ("write", sys_write); ("close", sys_close); ("kill", sys_kill); ("exec", sys_exec); ("open", sys_open);
   ("mknod", sys_mknod); ("unlink", sys_unlink); ("fstat", sys_fstat); ("link", sys_link);
   ("mkdir", sys_mkdir); ("chdir", sys_chdir); ("dup", sys_dup); ("getpid", sys_getpid);
   ("sbrk", sys_sbrk); ("sleep", sys_sleep); ("uptime", sys_uptime)].

Lemma stub_run n s : 0 ≤ n < 2 ^ 63 →
  ∃ s', run (stub n) s = Some (E_ecall, s', [Ret]) ∧ rget s' a7 = n ∧ (∀ r, r ≠ a7 → rget s' r = rget s r) ∧ x_mem s' = x_mem s.
Proof.
  intros Hn. exists (rset a7 n s). split; [done|]. split; [rewrite rget_eq by done; apply u64_id; lia|]. split; [|done].
  intros r Hr. by rewrite rget_ne.
Qed.

(** C33. The stubs, [syscall.h] and the table of [syscall.c] agree: calling the stub of a name enters the kernel with the
    other registers, among them the arguments, unchanged, and with a number in [a7] for which the table has the handler of
    that name. When the kernel has put its result in [a0] and resumes the program after the [ecall], the stub returns to its
    caller. *)
Theorem usys_dispatch name code s :
  (name, code) ∈ usys →
  ∃ s' h, run code s = Some (E_ecall, s', [Ret]) ∧ (name, h) ∈ handlers ∧ syscalls (i32 (rget s' a7)) = Some h ∧
    (∀ r, r ≠ a7 → rget s' r = rget s r) ∧ x_mem s' = x_mem s ∧
    ∀ s2, rget s2 ra = rget s' ra → run [Ret] s2 = Some (E_jump (rget s ra), s2, []).
Proof.
  intros Hin. assert (∃ n h, code = stub n ∧ (name, h) ∈ handlers ∧ syscalls n = Some h ∧ 0 ≤ n < 2 ^ 31) as (n & h & -> & Hh & Hs & Hn).
  { unfold usys in Hin. repeat (apply elem_of_cons in Hin as [[= -> ->]|Hin];
      [eexists _, _; split; [reflexivity|]; split; [|split; [reflexivity|done]];
       unfold handlers; repeat (apply elem_of_cons; (left; reflexivity) || right); fail|]). by apply elem_of_nil in Hin. }
  destruct (stub_run n s ltac:(lia)) as (s' & E & H7 & Hr & Hm). exists s', h. split; [done|]. split; [done|].
  split; [by rewrite H7, i32_id by lia|]. split; [done|]. split; [done|]. intros z Hz. cbn [run event_of]. by rewrite Hz, Hr.
Qed.

(** ** Instructions in memory *)

(** Bits [lo..lo+n) of a word, and its value as a signed number of [n] bits. *)
Definition field (w lo n : Z) : Z := Z.land (Z.shiftr w lo) (Z.ones n).
Definition sext (n v : Z) : Z := if v <? 2 ^ (n - 1) then v else v - 2 ^ n.

Inductive uinstr :=
| U_auipc (rd : reg) (imm : Z)
| U_addi (rd rs : reg) (imm : Z)
| U_jal (rd : reg) (off : Z)
| U_ecall.
(** The instructions of the base set that [initcode] uses; [None] for other words. *)
Definition decode (w : Z) : option uinstr :=
  let rd := reg_of (field w 7 5) in
  if field w 0 7 =? 0x17 then Some (U_auipc rd (sext 32 (Z.shiftl (field w 12 20) 12)))
  else if (field w 0 7 =? 0x13) && (field w 12 3 =? 0) then Some (U_addi rd (reg_of (field w 15 5)) (sext 12 (field w 20 12)))
  else if field w 0 7 =? 0x6f then
    Some (U_jal rd (sext 21 (Z.shiftl (field w 31 1) 20 + Z.shiftl (field w 12 8) 12 + Z.shiftl (field w 20 1) 11 + Z.shiftl (field w 21 10) 1)))
  else if w =? 0x73 then Some U_ecall
  else None.

(** A user program: its program counter, registers and memory, at its own addresses. *)
Record ustate := Ustate {
  us_pc : Z;
  us_regs : reg → Z;
  us_mem : mem;
}.
Definition uget (s : ustate) (r : reg) : Z := if decide (r = zero) then 0 else us_regs s r.
Definition uset (r : reg) (v pc : Z) (s : ustate) : ustate :=
  Ustate (u64 pc) (λ r', if decide (r' = r) then u64 v else us_regs s r') (us_mem s).
Definition fetch (s : ustate) : option uinstr := decode (le_val (rd_bytes (us_mem s) (us_pc s) 4)).
(** Run up to an [ecall]; [None] when [fuel] instructions are not enough or one is illegal. *)
Fixpoint urun (fuel : nat) (s : ustate) : option ustate :=
  match fuel with
  | O => None
  | S fuel =>
    match fetch s with
    | Some (U_auipc rd imm) => urun fuel (uset rd (us_pc s + imm) (us_pc s + 4) s)
    | Some (U_addi rd rs imm) => urun fuel (uset rd (uget s rs + imm) (us_pc s + 4) s)
    | Some (U_jal rd off) => urun fuel (uset rd (us_pc s + 4) (us_pc s + off) s)
    | Some U_ecall => Some s
    | None => None
    end
  end.
(** The kernel returns from a system call: the result is in [a0], and execution goes on after the [ecall]. *)
Definition sysret (v : Z) (s : ustate) : ustate := uset a0 v (us_pc s + 4) s.

(** ** initcode *)

(** The assembly of [initcode.S], given the addresses of its data. *)
Definition init_start (init argv : Z) : list instr := [La a0 init; La a1 argv; Li a7 SYS_exec; Ecall].
Definition init_exit : list instr := [Li a7 SYS_exit; Ecall].
Definition init_string : list Z := [47; 105; 110; 105; 116].

(** [initcode] at address 0 of memory that is 0 elsewhere, as [uvminit] leaves it. *)
Definition init_image (m : mem) : Prop := ∀ a, 0 ≤ a < PGSIZE → rd m a = default 0 (initcode !! Z.to_nat a).
Definition init_mem : mem := wr_bytes ∅ 0 initcode.
Lemma init_mem_rd a : 0 ≤ a → rd init_mem a = default 0 (initcode !! Z.to_nat a).
Proof.
  intros Ha. unfold init_mem. rewrite rd_wr_bytes, rd_empty, Z.sub_0_r.
  destruct (decide (0 ≤ a < 0 + Z.of_nat (length initcode))) as [Hi|Hi]; [|rewrite lookup_ge_None_2; [done|lia]].
  apply u8_id. assert (Forall is_byte initcode) as HF by (apply (bool_decide_unpack _); by vm_compute). rewrite Forall_forall in HF.
  destruct (lookup_lt_is_Some_2 initcode (Z.to_nat a) ltac:(lia)) as [b Hb]. rewrite Hb. apply HF. by eapply list_elem_of_lookup_2.
Qed.
Lemma init_rd m a : init_image m → 0 ≤ a < PGSIZE → rd m a = rd init_mem a.
Proof. intros H Ha. rewrite H, init_mem_rd by lia. done. Qed.
Lemma init_mem_image : init_image init_mem.
Proof. intros a Ha. apply init_mem_rd. lia. Qed.
Lemma init_bytes m a n : init_image m → 0 ≤ a → a + Z.of_nat n ≤ PGSIZE → rd_bytes m a n = rd_bytes init_mem a n.
Proof. intros H H0 H1. apply rd_bytes_ext. intros x Hx. apply init_rd; [done|lia]. Qed.
Lemma init_load m a : init_image m → 0 ≤ a → a + 8 ≤ PGSIZE → load64 m a = load64 init_mem a.
Proof. intros H H0 H1. apply load64_ext. intros x Hx. apply init_rd; [done|lia]. Qed.
Lemma init_fetch s pc : us_pc s = pc → init_image (us_mem s) → 0 ≤ pc < 64 → fetch s = decode (le_val (rd_bytes init_mem pc 4)).
Proof. intros Hpc H Hr. unfold fetch. rewrite Hpc, init_bytes; [done|done|lia|unfold PGSIZE; lia]. Qed.

Ltac ustep pc :=
  cbn [urun]; rewrite (init_fetch _ pc) by (done || reflexivity);
  let i := eval vm_compute in (decode (le_val (rd_bytes init_mem pc 4))) in
  change (decode (le_val (rd_bytes init_mem pc 4))) with i; cbv iota beta.

(** At the [ecall] of [exit]. *)
Definition exiting (m : mem) (s : ustate) : Prop := us_pc s = 28 ∧ us_mem s = m ∧ uget s a7 = SYS_exit.

Lemma init_run m f : init_image m →
  ∃ s1, urun 6 (Ustate 0 f m) = Some s1 ∧ us_pc s1 = 20 ∧ us_mem s1 = m ∧
    ∀ r, uget s1 r = match r with a0 => 0x24 | a1 => 0x2b | a7 => SYS_exec | zero => 0 | _ => f r end.
Proof.
  intros Hm. eexists. split; [ustep 0; ustep 4; ustep 8; ustep 12; ustep 16; ustep 20; reflexivity|]. split; [done|]. split; [done|]. by intros [].
Qed.
Lemma init_exits s : us_pc s = 24 → init_image (us_mem s) → ∃ s2, urun 2 s = Some s2 ∧ exiting (us_mem s) s2.
Proof.
  intros Hpc Hm. destruct s as [pc f m]. cbn in Hpc, Hm. subst pc. eexists. split; [ustep 24; ustep 28; reflexivity|done].
Qed.
Lemma init_path m : init_image m → str_at m 0x24 init_string.
Proof. intros Hm. apply (str_at_ext init_mem); [|by vm_compute]. intros a Ha. apply init_rd; [done|]. change (Z.of_nat (length init_string)) with 5 in Ha. unfold PGSIZE. lia. Qed.

(** C30. The bytes of [initcode] in [proc.c] are the program of [initcode.S]. Executed from address 0 of the page
    [uvminit] makes, whatever the registers are, they reach an [ecall] with the registers the assembly computes: the number
    of [exec] in [a7], in [a0] the address of the string "/init", and in [a1] that of an array of that address and a
    null pointer. If [exec] returns, with whatever result, the program calls [exit], and should that return, calls it
    again, forever. *)
Theorem initcode_spec s :
  us_pc s = 0 → init_image (us_mem s) →
  ∃ s1 h init argv, urun 6 s = Some s1 ∧ us_mem s1 = us_mem s ∧
    run (init_start init argv) (Mach (us_regs s) (λ _, 0) User (us_mem s)) = Some (E_ecall, h, []) ∧
    (∀ r, uget s1 r = rget h r) ∧ uget s1 a7 = SYS_exec ∧ uget s1 a0 = init ∧ uget s1 a1 = argv ∧
    str_at (us_mem s) init init_string ∧ load64 (us_mem s) argv = init ∧ load64 (us_mem s) (argv + 8) = 0 ∧
    (∀ v, ∃ s2, urun 2 (sysret v s1) = Some s2 ∧ exiting (us_mem s) s2) ∧
    ∀ s2, exiting (us_mem s) s2 → ∀ v, ∃ s3, urun 3 (sysret v s2) = Some s3 ∧ exiting (us_mem s) s3.
Proof.
  intros Hpc Hm. destruct s as [pc f m]. cbn in Hpc, Hm. subst pc. cbn [us_mem us_regs].
  destruct (init_run m f Hm) as (s1' & E1 & Hpc1 & Hm1 & Hr1). eexists s1', _, 0x24, 0x2b. split; [exact E1|]. split; [exact Hm1|].
  split; [reflexivity|]. split; [intros r; rewrite Hr1; by destruct r|]. split; [by rewrite Hr1|]. split; [by rewrite Hr1|]. split; [by rewrite Hr1|].
  split; [by apply init_path|]. split; [by rewrite init_load|]. split; [by rewrite init_load|]. split.
  - intros v. rewrite <- Hm1. apply (init_exits (sysret v s1')); [cbn; by rewrite Hpc1|cbn; by rewrite Hm1].
  - intros z (Hz & <- & _) v. destruct (init_exits (uset ra 36 24 (sysret v z))) as (y & Ey & Hy); [done|done|]. exists y. split; [|exact Hy]. rewrite <- Ey.
    change 3%nat with (S 2). generalize 2%nat as n. intros n. destruct z as [pc g m']. cbn in Hz. subst pc. by ustep 32.
Qed.
Lemma initcode_spec_witness : ∃ s1, urun 6 (Ustate 0 reg_num init_mem) = Some s1 ∧ uget s1 a7 = SYS_exec ∧
  str_at init_mem (uget s1 a0) init_string.
Proof.
  destruct (initcode_spec (Ustate 0 reg_num init_mem) eq_refl init_mem_image) as (s1' & h & init & argv & E & _ & _ & _ & H7 & <- & _ & Hs & _).
  exists s1'. split; [exact E|]. split; [exact H7|exact Hs].
Defined.
Lemma usys_dispatch_witness : ∃ s', run (stub SYS_exec) (Mach reg_num (λ _, 0) User ∅) = Some (E_ecall, s', [Ret]) ∧
  syscalls (i32 (rget s' a7)) = Some sys_exec.
Proof.
  destruct (usys_dispatch "exec" (stub SYS_exec) (Mach reg_num (λ _, 0) User ∅)) as (s' & h & E & Hh & Hs & _).
  - unfold usys. repeat (apply elem_of_cons; (left; reflexivity) || right).
  - exists s'. split; [exact E|]. injection E as <-. reflexivity.
Defined.
